(* ===== verification/_CoqProject ===== *)
-Q . S2P
Prelude.v
Domain.v
Ids.v
Text.v
Models.v
StoreBase.v
Store.v
SecurityStore.v
ExtensionStore.v
Ledger.v
Identity.v
Permissions.v
Queue.v
ResourceUri.v
Events.v
Envelope.v
Journal.v
Dispatch.v
Feed.v
Drain.v
Runs.v
RunGraph.v
EffectPolicy.v
Effects.v
Scheduler.v
Resources.v
Kernel.v
RunServices.v
Cancellation.v
Turns.v
Bind.v
Coordinator.v
Approvals.v
Recovery.v
Workspace.v
LocalFiles.v
Forks.v
Secrets.v
Profiles.v
Config.v
Resolver.v
Bundles.v
Protocol.v
Supervisor.v
Artifacts.v
Planning.v
LoopFeed.v
WorkerBase.v
Worker.v
WorkerSafety.v
SchedulerWorker.v
LiveBus.v
ApiAuth.v
EventApi.v
Fanout.v
Views.v
ControlApi.v
Devices.v
GatewayAuth.v
GatewayText.v
Gateway.v
GatewayQueries.v
GatewaySite.v
Bootstrap.v
OperatorChain.v
BootConfig.v
InstalledAdapters.v
Boot.v
Sample.v
Witnesses.v
GateWitnesses.v
PipelineWitnesses.v
PortWitnesses.v
ToolWitnesses.v
HostWitnesses.v
PlanWitnesses.v
WorkerWitnesses.v
ApiWitnesses.v
GatewayWitnesses.v
BootWitnesses.v
