(* ===== verification/Prelude.v ===== *)
(** * Agent OS kernel: verification library

    Agent OS runs agents under a durable kernel.  The daemon [agentd] keeps all
    state in one SQLite database; clients change it with commands that the
    coordinator executes in fenced write transactions; runs, turns, effects,
    timers and reservations are rows with revisions, epochs and tokens that
    stale writers cannot pass; every change stages events in an outbox, which a
    dispatcher copies to the journal; adapters, workspaces, secrets and
    configuration hang off the kernel through ports.  Paths below are relative
    to [src/agent-os/crates].

    ** What models what

    - [Prelude]: machine integers, errors ([errors]), the state-and-error monad
      of the services with its inversion lemmas, the [ensures] calculus.
    - [Domain], [Ids], [Text]: the enums of [domain] with their wire and state
      codecs; identifiers, keys and cursors; UTF-8 text and byte framing.
    - [Models], [StoreBase], [Store], [SecurityStore], [ExtensionStore]: the
      rows of [kernel-store/src/models.rs], the tables of
      [schema/kernel_store.sql] as finite maps, the fenced transaction and one
      definition per repository operation of [kernel-store-sqlite/src/repos],
      with the constraint that fails first.  [Ledger]: the append-only tables.
    - [Runs], [RunGraph], [RunServices], [Cancellation], [Turns], [Bind],
      [Recovery]: crate [runtime] with [run-graph]; [EffectPolicy], [Effects]:
      crate [effects]; [Scheduler], [Resources]: the crates of that name;
      [Kernel]: the invariant and the relation all of them keep.
    - [Events], [Envelope], [Journal], [Dispatch], [Feed], [Drain]: crates
      [events] and [event-journal-sqlite]; [Queue]: crate [message-queue].
    - [LiveBus], [EventApi], [Fanout]: live delivery, subscriptions of
      [control-api/src/event_service.rs] and the system of dispatcher, commands
      and subscribers; [ApiAuth], [Views], [ControlApi]: peers, query views and
      handlers of [control-api/src/server.rs].
    - [Devices]: the credential file of the gateway and the processes that update
      it ([agentgw/src/devices.rs]); [GatewayAuth], [GatewayText], [Gateway],
      [GatewayQueries], [GatewaySite]: [agentgw/src/main.rs]: its command line and
      credential check, base64, the command handlers over the control API with
      the index, the views, the routes that tie them together and the staged proposals.
    - [Coordinator]: crate [command-coordinator]; [Identity], [Permissions],
      [Approvals]: the crates of that name; [ResourceUri]: crate
      [resource-uri]; [Secrets]: crate [secrets].
    - [Workspace], [LocalFiles], [Forks]: crate [workspace] (leases, confined
      file access, forks and merges) over a model of a Unix file system;
      [Profiles], [Config]: crate [config-engine]; [Resolver], [Bundles]: crate
      [adapter-registry]; [Artifacts]: crate [artifacts].
    - [Protocol]: crate [adapter-protocol] over a stream of bytes that may end,
      stall or break; [Supervisor]: crates [process-supervisor] and [sandbox].
    - [Planning], [LoopFeed], [WorkerBase], [Worker]: the run worker
      [agentd/src/workers/runs.rs] with [loops.rs]: how it plans a run's
      environment, what it feeds a loop, and every step it takes, as programs
      over atomic transactions, processes and calls.  [WorkerSafety]: a small
      program logic for them and the system of many workers, other services,
      crashes and restarts.  [SchedulerWorker]: the timer worker
      [agentd/src/workers/scheduler.rs] and the pacing of [outbox.rs].
    - [Bootstrap], [OperatorChain], [BootConfig], [Boot]: the start of the daemon
      [agentd/src/bootstrap.rs] with [lock.rs] and [recovery.rs]: the registry of
      all commands, the operator's delegation chain, the configuration document,
      and the whole start on a machine with a disk and advisory locks;
      [InstalledAdapters]: [agentd/src/adapters.rs], the adapters installed under
      the runtime directory and their index.
    - [Sample] and the files of witnesses apply the theorems to states that the
      services themselves build from the empty database.

    A service is a function of the transaction ([Txn]: database, context, and
    how many identifiers and clock readings were drawn) that returns a value or
    an error and the new transaction; its caller drops the transaction on an
    error.  Integers are [Z] with the width of the column written out where it
    matters; SQLite stores [u64] as [i64] and the mapping fails above its range.
    A Rust [str] is the string of its UTF-8 bytes.

    ** What is shown

    - Fencing: one claimant per run, executor and lease tokens, spawn fences,
      turn and decision fences, the daemon's epoch.
    - State machines and invariants over every reachable state: acyclic
      dependencies, budgets, exclusive write authority, the vetted active
      configuration, approvals decided once, timers carried out exactly once.
    - Atomicity and at-most-once execution of commands.
    - The event pipeline refines one committed history per stream, and drains;
      subscriptions deliver it without gap or repetition.
    - The local API acts under the identity of the connection only; unmapped
      peers learn nothing; the graph shown is closed.
    - The gateway: remote requests need credentials, revoked devices stay out,
      concurrent registry updates are serialised, retried requests take effect
      once, approvals name the authenticated device, decisions are all shown.
    - The start: one daemon per runtime directory and one epoch per start, from a
      consistent store to a consistent one; a complete and sound registry; an
      operator who can always settle unknown effects, and nobody else with
      authority; the configuration file in force, rollbacks told from first
      activations by the committed history; enabled adapters and no others.
    - The queue refines an abstract FIFO, stays within its capacity and
      remembers publications after they are acknowledged.
    - Authority: permission decisions, delegation chains that only narrow,
      secrets, approvals and bundles bound to their content up to collisions of
      SHA-256, which are named explicitly.
    - Effects: an adapter executes an effect at most once per claim, whatever
      interleaves; a call over an adapter session ends as the bytes on the wire
      and the deadline say; unknown outcomes are settled under authority;
      handshakes pin identities; instances are never revived.
    - Data: artifacts read back, base64 decodes, a loop's input stays within its
      limits and keeps the spawn guards; directory copies are exact.
    - Confinement of file access, with the case in which it fails; exact profile
      inheritance; deterministic adapter resolution.
    - Termination: every loop with fuel is shown to have enough.  The walk of
      descendants and of reachability takes one turn per stored run, the walk
      along [extends] one per profile and two more, tombstone eviction one per
      tombstone, the probe of a path and [create_dir_all] one per component,
      path resolution follows at most forty links, as Linux does; a
      call reads at most one frame per received byte; the decisions view takes one
      page per five hundred events and one more; the search for an earlier
      activation one page per journaled event and one more.

    ** Assumptions

    Code outside the repository is a class whose fields are arguments of the
    definitions: identifiers, clock, SHA-256 and protobuf encoding ([Ext],
    [Contracts] and the contract decoders beside each handler), JSON and YAML
    ([Json], [RegistryJson], [BundleJson], [ConfigYaml], [PlanJson],
    [SerdeJson]), the UUID text laws ([UuidText], [UuidForm]), frames and calls
    ([FrameCodec], [CallContracts], [WorkerContracts]), [Instant::now]
    ([MonotonicClock]), the wire codec ([WireCodec]), git and directory listings
    ([WorkspaceHost]), the [tokio] broadcast channel ([recv]), the macOS key
    chain ([Keychain]), fault injection ([Faults]), the gateway's identifiers,
    clock and JSON ([GatewayHost], [GatewayCodec], [DeviceJson], [IndexJson]), the
    encoders of the start ([BootCodec]) with their laws ([BootLaws],
    [BootConfigLaws]), the index of installed adapters ([InstallJson]), what a
    checked adapter says ([CheckHost]) and the [Debug] text of strings
    ([DebugText]).  Where a theorem
    relies on a law of such code, the law is a hypothesis and has an instance.

    ** Not modelled

    SQL text and I/O failures of SQLite (a commit succeeds); fork, signals, pipes
    and sockets below the streams and processes of [Protocol] and [WorkerBase];
    the sleeping of the polling loops; the desktop application, the command-line
    client, the entry point of the daemon, the newline-delimited RPC of sample
    adapters and the test kit; the metrics view and the HTTP server of the
    gateway, the listening socket of the control API, the spawning and shutdown of
    the daemon's tasks, tracing; permissions, mounts and concurrent changes of the
    file system; the overflow of the queue's [u64] delivery counter. *)

From stdpp Require Export base gmap strings list sorting fin_maps numbers.
From Stdlib Require Export ZArith Lia.

#[export] Set Default Goal Selector "!".

Open Scope Z_scope.

(** ** Machine integers

    Rust's [i64] and [u64] values are integers in range; the arithmetic the
    kernel uses on them is written out. *)

Definition i64_min : Z := -9223372036854775808.
Definition i64_max : Z := 9223372036854775807.
Definition u64_max : Z := 18446744073709551615.

Definition in_i64 (z : Z) : bool := (i64_min <=? z) && (z <=? i64_max).
Definition in_u64 (z : Z) : bool := (0 <=? z) && (z <=? u64_max).

(** [i64::wrapping_add], what [+] on [i64] computes in a release build. *)
Definition i64_wrapping_add (a b : Z) : Z :=
  (a + b + 9223372036854775808) mod 18446744073709551616 - 9223372036854775808.

Definition u64_wrapping_add (a b : Z) : Z := (a + b) mod 18446744073709551616.

Definition i64_saturating_add (a b : Z) : Z := Z.max i64_min (Z.min i64_max (a + b)).
Definition u64_saturating_add (a b : Z) : Z := Z.min u64_max (a + b).

Definition i64_checked_add (a b : Z) : option Z :=
  if in_i64 (a + b) then Some (a + b) else None.

(** ** Bytes *)

Abbreviation bytes := (list Byte.byte).

#[export] Instance byte_eq_decision : EqDecision Byte.byte := Byte.byte_eq_dec.

(** ** Errors and results (crate [errors]) *)

Inductive ErrorCode :=
  | InvalidArgument | NotFound | Conflict | FailedPrecondition
  | ResourceExhausted | Unavailable | Internal.

Inductive RetryClass := RetryNever | RetrySafe | ReconciliationRequired.

#[export] Instance ErrorCode_eq_dec : EqDecision ErrorCode.
Proof. solve_decision. Defined.
#[export] Instance RetryClass_eq_dec : EqDecision RetryClass.
Proof. solve_decision. Defined.

Definition error_code_as_str (c : ErrorCode) : string :=
  match c with
  | InvalidArgument => "invalid_argument"
  | NotFound => "not_found"
  | Conflict => "conflict"
  | FailedPrecondition => "failed_precondition"
  | ResourceExhausted => "resource_exhausted"
  | Unavailable => "unavailable"
  | Internal => "internal"
  end.

(** [KernelError]; the chained source is never observed by the kernel's own
    logic and is left out. *)
Record KernelError := mkKernelError {
  err_code : ErrorCode;
  err_retry : RetryClass;
  err_message : string }.

Inductive Res (A : Type) :=
  | Ok (a : A)
  | Err (e : KernelError).
Arguments Ok {A}. Arguments Err {A}.

Definition res_map {A B} (f : A -> B) (r : Res A) : Res B :=
  match r with Ok a => Ok (f a) | Err e => Err e end.

Definition res_bind {A B} (r : Res A) (f : A -> Res B) : Res B :=
  match r with Ok a => f a | Err e => Err e end.

(** [Option::ok_or_else]. *)
Definition ok_or {A} (o : option A) (e : KernelError) : Res A :=
  match o with Some a => Ok a | None => Err e end.

Definition is_ok {A} (r : Res A) : bool :=
  match r with Ok _ => true | Err _ => false end.

(** [Option::map(f).transpose()]. *)
Definition opt_traverse {A B} (f : A -> Res B) (o : option A) : Res (option B) :=
  match o with Some a => res_map Some (f a) | None => Ok None end.

(** [iter().map(f).collect::<Result<Vec<_>, _>>()]: the first error wins. *)
Fixpoint res_collect {A B} (f : A -> Res B) (l : list A) : Res (list B) :=
  match l with
  | [] => Ok []
  | a :: l => res_bind (f a) (fun b => res_map (cons b) (res_collect f l))
  end.

(** ** The state-and-error monad

    A service is a function of the transaction it runs in.  An error keeps the
    state reached so far: whether the work is kept is the decision of the
    caller that owns the transaction, who commits it or drops it. *)

Definition ST (S A : Type) : Type := S -> Res A * S.

Section Monad.
Context {S : Type}.

Definition ret {A} (a : A) : ST S A := fun s => (Ok a, s).
Definition raise {A} (e : KernelError) : ST S A := fun s => (Err e, s).
Definition lift_res {A} (r : Res A) : ST S A := fun s => (r, s).

Definition bind {A B} (m : ST S A) (f : A -> ST S B) : ST S B := fun s =>
  match m s with
  | (Ok a, s') => f a s'
  | (Err e, s') => (Err e, s')
  end.

Definition gets {A} (f : S -> A) : ST S A := fun s => (Ok (f s), s).
Definition modify (f : S -> S) : ST S unit := fun s => (Ok tt, f s).

(** [for x in l { body(x)?; }] *)
Fixpoint for_each {A} (l : list A) (body : A -> ST S unit) : ST S unit :=
  match l with
  | [] => ret tt
  | a :: l => bind (body a) (fun _ => for_each l body)
  end.

(** [for x in l { out.push(body(x)?); }] *)
Fixpoint collect_each {A B} (l : list A) (body : A -> ST S B) : ST S (list B) :=
  match l with
  | [] => ret []
  | a :: l => bind (body a) (fun b => bind (collect_each l body) (fun bs => ret (b :: bs)))
  end.
End Monad.

Declare Scope kernel_scope.
Delimit Scope kernel_scope with kernel.
Notation "'let!' x ':=' m 'in' k" := (bind m (fun x => k))
  (at level 10, x binder, m at level 200, k at level 200,
   format "'[v' 'let!'  x  ':='  m  'in' '/' k ']'") : kernel_scope.
Notation "'do!' m 'in' k" := (bind m (fun _ => k))
  (at level 10, m at level 200, k at level 200,
   format "'[v' 'do!'  m  'in' '/' k ']'") : kernel_scope.
Notation "'let?' x ':=' r 'in' k" := (res_bind r (fun x => k))
  (at level 10, x binder, r at level 200, k at level 200) : kernel_scope.
Notation "'guard!' b 'else' e 'in' k" := (if (b : bool) then k else raise e)
  (at level 10, b at level 200, e at level 200, k at level 200) : kernel_scope.
Open Scope kernel_scope.

(** ** Inverting executions *)

Section Inversion.
Context {S : Type}.

Lemma bind_ok_inv {A B} (m : ST S A) (f : A -> ST S B) s b s' :
  bind m f s = (Ok b, s') -> exists a s1, m s = (Ok a, s1) /\ f a s1 = (Ok b, s').
Proof. unfold bind. destruct (m s) as [[a|e] s1] eqn:E; naive_solver. Qed.

Lemma bind_inv {A B} (m : ST S A) (f : A -> ST S B) s r s' :
  bind m f s = (r, s') ->
  (exists a s1, m s = (Ok a, s1) /\ f a s1 = (r, s')) \/
  (exists e, m s = (Err e, s') /\ r = Err e).
Proof. unfold bind. destruct (m s) as [[a|e] s1] eqn:E; naive_solver. Qed.

Lemma bind_step {A B} (m : ST S A) (f : A -> ST S B) s a s1 :
  m s = (Ok a, s1) -> bind m f s = f a s1.
Proof. unfold bind. by intros ->. Qed.

Lemma bind_stop {A B} (m : ST S A) (f : A -> ST S B) s e s1 :
  m s = (Err e, s1) -> bind m f s = (Err e, s1).
Proof. unfold bind. by intros ->. Qed.
End Inversion.

Lemma res_bind_ok_inv {A B} (r : Res A) (f : A -> Res B) b :
  res_bind r f = Ok b -> exists a, r = Ok a /\ f a = Ok b.
Proof. destruct r; naive_solver. Qed.

Lemma ok_or_ok {A} (o : option A) e a : ok_or o e = Ok a <-> o = Some a.
Proof. destruct o; naive_solver. Qed.

Lemma pair_ok_inv {A S} (r : Res A) (s : S) a s' : (r, s) = (Ok a, s') -> r = Ok a /\ s = s'.
Proof. by intros [= -> ->]. Qed.

Lemma res_collect_all {A} (f : A -> Res A) l : (forall x, x ∈ l -> f x = Ok x) -> res_collect f l = Ok l.
Proof.
  induction l as [|a l IH]; intros Hl; simpl; [done|].
  rewrite (Hl a) by set_solver. simpl. rewrite IH by set_solver. done.
Qed.

(** A decoder that only checks returns what it was given. *)
Lemma res_collect_same {A} (f : A -> Res A) l k :
  (forall a b, f a = Ok b -> b = a) -> res_collect f l = Ok k -> k = l /\ forall a, a ∈ l -> f a = Ok a.
Proof.
  intros Hf. revert k. induction l as [|a l IH]; intros k E; simpl in E.
  { injection E as <-. split; [done|]. by intros ? ?%elem_of_nil. }
  apply res_bind_ok_inv in E as (b & Hb & E). destruct (res_collect f l) as [k'|]; [|done].
  simpl in E. injection E as <-. destruct (IH _ eq_refl) as [-> Hall]. pose proof (Hf _ _ Hb) as ->.
  split; [done|]. intros x [->|Hx]%elem_of_cons; auto.
Qed.

Lemma res_collect_ok {A B} (f : A -> Res B) l k :
  res_collect f l = Ok k <-> Forall2 (fun a b => f a = Ok b) l k.
Proof.
  revert k. induction l as [|a l IH]; intros k; simpl.
  { split; [intros [= <-]; constructor|]. by intros ->%Forall2_nil_inv_l. }
  split.
  - intros E. apply res_bind_ok_inv in E as (b & Hb & E). destruct (res_collect f l) as [k'|] eqn:Hk; [|done].
    simpl in E. injection E as <-. constructor; [done|]. by apply IH.
  - intros (b & k' & Hb & Hk & ->)%Forall2_cons_inv_l. rewrite Hb. simpl. by rewrite (proj2 (IH k')).
Qed.

(** Inverts every [... = (Ok _, _)] hypothesis about a sequential program. *)
Ltac inv_ok :=
  repeat match goal with
  | H : bind _ _ _ = (Ok _, _) |- _ =>
      apply bind_ok_inv in H; destruct H as (? & ? & ? & H)
  | H : ret _ _ = (_, _) |- _ => unfold ret in H
  | H : raise _ _ = (Ok _, _) |- _ => discriminate H
  | H : lift_res _ _ = (Ok _, _) |- _ => unfold lift_res in H
  | H : gets _ _ = (_, _) |- _ => unfold gets in H
  | H : modify _ _ = (_, _) |- _ => unfold modify in H
  | H : (Ok _, _) = (Ok _, _) |- _ => injection H as H; subst
  | H : (Err _, _) = (Ok _, _) |- _ => discriminate H
  | H : res_bind _ _ = Ok _ |- _ => apply res_bind_ok_inv in H as (? & ? & H)
  | H : ok_or _ _ = Ok _ |- _ => apply ok_or_ok in H
  | H : (_, _) = (Ok _, _) |- _ => apply pair_ok_inv in H as [H ?]; subst
  | H : Ok _ = Ok _ |- _ => injection H as H; subst
  | H : Err _ = Ok _ |- _ => discriminate H
  | H : false = true |- _ => discriminate H
  | H : true = false |- _ => discriminate H
  end.

(** ** Relations ensured by a program

    [ensures R m]: when [m] succeeds, the state it leaves is [R]-related to the
    one it started from.  (When it fails, the owner of the transaction drops
    the state.)  For a preorder [R] the property composes; the continuation of
    a [bind] may use any fact about the value the first program returned. *)

Definition ensures {S A} (R : S -> S -> Prop) (m : ST S A) : Prop :=
  forall s a s', m s = (Ok a, s') -> R s s'.

(** [returns m P]: every value [m] returns satisfies [P]. *)
Definition returns {S A} (m : ST S A) (P : A -> Prop) : Prop :=
  forall s a s', m s = (Ok a, s') -> P a.

Section Ensures.
Context {S : Type} (R : S -> S -> Prop) `{!PreOrder R}.

Lemma ensures_ret {A} (a : A) : ensures R (ret a).
Proof. intros s b s' [= <- <-]. reflexivity. Qed.
Lemma ensures_raise {A} e : ensures R (raise (A:=A) e).
Proof. intros s b s' [=]. Qed.
Lemma ensures_lift_res {A} (r : Res A) : ensures R (lift_res r).
Proof. intros s b s' [= _ <-]. reflexivity. Qed.
Lemma ensures_gets {A} (f : S -> A) : ensures R (gets f).
Proof. intros s b s' [= _ <-]. reflexivity. Qed.

Lemma ensures_bind_returns {A B} (m : ST S A) (f : A -> ST S B) (P : A -> Prop) :
  ensures R m -> returns m P -> (forall a, P a -> ensures R (f a)) -> ensures R (bind m f).
Proof.
  intros Hm HP Hf s b s' E. apply bind_ok_inv in E as (a & s1 & E1 & E2).
  transitivity s1; [eapply Hm, E1|]. eapply Hf, E2. eapply HP, E1.
Qed.

Lemma ensures_bind {A B} (m : ST S A) (f : A -> ST S B) :
  ensures R m -> (forall a, ensures R (f a)) -> ensures R (bind m f).
Proof. intros Hm Hf. apply (ensures_bind_returns m f (fun _ => True)); [done..|auto]. Qed.

Lemma ensures_for_each {A} (l : list A) (body : A -> ST S unit) :
  (forall a, a ∈ l -> ensures R (body a)) -> ensures R (for_each l body).
Proof.
  induction l as [|a l IH]; intros Hb; simpl; [apply ensures_ret|].
  apply ensures_bind; [apply Hb; set_solver|]. intros _. apply IH. set_solver.
Qed.

Lemma ensures_collect_each {A B} (l : list A) (body : A -> ST S B) :
  (forall a, a ∈ l -> ensures R (body a)) -> ensures R (collect_each l body).
Proof.
  induction l as [|a l IH]; intros Hb; simpl; [apply ensures_ret|].
  apply ensures_bind; [apply Hb; set_solver|]. intros b. apply ensures_bind; [apply IH; set_solver|].
  intros bs. apply ensures_ret.
Qed.
End Ensures.

(** What a collecting loop did to each element, when the body reads only. *)
Lemma collect_each_reads {S A B} (l : list A) (body : A -> ST S B) s bs s' :
  (forall a s b s', body a s = (Ok b, s') -> s' = s) ->
  collect_each l body s = (Ok bs, s') -> s' = s /\ Forall2 (fun a b => body a s = (Ok b, s)) l bs.
Proof.
  intros Hb. revert bs s'. induction l as [|a l IH]; intros bs s' E; simpl in E.
  - injection E as <- <-. split; [done|constructor].
  - apply bind_ok_inv in E as (b & s1 & E1 & E). pose proof (Hb _ _ _ _ E1) as ->.
    apply bind_ok_inv in E as (bs' & s2 & E2 & E). apply IH in E2 as [-> H2]. injection E as <- <-.
    split; [done|]. by constructor.
Qed.

(** [bind] around a value already computed. *)
Lemma returns_bind {S A B} (m : ST S A) (f : A -> ST S B) (P : B -> Prop) :
  (forall a, returns (f a) P) -> returns (bind m f) P.
Proof. intros Hf s b s' E. apply bind_ok_inv in E as (a & s1 & _ & E2). eapply Hf, E2. Qed.

Create HintDb ensures.
#[export] Hint Resolve ensures_ret ensures_raise ensures_lift_res ensures_gets : ensures.

(** Decides [ensures R m] for a program built from known operations: splits
    the sequence and the branches, and looks the operations up in the
    [ensures] database. *)
Ltac solve_ensures :=
  repeat first
    [ solve [eauto 3 with ensures typeclass_instances]
    | match goal with
      | |- ensures _ (bind _ _) =>
          apply ensures_bind; [apply _ | solve [eauto 3 with ensures typeclass_instances] || idtac | intros ?]
      | |- ensures _ (for_each _ _) => apply ensures_for_each; [apply _ | intros ? ?]
      | |- ensures _ (collect_each _ _) => apply ensures_collect_each; [apply _ | intros ? ?]
      | |- ensures _ (if ?b then _ else _) => destruct b eqn:?
      | |- ensures _ (match ?x with _ => _ end) => destruct x eqn:?
      end ].

(** ** Ordered selection from a table

    [SELECT ... WHERE p ORDER BY key]: the rows of a table that satisfy [p],
    in ascending order of a total preorder on keys and rows. *)

Section Select.
Context {V : Type}.

Definition select_by (le : N * V -> N * V -> Prop) `{!RelDecision le}
    (p : V -> bool) (m : gmap N V) : list V :=
  (merge_sort le (map_to_list (filter (fun kv => p kv.2 = true) m))).*2.

Definition key_le (x y : N * V) : Prop := (x.1 <= y.1)%N.

#[export] Instance key_le_dec : RelDecision key_le.
Proof. intros x y. unfold key_le. apply _. Defined.

Definition select (p : V -> bool) (m : gmap N V) : list V := select_by key_le p m.

Lemma elem_of_select_by le `{!RelDecision le} p (m : gmap N V) v :
  v ∈ select_by le p m <-> exists k, m !! k = Some v /\ p v = true.
Proof.
  unfold select_by. rewrite list_elem_of_fmap. split.
  - intros ([k v'] & -> & Hin).
    rewrite merge_sort_Permutation, elem_of_map_to_list, map_lookup_filter_Some in Hin.
    simpl in *. eauto.
  - intros (k & Hk & Hp). exists (k, v). split; [done|].
    rewrite merge_sort_Permutation, elem_of_map_to_list, map_lookup_filter_Some. auto.
Qed.

Lemma elem_of_select p (m : gmap N V) v :
  v ∈ select p m <-> exists k, m !! k = Some v /\ p v = true.
Proof. apply elem_of_select_by. Qed.
End Select.
