(* ===== verification/Domain.v ===== *)
(** * Domain vocabulary (crate [domain])

    The mirror enums of [domain/src/run.rs], [effect.rs], [security.rs] and
    [resource.rs].  The macros [mirror_enum!] and [state_enum!] generate an enum
    and its codecs; each macro is a type class here, whose laws the instances
    prove.  The identifiers of [ids.rs] are UUIDs, modelled by their 128-bit
    value; the keys and the cursor with a text form are at the end. *)

From S2P Require Import Prelude.

Open Scope Z_scope.

(** ** The codec macros *)

Record UnknownEnumValue := mkUnknownEnumValue { uev_value : Z; uev_enum_name : string }.
Record UnknownStateValue := mkUnknownStateValue { usv_value : string; usv_enum_name : string }.

(** What [mirror_enum!] generates: a wire integer for every variant, and a
    decoder that rejects every other integer and names the enum. *)
Class WireEnum (A : Type) := {
  enum_name : string;
  to_wire : A -> Z;
  from_wire : Z -> A + UnknownEnumValue;
  from_to_wire a : from_wire (to_wire a) = inl a;
  from_wire_ok z a : from_wire z = inl a -> to_wire a = z;
  from_wire_err z e : from_wire z = inr e -> e = mkUnknownEnumValue z enum_name }.

(** What [state_enum!] adds: the exact persisted state string. *)
Class StateEnum (A : Type) := {
  state_enum_name : string;
  as_str : A -> string;
  from_state_str : string -> A + UnknownStateValue;
  from_as_str a : from_state_str (as_str a) = inl a;
  from_state_str_ok s a : from_state_str s = inl a -> as_str a = s;
  from_state_str_err s e : from_state_str s = inr e -> e = mkUnknownStateValue s state_enum_name }.

(** Decoders test the value against the literals in turn. *)
Fixpoint decode_by {K A} `{!EqDecision K} (l : list (K * A)) (k : K) : option A :=
  match l with
  | [] => None
  | (k', a) :: l => if decide (k = k') then Some a else decode_by l k
  end.

Ltac solve_codec :=
  lazymatch goal with
  | |- forall a, _ (_ a) = inl a => intros []; reflexivity
  | _ => intros ? ? H; simpl in H; repeat case_decide; simplify_eq/=; reflexivity
  end.

Module RunState.
Inductive RunState :=
  | Unspecified | Created | Ready | Running | WaitingTool | WaitingChild | WaitingHuman | Suspended | Cancelling | Completed | Failed | Cancelled.
End RunState.
Abbreviation RunState := RunState.RunState.
#[export] Instance RunState_eq_dec : EqDecision RunState.
Proof. solve_decision. Defined.

Definition RunState_to_wire (x : RunState) : Z :=
  match x with
  | RunState.Unspecified => 0
  | RunState.Created => 1
  | RunState.Ready => 2
  | RunState.Running => 3
  | RunState.WaitingTool => 4
  | RunState.WaitingChild => 5
  | RunState.WaitingHuman => 6
  | RunState.Suspended => 7
  | RunState.Cancelling => 8
  | RunState.Completed => 9
  | RunState.Failed => 10
  | RunState.Cancelled => 11
  end.

Definition RunState_wires : list (Z * RunState) :=
  [(0, RunState.Unspecified); (1, RunState.Created); (2, RunState.Ready); (3, RunState.Running); (4, RunState.WaitingTool); (5, RunState.WaitingChild); (6, RunState.WaitingHuman); (7, RunState.Suspended); (8, RunState.Cancelling); (9, RunState.Completed); (10, RunState.Failed); (11, RunState.Cancelled)].

Definition RunState_from_wire (z : Z) : RunState + UnknownEnumValue :=
  match decode_by RunState_wires z with
  | Some x => inl x
  | None => inr (mkUnknownEnumValue z "RunState")
  end.

#[export] Program Instance RunState_wire : WireEnum RunState :=
  {| enum_name := "RunState"; to_wire := RunState_to_wire; from_wire := RunState_from_wire |}.
Next Obligation. intros []; reflexivity. Qed.
Next Obligation. unfold RunState_from_wire. solve_codec. Qed.
Next Obligation. unfold RunState_from_wire. solve_codec. Qed.

Module RecoveryDisposition.
Inductive RecoveryDisposition :=
  | Unspecified | Normal | NeedsReconciliation | Recovering | BlockedUnknownEffect | BlockedMissingResource | RequiresHumanDecision.
End RecoveryDisposition.
Abbreviation RecoveryDisposition := RecoveryDisposition.RecoveryDisposition.
#[export] Instance RecoveryDisposition_eq_dec : EqDecision RecoveryDisposition.
Proof. solve_decision. Defined.

Definition RecoveryDisposition_to_wire (x : RecoveryDisposition) : Z :=
  match x with
  | RecoveryDisposition.Unspecified => 0
  | RecoveryDisposition.Normal => 1
  | RecoveryDisposition.NeedsReconciliation => 2
  | RecoveryDisposition.Recovering => 3
  | RecoveryDisposition.BlockedUnknownEffect => 4
  | RecoveryDisposition.BlockedMissingResource => 5
  | RecoveryDisposition.RequiresHumanDecision => 6
  end.

Definition RecoveryDisposition_wires : list (Z * RecoveryDisposition) :=
  [(0, RecoveryDisposition.Unspecified); (1, RecoveryDisposition.Normal); (2, RecoveryDisposition.NeedsReconciliation); (3, RecoveryDisposition.Recovering); (4, RecoveryDisposition.BlockedUnknownEffect); (5, RecoveryDisposition.BlockedMissingResource); (6, RecoveryDisposition.RequiresHumanDecision)].

Definition RecoveryDisposition_from_wire (z : Z) : RecoveryDisposition + UnknownEnumValue :=
  match decode_by RecoveryDisposition_wires z with
  | Some x => inl x
  | None => inr (mkUnknownEnumValue z "RecoveryDisposition")
  end.

#[export] Program Instance RecoveryDisposition_wire : WireEnum RecoveryDisposition :=
  {| enum_name := "RecoveryDisposition"; to_wire := RecoveryDisposition_to_wire; from_wire := RecoveryDisposition_from_wire |}.
Next Obligation. intros []; reflexivity. Qed.
Next Obligation. unfold RecoveryDisposition_from_wire. solve_codec. Qed.
Next Obligation. unfold RecoveryDisposition_from_wire. solve_codec. Qed.

Module EffectClass.
Inductive EffectClass :=
  | Unspecified | ReadOnly | LocalMutation | ExternalMutation | Opaque.
End EffectClass.
Abbreviation EffectClass := EffectClass.EffectClass.
#[export] Instance EffectClass_eq_dec : EqDecision EffectClass.
Proof. solve_decision. Defined.

Definition EffectClass_to_wire (x : EffectClass) : Z :=
  match x with
  | EffectClass.Unspecified => 0
  | EffectClass.ReadOnly => 1
  | EffectClass.LocalMutation => 2
  | EffectClass.ExternalMutation => 3
  | EffectClass.Opaque => 4
  end.

Definition EffectClass_wires : list (Z * EffectClass) :=
  [(0, EffectClass.Unspecified); (1, EffectClass.ReadOnly); (2, EffectClass.LocalMutation); (3, EffectClass.ExternalMutation); (4, EffectClass.Opaque)].

Definition EffectClass_from_wire (z : Z) : EffectClass + UnknownEnumValue :=
  match decode_by EffectClass_wires z with
  | Some x => inl x
  | None => inr (mkUnknownEnumValue z "EffectClass")
  end.

#[export] Program Instance EffectClass_wire : WireEnum EffectClass :=
  {| enum_name := "EffectClass"; to_wire := EffectClass_to_wire; from_wire := EffectClass_from_wire |}.
Next Obligation. intros []; reflexivity. Qed.
Next Obligation. unfold EffectClass_from_wire. solve_codec. Qed.
Next Obligation. unfold EffectClass_from_wire. solve_codec. Qed.

Module IdempotencySemantics.
Inductive IdempotencySemantics :=
  | Unspecified | NaturallyIdempotent | IdempotencyKeySupported | NotIdempotent | UnknownIdempotency.
End IdempotencySemantics.
Abbreviation IdempotencySemantics := IdempotencySemantics.IdempotencySemantics.
#[export] Instance IdempotencySemantics_eq_dec : EqDecision IdempotencySemantics.
Proof. solve_decision. Defined.

Definition IdempotencySemantics_to_wire (x : IdempotencySemantics) : Z :=
  match x with
  | IdempotencySemantics.Unspecified => 0
  | IdempotencySemantics.NaturallyIdempotent => 1
  | IdempotencySemantics.IdempotencyKeySupported => 2
  | IdempotencySemantics.NotIdempotent => 3
  | IdempotencySemantics.UnknownIdempotency => 4
  end.

Definition IdempotencySemantics_wires : list (Z * IdempotencySemantics) :=
  [(0, IdempotencySemantics.Unspecified); (1, IdempotencySemantics.NaturallyIdempotent); (2, IdempotencySemantics.IdempotencyKeySupported); (3, IdempotencySemantics.NotIdempotent); (4, IdempotencySemantics.UnknownIdempotency)].

Definition IdempotencySemantics_from_wire (z : Z) : IdempotencySemantics + UnknownEnumValue :=
  match decode_by IdempotencySemantics_wires z with
  | Some x => inl x
  | None => inr (mkUnknownEnumValue z "IdempotencySemantics")
  end.

#[export] Program Instance IdempotencySemantics_wire : WireEnum IdempotencySemantics :=
  {| enum_name := "IdempotencySemantics"; to_wire := IdempotencySemantics_to_wire; from_wire := IdempotencySemantics_from_wire |}.
Next Obligation. intros []; reflexivity. Qed.
Next Obligation. unfold IdempotencySemantics_from_wire. solve_codec. Qed.
Next Obligation. unfold IdempotencySemantics_from_wire. solve_codec. Qed.

Module ReconciliationSemantics.
Inductive ReconciliationSemantics :=
  | Unspecified | StatusLookup | ResultLookup | DeterministicInspection | Impossible | UnknownReconciliation.
End ReconciliationSemantics.
Abbreviation ReconciliationSemantics := ReconciliationSemantics.ReconciliationSemantics.
#[export] Instance ReconciliationSemantics_eq_dec : EqDecision ReconciliationSemantics.
Proof. solve_decision. Defined.

Definition ReconciliationSemantics_to_wire (x : ReconciliationSemantics) : Z :=
  match x with
  | ReconciliationSemantics.Unspecified => 0
  | ReconciliationSemantics.StatusLookup => 1
  | ReconciliationSemantics.ResultLookup => 2
  | ReconciliationSemantics.DeterministicInspection => 3
  | ReconciliationSemantics.Impossible => 4
  | ReconciliationSemantics.UnknownReconciliation => 5
  end.

Definition ReconciliationSemantics_wires : list (Z * ReconciliationSemantics) :=
  [(0, ReconciliationSemantics.Unspecified); (1, ReconciliationSemantics.StatusLookup); (2, ReconciliationSemantics.ResultLookup); (3, ReconciliationSemantics.DeterministicInspection); (4, ReconciliationSemantics.Impossible); (5, ReconciliationSemantics.UnknownReconciliation)].

Definition ReconciliationSemantics_from_wire (z : Z) : ReconciliationSemantics + UnknownEnumValue :=
  match decode_by ReconciliationSemantics_wires z with
  | Some x => inl x
  | None => inr (mkUnknownEnumValue z "ReconciliationSemantics")
  end.

#[export] Program Instance ReconciliationSemantics_wire : WireEnum ReconciliationSemantics :=
  {| enum_name := "ReconciliationSemantics"; to_wire := ReconciliationSemantics_to_wire; from_wire := ReconciliationSemantics_from_wire |}.
Next Obligation. intros []; reflexivity. Qed.
Next Obligation. unfold ReconciliationSemantics_from_wire. solve_codec. Qed.
Next Obligation. unfold ReconciliationSemantics_from_wire. solve_codec. Qed.

Module EffectState.
Inductive EffectState :=
  | Unspecified | Prepared | Claimed | Dispatched | Acknowledged | Committed | Failed | Cancelled | Unknown.
End EffectState.
Abbreviation EffectState := EffectState.EffectState.
#[export] Instance EffectState_eq_dec : EqDecision EffectState.
Proof. solve_decision. Defined.

Definition EffectState_to_wire (x : EffectState) : Z :=
  match x with
  | EffectState.Unspecified => 0
  | EffectState.Prepared => 1
  | EffectState.Claimed => 2
  | EffectState.Dispatched => 3
  | EffectState.Acknowledged => 4
  | EffectState.Committed => 5
  | EffectState.Failed => 6
  | EffectState.Cancelled => 7
  | EffectState.Unknown => 8
  end.

Definition EffectState_wires : list (Z * EffectState) :=
  [(0, EffectState.Unspecified); (1, EffectState.Prepared); (2, EffectState.Claimed); (3, EffectState.Dispatched); (4, EffectState.Acknowledged); (5, EffectState.Committed); (6, EffectState.Failed); (7, EffectState.Cancelled); (8, EffectState.Unknown)].

Definition EffectState_from_wire (z : Z) : EffectState + UnknownEnumValue :=
  match decode_by EffectState_wires z with
  | Some x => inl x
  | None => inr (mkUnknownEnumValue z "EffectState")
  end.

#[export] Program Instance EffectState_wire : WireEnum EffectState :=
  {| enum_name := "EffectState"; to_wire := EffectState_to_wire; from_wire := EffectState_from_wire |}.
Next Obligation. intros []; reflexivity. Qed.
Next Obligation. unfold EffectState_from_wire. solve_codec. Qed.
Next Obligation. unfold EffectState_from_wire. solve_codec. Qed.

Module SensitivityClass.
Inductive SensitivityClass :=
  | Unspecified | Public | Internal | Confidential | Secret.
End SensitivityClass.
Abbreviation SensitivityClass := SensitivityClass.SensitivityClass.
#[export] Instance SensitivityClass_eq_dec : EqDecision SensitivityClass.
Proof. solve_decision. Defined.

Definition SensitivityClass_to_wire (x : SensitivityClass) : Z :=
  match x with
  | SensitivityClass.Unspecified => 0
  | SensitivityClass.Public => 1
  | SensitivityClass.Internal => 2
  | SensitivityClass.Confidential => 3
  | SensitivityClass.Secret => 4
  end.

Definition SensitivityClass_wires : list (Z * SensitivityClass) :=
  [(0, SensitivityClass.Unspecified); (1, SensitivityClass.Public); (2, SensitivityClass.Internal); (3, SensitivityClass.Confidential); (4, SensitivityClass.Secret)].

Definition SensitivityClass_from_wire (z : Z) : SensitivityClass + UnknownEnumValue :=
  match decode_by SensitivityClass_wires z with
  | Some x => inl x
  | None => inr (mkUnknownEnumValue z "SensitivityClass")
  end.

#[export] Program Instance SensitivityClass_wire : WireEnum SensitivityClass :=
  {| enum_name := "SensitivityClass"; to_wire := SensitivityClass_to_wire; from_wire := SensitivityClass_from_wire |}.
Next Obligation. intros []; reflexivity. Qed.
Next Obligation. unfold SensitivityClass_from_wire. solve_codec. Qed.
Next Obligation. unfold SensitivityClass_from_wire. solve_codec. Qed.

Module RetentionClass.
Inductive RetentionClass :=
  | Unspecified | Ephemeral | Standard | Audit.
End RetentionClass.
Abbreviation RetentionClass := RetentionClass.RetentionClass.
#[export] Instance RetentionClass_eq_dec : EqDecision RetentionClass.
Proof. solve_decision. Defined.

Definition RetentionClass_to_wire (x : RetentionClass) : Z :=
  match x with
  | RetentionClass.Unspecified => 0
  | RetentionClass.Ephemeral => 1
  | RetentionClass.Standard => 2
  | RetentionClass.Audit => 3
  end.

Definition RetentionClass_wires : list (Z * RetentionClass) :=
  [(0, RetentionClass.Unspecified); (1, RetentionClass.Ephemeral); (2, RetentionClass.Standard); (3, RetentionClass.Audit)].

Definition RetentionClass_from_wire (z : Z) : RetentionClass + UnknownEnumValue :=
  match decode_by RetentionClass_wires z with
  | Some x => inl x
  | None => inr (mkUnknownEnumValue z "RetentionClass")
  end.

#[export] Program Instance RetentionClass_wire : WireEnum RetentionClass :=
  {| enum_name := "RetentionClass"; to_wire := RetentionClass_to_wire; from_wire := RetentionClass_from_wire |}.
Next Obligation. intros []; reflexivity. Qed.
Next Obligation. unfold RetentionClass_from_wire. solve_codec. Qed.
Next Obligation. unfold RetentionClass_from_wire. solve_codec. Qed.

Module WorkspaceAccessMode.
Inductive WorkspaceAccessMode :=
  | Unspecified | ReadOnly | ExclusiveWrite | IsolatedFork | SharedCoordinatedWrite.
End WorkspaceAccessMode.
Abbreviation WorkspaceAccessMode := WorkspaceAccessMode.WorkspaceAccessMode.
#[export] Instance WorkspaceAccessMode_eq_dec : EqDecision WorkspaceAccessMode.
Proof. solve_decision. Defined.

Definition WorkspaceAccessMode_to_wire (x : WorkspaceAccessMode) : Z :=
  match x with
  | WorkspaceAccessMode.Unspecified => 0
  | WorkspaceAccessMode.ReadOnly => 1
  | WorkspaceAccessMode.ExclusiveWrite => 2
  | WorkspaceAccessMode.IsolatedFork => 3
  | WorkspaceAccessMode.SharedCoordinatedWrite => 4
  end.

Definition WorkspaceAccessMode_wires : list (Z * WorkspaceAccessMode) :=
  [(0, WorkspaceAccessMode.Unspecified); (1, WorkspaceAccessMode.ReadOnly); (2, WorkspaceAccessMode.ExclusiveWrite); (3, WorkspaceAccessMode.IsolatedFork); (4, WorkspaceAccessMode.SharedCoordinatedWrite)].

Definition WorkspaceAccessMode_from_wire (z : Z) : WorkspaceAccessMode + UnknownEnumValue :=
  match decode_by WorkspaceAccessMode_wires z with
  | Some x => inl x
  | None => inr (mkUnknownEnumValue z "WorkspaceAccessMode")
  end.

#[export] Program Instance WorkspaceAccessMode_wire : WireEnum WorkspaceAccessMode :=
  {| enum_name := "WorkspaceAccessMode"; to_wire := WorkspaceAccessMode_to_wire; from_wire := WorkspaceAccessMode_from_wire |}.
Next Obligation. intros []; reflexivity. Qed.
Next Obligation. unfold WorkspaceAccessMode_from_wire. solve_codec. Qed.
Next Obligation. unfold WorkspaceAccessMode_from_wire. solve_codec. Qed.

Module DependencyCondition.
Inductive DependencyCondition :=
  | Unspecified | CompletedSuccessfully | AnyTerminal | CompletedOrCancelled.
End DependencyCondition.
Abbreviation DependencyCondition := DependencyCondition.DependencyCondition.
#[export] Instance DependencyCondition_eq_dec : EqDecision DependencyCondition.
Proof. solve_decision. Defined.

Definition DependencyCondition_to_wire (x : DependencyCondition) : Z :=
  match x with
  | DependencyCondition.Unspecified => 0
  | DependencyCondition.CompletedSuccessfully => 1
  | DependencyCondition.AnyTerminal => 2
  | DependencyCondition.CompletedOrCancelled => 3
  end.

Definition DependencyCondition_wires : list (Z * DependencyCondition) :=
  [(0, DependencyCondition.Unspecified); (1, DependencyCondition.CompletedSuccessfully); (2, DependencyCondition.AnyTerminal); (3, DependencyCondition.CompletedOrCancelled)].

Definition DependencyCondition_from_wire (z : Z) : DependencyCondition + UnknownEnumValue :=
  match decode_by DependencyCondition_wires z with
  | Some x => inl x
  | None => inr (mkUnknownEnumValue z "DependencyCondition")
  end.

#[export] Program Instance DependencyCondition_wire : WireEnum DependencyCondition :=
  {| enum_name := "DependencyCondition"; to_wire := DependencyCondition_to_wire; from_wire := DependencyCondition_from_wire |}.
Next Obligation. intros []; reflexivity. Qed.
Next Obligation. unfold DependencyCondition_from_wire. solve_codec. Qed.
Next Obligation. unfold DependencyCondition_from_wire. solve_codec. Qed.

Module TrustState.
Inductive TrustState :=
  | Trusted | Untrusted.
End TrustState.
Abbreviation TrustState := TrustState.TrustState.
#[export] Instance TrustState_eq_dec : EqDecision TrustState.
Proof. solve_decision. Defined.

Definition TrustState_to_wire (x : TrustState) : Z :=
  match x with
  | TrustState.Trusted => 1
  | TrustState.Untrusted => 2
  end.

Definition TrustState_wires : list (Z * TrustState) :=
  [(1, TrustState.Trusted); (2, TrustState.Untrusted)].

Definition TrustState_from_wire (z : Z) : TrustState + UnknownEnumValue :=
  match decode_by TrustState_wires z with
  | Some x => inl x
  | None => inr (mkUnknownEnumValue z "TrustState")
  end.

#[export] Program Instance TrustState_wire : WireEnum TrustState :=
  {| enum_name := "TrustState"; to_wire := TrustState_to_wire; from_wire := TrustState_from_wire |}.
Next Obligation. intros []; reflexivity. Qed.
Next Obligation. unfold TrustState_from_wire. solve_codec. Qed.
Next Obligation. unfold TrustState_from_wire. solve_codec. Qed.

Definition TrustState_as_str (x : TrustState) : string :=
  match x with
  | TrustState.Trusted => "trusted"
  | TrustState.Untrusted => "untrusted"
  end.

Definition TrustState_strs : list (string * TrustState) :=
  [("trusted"%string, TrustState.Trusted); ("untrusted"%string, TrustState.Untrusted)].

Definition TrustState_from_state_str (s : string) : TrustState + UnknownStateValue :=
  match decode_by TrustState_strs s with
  | Some x => inl x
  | None => inr (mkUnknownStateValue s "TrustState")
  end.

#[export] Program Instance TrustState_state : StateEnum TrustState :=
  {| state_enum_name := "TrustState"; as_str := TrustState_as_str; from_state_str := TrustState_from_state_str |}.
Next Obligation. intros []; reflexivity. Qed.
Next Obligation. unfold TrustState_from_state_str. solve_codec. Qed.
Next Obligation. unfold TrustState_from_state_str. solve_codec. Qed.

Module ConformanceState.
Inductive ConformanceState :=
  | Untested | Passed | Failed.
End ConformanceState.
Abbreviation ConformanceState := ConformanceState.ConformanceState.
#[export] Instance ConformanceState_eq_dec : EqDecision ConformanceState.
Proof. solve_decision. Defined.

Definition ConformanceState_to_wire (x : ConformanceState) : Z :=
  match x with
  | ConformanceState.Untested => 1
  | ConformanceState.Passed => 2
  | ConformanceState.Failed => 3
  end.

Definition ConformanceState_wires : list (Z * ConformanceState) :=
  [(1, ConformanceState.Untested); (2, ConformanceState.Passed); (3, ConformanceState.Failed)].

Definition ConformanceState_from_wire (z : Z) : ConformanceState + UnknownEnumValue :=
  match decode_by ConformanceState_wires z with
  | Some x => inl x
  | None => inr (mkUnknownEnumValue z "ConformanceState")
  end.

#[export] Program Instance ConformanceState_wire : WireEnum ConformanceState :=
  {| enum_name := "ConformanceState"; to_wire := ConformanceState_to_wire; from_wire := ConformanceState_from_wire |}.
Next Obligation. intros []; reflexivity. Qed.
Next Obligation. unfold ConformanceState_from_wire. solve_codec. Qed.
Next Obligation. unfold ConformanceState_from_wire. solve_codec. Qed.

Definition ConformanceState_as_str (x : ConformanceState) : string :=
  match x with
  | ConformanceState.Untested => "untested"
  | ConformanceState.Passed => "passed"
  | ConformanceState.Failed => "failed"
  end.

Definition ConformanceState_strs : list (string * ConformanceState) :=
  [("untested"%string, ConformanceState.Untested); ("passed"%string, ConformanceState.Passed); ("failed"%string, ConformanceState.Failed)].

Definition ConformanceState_from_state_str (s : string) : ConformanceState + UnknownStateValue :=
  match decode_by ConformanceState_strs s with
  | Some x => inl x
  | None => inr (mkUnknownStateValue s "ConformanceState")
  end.

#[export] Program Instance ConformanceState_state : StateEnum ConformanceState :=
  {| state_enum_name := "ConformanceState"; as_str := ConformanceState_as_str; from_state_str := ConformanceState_from_state_str |}.
Next Obligation. intros []; reflexivity. Qed.
Next Obligation. unfold ConformanceState_from_state_str. solve_codec. Qed.
Next Obligation. unfold ConformanceState_from_state_str. solve_codec. Qed.

Module ApprovalState.
Inductive ApprovalState :=
  | Pending | Approved | Denied | Expired.
End ApprovalState.
Abbreviation ApprovalState := ApprovalState.ApprovalState.
#[export] Instance ApprovalState_eq_dec : EqDecision ApprovalState.
Proof. solve_decision. Defined.

Definition ApprovalState_to_wire (x : ApprovalState) : Z :=
  match x with
  | ApprovalState.Pending => 1
  | ApprovalState.Approved => 2
  | ApprovalState.Denied => 3
  | ApprovalState.Expired => 4
  end.

Definition ApprovalState_wires : list (Z * ApprovalState) :=
  [(1, ApprovalState.Pending); (2, ApprovalState.Approved); (3, ApprovalState.Denied); (4, ApprovalState.Expired)].

Definition ApprovalState_from_wire (z : Z) : ApprovalState + UnknownEnumValue :=
  match decode_by ApprovalState_wires z with
  | Some x => inl x
  | None => inr (mkUnknownEnumValue z "ApprovalState")
  end.

#[export] Program Instance ApprovalState_wire : WireEnum ApprovalState :=
  {| enum_name := "ApprovalState"; to_wire := ApprovalState_to_wire; from_wire := ApprovalState_from_wire |}.
Next Obligation. intros []; reflexivity. Qed.
Next Obligation. unfold ApprovalState_from_wire. solve_codec. Qed.
Next Obligation. unfold ApprovalState_from_wire. solve_codec. Qed.

Definition ApprovalState_as_str (x : ApprovalState) : string :=
  match x with
  | ApprovalState.Pending => "pending"
  | ApprovalState.Approved => "approved"
  | ApprovalState.Denied => "denied"
  | ApprovalState.Expired => "expired"
  end.

Definition ApprovalState_strs : list (string * ApprovalState) :=
  [("pending"%string, ApprovalState.Pending); ("approved"%string, ApprovalState.Approved); ("denied"%string, ApprovalState.Denied); ("expired"%string, ApprovalState.Expired)].

Definition ApprovalState_from_state_str (s : string) : ApprovalState + UnknownStateValue :=
  match decode_by ApprovalState_strs s with
  | Some x => inl x
  | None => inr (mkUnknownStateValue s "ApprovalState")
  end.

#[export] Program Instance ApprovalState_state : StateEnum ApprovalState :=
  {| state_enum_name := "ApprovalState"; as_str := ApprovalState_as_str; from_state_str := ApprovalState_from_state_str |}.
Next Obligation. intros []; reflexivity. Qed.
Next Obligation. unfold ApprovalState_from_state_str. solve_codec. Qed.
Next Obligation. unfold ApprovalState_from_state_str. solve_codec. Qed.

Module LeaseEnforcementState.
Inductive LeaseEnforcementState :=
  | Active | Revoked.
End LeaseEnforcementState.
Abbreviation LeaseEnforcementState := LeaseEnforcementState.LeaseEnforcementState.
#[export] Instance LeaseEnforcementState_eq_dec : EqDecision LeaseEnforcementState.
Proof. solve_decision. Defined.

Definition LeaseEnforcementState_to_wire (x : LeaseEnforcementState) : Z :=
  match x with
  | LeaseEnforcementState.Active => 1
  | LeaseEnforcementState.Revoked => 2
  end.

Definition LeaseEnforcementState_wires : list (Z * LeaseEnforcementState) :=
  [(1, LeaseEnforcementState.Active); (2, LeaseEnforcementState.Revoked)].

Definition LeaseEnforcementState_from_wire (z : Z) : LeaseEnforcementState + UnknownEnumValue :=
  match decode_by LeaseEnforcementState_wires z with
  | Some x => inl x
  | None => inr (mkUnknownEnumValue z "LeaseEnforcementState")
  end.

#[export] Program Instance LeaseEnforcementState_wire : WireEnum LeaseEnforcementState :=
  {| enum_name := "LeaseEnforcementState"; to_wire := LeaseEnforcementState_to_wire; from_wire := LeaseEnforcementState_from_wire |}.
Next Obligation. intros []; reflexivity. Qed.
Next Obligation. unfold LeaseEnforcementState_from_wire. solve_codec. Qed.
Next Obligation. unfold LeaseEnforcementState_from_wire. solve_codec. Qed.

Definition LeaseEnforcementState_as_str (x : LeaseEnforcementState) : string :=
  match x with
  | LeaseEnforcementState.Active => "active"
  | LeaseEnforcementState.Revoked => "revoked"
  end.

Definition LeaseEnforcementState_strs : list (string * LeaseEnforcementState) :=
  [("active"%string, LeaseEnforcementState.Active); ("revoked"%string, LeaseEnforcementState.Revoked)].

Definition LeaseEnforcementState_from_state_str (s : string) : LeaseEnforcementState + UnknownStateValue :=
  match decode_by LeaseEnforcementState_strs s with
  | Some x => inl x
  | None => inr (mkUnknownStateValue s "LeaseEnforcementState")
  end.

#[export] Program Instance LeaseEnforcementState_state : StateEnum LeaseEnforcementState :=
  {| state_enum_name := "LeaseEnforcementState"; as_str := LeaseEnforcementState_as_str; from_state_str := LeaseEnforcementState_from_state_str |}.
Next Obligation. intros []; reflexivity. Qed.
Next Obligation. unfold LeaseEnforcementState_from_state_str. solve_codec. Qed.
Next Obligation. unfold LeaseEnforcementState_from_state_str. solve_codec. Qed.

Module TimerState.
Inductive TimerState :=
  | Scheduled | Claimed | Fired | Cancelled.
End TimerState.
Abbreviation TimerState := TimerState.TimerState.
#[export] Instance TimerState_eq_dec : EqDecision TimerState.
Proof. solve_decision. Defined.

Definition TimerState_to_wire (x : TimerState) : Z :=
  match x with
  | TimerState.Scheduled => 1
  | TimerState.Claimed => 2
  | TimerState.Fired => 3
  | TimerState.Cancelled => 4
  end.

Definition TimerState_wires : list (Z * TimerState) :=
  [(1, TimerState.Scheduled); (2, TimerState.Claimed); (3, TimerState.Fired); (4, TimerState.Cancelled)].

Definition TimerState_from_wire (z : Z) : TimerState + UnknownEnumValue :=
  match decode_by TimerState_wires z with
  | Some x => inl x
  | None => inr (mkUnknownEnumValue z "TimerState")
  end.

#[export] Program Instance TimerState_wire : WireEnum TimerState :=
  {| enum_name := "TimerState"; to_wire := TimerState_to_wire; from_wire := TimerState_from_wire |}.
Next Obligation. intros []; reflexivity. Qed.
Next Obligation. unfold TimerState_from_wire. solve_codec. Qed.
Next Obligation. unfold TimerState_from_wire. solve_codec. Qed.

Definition TimerState_as_str (x : TimerState) : string :=
  match x with
  | TimerState.Scheduled => "scheduled"
  | TimerState.Claimed => "claimed"
  | TimerState.Fired => "fired"
  | TimerState.Cancelled => "cancelled"
  end.

Definition TimerState_strs : list (string * TimerState) :=
  [("scheduled"%string, TimerState.Scheduled); ("claimed"%string, TimerState.Claimed); ("fired"%string, TimerState.Fired); ("cancelled"%string, TimerState.Cancelled)].

Definition TimerState_from_state_str (s : string) : TimerState + UnknownStateValue :=
  match decode_by TimerState_strs s with
  | Some x => inl x
  | None => inr (mkUnknownStateValue s "TimerState")
  end.

#[export] Program Instance TimerState_state : StateEnum TimerState :=
  {| state_enum_name := "TimerState"; as_str := TimerState_as_str; from_state_str := TimerState_from_state_str |}.
Next Obligation. intros []; reflexivity. Qed.
Next Obligation. unfold TimerState_from_state_str. solve_codec. Qed.
Next Obligation. unfold TimerState_from_state_str. solve_codec. Qed.

Module ReservationState.
Inductive ReservationState :=
  | Reserved | Allocated | Released | Expired | Unknown.
End ReservationState.
Abbreviation ReservationState := ReservationState.ReservationState.
#[export] Instance ReservationState_eq_dec : EqDecision ReservationState.
Proof. solve_decision. Defined.

Definition ReservationState_to_wire (x : ReservationState) : Z :=
  match x with
  | ReservationState.Reserved => 1
  | ReservationState.Allocated => 2
  | ReservationState.Released => 3
  | ReservationState.Expired => 4
  | ReservationState.Unknown => 5
  end.

Definition ReservationState_wires : list (Z * ReservationState) :=
  [(1, ReservationState.Reserved); (2, ReservationState.Allocated); (3, ReservationState.Released); (4, ReservationState.Expired); (5, ReservationState.Unknown)].

Definition ReservationState_from_wire (z : Z) : ReservationState + UnknownEnumValue :=
  match decode_by ReservationState_wires z with
  | Some x => inl x
  | None => inr (mkUnknownEnumValue z "ReservationState")
  end.

#[export] Program Instance ReservationState_wire : WireEnum ReservationState :=
  {| enum_name := "ReservationState"; to_wire := ReservationState_to_wire; from_wire := ReservationState_from_wire |}.
Next Obligation. intros []; reflexivity. Qed.
Next Obligation. unfold ReservationState_from_wire. solve_codec. Qed.
Next Obligation. unfold ReservationState_from_wire. solve_codec. Qed.

Definition ReservationState_as_str (x : ReservationState) : string :=
  match x with
  | ReservationState.Reserved => "reserved"
  | ReservationState.Allocated => "allocated"
  | ReservationState.Released => "released"
  | ReservationState.Expired => "expired"
  | ReservationState.Unknown => "unknown"
  end.

Definition ReservationState_strs : list (string * ReservationState) :=
  [("reserved"%string, ReservationState.Reserved); ("allocated"%string, ReservationState.Allocated); ("released"%string, ReservationState.Released); ("expired"%string, ReservationState.Expired); ("unknown"%string, ReservationState.Unknown)].

Definition ReservationState_from_state_str (s : string) : ReservationState + UnknownStateValue :=
  match decode_by ReservationState_strs s with
  | Some x => inl x
  | None => inr (mkUnknownStateValue s "ReservationState")
  end.

#[export] Program Instance ReservationState_state : StateEnum ReservationState :=
  {| state_enum_name := "ReservationState"; as_str := ReservationState_as_str; from_state_str := ReservationState_from_state_str |}.
Next Obligation. intros []; reflexivity. Qed.
Next Obligation. unfold ReservationState_from_state_str. solve_codec. Qed.
Next Obligation. unfold ReservationState_from_state_str. solve_codec. Qed.

