(* ===== verification/Ids.v ===== *)
(** * Identifiers, keys and cursors with a text form ([domain/src/ids.rs])

    Identifiers are UUIDs; every newtype of [uuid_newtype!] wraps the same
    value, so they are abbreviations of [N] (the 128-bit value).  The [uuid]
    crate, SHA-256 and the protobuf codec are not part of the repository: they
    are the fields of [Ext], an argument of every definition that uses them. *)

From Stdlib Require Export Ascii.
From Stdlib Require Import String.
From Stdlib Require Import DecimalString DecimalPos DecimalN DecimalFacts.
From S2P Require Import Prelude Domain.

Open Scope string_scope.
Open Scope Z_scope.

Abbreviation Uuid := N (only parsing).
Abbreviation RunId := N (only parsing).
Abbreviation TaskId := N (only parsing).
Abbreviation SessionId := N (only parsing).
Abbreviation EffectId := N (only parsing).
Abbreviation EventId := N (only parsing).
Abbreviation WorkspaceId := N (only parsing).
Abbreviation LeaseId := N (only parsing).
Abbreviation ReservationId := N (only parsing).
Abbreviation TimerId := N (only parsing).
Abbreviation PrincipalId := N (only parsing).
Abbreviation ActorId := N (only parsing).
Abbreviation DeviceId := N (only parsing).
Abbreviation CommandId := N (only parsing).
Abbreviation DecisionId := N (only parsing).
Abbreviation TurnId := N (only parsing).
Abbreviation AgentSpecId := N (only parsing).
Abbreviation AdapterId := N (only parsing).
Abbreviation ArtifactId := N (only parsing).
Abbreviation AdapterInstanceId := N (only parsing).
Abbreviation DependencyId := N (only parsing).
Abbreviation DelegationChainId := N (only parsing).
Abbreviation EnvironmentId := N (only parsing).
Abbreviation DaemonInstanceId := N (only parsing).
Abbreviation ConfigGenerationId := N (only parsing).
Abbreviation CapabilityGrantId := N (only parsing).
Abbreviation ApprovalRequestId := N (only parsing).

(** ** Byte classes *)

Definition byte_in (lo hi : nat) (c : ascii) : bool :=
  (lo <=? nat_of_ascii c)%nat && (nat_of_ascii c <=? hi)%nat.

Definition is_ascii_digit (c : ascii) : bool := byte_in 48 57 c.
Definition is_ascii_lowercase (c : ascii) : bool := byte_in 97 122 c.
Definition is_ascii_control (c : ascii) : bool :=
  byte_in 0 31 c || (nat_of_ascii c =? 127)%nat.

Definition str_all (p : ascii -> bool) (s : string) : bool :=
  forallb p (String.list_ascii_of_string s).

(** [str::is_empty] and [str::len]. *)
Definition str_is_empty (s : string) : bool :=
  match s with EmptyString => true | _ => false end.
Definition str_len (s : string) : Z := Z.of_nat (String.length s).

(** [str::strip_prefix]. *)
Fixpoint strip_prefix (p s : string) : option string :=
  match p, s with
  | EmptyString, _ => Some s
  | String a p, String b s => if decide (a = b) then strip_prefix p s else None
  | String _ _, EmptyString => None
  end.

(** [str::starts_with]. *)
Definition starts_with (p s : string) : bool :=
  match strip_prefix p s with Some _ => true | None => false end.

(** [str::rsplit_once] with a one-byte separator: splits at its last occurrence. *)
Fixpoint rsplit_once (c : ascii) (s : string) : option (string * string) :=
  match s with
  | EmptyString => None
  | String a s =>
      match rsplit_once c s with
      | Some (l, r) => Some (String a l, r)
      | None => if decide (a = c) then Some (EmptyString, s) else None
      end
  end.

(** ** UUIDs *)

(** [is_canonical_hyphenated]. *)
Definition canonical_byte (index : nat) (c : ascii) : bool :=
  if decide (index ∈ [8; 13; 18; 23]%nat)
  then (nat_of_ascii c =? 45)%nat
  else is_ascii_digit c || byte_in 97 102 c.

Fixpoint all_enumerated (p : nat -> ascii -> bool) (i : nat) (l : list ascii) : bool :=
  match l with
  | [] => true
  | c :: l => p i c && all_enumerated p (S i) l
  end.

Definition is_canonical_hyphenated (text : string) : bool :=
  (String.length text =? 36)%nat &&
  all_enumerated canonical_byte 0 (String.list_ascii_of_string text).

(** ** Keys *)

(** [IdempotencyKey::new]. *)
Definition idempotency_key_new (value : string) : option string :=
  if str_is_empty value || (255 <? str_len value) ||
     negb (str_all (fun c => negb (is_ascii_control c)) value)
  then None else Some value.

Definition is_stream_key_byte (c : ascii) : bool :=
  is_ascii_lowercase c || is_ascii_digit c ||
  (nat_of_ascii c =? 45)%nat || (nat_of_ascii c =? 46)%nat || (nat_of_ascii c =? 47)%nat.

(** [EventStreamKey::new]. *)
Definition event_stream_key_new (value : string) : option string :=
  if str_is_empty value || negb (str_all is_stream_key_byte value) then None else Some value.

(** ** Cursors *)

Record EventCursor := mkEventCursor { cursor_stream_key : string; cursor_sequence : Z }.

#[export] Instance EventCursor_eq_dec : EqDecision EventCursor.
Proof. solve_decision. Defined.

(** [Display] of a [u64]. *)
Definition u64_to_string (z : Z) : string := NilZero.string_of_uint (N.to_uint (Z.to_N z)).

(** [Display] of an [i64]. *)
Definition i64_to_string (z : Z) : string :=
  if z <? 0 then "-" +:+ u64_to_string (- z) else u64_to_string z.

(** [Display for EventCursor]. *)
Definition cursor_to_string (c : EventCursor) : string :=
  "v1:" +:+ cursor_stream_key c +:+ ":" +:+ u64_to_string (cursor_sequence c).

(** [str::parse::<u64>] on a string of digits. *)
Definition parse_u64 (text : string) : option Z :=
  match NilZero.uint_of_string text with
  | Some d => let z := Z.of_N (N.of_uint d) in if z <=? u64_max then Some z else None
  | None => None
  end.

(** [parse_sequence]. *)
Definition parse_sequence (text : string) : option Z :=
  if str_is_empty text || negb (str_all is_ascii_digit text) then None
  else if (1 <? str_len text) && starts_with "0" text then None
  else parse_u64 text.

(** [FromStr for EventCursor]. *)
Definition cursor_from_str (text : string) : option EventCursor :=
  rest ← strip_prefix "v1:" text;
  '(stream_key, sequence) ← rsplit_once ":" rest;
  k ← event_stream_key_new stream_key;
  n ← parse_sequence sequence;
  Some (mkEventCursor k n).

(** ** The outside world *)

(** Protobuf messages staged as event payloads ([domain::generated::contract]),
    as the kernel builds them; the wire codec is external. *)
Record AgentRunMsg := mkAgentRunMsg {
  ar_run_id : string; ar_task_id : string; ar_session_id : string;
  ar_parent_run_id : string; ar_state : Z; ar_recovery : Z; ar_run_revision : Z;
  ar_loop_epoch : Z; ar_step_sequence : Z; ar_input_event_cursor : string;
  ar_cancellation_epoch : Z; ar_resolved_environment_id : string;
  ar_output_ref : string; ar_current_turn_id : string }.

Record EffectContractMsg := mkEffectContractMsg {
  ec_effect_class : Z; ec_idempotency : Z; ec_reconciliation : Z;
  ec_cancellation_semantics : string; ec_compensation_capability : string }.

Record EffectRecordMsg := mkEffectRecordMsg {
  er_effect_id : string; er_run_id : string; er_step_sequence : Z;
  er_decision_id : string; er_operation : string; er_request_hash : string;
  er_effective_contract : option EffectContractMsg; er_adapter_id : string;
  er_adapter_version : string; er_adapter_digest : string; er_state : Z;
  er_executor_id : string; er_executor_fencing_token : Z;
  er_lease_expires_unix_ms : Z; er_result_ref : string; er_error_code : string }.

Record ApprovalRequestMsg := mkApprovalRequestMsg {
  ap_request_id : string; ap_request_digest : string; ap_actor_id : string; ap_run_id : string;
  ap_capability_ids : list string; ap_target_resource : string; ap_operation : string;
  ap_extension_bundle_digest : string; ap_config_generation_digest : string;
  ap_expires_unix_ms : Z; ap_nonce : string }.

Inductive Message :=
  | MsgAgentRun (m : AgentRunMsg)
  | MsgEffectRecord (m : EffectRecordMsg)
  | MsgTask (task_id session_id created_by_actor_id task_kind : string)
      (payload : bytes) (created_unix_ms : Z)
  | MsgSession (session_id principal_id : string) (metadata : bytes) (created_unix_ms : Z)
  | MsgAgentSpecRevision (agent_spec_id version digest : string) (body : bytes) (created_unix_ms : Z)
  | MsgRunDependency (dependency_id task_id source_run_id target_run_id : string)
      (condition created_graph_revision : Z)
  | MsgScheduleTimer (timer_id run_id timer_kind : string) (due_at_ms : Z) (payload : bytes)
  | MsgResourceReservation (reservation_id run_id resource_type state : string)
      (amount : Z) (unit_ : string) (fencing_token : Z)
  | MsgApprovalRequest (m : ApprovalRequestMsg)
  | MsgApprovalResolved (request_id request_digest decision responder_principal_id device_id : string)
      (responded_at_ms : Z)
  | MsgConfigGeneration (generation_id digest : string) (document : bytes)
      (validation_state test_state : string) (created_unix_ms : Z).

(** Third-party code the kernel calls, and the id and clock sources. *)
Class Ext := {
  uuid_hyphenated : Uuid -> string;   (* [Uuid::hyphenated().to_string()] *)
  uuid_parse_str : string -> option Uuid;   (* [Uuid::parse_str] *)
  uuid_version : Uuid -> Z;           (* [Uuid::get_version_num] *)
  sha256 : bytes -> bytes;            (* [Sha256::digest] *)
  encode_to_vec : Message -> bytes;   (* [prost::Message::encode_to_vec] *)
  new_uuid_v7 : nat -> Uuid;          (* the n-th [IdProvider::new_uuid_v7] *)
  clock_ms : nat -> Z }.              (* the n-th [Clock::now_unix_ms] *)

Section WithExt.
Context `{!Ext}.

(** A UUID has 128 bits, and its canonical text determines it. *)
Definition uuid_wf (u : Uuid) : Prop := (u < 2 ^ 128)%N.
Class UuidForm : Prop := {
  uuid_text_canonical u : uuid_wf u -> is_canonical_hyphenated (uuid_hyphenated u) = true;
  uuid_text_inj u v : uuid_wf u -> uuid_wf v -> uuid_hyphenated u = uuid_hyphenated v -> u = v }.

(** [FromStr for UuidV7], which every identifier newtype delegates to. *)
Definition uuid_v7_from_str (text : string) : option Uuid :=
  if is_canonical_hyphenated text then
    u ← uuid_parse_str text;
    if decide (uuid_version u = 7) then Some u else None
  else None.

(** [.map(|id| id.to_string()).unwrap_or_default()]. *)
Definition opt_id_text (o : option Uuid) : string := from_option uuid_hyphenated "" o.
End WithExt.

(** ** Round trip of the cursor text *)

Lemma app_nil_str s : "" +:+ s = s.
Proof. reflexivity. Qed.
Lemma app_cons_str a s t : String a s +:+ t = String a (s +:+ t).
Proof. reflexivity. Qed.

Lemma strip_prefix_spec p s r : strip_prefix p s = Some r <-> s = p +:+ r.
Proof.
  revert s. induction p as [|a p IH]; intros s; simpl.
  { rewrite app_nil_str. split; congruence. }
  rewrite app_cons_str. destruct s as [|b s]; [done|]. case_decide as E; [|split; congruence].
  subst b. rewrite IH. split; [by intros ->|by injection 1].
Qed.

Lemma str_all_app p s t : str_all p (s +:+ t) = str_all p s && str_all p t.
Proof.
  unfold str_all. induction s as [|a s IH]; [done|]. rewrite app_cons_str. simpl.
  rewrite <- andb_assoc. f_equal. exact IH.
Qed.

Definition no_byte (c : ascii) (s : string) : bool :=
  str_all (fun a => negb (bool_decide (a = c))) s.

Lemma no_byte_cons c a s : no_byte c (String a s) = true <-> a <> c /\ no_byte c s = true.
Proof.
  unfold no_byte, str_all. simpl. rewrite andb_true_iff, negb_true_iff, bool_decide_eq_false. done.
Qed.

Lemma rsplit_once_none c s : rsplit_once c s = None <-> no_byte c s = true.
Proof.
  induction s as [|a s IH]; simpl; [done|]. rewrite no_byte_cons, <- IH.
  destruct (rsplit_once c s) as [[l r]|].
  - split; [done|by intros []].
  - case_decide; split; try done. by intros [].
Qed.

Lemma rsplit_once_spec c s l r :
  rsplit_once c s = Some (l, r) <->
  s = l +:+ String c r /\ no_byte c r = true.
Proof.
  split.
  - revert l. induction s as [|a s IH]; intros l; simpl; [done|].
    destruct (rsplit_once c s) as [[l' r']|] eqn:E.
    + intros [= <- <-]. destruct (IH l' eq_refl) as [-> ?]. done.
    + case_decide; [|done]. intros [= <- <-]. subst. by rewrite rsplit_once_none in E.
  - intros [-> Hr]. induction l as [|a l IH]; rewrite ?app_nil_str, ?app_cons_str; simpl.
    + apply rsplit_once_none in Hr as ->. by rewrite decide_True.
    + by rewrite IH.
Qed.

Lemma str_all_impl (p q : ascii -> bool) s :
  (forall c, p c = true -> q c = true) -> str_all p s = true -> str_all q s = true.
Proof.
  intros H. unfold str_all. rewrite !forallb_forall. auto.
Qed.

Lemma string_of_uint_digits d : str_all is_ascii_digit (NilEmpty.string_of_uint d) = true.
Proof. induction d; simpl; unfold str_all in *; simpl; rewrite ?IHd; done. Qed.

Lemma u64_to_string_digits z : str_all is_ascii_digit (u64_to_string z) = true.
Proof.
  unfold u64_to_string, NilZero.string_of_uint.
  destruct (N.to_uint (Z.to_N z)); [reflexivity|..]; apply (string_of_uint_digits).
Qed.

Lemma digits_no_colon s :
  str_all is_ascii_digit s = true -> no_byte ":" s = true.
Proof.
  apply str_all_impl. intros c Hc. case_bool_decide; [|done]. by subst.
Qed.

Lemma to_uint_nonnil n : N.to_uint n <> Decimal.Nil.
Proof. destruct n as [|p]; [done|]. apply DecimalPos.Unsigned.to_uint_nonnil. Qed.

Lemma parse_print_u64 z :
  0 <= z <= u64_max -> parse_u64 (u64_to_string z) = Some z.
Proof.
  intros Hz. unfold parse_u64, u64_to_string.
  rewrite NilZero.usu by apply to_uint_nonnil.
  rewrite DecimalN.Unsigned.of_to, Z2N.id by lia.
  destruct (Z.leb_spec z u64_max); [done|lia].
Qed.

Lemma nzhead_not_D0 d d' : Decimal.nzhead d <> Decimal.D0 d'.
Proof. induction d; simpl; congruence. Qed.

(** A normal form begins with a zero only when it is the zero. *)
Lemma unorm_leading_zero d d' :
  Decimal.unorm d = Decimal.D0 d' -> d' = Decimal.Nil.
Proof.
  unfold Decimal.unorm. pose proof (nzhead_not_D0 d) as H0.
  destruct (Decimal.nzhead d); naive_solver.
Qed.

Lemma u64_to_string_canonical z :
  (1 <? str_len (u64_to_string z)) && starts_with "0" (u64_to_string z) = false.
Proof.
  unfold u64_to_string, NilZero.string_of_uint.
  pose proof (unorm_leading_zero (N.to_uint (Z.to_N z))) as Hz.
  rewrite <- DecimalN.Unsigned.to_of, DecimalN.Unsigned.of_to in Hz.
  destruct (N.to_uint (Z.to_N z)) as [|d|d|d|d|d|d|d|d|d|d]; 
    try (rewrite andb_false_r; reflexivity); [done|].
  by rewrite (Hz d eq_refl).
Qed.

Lemma parse_sequence_print z :
  0 <= z <= u64_max -> parse_sequence (u64_to_string z) = Some z.
Proof.
  intros Hz. unfold parse_sequence.
  rewrite u64_to_string_digits, u64_to_string_canonical, parse_print_u64 by done.
  assert (str_is_empty (u64_to_string z) = false) as ->; [|done].
  unfold u64_to_string, NilZero.string_of_uint. by destruct (N.to_uint _).
Qed.

(** A digit string with no redundant leading zero is a normal form. *)
Lemma no_leading_zero_unorm text d :
  NilZero.uint_of_string text = Some d ->
  (1 <? str_len text) && starts_with "0" text = false ->
  Decimal.unorm d = d.
Proof.
  intros Hd Hz. pose proof (NilZero.sus _ _ Hd) as Hs.
  assert (text <> "") as Hne.
  { intros ->. discriminate Hd. }
  assert (Hs' : NilZero.string_of_uint d = text) by done. subst text.
  unfold NilZero.string_of_uint in Hz.
  destruct d as [|d|d|d|d|d|d|d|d|d|d]; try done.
  destruct d; [done|..]; exfalso; revert Hz; unfold str_len; simpl;
    by rewrite ?andb_true_r; rewrite Z.ltb_ge; lia.
Qed.

Lemma print_parse_u64 text z :
  (1 <? str_len text) && starts_with "0" text = false ->
  parse_u64 text = Some z -> u64_to_string z = text /\ 0 <= z <= u64_max.
Proof.
  unfold parse_u64. intros Hz. destruct (NilZero.uint_of_string text) as [d|] eqn:Hd; [|done].
  destruct (Z.leb_spec (Z.of_N (N.of_uint d)) u64_max); [|done]. intros [= <-].
  split; [|lia]. unfold u64_to_string.
  rewrite N2Z.id, DecimalN.Unsigned.to_of, (no_leading_zero_unorm _ _ Hd Hz).
  by apply NilZero.sus.
Qed.

Definition cursor_valid (c : EventCursor) : Prop :=
  event_stream_key_new (cursor_stream_key c) = Some (cursor_stream_key c) /\
  0 <= cursor_sequence c <= u64_max.

Lemma event_stream_key_new_id k k' : event_stream_key_new k = Some k' -> k' = k.
Proof. unfold event_stream_key_new. destruct (_ || _); naive_solver. Qed.

Lemma parse_sequence_inv text z :
  parse_sequence text = Some z ->
  u64_to_string z = text /\ 0 <= z <= u64_max /\ no_byte ":" text = true.
Proof.
  unfold parse_sequence.
  destruct (str_is_empty text || _) eqn:Hd; [done|].
  destruct ((1 <? str_len text) && _) eqn:Hz; [done|]. intros Hp.
  apply orb_false_iff in Hd as [_ Hd%negb_false_iff].
  destruct (print_parse_u64 _ _ Hz Hp). auto using digits_no_colon.
Qed.

Lemma cursor_to_from c : cursor_valid c -> cursor_from_str (cursor_to_string c) = Some c.
Proof.
  intros [Hk Hz]. unfold cursor_from_str, cursor_to_string.
  rewrite (proj2 (strip_prefix_spec _ _ _) eq_refl). simpl.
  rewrite (proj2 (rsplit_once_spec ":" _ (cursor_stream_key c) (u64_to_string (cursor_sequence c)))).
  - simpl. rewrite Hk. simpl. rewrite parse_sequence_print by done. by destruct c.
  - split; [done|]. apply digits_no_colon, u64_to_string_digits.
Qed.

Lemma cursor_from_to s c :
  cursor_from_str s = Some c -> cursor_to_string c = s /\ cursor_valid c.
Proof.
  unfold cursor_from_str.
  destruct (strip_prefix "v1:" s) as [rest|] eqn:Hs; [|done]. simpl.
  destruct (rsplit_once ":" rest) as [[k n]|] eqn:Hr; [|done]. simpl.
  destruct (event_stream_key_new k) as [k'|] eqn:Hk; [|done]. simpl.
  destruct (parse_sequence n) as [z|] eqn:Hp; [|done]. intros [= <-].
  pose proof (event_stream_key_new_id _ _ Hk); subst k'.
  apply strip_prefix_spec in Hs as ->. apply rsplit_once_spec in Hr as [-> _].
  by apply parse_sequence_inv in Hp as (<- & ? & _).
Qed.

(** Cursor text and cursors correspond: a valid cursor prints to text that
    parses back to it, and any text that parses is the canonical print of the
    valid cursor it denotes. *)
Theorem cursor_text_roundtrip :
  (forall c, cursor_valid c -> cursor_from_str (cursor_to_string c) = Some c) /\
  (forall s c, cursor_from_str s = Some c -> cursor_to_string c = s /\ cursor_valid c).
Proof. split; [apply cursor_to_from|apply cursor_from_to]. Qed.
