(* ===== verification/Text.v ===== *)
(** * Text

    A Rust [str] is a byte string that is valid UTF-8; a Rocq [string] is its
    bytes.  This file has the decoder of [str::from_utf8], the character
    classes the services consult, and the string operations they use, with
    the lemmas that relate splitting to joining. *)

From S2P Require Import Prelude Domain Ids.

Open Scope string_scope.
Open Scope N_scope.

(** ** UTF-8 *)

Definition byte_between (lo hi b : N) : bool := (lo <=? b) && (b <=? hi).
Definition continuation (b : N) : bool := byte_between 128 191 b.

(** The second byte of a three- or four-byte character: the ranges exclude
    overlong forms, surrogates and values past the last code point. *)
Definition second3 (b1 b2 : N) : bool :=
  byte_between (if b1 =? 224 then 160 else 128) (if b1 =? 237 then 159 else 191) b2.
Definition second4 (b1 b2 : N) : bool :=
  byte_between (if b1 =? 240 then 144 else 128) (if b1 =? 244 then 143 else 191) b2.

Definition cp2 (b1 b2 : N) : N := (b1 - 192) * 64 + (b2 - 128).
Definition cp3 (b1 b2 b3 : N) : N := (b1 - 224) * 4096 + (b2 - 128) * 64 + (b3 - 128).
Definition cp4 (b1 b2 b3 b4 : N) : N :=
  (b1 - 240) * 262144 + (b2 - 128) * 4096 + (b3 - 128) * 64 + (b4 - 128).

(** The code points of a byte sequence, if it is well formed. *)
Fixpoint utf8_decode (l : list N) : option (list N) :=
  match l with
  | [] => Some []
  | b1 :: l1 =>
      if b1 <? 128 then (fun cs => b1 :: cs) <$> utf8_decode l1
      else if byte_between 194 223 b1 then
        match l1 with
        | b2 :: l2 => if continuation b2 then (fun cs => cp2 b1 b2 :: cs) <$> utf8_decode l2 else None
        | [] => None
        end
      else if byte_between 224 239 b1 then
        match l1 with
        | b2 :: b3 :: l3 =>
            if second3 b1 b2 && continuation b3
            then (fun cs => cp3 b1 b2 b3 :: cs) <$> utf8_decode l3 else None
        | _ => None
        end
      else if byte_between 240 244 b1 then
        match l1 with
        | b2 :: b3 :: b4 :: l4 =>
            if second4 b1 b2 && continuation b3 && continuation b4
            then (fun cs => cp4 b1 b2 b3 b4 :: cs) <$> utf8_decode l4 else None
        | _ => None
        end
      else None
  end.

Definition str_bytes (s : string) : list N := N_of_ascii <$> String.list_ascii_of_string s.

(** [str::chars]. *)
Definition str_chars (s : string) : option (list N) := utf8_decode (str_bytes s).

Definition is_utf8 (s : string) : bool := match str_chars s with Some _ => true | None => false end.

(** Text between byte blobs and strings: [String::into_bytes], [str::from_utf8]. *)
Definition into_bytes (s : string) : bytes := String.list_byte_of_string s.
Definition from_utf8 (l : bytes) : option string :=
  let s := String.string_of_list_byte l in if is_utf8 s then Some s else None.

(** ** Character classes *)

(** [char::is_control]: the general category Cc. *)
Definition is_control (c : N) : bool := (c <? 32) || byte_between 127 159 c.

(** [char::is_whitespace]: the property White_Space. *)
Definition is_whitespace (c : N) : bool :=
  byte_between 9 13 c || byte_between 8192 8202 c ||
  bool_decide (c ∈ [32; 133; 160; 5760; 8232; 8233; 8239; 8287; 12288]).

(** [s.chars().any(p)]. *)
Definition chars_any (p : N -> bool) (s : string) : bool :=
  match str_chars s with Some cs => existsb p cs | None => true end.

(** [s.trim().is_empty()]: every character is white space. *)
Definition trim_is_empty (s : string) : bool :=
  match str_chars s with Some cs => forallb is_whitespace cs | None => false end.

Definition is_ascii_alphanumeric (c : ascii) : bool :=
  is_ascii_digit c || byte_in 65 90 c || is_ascii_lowercase c.

(** [str::to_ascii_lowercase]. *)
Definition lower_byte (c : ascii) : ascii :=
  if byte_in 65 90 c then ascii_of_nat (nat_of_ascii c + 32) else c.
Fixpoint to_ascii_lowercase (s : string) : string :=
  match s with "" => "" | String c s => String (lower_byte c) (to_ascii_lowercase s) end.

(** ** Splitting and joining *)

(** [str::split] at a one-byte separator. *)
Fixpoint split_on (sep : ascii) (s : string) : list string :=
  match s with
  | "" => [""]
  | String c s =>
      if decide (c = sep) then "" :: split_on sep s
      else match split_on sep s with w :: ws => String c w :: ws | [] => [String c ""] end
  end.

(** [slice::join] with a separator. *)
Fixpoint join_with (sep : string) (l : list string) : string :=
  match l with
  | [] => ""
  | [w] => w
  | w :: l => w +:+ sep +:+ join_with sep l
  end.

(** [str::split_once] with a text separator: splits at its first occurrence. *)
Fixpoint split_once (sep s : string) : option (string * string) :=
  match strip_prefix sep s with
  | Some rest => Some ("", rest)
  | None =>
      match s with
      | "" => None
      | String c s =>
          match split_once sep s with Some (l, r) => Some (String c l, r) | None => None end
      end
  end.

(** [str::contains]. *)
Definition str_contains (pat s : string) : bool :=
  match split_once pat s with Some _ => true | None => false end.

(** [str::lines]: split at line feeds; the carriage return before one goes with
    it, and no line follows a final line feed. *)
Definition strip_cr (line : string) : string :=
  match List.rev (String.list_ascii_of_string line) with
  | "013"%char :: l => String.string_of_list_ascii (List.rev l)
  | _ => line
  end.
Fixpoint line_parts (l : list string) : list string :=
  match l with
  | [] => []
  | [w] => if String.eqb w "" then [] else [w]
  | w :: l => strip_cr w :: line_parts l
  end.
Definition str_lines (s : string) : list string := line_parts (split_on "010" s).

(** [str::strip_suffix] and [str::ends_with]. *)
Fixpoint strip_suffix (suffix s : string) : option string :=
  if decide (s = suffix) then Some ""
  else match s with
       | "" => None
       | String c s => match strip_suffix suffix s with Some l => Some (String c l) | None => None end
       end.
Definition ends_with (suffix s : string) : bool :=
  match strip_suffix suffix s with Some _ => true | None => false end.

(** [String::from_utf8_lossy]: every maximal ill-formed part becomes U+FFFD. *)
Definition REPLACEMENT : list N := [239; 191; 189].
Fixpoint utf8_lossy (l : list N) : list N :=
  match l with
  | [] => []
  | b1 :: l1 =>
      if b1 <? 128 then b1 :: utf8_lossy l1
      else if byte_between 194 223 b1 then
        match l1 with
        | b2 :: l2 => if continuation b2 then b1 :: b2 :: utf8_lossy l2 else (REPLACEMENT ++ utf8_lossy l1)%list
        | [] => REPLACEMENT
        end
      else if byte_between 224 239 b1 then
        match l1 with
        | b2 :: l2 =>
            if second3 b1 b2 then
              match l2 with
              | b3 :: l3 => if continuation b3 then b1 :: b2 :: b3 :: utf8_lossy l3 else (REPLACEMENT ++ utf8_lossy l2)%list
              | [] => REPLACEMENT
              end
            else (REPLACEMENT ++ utf8_lossy l1)%list
        | [] => REPLACEMENT
        end
      else if byte_between 240 244 b1 then
        match l1 with
        | b2 :: l2 =>
            if second4 b1 b2 then
              match l2 with
              | b3 :: l3 =>
                  if continuation b3 then
                    match l3 with
                    | b4 :: l4 =>
                        if continuation b4 then b1 :: b2 :: b3 :: b4 :: utf8_lossy l4
                        else (REPLACEMENT ++ utf8_lossy l3)%list
                    | [] => REPLACEMENT
                    end
                  else (REPLACEMENT ++ utf8_lossy l2)%list
              | [] => REPLACEMENT
              end
            else (REPLACEMENT ++ utf8_lossy l1)%list
        | [] => REPLACEMENT
        end
      else (REPLACEMENT ++ utf8_lossy l1)%list
  end.
Definition string_of_Ns (l : list N) : string := String.string_of_list_ascii (ascii_of_N <$> l).
Definition from_utf8_lossy (l : bytes) : string := string_of_Ns (utf8_lossy (Byte.to_N <$> l)).

(** The character boundary at or before [n]: [while n > 0 && s[n] is a
    continuation byte { n -= 1 }]. *)
Fixpoint boundary_at (l : list N) (n : nat) : nat :=
  match n with
  | O => O
  | S m => match l !! n with Some b => if continuation b then boundary_at l m else n | None => n end
  end.

(** [str::trim]: strips encoded white space at both ends. *)
Definition WHITESPACE : list string :=
  [String "009" ""; String "010" ""; String "011" "";
   String "012" ""; String "013" ""; String "032" "";
   String "194" (String "133" ""); String "194" (String "160" ""); String "225" (String "154" (String "128" ""));
   String "226" (String "128" (String "128" "")); String "226" (String "128" (String "129" "")); String "226" (String "128" (String "130" ""));
   String "226" (String "128" (String "131" "")); String "226" (String "128" (String "132" "")); String "226" (String "128" (String "133" ""));
   String "226" (String "128" (String "134" "")); String "226" (String "128" (String "135" "")); String "226" (String "128" (String "136" ""));
   String "226" (String "128" (String "137" "")); String "226" (String "128" (String "138" "")); String "226" (String "128" (String "168" ""));
   String "226" (String "128" (String "169" "")); String "226" (String "128" (String "175" "")); String "226" (String "129" (String "159" ""));
   String "227" (String "128" (String "128" ""))].
Fixpoint strip_any (strip : string -> string -> option string) (pats : list string) (s : string) : option string :=
  match pats with [] => None | p :: pats => match strip p s with Some r => Some r | None => strip_any strip pats s end end.
Fixpoint trim_with (strip : string -> string -> option string) (n : nat) (s : string) : string :=
  match n with
  | O => s
  | S n => match strip_any strip WHITESPACE s with Some r => trim_with strip n r | None => s end
  end.
Definition str_trim (s : string) : string :=
  let s := trim_with strip_prefix (String.length s) s in trim_with strip_suffix (String.length s) s.

(** [str::split_whitespace]. *)
Fixpoint take_word (s : string) : string * string :=
  match strip_any strip_prefix WHITESPACE s, s with
  | Some _, _ => ("", s)
  | None, "" => ("", "")
  | None, String c rest => let (w, r) := take_word rest in (String c w, r)
  end.
Fixpoint split_words (n : nat) (s : string) : list string :=
  match n with
  | O => []
  | S n =>
      let s := trim_with strip_prefix (String.length s) s in
      if String.eqb s "" then [] else let (w, r) := take_word s in w :: split_words n r
  end.
Definition split_whitespace (s : string) : list string := split_words (S (String.length s)) s.

(** [str::parse] of an unsigned integer up to [max]: an optional sign, digits. *)
Definition parse_unsigned (max : Z) (text : string) : option Z :=
  let digits := match strip_prefix "+" text with Some rest => rest | None => text end in
  match parse_u64 digits with
  | Some z => if (z <=? max)%Z then Some z else None
  | None => None
  end.

(** ** Lemmas *)

Lemma split_on_nonempty sep s : split_on sep s <> [].
Proof. induction s as [|c s IH]; simpl; [done|]. case_decide; [done|]. by destruct (split_on sep s). Qed.

(** A field without the separator comes back whole. *)
Lemma split_on_field sep w rest :
  no_byte sep w = true -> split_on sep (w +:+ String sep rest) = w :: split_on sep rest.
Proof.
  induction w as [|c w IH]; intros Hw.
  - rewrite app_nil_str. simpl. by rewrite decide_True.
  - apply no_byte_cons in Hw as [Hc Hw]. rewrite app_cons_str. simpl.
    rewrite decide_False by done. by rewrite IH.
Qed.
Lemma split_on_last sep w : no_byte sep w = true -> split_on sep w = [w].
Proof.
  induction w as [|c w IH]; intros Hw; [done|]. apply no_byte_cons in Hw as [Hc Hw]. simpl.
  rewrite decide_False by done. by rewrite IH.
Qed.

Lemma split_join sep l :
  l <> [] -> Forall (fun w => no_byte sep w = true) l -> split_on sep (join_with (String sep "") l) = l.
Proof.
  induction l as [|w l IH]; intros Hne Hl; [done|]. apply Forall_cons_1 in Hl as [Hw Hl].
  destruct l as [|w2 l]; [by apply split_on_last|].
  change (join_with (String sep "") (w :: w2 :: l)) with (w +:+ String sep (join_with (String sep "") (w2 :: l))).
  rewrite split_on_field by done. by rewrite IH.
Qed.

Lemma join_split sep s : join_with (String sep "") (split_on sep s) = s.
Proof.
  induction s as [|c s IH]; [done|]. simpl. pose proof (split_on_nonempty sep s).
  case_decide as Hc; destruct (split_on sep s) as [|w ws]; try done; subst.
  - change (join_with (String sep "") ("" :: w :: ws)) with ("" +:+ String sep (join_with (String sep "") (w :: ws))).
    by rewrite app_nil_str.
  - destruct ws as [|w2 ws]; [done|].
    change (join_with (String sep "") (String c w :: w2 :: ws)) with
      (String c w +:+ String sep (join_with (String sep "") (w2 :: ws))). by rewrite app_cons_str.
Qed.

Lemma split_on_no_byte sep s : Forall (fun w => no_byte sep w = true) (split_on sep s).
Proof.
  induction s as [|c s IH]; simpl; [by repeat constructor|]. case_decide as Hc.
  - constructor; [done|exact IH].
  - destruct (split_on sep s) as [|w ws]; [constructor; [|done]; by apply no_byte_cons|].
    apply Forall_cons_1 in IH as [Hw Hws]. constructor; [|done]. by apply no_byte_cons.
Qed.

Lemma strip_suffix_spec x s r : strip_suffix x s = Some r -> s = r +:+ x.
Proof.
  revert r. induction s as [|c s IH]; intros r; simpl; case_decide as Hd; subst; try done.
  - by intros [= <-].
  - by intros [= <-].
  - destruct (strip_suffix x s) as [l|]; [|done]. intros [= <-]. by rewrite app_cons_str, <- IH.
Qed.

Lemma str_length_app a b : String.length (a +:+ b) = (String.length a + String.length b)%nat.
Proof. induction a as [|c a IH]; [done|]. rewrite app_cons_str. simpl. by rewrite IH. Qed.

Lemma app_assoc_str a b c : a +:+ b +:+ c = (a +:+ b) +:+ c.
Proof. induction a as [|x a IH]; rewrite ?app_nil_str, ?app_cons_str; [done|by rewrite IH]. Qed.

Lemma app_str_inj_r a b x : a +:+ x = b +:+ x -> a = b.
Proof.
  revert b. induction a as [|c a IH]; intros [|e b]; rewrite ?app_nil_str, ?app_cons_str; intros E; try done.
  - exfalso. apply (f_equal String.length) in E. simpl in E. rewrite str_length_app in E. lia.
  - exfalso. apply (f_equal String.length) in E. simpl in E. rewrite str_length_app in E. lia.
  - injection E as -> E. f_equal. by apply IH.
Qed.

Lemma strip_suffix_app r x : strip_suffix x (r +:+ x) = Some r.
Proof.
  induction r as [|c r IH].
  - rewrite app_nil_str. destruct x; simpl; first [done | by case_decide].
  - rewrite app_cons_str. simpl. rewrite decide_False; [by rewrite IH|].
    intros E. apply (f_equal String.length) in E. simpl in E. rewrite str_length_app in E. lia.
Qed.

Lemma split_once_spec sep s l r : split_once sep s = Some (l, r) -> s = l +:+ sep +:+ r.
Proof.
  revert l. induction s as [|c s IH]; intros l; simpl.
  - destruct (strip_prefix sep "") eqn:E; [|done]. intros [= <- <-]. by apply strip_prefix_spec in E.
  - destruct (strip_prefix sep (String c s)) eqn:E.
    + intros [= <- <-]. by apply strip_prefix_spec in E.
    + destruct (split_once sep s) as [[l' r']|]; [|done]. intros [= <- <-]. by rewrite app_cons_str, <- IH.
Qed.

(** ** UTF-8 and concatenation *)

Lemma utf8_decode_app l1 l2 c1 :
  utf8_decode l1 = Some c1 -> utf8_decode (l1 ++ l2) = (app c1) <$> utf8_decode l2.
Proof.
  revert c1. induction l1 as [l1 IH] using (well_founded_induction (well_founded_ltof _ (@length N))).
  unfold ltof in IH. destruct l1 as [|b1 l1]; intros c1.
  { intros [= <-]. simpl. by destruct (utf8_decode l2). }
  assert (Hstep : forall k l c1, (length l < length (b1 :: l1))%nat ->
    (fun cs => k :: cs) <$> utf8_decode l = Some c1 ->
    (fun cs => k :: cs) <$> utf8_decode (l ++ l2) = app c1 <$> utf8_decode l2).
  { intros k l c2 Hl. destruct (utf8_decode l) as [cs|] eqn:E; [|done]. intros [= <-].
    rewrite (IH l Hl cs E). by destruct (utf8_decode l2). }
  simpl. destruct (b1 <? 128); [apply Hstep; simpl; lia|].
  destruct (byte_between 194 223 b1).
  { destruct l1 as [|b2 l1]; [done|]. simpl. destruct (continuation b2); [|done]. apply Hstep; simpl; lia. }
  destruct (byte_between 224 239 b1).
  { destruct l1 as [|b2 [|b3 l1]]; try done. simpl. destruct (second3 b1 b2 && continuation b3); [|done].
    apply Hstep; simpl; lia. }
  destruct (byte_between 240 244 b1); [|done].
  destruct l1 as [|b2 [|b3 [|b4 l1]]]; try done. simpl.
  destruct (second4 b1 b2 && continuation b3 && continuation b4); [|done]. apply Hstep; simpl; lia.
Qed.

Lemma str_bytes_app a b : str_bytes (a +:+ b) = (str_bytes a ++ str_bytes b)%list.
Proof.
  induction a as [|c a IH]; [done|]. rewrite app_cons_str.
  change (N_of_ascii c :: str_bytes (a +:+ b) = N_of_ascii c :: (str_bytes a ++ str_bytes b)%list). by rewrite IH.
Qed.

Lemma is_utf8_app a b : is_utf8 a = true -> is_utf8 b = true -> is_utf8 (a +:+ b) = true.
Proof.
  unfold is_utf8, str_chars. rewrite str_bytes_app.
  destruct (utf8_decode (str_bytes a)) as [ca|] eqn:Ea; [|done]. rewrite (utf8_decode_app _ _ _ Ea).
  by destruct (utf8_decode (str_bytes b)).
Qed.

(** ASCII text is its own code points. *)
Definition is_ascii (s : string) : bool := str_all (fun c => N_of_ascii c <? 128) s.
Lemma utf8_cons_ascii b l : (b <? 128) = true -> utf8_decode (b :: l) = (fun cs => b :: cs) <$> utf8_decode l.
Proof. intros Hb. simpl. by rewrite Hb. Qed.
Lemma ascii_chars s : is_ascii s = true -> str_chars s = Some (str_bytes s).
Proof.
  unfold str_chars. induction s as [|c s IH]; [done|]. 
  unfold is_ascii, str_all in *. intros [Hc Hs]%andb_prop.
  change (str_bytes (String c s)) with (N_of_ascii c :: str_bytes s).
  rewrite utf8_cons_ascii by done. by rewrite IH.
Qed.
Lemma ascii_utf8 s : is_ascii s = true -> is_utf8 s = true.
Proof. intros Hs. unfold is_utf8. by rewrite ascii_chars. Qed.

Lemma is_utf8_join sep l :
  is_utf8 sep = true -> Forall (fun w => is_utf8 w = true) l -> is_utf8 (join_with sep l) = true.
Proof.
  intros Hs. induction l as [|w l IH]; intros Hl; [done|]. apply Forall_cons_1 in Hl as [Hw Hl].
  destruct l as [|w2 l]; [done|]. change (is_utf8 (w +:+ sep +:+ join_with sep (w2 :: l)) = true).
  auto using is_utf8_app.
Qed.

Lemma from_into s : is_utf8 s = true -> from_utf8 (into_bytes s) = Some s.
Proof. intros Hs. unfold from_utf8, into_bytes. rewrite String.string_of_list_byte_of_string. by rewrite Hs. Qed.

(** ** Ordered collections of text *)

(** The keys of a [BTreeMap], in order. *)
Definition string_le (a b : string) : Prop := String.leb a b = true.
#[export] Instance string_le_dec : RelDecision string_le.
Proof. intros a b. unfold string_le. apply _. Defined.

Definition btree_keys {A} (m : gmap string A) : list string := merge_sort string_le (map_to_list m).*1.

Lemma btree_keys_elem {A} (m : gmap string A) n : n ∈ btree_keys m <-> is_Some (m !! n).
Proof.
  unfold btree_keys. rewrite merge_sort_Permutation, list_elem_of_fmap. split.
  - intros ([k v] & -> & Hk%elem_of_map_to_list). eauto.
  - intros [v Hv]. exists (n, v). split; [done|]. by apply elem_of_map_to_list.
Qed.

(** ** Big-endian framing *)

Open Scope Z_scope.

Definition byte_of_Z (z : Z) : Byte.byte :=
  match Byte.of_N (Z.to_N (z mod 256)) with Some b => b | None => Byte.x00 end.

(** [to_be_bytes] of an [n]-byte integer, two's complement; a larger value
    loses its high bytes, as in a narrowing [as] cast. *)
Fixpoint to_be_bytes (n : nat) (z : Z) : bytes :=
  match n with
  | O => []
  | S n => (to_be_bytes n (z / 256) ++ [byte_of_Z z])%list
  end.

Lemma byte_of_Z_value z : Byte.to_N (byte_of_Z z) = Z.to_N (z mod 256).
Proof.
  unfold byte_of_Z. pose proof (Z.mod_pos_bound z 256 ltac:(lia)).
  destruct (Byte.of_N (Z.to_N (z mod 256))) as [x|] eqn:E; [by apply Byte.to_of_N|].
  apply Byte.of_N_None_iff in E. lia.
Qed.

Lemma byte_of_Z_inj a b : byte_of_Z a = byte_of_Z b -> a mod 256 = b mod 256.
Proof.
  intros E. apply (f_equal Byte.to_N) in E. rewrite !byte_of_Z_value in E.
  pose proof (Z.mod_pos_bound a 256 ltac:(lia)). pose proof (Z.mod_pos_bound b 256 ltac:(lia)). lia.
Qed.

Lemma to_be_bytes_length n z : length (to_be_bytes n z) = n.
Proof. revert z. induction n as [|n IH]; intros z; [done|]. simpl. rewrite length_app, IH. simpl. lia. Qed.

Lemma to_be_bytes_inj n a b : to_be_bytes n a = to_be_bytes n b -> a mod 256 ^ Z.of_nat n = b mod 256 ^ Z.of_nat n.
Proof.
  revert a b. induction n as [|n IH]; intros a b E; [by rewrite !Z.mod_1_r|]. cbn [to_be_bytes] in E.
  apply app_inj_tail in E as [E1%IH E2%byte_of_Z_inj].
  rewrite Nat2Z.inj_succ, Z.pow_succ_r by lia.
  rewrite !Z.rem_mul_r by (try apply Z.pow_pos_nonneg; lia). by rewrite E1, E2.
Qed.

Lemma into_bytes_cons c s : into_bytes (String c s) = Ascii.byte_of_ascii c :: into_bytes s.
Proof. done. Qed.

Lemma into_bytes_length s : length (into_bytes s) = String.length s.
Proof. induction s as [|c s IH]; [done|]. simpl. by rewrite <- IH. Qed.

Lemma into_bytes_inj a b : into_bytes a = into_bytes b -> a = b.
Proof.
  intros E. apply (f_equal String.string_of_list_byte) in E. unfold into_bytes in E.
  by rewrite !String.string_of_list_byte_of_string in E.
Qed.

Lemma split_at_byte (b : Byte.byte) l1 l2 r1 r2 :
  b ∉ l1 -> b ∉ l2 -> (l1 ++ b :: r1)%list = (l2 ++ b :: r2)%list -> l1 = l2 /\ r1 = r2.
Proof.
  revert l2. induction l1 as [|x l1 IH]; intros [|y l2] H1 H2 E; cbn in E; simplify_eq.
  - done.
  - destruct H2. left.
  - destruct H1. left.
  - apply not_elem_of_cons in H1 as [_ H1]. apply not_elem_of_cons in H2 as [_ H2].
    destruct (IH l2 H1 H2) as [-> ->]; done.
Qed.

(** ** Characters, replacement and boundaries *)

#[local] Open Scope N_scope.

(** The encodings of one character, and texts as sequences of them. *)
Definition utf8_char (l : list N) : bool :=
  match l with
  | [b1] => b1 <? 128
  | [b1; b2] => byte_between 194 223 b1 && continuation b2
  | [b1; b2; b3] => byte_between 224 239 b1 && second3 b1 b2 && continuation b3
  | [b1; b2; b3; b4] => byte_between 240 244 b1 && second4 b1 b2 && continuation b3 && continuation b4
  | _ => false
  end.

Inductive utf8_wf : list N -> Prop :=
  | utf8_wf_nil : utf8_wf []
  | utf8_wf_app c l : utf8_char c = true -> utf8_wf l -> utf8_wf (c ++ l).

Lemma byte_between_spec lo hi b : byte_between lo hi b = true <-> lo <= b <= hi.
Proof. unfold byte_between. rewrite andb_true_iff, !N.leb_le. done. Qed.

(** Which lead bytes a character has. *)
Lemma lead_two b : byte_between 194 223 b = true -> (b <? 128) = false.
Proof. intros H%byte_between_spec. apply N.ltb_ge. lia. Qed.
Lemma lead_three b : byte_between 224 239 b = true -> (b <? 128) = false /\ byte_between 194 223 b = false.
Proof. intros H%byte_between_spec. split; [apply N.ltb_ge; lia|]. apply not_true_iff_false. rewrite byte_between_spec. lia. Qed.
Lemma lead_four b : byte_between 240 244 b = true ->
  (b <? 128) = false /\ byte_between 194 223 b = false /\ byte_between 224 239 b = false.
Proof.
  intros H%byte_between_spec. split; [apply N.ltb_ge; lia|].
  split; apply not_true_iff_false; rewrite byte_between_spec; lia.
Qed.

(** Splits a character into its four forms, with what its tests say. *)
Ltac char_forms Hc :=
  match type of Hc with utf8_char ?c = true =>
    destruct c as [|?b1 [|?b2 [|?b3 [|?b4 [|? ?]]]]]; try discriminate Hc; cbn [utf8_char] in Hc;
    rewrite ?andb_true_iff in Hc;
    [|destruct Hc as [?L ?C2]; pose proof (lead_two _ L) as ?E1
     |destruct Hc as [[?L ?C2] ?C3]; pose proof (lead_three _ L) as [?E1 ?E2]
     |destruct Hc as [[[?L ?C2] ?C3] ?C4]; pose proof (lead_four _ L) as (?E1 & ?E2 & ?E3)]
  end.

Lemma utf8_decode_char c l : utf8_char c = true -> exists k, utf8_decode (c ++ l) = (fun cs => k :: cs) <$> utf8_decode l.
Proof.
  intros Hc. char_forms Hc; cbn [app utf8_decode].
  - rewrite Hc. eauto.
  - rewrite E1, L, C2. eauto.
  - rewrite E1, E2, L, C2, C3. eauto.
  - rewrite E1, E2, E3, L, C2, C3, C4. eauto.
Qed.

Lemma utf8_wf_decodes l : utf8_wf l -> is_Some (utf8_decode l).
Proof.
  induction 1 as [|c l Hc _ [cs IH]]; [by eexists|]. destruct (utf8_decode_char c l Hc) as [k ->]. rewrite IH. by eexists.
Qed.

Lemma utf8_lossy_wf l : utf8_wf (utf8_lossy l).
Proof.
  induction l as [l IH] using (well_founded_induction (well_founded_ltof _ (@length N))). unfold ltof in IH.
  assert (Hr : forall k, (length k < length l)%nat -> utf8_wf (REPLACEMENT ++ utf8_lossy k)).
  { intros k Hk. constructor; [done|by apply IH]. }
  assert (Hn : utf8_wf REPLACEMENT) by (by apply (utf8_wf_app REPLACEMENT []); [|constructor]).
  destruct l as [|b1 l1]; [constructor|]. cbn [utf8_lossy].
  destruct (b1 <? 128) eqn:E1; [apply (utf8_wf_app [b1]); [done|apply IH; cbn; lia]|].
  destruct (byte_between 194 223 b1) eqn:E2.
  { destruct l1 as [|b2 l2]; [done|]. destruct (continuation b2) eqn:C2; [|apply Hr; cbn; lia].
    apply (utf8_wf_app [b1; b2]); [cbn; by rewrite E2, C2|apply IH; cbn; lia]. }
  destruct (byte_between 224 239 b1) eqn:E3.
  { destruct l1 as [|b2 l2]; [done|]. destruct (second3 b1 b2) eqn:C2; [|apply Hr; cbn; lia].
    destruct l2 as [|b3 l3]; [done|]. destruct (continuation b3) eqn:C3; [|apply Hr; cbn; lia].
    apply (utf8_wf_app [b1; b2; b3]); [cbn [utf8_char]; by rewrite E3, C2, C3|apply IH; cbn; lia]. }
  destruct (byte_between 240 244 b1) eqn:E4; [|apply Hr; cbn; lia].
  destruct l1 as [|b2 l2]; [done|]. destruct (second4 b1 b2) eqn:C2; [|apply Hr; cbn; lia].
  destruct l2 as [|b3 l3]; [done|]. destruct (continuation b3) eqn:C3; [|apply Hr; cbn; lia].
  destruct l3 as [|b4 l4]; [done|]. destruct (continuation b4) eqn:C4; [|apply Hr; cbn; lia].
  apply (utf8_wf_app [b1; b2; b3; b4]); [cbn [utf8_char]; by rewrite E4, C2, C3, C4|apply IH; cbn; lia].
Qed.

(** Well-formed text is left as it is. *)
Lemma utf8_lossy_id l : utf8_wf l -> utf8_lossy l = l.
Proof.
  induction 1 as [|c l Hc _ IH]; [done|]. char_forms Hc; cbn [app utf8_lossy].
  - by rewrite Hc, IH.
  - by rewrite E1, L, C2, IH.
  - by rewrite E1, E2, L, C2, C3, IH.
  - by rewrite E1, E2, E3, L, C2, C3, C4, IH.
Qed.

(** Cutting at a boundary keeps text well formed. *)
Lemma boundary_at_le l n : (boundary_at l n <= n)%nat.
Proof. induction n as [|n IH]; [done|]. cbn [boundary_at]. destruct (l !! S n) as [b|]; [destruct (continuation b)|]; lia. Qed.

Lemma utf8_char_head c l b : utf8_char c = true -> (c ++ l)%list !! 0%nat = Some b -> continuation b = false.
Proof.
  intros Hc. assert (Hlo : forall x, x < 128 \/ 192 <= x -> continuation x = false).
  { intros x Hx. apply not_true_iff_false. unfold continuation. rewrite byte_between_spec. lia. }
  char_forms Hc; intros [= <-]; apply Hlo; [apply N.ltb_lt in Hc; lia|..]; apply byte_between_spec in L; lia.
Qed.

Lemma utf8_wf_head l b : utf8_wf l -> l !! 0%nat = Some b -> continuation b = false.
Proof. intros [|c l' Hc _]; [done|]. by apply utf8_char_head. Qed.

Lemma boundary_at_app c l m : (forall b, l !! 0%nat = Some b -> continuation b = false) ->
  boundary_at (c ++ l)%list (length c + m) = (length c + boundary_at l m)%nat.
Proof.
  intros Hh. assert (Hlk : forall k, (c ++ l)%list !! (length c + k)%nat = l !! k).
  { intros k. rewrite lookup_app_r by lia. f_equal. lia. }
  induction m as [|m IH].
  - rewrite Nat.add_0_r. destruct (length c) as [|k] eqn:El; [done|]. cbn [boundary_at].
    specialize (Hlk 0%nat). rewrite Nat.add_0_r in Hlk. rewrite Hlk.
    destruct (l !! 0%nat) as [b|] eqn:Hb; [|lia]. rewrite (Hh b eq_refl). lia.
  - rewrite Nat.add_succ_r. cbn [boundary_at]. rewrite <- Nat.add_succ_r, Hlk.
    destruct (l !! S m) as [b|]; [destruct (continuation b); [exact IH|lia]|lia].
Qed.

Lemma boundary_in_char c l n : utf8_char c = true -> (n < length c)%nat -> boundary_at (c ++ l)%list n = 0%nat.
Proof.
  intros Hc Hn. assert (H3 : forall x y, second3 x y = true -> continuation y = true).
  { intros x y. unfold second3, continuation. rewrite !byte_between_spec. destruct (x =? 224), (x =? 237); lia. }
  assert (H4 : forall x y, second4 x y = true -> continuation y = true).
  { intros x y. unfold second4, continuation. rewrite !byte_between_spec. destruct (x =? 240), (x =? 244); lia. }
  char_forms Hc; cbn in Hn; try apply H3 in C2; try apply H4 in C2;
    destruct n as [|[|[|[|n]]]]; try lia; cbn; rewrite ?C2, ?C3, ?C4; try done.
Qed.

Lemma boundary_keeps_wf l n : utf8_wf l -> utf8_wf (take (boundary_at l n) l).
Proof.
  intros Hl. revert n. induction Hl as [|c l Hc Hl IH]; intros n; [rewrite take_nil; constructor|].
  destruct (Nat.lt_ge_cases n (length c)) as [Hn|Hn].
  - rewrite boundary_in_char by done. constructor.
  - replace n with (length c + (n - length c))%nat by lia. rewrite boundary_at_app by (intros b; by apply utf8_wf_head).
    rewrite take_app_add. by constructor.
Qed.
