(* ===== verification/Models.v ===== *)
(** * Row mirrors and patches of the store port ([kernel-store/src/models.rs])

    One record per struct, field for field, in a module of the struct's name so
    that the fields keep theirs.  [u64] and [i64] columns are integers, [Vec<u8>]
    is a list of bytes, identifiers are their 128-bit value. *)

From S2P Require Import Prelude Domain Ids.

Open Scope Z_scope.

Module ClaimPatch.
Record ClaimPatch := mk {
  owner : string;
  token : Z;
  expires_unix_ms : Z;
  daemon_epoch : Z }.
End ClaimPatch.
Abbreviation ClaimPatch := ClaimPatch.ClaimPatch.

Module AgentSpecRow.
Record AgentSpecRow := mk {
  agent_spec_id : N;
  version : string;
  digest : string;
  body : bytes;
  created_at_ms : Z }.
End AgentSpecRow.
Abbreviation AgentSpecRow := AgentSpecRow.AgentSpecRow.

Module NewAgentSpec.
Record NewAgentSpec := mk {
  agent_spec_id : N;
  version : string;
  digest : string;
  body : bytes;
  created_at_ms : Z }.
End NewAgentSpec.
Abbreviation NewAgentSpec := NewAgentSpec.NewAgentSpec.

Module SessionRow.
Record SessionRow := mk {
  session_id : N;
  principal_id : N;
  created_at_ms : Z;
  metadata : option bytes }.
End SessionRow.
Abbreviation SessionRow := SessionRow.SessionRow.

Module NewSession.
Record NewSession := mk {
  session_id : N;
  principal_id : N;
  created_at_ms : Z;
  metadata : option bytes }.
End NewSession.
Abbreviation NewSession := NewSession.NewSession.

Module TaskRow.
Record TaskRow := mk {
  task_id : N;
  session_id : option N;
  created_by_actor_id : N;
  task_kind : string;
  payload : bytes;
  created_at_ms : Z }.
End TaskRow.
Abbreviation TaskRow := TaskRow.TaskRow.

Module NewTask.
Record NewTask := mk {
  task_id : N;
  session_id : option N;
  created_by_actor_id : N;
  task_kind : string;
  payload : bytes;
  created_at_ms : Z }.
End NewTask.
Abbreviation NewTask := NewTask.NewTask.

Module ResolvedEnvironmentRow.
Record ResolvedEnvironmentRow := mk {
  environment_id : N;
  run_id : N;
  agent_spec_id : N;
  agent_spec_version : string;
  agent_spec_digest : string;
  agent_loop_id : string;
  agent_loop_version : string;
  agent_loop_digest : string;
  config_generation_id : N;
  workspace_uri : option string;
  workspace_base_revision : option string;
  workspace_mode : WorkspaceAccessMode;
  model_provider : option string;
  model_id : option string;
  model_parameters : option bytes;
  kernel_version : string;
  protocol_versions : bytes;
  capability_grant_ids : bytes;
  approval_request_ids : bytes;
  created_at_ms : Z }.
End ResolvedEnvironmentRow.
Abbreviation ResolvedEnvironmentRow := ResolvedEnvironmentRow.ResolvedEnvironmentRow.

Module NewResolvedEnvironment.
Record NewResolvedEnvironment := mk {
  environment_id : N;
  run_id : N;
  agent_spec_id : N;
  agent_spec_version : string;
  agent_spec_digest : string;
  agent_loop_id : string;
  agent_loop_version : string;
  agent_loop_digest : string;
  config_generation_id : N;
  workspace_uri : option string;
  workspace_base_revision : option string;
  workspace_mode : WorkspaceAccessMode;
  model_provider : option string;
  model_id : option string;
  model_parameters : option bytes;
  kernel_version : string;
  protocol_versions : bytes;
  capability_grant_ids : bytes;
  approval_request_ids : bytes;
  created_at_ms : Z }.
End NewResolvedEnvironment.
Abbreviation NewResolvedEnvironment := NewResolvedEnvironment.NewResolvedEnvironment.

Module ResolvedBindingRow.
Record ResolvedBindingRow := mk {
  environment_id : N;
  port_id : string;
  adapter_id : N;
  adapter_version : string;
  adapter_digest : string;
  capabilities : bytes }.
End ResolvedBindingRow.
Abbreviation ResolvedBindingRow := ResolvedBindingRow.ResolvedBindingRow.

Module NewResolvedBinding.
Record NewResolvedBinding := mk {
  port_id : string;
  adapter_id : N;
  adapter_version : string;
  adapter_digest : string;
  capabilities : bytes }.
End NewResolvedBinding.
Abbreviation NewResolvedBinding := NewResolvedBinding.NewResolvedBinding.

Module RunGraphHeadRow.
Record RunGraphHeadRow := mk {
  task_id : N;
  graph_revision : Z }.
End RunGraphHeadRow.
Abbreviation RunGraphHeadRow := RunGraphHeadRow.RunGraphHeadRow.

Module RunDependencyRow.
Record RunDependencyRow := mk {
  dependency_id : N;
  task_id : N;
  source_run_id : N;
  target_run_id : N;
  dependency_condition : DependencyCondition;
  created_graph_revision : Z;
  created_at_ms : Z }.
End RunDependencyRow.
Abbreviation RunDependencyRow := RunDependencyRow.RunDependencyRow.

Module NewRunDependency.
Record NewRunDependency := mk {
  dependency_id : N;
  task_id : N;
  source_run_id : N;
  target_run_id : N;
  dependency_condition : DependencyCondition;
  created_at_ms : Z }.
End NewRunDependency.
Abbreviation NewRunDependency := NewRunDependency.NewRunDependency.

Module RunRow.
Record RunRow := mk {
  run_id : N;
  task_id : N;
  session_id : option N;
  parent_run_id : option N;
  state : RunState;
  recovery : RecoveryDisposition;
  run_revision : Z;
  loop_epoch : Z;
  step_sequence : Z;
  input_event_cursor : EventCursor;
  cancellation_epoch : Z;
  resolved_environment_id : option N;
  agent_spec_id : option N;
  agent_spec_version : option string;
  agent_spec_digest : option string;
  requested_profile : string;
  workspace_uri : option string;
  claim_owner : option string;
  claim_token : option Z;
  claim_expires_ms : option Z;
  claim_daemon_epoch : option Z;
  terminal_reason : option string;
  output_ref : option string;
  current_turn_id : option N;
  created_at_ms : Z;
  updated_at_ms : Z }.
End RunRow.
Abbreviation RunRow := RunRow.RunRow.

Module NewRun.
Record NewRun := mk {
  run_id : N;
  task_id : N;
  session_id : option N;
  parent_run_id : option N;
  state : RunState;
  recovery : RecoveryDisposition;
  loop_epoch : Z;
  step_sequence : Z;
  input_event_cursor : EventCursor;
  cancellation_epoch : Z;
  resolved_environment_id : option N;
  agent_spec_id : option N;
  agent_spec_version : option string;
  agent_spec_digest : option string;
  requested_profile : string;
  workspace_uri : option string;
  created_at_ms : Z }.
End NewRun.
Abbreviation NewRun := NewRun.NewRun.

Module RunCas.
Record RunCas := mk {
  run_revision : Z;
  state : option RunState;
  cancellation_epoch : option Z }.
End RunCas.
Abbreviation RunCas := RunCas.RunCas.

Module RunPatch.
Record RunPatch := mk {
  state : option RunState;
  recovery : option RecoveryDisposition;
  loop_epoch : option Z;
  step_sequence : option Z;
  input_event_cursor : option EventCursor;
  cancellation_epoch : option Z;
  resolved_environment_id : option N;
  claim : option ClaimPatch;
  terminal_reason : option string;
  output_ref : option string;
  current_turn_id : option N;
  bump_revision : bool }.
Definition default : RunPatch := mk None None None None None None None None None None None false.
End RunPatch.
Abbreviation RunPatch := RunPatch.RunPatch.

Module WorkspaceRow.
Record WorkspaceRow := mk {
  workspace_id : N;
  kind : string;
  base_revision : option string;
  parent_workspace_id : option N;
  created_at_ms : Z }.
End WorkspaceRow.
Abbreviation WorkspaceRow := WorkspaceRow.WorkspaceRow.

Module NewWorkspace.
Record NewWorkspace := mk {
  workspace_id : N;
  kind : string;
  base_revision : option string;
  parent_workspace_id : option N;
  created_at_ms : Z }.
End NewWorkspace.
Abbreviation NewWorkspace := NewWorkspace.NewWorkspace.

Module WorkspaceLeaseRow.
Record WorkspaceLeaseRow := mk {
  lease_id : N;
  workspace_id : N;
  owner_run_id : N;
  mode : WorkspaceAccessMode;
  lease_epoch : Z;
  enforcement_state : LeaseEnforcementState;
  delegated_from : bytes;
  created_at_ms : Z;
  updated_at_ms : Z }.
End WorkspaceLeaseRow.
Abbreviation WorkspaceLeaseRow := WorkspaceLeaseRow.WorkspaceLeaseRow.

Module NewWorkspaceLease.
Record NewWorkspaceLease := mk {
  lease_id : N;
  workspace_id : N;
  owner_run_id : N;
  mode : WorkspaceAccessMode;
  lease_epoch : Z;
  enforcement_state : LeaseEnforcementState;
  delegated_from : bytes;
  created_at_ms : Z }.
End NewWorkspaceLease.
Abbreviation NewWorkspaceLease := NewWorkspaceLease.NewWorkspaceLease.

Module LeasePatch.
Record LeasePatch := mk {
  enforcement_state : option LeaseEnforcementState;
  owner_run_id : option N;
  mode : option WorkspaceAccessMode;
  delegated_from : option bytes;
  lease_epoch : option Z }.
Definition default : LeasePatch := mk None None None None None.
End LeasePatch.
Abbreviation LeasePatch := LeasePatch.LeasePatch.

Module EffectRow.
Record EffectRow := mk {
  effect_id : N;
  run_id : N;
  step_sequence : Z;
  decision_id : N;
  operation : string;
  request_hash : string;
  request_payload : bytes;
  effect_class : EffectClass;
  idempotency_semantics : IdempotencySemantics;
  reconciliation_semantics : ReconciliationSemantics;
  cancellation_semantics : string;
  compensation_capability : option string;
  adapter_id : N;
  adapter_version : string;
  adapter_digest : string;
  state : EffectState;
  executor_id : option string;
  executor_fencing_token : option Z;
  daemon_fencing_epoch : option Z;
  lease_expires_ms : option Z;
  provider_operation_ref : option string;
  result_ref : option string;
  error_code : option string;
  created_at_ms : Z;
  updated_at_ms : Z }.
End EffectRow.
Abbreviation EffectRow := EffectRow.EffectRow.

Module NewEffect.
Record NewEffect := mk {
  effect_id : N;
  run_id : N;
  step_sequence : Z;
  decision_id : N;
  operation : string;
  request_hash : string;
  request_payload : bytes;
  effect_class : EffectClass;
  idempotency_semantics : IdempotencySemantics;
  reconciliation_semantics : ReconciliationSemantics;
  cancellation_semantics : string;
  compensation_capability : option string;
  adapter_id : N;
  adapter_version : string;
  adapter_digest : string;
  state : EffectState;
  created_at_ms : Z }.
End NewEffect.
Abbreviation NewEffect := NewEffect.NewEffect.

Module EffectPatch.
Record EffectPatch := mk {
  state : option EffectState;
  executor_id : option string;
  executor_fencing_token : option Z;
  daemon_fencing_epoch : option Z;
  lease_expires_ms : option Z;
  provider_operation_ref : option string;
  result_ref : option string;
  error_code : option string }.
Definition default : EffectPatch := mk None None None None None None None None.
End EffectPatch.
Abbreviation EffectPatch := EffectPatch.EffectPatch.

Module ReservationRow.
Record ReservationRow := mk {
  reservation_id : N;
  run_id : N;
  resource_type : string;
  state : ReservationState;
  amount : Z;
  unit : string;
  fencing_token : Z;
  parent_reservation_id : option N;
  created_at_ms : Z;
  updated_at_ms : Z }.
End ReservationRow.
Abbreviation ReservationRow := ReservationRow.ReservationRow.

Module NewReservation.
Record NewReservation := mk {
  reservation_id : N;
  run_id : N;
  resource_type : string;
  state : ReservationState;
  amount : Z;
  unit : string;
  fencing_token : Z;
  parent_reservation_id : option N;
  created_at_ms : Z }.
End NewReservation.
Abbreviation NewReservation := NewReservation.NewReservation.

Module ReservationPatch.
Record ReservationPatch := mk {
  state : option ReservationState;
  fencing_token : option Z }.
Definition default : ReservationPatch := mk None None.
End ReservationPatch.
Abbreviation ReservationPatch := ReservationPatch.ReservationPatch.

Module TimerRow.
Record TimerRow := mk {
  timer_id : N;
  run_id : option N;
  timer_kind : string;
  payload : bytes;
  due_at_ms : Z;
  state : TimerState;
  version : Z;
  claim_owner : option string;
  claim_fencing_token : option Z;
  claim_daemon_epoch : option Z;
  created_at_ms : Z;
  updated_at_ms : Z }.
End TimerRow.
Abbreviation TimerRow := TimerRow.TimerRow.

Module NewTimer.
Record NewTimer := mk {
  timer_id : N;
  run_id : option N;
  timer_kind : string;
  payload : bytes;
  due_at_ms : Z;
  state : TimerState;
  version : Z;
  created_at_ms : Z }.
End NewTimer.
Abbreviation NewTimer := NewTimer.NewTimer.

Module TimerPatch.
Record TimerPatch := mk {
  state : option TimerState;
  claim_owner : option string;
  claim_fencing_token : option Z;
  claim_daemon_epoch : option Z;
  due_at_ms : option Z }.
Definition default : TimerPatch := mk None None None None None.
End TimerPatch.
Abbreviation TimerPatch := TimerPatch.TimerPatch.

Module LoopTurnRow.
Record LoopTurnRow := mk {
  turn_id : N;
  run_id : N;
  run_revision : Z;
  loop_epoch : Z;
  step_sequence : Z;
  input_event_cursor : EventCursor;
  state : string;
  issued_at_ms : Z }.
End LoopTurnRow.
Abbreviation LoopTurnRow := LoopTurnRow.LoopTurnRow.

Module NewLoopTurn.
Record NewLoopTurn := mk {
  turn_id : N;
  run_id : N;
  run_revision : Z;
  loop_epoch : Z;
  step_sequence : Z;
  input_event_cursor : EventCursor;
  state : string;
  issued_at_ms : Z }.
End NewLoopTurn.
Abbreviation NewLoopTurn := NewLoopTurn.NewLoopTurn.

Module LoopTurnPatch.
Record LoopTurnPatch := mk {
  state : option string }.
Definition default : LoopTurnPatch := mk None.
End LoopTurnPatch.
Abbreviation LoopTurnPatch := LoopTurnPatch.LoopTurnPatch.

Module DecisionRow.
Record DecisionRow := mk {
  decision_id : N;
  run_id : N;
  turn_id : N;
  decision_type : string;
  decision_digest : string;
  decision_bytes : bytes;
  run_revision : Z;
  loop_epoch : Z;
  step_sequence : Z;
  input_event_cursor : EventCursor;
  accepted_at_ms : Z }.
End DecisionRow.
Abbreviation DecisionRow := DecisionRow.DecisionRow.

Module NewDecision.
Record NewDecision := mk {
  decision_id : N;
  run_id : N;
  turn_id : N;
  decision_type : string;
  decision_digest : string;
  decision_bytes : bytes;
  run_revision : Z;
  loop_epoch : Z;
  step_sequence : Z;
  input_event_cursor : EventCursor;
  accepted_at_ms : Z }.
End NewDecision.
Abbreviation NewDecision := NewDecision.NewDecision.

Module CapabilityGrantRow.
Record CapabilityGrantRow := mk {
  grant_id : N;
  principal_id : N;
  actor_id : N;
  run_id : option N;
  capability_id : string;
  scope : bytes;
  delegated_from_grant_id : option N;
  expires_at_ms : option Z;
  revoked_at_ms : option Z;
  created_at_ms : Z }.
End CapabilityGrantRow.
Abbreviation CapabilityGrantRow := CapabilityGrantRow.CapabilityGrantRow.

Module NewCapabilityGrant.
Record NewCapabilityGrant := mk {
  grant_id : N;
  principal_id : N;
  actor_id : N;
  run_id : option N;
  capability_id : string;
  scope : bytes;
  delegated_from_grant_id : option N;
  expires_at_ms : option Z;
  revoked_at_ms : option Z;
  created_at_ms : Z }.
End NewCapabilityGrant.
Abbreviation NewCapabilityGrant := NewCapabilityGrant.NewCapabilityGrant.

Module DelegationHopRow.
Record DelegationHopRow := mk {
  chain_id : N;
  hop_index : Z;
  principal_or_actor_id : string;
  run_id : option N;
  capability_grant_ids : bytes }.
End DelegationHopRow.
Abbreviation DelegationHopRow := DelegationHopRow.DelegationHopRow.

Module NewDelegationHop.
Record NewDelegationHop := mk {
  chain_id : N;
  hop_index : Z;
  principal_or_actor_id : string;
  run_id : option N;
  capability_grant_ids : bytes }.
End NewDelegationHop.
Abbreviation NewDelegationHop := NewDelegationHop.NewDelegationHop.

Module ApprovalRequestRow.
Record ApprovalRequestRow := mk {
  request_id : N;
  request_digest : string;
  principal_id : N;
  actor_id : N;
  run_id : option N;
  operation : string;
  target_resource : option string;
  capability_ids : bytes;
  extension_bundle_digest : option string;
  config_generation_digest : option string;
  expires_at_ms : Z;
  nonce : string;
  state : ApprovalState;
  created_at_ms : Z;
  resolved_at_ms : option Z }.
End ApprovalRequestRow.
Abbreviation ApprovalRequestRow := ApprovalRequestRow.ApprovalRequestRow.

Module NewApprovalRequest.
Record NewApprovalRequest := mk {
  request_id : N;
  request_digest : string;
  principal_id : N;
  actor_id : N;
  run_id : option N;
  operation : string;
  target_resource : option string;
  capability_ids : bytes;
  extension_bundle_digest : option string;
  config_generation_digest : option string;
  expires_at_ms : Z;
  nonce : string;
  state : ApprovalState;
  created_at_ms : Z;
  resolved_at_ms : option Z }.
End NewApprovalRequest.
Abbreviation NewApprovalRequest := NewApprovalRequest.NewApprovalRequest.

Module ApprovalResponseRow.
Record ApprovalResponseRow := mk {
  request_id : N;
  request_digest : string;
  decision : string;
  device_id : N;
  responder_principal_id : N;
  responded_at_ms : Z }.
End ApprovalResponseRow.
Abbreviation ApprovalResponseRow := ApprovalResponseRow.ApprovalResponseRow.

Module NewApprovalResponse.
Record NewApprovalResponse := mk {
  request_id : N;
  request_digest : string;
  decision : string;
  device_id : N;
  responder_principal_id : N;
  responded_at_ms : Z }.
End NewApprovalResponse.
Abbreviation NewApprovalResponse := NewApprovalResponse.NewApprovalResponse.

Module AdapterRegistrationRow.
Record AdapterRegistrationRow := mk {
  adapter_id : N;
  version : string;
  bundle_digest : string;
  manifest_digest : string;
  runtime_type : string;
  implemented_ports : bytes;
  capabilities : bytes;
  trust_state : TrustState;
  conformance_state : ConformanceState;
  created_at_ms : Z }.
End AdapterRegistrationRow.
Abbreviation AdapterRegistrationRow := AdapterRegistrationRow.AdapterRegistrationRow.

Module NewAdapterRegistration.
Record NewAdapterRegistration := mk {
  adapter_id : N;
  version : string;
  bundle_digest : string;
  manifest_digest : string;
  runtime_type : string;
  implemented_ports : bytes;
  capabilities : bytes;
  trust_state : TrustState;
  conformance_state : ConformanceState;
  created_at_ms : Z }.
End NewAdapterRegistration.
Abbreviation NewAdapterRegistration := NewAdapterRegistration.NewAdapterRegistration.

Module AdapterInstanceRow.
Record AdapterInstanceRow := mk {
  adapter_instance_id : N;
  adapter_id : N;
  adapter_version : string;
  bundle_digest : string;
  daemon_instance_id : N;
  pid : option Z;
  process_start_identity : option string;
  state : string;
  exit_reason : option string;
  last_heartbeat_ms : option Z;
  started_at_ms : Z;
  ended_at_ms : option Z }.
End AdapterInstanceRow.
Abbreviation AdapterInstanceRow := AdapterInstanceRow.AdapterInstanceRow.

Module NewAdapterInstance.
Record NewAdapterInstance := mk {
  adapter_instance_id : N;
  adapter_id : N;
  adapter_version : string;
  bundle_digest : string;
  daemon_instance_id : N;
  pid : option Z;
  process_start_identity : option string;
  state : string;
  exit_reason : option string;
  last_heartbeat_ms : option Z;
  started_at_ms : Z;
  ended_at_ms : option Z }.
End NewAdapterInstance.
Abbreviation NewAdapterInstance := NewAdapterInstance.NewAdapterInstance.

Module AdapterInstanceStatePatch.
Record AdapterInstanceStatePatch := mk {
  state : option string;
  exit_reason : option string;
  last_heartbeat_ms : option Z;
  ended_at_ms : option Z }.
Definition default : AdapterInstanceStatePatch := mk None None None None.
End AdapterInstanceStatePatch.
Abbreviation AdapterInstanceStatePatch := AdapterInstanceStatePatch.AdapterInstanceStatePatch.

Module ConformanceReportRow.
Record ConformanceReportRow := mk {
  adapter_id : N;
  adapter_version : string;
  bundle_digest : string;
  report_digest : string;
  harness_version : string;
  result : string;
  run_at_ms : Z;
  details : option bytes }.
End ConformanceReportRow.
Abbreviation ConformanceReportRow := ConformanceReportRow.ConformanceReportRow.

Module NewConformanceReport.
Record NewConformanceReport := mk {
  adapter_id : N;
  adapter_version : string;
  bundle_digest : string;
  report_digest : string;
  harness_version : string;
  result : string;
  run_at_ms : Z;
  details : option bytes }.
End NewConformanceReport.
Abbreviation NewConformanceReport := NewConformanceReport.NewConformanceReport.

Module ArtifactRow.
Record ArtifactRow := mk {
  artifact_id : N;
  uri : string;
  digest : string;
  media_type : string;
  size_bytes : Z;
  origin_run_id : N;
  origin_effect_id : option N;
  sensitivity : SensitivityClass;
  retention : RetentionClass;
  locator : string;
  created_at_ms : Z }.
End ArtifactRow.
Abbreviation ArtifactRow := ArtifactRow.ArtifactRow.

Module NewArtifact.
Record NewArtifact := mk {
  artifact_id : N;
  uri : string;
  digest : string;
  media_type : string;
  size_bytes : Z;
  origin_run_id : N;
  origin_effect_id : option N;
  sensitivity : SensitivityClass;
  retention : RetentionClass;
  locator : string;
  created_at_ms : Z }.
End NewArtifact.
Abbreviation NewArtifact := NewArtifact.NewArtifact.

Module ConfigGenerationRow.
Record ConfigGenerationRow := mk {
  generation_id : N;
  digest : string;
  document : bytes;
  validation_state : string;
  test_state : string;
  created_by_actor_id : N;
  created_at_ms : Z }.
End ConfigGenerationRow.
Abbreviation ConfigGenerationRow := ConfigGenerationRow.ConfigGenerationRow.

Module NewConfigGeneration.
Record NewConfigGeneration := mk {
  generation_id : N;
  digest : string;
  document : bytes;
  validation_state : string;
  test_state : string;
  created_by_actor_id : N;
  created_at_ms : Z }.
End NewConfigGeneration.
Abbreviation NewConfigGeneration := NewConfigGeneration.NewConfigGeneration.

Module ActiveConfigGenerationRow.
Record ActiveConfigGenerationRow := mk {
  generation_id : N;
  revision : Z;
  activated_at_ms : Z }.
End ActiveConfigGenerationRow.
Abbreviation ActiveConfigGenerationRow := ActiveConfigGenerationRow.ActiveConfigGenerationRow.

Module IdempotencyRecordRow.
Record IdempotencyRecordRow := mk {
  principal_id : N;
  idempotency_key : string;
  request_digest : string;
  command_id : N;
  outcome_code : string;
  outcome_payload : bytes;
  created_at_ms : Z }.
End IdempotencyRecordRow.
Abbreviation IdempotencyRecordRow := IdempotencyRecordRow.IdempotencyRecordRow.

Module NewIdempotencyRecord.
Record NewIdempotencyRecord := mk {
  principal_id : N;
  idempotency_key : string;
  request_digest : string;
  command_id : N;
  outcome_code : string;
  outcome_payload : bytes;
  created_at_ms : Z }.
End NewIdempotencyRecord.
Abbreviation NewIdempotencyRecord := NewIdempotencyRecord.NewIdempotencyRecord.

Module EventStreamHeadRow.
Record EventStreamHeadRow := mk {
  stream_key : string;
  last_sequence : Z }.
End EventStreamHeadRow.
Abbreviation EventStreamHeadRow := EventStreamHeadRow.EventStreamHeadRow.

Module OutboxEventRow.
Record OutboxEventRow := mk {
  event_id : N;
  event_type : string;
  event_version : Z;
  stream_key : string;
  sequence : Z;
  occurred_at_ms : Z;
  run_id : option N;
  task_id : option N;
  session_id : option N;
  effect_id : option N;
  causation_id : option N;
  correlation_id : option string;
  sensitivity : SensitivityClass;
  retention : RetentionClass;
  payload : bytes;
  journal_published_at_ms : option Z;
  live_published_at_ms : option Z }.
End OutboxEventRow.
Abbreviation OutboxEventRow := OutboxEventRow.OutboxEventRow.

Module NewOutboxEvent.
Record NewOutboxEvent := mk {
  event_id : N;
  event_type : string;
  event_version : Z;
  stream_key : string;
  sequence : Z;
  occurred_at_ms : Z;
  run_id : option N;
  task_id : option N;
  session_id : option N;
  effect_id : option N;
  causation_id : option N;
  correlation_id : option string;
  sensitivity : SensitivityClass;
  retention : RetentionClass;
  payload : bytes }.
End NewOutboxEvent.
Abbreviation NewOutboxEvent := NewOutboxEvent.NewOutboxEvent.

