(* ===== verification/StoreBase.v ===== *)
(** * The database, the write transaction and the SQLite value mapping

    The tables of [schema/kernel_store.sql] that the modelled services read or
    write, each a finite map from its primary key to its row; the write
    transaction of [kernel-store-sqlite/src/txn.rs] (its working copy of the
    database, its [TxContext], and how far the id and clock sources have been
    consumed); the value mapping and error classification of [mapping.rs]; the
    daemon fence of [fence.rs]. *)

From S2P Require Import Prelude Domain Ids Models.

Open Scope string_scope.
Open Scope Z_scope.

(** ** Transaction context and fence ([kernel-store/src/types.rs]) *)

Record TxContext := mkTxContext {
  ctx_daemon_epoch : Z;
  ctx_principal_id : PrincipalId;
  ctx_command_id : CommandId;
  ctx_correlation_id : option string }.

Record DaemonFence := mkDaemonFence {
  fence_instance_id : DaemonInstanceId;
  fence_epoch : Z;
  fence_lease_expires_unix_ms : Z }.

(** ** Tables *)

Record Db := mkDb {
  daemon_fence : option DaemonFence;
  agent_specs : gmap (N * string) AgentSpecRow;
  sessions : gmap N SessionRow;
  tasks : gmap N TaskRow;
  environments : gmap N ResolvedEnvironmentRow;
  bindings : gmap (N * string) ResolvedBindingRow;
  runs : gmap N RunRow;
  graph_heads : gmap N RunGraphHeadRow;
  dependencies : gmap N RunDependencyRow;
  effects : gmap N EffectRow;
  reservations : gmap N ReservationRow;
  timers : gmap N TimerRow;
  loop_turns : gmap N LoopTurnRow;
  decisions : gmap N DecisionRow;
  registrations : gmap (N * string * string) AdapterRegistrationRow;
  idempotency_records : gmap (N * string) IdempotencyRecordRow;
  stream_heads : gmap string Z;
  outbox_events : gmap N OutboxEventRow;
  capability_grants : gmap N CapabilityGrantRow;
  delegation_hops : gmap (N * Z) DelegationHopRow;
  approval_requests : gmap N ApprovalRequestRow;
  approval_responses : gmap N ApprovalResponseRow;
  workspaces : gmap N WorkspaceRow;
  workspace_leases : gmap N WorkspaceLeaseRow;
  artifacts : gmap N ArtifactRow;
  adapter_instances : gmap N AdapterInstanceRow;
  conformance_reports : gmap (N * string * string) ConformanceReportRow;
  config_generations : gmap N ConfigGenerationRow;
  active_config : option ActiveConfigGenerationRow }.

Definition set_daemon_fence (x : option DaemonFence) (d : Db) : Db :=
  mkDb x d.(agent_specs) d.(sessions) d.(tasks) d.(environments) d.(bindings) d.(runs) d.(graph_heads) d.(dependencies) d.(effects) d.(reservations) d.(timers) d.(loop_turns) d.(decisions) d.(registrations) d.(idempotency_records) d.(stream_heads) d.(outbox_events) d.(capability_grants) d.(delegation_hops) d.(approval_requests) d.(approval_responses) d.(workspaces) d.(workspace_leases) d.(artifacts) d.(adapter_instances) d.(conformance_reports) d.(config_generations) d.(active_config).
Definition set_agent_specs (x : gmap (N * string) AgentSpecRow) (d : Db) : Db :=
  mkDb d.(daemon_fence) x d.(sessions) d.(tasks) d.(environments) d.(bindings) d.(runs) d.(graph_heads) d.(dependencies) d.(effects) d.(reservations) d.(timers) d.(loop_turns) d.(decisions) d.(registrations) d.(idempotency_records) d.(stream_heads) d.(outbox_events) d.(capability_grants) d.(delegation_hops) d.(approval_requests) d.(approval_responses) d.(workspaces) d.(workspace_leases) d.(artifacts) d.(adapter_instances) d.(conformance_reports) d.(config_generations) d.(active_config).
Definition set_sessions (x : gmap N SessionRow) (d : Db) : Db :=
  mkDb d.(daemon_fence) d.(agent_specs) x d.(tasks) d.(environments) d.(bindings) d.(runs) d.(graph_heads) d.(dependencies) d.(effects) d.(reservations) d.(timers) d.(loop_turns) d.(decisions) d.(registrations) d.(idempotency_records) d.(stream_heads) d.(outbox_events) d.(capability_grants) d.(delegation_hops) d.(approval_requests) d.(approval_responses) d.(workspaces) d.(workspace_leases) d.(artifacts) d.(adapter_instances) d.(conformance_reports) d.(config_generations) d.(active_config).
Definition set_tasks (x : gmap N TaskRow) (d : Db) : Db :=
  mkDb d.(daemon_fence) d.(agent_specs) d.(sessions) x d.(environments) d.(bindings) d.(runs) d.(graph_heads) d.(dependencies) d.(effects) d.(reservations) d.(timers) d.(loop_turns) d.(decisions) d.(registrations) d.(idempotency_records) d.(stream_heads) d.(outbox_events) d.(capability_grants) d.(delegation_hops) d.(approval_requests) d.(approval_responses) d.(workspaces) d.(workspace_leases) d.(artifacts) d.(adapter_instances) d.(conformance_reports) d.(config_generations) d.(active_config).
Definition set_environments (x : gmap N ResolvedEnvironmentRow) (d : Db) : Db :=
  mkDb d.(daemon_fence) d.(agent_specs) d.(sessions) d.(tasks) x d.(bindings) d.(runs) d.(graph_heads) d.(dependencies) d.(effects) d.(reservations) d.(timers) d.(loop_turns) d.(decisions) d.(registrations) d.(idempotency_records) d.(stream_heads) d.(outbox_events) d.(capability_grants) d.(delegation_hops) d.(approval_requests) d.(approval_responses) d.(workspaces) d.(workspace_leases) d.(artifacts) d.(adapter_instances) d.(conformance_reports) d.(config_generations) d.(active_config).
Definition set_bindings (x : gmap (N * string) ResolvedBindingRow) (d : Db) : Db :=
  mkDb d.(daemon_fence) d.(agent_specs) d.(sessions) d.(tasks) d.(environments) x d.(runs) d.(graph_heads) d.(dependencies) d.(effects) d.(reservations) d.(timers) d.(loop_turns) d.(decisions) d.(registrations) d.(idempotency_records) d.(stream_heads) d.(outbox_events) d.(capability_grants) d.(delegation_hops) d.(approval_requests) d.(approval_responses) d.(workspaces) d.(workspace_leases) d.(artifacts) d.(adapter_instances) d.(conformance_reports) d.(config_generations) d.(active_config).
Definition set_runs (x : gmap N RunRow) (d : Db) : Db :=
  mkDb d.(daemon_fence) d.(agent_specs) d.(sessions) d.(tasks) d.(environments) d.(bindings) x d.(graph_heads) d.(dependencies) d.(effects) d.(reservations) d.(timers) d.(loop_turns) d.(decisions) d.(registrations) d.(idempotency_records) d.(stream_heads) d.(outbox_events) d.(capability_grants) d.(delegation_hops) d.(approval_requests) d.(approval_responses) d.(workspaces) d.(workspace_leases) d.(artifacts) d.(adapter_instances) d.(conformance_reports) d.(config_generations) d.(active_config).
Definition set_graph_heads (x : gmap N RunGraphHeadRow) (d : Db) : Db :=
  mkDb d.(daemon_fence) d.(agent_specs) d.(sessions) d.(tasks) d.(environments) d.(bindings) d.(runs) x d.(dependencies) d.(effects) d.(reservations) d.(timers) d.(loop_turns) d.(decisions) d.(registrations) d.(idempotency_records) d.(stream_heads) d.(outbox_events) d.(capability_grants) d.(delegation_hops) d.(approval_requests) d.(approval_responses) d.(workspaces) d.(workspace_leases) d.(artifacts) d.(adapter_instances) d.(conformance_reports) d.(config_generations) d.(active_config).
Definition set_dependencies (x : gmap N RunDependencyRow) (d : Db) : Db :=
  mkDb d.(daemon_fence) d.(agent_specs) d.(sessions) d.(tasks) d.(environments) d.(bindings) d.(runs) d.(graph_heads) x d.(effects) d.(reservations) d.(timers) d.(loop_turns) d.(decisions) d.(registrations) d.(idempotency_records) d.(stream_heads) d.(outbox_events) d.(capability_grants) d.(delegation_hops) d.(approval_requests) d.(approval_responses) d.(workspaces) d.(workspace_leases) d.(artifacts) d.(adapter_instances) d.(conformance_reports) d.(config_generations) d.(active_config).
Definition set_effects (x : gmap N EffectRow) (d : Db) : Db :=
  mkDb d.(daemon_fence) d.(agent_specs) d.(sessions) d.(tasks) d.(environments) d.(bindings) d.(runs) d.(graph_heads) d.(dependencies) x d.(reservations) d.(timers) d.(loop_turns) d.(decisions) d.(registrations) d.(idempotency_records) d.(stream_heads) d.(outbox_events) d.(capability_grants) d.(delegation_hops) d.(approval_requests) d.(approval_responses) d.(workspaces) d.(workspace_leases) d.(artifacts) d.(adapter_instances) d.(conformance_reports) d.(config_generations) d.(active_config).
Definition set_reservations (x : gmap N ReservationRow) (d : Db) : Db :=
  mkDb d.(daemon_fence) d.(agent_specs) d.(sessions) d.(tasks) d.(environments) d.(bindings) d.(runs) d.(graph_heads) d.(dependencies) d.(effects) x d.(timers) d.(loop_turns) d.(decisions) d.(registrations) d.(idempotency_records) d.(stream_heads) d.(outbox_events) d.(capability_grants) d.(delegation_hops) d.(approval_requests) d.(approval_responses) d.(workspaces) d.(workspace_leases) d.(artifacts) d.(adapter_instances) d.(conformance_reports) d.(config_generations) d.(active_config).
Definition set_timers (x : gmap N TimerRow) (d : Db) : Db :=
  mkDb d.(daemon_fence) d.(agent_specs) d.(sessions) d.(tasks) d.(environments) d.(bindings) d.(runs) d.(graph_heads) d.(dependencies) d.(effects) d.(reservations) x d.(loop_turns) d.(decisions) d.(registrations) d.(idempotency_records) d.(stream_heads) d.(outbox_events) d.(capability_grants) d.(delegation_hops) d.(approval_requests) d.(approval_responses) d.(workspaces) d.(workspace_leases) d.(artifacts) d.(adapter_instances) d.(conformance_reports) d.(config_generations) d.(active_config).
Definition set_loop_turns (x : gmap N LoopTurnRow) (d : Db) : Db :=
  mkDb d.(daemon_fence) d.(agent_specs) d.(sessions) d.(tasks) d.(environments) d.(bindings) d.(runs) d.(graph_heads) d.(dependencies) d.(effects) d.(reservations) d.(timers) x d.(decisions) d.(registrations) d.(idempotency_records) d.(stream_heads) d.(outbox_events) d.(capability_grants) d.(delegation_hops) d.(approval_requests) d.(approval_responses) d.(workspaces) d.(workspace_leases) d.(artifacts) d.(adapter_instances) d.(conformance_reports) d.(config_generations) d.(active_config).
Definition set_decisions (x : gmap N DecisionRow) (d : Db) : Db :=
  mkDb d.(daemon_fence) d.(agent_specs) d.(sessions) d.(tasks) d.(environments) d.(bindings) d.(runs) d.(graph_heads) d.(dependencies) d.(effects) d.(reservations) d.(timers) d.(loop_turns) x d.(registrations) d.(idempotency_records) d.(stream_heads) d.(outbox_events) d.(capability_grants) d.(delegation_hops) d.(approval_requests) d.(approval_responses) d.(workspaces) d.(workspace_leases) d.(artifacts) d.(adapter_instances) d.(conformance_reports) d.(config_generations) d.(active_config).
Definition set_registrations (x : gmap (N * string * string) AdapterRegistrationRow) (d : Db) : Db :=
  mkDb d.(daemon_fence) d.(agent_specs) d.(sessions) d.(tasks) d.(environments) d.(bindings) d.(runs) d.(graph_heads) d.(dependencies) d.(effects) d.(reservations) d.(timers) d.(loop_turns) d.(decisions) x d.(idempotency_records) d.(stream_heads) d.(outbox_events) d.(capability_grants) d.(delegation_hops) d.(approval_requests) d.(approval_responses) d.(workspaces) d.(workspace_leases) d.(artifacts) d.(adapter_instances) d.(conformance_reports) d.(config_generations) d.(active_config).
Definition set_idempotency_records (x : gmap (N * string) IdempotencyRecordRow) (d : Db) : Db :=
  mkDb d.(daemon_fence) d.(agent_specs) d.(sessions) d.(tasks) d.(environments) d.(bindings) d.(runs) d.(graph_heads) d.(dependencies) d.(effects) d.(reservations) d.(timers) d.(loop_turns) d.(decisions) d.(registrations) x d.(stream_heads) d.(outbox_events) d.(capability_grants) d.(delegation_hops) d.(approval_requests) d.(approval_responses) d.(workspaces) d.(workspace_leases) d.(artifacts) d.(adapter_instances) d.(conformance_reports) d.(config_generations) d.(active_config).
Definition set_stream_heads (x : gmap string Z) (d : Db) : Db :=
  mkDb d.(daemon_fence) d.(agent_specs) d.(sessions) d.(tasks) d.(environments) d.(bindings) d.(runs) d.(graph_heads) d.(dependencies) d.(effects) d.(reservations) d.(timers) d.(loop_turns) d.(decisions) d.(registrations) d.(idempotency_records) x d.(outbox_events) d.(capability_grants) d.(delegation_hops) d.(approval_requests) d.(approval_responses) d.(workspaces) d.(workspace_leases) d.(artifacts) d.(adapter_instances) d.(conformance_reports) d.(config_generations) d.(active_config).
Definition set_outbox_events (x : gmap N OutboxEventRow) (d : Db) : Db :=
  mkDb d.(daemon_fence) d.(agent_specs) d.(sessions) d.(tasks) d.(environments) d.(bindings) d.(runs) d.(graph_heads) d.(dependencies) d.(effects) d.(reservations) d.(timers) d.(loop_turns) d.(decisions) d.(registrations) d.(idempotency_records) d.(stream_heads) x d.(capability_grants) d.(delegation_hops) d.(approval_requests) d.(approval_responses) d.(workspaces) d.(workspace_leases) d.(artifacts) d.(adapter_instances) d.(conformance_reports) d.(config_generations) d.(active_config).
Definition set_capability_grants (x : gmap N CapabilityGrantRow) (d : Db) : Db :=
  mkDb d.(daemon_fence) d.(agent_specs) d.(sessions) d.(tasks) d.(environments) d.(bindings) d.(runs) d.(graph_heads) d.(dependencies) d.(effects) d.(reservations) d.(timers) d.(loop_turns) d.(decisions) d.(registrations) d.(idempotency_records) d.(stream_heads) d.(outbox_events) x d.(delegation_hops) d.(approval_requests) d.(approval_responses) d.(workspaces) d.(workspace_leases) d.(artifacts) d.(adapter_instances) d.(conformance_reports) d.(config_generations) d.(active_config).
Definition set_delegation_hops (x : gmap (N * Z) DelegationHopRow) (d : Db) : Db :=
  mkDb d.(daemon_fence) d.(agent_specs) d.(sessions) d.(tasks) d.(environments) d.(bindings) d.(runs) d.(graph_heads) d.(dependencies) d.(effects) d.(reservations) d.(timers) d.(loop_turns) d.(decisions) d.(registrations) d.(idempotency_records) d.(stream_heads) d.(outbox_events) d.(capability_grants) x d.(approval_requests) d.(approval_responses) d.(workspaces) d.(workspace_leases) d.(artifacts) d.(adapter_instances) d.(conformance_reports) d.(config_generations) d.(active_config).
Definition set_approval_requests (x : gmap N ApprovalRequestRow) (d : Db) : Db :=
  mkDb d.(daemon_fence) d.(agent_specs) d.(sessions) d.(tasks) d.(environments) d.(bindings) d.(runs) d.(graph_heads) d.(dependencies) d.(effects) d.(reservations) d.(timers) d.(loop_turns) d.(decisions) d.(registrations) d.(idempotency_records) d.(stream_heads) d.(outbox_events) d.(capability_grants) d.(delegation_hops) x d.(approval_responses) d.(workspaces) d.(workspace_leases) d.(artifacts) d.(adapter_instances) d.(conformance_reports) d.(config_generations) d.(active_config).
Definition set_approval_responses (x : gmap N ApprovalResponseRow) (d : Db) : Db :=
  mkDb d.(daemon_fence) d.(agent_specs) d.(sessions) d.(tasks) d.(environments) d.(bindings) d.(runs) d.(graph_heads) d.(dependencies) d.(effects) d.(reservations) d.(timers) d.(loop_turns) d.(decisions) d.(registrations) d.(idempotency_records) d.(stream_heads) d.(outbox_events) d.(capability_grants) d.(delegation_hops) d.(approval_requests) x d.(workspaces) d.(workspace_leases) d.(artifacts) d.(adapter_instances) d.(conformance_reports) d.(config_generations) d.(active_config).
Definition set_workspaces (x : gmap N WorkspaceRow) (d : Db) : Db :=
  mkDb d.(daemon_fence) d.(agent_specs) d.(sessions) d.(tasks) d.(environments) d.(bindings) d.(runs) d.(graph_heads) d.(dependencies) d.(effects) d.(reservations) d.(timers) d.(loop_turns) d.(decisions) d.(registrations) d.(idempotency_records) d.(stream_heads) d.(outbox_events) d.(capability_grants) d.(delegation_hops) d.(approval_requests) d.(approval_responses) x d.(workspace_leases) d.(artifacts) d.(adapter_instances) d.(conformance_reports) d.(config_generations) d.(active_config).
Definition set_workspace_leases (x : gmap N WorkspaceLeaseRow) (d : Db) : Db :=
  mkDb d.(daemon_fence) d.(agent_specs) d.(sessions) d.(tasks) d.(environments) d.(bindings) d.(runs) d.(graph_heads) d.(dependencies) d.(effects) d.(reservations) d.(timers) d.(loop_turns) d.(decisions) d.(registrations) d.(idempotency_records) d.(stream_heads) d.(outbox_events) d.(capability_grants) d.(delegation_hops) d.(approval_requests) d.(approval_responses) d.(workspaces) x d.(artifacts) d.(adapter_instances) d.(conformance_reports) d.(config_generations) d.(active_config).
Definition set_artifacts (x : gmap N ArtifactRow) (d : Db) : Db :=
  mkDb d.(daemon_fence) d.(agent_specs) d.(sessions) d.(tasks) d.(environments) d.(bindings) d.(runs) d.(graph_heads) d.(dependencies) d.(effects) d.(reservations) d.(timers) d.(loop_turns) d.(decisions) d.(registrations) d.(idempotency_records) d.(stream_heads) d.(outbox_events) d.(capability_grants) d.(delegation_hops) d.(approval_requests) d.(approval_responses) d.(workspaces) d.(workspace_leases) x d.(adapter_instances) d.(conformance_reports) d.(config_generations) d.(active_config).
Definition set_adapter_instances (x : gmap N AdapterInstanceRow) (d : Db) : Db :=
  mkDb d.(daemon_fence) d.(agent_specs) d.(sessions) d.(tasks) d.(environments) d.(bindings) d.(runs) d.(graph_heads) d.(dependencies) d.(effects) d.(reservations) d.(timers) d.(loop_turns) d.(decisions) d.(registrations) d.(idempotency_records) d.(stream_heads) d.(outbox_events) d.(capability_grants) d.(delegation_hops) d.(approval_requests) d.(approval_responses) d.(workspaces) d.(workspace_leases) d.(artifacts) x d.(conformance_reports) d.(config_generations) d.(active_config).
Definition set_conformance_reports (x : gmap (N * string * string) ConformanceReportRow) (d : Db) : Db :=
  mkDb d.(daemon_fence) d.(agent_specs) d.(sessions) d.(tasks) d.(environments) d.(bindings) d.(runs) d.(graph_heads) d.(dependencies) d.(effects) d.(reservations) d.(timers) d.(loop_turns) d.(decisions) d.(registrations) d.(idempotency_records) d.(stream_heads) d.(outbox_events) d.(capability_grants) d.(delegation_hops) d.(approval_requests) d.(approval_responses) d.(workspaces) d.(workspace_leases) d.(artifacts) d.(adapter_instances) x d.(config_generations) d.(active_config).
Definition set_config_generations (x : gmap N ConfigGenerationRow) (d : Db) : Db :=
  mkDb d.(daemon_fence) d.(agent_specs) d.(sessions) d.(tasks) d.(environments) d.(bindings) d.(runs) d.(graph_heads) d.(dependencies) d.(effects) d.(reservations) d.(timers) d.(loop_turns) d.(decisions) d.(registrations) d.(idempotency_records) d.(stream_heads) d.(outbox_events) d.(capability_grants) d.(delegation_hops) d.(approval_requests) d.(approval_responses) d.(workspaces) d.(workspace_leases) d.(artifacts) d.(adapter_instances) d.(conformance_reports) x d.(active_config).
Definition set_active_config (x : option ActiveConfigGenerationRow) (d : Db) : Db :=
  mkDb d.(daemon_fence) d.(agent_specs) d.(sessions) d.(tasks) d.(environments) d.(bindings) d.(runs) d.(graph_heads) d.(dependencies) d.(effects) d.(reservations) d.(timers) d.(loop_turns) d.(decisions) d.(registrations) d.(idempotency_records) d.(stream_heads) d.(outbox_events) d.(capability_grants) d.(delegation_hops) d.(approval_requests) d.(approval_responses) d.(workspaces) d.(workspace_leases) d.(artifacts) d.(adapter_instances) d.(conformance_reports) d.(config_generations) x.

Definition empty_db : Db :=
  mkDb None ∅ ∅ ∅ ∅ ∅ ∅ ∅ ∅ ∅ ∅ ∅ ∅ ∅ ∅ ∅ ∅ ∅ ∅ ∅ ∅ ∅ ∅ ∅ ∅ ∅ ∅ ∅ None.

(** A write transaction. *)
Record Txn := mkTxn {
  t_db : Db;
  t_ctx : TxContext;
  t_ids : nat;      (* identifiers drawn so far *)
  t_clock : nat }.  (* clock readings so far *)

Abbreviation M := (ST Txn).

Definition set_db (d : Db) (t : Txn) : Txn := mkTxn d t.(t_ctx) t.(t_ids) t.(t_clock).

(** Reading a table, and updating the database in place. *)
Definition query {A} (f : Db -> A) : M A := gets (fun t => f t.(t_db)).
Definition update_db (f : Db -> Db) : M unit := modify (fun t => set_db (f t.(t_db)) t).

Section Sources.
Context `{!Ext}.

(** [IdProvider::new_uuid_v7] and [Clock::now_unix_ms]: any sequence of
    identifiers and of clock readings. *)
Definition draw_uuid : M Uuid := fun t =>
  (Ok (new_uuid_v7 t.(t_ids)), mkTxn t.(t_db) t.(t_ctx) (S t.(t_ids)) t.(t_clock)).

Definition now_unix_ms : M Z := fun t =>
  (Ok (clock_ms t.(t_clock)), mkTxn t.(t_db) t.(t_ctx) t.(t_ids) (S t.(t_clock))).
End Sources.

Definition txn_context : M TxContext := gets t_ctx.

(** ** Value mapping ([kernel-store-sqlite/src/mapping.rs]) *)

(** [classify_sqlite]: SQLite extended result codes to the kernel's taxonomy. *)
Definition classify_sqlite (code : Z) : ErrorCode * RetryClass :=
  let primary := Z.land code 255 in
  if primary =? 19 then
    if (code =? 2067) || (code =? 1555) then (Conflict, RetryNever)
    else (FailedPrecondition, RetryNever)
  else if (primary =? 5) || (primary =? 6) then (Unavailable, RetrySafe)
  else if (primary =? 10) || (primary =? 14) then (Unavailable, RetrySafe)
  else (Internal, RetryNever).

(** [message]. *)
Definition storage_message (code : ErrorCode) : string :=
  match code with
  | Conflict => "storage constraint conflict"
  | FailedPrecondition => "storage constraint rejected the write"
  | Unavailable => "storage is unavailable"
  | NotFound => "required row is missing"
  | _ => "storage operation failed"
  end.

(** [from_sqlx] on a database error with this extended result code. *)
Definition from_sqlx (code : Z) : KernelError :=
  let '(c, r) := classify_sqlite code in mkKernelError c r (storage_message c).

(** The constraint failures of the statements below, by extended code:
    [SQLITE_CONSTRAINT_UNIQUE], [_PRIMARYKEY], [_CHECK] and [_FOREIGNKEY]. *)
Definition unique_failure : KernelError := from_sqlx 2067.
Definition primary_key_failure : KernelError := from_sqlx 1555.
Definition check_failure : KernelError := from_sqlx 275.
Definition foreign_key_failure : KernelError := from_sqlx 787.

(** [int]: an INTEGER column is readable as [i64].  A column that SQLite's
    [+ 1] pushed past the 64-bit range holds a REAL and is not. *)
Definition int_column (column : string) (v : Z) : Res Z :=
  if in_i64 v then Ok v
  else Err (mkKernelError Internal RetryNever
              ("column " +:+ column +:+ " is not readable as INTEGER")).

(** [decode_u64]. *)
Definition decode_u64 (column : string) (v : Z) : Res Z :=
  if 0 <=? v then Ok v
  else Err (mkKernelError Internal RetryNever (column +:+ " is negative")).

(** [encode_u64]. *)
Definition encode_u64 (column : string) (v : Z) : Res Z :=
  if v <=? i64_max then Ok v
  else Err (mkKernelError InvalidArgument RetryNever
              (column +:+ " exceeds the SQLite integer range")).

(** [decode_u64("table.column", int(row, "column")?)]. *)
Definition u64_column (table column : string) (v : Z) : Res Z :=
  let? z := int_column column v in decode_u64 (table +:+ "." +:+ column) z.

Definition opt_u64_column (table column : string) (o : option Z) : Res (option Z) :=
  opt_traverse (u64_column table column) o.

(** [COALESCE(?, column)] for a NOT NULL and for a nullable column. *)
Definition coalesce {A} (p : option A) (cur : A) : A := from_option (fun a => a) cur p.
Definition coalesce_opt {A} (p cur : option A) : option A :=
  match p with Some _ => p | None => cur end.

(** A foreign key column is null or names a row of the referenced table. *)
Definition fk_ok {K A} `{Countable K} (o : option K) (m : gmap K A) : bool :=
  match o with
  | None => true
  | Some k => match m !! k with Some _ => true | None => false end
  end.

Definition between (lo v hi : Z) : bool := (lo <=? v) && (v <=? hi).

Definition kerr (c : ErrorCode) (msg : string) : KernelError := mkKernelError c RetryNever msg.

(** ** Fence ([kernel-store-sqlite/src/fence.rs]) *)

Definition FENCE_LEASE_MS : Z := 15000.

(** [fence::claim] at clock reading [now_ms]: the fence row it writes. *)
Definition fence_claim (instance : DaemonInstanceId) (lease_ms now_ms : Z) (d : Db)
    : Res DaemonFence * Db :=
  if lease_ms <=? 0 then
    (Err (kerr InvalidArgument "daemon fence lease must be a positive number of milliseconds"), d)
  else
    match i64_checked_add now_ms lease_ms with
    | None => (Err (kerr InvalidArgument "daemon fence lease exceeds the unix millisecond range"), d)
    | Some expires =>
        let epoch := match d.(daemon_fence) with None => 1 | Some f => f.(fence_epoch) + 1 end in
        let row := mkDaemonFence instance epoch expires in
        (* RETURNING fencing_epoch is read as i64 before the commit. *)
        if in_i64 epoch then
          (res_map (fun e => mkDaemonFence instance e expires)
             (decode_u64 "daemon_fence.fencing_epoch" epoch),
           set_daemon_fence (Some row) d)
        else (Err (kerr Internal "storage operation failed"), d)
    end.

(** [fence::assert_epoch]: the admission check of a write transaction. *)
Definition assert_epoch (expected : Z) (d : Db) : Res unit :=
  match d.(daemon_fence) with
  | Some f =>
      if (f.(fence_epoch) =? expected) && (expected <=? i64_max) then Ok tt
      else Err (kerr FailedPrecondition "write transaction rejected: daemon epoch is absent or stale")
  | None => Err (kerr FailedPrecondition "write transaction rejected: daemon epoch is absent or stale")
  end.

(** ** Running a transaction

    [BEGIN IMMEDIATE] serializes writers, so a write transaction starts from
    the committed database.  [with_write_txn] is the pattern
    [let mut txn = store.begin_write(ctx).await?; let v = body(&mut txn).await?;
    txn.commit().await?; Ok(v)]: an error of the body drops the guard, which
    rolls back. *)

Record World := mkWorld { w_db : Db; w_ids : nat; w_clock : nat }.

Definition begin_write (ctx : TxContext) (w : World) : Res Txn :=
  let? _ := assert_epoch ctx.(ctx_daemon_epoch) w.(w_db) in
  Ok (mkTxn w.(w_db) ctx w.(w_ids) w.(w_clock)).

Definition commit_txn (t : Txn) : World := mkWorld t.(t_db) t.(t_ids) t.(t_clock).
Definition rollback_txn (w : World) (t : Txn) : World := mkWorld w.(w_db) t.(t_ids) t.(t_clock).

Definition with_write_txn {A} (ctx : TxContext) (body : M A) : ST World A := fun w =>
  match begin_write ctx w with
  | Err e => (Err e, w)
  | Ok t =>
      match body t with
      | (Ok a, t') => (Ok a, commit_txn t')
      | (Err e, t') => (Err e, rollback_txn w t')
      end
  end.

(** ** Shared lemmas *)

Lemma u64_column_ok table column v z :
  u64_column table column v = Ok z -> z = v /\ 0 <= v <= i64_max.
Proof.
  unfold u64_column, int_column, decode_u64, in_i64, i64_min.
  destruct (Z.leb_spec (-9223372036854775808) v), (Z.leb_spec v i64_max); simpl; try done.
  destruct (Z.leb_spec 0 v); simpl; [|done]. intros [= <-]. lia.
Qed.

Lemma u64_column_intro table column v :
  0 <= v <= i64_max -> u64_column table column v = Ok v.
Proof.
  intros Hv. unfold u64_column, int_column, decode_u64, in_i64, i64_min.
  destruct (Z.leb_spec (-9223372036854775808) v), (Z.leb_spec v i64_max); simpl; try lia.
  destruct (Z.leb_spec 0 v); simpl; [done|lia].
Qed.

Lemma encode_u64_ok column v z : encode_u64 column v = Ok z <-> z = v /\ v <= i64_max.
Proof.
  unfold encode_u64. destruct (Z.leb_spec v i64_max); split; intros H0; simplify_eq.
  - done.
  - by destruct H0 as [-> _].
  - lia.
Qed.

Lemma update_db_run f t : update_db f t = (Ok tt, set_db (f (t_db t)) t).
Proof. reflexivity. Qed.

(** ** Footprints

    [touches set m]: a successful run of [m] changes at most the part of the
    database that [set] writes.  [on_db R] reads a relation on databases as a
    relation on transactions that also keeps the context. *)

Definition touches {X A} (set : X -> Db -> Db) (m : M A) : Prop :=
  forall t a t', m t = (Ok a, t') ->
    t_ctx t' = t_ctx t /\ exists x, t_db t' = set x (t_db t).

Definition no_table (_ : unit) (d : Db) : Db := d.

Definition on_db (R : Db -> Db -> Prop) (t t' : Txn) : Prop :=
  R (t_db t) (t_db t') /\ t_ctx t' = t_ctx t.

#[export] Instance on_db_preorder R : PreOrder R -> PreOrder (on_db R).
Proof.
  intros HR. split.
  - intros t. split; reflexivity.
  - intros t1 t2 t3 [H1 C1] [H2 C2]. split; [by transitivity (t_db t2)|congruence].
Qed.


(** Writing a table back unchanged is no change. *)
Class Writes {X} (set : X -> Db -> Db) := set_same d : exists x, d = set x d.
#[export] Instance set_daemon_fence_writes : Writes set_daemon_fence.
Proof. intros d. exists (d.(daemon_fence)). by destruct d. Qed.
#[export] Instance set_agent_specs_writes : Writes set_agent_specs.
Proof. intros d. exists (d.(agent_specs)). by destruct d. Qed.
#[export] Instance set_sessions_writes : Writes set_sessions.
Proof. intros d. exists (d.(sessions)). by destruct d. Qed.
#[export] Instance set_tasks_writes : Writes set_tasks.
Proof. intros d. exists (d.(tasks)). by destruct d. Qed.
#[export] Instance set_environments_writes : Writes set_environments.
Proof. intros d. exists (d.(environments)). by destruct d. Qed.
#[export] Instance set_bindings_writes : Writes set_bindings.
Proof. intros d. exists (d.(bindings)). by destruct d. Qed.
#[export] Instance set_runs_writes : Writes set_runs.
Proof. intros d. exists (d.(runs)). by destruct d. Qed.
#[export] Instance set_graph_heads_writes : Writes set_graph_heads.
Proof. intros d. exists (d.(graph_heads)). by destruct d. Qed.
#[export] Instance set_dependencies_writes : Writes set_dependencies.
Proof. intros d. exists (d.(dependencies)). by destruct d. Qed.
#[export] Instance set_effects_writes : Writes set_effects.
Proof. intros d. exists (d.(effects)). by destruct d. Qed.
#[export] Instance set_reservations_writes : Writes set_reservations.
Proof. intros d. exists (d.(reservations)). by destruct d. Qed.
#[export] Instance set_timers_writes : Writes set_timers.
Proof. intros d. exists (d.(timers)). by destruct d. Qed.
#[export] Instance set_loop_turns_writes : Writes set_loop_turns.
Proof. intros d. exists (d.(loop_turns)). by destruct d. Qed.
#[export] Instance set_decisions_writes : Writes set_decisions.
Proof. intros d. exists (d.(decisions)). by destruct d. Qed.
#[export] Instance set_registrations_writes : Writes set_registrations.
Proof. intros d. exists (d.(registrations)). by destruct d. Qed.
#[export] Instance set_idempotency_records_writes : Writes set_idempotency_records.
Proof. intros d. exists (d.(idempotency_records)). by destruct d. Qed.
#[export] Instance set_stream_heads_writes : Writes set_stream_heads.
Proof. intros d. exists (d.(stream_heads)). by destruct d. Qed.
#[export] Instance set_outbox_events_writes : Writes set_outbox_events.
Proof. intros d. exists (d.(outbox_events)). by destruct d. Qed.
#[export] Instance set_capability_grants_writes : Writes set_capability_grants.
Proof. intros d. exists (d.(capability_grants)). by destruct d. Qed.
#[export] Instance set_delegation_hops_writes : Writes set_delegation_hops.
Proof. intros d. exists (d.(delegation_hops)). by destruct d. Qed.
#[export] Instance set_approval_requests_writes : Writes set_approval_requests.
Proof. intros d. exists (d.(approval_requests)). by destruct d. Qed.
#[export] Instance set_approval_responses_writes : Writes set_approval_responses.
Proof. intros d. exists (d.(approval_responses)). by destruct d. Qed.
#[export] Instance set_workspaces_writes : Writes set_workspaces.
Proof. intros d. exists (d.(workspaces)). by destruct d. Qed.
#[export] Instance set_workspace_leases_writes : Writes set_workspace_leases.
Proof. intros d. exists (d.(workspace_leases)). by destruct d. Qed.
#[export] Instance set_artifacts_writes : Writes set_artifacts.
Proof. intros d. exists (d.(artifacts)). by destruct d. Qed.
#[export] Instance set_adapter_instances_writes : Writes set_adapter_instances.
Proof. intros d. exists (d.(adapter_instances)). by destruct d. Qed.
#[export] Instance set_conformance_reports_writes : Writes set_conformance_reports.
Proof. intros d. exists (d.(conformance_reports)). by destruct d. Qed.
#[export] Instance set_config_generations_writes : Writes set_config_generations.
Proof. intros d. exists (d.(config_generations)). by destruct d. Qed.
#[export] Instance set_active_config_writes : Writes set_active_config.
Proof. intros d. exists (d.(active_config)). by destruct d. Qed.
#[export] Instance no_table_writes : Writes no_table.
Proof. intros d. by exists tt. Qed.

Lemma ensures_touches {X A} R (set : X -> Db -> Db) (m : M A) :
  touches set m -> (forall x d, R d (set x d)) -> ensures (on_db R) m.
Proof. intros Hm HR t a t' E. destruct (Hm t a t' E) as [? [x Hx]]. split; [by rewrite Hx|done]. Qed.

Lemma touches_reads {A} (m : M A) t a t' :
  touches no_table m -> m t = (Ok a, t') -> t_db t' = t_db t /\ t_ctx t' = t_ctx t.
Proof. intros Hm E. destruct (Hm _ _ _ E) as [? [x Hx]]. done. Qed.

Lemma ensures_reads {A} R `{!PreOrder R} (m : M A) :
  touches no_table m -> ensures (on_db R) m.
Proof.
  intros Hm t a t' E. destruct (touches_reads m t a t' Hm E) as [E1 E2]. split; [by rewrite E1|done].
Qed.

Create HintDb touches.
Create HintDb frame.

#[export] Hint Extern 4 (ensures (on_db _) _) =>
  apply ensures_reads; [apply _ | solve [eauto 2 with touches]] : ensures.

#[export] Hint Extern 5 (ensures (on_db _) _) =>
  eapply ensures_touches; [solve [eauto 2 with touches] | intros ? ?; solve [eauto 2 with frame]]
  : ensures.

Lemma query_touches {A} (f : Db -> A) : touches no_table (query f).
Proof. intros t a t' [= _ <-]. split; [done|]. by exists tt. Qed.
Lemma txn_context_touches : touches no_table txn_context.
Proof. intros t a t' [= _ <-]. split; [done|]. by exists tt. Qed.
Lemma draw_uuid_touches `{!Ext} : touches no_table draw_uuid.
Proof. intros t a t' [= _ <-]. split; [done|]. by exists tt. Qed.
Lemma now_unix_ms_touches `{!Ext} : touches no_table now_unix_ms.
Proof. intros t a t' [= _ <-]. split; [done|]. by exists tt. Qed.
Lemma update_db_touches {X} (set : X -> Db -> Db) f :
  (forall d, exists x, f d = set x d) -> touches set (update_db f).
Proof. intros Hf t a t' [= _ <-]. split; [done|]. apply Hf. Qed.

#[export] Hint Resolve query_touches txn_context_touches draw_uuid_touches
  now_unix_ms_touches : touches.

(** Inverts a run of a store operation down to its final states. *)
Ltac inv_run :=
  repeat (inv_ok;
    match goal with
    | H : query _ _ = (_, _) |- _ => unfold query in H
    | H : update_db _ _ = (_, _) |- _ => rewrite update_db_run in H
    | H : txn_context _ = (_, _) |- _ => unfold txn_context in H
    | H : draw_uuid _ = (_, _) |- _ => unfold draw_uuid in H
    | H : now_unix_ms _ = (_, _) |- _ => unfold now_unix_ms in H
    | H : (if ?b then _ else _) _ = (Ok _, _) |- _ => destruct b eqn:?
    | H : (match ?x with _ => _ end) _ = (Ok _, _) |- _ => destruct x eqn:?
    end); inv_ok.

(** A program that only reads before it writes touches what it writes. *)
Lemma touches_bind_reads {X A B} (set : X -> Db -> Db) (m : M A) (f : A -> M B) :
  touches no_table m -> (forall a, touches set (f a)) -> touches set (bind m f).
Proof.
  intros Hm Hf t b t' E. apply bind_ok_inv in E as (a & t1 & E1 & E2).
  destruct (touches_reads _ _ _ _ Hm E1) as [Hd Hc].
  destruct (Hf a _ _ _ E2) as [Hc2 [x Hx]]. split; [congruence|]. exists x. by rewrite Hx, Hd.
Qed.

Lemma touches_ret {A} (a : A) : touches no_table (ret a).
Proof. intros t b t' [= _ <-]. split; [done|]. by exists tt. Qed.
Lemma touches_raise {X A} (set : X -> Db -> Db) e : touches set (raise (A:=A) e).
Proof. by intros t b t' [=]. Qed.
Lemma touches_lift_res {A} (r : Res A) : touches no_table (lift_res r).
Proof. intros t b t' [= _ <-]. split; [done|]. by exists tt. Qed.
#[export] Hint Resolve touches_ret touches_raise touches_lift_res : touches.

(** Proves that a program only reads. *)
Ltac solve_reads :=
  repeat first
    [ solve [eauto 2 with touches]
    | match goal with
      | |- touches _ (bind _ _) => apply touches_bind_reads; [|intros ?]
      | |- touches _ (if ?b then _ else _) => destruct b eqn:?
      | |- touches _ (match ?x with _ => _ end) => destruct x eqn:?
      end ].
