(* ===== verification/Store.v ===== *)
(** * The SQLite repositories ([kernel-store-sqlite/src/repos])

    One definition per repository operation.  An INSERT fails with the CHECK,
    then the PRIMARY KEY and UNIQUE, then the FOREIGN KEY constraints of
    [schema/kernel_store.sql], in the order SQLite tests them; a failed
    statement leaves the table unchanged.  An UPDATE with a compare-and-set
    WHERE clause reports whether it matched. *)

From S2P Require Import Prelude Domain Ids Models StoreBase.

Open Scope string_scope.
Open Scope Z_scope.

(** Fails with the first violated constraint. *)
Fixpoint constraints (l : list (bool * KernelError)) : M unit :=
  match l with
  | [] => ret tt
  | (true, _) :: l => constraints l
  | (false, e) :: _ => raise e
  end.

Definition absent {K A} `{Countable K} (k : K) (m : gmap K A) : bool :=
  match m !! k with Some _ => false | None => true end.

(** No row of the table satisfies [p] (the UNIQUE constraints). *)
Definition none_such {K A} `{Countable K} (p : A -> bool) (m : gmap K A) : bool :=
  forallb (fun kv => negb (p kv.2)) (map_to_list m).

(** ** Runs ([repos/runs.rs]) *)

Definition decode_run (r : RunRow) : Res RunRow :=
  let? _ := u64_column "runs" "run_revision" r.(RunRow.run_revision) in
  let? _ := u64_column "runs" "loop_epoch" r.(RunRow.loop_epoch) in
  let? _ := u64_column "runs" "step_sequence" r.(RunRow.step_sequence) in
  let? _ := u64_column "runs" "cancellation_epoch" r.(RunRow.cancellation_epoch) in
  let? _ := opt_u64_column "runs" "claim_token" r.(RunRow.claim_token) in
  let? _ := opt_u64_column "runs" "claim_daemon_epoch" r.(RunRow.claim_daemon_epoch) in
  Ok r.

Definition runs_get (id : RunId) : M (option RunRow) :=
  let! row := query (fun d => d.(runs) !! id) in
  lift_res (opt_traverse decode_run row).

Definition runs_list_by_task (task : TaskId) : M (list RunRow) :=
  let! rows := query (fun d => select (fun r => bool_decide (r.(RunRow.task_id) = task)) d.(runs)) in
  lift_res (res_collect decode_run rows).

Definition runs_list_children (parent : RunId) : M (list RunRow) :=
  let! rows := query (fun d =>
    select (fun r => bool_decide (r.(RunRow.parent_run_id) = Some parent)) d.(runs)) in
  lift_res (res_collect decode_run rows).

(** [ORDER BY created_at_ms, run_id]. *)
Definition created_le (x y : N * RunRow) : Prop :=
  x.2.(RunRow.created_at_ms) < y.2.(RunRow.created_at_ms) \/
  (x.2.(RunRow.created_at_ms) = y.2.(RunRow.created_at_ms) /\ (x.1 <= y.1)%N).

#[export] Instance created_le_dec : RelDecision created_le.
Proof. intros x y. unfold created_le. apply _. Defined.

Definition runs_list_active : M (list RunRow) :=
  let! rows := query (fun d =>
    select_by created_le (fun r => bool_decide (r.(RunRow.state) ∉
      [RunState.Completed; RunState.Failed; RunState.Cancelled])) d.(runs)) in
  lift_res (res_collect decode_run rows).

Definition run_row_of_new (r : NewRun) : RunRow := {|
  RunRow.run_id := r.(NewRun.run_id);
  RunRow.task_id := r.(NewRun.task_id);
  RunRow.session_id := r.(NewRun.session_id);
  RunRow.parent_run_id := r.(NewRun.parent_run_id);
  RunRow.state := r.(NewRun.state);
  RunRow.recovery := r.(NewRun.recovery);
  RunRow.run_revision := 0;
  RunRow.loop_epoch := r.(NewRun.loop_epoch);
  RunRow.step_sequence := r.(NewRun.step_sequence);
  RunRow.input_event_cursor := r.(NewRun.input_event_cursor);
  RunRow.cancellation_epoch := r.(NewRun.cancellation_epoch);
  RunRow.resolved_environment_id := r.(NewRun.resolved_environment_id);
  RunRow.agent_spec_id := r.(NewRun.agent_spec_id);
  RunRow.agent_spec_version := r.(NewRun.agent_spec_version);
  RunRow.agent_spec_digest := r.(NewRun.agent_spec_digest);
  RunRow.requested_profile := r.(NewRun.requested_profile);
  RunRow.workspace_uri := r.(NewRun.workspace_uri);
  RunRow.claim_owner := None;
  RunRow.claim_token := None;
  RunRow.claim_expires_ms := None;
  RunRow.claim_daemon_epoch := None;
  RunRow.terminal_reason := None;
  RunRow.output_ref := None;
  RunRow.current_turn_id := None;
  RunRow.created_at_ms := r.(NewRun.created_at_ms);
  RunRow.updated_at_ms := r.(NewRun.created_at_ms) |}.

(** [CHECK (state BETWEEN 1 AND 11)], [CHECK (recovery_disposition BETWEEN 1 AND 6)]. *)
Definition run_checks (s : RunState) (rec : RecoveryDisposition) : bool :=
  between 1 (to_wire s) 11 && between 1 (to_wire rec) 6.

Definition runs_insert (r : NewRun) : M unit :=
  let! _ := lift_res (encode_u64 "runs.loop_epoch" r.(NewRun.loop_epoch)) in
  let! _ := lift_res (encode_u64 "runs.step_sequence" r.(NewRun.step_sequence)) in
  let! _ := lift_res (encode_u64 "runs.cancellation_epoch" r.(NewRun.cancellation_epoch)) in
  let! d := query (fun d => d) in
  do! constraints
    [ (run_checks r.(NewRun.state) r.(NewRun.recovery), check_failure);
      (absent r.(NewRun.run_id) d.(runs), primary_key_failure);
      (fk_ok (Some r.(NewRun.task_id)) d.(tasks), foreign_key_failure);
      (bool_decide (r.(NewRun.parent_run_id) = Some r.(NewRun.run_id)) ||
         fk_ok r.(NewRun.parent_run_id) d.(runs), foreign_key_failure);
      (fk_ok r.(NewRun.resolved_environment_id) d.(environments), foreign_key_failure) ] in
  update_db (fun d => set_runs (<[r.(NewRun.run_id) := run_row_of_new r]> d.(runs)) d).

(** The SET clause of [cas_update]. *)
Definition apply_run_patch (p : RunPatch) (r : RunRow) : RunRow := {|
  RunRow.run_id := r.(RunRow.run_id);
  RunRow.task_id := r.(RunRow.task_id);
  RunRow.session_id := r.(RunRow.session_id);
  RunRow.parent_run_id := r.(RunRow.parent_run_id);
  RunRow.state := coalesce p.(RunPatch.state) r.(RunRow.state);
  RunRow.recovery := coalesce p.(RunPatch.recovery) r.(RunRow.recovery);
  RunRow.run_revision := r.(RunRow.run_revision) + (if p.(RunPatch.bump_revision) then 1 else 0);
  RunRow.loop_epoch := coalesce p.(RunPatch.loop_epoch) r.(RunRow.loop_epoch);
  RunRow.step_sequence := coalesce p.(RunPatch.step_sequence) r.(RunRow.step_sequence);
  RunRow.input_event_cursor :=
    coalesce p.(RunPatch.input_event_cursor) r.(RunRow.input_event_cursor);
  RunRow.cancellation_epoch :=
    coalesce p.(RunPatch.cancellation_epoch) r.(RunRow.cancellation_epoch);
  RunRow.resolved_environment_id :=
    coalesce_opt p.(RunPatch.resolved_environment_id) r.(RunRow.resolved_environment_id);
  RunRow.agent_spec_id := r.(RunRow.agent_spec_id);
  RunRow.agent_spec_version := r.(RunRow.agent_spec_version);
  RunRow.agent_spec_digest := r.(RunRow.agent_spec_digest);
  RunRow.requested_profile := r.(RunRow.requested_profile);
  RunRow.workspace_uri := r.(RunRow.workspace_uri);
  RunRow.claim_owner := coalesce_opt (ClaimPatch.owner <$> p.(RunPatch.claim)) r.(RunRow.claim_owner);
  RunRow.claim_token := coalesce_opt (ClaimPatch.token <$> p.(RunPatch.claim)) r.(RunRow.claim_token);
  RunRow.claim_expires_ms :=
    coalesce_opt (ClaimPatch.expires_unix_ms <$> p.(RunPatch.claim)) r.(RunRow.claim_expires_ms);
  RunRow.claim_daemon_epoch :=
    coalesce_opt (ClaimPatch.daemon_epoch <$> p.(RunPatch.claim)) r.(RunRow.claim_daemon_epoch);
  RunRow.terminal_reason := coalesce_opt p.(RunPatch.terminal_reason) r.(RunRow.terminal_reason);
  RunRow.output_ref := coalesce_opt p.(RunPatch.output_ref) r.(RunRow.output_ref);
  RunRow.current_turn_id := coalesce_opt p.(RunPatch.current_turn_id) r.(RunRow.current_turn_id);
  RunRow.created_at_ms := r.(RunRow.created_at_ms);
  RunRow.updated_at_ms := r.(RunRow.updated_at_ms) |}.

(** The WHERE clause of [cas_update]. *)
Definition run_cas_matches (e : RunCas) (r : RunRow) : bool :=
  bool_decide (r.(RunRow.run_revision) = e.(RunCas.run_revision)) &&
  match e.(RunCas.state) with
  | None => true
  | Some s => bool_decide (r.(RunRow.state) = s)
  end &&
  match e.(RunCas.cancellation_epoch) with
  | None => true
  | Some c => bool_decide (r.(RunRow.cancellation_epoch) = c)
  end.

(** The parameters [cas_update] encodes before it runs the statement. *)
Definition encode_run_cas (e : RunCas) (p : RunPatch) : Res unit :=
  let? _ := opt_traverse (fun c => encode_u64 "runs.claim_token" (ClaimPatch.token c)) p.(RunPatch.claim) in
  let? _ := opt_traverse (fun c => encode_u64 "runs.claim_daemon_epoch" (ClaimPatch.daemon_epoch c))
              p.(RunPatch.claim) in
  let? _ := opt_traverse (encode_u64 "runs.step_sequence") p.(RunPatch.step_sequence) in
  let? _ := opt_traverse (encode_u64 "runs.loop_epoch") p.(RunPatch.loop_epoch) in
  let? _ := opt_traverse (encode_u64 "runs.cancellation_epoch") p.(RunPatch.cancellation_epoch) in
  let? _ := encode_u64 "runs.run_revision" e.(RunCas.run_revision) in
  let? _ := opt_traverse (encode_u64 "runs.cancellation_epoch") e.(RunCas.cancellation_epoch) in
  Ok tt.

Definition runs_cas_update (id : RunId) (expect : RunCas) (patch : RunPatch) : M bool :=
  do! lift_res (encode_run_cas expect patch) in
  let! d := query (fun d => d) in
  match d.(runs) !! id with
  | Some r =>
      if run_cas_matches expect r then
        let r' := apply_run_patch patch r in
        do! constraints
          [ (run_checks r'.(RunRow.state) r'.(RunRow.recovery), check_failure);
            (fk_ok r'.(RunRow.resolved_environment_id) d.(environments), foreign_key_failure) ] in
        do! update_db (fun d => set_runs (<[id := r']> d.(runs)) d) in
        ret true
      else ret false
  | None => ret false
  end.

(** ** Sessions, tasks and agent specs ([repos/sessions.rs], [tasks.rs], [agent_specs.rs]) *)

Definition sessions_get (id : SessionId) : M (option SessionRow) :=
  query (fun d => d.(sessions) !! id).

Definition sessions_insert (s : NewSession) : M unit :=
  let! d := query (fun d => d) in
  do! constraints [ (absent s.(NewSession.session_id) d.(sessions), primary_key_failure) ] in
  update_db (fun d => set_sessions (<[s.(NewSession.session_id) := {|
    SessionRow.session_id := s.(NewSession.session_id);
    SessionRow.principal_id := s.(NewSession.principal_id);
    SessionRow.created_at_ms := s.(NewSession.created_at_ms);
    SessionRow.metadata := s.(NewSession.metadata) |}]> d.(sessions)) d).

Definition tasks_get (id : TaskId) : M (option TaskRow) :=
  query (fun d => d.(tasks) !! id).

Definition tasks_insert (n : NewTask) : M unit :=
  let! d := query (fun d => d) in
  do! constraints
    [ (absent n.(NewTask.task_id) d.(tasks), primary_key_failure);
      (fk_ok n.(NewTask.session_id) d.(sessions), foreign_key_failure) ] in
  update_db (fun d => set_tasks (<[n.(NewTask.task_id) := {|
    TaskRow.task_id := n.(NewTask.task_id);
    TaskRow.session_id := n.(NewTask.session_id);
    TaskRow.created_by_actor_id := n.(NewTask.created_by_actor_id);
    TaskRow.task_kind := n.(NewTask.task_kind);
    TaskRow.payload := n.(NewTask.payload);
    TaskRow.created_at_ms := n.(NewTask.created_at_ms) |}]> d.(tasks)) d).

Definition agent_specs_get (id : AgentSpecId) (version : string) : M (option AgentSpecRow) :=
  query (fun d => d.(agent_specs) !! (id, version)).

Definition agent_specs_insert (s : NewAgentSpec) : M unit :=
  let! stored := agent_specs_get s.(NewAgentSpec.agent_spec_id) s.(NewAgentSpec.version) in
  match stored with
  | Some row =>
      if bool_decide (row.(AgentSpecRow.digest) = s.(NewAgentSpec.digest)) &&
         bool_decide (row.(AgentSpecRow.body) = s.(NewAgentSpec.body))
      then ret tt
      else raise (kerr Conflict "agent spec revision conflicts with the stored revision")
  | None =>
      let! d := query (fun d => d) in
      do! constraints
        [ (none_such (fun r => bool_decide (r.(AgentSpecRow.digest) = s.(NewAgentSpec.digest)))
             d.(agent_specs), unique_failure) ] in
      update_db (fun d => set_agent_specs
        (<[(s.(NewAgentSpec.agent_spec_id), s.(NewAgentSpec.version)) := {|
          AgentSpecRow.agent_spec_id := s.(NewAgentSpec.agent_spec_id);
          AgentSpecRow.version := s.(NewAgentSpec.version);
          AgentSpecRow.digest := s.(NewAgentSpec.digest);
          AgentSpecRow.body := s.(NewAgentSpec.body);
          AgentSpecRow.created_at_ms := s.(NewAgentSpec.created_at_ms) |}]> d.(agent_specs)) d)
  end.

(** ** Run graph ([repos/graph.rs]) *)

Definition decode_head (h : RunGraphHeadRow) : Res RunGraphHeadRow :=
  let? _ := u64_column "run_graph_heads" "graph_revision" h.(RunGraphHeadRow.graph_revision) in
  Ok h.

Definition graph_get_head (task : TaskId) : M (option RunGraphHeadRow) :=
  let! row := query (fun d => d.(graph_heads) !! task) in
  lift_res (opt_traverse decode_head row).

Definition decode_dependency (r : RunDependencyRow) : Res RunDependencyRow :=
  let? _ := u64_column "run_dependencies" "created_graph_revision"
              r.(RunDependencyRow.created_graph_revision) in
  Ok r.

(** [ORDER BY created_graph_revision, dependency_id]. *)
Definition dependency_le (x y : N * RunDependencyRow) : Prop :=
  x.2.(RunDependencyRow.created_graph_revision) < y.2.(RunDependencyRow.created_graph_revision) \/
  (x.2.(RunDependencyRow.created_graph_revision) = y.2.(RunDependencyRow.created_graph_revision)
   /\ (x.1 <= y.1)%N).

#[export] Instance dependency_le_dec : RelDecision dependency_le.
Proof. intros x y. unfold dependency_le. apply _. Defined.

Definition graph_list_dependencies (task : TaskId) : M (list RunDependencyRow) :=
  let! rows := query (fun d => select_by dependency_le
    (fun r => bool_decide (r.(RunDependencyRow.task_id) = task)) d.(dependencies)) in
  lift_res (res_collect decode_dependency rows).

(** The edges [source -> target] of the table. *)
Definition dep_edges (m : gmap N RunDependencyRow) : list (RunId * RunId) :=
  (fun kv => (kv.2.(RunDependencyRow.source_run_id), kv.2.(RunDependencyRow.target_run_id)))
    <$> map_to_list m.

(** The recursive query of [is_reachable_on]: one pass adds the targets of the
    edges that leave the set; the set stops growing after at most one pass per
    edge. *)
Definition reach_pass (edges : list (RunId * RunId)) (s : gset RunId) : gset RunId :=
  s ∪ list_to_set (snd <$> filter (fun e => e.1 ∈ s) edges).

Definition reach_set (edges : list (RunId * RunId)) (from : RunId) : gset RunId :=
  Nat.iter (length edges) (reach_pass edges) {[ from ]}.

Definition graph_is_reachable (from to : RunId) : M bool :=
  query (fun d => bool_decide (to ∈ reach_set (dep_edges d.(dependencies)) from)).

Definition graph_ensure_head (task : TaskId) : M RunGraphHeadRow :=
  let! d := query (fun d => d) in
  do! (match d.(graph_heads) !! task with
       | Some _ => ret tt
       | None =>
           do! constraints [ (fk_ok (Some task) d.(tasks), foreign_key_failure) ] in
           update_db (fun d => set_graph_heads
             (<[task := RunGraphHeadRow.mk task 0]> d.(graph_heads)) d)
       end) in
  let! head := graph_get_head task in
  lift_res (ok_or head (kerr NotFound "graph head is missing after ensure_head")).

(** [UPDATE run_graph_heads SET graph_revision = graph_revision + 1
    WHERE task_id = ? AND graph_revision = ?]. *)
Definition graph_cas_head_revision (task : TaskId) (expected : Z) : M bool :=
  let! expected := lift_res (encode_u64 "run_graph_heads.graph_revision" expected) in
  let! row := query (fun d => d.(graph_heads) !! task) in
  match row with
  | Some h =>
      if bool_decide (h.(RunGraphHeadRow.graph_revision) = expected) then
        do! update_db (fun d => set_graph_heads
          (<[task := RunGraphHeadRow.mk h.(RunGraphHeadRow.task_id)
                       (h.(RunGraphHeadRow.graph_revision) + 1)]> d.(graph_heads)) d) in
        ret true
      else ret false
  | None => ret false
  end.

Definition dependency_row_of_new (n : NewRunDependency) (revision : Z) : RunDependencyRow := {|
  RunDependencyRow.dependency_id := n.(NewRunDependency.dependency_id);
  RunDependencyRow.task_id := n.(NewRunDependency.task_id);
  RunDependencyRow.source_run_id := n.(NewRunDependency.source_run_id);
  RunDependencyRow.target_run_id := n.(NewRunDependency.target_run_id);
  RunDependencyRow.dependency_condition := n.(NewRunDependency.dependency_condition);
  RunDependencyRow.created_graph_revision := revision;
  RunDependencyRow.created_at_ms := n.(NewRunDependency.created_at_ms) |}.

Definition same_endpoints (src tgt : RunId) (r : RunDependencyRow) : bool :=
  bool_decide (r.(RunDependencyRow.source_run_id) = src) &&
  bool_decide (r.(RunDependencyRow.target_run_id) = tgt).

Definition graph_insert_dependency (n : NewRunDependency) (expected_revision : Z) : M unit :=
  let! head := graph_get_head n.(NewRunDependency.task_id) in
  match head with
  | None => raise (kerr NotFound "graph head missing for task")
  | Some head =>
      guard! bool_decide (head.(RunGraphHeadRow.graph_revision) = expected_revision)
        else kerr Conflict "graph revision conflict" in
      let! cycle := graph_is_reachable n.(NewRunDependency.target_run_id)
                      n.(NewRunDependency.source_run_id) in
      guard! negb cycle else kerr Conflict "dependency would create a cycle" in
      let! revision := lift_res (encode_u64 "run_dependencies.created_graph_revision" expected_revision) in
      let! d := query (fun d => d) in
      do! constraints
        [ (negb (bool_decide (n.(NewRunDependency.dependency_condition)
             = DependencyCondition.Unspecified)), check_failure);
          (absent n.(NewRunDependency.dependency_id) d.(dependencies), primary_key_failure);
          (none_such (same_endpoints n.(NewRunDependency.source_run_id)
             n.(NewRunDependency.target_run_id)) d.(dependencies), unique_failure);
          (fk_ok (Some n.(NewRunDependency.task_id)) d.(tasks), foreign_key_failure);
          (fk_ok (Some n.(NewRunDependency.source_run_id)) d.(runs), foreign_key_failure);
          (fk_ok (Some n.(NewRunDependency.target_run_id)) d.(runs), foreign_key_failure) ] in
      do! update_db (fun d => set_dependencies
        (<[n.(NewRunDependency.dependency_id) := dependency_row_of_new n revision]>
           d.(dependencies)) d) in
      let! advanced := graph_cas_head_revision n.(NewRunDependency.task_id) expected_revision in
      guard! advanced else kerr Conflict "graph head changed during dependency insertion" in
      ret tt
  end.

(** ** Environments and adapter registrations ([repos/environments.rs], [adapters.rs]) *)

Definition environment_row_of_new (n : NewResolvedEnvironment) : ResolvedEnvironmentRow := {|
  ResolvedEnvironmentRow.environment_id := n.(NewResolvedEnvironment.environment_id);
  ResolvedEnvironmentRow.run_id := n.(NewResolvedEnvironment.run_id);
  ResolvedEnvironmentRow.agent_spec_id := n.(NewResolvedEnvironment.agent_spec_id);
  ResolvedEnvironmentRow.agent_spec_version := n.(NewResolvedEnvironment.agent_spec_version);
  ResolvedEnvironmentRow.agent_spec_digest := n.(NewResolvedEnvironment.agent_spec_digest);
  ResolvedEnvironmentRow.agent_loop_id := n.(NewResolvedEnvironment.agent_loop_id);
  ResolvedEnvironmentRow.agent_loop_version := n.(NewResolvedEnvironment.agent_loop_version);
  ResolvedEnvironmentRow.agent_loop_digest := n.(NewResolvedEnvironment.agent_loop_digest);
  ResolvedEnvironmentRow.config_generation_id := n.(NewResolvedEnvironment.config_generation_id);
  ResolvedEnvironmentRow.workspace_uri := n.(NewResolvedEnvironment.workspace_uri);
  ResolvedEnvironmentRow.workspace_base_revision := n.(NewResolvedEnvironment.workspace_base_revision);
  ResolvedEnvironmentRow.workspace_mode := n.(NewResolvedEnvironment.workspace_mode);
  ResolvedEnvironmentRow.model_provider := n.(NewResolvedEnvironment.model_provider);
  ResolvedEnvironmentRow.model_id := n.(NewResolvedEnvironment.model_id);
  ResolvedEnvironmentRow.model_parameters := n.(NewResolvedEnvironment.model_parameters);
  ResolvedEnvironmentRow.kernel_version := n.(NewResolvedEnvironment.kernel_version);
  ResolvedEnvironmentRow.protocol_versions := n.(NewResolvedEnvironment.protocol_versions);
  ResolvedEnvironmentRow.capability_grant_ids := n.(NewResolvedEnvironment.capability_grant_ids);
  ResolvedEnvironmentRow.approval_request_ids := n.(NewResolvedEnvironment.approval_request_ids);
  ResolvedEnvironmentRow.created_at_ms := n.(NewResolvedEnvironment.created_at_ms) |}.

Definition environments_insert (n : NewResolvedEnvironment) : M unit :=
  let! d := query (fun d => d) in
  do! constraints
    [ (absent n.(NewResolvedEnvironment.environment_id) d.(environments), primary_key_failure);
      (none_such (fun r => bool_decide
         (r.(ResolvedEnvironmentRow.run_id) = n.(NewResolvedEnvironment.run_id)))
         d.(environments), unique_failure) ] in
  update_db (fun d => set_environments
    (<[n.(NewResolvedEnvironment.environment_id) := environment_row_of_new n]> d.(environments)) d).

Definition environments_insert_binding (env : EnvironmentId) (b : NewResolvedBinding) : M unit :=
  let! d := query (fun d => d) in
  do! constraints
    [ (absent (env, b.(NewResolvedBinding.port_id)) d.(bindings), primary_key_failure);
      (fk_ok (Some env) d.(environments), foreign_key_failure) ] in
  update_db (fun d => set_bindings (<[(env, b.(NewResolvedBinding.port_id)) := {|
    ResolvedBindingRow.environment_id := env;
    ResolvedBindingRow.port_id := b.(NewResolvedBinding.port_id);
    ResolvedBindingRow.adapter_id := b.(NewResolvedBinding.adapter_id);
    ResolvedBindingRow.adapter_version := b.(NewResolvedBinding.adapter_version);
    ResolvedBindingRow.adapter_digest := b.(NewResolvedBinding.adapter_digest);
    ResolvedBindingRow.capabilities := b.(NewResolvedBinding.capabilities) |}]> d.(bindings)) d).

Definition environments_insert_bindings (env : EnvironmentId) (bs : list NewResolvedBinding) : M unit :=
  for_each bs (environments_insert_binding env).

(** [SELECT ... FROM resolved_bindings WHERE environment_id = ?1 ORDER BY port_id]. *)
Definition port_le (x y : ResolvedBindingRow) : Prop :=
  Is_true (String.leb x.(ResolvedBindingRow.port_id) y.(ResolvedBindingRow.port_id)).

#[export] Instance port_le_dec : RelDecision port_le.
Proof. intros x y. unfold port_le. apply _. Defined.

Definition environments_get_bindings (env : EnvironmentId) : M (list ResolvedBindingRow) :=
  query (fun d => merge_sort port_le
    (List.filter (fun b => bool_decide (b.(ResolvedBindingRow.environment_id) = env))
       (map_to_list d.(bindings)).*2)).

Definition adapters_get_registration (id : AdapterId) (version digest : string)
    : M (option AdapterRegistrationRow) :=
  query (fun d => d.(registrations) !! (id, version, digest)).

(** ** Effects ([repos/effects.rs], [effect_claims.rs]) *)

Definition decode_effect (r : EffectRow) : Res EffectRow :=
  let? _ := u64_column "effects" "step_sequence" r.(EffectRow.step_sequence) in
  let? _ := opt_u64_column "effects" "executor_fencing_token" r.(EffectRow.executor_fencing_token) in
  let? _ := opt_u64_column "effects" "daemon_fencing_epoch" r.(EffectRow.daemon_fencing_epoch) in
  Ok r.

Definition effects_get (id : EffectId) : M (option EffectRow) :=
  let! row := query (fun d => d.(effects) !! id) in
  lift_res (opt_traverse decode_effect row).

(** [ORDER BY step_sequence, effect_id]. *)
Definition step_le (x y : N * EffectRow) : Prop :=
  x.2.(EffectRow.step_sequence) < y.2.(EffectRow.step_sequence) \/
  (x.2.(EffectRow.step_sequence) = y.2.(EffectRow.step_sequence) /\ (x.1 <= y.1)%N).

#[export] Instance step_le_dec : RelDecision step_le.
Proof. intros x y. unfold step_le. apply _. Defined.

Definition effects_list_by_run (run : RunId) : M (list EffectRow) :=
  let! rows := query (fun d =>
    select_by step_le (fun r => bool_decide (r.(EffectRow.run_id) = run)) d.(effects)) in
  lift_res (res_collect decode_effect rows).

Definition effect_row_of_new (n : NewEffect) : EffectRow := {|
  EffectRow.effect_id := n.(NewEffect.effect_id);
  EffectRow.run_id := n.(NewEffect.run_id);
  EffectRow.step_sequence := n.(NewEffect.step_sequence);
  EffectRow.decision_id := n.(NewEffect.decision_id);
  EffectRow.operation := n.(NewEffect.operation);
  EffectRow.request_hash := n.(NewEffect.request_hash);
  EffectRow.request_payload := n.(NewEffect.request_payload);
  EffectRow.effect_class := n.(NewEffect.effect_class);
  EffectRow.idempotency_semantics := n.(NewEffect.idempotency_semantics);
  EffectRow.reconciliation_semantics := n.(NewEffect.reconciliation_semantics);
  EffectRow.cancellation_semantics := n.(NewEffect.cancellation_semantics);
  EffectRow.compensation_capability := n.(NewEffect.compensation_capability);
  EffectRow.adapter_id := n.(NewEffect.adapter_id);
  EffectRow.adapter_version := n.(NewEffect.adapter_version);
  EffectRow.adapter_digest := n.(NewEffect.adapter_digest);
  EffectRow.state := n.(NewEffect.state);
  EffectRow.executor_id := None;
  EffectRow.executor_fencing_token := None;
  EffectRow.daemon_fencing_epoch := None;
  EffectRow.lease_expires_ms := None;
  EffectRow.provider_operation_ref := None;
  EffectRow.result_ref := None;
  EffectRow.error_code := None;
  EffectRow.created_at_ms := n.(NewEffect.created_at_ms);
  EffectRow.updated_at_ms := n.(NewEffect.created_at_ms) |}.

(** [UNIQUE (run_id, decision_id, operation, request_hash)]. *)
Definition same_identity (run : RunId) (decision : DecisionId) (operation hash : string)
    (r : EffectRow) : bool :=
  bool_decide (r.(EffectRow.run_id) = run) &&
  bool_decide (r.(EffectRow.decision_id) = decision) &&
  bool_decide (r.(EffectRow.operation) = operation) &&
  bool_decide (r.(EffectRow.request_hash) = hash).

Definition effect_checks (n : NewEffect) : bool :=
  between 1 (to_wire n.(NewEffect.effect_class)) 4 &&
  between 1 (to_wire n.(NewEffect.idempotency_semantics)) 4 &&
  between 1 (to_wire n.(NewEffect.reconciliation_semantics)) 5 &&
  between 1 (to_wire n.(NewEffect.state)) 8.

Definition effects_insert (n : NewEffect) : M unit :=
  let! _ := lift_res (encode_u64 "effects.step_sequence" n.(NewEffect.step_sequence)) in
  let! d := query (fun d => d) in
  do! constraints
    [ (effect_checks n, check_failure);
      (absent n.(NewEffect.effect_id) d.(effects), primary_key_failure);
      (none_such (same_identity n.(NewEffect.run_id) n.(NewEffect.decision_id)
         n.(NewEffect.operation) n.(NewEffect.request_hash)) d.(effects), unique_failure);
      (fk_ok (Some n.(NewEffect.run_id)) d.(runs), foreign_key_failure) ] in
  update_db (fun d => set_effects
    (<[n.(NewEffect.effect_id) := effect_row_of_new n]> d.(effects)) d).

(** The WHERE clause of the claim: [state = Prepared OR (state = Claimed AND
    lease_expires_ms <= now)]; a null lease compares to NULL, not to true. *)
Definition claimable (now_ms : Z) (r : EffectRow) : bool :=
  bool_decide (r.(EffectRow.state) = EffectState.Prepared) ||
  (bool_decide (r.(EffectRow.state) = EffectState.Claimed) &&
   match r.(EffectRow.lease_expires_ms) with Some e => e <=? now_ms | None => false end).

(** The SET clause of the claim. *)
Definition claim_row (executor : string) (epoch lease now_ms : Z) (r : EffectRow) : EffectRow := {|
  EffectRow.effect_id := r.(EffectRow.effect_id);
  EffectRow.run_id := r.(EffectRow.run_id);
  EffectRow.step_sequence := r.(EffectRow.step_sequence);
  EffectRow.decision_id := r.(EffectRow.decision_id);
  EffectRow.operation := r.(EffectRow.operation);
  EffectRow.request_hash := r.(EffectRow.request_hash);
  EffectRow.request_payload := r.(EffectRow.request_payload);
  EffectRow.effect_class := r.(EffectRow.effect_class);
  EffectRow.idempotency_semantics := r.(EffectRow.idempotency_semantics);
  EffectRow.reconciliation_semantics := r.(EffectRow.reconciliation_semantics);
  EffectRow.cancellation_semantics := r.(EffectRow.cancellation_semantics);
  EffectRow.compensation_capability := r.(EffectRow.compensation_capability);
  EffectRow.adapter_id := r.(EffectRow.adapter_id);
  EffectRow.adapter_version := r.(EffectRow.adapter_version);
  EffectRow.adapter_digest := r.(EffectRow.adapter_digest);
  EffectRow.state := EffectState.Claimed;
  EffectRow.executor_id := Some executor;
  EffectRow.executor_fencing_token :=
    Some (from_option (fun z => z) 0 r.(EffectRow.executor_fencing_token) + 1);
  EffectRow.daemon_fencing_epoch := Some epoch;
  EffectRow.lease_expires_ms := Some lease;
  EffectRow.provider_operation_ref := r.(EffectRow.provider_operation_ref);
  EffectRow.result_ref := r.(EffectRow.result_ref);
  EffectRow.error_code := r.(EffectRow.error_code);
  EffectRow.created_at_ms := r.(EffectRow.created_at_ms);
  EffectRow.updated_at_ms := now_ms |}.

Definition effects_claim (id : EffectId) (executor : string)
    (daemon_epoch lease_expires_ms now_ms : Z) : M (option Z) :=
  let! epoch := lift_res (encode_u64 "effects.daemon_fencing_epoch" daemon_epoch) in
  let! row := query (fun d => d.(effects) !! id) in
  match row with
  | Some r =>
      if claimable now_ms r then
        let r' := claim_row executor epoch lease_expires_ms now_ms r in
        do! update_db (fun d => set_effects (<[id := r']> d.(effects)) d) in
        lift_res (opt_u64_column "effects" "executor_fencing_token"
          r'.(EffectRow.executor_fencing_token))
      else ret None
  | None => ret None
  end.

(** The SET clause of [cas_transition]. *)
Definition apply_effect_patch (p : EffectPatch) (r : EffectRow) : EffectRow := {|
  EffectRow.effect_id := r.(EffectRow.effect_id);
  EffectRow.run_id := r.(EffectRow.run_id);
  EffectRow.step_sequence := r.(EffectRow.step_sequence);
  EffectRow.decision_id := r.(EffectRow.decision_id);
  EffectRow.operation := r.(EffectRow.operation);
  EffectRow.request_hash := r.(EffectRow.request_hash);
  EffectRow.request_payload := r.(EffectRow.request_payload);
  EffectRow.effect_class := r.(EffectRow.effect_class);
  EffectRow.idempotency_semantics := r.(EffectRow.idempotency_semantics);
  EffectRow.reconciliation_semantics := r.(EffectRow.reconciliation_semantics);
  EffectRow.cancellation_semantics := r.(EffectRow.cancellation_semantics);
  EffectRow.compensation_capability := r.(EffectRow.compensation_capability);
  EffectRow.adapter_id := r.(EffectRow.adapter_id);
  EffectRow.adapter_version := r.(EffectRow.adapter_version);
  EffectRow.adapter_digest := r.(EffectRow.adapter_digest);
  EffectRow.state := coalesce p.(EffectPatch.state) r.(EffectRow.state);
  EffectRow.executor_id := coalesce_opt p.(EffectPatch.executor_id) r.(EffectRow.executor_id);
  EffectRow.executor_fencing_token :=
    coalesce_opt p.(EffectPatch.executor_fencing_token) r.(EffectRow.executor_fencing_token);
  EffectRow.daemon_fencing_epoch :=
    coalesce_opt p.(EffectPatch.daemon_fencing_epoch) r.(EffectRow.daemon_fencing_epoch);
  EffectRow.lease_expires_ms :=
    coalesce_opt p.(EffectPatch.lease_expires_ms) r.(EffectRow.lease_expires_ms);
  EffectRow.provider_operation_ref :=
    coalesce_opt p.(EffectPatch.provider_operation_ref) r.(EffectRow.provider_operation_ref);
  EffectRow.result_ref := coalesce_opt p.(EffectPatch.result_ref) r.(EffectRow.result_ref);
  EffectRow.error_code := coalesce_opt p.(EffectPatch.error_code) r.(EffectRow.error_code);
  EffectRow.created_at_ms := r.(EffectRow.created_at_ms);
  EffectRow.updated_at_ms := r.(EffectRow.updated_at_ms) |}.

Definition effects_cas_transition (id : EffectId) (expect_state : EffectState)
    (expect_token : option Z) (patch : EffectPatch) : M bool :=
  let! token := lift_res (opt_traverse (encode_u64 "effects.executor_fencing_token") expect_token) in
  let! _ := lift_res (opt_traverse (encode_u64 "effects.executor_fencing_token")
              patch.(EffectPatch.executor_fencing_token)) in
  let! _ := lift_res (opt_traverse (encode_u64 "effects.daemon_fencing_epoch")
              patch.(EffectPatch.daemon_fencing_epoch)) in
  let! row := query (fun d => d.(effects) !! id) in
  match row with
  | Some r =>
      if bool_decide (r.(EffectRow.state) = expect_state) &&
         match token with
         | None => true
         | Some _ => bool_decide (r.(EffectRow.executor_fencing_token) = token)
         end
      then
        let r' := apply_effect_patch patch r in
        do! constraints [ (between 1 (to_wire r'.(EffectRow.state)) 8, check_failure) ] in
        do! update_db (fun d => set_effects (<[id := r']> d.(effects)) d) in
        ret true
      else ret false
  | None => ret false
  end.

(** ** Reservations ([repos/resources.rs]) *)

Definition decode_reservation (r : ReservationRow) : Res ReservationRow :=
  let? _ := u64_column "resource_reservations" "fencing_token" r.(ReservationRow.fencing_token) in
  Ok r.

Definition resources_get (id : ReservationId) : M (option ReservationRow) :=
  let! row := query (fun d => d.(reservations) !! id) in
  lift_res (opt_traverse decode_reservation row).

Definition resources_list_by_run (run : RunId) : M (list ReservationRow) :=
  let! rows := query (fun d =>
    select (fun r => bool_decide (r.(ReservationRow.run_id) = run)) d.(reservations)) in
  lift_res (res_collect decode_reservation rows).

Definition is_child_of (parent : ReservationId) (r : ReservationRow) : bool :=
  bool_decide (r.(ReservationRow.parent_reservation_id) = Some parent).

Definition resources_list_children (parent : ReservationId) : M (list ReservationRow) :=
  let! rows := query (fun d => select (is_child_of parent) d.(reservations)) in
  lift_res (res_collect decode_reservation rows).

Definition reservation_row_of_new (n : NewReservation) : ReservationRow := {|
  ReservationRow.reservation_id := n.(NewReservation.reservation_id);
  ReservationRow.run_id := n.(NewReservation.run_id);
  ReservationRow.resource_type := n.(NewReservation.resource_type);
  ReservationRow.state := n.(NewReservation.state);
  ReservationRow.amount := n.(NewReservation.amount);
  ReservationRow.unit := n.(NewReservation.unit);
  ReservationRow.fencing_token := n.(NewReservation.fencing_token);
  ReservationRow.parent_reservation_id := n.(NewReservation.parent_reservation_id);
  ReservationRow.created_at_ms := n.(NewReservation.created_at_ms);
  ReservationRow.updated_at_ms := n.(NewReservation.created_at_ms) |}.

Definition resources_insert (n : NewReservation) : M unit :=
  let! _ := lift_res (encode_u64 "resource_reservations.fencing_token"
              n.(NewReservation.fencing_token)) in
  let! d := query (fun d => d) in
  do! constraints
    [ (absent n.(NewReservation.reservation_id) d.(reservations), primary_key_failure);
      (fk_ok (Some n.(NewReservation.run_id)) d.(runs), foreign_key_failure);
      (bool_decide (n.(NewReservation.parent_reservation_id)
                    = Some n.(NewReservation.reservation_id)) ||
         fk_ok n.(NewReservation.parent_reservation_id) d.(reservations), foreign_key_failure) ] in
  update_db (fun d => set_reservations
    (<[n.(NewReservation.reservation_id) := reservation_row_of_new n]> d.(reservations)) d).

Definition apply_reservation_patch (p : ReservationPatch) (r : ReservationRow) : ReservationRow := {|
  ReservationRow.reservation_id := r.(ReservationRow.reservation_id);
  ReservationRow.run_id := r.(ReservationRow.run_id);
  ReservationRow.resource_type := r.(ReservationRow.resource_type);
  ReservationRow.state := coalesce p.(ReservationPatch.state) r.(ReservationRow.state);
  ReservationRow.amount := r.(ReservationRow.amount);
  ReservationRow.unit := r.(ReservationRow.unit);
  ReservationRow.fencing_token :=
    coalesce p.(ReservationPatch.fencing_token) r.(ReservationRow.fencing_token);
  ReservationRow.parent_reservation_id := r.(ReservationRow.parent_reservation_id);
  ReservationRow.created_at_ms := r.(ReservationRow.created_at_ms);
  ReservationRow.updated_at_ms := r.(ReservationRow.updated_at_ms) |}.

Definition resources_cas_transition (id : ReservationId) (expect : ReservationState)
    (patch : ReservationPatch) : M bool :=
  let! _ := lift_res (opt_traverse (encode_u64 "resource_reservations.fencing_token")
              patch.(ReservationPatch.fencing_token)) in
  let! row := query (fun d => d.(reservations) !! id) in
  match row with
  | Some r =>
      if bool_decide (r.(ReservationRow.state) = expect) then
        do! update_db (fun d => set_reservations
          (<[id := apply_reservation_patch patch r]> d.(reservations)) d) in
        ret true
      else ret false
  | None => ret false
  end.

(** ** Timers ([repos/timers.rs]) *)

Definition decode_timer (r : TimerRow) : Res TimerRow :=
  let? _ := u64_column "timers" "version" r.(TimerRow.version) in
  let? _ := opt_u64_column "timers" "claim_fencing_token" r.(TimerRow.claim_fencing_token) in
  let? _ := opt_u64_column "timers" "claim_daemon_epoch" r.(TimerRow.claim_daemon_epoch) in
  Ok r.

Definition timers_get (id : TimerId) : M (option TimerRow) :=
  let! row := query (fun d => d.(timers) !! id) in
  lift_res (opt_traverse decode_timer row).

(** [ORDER BY due_at_ms, timer_id]. *)
Definition due_le (x y : N * TimerRow) : Prop :=
  x.2.(TimerRow.due_at_ms) < y.2.(TimerRow.due_at_ms) \/
  (x.2.(TimerRow.due_at_ms) = y.2.(TimerRow.due_at_ms) /\ (x.1 <= y.1)%N).

#[export] Instance due_le_dec : RelDecision due_le.
Proof. intros x y. unfold due_le. apply _. Defined.

Definition timers_list_due (due_before_ms : Z) : M (list TimerRow) :=
  let! rows := query (fun d =>
    select_by due_le (fun r => r.(TimerRow.due_at_ms) <=? due_before_ms) d.(timers)) in
  lift_res (res_collect decode_timer rows).

Definition timers_list_by_run (run : RunId) : M (list TimerRow) :=
  let! rows := query (fun d =>
    select_by due_le (fun r => bool_decide (r.(TimerRow.run_id) = Some run)) d.(timers)) in
  lift_res (res_collect decode_timer rows).

Definition timer_row_of_new (n : NewTimer) : TimerRow := {|
  TimerRow.timer_id := n.(NewTimer.timer_id);
  TimerRow.run_id := n.(NewTimer.run_id);
  TimerRow.timer_kind := n.(NewTimer.timer_kind);
  TimerRow.payload := n.(NewTimer.payload);
  TimerRow.due_at_ms := n.(NewTimer.due_at_ms);
  TimerRow.state := n.(NewTimer.state);
  TimerRow.version := n.(NewTimer.version);
  TimerRow.claim_owner := None;
  TimerRow.claim_fencing_token := None;
  TimerRow.claim_daemon_epoch := None;
  TimerRow.created_at_ms := n.(NewTimer.created_at_ms);
  TimerRow.updated_at_ms := n.(NewTimer.created_at_ms) |}.

Definition timers_insert (n : NewTimer) : M unit :=
  let! _ := lift_res (encode_u64 "timers.version" n.(NewTimer.version)) in
  let! d := query (fun d => d) in
  do! constraints
    [ (absent n.(NewTimer.timer_id) d.(timers), primary_key_failure);
      (fk_ok n.(NewTimer.run_id) d.(runs), foreign_key_failure) ] in
  update_db (fun d => set_timers (<[n.(NewTimer.timer_id) := timer_row_of_new n]> d.(timers)) d).

Definition apply_timer_patch (p : TimerPatch) (r : TimerRow) : TimerRow := {|
  TimerRow.timer_id := r.(TimerRow.timer_id);
  TimerRow.run_id := r.(TimerRow.run_id);
  TimerRow.timer_kind := r.(TimerRow.timer_kind);
  TimerRow.payload := r.(TimerRow.payload);
  TimerRow.due_at_ms := coalesce p.(TimerPatch.due_at_ms) r.(TimerRow.due_at_ms);
  TimerRow.state := coalesce p.(TimerPatch.state) r.(TimerRow.state);
  TimerRow.version := r.(TimerRow.version) + 1;
  TimerRow.claim_owner := coalesce_opt p.(TimerPatch.claim_owner) r.(TimerRow.claim_owner);
  TimerRow.claim_fencing_token :=
    coalesce_opt p.(TimerPatch.claim_fencing_token) r.(TimerRow.claim_fencing_token);
  TimerRow.claim_daemon_epoch :=
    coalesce_opt p.(TimerPatch.claim_daemon_epoch) r.(TimerRow.claim_daemon_epoch);
  TimerRow.created_at_ms := r.(TimerRow.created_at_ms);
  TimerRow.updated_at_ms := r.(TimerRow.updated_at_ms) |}.

Definition timers_cas_transition (id : TimerId) (expect_state : TimerState) (expect_version : Z)
    (patch : TimerPatch) : M bool :=
  let! _ := lift_res (opt_traverse (encode_u64 "timers.claim_fencing_token")
              patch.(TimerPatch.claim_fencing_token)) in
  let! _ := lift_res (opt_traverse (encode_u64 "timers.claim_daemon_epoch")
              patch.(TimerPatch.claim_daemon_epoch)) in
  let! version := lift_res (encode_u64 "timers.version" expect_version) in
  let! row := query (fun d => d.(timers) !! id) in
  match row with
  | Some r =>
      if bool_decide (r.(TimerRow.state) = expect_state) &&
         bool_decide (r.(TimerRow.version) = version)
      then
        do! update_db (fun d => set_timers (<[id := apply_timer_patch patch r]> d.(timers)) d) in
        ret true
      else ret false
  | None => ret false
  end.

(** ** Loop turns and decisions ([repos/loop_turns.rs]) *)

Definition decode_turn (r : LoopTurnRow) : Res LoopTurnRow :=
  let? _ := u64_column "loop_turns" "run_revision" r.(LoopTurnRow.run_revision) in
  let? _ := u64_column "loop_turns" "loop_epoch" r.(LoopTurnRow.loop_epoch) in
  let? _ := u64_column "loop_turns" "step_sequence" r.(LoopTurnRow.step_sequence) in
  Ok r.

Definition turns_get (id : TurnId) : M (option LoopTurnRow) :=
  let! row := query (fun d => d.(loop_turns) !! id) in
  lift_res (opt_traverse decode_turn row).

Definition turn_states : list string := ["issued"; "accepted"; "stale"].
Definition decision_types : list string :=
  ["Complete"; "Fail"; "Wait"; "SpawnAgent"; "InvokeEffect"; "RequestApproval"].

Definition turns_insert (n : NewLoopTurn) : M unit :=
  let! _ := lift_res (encode_u64 "loop_turns.run_revision" n.(NewLoopTurn.run_revision)) in
  let! _ := lift_res (encode_u64 "loop_turns.loop_epoch" n.(NewLoopTurn.loop_epoch)) in
  let! _ := lift_res (encode_u64 "loop_turns.step_sequence" n.(NewLoopTurn.step_sequence)) in
  let! d := query (fun d => d) in
  do! constraints
    [ (bool_decide (n.(NewLoopTurn.state) ∈ turn_states), check_failure);
      (absent n.(NewLoopTurn.turn_id) d.(loop_turns), primary_key_failure);
      (fk_ok (Some n.(NewLoopTurn.run_id)) d.(runs), foreign_key_failure) ] in
  update_db (fun d => set_loop_turns (<[n.(NewLoopTurn.turn_id) := {|
    LoopTurnRow.turn_id := n.(NewLoopTurn.turn_id);
    LoopTurnRow.run_id := n.(NewLoopTurn.run_id);
    LoopTurnRow.run_revision := n.(NewLoopTurn.run_revision);
    LoopTurnRow.loop_epoch := n.(NewLoopTurn.loop_epoch);
    LoopTurnRow.step_sequence := n.(NewLoopTurn.step_sequence);
    LoopTurnRow.input_event_cursor := n.(NewLoopTurn.input_event_cursor);
    LoopTurnRow.state := n.(NewLoopTurn.state);
    LoopTurnRow.issued_at_ms := n.(NewLoopTurn.issued_at_ms) |}]> d.(loop_turns)) d).

Definition set_turn_state (s : string) (r : LoopTurnRow) : LoopTurnRow := {|
  LoopTurnRow.turn_id := r.(LoopTurnRow.turn_id);
  LoopTurnRow.run_id := r.(LoopTurnRow.run_id);
  LoopTurnRow.run_revision := r.(LoopTurnRow.run_revision);
  LoopTurnRow.loop_epoch := r.(LoopTurnRow.loop_epoch);
  LoopTurnRow.step_sequence := r.(LoopTurnRow.step_sequence);
  LoopTurnRow.input_event_cursor := r.(LoopTurnRow.input_event_cursor);
  LoopTurnRow.state := s;
  LoopTurnRow.issued_at_ms := r.(LoopTurnRow.issued_at_ms) |}.

Definition turns_cas (id : TurnId) (expect_state : string) (patch : LoopTurnPatch) : M bool :=
  let! row := query (fun d => d.(loop_turns) !! id) in
  match row with
  | Some r =>
      if bool_decide (r.(LoopTurnRow.state) = expect_state) then
        let r' := set_turn_state (coalesce patch.(LoopTurnPatch.state) r.(LoopTurnRow.state)) r in
        do! constraints [ (bool_decide (r'.(LoopTurnRow.state) ∈ turn_states), check_failure) ] in
        do! update_db (fun d => set_loop_turns (<[id := r']> d.(loop_turns)) d) in
        ret true
      else ret false
  | None => ret false
  end.

Definition decode_decision (r : DecisionRow) : Res DecisionRow :=
  let? _ := u64_column "decisions" "run_revision" r.(DecisionRow.run_revision) in
  let? _ := u64_column "decisions" "loop_epoch" r.(DecisionRow.loop_epoch) in
  let? _ := u64_column "decisions" "step_sequence" r.(DecisionRow.step_sequence) in
  Ok r.

Definition decisions_get (run : RunId) (decision : DecisionId) : M (option DecisionRow) :=
  let! row := query (fun d =>
    match d.(decisions) !! decision with
    | Some r => if bool_decide (r.(DecisionRow.run_id) = run) then Some r else None
    | None => None
    end) in
  lift_res (opt_traverse decode_decision row).

Definition decision_row_of_new (n : NewDecision) : DecisionRow := {|
  DecisionRow.decision_id := n.(NewDecision.decision_id);
  DecisionRow.run_id := n.(NewDecision.run_id);
  DecisionRow.turn_id := n.(NewDecision.turn_id);
  DecisionRow.decision_type := n.(NewDecision.decision_type);
  DecisionRow.decision_digest := n.(NewDecision.decision_digest);
  DecisionRow.decision_bytes := n.(NewDecision.decision_bytes);
  DecisionRow.run_revision := n.(NewDecision.run_revision);
  DecisionRow.loop_epoch := n.(NewDecision.loop_epoch);
  DecisionRow.step_sequence := n.(NewDecision.step_sequence);
  DecisionRow.input_event_cursor := n.(NewDecision.input_event_cursor);
  DecisionRow.accepted_at_ms := n.(NewDecision.accepted_at_ms) |}.

Definition decisions_insert (n : NewDecision) : M unit :=
  let! _ := lift_res (encode_u64 "decisions.run_revision" n.(NewDecision.run_revision)) in
  let! _ := lift_res (encode_u64 "decisions.loop_epoch" n.(NewDecision.loop_epoch)) in
  let! _ := lift_res (encode_u64 "decisions.step_sequence" n.(NewDecision.step_sequence)) in
  let! d := query (fun d => d) in
  do! constraints
    [ (bool_decide (n.(NewDecision.decision_type) ∈ decision_types), check_failure);
      (absent n.(NewDecision.decision_id) d.(decisions), primary_key_failure);
      (fk_ok (Some n.(NewDecision.run_id)) d.(runs), foreign_key_failure);
      (fk_ok (Some n.(NewDecision.turn_id)) d.(loop_turns), foreign_key_failure) ] in
  update_db (fun d => set_decisions
    (<[n.(NewDecision.decision_id) := decision_row_of_new n]> d.(decisions)) d).

(** ** Idempotency records ([repos/idempotency.rs]) *)

Definition idempotency_lookup (principal : PrincipalId) (key : string)
    : M (option IdempotencyRecordRow) :=
  query (fun d => d.(idempotency_records) !! (principal, key)).

Definition record_row_of_new (n : NewIdempotencyRecord) : IdempotencyRecordRow := {|
  IdempotencyRecordRow.principal_id := n.(NewIdempotencyRecord.principal_id);
  IdempotencyRecordRow.idempotency_key := n.(NewIdempotencyRecord.idempotency_key);
  IdempotencyRecordRow.request_digest := n.(NewIdempotencyRecord.request_digest);
  IdempotencyRecordRow.command_id := n.(NewIdempotencyRecord.command_id);
  IdempotencyRecordRow.outcome_code := n.(NewIdempotencyRecord.outcome_code);
  IdempotencyRecordRow.outcome_payload := n.(NewIdempotencyRecord.outcome_payload);
  IdempotencyRecordRow.created_at_ms := n.(NewIdempotencyRecord.created_at_ms) |}.

Definition idempotency_insert (n : NewIdempotencyRecord) : M unit :=
  let! d := query (fun d => d) in
  do! constraints
    [ (absent (n.(NewIdempotencyRecord.principal_id), n.(NewIdempotencyRecord.idempotency_key))
         d.(idempotency_records), primary_key_failure) ] in
  update_db (fun d => set_idempotency_records
    (<[(n.(NewIdempotencyRecord.principal_id), n.(NewIdempotencyRecord.idempotency_key)) :=
        record_row_of_new n]> d.(idempotency_records)) d).

(** ** Streams and outbox ([repos/streams.rs]) *)

Definition streams_allocate (stream_key : string) : M Z :=
  let! last := query (fun d => d.(stream_heads) !! stream_key) in
  let next := match last with None => 1 | Some n => n + 1 end in
  do! update_db (fun d => set_stream_heads (<[stream_key := next]> d.(stream_heads)) d) in
  lift_res (u64_column "event_stream_heads" "last_sequence" next).

Definition outbox_row_of_new (n : NewOutboxEvent) : OutboxEventRow := {|
  OutboxEventRow.event_id := n.(NewOutboxEvent.event_id);
  OutboxEventRow.event_type := n.(NewOutboxEvent.event_type);
  OutboxEventRow.event_version := n.(NewOutboxEvent.event_version);
  OutboxEventRow.stream_key := n.(NewOutboxEvent.stream_key);
  OutboxEventRow.sequence := n.(NewOutboxEvent.sequence);
  OutboxEventRow.occurred_at_ms := n.(NewOutboxEvent.occurred_at_ms);
  OutboxEventRow.run_id := n.(NewOutboxEvent.run_id);
  OutboxEventRow.task_id := n.(NewOutboxEvent.task_id);
  OutboxEventRow.session_id := n.(NewOutboxEvent.session_id);
  OutboxEventRow.effect_id := n.(NewOutboxEvent.effect_id);
  OutboxEventRow.causation_id := n.(NewOutboxEvent.causation_id);
  OutboxEventRow.correlation_id := n.(NewOutboxEvent.correlation_id);
  OutboxEventRow.sensitivity := n.(NewOutboxEvent.sensitivity);
  OutboxEventRow.retention := n.(NewOutboxEvent.retention);
  OutboxEventRow.payload := n.(NewOutboxEvent.payload);
  OutboxEventRow.journal_published_at_ms := None;
  OutboxEventRow.live_published_at_ms := None |}.

(** [UNIQUE (stream_key, sequence)]. *)
Definition same_position (key : string) (sequence : Z) (r : OutboxEventRow) : bool :=
  bool_decide (r.(OutboxEventRow.stream_key) = key) &&
  bool_decide (r.(OutboxEventRow.sequence) = sequence).

Definition streams_insert_outbox (n : NewOutboxEvent) : M unit :=
  let! _ := lift_res (encode_u64 "outbox_events.sequence" n.(NewOutboxEvent.sequence)) in
  let! d := query (fun d => d) in
  do! constraints
    [ (between 1 (to_wire n.(NewOutboxEvent.sensitivity)) 4 &&
         between 1 (to_wire n.(NewOutboxEvent.retention)) 3, check_failure);
      (absent n.(NewOutboxEvent.event_id) d.(outbox_events), primary_key_failure);
      (none_such (same_position n.(NewOutboxEvent.stream_key) n.(NewOutboxEvent.sequence))
         d.(outbox_events), unique_failure) ] in
  update_db (fun d => set_outbox_events
    (<[n.(NewOutboxEvent.event_id) := outbox_row_of_new n]> d.(outbox_events)) d).

(** [decode_event]: the checks on the columns a stored row could fail. *)
Definition decode_event (r : OutboxEventRow) : Res OutboxEventRow :=
  let? v := int_column "event_version" r.(OutboxEventRow.event_version) in
  let? _ := (if between 0 v 4294967295 then Ok tt
             else Err (kerr Internal "outbox_events.event_version is out of range")) in
  let? _ := u64_column "outbox_events" "sequence" r.(OutboxEventRow.sequence) in
  Ok r.

(** [ORDER BY stream_key, sequence]. *)
Definition position_le (x y : N * OutboxEventRow) : Prop :=
  let kx := x.2.(OutboxEventRow.stream_key) in
  let ky := y.2.(OutboxEventRow.stream_key) in
  (kx <> ky /\ Is_true (String.leb kx ky)) \/
  (kx = ky /\ x.2.(OutboxEventRow.sequence) <= y.2.(OutboxEventRow.sequence)).

#[export] Instance position_le_dec : RelDecision position_le.
Proof. intros x y. unfold position_le. apply _. Defined.

Definition unpublished (r : OutboxEventRow) : bool :=
  bool_decide (r.(OutboxEventRow.journal_published_at_ms) = None).

Definition streams_scan_unpublished (limit : nat) : M (list OutboxEventRow) :=
  let! rows := query (fun d => take limit (select_by position_le unpublished d.(outbox_events))) in
  lift_res (res_collect decode_event rows).

Inductive PublishKind := PublishJournal | PublishLive.

Definition set_published (kind : PublishKind) (ms : Z) (r : OutboxEventRow) : OutboxEventRow := {|
  OutboxEventRow.event_id := r.(OutboxEventRow.event_id);
  OutboxEventRow.event_type := r.(OutboxEventRow.event_type);
  OutboxEventRow.event_version := r.(OutboxEventRow.event_version);
  OutboxEventRow.stream_key := r.(OutboxEventRow.stream_key);
  OutboxEventRow.sequence := r.(OutboxEventRow.sequence);
  OutboxEventRow.occurred_at_ms := r.(OutboxEventRow.occurred_at_ms);
  OutboxEventRow.run_id := r.(OutboxEventRow.run_id);
  OutboxEventRow.task_id := r.(OutboxEventRow.task_id);
  OutboxEventRow.session_id := r.(OutboxEventRow.session_id);
  OutboxEventRow.effect_id := r.(OutboxEventRow.effect_id);
  OutboxEventRow.causation_id := r.(OutboxEventRow.causation_id);
  OutboxEventRow.correlation_id := r.(OutboxEventRow.correlation_id);
  OutboxEventRow.sensitivity := r.(OutboxEventRow.sensitivity);
  OutboxEventRow.retention := r.(OutboxEventRow.retention);
  OutboxEventRow.payload := r.(OutboxEventRow.payload);
  OutboxEventRow.journal_published_at_ms :=
    match kind with PublishJournal => Some ms | PublishLive => r.(OutboxEventRow.journal_published_at_ms) end;
  OutboxEventRow.live_published_at_ms :=
    match kind with PublishJournal => r.(OutboxEventRow.live_published_at_ms) | PublishLive => Some ms end |}.

Section Publication.
Context `{!Ext}.

Definition streams_mark_published (event : EventId) (kind : PublishKind) : M unit :=
  let! ms := now_unix_ms in
  let! row := query (fun d => d.(outbox_events) !! event) in
  match row with
  | Some r => update_db (fun d => set_outbox_events (<[event := set_published kind ms r]> d.(outbox_events)) d)
  | None => raise (kerr NotFound "outbox event not found")
  end.
End Publication.

(** ** Constraint and footprint lemmas *)

Lemma constraints_ok l t u t' :
  constraints l t = (Ok u, t') -> t' = t /\ Forall (fun p => p.1 = true) l.
Proof.
  induction l as [|[[] e] l IH]; simpl; intros H.
  - injection H as _ <-. auto.
  - destruct (IH H) as [-> ?]. auto.
  - discriminate H.
Qed.

Lemma constraints_state l t : snd (constraints l t) = t.
Proof. induction l as [|[[] e] l IH]; done. Qed.

Lemma absent_true {K A} `{Countable K} (k : K) (m : gmap K A) : absent k m = true <-> m !! k = None.
Proof. unfold absent. destruct (m !! k); done. Qed.

Lemma none_such_true {K A} `{Countable K} (p : A -> bool) (m : gmap K A) :
  none_such p m = true <-> forall k v, m !! k = Some v -> p v = false.
Proof.
  unfold none_such. rewrite forallb_forall. split.
  - intros Hall k v Hk. apply negb_true_iff, (Hall (k, v)).
    by rewrite <- list_elem_of_In, elem_of_map_to_list.
  - intros Hall [k v] Hin. rewrite <- list_elem_of_In, elem_of_map_to_list in Hin.
    apply negb_true_iff. eapply Hall, Hin.
Qed.

Lemma fk_ok_some {K A} `{Countable K} (k : K) (m : gmap K A) :
  fk_ok (Some k) m = true <-> is_Some (m !! k).
Proof. unfold fk_ok. destruct (m !! k); split; intros; try done. Qed.

(** Inverts the constraint checks as well, into one hypothesis per check. *)
Ltac inv_constraints :=
  repeat match goal with
  | H : constraints _ _ = (Ok _, _) |- _ => apply constraints_ok in H as [-> H]
  | H : Forall _ (_ :: _) |- _ => apply Forall_cons_1 in H as [? H]
  | H : Forall _ [] |- _ => clear H
  end; simpl in *.

Ltac inv_store := inv_run; inv_constraints.

Ltac store_touches :=
  intros ?t ?a ?t' ?E; inv_store;
  (split; [reflexivity | first [by exists tt | by eexists | apply set_same]]).

Section Footprints.
Context `{!Ext}.

Lemma runs_get_touches id : touches no_table (runs_get id).
Proof. unfold runs_get. store_touches. Qed.
Lemma runs_list_by_task_touches x : touches no_table (runs_list_by_task x).
Proof. unfold runs_list_by_task. store_touches. Qed.
Lemma runs_list_children_touches x : touches no_table (runs_list_children x).
Proof. unfold runs_list_children. store_touches. Qed.
Lemma runs_list_active_touches : touches no_table runs_list_active.
Proof. unfold runs_list_active. store_touches. Qed.
Lemma runs_insert_touches x : touches set_runs (runs_insert x).
Proof. unfold runs_insert. store_touches. Qed.
Lemma runs_cas_update_touches x e p : touches set_runs (runs_cas_update x e p).
Proof. unfold runs_cas_update. store_touches. Qed.
Lemma sessions_get_touches x : touches no_table (sessions_get x).
Proof. unfold sessions_get. store_touches. Qed.
Lemma sessions_insert_touches x : touches set_sessions (sessions_insert x).
Proof. unfold sessions_insert. store_touches. Qed.
Lemma tasks_get_touches x : touches no_table (tasks_get x).
Proof. unfold tasks_get. store_touches. Qed.
Lemma tasks_insert_touches x : touches set_tasks (tasks_insert x).
Proof. unfold tasks_insert. store_touches. Qed.
Lemma agent_specs_get_touches x y : touches no_table (agent_specs_get x y).
Proof. unfold agent_specs_get. store_touches. Qed.
Lemma agent_specs_insert_touches x : touches set_agent_specs (agent_specs_insert x).
Proof. unfold agent_specs_insert, agent_specs_get. store_touches. Qed.
Lemma graph_get_head_touches x : touches no_table (graph_get_head x).
Proof. unfold graph_get_head. store_touches. Qed.
Lemma graph_list_dependencies_touches x : touches no_table (graph_list_dependencies x).
Proof. unfold graph_list_dependencies. store_touches. Qed.
Lemma graph_is_reachable_touches x y : touches no_table (graph_is_reachable x y).
Proof. unfold graph_is_reachable. store_touches. Qed.
Lemma graph_ensure_head_touches x : touches set_graph_heads (graph_ensure_head x).
Proof. unfold graph_ensure_head, graph_get_head. store_touches. Qed.
Lemma graph_cas_head_revision_touches x y : touches set_graph_heads (graph_cas_head_revision x y).
Proof. unfold graph_cas_head_revision. store_touches. Qed.
Lemma environments_insert_touches x : touches set_environments (environments_insert x).
Proof. unfold environments_insert. store_touches. Qed.
Lemma environments_insert_binding_touches x y : touches set_bindings (environments_insert_binding x y).
Proof. unfold environments_insert_binding. store_touches. Qed.
Lemma environments_get_bindings_touches x : touches no_table (environments_get_bindings x).
Proof. unfold environments_get_bindings. store_touches. Qed.
Lemma adapters_get_registration_touches x y z : touches no_table (adapters_get_registration x y z).
Proof. unfold adapters_get_registration. store_touches. Qed.
Lemma effects_get_touches x : touches no_table (effects_get x).
Proof. unfold effects_get. store_touches. Qed.
Lemma effects_list_by_run_touches x : touches no_table (effects_list_by_run x).
Proof. unfold effects_list_by_run. store_touches. Qed.
Lemma effects_insert_touches x : touches set_effects (effects_insert x).
Proof. unfold effects_insert. store_touches. Qed.
Lemma effects_claim_touches a b c d e : touches set_effects (effects_claim a b c d e).
Proof. unfold effects_claim. store_touches. Qed.
Lemma effects_cas_transition_touches a b c d : touches set_effects (effects_cas_transition a b c d).
Proof. unfold effects_cas_transition. store_touches. Qed.
Lemma resources_get_touches x : touches no_table (resources_get x).
Proof. unfold resources_get. store_touches. Qed.
Lemma resources_list_by_run_touches x : touches no_table (resources_list_by_run x).
Proof. unfold resources_list_by_run. store_touches. Qed.
Lemma resources_list_children_touches x : touches no_table (resources_list_children x).
Proof. unfold resources_list_children. store_touches. Qed.
Lemma resources_insert_touches x : touches set_reservations (resources_insert x).
Proof. unfold resources_insert. store_touches. Qed.
Lemma resources_cas_transition_touches a b c : touches set_reservations (resources_cas_transition a b c).
Proof. unfold resources_cas_transition. store_touches. Qed.
Lemma timers_get_touches x : touches no_table (timers_get x).
Proof. unfold timers_get. store_touches. Qed.
Lemma timers_list_due_touches x : touches no_table (timers_list_due x).
Proof. unfold timers_list_due. store_touches. Qed.
Lemma timers_list_by_run_touches x : touches no_table (timers_list_by_run x).
Proof. unfold timers_list_by_run. store_touches. Qed.
Lemma timers_insert_touches x : touches set_timers (timers_insert x).
Proof. unfold timers_insert. store_touches. Qed.
Lemma timers_cas_transition_touches a b c d : touches set_timers (timers_cas_transition a b c d).
Proof. unfold timers_cas_transition. store_touches. Qed.
Lemma turns_get_touches x : touches no_table (turns_get x).
Proof. unfold turns_get. store_touches. Qed.
Lemma turns_insert_touches x : touches set_loop_turns (turns_insert x).
Proof. unfold turns_insert. store_touches. Qed.
Lemma turns_cas_touches a b c : touches set_loop_turns (turns_cas a b c).
Proof. unfold turns_cas. store_touches. Qed.
Lemma decisions_get_touches a b : touches no_table (decisions_get a b).
Proof. unfold decisions_get. store_touches. Qed.
Lemma decisions_insert_touches a : touches set_decisions (decisions_insert a).
Proof. unfold decisions_insert. store_touches. Qed.
Lemma idempotency_lookup_touches a b : touches no_table (idempotency_lookup a b).
Proof. unfold idempotency_lookup. store_touches. Qed.
Lemma idempotency_insert_touches a : touches set_idempotency_records (idempotency_insert a).
Proof. unfold idempotency_insert. store_touches. Qed.
Lemma streams_allocate_touches a : touches set_stream_heads (streams_allocate a).
Proof. unfold streams_allocate. store_touches. Qed.
Lemma streams_insert_outbox_touches a : touches set_outbox_events (streams_insert_outbox a).
Proof. unfold streams_insert_outbox. store_touches. Qed.
Lemma streams_scan_unpublished_touches a : touches no_table (streams_scan_unpublished a).
Proof. unfold streams_scan_unpublished. store_touches. Qed.
Lemma streams_mark_published_touches a b : touches set_outbox_events (streams_mark_published a b).
Proof. unfold streams_mark_published. store_touches. Qed.
End Footprints.

#[export] Hint Resolve runs_get_touches runs_list_by_task_touches runs_list_children_touches
  runs_list_active_touches runs_insert_touches
  runs_cas_update_touches sessions_get_touches sessions_insert_touches tasks_get_touches tasks_insert_touches agent_specs_get_touches agent_specs_insert_touches graph_get_head_touches graph_list_dependencies_touches graph_is_reachable_touches graph_ensure_head_touches graph_cas_head_revision_touches environments_insert_touches environments_insert_binding_touches environments_get_bindings_touches adapters_get_registration_touches effects_get_touches effects_list_by_run_touches effects_insert_touches effects_claim_touches effects_cas_transition_touches resources_get_touches resources_list_by_run_touches resources_list_children_touches resources_insert_touches resources_cas_transition_touches timers_get_touches timers_list_due_touches timers_list_by_run_touches timers_insert_touches timers_cas_transition_touches turns_get_touches turns_insert_touches turns_cas_touches decisions_get_touches decisions_insert_touches idempotency_lookup_touches idempotency_insert_touches streams_allocate_touches streams_insert_outbox_touches streams_scan_unpublished_touches streams_mark_published_touches : touches.
