(* ===== verification/SecurityStore.v ===== *)
(** * The security repository

    [kernel-store-sqlite/src/repos/security.rs]: capability grants, delegation
    hops, approval requests and approval responses.  The repository inserts
    and reads; it has no update and no delete, and the schema's triggers
    reject both on approval requests. *)

From S2P Require Import Prelude Domain Ids Models StoreBase Store.

Open Scope string_scope.
Open Scope Z_scope.

Definition u32_max : Z := 4294967295.

(** ** Reads *)

Definition security_get_grant (id : CapabilityGrantId) : M (option CapabilityGrantRow) :=
  query (fun d => d.(capability_grants) !! id).

(** [u32::try_from(hop_index)]. *)
Definition decode_hop (r : DelegationHopRow) : Res DelegationHopRow :=
  if between 0 r.(DelegationHopRow.hop_index) u32_max then Ok r
  else Err (kerr Internal "delegation_hops.hop_index is outside the u32 range").

Definition hop_le (x y : DelegationHopRow) : Prop :=
  x.(DelegationHopRow.hop_index) <= y.(DelegationHopRow.hop_index).

#[export] Instance hop_le_dec : RelDecision hop_le.
Proof. intros x y. unfold hop_le. apply _. Defined.

(** [SELECT ... FROM delegation_hops WHERE chain_id = ?1 ORDER BY hop_index]. *)
Definition security_list_delegation_hops (chain : DelegationChainId) : M (list DelegationHopRow) :=
  let! rows := query (fun d => merge_sort hop_le
    (List.filter (fun r => bool_decide (r.(DelegationHopRow.chain_id) = chain))
       (map_to_list d.(delegation_hops)).*2)) in
  lift_res (res_collect decode_hop rows).

Definition security_get_approval_request (id : ApprovalRequestId) : M (option ApprovalRequestRow) :=
  query (fun d => d.(approval_requests) !! id).

Definition approval_le (x y : N * ApprovalRequestRow) : Prop :=
  x.2.(ApprovalRequestRow.created_at_ms) < y.2.(ApprovalRequestRow.created_at_ms) \/
  (x.2.(ApprovalRequestRow.created_at_ms) = y.2.(ApprovalRequestRow.created_at_ms) /\ (x.1 <= y.1)%N).

#[export] Instance approval_le_dec : RelDecision approval_le.
Proof. intros x y. unfold approval_le. apply _. Defined.

Definition security_list_approvals_by_run (run : RunId) : M (list ApprovalRequestRow) :=
  query (fun d => select_by approval_le
    (fun r => bool_decide (r.(ApprovalRequestRow.run_id) = Some run)) d.(approval_requests)).

Definition security_list_approvals : M (list ApprovalRequestRow) :=
  query (fun d => select_by approval_le (fun _ => true) d.(approval_requests)).

(** The decision column's CHECK admits the two literals [decode_state] parses. *)
Definition decode_approval_response (r : ApprovalResponseRow) : Res ApprovalResponseRow :=
  if bool_decide (r.(ApprovalResponseRow.decision) ∈ ["approve"; "deny"]) then Ok r
  else Err (kerr Internal ("approval_responses.decision: unknown ApprovalDecision state " +:+
         String "034" (r.(ApprovalResponseRow.decision) +:+ String "034" EmptyString))).

Definition responded_le (x y : N * ApprovalResponseRow) : Prop :=
  x.2.(ApprovalResponseRow.responded_at_ms) <= y.2.(ApprovalResponseRow.responded_at_ms).

#[export] Instance responded_le_dec : RelDecision responded_le.
Proof. intros x y. unfold responded_le. apply _. Defined.

Definition security_list_approval_responses (request : ApprovalRequestId) : M (list ApprovalResponseRow) :=
  let! rows := query (fun d => select_by responded_le
    (fun r => bool_decide (r.(ApprovalResponseRow.request_id) = request)) d.(approval_responses)) in
  lift_res (res_collect decode_approval_response rows).

(** ** Inserts *)

Definition grant_row_of_new (n : NewCapabilityGrant) : CapabilityGrantRow :=
  CapabilityGrantRow.mk n.(NewCapabilityGrant.grant_id) n.(NewCapabilityGrant.principal_id)
    n.(NewCapabilityGrant.actor_id) n.(NewCapabilityGrant.run_id) n.(NewCapabilityGrant.capability_id)
    n.(NewCapabilityGrant.scope) n.(NewCapabilityGrant.delegated_from_grant_id)
    n.(NewCapabilityGrant.expires_at_ms) n.(NewCapabilityGrant.revoked_at_ms)
    n.(NewCapabilityGrant.created_at_ms).

Definition security_insert_grant (n : NewCapabilityGrant) : M unit :=
  let! d := query (fun d => d) in
  do! constraints
    [ (absent n.(NewCapabilityGrant.grant_id) d.(capability_grants), primary_key_failure);
      (fk_ok n.(NewCapabilityGrant.run_id) d.(runs), foreign_key_failure);
      (fk_ok n.(NewCapabilityGrant.delegated_from_grant_id)
         (<[n.(NewCapabilityGrant.grant_id) := grant_row_of_new n]> d.(capability_grants)),
       foreign_key_failure) ] in
  update_db (fun d => set_capability_grants
    (<[n.(NewCapabilityGrant.grant_id) := grant_row_of_new n]> d.(capability_grants)) d).

Definition hop_row_of_new (n : NewDelegationHop) : DelegationHopRow :=
  DelegationHopRow.mk n.(NewDelegationHop.chain_id) n.(NewDelegationHop.hop_index)
    n.(NewDelegationHop.principal_or_actor_id) n.(NewDelegationHop.run_id)
    n.(NewDelegationHop.capability_grant_ids).

Definition security_insert_delegation_hop (n : NewDelegationHop) : M unit :=
  let! d := query (fun d => d) in
  do! constraints
    [ (absent (n.(NewDelegationHop.chain_id), n.(NewDelegationHop.hop_index)) d.(delegation_hops),
       primary_key_failure);
      (fk_ok n.(NewDelegationHop.run_id) d.(runs), foreign_key_failure) ] in
  update_db (fun d => set_delegation_hops
    (<[(n.(NewDelegationHop.chain_id), n.(NewDelegationHop.hop_index)) := hop_row_of_new n]>
       d.(delegation_hops)) d).

Definition approval_row_of_new (n : NewApprovalRequest) : ApprovalRequestRow :=
  ApprovalRequestRow.mk n.(NewApprovalRequest.request_id) n.(NewApprovalRequest.request_digest)
    n.(NewApprovalRequest.principal_id) n.(NewApprovalRequest.actor_id) n.(NewApprovalRequest.run_id)
    n.(NewApprovalRequest.operation) n.(NewApprovalRequest.target_resource)
    n.(NewApprovalRequest.capability_ids) n.(NewApprovalRequest.extension_bundle_digest)
    n.(NewApprovalRequest.config_generation_digest) n.(NewApprovalRequest.expires_at_ms)
    n.(NewApprovalRequest.nonce) n.(NewApprovalRequest.state) n.(NewApprovalRequest.created_at_ms)
    n.(NewApprovalRequest.resolved_at_ms).

(** [UNIQUE (request_digest, nonce)]. *)
Definition same_binding (n : NewApprovalRequest) (r : ApprovalRequestRow) : bool :=
  bool_decide (r.(ApprovalRequestRow.request_digest) = n.(NewApprovalRequest.request_digest)) &&
  bool_decide (r.(ApprovalRequestRow.nonce) = n.(NewApprovalRequest.nonce)).

Definition security_insert_approval_request (n : NewApprovalRequest) : M unit :=
  let! d := query (fun d => d) in
  do! constraints
    [ (absent n.(NewApprovalRequest.request_id) d.(approval_requests), primary_key_failure);
      (none_such (same_binding n) d.(approval_requests), unique_failure) ] in
  update_db (fun d => set_approval_requests
    (<[n.(NewApprovalRequest.request_id) := approval_row_of_new n]> d.(approval_requests)) d).

Definition response_row_of_new (n : NewApprovalResponse) : ApprovalResponseRow :=
  ApprovalResponseRow.mk n.(NewApprovalResponse.request_id) n.(NewApprovalResponse.request_digest)
    n.(NewApprovalResponse.decision) n.(NewApprovalResponse.device_id)
    n.(NewApprovalResponse.responder_principal_id) n.(NewApprovalResponse.responded_at_ms).

Definition security_insert_approval_response (n : NewApprovalResponse) : M unit :=
  let! d := query (fun d => d) in
  do! constraints
    [ (bool_decide (n.(NewApprovalResponse.decision) ∈ ["approve"; "deny"]), check_failure);
      (absent n.(NewApprovalResponse.request_id) d.(approval_responses), primary_key_failure);
      (fk_ok (Some n.(NewApprovalResponse.request_id)) d.(approval_requests), foreign_key_failure) ] in
  update_db (fun d => set_approval_responses
    (<[n.(NewApprovalResponse.request_id) := response_row_of_new n]> d.(approval_responses)) d).

(** ** Footprints *)

Lemma security_get_grant_touches id : touches no_table (security_get_grant id).
Proof. unfold security_get_grant. store_touches. Qed.
Lemma security_list_delegation_hops_touches c : touches no_table (security_list_delegation_hops c).
Proof. unfold security_list_delegation_hops. store_touches. Qed.
Lemma security_get_approval_request_touches id : touches no_table (security_get_approval_request id).
Proof. unfold security_get_approval_request. store_touches. Qed.
Lemma security_list_approvals_by_run_touches r : touches no_table (security_list_approvals_by_run r).
Proof. unfold security_list_approvals_by_run. store_touches. Qed.
Lemma security_list_approval_responses_touches r : touches no_table (security_list_approval_responses r).
Proof. unfold security_list_approval_responses. store_touches. Qed.
Lemma security_insert_grant_touches n : touches set_capability_grants (security_insert_grant n).
Proof. unfold security_insert_grant. store_touches. Qed.
Lemma security_insert_delegation_hop_touches n : touches set_delegation_hops (security_insert_delegation_hop n).
Proof. unfold security_insert_delegation_hop. store_touches. Qed.
Lemma security_insert_approval_request_touches n :
  touches set_approval_requests (security_insert_approval_request n).
Proof. unfold security_insert_approval_request. store_touches. Qed.
Lemma security_insert_approval_response_touches n :
  touches set_approval_responses (security_insert_approval_response n).
Proof. unfold security_insert_approval_response. store_touches. Qed.

#[export] Hint Resolve security_get_grant_touches security_list_delegation_hops_touches
  security_get_approval_request_touches security_list_approvals_by_run_touches
  security_list_approval_responses_touches security_insert_grant_touches
  security_insert_delegation_hop_touches security_insert_approval_request_touches
  security_insert_approval_response_touches : touches.
