(* ===== verification/ExtensionStore.v ===== *)
(** * The workspace, artifact, adapter and configuration repositories

    [kernel-store-sqlite/src/repos]: [workspaces.rs], [workspace_leases.rs],
    [artifacts.rs], [adapters.rs] and [config.rs].  As in [Store], a statement
    fails with the first violated constraint of [schema/kernel_store.sql] and
    then leaves its table unchanged. *)

From S2P Require Import Prelude Domain Ids Models StoreBase Store.

Open Scope string_scope.
Open Scope Z_scope.

(** ** Workspaces ([repos/workspaces.rs]) *)

Definition workspaces_get (id : WorkspaceId) : M (option WorkspaceRow) :=
  query (fun d => d.(workspaces) !! id).

Definition workspace_row_of_new (n : NewWorkspace) : WorkspaceRow :=
  WorkspaceRow.mk n.(NewWorkspace.workspace_id) n.(NewWorkspace.kind) n.(NewWorkspace.base_revision)
    n.(NewWorkspace.parent_workspace_id) n.(NewWorkspace.created_at_ms).

Definition workspaces_insert (n : NewWorkspace) : M unit :=
  let! d := query (fun d => d) in
  do! constraints
    [ (absent n.(NewWorkspace.workspace_id) d.(workspaces), primary_key_failure);
      (fk_ok n.(NewWorkspace.parent_workspace_id)
         (<[n.(NewWorkspace.workspace_id) := workspace_row_of_new n]> d.(workspaces)), foreign_key_failure) ] in
  update_db (fun d => set_workspaces
    (<[n.(NewWorkspace.workspace_id) := workspace_row_of_new n]> d.(workspaces)) d).

(** ** Leases ([repos/workspace_leases.rs]) *)

Definition decode_lease (r : WorkspaceLeaseRow) : Res WorkspaceLeaseRow :=
  let? _ := u64_column "workspace_leases" "lease_epoch" r.(WorkspaceLeaseRow.lease_epoch) in Ok r.

Definition leases_get (id : LeaseId) : M (option WorkspaceLeaseRow) :=
  let! row := query (fun d => d.(workspace_leases) !! id) in
  lift_res (opt_traverse decode_lease row).

Definition lease_row_of_new (n : NewWorkspaceLease) : WorkspaceLeaseRow :=
  WorkspaceLeaseRow.mk n.(NewWorkspaceLease.lease_id) n.(NewWorkspaceLease.workspace_id)
    n.(NewWorkspaceLease.owner_run_id) n.(NewWorkspaceLease.mode) n.(NewWorkspaceLease.lease_epoch)
    n.(NewWorkspaceLease.enforcement_state) n.(NewWorkspaceLease.delegated_from)
    n.(NewWorkspaceLease.created_at_ms) n.(NewWorkspaceLease.created_at_ms).

(** The predicate of the partial index [uq_workspace_exclusive_lease]. *)
Definition active_exclusive (r : WorkspaceLeaseRow) : bool :=
  bool_decide (r.(WorkspaceLeaseRow.mode) = WorkspaceAccessMode.ExclusiveWrite) &&
  bool_decide (r.(WorkspaceLeaseRow.enforcement_state) = LeaseEnforcementState.Active).

(** [r] clashes in that index with a row of the table other than itself. *)
Definition exclusive_clash (r r' : WorkspaceLeaseRow) : bool :=
  active_exclusive r && active_exclusive r' &&
  bool_decide (r.(WorkspaceLeaseRow.workspace_id) = r'.(WorkspaceLeaseRow.workspace_id)) &&
  negb (bool_decide (r.(WorkspaceLeaseRow.lease_id) = r'.(WorkspaceLeaseRow.lease_id))).

Definition leases_insert (n : NewWorkspaceLease) : M unit :=
  let! _ := lift_res (encode_u64 "workspace_leases.lease_epoch" n.(NewWorkspaceLease.lease_epoch)) in
  let! d := query (fun d => d) in
  do! constraints
    [ (between 1 (to_wire n.(NewWorkspaceLease.mode)) 4, check_failure);
      (absent n.(NewWorkspaceLease.lease_id) d.(workspace_leases), primary_key_failure);
      (none_such (exclusive_clash (lease_row_of_new n)) d.(workspace_leases), unique_failure);
      (fk_ok (Some n.(NewWorkspaceLease.owner_run_id)) d.(runs), foreign_key_failure) ] in
  update_db (fun d => set_workspace_leases
    (<[n.(NewWorkspaceLease.lease_id) := lease_row_of_new n]> d.(workspace_leases)) d).

(** The SET clause of [cas_lease]: [updated_at_ms] is not part of it. *)
Definition apply_lease_patch (p : LeasePatch) (r : WorkspaceLeaseRow) : WorkspaceLeaseRow :=
  WorkspaceLeaseRow.mk r.(WorkspaceLeaseRow.lease_id) r.(WorkspaceLeaseRow.workspace_id)
    (coalesce p.(LeasePatch.owner_run_id) r.(WorkspaceLeaseRow.owner_run_id))
    (coalesce p.(LeasePatch.mode) r.(WorkspaceLeaseRow.mode))
    (coalesce p.(LeasePatch.lease_epoch) r.(WorkspaceLeaseRow.lease_epoch))
    (coalesce p.(LeasePatch.enforcement_state) r.(WorkspaceLeaseRow.enforcement_state))
    (coalesce p.(LeasePatch.delegated_from) r.(WorkspaceLeaseRow.delegated_from))
    r.(WorkspaceLeaseRow.created_at_ms) r.(WorkspaceLeaseRow.updated_at_ms).

Definition leases_cas (id : LeaseId) (expect_epoch : Z) (patch : LeasePatch) : M bool :=
  let! _ := lift_res (opt_traverse (encode_u64 "workspace_leases.lease_epoch") patch.(LeasePatch.lease_epoch)) in
  let! _ := lift_res (encode_u64 "workspace_leases.lease_epoch" expect_epoch) in
  let! d := query (fun d => d) in
  match d.(workspace_leases) !! id with
  | Some r =>
      if r.(WorkspaceLeaseRow.lease_epoch) =? expect_epoch then
        let r' := apply_lease_patch patch r in
        do! constraints
          [ (between 1 (to_wire r'.(WorkspaceLeaseRow.mode)) 4, check_failure);
            (none_such (exclusive_clash r') d.(workspace_leases), unique_failure);
            (fk_ok (Some r'.(WorkspaceLeaseRow.owner_run_id)) d.(runs), foreign_key_failure) ] in
        do! update_db (fun d => set_workspace_leases (<[id := r']> d.(workspace_leases)) d) in
        ret true
      else ret false
  | None => ret false
  end.

(** ** Artifacts ([repos/artifacts.rs]) *)

Definition artifacts_get_by_id (id : ArtifactId) : M (option ArtifactRow) :=
  query (fun d => d.(artifacts) !! id).

Definition artifacts_get_by_uri (uri : string) : M (option ArtifactRow) :=
  query (fun d => head (select (fun r => bool_decide (r.(ArtifactRow.uri) = uri)) d.(artifacts))).

Definition artifact_le (x y : N * ArtifactRow) : Prop :=
  x.2.(ArtifactRow.created_at_ms) <= y.2.(ArtifactRow.created_at_ms).

#[export] Instance artifact_le_dec : RelDecision artifact_le.
Proof. intros x y. unfold artifact_le. apply _. Defined.

Definition artifacts_list_by_run (run : RunId) : M (list ArtifactRow) :=
  query (fun d => select_by artifact_le (fun r => bool_decide (r.(ArtifactRow.origin_run_id) = run)) d.(artifacts)).

Definition artifact_row_of_new (n : NewArtifact) : ArtifactRow :=
  ArtifactRow.mk n.(NewArtifact.artifact_id) n.(NewArtifact.uri) n.(NewArtifact.digest)
    n.(NewArtifact.media_type) n.(NewArtifact.size_bytes) n.(NewArtifact.origin_run_id)
    n.(NewArtifact.origin_effect_id) n.(NewArtifact.sensitivity) n.(NewArtifact.retention)
    n.(NewArtifact.locator) n.(NewArtifact.created_at_ms).

Definition artifacts_insert (n : NewArtifact) : M unit :=
  let! d := query (fun d => d) in
  do! constraints
    [ (between 1 (to_wire n.(NewArtifact.sensitivity)) 4, check_failure);
      (between 1 (to_wire n.(NewArtifact.retention)) 3, check_failure);
      (absent n.(NewArtifact.artifact_id) d.(artifacts), primary_key_failure);
      (none_such (fun r => bool_decide (r.(ArtifactRow.uri) = n.(NewArtifact.uri))) d.(artifacts), unique_failure);
      (fk_ok (Some n.(NewArtifact.origin_run_id)) d.(runs), foreign_key_failure);
      (fk_ok n.(NewArtifact.origin_effect_id) d.(effects), foreign_key_failure) ] in
  update_db (fun d => set_artifacts (<[n.(NewArtifact.artifact_id) := artifact_row_of_new n]> d.(artifacts)) d).

(** ** Adapters ([repos/adapters.rs]) *)

Definition RegistrationKey : Type := AdapterId * string * string.

Definition registration_le (x y : RegistrationKey * AdapterRegistrationRow) : Prop :=
  (x.1.1.1 < y.1.1.1)%N \/ (x.1.1.1 = y.1.1.1 /\
    ((x.1.1.2 <> y.1.1.2 /\ String.leb x.1.1.2 y.1.1.2 = true) \/
     (x.1.1.2 = y.1.1.2 /\ String.leb x.1.2 y.1.2 = true))).

#[export] Instance registration_le_dec : RelDecision registration_le.
Proof. intros x y. unfold registration_le. apply _. Defined.

(** [ORDER BY adapter_id, version, bundle_digest]. *)
Definition adapters_list_registrations : M (list AdapterRegistrationRow) :=
  query (fun d => (merge_sort registration_le (map_to_list d.(registrations))).*2).

Definition registration_row_of_new (n : NewAdapterRegistration) : AdapterRegistrationRow :=
  AdapterRegistrationRow.mk n.(NewAdapterRegistration.adapter_id) n.(NewAdapterRegistration.version)
    n.(NewAdapterRegistration.bundle_digest) n.(NewAdapterRegistration.manifest_digest)
    n.(NewAdapterRegistration.runtime_type) n.(NewAdapterRegistration.implemented_ports)
    n.(NewAdapterRegistration.capabilities) n.(NewAdapterRegistration.trust_state)
    n.(NewAdapterRegistration.conformance_state) n.(NewAdapterRegistration.created_at_ms).

Definition registration_key (n : NewAdapterRegistration) : RegistrationKey :=
  (n.(NewAdapterRegistration.adapter_id), n.(NewAdapterRegistration.version), n.(NewAdapterRegistration.bundle_digest)).

Definition adapters_insert_registration (n : NewAdapterRegistration) : M unit :=
  let! d := query (fun d => d) in
  do! constraints [ (absent (registration_key n) d.(registrations), primary_key_failure) ] in
  update_db (fun d => set_registrations (<[registration_key n := registration_row_of_new n]> d.(registrations)) d).

Definition set_conformance (s : ConformanceState) (r : AdapterRegistrationRow) : AdapterRegistrationRow :=
  AdapterRegistrationRow.mk r.(AdapterRegistrationRow.adapter_id) r.(AdapterRegistrationRow.version)
    r.(AdapterRegistrationRow.bundle_digest) r.(AdapterRegistrationRow.manifest_digest)
    r.(AdapterRegistrationRow.runtime_type) r.(AdapterRegistrationRow.implemented_ports)
    r.(AdapterRegistrationRow.capabilities) r.(AdapterRegistrationRow.trust_state) s
    r.(AdapterRegistrationRow.created_at_ms).

(** An UPDATE that matches no row is no error. *)
Definition adapters_set_conformance_state (id : AdapterId) (version digest : string) (s : ConformanceState) : M unit :=
  update_db (fun d => set_registrations (alter (set_conformance s) (id, version, digest) d.(registrations)) d).

Definition adapters_get_conformance_report (id : AdapterId) (version digest : string) : M (option ConformanceReportRow) :=
  query (fun d => d.(conformance_reports) !! (id, version, digest)).

Definition report_row_of_new (n : NewConformanceReport) : ConformanceReportRow :=
  ConformanceReportRow.mk n.(NewConformanceReport.adapter_id) n.(NewConformanceReport.adapter_version)
    n.(NewConformanceReport.bundle_digest) n.(NewConformanceReport.report_digest)
    n.(NewConformanceReport.harness_version) n.(NewConformanceReport.result) n.(NewConformanceReport.run_at_ms)
    n.(NewConformanceReport.details).

Definition report_key (n : NewConformanceReport) : RegistrationKey :=
  (n.(NewConformanceReport.adapter_id), n.(NewConformanceReport.adapter_version), n.(NewConformanceReport.bundle_digest)).

Definition adapters_insert_conformance_report (n : NewConformanceReport) : M unit :=
  let! d := query (fun d => d) in
  do! constraints
    [ (bool_decide (n.(NewConformanceReport.result) ∈ ["pass"; "fail"]), check_failure);
      (absent (report_key n) d.(conformance_reports), primary_key_failure);
      (fk_ok (Some (report_key n)) d.(registrations), foreign_key_failure) ] in
  update_db (fun d => set_conformance_reports (<[report_key n := report_row_of_new n]> d.(conformance_reports)) d).

(** [instance_state_from_state]: the literals of the CHECK. *)
Definition instance_states : list string := ["starting"; "ready"; "exited"; "failed"].

Definition decode_instance (r : AdapterInstanceRow) : Res AdapterInstanceRow :=
  if bool_decide (r.(AdapterInstanceRow.state) ∈ instance_states) then Ok r
  else Err (kerr Internal ("adapter_instances.state: unknown AdapterInstanceState state " +:+
         String "034" (r.(AdapterInstanceRow.state) +:+ String "034" EmptyString))).

Definition adapters_get_instance (id : AdapterInstanceId) : M (option AdapterInstanceRow) :=
  let! row := query (fun d => d.(adapter_instances) !! id) in
  lift_res (opt_traverse decode_instance row).

Definition instance_row_of_new (n : NewAdapterInstance) : AdapterInstanceRow :=
  AdapterInstanceRow.mk n.(NewAdapterInstance.adapter_instance_id) n.(NewAdapterInstance.adapter_id)
    n.(NewAdapterInstance.adapter_version) n.(NewAdapterInstance.bundle_digest)
    n.(NewAdapterInstance.daemon_instance_id) n.(NewAdapterInstance.pid)
    n.(NewAdapterInstance.process_start_identity) n.(NewAdapterInstance.state) n.(NewAdapterInstance.exit_reason)
    n.(NewAdapterInstance.last_heartbeat_ms) n.(NewAdapterInstance.started_at_ms) n.(NewAdapterInstance.ended_at_ms).

Definition adapters_insert_instance (n : NewAdapterInstance) : M unit :=
  let! d := query (fun d => d) in
  do! constraints
    [ (bool_decide (n.(NewAdapterInstance.state) ∈ instance_states), check_failure);
      (absent n.(NewAdapterInstance.adapter_instance_id) d.(adapter_instances), primary_key_failure);
      (fk_ok (Some (n.(NewAdapterInstance.adapter_id), n.(NewAdapterInstance.adapter_version),
                    n.(NewAdapterInstance.bundle_digest))) d.(registrations), foreign_key_failure) ] in
  update_db (fun d => set_adapter_instances
    (<[n.(NewAdapterInstance.adapter_instance_id) := instance_row_of_new n]> d.(adapter_instances)) d).

Definition apply_instance_patch (p : AdapterInstanceStatePatch) (r : AdapterInstanceRow) : AdapterInstanceRow :=
  AdapterInstanceRow.mk r.(AdapterInstanceRow.adapter_instance_id) r.(AdapterInstanceRow.adapter_id)
    r.(AdapterInstanceRow.adapter_version) r.(AdapterInstanceRow.bundle_digest)
    r.(AdapterInstanceRow.daemon_instance_id) r.(AdapterInstanceRow.pid)
    r.(AdapterInstanceRow.process_start_identity)
    (coalesce p.(AdapterInstanceStatePatch.state) r.(AdapterInstanceRow.state))
    (coalesce_opt p.(AdapterInstanceStatePatch.exit_reason) r.(AdapterInstanceRow.exit_reason))
    (coalesce_opt p.(AdapterInstanceStatePatch.last_heartbeat_ms) r.(AdapterInstanceRow.last_heartbeat_ms))
    r.(AdapterInstanceRow.started_at_ms)
    (coalesce_opt p.(AdapterInstanceStatePatch.ended_at_ms) r.(AdapterInstanceRow.ended_at_ms)).

Definition adapters_cas_instance_state (id : AdapterInstanceId) (expect_state : string)
    (patch : AdapterInstanceStatePatch) : M bool :=
  let! row := query (fun d => d.(adapter_instances) !! id) in
  match row with
  | None => ret false
  | Some r =>
      let! _ := lift_res (decode_instance r) in
      if bool_decide (r.(AdapterInstanceRow.state) = expect_state) then
        let r' := apply_instance_patch patch r in
        do! constraints [ (bool_decide (r'.(AdapterInstanceRow.state) ∈ instance_states), check_failure) ] in
        do! update_db (fun d => set_adapter_instances (<[id := r']> d.(adapter_instances)) d) in
        ret true
      else ret false
  end.

(** ** Configuration ([repos/config.rs]) *)

Definition validation_states : list string := ["proposed"; "validated"; "rejected"].
Definition test_states : list string := ["untested"; "passed"; "failed"].

Definition config_get_generation (id : ConfigGenerationId) : M (option ConfigGenerationRow) :=
  query (fun d => d.(config_generations) !! id).

Definition config_get_generation_by_digest (digest : string) : M (option ConfigGenerationRow) :=
  query (fun d => head (select (fun r => bool_decide (r.(ConfigGenerationRow.digest) = digest)) d.(config_generations))).

Definition decode_active (r : ActiveConfigGenerationRow) : Res ActiveConfigGenerationRow :=
  let? _ := u64_column "active_config_generation" "revision" r.(ActiveConfigGenerationRow.revision) in Ok r.

Definition config_get_active : M (option ActiveConfigGenerationRow) :=
  let! row := query active_config in lift_res (opt_traverse decode_active row).

Definition generation_row_of_new (n : NewConfigGeneration) : ConfigGenerationRow :=
  ConfigGenerationRow.mk n.(NewConfigGeneration.generation_id) n.(NewConfigGeneration.digest)
    n.(NewConfigGeneration.document) n.(NewConfigGeneration.validation_state) n.(NewConfigGeneration.test_state)
    n.(NewConfigGeneration.created_by_actor_id) n.(NewConfigGeneration.created_at_ms).

Definition config_insert_generation (n : NewConfigGeneration) : M unit :=
  let! d := query (fun d => d) in
  do! constraints
    [ (bool_decide (n.(NewConfigGeneration.validation_state) ∈ validation_states), check_failure);
      (bool_decide (n.(NewConfigGeneration.test_state) ∈ test_states), check_failure);
      (absent n.(NewConfigGeneration.generation_id) d.(config_generations), primary_key_failure);
      (none_such (fun r => bool_decide (r.(ConfigGenerationRow.digest) = n.(NewConfigGeneration.digest)))
         d.(config_generations), unique_failure) ] in
  update_db (fun d => set_config_generations
    (<[n.(NewConfigGeneration.generation_id) := generation_row_of_new n]> d.(config_generations)) d).

Definition generation_not_found : KernelError := kerr NotFound "config generation not found".

Definition set_states (v t : option string) (r : ConfigGenerationRow) : ConfigGenerationRow :=
  ConfigGenerationRow.mk r.(ConfigGenerationRow.generation_id) r.(ConfigGenerationRow.digest)
    r.(ConfigGenerationRow.document) (coalesce v r.(ConfigGenerationRow.validation_state))
    (coalesce t r.(ConfigGenerationRow.test_state)) r.(ConfigGenerationRow.created_by_actor_id)
    r.(ConfigGenerationRow.created_at_ms).

Definition config_set_generation_states (id : ConfigGenerationId) (v t : option string) : M unit :=
  let! row := query (fun d => d.(config_generations) !! id) in
  match row with
  | None => raise generation_not_found
  | Some r =>
      let r' := set_states v t r in
      do! constraints
        [ (bool_decide (r'.(ConfigGenerationRow.validation_state) ∈ validation_states), check_failure);
          (bool_decide (r'.(ConfigGenerationRow.test_state) ∈ test_states), check_failure) ] in
      update_db (fun d => set_config_generations (<[id := r']> d.(config_generations)) d)
  end.

Definition config_cas_active (expected_revision : Z) (generation : ConfigGenerationId) (activated_at_ms : Z) : M bool :=
  let! row := query active_config in
  let! current := match row with
                  | Some r => lift_res (u64_column "active_config_generation" "revision" r.(ActiveConfigGenerationRow.revision))
                  | None => ret 0
                  end in
  if negb (current =? expected_revision) then ret false
  else
    let! row := query (fun d => d.(config_generations) !! generation) in
    match row with
    | None => raise generation_not_found
    | Some _ =>
        let! next := lift_res (encode_u64 "active_config_generation.revision" (u64_saturating_add expected_revision 1)) in
        do! update_db (fun d => set_active_config
              (Some (ActiveConfigGenerationRow.mk generation next activated_at_ms)) d) in
        ret true
    end.

(** ** Footprints *)

Lemma workspaces_get_touches id : touches no_table (workspaces_get id).
Proof. unfold workspaces_get. store_touches. Qed.
Lemma workspaces_insert_touches n : touches set_workspaces (workspaces_insert n).
Proof. unfold workspaces_insert. store_touches. Qed.
Lemma leases_get_touches id : touches no_table (leases_get id).
Proof. unfold leases_get. store_touches. Qed.
Lemma leases_insert_touches n : touches set_workspace_leases (leases_insert n).
Proof. unfold leases_insert. store_touches. Qed.
Lemma leases_cas_touches id e p : touches set_workspace_leases (leases_cas id e p).
Proof. unfold leases_cas. store_touches. Qed.
Lemma artifacts_get_by_id_touches id : touches no_table (artifacts_get_by_id id).
Proof. unfold artifacts_get_by_id. store_touches. Qed.
Lemma artifacts_get_by_uri_touches u : touches no_table (artifacts_get_by_uri u).
Proof. unfold artifacts_get_by_uri. store_touches. Qed.
Lemma artifacts_insert_touches n : touches set_artifacts (artifacts_insert n).
Proof. unfold artifacts_insert. store_touches. Qed.
Lemma adapters_list_registrations_touches : touches no_table adapters_list_registrations.
Proof. unfold adapters_list_registrations. store_touches. Qed.
Lemma adapters_insert_registration_touches n : touches set_registrations (adapters_insert_registration n).
Proof. unfold adapters_insert_registration. store_touches. Qed.
Lemma adapters_set_conformance_state_touches a v d s : touches set_registrations (adapters_set_conformance_state a v d s).
Proof. unfold adapters_set_conformance_state. store_touches. Qed.
Lemma adapters_get_conformance_report_touches a v d : touches no_table (adapters_get_conformance_report a v d).
Proof. unfold adapters_get_conformance_report. store_touches. Qed.
Lemma adapters_insert_conformance_report_touches n : touches set_conformance_reports (adapters_insert_conformance_report n).
Proof. unfold adapters_insert_conformance_report. store_touches. Qed.
Lemma adapters_get_instance_touches id : touches no_table (adapters_get_instance id).
Proof. unfold adapters_get_instance. store_touches. Qed.
Lemma adapters_insert_instance_touches n : touches set_adapter_instances (adapters_insert_instance n).
Proof. unfold adapters_insert_instance. store_touches. Qed.
Lemma adapters_cas_instance_state_touches id e p : touches set_adapter_instances (adapters_cas_instance_state id e p).
Proof. unfold adapters_cas_instance_state. store_touches. Qed.
Lemma config_get_generation_touches id : touches no_table (config_get_generation id).
Proof. unfold config_get_generation. store_touches. Qed.
Lemma config_get_generation_by_digest_touches g : touches no_table (config_get_generation_by_digest g).
Proof. unfold config_get_generation_by_digest. store_touches. Qed.
Lemma config_get_active_touches : touches no_table config_get_active.
Proof. unfold config_get_active. store_touches. Qed.
Lemma config_insert_generation_touches n : touches set_config_generations (config_insert_generation n).
Proof. unfold config_insert_generation. store_touches. Qed.
Lemma config_set_generation_states_touches id v t : touches set_config_generations (config_set_generation_states id v t).
Proof. unfold config_set_generation_states. store_touches. Qed.
Lemma config_cas_active_touches e g ms : touches set_active_config (config_cas_active e g ms).
Proof. unfold config_cas_active. store_touches. Qed.

#[export] Hint Resolve workspaces_get_touches workspaces_insert_touches leases_get_touches leases_insert_touches
  leases_cas_touches artifacts_get_by_id_touches artifacts_get_by_uri_touches artifacts_insert_touches
  adapters_list_registrations_touches adapters_insert_registration_touches adapters_set_conformance_state_touches
  adapters_get_conformance_report_touches adapters_insert_conformance_report_touches adapters_get_instance_touches
  adapters_insert_instance_touches adapters_cas_instance_state_touches config_get_generation_touches
  config_get_generation_by_digest_touches config_get_active_touches config_insert_generation_touches
  config_set_generation_states_touches config_cas_active_touches : touches.
