(* ===== verification/Ledger.v ===== *)
(** * Records that are only ever added

    The idempotency records, the decisions, the approval requests and their
    responses are append-only: no operation of the store changes or removes a
    row.  [ledger_rel] says so of two databases, [ledger_inv] says what every
    stored approval looks like. *)

From S2P Require Import Prelude Domain Ids Models StoreBase Store SecurityStore.

Open Scope Z_scope.

Record ledger_inv (d : Db) : Prop := {
  li_approval : forall id r, d.(approval_requests) !! id = Some r ->
    r.(ApprovalRequestRow.request_id) = id /\ r.(ApprovalRequestRow.state) = ApprovalState.Pending;
  li_response : forall id r, d.(approval_responses) !! id = Some r ->
    r.(ApprovalResponseRow.request_id) = id /\ is_Some (d.(approval_requests) !! id) }.

Record ledger_grows (d d' : Db) : Prop := {
  lg_fence : forall f, d.(daemon_fence) = Some f ->
    exists f', d'.(daemon_fence) = Some f' /\ f.(fence_epoch) <= f'.(fence_epoch);
  lg_records : d.(idempotency_records) ⊆ d'.(idempotency_records);
  lg_decisions : d.(decisions) ⊆ d'.(decisions);
  lg_approvals : d.(approval_requests) ⊆ d'.(approval_requests);
  lg_responses : d.(approval_responses) ⊆ d'.(approval_responses) }.

Definition ledger_rel (d d' : Db) : Prop := ledger_grows d d' /\ (ledger_inv d -> ledger_inv d').

Lemma same_fence d f :
  d.(daemon_fence) = Some f -> exists f', d.(daemon_fence) = Some f' /\ f.(fence_epoch) <= f'.(fence_epoch).
Proof. intros Hf. exists f. split; [done|lia]. Qed.

#[export] Instance ledger_rel_preorder : PreOrder ledger_rel.
Proof.
  split.
  - intros d. split; [|done]. split; try done. apply same_fence.
  - intros d1 d2 d3 [[F1 ? ? ? ?] ?] [[F2 ? ? ? ?] ?]. split; [split; [|by etransitivity..]|auto].
    intros f Hf. destruct (F1 f Hf) as (f1 & Hf1 & Hle1). destruct (F2 f1 Hf1) as (f2 & Hf2 & Hle2).
    exists f2. split; [done|lia].
Qed.

Lemma ledger_rel_frame d d' :
  d.(daemon_fence) = d'.(daemon_fence) -> d.(idempotency_records) = d'.(idempotency_records) ->
  d.(decisions) = d'.(decisions) -> d.(approval_requests) = d'.(approval_requests) ->
  d.(approval_responses) = d'.(approval_responses) -> ledger_rel d d'.
Proof.
  intros E1 E2 E3 E4 E5. split; [split; rewrite ?E2, ?E3, ?E4, ?E5; try done|].
  { rewrite <- E1. apply same_fence. }
  intros [L1 L2]. split; rewrite <- ?E4, <- ?E5; auto.
Qed.
#[export] Hint Extern 1 (ledger_rel _ _) => apply ledger_rel_frame; reflexivity : frame.

(** ** The inserts *)

Lemma idempotency_insert_inv n t u t' :
  idempotency_insert n t = (Ok u, t') ->
  t.(t_db).(idempotency_records) !! (n.(NewIdempotencyRecord.principal_id), n.(NewIdempotencyRecord.idempotency_key))
    = None /\
  t' = set_db (set_idempotency_records (<[(n.(NewIdempotencyRecord.principal_id),
    n.(NewIdempotencyRecord.idempotency_key)) := record_row_of_new n]> t.(t_db).(idempotency_records)) t.(t_db)) t.
Proof.
  unfold idempotency_insert. intros E. inv_store. split; [|done].
  rename select (absent _ _ = true) into Ha. by apply absent_true in Ha.
Qed.

Lemma idempotency_insert_ledger n : ensures (on_db ledger_rel) (idempotency_insert n).
Proof.
  intros t u t' [Hn ->]%idempotency_insert_inv. split; [|done].
  split; [split; simpl; try done; [apply same_fence|by apply insert_subseteq]|]. intros [L1 L2]. by split.
Qed.

Lemma decisions_insert_ledger n : ensures (on_db ledger_rel) (decisions_insert n).
Proof.
  intros t u t' E. unfold decisions_insert in E. inv_store. split; [|done].
  split; [split; simpl; try done|intros [L1 L2]; by split]; [apply same_fence|].
  apply insert_subseteq. rename select (absent _ (decisions _) = true) into Ha. by apply absent_true in Ha.
Qed.

Lemma security_insert_approval_request_ledger n :
  n.(NewApprovalRequest.state) = ApprovalState.Pending ->
  ensures (on_db ledger_rel) (security_insert_approval_request n).
Proof.
  intros Hp t u t' E. unfold security_insert_approval_request in E. inv_store. split; [|done].
  rename select (absent _ _ = true) into Ha. apply absent_true in Ha.
  split; [split; simpl; try done; [apply same_fence|by apply insert_subseteq]|]. intros [L1 L2]. split; simpl.
  - intros id r [[<- <-]|[_ Hr]]%lookup_insert_Some; [done|by apply L1].
  - intros id r Hr. destruct (L2 _ _ Hr) as [Hi Hs]. split; [done|].
    destruct (decide (n.(NewApprovalRequest.request_id) = id)) as [->|Hne];
      [rewrite lookup_insert_eq; eauto|by rewrite lookup_insert_ne].
Qed.

Lemma security_insert_approval_response_ledger n : ensures (on_db ledger_rel) (security_insert_approval_response n).
Proof.
  intros t u t' E. unfold security_insert_approval_response in E. inv_store. split; [|done].
  rename select (absent _ _ = true) into Ha. apply absent_true in Ha.
  rename select (match _ with Some _ => true | None => false end = true) into Hf.
  change (fk_ok (Some n.(NewApprovalResponse.request_id)) (approval_requests (t_db x0)) = true) in Hf.
  apply fk_ok_some in Hf.
  split; [split; simpl; try done; [apply same_fence|by apply insert_subseteq]|]. intros [L1 L2]. split; simpl; [done|].
  intros id r [[<- <-]|[_ Hr]]%lookup_insert_Some; [done|by apply L2].
Qed.

#[export] Hint Resolve idempotency_insert_ledger decisions_insert_ledger
  security_insert_approval_request_ledger security_insert_approval_response_ledger : ensures.
