(* ===== verification/Identity.v ===== *)
(** * Capabilities, grant scopes and delegation chains ([identity/src/delegation.rs])

    Capabilities are family/action pairs of the contract; a grant carries one
    capability and a scope blob; a delegation hop holds grants and exactly the
    capabilities they carry; a chain may only narrow authority from hop to
    hop. *)

From S2P Require Import Prelude Domain Ids Text Models StoreBase Store SecurityStore.

Open Scope string_scope.
Open Scope Z_scope.

(** ** Capabilities *)

Module CapabilityFamily.
Inductive CapabilityFamily :=
  | Workspace | Network | Secret | Agent | Extension | Config | Effect | Resource.
End CapabilityFamily.
Abbreviation CapabilityFamily := CapabilityFamily.CapabilityFamily.

Module CapabilityAction.
Inductive CapabilityAction :=
  | Read | Write | Fork | Merge | TransferExclusive | SharedCoordinated | Connect | Use | SignOrAct
  | Spawn | Install | Enable | Disable | Propose | Test | Activate | Rollback | Reconcile
  | ResolveUnknown | Reserve.
End CapabilityAction.
Abbreviation CapabilityAction := CapabilityAction.CapabilityAction.

#[export] Instance CapabilityFamily_eq_dec : EqDecision CapabilityFamily.
Proof. solve_decision. Defined.
#[export] Instance CapabilityAction_eq_dec : EqDecision CapabilityAction.
Proof. solve_decision. Defined.

Definition all_families : list CapabilityFamily :=
  [ CapabilityFamily.Workspace; CapabilityFamily.Network; CapabilityFamily.Secret; CapabilityFamily.Agent;
    CapabilityFamily.Extension; CapabilityFamily.Config; CapabilityFamily.Effect; CapabilityFamily.Resource ].

Definition all_actions : list CapabilityAction :=
  [ CapabilityAction.Read; CapabilityAction.Write; CapabilityAction.Fork; CapabilityAction.Merge;
    CapabilityAction.TransferExclusive; CapabilityAction.SharedCoordinated; CapabilityAction.Connect;
    CapabilityAction.Use; CapabilityAction.SignOrAct; CapabilityAction.Spawn; CapabilityAction.Install;
    CapabilityAction.Enable; CapabilityAction.Disable; CapabilityAction.Propose; CapabilityAction.Test;
    CapabilityAction.Activate; CapabilityAction.Rollback; CapabilityAction.Reconcile;
    CapabilityAction.ResolveUnknown; CapabilityAction.Reserve ].

Definition family_as_str (f : CapabilityFamily) : string :=
  match f with
  | CapabilityFamily.Workspace => "workspace"
  | CapabilityFamily.Network => "network"
  | CapabilityFamily.Secret => "secret"
  | CapabilityFamily.Agent => "agent"
  | CapabilityFamily.Extension => "extension"
  | CapabilityFamily.Config => "config"
  | CapabilityFamily.Effect => "effect"
  | CapabilityFamily.Resource => "resource"
  end.

Definition action_as_str (a : CapabilityAction) : string :=
  match a with
  | CapabilityAction.Read => "read"
  | CapabilityAction.Write => "write"
  | CapabilityAction.Fork => "fork"
  | CapabilityAction.Merge => "merge"
  | CapabilityAction.TransferExclusive => "transfer_exclusive_write"
  | CapabilityAction.SharedCoordinated => "shared_coordinated_write"
  | CapabilityAction.Connect => "connect"
  | CapabilityAction.Use => "use"
  | CapabilityAction.SignOrAct => "sign_or_act"
  | CapabilityAction.Spawn => "spawn"
  | CapabilityAction.Install => "install"
  | CapabilityAction.Enable => "enable"
  | CapabilityAction.Disable => "disable"
  | CapabilityAction.Propose => "propose"
  | CapabilityAction.Test => "test"
  | CapabilityAction.Activate => "activate"
  | CapabilityAction.Rollback => "rollback"
  | CapabilityAction.Reconcile => "reconcile"
  | CapabilityAction.ResolveUnknown => "resolve_unknown"
  | CapabilityAction.Reserve => "reserve"
  end.

(** [FromStr]: the constructor whose token the text is. *)
Definition family_from_str (text : string) : option CapabilityFamily :=
  List.find (fun f => bool_decide (family_as_str f = text)) all_families.
Definition action_from_str (text : string) : option CapabilityAction :=
  List.find (fun a => bool_decide (action_as_str a = text)) all_actions.

Record Capability := mkCapability { family : CapabilityFamily; action : CapabilityAction }.

#[export] Instance Capability_eq_dec : EqDecision Capability.
Proof. solve_decision. Defined.

Definition is_supported (c : Capability) : bool :=
  match c.(family), c.(action) with
  | CapabilityFamily.Workspace,
    (CapabilityAction.Read | CapabilityAction.Write | CapabilityAction.Fork | CapabilityAction.Merge |
     CapabilityAction.TransferExclusive | CapabilityAction.SharedCoordinated) => true
  | CapabilityFamily.Network, CapabilityAction.Connect => true
  | CapabilityFamily.Secret, (CapabilityAction.Use | CapabilityAction.SignOrAct) => true
  | CapabilityFamily.Agent, CapabilityAction.Spawn => true
  | CapabilityFamily.Extension,
    (CapabilityAction.Install | CapabilityAction.Enable | CapabilityAction.Disable) => true
  | CapabilityFamily.Config,
    (CapabilityAction.Propose | CapabilityAction.Test | CapabilityAction.Activate |
     CapabilityAction.Rollback) => true
  | CapabilityFamily.Effect, (CapabilityAction.Reconcile | CapabilityAction.ResolveUnknown) => true
  | CapabilityFamily.Resource, CapabilityAction.Reserve => true
  | _, _ => false
  end.

Definition capability_to_string (c : Capability) : string :=
  family_as_str c.(family) +:+ "." +:+ action_as_str c.(action).

Definition capability_from_str (text : string) : option Capability :=
  '(f, a) ← split_once "." text;
  f ← family_from_str f;
  a ← action_from_str a;
  let c := mkCapability f a in
  if is_supported c then Some c else None.

(** ** Sets of capabilities

    [BTreeSet<Capability>], in its iteration order: by family, then action,
    in the order of declaration. *)

Fixpoint index_of {A} `{!EqDecision A} (x : A) (l : list A) : nat :=
  match l with [] => 0%nat | y :: l => if decide (x = y) then 0%nat else S (index_of x l) end.

Definition capability_rank (c : Capability) : nat :=
  (index_of c.(family) all_families * 20 + index_of c.(action) all_actions)%nat.

Definition capability_le (x y : Capability) : Prop := (capability_rank x <= capability_rank y)%nat.
#[export] Instance capability_le_dec : RelDecision capability_le.
Proof. intros x y. unfold capability_le. apply _. Defined.

Definition capability_set (l : list Capability) : list Capability := merge_sort capability_le (remove_dups l).

Definition is_subset (xs ys : list Capability) : bool := forallb (fun x => bool_decide (x ∈ ys)) xs.

(** ** Scopes *)

Inductive ScopedTarget :=
  | TargetWorkspace (uri : string) (path : option string)
  | TargetNetwork (domains : list string)
  | TargetSecret (uri : string) (egress : option (list string))
  | TargetConfig (operation : CapabilityAction)
  | TargetChildCount (max : Z)
  | TargetNone.

Record GrantScope := mkGrantScope {
  gs_grant_id : CapabilityGrantId;
  gs_capability : Capability;
  gs_scope : option ScopedTarget;
  gs_expires_at_ms : option Z }.

Definition integrity (message : string) : KernelError := kerr FailedPrecondition message.

Definition SCOPE_CODEC_TAG : string := "agentd-grant-scope-v1".

Definition TAB : ascii := "009"%char.
Definition NEWLINE : ascii := "010"%char.

Definition scope_fields (scope : ScopedTarget) : list string :=
  match scope with
  | TargetWorkspace uri path =>
      ["workspace"; uri] ++ match path with Some path => [path] | None => [] end
  | TargetNetwork domains =>
      ["network"; u64_to_string (Z.of_nat (length domains))] ++ domains
  | TargetSecret uri egress =>
      ["secret"; uri] ++
      match egress with
      | None => ["0"]
      | Some egress => ["1"; u64_to_string (Z.of_nat (length egress))] ++ egress
      end
  | TargetConfig operation => ["config"; action_as_str operation]
  | TargetChildCount max => ["child_count"; u64_to_string max]
  | TargetNone => ["none"]
  end%list.

Definition encode_grant_scope (scope : option ScopedTarget) : bytes :=
  match scope with
  | None => []
  | Some scope =>
      into_bytes (join_with (String TAB "") (SCOPE_CODEC_TAG :: scope_fields scope) +:+ String NEWLINE "")
  end.

Definition scope_text (value : string) : Res string :=
  if str_is_empty value || chars_any is_control value
  then Err (integrity "grant scope field is not canonical text") else Ok value.

(** [fields.next()] through [scope_field]: the field and the ones left. *)
Definition scope_field (fields : list string) : Res (string * list string) :=
  match fields with
  | [] => Err (integrity "grant scope blob is missing a field")
  | value :: fields => let? value := scope_text value in Ok (value, fields)
  end.

Definition usize_max : Z := u64_max.

Definition scope_count (fields : list string) : Res (Z * list string) :=
  let? field := scope_field fields in
  let? count := ok_or (parse_unsigned usize_max (fst field))
    (integrity "grant scope list count is not a number") in
  Ok (count, snd field).

(** [for _ in 0..count { domains.push(scope_field(&mut fields)?) }]. *)
Fixpoint take_fields (count : Z) (fields : list string) : Res (list string * list string) :=
  if count <=? 0 then Ok ([], fields)
  else match fields with
       | [] => Err (integrity "grant scope blob is missing a field")
       | value :: fields =>
           let? value := scope_text value in
           let? rest := take_fields (count - 1) fields in
           Ok (value :: fst rest, snd rest)
       end.

Definition no_more_fields (fields : list string) : Res unit :=
  match fields with [] => Ok tt | _ => Err (integrity "grant scope blob has trailing fields") end.

Definition decode_scope_fields (kind : string) (fields : list string) : Res ScopedTarget :=
  if decide (kind = "workspace") then
    let? uri := scope_field fields in
    let? path := match snd uri with
                 | [] => Ok (None, [])
                 | path :: fields => let? path := scope_text path in Ok (Some path, fields)
                 end in
    let? _ := no_more_fields (snd path) in
    Ok (TargetWorkspace (fst uri) (fst path))
  else if decide (kind = "network") then
    let? count := scope_count fields in
    let? domains := take_fields (fst count) (snd count) in
    let? _ := no_more_fields (snd domains) in
    Ok (TargetNetwork (fst domains))
  else if decide (kind = "secret") then
    let? uri := scope_field fields in
    let? marker := scope_field (snd uri) in
    let? egress :=
      (if decide (fst marker = "0") then Ok (None, snd marker)
       else if decide (fst marker = "1") then
         let? count := scope_count (snd marker) in
         let? domains := take_fields (fst count) (snd count) in
         Ok (Some (fst domains), snd domains)
       else Err (integrity "grant scope egress marker is not recognized")) in
    let? _ := no_more_fields (snd egress) in
    Ok (TargetSecret (fst uri) (fst egress))
  else if decide (kind = "config") then
    let? token := scope_field fields in
    let? operation := ok_or (action_from_str (fst token))
      (integrity "grant scope config action is not recognized") in
    let? _ := no_more_fields (snd token) in
    Ok (TargetConfig operation)
  else if decide (kind = "child_count") then
    let? max := scope_field fields in
    let? count := ok_or (parse_unsigned u32_max (fst max))
      (integrity "grant scope child count is not a number") in
    let? _ := no_more_fields (snd max) in
    Ok (TargetChildCount count)
  else if decide (kind = "none") then
    let? _ := no_more_fields fields in Ok TargetNone
  else Err (integrity "grant scope blob has an unrecognized scope kind").

Definition decode_grant_scope (blob : bytes) : Res (option ScopedTarget) :=
  match blob with
  | [] => Ok None
  | _ =>
      let? text := ok_or (from_utf8 blob) (integrity "grant scope blob is not canonical UTF-8 text") in
      let? line := ok_or (strip_suffix (String NEWLINE "") text)
        (integrity "grant scope blob is not newline-terminated") in
      match split_on TAB line with
      | tag :: fields =>
          if negb (bool_decide (tag = SCOPE_CODEC_TAG))
          then Err (integrity "grant scope blob has an unrecognized codec tag")
          else match fields with
               | [] => Err (integrity "grant scope blob has no scope kind")
               | kind :: fields => res_map Some (decode_scope_fields kind fields)
               end
      | [] => Err (integrity "grant scope blob has an unrecognized codec tag")
      end
  end.

(** ** Hops and chains *)

Record Hop := mkHop {
  hop_index : Z;
  hop_actor_id : ActorId;
  hop_run_id : option RunId;
  hop_grant_ids : list CapabilityGrantId;
  hop_capabilities : list Capability }.

Record DelegationChain := mkDelegationChain { chain_id : DelegationChainId; hops : list Hop }.

(** [hop_capabilities]: the shape of one hop, and its capability set. *)
Definition hop_capability_set (hop : Hop) : Res (list Capability) :=
  let grants := remove_dups hop.(hop_grant_ids) in
  let capabilities := capability_set hop.(hop_capabilities) in
  if negb (length grants =? length hop.(hop_grant_ids))%nat
  then Err (integrity "delegation hop repeats a grant identifier")
  else if negb (length capabilities =? length hop.(hop_capabilities))%nat
  then Err (integrity "delegation hop repeats a capability")
  else if negb (length capabilities =? 0)%nat && (length grants =? 0)%nat
  then Err (integrity "delegation hop claims capabilities without grant identifiers")
  else if (length grants <? length capabilities)%nat
  then Err (integrity "delegation hop claims more capabilities than its grants")
  else Ok capabilities.

(** The loop of [validate_chain] from [position] with the parent's set. *)
Fixpoint validate_hops (position : Z) (previous : option (list Capability)) (hops : list Hop) : Res unit :=
  match hops with
  | [] => Ok tt
  | hop :: hops =>
      if negb ((position <=? u32_max) && (position =? hop.(hop_index)))
      then Err (integrity "delegation hop index is not the next contiguous position")
      else
      let? capabilities := hop_capability_set hop in
      if match previous with Some parent => negb (is_subset capabilities parent) | None => false end
      then Err (integrity "delegation hop capabilities are not a subset of its parent")
      else validate_hops (position + 1) (Some capabilities) hops
  end.

Definition validate_chain (chain : DelegationChain) : Res unit := validate_hops 0 None chain.(hops).

Definition derive_child_chain (parent : DelegationChain) (requested : list Capability)
    : Res (list Capability) :=
  let? _ := validate_chain parent in
  let parent_capabilities := match list.last parent.(hops) with Some hop => hop.(hop_capabilities) | None => [] end in
  if forallb (fun c => bool_decide (c ∈ parent_capabilities)) requested
  then Ok (capability_set requested)
  else Err (kerr InvalidArgument "requested capability is not held by the parent chain").

Definition parse_capability (capability_id : string) : Res Capability :=
  ok_or (capability_from_str capability_id)
    (integrity "delegation hop grant carries an unrecognized capability").

Definition earlier (first second : option Z) : option Z :=
  match first, second with
  | Some first, Some second => Some (Z.min first second)
  | Some instant, None | None, Some instant => Some instant
  | None, None => None
  end.

Definition GRANT_ID_WIDTH : nat := 36.

Section Chains.
Context `{!Ext}.

Definition encode_grant_ids (grant_ids : list CapabilityGrantId) : bytes :=
  concat ((fun id => into_bytes (uuid_hyphenated id)) <$> grant_ids).

(** [blob.chunks_exact(36)] with as many chunks as the length allows. *)
Fixpoint decode_chunks (count : nat) (blob : bytes) : Res (list CapabilityGrantId) :=
  match count with
  | O => Ok []
  | S count =>
      let? text := ok_or (from_utf8 (take GRANT_ID_WIDTH blob))
        (integrity "delegation hop grant list is not canonical text") in
      let? id := ok_or (uuid_v7_from_str text)
        (integrity "delegation hop grant list contains an invalid identifier") in
      let? rest := decode_chunks count (drop GRANT_ID_WIDTH blob) in
      Ok (id :: rest)
  end.

Definition decode_grant_ids (blob : bytes) : Res (list CapabilityGrantId) :=
  if negb (Nat.modulo (length blob) GRANT_ID_WIDTH =? 0)%nat
  then Err (integrity "delegation hop grant list is not a sequence of identifiers")
  else decode_chunks (Nat.div (length blob) GRANT_ID_WIDTH) blob.

Definition load_grant_scopes (grant_ids : list CapabilityGrantId) : M (list GrantScope) :=
  collect_each grant_ids (fun grant_id =>
    let! got := security_get_grant grant_id in
    let! row := lift_res (ok_or got (integrity "grant scope load references a missing grant")) in
    let! capability := lift_res (parse_capability row.(CapabilityGrantRow.capability_id)) in
    let! scope := lift_res (decode_grant_scope row.(CapabilityGrantRow.scope)) in
    ret (mkGrantScope row.(CapabilityGrantRow.grant_id) capability scope
           (earlier row.(CapabilityGrantRow.expires_at_ms) row.(CapabilityGrantRow.revoked_at_ms)))).

(** The capabilities the grants of a hop carry. *)
Definition grant_capabilities (grant_ids : list CapabilityGrantId) : M (list Capability) :=
  collect_each grant_ids (fun grant_id =>
    let! got := security_get_grant grant_id in
    let! grant := lift_res (ok_or got (integrity "delegation hop references a missing grant")) in
    lift_res (parse_capability grant.(CapabilityGrantRow.capability_id))).

Definition load_hop (row : DelegationHopRow) : M Hop :=
  let! grant_ids := lift_res (decode_grant_ids row.(DelegationHopRow.capability_grant_ids)) in
  let! capabilities := grant_capabilities grant_ids in
  let! actor_id := lift_res (ok_or (uuid_v7_from_str row.(DelegationHopRow.principal_or_actor_id))
    (integrity "delegation hop actor is not a valid identifier")) in
  ret (mkHop row.(DelegationHopRow.hop_index) actor_id row.(DelegationHopRow.run_id) grant_ids
         (capability_set capabilities)).

Definition load_chain (chain : DelegationChainId) : M DelegationChain :=
  let! rows := security_list_delegation_hops chain in
  let! hops := collect_each rows load_hop in
  let chain := mkDelegationChain chain hops in
  let! _ := lift_res (validate_chain chain) in
  ret chain.

(** A hop's grants exist and carry exactly the capabilities it declares. *)
Definition resolve_hop (hop : Hop) : M (list Capability) :=
  let! declared := lift_res (hop_capability_set hop) in
  let! derived := grant_capabilities hop.(hop_grant_ids) in
  guard! bool_decide (capability_set derived = declared)
    else integrity "delegation hop capabilities do not match its grants" in
  ret (capability_set derived).

Definition persist_hop (chain : DelegationChainId) (hop : Hop) : M unit :=
  let! capabilities := resolve_hop hop in
  let! existing := load_chain chain in
  let count := Z.of_nat (length existing.(hops)) in
  guard! count <=? u32_max else integrity "delegation chain exceeds the hop index range" in
  guard! hop.(hop_index) =? count else integrity "delegation hop does not extend the chain in order" in
  guard! match list.last existing.(hops) with
         | Some parent => is_subset capabilities parent.(hop_capabilities)
         | None => true
         end
    else integrity "delegation hop capabilities are not a subset of its parent" in
  security_insert_delegation_hop (NewDelegationHop.mk chain hop.(hop_index)
    (uuid_hyphenated hop.(hop_actor_id)) hop.(hop_run_id) (encode_grant_ids hop.(hop_grant_ids))).
End Chains.

(** ** Tokens *)

Lemma action_round_trip a : action_from_str (action_as_str a) = Some a.
Proof. by destruct a. Qed.

Lemma capability_round_trip c : is_supported c = true -> capability_from_str (capability_to_string c) = Some c.
Proof. destruct c as [[] []]; intros Hs; first [discriminate Hs | vm_compute; reflexivity]. Qed.

(** ** The scope codec *)

(** A field the grammar accepts: UTF-8 text, not empty, no control character. *)
Definition canonical_field (w : string) : bool := negb (str_is_empty w) && negb (chars_any is_control w).

Definition canonical_scope (scope : ScopedTarget) : bool :=
  match scope with
  | TargetWorkspace uri path => canonical_field uri && match path with Some p => canonical_field p | None => true end
  | TargetNetwork domains => forallb canonical_field domains && (Z.of_nat (length domains) <=? usize_max)
  | TargetSecret uri egress =>
      canonical_field uri &&
      match egress with
      | Some domains => forallb canonical_field domains && (Z.of_nat (length domains) <=? usize_max)
      | None => true
      end
  | TargetChildCount max => between 0 max u32_max
  | TargetConfig _ | TargetNone => true
  end.

Lemma scope_text_ok w : canonical_field w = true -> scope_text w = Ok w.
Proof.
  unfold canonical_field, scope_text. intros [H1 H2]%andb_prop. by rewrite <- (negb_involutive (str_is_empty w)), H1,
    <- (negb_involutive (chars_any is_control w)), H2.
Qed.

Lemma canonical_field_utf8 w : canonical_field w = true -> is_utf8 w = true.
Proof.
  unfold canonical_field, chars_any, is_utf8. intros [_ Hc]%andb_prop. by destruct (str_chars w).
Qed.

(** A control byte shows up among the characters of a text. *)
Lemma utf8_ascii_elem b l cs : (b < 128)%N -> b ∈ l -> utf8_decode l = Some cs -> b ∈ cs.
Proof.
  intros Hb. revert cs. induction l as [l IH] using (well_founded_induction (well_founded_ltof _ (@length N))).
  unfold ltof in IH. destruct l as [|b1 l1]; intros cs Hin; [by apply elem_of_nil in Hin|].
  assert (Hstep : forall k l, (length l < length (b1 :: l1))%nat -> b ∈ l ->
    (fun cs => k :: cs) <$> utf8_decode l = Some cs -> b ∈ cs).
  { intros k l Hl Hi. destruct (utf8_decode l) as [cs'|] eqn:E; [|done]. intros [= <-].
    apply list_elem_of_further. by eapply (IH l Hl). }
  assert (Hhi : forall x, (128 <=? x)%N = true -> b <> x) by (intros x Hx%N.leb_le; lia).
  assert (Hcont : forall x, continuation x = true -> b <> x).
  { intros x [Hx _]%andb_prop. by apply Hhi. }
  assert (H3 : forall x y, second3 x y = true -> b <> y).
  { intros x y [Hy _]%andb_prop. apply N.leb_le in Hy. destruct (x =? 224)%N; lia. }
  assert (H4 : forall x y, second4 x y = true -> b <> y).
  { intros x y [Hy _]%andb_prop. apply N.leb_le in Hy. destruct (x =? 240)%N; lia. }
  simpl. destruct (N.ltb_spec b1 128) as [Hl|Hl].
  { apply elem_of_cons in Hin as [->|Hi]; [|apply Hstep; [simpl; lia|done]].
    destruct (utf8_decode l1); [|done]. intros [= <-]. apply list_elem_of_here. }
  apply elem_of_cons in Hin as [->|Hin]; [lia|].
  destruct (byte_between 194 223 b1).
  { destruct l1 as [|b2 l1]; [done|]. destruct (continuation b2) eqn:C; [|done]. apply Hcont in C.
    apply elem_of_cons in Hin as [->|Hi]; [done|]. apply Hstep; [simpl; lia|done]. }
  destruct (byte_between 224 239 b1).
  { destruct l1 as [|b2 [|b3 l1]]; try done. destruct (second3 b1 b2 && continuation b3) eqn:C; [|done].
    apply andb_prop in C as [C2%H3 C3%Hcont]. rewrite !elem_of_cons in Hin.
    destruct Hin as [->|[->|Hi]]; try done. apply Hstep; [simpl; lia|done]. }
  destruct (byte_between 240 244 b1); [|done].
  destruct l1 as [|b2 [|b3 [|b4 l1]]]; try done.
  destruct (second4 b1 b2 && continuation b3 && continuation b4) eqn:C; [|done].
  apply andb_prop in C as [[C2%H4 C3%Hcont]%andb_prop C4%Hcont]. rewrite !elem_of_cons in Hin.
  destruct Hin as [->|[->|[->|Hi]]]; try done. apply Hstep; [simpl; lia|done].
Qed.

(** A text none of whose characters satisfies [p] has no ASCII byte that does. *)
Lemma chars_any_no_byte (p : N -> bool) c s :
  chars_any p s = false -> (N_of_ascii c < 128)%N -> p (N_of_ascii c) = true -> no_byte c s = true.
Proof.
  unfold chars_any, str_chars. intros Hc Hlt Hp. destruct (utf8_decode (str_bytes s)) as [cs|] eqn:E; [|done].
  assert (N_of_ascii c ∉ str_bytes s) as Hn.
  { intros Hin. apply (utf8_ascii_elem _ _ cs) in Hin; [|done|done].
    apply not_true_iff_false in Hc. apply Hc, existsb_exists. exists (N_of_ascii c).
    rewrite <- list_elem_of_In. done. }
  clear -Hn. induction s as [|a s IH]; [done|].
  change (str_bytes (String a s)) with (N_of_ascii a :: str_bytes s) in Hn.
  apply not_elem_of_cons in Hn as [Ha Hw]. apply no_byte_cons. split; [congruence|by apply IH].
Qed.

Lemma canonical_field_no_control w c :
  canonical_field w = true -> (N_of_ascii c < 32)%N -> no_byte c w = true.
Proof.
  unfold canonical_field. intros [_ Hc]%andb_prop Hlt. apply negb_true_iff in Hc.
  apply (chars_any_no_byte is_control); [done|lia|]. unfold is_control. by rewrite (proj2 (N.ltb_lt _ _)).
Qed.

(** Text of ASCII bytes that are neither control characters nor absent. *)
Definition plain_byte (c : ascii) : bool := byte_in 32 126 c.

Lemma plain_canonical w : str_is_empty w = false -> str_all plain_byte w = true -> canonical_field w = true.
Proof.
  intros He Hw. unfold canonical_field. rewrite He. simpl. unfold chars_any.
  assert (Ha : is_ascii w = true).
  { eapply str_all_impl; [|exact Hw]. intros c [_ Hc]%andb_prop. apply Nat.leb_le in Hc.
    apply N.ltb_lt. unfold nat_of_ascii in Hc. lia. }
  rewrite (ascii_chars w Ha). apply negb_true_iff, not_true_iff_false. intros (b & Hb & Hc)%existsb_exists.
  unfold str_bytes in Hb. apply list_elem_of_In, list_elem_of_fmap in Hb as (c & -> & Hin).
  unfold str_all in Hw. rewrite forallb_forall in Hw. apply list_elem_of_In, Hw in Hin.
  apply andb_prop in Hin as [H1 H2]. apply Nat.leb_le in H1, H2. unfold nat_of_ascii in *.
  unfold is_control in Hc. apply orb_prop in Hc as [Hc%N.ltb_lt|[Hc%N.leb_le _]%andb_prop]; lia.
Qed.

Lemma u64_text_nonempty z : str_is_empty (u64_to_string z) = false.
Proof.
  unfold u64_to_string. pose proof (to_uint_nonnil (Z.to_N z)).
  by destruct (N.to_uint (Z.to_N z)).
Qed.

Lemma digits_canonical z : canonical_field (u64_to_string z) = true.
Proof.
  apply plain_canonical; [apply u64_text_nonempty|].
  eapply str_all_impl; [|apply u64_to_string_digits]. intros c [H1 H2]%andb_prop.
  apply Nat.leb_le in H1, H2. unfold plain_byte, byte_in. apply andb_true_intro.
  split; apply Nat.leb_le; lia.
Qed.

Lemma parse_unsigned_print max z :
  0 <= z <= max -> max <= u64_max -> parse_unsigned max (u64_to_string z) = Some z.
Proof.
  intros Hz Hm. unfold parse_unsigned. destruct (strip_prefix "+" (u64_to_string z)) as [rest|] eqn:E.
  - exfalso. apply strip_prefix_spec in E. pose proof (u64_to_string_digits z) as Hd. rewrite E in Hd. done.
  - rewrite parse_print_u64 by lia. by rewrite (proj2 (Z.leb_le _ _)) by lia.
Qed.

Lemma take_fields_app l rest :
  forallb canonical_field l = true -> take_fields (Z.of_nat (length l)) (l ++ rest)%list = Ok (l, rest).
Proof.
  induction l as [|w l IH]; intros Hl; [by destruct rest|]. simpl in Hl. apply andb_prop in Hl as [Hw Hl].
  cbn [app length]. change ((w :: l) ++ rest)%list with (w :: (l ++ rest))%list. cbn [take_fields].
  rewrite (proj2 (Z.leb_gt _ _)) by lia. rewrite scope_text_ok by done. simpl.
  replace (Z.of_nat (S (length l)) - 1) with (Z.of_nat (length l)) by lia. by rewrite IH.
Qed.

Lemma scope_field_ok w fields : canonical_field w = true -> scope_field (w :: fields) = Ok (w, fields).
Proof. intros Hw. unfold scope_field. by rewrite scope_text_ok. Qed.

Lemma scope_count_ok n fields :
  Z.of_nat n <= usize_max -> scope_count (u64_to_string (Z.of_nat n) :: fields) = Ok (Z.of_nat n, fields).
Proof.
  intros Hn. unfold scope_count. rewrite scope_field_ok by apply digits_canonical. simpl.
  rewrite parse_unsigned_print; [done|lia|]. unfold usize_max. lia.
Qed.

(** The fields after the kind decode back to the scope. *)
Lemma decode_scope_fields_ok scope :
  canonical_scope scope = true ->
  exists kind fields, scope_fields scope = kind :: fields /\ decode_scope_fields kind fields = Ok scope.
Proof.
  intros Hc. destruct scope as [uri path|domains|uri egress|a|max|]; simpl in Hc; eexists; eexists;
    (split; [reflexivity|]); unfold decode_scope_fields.
  - apply andb_prop in Hc as [Hu Hp]. rewrite decide_True by done. rewrite scope_field_ok by done. simpl.
    destruct path as [p|]; simpl; [|done]. by rewrite scope_text_ok.
  - apply andb_prop in Hc as [Hd Hn%Z.leb_le]. rewrite decide_False, decide_True by done.
    rewrite scope_count_ok by done. simpl. rewrite <- (app_nil_r domains) at 2.
    by rewrite take_fields_app.
  - apply andb_prop in Hc as [Hu He]. do 2 rewrite decide_False by done. rewrite decide_True by done.
    rewrite scope_field_ok by done. simpl. destruct egress as [domains|]; simpl.
    + apply andb_prop in He as [Hd Hn%Z.leb_le].
      rewrite scope_count_ok by done. simpl. rewrite <- (app_nil_r domains) at 2. by rewrite take_fields_app.
    + done.
  - do 3 rewrite decide_False by done. rewrite decide_True by done.
    rewrite scope_field_ok by (by destruct a). simpl. by rewrite action_round_trip.
  - apply andb_prop in Hc as [H1%Z.leb_le H2%Z.leb_le]. do 4 rewrite decide_False by done.
    rewrite decide_True by done. rewrite scope_field_ok by apply digits_canonical. simpl.
    rewrite parse_unsigned_print; [done|lia|]. unfold u32_max, u64_max in *. lia.
  - done.
Qed.

Lemma scope_fields_canonical scope :
  canonical_scope scope = true -> Forall (fun w => canonical_field w = true) (scope_fields scope).
Proof.
  assert (Hall : forall l, forallb canonical_field l = true -> Forall (fun w => canonical_field w = true) l).
  { intros l Hl. apply Forall_forall. intros w Hw. rewrite forallb_forall in Hl. by apply Hl. }
  intros Hc. destruct scope as [uri path|domains|uri egress|a|max|]; simpl in *.
  - apply andb_prop in Hc as [Hu Hp]. destruct path; repeat constructor; done.
  - apply andb_prop in Hc as [Hd _]. repeat constructor; [apply digits_canonical|auto].
  - apply andb_prop in Hc as [Hu He]. destruct egress; repeat constructor; try done.
    + apply digits_canonical.
    + apply andb_prop in He as [Hd _]. auto.
  - repeat constructor. by destruct a.
  - repeat constructor. apply digits_canonical.
  - by repeat constructor.
Qed.

(** The grant-scope codec is a round trip: a scope whose fields are
    canonical decodes back from its own blob, for every kind of scope and for
    the unscoped grant. *)
Theorem grant_scope_roundtrip scope :
  match scope with Some s => canonical_scope s = true | None => True end ->
  decode_grant_scope (encode_grant_scope scope) = Ok scope.
Proof.
  destruct scope as [scope|]; [|done]. intros Hc. unfold encode_grant_scope.
  pose proof (scope_fields_canonical scope Hc) as Hf.
  destruct (decode_scope_fields_ok scope Hc) as (kind & fields & Hk & Hd). rewrite Hk in *.
  assert (Hall : Forall (fun w => canonical_field w = true) (SCOPE_CODEC_TAG :: kind :: fields)) by (by constructor).
  set (line := join_with (String TAB "") (SCOPE_CODEC_TAG :: kind :: fields)).
  assert (Hu : is_utf8 (line +:+ String NEWLINE "") = true).
  { apply is_utf8_app; [|done]. apply is_utf8_join; [done|].
    eapply Forall_impl; [|exact Hall]. apply canonical_field_utf8. }
  assert (Hsplit : split_on TAB line = SCOPE_CODEC_TAG :: kind :: fields).
  { apply split_join; [done|]. eapply Forall_impl; [|exact Hall].
    intros w Hw. by apply (canonical_field_no_control w TAB Hw). }
  clearbody line.
  unfold decode_grant_scope. destruct (into_bytes (line +:+ String NEWLINE "")) as [|b l] eqn:Hb.
  { exfalso. apply (f_equal String.string_of_list_byte) in Hb. unfold into_bytes in Hb.
    rewrite String.string_of_list_byte_of_string in Hb. by apply (f_equal String.length) in Hb;
      rewrite str_length_app in Hb; simpl in Hb; lia. }
  rewrite <- Hb, from_into by done. simpl. rewrite strip_suffix_app. simpl.
  rewrite Hsplit, bool_decide_eq_true_2 by done. simpl. by rewrite Hd.
Qed.

(** ** Chains only narrow *)

Lemma elem_of_capability_set c l : c ∈ capability_set l <-> c ∈ l.
Proof. unfold capability_set. by rewrite merge_sort_Permutation, elem_of_remove_dups. Qed.

Lemma is_subset_spec xs ys : is_subset xs ys = true <-> xs ⊆ ys.
Proof.
  unfold is_subset. rewrite forallb_forall. split.
  - intros H x Hx. apply list_elem_of_In, H in Hx. by apply bool_decide_eq_true in Hx.
  - intros H x Hx. apply bool_decide_eq_true, H. by apply list_elem_of_In.
Qed.

Lemma remove_dups_NoDup {A} `{!EqDecision A} (x : list A) : length (remove_dups x) = length x -> NoDup x.
Proof.
  assert (Hle : forall y : list A, (length (remove_dups y) <= length y)%nat).
  { induction y as [|b y IHy]; simpl; [done|]. case_decide; simpl; lia. }
  induction x as [|a x IH]; simpl; [constructor|].
  case_decide as Ha; simpl; intros Hlen; [specialize (Hle x); lia|].
  apply list.NoDup_cons. split; [done|]. apply IH. lia.
Qed.

Lemma hop_capability_set_inv hop l :
  hop_capability_set hop = Ok l -> l = capability_set hop.(hop_capabilities) /\
    NoDup hop.(hop_grant_ids) /\ NoDup hop.(hop_capabilities) /\
    (length hop.(hop_capabilities) <= length hop.(hop_grant_ids))%nat.
Proof.
  unfold hop_capability_set, capability_set. intros E.
  destruct (Nat.eqb_spec (length (remove_dups hop.(hop_grant_ids))) (length hop.(hop_grant_ids))) as [Hg|]; [|done].
  cbn [negb] in E.
  assert (Hlen : length (merge_sort capability_le (remove_dups (hop_capabilities hop))) =
    length (remove_dups (hop_capabilities hop))) by (by rewrite merge_sort_Permutation).
  rewrite !Hlen in E.
  destruct (Nat.eqb_spec (length (remove_dups hop.(hop_capabilities))) (length hop.(hop_capabilities))) as [Hc|]; [|done].
  cbn [negb] in E. destruct (negb _ && _); [done|].
  destruct (Nat.ltb_spec (length (remove_dups (hop_grant_ids hop))) (length (remove_dups (hop_capabilities hop))));
    [done|]. injection E as <-. split; [done|]. split; [by apply remove_dups_NoDup|].
  split; [by apply remove_dups_NoDup|lia].
Qed.

Lemma validate_hops_inv position previous hs :
  validate_hops position previous hs = Ok tt ->
  (forall i h, hs !! i = Some h -> h.(hop_index) = position + Z.of_nat i) /\
  (forall i h p, hs !! i = Some h -> previous = Some p -> h.(hop_capabilities) ⊆ p) /\
  (forall i j hi hj, (i <= j)%nat -> hs !! i = Some hi -> hs !! j = Some hj ->
     hj.(hop_capabilities) ⊆ hi.(hop_capabilities)).
Proof.
  revert position previous. induction hs as [|h hs IH]; intros position previous E; [done|]. simpl in E.
  destruct ((position <=? u32_max) && (position =? hop_index h)) eqn:Ei; [|done].
  apply andb_prop in Ei as [_ Ei%Z.eqb_eq]. cbn [negb] in E.
  destruct (hop_capability_set h) as [caps|e] eqn:Ec; [|done]. cbn [res_bind] in E.
  apply hop_capability_set_inv in Ec as (-> & _).
  destruct (match previous with Some _ => _ | None => _ end) eqn:Ep; [done|].
  apply IH in E as (H1 & H2 & H3).
  assert (Hset : capability_set h.(hop_capabilities) ⊆ h.(hop_capabilities)).
  { intros c. by rewrite elem_of_capability_set. }
  assert (Hhead : forall p, previous = Some p -> h.(hop_capabilities) ⊆ p).
  { intros p ->. apply negb_false_iff, is_subset_spec in Ep. intros c Hc. by apply Ep, elem_of_capability_set. }
  split; [|split].
  - intros [|i] h' Hh; simpl in Hh; [injection Hh as <-; lia|]. rewrite (H1 _ _ Hh). lia.
  - intros [|i] h' p Hh Hp; simpl in Hh; [injection Hh as <-; auto|].
    intros c Hc. apply (Hhead p Hp), Hset. by eapply H2.
  - intros [|i] [|j] hi hj Hle Hi Hj; simpl in Hi, Hj; try lia.
    + by injection Hi as <-; injection Hj as <-.
    + injection Hi as <-. intros c Hc. apply Hset. by eapply H2.
    + apply (H3 i j); [lia|done|done].
Qed.

Section ChainLoading.
Context `{!Ext}.

Lemma security_get_grant_run id t o t' :
  security_get_grant id t = (Ok o, t') -> t' = t /\ o = t.(t_db).(capability_grants) !! id.
Proof. by intros [= <- <-]. Qed.

(** A capability that loading attributes to grants is carried by one of them. *)
Lemma grant_capabilities_inv ids t caps t' :
  grant_capabilities ids t = (Ok caps, t') ->
  t' = t /\ forall c, c ∈ caps -> exists id g, id ∈ ids /\ t.(t_db).(capability_grants) !! id = Some g /\
    capability_from_str g.(CapabilityGrantRow.capability_id) = Some c.
Proof.
  intros E. apply collect_each_reads in E as [-> H2].
  - split; [done|]. intros c (i & Hi)%list_elem_of_lookup.
    destruct (Forall2_lookup_r _ _ _ _ _ H2 Hi) as (id & Hid & E).
    apply bind_ok_inv in E as (o & t1 & [-> ->]%security_get_grant_run & E).
    apply bind_ok_inv in E as (g & t1 & Eg & E). unfold lift_res in Eg. apply pair_ok_inv in Eg as [Hg%ok_or_ok <-].
    unfold lift_res in E. apply pair_ok_inv in E as [Hc%ok_or_ok _].
    exists id, g. split; [by eapply list_elem_of_lookup_2|done].
  - intros a s b s' E1. apply bind_ok_inv in E1 as (o & t1 & [-> _]%security_get_grant_run & E1).
    apply bind_ok_inv in E1 as (g & t1 & [= _ <-] & E1). by injection E1 as _ <-.
Qed.

Lemma load_hop_inv row t h t' :
  load_hop row t = (Ok h, t') -> t' = t /\
  forall c, c ∈ h.(hop_capabilities) -> exists id g, id ∈ h.(hop_grant_ids) /\
    t.(t_db).(capability_grants) !! id = Some g /\
    capability_from_str g.(CapabilityGrantRow.capability_id) = Some c.
Proof.
  unfold load_hop. intros E. apply bind_ok_inv in E as (ids & t1 & [= _ <-] & E).
  apply bind_ok_inv in E as (caps & t1 & [-> Hc]%grant_capabilities_inv & E).
  apply bind_ok_inv in E as (a & t1 & [= _ <-] & E). unfold ret in E. injection E as <- <-.
  split; [done|]. intros c Hin. by apply Hc, (proj1 (elem_of_capability_set c caps)).
Qed.

(** A delegation chain that loads only narrows authority: its hops are
    numbered without gaps, a hop holds no capability that an earlier hop does
    not hold, every capability of a hop is carried by a stored grant the hop
    names, and loading changes nothing. *)
Theorem loaded_chain_only_narrows chain t ch t' :
  load_chain chain t = (Ok ch, t') ->
  t' = t /\
  (forall i h, ch.(hops) !! i = Some h -> h.(hop_index) = Z.of_nat i /\
     forall c, c ∈ h.(hop_capabilities) -> exists id g, id ∈ h.(hop_grant_ids) /\
       t.(t_db).(capability_grants) !! id = Some g /\
       capability_from_str g.(CapabilityGrantRow.capability_id) = Some c) /\
  (forall i j hi hj, (i <= j)%nat -> ch.(hops) !! i = Some hi -> ch.(hops) !! j = Some hj ->
     hj.(hop_capabilities) ⊆ hi.(hop_capabilities)).
Proof.
  unfold load_chain. intros E. apply bind_ok_inv in E as (rows & t1 & E1 & E).
  assert (t1 = t) as ->.
  { unfold security_list_delegation_hops in E1. apply bind_ok_inv in E1 as (r & t2 & [= _ <-] & E1).
    by injection E1 as _ <-. }
  apply bind_ok_inv in E as (hs & t1 & Eh & E).
  apply collect_each_reads in Eh as [-> Hh]; [|by intros a s b s' [-> _]%load_hop_inv].
  apply bind_ok_inv in E as ([] & t1 & Ev & E). unfold lift_res in Ev. apply pair_ok_inv in Ev as [Hv <-].
  unfold ret in E. injection E as <- <-. apply validate_hops_inv in Hv as (H1 & _ & H3). simpl in *.
  split; [done|]. split; [|done]. intros i h Hi. split; [by apply H1|].
  destruct (Forall2_lookup_r _ _ _ _ _ Hh Hi) as (row & _ & [_ Hc]%load_hop_inv). exact Hc.
Qed.
End ChainLoading.
