(* ===== verification/Permissions.v ===== *)
(** * The permission engine ([permissions/src/*.rs])

    The capability catalogue and [evaluate], a pure decision over a delegation
    chain, the grants it cites, the tool's allow list and the scoped target. *)

From S2P Require Import Prelude Domain Ids Text Models StoreBase Store SecurityStore Identity.

Open Scope string_scope.
Open Scope Z_scope.

(** ** The catalogue ([capabilities.rs]) *)

Definition FAMILY_SPECS : list (string * CapabilityFamily * list CapabilityAction) :=
  [ ("workspace", CapabilityFamily.Workspace,
      [ CapabilityAction.Read; CapabilityAction.Write; CapabilityAction.Fork; CapabilityAction.Merge;
        CapabilityAction.TransferExclusive; CapabilityAction.SharedCoordinated ]);
    ("network", CapabilityFamily.Network, [CapabilityAction.Connect]);
    ("secret", CapabilityFamily.Secret, [CapabilityAction.Use; CapabilityAction.SignOrAct]);
    ("agent", CapabilityFamily.Agent, [CapabilityAction.Spawn]);
    ("extension", CapabilityFamily.Extension,
      [CapabilityAction.Install; CapabilityAction.Enable; CapabilityAction.Disable]);
    ("config", CapabilityFamily.Config,
      [ CapabilityAction.Propose; CapabilityAction.Test; CapabilityAction.Activate;
        CapabilityAction.Rollback ]);
    ("effect", CapabilityFamily.Effect, [CapabilityAction.Reconcile; CapabilityAction.ResolveUnknown]);
    ("resource", CapabilityFamily.Resource, [CapabilityAction.Reserve]) ].

Definition actions (f : CapabilityFamily) : list CapabilityAction :=
  match List.find (fun spec => bool_decide (snd (fst spec) = f)) FAMILY_SPECS with
  | Some (_, _, actions) => actions
  | None => []
  end.

Definition supports (c : Capability) : bool := bool_decide (c.(action) ∈ actions c.(family)).

(** ** Decisions ([policy.rs]) *)

Definition DEFAULT_APPROVAL_TTL_MS : Z := 900000.

Inductive DenyReason := NoGrant | OutOfScope | AncestorConstraint | ToolRestriction | ExpiredGrant | Unsupported.

Definition deny_reason_as_str (r : DenyReason) : string :=
  match r with
  | NoGrant => "no_grant"
  | OutOfScope => "out_of_scope"
  | AncestorConstraint => "ancestor_constraint"
  | ToolRestriction => "tool_restriction"
  | ExpiredGrant => "expired_grant"
  | Unsupported => "unsupported"
  end.

Record ApprovalDraft := mkApprovalDraft {
  ad_operation : string;
  ad_target : string;
  ad_capabilities : list Capability;
  ad_extension_digest : option string;
  ad_config_digest : option string;
  ad_expiry_ms : Z;
  ad_nonce : string }.

Inductive Decision :=
  | Allow (grant_refs : list CapabilityGrantId)
  | Deny (reason : DenyReason)
  | RequireApproval (request : ApprovalDraft).

Record PermissionRequest := mkPermissionRequest {
  pq_principal_id : PrincipalId;
  pq_actor_id : ActorId;
  pq_run_id : option RunId;
  pq_chain : DelegationChain;
  pq_grant_scopes : list GrantScope;
  pq_tool_capabilities : option (list Capability);
  pq_capability : Capability;
  pq_target : ScopedTarget;
  pq_extension_digest : option string;
  pq_config_digest : option string;
  pq_now_ms : Z }.

(** *** Domains *)

Definition valid_label (label : string) : bool :=
  match String.list_ascii_of_string label with
  | [] => false
  | first :: _ as l =>
      (String.length label <=? 63)%nat && is_ascii_alphanumeric first &&
      match list.last l with Some c => is_ascii_alphanumeric c | None => false end &&
      forallb (fun c => is_ascii_alphanumeric c || bool_decide (c = "-"%char)) l
  end.

Definition normalize_domain (token : string) : option string :=
  let lowered := to_ascii_lowercase token in
  if decide (lowered = "*") then Some lowered
  else
  let body := match strip_prefix "." lowered with Some body => body | None => lowered end in
  if str_is_empty body || (253 <? String.length body)%nat then None
  else if forallb valid_label (split_on "." body) then Some lowered else None.

Definition string_le (x y : string) : Prop := Is_true (String.leb x y).
#[export] Instance string_le_dec : RelDecision string_le.
Proof. intros x y. unfold string_le. apply _. Defined.

Definition normalized_domains (domains : list string) : option string :=
  if bool_decide (domains = []) then None
  else normalized ← mapM normalize_domain domains;
       Some (join_with "," (merge_sort string_le (remove_dups normalized))).

Definition domain_matches (rule host : string) : bool :=
  match normalize_domain rule, normalize_domain host with
  | Some rule, Some host =>
      if decide (host = "*") then false
      else if decide (rule = "*") then true
      else match strip_prefix "." rule with
           | Some suffix => bool_decide (host = suffix) || ends_with rule host
           | None => bool_decide (host = rule)
           end
  | _, _ => false
  end.

Definition is_wildcard (domain : string) : bool := bool_decide (normalize_domain domain = Some "*").

Definition requested_domain_covered (allowed : list string) (requested : string) : bool :=
  match normalize_domain requested with
  | None => false
  | Some requested =>
      if decide (requested = "*") then existsb is_wildcard allowed
      else match strip_prefix "." requested with
           | Some body => existsb (fun rule =>
               match normalize_domain rule with
               | None => false
               | Some rule =>
                   bool_decide (rule = "*") || bool_decide (rule = requested) ||
                   match strip_prefix "." rule with
                   | Some suffix => bool_decide (body = suffix) || ends_with ("." +:+ suffix) body
                   | None => false
                   end
               end) allowed
           | None => existsb (fun rule => domain_matches rule requested) allowed
           end
  end.

Definition egress_covers (grant request : option (list string)) : bool :=
  match grant, request with
  | None, Some _ => false
  | _, None => true
  | Some grant, Some request =>
      if bool_decide (request = []) then bool_decide (grant = []) || existsb is_wildcard grant
      else forallb (requested_domain_covered grant) request
  end.

(** *** Paths *)

Definition bad_segment (segment : string) : bool :=
  str_is_empty segment || bool_decide (segment = ".") || bool_decide (segment = "..") ||
  chars_any (fun c => is_whitespace c || bool_decide (c = 92%N) || is_control c) segment.

Definition scheme_byte (c : ascii) : bool :=
  is_ascii_alphanumeric c || bool_decide (c ∈ ["+"; "-"; "."]%char).

Definition normalize_uri (uri : string) : option string :=
  '(scheme, rest) ← split_once "://" uri;
  if str_is_empty scheme || negb (str_all scheme_byte scheme) then None
  else
  let rest := match strip_suffix "/" rest with Some rest => rest | None => rest end in
  if str_is_empty rest then None
  else if existsb bad_segment (split_on "/" rest) then None
  else Some (scheme +:+ "://" +:+ rest).

Definition normalize_relative_path (path : string) : option string :=
  if str_is_empty path || starts_with "/" path || str_contains "://" path then None
  else if existsb bad_segment (split_on "/" path) then None
  else Some path.

(** [segment_prefix]. *)
Definition segment_prefix (scope target : string) : bool :=
  bool_decide (target = scope) || starts_with (scope +:+ "/") target.

Definition normalized_workspace (uri : string) (path : option string) : option string :=
  root ← normalize_uri uri;
  match path with
  | None => Some root
  | Some path =>
      candidate ← (if str_contains "://" path then normalize_uri path
                   else relative ← normalize_relative_path path; Some (root +:+ "/" +:+ relative));
      if segment_prefix root candidate then Some candidate else None
  end.

(** *** Coverage *)

Definition target_covers (scope target : ScopedTarget) : bool :=
  match scope, target with
  | TargetWorkspace scope_uri scope_path, TargetWorkspace target_uri target_path =>
      match normalized_workspace scope_uri scope_path, normalized_workspace target_uri target_path with
      | Some scope, Some target => segment_prefix scope target
      | _, _ => false
      end
  | TargetNetwork allowed, TargetNetwork requested => forallb (requested_domain_covered allowed) requested
  | TargetSecret scope_uri scope_egress, TargetSecret target_uri target_egress =>
      match normalize_uri scope_uri, normalize_uri target_uri with
      | Some scope, Some target => segment_prefix scope target && egress_covers scope_egress target_egress
      | _, _ => false
      end
  | TargetConfig scope_operation, TargetConfig target_operation =>
      bool_decide (scope_operation = target_operation)
  | TargetChildCount scope_max, TargetChildCount target_max => target_max <=? scope_max
  | TargetNone, TargetNone => true
  | _, _ => false
  end.

Definition grant_expired (expires_at_ms : option Z) (now_ms : Z) : bool :=
  match expires_at_ms with Some expiry => expiry <=? now_ms | None => false end.

Definition scoped_target_token (c : Capability) (target : ScopedTarget) : string + DenyReason :=
  let in_scope (o : option string) := match o with Some t => inl t | None => inr OutOfScope end in
  match c.(family), target with
  | CapabilityFamily.Workspace, TargetWorkspace uri path => in_scope (normalized_workspace uri path)
  | CapabilityFamily.Network, TargetNetwork domains => in_scope (normalized_domains domains)
  | CapabilityFamily.Secret, TargetSecret uri egress =>
      match normalize_uri uri with
      | None => inr OutOfScope
      | Some uri =>
          match egress with
          | None => inl uri
          | Some [] => inl (uri +:+ "|egress=*")
          | Some egress =>
              match normalized_domains egress with
              | Some egress => inl (uri +:+ "|egress=" +:+ egress)
              | None => inr OutOfScope
              end
          end
      end
  | CapabilityFamily.Agent, TargetChildCount max =>
      if 1 <=? max then inl ("child_count:" +:+ u64_to_string max) else inr OutOfScope
  | CapabilityFamily.Config, TargetConfig operation =>
      if decide (operation = c.(action)) then inl (action_as_str operation) else inr OutOfScope
  | (CapabilityFamily.Extension | CapabilityFamily.Effect | CapabilityFamily.Resource), TargetNone => inl "none"
  | _, _ => inr OutOfScope
  end.

(** The intersection of every hop's set, root through tip. *)
Definition ancestor_capabilities (chain : DelegationChain) : list Capability :=
  match chain.(hops) with
  | [] => []
  | root :: rest =>
      fold_left (fun held hop => List.filter (fun c => bool_decide (c ∈ hop.(hop_capabilities))) held)
        rest (capability_set root.(hop_capabilities))
  end.

(** [BTreeSet<CapabilityGrantId>] in its order. *)
Definition grant_set (l : list CapabilityGrantId) : list CapabilityGrantId := merge_sort N.le (remove_dups l).

Definition tip_grants (chain : DelegationChain) : list CapabilityGrantId :=
  match list.last chain.(hops) with Some tip => grant_set tip.(hop_grant_ids) | None => [] end.

(** The rows of [grant_id] that back the request. *)
Definition grant_rows (request : PermissionRequest) (c : Capability) (grant_id : CapabilityGrantId)
    : list GrantScope :=
  List.filter (fun row => bool_decide (row.(gs_grant_id) = grant_id) && bool_decide (row.(gs_capability) = c))
    request.(pq_grant_scopes).

Definition rows_unexpired (now_ms : Z) (rows : list GrantScope) : bool :=
  forallb (fun row => negb (grant_expired row.(gs_expires_at_ms) now_ms)) rows.

Definition rows_cover (target : ScopedTarget) (rows : list GrantScope) : bool :=
  forallb (fun row => match row.(gs_scope) with None => true | Some scope => target_covers scope target end) rows.

Definition backing_grants (request : PermissionRequest) (c : Capability)
    : list CapabilityGrantId * string + DenyReason :=
  let ids := List.filter (fun id => negb (bool_decide (grant_rows request c id = []))) (tip_grants request.(pq_chain)) in
  if bool_decide (ids = []) then inr NoGrant
  else match scoped_target_token c request.(pq_target) with
  | inr reason => inr reason
  | inl target_token =>
      let unexpired id := rows_unexpired request.(pq_now_ms) (grant_rows request c id) in
      let covering := List.filter
        (fun id => unexpired id && rows_cover request.(pq_target) (grant_rows request c id)) ids in
      if negb (bool_decide (covering = [])) then inl (covering, target_token)
      else inr (if existsb unexpired ids then OutOfScope else ExpiredGrant)
  end.

Definition connect : Capability := mkCapability CapabilityFamily.Network CapabilityAction.Connect.

Definition egress_unbounded (target : ScopedTarget) : bool :=
  match target with
  | TargetSecret _ (Some egress) => bool_decide (egress = []) || existsb is_wildcard egress
  | _ => false
  end.

Definition joint_risk (c : Capability) (target : ScopedTarget) (effective : list Capability)
    : option (list Capability) :=
  if negb (bool_decide (c.(family) = CapabilityFamily.Secret)) ||
     negb (bool_decide (c.(action) ∈ [CapabilityAction.Use; CapabilityAction.SignOrAct]))
  then None
  else
  let connect_held := bool_decide (connect ∈ effective) in
  if negb connect_held && negb (egress_unbounded target) then None
  else Some (capability_set (if connect_held then [c; connect] else [c])).

Section Engine.
Context `{!Ext}.

Definition deterministic_nonce (request : PermissionRequest) (target_token : string) : string :=
  join_with "|"
    [ "v1"; uuid_hyphenated request.(pq_principal_id); uuid_hyphenated request.(pq_actor_id);
      match request.(pq_run_id) with None => "none" | Some run => uuid_hyphenated run end;
      capability_to_string request.(pq_capability); target_token; i64_to_string request.(pq_now_ms) ].

Definition approval_draft (request : PermissionRequest) (target_token : string) (exercised : list Capability)
    : ApprovalDraft :=
  mkApprovalDraft (capability_to_string request.(pq_capability)) target_token exercised
    request.(pq_extension_digest) request.(pq_config_digest)
    (i64_saturating_add request.(pq_now_ms) DEFAULT_APPROVAL_TTL_MS)
    (deterministic_nonce request target_token).

Definition evaluate (request : PermissionRequest) : Decision :=
  let c := request.(pq_capability) in
  if negb (supports c) then Deny Unsupported
  else
  let ancestor_authority := ancestor_capabilities request.(pq_chain) in
  if negb (bool_decide (c ∈ ancestor_authority)) then
    Deny (if match list.last request.(pq_chain).(hops) with
             | Some tip => bool_decide (c ∈ tip.(hop_capabilities))
             | None => false
             end
          then AncestorConstraint else NoGrant)
  else if negb (is_ok (validate_chain request.(pq_chain))) then Deny NoGrant
  else
  let effective := match request.(pq_tool_capabilities) with
    | Some tool => List.filter (fun held => bool_decide (held ∈ tool)) ancestor_authority
    | None => ancestor_authority
    end in
  if negb (bool_decide (c ∈ effective)) then Deny ToolRestriction
  else
  match backing_grants request c with
  | inr reason => Deny reason
  | inl (backing, target_token) =>
      match joint_risk c request.(pq_target) effective with
      | Some exercised => RequireApproval (approval_draft request target_token exercised)
      | None => Allow backing
      end
  end.
End Engine.

(** ** What [evaluate] decides *)

(** The tip grants that back [request]: they carry the capability, and every
    row that does is unexpired and covers the target. *)
Definition backs (request : PermissionRequest) (id : CapabilityGrantId) : Prop :=
  id ∈ tip_grants request.(pq_chain) /\
  (exists row, row ∈ request.(pq_grant_scopes) /\ row.(gs_grant_id) = id /\
     row.(gs_capability) = request.(pq_capability)) /\
  (forall row, row ∈ request.(pq_grant_scopes) -> row.(gs_grant_id) = id ->
     row.(gs_capability) = request.(pq_capability) ->
     (forall expiry, row.(gs_expires_at_ms) = Some expiry -> request.(pq_now_ms) < expiry) /\
     (forall scope, row.(gs_scope) = Some scope -> target_covers scope request.(pq_target) = true)).

(** The authority a request needs. *)
Record authorized (request : PermissionRequest) : Prop := mkAuthorized {
  au_supported : supports request.(pq_capability) = true;
  au_rooted : request.(pq_chain).(hops) <> [];
  au_every_hop : Forall (fun hop => request.(pq_capability) ∈ hop.(hop_capabilities)) request.(pq_chain).(hops);
  au_chain : validate_chain request.(pq_chain) = Ok tt;
  au_tool : forall tool, request.(pq_tool_capabilities) = Some tool -> request.(pq_capability) ∈ tool;
  au_target : exists token, scoped_target_token request.(pq_capability) request.(pq_target) = inl token;
  au_backed : exists id, backs request id }.

(** A secret that can leave through the network needs an operator. *)
Definition risky (request : PermissionRequest) : Prop :=
  request.(pq_capability).(family) = CapabilityFamily.Secret /\
  request.(pq_capability).(action) ∈ [CapabilityAction.Use; CapabilityAction.SignOrAct] /\
  (egress_unbounded request.(pq_target) = true \/
   (Forall (fun hop => connect ∈ hop.(hop_capabilities)) request.(pq_chain).(hops) /\
    forall tool, request.(pq_tool_capabilities) = Some tool -> connect ∈ tool)).

Lemma elem_of_Listfilter {A} (p : A -> bool) x l : x ∈ List.filter p l <-> x ∈ l /\ p x = true.
Proof. by rewrite !list_elem_of_In, filter_In. Qed.

Lemma elem_of_fold_intersection c rest held :
  c ∈ fold_left (fun held hop => List.filter (fun c => bool_decide (c ∈ hop.(hop_capabilities))) held) rest held
  <-> c ∈ held /\ Forall (fun hop => c ∈ hop.(hop_capabilities)) rest.
Proof.
  revert held. induction rest as [|hop rest IH]; intros held; simpl; [by split; [|intros [? _]]|].
  rewrite IH, elem_of_Listfilter, bool_decide_eq_true, list.Forall_cons. tauto.
Qed.

Lemma elem_of_ancestor_capabilities c chain :
  c ∈ ancestor_capabilities chain <->
  chain.(hops) <> [] /\ Forall (fun hop => c ∈ hop.(hop_capabilities)) chain.(hops).
Proof.
  unfold ancestor_capabilities. destruct chain.(hops) as [|root rest].
  - split; [by intros ?%elem_of_nil|by intros []].
  - rewrite elem_of_fold_intersection, elem_of_capability_set, list.Forall_cons. intuition done.
Qed.

Lemma elem_of_grant_rows request c id row :
  row ∈ grant_rows request c id <->
  row ∈ request.(pq_grant_scopes) /\ row.(gs_grant_id) = id /\ row.(gs_capability) = c.
Proof. unfold grant_rows. by rewrite elem_of_Listfilter, andb_true_iff, !bool_decide_eq_true. Qed.

Lemma forallb_elem {A} (p : A -> bool) l : forallb p l = true <-> forall x, x ∈ l -> p x = true.
Proof. rewrite forallb_forall. split; intros H x Hx; apply H; by apply list_elem_of_In. Qed.

Lemma grant_expired_false o now : grant_expired o now = false <-> forall expiry, o = Some expiry -> now < expiry.
Proof.
  destruct o as [e|]; simpl; [rewrite Z.leb_gt|]; split; try done.
  - by intros H x [= <-].
  - intros H. by apply H.
Qed.

Definition covering (request : PermissionRequest) : list CapabilityGrantId :=
  List.filter (fun id => rows_unexpired request.(pq_now_ms) (grant_rows request request.(pq_capability) id) &&
      rows_cover request.(pq_target) (grant_rows request request.(pq_capability) id))
    (List.filter (fun id => negb (bool_decide (grant_rows request request.(pq_capability) id = [])))
      (tip_grants request.(pq_chain))).

Lemma elem_of_covering request id : id ∈ covering request <-> backs request id.
Proof.
  unfold covering, backs. rewrite !elem_of_Listfilter, andb_true_iff, negb_true_iff, bool_decide_eq_false.
  unfold rows_unexpired, rows_cover. rewrite !forallb_elem.
  setoid_rewrite elem_of_grant_rows. setoid_rewrite negb_true_iff. setoid_rewrite grant_expired_false.
  assert (Hne : grant_rows request (pq_capability request) id <> [] <->
    exists row, row ∈ pq_grant_scopes request /\ gs_grant_id row = id /\ gs_capability row = pq_capability request).
  { setoid_rewrite <- elem_of_grant_rows. destruct (grant_rows _ _ _) as [|row rows].
    - split; [done|]. by intros (? & ?%elem_of_nil).
    - split; [|done]. intros _. exists row. set_solver. }
  rewrite Hne. split.
  - intros [[Hin Hex] [Hu Hc]]. split; [done|]. split; [done|]. intros row Hr Hid Hcap. split.
    + by apply Hu.
    + intros scope Hs. specialize (Hc row (conj Hr (conj Hid Hcap))). by rewrite Hs in Hc.
  - intros (Hin & Hex & Hall). split; [done|]. split.
    + intros row (Hr & Hid & Hcap). by apply Hall.
    + intros row (Hr & Hid & Hcap). destruct (gs_scope row) as [s|] eqn:Es; [|done]. by eapply Hall.
Qed.

Lemma backing_grants_spec request :
  match backing_grants request request.(pq_capability) with
  | inl (refs, token) => refs = covering request /\ refs <> [] /\
      scoped_target_token request.(pq_capability) request.(pq_target) = inl token
  | inr _ => covering request = [] \/
      exists reason, scoped_target_token request.(pq_capability) request.(pq_target) = inr reason
  end.
Proof.
  unfold backing_grants. fold (covering request). case_bool_decide as Hids.
  { left. unfold covering. by rewrite Hids. }
  destruct (scoped_target_token _ _) as [token|reason]; [|by eauto].
  case_bool_decide as Hc; simpl; [by left|done].
Qed.

(** The capabilities left once the tool's own list is applied. *)
Lemma elem_of_effective c (request : PermissionRequest) :
  c ∈ match request.(pq_tool_capabilities) with
      | Some tool => List.filter (fun held => bool_decide (held ∈ tool)) (ancestor_capabilities request.(pq_chain))
      | None => ancestor_capabilities request.(pq_chain)
      end <->
  c ∈ ancestor_capabilities request.(pq_chain) /\
  forall tool, request.(pq_tool_capabilities) = Some tool -> c ∈ tool.
Proof.
  destruct request.(pq_tool_capabilities) as [tool|].
  - rewrite elem_of_Listfilter, bool_decide_eq_true. split; [by intros [? ?]; split; [|intros ? [= <-]]|].
    intros [? H]. split; [done|]. by apply H.
  - split; [done|]. by intros [? _].
Qed.

Lemma joint_risk_spec request effective :
  request.(pq_chain).(hops) <> [] ->
  (forall c, c ∈ effective <-> c ∈ ancestor_capabilities request.(pq_chain) /\
     forall tool, request.(pq_tool_capabilities) = Some tool -> c ∈ tool) ->
  match joint_risk request.(pq_capability) request.(pq_target) effective with
  | Some exercised => risky request /\ request.(pq_capability) ∈ exercised
  | None => ~ risky request
  end.
Proof.
  intros Hne Heff. unfold joint_risk, risky.
  assert (Hcon : connect ∈ effective <-> Forall (fun hop => connect ∈ hop.(hop_capabilities)) request.(pq_chain).(hops) /\
    forall tool, request.(pq_tool_capabilities) = Some tool -> connect ∈ tool).
  { rewrite Heff, elem_of_ancestor_capabilities. tauto. }
  case_bool_decide as Hf; cbn [negb orb]; [|tauto].
  case_bool_decide as Ha; cbn [negb orb]; [|tauto].
  case_bool_decide as Hc; cbn [negb andb].
  - split; [tauto|]. apply elem_of_capability_set. set_solver.
  - destruct (egress_unbounded _) eqn:Eg; cbn [negb]; [|by intros (_ & _ & [?|?%Hcon])].
    split; [tauto|]. apply elem_of_capability_set. set_solver.
Qed.

Section Decisions.
Context `{!Ext}.

Lemma evaluate_spec request :
  match evaluate request with
  | Allow refs => authorized request /\ ~ risky request /\ forall id, id ∈ refs <-> backs request id
  | RequireApproval draft =>
      authorized request /\ risky request /\
      draft.(ad_operation) = capability_to_string request.(pq_capability) /\
      request.(pq_capability) ∈ draft.(ad_capabilities) /\
      scoped_target_token request.(pq_capability) request.(pq_target) = inl draft.(ad_target)
  | Deny _ => ~ authorized request
  end.
Proof.
  unfold evaluate. destruct (supports _) eqn:Es; cbn [negb]; [|intros []; congruence].
  case_bool_decide as Ha; cbn [negb]; [|intros []; by apply Ha, elem_of_ancestor_capabilities].
  destruct (validate_chain _) as [[]|e] eqn:Ev; cbn [is_ok negb]; [|intros []; congruence].
  set (effective := match pq_tool_capabilities request with Some _ => _ | None => _ end).
  assert (Heff : forall c, c ∈ effective <-> c ∈ ancestor_capabilities request.(pq_chain) /\
     forall tool, request.(pq_tool_capabilities) = Some tool -> c ∈ tool) by (intros c; apply elem_of_effective).
  clearbody effective. pose proof Ha as [Hne Hall]%elem_of_ancestor_capabilities.
  case_bool_decide as Ht; cbn [negb]; [|intros []; by apply Ht, Heff].
  pose proof (backing_grants_spec request) as Hb. apply Heff in Ht as [_ Ht].
  destruct (backing_grants _ _) as [[refs token]|reason].
  - destruct Hb as (-> & Hnil & Htok).
    assert (Hau : authorized request).
    { split; try done; [by eauto|]. destruct (covering request) as [|id ids] eqn:Ec; [done|].
      exists id. apply elem_of_covering. rewrite Ec. set_solver. }
    pose proof (joint_risk_spec request effective Hne Heff) as Hr.
    destruct (joint_risk _ _ _) as [exercised|].
    + destruct Hr as [Hr Hin]. done.
    + split; [done|]. split; [done|]. apply elem_of_covering.
  - intros [_ _ _ _ _ [token Htok] [id Hid]]. destruct Hb as [Hb|[? Hb]]; [|congruence].
    apply elem_of_covering in Hid. rewrite Hb in Hid. by apply elem_of_nil in Hid.
Qed.

(** C25: The permission engine decides exactly on authority. It denies a
    request if and only if some part of its authority is missing: a supported
    capability held by every hop of a valid, non-empty chain, not excluded by
    the tool's own list, on a well-formed target, and backed by a grant of the
    tip of which every row is unexpired and covers the target. An allowed
    request cites exactly the grants that back it, and a request that could
    carry a secret to the network is never allowed outright: it becomes a draft
    that binds the operation, its capability and the normalized target. *)
Theorem evaluate_decides_authority request :
  match evaluate request with
  | Allow refs => authorized request /\ ~ risky request /\ forall id, id ∈ refs <-> backs request id
  | RequireApproval draft =>
      authorized request /\ risky request /\
      draft.(ad_operation) = capability_to_string request.(pq_capability) /\
      request.(pq_capability) ∈ draft.(ad_capabilities) /\
      scoped_target_token request.(pq_capability) request.(pq_target) = inl draft.(ad_target)
  | Deny _ => ~ authorized request
  end.
Proof. apply evaluate_spec. Qed.
End Decisions.

(** ** Path confinement *)

Lemma split_on_app sep a b :
  split_on sep (a +:+ String sep b) = (split_on sep a ++ split_on sep b)%list.
Proof.
  induction a as [|c a IH]; [rewrite app_nil_str; simpl; by rewrite decide_True|].
  rewrite app_cons_str. simpl. case_decide; rewrite IH; [done|].
  pose proof (split_on_nonempty sep a). by destruct (split_on sep a).
Qed.

Lemma scheme_no_slash scheme : str_all scheme_byte scheme = true -> no_byte "/" scheme = true.
Proof.
  induction scheme as [|c s IH]; simpl; [done|]. intros [Hc Hs]%andb_prop. apply no_byte_cons.
  split; [|by apply IH]. intros ->. by vm_compute in Hc.
Qed.

(** A normalized address: a scheme, an empty segment and ordinary segments. *)
Definition ordinary_path (s : string) : Prop :=
  exists head segments, split_on "/" s = head :: "" :: segments /\ segments <> [] /\
    Forall (fun w => bad_segment w = false) segments.

Lemma segments_ordinary s : existsb bad_segment (split_on "/" s) = false ->
  Forall (fun w => bad_segment w = false) (split_on "/" s).
Proof.
  induction (split_on "/" s) as [|w ws IH]; simpl; [constructor|]. intros [Hw Hws]%orb_false_iff.
  constructor; auto.
Qed.

Lemma normalize_uri_ordinary uri s : normalize_uri uri = Some s -> ordinary_path s.
Proof.
  unfold normalize_uri. destruct (split_once "://" uri) as [[scheme rest]|]; [|done]. simpl.
  destruct (str_is_empty scheme || _) eqn:Es; [done|]. apply orb_false_iff in Es as [_ Hs%negb_false_iff].
  set (r := match strip_suffix "/" rest with Some _ => _ | None => _ end). destruct (str_is_empty r); [done|].
  destruct (existsb _ _) eqn:Eb; [done|]. intros [= <-].
  exists (scheme +:+ ":"), (split_on "/" r). split; [|split; [apply split_on_nonempty|by apply segments_ordinary]].
  replace (scheme +:+ "://" +:+ r) with ((scheme +:+ ":") +:+ String "/" (String "/" r))
    by (rewrite <- app_assoc_str; done).
  rewrite split_on_field.
  - done.
  - apply scheme_no_slash in Hs. clear -Hs. induction scheme as [|c s IH]; [done|].
    apply no_byte_cons in Hs as [Hc Hs]. rewrite app_cons_str. apply no_byte_cons. auto.
Qed.

(** [inner] is [root] or lies below it, through ordinary segments only. *)
Definition confined (root inner : string) : Prop :=
  ordinary_path root /\ ordinary_path inner /\
  exists below, split_on "/" inner = (split_on "/" root ++ below)%list /\
    Forall (fun w => bad_segment w = false) below.

Lemma segment_prefix_confined root inner :
  ordinary_path root -> ordinary_path inner -> segment_prefix root inner = true -> confined root inner.
Proof.
  intros Hr Hi [E|E]%orb_prop.
  - apply bool_decide_eq_true in E as ->. split; [done|]. split; [done|]. exists []. by rewrite app_nil_r.
  - unfold starts_with in E. destruct (strip_prefix _ _) as [b|] eqn:Ep; [|done].
    apply strip_prefix_spec in Ep. rewrite <- app_assoc_str in Ep.
    change ("/" +:+ b) with (String "/" b) in Ep. subst inner. split; [done|]. split; [done|].
    exists (split_on "/" b). split; [apply split_on_app|].
    destruct Hr as (h & segs & Es & Hne & _), Hi as (h' & segs' & Es' & _ & Hall).
    rewrite split_on_app, Es in Es'. simpl in Es'. injection Es' as _ <-.
    by apply Forall_app in Hall as [_ Hall].
Qed.

Lemma ordinary_below root b :
  ordinary_path root -> Forall (fun w => bad_segment w = false) (split_on "/" b) ->
  ordinary_path (root +:+ String "/" b).
Proof.
  intros (h & segs & Es & Hne & Hall) Hb. exists h, (segs ++ split_on "/" b)%list.
  rewrite split_on_app, Es. split; [done|]. split; [by destruct segs|]. by apply Forall_app.
Qed.

Lemma normalized_workspace_confined uri path s :
  normalized_workspace uri path = Some s -> exists root, normalize_uri uri = Some root /\ confined root s.
Proof.
  unfold normalized_workspace. destruct (normalize_uri uri) as [root|] eqn:Eu; [|done].
  apply normalize_uri_ordinary in Eu. cbn [mbind option_bind]. intros E. exists root. split; [done|].
  destruct path as [p|].
  2:{ injection E as <-. apply segment_prefix_confined; [done|done|].
      unfold segment_prefix. by rewrite bool_decide_true. }
  destruct (if str_contains _ _ then _ else _) as [candidate|] eqn:Ec; [|done]. cbn [mbind option_bind] in E.
  destruct (segment_prefix root candidate) eqn:Ep; [|done]. injection E as <-.
  apply segment_prefix_confined; [done| |done]. destruct (str_contains "://" p).
  - by eapply normalize_uri_ordinary.
  - unfold normalize_relative_path in Ec. destruct (str_is_empty p || _ || _); [done|].
    destruct (existsb bad_segment (split_on "/" p)) eqn:Eb; [done|]. injection Ec as <-.
    apply ordinary_below; [done|by apply segments_ordinary].
Qed.

(** A grant scoped to a workspace path never reaches outside it: a target
    it covers normalizes to an address at or below the scope's own, which is
    itself at or below the granted workspace, and everything below the scope
    is made of ordinary segments: no empty, dot or parent segment, no white
    space, back slash or control character. *)
Theorem workspace_grant_confines scope_uri scope_path target_uri target_path :
  target_covers (TargetWorkspace scope_uri scope_path) (TargetWorkspace target_uri target_path) = true ->
  exists root scope target,
    normalize_uri scope_uri = Some root /\
    normalized_workspace scope_uri scope_path = Some scope /\
    normalized_workspace target_uri target_path = Some target /\
    confined root scope /\ confined scope target.
Proof.
  cbn [target_covers]. destruct (normalized_workspace scope_uri _) as [scope|] eqn:Es; [|done].
  destruct (normalized_workspace target_uri _) as [target|] eqn:Et; [|done]. intros Hp.
  apply normalized_workspace_confined in Es as (root & Er & Hr), Et as (root' & _ & Ht).
  exists root, scope, target. do 4 (split; [done|]). apply segment_prefix_confined; [apply Hr|apply Ht|done].
Qed.

(** The engine's catalogue and the delegation parser accept the same pairs. *)
Lemma supports_is_supported c : supports c = is_supported c.
Proof. destruct c as [[] []]; vm_compute; reflexivity. Qed.
