(* ===== verification/Queue.v ===== *)
(** * The in-memory message queue ([message-queue/src/in_memory.rs])

    The non-durable adapter of the message queue port: one FIFO channel per
    stream, deliveries that stay in flight until they are acknowledged or
    returned, publication that is idempotent on [(stream, message_id)] through
    a bounded set of tombstones, and a bound on pending plus in-flight
    messages. *)

From Stdlib Require Import DecimalString DecimalN.
From S2P Require Import Prelude Ids Text StoreBase Identity.

Open Scope string_scope.
Open Scope Z_scope.

Definition QUEUE_CAPACITY_MESSAGES : nat := 1024.
Definition TOMBSTONE_CAP : nat := QUEUE_CAPACITY_MESSAGES * 4.

(** [(stream, message_id)]. *)
Abbreviation Key := (string * string)%type (only parsing).

Record QueuePublishRequest := mkPublish { qp_stream : string; qp_message_id : string; qp_payload : bytes }.
Record QueueConsumeRequest := mkConsume { qc_subscription : string; qc_options_json : bytes }.
Record QueueDelivery := mkDelivery { qd_delivery_id : string; qd_message_id : string; qd_payload : bytes }.

Record InFlight := mkInFlight { fl_channel : string; fl_key : Key; fl_payload : bytes }.

Record State := mkState {
  live_ids : gmap Key bytes;
  live_order : list Key;
  pending : gmap string (list Key);
  queued : gset Key;
  messages : gmap Key bytes;
  in_flight : gmap string InFlight;
  next_delivery : Z }.

Definition queue_new : State := mkState ∅ [] ∅ ∅ ∅ ∅ 1.

Definition occupied (s : State) : nat := (size s.(queued) + size s.(in_flight))%nat.

(** Whether a dedupe key is still queued or in flight. *)
Definition key_active (s : State) (key : Key) : bool :=
  bool_decide (key ∈ s.(queued)) ||
  existsb (fun kv => bool_decide (kv.2.(fl_key) = key)) (map_to_list s.(in_flight)).

Definition set_tombstones (ids : gmap Key bytes) (order : list Key) (s : State) : State :=
  mkState ids order s.(pending) s.(queued) s.(messages) s.(in_flight) s.(next_delivery).

(** The [while] of [evict_tombstones]: every turn advances [scanned] and the
    order never grows, so the length of the order bounds the turns. *)
Fixpoint evict_loop (fuel scanned : nat) (s : State) : State :=
  match fuel with
  | O => s
  | S fuel =>
      if (TOMBSTONE_CAP <? size s.(live_ids))%nat && (scanned <? length s.(live_order))%nat then
        match s.(live_order) with
        | [] => s
        | key :: rest =>
            if key_active s key then evict_loop fuel (S scanned) (set_tombstones s.(live_ids) (rest ++ [key])%list s)
            else evict_loop fuel (S scanned) (set_tombstones (delete key s.(live_ids)) rest s)
        end
      else s
  end.

Definition evict_tombstones (s : State) : State := evict_loop (length s.(live_order)) 0 s.

(** [trim_start_matches([':', ' ', '\t'])] and [take_while(is_ascii_digit)]. *)
Fixpoint trim_separators (s : string) : string :=
  match s with
  | String c rest => if decide (c = ":"%char \/ c = " "%char \/ c = TAB) then trim_separators rest else s
  | EmptyString => s
  end.

Fixpoint leading_digits (s : string) : string :=
  match s with
  | String c rest => if is_ascii_digit c then String c (leading_digits rest) else ""
  | EmptyString => ""
  end.

Definition MAX_MARKER : string := String "034" ("max" +:+ String "034" "").

Definition parse_max (options_json : bytes) : Z :=
  let text := from_option (fun s => s) "" (from_utf8 options_json) in
  match split_once MAX_MARKER text with
  | None => 1
  | Some (_, rest) =>
      from_option (fun z => z) 1 (parse_unsigned usize_max (leading_digits (trim_separators rest)))
  end.

(** ** Operations *)

Definition push_back (channel : string) (key : Key) (p : gmap string (list Key)) : gmap string (list Key) :=
  <[channel := (default [] (p !! channel) ++ [key])%list]> p.
Definition push_front (channel : string) (key : Key) (p : gmap string (list Key)) : gmap string (list Key) :=
  <[channel := key :: default [] (p !! channel)]> p.

Definition publish (capacity : nat) (request : QueuePublishRequest) : ST State string := fun s =>
  let key := (request.(qp_stream), request.(qp_message_id)) in
  match s.(live_ids) !! key with
  | Some existing =>
      if decide (existing = request.(qp_payload)) then (Ok request.(qp_message_id), s)
      else (Err (kerr Conflict "message_id already published with different payload"), s)
  | None =>
      if (capacity <=? occupied s)%nat
      then (Err (mkKernelError ResourceExhausted RetrySafe "queue capacity reached"), s)
      else (Ok request.(qp_message_id),
            evict_tombstones (mkState (<[key := request.(qp_payload)]> s.(live_ids))
              (s.(live_order) ++ [key])%list (push_back request.(qp_stream) key s.(pending))
              ({[key]} ∪ s.(queued)) (<[key := request.(qp_payload)]> s.(messages)) s.(in_flight) s.(next_delivery)))
  end.

(** [for _ in 0..max] over the channel, which only this loop shortens:
    [keys] is what is left of it. *)
Fixpoint consume_loop (channel : string) (keys : list Key) (max : Z) (s : State) (out : list QueueDelivery)
    : list QueueDelivery * State :=
  match keys with
  | [] => (out, s)
  | key :: rest =>
      if max <=? 0 then (out, s)
      else
      let pending' := <[channel := rest]> s.(pending) in
      let queued' := s.(queued) ∖ {[key]} in
      match s.(messages) !! key with
      | None =>
          consume_loop channel rest (max - 1)
            (mkState s.(live_ids) s.(live_order) pending' queued' s.(messages) s.(in_flight) s.(next_delivery)) out
      | Some payload =>
          let delivery_id := "d-" +:+ u64_to_string s.(next_delivery) in
          consume_loop channel rest (max - 1)
            (mkState s.(live_ids) s.(live_order) pending' queued' (delete key s.(messages))
               (<[delivery_id := mkInFlight channel key payload]> s.(in_flight)) (s.(next_delivery) + 1))
            (out ++ [mkDelivery delivery_id key.2 payload])%list
      end
  end.

Definition drop_drained (channel : string) (s : State) : State :=
  match s.(pending) !! channel with
  | Some [] => mkState s.(live_ids) s.(live_order) (delete channel s.(pending)) s.(queued) s.(messages)
                 s.(in_flight) s.(next_delivery)
  | _ => s
  end.

Definition consume (request : QueueConsumeRequest) : ST State (list QueueDelivery) := fun s =>
  let max := Z.max (parse_max request.(qc_options_json)) 1 in
  let channel := request.(qc_subscription) in
  let (out, s') := consume_loop channel (default [] (s.(pending) !! channel)) max s [] in
  (Ok out, drop_drained channel s').

Definition unknown_delivery : KernelError := kerr NotFound "unknown delivery_id".

Definition ack (delivery_id : string) : ST State unit := fun s =>
  match s.(in_flight) !! delivery_id with
  | None => (Err unknown_delivery, s)
  | Some _ => (Ok tt, evict_tombstones (mkState s.(live_ids) s.(live_order) s.(pending) s.(queued) s.(messages)
                        (delete delivery_id s.(in_flight)) s.(next_delivery)))
  end.

Definition nack (delivery_id : string) : ST State unit := fun s =>
  match s.(in_flight) !! delivery_id with
  | None => (Err unknown_delivery, s)
  | Some flight =>
      (Ok tt, mkState s.(live_ids) s.(live_order) (push_front flight.(fl_channel) flight.(fl_key) s.(pending))
         ({[flight.(fl_key)]} ∪ s.(queued)) (<[flight.(fl_key) := flight.(fl_payload)]> s.(messages))
         (delete delivery_id s.(in_flight)) s.(next_delivery))
  end.

#[local] Opaque TOMBSTONE_CAP.

(** ** Tombstones *)

Definition order_ok (s : State) : Prop :=
  NoDup s.(live_order) /\ forall k, k ∈ s.(live_order) <-> is_Some (s.(live_ids) !! k).

(** Eviction changes the dedupe set only. *)
Definition same_traffic (s s' : State) : Prop :=
  s'.(pending) = s.(pending) /\ s'.(queued) = s.(queued) /\ s'.(messages) = s.(messages) /\
  s'.(in_flight) = s.(in_flight) /\ s'.(next_delivery) = s.(next_delivery).

Lemma key_active_spec s k :
  key_active s k = true <-> k ∈ s.(queued) \/ exists id f, s.(in_flight) !! id = Some f /\ f.(fl_key) = k.
Proof.
  unfold key_active. rewrite orb_true_iff, bool_decide_eq_true, existsb_exists. split.
  - intros [Hq|([id f] & Hin & Hk%bool_decide_eq_true)]; [by left|right].
    apply list_elem_of_In, elem_of_map_to_list in Hin. eauto.
  - intros [Hq|(id & f & Hf & Hk)]; [by left|right]. exists (id, f). split; [|by apply bool_decide_eq_true].
    by apply list_elem_of_In, elem_of_map_to_list.
Qed.

Lemma evict_loop_spec fuel scanned s :
  let s' := evict_loop fuel scanned s in
  same_traffic s s' /\ (order_ok s -> order_ok s') /\ s'.(live_ids) ⊆ s.(live_ids) /\
  (forall k, key_active s k = true -> s'.(live_ids) !! k = s.(live_ids) !! k).
Proof.
  revert scanned s. induction fuel as [|fuel IH]; intros scanned s; cbn [evict_loop]; [done|].
  destruct (_ && _); [|done]. destruct (live_order s) as [|key rest] eqn:Ho; [done|].
  destruct (key_active s key) eqn:Ha.
  - destruct (IH (S scanned) (set_tombstones (live_ids s) (rest ++ [key]) s)) as (T & O & L & A). split; [done|].
    split; [|done]. intros [Hnd Hk]. apply O. unfold order_ok. cbn. rewrite Ho in Hnd, Hk. split.
    + by rewrite <- Permutation_cons_append.
    + intros k. rewrite <- Hk. by rewrite <- Permutation_cons_append.
  - destruct (IH (S scanned) (set_tombstones (delete key (live_ids s)) rest s)) as (T & O & L & A). split; [done|].
    split_and!.
    + intros [Hnd Hk]. apply O. unfold order_ok. cbn. rewrite Ho in Hnd, Hk. apply list.NoDup_cons in Hnd as [Hn Hnd].
      split; [done|]. intros k. specialize (Hk k). rewrite elem_of_cons in Hk.
      destruct (decide (k = key)) as [->|Hne].
      * rewrite lookup_delete_eq. split; [done|]. by intros [? ?].
      * rewrite lookup_delete_ne by done. rewrite <- Hk. tauto.
    + etransitivity; [exact L|]. apply delete_subseteq.
    + intros k Hact. rewrite A by exact Hact. cbn. rewrite lookup_delete_ne; [done|]. intros ->. congruence.
Qed.

Lemma active_bound s (l : list Key) :
  NoDup l -> (forall k, k ∈ l -> key_active s k = true) -> (length l <= occupied s)%nat.
Proof.
  intros Hnd Hact. set (flying := list_to_set ((fun kv => kv.2.(fl_key)) <$> map_to_list s.(in_flight)) : gset Key).
  assert (Hsub : (list_to_set l : gset Key) ⊆ s.(queued) ∪ flying).
  { intros k Hk. apply elem_of_list_to_set in Hk. apply Hact, key_active_spec in Hk as [Hq|(id & f & Hf & Hk)].
    - set_solver.
    - apply elem_of_union_r, elem_of_list_to_set, list_elem_of_fmap. exists (id, f). split; [done|].
      by apply elem_of_map_to_list. }
  apply subseteq_size in Hsub. rewrite size_list_to_set in Hsub by done.
  assert (size (s.(queued) ∪ flying) <= size s.(queued) + size flying)%nat by (rewrite size_union_alt; pose proof (subseteq_size (flying ∖ queued s) flying ltac:(set_solver)); lia).
  assert (size flying <= size s.(in_flight))%nat.
  { unfold flying. rewrite <- length_map_to_list, <- (length_fmap (fun kv : string * InFlight => kv.2.(fl_key))).
    generalize ((fun kv : string * InFlight => kv.2.(fl_key)) <$> map_to_list s.(in_flight)) as ks. clear.
    induction ks as [|k ks IH]; cbn [list_to_set length]; [by rewrite size_empty|].
    etransitivity; [|apply le_n_S, IH]. pose proof (size_union_alt {[k]} (list_to_set ks : gset Key)) as E.
    rewrite E, size_singleton. pose proof (subseteq_size (list_to_set ks ∖ {[k]} : gset Key) (list_to_set ks) ltac:(set_solver)). lia. }
  unfold occupied. lia.
Qed.

Lemma order_size s : order_ok s -> size (live_ids s) = length (live_order s).
Proof.
  intros [Hnd Hk]. rewrite <- size_dom, <- (size_list_to_set (C := gset Key) (live_order s)) by done.
  f_equal. apply leibniz_equiv. intros k. rewrite elem_of_dom, elem_of_list_to_set. symmetry. apply Hk.
Qed.

(** A scan of the whole order makes room, or finds every key active. *)
Lemma evict_loop_bound l2 : forall l1 s,
  order_ok s -> s.(live_order) = (l2 ++ l1)%list -> (forall k, k ∈ l1 -> key_active s k = true) ->
  (size (live_ids (evict_loop (length l2) (length l1) s)) <=
   Nat.max (Nat.max TOMBSTONE_CAP (occupied s)) (size s.(live_ids) - 1))%nat.
Proof.
  assert (Hmono : forall fuel n s, (size (live_ids (evict_loop fuel n s)) <= size (live_ids s))%nat).
  { intros fuel n s. apply map_subseteq_size. apply evict_loop_spec. }
  induction l2 as [|key l2 IH]; intros l1 s Hok Hord Hact; cbn [length evict_loop].
  - rewrite (order_size s Hok), Hord. pose proof (active_bound s l1) as Hb. destruct Hok as [Hnd _]. rewrite Hord in Hnd.
    specialize (Hb Hnd Hact). simpl. lia.
  - rewrite Hord. cbn [app length]. destruct (Nat.ltb_spec TOMBSTONE_CAP (size (live_ids s))); [|cbn [andb]; lia].
    destruct (Nat.ltb_spec (length l1) (S (length (l2 ++ l1)))) as [_|Hge]; [|rewrite length_app in Hge; lia]. cbn [andb].
    destruct (key_active s key) eqn:Ha.
    + specialize (IH (l1 ++ [key])%list (set_tombstones (live_ids s) ((l2 ++ l1) ++ [key]) s)).
      rewrite length_app, Nat.add_comm in IH. apply IH.
      * destruct Hok as [Hnd Hk]. rewrite Hord in Hnd, Hk. unfold order_ok. cbn. split.
        -- by rewrite <- Permutation_cons_append.
        -- intros k. rewrite <- Hk. by rewrite <- Permutation_cons_append.
      * cbn. by rewrite app_assoc.
      * intros k [Hin| ->%list_elem_of_singleton]%elem_of_app; [by apply Hact|done].
    + etransitivity; [apply Hmono|]. cbn. rewrite map_size_delete.
      assert (is_Some (live_ids s !! key)) as [p ->]; [|simpl; lia].
      apply Hok. rewrite Hord. left.
Qed.

(** ** The invariant *)

Definition channel_keys (s : State) (ch : string) : list Key := default [] (s.(pending) !! ch).

(** Every accepted message that is not acknowledged is in exactly one place. *)
Record queue_core (s : State) : Prop := {
  qo_pending : forall ch, NoDup (channel_keys s ch) /\ forall k, k ∈ channel_keys s ch -> k.1 = ch;
  qo_queued : forall k, k ∈ s.(queued) <-> k ∈ channel_keys s k.1;
  qo_messages : forall k, is_Some (s.(messages) !! k) <-> k ∈ s.(queued);
  qo_payload : forall k p, s.(messages) !! k = Some p -> s.(live_ids) !! k = Some p;
  qo_flight : forall id f, s.(in_flight) !! id = Some f ->
    f.(fl_channel) = f.(fl_key).1 /\ f.(fl_key) ∉ s.(queued) /\ s.(live_ids) !! f.(fl_key) = Some f.(fl_payload);
  qo_single : forall id1 id2 f1 f2, s.(in_flight) !! id1 = Some f1 -> s.(in_flight) !! id2 = Some f2 ->
    f1.(fl_key) = f2.(fl_key) -> id1 = id2;
  qo_delivery : forall id, is_Some (s.(in_flight) !! id) ->
    exists n, 1 <= n < s.(next_delivery) /\ id = "d-" +:+ u64_to_string n;
  qo_next : 1 <= s.(next_delivery);
  qo_order : order_ok s }.

Record queue_ok (capacity : nat) (s : State) : Prop := {
  qk_core : queue_core s;
  qk_nonempty : forall ch, s.(pending) !! ch <> Some [];
  qk_capacity : (occupied s <= capacity)%nat;
  qk_tombstones : (size s.(live_ids) <= Nat.max TOMBSTONE_CAP capacity)%nat }.

Lemma evict_core fuel scanned s : queue_core s -> queue_core (evict_loop fuel scanned s).
Proof.
  intros [H1 H2 H3 H4 H5 H6 H7 H8 H9]. pose proof (evict_loop_spec fuel scanned s) as (T & O & L & A).
  destruct T as (T1 & T2 & T3 & T4 & T5). split; unfold channel_keys in *; rewrite ?T1, ?T2, ?T3, ?T4, ?T5; try done.
  - intros k p Hp. rewrite A; [by apply H4|]. apply key_active_spec. left. apply H3. eauto.
  - intros id f Hf. destruct (H5 id f Hf) as (? & ? & ?). split_and!; try done.
    rewrite A; [done|]. apply key_active_spec. right. eauto.
  - by apply O.
Qed.

Lemma evict_ok capacity s :
  queue_core s -> (forall ch, s.(pending) !! ch <> Some []) -> (occupied s <= capacity)%nat ->
  (size s.(live_ids) <= S (Nat.max TOMBSTONE_CAP capacity))%nat -> queue_ok capacity (evict_tombstones s).
Proof.
  intros Hc Hne Hcap Hsz. unfold evict_tombstones.
  pose proof (evict_loop_spec (length (live_order s)) 0 s) as ((T1 & T2 & T3 & T4 & T5) & _).
  split.
  - by apply evict_core.
  - intros ch. rewrite T1. apply Hne.
  - unfold occupied in *. by rewrite T2, T4.
  - pose proof (evict_loop_bound (live_order s) [] s (qo_order _ Hc) (eq_sym (app_nil_r _)) ltac:(by intros k ?%elem_of_nil)) as Hb.
    cbn [length] in Hb. lia.
Qed.

(** The delivery counter never repeats an identifier. *)
Lemma delivery_id_inj m n : 0 <= m -> 0 <= n -> "d-" +:+ u64_to_string m = "d-" +:+ u64_to_string n -> m = n.
Proof.
  intros Hm Hn E. assert (Hinj : forall a b, "d-" +:+ a = "d-" +:+ b -> a = b) by (intros a b [= ?]; done).
  apply Hinj in E. unfold u64_to_string in E.
  assert (N.to_uint (Z.to_N m) = N.to_uint (Z.to_N n)) as Hu.
  { apply (f_equal NilZero.uint_of_string) in E. rewrite !NilZero.usu in E by apply to_uint_nonnil. congruence. }
  apply DecimalN.Unsigned.to_uint_inj in Hu. lia.
Qed.

(** ** The specification

    A queue is, per channel, the list of the messages that wait in it; the
    deliveries in flight; the publications it remembers; and its load, the
    number of messages waiting or in flight. *)

Record Fifo := mkFifo {
  ff_waiting : gmap string (list (string * bytes));
  ff_flying : gmap string (Key * bytes);
  ff_seen : gmap Key bytes;
  ff_load : nat }.

Definition message_of (s : State) (k : Key) : string * bytes := (k.2, default [] (s.(messages) !! k)).

Definition fifo_of (s : State) : Fifo :=
  mkFifo (fmap (M := gmap string) (fun keys : list Key => message_of s <$> keys) s.(pending))
         (fmap (M := gmap string) (fun f => (f.(fl_key), f.(fl_payload))) s.(in_flight)) s.(live_ids) (occupied s).

Inductive QueueOp := OpPublish (r : QueuePublishRequest) | OpConsume (r : QueueConsumeRequest) | OpAck (id : string) | OpNack (id : string).
Inductive QueueReply := Published (id : string) | Delivered (l : list QueueDelivery) | Done.

Definition run_op (capacity : nat) (op : QueueOp) : ST State QueueReply :=
  match op with
  | OpPublish r => let! id := publish capacity r in ret (Published id)
  | OpConsume r => let! l := consume r in ret (Delivered l)
  | OpAck id => do! ack id in ret Done
  | OpNack id => do! nack id in ret Done
  end.

Definition waiting (q : Fifo) (ch : string) : list (string * bytes) := default [] (q.(ff_waiting) !! ch).

(** A channel with its new content; drained channels are forgotten. *)
Definition set_waiting (ch : string) (l : list (string * bytes)) (w : gmap string (list (string * bytes)))
    : gmap string (list (string * bytes)) :=
  match l with [] => delete ch w | _ => <[ch := l]> w end.

(** Deliveries of the messages [l] of channel [ch], numbered from [n]. *)
Fixpoint deliveries (ch : string) (n : Z) (l : list (string * bytes)) : list QueueDelivery :=
  match l with
  | [] => []
  | (id, payload) :: l => mkDelivery ("d-" +:+ u64_to_string n) id payload :: deliveries ch (n + 1) l
  end.

Definition launch (ch : string) (flying : gmap string (Key * bytes)) (ds : list QueueDelivery) : gmap string (Key * bytes) :=
  foldl (fun m d => <[d.(qd_delivery_id) := ((ch, d.(qd_message_id)), d.(qd_payload))]> m) flying ds.

(** How many publications the queue remembers at least, once it has seen as many. *)
Definition MEMORY : nat := 4096.

(** Every message that waits or is in flight is remembered with its payload. *)
Definition remembers (q : Fifo) : Prop :=
  (forall ch id payload, (id, payload) ∈ waiting q ch -> q.(ff_seen) !! (ch, id) = Some payload) /\
  (forall d k payload, q.(ff_flying) !! d = Some (k, payload) -> q.(ff_seen) !! k = Some payload).

(** A publication is forgotten only when more than [MEMORY] are remembered, no more
    than that takes, and never while its message is in the queue. *)
Record forgets (q q' : Fifo) : Prop := {
  fg_waiting : q'.(ff_waiting) = q.(ff_waiting);
  fg_flying : q'.(ff_flying) = q.(ff_flying);
  fg_load : q'.(ff_load) = q.(ff_load);
  fg_seen : q'.(ff_seen) ⊆ q.(ff_seen);
  fg_memory : (Nat.min (size q.(ff_seen)) MEMORY <= size q'.(ff_seen))%nat;
  fg_remembers : remembers q' }.

(** A queue that has seen no more than [MEMORY] publications forgets none. *)
Lemma forgets_nothing q q' : (size q.(ff_seen) <= MEMORY)%nat -> forgets q q' -> q'.(ff_seen) = q.(ff_seen).
Proof.
  intros Hs [_ _ _ Hsub Hm _]. rewrite Nat.min_l in Hm by done. by apply map_subseteq_size_eq.
Qed.

Inductive fifo_step (capacity : nat) (q : Fifo) : QueueOp -> Res QueueReply -> Fifo -> Prop :=
  | fifo_publish r q' :
      q.(ff_seen) !! (r.(qp_stream), r.(qp_message_id)) = None -> (q.(ff_load) < capacity)%nat ->
      forgets (mkFifo (set_waiting r.(qp_stream) (waiting q r.(qp_stream) ++ [(r.(qp_message_id), r.(qp_payload))])%list
           q.(ff_waiting)) q.(ff_flying) (<[(r.(qp_stream), r.(qp_message_id)) := r.(qp_payload)]> q.(ff_seen)) (S q.(ff_load))) q' ->
      fifo_step capacity q (OpPublish r) (Ok (Published r.(qp_message_id))) q'
  | fifo_duplicate r :
      q.(ff_seen) !! (r.(qp_stream), r.(qp_message_id)) = Some r.(qp_payload) ->
      fifo_step capacity q (OpPublish r) (Ok (Published r.(qp_message_id))) q
  | fifo_conflict r payload e :
      q.(ff_seen) !! (r.(qp_stream), r.(qp_message_id)) = Some payload -> payload <> r.(qp_payload) ->
      e.(err_code) = Conflict -> fifo_step capacity q (OpPublish r) (Err e) q
  | fifo_full r e :
      q.(ff_seen) !! (r.(qp_stream), r.(qp_message_id)) = None -> (capacity <= q.(ff_load))%nat ->
      e.(err_code) = ResourceExhausted -> fifo_step capacity q (OpPublish r) (Err e) q
  | fifo_consume r n m ds :
      m = Z.to_nat (Z.max (parse_max r.(qc_options_json)) 1) ->
      ds = deliveries r.(qc_subscription) n (take m (waiting q r.(qc_subscription))) ->
      (forall d, d ∈ ds -> q.(ff_flying) !! d.(qd_delivery_id) = None) -> NoDup (qd_delivery_id <$> ds) ->
      fifo_step capacity q (OpConsume r) (Ok (Delivered ds))
        (mkFifo (set_waiting r.(qc_subscription) (drop m (waiting q r.(qc_subscription))) q.(ff_waiting))
           (launch r.(qc_subscription) q.(ff_flying) ds) q.(ff_seen) q.(ff_load))
  | fifo_ack id load q' :
      is_Some (q.(ff_flying) !! id) -> q.(ff_load) = S load ->
      forgets (mkFifo q.(ff_waiting) (delete id q.(ff_flying)) q.(ff_seen) load) q' ->
      fifo_step capacity q (OpAck id) (Ok Done) q'
  | fifo_nack id k payload :
      q.(ff_flying) !! id = Some (k, payload) ->
      fifo_step capacity q (OpNack id) (Ok Done)
        (mkFifo (set_waiting k.1 ((k.2, payload) :: waiting q k.1) q.(ff_waiting)) (delete id q.(ff_flying)) q.(ff_seen) q.(ff_load))
  | fifo_unknown_ack id e : q.(ff_flying) !! id = None -> e.(err_code) = NotFound -> fifo_step capacity q (OpAck id) (Err e) q
  | fifo_unknown_nack id e : q.(ff_flying) !! id = None -> e.(err_code) = NotFound -> fifo_step capacity q (OpNack id) (Err e) q.

(** ** Each operation follows the specification *)

Lemma waiting_fifo s ch : waiting (fifo_of s) ch = message_of s <$> channel_keys s ch.
Proof. unfold waiting, fifo_of, channel_keys. cbn. rewrite lookup_fmap. by destruct (pending s !! ch). Qed.

(** Messages of other keys are read alike. *)
Lemma message_of_ext s s' (l : list Key) :
  (forall k, k ∈ l -> s'.(messages) !! k = s.(messages) !! k) -> message_of s' <$> l = message_of s <$> l.
Proof. intros Hm. apply list_fmap_ext. intros i k Hk%list_elem_of_lookup_2. unfold message_of. by rewrite Hm. Qed.

Lemma channel_keys_queued s ch k : queue_core s -> k ∈ channel_keys s ch -> k ∈ s.(queued).
Proof. intros Hc Hk. apply (qo_queued _ Hc). by rewrite (proj2 (qo_pending _ Hc ch) k Hk). Qed.

(** The waiting lists after a change of one channel, when the messages of the
    untouched keys are kept. *)
Lemma waiting_changed s s' ch keys :
  (forall c, c <> ch -> s'.(pending) !! c = s.(pending) !! c) -> channel_keys s' ch = keys ->
  s'.(pending) !! ch <> Some [] ->
  (forall c k, c <> ch -> k ∈ channel_keys s c -> s'.(messages) !! k = s.(messages) !! k) ->
  ff_waiting (fifo_of s') = set_waiting ch (message_of s' <$> keys) (ff_waiting (fifo_of s)).
Proof.
  intros Hother Hkeys Hne Hmsg. apply map_eq. intros c. unfold fifo_of. cbn. rewrite lookup_fmap.
  unfold channel_keys in Hkeys. destruct (decide (c = ch)) as [->|Hc].
  - destruct (pending s' !! ch) as [l|] eqn:E; cbn in *; subst keys.
    + destruct l as [|k l]; [done|]. cbn [fmap list_fmap set_waiting]. by rewrite lookup_insert_eq.
    + cbn. by rewrite lookup_delete_eq.
  - rewrite Hother by done. assert (Hl : set_waiting ch (message_of s' <$> keys) (fmap (M:=gmap string) (fun keys : list Key => message_of s <$> keys) (pending s)) !! c
      = (fun keys : list Key => message_of s <$> keys) <$> pending s !! c).
    { unfold set_waiting. destruct (message_of s' <$> keys); [rewrite lookup_delete_ne by done|rewrite lookup_insert_ne by done];
        by rewrite lookup_fmap. }
    rewrite Hl. destruct (pending s !! c) as [l|] eqn:E; [|done]. cbn. f_equal. apply message_of_ext.
    intros k Hk. apply (Hmsg c k Hc). unfold channel_keys. by rewrite E.
Qed.

Lemma fifo_of_evict s :
  fifo_of (evict_tombstones s) = mkFifo (ff_waiting (fifo_of s)) (ff_flying (fifo_of s)) (live_ids (evict_tombstones s)) (occupied s).
Proof.
  unfold evict_tombstones. pose proof (evict_loop_spec (length (live_order s)) 0 s) as ((T1 & T2 & T3 & T4 & T5) & _).
  unfold fifo_of, occupied. cbn. rewrite T1, T2, T4. f_equal. f_equal. unfold message_of. by rewrite T3.
Qed.

Lemma evict_loop_memory fuel scanned s :
  order_ok s -> (Nat.min (size s.(live_ids)) TOMBSTONE_CAP <= size (live_ids (evict_loop fuel scanned s)))%nat.
Proof.
  revert scanned s. induction fuel as [|fuel IH]; intros scanned s Hok; cbn [evict_loop]; [lia|].
  destruct (Nat.ltb_spec TOMBSTONE_CAP (size (live_ids s))) as [Hover|]; cbn [andb]; [|lia].
  destruct (_ <? _)%nat; [|lia]. destruct (live_order s) as [|key rest] eqn:Ho; [lia|]. destruct Hok as [Hnd Hk]. rewrite Ho in Hnd, Hk.
  destruct (key_active s key).
  - specialize (IH (S scanned) (set_tombstones (live_ids s) (rest ++ [key]) s)). apply IH. unfold order_ok. cbn.
    split; [by rewrite <- Permutation_cons_append|]. intros k. rewrite <- Hk. by rewrite <- Permutation_cons_append.
  - specialize (IH (S scanned) (set_tombstones (delete key (live_ids s)) rest s)). etransitivity; [|apply IH]; cbn.
    + rewrite map_size_delete. destruct (proj1 (Hk key) ltac:(left)) as [p ->]. cbn. lia.
    + apply list.NoDup_cons in Hnd as [Hn Hnd]. split; [done|]. intros k. cbn. specialize (Hk k). rewrite elem_of_cons in Hk.
      destruct (decide (k = key)) as [->|Hne]; [rewrite lookup_delete_eq; split; [done|by intros []]|].
      rewrite lookup_delete_ne by done. rewrite <- Hk. tauto.
Qed.

Lemma core_remembers s : queue_core s -> remembers (fifo_of s).
Proof.
  intros Hc. split.
  - intros ch id payload. rewrite waiting_fifo, list_elem_of_fmap. intros (k & [= -> ->] & Hk).
    rewrite <- (proj2 (qo_pending _ Hc ch) k Hk). destruct (proj2 (qo_messages _ Hc k) (channel_keys_queued _ _ _ Hc Hk)) as [p Hp].
    rewrite Hp. cbn. rewrite <- surjective_pairing. by apply (qo_payload _ Hc).
  - intros d k payload. cbn. rewrite lookup_fmap, fmap_Some. intros (f & Hf & [= -> ->]). apply (qo_flight _ Hc d f Hf).
Qed.

(** Eviction forgets as the specification allows. *)
Lemma evict_forgets s : queue_core s -> forgets (fifo_of s) (fifo_of (evict_tombstones s)).
Proof.
  intros Hc. assert (Hc' : queue_core (evict_tombstones s)) by (by apply evict_core). pose proof (fifo_of_evict s) as E.
  split; [by rewrite E..| | |by apply core_remembers].
  - cbn. unfold evict_tombstones. apply evict_loop_spec.
  - cbn. change MEMORY with TOMBSTONE_CAP. apply evict_loop_memory, Hc.
Qed.

(** The state [publish] writes before it evicts. *)
Definition published (r : QueuePublishRequest) (s : State) : State :=
  let key := (r.(qp_stream), r.(qp_message_id)) in
  mkState (<[key := r.(qp_payload)]> s.(live_ids)) (s.(live_order) ++ [key])%list
    (push_back r.(qp_stream) key s.(pending)) ({[key]} ∪ s.(queued))
    (<[key := r.(qp_payload)]> s.(messages)) s.(in_flight) s.(next_delivery).

Lemma unseen_inactive s key :
  queue_core s -> s.(live_ids) !! key = None -> key ∉ s.(queued) /\ forall id f, s.(in_flight) !! id = Some f -> f.(fl_key) <> key.
Proof.
  intros Hc Hn. split.
  - intros Hq. apply (qo_messages _ Hc) in Hq as [p Hp]. apply (qo_payload _ Hc) in Hp. congruence.
  - intros id f Hf <-. destruct (qo_flight _ Hc id f Hf) as (_ & _ & ?). congruence.
Qed.

Lemma published_channel r s ch :
  channel_keys (published r s) ch =
    if decide (ch = r.(qp_stream)) then (channel_keys s ch ++ [(r.(qp_stream), r.(qp_message_id))])%list else channel_keys s ch.
Proof.
  unfold channel_keys, published, push_back. cbn. case_decide as D; subst; [by rewrite lookup_insert_eq|by rewrite lookup_insert_ne].
Qed.

Lemma published_core r s :
  queue_core s -> s.(live_ids) !! (r.(qp_stream), r.(qp_message_id)) = None -> queue_core (published r s).
Proof.
  intros Hc Hn. destruct (unseen_inactive s _ Hc Hn) as [Hq Hf]. set (key := (qp_stream r, qp_message_id r)) in *.
  pose proof Hc as [C1 C2 C3 C4 C5 C6 C7 C8 C9]. split.
  - intros ch. rewrite published_channel. case_decide as D; [|apply C1]. subst ch. destruct (C1 (qp_stream r)) as [Hnd Hk]. split.
    + apply list.NoDup_app. split; [done|]. split; [|apply NoDup_singleton].
      intros k Hin ->%list_elem_of_singleton. apply Hq. by eapply channel_keys_queued.
    + intros k [Hin| ->%list_elem_of_singleton]%elem_of_app; [by apply Hk|done].
  - intros k. rewrite published_channel. cbn. fold key. rewrite elem_of_union, elem_of_singleton, C2.
    case_decide as D; [|split; [intros [->|?]; [by destruct D|done]|by right]].
    rewrite elem_of_app, list_elem_of_singleton. split; intros [?|?]; auto.
  - intros k. cbn. fold key. rewrite elem_of_union, elem_of_singleton, <- C3.
    destruct (decide (k = key)) as [->|Hne]; [rewrite lookup_insert_eq; split; [by left|done]|rewrite lookup_insert_ne by done].
    split; [by right|]. by intros [?|?].
  - intros k p. cbn. fold key. destruct (decide (k = key)) as [->|Hne]; [by rewrite !lookup_insert_eq|rewrite !lookup_insert_ne by done; apply C4].
  - intros id f Hif. cbn in *. destruct (C5 id f Hif) as (? & ? & ?). pose proof (Hf id f Hif). fold key.
    split; [done|]. split; [rewrite elem_of_union, elem_of_singleton; tauto|]. by rewrite lookup_insert_ne.
  - exact C6.
  - exact C7.
  - exact C8.
  - destruct C9 as [Hnd Hk]. unfold order_ok. cbn. fold key. split.
    + apply list.NoDup_app. split; [done|]. split; [|apply NoDup_singleton].
      intros k Hin ->%list_elem_of_singleton. apply Hk in Hin as [? ?]. congruence.
    + intros k. rewrite elem_of_app, list_elem_of_singleton, Hk. destruct (decide (k = key)) as [->|Hne].
      * rewrite lookup_insert_eq. split; [done|]. by right.
      * rewrite lookup_insert_ne by done. split; [by intros [?|?]|by left].
Qed.

Lemma published_occupied r s :
  queue_core s -> s.(live_ids) !! (r.(qp_stream), r.(qp_message_id)) = None -> occupied (published r s) = S (occupied s).
Proof.
  intros Hc Hn. destruct (unseen_inactive s _ Hc Hn) as [Hq _]. unfold occupied, published. cbn.
  rewrite size_union, size_singleton by set_solver. lia.
Qed.

Lemma publish_follows capacity r s res s' :
  queue_ok capacity s -> run_op capacity (OpPublish r) s = (res, s') ->
  queue_ok capacity s' /\ fifo_step capacity (fifo_of s) (OpPublish r) res (fifo_of s').
Proof.
  intros Hok. cbn [run_op]. unfold bind, publish.
  destruct (live_ids s !! (qp_stream r, qp_message_id r)) as [existing|] eqn:E.
  { case_decide as D; intros [= <- <-]; (split; [done|]).
    - subst existing. by apply fifo_duplicate.
    - by eapply fifo_conflict; [exact E|..]. }
  destruct (Nat.leb_spec capacity (occupied s)) as [Hfull|Hroom]; intros [= <- <-].
  { split; [done|]. by apply fifo_full. }
  fold (published r s). pose proof (published_core r s (qk_core _ _ Hok) E) as Hc.
  pose proof (published_occupied r s (qk_core _ _ Hok) E) as Hocc.
  assert (Hne : forall ch, pending (published r s) !! ch <> Some []).
  { intros ch Hch. assert (channel_keys (published r s) ch = []) as Hnil by (unfold channel_keys; by rewrite Hch).
    rewrite published_channel in Hnil. case_decide as D; [by destruct (channel_keys s ch)|].
    unfold published, push_back in Hch. cbn in Hch. rewrite lookup_insert_ne in Hch by done. by apply (qk_nonempty _ _ Hok ch). }
  split.
  - apply evict_ok; [done|done|lia|]. unfold published. cbn. rewrite map_size_insert_None by done.
    pose proof (qk_tombstones _ _ Hok). lia.
  - apply fifo_publish; [done|done|]. pose proof (evict_forgets _ Hc) as Hf.
    assert (Hq : fifo_of (published r s) = mkFifo (set_waiting (qp_stream r) (waiting (fifo_of s) (qp_stream r) ++ [(qp_message_id r, qp_payload r)])%list
      (ff_waiting (fifo_of s))) (ff_flying (fifo_of s)) (<[(qp_stream r, qp_message_id r) := qp_payload r]> (ff_seen (fifo_of s)))
      (S (ff_load (fifo_of s)))); [|by rewrite <- Hq].
    assert (Hw : ff_waiting (fifo_of (published r s)) = set_waiting (qp_stream r) (waiting (fifo_of s) (qp_stream r) ++ [(qp_message_id r, qp_payload r)])%list
      (ff_waiting (fifo_of s))); [|unfold fifo_of at 1; cbn in Hw |- *; by rewrite Hw, Hocc].
    rewrite (waiting_changed s (published r s) (qp_stream r) (channel_keys s (qp_stream r) ++ [(qp_stream r, qp_message_id r)])).
    + rewrite fmap_app, (message_of_ext s), <- waiting_fifo.
      * f_equal. f_equal. cbn. unfold message_of, published. cbn. by rewrite lookup_insert_eq.
      * intros k Hk. unfold published. cbn. rewrite lookup_insert_ne; [done|]. intros <-.
        apply (proj1 (unseen_inactive s _ (qk_core _ _ Hok) E)). eapply channel_keys_queued; [apply Hok|exact Hk].
    + intros c Hcne. unfold published, push_back. cbn. by rewrite lookup_insert_ne.
    + rewrite published_channel. by rewrite decide_True.
    + apply Hne.
    + intros c k Hcne Hk. unfold published. cbn. rewrite lookup_insert_ne; [done|]. intros <-.
      apply (proj1 (unseen_inactive s _ (qk_core _ _ Hok) E)). eapply channel_keys_queued; [apply Hok|exact Hk].
Qed.

(** The state after the first message of channel [ch] has been handed out. *)
Definition taken (ch : string) (key : Key) (rest : list Key) (payload : bytes) (s : State) : State :=
  mkState s.(live_ids) s.(live_order) (<[ch := rest]> s.(pending)) (s.(queued) ∖ {[key]}) (delete key s.(messages))
    (<["d-" +:+ u64_to_string s.(next_delivery) := mkInFlight ch key payload]> s.(in_flight)) (s.(next_delivery) + 1).

Lemma fresh_delivery s : queue_core s -> s.(in_flight) !! ("d-" +:+ u64_to_string s.(next_delivery)) = None.
Proof.
  intros Hc. destruct (in_flight s !! _) eqn:E; [|done]. destruct (qo_delivery _ Hc ("d-" +:+ u64_to_string (next_delivery s))) as (n & Hn & Hid); [eauto|].
  pose proof (qo_next _ Hc). apply delivery_id_inj in Hid; lia.
Qed.

Lemma taken_channel ch key rest payload s c :
  channel_keys (taken ch key rest payload s) c = if decide (c = ch) then rest else channel_keys s c.
Proof. unfold channel_keys, taken. cbn. case_decide as D; subst; [by rewrite lookup_insert_eq|by rewrite lookup_insert_ne]. Qed.

Lemma taken_core ch key rest payload s :
  queue_core s -> channel_keys s ch = key :: rest -> s.(messages) !! key = Some payload ->
  queue_core (taken ch key rest payload s).
Proof.
  intros Hc Hch Hp. pose proof (fresh_delivery s Hc) as Hfresh. pose proof Hc as [C1 C2 C3 C4 C5 C6 C7 C8 C9].
  destruct (C1 ch) as [Hnd Hkch]. rewrite Hch in Hnd, Hkch. apply list.NoDup_cons in Hnd as [Hnin Hnd].
  assert (Hk1 : key.1 = ch) by (apply Hkch; left).
  assert (Hkq : key ∈ s.(queued)) by (apply C2; rewrite Hk1, Hch; left).
  set (d := "d-" +:+ u64_to_string (next_delivery s)) in *. split.
  - intros c. rewrite taken_channel. case_decide as D; [|apply C1]. subst c. split; [done|]. intros k Hk. apply Hkch. by right.
  - intros k. rewrite taken_channel. cbn. rewrite elem_of_difference, elem_of_singleton, C2. case_decide as D.
    + rewrite D, Hch, elem_of_cons. split; [tauto|]. intros Hin. split; [by right|]. intros ->. done.
    + split; [by intros [? _]|]. intros Hin. split; [done|]. intros ->. done.
  - intros k. cbn. rewrite elem_of_difference, elem_of_singleton, <- C3. destruct (decide (k = key)) as [->|Hne].
    + rewrite lookup_delete_eq. split; [by intros [? ?]|tauto].
    + rewrite lookup_delete_ne by done. tauto.
  - intros k p. cbn. intros [_ Hk]%lookup_delete_Some. by apply C4.
  - intros id f. cbn. fold d. intros [[<- <-]|[_ Hf]]%lookup_insert_Some; cbn.
    + split; [done|]. split; [set_solver|]. by apply C4.
    + destruct (C5 id f Hf) as (? & ? & ?). split; [done|]. split; [set_solver|done].
  - intros id1 id2 f1 f2. cbn. fold d. intros [[<- <-]|[_ Hf1]]%lookup_insert_Some [[<- <-]|[_ Hf2]]%lookup_insert_Some; cbn; [done|..].
    + intros Hk. destruct (C5 _ _ Hf2) as (_ & Hnq & _). by rewrite <- Hk in Hnq.
    + intros Hk. destruct (C5 _ _ Hf1) as (_ & Hnq & _). by rewrite Hk in Hnq.
    + by apply C6.
  - intros id. cbn. fold d. destruct (decide (id = d)) as [->|Hne].
    + intros _. exists (next_delivery s). split; [lia|done].
    + rewrite lookup_insert_ne by done. intros (n & Hn & Hid)%C7. exists n. split; [lia|done].
  - cbn. lia.
  - exact C9.
Qed.

Lemma taken_occupied ch key rest payload s :
  queue_core s -> key ∈ s.(queued) -> occupied (taken ch key rest payload s) = occupied s.
Proof.
  intros Hc Hq. unfold occupied, taken. cbn. rewrite size_difference, size_singleton by set_solver.
  rewrite map_size_insert_None by (by apply fresh_delivery).
  pose proof (subseteq_size {[key]} (queued s) ltac:(set_solver)) as Hs. rewrite size_singleton in Hs. lia.
Qed.

(** What the consuming loop hands out: the first [max] messages, in order. *)
Lemma consume_loop_spec ch keys : forall max s out out' s',
  queue_core s -> channel_keys s ch = keys -> consume_loop ch keys max s out = (out', s') ->
  let m := Z.to_nat max in
  let ds := deliveries ch s.(next_delivery) (message_of s <$> take m keys) in
  queue_core s' /\ channel_keys s' ch = drop m keys /\ (forall c, c <> ch -> s'.(pending) !! c = s.(pending) !! c) /\
  s'.(live_ids) = s.(live_ids) /\ occupied s' = occupied s /\
  (forall k, k ∉ take m keys -> s'.(messages) !! k = s.(messages) !! k) /\
  out' = (out ++ ds)%list /\ ff_flying (fifo_of s') = launch ch (ff_flying (fifo_of s)) ds.
Proof.
  induction keys as [|key rest IH]; intros max s out out' s' Hc Hch E m ds; cbn [consume_loop] in E.
  { injection E as <- <-. unfold ds. rewrite take_nil, drop_nil. cbn. rewrite app_nil_r. done. }
  destruct (Z.leb_spec max 0) as [Hmax|Hmax].
  { injection E as <- <-. unfold ds, m. replace (Z.to_nat max) with 0%nat by lia. cbn. rewrite app_nil_r. done. }
  assert (Hkq : key ∈ s.(queued)) by (eapply channel_keys_queued; [done|rewrite Hch; left]).
  destruct (proj2 (qo_messages _ Hc key) Hkq) as [payload Hp]. rewrite Hp in E. fold (taken ch key rest payload s) in E.
  pose proof (taken_core ch key rest payload s Hc Hch Hp) as Hc1.
  apply IH in E as (Hc' & Hch' & Hoth & Hlive & Hocc & Hmsg & Hout & Hfly); [|done|by rewrite taken_channel, decide_True].
  assert (Hm : m = S (Z.to_nat (max - 1))) by lia.
  assert (Hnin : key ∉ rest).
  { destruct (qo_pending _ Hc ch) as [Hnd _]. rewrite Hch in Hnd. by apply list.NoDup_cons in Hnd as [? _]. }
  assert (Hmo : message_of (taken ch key rest payload s) <$> take (Z.to_nat (max - 1)) rest
                = message_of s <$> take (Z.to_nat (max - 1)) rest).
  { apply message_of_ext. intros k Hk. unfold taken. cbn. rewrite lookup_delete_ne; [done|]. intros <-.
    apply Hnin. rewrite <- (take_drop (Z.to_nat (max - 1)) rest). apply elem_of_app. by left. }
  rewrite Hmo in Hout, Hfly.
  assert (Hds : ds = mkDelivery ("d-" +:+ u64_to_string (next_delivery s)) key.2 payload ::
     deliveries ch (next_delivery s + 1) (message_of s <$> take (Z.to_nat (max - 1)) rest)).
  { unfold ds. rewrite Hm. cbn [take fmap list_fmap deliveries]. unfold message_of at 1. by rewrite Hp. }
  split; [done|]. split; [by rewrite Hch', Hm|]. split_and!.
  - intros c Hne. rewrite Hoth by done. unfold taken. cbn. by rewrite lookup_insert_ne.
  - by rewrite Hlive.
  - rewrite Hocc. by apply taken_occupied.
  - intros k Hk. rewrite Hm in Hk. cbn [take] in Hk. apply not_elem_of_cons in Hk as [Hne Hk]. rewrite Hmsg by done.
    unfold taken. cbn. by rewrite lookup_delete_ne.
  - rewrite Hout, Hds, <- app_assoc. done.
  - rewrite Hfly, Hds. cbn [launch foldl]. f_equal. unfold fifo_of, taken. cbn. rewrite fmap_insert. cbn.
    destruct (qo_pending _ Hc ch) as [_ Hk1]. rewrite Hch in Hk1. rewrite <- (Hk1 key) by left. by destruct key.
Qed.

Lemma elem_of_deliveries ch n l d :
  d ∈ deliveries ch n l -> exists i, n <= i < n + Z.of_nat (length l) /\ d.(qd_delivery_id) = "d-" +:+ u64_to_string i.
Proof.
  revert n. induction l as [|[id p] l IH]; intros n; cbn [deliveries length]; [by intros ?%elem_of_nil|].
  intros [->|Hin]%elem_of_cons; [exists n; split; [lia|done]|].
  destruct (IH _ Hin) as (i & Hi & ->). exists i. split; [lia|done].
Qed.

Lemma deliveries_distinct ch n l : 0 <= n -> NoDup (qd_delivery_id <$> deliveries ch n l).
Proof.
  revert n. induction l as [|[id p] l IH]; intros n Hn; cbn [deliveries fmap list_fmap]; [constructor|].
  apply list.NoDup_cons. split; [|apply IH; lia]. intros (d & Hd & Hin)%list_elem_of_fmap. cbn in Hd.
  destruct (elem_of_deliveries _ _ _ _ Hin) as (i & Hi & Hid). rewrite Hid in Hd. apply delivery_id_inj in Hd; lia.
Qed.

Lemma drop_drained_same ch s :
  live_ids (drop_drained ch s) = s.(live_ids) /\ occupied (drop_drained ch s) = occupied s /\
  messages (drop_drained ch s) = s.(messages) /\ in_flight (drop_drained ch s) = s.(in_flight) /\
  (forall c, channel_keys (drop_drained ch s) c = channel_keys s c) /\
  (forall c, c <> ch -> pending (drop_drained ch s) !! c = s.(pending) !! c) /\
  pending (drop_drained ch s) !! ch <> Some [] /\ (queue_core s -> queue_core (drop_drained ch s)).
Proof.
  unfold drop_drained. destruct (pending s !! ch) as [[|k l]|] eqn:E; try (split_and!; try done; by rewrite E).
  assert (Hk : forall c, default [] (delete ch (pending s) !! c) = default [] (pending s !! c)).
  { intros c. destruct (decide (c = ch)) as [->|Hne]; [by rewrite lookup_delete_eq, E|by rewrite lookup_delete_ne]. }
  split_and!; try done.
  - intros c Hne. cbn. by rewrite lookup_delete_ne.
  - cbn. by rewrite lookup_delete_eq.
  - intros [C1 C2 C3 C4 C5 C6 C7 C8 C9]. split; try done.
    + intros c. unfold channel_keys. cbn. rewrite Hk. apply C1.
    + intros k. unfold channel_keys. cbn. rewrite Hk. apply C2.
Qed.

Lemma consume_follows capacity r s res s' :
  queue_ok capacity s -> run_op capacity (OpConsume r) s = (res, s') ->
  queue_ok capacity s' /\ fifo_step capacity (fifo_of s) (OpConsume r) res (fifo_of s').
Proof.
  intros Hok. cbn [run_op]. unfold bind, consume. set (ch := qc_subscription r). set (max := Z.max _ 1).
  fold (channel_keys s ch). destruct (consume_loop ch (channel_keys s ch) max s []) as [out s1] eqn:E.
  apply consume_loop_spec in E as (Hc1 & Hch & Hoth & Hlive & Hocc & Hmsg & Hout & Hfly); [|apply Hok|done].
  cbn [app] in Hout. intros [= <- <-].
  destruct (drop_drained_same ch s1) as (D1 & D2 & D3 & D4 & D5 & D6 & D7 & D8).
  split.
  - split; [by apply D8| |by rewrite D2, Hocc; apply Hok|by rewrite D1, Hlive; apply Hok].
    intros c. destruct (decide (c = ch)) as [->|Hne]; [done|]. rewrite D6, Hoth by done. apply Hok.
  - assert (Hw : ff_waiting (fifo_of (drop_drained ch s1)) =
      set_waiting ch (drop (Z.to_nat max) (waiting (fifo_of s) ch)) (ff_waiting (fifo_of s))).
    { rewrite (waiting_changed s (drop_drained ch s1) ch (drop (Z.to_nat max) (channel_keys s ch))).
      - rewrite waiting_fifo, <- fmap_drop. f_equal. apply message_of_ext. intros k Hk. rewrite D3. apply Hmsg.
        intros Hk2. destruct (qo_pending _ (qk_core _ _ Hok) ch) as [Hnd _].
        rewrite <- (take_drop (Z.to_nat max)) in Hnd. apply list.NoDup_app in Hnd as (_ & Hdis & _). by apply (Hdis k).
      - intros c Hne. by rewrite D6, Hoth.
      - by rewrite D5.
      - done.
      - intros c k Hne Hk. rewrite D3. apply Hmsg. intros Hk2. destruct (qo_pending _ (qk_core _ _ Hok) c) as [_ H1].
        destruct (qo_pending _ (qk_core _ _ Hok) ch) as [_ H2]. apply Hne. rewrite <- (H1 k Hk). apply H2.
        rewrite <- (take_drop (Z.to_nat max)). apply elem_of_app. by left. }
    assert (Hq : fifo_of (drop_drained ch s1) = mkFifo (set_waiting ch (drop (Z.to_nat max) (waiting (fifo_of s) ch)) (ff_waiting (fifo_of s)))
      (launch ch (ff_flying (fifo_of s)) out) (ff_seen (fifo_of s)) (ff_load (fifo_of s))).
    { rewrite <- Hw, Hout, <- Hfly. unfold fifo_of. cbn. by rewrite D1, D2, D4, Hlive, Hocc. }
    rewrite Hq. pose proof (qo_next _ (qk_core _ _ Hok)) as Hnext.
    apply (fifo_consume capacity (fifo_of s) r (next_delivery s) (Z.to_nat max)); [done| |..].
    + rewrite Hout, waiting_fifo, <- fmap_take. done.
    + intros d Hd. rewrite Hout in Hd. destruct (elem_of_deliveries _ _ _ _ Hd) as (i & Hi & ->). unfold fifo_of. cbn.
      rewrite lookup_fmap. destruct (in_flight s !! _) as [f|] eqn:Ef; [|done].
      destruct (qo_delivery _ (qk_core _ _ Hok) ("d-" +:+ u64_to_string i)) as (n & Hn & Hid); [eauto|].
      apply delivery_id_inj in Hid; lia.
    + rewrite Hout. apply deliveries_distinct. lia.
Qed.

(** The state without one delivery in flight. *)
Definition landed (id : string) (s : State) : State :=
  mkState s.(live_ids) s.(live_order) s.(pending) s.(queued) s.(messages) (delete id s.(in_flight)) s.(next_delivery).

Lemma landed_core id s : queue_core s -> queue_core (landed id s).
Proof.
  intros [C1 C2 C3 C4 C5 C6 C7 C8 C9]. split; try done.
  - intros id' f. cbn. intros [_ Hf]%lookup_delete_Some. by apply (C5 id').
  - intros id1 id2 f1 f2. cbn. intros [_ H1]%lookup_delete_Some [_ H2]%lookup_delete_Some. by apply C6.
  - intros id' [f Hf]. cbn in Hf. apply lookup_delete_Some in Hf as [_ Hf]. apply (C7 id'). eauto.
Qed.

Lemma landed_occupied id s : is_Some (s.(in_flight) !! id) -> occupied s = S (occupied (landed id s)).
Proof.
  intros [f Hf]. unfold occupied, landed. cbn. rewrite map_size_delete, Hf.
  assert (size (in_flight s) <> 0)%nat; [|cbn; lia]. intros E%map_size_empty_inv. rewrite E in Hf. done.
Qed.

Lemma flying_lookup s id : ff_flying (fifo_of s) !! id = (fun f => (f.(fl_key), f.(fl_payload))) <$> s.(in_flight) !! id.
Proof. unfold fifo_of. cbn. apply lookup_fmap. Qed.

Lemma ack_follows capacity id s res s' :
  queue_ok capacity s -> run_op capacity (OpAck id) s = (res, s') ->
  queue_ok capacity s' /\ fifo_step capacity (fifo_of s) (OpAck id) res (fifo_of s').
Proof.
  intros Hok. cbn [run_op]. unfold bind, ack. destruct (in_flight s !! id) as [f|] eqn:E; intros [= <- <-].
  2:{ split; [done|]. apply fifo_unknown_ack; [by rewrite flying_lookup, E|done]. }
  fold (landed id s). pose proof (landed_occupied id s ltac:(eauto)) as Hocc. split.
  - apply evict_ok; [apply landed_core, Hok|apply (qk_nonempty _ _ Hok)|pose proof (qk_capacity _ _ Hok); lia|].
    cbn. pose proof (qk_tombstones _ _ Hok). lia.
  - apply (fifo_ack capacity (fifo_of s) id (occupied (landed id s))); [rewrite flying_lookup, E; eauto|exact Hocc|].
    pose proof (evict_forgets (landed id s) (landed_core id s (qk_core _ _ Hok))) as Hf.
    replace (fifo_of (landed id s)) with (mkFifo (ff_waiting (fifo_of s)) (delete id (ff_flying (fifo_of s))) (ff_seen (fifo_of s)) (occupied (landed id s))) in Hf; [done|].
    unfold fifo_of, landed. cbn. by rewrite fmap_delete.
Qed.

(** The state [nack] writes. *)
Definition returned (id : string) (f : InFlight) (s : State) : State :=
  mkState s.(live_ids) s.(live_order) (push_front f.(fl_channel) f.(fl_key) s.(pending))
    ({[f.(fl_key)]} ∪ s.(queued)) (<[f.(fl_key) := f.(fl_payload)]> s.(messages)) (delete id s.(in_flight)) s.(next_delivery).

Lemma returned_channel id f s c :
  channel_keys (returned id f s) c = if decide (c = f.(fl_channel)) then f.(fl_key) :: channel_keys s c else channel_keys s c.
Proof. unfold channel_keys, returned, push_front. cbn. case_decide as D; subst; [by rewrite lookup_insert_eq|by rewrite lookup_insert_ne]. Qed.

Lemma returned_core id f s : queue_core s -> s.(in_flight) !! id = Some f -> queue_core (returned id f s).
Proof.
  intros Hc Hf. pose proof Hc as [C1 C2 C3 C4 C5 C6 C7 C8 C9]. destruct (C5 id f Hf) as (Hch & Hnq & Hlive).
  assert (Hnin : fl_key f ∉ channel_keys s (fl_channel f)) by (intros Hk; apply Hnq, C2; by rewrite <- Hch).
  split.
  - intros c. rewrite returned_channel. case_decide as D; [|apply C1]. subst c. destruct (C1 (fl_channel f)) as [Hnd Hk].
    split; [by apply list.NoDup_cons|]. intros k [->|Hin]%elem_of_cons; [done|by apply Hk].
  - intros k. rewrite returned_channel. cbn. rewrite elem_of_union, elem_of_singleton, C2. case_decide as D.
    + by rewrite elem_of_cons.
    + split; [intros [->|?]; [by destruct D|done]|by right].
  - intros k. cbn. rewrite elem_of_union, elem_of_singleton, <- C3. destruct (decide (k = fl_key f)) as [->|Hne].
    + rewrite lookup_insert_eq. split; [by left|done].
    + rewrite lookup_insert_ne by done. split; [by right|by intros [?|?]].
  - intros k p. cbn. intros [[<- <-]|[_ Hk]]%lookup_insert_Some; [done|by apply C4].
  - intros id' f'. cbn. intros [Hne Hf']%lookup_delete_Some. destruct (C5 id' f' Hf') as (? & ? & ?). split; [done|].
    split; [|done]. rewrite elem_of_union, elem_of_singleton. intros [Hk|?]; [|done]. apply Hne. by eapply C6.
  - intros id1 id2 f1 f2. cbn. intros [_ H1]%lookup_delete_Some [_ H2]%lookup_delete_Some. by apply C6.
  - intros id' [f' Hf']. cbn in Hf'. apply lookup_delete_Some in Hf' as [_ Hf']. apply C7. eauto.
  - exact C8.
  - exact C9.
Qed.

Lemma nack_follows capacity id s res s' :
  queue_ok capacity s -> run_op capacity (OpNack id) s = (res, s') ->
  queue_ok capacity s' /\ fifo_step capacity (fifo_of s) (OpNack id) res (fifo_of s').
Proof.
  intros Hok. cbn [run_op]. unfold bind, nack. destruct (in_flight s !! id) as [f|] eqn:E; intros [= <- <-].
  2:{ split; [done|]. apply fifo_unknown_nack; [by rewrite flying_lookup, E|done]. }
  fold (returned id f s). pose proof (qk_core _ _ Hok) as Hc. destruct (qo_flight _ Hc id f E) as (Hch & Hnq & _).
  assert (Hocc : occupied (returned id f s) = occupied s).
  { rewrite (landed_occupied id s) by eauto. unfold occupied, returned, landed. cbn.
    rewrite size_union, size_singleton by set_solver. lia. }
  assert (Hne : forall c, pending (returned id f s) !! c <> Some []).
  { intros c. unfold returned, push_front. cbn. destruct (decide (c = fl_channel f)) as [->|Hd];
      [by rewrite lookup_insert_eq|rewrite lookup_insert_ne by done; apply Hok]. }
  split.
  - split; [by apply returned_core|done|rewrite Hocc; apply Hok|apply (qk_tombstones _ _ Hok)].
  - assert (Hq : fifo_of (returned id f s) = mkFifo (set_waiting (fl_key f).1 (((fl_key f).2, fl_payload f) :: waiting (fifo_of s) (fl_key f).1)
      (ff_waiting (fifo_of s))) (delete id (ff_flying (fifo_of s))) (ff_seen (fifo_of s)) (ff_load (fifo_of s))).
    { assert (Hold : forall c k, k ∈ channel_keys s c -> messages (returned id f s) !! k = messages s !! k).
      { intros c k Hk. unfold returned. cbn. rewrite lookup_insert_ne; [done|]. intros <-. apply Hnq. by eapply channel_keys_queued. }
      rewrite <- Hch, waiting_fifo, <- (message_of_ext s (returned id f s)) by eauto.
      replace ((fl_key f).2, fl_payload f) with (message_of (returned id f s) (fl_key f))
        by (unfold message_of, returned; cbn; by rewrite lookup_insert_eq).
      rewrite <- fmap_cons, <- (waiting_changed s (returned id f s)).
      - unfold fifo_of at 1. cbn [ff_waiting]. f_equal; [|exact Hocc]. unfold fifo_of, returned. cbn. by rewrite fmap_delete.
      - intros c Hd. unfold returned, push_front. cbn. by rewrite lookup_insert_ne.
      - by rewrite returned_channel, decide_True.
      - done.
      - eauto. }
    rewrite Hq. apply fifo_nack. by rewrite flying_lookup, E.
Qed.

(** ** Behaviour *)

Lemma queue_new_ok capacity : queue_ok capacity queue_new.
Proof.
  split; [split| | |]; try done.
  - intros ch. split; [constructor|]. by intros k ?%elem_of_nil.
  - intros k. split; [set_solver|]. by intros ?%elem_of_nil.
  - intros k. split; [by intros [? ?]|set_solver].
  - by intros id [? ?].
  - split; [constructor|]. intros k. split; [by intros ?%elem_of_nil|by intros [? ?]].
  - unfold occupied. cbn. rewrite size_empty, map_size_empty. lia.
  - cbn. rewrite map_size_empty. lia.
Qed.

Lemma run_op_follows capacity op s res s' :
  queue_ok capacity s -> run_op capacity op s = (res, s') ->
  queue_ok capacity s' /\ fifo_step capacity (fifo_of s) op res (fifo_of s').
Proof.
  destruct op; [apply publish_follows|apply consume_follows|apply ack_follows|apply nack_follows].
Qed.

(** A history of operations, failed ones included. *)
Inductive queue_runs (capacity : nat) : State -> list (QueueOp * Res QueueReply) -> State -> Prop :=
  | runs_nil s : queue_runs capacity s [] s
  | runs_cons s op res s1 l s2 : run_op capacity op s = (res, s1) -> queue_runs capacity s1 l s2 ->
      queue_runs capacity s ((op, res) :: l) s2.

Inductive fifo_runs (capacity : nat) : Fifo -> list (QueueOp * Res QueueReply) -> Fifo -> Prop :=
  | fruns_nil q : fifo_runs capacity q [] q
  | fruns_cons q op res q1 l q2 : fifo_step capacity q op res q1 -> fifo_runs capacity q1 l q2 ->
      fifo_runs capacity q ((op, res) :: l) q2.

Lemma runs_follow capacity s l s' :
  queue_ok capacity s -> queue_runs capacity s l s' -> queue_ok capacity s' /\ fifo_runs capacity (fifo_of s) l (fifo_of s').
Proof.
  intros Hok Hr. induction Hr as [s|s op res s1 l s2 E _ IH]; [split; [done|constructor]|].
  destruct (run_op_follows _ _ _ _ _ Hok E) as [Hok1 Hstep]. destruct (IH Hok1) as [Hok2 Hrest].
  split; [done|]. by econstructor.
Qed.

(** The publications of a history are remembered while they are no more than [MEMORY]. *)
Definition request_key (r : QueuePublishRequest) : Key := (r.(qp_stream), r.(qp_message_id)).

Lemma fifo_step_seen capacity q op res q' :
  fifo_step capacity q op res q' -> (size q.(ff_seen) < MEMORY)%nat ->
  q.(ff_seen) ⊆ q'.(ff_seen) /\ (size q'.(ff_seen) <= S (size q.(ff_seen)))%nat /\
  forall r id, op = OpPublish r -> res = Ok (Published id) -> q'.(ff_seen) !! request_key r = Some r.(qp_payload).
Proof.
  intros Hs Hm. destruct Hs as [r q' Hn _ Hf|r Hd|r p e _ _ _|r e _ _ _|r n m ds _ _ _ _|id load q' _ _ Hf|id k p _|id e _ _|id e _ _];
    try (cbn; split_and!; [done|lia|by intros ? ? [= <-]]).
  - apply forgets_nothing in Hf as ->; cbn; [|rewrite map_size_insert_None by done; lia].
    split; [by apply insert_subseteq|]. rewrite map_size_insert_None by done. split; [lia|].
    intros r' id [= <-] _. apply lookup_insert_eq.
  - apply forgets_nothing in Hf as ->; cbn; [|lia]. split_and!; [done|lia|done].
Qed.

Lemma fifo_runs_seen capacity q l q' :
  fifo_runs capacity q l q' -> (size q.(ff_seen) + length l <= MEMORY)%nat ->
  q.(ff_seen) ⊆ q'.(ff_seen) /\
  forall r id, (OpPublish r, Ok (Published id)) ∈ l -> q'.(ff_seen) !! request_key r = Some r.(qp_payload).
Proof.
  induction 1 as [q|q op res q1 l q2 Hs _ IH]; intros Hm; [split; [done|]; by intros r id ?%elem_of_nil|]. cbn [length] in Hm.
  destruct (fifo_step_seen _ _ _ _ _ Hs) as (H1 & H2 & H3); [lia|]. destruct IH as [IH1 IH2]; [lia|].
  split; [by etransitivity|]. intros r id [[= <- <-]|Hin]%elem_of_cons; [|by eapply IH2].
  eapply lookup_weaken; [by eapply H3|done].
Qed.

(** C28: Every history of the queue, with its replies, is one of the abstract
    FIFO queue: messages of a stream are delivered in order, a delivery that is
    returned goes to the front, an acknowledged one is gone, a publication the
    queue remembers is never enqueued again, and refusals happen only for the
    documented reasons, with the documented codes.  A publication is remembered
    while its message is in the queue, and after it is acknowledged until more
    than 4096 are remembered.  So within 4096 operations a publication that was
    accepted, repeated at any later time, is answered alike and changes nothing. *)
Theorem queue_refines_fifo capacity l s :
  queue_runs capacity queue_new l s ->
  fifo_runs capacity (mkFifo ∅ ∅ ∅ 0) l (fifo_of s) /\
  ((length l <= MEMORY)%nat -> forall r id, (OpPublish r, Ok (Published id)) ∈ l -> publish capacity r s = (Ok r.(qp_message_id), s)).
Proof.
  intros Hr. destruct (runs_follow _ _ _ _ (queue_new_ok capacity) Hr) as [_ Hf].
  replace (fifo_of queue_new) with (mkFifo ∅ ∅ ∅ 0) in Hf by (unfold fifo_of, queue_new, occupied; cbn; by rewrite !fmap_empty).
  split; [done|]. intros Hl r id Hin. destruct (fifo_runs_seen _ _ _ _ Hf) as [_ Hs]; [done|]. specialize (Hs r id Hin).
  unfold publish. change (live_ids s !! (qp_stream r, qp_message_id r) = Some (qp_payload r)) in Hs. rewrite Hs. by rewrite decide_True.
Qed.

(** The memory of the queue stays bounded: at most [capacity] messages wait
    or fly, and the dedupe set never exceeds its cap by more than what the
    messages still in the queue need; each such message is remembered. *)
Theorem queue_stays_bounded capacity l s :
  queue_runs capacity queue_new l s ->
  (occupied s <= capacity)%nat /\ (size s.(live_ids) <= Nat.max TOMBSTONE_CAP capacity)%nat /\
  length s.(live_order) = size s.(live_ids) /\
  (forall k, k ∈ s.(queued) -> is_Some (s.(live_ids) !! k)) /\
  (forall id f, s.(in_flight) !! id = Some f -> s.(live_ids) !! f.(fl_key) = Some f.(fl_payload)).
Proof.
  intros Hr. destruct (runs_follow _ _ _ _ (queue_new_ok capacity) Hr) as [[Hc _ H1 H2] _].
  split_and!; try done.
  - symmetry. by apply order_size, Hc.
  - intros k Hk. apply (qo_messages _ Hc) in Hk as [p Hp]. exists p. by apply (qo_payload _ Hc).
  - intros id f Hf. apply (qo_flight _ Hc id f Hf).
Qed.
