(* ===== verification/ResourceUri.v ===== *)
(** * Logical resource URIs ([resource-uri/src/parser.rs], [resource-uri/src/resolver.rs])

    The typed references adapters use instead of paths: the strict parser, its
    canonical rendering, and resolution behind a capability gate.  Parsed
    references render back to themselves, and a workspace path never leaves its
    root. *)

From S2P Require Import Prelude Ids Text StoreBase Identity.

Open Scope string_scope.
Open Scope Z_scope.

Inductive ResourceUri :=
  | UriWorkspace (workspace_id : Uuid) (relative_path : string)
  | UriArtifact (id : Uuid)
  | UriSecret (namespace name : string)
  | UriSandbox (id : Uuid)
  | UriRun (id : Uuid)
  | UriTask (id : Uuid)
  | UriSession (id : Uuid)
  | UriAdapter (adapter_id : Uuid) (version digest : string).

#[export] Instance ResourceUri_eq_dec : EqDecision ResourceUri.
Proof. solve_decision. Defined.

Definition invalid_uri (message : string) : KernelError := kerr InvalidArgument message.

(** ** Tokens *)

Definition hex (byte : ascii) : Res N :=
  let n := N_of_ascii byte in
  if byte_between 48 57 n then Ok (n - 48)%N
  else if byte_between 97 102 n then Ok (n - 97 + 10)%N
  else if byte_between 65 70 n then Ok (n - 65 + 10)%N
  else Err (invalid_uri "malformed percent-encoding").

(** The loop of [decode_segment] over the bytes of the segment. *)
Fixpoint decode_bytes (s : string) : Res string :=
  match s with
  | "" => Ok ""
  | String c rest =>
      if decide (c = "%"%char) then
        match rest with
        | String h (String l rest') =>
            let? hi := hex h in
            let? lo := hex l in
            res_map (String (ascii_of_N (16 * hi + lo))) (decode_bytes rest')
        | _ => Err (invalid_uri "truncated percent-encoding")
        end
      else res_map (String c) (decode_bytes rest)
  end.

Definition decode_segment (segment : string) : Res string :=
  let? out := decode_bytes segment in
  if is_utf8 out then Ok out else Err (invalid_uri "percent-decoded bytes are not UTF-8").

(** [%], [/], [\], [#], [?], controls and white space. *)
Definition delimiter (c : N) : bool :=
  bool_decide (c ∈ [37; 47; 92; 35; 63]%N) || is_control c || is_whitespace c.

Definition is_canonical_token (value : string) : bool := negb (chars_any delimiter value).

Definition escapes (value : string) : bool :=
  bool_decide (value = "") || bool_decide (value = ".") || bool_decide (value = "..").

Definition decode_token (segment : string) : Res string :=
  let? decoded := decode_segment segment in
  if escapes decoded then Err (invalid_uri "token escapes or is empty")
  else if negb (is_canonical_token decoded) then Err (invalid_uri "decoded token reintroduces a delimiter")
  else Ok decoded.

Definition path_segment (segment : string) : Res string :=
  let? decoded := decode_segment segment in
  if escapes decoded then Err (invalid_uri "path segment escapes or is empty")
  else if negb (is_canonical_token decoded) then Err (invalid_uri "decoded path segment reintroduces a delimiter")
  else Ok decoded.

Definition normalize_path (raw : string) : Res string :=
  if str_is_empty raw || starts_with "/" raw || str_contains "\" raw
  then Err (invalid_uri "workspace path is not a relative unix path")
  else
  let? segments := res_collect path_segment (split_on "/" raw) in
  Ok (join_with "/" segments).

Definition single_id (rest what : string) : Res string :=
  if str_contains "/" rest || str_contains "#" rest || str_contains "@" rest || str_is_empty rest
  then Err (invalid_uri what) else Ok rest.

(** ** Parsing and rendering *)

Definition version_byte (c : ascii) : bool :=
  is_ascii_alphanumeric c || bool_decide (c ∈ ["."; "-"; "_"]%char).
Definition digest_byte (c : ascii) : bool :=
  is_ascii_alphanumeric c || bool_decide (c ∈ [":"; "-"; "_"]%char).

(** The [Debug] form of a text in an error message. *)
Class DebugText := debug_text : string -> string.

Section Parser.
Context `{!Ext} `{!DebugText}.

Definition bare_id (rest what : string) (make : Uuid -> ResourceUri) : Res ResourceUri :=
  let? text := single_id rest what in
  let? id := ok_or (uuid_v7_from_str text) (invalid_uri what) in
  Ok (make id).

Definition parse_workspace (rest : string) : Res ResourceUri :=
  let? parts := ok_or (split_once "/" rest) (invalid_uri "workspace URI needs <id>/<path>") in
  let? workspace_id := ok_or (uuid_v7_from_str parts.1) (invalid_uri "workspace id") in
  let? relative_path := normalize_path parts.2 in
  Ok (UriWorkspace workspace_id relative_path).

Definition parse_secret (rest : string) : Res ResourceUri :=
  let? parts := ok_or (split_once "/" rest) (invalid_uri "secret URI needs <namespace>/<name>") in
  let '(ns, name) := parts in
  if str_is_empty ns || str_is_empty name || str_contains "/" name || str_contains "/" ns
  then Err (invalid_uri "secret namespace/name malformed")
  else
  let? namespace := decode_token ns in
  let? name := decode_token name in
  Ok (UriSecret namespace name).

Definition parse_adapter (rest : string) : Res ResourceUri :=
  let? outer := ok_or (split_once "#" rest) (invalid_uri "adapter URI needs #<digest>") in
  let '(id_and_version, digest) := outer in
  let? inner := ok_or (split_once "@" id_and_version) (invalid_uri "adapter URI needs <id>@<version>") in
  let '(id, version) := inner in
  if str_is_empty version || negb (str_all version_byte version)
  then Err (invalid_uri "adapter version has illegal characters")
  else if str_is_empty digest || negb (str_all digest_byte digest)
  then Err (invalid_uri "adapter digest has illegal characters")
  else
  let? adapter_id := ok_or (uuid_v7_from_str id) (invalid_uri "adapter id") in
  Ok (UriAdapter adapter_id version digest).

Definition uri_parse (raw : string) : Res ResourceUri :=
  let? parts := ok_or (split_once "://" raw) (invalid_uri "missing ://") in
  let '(scheme, rest) := parts in
  if str_is_empty rest then Err (invalid_uri "empty URI body")
  else if decide (scheme = "workspace") then parse_workspace rest
  else if decide (scheme = "artifact") then bare_id rest "artifact id" UriArtifact
  else if decide (scheme = "secret") then parse_secret rest
  else if decide (scheme = "sandbox") then bare_id rest "sandbox id" UriSandbox
  else if decide (scheme = "run") then bare_id rest "run id" UriRun
  else if decide (scheme = "task") then bare_id rest "task id" UriTask
  else if decide (scheme = "session") then bare_id rest "session id" UriSession
  else if decide (scheme = "adapter") then parse_adapter rest
  else Err (invalid_uri ("unsupported resource scheme " +:+ debug_text scheme)).

Definition uri_scheme (u : ResourceUri) : string :=
  match u with
  | UriWorkspace _ _ => "workspace" | UriArtifact _ => "artifact" | UriSecret _ _ => "secret"
  | UriSandbox _ => "sandbox" | UriRun _ => "run" | UriTask _ => "task" | UriSession _ => "session"
  | UriAdapter _ _ _ => "adapter"
  end.

Definition required_capability (u : ResourceUri) : string :=
  match u with
  | UriWorkspace _ _ => "workspace:read"
  | UriArtifact _ => "artifact:read"
  | UriSecret _ _ => "secret:use"
  | UriSandbox _ => "sandbox:operate"
  | UriRun _ | UriTask _ | UriSession _ => "run:observe"
  | UriAdapter _ _ _ => "adapter:invoke"
  end.

(** [Display for ResourceUri]. *)
Definition uri_to_string (u : ResourceUri) : string :=
  match u with
  | UriWorkspace id path => "workspace://" +:+ uuid_hyphenated id +:+ "/" +:+ path
  | UriArtifact id => "artifact://" +:+ uuid_hyphenated id
  | UriSecret ns name => "secret://" +:+ ns +:+ "/" +:+ name
  | UriSandbox id => "sandbox://" +:+ uuid_hyphenated id
  | UriRun id => "run://" +:+ uuid_hyphenated id
  | UriTask id => "task://" +:+ uuid_hyphenated id
  | UriSession id => "session://" +:+ uuid_hyphenated id
  | UriAdapter id version digest => "adapter://" +:+ uuid_hyphenated id +:+ "@" +:+ version +:+ "#" +:+ digest
  end.
End Parser.

(** ** Resolution *)

Inductive ResolvedResource :=
  | WorkspacePath (workspace_id : Uuid) (relative_path : string)
  | ArtifactRef (artifact_id : Uuid)
  | SecretRef (namespace name : string)
  | SandboxRef (sandbox_id : Uuid)
  | RunRef (run_id : Uuid)
  | TaskRef (task_id : Uuid)
  | SessionRef (session_id : Uuid)
  | AdapterRef (adapter_id : Uuid) (version digest : string).

(** [CapabilityGate::check] under a fixed execution context. *)
Definition CapabilityGate : Type := string -> Res unit.

Section Gates.
Context `{!DebugText}.

Definition denied (required : string) : KernelError :=
  kerr FailedPrecondition ("missing capability " +:+ debug_text required +:+ " for resource resolution").

Definition permit_set_gate (allowed : gset string) : CapabilityGate := fun required =>
  if decide (required ∈ allowed) then Ok tt else Err (denied required).

Definition deny_all_gate : CapabilityGate := fun required => Err (denied required).
End Gates.

Definition resolve_uri (gate : CapabilityGate) (uri : ResourceUri) : Res ResolvedResource :=
  let? _ := gate (required_capability uri) in
  Ok (match uri with
      | UriWorkspace id path => WorkspacePath id path
      | UriArtifact id => ArtifactRef id
      | UriSecret ns name => SecretRef ns name
      | UriSandbox id => SandboxRef id
      | UriRun id => RunRef id
      | UriTask id => TaskRef id
      | UriSession id => SessionRef id
      | UriAdapter id version digest => AdapterRef id version digest
      end).

(** ** Lemmas *)

Lemma decode_bytes_plain s : no_byte "%" s = true -> decode_bytes s = Ok s.
Proof.
  induction s as [|c s IH]; [done|]. intros [Hc Hs]%no_byte_cons. cbn [decode_bytes].
  rewrite decide_False by done. by rewrite IH.
Qed.

(** A token that renders back to itself. *)
Definition token_wf (v : string) : Prop := is_utf8 v = true /\ escapes v = false /\ is_canonical_token v = true.

Lemma token_no_byte c v :
  token_wf v -> (N_of_ascii c < 128)%N -> delimiter (N_of_ascii c) = true -> no_byte c v = true.
Proof. intros (_ & _ & Hc) Hlt Hd. apply (chars_any_no_byte delimiter); [by apply negb_true_iff in Hc|done|done]. Qed.

Lemma decode_segment_wf v : token_wf v -> decode_segment v = Ok v.
Proof.
  intros Hw. unfold decode_segment. rewrite decode_bytes_plain by (by apply token_no_byte).
  cbn [res_bind]. by rewrite (proj1 Hw).
Qed.

Lemma decode_segment_utf8 s v : decode_segment s = Ok v -> is_utf8 v = true.
Proof. unfold decode_segment. intros E. apply res_bind_ok_inv in E as (o & _ & E). destruct (is_utf8 o) eqn:Hu; [|done]. by injection E as <-. Qed.

Lemma decode_token_inv s v : decode_token s = Ok v -> token_wf v.
Proof.
  unfold decode_token. intros E. apply res_bind_ok_inv in E as (o & Ho & E). destruct (escapes o) eqn:He; [done|].
  destruct (is_canonical_token o) eqn:Hc; [|done]. injection E as <-. split; [by eapply decode_segment_utf8|done].
Qed.

Lemma path_segment_inv s v : path_segment s = Ok v -> token_wf v.
Proof.
  unfold path_segment. intros E. apply res_bind_ok_inv in E as (o & Ho & E). destruct (escapes o) eqn:He; [done|].
  destruct (is_canonical_token o) eqn:Hc; [|done]. injection E as <-. split; [by eapply decode_segment_utf8|done].
Qed.

Lemma decode_token_wf v : token_wf v -> decode_token v = Ok v.
Proof. intros Hw. unfold decode_token. rewrite decode_segment_wf by done. destruct Hw as (_ & He & Hc). cbn [res_bind]. by rewrite He, Hc. Qed.

Lemma path_segment_wf v : token_wf v -> path_segment v = Ok v.
Proof. intros Hw. unfold path_segment. rewrite decode_segment_wf by done. destruct Hw as (_ & He & Hc). cbn [res_bind]. by rewrite He, Hc. Qed.

Lemma split_once_char c a b : no_byte c a = true -> split_once (String c "") (a +:+ String c b) = Some (a, b).
Proof.
  induction a as [|x a IH]; intros Ha; rewrite ?app_nil_str, ?app_cons_str; cbn [split_once strip_prefix].
  - by rewrite decide_True.
  - apply no_byte_cons in Ha as [Hx Ha]. rewrite decide_False by done. by rewrite IH.
Qed.

Lemma split_once_none c s : no_byte c s = true -> split_once (String c "") s = None.
Proof.
  induction s as [|x s IH]; intros Hs; [done|]. apply no_byte_cons in Hs as [Hx Hs].
  cbn [split_once strip_prefix]. rewrite decide_False by done. by rewrite IH.
Qed.

Lemma not_contains c s : no_byte c s = true -> str_contains (String c "") s = false.
Proof. intros Hs. unfold str_contains. by rewrite split_once_none. Qed.

(** ** Paths *)

(** A path made of ordinary segments: it names something inside its root. *)
Definition path_wf (path : string) : Prop := exists segments, segments <> [] /\ Forall token_wf segments /\ path = join_with "/" segments.

Lemma token_no_slash v : token_wf v -> no_byte "/" v = true.
Proof. intros Hv. by apply token_no_byte. Qed.

Lemma normalize_path_inv raw path : normalize_path raw = Ok path -> path_wf path.
Proof.
  unfold normalize_path. destruct (_ || _); [done|]. intros E. apply res_bind_ok_inv in E as (segments & Hs & [= <-]).
  apply res_collect_ok in Hs. exists segments. split_and!; [| |done].
  - intros ->. apply Forall2_nil_inv_r in Hs. by apply (split_on_nonempty "/" raw).
  - clear -Hs. induction Hs as [|x y l l' Hxy _ IH]; constructor; [by eapply path_segment_inv|done].
Qed.

Lemma join_no_byte c (l : list string) :
  c <> "/"%char -> Forall (fun w => no_byte c w = true) l -> no_byte c (join_with "/" l) = true.
Proof.
  intros Hc. induction 1 as [|w l Hw Hl IH]; [done|]. cbn [join_with]. destruct l as [|w' l]; [done|].
  unfold no_byte in *. rewrite !str_all_app, Hw, IH. cbn. rewrite !andb_true_r. apply negb_true_iff, bool_decide_eq_false. congruence.
Qed.

Lemma normalize_path_wf path : path_wf path -> normalize_path path = Ok path.
Proof.
  intros (segments & Hne & Hw & ->). unfold normalize_path. destruct segments as [|w rest]; [done|].
  assert (Hw1 : token_wf w) by (by inversion Hw).
  assert (Hfirst : exists c s, join_with "/" (w :: rest) = String c s /\ c <> "/"%char).
  { destruct w as [|c w]; [by destruct Hw1 as (_ & He & _)|]. exists c.
    pose proof (token_no_slash _ Hw1) as Hns. apply no_byte_cons in Hns as [Hc _].
    destruct rest; cbn; eauto. }
  destruct Hfirst as (c & s & Hcs & Hc). rewrite Hcs at 1 2. cbn [str_is_empty orb].
  assert (starts_with "/" (String c s) = false) as -> by (unfold starts_with; cbn [strip_prefix]; by rewrite decide_False).
  assert (str_contains "\" (join_with "/" (w :: rest)) = false) as ->.
  { apply not_contains, join_no_byte; [done|]. eapply list.Forall_impl; [exact Hw|]. intros v Hv. by apply token_no_byte. }
  cbn [orb]. rewrite split_join.
  - rewrite (res_collect_all path_segment); [done|]. intros v Hv. apply path_segment_wf.
    by apply (proj1 (list.Forall_forall _ _) Hw).
  - done.
  - eapply list.Forall_impl; [exact Hw|]. apply token_no_slash.
Qed.

(** ** Canonical references *)

Section Canonical.
Context `{!Ext} `{!DebugText}.

(** The [uuid] crate prints a canonical text back as it was. *)
Class UuidText : Prop := uuid_prints text u : uuid_v7_from_str text = Some u -> uuid_hyphenated u = text.

Definition id_wf (id : Uuid) : Prop := uuid_v7_from_str (uuid_hyphenated id) = Some id.

Definition uri_wf (u : ResourceUri) : Prop :=
  match u with
  | UriWorkspace id path => id_wf id /\ path_wf path
  | UriArtifact id | UriSandbox id | UriRun id | UriTask id | UriSession id => id_wf id
  | UriSecret ns name => token_wf ns /\ token_wf name
  | UriAdapter id version digest => id_wf id /\
      (str_is_empty version = false /\ str_all version_byte version = true) /\
      (str_is_empty digest = false /\ str_all digest_byte digest = true)
  end.

Lemma canonical_byte_class i c : canonical_byte i c = true -> is_ascii_digit c || byte_in 97 102 c || (nat_of_ascii c =? 45)%nat = true.
Proof. unfold canonical_byte. case_decide; intros ->; [apply orb_true_r|done]. Qed.

Lemma id_text_no_byte c text u :
  uuid_v7_from_str text = Some u -> is_ascii_digit c || byte_in 97 102 c || (nat_of_ascii c =? 45)%nat = false ->
  no_byte c text = true.
Proof.
  unfold uuid_v7_from_str. destruct (is_canonical_hyphenated text) eqn:Hc; [|done]. intros _ Hcl.
  unfold is_canonical_hyphenated in Hc. apply andb_prop in Hc as [_ Hc]. revert Hc. generalize 0%nat.
  induction text as [|a text IH]; intros i Hc; [done|]. cbn in Hc. apply andb_prop in Hc as [Ha Hc].
  apply no_byte_cons. split; [|by eapply IH]. intros ->. apply canonical_byte_class in Ha. congruence.
Qed.

Lemma id_text_nonempty text u : uuid_v7_from_str text = Some u -> str_is_empty text = false.
Proof. by destruct text. Qed.

Lemma str_all_no_byte p c s : str_all p s = true -> p c = false -> no_byte c s = true.
Proof.
  intros Hs Hp. apply (str_all_impl p); [|done]. intros a Ha. apply negb_true_iff, bool_decide_eq_false. congruence.
Qed.

Lemma bare_id_inv rest what make u :
  bare_id rest what make = Ok u -> exists id, u = make id /\ uuid_v7_from_str rest = Some id.
Proof.
  unfold bare_id, single_id. destruct (_ || _); [done|]. intros E. cbn [res_bind] in E.
  apply res_bind_ok_inv in E as (id & Hid%ok_or_ok & [= <-]). eauto.
Qed.

Lemma bare_id_wf id what make : id_wf id -> bare_id (uuid_hyphenated id) what make = Ok (make id).
Proof.
  intros Hid. unfold bare_id, single_id.
  rewrite !not_contains by (by eapply id_text_no_byte). rewrite (id_text_nonempty _ _ Hid). cbn [orb res_bind]. by rewrite Hid.
Qed.

(** Parsing yields canonical references. *)
Lemma uri_parse_wf `{!UuidText} raw u : uri_parse raw = Ok u -> uri_wf u.
Proof.
  unfold uri_parse. intros E. apply res_bind_ok_inv in E as ([scheme rest] & _ & E).
  assert (Hid : forall text id, uuid_v7_from_str text = Some id -> id_wf id).
  { intros text id Ht. unfold id_wf. by rewrite (uuid_prints _ _ Ht). }
  destruct (str_is_empty rest); [done|].
  repeat (case_decide; [try (apply bare_id_inv in E as (id & -> & Hp); by eapply Hid)|]); [..|done].
  - unfold parse_workspace in E. apply res_bind_ok_inv in E as ([id path] & _ & E).
    apply res_bind_ok_inv in E as (wid & Hw%ok_or_ok & E). apply res_bind_ok_inv in E as (p & Hp & [= <-]).
    split; [by eapply Hid|by eapply normalize_path_inv].
  - unfold parse_secret in E. apply res_bind_ok_inv in E as ([ns name] & _ & E). destruct (_ || _); [done|].
    apply res_bind_ok_inv in E as (n1 & T1%decode_token_inv & E). apply res_bind_ok_inv in E as (n2 & T2%decode_token_inv & [= <-]).
    done.
  - unfold parse_adapter in E. apply res_bind_ok_inv in E as ([iv digest] & _ & E).
    apply res_bind_ok_inv in E as ([id version] & _ & E).
    destruct (str_is_empty version) eqn:V1; [done|]. destruct (str_all version_byte version) eqn:V2; [|done].
    destruct (str_is_empty digest) eqn:D1; [done|]. destruct (str_all digest_byte digest) eqn:D2; [|done]. cbn in E.
    apply res_bind_ok_inv in E as (aid & Ha%ok_or_ok & [= <-]). split; [by eapply Hid|done].
Qed.

(** A bare reference: the scheme of the rendered text selects its branch. *)
Ltac render_bare what make :=
  intros Hid; match type of Hid with id_wf ?id =>
    change (uri_parse _) with (if str_is_empty (uuid_hyphenated id)
      then Err (invalid_uri "empty URI body") else bare_id (uuid_hyphenated id) what make);
    by rewrite (id_text_nonempty _ _ Hid), bare_id_wf
  end.

(** Canonical references render to texts that parse back. *)
Lemma uri_print_parse u : uri_wf u -> uri_parse (uri_to_string u) = Ok u.
Proof.
  assert (Hb : forall id, id_wf id -> str_is_empty (uuid_hyphenated id) = false) by (intros id Hid; by eapply id_text_nonempty).
  assert (Hne : forall a b, str_is_empty a = false -> str_is_empty (a +:+ b) = false) by (by intros [|c a] b).
  destruct u as [id path|id|ns name|id|id|id|id|id version digest]; cbn [uri_wf uri_to_string].
  - intros [Hid Hp]. change (uri_parse _) with (if str_is_empty (uuid_hyphenated id +:+ "/" +:+ path)
      then Err (invalid_uri "empty URI body") else parse_workspace (uuid_hyphenated id +:+ "/" +:+ path)).
    rewrite Hne by (by apply Hb). unfold parse_workspace. change ("/" +:+ path) with (String "/" path).
    rewrite split_once_char by (by eapply id_text_no_byte). cbn [ok_or res_bind fst snd]. rewrite Hid. cbn [ok_or res_bind].
    by rewrite normalize_path_wf.
  - render_bare "artifact id" UriArtifact.
  - intros [T1 T2]. change (uri_parse _) with (if str_is_empty (ns +:+ "/" +:+ name)
      then Err (invalid_uri "empty URI body") else parse_secret (ns +:+ "/" +:+ name)).
    assert (Hn : forall v, token_wf v -> str_is_empty v = false) by (intros [|c v] (_ & He & _); done).
    rewrite Hne by (by apply Hn). unfold parse_secret. change ("/" +:+ name) with (String "/" name).
    rewrite split_once_char by (by apply token_no_slash). cbn [ok_or res_bind].
    rewrite !Hn, !not_contains by (done || by apply token_no_slash). cbn [orb].
    rewrite !decode_token_wf by done. done.
  - render_bare "sandbox id" UriSandbox.
  - render_bare "run id" UriRun.
  - render_bare "task id" UriTask.
  - render_bare "session id" UriSession.
  - intros (Hid & [V1 V2] & [D1 D2]). change (uri_parse _) with (if str_is_empty (uuid_hyphenated id +:+ "@" +:+ version +:+ "#" +:+ digest)
      then Err (invalid_uri "empty URI body") else parse_adapter (uuid_hyphenated id +:+ "@" +:+ version +:+ "#" +:+ digest)).
    rewrite Hne by (by apply Hb). unfold parse_adapter.
    replace (uuid_hyphenated id +:+ "@" +:+ version +:+ "#" +:+ digest)
      with ((uuid_hyphenated id +:+ String "@" version) +:+ String "#" digest) by (by rewrite <- app_assoc_str).
    rewrite split_once_char.
    2:{ unfold no_byte. rewrite str_all_app. apply andb_true_intro. split; [by eapply id_text_no_byte|].
        apply no_byte_cons. split; [done|]. by eapply str_all_no_byte. }
    cbn [ok_or res_bind]. rewrite split_once_char by (by eapply id_text_no_byte). cbn [ok_or res_bind].
    rewrite V1, V2, D1, D2. cbn [negb orb]. by rewrite Hid.
Qed.

(** A parsed reference is canonical: it renders to a text that parses back
    to the same reference, and the path of a workspace reference is made of
    ordinary segments only, so that no spelling, percent-encoded or not, leads
    out of the workspace. *)
Theorem uri_canonical_roundtrip `{!UuidText} raw u :
  uri_parse raw = Ok u ->
  uri_parse (uri_to_string u) = Ok u /\
  match u with
  | UriWorkspace _ path => forall segment, segment ∈ split_on "/" path ->
      segment <> "" /\ segment <> "." /\ segment <> ".." /\ no_byte "\" segment = true /\ no_byte "%" segment = true
  | _ => True
  end.
Proof.
  intros E. pose proof (uri_parse_wf raw u E) as Hw. split; [by apply uri_print_parse|].
  destruct u as [id path| | | | | | |]; try done. destruct Hw as [_ (segments & Hne & Hs & ->)].
  rewrite split_join; [|done|eapply list.Forall_impl; [exact Hs|apply token_no_slash]].
  intros v Hv. pose proof (proj1 (list.Forall_forall _ _) Hs v Hv) as Ht. pose proof Ht as (_ & He & _).
  unfold escapes in He. rewrite !orb_false_iff, !bool_decide_eq_false in He. split_and!; try tauto; by apply token_no_byte.
Qed.

(** A reference resolves only when the gate grants exactly the capability
    its scheme requires, to a handle for the same reference. *)
Theorem uri_resolution_gated gate u :
  (forall h, resolve_uri gate u = Ok h -> gate (required_capability u) = Ok tt) /\
  (forall e, gate (required_capability u) = Err e -> resolve_uri gate u = Err e) /\
  (forall u' h, resolve_uri gate u = Ok h -> resolve_uri gate u' = Ok h -> u' = u).
Proof.
  unfold resolve_uri. split_and!.
  - intros h E. apply res_bind_ok_inv in E as ([] & Hg & _). done.
  - by intros e ->.
  - intros u' h E E'. apply res_bind_ok_inv in E as ([] & _ & [= <-]). apply res_bind_ok_inv in E' as ([] & _ & [= E']).
    destruct u, u'; by simplify_eq.
Qed.
End Canonical.
