(* ===== verification/Events.v ===== *)
(** * Event streams, classification and the transactional outbox (crate [events])

    Canonical stream keys ([stream.rs]), the embedded catalog's classification
    policy ([envelope.rs]), staging of an event in the caller's transaction
    ([outbox.rs]) and the catalogued staging helpers of the service crates
    ([runtime/src/lib.rs], [effects/src/stage.rs], [scheduler/src/stage.rs],
    [resources/src/stage.rs]).  The invariant: the outbox rows of a stream hold
    exactly the positions [1 .. head], each once, and committed rows are never
    changed or removed. *)

From S2P Require Import Prelude Domain Ids Models StoreBase Store.

Open Scope string_scope.
Open Scope Z_scope.

(** ** Stream keys ([stream.rs]) *)

Inductive StreamKind :=
  | StreamRun | StreamTask | StreamSession | StreamEffect
  | StreamConfigGlobal | StreamAdapter | StreamPrincipal.

#[export] Instance StreamKind_eq_dec : EqDecision StreamKind.
Proof. solve_decision. Defined.

Record StreamKey := mkStreamKey { sk_text : string; sk_kind : StreamKind }.

#[export] Instance StreamKey_eq_dec : EqDecision StreamKey.
Proof. solve_decision. Defined.

(** [text.split('/')]. *)
Fixpoint split_slash (s : string) : list string :=
  match s with
  | EmptyString => [""]
  | String c s =>
      if decide (c = "/"%char) then "" :: split_slash s
      else match split_slash s with
           | w :: ws => String c w :: ws
           | [] => [String c ""]
           end
  end.

(** [segments.join("/")]. *)
Fixpoint join_slash (l : list string) : string :=
  match l with
  | [] => ""
  | [w] => w
  | w :: l => w +:+ "/" +:+ join_slash l
  end.

(** [classify]. *)
Definition classify (text : string) : option StreamKind :=
  let segments := split_slash text in
  if existsb str_is_empty segments then None else
  match segments with
  | [a; b] =>
      if decide (a = "run") then Some StreamRun
      else if decide (a = "task") then Some StreamTask
      else if decide (a = "session") then Some StreamSession
      else if decide (a = "effect") then Some StreamEffect
      else if decide (a = "config" /\ b = "global") then Some StreamConfigGlobal
      else None
  | [a; b; _] => if decide (a = "security" /\ b = "principal") then Some StreamPrincipal else None
  | [a; _; _; _] => if decide (a = "adapter") then Some StreamAdapter else None
  | _ => None
  end.

Definition invalid_stream_key : KernelError :=
  kerr InvalidArgument "stream key is not in a canonical form".

(** [StreamKey::try_assemble]. *)
Definition try_assemble (segments : list string) : Res StreamKey :=
  let text := join_slash segments in
  let? kind := ok_or (classify text) invalid_stream_key in
  let? key := ok_or (event_stream_key_new text) invalid_stream_key in
  Ok (mkStreamKey key kind).

(** [FromStr for StreamKey]. *)
Definition stream_key_from_str (text : string) : Res StreamKey := try_assemble [text].

(** [StreamKey::canonical]: the error branch is [unreachable!], a panic that
    unwinds and drops the transaction. *)
Definition canonical (segments : list string) : Res StreamKey :=
  match try_assemble segments with
  | Ok key => Ok key
  | Err _ => Err (kerr Internal "typed identifiers always form canonical stream keys")
  end.

Section Keys.
Context `{!Ext}.

Definition stream_run (id : RunId) : Res StreamKey := canonical ["run"; uuid_hyphenated id].
Definition stream_task (id : TaskId) : Res StreamKey := canonical ["task"; uuid_hyphenated id].
Definition stream_session (id : SessionId) : Res StreamKey := canonical ["session"; uuid_hyphenated id].
Definition stream_effect (id : EffectId) : Res StreamKey := canonical ["effect"; uuid_hyphenated id].
Definition stream_config_global : Res StreamKey := canonical ["config"; "global"].
Definition stream_adapter (id : AdapterId) (version digest : string) : Res StreamKey :=
  try_assemble ["adapter"; uuid_hyphenated id; version; digest].
Definition stream_principal (id : PrincipalId) : Res StreamKey :=
  canonical ["security"; "principal"; uuid_hyphenated id].
End Keys.

(** ** Classification policy ([envelope.rs], [proto/events/catalog.yaml]) *)

Record CatalogEntry := entry {
  ce_id : string; ce_default_sensitivity : string; ce_default_retention : string }.

(** The [events] of the embedded catalog document, with the fields the policy
    deserializes. *)
Definition catalog_events : list CatalogEntry :=
  [ entry "SessionCreated" "internal" "standard";
    entry "AgentSpecRevisionStored" "internal" "audit";
    entry "TaskCreated" "internal" "standard";
    entry "RunCreated" "internal" "standard";
    entry "RunReady" "internal" "standard";
    entry "RunBound" "internal" "standard";
    entry "RunStarted" "internal" "standard";
    entry "RunWaitingTool" "internal" "standard";
    entry "RunWaitingChild" "internal" "standard";
    entry "RunWaitingHuman" "internal" "standard";
    entry "RunStateChanged" "internal" "standard";
    entry "RunCompleted" "internal" "standard";
    entry "RunFailed" "internal" "standard";
    entry "RunCancelled" "internal" "audit";
    entry "ChildRunCreated" "internal" "standard";
    entry "DependencyAdded" "internal" "standard";
    entry "RunClaimed" "internal" "standard";
    entry "CancellationEpochAdvanced" "internal" "audit";
    entry "LoopTurnIssued" "internal" "standard";
    entry "LoopDecisionAccepted" "internal" "standard";
    entry "LoopDecisionRejectedStale" "internal" "standard";
    entry "EffectPrepared" "internal" "standard";
    entry "EffectClaimed" "internal" "standard";
    entry "EffectDispatched" "internal" "standard";
    entry "EffectAcknowledged" "internal" "standard";
    entry "EffectCommitted" "internal" "audit";
    entry "EffectFailed" "internal" "audit";
    entry "EffectCancelled" "internal" "audit";
    entry "EffectUnknown" "internal" "audit";
    entry "EffectReconciled" "internal" "audit";
    entry "TimerScheduled" "internal" "standard";
    entry "TimerClaimed" "internal" "standard";
    entry "TimerFired" "internal" "standard";
    entry "TimerCancelled" "internal" "standard";
    entry "ResourceReserved" "internal" "standard";
    entry "ResourceAllocated" "internal" "standard";
    entry "ResourceReleased" "internal" "standard";
    entry "ResourceUnknown" "internal" "audit";
    entry "WorkspaceLeaseGranted" "internal" "audit";
    entry "WorkspaceLeaseTransferred" "internal" "audit";
    entry "WorkspaceForked" "internal" "audit";
    entry "WorkspaceMerged" "internal" "audit";
    entry "CapabilityRequested" "confidential" "audit";
    entry "CapabilityGranted" "confidential" "audit";
    entry "CapabilityDenied" "confidential" "audit";
    entry "ApprovalRequested" "confidential" "audit";
    entry "ApprovalResolved" "confidential" "audit";
    entry "SecretActionPerformed" "confidential" "audit";
    entry "AdapterRegistered" "internal" "standard";
    entry "AdapterStarted" "internal" "standard";
    entry "AdapterHealthy" "internal" "ephemeral";
    entry "AdapterUnhealthy" "internal" "ephemeral";
    entry "AdapterStopped" "internal" "standard";
    entry "ConfigProposed" "internal" "audit";
    entry "ConfigTested" "internal" "audit";
    entry "ConfigActivated" "internal" "audit";
    entry "ConfigRolledBack" "internal" "audit";
    entry "RecoveryStarted" "internal" "standard";
    entry "RunRecoveryDispositionChanged" "internal" "audit";
    entry "DaemonFenceAcquired" "internal" "audit";
    entry "DaemonFenceLost" "internal" "audit" ].

Definition catalog_sensitivity (text : string) : option SensitivityClass :=
  if decide (text = "public") then Some SensitivityClass.Public
  else if decide (text = "internal") then Some SensitivityClass.Internal
  else if decide (text = "confidential") then Some SensitivityClass.Confidential
  else if decide (text = "secret") then Some SensitivityClass.Secret
  else None.

Definition catalog_retention (text : string) : option RetentionClass :=
  if decide (text = "ephemeral") then Some RetentionClass.Ephemeral
  else if decide (text = "standard") then Some RetentionClass.Standard
  else if decide (text = "audit") then Some RetentionClass.Audit
  else None.

Record CatalogClassificationPolicy := mkPolicy {
  floors : gmap string SensitivityClass;
  retentions : gmap string RetentionClass }.

(** The loop of [from_yaml] over the parsed document. *)
Fixpoint policy_of_entries (l : list CatalogEntry) (p : CatalogClassificationPolicy)
    : Res CatalogClassificationPolicy :=
  match l with
  | [] => Ok p
  | e :: l =>
      let? s := ok_or (catalog_sensitivity e.(ce_default_sensitivity))
                  (kerr Internal "embedded event catalog declares an unknown sensitivity") in
      let? r := ok_or (catalog_retention e.(ce_default_retention))
                  (kerr Internal "embedded event catalog declares an unknown retention") in
      policy_of_entries l (mkPolicy (<[e.(ce_id) := s]> p.(floors)) (<[e.(ce_id) := r]> p.(retentions)))
  end.

(** [CatalogClassificationPolicy::embedded]. *)
Definition policy_embedded : Res CatalogClassificationPolicy :=
  policy_of_entries catalog_events (mkPolicy ∅ ∅).

Definition policy_minimum (p : CatalogClassificationPolicy) (event_type : string)
    : option SensitivityClass := p.(floors) !! event_type.
Definition policy_default_retention (p : CatalogClassificationPolicy) (event_type : string)
    : option RetentionClass := p.(retentions) !! event_type.

(** ** Staging ([outbox.rs]) *)

Definition EVENT_VERSION : Z := 1.

Record DraftEvent := mkDraft {
  de_event_id : EventId;
  de_stream_key : string;
  de_event_type : string;
  de_payload : bytes;
  de_sensitivity : SensitivityClass;
  de_retention : RetentionClass;
  de_correlation_id : option string;
  de_causation_id : option EventId }.

(** [DraftEvent::into_new]. *)
Definition into_new (d : DraftEvent) (sequence occurred_at_ms : Z) : NewOutboxEvent := {|
  NewOutboxEvent.event_id := d.(de_event_id);
  NewOutboxEvent.event_type := d.(de_event_type);
  NewOutboxEvent.event_version := EVENT_VERSION;
  NewOutboxEvent.stream_key := d.(de_stream_key);
  NewOutboxEvent.sequence := sequence;
  NewOutboxEvent.occurred_at_ms := occurred_at_ms;
  NewOutboxEvent.run_id := None;
  NewOutboxEvent.task_id := None;
  NewOutboxEvent.session_id := None;
  NewOutboxEvent.effect_id := None;
  NewOutboxEvent.causation_id := d.(de_causation_id);
  NewOutboxEvent.correlation_id := d.(de_correlation_id);
  NewOutboxEvent.sensitivity := d.(de_sensitivity);
  NewOutboxEvent.retention := d.(de_retention);
  NewOutboxEvent.payload := d.(de_payload) |}.

Definition stage_at (draft : DraftEvent) (occurred_at_ms : Z) : M Z :=
  let! sequence := streams_allocate draft.(de_stream_key) in
  do! streams_insert_outbox (into_new draft sequence occurred_at_ms) in
  ret sequence.

Section Staging.
Context `{!Ext}.

Definition stage (draft : DraftEvent) : M Z :=
  let! now := now_unix_ms in stage_at draft now.

(** The body the four staging helpers share; they differ in the stream and in
    two error texts. *)
Definition stage_classified (uncatalogued : KernelError) (not_canonical : KernelError)
    (event_id : EventId) (event_type : string) (stream : StreamKey) (payload : bytes)
    (correlation_id : option string) (causation_id : option EventId) : M Z :=
  let! policy := lift_res policy_embedded in
  let! sensitivity := lift_res (ok_or (policy_minimum policy event_type) uncatalogued) in
  let! retention := lift_res (ok_or (policy_default_retention policy event_type) uncatalogued) in
  let! stream_key := lift_res (ok_or (event_stream_key_new stream.(sk_text)) not_canonical) in
  stage (mkDraft event_id stream_key event_type payload sensitivity retention
           correlation_id causation_id).

(** [runtime::stage_catalogued]. *)
Definition stage_catalogued (event_id : EventId) (event_type : string) (stream : StreamKey) :=
  stage_classified
    (kerr Internal ("event type " +:+ event_type +:+ " has no catalog entry"))
    (kerr Internal "catalogued stream key is not canonical")
    event_id event_type stream.

Definition not_in_catalog (event_type : string) : KernelError :=
  kerr Internal ("event type " +:+ event_type +:+ " is not in the embedded catalog").

(** [effects::stage::stage_effect_event]. *)
Definition stage_effect_event (event_id : EventId) (event_type : string) (effect_id : EffectId)
    (payload : bytes) (correlation_id : option string) (causation_id : option EventId) : M Z :=
  let! stream := lift_res (stream_effect effect_id) in
  stage_classified (not_in_catalog event_type)
    (kerr Internal "catalogued effect stream key is not canonical")
    event_id event_type stream payload correlation_id causation_id.

(** [scheduler::stage::stage_timer_event]. *)
Definition stage_timer_event (event_id : EventId) (event_type : string) (stream : StreamKey) :=
  stage_classified (not_in_catalog event_type)
    (kerr Internal "catalogued timer stream key is not canonical") event_id event_type stream.

(** [resources::stage::stage_resource_event]. *)
Definition stage_resource_event (event_id : EventId) (event_type : string) (run_id : RunId)
    (payload : bytes) (correlation_id : option string) (causation_id : option EventId) : M Z :=
  let! stream := lift_res (stream_run run_id) in
  stage_classified (not_in_catalog event_type)
    (kerr Internal "catalogued resource stream key is not canonical")
    event_id event_type stream payload correlation_id causation_id.
End Staging.

(** ** The outbox invariant *)

Definition stream_head (d : Db) (key : string) : Z :=
  from_option (fun z => z) 0 (d.(stream_heads) !! key).

(** A row at position [n] of stream [key]. *)
Definition at_position (d : Db) (key : string) (n : Z) (e : EventId) (r : OutboxEventRow) : Prop :=
  d.(outbox_events) !! e = Some r /\
  r.(OutboxEventRow.stream_key) = key /\ r.(OutboxEventRow.sequence) = n.

Record outbox_ok (d : Db) : Prop := {
  ob_head : forall key, 0 <= stream_head d key;
  ob_id : forall e r, d.(outbox_events) !! e = Some r -> r.(OutboxEventRow.event_id) = e;
  ob_bound : forall key n e r, at_position d key n e r -> 1 <= n <= stream_head d key;
  ob_dense : forall key n, 1 <= n <= stream_head d key -> exists e r, at_position d key n e r;
  ob_unique : forall key n e1 r1 e2 r2,
    at_position d key n e1 r1 -> at_position d key n e2 r2 -> e1 = e2 }.

(** Stored events are kept as they are, publication marks included; an event
    that appears is classified, at a storable position and not yet published. *)
Record outbox_grows (d d' : Db) : Prop := {
  og_rows : forall e r, d.(outbox_events) !! e = Some r -> d'.(outbox_events) !! e = Some r;
  og_new : forall e r, d.(outbox_events) !! e = None -> d'.(outbox_events) !! e = Some r ->
    unpublished r = true /\ r.(OutboxEventRow.sequence) <= i64_max /\
    r.(OutboxEventRow.event_version) = EVENT_VERSION /\
    r.(OutboxEventRow.sensitivity) <> SensitivityClass.Unspecified /\
    r.(OutboxEventRow.retention) <> RetentionClass.Unspecified;
  og_heads : forall key, stream_head d key <= stream_head d' key }.

Definition events_rel (d d' : Db) : Prop :=
  (outbox_ok d -> outbox_ok d') /\ outbox_grows d d'.

#[export] Instance events_rel_preorder : PreOrder events_rel.
Proof.
  split.
  - intros d. split; [done|]. split; [done| |done]. congruence.
  - intros d1 d2 d3 [O1 [R1 N1 H1]] [O2 [R2 N2 H2]]. split; [auto|]. split; [auto|..].
    + intros e r Hr1 Hr3. destruct (outbox_events d2 !! e) as [r2|] eqn:Hr2; [|eauto].
      rewrite (R2 _ _ Hr2) in Hr3. injection Hr3 as <-. eauto.
    + intros key. specialize (H1 key). specialize (H2 key). lia.
Qed.

(** Only the two event tables matter. *)
Lemma events_rel_frame d d' :
  d.(stream_heads) = d'.(stream_heads) -> d.(outbox_events) = d'.(outbox_events) ->
  events_rel d d'.
Proof.
  intros E1 E2. split.
  - intros [H1 H2 H3 H4 H5]. split; unfold at_position, stream_head in *;
      rewrite <- ?E1, <- ?E2; eauto.
  - split; unfold stream_head; rewrite <- ?E1, <- ?E2; [done| |done]. congruence.
Qed.

#[export] Hint Extern 1 (events_rel _ _) => apply events_rel_frame; reflexivity : frame.

(** The database after [stage_at] has placed an event. *)
Definition staged (draft : DraftEvent) (now : Z) (d : Db) : Db :=
  let n := stream_head d draft.(de_stream_key) + 1 in
  set_outbox_events
    (<[draft.(de_event_id) := outbox_row_of_new (into_new draft n now)]> d.(outbox_events))
    (set_stream_heads (<[draft.(de_stream_key) := n]> d.(stream_heads)) d).

(** The position is free: no row of the stream holds it. *)
Definition position_free (draft : DraftEvent) (d : Db) : Prop :=
  forall e r, ~ at_position d draft.(de_stream_key) (stream_head d draft.(de_stream_key) + 1) e r.

(** What [stage_at] checks before it writes. *)
Definition stageable (draft : DraftEvent) (d : Db) : Prop :=
  0 <= stream_head d draft.(de_stream_key) + 1 <= i64_max /\
  d.(outbox_events) !! draft.(de_event_id) = None /\
  draft.(de_sensitivity) <> SensitivityClass.Unspecified /\
  draft.(de_retention) <> RetentionClass.Unspecified /\
  position_free draft d.

Lemma classes_check s r :
  between 1 (to_wire s) 4 && between 1 (to_wire r) 3 = true <->
  s <> SensitivityClass.Unspecified /\ r <> RetentionClass.Unspecified.
Proof. destruct s, r; vm_compute; split; try done; intros [? ?]; congruence. Qed.

Lemma none_at_position key n (d : Db) :
  none_such (same_position key n) d.(outbox_events) = true <->
  (forall e r, ~ at_position d key n e r).
Proof.
  rewrite none_such_true. unfold at_position, same_position. split.
  - intros H e r (Hr & Hk & Hn). specialize (H e r Hr).
    rewrite andb_false_iff, !bool_decide_eq_false in H. tauto.
  - intros H e r Hr. specialize (H e r).
    rewrite andb_false_iff, !bool_decide_eq_false.
    destruct (decide (r.(OutboxEventRow.stream_key) = key)), (decide (r.(OutboxEventRow.sequence) = n)); tauto.
Qed.

Lemma next_sequence d key :
  match stream_heads d !! key with None => 1 | Some n => n + 1 end = stream_head d key + 1.
Proof. unfold stream_head. by destruct (stream_heads d !! key). Qed.

(** [stage_at] succeeds exactly when its checks pass, and then places the event
    at the next position of its stream. *)
Lemma stage_at_spec draft now t n t' :
  stage_at draft now t = (Ok n, t') <->
  stageable draft (t_db t) /\
  n = stream_head (t_db t) draft.(de_stream_key) + 1 /\
  t' = set_db (staged draft now (t_db t)) t.
Proof.
  unfold stage_at, streams_allocate, streams_insert_outbox. split.
  - intros E. inv_store. rewrite next_sequence in *.
    match goal with H : u64_column _ _ _ = _ |- _ => apply u64_column_ok in H as [-> Hn] end.
    match goal with H : encode_u64 _ _ = _ |- _ => clear H end.
    match goal with H : _ && _ = true |- _ => apply classes_check in H as [??] end.
    match goal with H : absent _ _ = true |- _ => apply absent_true in H end.
    match goal with H : none_such _ (outbox_events (t_db ?x)) = true |- _ =>
      pose proof (proj1 (none_at_position _ _ (t_db x)) H) end.
    split; [|split; [done|reflexivity]]. unfold stageable, position_free. auto.
  - intros ((Hn & Ha & Hs & Hr & Hp) & -> & ->).
    unfold bind, query, update_db, gets, modify, lift_res. rewrite next_sequence.
    rewrite u64_column_intro by lia. simpl.
    assert (encode_u64 "outbox_events.sequence" (stream_head (t_db t) (de_stream_key draft) + 1)
            = Ok (stream_head (t_db t) (de_stream_key draft) + 1)) as ->
      by (apply encode_u64_ok; lia).
    rewrite (proj2 (classes_check _ _)) by done.
    rewrite (proj2 (absent_true _ _)) by done.
    rewrite (proj2 (none_at_position _ _ (t_db t))) by done.
    reflexivity.
Qed.

(** Staging keeps the invariant and only adds. *)
Lemma staged_events_rel draft now d : stageable draft d -> events_rel d (staged draft now d).
Proof.
  intros (Hn & Ha & Hsens & Hret & Hp).
  set (key := de_stream_key draft) in *. set (n := stream_head d key + 1) in *.
  assert (Hhead : forall k, stream_head (staged draft now d) k
                            = if decide (k = key) then n else stream_head d k).
  { intros k. unfold staged, stream_head at 1. simpl. fold key n.
    case_decide; subst; [by rewrite lookup_insert_eq|by rewrite lookup_insert_ne]. }
  assert (Hrows : forall e r, outbox_events (staged draft now d) !! e = Some r <->
     (e = de_event_id draft /\ r = outbox_row_of_new (into_new draft n now)) \/
     outbox_events d !! e = Some r).
  { intros e r. simpl. fold key n. rewrite lookup_insert_Some. split.
    - intros [[-> ->]|[_ Hr]]; auto.
    - intros [[-> ->]|Hr]; [by left|right]. split; [|done]. intros <-. by rewrite Ha in Hr. }
  split; [intros [H1 H2 H3 H4 H5]; split|split].
  - intros k. rewrite Hhead. specialize (H1 k). case_decide; subst; lia.
  - intros e r [[-> ->]|Hr]%Hrows; [done|eauto].
  - intros k m e r (Hr & <- & <-). rewrite Hhead. apply Hrows in Hr as [[-> ->]|Hr].
    + simpl. fold key. rewrite decide_True by done. specialize (H1 key). lia.
    + pose proof (H3 _ _ e r (conj Hr (conj eq_refl eq_refl))) as Hb.
      case_decide as E; [rewrite E in Hb|]; lia.
  - intros k m. rewrite Hhead. intros Hm.
    destruct (decide (k = key /\ m = n)) as [[-> ->]|Hne].
    + eexists _, _. split; [apply Hrows; left; eauto|done].
    + destruct (H4 k m) as (e & r & Hr & ? & ?).
      { case_decide; subst; [|done]. assert (m <> n) by (intros ->; apply Hne; done). lia. }
      exists e, r. split; [apply Hrows; by right|done].
  - intros k m e1 r1 e2 r2 (Hr1 & <- & <-) (Hr2 & Hk & Hm).
    apply Hrows in Hr1 as [[-> ->]|Hr1], Hr2 as [[-> ->]|Hr2]; simpl in *; try done.
    + exfalso. apply (Hp e2 r2). unfold at_position. auto.
    + exfalso. apply (Hp e1 r1). unfold at_position. auto.
    + apply (H5 _ _ e1 r1 e2 r2 (conj Hr1 (conj eq_refl eq_refl))). unfold at_position. auto.
  - intros e r Hr. apply Hrows. by right.
  - intros e r Hr [[-> ->]|Hr']%Hrows; [|congruence]. split_and!; [done| |done..]; fold key n in Hn; simpl; lia.
  - intros k. rewrite Hhead. case_decide; subst; lia.
Qed.

Opaque policy_embedded.

Section StagingLemmas.
Context `{!Ext}.

Lemma stage_inv draft t n t' :
  stage draft t = (Ok n, t') ->
  stageable draft (t_db t) /\
  n = stream_head (t_db t) draft.(de_stream_key) + 1 /\
  t_db t' = staged draft (clock_ms (t_clock t)) (t_db t) /\ t_ctx t' = t_ctx t.
Proof.
  unfold stage, now_unix_ms. intros E. inv_ok.
  match goal with H : stage_at _ _ _ = _ |- _ => apply stage_at_spec in H as (Hs & -> & ->) end.
  done.
Qed.

(** What a catalogued staging helper stages. *)
Lemma stage_classified_inv e1 e2 id ty stream payload corr caus t n t' :
  stage_classified e1 e2 id ty stream payload corr caus t = (Ok n, t') ->
  exists policy s r,
    policy_embedded = Ok policy /\ policy_minimum policy ty = Some s /\
    policy_default_retention policy ty = Some r /\
    stage (mkDraft id stream.(sk_text) ty payload s r corr caus) t = (Ok n, t').
Proof.
  unfold stage_classified. intros E. inv_ok.
  match goal with H : event_stream_key_new _ = Some _ |- _ =>
    unfold event_stream_key_new in H; case_match; [done|]; injection H as <- end.
  eexists _, _, _. split; [eassumption|]. split; [eassumption|]. split; eassumption.
Qed.

(** The tables a staging helper writes. *)
Definition set_outbox (x : gmap string Z * gmap N OutboxEventRow) (d : Db) : Db :=
  set_outbox_events x.2 (set_stream_heads x.1 d).

Lemma stage_touches draft : touches set_outbox (stage draft).
Proof.
  intros t n t' (_ & _ & E & C)%stage_inv. split; [done|].
  eexists (_, _). rewrite E. reflexivity.
Qed.

Lemma stage_classified_touches e1 e2 id ty stream payload corr caus :
  touches set_outbox (stage_classified e1 e2 id ty stream payload corr caus).
Proof.
  intros t n t' (p & s & r & _ & _ & _ & E)%stage_classified_inv. eapply stage_touches, E.
Qed.
Lemma stage_catalogued_touches id ty stream payload corr caus :
  touches set_outbox (stage_catalogued id ty stream payload corr caus).
Proof. unfold stage_catalogued. apply stage_classified_touches. Qed.
Lemma stage_timer_event_touches id ty stream payload corr caus :
  touches set_outbox (stage_timer_event id ty stream payload corr caus).
Proof. unfold stage_timer_event. apply stage_classified_touches. Qed.
Lemma stage_effect_event_touches id ty e payload corr caus :
  touches set_outbox (stage_effect_event id ty e payload corr caus).
Proof. intros t n t' E. unfold stage_effect_event in E. inv_ok. eapply stage_classified_touches; eauto. Qed.
Lemma stage_resource_event_touches id ty e payload corr caus :
  touches set_outbox (stage_resource_event id ty e payload corr caus).
Proof. intros t n t' E. unfold stage_resource_event in E. inv_ok. eapply stage_classified_touches; eauto. Qed.

Lemma stage_events draft : ensures (on_db events_rel) (stage draft).
Proof.
  intros t n t' (Hs & _ & E & C)%stage_inv. split; [|done]. rewrite E. by apply staged_events_rel.
Qed.

Lemma stage_classified_events e1 e2 id ty stream payload corr caus :
  ensures (on_db events_rel) (stage_classified e1 e2 id ty stream payload corr caus).
Proof.
  intros t n t' (p & s & r & _ & _ & _ & E)%stage_classified_inv. eapply stage_events, E.
Qed.
Lemma stage_catalogued_events id ty stream payload corr caus :
  ensures (on_db events_rel) (stage_catalogued id ty stream payload corr caus).
Proof. unfold stage_catalogued. apply stage_classified_events. Qed.
Lemma stage_timer_event_events id ty stream payload corr caus :
  ensures (on_db events_rel) (stage_timer_event id ty stream payload corr caus).
Proof. unfold stage_timer_event. apply stage_classified_events. Qed.
Lemma stage_effect_event_events id ty e payload corr caus :
  ensures (on_db events_rel) (stage_effect_event id ty e payload corr caus).
Proof. intros t n t' E. unfold stage_effect_event in E. inv_ok. eapply stage_classified_events; eauto. Qed.
Lemma stage_resource_event_events id ty e payload corr caus :
  ensures (on_db events_rel) (stage_resource_event id ty e payload corr caus).
Proof. intros t n t' E. unfold stage_resource_event in E. inv_ok. eapply stage_classified_events; eauto. Qed.

End StagingLemmas.

#[export] Hint Resolve stage_classified_touches stage_touches stage_catalogued_touches stage_timer_event_touches
  stage_effect_event_touches stage_resource_event_touches : touches.
#[export] Hint Resolve stage_classified_events stage_events stage_catalogued_events stage_timer_event_events
  stage_effect_event_events stage_resource_event_events : ensures.

(** ** Behaviour *)

Section EventBehaviour.
Context `{!Ext}.

(** Streams are gap-free, duplicate-free and append-only: a staged event
    takes the position after the last one of its stream, every position up to
    it is then held by exactly one event, and no event staged before has
    changed. *)
Theorem staging_extends_stream draft t n t' :
  outbox_ok t.(t_db) -> stage draft t = (Ok n, t') ->
  let key := draft.(de_stream_key) in
  n = stream_head t.(t_db) key + 1 /\ stream_head t'.(t_db) key = n /\
  at_position t'.(t_db) key n draft.(de_event_id)
    (outbox_row_of_new (into_new draft n (clock_ms t.(t_clock)))) /\
  (forall m, 1 <= m <= n -> exists e r, at_position t'.(t_db) key m e r /\
     forall e2 r2, at_position t'.(t_db) key m e2 r2 -> e2 = e) /\
  (forall e r, t.(t_db).(outbox_events) !! e = Some r -> t'.(t_db).(outbox_events) !! e = Some r).
Proof.
  intros Hok E key. pose proof (proj1 (stage_events draft t n t' E)) as [Hok' _].
  specialize (Hok' Hok). apply stage_inv in E as ((_ & Ha & _) & -> & Et & _). fold key in Et.
  assert (Hhead : stream_head (t_db t') key = stream_head (t_db t) key + 1).
  { rewrite Et. unfold staged, stream_head at 1. simpl. by rewrite lookup_insert_eq. }
  split; [done|]. split; [done|]. split; [|split].
  - rewrite Et. unfold at_position. simpl. by rewrite lookup_insert_eq.
  - intros m Hm. destruct (ob_dense _ Hok' key m) as (e & r & Hr); [by rewrite Hhead|].
    exists e, r. split; [done|]. intros e2 r2 Hr2. by apply (ob_unique _ Hok' key m e2 r2 e r).
  - intros e r Hr. rewrite Et. simpl. rewrite lookup_insert_ne by congruence. done.
Qed.

(** A stream key that was assembled reads back from its own text as the
    same key, of the same kind. *)
Theorem stream_key_text_roundtrip segments k :
  try_assemble segments = Ok k -> stream_key_from_str k.(sk_text) = Ok k.
Proof.
  unfold stream_key_from_str, try_assemble. intros E.
  destruct (classify (join_slash segments)) as [kind|] eqn:Hc; [|done]. simpl in E.
  destruct (event_stream_key_new (join_slash segments)) as [key|] eqn:Hk; [|done]. simpl in E.
  injection E as <-. simpl. pose proof (event_stream_key_new_id _ _ Hk) as ->. rewrite Hc. simpl. by rewrite Hk.
Qed.
End EventBehaviour.

(** The event types the modelled services stage. *)
Definition staged_types : list string :=
  [ "SessionCreated"; "AgentSpecRevisionStored"; "TaskCreated"; "RunCreated"; "ChildRunCreated";
    "RunReady"; "RunBound"; "RunStateChanged"; "RunClaimed"; "RunStarted"; "RunCancelled";
    "RunCompleted"; "RunFailed"; "RunWaitingTool"; "RunWaitingChild"; "RunWaitingHuman";
    "CancellationEpochAdvanced"; "DependencyAdded"; "LoopDecisionAccepted"; "EffectPrepared";
    "EffectClaimed"; "EffectDispatched"; "EffectAcknowledged"; "EffectCommitted"; "EffectFailed";
    "EffectCancelled"; "EffectUnknown"; "EffectReconciled"; "TimerScheduled"; "TimerClaimed";
    "TimerFired"; "TimerCancelled"; "ResourceReserved"; "ResourceAllocated"; "ResourceReleased";
    "ResourceUnknown"; "RunRecoveryDispositionChanged" ].

Definition catalog_check (p : CatalogClassificationPolicy) : bool :=
  forallb (fun e =>
    bool_decide (policy_minimum p e.(ce_id) = catalog_sensitivity e.(ce_default_sensitivity) /\
                 policy_default_retention p e.(ce_id) = catalog_retention e.(ce_default_retention)))
    catalog_events &&
  forallb (fun ty => bool_decide (is_Some (policy_minimum p ty) /\ is_Some (policy_default_retention p ty)))
    staged_types.

(** The embedded catalog decodes, classifies every one of its entries
    exactly as it declares it, and has an entry for every event type the
    services stage, so that no staging call fails for want of one. *)
Theorem catalog_classifies_every_staged_type :
  exists p, policy_embedded = Ok p /\
    (forall e, e ∈ catalog_events ->
       policy_minimum p e.(ce_id) = catalog_sensitivity e.(ce_default_sensitivity) /\
       policy_default_retention p e.(ce_id) = catalog_retention e.(ce_default_retention)) /\
    (forall ty, ty ∈ staged_types -> is_Some (policy_minimum p ty) /\ is_Some (policy_default_retention p ty)).
Proof.
  assert (Hp' : res_map catalog_check policy_embedded = Ok true) by (vm_compute; reflexivity).
  destruct policy_embedded as [p|e]; [|discriminate Hp'].
  exists p. split; [done|]. assert (Hall : catalog_check p = true) by (by injection Hp').
  apply andb_true_iff in Hall as [H1 H2].
  rewrite forallb_forall in H1, H2. split.
  - intros e He%list_elem_of_In. by apply H1, bool_decide_eq_true in He.
  - intros ty Ht%list_elem_of_In. by apply H2, bool_decide_eq_true in Ht.
Qed.
