(* ===== verification/Envelope.v ===== *)
(** * Event envelopes ([events/src/envelope.rs], [events/src/cursor.rs])

    The durable form of an event: the validated builder with its
    classification floor, and the contract message an envelope is encoded as.
    The protobuf wire codec itself is a parameter. *)

From S2P Require Import Prelude Domain Ids Text Models StoreBase Store Events.

Open Scope string_scope.
Open Scope Z_scope.

Record EventEnvelope := mkEventEnvelope {
  ev_event_id : EventId;
  ev_event_type : string;
  ev_event_version : Z;
  ev_stream_key : StreamKey;
  ev_sequence : Z;
  ev_occurred_unix_ms : Z;
  ev_run_id : option RunId;
  ev_task_id : option TaskId;
  ev_session_id : option SessionId;
  ev_effect_id : option EffectId;
  ev_causation_id : option string;
  ev_correlation_id : option string;
  ev_sensitivity : SensitivityClass;
  ev_retention : RetentionClass;
  ev_payload : bytes }.

(** [contract::EventEnvelope]. *)
Record EventEnvelopeMsg := mkEventEnvelopeMsg {
  em_event_id : string;
  em_event_type : string;
  em_event_version : Z;
  em_stream_key : string;
  em_sequence : Z;
  em_occurred_unix_ms : Z;
  em_run_id : string;
  em_task_id : string;
  em_session_id : string;
  em_effect_id : string;
  em_causation_id : string;
  em_correlation_id : string;
  em_sensitivity : Z;
  em_retention : Z;
  em_payload : bytes }.

(** [prost::Message::encode_to_vec] and [decode] of the contract message. *)
Class EnvelopeCodec := {
  encode_envelope : EventEnvelopeMsg -> bytes;
  decode_envelope : bytes -> option EventEnvelopeMsg }.

Definition invalid_envelope (message : string) : KernelError := kerr InvalidArgument message.

(** [text.is_empty()] as an absent value. *)
Definition absent_if_empty (text : string) : option string := if str_is_empty text then None else Some text.

Definition sensitivity_token (c : SensitivityClass) : string :=
  match c with
  | SensitivityClass.Unspecified => "unspecified"
  | SensitivityClass.Public => "public"
  | SensitivityClass.Internal => "internal"
  | SensitivityClass.Confidential => "confidential"
  | SensitivityClass.Secret => "secret"
  end.

Section Codec.
Context `{!Ext} `{!EnvelopeCodec}.

Definition to_contract (e : EventEnvelope) : EventEnvelopeMsg := {|
  em_event_id := uuid_hyphenated e.(ev_event_id);
  em_event_type := e.(ev_event_type);
  em_event_version := e.(ev_event_version);
  em_stream_key := e.(ev_stream_key).(sk_text);
  em_sequence := e.(ev_sequence);
  em_occurred_unix_ms := e.(ev_occurred_unix_ms);
  em_run_id := opt_id_text e.(ev_run_id);
  em_task_id := opt_id_text e.(ev_task_id);
  em_session_id := opt_id_text e.(ev_session_id);
  em_effect_id := opt_id_text e.(ev_effect_id);
  em_causation_id := from_option (fun s => s) "" e.(ev_causation_id);
  em_correlation_id := from_option (fun s => s) "" e.(ev_correlation_id);
  em_sensitivity := SensitivityClass_to_wire e.(ev_sensitivity);
  em_retention := RetentionClass_to_wire e.(ev_retention);
  em_payload := e.(ev_payload) |}.

Definition to_bytes (e : EventEnvelope) : bytes := encode_envelope (to_contract e).

(** [envelope::optional_id]. *)
Definition envelope_id (text field : string) : Res (option Uuid) :=
  if str_is_empty text then Ok None
  else res_map Some (ok_or (uuid_v7_from_str text)
         (invalid_envelope ("event envelope " +:+ field +:+ " is invalid"))).

Definition from_bytes (bs : bytes) : Res EventEnvelope :=
  let? raw := ok_or (decode_envelope bs) (invalid_envelope "event envelope is not valid contract bytes") in
  let? event_id := ok_or (uuid_v7_from_str raw.(em_event_id))
    (invalid_envelope "event envelope event id is invalid") in
  let? stream_key := match stream_key_from_str raw.(em_stream_key) with
    | Ok k => Ok k | Err _ => Err (invalid_envelope "event envelope stream key is invalid") end in
  let? sensitivity := match SensitivityClass_from_wire raw.(em_sensitivity) with
    | inl s => Ok s | inr _ => Err (invalid_envelope "event envelope sensitivity is unknown") end in
  if bool_decide (sensitivity = SensitivityClass.Unspecified)
  then Err (invalid_envelope "event envelope sensitivity is absent")
  else
  let? retention := match RetentionClass_from_wire raw.(em_retention) with
    | inl r => Ok r | inr _ => Err (invalid_envelope "event envelope retention is unknown") end in
  if bool_decide (retention = RetentionClass.Unspecified)
  then Err (invalid_envelope "event envelope retention is absent")
  else
  let? run_id := envelope_id raw.(em_run_id) "run id" in
  let? task_id := envelope_id raw.(em_task_id) "task id" in
  let? session_id := envelope_id raw.(em_session_id) "session id" in
  let? effect_id := envelope_id raw.(em_effect_id) "effect id" in
  Ok (mkEventEnvelope event_id raw.(em_event_type) raw.(em_event_version) stream_key raw.(em_sequence)
    raw.(em_occurred_unix_ms) run_id task_id session_id effect_id
    (absent_if_empty raw.(em_causation_id)) (absent_if_empty raw.(em_correlation_id))
    sensitivity retention raw.(em_payload)).
End Codec.

(** [EventEnvelope::cursor], [EventCursor::for_event]. *)
Definition envelope_cursor (e : EventEnvelope) : EventCursor :=
  mkEventCursor e.(ev_stream_key).(sk_text) e.(ev_sequence).

(** ** The builder *)

Record EventBuilder := mkEventBuilder {
  eb_event_id : EventId;
  eb_event_type : string;
  eb_event_version : Z;
  eb_stream_key : StreamKey;
  eb_sequence : option Z;
  eb_occurred_at_ms : option Z;
  eb_run_id : option RunId;
  eb_task_id : option TaskId;
  eb_session_id : option SessionId;
  eb_effect_id : option EffectId;
  eb_causation_id : option string;
  eb_correlation_id : option string;
  eb_sensitivity : option SensitivityClass;
  eb_retention : option RetentionClass;
  eb_payload : option bytes }.

Definition build (policy : CatalogClassificationPolicy) (b : EventBuilder) : Res EventEnvelope :=
  if trim_is_empty b.(eb_event_type) then Err (invalid_envelope "event type is required")
  else if bool_decide (b.(eb_event_version) = 0) then Err (invalid_envelope "event version is required")
  else
  let? sequence := ok_or b.(eb_sequence) (invalid_envelope "event sequence is required") in
  let? occurred := ok_or b.(eb_occurred_at_ms) (invalid_envelope "event occurred time is required") in
  let? sensitivity := ok_or b.(eb_sensitivity) (invalid_envelope "event classification is required") in
  if bool_decide (sensitivity = SensitivityClass.Unspecified)
  then Err (invalid_envelope "event classification is required")
  else
  let? payload := ok_or b.(eb_payload) (invalid_envelope "event payload is required") in
  let? retention := match b.(eb_retention) with
    | Some class => Ok class
    | None => ok_or (policy_default_retention policy b.(eb_event_type))
                (invalid_envelope "event retention is required")
    end in
  if bool_decide (retention = RetentionClass.Unspecified)
  then Err (invalid_envelope "event retention is required")
  else match policy_minimum policy b.(eb_event_type) with
  | Some minimum =>
      if SensitivityClass_to_wire sensitivity <? SensitivityClass_to_wire minimum
      then Err (kerr FailedPrecondition ("event " +:+ b.(eb_event_type) +:+
             " requires a classification at or above " +:+ sensitivity_token minimum))
      else Ok (mkEventEnvelope b.(eb_event_id) b.(eb_event_type) b.(eb_event_version) b.(eb_stream_key) sequence
             occurred b.(eb_run_id) b.(eb_task_id) b.(eb_session_id) b.(eb_effect_id) b.(eb_causation_id)
             b.(eb_correlation_id) sensitivity retention payload)
  | None => Ok (mkEventEnvelope b.(eb_event_id) b.(eb_event_type) b.(eb_event_version) b.(eb_stream_key) sequence
             occurred b.(eb_run_id) b.(eb_task_id) b.(eb_session_id) b.(eb_effect_id) b.(eb_causation_id)
             b.(eb_correlation_id) sensitivity retention payload)
  end.

(** ** What a decoded envelope is *)

Section Laws.
Context `{!Ext} `{!EnvelopeCodec}.

(** Protobuf decodes what it encoded. *)
Class WireCodec : Prop := wire_round_trip m : decode_envelope (encode_envelope m) = Some m.

Definition readable_id (id : Uuid) : Prop := uuid_v7_from_str (uuid_hyphenated id) = Some id.

(** An envelope whose identifiers are version 7, whose stream key is canonical
    and whose classes are set, as every staged event is. *)
Record wf_envelope (e : EventEnvelope) : Prop := {
  we_event : readable_id e.(ev_event_id);
  we_stream : stream_key_from_str e.(ev_stream_key).(sk_text) = Ok e.(ev_stream_key);
  we_run : forall id, e.(ev_run_id) = Some id -> readable_id id;
  we_task : forall id, e.(ev_task_id) = Some id -> readable_id id;
  we_session : forall id, e.(ev_session_id) = Some id -> readable_id id;
  we_effect : forall id, e.(ev_effect_id) = Some id -> readable_id id;
  we_sensitivity : e.(ev_sensitivity) <> SensitivityClass.Unspecified;
  we_retention : e.(ev_retention) <> RetentionClass.Unspecified }.

(** The wire has no empty optional text: it reads back as absent. *)
Definition wire_text (o : option string) : option string := absent_if_empty (from_option (fun s => s) "" o).

Definition wire_form (e : EventEnvelope) : EventEnvelope :=
  mkEventEnvelope e.(ev_event_id) e.(ev_event_type) e.(ev_event_version) e.(ev_stream_key) e.(ev_sequence)
    e.(ev_occurred_unix_ms) e.(ev_run_id) e.(ev_task_id) e.(ev_session_id) e.(ev_effect_id)
    (wire_text e.(ev_causation_id)) (wire_text e.(ev_correlation_id)) e.(ev_sensitivity) e.(ev_retention)
    e.(ev_payload).

Lemma readable_id_nonempty id : readable_id id -> str_is_empty (uuid_hyphenated id) = false.
Proof. unfold readable_id. by destruct (uuid_hyphenated id). Qed.

Lemma envelope_id_text o field :
  (forall id, o = Some id -> readable_id id) -> envelope_id (opt_id_text o) field = Ok o.
Proof.
  intros Ho. unfold envelope_id, opt_id_text. destruct o as [id|]; [|done]. simpl.
  specialize (Ho id eq_refl). rewrite readable_id_nonempty by done. by rewrite Ho.
Qed.

(** An encoded envelope decodes to itself, up to empty optional texts, and
    encodes to the same bytes again. *)
Lemma envelope_round_trip `{!WireCodec} e :
  wf_envelope e -> from_bytes (to_bytes e) = Ok (wire_form e) /\ to_bytes (wire_form e) = to_bytes e.
Proof.
  intros [W1 W2 W3 W4 W5 W6 W7 W8]. split.
  - unfold from_bytes, to_bytes. rewrite wire_round_trip. cbn [ok_or res_bind to_contract em_event_id em_stream_key
      em_sensitivity em_retention em_run_id em_task_id em_session_id em_effect_id].
    rewrite W1. cbn [ok_or res_bind]. rewrite W2. cbn [res_bind].
    assert (Hs : SensitivityClass_from_wire (SensitivityClass_to_wire (ev_sensitivity e)) = inl (ev_sensitivity e))
      by (by destruct (ev_sensitivity e)).
    assert (Hr : RetentionClass_from_wire (RetentionClass_to_wire (ev_retention e)) = inl (ev_retention e))
      by (by destruct (ev_retention e)).
    rewrite Hs. cbn [res_bind]. rewrite bool_decide_false by done. rewrite Hr. cbn [res_bind].
    rewrite bool_decide_false by done. rewrite !envelope_id_text by done. done.
  - unfold to_bytes, to_contract, wire_form, wire_text, absent_if_empty. cbn. f_equal. f_equal.
    + by destruct (ev_causation_id e) as [[|]|].
    + by destruct (ev_correlation_id e) as [[|]|].
Qed.
End Laws.

(** A built envelope carries the fields it was given and respects the floor. *)
Lemma build_respects_floor policy b e :
  build policy b = Ok e ->
  e.(ev_sensitivity) <> SensitivityClass.Unspecified /\ e.(ev_retention) <> RetentionClass.Unspecified /\
  Some e.(ev_sensitivity) = b.(eb_sensitivity) /\ Some e.(ev_sequence) = b.(eb_sequence) /\
  e.(ev_stream_key) = b.(eb_stream_key) /\ e.(ev_event_version) <> 0 /\
  forall floor, policy_minimum policy e.(ev_event_type) = Some floor ->
    SensitivityClass_to_wire floor <= SensitivityClass_to_wire e.(ev_sensitivity).
Proof.
  unfold build. intros E. destruct (trim_is_empty _); [done|]. case_bool_decide as Hv; [done|].
  apply res_bind_ok_inv in E as (sequence & Hseq%ok_or_ok & E).
  apply res_bind_ok_inv in E as (occurred & _ & E).
  apply res_bind_ok_inv in E as (sensitivity & Hsens%ok_or_ok & E). case_bool_decide as Hs; [done|].
  apply res_bind_ok_inv in E as (payload & _ & E). apply res_bind_ok_inv in E as (retention & _ & E).
  case_bool_decide as Hr; [done|].
  destruct (policy_minimum policy (eb_event_type b)) as [floor|] eqn:Hf.
  - destruct (Z.ltb_spec (SensitivityClass_to_wire sensitivity) (SensitivityClass_to_wire floor)); [done|].
    injection E as <-. cbn. split_and!; try congruence. intros f Hp.
    assert (Some floor = Some f) as [= ->] by (rewrite <- Hf; exact Hp). done.
  - injection E as <-. cbn. split_and!; try congruence. intros f Hp.
    assert (None = Some f) by (rewrite <- Hf; exact Hp). done.
Qed.
