(* ===== verification/Journal.v ===== *)
(** * The event journal ([event-journal-sqlite/src/lib.rs], [events/src/journal.rs])

    The durable projection of the outbox in its own database: appends under an
    expected stream head, idempotent replay of a recorded batch, and forward
    pages of one stream.  The invariant: the recorded positions of a stream are
    [1 .. head] without a gap, and a recorded position is never rewritten. *)

From stdpp Require Import sorting list_numbers.
From S2P Require Import Prelude Domain Ids Text Models StoreBase Store Events Envelope.

Open Scope string_scope.
Open Scope Z_scope.

(** ** Rows ([schema/event_journal.sql])

    [UNIQUE(stream_key, sequence)] makes the position a key of the table;
    [event_id] is its primary key. *)

Record JournalRow := mkJournalRow {
  jr_event_id : string;
  jr_event_type : string;
  jr_event_version : Z;
  jr_occurred_at_ms : Z;
  jr_envelope : bytes }.

Abbreviation Journal := (gmap (string * Z) JournalRow) (only parsing).

Record AppendResult := mkAppendResult { final_sequence : Z }.
Record ReadResult := mkReadResult { rr_events : list EventEnvelope; rr_retention_gap : bool }.

(** [from_sqlx] of the journal crate differs from the kernel store's in its texts. *)
Definition journal_message (code : ErrorCode) : string :=
  match code with
  | Conflict => "event journal constraint conflict"
  | FailedPrecondition => "event journal constraint rejected the write"
  | Unavailable => "event journal storage is unavailable"
  | NotFound => "event journal row is missing"
  | _ => "event journal storage operation failed"
  end.

Definition journal_from_sqlx (code : Z) : KernelError :=
  let (c, retry) := classify_sqlite code in mkKernelError c retry (journal_message c).

Definition invalid (detail : string) : KernelError := kerr InvalidArgument detail.
Definition corruption (detail : string) : KernelError := kerr Internal detail.

Definition encode_sequence (sequence : Z) : Res Z :=
  if sequence <=? i64_max then Ok sequence
  else Err (invalid "event journal sequence exceeds the SQLite integer range").

Definition u64_checked_add (a b : Z) : option Z := if a + b <=? u64_max then Some (a + b) else None.

(** ** Append *)

Fixpoint validate_positions (stream_key : StreamKey) (next : Z) (batch : list EventEnvelope) : Res Z :=
  match batch with
  | [] => Ok (next - 1)
  | envelope :: batch =>
      if bool_decide (envelope.(ev_stream_key) <> stream_key)
      then Err (invalid "event journal batch envelope belongs to a different stream")
      else if bool_decide (envelope.(ev_sequence) <> next)
      then Err (invalid "event journal batch sequences are not contiguous from expected_sequence + 1")
      else
      let? next := ok_or (u64_checked_add next 1) (invalid "event journal batch sequence overflows") in
      validate_positions stream_key next batch
  end.

Definition validate_batch (stream_key : StreamKey) (expected_sequence : Z) (batch : list EventEnvelope) : Res Z :=
  if bool_decide (batch = []) then Err (invalid "event journal append batch is empty")
  else
  let? next := ok_or (u64_checked_add expected_sequence 1)
    (invalid "event journal expected sequence overflows") in
  validate_positions stream_key next batch.

(** The sequences a stream's rows hold. *)
Definition stream_positions (key : string) (j : Journal) : list Z :=
  (filter (fun p => p.1 = key) (map_to_list j).*1).*2.

(** [COALESCE(MAX(sequence), 0)]. *)
Definition stream_max (key : string) (j : Journal) : Z :=
  match stream_positions key j with
  | [] => 0
  | n :: l => foldr Z.max n l
  end.

Definition read_head (stream_key : StreamKey) : ST Journal Z := fun j =>
  let head := stream_max stream_key.(sk_text) j in
  (if 0 <=? head then Ok head else Err (corruption "event journal stream head is negative"), j).

Section Append.
Context `{!Ext} `{!EnvelopeCodec}.

Definition journal_row (e : EventEnvelope) : JournalRow :=
  mkJournalRow (uuid_hyphenated e.(ev_event_id)) e.(ev_event_type) e.(ev_event_version)
    e.(ev_occurred_unix_ms) (to_bytes e).

Definition recorded_id (id : string) (j : Journal) : bool :=
  existsb (fun kv => bool_decide (kv.2.(jr_event_id) = id)) (map_to_list j).

Definition insert_envelope (e : EventEnvelope) : ST Journal unit := fun j =>
  match encode_sequence e.(ev_sequence) with
  | Err err => (Err err, j)
  | Ok sequence =>
      if recorded_id (uuid_hyphenated e.(ev_event_id)) j then (Err (journal_from_sqlx 1555), j)
      else match j !! (e.(ev_stream_key).(sk_text), sequence) with
      | Some _ => (Err (journal_from_sqlx 2067), j)
      | None => (Ok tt, <[(e.(ev_stream_key).(sk_text), sequence) := journal_row e]> j)
      end
  end.

Definition verify_recorded (key : string) (e : EventEnvelope) : ST Journal unit := fun j =>
  match encode_sequence e.(ev_sequence) with
  | Err err => (Err err, j)
  | Ok sequence =>
      (match j !! (key, sequence) with
       | None => Err (kerr FailedPrecondition
           "event journal append expected sequence does not match the stream head")
       | Some row =>
           if bool_decide (row.(jr_event_id) <> uuid_hyphenated e.(ev_event_id))
           then Err (kerr Conflict "event journal position already holds a different event")
           else if bool_decide (row.(jr_envelope) <> to_bytes e)
           then Err (kerr Conflict "event journal position already holds different event bytes")
           else Ok tt
       end, j)
  end.

Definition verify_recorded_batch (stream_key : StreamKey) (batch : list EventEnvelope) : ST Journal unit :=
  for_each batch (verify_recorded stream_key.(sk_text)).

(** The body of the [BEGIN IMMEDIATE] transaction. *)
Definition append_body (stream_key : StreamKey) (expected_sequence : Z) (batch : list EventEnvelope)
    : ST Journal unit :=
  let! head := read_head stream_key in
  if head =? expected_sequence then for_each batch insert_envelope
  else verify_recorded_batch stream_key batch.

(** [append]: an error drops the transaction, which rolls back. *)
Definition append (stream_key : StreamKey) (expected_sequence : Z) (batch : list EventEnvelope)
    : ST Journal AppendResult := fun j =>
  match validate_batch stream_key expected_sequence batch with
  | Err e => (Err e, j)
  | Ok final =>
      match append_body stream_key expected_sequence batch j with
      | (Ok _, j') => (Ok (mkAppendResult final), j')
      | (Err e, _) => (Err e, j)
      end
  end.

(** ** Read *)

Definition seq_le (x y : Z * JournalRow) : Prop := x.1 <= y.1.

#[export] Instance seq_le_dec : RelDecision seq_le.
Proof. intros x y. unfold seq_le. apply _. Defined.

(** [WHERE stream_key = ? AND sequence > ? ORDER BY sequence ASC]. *)
Definition stream_rows (key : string) (from : Z) (j : Journal) : list (Z * JournalRow) :=
  merge_sort seq_le
    ((fun kv => (kv.1.2, kv.2)) <$> filter (fun kv => kv.1.1 = key /\ from < kv.1.2) (map_to_list j)).

(** One row of a page, checked against the envelope it holds.  The query has
    already selected the stream. *)
Definition decode_row (row : Z * JournalRow) : Res EventEnvelope :=
  let? decoded := from_bytes row.2.(jr_envelope) in
  if negb (0 <=? row.1) then Err (corruption "event journal row holds a negative sequence")
  else if bool_decide (decoded.(ev_sequence) <> row.1 \/
                       uuid_hyphenated decoded.(ev_event_id) <> row.2.(jr_event_id))
  then Err (corruption "event journal row does not match its recorded envelope")
  else Ok decoded.

Definition read_stream (stream_key : StreamKey) (from_sequence : Z) (limit : nat)
    : ST Journal ReadResult := fun j =>
  (let? from := encode_sequence from_sequence in
   let? events := res_collect decode_row (take limit (stream_rows stream_key.(sk_text) from j)) in
   Ok (mkReadResult events false), j).
End Append.

(** ** Positions *)

(** The recorded positions of every stream start at 1 and have no gap. *)
Definition journal_wf (j : Journal) : Prop :=
  forall key n, is_Some (j !! (key, n)) -> 1 <= n /\ forall m, 1 <= m <= n -> is_Some (j !! (key, m)).

Lemma elem_of_stream_positions key j n : n ∈ stream_positions key j <-> is_Some (j !! (key, n)).
Proof.
  unfold stream_positions. rewrite list_elem_of_fmap. split.
  - intros ([k m] & -> & Hin). rewrite list_elem_of_filter, list_elem_of_fmap in Hin.
    destruct Hin as [Hk ([p row] & Hp & Hrow)]. simpl in *. subst.
    exists row. by apply elem_of_map_to_list.
  - intros [row Hrow]. exists (key, n). split; [done|]. rewrite list_elem_of_filter. split; [done|].
    apply list_elem_of_fmap. exists (key, n, row). split; [done|]. by apply elem_of_map_to_list.
Qed.

Lemma foldr_max_spec n l : foldr Z.max n l ∈ n :: l /\ forall m, m ∈ n :: l -> m <= foldr Z.max n l.
Proof.
  induction l as [|x l [IH1 IH2]]; simpl.
  - split; [left|]. intros m ->%list_elem_of_singleton. lia.
  - split.
    + destruct (Z.max_spec x (foldr Z.max n l)) as [[_ ->]|[_ ->]]; set_solver.
    + intros m Hm. assert (m = x \/ m ∈ n :: l) as [->|Hl] by set_solver; [lia|]. specialize (IH2 m Hl). lia.
Qed.

Lemma stream_max_spec key j :
  journal_wf j -> 0 <= stream_max key j /\ forall n, is_Some (j !! (key, n)) <-> 1 <= n <= stream_max key j.
Proof.
  intros Hwf. assert (Hpos := elem_of_stream_positions key j). unfold stream_max.
  destruct (stream_positions key j) as [|x l].
  - split; [lia|]. intros n. rewrite <- Hpos, elem_of_nil. lia.
  - destruct (foldr_max_spec x l) as [Hin Hmax]. pose proof (Hwf _ _ (proj1 (Hpos _) Hin)) as [H1 Hd].
    split; [lia|]. intros n. split.
    + intros Hn. split; [eapply Hwf, Hn|]. apply Hmax. by apply Hpos.
    + apply Hd.
Qed.

Lemma read_head_run k j : journal_wf j -> read_head k j = (Ok (stream_max (sk_text k) j), j).
Proof.
  intros Hwf. unfold read_head. destruct (Z.leb_spec 0 (stream_max (sk_text k) j)); [done|].
  pose proof (stream_max_spec (sk_text k) j Hwf). lia.
Qed.

(** A batch occupies consecutive positions of one stream from [next]. *)
Definition contiguous (k : StreamKey) (next : Z) (batch : list EventEnvelope) : Prop :=
  forall i e, batch !! i = Some e -> e.(ev_stream_key) = k /\ e.(ev_sequence) = next + Z.of_nat i.

Lemma contiguous_cons k next e batch :
  contiguous k next (e :: batch) <->
  (e.(ev_stream_key) = k /\ e.(ev_sequence) = next) /\ contiguous k (next + 1) batch.
Proof.
  split.
  - intros H. split; [specialize (H 0%nat e eq_refl); rewrite Z.add_0_r in H; exact H|].
    intros i e' Hi. specialize (H (S i) e' Hi) as [-> ->]. split; [done|lia].
  - intros [[<- <-] H] [|i] e' Hi; simpl in Hi.
    + injection Hi as <-. split; [done|lia].
    + destruct (H i e' Hi) as [-> ->]. split; [done|lia].
Qed.

Lemma contiguous_drop k next batch n :
  contiguous k next batch -> contiguous k (next + Z.of_nat n) (drop n batch).
Proof. intros H i e Hi. rewrite lookup_drop in Hi. apply H in Hi as [-> ->]. split; [done|lia]. Qed.

Lemma validate_positions_spec k next batch f :
  next <= u64_max ->
  validate_positions k next batch = Ok f <->
  contiguous k next batch /\ next + Z.of_nat (length batch) <= u64_max /\ f = next + Z.of_nat (length batch) - 1.
Proof.
  revert next. induction batch as [|e batch IH]; intros next Hn; cbn [validate_positions length].
  - split; [intros [= <-]|intros (_ & _ & ->); f_equal; lia]. split; [done|]. split; lia.
  - rewrite contiguous_cons. case_bool_decide as Hk; [split; [done|tauto]|].
    case_bool_decide as Hs; [split; [done|tauto]|].
    unfold u64_checked_add.
    destruct (Z.leb_spec (next + 1) u64_max); simpl.
    + rewrite IH by lia. split; intros (? & ? & ->); split_and!; try tauto; lia.
    + split; [done|lia].
Qed.

Lemma validate_batch_spec k expected batch f :
  0 <= expected <= u64_max ->
  validate_batch k expected batch = Ok f <->
  batch <> [] /\ contiguous k (expected + 1) batch /\
  expected + 1 + Z.of_nat (length batch) <= u64_max /\ f = expected + Z.of_nat (length batch).
Proof.
  intros He. unfold validate_batch. case_bool_decide as Hb; [split; [done|tauto]|].
  unfold u64_checked_add. destruct (Z.leb_spec (expected + 1) u64_max); simpl.
  - rewrite validate_positions_spec by lia. split; intros; destruct_and!; split_and!; try done; lia.
  - split; [done|]. intros (_ & _ & ? & _). lia.
Qed.

(** ** What a successful append records *)

Section Record.
Context `{!Ext} `{!EnvelopeCodec}.

Definition position (e : EventEnvelope) : string * Z := (e.(ev_stream_key).(sk_text), e.(ev_sequence)).

(** The batch recorded on top of [j]. *)
Definition record_batch (batch : list EventEnvelope) (j : Journal) : Journal :=
  foldl (fun j e => <[position e := journal_row e]> j) j batch.

Lemma insert_envelope_inv e j u j' :
  insert_envelope e j = (Ok u, j') -> e.(ev_sequence) <= i64_max /\ j' = <[position e := journal_row e]> j.
Proof.
  unfold insert_envelope, encode_sequence. destruct (Z.leb_spec (ev_sequence e) i64_max); [|done].
  destruct (recorded_id _ _); [done|]. destruct (j !! _); [done|]. by intros [= _ <-].
Qed.

Lemma inserted_batch batch j u j' :
  for_each batch insert_envelope j = (Ok u, j') ->
  j' = record_batch batch j /\ forall e, e ∈ batch -> e.(ev_sequence) <= i64_max.
Proof.
  revert j. induction batch as [|e batch IH]; intros j E; simpl in E.
  - injection E as _ <-. split; [done|]. by intros e ?%elem_of_nil.
  - apply bind_ok_inv in E as ([] & j1 & [Hs ->]%insert_envelope_inv & E2). apply IH in E2 as [-> Hall].
    split; [done|]. intros e' [->|?]%elem_of_cons; auto.
Qed.

Lemma lookup_record_batch k next batch j key n :
  contiguous k next batch ->
  record_batch batch j !! (key, n) =
    if decide (key = sk_text k /\ next <= n < next + Z.of_nat (length batch))
    then journal_row <$> batch !! Z.to_nat (n - next) else j !! (key, n).
Proof.
  revert next j. induction batch as [|e batch IH]; intros next j Hc.
  - cbn [record_batch foldl length]. rewrite decide_False by (intros [_ ?]; lia). done.
  - apply contiguous_cons in Hc as [[He1 He2] Hc]. cbn [record_batch foldl length].
    fold (record_batch batch (<[position e:=journal_row e]> j)).
    rewrite (IH (next + 1)) by done. unfold position. rewrite He1, He2.
    destruct (decide (key = sk_text k /\ next + 1 <= n < next + 1 + Z.of_nat (length batch))) as [[-> Hn]|Hn].
    + rewrite decide_True by (split; [done|lia]). replace (Z.to_nat (n - next)) with (S (Z.to_nat (n - (next + 1)))) by lia. done.
    + destruct (decide (key = sk_text k /\ n = next)) as [[-> ->]|Hne].
      * rewrite lookup_insert_eq, decide_True by (split; [done|lia]). by replace (Z.to_nat (next - next)) with 0%nat by lia.
      * rewrite lookup_insert_ne by (intros [= ? ?]; subst; tauto). rewrite decide_False; [done|]. intros [-> ?].
        assert (n <> next) by (intros ->; tauto). assert (~ next + 1 <= n < next + 1 + Z.of_nat (length batch)) by tauto.
        lia.
Qed.

Lemma contiguous_lookup k next batch e :
  contiguous k next batch -> e ∈ batch ->
  e.(ev_stream_key) = k /\ next <= e.(ev_sequence) < next + Z.of_nat (length batch) /\
  batch !! Z.to_nat (e.(ev_sequence) - next) = Some e.
Proof.
  intros Hc [i Hi]%list_elem_of_lookup_1. destruct (Hc i e Hi) as [H1 H2].
  pose proof (lookup_lt_Some _ _ _ Hi). split; [done|]. rewrite H2. split; [lia|].
  by replace (Z.to_nat (next + Z.of_nat i - next)) with i by lia.
Qed.

(** Recording at the head keeps the positions gap-free. *)
Lemma record_batch_wf k batch j :
  journal_wf j -> contiguous k (stream_max (sk_text k) j + 1) batch -> journal_wf (record_batch batch j).
Proof.
  intros Hwf Hc. pose proof (stream_max_spec (sk_text k) j Hwf) as [Hge Hmax].
  assert (Hl : forall key n, is_Some (record_batch batch j !! (key, n)) <->
     (key = sk_text k /\ 1 <= n <= stream_max (sk_text k) j + Z.of_nat (length batch)) \/
     (key <> sk_text k /\ is_Some (j !! (key, n)))).
  { intros key n. rewrite (lookup_record_batch k _ _ _ _ _ Hc). case_decide as D.
    - destruct D as [-> D]. rewrite fmap_is_Some, lookup_lt_is_Some. split; [intros _; left; split; [done|lia]|intros [[_ ?]|[? _]]; [lia|done]].
    - destruct (decide (key = sk_text k)) as [->|Hne]; [|tauto]. apply not_and_r in D as [D|D]; [done|]. rewrite Hmax.
      split; [|intros [[_ ?]|[? _]]; [lia|done]]. intros ?. left. split; [done|lia]. }
  intros key n Hn. setoid_rewrite Hl. apply Hl in Hn as [[-> Hn]|[Hne Hn]].
  - split; [lia|]. intros m Hm. left. split; [done|lia].
  - apply Hwf in Hn as [Hx Hy]. split; [done|]. intros m Hm. right. auto.
Qed.

Lemma record_batch_max k batch j :
  journal_wf j -> contiguous k (stream_max (sk_text k) j + 1) batch ->
  forall key, stream_max key (record_batch batch j) =
    stream_max key j + (if decide (key = sk_text k) then Z.of_nat (length batch) else 0).
Proof.
  intros Hwf Hc key. pose proof (record_batch_wf _ _ _ Hwf Hc) as Hwf'.
  destruct (stream_max_spec key _ Hwf') as [A1 A2]. destruct (stream_max_spec key j Hwf) as [B1 B2].
  set (M := stream_max key (record_batch batch j)) in *.
  set (target := stream_max key j + _). assert (0 <= target) by (unfold target; case_decide; lia).
  assert (Hiff : forall n, 1 <= n <= M <-> 1 <= n <= target).
  { intros n. rewrite <- A2, (lookup_record_batch k _ _ _ _ _ Hc). unfold target.
    destruct (decide (key = sk_text k)) as [->|Hne].
    - case_decide as D.
      + destruct D as [_ D]. rewrite fmap_is_Some, lookup_lt_is_Some. lia.
      + rewrite B2. assert (~ stream_max (sk_text k) j + 1 <= n < stream_max (sk_text k) j + 1 + Z.of_nat (length batch))
          by tauto. lia.
    - rewrite decide_False by tauto. rewrite B2. lia. }
  destruct (decide (M < target)); [specialize (Hiff target); lia|].
  destruct (decide (target < M)); [specialize (Hiff M); lia|lia].
Qed.
End Record.

(** ** Pages *)

Lemma seqZ_StronglySorted m n : StronglySorted Z.le (seqZ m (Z.of_nat n)).
Proof.
  revert m. induction n as [|n IH]; intros m; [constructor|].
  rewrite seqZ_cons by lia. replace (Z.pred (Z.of_nat (S n))) with (Z.of_nat n) by lia.
  constructor; [apply IH|]. apply Forall_seqZ. lia.
Qed.

Lemma elem_of_stream_rows key from j n row :
  (n, row) ∈ stream_rows key from j <-> j !! (key, n) = Some row /\ from < n.
Proof.
  unfold stream_rows. rewrite merge_sort_Permutation, list_elem_of_fmap. split.
  - intros ([[k m] r] & [= -> ->] & Hin). rewrite list_elem_of_filter, elem_of_map_to_list in Hin.
    simpl in Hin. destruct Hin as [[-> Hf] Hr]. done.
  - intros [Hr Hf]. exists (key, n, row). split; [done|]. rewrite list_elem_of_filter, elem_of_map_to_list. done.
Qed.

Lemma NoDup_stream_rows key from j : NoDup (stream_rows key from j).*1.
Proof.
  unfold stream_rows. rewrite merge_sort_Permutation.
  rewrite <- list_fmap_compose. pose proof (NoDup_fst_map_to_list j) as Hnd. revert Hnd.
  induction (map_to_list j) as [|[[k n] row] l IH]; intros Hnd; [constructor|].
  cbn [fmap list_fmap fst] in Hnd. apply list.NoDup_cons in Hnd as [Hn Hnd]. cbn [filter list_filter fst snd].
  case_decide as D; [|by apply IH]. cbn [fmap list_fmap]. apply list.NoDup_cons. split; [|by apply IH].
  intros ([[k' n'] row'] & Hn' & Hin)%list_elem_of_fmap. cbn in Hn'.
  rewrite list_elem_of_filter in Hin. simpl in *. destruct Hin as [[-> _] Hin], D as [-> _]. subst n'.
  apply Hn, list_elem_of_fmap. exists (key, n, row'). done.
Qed.

(** The rows after [from] are the positions [from + 1 .. head], in order. *)
Lemma stream_rows_seq key from j :
  journal_wf j -> 0 <= from -> (stream_rows key from j).*1 = seqZ (from + 1) (Z.of_nat (Z.to_nat (stream_max key j - from))).
Proof.
  intros Hwf Hf. destruct (stream_max_spec key j Hwf) as [Hge Hmax].
  apply (StronglySorted_unique Z.le).
  - eapply (StronglySorted_fmap _ seq_le); [done|]. apply StronglySorted_merge_sort.
    + intros x y z. unfold seq_le. lia.
    + intros x y. unfold seq_le. lia.
  - apply seqZ_StronglySorted.
  - apply NoDup_Permutation; [apply NoDup_stream_rows|apply NoDup_seqZ|]. intros n.
    rewrite elem_of_seqZ, list_elem_of_fmap. split.
    + intros ([n' row] & -> & [Hr Hlt]%elem_of_stream_rows). simpl.
      assert (is_Some (j !! (key, n'))) as Hs%Hmax by (by exists row). lia.
    + intros Hn. assert (is_Some (j !! (key, n))) as [row Hr] by (apply Hmax; lia).
      exists (n, row). split; [done|]. apply elem_of_stream_rows. split; [done|lia].
Qed.

Lemma stream_rows_lookup key from j i n row :
  journal_wf j -> 0 <= from -> stream_rows key from j !! i = Some (n, row) ->
  n = from + 1 + Z.of_nat i /\ j !! (key, n) = Some row.
Proof.
  intros Hwf Hf Hi. split.
  - assert (Hn : (stream_rows key from j).*1 !! i = Some n) by (by rewrite list_lookup_fmap, Hi).
    rewrite stream_rows_seq in Hn by done. apply lookup_seqZ in Hn. tauto.
  - apply list_elem_of_lookup_2, elem_of_stream_rows in Hi. tauto.
Qed.

Lemma length_stream_rows key from j :
  journal_wf j -> 0 <= from -> length (stream_rows key from j) = Z.to_nat (stream_max key j - from).
Proof.
  intros Hwf Hf. rewrite <- (length_fmap fst), stream_rows_seq, length_seqZ by done. lia.
Qed.

(** ** The operations *)

Section Operations.
Context `{!Ext} `{!EnvelopeCodec}.

Lemma verify_recorded_inv key e j u j' :
  verify_recorded key e j = (Ok u, j') ->
  j' = j /\ exists row, j !! (key, e.(ev_sequence)) = Some row /\
    row.(jr_event_id) = uuid_hyphenated e.(ev_event_id) /\ row.(jr_envelope) = to_bytes e.
Proof.
  unfold verify_recorded, encode_sequence. destruct (_ <=? _); [|done].
  destruct (j !! _) as [row|]; [|done]. case_bool_decide as D1; [done|]. case_bool_decide as D2; [done|].
  intros [= _ <-]. eauto.
Qed.

Lemma verified_batch k batch j u j' :
  verify_recorded_batch k batch j = (Ok u, j') ->
  j' = j /\ forall e, e ∈ batch -> exists row, j !! (sk_text k, e.(ev_sequence)) = Some row /\
    row.(jr_event_id) = uuid_hyphenated e.(ev_event_id) /\ row.(jr_envelope) = to_bytes e.
Proof.
  unfold verify_recorded_batch. revert j. induction batch as [|e batch IH]; intros j E; simpl in E.
  - injection E as _ <-. split; [done|]. by intros e ?%elem_of_nil.
  - apply bind_ok_inv in E as ([] & j1 & [-> He]%verify_recorded_inv & E2). apply IH in E2 as [-> Hb].
    split; [done|]. intros e' [->|Hin]%elem_of_cons; auto.
Qed.

(** An append records the whole batch at the head of its stream, or finds it
    recorded already, or changes nothing. *)
Lemma append_cases k expected batch j r j' :
  0 <= expected <= u64_max -> append k expected batch j = (r, j') ->
  (j' = j /\ forall a, r = Ok a -> forall e, e ∈ batch -> exists row, j !! (sk_text k, e.(ev_sequence)) = Some row /\
     row.(jr_event_id) = uuid_hyphenated e.(ev_event_id) /\ row.(jr_envelope) = to_bytes e) \/
  (stream_max (sk_text k) j = expected /\ contiguous k (expected + 1) batch /\ batch <> [] /\
   (forall e, e ∈ batch -> e.(ev_sequence) <= i64_max) /\
   j' = record_batch batch j /\ r = Ok (mkAppendResult (expected + Z.of_nat (length batch)))).
Proof.
  intros Hexp E. unfold append in E.
  destruct (validate_batch k expected batch) as [final|] eqn:V; [|injection E as <- <-; by left].
  apply validate_batch_spec in V as (Hb & Hc & _ & ->); [|done].
  destruct (append_body k expected batch j) as [[[]|] j1] eqn:B; injection E as <- <-; [|by left].
  unfold append_body in B. apply bind_ok_inv in B as (head & j2 & R & B).
  unfold read_head in R. destruct (0 <=? stream_max (sk_text k) j); [|done]. injection R as <- <-.
  destruct (Z.eqb_spec (stream_max (sk_text k) j) expected) as [Hh|Hh].
  - right. apply inserted_batch in B as [-> Hall]. done.
  - left. apply verified_batch in B as [-> Hv]. split; [done|]. eauto.
Qed.

Lemma append_wf k expected batch j r j' :
  0 <= expected <= u64_max -> journal_wf j -> append k expected batch j = (r, j') -> journal_wf j'.
Proof.
  intros He Hwf E. apply append_cases in E as [[-> _]|(<- & Hc & _ & _ & -> & _)]; [done| |done].
  by eapply record_batch_wf.
Qed.

Lemma read_stream_run k from limit j :
  from <= i64_max ->
  read_stream k from limit j =
    (res_map (fun events => mkReadResult events false)
       (res_collect decode_row (take limit (stream_rows (sk_text k) from j))), j).
Proof.
  intros Hf. unfold read_stream, encode_sequence. destruct (Z.leb_spec from i64_max); [|lia]. simpl.
  by destruct (res_collect _ _).
Qed.

Lemma recorded_id_true id j : recorded_id id j = true <-> exists pos row, j !! pos = Some row /\ row.(jr_event_id) = id.
Proof.
  unfold recorded_id. rewrite existsb_exists. split.
  - intros ([pos row] & Hin & Hid%bool_decide_eq_true). apply list_elem_of_In, elem_of_map_to_list in Hin. eauto.
  - intros (pos & row & Hr & <-). exists (pos, row). split; [|by apply bool_decide_eq_true].
    by apply list_elem_of_In, elem_of_map_to_list.
Qed.

Definition event_text (e : EventEnvelope) : string := uuid_hyphenated e.(ev_event_id).

Lemma insert_batch_run k next batch j :
  contiguous k next batch -> next + Z.of_nat (length batch) - 1 <= i64_max ->
  (forall n, next <= n -> j !! (sk_text k, n) = None) ->
  (forall e, e ∈ batch -> recorded_id (event_text e) j = false) -> NoDup (event_text <$> batch) ->
  for_each batch insert_envelope j = (Ok tt, record_batch batch j).
Proof.
  revert next j. induction batch as [|e batch IH]; intros next j Hc Hb Hfree Hid Hnd; [done|].
  apply contiguous_cons in Hc as [[He1 He2] Hc]. cbn [for_each length] in *.
  assert (Hi : insert_envelope e j = (Ok tt, <[position e := journal_row e]> j)).
  { unfold insert_envelope, encode_sequence, position. rewrite He1, He2.
    destruct (Z.leb_spec next i64_max); [|lia]. fold (event_text e). rewrite Hid by set_solver.
    by rewrite Hfree by lia. }
  unfold bind. rewrite Hi. cbn [fmap list_fmap] in Hnd. apply list.NoDup_cons in Hnd as [Hn Hnd].
  apply (IH (next + 1)); [done|lia|..|done].
  - intros n Hn'. unfold position. rewrite He1, He2. rewrite lookup_insert_ne; [apply Hfree; lia|].
    intros [= ?]. lia.
  - intros e' He'. apply not_true_is_false. intros (pos & row & Hr & Hrow)%recorded_id_true.
    apply lookup_insert_Some in Hr as [[_ <-]|[_ Hr]].
    + apply Hn. apply list_elem_of_fmap. exists e'. split; [|done]. by rewrite <- Hrow.
    + assert (recorded_id (event_text e') j = false) as Hf by (apply Hid; set_solver).
      apply not_true_iff_false in Hf. apply Hf, recorded_id_true. eauto.
Qed.

(** A batch at the head of its stream, with new events, is appended. *)
Lemma append_at_head k batch j :
  journal_wf j -> batch <> [] -> contiguous k (stream_max (sk_text k) j + 1) batch ->
  stream_max (sk_text k) j + Z.of_nat (length batch) <= i64_max ->
  (forall e, e ∈ batch -> recorded_id (event_text e) j = false) -> NoDup (event_text <$> batch) ->
  append k (stream_max (sk_text k) j) batch j =
    (Ok (mkAppendResult (stream_max (sk_text k) j + Z.of_nat (length batch))), record_batch batch j).
Proof.
  intros Hwf Hb Hc Hl Hid Hnd. destruct (stream_max_spec (sk_text k) j Hwf) as [Hge Hmax].
  assert (V : validate_batch k (stream_max (sk_text k) j) batch
              = Ok (stream_max (sk_text k) j + Z.of_nat (length batch))).
  { unfold i64_max in *. apply validate_batch_spec; unfold u64_max in *; [lia|]. split_and!; try done. lia. }
  unfold append. rewrite V.
  unfold append_body, bind. rewrite read_head_run, Z.eqb_refl by done.
  rewrite (insert_batch_run k (stream_max (sk_text k) j + 1)); try done; [lia|].
  intros n Hn. destruct (j !! (sk_text k, n)) eqn:E; [|done].
  assert (is_Some (j !! (sk_text k, n))) as Hs%Hmax by eauto. lia.
Qed.

Lemma verify_batch_run k batch j :
  (forall e, e ∈ batch -> e.(ev_sequence) <= i64_max /\ exists row, j !! (sk_text k, e.(ev_sequence)) = Some row /\
    row.(jr_event_id) = uuid_hyphenated e.(ev_event_id) /\ row.(jr_envelope) = to_bytes e) ->
  verify_recorded_batch k batch j = (Ok tt, j).
Proof.
  unfold verify_recorded_batch. induction batch as [|e batch IH]; intros Hb; [done|]. cbn [for_each].
  destruct (Hb e) as (Hs & row & Hr & Hid & Hbytes); [left|]. unfold bind, verify_recorded, encode_sequence.
  destruct (Z.leb_spec (ev_sequence e) i64_max); [|lia]. rewrite Hr.
  rewrite !bool_decide_false by tauto. apply IH. intros e' He'. apply Hb. by right.
Qed.

(** ** Behaviour *)

(** An accepted batch is recorded exactly: afterwards every position of the
    batch holds its event id and bytes, every other position is untouched,
    positions stay gap-free, and submitting the same batch again succeeds with
    the same answer and writes nothing. *)
Theorem append_records_once k expected batch j res j' :
  journal_wf j -> 0 <= expected <= u64_max -> append k expected batch j = (Ok res, j') ->
  journal_wf j' /\
  res.(final_sequence) = expected + Z.of_nat (length batch) /\
  (forall e, e ∈ batch -> exists row, j' !! (sk_text k, e.(ev_sequence)) = Some row /\
     row.(jr_event_id) = uuid_hyphenated e.(ev_event_id) /\ row.(jr_envelope) = to_bytes e) /\
  (forall pos row, j !! pos = Some row -> j' !! pos = Some row) /\
  (forall pos, is_Some (j' !! pos) -> is_Some (j !! pos) \/ exists e, e ∈ batch /\ pos = position e) /\
  append k expected batch j' = (Ok res, j').
Proof.
  intros Hwf He E. pose proof (append_wf _ _ _ _ _ _ He Hwf E) as Hwf'. split; [done|].
  pose proof E as E0. apply append_cases in E as [[-> Hrec]|(Hh & Hc & Hne & Hs & -> & [= ->])]; [| |done].
  - specialize (Hrec _ eq_refl). split_and!; [|done|done|by left|done].
    unfold append in E0. destruct (validate_batch k expected batch) as [f|] eqn:V; [|done].
    apply validate_batch_spec in V as (_ & _ & _ & ->); [|done].
    destruct (append_body _ _ _ _) as [[]]; [|done]. by injection E0 as <- <-.
  - assert (Hrec : forall e, e ∈ batch -> record_batch batch j !! (sk_text k, ev_sequence e) = Some (journal_row e)).
    { intros e Hin. destruct (contiguous_lookup _ _ _ _ Hc Hin) as (_ & Hr & Hl).
      rewrite (lookup_record_batch _ _ _ _ _ _ Hc), decide_True, Hl by (split; [done|lia]). done. }
    destruct (stream_max_spec (sk_text k) j Hwf) as [Hge Hmax].
    split_and!; [done|..].
    + intros e Hin. exists (journal_row e). auto.
    + intros [key n] row Hr. rewrite (lookup_record_batch _ _ _ _ _ _ Hc). case_decide as D; [|done].
      destruct D as [-> D]. assert (is_Some (j !! (sk_text k, n))) as ?%Hmax by eauto. lia.
    + intros [key n]. rewrite (lookup_record_batch _ _ _ _ _ _ Hc). case_decide as D; [|auto].
      destruct D as [-> D]. intros Hs'. apply fmap_is_Some in Hs' as [e Hl]. right. exists e.
      apply list_elem_of_lookup_2 in Hl as Hin. split; [done|]. destruct (Hc _ _ Hl) as [H1 H2].
      unfold position. rewrite H1, H2. f_equal. lia.
    + unfold append in E0 |- *. destruct (validate_batch k expected batch) as [f|] eqn:V; [|done].
      apply validate_batch_spec in V as (_ & _ & _ & ->); [|done]. clear E0.
      unfold append_body, bind. rewrite read_head_run, (record_batch_max k) by (done || by rewrite Hh).
      rewrite decide_True by done. destruct (Z.eqb_spec (stream_max (sk_text k) j + Z.of_nat (length batch)) expected).
      { destruct batch; [done|]. simpl in *. lia. }
      rewrite verify_batch_run; [done|]. intros e Hin. split; [by apply Hs|]. exists (journal_row e). auto.
Qed.
End Operations.
