(* ===== verification/Dispatch.v ===== *)
(** * Journal-first dispatch of the outbox ([events/src/dispatcher.rs])

    One iteration scans the unpublished outbox, appends each stream's batch to
    the journal, marks the rows as journaled in a fenced transaction and only
    then hands them to the live sink.  The state couples the kernel database
    with the journal and with what live subscribers were given, so that the
    theorems cover an iteration that stops at any of its failures. *)

From stdpp Require Import sorting list_numbers.
From S2P Require Import Prelude Domain Ids Text Models StoreBase Store Events Envelope Journal.

Open Scope string_scope.
Open Scope Z_scope.

(** The dispatcher's world: the kernel store, [events.db], the events handed to
    the live sink (oldest first) and the consultations of the fault injector. *)
Record DispatchState := mkDispatch {
  ds_world : World;
  ds_journal : Journal;
  ds_live : list EventEnvelope;
  ds_faults : nat }.

Record DispatchOutcome := mkOutcome { do_scanned : Z; do_published : Z; do_backlog : Z }.

(** [FaultInjector::inject] at [outbox.after_journal_append], by consultation. *)
Class Faults := inject : nat -> bool.

Definition on_world {A} (m : ST World A) : ST DispatchState A := fun s =>
  let (r, w) := m s.(ds_world) in (r, mkDispatch w s.(ds_journal) s.(ds_live) s.(ds_faults)).

Definition on_journal {A} (m : ST Journal A) : ST DispatchState A := fun s =>
  let (r, j) := m s.(ds_journal) in (r, mkDispatch s.(ds_world) j s.(ds_live) s.(ds_faults)).

Definition live_publish (e : EventEnvelope) : ST DispatchState unit :=
  modify (fun s => mkDispatch s.(ds_world) s.(ds_journal) (s.(ds_live) ++ [e])%list s.(ds_faults)).

Definition u32_max : Z := 4294967295.

Definition batch_limit (len : nat) : nat := Z.to_nat (Z.min (Z.of_nat len) u32_max).

Definition fault_fired : KernelError := mkKernelError Unavailable RetrySafe
  "outbox.after_journal_append fault point fired after a journal append".

Section Rows.
Context `{!Ext}.

Definition envelope_from_row (row : OutboxEventRow) (key : StreamKey) : EventEnvelope := {|
  ev_event_id := row.(OutboxEventRow.event_id);
  ev_event_type := row.(OutboxEventRow.event_type);
  ev_event_version := row.(OutboxEventRow.event_version);
  ev_stream_key := key;
  ev_sequence := row.(OutboxEventRow.sequence);
  ev_occurred_unix_ms := row.(OutboxEventRow.occurred_at_ms);
  ev_run_id := row.(OutboxEventRow.run_id);
  ev_task_id := row.(OutboxEventRow.task_id);
  ev_session_id := row.(OutboxEventRow.session_id);
  ev_effect_id := row.(OutboxEventRow.effect_id);
  ev_causation_id := uuid_hyphenated <$> row.(OutboxEventRow.causation_id);
  ev_correlation_id := row.(OutboxEventRow.correlation_id);
  ev_sensitivity := row.(OutboxEventRow.sensitivity);
  ev_retention := row.(OutboxEventRow.retention);
  ev_payload := row.(OutboxEventRow.payload) |}.

Abbreviation Groups := (list (StreamKey * list EventEnvelope)) (only parsing).

(** One turn of the grouping loop; [groups] holds the last group first. *)
Definition push_row (groups : Groups) (key : StreamKey) (e : EventEnvelope) : Groups :=
  match groups with
  | (existing, batch) :: rest =>
      if decide (existing = key) then (existing, (batch ++ [e])%list) :: rest else (key, [e]) :: groups
  | [] => [(key, [e])]
  end.

Fixpoint group_loop (rows : list OutboxEventRow) (groups : Groups) : Res Groups :=
  match rows with
  | [] => Ok groups
  | row :: rows =>
      let? key := match stream_key_from_str row.(OutboxEventRow.stream_key) with
        | Ok k => Ok k
        | Err _ => Err (kerr Internal "outbox row stream key is not canonical")
        end in
      group_loop rows (push_row groups key (envelope_from_row row key))
  end.

Definition group_rows (rows : list OutboxEventRow) : Res Groups :=
  res_map (fun groups => reverse groups) (group_loop rows []).
End Rows.

Section Dispatch.
Context `{!Ext} `{!EnvelopeCodec} `{!Faults}.

(** The position-by-position comparison of [recorded_prefix]. *)
Fixpoint recorded_prefix (recorded batch : list EventEnvelope) : Res nat :=
  match recorded, batch with
  | existing :: recorded, pending :: batch =>
      if bool_decide (existing.(ev_sequence) <> pending.(ev_sequence)) then Ok 0%nat
      else if bool_decide (existing.(ev_event_id) <> pending.(ev_event_id)) ||
              bool_decide (to_bytes existing <> to_bytes pending)
      then Err (kerr Conflict "recorded journal prefix diverges from the outbox batch")
      else res_map S (recorded_prefix recorded batch)
  | _, _ => Ok 0%nat
  end.

Definition consult_fault : ST DispatchState bool := fun s =>
  (Ok (inject s.(ds_faults)), mkDispatch s.(ds_world) s.(ds_journal) s.(ds_live) (S s.(ds_faults))).

(** [write_context]: a fresh command id and a correlation text with the clock. *)
Definition write_context (system : PrincipalId) (daemon_epoch : Z) : ST World TxContext := fun w =>
  (Ok (mkTxContext daemon_epoch system (new_uuid_v7 w.(w_ids))
         (Some ("outbox.dispatch." +:+ i64_to_string (clock_ms w.(w_clock))))),
   mkWorld w.(w_db) (S w.(w_ids)) (S w.(w_clock))).

(** [scan]: the transaction is rolled back in every case. *)
Definition scan (system : PrincipalId) (limit : nat) (daemon_epoch : Z) : ST World (list OutboxEventRow) :=
  let! ctx := write_context system daemon_epoch in
  fun w => match begin_write ctx w with
  | Err e => (Err e, w)
  | Ok t => let (r, t') := streams_scan_unpublished limit t in (r, rollback_txn w t')
  end.

(** The body of the loop over the groups: the stream's batch is appended past
    its recorded prefix. *)
Definition journal_group (stream_key : StreamKey) (batch : list EventEnvelope) : ST DispatchState unit :=
  match batch with
  | [] => raise (kerr Internal "a group has a first event")
  | first :: _ =>
      let expected_sequence := Z.max 0 (first.(ev_sequence) - 1) in
      let! recorded := on_journal (read_stream stream_key expected_sequence (batch_limit (length batch))) in
      let! matched := lift_res (recorded_prefix recorded.(rr_events) batch) in
      if (matched <? length batch)%nat then
        let append_from := match matched with
          | O => expected_sequence
          | S m => from_option ev_sequence 0 (batch !! m)
          end in
        do! on_journal (append stream_key append_from (drop matched batch)) in
        let! fired := consult_fault in
        if fired then raise fault_fired else ret tt
      else ret tt
  end.

Definition mark_rows (rows : list OutboxEventRow) : M unit :=
  for_each rows (fun row => streams_mark_published row.(OutboxEventRow.event_id) PublishJournal).

(** [if !rows.is_empty()]: the fenced transaction that marks the scanned rows. *)
Definition mark_phase (system : PrincipalId) (daemon_epoch : Z) (rows : list OutboxEventRow) : ST DispatchState unit :=
  match rows with
  | [] => ret tt
  | _ => on_world (let! ctx := write_context system daemon_epoch in with_write_txn ctx (mark_rows rows))
  end.

Definition dispatch_once (system : PrincipalId) (limit : nat) (daemon_epoch : Z)
    : ST DispatchState DispatchOutcome :=
  let! rows := on_world (scan system limit daemon_epoch) in
  let! groups := lift_res (group_rows rows) in
  do! for_each groups (fun g => journal_group g.1 g.2) in
  let envelopes := concat groups.*2 in
  do! mark_phase system daemon_epoch rows in
  do! for_each envelopes live_publish in
  ret (mkOutcome (Z.of_nat (length rows)) (Z.of_nat (length envelopes))
         (Z.of_nat (length rows - length envelopes))).
End Dispatch.

(** ** The scan order *)

#[export] Instance position_le_trans : Transitive position_le.
Proof.
  intros [? x] [? y] [? z]. unfold position_le. simpl. fold (String.le (OutboxEventRow.stream_key x) (OutboxEventRow.stream_key y)).
  fold (String.le (OutboxEventRow.stream_key y) (OutboxEventRow.stream_key z)).
  fold (String.le (OutboxEventRow.stream_key x) (OutboxEventRow.stream_key z)).
  intros [[N1 L1]|[E1 L1]] [[N2 L2]|[E2 L2]].
  - left. split; [|by etransitivity]. intros Exz. rewrite <- Exz in L2. apply N1. by apply (anti_symm String.le).
  - left. by rewrite <- E2.
  - left. by rewrite E1.
  - right. split; [congruence|lia].
Qed.

#[export] Instance position_le_total : Total position_le.
Proof.
  intros [? x] [? y]. unfold position_le. simpl.
  destruct (decide (OutboxEventRow.stream_key x = OutboxEventRow.stream_key y)) as [->|Hne].
  - destruct (Z.le_ge_cases (OutboxEventRow.sequence x) (OutboxEventRow.sequence y)); auto.
  - destruct (total String.le (OutboxEventRow.stream_key x) (OutboxEventRow.stream_key y)); auto.
Qed.

(** The whole unpublished backlog, in scan order. *)
Definition backlog (d : Db) : list OutboxEventRow := select_by position_le unpublished d.(outbox_events).

Definition row_le (x y : OutboxEventRow) : Prop := position_le (0%N, x) (0%N, y).

Lemma backlog_sorted d : StronglySorted row_le (backlog d).
Proof.
  unfold backlog, select_by. eapply (StronglySorted_fmap _ position_le).
  - intros [? x] [? y]. done.
  - apply StronglySorted_merge_sort; apply _.
Qed.

Lemma elem_of_backlog d r : r ∈ backlog d <-> exists id, d.(outbox_events) !! id = Some r /\ unpublished r = true.
Proof. apply elem_of_select_by. Qed.

(** ** Programs that fail part way

    [always R m]: however [m] ends, the state it leaves is related to the one
    it started from. *)

Definition always {S A} (R : S -> S -> Prop) (m : ST S A) : Prop := forall s r s', m s = (r, s') -> R s s'.

Section Always.
Context {S : Type} (R : S -> S -> Prop) `{!PreOrder R}.

Lemma always_same {A} (m : ST S A) : (forall s, snd (m s) = s) -> always R m.
Proof. intros Hm s r s' E. specialize (Hm s). rewrite E in Hm. simpl in Hm. by subst. Qed.

Lemma always_bind {A B} (m : ST S A) (f : A -> ST S B) :
  always R m -> (forall s a s', m s = (Ok a, s') -> forall r s'', f a s' = (r, s'') -> R s' s'') -> always R (bind m f).
Proof.
  intros Hm Hf s r s' E. unfold bind in E. destruct (m s) as [[a|e] s1] eqn:E1.
  - transitivity s1; [by eapply Hm|]. by eapply Hf.
  - injection E as <- <-. by eapply Hm.
Qed.

Lemma always_for_each {A} (l : list A) (body : A -> ST S unit) :
  (forall a, a ∈ l -> always R (body a)) -> always R (for_each l body).
Proof.
  induction l as [|a l IH]; intros Hb; cbn [for_each]; [by apply always_same|].
  apply always_bind; [apply Hb; left|]. intros s _ s' _ r s'' E. eapply IH; [|exact E].
  intros b Hin. apply Hb. by right.
Qed.
End Always.

(** ** The journal mirrors the outbox *)

Lemma stream_key_from_str_text text k : stream_key_from_str text = Ok k -> sk_text k = text.
Proof.
  unfold stream_key_from_str, try_assemble. cbn [join_slash]. intros E.
  destruct (classify text); [|done]. simpl in E.
  destruct (event_stream_key_new text) as [key|] eqn:Hk; [|done]. simpl in E. injection E as <-.
  apply (event_stream_key_new_id _ _ Hk).
Qed.

Section Mirror.
Context `{!Ext} `{!EnvelopeCodec}.

(** What the dispatcher builds from a stored event. *)
Definition envelope_of (d : Db) (k : StreamKey) (e : EventEnvelope) : Prop :=
  exists id r, at_position d (sk_text k) e.(ev_sequence) id r /\
    stream_key_from_str (sk_text k) = Ok k /\ e = envelope_from_row r k.

Record mirror (d : Db) (j : Journal) : Prop := {
  mi_wf : journal_wf j;
  mi_rows : forall key n row, j !! (key, n) = Some row ->
    exists k e, sk_text k = key /\ ev_sequence e = n /\ envelope_of d k e /\ row = journal_row e;
  mi_marked : forall key n id r, at_position d key n id r -> unpublished r = false -> is_Some (j !! (key, n));
  mi_prefix : forall key n id r m id' r', at_position d key n id r -> unpublished r = false ->
    at_position d key m id' r' -> m <= n -> unpublished r' = false }.

(** The rows of a batch are stored events of one stream. *)
Definition batch_of (d : Db) (k : StreamKey) (batch : list EventEnvelope) : Prop :=
  forall e, e ∈ batch -> envelope_of d k e /\ 1 <= e.(ev_sequence) <= i64_max.

Lemma record_batch_mirror d j k batch :
  mirror d j -> batch_of d k batch -> contiguous k (stream_max (sk_text k) j + 1) batch ->
  mirror d (record_batch batch j) /\ j ⊆ record_batch batch j.
Proof.
  intros [Hwf Hrows Hmarked Hprefix] Hb Hc. destruct (stream_max_spec (sk_text k) j Hwf) as [Hge Hmax].
  assert (Hsub : j ⊆ record_batch batch j).
  { apply map_subseteq_spec. intros [key n] row Hr. rewrite (lookup_record_batch k _ _ _ _ _ Hc).
    case_decide as D; [|done]. destruct D as [-> D].
    assert (is_Some (j !! (sk_text k, n))) as ?%Hmax by eauto. lia. }
  split; [|done]. split.
  - by eapply record_batch_wf.
  - intros key n row. rewrite (lookup_record_batch k _ _ _ _ _ Hc). case_decide as D; [|apply Hrows].
    destruct D as [-> D]. rewrite fmap_Some. intros (e & Hl & ->). exists k, e.
    destruct (Hc _ _ Hl) as [_ Hs]. split; [done|]. split; [lia|]. split; [|done].
    apply Hb. by eapply list_elem_of_lookup_2.
  - intros key n id r Hp Hu. destruct (Hmarked _ _ _ _ Hp Hu) as [row Hr]. exists row.
    by eapply lookup_weaken.
  - done.
Qed.

Lemma append_mirror d k from batch j r j' :
  0 <= from <= u64_max -> mirror d j -> batch_of d k batch -> append k from batch j = (r, j') ->
  mirror d j' /\ j ⊆ j' /\
  (forall a, r = Ok a -> forall e, e ∈ batch -> is_Some (j' !! (sk_text k, e.(ev_sequence)))).
Proof.
  intros Hf Hm Hb E. apply append_cases in E as [[-> Hrec]|(<- & Hc & Hne & Hs & -> & ->)]; [| |done].
  - split; [done|]. split; [done|]. intros a -> e He. destruct (Hrec a eq_refl e He) as (row & Hr & _). eauto.
  - destruct (record_batch_mirror d j k batch Hm Hb Hc) as [Hm' Hsub]. split; [done|]. split; [done|].
    intros _ _ e He. destruct (contiguous_lookup _ _ _ _ Hc He) as (_ & Hr & Hl).
    rewrite (lookup_record_batch _ _ _ _ _ _ Hc), decide_True, Hl by (split; [done|lia]). eauto.
Qed.

(** What a page of a mirror holds. *)
Lemma page_recorded k from limit j page :
  from <= i64_max -> read_stream k from limit j = (Ok page, j) ->
  forall i e, page.(rr_events) !! i = Some e -> is_Some (j !! (sk_text k, e.(ev_sequence))).
Proof.
  intros Hf. rewrite read_stream_run by done.
  destruct (res_collect decode_row _) as [events|] eqn:Hc; simpl; [|done]. intros [= <-] i e Hi. simpl in Hi.
  apply res_collect_ok in Hc. destruct (Forall2_lookup_r _ _ _ _ _ Hc Hi) as ([n row] & Hin & Hd).
  apply lookup_take_Some in Hin as [Hin _]. apply list_elem_of_lookup_2, elem_of_stream_rows in Hin as [Hr _].
  unfold decode_row in Hd. inv_ok. destruct (negb _); [done|]. case_bool_decide as D; [done|]. injection Hd as <-.
  apply Decidable.not_or in D as [D _]. destruct (decide (ev_sequence x = n)) as [->|]; [|done]. eauto.
Qed.
End Mirror.

(** ** One group *)

Section Group.
Context `{!Ext} `{!EnvelopeCodec} `{!Faults}.

(** The effect of the journal phase: the journal only grows, and stays a mirror
    of the database it was read from. *)
Definition journal_step (d : Db) (s s' : DispatchState) : Prop :=
  s'.(ds_world) = s.(ds_world) /\ s'.(ds_live) = s.(ds_live) /\
  (mirror d s.(ds_journal) -> mirror d s'.(ds_journal) /\ s.(ds_journal) ⊆ s'.(ds_journal)).

#[export] Instance journal_step_preorder d : PreOrder (journal_step d).
Proof.
  split.
  - intros s. done.
  - intros s1 s2 s3 (W1 & L1 & M1) (W2 & L2 & M2). split; [congruence|]. split; [congruence|].
    intros Hm. destruct (M1 Hm) as [Hm2 S1]. destruct (M2 Hm2) as [Hm3 S2]. split; [done|]. by etransitivity.
Qed.

Lemma recorded_prefix_ok recorded batch m :
  recorded_prefix recorded batch = Ok m ->
  (m <= length batch)%nat /\
  forall i e, batch !! i = Some e -> (i < m)%nat ->
    exists e', recorded !! i = Some e' /\ e'.(ev_sequence) = e.(ev_sequence).
Proof.
  revert batch m. induction recorded as [|x recorded IH]; intros [|y batch] m; cbn [recorded_prefix];
    try (intros [= <-]; split; simpl; [lia|lia]).
  case_bool_decide as Hs; [intros [= <-]; split; simpl; lia|]. destruct (_ || _); [done|].
  destruct (recorded_prefix recorded batch) as [n|] eqn:E; [|done]. simpl. intros [= <-].
  destruct (IH batch n E) as [Hl Hi]. split; [simpl; lia|]. intros [|i] e; simpl.
  - intros [= <-] _. eauto.
  - intros He Hlt. apply Hi; [done|lia].
Qed.

(** The first position of a batch and the one its unrecorded suffix starts after. *)
Lemma append_from_bounds d k first batch m :
  batch_of d k (first :: batch) ->
  0 <= match m with O => Z.max 0 (first.(ev_sequence) - 1)
       | S n => from_option ev_sequence 0 ((first :: batch) !! n) end <= i64_max.
Proof.
  intros Hb. assert (Hi : 0 <= i64_max) by (unfold i64_max; lia). destruct m as [|n].
  - destruct (Hb first) as [_ Hr]; [left|]. lia.
  - destruct ((first :: batch) !! n) as [e|] eqn:E; simpl; [|lia].
    destruct (Hb e) as [_ Hr]; [by eapply list_elem_of_lookup_2|]. lia.
Qed.

Lemma i64_u64 z : 0 <= z <= i64_max -> 0 <= z <= u64_max.
Proof. unfold i64_max, u64_max. lia. Qed.

Lemma journal_group_spec d k batch s r s' :
  batch_of d k batch -> mirror d s.(ds_journal) -> journal_group k batch s = (r, s') ->
  journal_step d s s' /\
  (r = Ok tt -> forall e, e ∈ batch -> is_Some (s'.(ds_journal) !! (sk_text k, e.(ev_sequence)))).
Proof.
  intros Hb Hm. unfold journal_group. destruct batch as [|first batch]; [by intros [= <- <-]|].
  set (from := Z.max 0 _). pose proof (append_from_bounds d k first batch 0 Hb) as Hfrom.
  cbn [lookup list_lookup] in Hfrom. fold from in Hfrom.
  unfold bind at 1, on_journal at 1. destruct (read_stream k from _ (ds_journal s)) as [[page|e] j1] eqn:Er.
  2:{ intros [= <- <-]. assert (j1 = ds_journal s) as -> by (rewrite read_stream_run in Er by lia; by injection Er).
      by destruct s. }
  assert (j1 = ds_journal s) as -> by (rewrite read_stream_run in Er by lia; by injection Er).
  assert (Hs : mkDispatch (ds_world s) (ds_journal s) (ds_live s) (ds_faults s) = s) by (by destruct s).
  rewrite Hs. clear Hs. unfold bind at 1, lift_res.
  destruct (recorded_prefix _ _) as [matched|] eqn:Hp; [|by intros [= <- <-]].
  destruct (recorded_prefix_ok _ _ _ Hp) as [Hle Hrec].
  assert (Hdone : forall e, e ∈ take matched (first :: batch) -> is_Some (ds_journal s !! (sk_text k, ev_sequence e))).
  { intros e [i Hi]%list_elem_of_lookup_1. apply lookup_take_Some in Hi as [Hi Hlt].
    destruct (Hrec i e Hi Hlt) as (e' & He' & <-). eapply page_recorded; [|exact Er|exact He']. lia. }
  pose proof (append_from_bounds d k first batch matched Hb) as Hap.
  destruct (Nat.ltb_spec matched (length (first :: batch))) as [Hlt|Hge].
  2:{ intros [= <- <-]. split; [done|]. intros _ e He. apply Hdone. by rewrite take_ge by lia. }
  unfold bind at 1, on_journal.
  destruct (append k _ _ (ds_journal s)) as [ra ja] eqn:Ea.
  apply append_mirror with (d := d) in Ea as (Hma & Hsub & Hin); [|by apply i64_u64|done|].
  2:{ intros e He. apply Hb. rewrite <- (take_drop matched (first :: batch)). apply elem_of_app. by right. }
  assert (Hstep : forall n, journal_step d s (mkDispatch (ds_world s) ja (ds_live s) n)) by (intros n; done).
  destruct ra as [a|e]; [|intros [= <- <-]; by split].
  unfold bind, consult_fault. simpl. destruct (inject (ds_faults s)); intros [= <- <-]; (split; [apply Hstep|]); [done|].
  intros _ e He. rewrite <- (take_drop matched (first :: batch)) in He. apply elem_of_app in He as [He|He]; simpl.
  - destruct (Hdone e He) as [row Hr]. exists row. by eapply lookup_weaken.
  - by eapply Hin.
Qed.

(** The journal phase over all groups. *)
Lemma journal_groups_spec d (groups : list (StreamKey * list EventEnvelope)) s r s' :
  (forall k batch, (k, batch) ∈ groups -> batch_of d k batch) -> mirror d s.(ds_journal) ->
  for_each groups (fun g => journal_group g.1 g.2) s = (r, s') ->
  journal_step d s s' /\
  (r = Ok tt -> forall k batch e, (k, batch) ∈ groups -> e ∈ batch ->
     is_Some (s'.(ds_journal) !! (sk_text k, e.(ev_sequence)))).
Proof.
  revert s. induction groups as [|[k batch] groups IH]; intros s Hb Hm; cbn [for_each].
  { intros [= <- <-]. split; [done|]. intros _ k batch e Hin. by apply elem_of_nil in Hin. }
  unfold bind. destruct (journal_group _ _ s) as [r1 s1] eqn:E1.
  apply journal_group_spec with (d := d) in E1 as [Hstep Hdone]; [|apply Hb; left|done].
  destruct r1 as [[]|e]; [|by intros [= <- <-]]. intros E2.
  destruct Hstep as (W & L & M). destruct (M Hm) as [Hm1 Hsub].
  apply IH in E2 as [Hstep2 Hdone2]; [|intros k' b' Hin; apply Hb; by right|done].
  split; [by transitivity s1|]. intros -> k' b' e [Heq|Hin]%elem_of_cons He; [|by eapply Hdone2].
  injection Heq as -> ->. destruct (Hdone eq_refl e He) as [row Hr]. exists row.
  eapply lookup_weaken; [exact Hr|]. by apply Hstep2.
Qed.
End Group.

(** ** Scanning and grouping *)

Lemma elem_of_concat {A} (x : A) (ls : list (list A)) : x ∈ concat ls <-> exists l, x ∈ l /\ l ∈ ls.
Proof.
  induction ls as [|l ls IH]; cbn [concat].
  - split; [by intros ?%elem_of_nil|]. by intros (l & _ & ?%elem_of_nil).
  - rewrite elem_of_app, IH. split.
    + intros [Hx|(l' & Hx & Hl)]; [exists l|exists l']; (split; [done|]); [left|by right].
    + intros (l' & Hx & [->|Hl]%elem_of_cons); eauto.
Qed.

Section Grouping.
Context `{!Ext}.

(** An event as the loop builds it from its row. *)
Definition row_event (row : OutboxEventRow) (e : EventEnvelope) : Prop :=
  exists k, stream_key_from_str row.(OutboxEventRow.stream_key) = Ok k /\ e = envelope_from_row row k.

Definition uniform (groups : list (StreamKey * list EventEnvelope)) : Prop :=
  forall k batch, (k, batch) ∈ groups -> batch <> [] /\ forall e, e ∈ batch -> e.(ev_stream_key) = k.

Lemma push_row_concat groups key e :
  concat (reverse (push_row groups key e)).*2 = (concat (reverse groups).*2 ++ [e])%list.
Proof.
  unfold push_row. destruct groups as [|[k b] rest]; [done|]. case_decide.
  - rewrite !reverse_cons, !fmap_app, !concat_app. simpl. by rewrite !app_nil_r, app_assoc.
  - rewrite reverse_cons, fmap_app, concat_app. done.
Qed.

Lemma push_row_uniform groups key e :
  uniform groups -> ev_stream_key e = key -> uniform (push_row groups key e).
Proof.
  intros Hu He. assert (Hone : forall k b, (k, b) ∈ [(key, [e])] -> b <> [] /\ forall e', e' ∈ b -> ev_stream_key e' = k).
  { intros k b [= -> ->]%list_elem_of_singleton. split; [done|]. intros e' He'. apply list_elem_of_singleton in He'. congruence. }
  unfold push_row. destruct groups as [|[k b] rest]; [exact Hone|]. case_decide as D.
  - subst k. intros k' b' [[= -> ->]|Hin]%elem_of_cons; [|apply Hu; by right].
    destruct (Hu key b) as [_ Hb]; [left|]. split; [by destruct b|].
    intros e' [He'| ->%list_elem_of_singleton]%elem_of_app; auto.
  - intros k' b' [Heq|Hin]%elem_of_cons; [apply Hone; rewrite Heq; left|by apply Hu].
Qed.

Lemma group_loop_spec rows groups out :
  group_loop rows groups = Ok out -> uniform groups ->
  uniform out /\ exists envs, concat (reverse out).*2 = (concat (reverse groups).*2 ++ envs)%list /\
    Forall2 row_event rows envs.
Proof.
  revert groups. induction rows as [|row rows IH]; intros groups E Hu; cbn [group_loop] in E.
  - injection E as <-. split; [done|]. exists []. split; [by rewrite app_nil_r|constructor].
  - apply res_bind_ok_inv in E as (key & Hk & E).
    destruct (stream_key_from_str _) as [key'|] eqn:Hk'; [|done]. injection Hk as <-.
    apply IH in E as (Hu' & envs & Hc & Hf); [|by apply push_row_uniform].
    split; [done|]. exists (envelope_from_row row key' :: envs). rewrite Hc, push_row_concat, <- app_assoc.
    split; [done|]. constructor; [|done]. by exists key'.
Qed.

Lemma group_rows_spec rows groups :
  group_rows rows = Ok groups -> uniform groups /\ Forall2 row_event rows (concat groups.*2).
Proof.
  unfold group_rows. destruct (group_loop rows []) as [out|] eqn:E; [|done]. simpl. intros [= <-].
  apply group_loop_spec in E as (Hu & envs & Hc & Hf); [|by intros k b ?%elem_of_nil].
  simpl in Hc. rewrite Hc. split; [|done]. intros k b Hin. apply Hu. by rewrite elem_of_reverse in Hin.
Qed.

Lemma group_loop_total rows groups :
  (forall row, row ∈ rows -> is_ok (stream_key_from_str row.(OutboxEventRow.stream_key)) = true) ->
  exists out, group_loop rows groups = Ok out.
Proof.
  revert groups. induction rows as [|row rows IH]; intros groups Hr; cbn [group_loop]; [eauto|].
  pose proof (Hr row (list_elem_of_here _ _)) as Hk. destruct (stream_key_from_str _) as [k|]; [|done]. simpl.
  apply IH. intros r Hin. apply Hr. by right.
Qed.

Lemma decode_event_ok r r' :
  decode_event r = Ok r' -> r' = r /\ 0 <= r.(OutboxEventRow.sequence) <= i64_max.
Proof.
  unfold decode_event. intros E. inv_ok.
  match goal with H : u64_column _ _ _ = _ |- _ => apply u64_column_ok in H as [_ ?] end. done.
Qed.

(** A scan changes nothing durable and returns the oldest part of the backlog. *)
Lemma scan_spec system limit epoch w r w' :
  scan system limit epoch w = (r, w') ->
  w'.(w_db) = w.(w_db) /\
  forall rows, r = Ok rows -> rows = take limit (backlog w.(w_db)) /\
    forall row, row ∈ rows -> 0 <= row.(OutboxEventRow.sequence) <= i64_max.
Proof.
  unfold scan, bind, write_context. set (w1 := mkWorld _ _ _). set (ctx := mkTxContext _ _ _ _).
  destruct (begin_write ctx w1) as [t|e] eqn:B; [|by intros [= <- <-]].
  unfold begin_write in B. apply res_bind_ok_inv in B as ([] & _ & [= <-]).
  destruct (streams_scan_unpublished limit _) as [r1 t1] eqn:E. intros [= <- <-]. split; [done|].
  intros rows ->. unfold streams_scan_unpublished in E. inv_run. simpl in *.
  match goal with H : res_collect decode_event _ = Ok _ |- _ => apply res_collect_same in H as [-> Hd] end.
  - split; [done|]. intros row Hin. specialize (Hd _ Hin). by apply decode_event_ok in Hd as [_ ?].
  - intros a b Hab. by apply decode_event_ok in Hab as [-> _].
Qed.
End Grouping.

(** ** Publication marks *)

Section Marks.
Context `{!Ext} `{!EnvelopeCodec}.

(** A row after the marking of [ids]. *)
Definition marked (ids : list EventId) (id : EventId) (r r' : OutboxEventRow) : Prop :=
  (id ∉ ids /\ r' = r) \/ (id ∈ ids /\ exists ms, r' = set_published PublishJournal ms r).

Record marks (ids : list EventId) (d d' : Db) : Prop := {
  mk_frame : exists x, d' = set_outbox_events x d;
  mk_rows : forall id r', d'.(outbox_events) !! id = Some r' <->
    exists r, d.(outbox_events) !! id = Some r /\ marked ids id r r' /\ d'.(outbox_events) !! id = Some r';
  mk_kept : forall id r, d.(outbox_events) !! id = Some r -> exists r', d'.(outbox_events) !! id = Some r' /\ marked ids id r r' }.

Lemma mark_one id t u t' :
  streams_mark_published id PublishJournal t = (Ok u, t') ->
  exists r ms, t.(t_db).(outbox_events) !! id = Some r /\ t'.(t_ctx) = t.(t_ctx) /\
    t'.(t_db) = set_outbox_events (<[id := set_published PublishJournal ms r]> t.(t_db).(outbox_events)) t.(t_db).
Proof.
  unfold streams_mark_published. intros E. inv_run. simpl in *. eexists _, _. split_and!; [eassumption|done|done].
Qed.

Lemma marked_rows rows t u t' :
  mark_rows rows t = (Ok u, t') -> marks (OutboxEventRow.event_id <$> rows) t.(t_db) t'.(t_db).
Proof.
  unfold mark_rows. revert t. induction rows as [|row rows IH]; intros t E; cbn [for_each] in E.
  - injection E as _ <-. split.
    + exists (outbox_events (t_db t)). by destruct (t_db t).
    + intros id r'. split; [|by intros (r & _ & _ & ?)]. intros Hr. exists r'. split; [done|]. split; [|done].
      left. split; [apply not_elem_of_nil|done].
    + intros id r Hr. exists r. split; [done|]. left. split; [apply not_elem_of_nil|done].
  - apply bind_ok_inv in E as ([] & t1 & (r0 & ms & Hr0 & _ & Hd)%mark_one & E2).
    apply IH in E2 as [[x Hx] Hrows Hkept].
    assert (Hk : forall id r, outbox_events (t_db t) !! id = Some r -> exists r',
      outbox_events (t_db t') !! id = Some r' /\ marked (OutboxEventRow.event_id <$> row :: rows) id r r').
    { intros id r Hr. destruct (decide (id = OutboxEventRow.event_id row)) as [->|Hne].
      - assert (r0 = r) as -> by congruence.
        destruct (Hkept (OutboxEventRow.event_id row) (set_published PublishJournal ms r)) as (r' & Hr' & Hm).
        { rewrite Hd. simpl. apply lookup_insert_eq. }
        exists r'. split; [done|]. right. split; [left|]. destruct Hm as [[_ ->]|[_ [ms' ->]]]; eauto.
      - destruct (Hkept id r) as (r' & Hr' & Hm); [rewrite Hd; simpl; by rewrite lookup_insert_ne|].
        exists r'. split; [done|]. destruct Hm as [[Hni ->]|[Hin Hms]].
        + left. split; [|done]. by apply not_elem_of_cons.
        + right. split; [by right|done]. }
    split; [exists x; by rewrite Hx, Hd| |done].
    intros id r'. split; [|by intros (r & _ & _ & ?)]. intros Hr'.
    apply Hrows in Hr' as Hr1. destruct Hr1 as (r1 & Hr1 & _ & _). rewrite Hd in Hr1. simpl in Hr1.
    assert (is_Some (outbox_events (t_db t) !! id)) as [r Hr].
    { apply lookup_insert_Some in Hr1 as [[<- _]|[_ ?]]; eauto. }
    exists r. split; [done|]. destruct (Hk id r Hr) as (r2 & Hr2 & Hm). rewrite Hr2 in Hr'. by injection Hr' as <-.
Qed.

(** Marking changes neither positions nor envelopes. *)
Lemma marked_same ids id r r' :
  marked ids id r r' ->
  OutboxEventRow.stream_key r' = OutboxEventRow.stream_key r /\ OutboxEventRow.sequence r' = OutboxEventRow.sequence r /\
  OutboxEventRow.event_id r' = OutboxEventRow.event_id r /\
  (forall k, envelope_from_row r' k = envelope_from_row r k) /\
  (unpublished r' = false <-> unpublished r = false \/ id ∈ ids).
Proof.
  intros [[Hni ->]|[Hin [ms ->]]]; (split_and!; [done..|]).
  - tauto.
  - unfold unpublished. simpl. split; [by right|done].
Qed.

Lemma marks_at ids d d' key n id r' :
  marks ids d d' -> at_position d' key n id r' <->
  exists r, at_position d key n id r /\ marked ids id r r' /\ d'.(outbox_events) !! id = Some r'.
Proof.
  intros [_ Hrows _]. unfold at_position. rewrite Hrows. split.
  - intros ((r & Hr & Hm & Hr') & <- & <-). destruct (marked_same _ _ _ _ Hm) as (-> & -> & _). eauto 6.
  - intros (r & (Hr & <- & <-) & Hm & Hr'). destruct (marked_same _ _ _ _ Hm) as (-> & -> & _). eauto 6.
Qed.

Lemma marks_at_kept ids d d' key n id r :
  marks ids d d' -> at_position d key n id r -> exists r', at_position d' key n id r' /\ marked ids id r r'.
Proof.
  intros Hm Hp. pose proof Hp as (Hr & _). destruct (mk_kept _ _ _ Hm id r Hr) as (r' & Hr' & Hmr).
  exists r'. split; [|done]. apply (marks_at _ _ _ _ _ _ _ Hm). eauto.
Qed.

Lemma marks_outbox_ok ids d d' : marks ids d d' -> outbox_ok d -> outbox_ok d'.
Proof.
  intros Hm [H1 H2 H3 H4 H5]. pose proof (mk_frame _ _ _ Hm) as [x Hx].
  assert (Hh : forall key, stream_head d' key = stream_head d key) by (intros key; by rewrite Hx).
  split.
  - intros key. by rewrite Hh.
  - intros id r' Hr'. apply (mk_rows _ _ _ Hm) in Hr' as (r & Hr & Hmr & _).
    destruct (marked_same _ _ _ _ Hmr) as (_ & _ & -> & _). by apply H2.
  - intros key n id r' Hp. rewrite Hh. apply (marks_at _ _ _ _ _ _ _ Hm) in Hp as (r & Hp & _). by eapply H3.
  - intros key n. rewrite Hh. intros (id & r & Hp)%H4. destruct (marks_at_kept _ _ _ _ _ _ _ Hm Hp) as (r' & Hp' & _). eauto.
  - intros key n e1 r1 e2 r2 P1 P2.
    apply (marks_at _ _ _ _ _ _ _ Hm) in P1 as (r1' & P1 & _), P2 as (r2' & P2 & _). by eapply H5.
Qed.

(** Marking journaled rows that close their streams downwards keeps the mirror. *)
Lemma marks_mirror ids d d' j :
  marks ids d d' -> mirror d j ->
  (forall key n id r, at_position d key n id r -> id ∈ ids -> is_Some (j !! (key, n))) ->
  (forall key n id r m id' r', at_position d key n id r -> id ∈ ids -> at_position d key m id' r' -> m <= n ->
     unpublished r' = false \/ id' ∈ ids) ->
  mirror d' j.
Proof.
  intros Hm [Hwf Hrows Hmarked Hprefix] Hj Hclosed. split.
  - done.
  - intros key n row Hrow. destruct (Hrows _ _ _ Hrow) as (k & e & Hk & Hn & (id & r & Hp & Hs & ->) & ->).
    exists k, (envelope_from_row r k). split; [done|]. split; [done|]. split; [|done].
    destruct (marks_at_kept _ _ _ _ _ _ _ Hm Hp) as (r' & Hp' & Hmr). exists id, r'. split; [done|]. split; [done|].
    by destruct (marked_same _ _ _ _ Hmr) as (_ & _ & _ & -> & _).
  - intros key n id r' (r & Hp & Hmr & _)%(marks_at _ _ _ _ _ _ _ Hm) Hu.
    apply marked_same in Hmr as (_ & _ & _ & _ & Hu'). apply Hu' in Hu as [Hu|Hin]; eauto.
  - intros key n id r' m id2 r2' (r & Hp & Hmr & _)%(marks_at _ _ _ _ _ _ _ Hm) Hu
      (r2 & Hp2 & Hmr2 & _)%(marks_at _ _ _ _ _ _ _ Hm) Hmn.
    apply marked_same in Hmr as (_ & _ & _ & _ & Hu1). apply marked_same in Hmr2 as (_ & _ & _ & _ & ->).
    apply Hu1 in Hu as [Hu|Hin]; [left; exact (Hprefix _ _ _ _ _ _ _ Hp Hu Hp2 Hmn)|exact (Hclosed _ _ _ _ _ _ _ Hp Hin Hp2 Hmn)].
Qed.
End Marks.

(** ** One iteration *)

Section Iteration.
Context `{!Ext} `{!EnvelopeCodec} `{!Faults}.

Lemma mirror_row_exact d j k e :
  outbox_ok d -> mirror d j -> envelope_of d k e -> is_Some (j !! (sk_text k, e.(ev_sequence))) ->
  j !! (sk_text k, e.(ev_sequence)) = Some (journal_row e).
Proof.
  intros Hok Hm (id & r & Hp & Hk & ->) [row Hrow]. rewrite Hrow. f_equal.
  destruct (mi_rows _ _ Hm _ _ _ Hrow) as (k' & e' & Hk' & Hn & (id' & r' & Hp' & Hks & ->) & ->).
  rewrite Hk' in *. rewrite Hk in Hks. injection Hks as ->. rewrite Hn in Hp'.
  assert (id' = id) as -> by (by eapply ob_unique). destruct Hp as (Hr & _), Hp' as (Hr' & _).
  rewrite Hr in Hr'. by injection Hr' as ->.
Qed.

Lemma backlog_row d r :
  outbox_ok d -> r ∈ backlog d ->
  d.(outbox_events) !! r.(OutboxEventRow.event_id) = Some r /\ unpublished r = true /\
  1 <= r.(OutboxEventRow.sequence).
Proof.
  intros Hok (id & Hr & Hu)%elem_of_backlog. pose proof (ob_id _ Hok _ _ Hr) as Hid. rewrite Hid.
  split; [done|]. split; [done|]. apply (ob_bound _ Hok (OutboxEventRow.stream_key r) _ id r). done.
Qed.

(** Where an event of the grouped rows comes from. *)
Lemma grouped_envelope d rows groups k batch e :
  outbox_ok d -> (forall r, r ∈ rows -> r ∈ backlog d) -> group_rows rows = Ok groups ->
  (k, batch) ∈ groups -> e ∈ batch ->
  exists r, r ∈ rows /\ stream_key_from_str (OutboxEventRow.stream_key r) = Ok k /\ sk_text k = OutboxEventRow.stream_key r /\
    e = envelope_from_row r k /\ envelope_of d k e /\ 1 <= e.(ev_sequence).
Proof.
  intros Hok Hrows Hg Hin He. apply group_rows_spec in Hg as [Hu Hf].
  destruct (Hu k batch Hin) as [_ Hkey]. specialize (Hkey e He).
  assert (Hc : e ∈ concat groups.*2).
  { apply elem_of_concat. exists batch. split; [done|]. apply list_elem_of_fmap. by exists (k, batch). }
  apply list_elem_of_lookup_1 in Hc as [i Hi]. destruct (Forall2_lookup_r _ _ _ _ _ Hf Hi) as (r & Hr & k' & Hk' & ->).
  simpl in Hkey. subst k'. pose proof (stream_key_from_str_text _ _ Hk') as Htext.
  apply list_elem_of_lookup_2 in Hr. destruct (backlog_row d r Hok (Hrows r Hr)) as (Hid & _ & Hs).
  exists r. split_and!; try done. exists (OutboxEventRow.event_id r), r. split; [|by rewrite Htext].
  split; [done|]. by rewrite Htext.
Qed.

(** Every scanned row is in some group. *)
Lemma row_in_group rows groups r :
  group_rows rows = Ok groups -> r ∈ rows ->
  exists k batch, (k, batch) ∈ groups /\ envelope_from_row r k ∈ batch /\ sk_text k = OutboxEventRow.stream_key r.
Proof.
  intros Hg Hin. apply group_rows_spec in Hg as [Hu Hf]. apply list_elem_of_lookup_1 in Hin as [i Hi].
  destruct (Forall2_lookup_l _ _ _ _ _ Hf Hi) as (e & He & k & Hk & ->).
  apply list_elem_of_lookup_2, elem_of_concat in He as (batch & He & Hb).
  apply list_elem_of_fmap in Hb as ([k' b] & -> & Hb). simpl in He.
  destruct (Hu k' b Hb) as [_ Hkey]. specialize (Hkey _ He). simpl in Hkey. subst k'.
  exists k, b. split; [done|]. split; [done|]. by apply stream_key_from_str_text.
Qed.

(** The scanned rows close their streams downwards among the unpublished ones. *)
Lemma scanned_prefix d limit r r' :
  outbox_ok d -> r ∈ take limit (backlog d) -> r' ∈ backlog d ->
  OutboxEventRow.stream_key r' = OutboxEventRow.stream_key r ->
  OutboxEventRow.sequence r' <= OutboxEventRow.sequence r -> r' ∈ take limit (backlog d).
Proof.
  intros Hok Hr Hr' Hk Hs. pose proof (backlog_sorted d) as Hsort.
  rewrite <- (take_drop limit (backlog d)) in Hr', Hsort. apply elem_of_app in Hr' as [|Hr']; [done|].
  pose proof (StronglySorted_app_1_elem_of _ _ _ _ _ Hsort Hr Hr') as [[Hne _]|[_ Hle]]; simpl in *; [congruence|].
  assert (Hin : r ∈ backlog d) by (rewrite <- (take_drop limit); apply elem_of_app; by left).
  assert (Hin' : r' ∈ backlog d) by (rewrite <- (take_drop limit); apply elem_of_app; by right).
  destruct (backlog_row d r Hok Hin) as (P & _), (backlog_row d r' Hok Hin') as (P' & _).
  assert (OutboxEventRow.event_id r = OutboxEventRow.event_id r') as Hid.
  { eapply (ob_unique _ Hok (OutboxEventRow.stream_key r) (OutboxEventRow.sequence r)); [done|].
    split; [exact P'|]. split; [done|lia]. }
  rewrite Hid in P. rewrite P in P'. by injection P' as ->.
Qed.

Lemma marking_keeps_mirror d d' j limit groups :
  outbox_ok d -> mirror d j -> group_rows (take limit (backlog d)) = Ok groups ->
  (forall k batch e, (k, batch) ∈ groups -> e ∈ batch -> is_Some (j !! (sk_text k, e.(ev_sequence)))) ->
  marks (OutboxEventRow.event_id <$> take limit (backlog d)) d d' -> mirror d' j.
Proof.
  intros Hok Hm Hg Hj Hmarks.
  assert (Hback : forall r, r ∈ take limit (backlog d) -> r ∈ backlog d).
  { intros r Hr. rewrite <- (take_drop limit). apply elem_of_app. by left. }
  assert (Hid : forall id r, d.(outbox_events) !! id = Some r ->
     id ∈ OutboxEventRow.event_id <$> take limit (backlog d) -> r ∈ take limit (backlog d)).
  { intros id r Hr (r' & -> & Hin)%list_elem_of_fmap. destruct (backlog_row d r' Hok (Hback _ Hin)) as (Hr' & _).
    rewrite Hr in Hr'. by injection Hr' as ->. }
  eapply marks_mirror; [done|done|..].
  - intros key n id r (Hr & <- & <-) Hin. destruct (row_in_group _ _ r Hg (Hid _ _ Hr Hin)) as (k & b & Hb & He & <-).
    apply (Hj k b (envelope_from_row r k) Hb He).
  - intros key n id r m id' r' (Hr & <- & <-) Hin (Hr' & Hk & <-) Hmn.
    destruct (unpublished r') eqn:Hu; [right|by left].
    assert (Hin' : r' ∈ take limit (backlog d)).
    { apply (scanned_prefix d limit r r'); [done|by eapply Hid| |done|done]. apply elem_of_backlog. eauto. }
    apply list_elem_of_fmap. exists r'. split; [|done]. by rewrite (ob_id _ Hok _ _ Hr').
Qed.

Lemma live_publish_all events s :
  for_each events live_publish s =
    (Ok tt, mkDispatch s.(ds_world) s.(ds_journal) (s.(ds_live) ++ events)%list s.(ds_faults)).
Proof.
  revert s. induction events as [|e events IH]; intros s; cbn [for_each].
  - unfold ret. rewrite app_nil_r. by destruct s.
  - unfold bind, live_publish, modify. rewrite IH. simpl. by rewrite <- app_assoc.
Qed.

(** The marking transaction, whichever way it ends. *)
Lemma marking_spec system epoch rows w r w' :
  (let! ctx := write_context system epoch in with_write_txn ctx (mark_rows rows)) w = (r, w') ->
  (exists e, r = Err e /\ w'.(w_db) = w.(w_db)) \/
  (r = Ok tt /\ marks (OutboxEventRow.event_id <$> rows) w.(w_db) w'.(w_db)).
Proof.
  unfold bind, write_context, with_write_txn. set (w1 := mkWorld _ _ _). set (ctx := mkTxContext _ _ _ _).
  destruct (begin_write ctx w1) as [t|e] eqn:B; [|intros [= <- <-]; left; eauto].
  unfold begin_write in B. apply res_bind_ok_inv in B as ([] & _ & [= <-]).
  destruct (mark_rows rows _) as [[[]|e] t'] eqn:E; intros [= <- <-]; [right|left; eauto].
  split; [done|]. by apply marked_rows in E.
Qed.
End Iteration.

(** ** Behaviour of an iteration *)

Section Behaviour.
Context `{!Ext} `{!EnvelopeCodec} `{!Faults}.

(** The two stores agree: the outbox is well formed and the journal mirrors it. *)
Definition pipeline_ok (s : DispatchState) : Prop :=
  outbox_ok s.(ds_world).(w_db) /\ mirror s.(ds_world).(w_db) s.(ds_journal).

(** What one iteration may do, however it ends. *)
Record dispatch_rel (s s' : DispatchState) : Prop := {
  dr_ok : pipeline_ok s';
  dr_journal : s.(ds_journal) ⊆ s'.(ds_journal);
  dr_marks : exists ids, marks ids s.(ds_world).(w_db) s'.(ds_world).(w_db);
  dr_live : exists events, s'.(ds_live) = (s.(ds_live) ++ events)%list /\
    forall e, e ∈ events -> s'.(ds_journal) !! position e = Some (journal_row e) }.

Lemma marks_nil d d' : outbox_ok d -> d' = d -> marks [] d d'.
Proof.
  intros Hok ->. split.
  - exists (outbox_events d). by destruct d.
  - intros id r. split; [|by intros (? & _ & _ & ?)]. intros Hr. exists r. split; [done|]. split; [|done].
    left. split; [apply not_elem_of_nil|done].
  - intros id r Hr. exists r. split; [done|]. left. split; [apply not_elem_of_nil|done].
Qed.

(** An iteration that stops before marking. *)
Lemma dispatch_rel_stopped s s' :
  pipeline_ok s -> s'.(ds_world).(w_db) = s.(ds_world).(w_db) -> s'.(ds_live) = s.(ds_live) ->
  mirror s.(ds_world).(w_db) s'.(ds_journal) -> s.(ds_journal) ⊆ s'.(ds_journal) -> dispatch_rel s s'.
Proof.
  intros [Hok Hm] Hd Hl Hm' Hsub. split.
  - unfold pipeline_ok. by rewrite Hd.
  - done.
  - exists []. by apply marks_nil.
  - exists []. rewrite app_nil_r. split; [done|]. by intros e ?%elem_of_nil.
Qed.

Lemma mark_phase_spec system epoch rows s r s' :
  outbox_ok s.(ds_world).(w_db) -> mark_phase system epoch rows s = (r, s') ->
  s'.(ds_journal) = s.(ds_journal) /\ s'.(ds_live) = s.(ds_live) /\
  ((exists e, r = Err e /\ s'.(ds_world).(w_db) = s.(ds_world).(w_db)) \/
   (r = Ok tt /\ marks (OutboxEventRow.event_id <$> rows) s.(ds_world).(w_db) s'.(ds_world).(w_db))).
Proof.
  intros Hok. unfold mark_phase. destruct rows as [|row rows].
  - intros [= <- <-]. split; [done|]. split; [done|]. right. split; [done|]. by apply marks_nil.
  - unfold on_world. destruct (bind _ _ (ds_world s)) as [r4 w4] eqn:E4. intros [= <- <-].
    by apply marking_spec in E4.
Qed.

Lemma dispatch_once_spec system limit epoch s r s' :
  pipeline_ok s -> dispatch_once system limit epoch s = (r, s') ->
  dispatch_rel s s' /\
  (forall e, r = Err e -> s'.(ds_world).(w_db) = s.(ds_world).(w_db) /\ s'.(ds_live) = s.(ds_live)).
Proof.
  intros [Hok Hm]. unfold dispatch_once, bind at 1, on_world at 1.
  destruct (scan system limit epoch (ds_world s)) as [[rows|e] w1] eqn:Es; apply scan_spec in Es as [Hd Hrows].
  2:{ intros [= <- <-]. split; [|done]. by apply dispatch_rel_stopped. }
  destruct (Hrows rows eq_refl) as [Hr Hseq]. clear Hrows.
  set (s1 := mkDispatch w1 _ _ _). unfold bind at 1, lift_res.
  destruct (group_rows rows) as [groups|e] eqn:Hg.
  2:{ intros [= <- <-]. split; [|done]. by apply dispatch_rel_stopped. }
  assert (Hback : forall row, row ∈ rows -> row ∈ backlog (w_db (ds_world s))).
  { intros row Hin. rewrite Hr in Hin. rewrite <- (take_drop limit). apply elem_of_app. by left. }
  assert (Hbatch : forall k b, (k, b) ∈ groups -> batch_of (w_db (ds_world s)) k b).
  { intros k b Hin e He. destruct (grouped_envelope _ _ _ _ _ _ Hok Hback Hg Hin He) as (row & Hrow & _ & _ & -> & Henv & Hge).
    split; [done|]. specialize (Hseq _ Hrow). simpl in *. lia. }
  unfold bind at 1. destruct (for_each groups _ s1) as [r2 s2] eqn:E2.
  apply (journal_groups_spec (w_db (ds_world s))) in E2 as [(Hw & Hl & HM) Hdone]; [|done|done].
  destruct (HM Hm) as [Hm2 Hsub]. simpl in Hw, Hl.
  destruct r2 as [[]|e].
  2:{ intros [= <- <-]. split; [|simpl; by rewrite Hw, Hl]. apply dispatch_rel_stopped; try done; congruence. }
  specialize (Hdone eq_refl). unfold bind at 1.
  destruct (mark_phase system epoch rows s2) as [r3 s3] eqn:E3.
  apply mark_phase_spec in E3 as (Hj3 & Hl3 & H3); [|by rewrite Hw, Hd]. rewrite Hw, Hd in H3.
  destruct H3 as [(e & -> & Hd3)|[-> Hmk]].
  { intros [= <- <-]. split; [|by rewrite Hl3, Hl]. apply dispatch_rel_stopped; try done; rewrite ?Hj3; try done; congruence. }
  unfold bind. rewrite live_publish_all. intros [= <- <-]. split; [|done].
  rewrite Hr in Hg, Hmk. split; simpl.
  - split; [by eapply marks_outbox_ok|]. simpl. rewrite Hj3. by eapply marking_keeps_mirror.
  - by rewrite Hj3.
  - eauto.
  - exists (concat groups.*2). rewrite Hl3, Hl. split; [done|]. rewrite Hj3. intros e (b & He & Hb)%elem_of_concat.
    apply list_elem_of_fmap in Hb as ([k b'] & -> & Hb). simpl in He.
    rewrite <- Hr in Hg. destruct (grouped_envelope _ _ _ _ _ _ Hok Hback Hg Hb He) as (row & _ & _ & _ & -> & Henv & _).
    apply (mirror_row_exact _ _ _ _ Hok Hm2 Henv). by eapply Hdone.
Qed.

(** Journal before mark, mark before live: however an iteration ends, the
    journal still mirrors the outbox and has only grown, every event newly
    handed to the live sink is recorded with its own bytes, and an iteration
    that reports an error has neither marked a row nor published an event. *)
Theorem dispatch_publishes_after_recording system limit epoch s r s' :
  pipeline_ok s -> dispatch_once system limit epoch s = (r, s') ->
  pipeline_ok s' /\ s.(ds_journal) ⊆ s'.(ds_journal) /\
  (exists events, s'.(ds_live) = (s.(ds_live) ++ events)%list /\
     forall e, e ∈ events -> s'.(ds_journal) !! position e = Some (journal_row e)) /\
  (forall e, r = Err e -> s'.(ds_world).(w_db) = s.(ds_world).(w_db) /\ s'.(ds_live) = s.(ds_live)).
Proof. intros Hok E. destruct (dispatch_once_spec _ _ _ _ _ _ Hok E) as [[H2 H3 _ H4] H5]. done. Qed.

(** ** The pipeline as a whole *)

(** A committed kernel transaction only stages events. *)
Lemma mirror_kernel d d' j : outbox_ok d -> events_rel d d' -> mirror d j -> mirror d' j.
Proof.
  intros Hok [Hok' [Hkeep Hnew Hheads]] [Hwf Hrows Hmarked Hprefix]. specialize (Hok' Hok).
  assert (Hold : forall key n id r, at_position d' key n id r -> n <= stream_head d key -> at_position d key n id r).
  { intros key n id r Hp Hn. destruct (ob_dense _ Hok key n) as (id0 & r0 & Hr0 & Hk0 & Hn0).
    { pose proof (ob_bound _ Hok' _ _ _ _ Hp). lia. }
    assert (id0 = id) as ->.
    { apply (ob_unique _ Hok' key n id0 r0 id r); [|done]. split; [by apply Hkeep|done]. }
    destruct Hp as (Hr & Hk & Hn'). rewrite (Hkeep _ _ Hr0) in Hr. by injection Hr as <-. }
  assert (Hpub : forall key n id r, at_position d' key n id r -> unpublished r = false -> at_position d key n id r).
  { intros key n id r (Hr & Hk & Hn) Hu. destruct (outbox_events d !! id) as [r0|] eqn:E.
    - rewrite (Hkeep _ _ E) in Hr. by injection Hr as <-.
    - destruct (Hnew _ _ E Hr) as [Hu' _]. congruence. }
  split.
  - done.
  - intros key n row Hrow. destruct (Hrows _ _ _ Hrow) as (k & e & Hk & Hn & (id & r & (Hr & Hp) & Hs & He) & Hj).
    exists k, e. split_and!; try done. exists id, r. split; [|done]. split; [by apply Hkeep|done].
  - intros key n id r Hp Hu. exact (Hmarked _ _ _ _ (Hpub _ _ _ _ Hp Hu) Hu).
  - intros key n id r m id' r' Hp Hu Hp' Hmn. pose proof (Hpub _ _ _ _ Hp Hu) as Hpd.
    pose proof (ob_bound _ Hok _ _ _ _ Hpd) as Hb.
    exact (Hprefix _ _ _ _ _ _ _ Hpd Hu (Hold _ _ _ _ Hp' ltac:(lia)) Hmn).
Qed.

(** The steps of the running system, as the event pipeline sees them: a
    committed kernel transaction, a dispatch iteration that succeeds or fails
    anywhere, a restart of the daemon, which loses the in-process live feed. *)
Inductive pipeline_step (s : DispatchState) : DispatchState -> Prop :=
  | step_kernel w' : events_rel s.(ds_world).(w_db) w'.(w_db) ->
      pipeline_step s (mkDispatch w' s.(ds_journal) s.(ds_live) s.(ds_faults))
  | step_dispatch system limit epoch r s' :
      dispatch_once system limit epoch s = (r, s') -> pipeline_step s s'
  | step_restart : pipeline_step s (mkDispatch s.(ds_world) s.(ds_journal) [] s.(ds_faults)).

Definition live_recorded (s : DispatchState) : Prop :=
  forall e, e ∈ s.(ds_live) -> s.(ds_journal) !! position e = Some (journal_row e).

Lemma pipeline_step_ok s s' :
  pipeline_step s s' -> pipeline_ok s /\ live_recorded s ->
  (pipeline_ok s' /\ live_recorded s') /\ s.(ds_journal) ⊆ s'.(ds_journal).
Proof.
  intros Hstep [[Hok Hm] Hlive]. destruct Hstep as [w' Hrel|system limit epoch r s' E|].
  - split; [|done]. split; [split|done]; simpl; [by apply Hrel|by eapply mirror_kernel].
  - apply dispatch_once_spec in E as [[Hok' Hsub _ (events & Hl & Hev)] _]; [|done].
    split; [|done]. split; [done|]. intros e He. rewrite Hl in He. apply elem_of_app in He as [He|He]; [|auto].
    eapply lookup_weaken; [by apply Hlive|done].
  - split; [|done]. split; [done|]. by intros e ?%elem_of_nil.
Qed.

Lemma empty_outbox_ok d : d.(outbox_events) = ∅ -> d.(stream_heads) = ∅ -> outbox_ok d.
Proof.
  intros E1 E2. unfold stream_head. split; unfold at_position, stream_head; rewrite ?E1, ?E2.
  - intros key. by rewrite lookup_empty.
  - intros e r. by rewrite lookup_empty.
  - intros key n e r. rewrite lookup_empty. by intros [? _].
  - intros key n. rewrite lookup_empty. simpl. lia.
  - intros key n e1 r1 e2 r2. rewrite lookup_empty. by intros [? _].
Qed.

(** A system whose two databases were just created. *)
Definition pipeline_start (s : DispatchState) : Prop :=
  s.(ds_world).(w_db).(outbox_events) = ∅ /\ s.(ds_world).(w_db).(stream_heads) = ∅ /\
  s.(ds_journal) = ∅ /\ s.(ds_live) = [].

Lemma reachable_ok s s' : pipeline_start s -> rtc pipeline_step s s' -> pipeline_ok s' /\ live_recorded s'.
Proof.
  intros (E1 & E2 & E3 & E4) Hr.
  assert (Hstart : pipeline_ok s /\ live_recorded s).
  { split; [split|].
    - by apply empty_outbox_ok.
    - rewrite E3. split; unfold journal_wf, at_position; rewrite ?E1; try (intros *; rewrite ?lookup_empty).
      + by intros [? ?].
      + done.
      + by intros [? _].
      + by intros [? _].
    - unfold live_recorded. rewrite E4. by intros e ?%elem_of_nil. }
  clear E1 E2 E3 E4. induction Hr as [s|s1 s2 s3 H12 _ IH]; [done|]. apply IH. by eapply pipeline_step_ok.
Qed.
End Behaviour.
