(* ===== verification/Feed.v ===== *)
(** * What consumers of the journal see ([events/src/dispatcher.rs], [event-journal-sqlite/src/lib.rs])

    The abstract specification of the event pipeline is one list per stream,
    the history the kernel committed.  Pages of the journal are segments of it,
    and iterations without failures drain the backlog. *)

From stdpp Require Import sorting list_numbers.
From S2P Require Import Prelude Domain Ids Text Models StoreBase Store Events Envelope Journal Dispatch.

Open Scope string_scope.
Open Scope Z_scope.

Section History.
Context `{!Ext} `{!EnvelopeCodec}.

Definition in_stream (key : string) (r : OutboxEventRow) : bool := bool_decide (r.(OutboxEventRow.stream_key) = key).

(** The committed rows of a stream, in order. *)
Definition history_rows (d : Db) (key : string) : list OutboxEventRow :=
  select_by position_le (in_stream key) d.(outbox_events).

(** The history of a stream: the specification a journal page is held against. *)
Definition history (d : Db) (k : StreamKey) : list EventEnvelope :=
  (fun r => envelope_from_row r k) <$> history_rows d (sk_text k).

Lemma elem_of_history_rows d key r :
  r ∈ history_rows d key <-> exists id, d.(outbox_events) !! id = Some r /\ OutboxEventRow.stream_key r = key.
Proof.
  unfold history_rows. rewrite elem_of_select_by. unfold in_stream. by setoid_rewrite bool_decide_eq_true.
Qed.

Lemma select_by_NoDup {V K} (f : V -> K) le `{!RelDecision le} p (m : gmap N V) :
  (forall i1 v1 i2 v2, m !! i1 = Some v1 -> m !! i2 = Some v2 -> p v1 = true -> p v2 = true -> f v1 = f v2 -> i1 = i2) ->
  NoDup (f <$> select_by le p m).
Proof.
  intros Hinj. unfold select_by. rewrite merge_sort_Permutation.
  assert (Hall : forall kv, kv ∈ map_to_list (filter (fun kv => p kv.2 = true) m) -> m !! kv.1 = Some kv.2 /\ p kv.2 = true).
  { intros [i v]. rewrite elem_of_map_to_list, map_lookup_filter_Some. done. }
  pose proof (NoDup_fst_map_to_list (filter (fun kv => p kv.2 = true) m)) as Hnd. revert Hnd Hall.
  generalize (map_to_list (filter (fun kv : N * V => p kv.2 = true) m)) as l.
  induction l as [|[i v] l IH]; intros Hnd Hall; [constructor|]. cbn [fmap list_fmap fst snd] in *.
  apply list.NoDup_cons in Hnd as [Hn Hnd]. apply list.NoDup_cons. split.
  - intros (v' & Hf & Hin)%list_elem_of_fmap. apply list_elem_of_fmap in Hin as ([i' w] & -> & Hin).
    destruct (Hall (i, v)) as [A1 A2]; [left|]. destruct (Hall (i', w)) as [B1 B2]; [by right|]. simpl in *.
    apply Hn, list_elem_of_fmap. exists (i', w). split; [|done]. simpl. by eapply (Hinj i v i' w).
  - apply IH; [done|]. intros kv Hin. apply Hall. by right.
Qed.

(** The history of a stream holds the positions [1 .. head], in order. *)
Lemma history_sequences d key :
  outbox_ok d -> OutboxEventRow.sequence <$> history_rows d key = seqZ 1 (Z.of_nat (Z.to_nat (stream_head d key))).
Proof.
  intros Hok. pose proof (ob_head _ Hok key) as Hge.
  apply (StronglySorted_unique_strong Z.le); [lia|..].
  - assert (Hs : StronglySorted row_le (history_rows d key)).
    { unfold history_rows, select_by. eapply (StronglySorted_fmap _ position_le); [by intros [? x] [? y]|].
      apply StronglySorted_merge_sort; apply _. }
    assert (Hk : Forall (fun r => OutboxEventRow.stream_key r = key) (history_rows d key)).
    { apply list.Forall_forall. intros r (id & _ & ?)%elem_of_history_rows. done. }
    revert Hk. induction Hs as [|x l Hs IH Hx]; intros Hk; [constructor|].
    apply list.Forall_cons in Hk as [Hkx Hk]. cbn [fmap list_fmap]. constructor; [by apply IH|].
    apply Forall_fmap. eapply list.Forall_impl; [apply list.Forall_and; exact (conj Hx Hk)|].
    intros y [[[Hne _]|[_ Hle]] Hky]; simpl in *; [congruence|done].
  - apply seqZ_StronglySorted.
  - apply NoDup_Permutation; [|apply NoDup_seqZ|].
    + apply select_by_NoDup. intros i1 v1 i2 v2 H1' H2' P1%bool_decide_eq_true P2%bool_decide_eq_true Hf.
      apply (ob_unique _ Hok key (OutboxEventRow.sequence v1) i1 v1 i2 v2); done.
    + intros n. rewrite list_elem_of_fmap, elem_of_seqZ. split.
      * intros (r & -> & (id & Hr & Hk)%elem_of_history_rows).
        pose proof (ob_bound _ Hok key _ id r (conj Hr (conj Hk eq_refl))). lia.
      * intros Hn. destruct (ob_dense _ Hok key n) as (id & r & Hr & Hk & <-); [lia|].
        exists r. split; [done|]. apply elem_of_history_rows. eauto.
Qed.

Lemma history_lookup d k i e :
  outbox_ok d -> history d k !! i = Some e ->
  exists id r, at_position d (sk_text k) (Z.of_nat i + 1) id r /\ e = envelope_from_row r k.
Proof.
  intros Hok Hi. unfold history in Hi. rewrite list_lookup_fmap, fmap_Some in Hi. destruct Hi as (r & Hr & ->).
  assert (Hn : (OutboxEventRow.sequence <$> history_rows d (sk_text k)) !! i = Some (OutboxEventRow.sequence r))
    by (by rewrite list_lookup_fmap, Hr).
  rewrite history_sequences in Hn by done. apply lookup_seqZ in Hn as [Hn _].
  apply list_elem_of_lookup_2, elem_of_history_rows in Hr as (id & Hr & Hk). exists id, r. split; [|done].
  split; [done|]. split; [done|lia].
Qed.

Lemma length_history d k : outbox_ok d -> length (history d k) = Z.to_nat (stream_head d (sk_text k)).
Proof.
  intros Hok. unfold history. rewrite length_fmap, <- (length_fmap OutboxEventRow.sequence), history_sequences by done.
  rewrite length_seqZ. lia.
Qed.
End History.

(** ** Pages of the journal *)

Section Pages.
Context `{!Ext} `{!EnvelopeCodec}.

(** A stored event the dispatcher and the wire codec can represent: a canonical
    stream key, version 7 identifiers, columns within their ranges. *)
Definition publishable_row (r : OutboxEventRow) : Prop :=
  exists k, stream_key_from_str r.(OutboxEventRow.stream_key) = Ok k /\ wf_envelope (envelope_from_row r k) /\
    0 <= r.(OutboxEventRow.event_version) <= 4294967295 /\ r.(OutboxEventRow.sequence) <= i64_max.

Definition publishable (d : Db) : Prop := forall id r, d.(outbox_events) !! id = Some r -> publishable_row r.

Lemma envelope_of_wf d k e : publishable d -> envelope_of d k e -> wf_envelope e.
Proof.
  intros Hpub (id & r & (Hr & Hk & _) & Hkey & ->). destruct (Hpub _ _ Hr) as (k' & Hk' & Hwf & _).
  rewrite Hk in Hk'. rewrite Hkey in Hk'. by injection Hk' as ->.
Qed.

Lemma decode_recorded `{!WireCodec} e :
  wf_envelope e -> 0 <= e.(ev_sequence) -> decode_row (e.(ev_sequence), journal_row e) = Ok (wire_form e).
Proof.
  intros Hwf Hs. unfold decode_row. cbn [fst snd jr_envelope journal_row].
  rewrite (proj1 (envelope_round_trip e Hwf)). cbn [res_bind].
  destruct (Z.leb_spec 0 (ev_sequence e)); [|lia]. simpl. rewrite bool_decide_false; [done|]. tauto.
Qed.

Lemma journaled_within_history d j k :
  outbox_ok d -> mirror d j -> (Z.to_nat (stream_max (sk_text k) j) <= length (history d k))%nat.
Proof.
  intros Hok Hm. rewrite length_history by done. destruct (stream_max_spec (sk_text k) j (mi_wf _ _ Hm)) as [Hge Hmax].
  destruct (decide (stream_max (sk_text k) j = 0)); [lia|].
  assert (is_Some (j !! (sk_text k, stream_max (sk_text k) j))) as [row Hrow] by (apply Hmax; lia).
  destruct (mi_rows _ _ Hm _ _ _ Hrow) as (k' & e & Hk & Hn & (id & r & Hp & _) & _).
  pose proof (ob_bound _ Hok _ _ _ _ Hp) as Hb. rewrite Hk, Hn in Hb. lia.
Qed.

Lemma read_page `{!WireCodec} d j k from limit :
  outbox_ok d -> mirror d j -> publishable d -> 0 <= from <= i64_max ->
  stream_key_from_str (sk_text k) = Ok k ->
  read_stream k from limit j =
    (Ok (mkReadResult (wire_form <$> take limit (drop (Z.to_nat from)
            (take (Z.to_nat (stream_max (sk_text k) j)) (history d k)))) false), j).
Proof.
  intros Hok Hm Hpub Hf Hk. rewrite read_stream_run by lia. set (n := Z.to_nat (stream_max (sk_text k) j)).
  pose proof (journaled_within_history d j k Hok Hm) as Hn. fold n in Hn.
  assert (Hlen : length (stream_rows (sk_text k) from j) = (n - Z.to_nat from)%nat).
  { rewrite length_stream_rows by (apply (mi_wf _ _ Hm) || lia). lia. }
  rewrite (proj2 (res_collect_ok decode_row _ (wire_form <$> take limit (drop (Z.to_nat from) (take n (history d k)))))); [done|].
  apply Forall2_same_length_lookup. split.
  - rewrite length_fmap, !length_take, length_drop, length_take, Hlen. lia.
  - intros i [m row] e Hi He. apply lookup_take_Some in Hi as [Hi _].
    apply stream_rows_lookup in Hi as [-> Hrow]; [|apply (mi_wf _ _ Hm)|lia].
    rewrite list_lookup_fmap, fmap_Some in He. destruct He as (e0 & He & ->).
    apply lookup_take_Some in He as [He _]. rewrite lookup_drop in He. apply lookup_take_Some in He as [He _].
    apply history_lookup in He as (id & r & Hp & ->); [|done].
    assert (Henv : envelope_of d k (envelope_from_row r k)).
    { exists id, r. split; [|done]. destruct Hp as (Hr & Hkr & _). done. }
    assert (Hseq : ev_sequence (envelope_from_row r k) = from + 1 + Z.of_nat i).
    { destruct Hp as (_ & _ & Hn'). simpl. lia. }
    pose proof (mirror_row_exact d j k _ Hok Hm Henv) as Hex. rewrite Hseq, Hrow in Hex.
    specialize (Hex (mk_is_Some _ _ eq_refl)). injection Hex as ->. rewrite <- Hseq.
    apply decode_recorded; [by eapply envelope_of_wf|]. rewrite Hseq. lia.
Qed.
End Pages.

(** ** The feed refines the committed history *)

Section Refinement.
Context `{!Ext} `{!EnvelopeCodec} `{!Faults} `{!WireCodec}.

(** C7: However commands, dispatch iterations (failing anywhere) and restarts
    interleave, the journal serves exactly a prefix of each stream's committed
    history: every page is the requested segment of that prefix, in order, with
    neither gap nor duplicate; the prefix covers every event marked as
    journaled, and every event handed to live subscribers is recorded. *)
Theorem journal_serves_history s0 s k :
  pipeline_start s0 -> rtc pipeline_step s0 s -> publishable s.(ds_world).(w_db) ->
  stream_key_from_str (sk_text k) = Ok k ->
  live_recorded s /\
  exists n, (n <= length (history s.(ds_world).(w_db) k))%nat /\
    (forall m id r, at_position s.(ds_world).(w_db) (sk_text k) m id r -> unpublished r = false -> m <= Z.of_nat n) /\
    forall from limit, 0 <= from <= i64_max ->
      read_stream k from limit s.(ds_journal) =
        (Ok (mkReadResult (wire_form <$> take limit (drop (Z.to_nat from)
               (take n (history s.(ds_world).(w_db) k)))) false), s.(ds_journal)).
Proof.
  intros Hs Hr Hpub Hk. destruct (reachable_ok _ _ Hs Hr) as [[Hok Hm] Hlive]. split; [done|].
  exists (Z.to_nat (stream_max (sk_text k) (ds_journal s))). split; [by apply journaled_within_history|]. split.
  - intros m id r Hp Hu. pose proof (stream_max_spec (sk_text k) _ (mi_wf _ _ Hm)) as [_ Hmax].
    pose proof (proj1 (Hmax m) (mi_marked _ _ Hm _ _ _ _ Hp Hu)). lia.
  - intros from limit Hf. by apply read_page.
Qed.
End Refinement.
