(* ===== verification/Drain.v ===== *)
(** * Progress of the dispatcher ([events/src/dispatcher.rs], [agentd/src/workers/outbox.rs])

    Without faults an iteration publishes the oldest part of the backlog, up
    to its limit, whatever an earlier, interrupted iteration has left in the
    journal; repeating it empties the backlog. *)

From stdpp Require Import sorting list_numbers.
From S2P Require Import Prelude Domain Ids Text Models StoreBase Store Events Envelope Journal Dispatch Feed.

Open Scope string_scope.
Open Scope Z_scope.

(** ** A group *)

Section Group.
Context `{!Ext} `{!EnvelopeCodec} `{!Faults} `{!WireCodec}.

Lemma recorded_prefix_matches recorded batch :
  (forall i x y, recorded !! i = Some x -> batch !! i = Some y -> x = wire_form y) ->
  (forall e, e ∈ batch -> wf_envelope e) ->
  recorded_prefix recorded batch = Ok (Nat.min (length recorded) (length batch)).
Proof.
  revert batch. induction recorded as [|x recorded IH]; intros [|y batch] Hrec Hwf; cbn [recorded_prefix length]; try done.
  assert (x = wire_form y) as -> by (by apply (Hrec 0%nat)).
  rewrite bool_decide_false by tauto. destruct (envelope_round_trip y) as [_ Hb]; [apply Hwf; left|].
  rewrite Hb, !bool_decide_false by tauto. simpl. rewrite IH; [done|..].
  - intros i. apply (Hrec (S i)).
  - intros e He. apply Hwf. by right.
Qed.

(** A batch of stored events is a segment of its stream's history. *)
Lemma batch_in_history d k a batch i e :
  outbox_ok d -> batch_of d k batch -> contiguous k (Z.of_nat a + 1) batch ->
  batch !! i = Some e -> history d k !! (a + i)%nat = Some e.
Proof.
  intros Hok Hb Hc Hi. destruct (Hc i e Hi) as [_ Hs].
  destruct (Hb e) as [(id & r & Hp & Hk & ->) _]; [by eapply list_elem_of_lookup_2|].
  pose proof (ob_bound _ Hok _ _ _ _ Hp) as Hbd.
  destruct (history d k !! (a + i)%nat) as [e'|] eqn:E.
  - apply history_lookup in E as (id' & r' & Hp' & ->); [|done].
    replace (Z.of_nat (a + i) + 1) with (ev_sequence (envelope_from_row r k)) in Hp' by lia.
    assert (id' = id) as -> by (by eapply ob_unique). destruct Hp as (Hr & _), Hp' as (Hr' & _). congruence.
  - apply lookup_ge_None in E. rewrite length_history in E by done. lia.
Qed.

(** Events past the recorded head are not in the journal. *)
Lemma unrecorded_event d j k e :
  outbox_ok d -> mirror d j -> publishable d -> envelope_of d k e ->
  stream_max (sk_text k) j < e.(ev_sequence) -> recorded_id (event_text e) j = false.
Proof.
  intros Hok Hm Hpub He Hlt. apply not_true_is_false. intros ([key n] & row & Hrow & Hid)%recorded_id_true.
  destruct (mi_rows _ _ Hm _ _ _ Hrow) as (k' & e' & Hk' & Hn & He' & ->).
  pose proof (envelope_of_wf _ _ _ Hpub He) as [W _ _ _ _ _ _ _].
  pose proof (envelope_of_wf _ _ _ Hpub He') as [W' _ _ _ _ _ _ _].
  unfold readable_id in *. simpl in Hid. unfold event_text in Hid. rewrite Hid in W'. rewrite W in W'. injection W' as Hids.
  destruct He as (id & r & (Hr & Hkr & Hs) & _ & ->), He' as (id' & r' & (Hr' & Hkr' & Hs') & _ & ->). simpl in *.
  rewrite (ob_id _ Hok _ _ Hr), (ob_id _ Hok _ _ Hr') in Hids. subst id'. rewrite Hr in Hr'. injection Hr' as <-.
  assert (is_Some (j !! (key, n))) as Hs2%(stream_max_spec key j (mi_wf _ _ Hm)) by eauto.
  rewrite <- Hk', <- Hkr', Hkr in Hs2. lia.
Qed.

Lemma batch_ids_NoDup d k next batch :
  outbox_ok d -> publishable d -> batch_of d k batch -> contiguous k next batch -> NoDup (event_text <$> batch).
Proof.
  intros Hok Hpub Hb Hc. apply NoDup_alt. intros i1 i2 text H1' H2'.
  rewrite list_lookup_fmap, fmap_Some in H1', H2'. destruct H1' as (e1 & L1 & ->), H2' as (e2 & L2 & Ht).
  destruct (Hb e1) as [E1 _]; [by eapply list_elem_of_lookup_2|]. destruct (Hb e2) as [E2 _]; [by eapply list_elem_of_lookup_2|].
  pose proof (envelope_of_wf _ _ _ Hpub E1) as [W1 _ _ _ _ _ _ _].
  pose proof (envelope_of_wf _ _ _ Hpub E2) as [W2 _ _ _ _ _ _ _].
  unfold readable_id, event_text in *. rewrite Ht, W2 in W1. injection W1 as Hids.
  destruct (Hc _ _ L1) as [_ S1], (Hc _ _ L2) as [_ S2].
  destruct E1 as (id & r & (Hr & _ & Hs) & _ & ->), E2 as (id' & r' & (Hr' & _ & Hs') & _ & ->). simpl in *.
  rewrite (ob_id _ Hok _ _ Hr), (ob_id _ Hok _ _ Hr') in Hids. subst id'. rewrite Hr in Hr'. injection Hr' as <-. lia.
Qed.

(** The unrecorded rest of a batch is appended at the head of its stream. *)
Lemma suffix_appends d k a batch j m :
  outbox_ok d -> mirror d j -> publishable d -> batch_of d k batch -> contiguous k (Z.of_nat a + 1) batch ->
  (m < length batch)%nat -> stream_max (sk_text k) j = Z.of_nat (a + m) ->
  exists res j', append k (stream_max (sk_text k) j) (drop m batch) j = (Ok res, j').
Proof.
  intros Hok Hm Hpub Hb Hc Hlt Hmax.
  assert (Hdrop : contiguous k (stream_max (sk_text k) j + 1) (drop m batch)).
  { replace (stream_max (sk_text k) j + 1) with (Z.of_nat a + 1 + Z.of_nat m) by lia. by apply contiguous_drop. }
  assert (Hbd : batch_of d k (drop m batch)).
  { intros e He. apply Hb. rewrite <- (take_drop m batch). apply elem_of_app. by right. }
  pose proof (length_drop batch m) as Hdl.
  eexists _, _. apply append_at_head; [..|by eapply batch_ids_NoDup].
  - by apply (mi_wf _ _ Hm).
  - intros E0. rewrite E0 in Hdl. simpl in Hdl. lia.
  - done.
  - destruct (drop m batch !! (length batch - m - 1)%nat) as [e|] eqn:El.
    + destruct (Hdrop _ _ El) as [_ Hs]. destruct (Hbd e) as [_ Hr]; [by eapply list_elem_of_lookup_2|]. lia.
    + apply lookup_ge_None in El. lia.
  - intros e He. destruct (Hbd e He) as [Henv _]. eapply unrecorded_event; [done..|].
    destruct (contiguous_lookup _ _ _ _ Hdrop He) as (_ & Hr & _). lia.
Qed.

(** What the page read before an append holds, and how much of the batch it covers. *)
Lemma page_covers d k a batch j :
  outbox_ok d -> mirror d j -> publishable d -> batch_of d k batch -> contiguous k (Z.of_nat a + 1) batch ->
  stream_key_from_str (sk_text k) = Ok k -> Z.of_nat a <= stream_max (sk_text k) j -> Z.of_nat a <= i64_max ->
  exists recorded, read_stream k (Z.of_nat a) (length batch) j = (Ok (mkReadResult recorded false), j) /\
    recorded_prefix recorded batch = Ok (Nat.min (Z.to_nat (stream_max (sk_text k) j) - a) (length batch)).
Proof.
  intros Hok Hm Hpub Hb Hc Hkk Han Hi64. rewrite (read_page d j k) by (done || lia). rewrite Nat2Z.id.
  set (n := Z.to_nat (stream_max (sk_text k) j)). eexists. split; [reflexivity|].
  pose proof (journaled_within_history d j k Hok Hm) as Hn. fold n in Hn.
  rewrite recorded_prefix_matches.
  - rewrite length_fmap, length_take, length_drop, length_take. f_equal. lia.
  - intros i x y Hx Hy. rewrite list_lookup_fmap, fmap_Some in Hx. destruct Hx as (e & He & ->).
    apply lookup_take_Some in He as [He _]. rewrite lookup_drop in He. apply lookup_take_Some in He as [He _].
    rewrite (batch_in_history d k a batch i y Hok Hb Hc Hy) in He. by injection He as ->.
  - intros e He. destruct (Hb e He) as [Henv _]. by eapply envelope_of_wf.
Qed.

(** A group whose stream is recorded up to its first event goes through. *)
Lemma journal_group_runs d k batch s first :
  outbox_ok d -> mirror d s.(ds_journal) -> publishable d -> (forall n, inject n = false) ->
  batch_of d k batch -> batch !! 0%nat = Some first -> contiguous k first.(ev_sequence) batch ->
  (forall m, 1 <= m < first.(ev_sequence) -> is_Some (s.(ds_journal) !! (sk_text k, m))) ->
  Z.of_nat (length batch) <= u32_max ->
  exists s', journal_group k batch s = (Ok tt, s').
Proof.
  intros Hok Hm Hpub Hnf Hb Hfirst Hc Hbefore Hlen.
  destruct batch as [|x batch]; [done|]. injection Hfirst as ->.
  set (a := Z.to_nat (ev_sequence first - 1)). destruct (Hb first) as [Hef Hrange]; [left|].
  assert (Hkk : stream_key_from_str (sk_text k) = Ok k) by (by destruct Hef as (? & ? & _ & ? & _)).
  replace (ev_sequence first) with (Z.of_nat a + 1) in Hc by lia.
  destruct (stream_max_spec (sk_text k) _ (mi_wf _ _ Hm)) as [Hge Hmax].
  assert (Han : Z.of_nat a <= stream_max (sk_text k) (ds_journal s)).
  { destruct (decide (a = 0%nat)); [lia|].
    assert (1 <= ev_sequence first - 1 <= stream_max (sk_text k) (ds_journal s)) by (apply Hmax, Hbefore; lia). lia. }
  destruct (page_covers d k a (first :: batch) (ds_journal s)) as (recorded & Hread & Hpre); try done; [lia|].
  unfold journal_group, bind at 1, on_journal at 1.
  replace (Z.max 0 (ev_sequence first - 1)) with (Z.of_nat a) by lia.
  replace (batch_limit (length (first :: batch))) with (length (first :: batch)) by (unfold batch_limit; lia).
  rewrite Hread. unfold bind at 1, lift_res. cbn [rr_events]. rewrite Hpre.
  set (matched := Nat.min _ _). destruct (Nat.ltb_spec matched (length (first :: batch))) as [Hlt|]; [|eauto].
  assert (Hfrom : match matched with O => Z.of_nat a | S m => from_option ev_sequence 0 ((first :: batch) !! m) end
                  = stream_max (sk_text k) (ds_journal s)).
  { destruct matched as [|m] eqn:Em; [lia|]. destruct ((first :: batch) !! m) as [e|] eqn:El.
    - destruct (Hc m e El) as [_ Hs]. simpl. lia.
    - apply lookup_ge_None in El. lia. }
  rewrite Hfrom. destruct (suffix_appends d k a (first :: batch) (ds_journal s) matched) as (res & j' & Happ); try done; [lia|].
  unfold bind, on_journal, consult_fault. cbn [ds_journal ds_faults ds_world ds_live]. rewrite Happ, Hnf. eauto.
Qed.
End Group.

(** ** The order of the scanned rows *)

Section Order.
Context `{!Ext} `{!EnvelopeCodec} `{!Faults}.

Lemma StronglySorted_lookup {A} (R : relation A) (l : list A) i1 i2 x1 x2 :
  StronglySorted R l -> l !! i1 = Some x1 -> l !! i2 = Some x2 -> (i1 < i2)%nat -> R x1 x2.
Proof.
  intros Hs H1' H2' Hlt. rewrite <- (take_drop (S i1) l) in Hs.
  eapply StronglySorted_app_1_elem_of; [exact Hs|..].
  - apply list_elem_of_lookup_2 with i1. rewrite lookup_take_lt by lia. done.
  - apply list_elem_of_lookup_2 with (i2 - S i1)%nat. rewrite lookup_drop. by replace (S i1 + (i2 - S i1))%nat with i2 by lia.
Qed.

Lemma take_in_backlog limit d r : r ∈ take limit (backlog d) -> r ∈ backlog d.
Proof. intros Hr. rewrite <- (take_drop limit). apply elem_of_app. by left. Qed.

Lemma backlog_NoDup d : outbox_ok d -> NoDup (backlog d).
Proof.
  intros Hok. rewrite <- (list_fmap_id (backlog d)). apply select_by_NoDup.
  intros i1 v1 i2 v2 H1' H2' _ _ Heq. cbn in Heq. subst v2. by rewrite <- (ob_id _ Hok _ _ H1'), <- (ob_id _ Hok _ _ H2').
Qed.

(** A row before a scanned one in its stream is published or scanned earlier. *)
Lemma scanned_before d limit i r m :
  outbox_ok d -> take limit (backlog d) !! i = Some r -> 1 <= m < OutboxEventRow.sequence r ->
  (exists id r', at_position d (OutboxEventRow.stream_key r) m id r' /\ unpublished r' = false) \/
  exists i' r', (i' < i)%nat /\ take limit (backlog d) !! i' = Some r' /\
    OutboxEventRow.stream_key r' = OutboxEventRow.stream_key r /\ OutboxEventRow.sequence r' = m.
Proof.
  intros Hok Hi Hseq. pose proof (list_elem_of_lookup_2 _ _ _ Hi) as Hin.
  destruct (backlog_row d r Hok (take_in_backlog _ _ _ Hin)) as (Hr & Hu & _).
  pose proof (ob_bound _ Hok _ _ _ r (conj Hr (conj eq_refl eq_refl))) as Hbd.
  destruct (ob_dense _ Hok (OutboxEventRow.stream_key r) m) as (id & r' & Hp); [lia|].
  destruct (unpublished r') eqn:Hu'; [right|left; eauto].
  destruct Hp as (Hr' & Hk & Hs).
  assert (Hin' : r' ∈ take limit (backlog d)).
  { apply (scanned_prefix d limit r r'); [done|done| |done|lia]. apply elem_of_backlog. eauto. }
  apply list_elem_of_lookup_1 in Hin' as [i' Hi']. exists i', r'. split; [|done].
  destruct (Nat.lt_trichotomy i' i) as [|[->|Hgt]]; [done| |].
  - rewrite Hi in Hi'. injection Hi' as <-. lia.
  - apply lookup_take_Some in Hi as [Hi _], Hi' as [Hi' _].
    pose proof (StronglySorted_lookup _ _ _ _ _ _ (backlog_sorted d) Hi Hi' Hgt) as [[Hne _]|[_ Hle]]; simpl in *; [congruence|lia].
Qed.

(** Neighbours of one stream in the scan are neighbours in the stream. *)
Lemma scanned_next d j limit i r1 r2 :
  outbox_ok d -> mirror d j -> take limit (backlog d) !! i = Some r1 -> take limit (backlog d) !! S i = Some r2 ->
  OutboxEventRow.stream_key r1 = OutboxEventRow.stream_key r2 ->
  OutboxEventRow.sequence r2 = OutboxEventRow.sequence r1 + 1.
Proof.
  intros Hok Hm H1' H2' Hk.
  pose proof (proj1 (proj1 (lookup_take_Some _ _ _ _) H1')) as L1. pose proof (proj1 (proj1 (lookup_take_Some _ _ _ _) H2')) as L2.
  destruct (backlog_row d r1 Hok) as (P1 & Hu1 & Hge1); [by eapply list_elem_of_lookup_2|].
  destruct (backlog_row d r2 Hok) as (P2 & Hu2 & Hge2); [by eapply list_elem_of_lookup_2|].
  assert (Hlt : OutboxEventRow.sequence r1 < OutboxEventRow.sequence r2).
  { pose proof (StronglySorted_lookup _ _ _ _ _ _ (backlog_sorted d) L1 L2 ltac:(lia)) as [[Hne _]|[_ Hle]]; simpl in *; [done|].
    destruct (decide (OutboxEventRow.sequence r1 = OutboxEventRow.sequence r2)) as [E|]; [|lia]. exfalso.
    assert (OutboxEventRow.event_id r1 = OutboxEventRow.event_id r2) as Hid.
    { by apply (ob_unique _ Hok (OutboxEventRow.stream_key r1) (OutboxEventRow.sequence r1) _ r1 _ r2). }
    rewrite Hid, P2 in P1. injection P1 as ->.
    pose proof (NoDup_lookup _ _ _ _ (backlog_NoDup d Hok) L1 L2). lia. }
  destruct (decide (OutboxEventRow.sequence r2 = OutboxEventRow.sequence r1 + 1)) as [|Hne]; [done|]. exfalso.
  destruct (scanned_before d limit (S i) r2 (OutboxEventRow.sequence r1 + 1) Hok H2')
    as [(id3 & r3 & Hp3 & Hu3)|(i3 & r3 & Hlt3 & Hi3 & Hk3 & Hs3)]; [lia|..].
  - assert (unpublished r1 = false) as Hu1'; [|congruence].
    apply (mi_prefix _ _ Hm _ _ _ _ _ _ _ Hp3 Hu3 (conj P1 (conj Hk eq_refl))). lia.
  - apply lookup_take_Some in Hi3 as [Hi3 _].
    destruct (decide (i3 = i)) as [->|]; [rewrite L1 in Hi3; injection Hi3 as <-; lia|].
    pose proof (StronglySorted_lookup _ _ _ _ _ _ (backlog_sorted d) Hi3 L1 ltac:(lia)) as [[? _]|[_ ?]]; simpl in *; [congruence|lia].
Qed.
End Order.

(** ** The journal phase *)

Section Phase.
Context `{!Ext} `{!EnvelopeCodec} `{!Faults} `{!WireCodec}.

(** What the loop over the groups needs of the events it is given, [j] being
    the journal it starts from. *)
Record feedable (j : Journal) (events : list EventEnvelope) : Prop := {
  fd_next : forall i e1 e2, events !! i = Some e1 -> events !! S i = Some e2 ->
    e1.(ev_stream_key) = e2.(ev_stream_key) -> e2.(ev_sequence) = e1.(ev_sequence) + 1;
  fd_before : forall i e m, events !! i = Some e -> 1 <= m < e.(ev_sequence) ->
    is_Some (j !! (sk_text e.(ev_stream_key), m)) \/
    exists i' e', (i' < i)%nat /\ events !! i' = Some e' /\ position e' = (sk_text e.(ev_stream_key), m) }.

Lemma scanned_feedable d j limit groups :
  outbox_ok d -> mirror d j -> group_rows (take limit (backlog d)) = Ok groups -> feedable j (concat groups.*2).
Proof.
  intros Hok Hm Hg. apply group_rows_spec in Hg as [_ Hf]. split.
  - intros i e1 e2 H1' H2' Hk.
    destruct (Forall2_lookup_r _ _ _ _ _ Hf H1') as (r1 & R1 & k1 & K1 & ->).
    destruct (Forall2_lookup_r _ _ _ _ _ Hf H2') as (r2 & R2 & k2 & K2 & ->). simpl in *. subst k2.
    apply (scanned_next d j limit i r1 r2); try done.
    by rewrite <- (stream_key_from_str_text _ _ K1), <- (stream_key_from_str_text _ _ K2).
  - intros i e m Hi Hseq. destruct (Forall2_lookup_r _ _ _ _ _ Hf Hi) as (r & R & k & K & ->). simpl in *.
    pose proof (stream_key_from_str_text _ _ K) as ->.
    destruct (scanned_before d limit i r m Hok R Hseq) as [(id & r' & Hp & Hu)|(i' & r' & Hlt & R' & Hk & Hs)].
    + left. by eapply (mi_marked _ _ Hm).
    + right. destruct (Forall2_lookup_l _ _ _ _ _ Hf R') as (e' & E' & k' & K' & ->).
      exists i', (envelope_from_row r' k'). split; [done|]. split; [done|]. unfold position. simpl.
      by rewrite (stream_key_from_str_text _ _ K'), Hk, Hs.
Qed.

(** The head group of what is left to do. *)
Lemma feedable_group j events pre k batch post first :
  feedable j events -> events = (pre ++ batch ++ post)%list -> (forall e, e ∈ batch -> e.(ev_stream_key) = k) ->
  batch !! 0%nat = Some first ->
  contiguous k first.(ev_sequence) batch /\
  forall m, 1 <= m < first.(ev_sequence) -> is_Some (j !! (sk_text k, m)) \/ exists e, e ∈ pre /\ position e = (sk_text k, m).
Proof.
  intros [Hnext Hbefore] -> Hk Hfirst.
  assert (Hl : forall i e, batch !! i = Some e -> (pre ++ batch ++ post)%list !! (length pre + i)%nat = Some e).
  { intros i e Hi. rewrite lookup_app_r by lia. replace (length pre + i - length pre)%nat with i by lia.
    rewrite lookup_app_l by (by eapply lookup_lt_Some). done. }
  split.
  - intros i. induction i as [|i IH]; intros e Hi.
    + rewrite Hfirst in Hi. injection Hi as <-. split; [|lia]. apply Hk. by eapply list_elem_of_lookup_2.
    + destruct (batch !! i) as [e0|] eqn:E0.
      2:{ apply lookup_ge_None in E0. apply lookup_lt_Some in Hi. lia. }
      destruct (IH e0 eq_refl) as [Hk0 Hs0]. assert (ev_stream_key e = k) as Hke by (apply Hk; by eapply list_elem_of_lookup_2).
      split; [done|]. pose proof (Hl _ _ E0) as L0. pose proof (Hl _ _ Hi) as L1.
      replace (length pre + S i)%nat with (S (length pre + i))%nat in L1 by lia.
      rewrite (Hnext _ _ _ L0 L1) by congruence. lia.
  - intros m Hm. assert (ev_stream_key first = k) as Hkf by (apply Hk; by eapply list_elem_of_lookup_2).
    destruct (Hbefore _ _ m (Hl _ _ Hfirst) Hm) as [Hj|(i' & e' & Hlt & He' & Hp)]; rewrite Hkf in *; [by left|right].
    exists e'. split; [|done]. rewrite lookup_app_l in He' by lia. by eapply list_elem_of_lookup_2.
Qed.

Lemma journal_groups_run d j0 events pre (groups : list (StreamKey * list EventEnvelope)) s :
  outbox_ok d -> mirror d s.(ds_journal) -> publishable d -> (forall n, inject n = false) ->
  feedable j0 events -> events = (pre ++ concat groups.*2)%list -> uniform groups ->
  (forall k b, (k, b) ∈ groups -> batch_of d k b) -> Z.of_nat (length events) <= u32_max ->
  j0 ⊆ s.(ds_journal) -> (forall e, e ∈ pre -> is_Some (s.(ds_journal) !! position e)) ->
  exists s', for_each groups (fun g => journal_group g.1 g.2) s = (Ok tt, s').
Proof.
  intros Hok Hm Hpub Hnf Hfeed. revert pre s Hm. induction groups as [|[k batch] groups IH]; intros pre s Hm Hev Hu Hb Hlen Hsub Hpre.
  { eexists. reflexivity. }
  cbn [for_each fmap list_fmap concat fst snd] in *. destruct (Hu k batch) as [Hne Hk]; [left|].
  destruct (batch !! 0%nat) as [first|] eqn:Hfirst; [|by destruct batch].
  destruct (feedable_group _ _ _ _ _ _ first Hfeed Hev Hk Hfirst) as [Hc Hbefore].
  destruct (journal_group_runs d k batch s first) as [s1 Hs1]; try done; [by apply Hb; left|..].
  - intros m Hm'. destruct (Hbefore m Hm') as [[row Hrow]|(e & He & Hp)].
    + exists row. by eapply lookup_weaken.
    + rewrite <- Hp. by apply Hpre.
  - rewrite Hev, !length_app in Hlen. lia.
  - destruct (journal_group_spec d k batch s _ s1 (Hb k batch ltac:(left)) Hm Hs1) as [(_ & _ & HM) Hdone].
    destruct (HM Hm) as [Hm1 Hsub1]. unfold bind. rewrite Hs1.
    apply (IH (pre ++ batch)%list s1 Hm1).
    + by rewrite <- app_assoc.
    + intros k' b' Hin. apply Hu. by right.
    + intros k' b' Hin. apply Hb. by right.
    + done.
    + by etransitivity.
    + intros e [He|He]%elem_of_app.
      * destruct (Hpre e He) as [row Hrow]. exists row. by eapply lookup_weaken.
      * unfold position. rewrite (Hk e He). by apply (Hdone eq_refl).
Qed.
End Phase.

(** ** An iteration and its repetition *)

Section Progress.
Context `{!Ext} `{!EnvelopeCodec} `{!Faults} `{!WireCodec}.

(** The daemon owns the fence at [epoch]. *)
Definition fenced (epoch : Z) (d : Db) : Prop := assert_epoch epoch d = Ok tt.

Lemma scan_run system limit epoch w :
  outbox_ok w.(w_db) -> fenced epoch w.(w_db) -> publishable w.(w_db) ->
  exists w', scan system limit epoch w = (Ok (take limit (backlog w.(w_db))), w') /\ w'.(w_db) = w.(w_db).
Proof.
  intros Hok Hf Hpub. unfold scan, bind, write_context, begin_write. cbn [w_db ctx_daemon_epoch]. rewrite Hf.
  cbn [res_bind]. unfold streams_scan_unpublished, bind, query, gets, lift_res. cbn [t_db].
  fold (backlog (w_db w)). rewrite res_collect_all; [eexists; split; reflexivity|].
  intros r Hr. destruct (backlog_row _ r Hok (take_in_backlog _ _ _ Hr)) as (Hid & _ & Hge). clear Hr. rename Hid into Hr.
  destruct (Hpub _ _ Hr) as (k & Hk & _ & Hv & Hs). unfold decode_event.
  assert (Hint : int_column "event_version" (OutboxEventRow.event_version r) = Ok (OutboxEventRow.event_version r)).
  { unfold int_column, in_i64, i64_min, i64_max. destruct (Z.leb_spec (-9223372036854775808) (OutboxEventRow.event_version r)),
      (Z.leb_spec (OutboxEventRow.event_version r) 9223372036854775807); try lia. done. }
  rewrite Hint. cbn [res_bind]. unfold between.
  destruct (Z.leb_spec 0 (OutboxEventRow.event_version r)), (Z.leb_spec (OutboxEventRow.event_version r) 4294967295); try lia.
  cbn [andb res_bind]. rewrite u64_column_intro by lia. done.
Qed.

Lemma mark_rows_run rows t :
  (forall r, r ∈ rows -> is_Some (t.(t_db).(outbox_events) !! r.(OutboxEventRow.event_id))) ->
  exists t', mark_rows rows t = (Ok tt, t').
Proof.
  unfold mark_rows. revert t. induction rows as [|r rows IH]; intros t Hr; cbn [for_each]; [by eexists|].
  destruct (Hr r) as [r0 Hr0]; [left|].
  unfold bind at 1, streams_mark_published, bind, now_unix_ms, query, gets. cbn [t_db]. rewrite Hr0, update_db_run.
  apply IH. intros r' Hin. simpl. destruct (decide (OutboxEventRow.event_id r' = OutboxEventRow.event_id r)) as [->|Hne].
  - rewrite lookup_insert_eq. eauto.
  - rewrite lookup_insert_ne by done. apply Hr. by right.
Qed.

Lemma mark_phase_run system epoch rows s :
  fenced epoch s.(ds_world).(w_db) ->
  (forall r, r ∈ rows -> is_Some (s.(ds_world).(w_db).(outbox_events) !! r.(OutboxEventRow.event_id))) ->
  exists s', mark_phase system epoch rows s = (Ok tt, s').
Proof.
  intros Hf Hr. unfold mark_phase. destruct rows as [|r rows]; [by eexists|].
  unfold on_world, bind at 1, write_context, with_write_txn, begin_write. cbn [w_db ctx_daemon_epoch w_ids w_clock].
  rewrite Hf. cbn [res_bind]. destruct (mark_rows_run (r :: rows) (mkTxn (w_db (ds_world s)) (mkTxContext epoch system
    (new_uuid_v7 (w_ids (ds_world s))) (Some ("outbox.dispatch." +:+ i64_to_string (clock_ms (w_clock (ds_world s))))))
    (S (w_ids (ds_world s))) (S (w_clock (ds_world s))))) as [t' Ht']; [done|].
  rewrite Ht'. eauto.
Qed.

(** Publication marks keep rows publishable and the fence as it was. *)
Lemma marks_publishable ids d d' : marks ids d d' -> publishable d -> publishable d'.
Proof.
  intros Hm Hpub id r' Hr'. apply (mk_rows _ _ _ Hm) in Hr' as (r & Hr & Hmr & _).
  destruct (Hpub _ _ Hr) as (k & Hk & Hwf & Hv). destruct (marked_same _ _ _ _ Hmr) as (Ek & Es & _ & Ee & _).
  exists k. rewrite Ek, Es, Ee. split; [done|]. split; [done|].
  destruct Hmr as [[_ ->]|[_ [ms ->]]]; done.
Qed.

Lemma marks_fenced ids d d' epoch : marks ids d d' -> fenced epoch d -> fenced epoch d'.
Proof. intros [[x ->] _ _]. done. Qed.

(** The backlog an iteration leaves. *)
Lemma marks_backlog d d' limit :
  outbox_ok d -> marks (OutboxEventRow.event_id <$> take limit (backlog d)) d d' ->
  backlog d' ≡ₚ drop limit (backlog d).
Proof.
  intros Hok Hm. pose proof (backlog_NoDup d Hok) as Hnd. rewrite <- (take_drop limit (backlog d)) in Hnd.
  apply list.NoDup_app in Hnd as (_ & Hdisj & Hnd).
  apply NoDup_Permutation; [by eapply backlog_NoDup, marks_outbox_ok|done|]. intros r'. split.
  - intros (id & Hr' & Hu)%elem_of_backlog. apply (mk_rows _ _ _ Hm) in Hr' as (r & Hr & Hmr & _).
    pose proof (marked_same _ _ _ _ Hmr) as (_ & _ & _ & _ & Hiff).
    destruct Hmr as [[Hni ->]|[Hin _]]; [|by rewrite (proj2 Hiff (or_intror Hin)) in Hu].
    assert (Hb : r ∈ backlog d) by (apply elem_of_backlog; eauto).
    rewrite <- (take_drop limit (backlog d)) in Hb. apply elem_of_app in Hb as [Hb|Hb]; [|done].
    exfalso. apply Hni, list_elem_of_fmap. exists r. split; [by rewrite (ob_id _ Hok _ _ Hr)|done].
  - intros Hin. assert (Hb : r' ∈ backlog d) by (rewrite <- (take_drop limit); apply elem_of_app; by right).
    destruct (backlog_row d r' Hok Hb) as (Hr & Hu & _).
    destruct (mk_kept _ _ _ Hm _ _ Hr) as (r2 & Hr2 & [[_ ->]|[Hin2 _]]).
    + apply elem_of_backlog. eauto.
    + exfalso. apply list_elem_of_fmap in Hin2 as (r3 & Hid & Hin3).
      destruct (backlog_row d r3 Hok (take_in_backlog _ _ _ Hin3)) as (Hr3 & _). rewrite <- Hid, Hr in Hr3.
      injection Hr3 as <-. by apply (Hdisj r').
Qed.

Lemma dispatch_once_run system limit epoch s :
  pipeline_ok s -> publishable s.(ds_world).(w_db) -> fenced epoch s.(ds_world).(w_db) ->
  (forall n, inject n = false) -> Z.of_nat limit <= u32_max ->
  let n := Nat.min limit (length (backlog s.(ds_world).(w_db))) in
  exists s', dispatch_once system limit epoch s = (Ok (mkOutcome (Z.of_nat n) (Z.of_nat n) 0), s') /\
    pipeline_ok s' /\ publishable s'.(ds_world).(w_db) /\ fenced epoch s'.(ds_world).(w_db) /\
    backlog s'.(ds_world).(w_db) ≡ₚ drop limit (backlog s.(ds_world).(w_db)).
Proof.
  intros [Hok Hm] Hpub Hf Hnf Hlim n. set (d := w_db (ds_world s)) in *. set (rows := take limit (backlog d)) in *.
  destruct (scan_run system limit epoch (ds_world s)) as (w1 & Hscan & Hd1); [done..|]. fold d rows in Hscan, Hd1.
  destruct (group_loop_total rows []) as [out Hout].
  { intros r Hr. destruct (backlog_row d r Hok (take_in_backlog _ _ _ Hr)) as (Hid & _). destruct (Hpub _ _ Hid) as (k & -> & _). done. }
  assert (Hg : group_rows rows = Ok (reverse out)) by (unfold group_rows; by rewrite Hout).
  set (groups := reverse out) in *. pose proof (group_rows_spec _ _ Hg) as [Hu Hf2].
  assert (Hlen : length (concat groups.*2) = n).
  { rewrite <- (Forall2_length Hf2). unfold rows, n. apply length_take. }
  assert (Hbatch : forall k b, (k, b) ∈ groups -> batch_of d k b).
  { intros k b Hin e He. destruct (grouped_envelope d rows groups k b e Hok (take_in_backlog limit d) Hg Hin He)
      as (r & Hr & _ & _ & -> & Henv & Hge). split; [done|]. split; [done|]. simpl.
    destruct (backlog_row d r Hok (take_in_backlog _ _ _ Hr)) as (Hid & _). by destruct (Hpub _ _ Hid) as (_ & _ & _ & _ & ?). }
  set (s1 := mkDispatch w1 (ds_journal s) (ds_live s) (ds_faults s)).
  destruct (journal_groups_run d (ds_journal s) (concat groups.*2) [] groups s1) as [s2 Hs2]; try done.
  { by eapply scanned_feedable. }
  { rewrite Hlen. lia. }
  { by intros e ?%elem_of_nil. }
  destruct (journal_groups_spec d groups s1 _ s2 Hbatch Hm Hs2) as [(Hw & _ & _) _]. simpl in Hw.
  destruct (mark_phase_run system epoch rows s2) as [s3 Hs3].
  { by rewrite Hw, Hd1. }
  { intros r Hr. rewrite Hw, Hd1. destruct (backlog_row d r Hok (take_in_backlog _ _ _ Hr)) as (Hid & _). eauto. }
  destruct (mark_phase_spec system epoch rows s2 _ s3 ltac:(by rewrite Hw, Hd1) Hs3) as (_ & _ & [(e & ? & _)|[_ Hmk]]); [done|].
  rewrite Hw, Hd1 in Hmk.
  assert (Hrun : dispatch_once system limit epoch s =
    (Ok (mkOutcome (Z.of_nat n) (Z.of_nat n) 0), mkDispatch (ds_world s3) (ds_journal s3) (ds_live s3 ++ concat groups.*2) (ds_faults s3))).
  { unfold dispatch_once, bind at 1, on_world at 1. rewrite Hscan. fold s1. unfold bind at 1, lift_res. rewrite Hg.
    unfold bind at 1. rewrite Hs2. unfold bind at 1. rewrite Hs3. unfold bind. rewrite live_publish_all. unfold ret.
    rewrite Hlen. unfold rows. rewrite length_take. fold n. by rewrite Nat.sub_diag. }
  eexists. split; [exact Hrun|]. simpl. split_and!.
  - eapply dispatch_once_spec; [|exact Hrun]. done.
  - by eapply marks_publishable.
  - by eapply marks_fenced.
  - by eapply marks_backlog.
Qed.
End Progress.

(** ** Draining *)

Section Drain.
Context `{!Ext} `{!EnvelopeCodec} `{!Faults} `{!WireCodec}.

(** Consecutive iterations, as the outbox worker runs them. *)
Fixpoint dispatch_times (times : nat) (system : PrincipalId) (limit : nat) (epoch : Z) : ST DispatchState unit :=
  match times with
  | O => ret tt
  | S times => do! dispatch_once system limit epoch in dispatch_times times system limit epoch
  end.

Lemma dispatch_times_run times system limit epoch s :
  pipeline_ok s -> publishable s.(ds_world).(w_db) -> fenced epoch s.(ds_world).(w_db) ->
  (forall n, inject n = false) -> Z.of_nat limit <= u32_max ->
  exists s', dispatch_times times system limit epoch s = (Ok tt, s') /\ pipeline_ok s' /\
    (length (backlog s'.(ds_world).(w_db)) = length (backlog s.(ds_world).(w_db)) - times * limit)%nat.
Proof.
  intros Hok Hpub Hf Hnf Hlim. revert s Hok Hpub Hf. induction times as [|times IH]; intros s Hok Hpub Hf.
  { exists s. split; [done|]. split; [done|]. lia. }
  destruct (dispatch_once_run system limit epoch s Hok Hpub Hf Hnf Hlim) as (s1 & E1 & Hok1 & Hpub1 & Hf1 & Hb1).
  destruct (IH s1 Hok1 Hpub1 Hf1) as (s2 & E2 & Hok2 & Hb2). exists s2.
  cbn [dispatch_times]. unfold bind. rewrite E1. split; [done|]. split; [done|].
  rewrite Hb2, Hb1, length_drop, Nat.mul_succ_l. lia.
Qed.

(** With an empty backlog the journal has every committed event. *)
Lemma drained_complete s key :
  pipeline_ok s -> backlog s.(ds_world).(w_db) = [] ->
  stream_max key s.(ds_journal) = stream_head s.(ds_world).(w_db) key.
Proof.
  intros [Hok Hm] Hb. destruct (stream_max_spec key _ (mi_wf _ _ Hm)) as [Hge Hmax].
  pose proof (ob_head _ Hok key) as Hh. set (d := w_db (ds_world s)) in *.
  assert (Hall : forall m, 1 <= m <= stream_head d key -> is_Some (ds_journal s !! (key, m))).
  { intros m Hm'. destruct (ob_dense _ Hok key m Hm') as (id & r & Hp). apply (mi_marked _ _ Hm _ _ _ _ Hp).
    apply not_true_is_false. intros Hu. assert (Hin : r ∈ backlog d) by (apply elem_of_backlog; exists id; by destruct Hp).
    rewrite Hb in Hin. by apply elem_of_nil in Hin. }
  apply Z.le_antisymm.
  - destruct (decide (stream_max key (ds_journal s) = 0)); [lia|].
    assert (is_Some (ds_journal s !! (key, stream_max key (ds_journal s)))) as [row Hrow] by (apply Hmax; lia).
    destruct (mi_rows _ _ Hm _ _ _ Hrow) as (k & e & Hk & Hn & (id & r & Hp & _) & _).
    pose proof (ob_bound _ Hok _ _ _ _ Hp) as Hbd. rewrite Hk, Hn in Hbd. lia.
  - destruct (decide (stream_head d key = 0)); [lia|]. pose proof (proj1 (Hmax (stream_head d key)) (Hall (stream_head d key) ltac:(lia))). lia.
Qed.

(** C8: While the daemon holds its fence and no fault fires, enough iterations
    drain the outbox: each one succeeds and publishes up to its limit, whatever
    an interrupted iteration left behind, and at the end every stream of the
    journal reaches the stream's head in the kernel. *)
Theorem dispatch_drains_backlog times system limit epoch s :
  pipeline_ok s -> publishable s.(ds_world).(w_db) -> fenced epoch s.(ds_world).(w_db) ->
  (forall n, inject n = false) -> Z.of_nat limit <= u32_max ->
  (length (backlog s.(ds_world).(w_db)) <= times * limit)%nat ->
  exists s', dispatch_times times system limit epoch s = (Ok tt, s') /\
    backlog s'.(ds_world).(w_db) = [] /\
    forall key, stream_max key s'.(ds_journal) = stream_head s'.(ds_world).(w_db) key.
Proof.
  intros Hok Hpub Hf Hnf Hlim Hle.
  destruct (dispatch_times_run times system limit epoch s Hok Hpub Hf Hnf Hlim) as (s' & E & Hok' & Hb).
  assert (Hnil : backlog (w_db (ds_world s')) = []) by (apply nil_length_inv; rewrite Hb; apply Nat.sub_0_le; exact Hle).
  exists s'. split; [done|]. split; [done|]. intros key. by apply drained_complete.
Qed.
End Drain.
