(* ===== verification/Runs.v ===== *)
(** * The run state machine ([runtime/src/state.rs], [run.rs], [domain/src/run.rs])

    The normative transition table, the revisioned [transition] service and the
    relation every service keeps between the run rows before and after it ran:
    rows are never lost, their identity columns never change, every change
    raises the revision, the state only moves along the table, the epochs and
    the step counter never go back, and a bound environment is final.  The
    relation is stated on the whole table together with its invariant, and is
    ensured by a compare-and-set whose patch satisfies a row-level condition. *)

From S2P Require Import Prelude Domain Ids Models StoreBase Store Events.

Open Scope string_scope.
Open Scope Z_scope.

(** ** The table *)

Definition REASON_COMPLETED : string := "completed".
Definition REASON_FAILED : string := "failed".
Definition REASON_CANCELLED : string := "cancelled".
Definition REASON_CANCELLATION_REQUESTED : string := "cancellation_requested".

(** [runtime::state::allows]. *)
Definition allows (from to : RunState) : bool :=
  match from, to with
  | RunState.Created, RunState.Ready
  | RunState.Created, RunState.Cancelled
  | RunState.Ready, RunState.Running
  | RunState.Ready, RunState.Cancelled
  | RunState.Running, RunState.WaitingTool
  | RunState.Running, RunState.WaitingChild
  | RunState.Running, RunState.WaitingHuman
  | RunState.Running, RunState.Suspended
  | RunState.Running, RunState.Cancelling
  | RunState.Running, RunState.Completed
  | RunState.Running, RunState.Failed
  | RunState.WaitingTool, RunState.Running
  | RunState.WaitingTool, RunState.Cancelling
  | RunState.WaitingTool, RunState.Failed
  | RunState.WaitingChild, RunState.Running
  | RunState.WaitingChild, RunState.Cancelling
  | RunState.WaitingChild, RunState.Failed
  | RunState.WaitingHuman, RunState.Running
  | RunState.WaitingHuman, RunState.Cancelling
  | RunState.WaitingHuman, RunState.Failed
  | RunState.Suspended, RunState.Running
  | RunState.Suspended, RunState.Cancelling
  | RunState.Suspended, RunState.Failed
  | RunState.Cancelling, RunState.Cancelled
  | RunState.Cancelling, RunState.Failed => true
  | _, _ => false
  end.

(** [RunState::is_terminal]. *)
Definition run_is_terminal (s : RunState) : bool :=
  match s with
  | RunState.Completed | RunState.Failed | RunState.Cancelled => true
  | _ => false
  end.

(** [RunState::cancellation_target]. *)
Definition cancellation_target (s : RunState) : option RunState :=
  match s with
  | RunState.Created | RunState.Ready => Some RunState.Cancelled
  | RunState.Running | RunState.WaitingTool | RunState.WaitingChild
  | RunState.WaitingHuman | RunState.Suspended => Some RunState.Cancelling
  | RunState.Unspecified | RunState.Cancelling | RunState.Completed
  | RunState.Failed | RunState.Cancelled => None
  end.

(** ** Transition ([run.rs]) *)

Definition terminal_reason (to : RunState) (reason : option string) : option string :=
  match to with
  | RunState.Completed => Some (from_option (fun r => r) REASON_COMPLETED reason)
  | RunState.Failed => Some (from_option (fun r => r) REASON_FAILED reason)
  | RunState.Cancelled => Some (from_option (fun r => r) REASON_CANCELLED reason)
  | _ => None
  end.

(** The patches the services build from [RunPatch::default()]. *)
Definition state_patch (to : RunState) (reason : option string) : RunPatch := {|
  RunPatch.state := Some to;
  RunPatch.recovery := None;
  RunPatch.loop_epoch := None;
  RunPatch.step_sequence := None;
  RunPatch.input_event_cursor := None;
  RunPatch.cancellation_epoch := None;
  RunPatch.resolved_environment_id := None;
  RunPatch.claim := None;
  RunPatch.terminal_reason := reason;
  RunPatch.output_ref := None;
  RunPatch.current_turn_id := None;
  RunPatch.bump_revision := true |}.

Definition transition (run_id : RunId) (expect_revision : Z) (to : RunState)
    (reason : option string) : M RunRow :=
  let! got := runs_get run_id in
  let! current := lift_res (ok_or got (kerr NotFound "run does not exist")) in
  guard! allows current.(RunRow.state) to
    else kerr Conflict "run state transition is not permitted" in
  guard! bool_decide (current.(RunRow.run_revision) = expect_revision)
    else kerr Conflict "run revision does not match" in
  let! updated := runs_cas_update run_id
    (RunCas.mk expect_revision (Some current.(RunRow.state)) None)
    (state_patch to (terminal_reason to reason)) in
  guard! updated else kerr Conflict "run transition lost a revision race" in
  let! after := runs_get run_id in
  lift_res (ok_or after (kerr Internal "run vanished after transition")).

(** The [AgentRun] snapshot every service stages for a changed run
    ([run_payload] of [claim.rs], [cancel.rs], [bind.rs], [recovery.rs] and
    [cancellation.rs]). *)
Definition run_payload `{!Ext} (row : RunRow) : AgentRunMsg := {|
  ar_run_id := uuid_hyphenated row.(RunRow.run_id);
  ar_task_id := uuid_hyphenated row.(RunRow.task_id);
  ar_session_id := opt_id_text row.(RunRow.session_id);
  ar_parent_run_id := opt_id_text row.(RunRow.parent_run_id);
  ar_state := to_wire row.(RunRow.state);
  ar_recovery := to_wire row.(RunRow.recovery);
  ar_run_revision := row.(RunRow.run_revision);
  ar_loop_epoch := row.(RunRow.loop_epoch);
  ar_step_sequence := row.(RunRow.step_sequence);
  ar_input_event_cursor := cursor_to_string row.(RunRow.input_event_cursor);
  ar_cancellation_epoch := row.(RunRow.cancellation_epoch);
  ar_resolved_environment_id := opt_id_text row.(RunRow.resolved_environment_id);
  ar_output_ref := from_option (fun s => s) "" row.(RunRow.output_ref);
  ar_current_turn_id := opt_id_text row.(RunRow.current_turn_id) |}.

(** ** How a run row evolves *)

Definition allowed (a b : RunState) : Prop := allows a b = true.

(** The columns no statement ever writes after the INSERT. *)
Definition run_identity (r : RunRow) :=
  (r.(RunRow.run_id), r.(RunRow.task_id), r.(RunRow.session_id), r.(RunRow.parent_run_id),
   r.(RunRow.agent_spec_id), r.(RunRow.agent_spec_version), r.(RunRow.agent_spec_digest),
   r.(RunRow.requested_profile), r.(RunRow.workspace_uri), r.(RunRow.created_at_ms)).

Record run_evolves (r r' : RunRow) : Prop := {
  re_identity : run_identity r' = run_identity r;
  re_revision : r' = r \/ r.(RunRow.run_revision) < r'.(RunRow.run_revision);
  re_state : rtc allowed r.(RunRow.state) r'.(RunRow.state);
  re_cancel : r.(RunRow.cancellation_epoch) <= r'.(RunRow.cancellation_epoch);
  re_loop : r.(RunRow.loop_epoch) <= r'.(RunRow.loop_epoch);
  re_step : r.(RunRow.step_sequence) <= r'.(RunRow.step_sequence);
  re_env : forall e, r.(RunRow.resolved_environment_id) = Some e ->
                     r'.(RunRow.resolved_environment_id) = Some e }.

#[export] Instance run_evolves_preorder : PreOrder run_evolves.
Proof.
  split.
  - intros r. split; try done; try lia. by left.
  - intros r1 r2 r3 [I1 V1 S1 C1 L1 P1 E1] [I2 V2 S2 C2 L2 P2 E2]. split; try lia.
    + congruence.
    + destruct V1 as [->|?], V2 as [->|?]; auto. right. lia.
    + by transitivity (RunRow.state r2).
    + auto.
Qed.

(** Terminal states have no way out of the table. *)
Lemma allows_terminal a b : run_is_terminal a = true -> allows a b = false.
Proof. destruct a; try done; destruct b; done. Qed.

Lemma terminal_absorbing a b : run_is_terminal a = true -> rtc allowed a b -> b = a.
Proof.
  intros Ht Hr. destruct Hr as [|x y z Hxy _]; [done|].
  unfold allowed in Hxy. by rewrite allows_terminal in Hxy.
Qed.

(** ** The invariant of the run and turn tables *)

(** A turn row never runs ahead of its run, and while the run is still at the
    turn's revision it is [Running]. *)
Definition turn_fenced (d : Db) (t : LoopTurnRow) : Prop :=
  exists r, d.(runs) !! t.(LoopTurnRow.run_id) = Some r /\
    t.(LoopTurnRow.run_revision) <= r.(RunRow.run_revision) /\
    (t.(LoopTurnRow.run_revision) = r.(RunRow.run_revision) ->
     r.(RunRow.state) = RunState.Running).

Record runs_inv (d : Db) : Prop := {
  ri_key : forall id r, d.(runs) !! id = Some r -> r.(RunRow.run_id) = id;
  ri_state : forall id r, d.(runs) !! id = Some r -> r.(RunRow.state) <> RunState.Unspecified;
  ri_parent : forall id r p, d.(runs) !! id = Some r -> r.(RunRow.parent_run_id) = Some p ->
    is_Some (d.(runs) !! p);
  ri_forest : exists rank : RunId -> nat, forall id r p,
    d.(runs) !! id = Some r -> r.(RunRow.parent_run_id) = Some p -> (rank p < rank id)%nat;
  ri_turn : forall id t, d.(loop_turns) !! id = Some t -> turn_fenced d t }.

Definition runs_evolve (d d' : Db) : Prop :=
  forall id r, d.(runs) !! id = Some r ->
    exists r', d'.(runs) !! id = Some r' /\ run_evolves r r'.

Definition runs_rel (d d' : Db) : Prop := runs_inv d -> runs_inv d' /\ runs_evolve d d'.

#[export] Instance runs_rel_preorder : PreOrder runs_rel.
Proof.
  split.
  - intros d H. split; [done|]. intros id r Hr. exists r. split; [done|reflexivity].
  - intros d1 d2 d3 H12 H23 H1. destruct (H12 H1) as [H2 E12]. destruct (H23 H2) as [H3 E23].
    split; [done|]. intros id r Hr. destruct (E12 _ _ Hr) as (r2 & Hr2 & E2).
    destruct (E23 _ _ Hr2) as (r3 & Hr3 & E3). exists r3. split; [done|by transitivity r2].
Qed.

(** The relation may be proved assuming the invariant. *)
Lemma runs_rel_assume d d' : (runs_inv d -> runs_rel d d') -> runs_rel d d'.
Proof. intros Hr Hi. by apply Hr. Qed.

Lemma runs_rel_frame d d' :
  d.(runs) = d'.(runs) -> d.(loop_turns) = d'.(loop_turns) -> runs_rel d d'.
Proof.
  intros E1 E2 [H1 H2 H3 H4 H5]. split.
  - split; unfold turn_fenced in *; rewrite <- ?E1, <- ?E2; eauto.
  - intros id r Hr. rewrite <- E1. exists r. split; [done|reflexivity].
Qed.

#[export] Hint Extern 1 (runs_rel _ _) => apply runs_rel_frame; reflexivity : frame.

(** A service that leaves the run table alone. *)
Definition runs_same (d d' : Db) : Prop := d'.(runs) = d.(runs).

#[export] Instance runs_same_preorder : PreOrder runs_same.
Proof. split; [by intros ?|]. intros d1 d2 d3 E1 E2. unfold runs_same in *. congruence. Qed.
#[export] Hint Extern 1 (runs_same _ _) => reflexivity : frame.

(** ** Compare-and-set on a run *)

Definition put_run (id : RunId) (r : RunRow) (d : Db) : Db := set_runs (<[id := r]> d.(runs)) d.

Lemma runs_get_inv id t o t' :
  runs_get id t = (Ok o, t') ->
  t' = t /\ o = t.(t_db).(runs) !! id /\ (forall r, o = Some r -> decode_run r = Ok r).
Proof.
  unfold runs_get. intros E. inv_run. rename select (opt_traverse _ _ = _) into H0.
  destruct (runs (t_db t') !! id) as [r|] eqn:Hr; simpl in *.
  - destruct (decode_run r) as [r1|e] eqn:D; simpl in *; [|done]. injection H0 as <-.
    assert (r1 = r) as -> by (unfold decode_run in D; inv_ok; done).
    split; [done|]. split; [done|]. by intros ? [= <-].
  - injection H0 as <-. done.
Qed.

(** The integer columns of a row that decodes are in range. *)
Lemma decode_run_ok r : decode_run r = Ok r ->
  0 <= r.(RunRow.run_revision) <= i64_max /\ 0 <= r.(RunRow.loop_epoch) <= i64_max /\
  0 <= r.(RunRow.step_sequence) <= i64_max /\ 0 <= r.(RunRow.cancellation_epoch) <= i64_max.
Proof.
  unfold decode_run. intros E. inv_ok.
  repeat match goal with H : u64_column _ _ _ = _ |- _ => apply u64_column_ok in H as [_ ?] end.
  done.
Qed.

Lemma run_cas_matches_inv e r :
  run_cas_matches e r = true ->
  r.(RunRow.run_revision) = e.(RunCas.run_revision) /\
  (forall s, e.(RunCas.state) = Some s -> r.(RunRow.state) = s) /\
  (forall c, e.(RunCas.cancellation_epoch) = Some c -> r.(RunRow.cancellation_epoch) = c).
Proof.
  unfold run_cas_matches. rewrite !andb_true_iff, bool_decide_eq_true. intros [[H1 H2] H3].
  split; [done|]. split; [intros s E; rewrite E in H2|intros c E; rewrite E in H3];
    by apply bool_decide_eq_true in H2 || apply bool_decide_eq_true in H3.
Qed.

(** A compare-and-set either finds the row it expects and patches it, or
    changes nothing. *)
Lemma runs_cas_update_inv id e p t b t' :
  runs_cas_update id e p t = (Ok b, t') ->
  (b = true /\ exists r, t.(t_db).(runs) !! id = Some r /\ run_cas_matches e r = true /\
     run_checks (apply_run_patch p r).(RunRow.state) (apply_run_patch p r).(RunRow.recovery) = true /\
     t' = set_db (put_run id (apply_run_patch p r) t.(t_db)) t) \/
  (b = false /\ t' = t /\
     forall r, t.(t_db).(runs) !! id = Some r -> run_cas_matches e r = false).
Proof.
  unfold runs_cas_update. intros E. inv_store.
  - left. split; [done|]. eexists. repeat split; eauto.
  - right. split; [done|]. split; [done|]. intros ? [= <-]. done.
  - right. done.
Qed.

Lemma allowed_specified a b : rtc allowed a b -> a <> RunState.Unspecified -> b <> RunState.Unspecified.
Proof.
  intros H Ha. apply rtc_inv_r in H as [->|(c & _ & H)]; [done|].
  intros ->. unfold allowed in H. by destruct c.
Qed.

Lemma put_run_rel id r r' d :
  d.(runs) !! id = Some r -> run_evolves r r' ->
  r.(RunRow.run_revision) < r'.(RunRow.run_revision) -> runs_rel d (put_run id r' d).
Proof.
  intros Hr Hev Hlt [H1 H2 H3 H4 H5]. pose proof Hev as [I _ S _ _ _ _].
  assert (Hid : forall i x, runs (put_run id r' d) !! i = Some x ->
     (i = id /\ x = r') \/ (i <> id /\ runs d !! i = Some x)).
  { intros i x Hx. simpl in Hx. apply lookup_insert_Some in Hx as [[<- <-]|[? ?]]; auto. }
  assert (Hsome : forall i, is_Some (runs d !! i) -> is_Some (runs (put_run id r' d) !! i)).
  { intros i [x Hx]. simpl. destruct (decide (id = i)) as [->|].
    - rewrite lookup_insert_eq. eauto.
    - rewrite lookup_insert_ne by done. eauto. }
  injection I as Ir _ _ Ip _ _ _ _ _ _.
  split; [split|].
  - intros i x [[-> ->]|[_ Hx]]%Hid; [rewrite Ir|]; eauto.
  - intros i x [[-> ->]|[_ Hx]]%Hid; [eapply allowed_specified|]; eauto.
  - intros i x p [[-> ->]|[_ Hx]]%Hid Hp; apply Hsome; [rewrite Ip in Hp|]; eauto.
  - destruct H4 as [rank Hrank]. exists rank.
    intros i x p [[-> ->]|[_ Hx]]%Hid Hp; [rewrite Ip in Hp|]; eauto.
  - intros i t Ht. destruct (H5 i t Ht) as (x & Hx & Hle & Hrun). unfold turn_fenced. simpl.
    destruct (decide (id = t.(LoopTurnRow.run_id))) as [->|Hne].
    + rewrite Hr in Hx. injection Hx as <-. exists r'. rewrite lookup_insert_eq.
      split; [done|]. split; [lia|]. lia.
    + exists x. rewrite lookup_insert_ne by done. done.
  - intros i x Hx. simpl. destruct (decide (id = i)) as [->|Hne].
    + rewrite Hr in Hx. injection Hx as <-. exists r'. by rewrite lookup_insert_eq.
    + exists x. rewrite lookup_insert_ne by done. split; [done|reflexivity].
Qed.

(** The row-level condition under which a compare-and-set keeps the relation. *)
Definition sound_patch (e : RunCas) (p : RunPatch) : Prop :=
  p.(RunPatch.bump_revision) = true /\
  forall r, run_cas_matches e r = true -> run_evolves r (apply_run_patch p r).

Lemma apply_bump p r :
  p.(RunPatch.bump_revision) = true ->
  (apply_run_patch p r).(RunRow.run_revision) = r.(RunRow.run_revision) + 1.
Proof. intros H. simpl. by rewrite H. Qed.

Lemma runs_cas_update_runs id e p :
  sound_patch e p -> ensures (on_db runs_rel) (runs_cas_update id e p).
Proof.
  intros [Hb Hev] t b t' E.
  apply runs_cas_update_inv in E as [(-> & r & Hr & Hm & _ & ->)|(-> & -> & _)].
  - split; [|done]. simpl. eapply put_run_rel; eauto. rewrite (apply_bump p r Hb). lia.
  - reflexivity.
Qed.

(** A bumping patch evolves the row when each column it sets is sound. *)
Lemma apply_run_patch_evolves p r :
  p.(RunPatch.bump_revision) = true ->
  (forall s, p.(RunPatch.state) = Some s -> rtc allowed r.(RunRow.state) s) ->
  (forall c, p.(RunPatch.cancellation_epoch) = Some c -> r.(RunRow.cancellation_epoch) <= c) ->
  (forall c, p.(RunPatch.loop_epoch) = Some c -> r.(RunRow.loop_epoch) <= c) ->
  (forall c, p.(RunPatch.step_sequence) = Some c -> r.(RunRow.step_sequence) <= c) ->
  (forall e, p.(RunPatch.resolved_environment_id) = Some e ->
     r.(RunRow.resolved_environment_id) = None \/ r.(RunRow.resolved_environment_id) = Some e) ->
  run_evolves r (apply_run_patch p r).
Proof.
  intros Hb Hs Hc Hl Hp He. split; [done|..].
  - right. rewrite apply_bump by done. lia.
  - simpl. destruct (RunPatch.state p); simpl; [auto|reflexivity].
  - simpl. destruct (RunPatch.cancellation_epoch p); simpl; [auto|lia].
  - simpl. destruct (RunPatch.loop_epoch p); simpl; [auto|lia].
  - simpl. destruct (RunPatch.step_sequence p); simpl; [auto|lia].
  - intros e Hr. simpl. destruct (RunPatch.resolved_environment_id p) as [e'|]; simpl; [|done].
    destruct (He e' eq_refl); congruence.
Qed.

Lemma state_patch_sound rev from to reason epoch :
  allows from to = true -> sound_patch (RunCas.mk rev (Some from) epoch) (state_patch to reason).
Proof.
  intros Ha. split; [done|]. intros r Hm. apply run_cas_matches_inv in Hm as (_ & Hs & _).
  apply apply_run_patch_evolves; simpl; try done. intros s [= <-].
  rewrite (Hs from eq_refl). by apply rtc_once.
Qed.

Lemma transition_runs id rev to reason : ensures (on_db runs_rel) (transition id rev to reason).
Proof.
  unfold transition.
  solve_ensures. by apply runs_cas_update_runs, state_patch_sound.
Qed.
#[export] Hint Resolve transition_runs : ensures.

(** ** A new run *)

Lemma new_run_rel r d :
  d.(runs) !! r.(RunRow.run_id) = None -> r.(RunRow.state) <> RunState.Unspecified ->
  (forall p, r.(RunRow.parent_run_id) = Some p -> is_Some (d.(runs) !! p)) ->
  runs_rel d (put_run r.(RunRow.run_id) r d).
Proof.
  intros Hnew Hst Hpar [H1 H2 H3 [rank H4] H5]. set (id := r.(RunRow.run_id)) in *.
  assert (Hne : forall i, is_Some (d.(runs) !! i) -> i <> id) by (intros i [y Hy] ->; congruence).
  assert (Hsome : forall i, is_Some (runs d !! i) -> is_Some (runs (put_run id r d) !! i)).
  { intros i Hi. simpl. rewrite lookup_insert_ne; [done|]. by apply not_eq_sym, Hne. }
  split; [split|]; simpl.
  - intros i y [[<- <-]|[_ Hy]]%lookup_insert_Some; eauto.
  - intros i y [[<- <-]|[_ Hy]]%lookup_insert_Some; eauto.
  - intros i y p [[<- <-]|[_ Hy]]%lookup_insert_Some Hp; apply Hsome; eauto.
  - exists (fun i => if decide (i = id) then S (from_option rank 0%nat r.(RunRow.parent_run_id)) else rank i).
    intros i y p Hy Hp. apply lookup_insert_Some in Hy as [[<- <-]|[Hi Hy]].
    + rewrite (decide_True _ _ eq_refl). rewrite decide_False by (apply Hne; eauto).
      rewrite Hp. simpl. lia.
    + rewrite !decide_False by (done || (apply Hne; eauto)). eauto.
  - intros i t Ht. destruct (H5 i t Ht) as (y & Hy & Hrest). exists y. simpl.
    rewrite lookup_insert_ne by (apply not_eq_sym, Hne; eauto). done.
  - intros i y Hy. exists y. simpl. rewrite lookup_insert_ne by (apply not_eq_sym, Hne; eauto).
    split; [done|reflexivity].
Qed.

(** ** What [transition] does *)

(** The row a transition leaves. *)
Definition moved (to : RunState) (reason : option string) (r : RunRow) : RunRow :=
  apply_run_patch (state_patch to (terminal_reason to reason)) r.

Lemma transition_inv id rev to reason t row t' :
  transition id rev to reason t = (Ok row, t') ->
  exists r, t.(t_db).(runs) !! id = Some r /\ decode_run r = Ok r /\
    allows r.(RunRow.state) to = true /\ r.(RunRow.run_revision) = rev /\
    row = moved to reason r /\ t' = set_db (put_run id row t.(t_db)) t.
Proof.
  unfold transition. intros E. apply bind_ok_inv in E as (o & t1 & (-> & -> & D)%runs_get_inv & E).
  apply bind_ok_inv in E as (r & t2 & Er & E). inv_ok. rename select (_ !! id = Some r) into Hr.
  destruct (allows _ to) eqn:Ha; [|inv_ok]. case_bool_decide as Hrev; [|inv_ok].
  apply bind_ok_inv in E as (b & t3 & Ec & E).
  apply runs_cas_update_inv in Ec as [(-> & r1 & Hr1 & _ & _ & ->)|(-> & -> & _)]; [|inv_ok].
  rewrite Hr in Hr1. injection Hr1 as <-.
  apply bind_ok_inv in E as (o & t4 & (-> & -> & _)%runs_get_inv & E). inv_ok.
  rename select (_ !! id = Some row) into Hrow. simpl in Hrow. rewrite lookup_insert_eq in Hrow.
  injection Hrow as <-. eauto 10.
Qed.

(** [transition] moves a run exactly along the normative table: it
    succeeds only from the state it read, to a state the table allows and at
    the expected revision; then that run's row is in the target state one
    revision later with the reason of a terminal state, every other table and
    run is untouched, and from a terminal state it never succeeds. *)
Theorem transition_follows_table id rev to reason t row t' :
  transition id rev to reason t = (Ok row, t') ->
  (exists r, t.(t_db).(runs) !! id = Some r /\
     allows r.(RunRow.state) to = true /\ run_is_terminal r.(RunRow.state) = false /\
     r.(RunRow.run_revision) = rev /\
     row.(RunRow.state) = to /\ row.(RunRow.run_revision) = rev + 1 /\
     run_identity row = run_identity r /\
     row.(RunRow.terminal_reason) = coalesce_opt (terminal_reason to reason) r.(RunRow.terminal_reason)) /\
  t'.(t_db) = set_runs (<[id := row]> t.(t_db).(runs)) t.(t_db).
Proof.
  intros (r & Hr & _ & Ha & Hrev & -> & ->)%transition_inv. split; [|done].
  exists r. repeat split; simpl; try done; [|by rewrite Hrev].
  destruct (run_is_terminal (RunRow.state r)) eqn:Ht; [|done]. by rewrite allows_terminal in Ha.
Qed.

(** Every refusal of [transition] on a readable run is the right one, and
    changes nothing: an unknown run is not found, a pair outside the table and
    a stale revision are conflicts. *)
Theorem transition_refuses id rev to reason t :
  (t.(t_db).(runs) !! id = None ->
     transition id rev to reason t = (Err (kerr NotFound "run does not exist"), t)) /\
  (forall r, t.(t_db).(runs) !! id = Some r -> decode_run r = Ok r ->
     (allows r.(RunRow.state) to = false ->
        transition id rev to reason t = (Err (kerr Conflict "run state transition is not permitted"), t)) /\
     (allows r.(RunRow.state) to = true -> r.(RunRow.run_revision) <> rev ->
        transition id rev to reason t = (Err (kerr Conflict "run revision does not match"), t))).
Proof.
  assert (Hget : forall o, t.(t_db).(runs) !! id = o -> (forall r, o = Some r -> decode_run r = Ok r) ->
            runs_get id t = (Ok o, t)).
  { intros o Ho Hd. unfold runs_get, bind, query, gets, lift_res. rewrite Ho.
    destruct o as [r|]; simpl; [|done]. by rewrite (Hd r eq_refl). }
  split.
  - intros Hn. unfold transition. erewrite bind_step by (by apply Hget). reflexivity.
  - intros r Hr Hd.
    assert (Hstep : runs_get id t = (Ok (Some r), t)) by (apply Hget; [done|by intros ? [= <-]]).
    unfold transition. rewrite (bind_step _ _ _ _ _ Hstep). simpl.
    rewrite (bind_step _ _ _ r t eq_refl).
    split; intros Ha; rewrite Ha; [done|]. intros Hrev. by rewrite bool_decide_eq_false_2.
Qed.
