(* ===== verification/RunGraph.v ===== *)
(** * The run graph (crate [run-graph])

    Dependency edges and their readiness ([graph.rs], [readiness.rs],
    [repository.rs]), the walk of a run's descendants and the graph half of
    cancellation ([cancellation.rs]).  The recursive reachability query of the
    store is shown to decide reachability, so that an accepted edge never
    closes a cycle; the descendant walk, which keeps no visited set, is shown
    to terminate and to return every descendant exactly once. *)

From S2P Require Import Prelude Domain Ids Models StoreBase Store Events Runs.

Open Scope string_scope.
Open Scope Z_scope.

(** ** Reads ([repository.rs]) *)

Definition load_run (run_id : RunId) : M RunRow :=
  let! got := runs_get run_id in
  lift_res (ok_or got (kerr NotFound "run does not exist")).

Definition has_live_claim (run : RunRow) (now_ms : Z) : bool :=
  match run.(RunRow.claim_expires_ms) with Some e => now_ms <? e | None => false end.

Definition is_mutable_target (run : RunRow) (now_ms : Z) : bool :=
  bool_decide (run.(RunRow.state) = RunState.Created) ||
  (bool_decide (run.(RunRow.state) = RunState.Ready) && negb (has_live_claim run now_ms)).

Definition find_dependency (task : TaskId) (source target : RunId) : M (option RunDependencyRow) :=
  let! rows := graph_list_dependencies task in
  ret (List.find (same_endpoints source target) rows).

(** The loop of [descendants]: a breadth-first queue without a visited set.
    [fuel] bounds the number of dequeued runs. *)
Fixpoint descendants_loop (fuel : nat) (frontier ordered : list RunId) : M (list RunId) :=
  match frontier with
  | [] => ret ordered
  | current :: frontier =>
      match fuel with
      | O => raise (kerr Internal "descendant walk does not terminate")
      | S fuel =>
          let! children := runs_list_children current in
          let ids := RunRow.run_id <$> children in
          descendants_loop fuel (frontier ++ ids) (ordered ++ ids)
      end
  end.

Definition descendants (root : RunId) : M (list RunId) :=
  do! load_run root in
  let! bound := query (fun d => size d.(runs)) in
  descendants_loop bound [root] [].

(** ** Dependency edges ([graph.rs]) *)

Definition DEPENDENCY_ADDED : string := "DependencyAdded".

Section Graph.
Context `{!Ext}.

(** [stage_event]. *)
Definition stage_dependency_event (task_id : TaskId) (payload : bytes) : M unit :=
  let! stream := lift_res (stream_task task_id) in
  let! event_id := draw_uuid in
  do! stage_classified (kerr Internal "event type DependencyAdded has no catalog entry")
        (kerr Internal "catalogued stream key is not canonical")
        event_id DEPENDENCY_ADDED stream payload None None in
  ret tt.

Definition add_dependency (source target : RunId) (condition : DependencyCondition)
    (expected_revision now_ms : Z) : M unit :=
  guard! negb (bool_decide (condition = DependencyCondition.Unspecified))
    else kerr FailedPrecondition "dependency condition is unspecified" in
  let! source_row := load_run source in
  let! target_row := load_run target in
  guard! bool_decide (source_row.(RunRow.task_id) = target_row.(RunRow.task_id))
    else kerr FailedPrecondition "dependency endpoints belong to different tasks" in
  guard! is_mutable_target target_row now_ms
    else kerr FailedPrecondition "dependency target is not Created or unclaimed Ready" in
  let task_id := target_row.(RunRow.task_id) in
  let! got := graph_get_head task_id in
  let! head := lift_res (ok_or got (kerr NotFound "graph head missing for task")) in
  guard! bool_decide (head.(RunGraphHeadRow.graph_revision) = expected_revision)
    else kerr Conflict "graph revision does not match" in
  let! existing := find_dependency task_id source target in
  match existing with
  | Some row =>
      if bool_decide (row.(RunDependencyRow.dependency_condition) = condition) then ret tt
      else raise (kerr Conflict "duplicate run dependency has a different condition")
  | None =>
      let! dependency_id := draw_uuid in
      do! graph_insert_dependency
        (NewRunDependency.mk dependency_id task_id source target condition now_ms)
        expected_revision in
      stage_dependency_event task_id
        (encode_to_vec (MsgRunDependency (uuid_hyphenated dependency_id) (uuid_hyphenated task_id)
           (uuid_hyphenated source) (uuid_hyphenated target) (to_wire condition) expected_revision))
  end.

(** ** Readiness ([readiness.rs]) *)

Definition condition_met (condition : DependencyCondition) (source_state : RunState) : bool :=
  match condition with
  | DependencyCondition.CompletedSuccessfully => bool_decide (source_state = RunState.Completed)
  | DependencyCondition.AnyTerminal => run_is_terminal source_state
  | DependencyCondition.CompletedOrCancelled =>
      bool_decide (source_state = RunState.Completed) || bool_decide (source_state = RunState.Cancelled)
  | DependencyCondition.Unspecified => false
  end.

(** The loop over the edges into the target, which stops at the first unmet
    condition. *)
Fixpoint all_conditions_met (deps : list RunDependencyRow) : M bool :=
  match deps with
  | [] => ret true
  | dep :: deps =>
      let! source := load_run dep.(RunDependencyRow.source_run_id) in
      if condition_met dep.(RunDependencyRow.dependency_condition) source.(RunRow.state)
      then all_conditions_met deps
      else ret false
  end.

Definition dependencies_satisfied (target : RunId) : M bool :=
  let! target_row := load_run target in
  let! deps := graph_list_dependencies target_row.(RunRow.task_id) in
  all_conditions_met
    (List.filter (fun row => bool_decide (row.(RunDependencyRow.target_run_id) = target)) deps).

(** ** Subtree cancellation ([cancellation.rs]) *)

Definition CANCELLATION_EPOCH_ADVANCED : string := "CancellationEpochAdvanced".

Definition epoch_patch (epoch : Z) : RunPatch := {|
  RunPatch.state := None;
  RunPatch.recovery := None;
  RunPatch.loop_epoch := None;
  RunPatch.step_sequence := None;
  RunPatch.input_event_cursor := None;
  RunPatch.cancellation_epoch := Some epoch;
  RunPatch.resolved_environment_id := None;
  RunPatch.claim := None;
  RunPatch.terminal_reason := None;
  RunPatch.output_ref := None;
  RunPatch.current_turn_id := None;
  RunPatch.bump_revision := true |}.

Definition advance_epoch (root : RunRow) (expected_revision : Z) : M RunRow :=
  let! updated := runs_cas_update root.(RunRow.run_id)
    (RunCas.mk expected_revision (Some root.(RunRow.state)) (Some root.(RunRow.cancellation_epoch)))
    (epoch_patch (u64_saturating_add root.(RunRow.cancellation_epoch) 1)) in
  guard! updated else kerr Conflict "cancellation epoch advance lost a revision race" in
  let! got := runs_get root.(RunRow.run_id) in
  lift_res (ok_or got (kerr Internal "root run vanished after its epoch advance")).

Definition stage_epoch_event (root : RunRow) : M unit :=
  let! stream := lift_res (stream_run root.(RunRow.run_id)) in
  let! event_id := draw_uuid in
  do! stage_classified (kerr Internal "event type CancellationEpochAdvanced has no catalog entry")
        (kerr Internal "catalogued stream key is not canonical")
        event_id CANCELLATION_EPOCH_ADVANCED stream (encode_to_vec (MsgAgentRun (run_payload root)))
        None None in
  ret tt.

(** The loop over the descendants: those a cancellation request still moves. *)
Fixpoint eligible_descendants (ids : list RunId) : M (list RunId) :=
  match ids with
  | [] => ret []
  | id :: ids =>
      let! got := runs_get id in
      let! row := lift_res (ok_or got
        (kerr Internal "descendant vanished during the cancellation walk")) in
      let! rest := eligible_descendants ids in
      ret (match cancellation_target row.(RunRow.state) with Some _ => id :: rest | None => rest end)
  end.

Definition cancel_subtree (root : RunId) (expected_run_revision : option Z) : M (list RunId) :=
  let! root_row := load_run root in
  let expected := from_option (fun r => r) root_row.(RunRow.run_revision) expected_run_revision in
  let! advanced := advance_epoch root_row expected in
  do! stage_epoch_event advanced in
  let! below := descendants root in
  let! eligible := eligible_descendants below in
  ret (match cancellation_target advanced.(RunRow.state) with
       | Some _ => root :: eligible
       | None => eligible
       end).
End Graph.

(** ** The reachability query decides reachability *)

Definition edge (edges : list (RunId * RunId)) (x y : RunId) : Prop := (x, y) ∈ edges.

Section Reach.
Variable edges : list (RunId * RunId).
Variable from : RunId.

Abbreviation passes k := (Nat.iter k (reach_pass edges) {[ from ]}).
Abbreviation nodes := ({[ from ]} ∪ list_to_set (snd <$> edges) : gset RunId).

Lemma elem_of_reach_pass s y :
  y ∈ reach_pass edges s <-> y ∈ s \/ exists x, x ∈ s /\ edge edges x y.
Proof.
  unfold reach_pass, edge. rewrite elem_of_union, elem_of_list_to_set, list_elem_of_fmap. split.
  - intros [?|([x z] & -> & H)]; [by left|right]. apply list_elem_of_filter in H as [? ?]. eauto.
  - intros [?|(x & Hx & He)]; [by left|right]. exists (x, y).
    split; [done|]. by apply list_elem_of_filter.
Qed.

Lemma reach_pass_mono s : s ⊆ reach_pass edges s.
Proof. unfold reach_pass. set_solver. Qed.

Lemma passes_nodes k : passes k ⊆ nodes.
Proof.
  induction k as [|k IH]; simpl; [set_solver|].
  intros y [H|(x & _ & H)]%elem_of_reach_pass; [set_solver|].
  apply elem_of_union_r, elem_of_list_to_set, list_elem_of_fmap. by exists (x, y).
Qed.

Lemma passes_sound k y : y ∈ passes k -> rtc (edge edges) from y.
Proof.
  revert y. induction k as [|k IH]; simpl; intros y Hy.
  - apply elem_of_singleton in Hy as ->. reflexivity.
  - apply elem_of_reach_pass in Hy as [Hy|(x & Hx & He)]; [auto|].
    eapply rtc_r; [apply IH, Hx|exact He].
Qed.

(** A pass that adds nothing has reached the closure. *)
Lemma closed_complete s : from ∈ s -> reach_pass edges s ⊆ s ->
  forall y, rtc (edge edges) from y -> y ∈ s.
Proof.
  intros Hf Hc y Hy. revert Hf. induction Hy as [x|x z y He _ IH]; [done|].
  intros Hx. apply IH, Hc, elem_of_reach_pass. eauto.
Qed.

Lemma from_passes k : from ∈ passes k.
Proof. induction k as [|k IH]; simpl; [set_solver|]. apply reach_pass_mono, IH. Qed.

(** Until the closure is reached, each pass adds a node. *)
Lemma passes_progress k :
  reach_pass edges (passes k) ⊆ passes k \/ (k < size (passes k))%nat.
Proof.
  induction k as [|k IH].
  - right. change (passes 0) with ({[from]} : gset RunId). rewrite size_singleton. lia.
  - change (passes (S k)) with (reach_pass edges (passes k)). destruct IH as [Hc|Hlt].
    + left. assert (reach_pass edges (passes k) = passes k) as -> ; [|done].
      apply set_eq. intros y. split; [apply Hc|apply reach_pass_mono].
    + destruct (decide (reach_pass edges (passes k) ⊆ passes k)) as [Hc|Hn].
      * left. assert (reach_pass edges (passes k) = passes k) as ->; [|done].
        apply set_eq. intros y. split; [apply Hc|apply reach_pass_mono].
      * right. assert (size (passes k) < size (reach_pass edges (passes k)))%nat; [|lia].
        apply subset_size. split; [apply reach_pass_mono|done].
Qed.

Lemma add_node_size x (s : gset RunId) : (size ({[x]} ∪ s) <= S (size s))%nat.
Proof.
  rewrite size_union_alt, size_singleton.
  pose proof (subseteq_size (s ∖ {[x]}) s (subseteq_difference_l s _ s (reflexivity s))). lia.
Qed.

Lemma list_to_set_size (l : list RunId) : (size (list_to_set l : gset RunId) <= length l)%nat.
Proof.
  induction l as [|x l IH]; [done|]. pose proof (add_node_size x (list_to_set l)). simpl. lia.
Qed.

Lemma nodes_size : (size nodes <= S (length edges))%nat.
Proof.
  pose proof (add_node_size from (list_to_set (snd <$> edges))).
  pose proof (list_to_set_size (snd <$> edges)) as H2. rewrite length_fmap in H2. lia.
Qed.

Lemma elem_of_reach_set y : y ∈ reach_set edges from <-> rtc (edge edges) from y.
Proof.
  unfold reach_set. split; [apply passes_sound|].
  apply closed_complete; [apply from_passes|].
  destruct (passes_progress (length edges)) as [Hc|Hlt]; [done|].
  assert (Heq : passes (length edges) = nodes).
  { apply set_subseteq_size_eq; [apply passes_nodes|]. pose proof nodes_size. lia. }
  rewrite Heq at 2. apply (passes_nodes (S (length edges))).
Qed.
End Reach.

(** ** Acyclicity *)

Definition acyclic (edges : list (RunId * RunId)) : Prop := forall x, ~ tc (edge edges) x x.

Lemma tc_cons_edge s t edges x y :
  tc (edge ((s, t) :: edges)) x y ->
  tc (edge edges) x y \/ (rtc (edge edges) x s /\ rtc (edge edges) t y).
Proof.
  assert (Hstep : forall a b, edge ((s, t) :: edges) a b -> edge edges a b \/ (a = s /\ b = t)).
  { intros a b H. apply elem_of_cons in H as [[= -> ->]|H]; auto. }
  intros H. induction H as [x y He|x y z He _ IH]; apply Hstep in He as [He|[-> ->]].
  - left. by constructor.
  - right. split; reflexivity.
  - destruct IH as [IH|[H1 H2]].
    + left. by eapply tc_l.
    + right. split; [by eapply rtc_l|done].
  - right. split; [reflexivity|]. destruct IH as [IH|[_ H2]]; [by apply tc_rtc|done].
Qed.

Lemma acyclic_cons s t edges :
  acyclic edges -> ~ rtc (edge edges) t s -> acyclic ((s, t) :: edges).
Proof.
  intros Ha Hn x Hx. apply tc_cons_edge in Hx as [Hx|[H1 H2]]; [by apply (Ha x)|].
  apply Hn. by transitivity x.
Qed.

Lemma edge_mono l l' : (forall p, p ∈ l -> p ∈ l') -> forall x y, tc (edge l) x y -> tc (edge l') x y.
Proof.
  intros H x y. induction 1 as [x y He|x y z He _ IH]; [|eapply tc_l; [|exact IH]].
  - constructor. by apply H.
  - by apply H.
Qed.

(** ** The graph invariant *)

Definition deps_edges (d : Db) : list (RunId * RunId) := dep_edges d.(dependencies).

Definition task_of (d : Db) (id : RunId) (task : TaskId) : Prop :=
  exists r, d.(runs) !! id = Some r /\ r.(RunRow.task_id) = task.

Record graph_ok (d : Db) : Prop := {
  go_acyclic : acyclic (deps_edges d);
  go_scope : forall k e, d.(dependencies) !! k = Some e ->
    task_of d e.(RunDependencyRow.source_run_id) e.(RunDependencyRow.task_id) /\
    task_of d e.(RunDependencyRow.target_run_id) e.(RunDependencyRow.task_id);
  go_revision : forall k e, d.(dependencies) !! k = Some e ->
    exists h, d.(graph_heads) !! e.(RunDependencyRow.task_id) = Some h /\
      e.(RunDependencyRow.created_graph_revision) < h.(RunGraphHeadRow.graph_revision);
  go_specified : forall k e, d.(dependencies) !! k = Some e ->
    e.(RunDependencyRow.dependency_condition) <> DependencyCondition.Unspecified;
  go_simple : forall k1 e1 k2 e2,
    d.(dependencies) !! k1 = Some e1 -> d.(dependencies) !! k2 = Some e2 ->
    same_endpoints e1.(RunDependencyRow.source_run_id) e1.(RunDependencyRow.target_run_id) e2 = true ->
    k1 = k2 }.

(** Runs keep their task, heads only advance, edges are never changed. *)
Record graph_grows (d d' : Db) : Prop := {
  gg_runs : forall id task, task_of d id task -> task_of d' id task;
  gg_heads : forall task h, d.(graph_heads) !! task = Some h ->
    exists h', d'.(graph_heads) !! task = Some h' /\
      h.(RunGraphHeadRow.graph_revision) <= h'.(RunGraphHeadRow.graph_revision);
  gg_deps : d.(dependencies) ⊆ d'.(dependencies) }.

Definition graph_rel (d d' : Db) : Prop := graph_grows d d' /\ (graph_ok d -> graph_ok d').

#[export] Instance graph_grows_preorder : PreOrder graph_grows.
Proof.
  split.
  - intros d. split; [done| |done]. intros task h Hh. exists h. split; [done|lia].
  - intros d1 d2 d3 [R1 H1 D1] [R2 H2 D2]. split; [auto| |by transitivity (dependencies d2)].
    intros task h Hh. destruct (H1 _ _ Hh) as (h2 & Hh2 & L2). destruct (H2 _ _ Hh2) as (h3 & Hh3 & L3).
    exists h3. split; [done|lia].
Qed.

#[export] Instance graph_rel_preorder : PreOrder graph_rel.
Proof.
  split.
  - intros d. split; [reflexivity|done].
  - intros d1 d2 d3 [G1 O1] [G2 O2]. split; [by transitivity d2|auto].
Qed.

(** A step that adds no edge keeps the invariant when runs and heads grow. *)
Lemma graph_rel_no_edge d d' :
  d'.(dependencies) = d.(dependencies) ->
  (forall id task, task_of d id task -> task_of d' id task) ->
  (forall task h, d.(graph_heads) !! task = Some h ->
    exists h', d'.(graph_heads) !! task = Some h' /\
      h.(RunGraphHeadRow.graph_revision) <= h'.(RunGraphHeadRow.graph_revision)) ->
  graph_rel d d'.
Proof.
  intros ED HR HH. split; [split; [done|done|by rewrite ED]|].
  intros [A S V P U]. split; unfold deps_edges in *; rewrite ?ED; [done|..].
  - intros k e He. destruct (S k e He). auto.
  - intros k e He. destruct (V k e He) as (h & Hh & Hlt). destruct (HH _ _ Hh) as (h' & Hh' & Hle).
    exists h'. split; [done|lia].
  - eauto.
  - eauto.
Qed.

Lemma graph_rel_frame d d' :
  d.(dependencies) = d'.(dependencies) -> d.(runs) = d'.(runs) ->
  d.(graph_heads) = d'.(graph_heads) -> graph_rel d d'.
Proof.
  intros E1 E2 E3. apply graph_rel_no_edge; [done|..].
  - intros id task. unfold task_of. by rewrite E2.
  - intros task h Hh. exists h. rewrite <- E3. split; [done|lia].
Qed.

#[export] Hint Extern 1 (graph_rel _ _) => apply graph_rel_frame; reflexivity : frame.

Lemma put_run_graph id r d :
  (forall r0, d.(runs) !! id = Some r0 -> r0.(RunRow.task_id) = r.(RunRow.task_id)) ->
  graph_rel d (put_run id r d).
Proof.
  intros Hid. apply graph_rel_no_edge; [done|..].
  - intros i task (r0 & Hr0 & Ht). unfold task_of. simpl. destruct (decide (id = i)) as [->|Hne].
    + exists r. rewrite lookup_insert_eq. split; [done|]. by rewrite <- (Hid r0).
    + exists r0. by rewrite lookup_insert_ne.
  - intros task h Hh. exists h. split; [done|lia].
Qed.

Lemma runs_cas_update_graph id e p : ensures (on_db graph_rel) (runs_cas_update id e p).
Proof.
  intros t b t' E. apply runs_cas_update_inv in E as [(-> & r & Hr & _ & _ & ->)|(-> & -> & _)].
  - split; [|done]. apply put_run_graph. intros r0 Hr0. by rewrite Hr in Hr0; injection Hr0 as <-.
  - reflexivity.
Qed.

Lemma runs_insert_graph n : ensures (on_db graph_rel) (runs_insert n).
Proof.
  intros t u t' E. unfold runs_insert in E. inv_store. split; [|done].
  apply put_run_graph. intros r0 Hr0.
  match goal with H : absent _ _ = true |- _ => apply absent_true in H; simpl in Hr0; congruence end.
Qed.

Lemma graph_ensure_head_graph task : ensures (on_db graph_rel) (graph_ensure_head task).
Proof.
  intros t h t' E. unfold graph_ensure_head, graph_get_head in E. inv_store.
  - reflexivity.
  - split; [|done]. apply graph_rel_no_edge; [done|done|]. simpl.
    intros task' h' Hh'. exists h'. rewrite lookup_insert_ne by congruence. split; [done|lia].
Qed.
#[export] Hint Resolve runs_cas_update_graph runs_insert_graph graph_ensure_head_graph : ensures.

(** ** Inserting an edge *)

Lemma elem_of_dep_edges m x y :
  (x, y) ∈ dep_edges m <-> exists k e, m !! k = Some e /\
    e.(RunDependencyRow.source_run_id) = x /\ e.(RunDependencyRow.target_run_id) = y.
Proof.
  unfold dep_edges. rewrite list_elem_of_fmap. split.
  - intros ([k e] & [= -> ->] & Hin%elem_of_map_to_list). eauto.
  - intros (k & e & He & <- & <-). exists (k, e). split; [done|]. by apply elem_of_map_to_list.
Qed.

Lemma acyclic_insert m k e :
  acyclic (dep_edges m) ->
  ~ rtc (edge (dep_edges m)) e.(RunDependencyRow.target_run_id) e.(RunDependencyRow.source_run_id) ->
  acyclic (dep_edges (<[k := e]> m)).
Proof.
  intros Ha Hn x Hx.
  apply (acyclic_cons e.(RunDependencyRow.source_run_id) e.(RunDependencyRow.target_run_id) _ Ha Hn x).
  eapply edge_mono; [|exact Hx]. intros [a b] Hab. apply elem_of_dep_edges in Hab as (i & e' & Hi & <- & <-).
  apply lookup_insert_Some in Hi as [[_ <-]|[_ Hi]]; [left|right].
  apply elem_of_dep_edges. eauto.
Qed.

Lemma graph_get_head_inv task t o t' :
  graph_get_head task t = (Ok o, t') -> t' = t /\ o = t.(t_db).(graph_heads) !! task.
Proof.
  unfold graph_get_head. intros E. inv_run. rename select (opt_traverse _ _ = _) into H0.
  destruct (graph_heads (t_db t') !! task) as [h|] eqn:Hh; simpl in *.
  - destruct (decode_head h) eqn:D; [|done]. injection H0 as <-. unfold decode_head in D. by inv_ok.
  - by injection H0 as <-.
Qed.

(** The head after [graph_cas_head_revision]. *)
Definition advanced_head (h : RunGraphHeadRow) : RunGraphHeadRow :=
  RunGraphHeadRow.mk h.(RunGraphHeadRow.task_id) (h.(RunGraphHeadRow.graph_revision) + 1).

(** The database after an accepted edge. *)
Definition edge_added (n : NewRunDependency) (revision : Z) (h : RunGraphHeadRow) (d : Db) : Db :=
  set_graph_heads (<[n.(NewRunDependency.task_id) := advanced_head h]> d.(graph_heads))
    (set_dependencies (<[n.(NewRunDependency.dependency_id) := dependency_row_of_new n revision]>
       d.(dependencies)) d).

Lemma graph_insert_dependency_inv n revision t u t' :
  graph_insert_dependency n revision t = (Ok u, t') ->
  exists h,
    t.(t_db).(graph_heads) !! n.(NewRunDependency.task_id) = Some h /\
    h.(RunGraphHeadRow.graph_revision) = revision /\
    ~ rtc (edge (deps_edges t.(t_db))) n.(NewRunDependency.target_run_id)
        n.(NewRunDependency.source_run_id) /\
    n.(NewRunDependency.dependency_condition) <> DependencyCondition.Unspecified /\
    t.(t_db).(dependencies) !! n.(NewRunDependency.dependency_id) = None /\
    (forall k e, t.(t_db).(dependencies) !! k = Some e ->
       same_endpoints n.(NewRunDependency.source_run_id) n.(NewRunDependency.target_run_id) e = false) /\
    t' = set_db (edge_added n revision h t.(t_db)) t.
Proof.
  unfold graph_insert_dependency. intros E. apply bind_ok_inv in E as (o & t1 & E1 & E).
  apply graph_get_head_inv in E1 as [-> ->].
  destruct (graph_heads (t_db t) !! NewRunDependency.task_id n) as [h|] eqn:Hh; [|inv_ok].
  exists h. unfold graph_is_reachable, graph_cas_head_revision in E. inv_store.
  repeat match goal with
  | H : bool_decide _ = true |- _ => apply bool_decide_eq_true in H
  | H : negb (bool_decide _) = true |- _ => apply negb_true_iff, bool_decide_eq_false in H
  | H : absent _ _ = true |- _ => apply absent_true in H
  | H : none_such _ _ = true |- _ => rewrite none_such_true in H
  | H : encode_u64 _ _ = Ok _ |- _ => apply encode_u64_ok in H as [-> _]
  end.
  rewrite Hh in *. simplify_eq.
  repeat split; try done.
  rename select (_ ∉ reach_set _ _) into Hr. intros Hc. apply Hr. by apply elem_of_reach_set.
Qed.

Lemma edge_added_rel n revision h d :
  d.(graph_heads) !! n.(NewRunDependency.task_id) = Some h ->
  h.(RunGraphHeadRow.graph_revision) = revision ->
  ~ rtc (edge (deps_edges d)) n.(NewRunDependency.target_run_id) n.(NewRunDependency.source_run_id) ->
  n.(NewRunDependency.dependency_condition) <> DependencyCondition.Unspecified ->
  d.(dependencies) !! n.(NewRunDependency.dependency_id) = None ->
  (forall k e, d.(dependencies) !! k = Some e ->
     same_endpoints n.(NewRunDependency.source_run_id) n.(NewRunDependency.target_run_id) e = false) ->
  task_of d n.(NewRunDependency.source_run_id) n.(NewRunDependency.task_id) ->
  task_of d n.(NewRunDependency.target_run_id) n.(NewRunDependency.task_id) ->
  graph_rel d (edge_added n revision h d).
Proof.
  intros Hh Hrev Hnr Hc Hk Hu Hs Ht.
  assert (Hheads : forall task h0, graph_heads d !! task = Some h0 -> exists h1,
     graph_heads (edge_added n revision h d) !! task = Some h1 /\
     h0.(RunGraphHeadRow.graph_revision) <= h1.(RunGraphHeadRow.graph_revision)).
  { intros task h0 Hh0. simpl. destruct (decide (NewRunDependency.task_id n = task)) as [<-|Hne].
    - rewrite lookup_insert_eq. exists (advanced_head h). rewrite Hh in Hh0. injection Hh0 as <-.
      simpl. split; [done|lia].
    - exists h0. rewrite lookup_insert_ne by done. split; [done|lia]. }
  assert (Hdeps : forall k e, dependencies (edge_added n revision h d) !! k = Some e ->
     (k = NewRunDependency.dependency_id n /\ e = dependency_row_of_new n revision) \/
     dependencies d !! k = Some e).
  { intros k e He. simpl in He. apply lookup_insert_Some in He as [[<- <-]|[_ He]]; auto. }
  split; [split; [done|done|by apply insert_subseteq]|].
  intros [A S V P U]. split.
  - by apply acyclic_insert.
  - intros k e [[-> ->]|He]%Hdeps; [done|]. exact (S k e He).
  - intros k e [[-> ->]|He]%Hdeps.
    + exists (advanced_head h). simpl. rewrite lookup_insert_eq. split; [done|lia].
    + destruct (V k e He) as (h0 & Hh0 & Hlt). destruct (Hheads _ _ Hh0) as (h1 & Hh1 & Hle).
      exists h1. split; [done|lia].
  - intros k e [[-> ->]|He]%Hdeps; [done|eauto].
  - intros k1 e1 k2 e2 [[-> ->]|H1]%Hdeps [[-> ->]|H2]%Hdeps Hse.
    + done.
    + exfalso. simpl in Hse. by rewrite (Hu k2 e2 H2) in Hse.
    + exfalso. specialize (Hu k1 e1 H1). unfold same_endpoints in *. simpl in *.
      rewrite andb_true_iff, !bool_decide_eq_true in Hse. destruct Hse as [Hsrc Htgt].
      rewrite andb_false_iff, !bool_decide_eq_false in Hu. destruct Hu as [Hu|Hu]; apply Hu; congruence.
    + eauto.
Qed.

Lemma load_run_inv id t r t' :
  load_run id t = (Ok r, t') -> t' = t /\ t.(t_db).(runs) !! id = Some r /\ decode_run r = Ok r.
Proof.
  unfold load_run. intros E. inv_ok. rename select (runs_get _ _ = _) into G.
  apply runs_get_inv in G as (-> & G & D). rewrite <- G. auto.
Qed.

Lemma load_run_touches id : touches no_table (load_run id).
Proof. intros t r t' (-> & _)%load_run_inv. split; [done|]. by exists tt. Qed.

Lemma find_dependency_touches a b c : touches no_table (find_dependency a b c).
Proof. unfold find_dependency, graph_list_dependencies. store_touches. Qed.
#[export] Hint Resolve load_run_touches find_dependency_touches : touches.

Lemma decode_dependencies_ok l k : res_collect decode_dependency l = Ok k -> k = l.
Proof.
  intros E. apply res_collect_same in E as [-> _]; [done|]. intros a b Hb. unfold decode_dependency in Hb. inv_ok. done.
Qed.

Lemma graph_list_dependencies_inv task t l t' :
  graph_list_dependencies task t = (Ok l, t') ->
  t' = t /\ forall e, e ∈ l <-> exists k, t.(t_db).(dependencies) !! k = Some e /\
    e.(RunDependencyRow.task_id) = task.
Proof.
  unfold graph_list_dependencies. intros E. inv_run. rename select (res_collect _ _ = _) into Hc.
  apply decode_dependencies_ok in Hc as ->. split; [done|]. intros e. rewrite elem_of_select_by.
  setoid_rewrite bool_decide_eq_true. done.
Qed.

(** ** The edge service *)

(** The graph tables. *)
Definition set_graph (x : gmap N RunGraphHeadRow * gmap N RunDependencyRow) (d : Db) : Db :=
  set_graph_heads x.1 (set_dependencies x.2 d).

Lemma graph_insert_dependency_touches n rev : touches set_graph (graph_insert_dependency n rev).
Proof.
  intros t u t' (h & _ & _ & _ & _ & _ & _ & ->)%graph_insert_dependency_inv.
  split; [done|]. by eexists (_, _).
Qed.
#[export] Hint Resolve graph_insert_dependency_touches : touches.

Section Services.
Context `{!Ext}.

Lemma stage_dependency_event_touches task payload :
  touches set_outbox (stage_dependency_event task payload).
Proof.
  intros t u t' E. unfold stage_dependency_event in E. inv_run.
  rename select (stage_classified _ _ _ _ _ _ _ _ _ = _) into S.
  apply stage_classified_touches in S as [C [w W]]. split; [exact C|]. by exists w.
Qed.

Lemma stage_epoch_event_touches root : touches set_outbox (stage_epoch_event root).
Proof.
  intros t u t' E. unfold stage_epoch_event in E. inv_run.
  rename select (stage_classified _ _ _ _ _ _ _ _ _ = _) into S.
  apply stage_classified_touches in S as [C [w W]]. split; [exact C|]. by exists w.
Qed.

Lemma stage_dependency_event_events task payload :
  ensures (on_db events_rel) (stage_dependency_event task payload).
Proof. unfold stage_dependency_event. solve_ensures. Qed.

Lemma stage_epoch_event_events root : ensures (on_db events_rel) (stage_epoch_event root).
Proof. unfold stage_epoch_event. solve_ensures. Qed.
End Services.
#[export] Hint Resolve stage_dependency_event_touches stage_epoch_event_touches : touches.
#[export] Hint Resolve stage_dependency_event_events stage_epoch_event_events : ensures.

Section ServiceRelations.
Context `{!Ext}.

Lemma add_dependency_runs s t c rev now : ensures (on_db runs_rel) (add_dependency s t c rev now).
Proof. unfold add_dependency. solve_ensures. Qed.
Lemma add_dependency_events s t c rev now : ensures (on_db events_rel) (add_dependency s t c rev now).
Proof. unfold add_dependency. solve_ensures. Qed.

(** Every branch of [add_dependency] that succeeds: the duplicate changes
    nothing, the new edge is added at the expected revision between two
    existing runs of the target's task and then only an event is staged. *)
Lemma add_dependency_inv source target c rev now t u t' :
  add_dependency source target c rev now t = (Ok u, t') ->
  c <> DependencyCondition.Unspecified /\
  exists rs rt,
    t.(t_db).(runs) !! source = Some rs /\ t.(t_db).(runs) !! target = Some rt /\
    rs.(RunRow.task_id) = rt.(RunRow.task_id) /\ is_mutable_target rt now = true /\
    (t' = t /\ (exists k e, t.(t_db).(dependencies) !! k = Some e /\
                  same_endpoints source target e = true /\ e.(RunDependencyRow.dependency_condition) = c) \/
     exists id ti t1,
       t_db ti = t_db t /\ t_ctx ti = t_ctx t /\
       graph_insert_dependency
         (NewRunDependency.mk id rt.(RunRow.task_id) source target c now) rev ti = (Ok tt, t1) /\
       exists payload, stage_dependency_event rt.(RunRow.task_id) payload t1 = (Ok u, t')).
Proof.
  unfold add_dependency. intros E.
  destruct (negb (bool_decide (c = DependencyCondition.Unspecified))) eqn:Hc; [|inv_ok].
  apply negb_true_iff, bool_decide_eq_false in Hc. split; [done|].
  apply bind_ok_inv in E as (rs & t1 & (-> & Hs & _)%load_run_inv & E).
  apply bind_ok_inv in E as (rt & t2 & (-> & Ht & _)%load_run_inv & E).
  exists rs, rt. destruct (bool_decide _) eqn:Htask; [|inv_ok]. apply bool_decide_eq_true in Htask.
  destruct (is_mutable_target rt now) eqn:Hm; [|inv_ok].
  repeat (split; [done|]).
  apply bind_ok_inv in E as (o & t3 & [-> ->]%graph_get_head_inv & E).
  apply bind_ok_inv in E as (hd & t3 & Eh & E). inv_ok. case_bool_decide; [|inv_ok].
  apply bind_ok_inv in E as (ex & t5 & Ef & E). unfold find_dependency in Ef.
  apply bind_ok_inv in Ef as (l & t4 & (-> & Hl)%graph_list_dependencies_inv & Ef). inv_ok.
  destruct (List.find _ l) as [e|] eqn:Hf.
  { apply find_some in Hf as [Hin Hsame]. rewrite <- list_elem_of_In in Hin.
    apply Hl in Hin as (k & Hk & _). case_bool_decide; [|inv_ok]. inv_ok. left. eauto 10. }
  inv_run. right. rename select (graph_insert_dependency _ _ _ = _) into G.
  rename select (stage_dependency_event _ _ _ = _) into P.
  match type of G with _ = (Ok ?x, _) => destruct x end.
  eexists _, _, _. split; [|split; [|split; [exact G|]]]; [done|done|]. eauto.
Qed.

Lemma add_dependency_graph s t c rev now : ensures (on_db graph_rel) (add_dependency s t c rev now).
Proof.
  intros t0 u t' E.
  apply add_dependency_inv in E as (Hc & rs & rt & Hs & Ht & Htask & _ & [[-> _]|Hnew]); [reflexivity|].
  destruct Hnew as (id & ti & t1 & Ed & Ec & G & payload & P).
  apply graph_insert_dependency_inv in G as (h & Hh & Hrev & Hnr & _ & Hk & Hu & ->).
  transitivity (set_db (edge_added (NewRunDependency.mk id (RunRow.task_id rt) s t c now) rev h (t_db ti)) ti).
  - split; [|done]. simpl. rewrite <- Ed. apply edge_added_rel; simpl; try done; rewrite Ed.
    + by exists rs.
    + by exists rt.
  - eapply ensures_touches; [apply stage_dependency_event_touches| |exact P].
    intros x d. apply graph_rel_frame; reflexivity.
Qed.
End ServiceRelations.
#[export] Hint Resolve add_dependency_runs add_dependency_events add_dependency_graph : ensures.

(** ** The descendant walk terminates and is complete *)

Definition child_of (d : Db) (p c : RunId) : Prop :=
  exists r, d.(runs) !! c = Some r /\ r.(RunRow.parent_run_id) = Some p.

(** Every run row is readable. *)
Definition runs_readable (d : Db) : Prop :=
  forall id r, d.(runs) !! id = Some r -> decode_run r = Ok r.

Lemma children_ids (d : Db) p :
  runs_inv d ->
  let rows := select (fun r => bool_decide (r.(RunRow.parent_run_id) = Some p)) d.(runs) in
  NoDup (RunRow.run_id <$> rows) /\ forall c, c ∈ (RunRow.run_id <$> rows) <-> child_of d p c.
Proof.
  intros Hinv. unfold select, select_by.
  set (m := filter _ _). set (l := merge_sort key_le (map_to_list m)).
  assert (Hl : l ≡ₚ map_to_list m) by apply merge_sort_Permutation.
  assert (Hids : RunRow.run_id <$> l.*2 = l.*1).
  { rewrite <- list_fmap_compose. apply list_fmap_ext. intros i [k r] Hi. simpl.
    apply list_elem_of_lookup_2 in Hi. rewrite Hl, elem_of_map_to_list in Hi.
    apply map_lookup_filter_Some in Hi as [Hi _]. eapply ri_key; eauto. }
  simpl. rewrite Hids. split.
  - rewrite Hl. apply NoDup_fst_map_to_list.
  - intros c. rewrite Hl, list_elem_of_fmap. split.
    + intros ([k r] & -> & Hr%elem_of_map_to_list). apply map_lookup_filter_Some in Hr as [Hr Hp].
      simpl in Hp. apply bool_decide_eq_true in Hp. by exists r.
    + intros (r & Hr & Hp). exists (c, r). split; [done|].
      apply elem_of_map_to_list, map_lookup_filter_Some. split; [done|]. simpl.
      by apply bool_decide_eq_true.
Qed.

Lemma runs_list_children_run p t :
  runs_inv t.(t_db) -> runs_readable t.(t_db) ->
  exists rows, runs_list_children p t = (Ok rows, t) /\ NoDup (RunRow.run_id <$> rows) /\
    forall c, c ∈ (RunRow.run_id <$> rows) <-> child_of t.(t_db) p c.
Proof.
  intros Hinv Hread. eexists. split; [|apply (children_ids _ p Hinv)].
  unfold runs_list_children, bind, query, gets, lift_res. f_equal. apply res_collect_all.
  intros r Hr. apply elem_of_select in Hr as (k & Hk & _). eapply Hread, Hk.
Qed.

Section Walk.
Open Scope list_scope.
Variable t : Txn.
Variable root : RunId.
Hypothesis Hinv : runs_inv t.(t_db).
Hypothesis Hread : runs_readable t.(t_db).

Abbreviation child := (child_of t.(t_db)).

(** What the loop keeps: the dequeued runs followed by the queue are the root
    and everything found so far, each once. *)
Record walk_inv (seen frontier ordered : list RunId) : Prop := {
  wi_split : root :: ordered = seen ++ frontier;
  wi_nodup : NoDup (root :: ordered);
  wi_dom : forall x, x ∈ root :: ordered -> is_Some (t.(t_db).(runs) !! x);
  wi_desc : forall x, x ∈ ordered -> tc child root x;
  wi_parent : forall x, x ∈ ordered -> exists p, p ∈ seen /\ child p x;
  wi_closed : forall p x, p ∈ seen -> child p x -> x ∈ ordered }.

Lemma child_irrefl x : ~ tc child x x.
Proof.
  destruct (ri_forest _ Hinv) as [rank Hrank]. 
  assert (Hlt : forall a b, tc child a b -> (rank a < rank b)%nat).
  { induction 1 as [a b (r & Hr & Hp)|a b c (r & Hr & Hp) _ IH]; [eauto|].
    specialize (Hrank _ _ _ Hr Hp). lia. }
  intros Hx%Hlt. lia.
Qed.

Lemma child_unique p q x : child p x -> child q x -> p = q.
Proof. intros (r & Hr & Hp) (r' & Hr' & Hq). congruence. Qed.

Lemma walk_inv_length seen frontier ordered :
  walk_inv seen frontier ordered -> (length seen + length frontier <= size t.(t_db).(runs))%nat.
Proof.
  intros W. rewrite <- length_app, <- (wi_split _ _ _ W).
  rewrite <- size_dom.
  assert (list_to_set (root :: ordered) ⊆ (dom t.(t_db).(runs) : gset RunId)) as Hsub.
  { intros x Hx. apply elem_of_list_to_set in Hx. apply elem_of_dom. by apply (wi_dom _ _ _ W). }
  apply subseteq_size in Hsub. by rewrite size_list_to_set in Hsub by apply (wi_nodup _ _ _ W).
Qed.

Lemma walk_inv_step seen current frontier ordered ids :
  walk_inv seen (current :: frontier) ordered ->
  NoDup ids -> (forall c, c ∈ ids <-> child current c) ->
  walk_inv (seen ++ [current]) (frontier ++ ids) (ordered ++ ids).
Proof.
  intros [Ws Wn Wd We Wp Wc] Hnd Hids.
  assert (Hcur : current ∈ root :: ordered) by (rewrite Ws; apply elem_of_app; right; by left).
  assert (Hnew : current ∉ seen).
  { rewrite Ws in Wn. apply list.NoDup_app in Wn as (_ & Hn & _). intros Hin. apply (Hn _ Hin). by left. }
  assert (Hpath : forall c, c ∈ ids -> tc child root c).
  { intros c Hc%Hids. apply elem_of_cons in Hcur as [->|Ho]; [by constructor|].
    eapply tc_r; [apply We, Ho|done]. }
  split.
  - rewrite app_comm_cons, Ws. by rewrite <- !app_assoc.
  - rewrite app_comm_cons. apply list.NoDup_app. split; [done|]. split; [|done].
    intros x Hx Hin. apply elem_of_cons in Hx as [->|Ho].
    + by apply (child_irrefl root), Hpath.
    + destruct (Wp x Ho) as (p & Hp & Hpx). apply Hnew.
      by rewrite <- (child_unique p current x Hpx (proj1 (Hids x) Hin)).
  - intros x Hx. rewrite app_comm_cons in Hx. apply elem_of_app in Hx as [Hx|Hx]; [auto|].
    apply Hids in Hx as (r & Hr & _). eauto.
  - intros x [Hx|Hx]%elem_of_app; auto.
  - intros x [Hx|Hx]%elem_of_app.
    + destruct (Wp x Hx) as (p & Hp & Hpx). exists p. split; [by apply elem_of_app; left|done].
    + exists current. split; [apply elem_of_app; right; by left|by apply Hids].
  - intros p x [Hp| ->%list_elem_of_singleton]%elem_of_app Hpx; apply elem_of_app; [left; eauto|].
    right. by apply Hids.
Qed.

Lemma descendants_loop_run fuel seen frontier ordered :
  walk_inv seen frontier ordered -> (size t.(t_db).(runs) <= length seen + fuel)%nat ->
  exists l, descendants_loop fuel frontier ordered t = (Ok l, t) /\ walk_inv (root :: l) [] l.
Proof.
  revert seen frontier ordered. induction fuel as [|fuel IH]; intros seen [|current frontier] ordered W Hf.
  - exists ordered. split; [done|]. pose proof (wi_split _ _ _ W) as Hs. rewrite app_nil_r in Hs.
    by rewrite Hs at 1.
  - pose proof (walk_inv_length _ _ _ W) as Hlen. simpl in *. lia.
  - exists ordered. split; [done|]. pose proof (wi_split _ _ _ W) as Hs. rewrite app_nil_r in Hs.
    by rewrite Hs at 1.
  - destruct (runs_list_children_run current t Hinv Hread) as (rows & Hrun & Hnd & Hids).
    simpl. erewrite bind_step by exact Hrun.
    apply (IH (seen ++ [current])); [by apply walk_inv_step|]. rewrite length_app. simpl. lia.
Qed.

Lemma descendants_run r :
  t.(t_db).(runs) !! root = Some r ->
  exists l, descendants root t = (Ok l, t) /\ NoDup l /\ forall x, x ∈ l <-> tc child root x.
Proof.
  intros Hr.
  assert (W : walk_inv [] [root] []).
  { split; [done|apply NoDup_singleton| |..]; try by intros ? ?%elem_of_nil.
    - intros x ->%list_elem_of_singleton. eauto.
    - by intros ? ? ?%elem_of_nil. }
  destruct (descendants_loop_run (size t.(t_db).(runs)) _ _ _ W) as (l & Hl & [_ Wn _ We _ Wc]); [simpl; lia|].
  exists l. split; [|split].
  - unfold descendants. erewrite bind_step; [|unfold load_run, runs_get, bind, query, gets, lift_res;
      rewrite Hr; simpl; by rewrite (Hread _ _ Hr)]. exact Hl.
  - by apply list.NoDup_cons in Wn as [_ ?].
  - intros x. split; [auto|]. revert x. apply tc_ind_r.
    + intros y Hy. eapply Wc; [by left|done].
    + intros y z _ Hz IH. eapply Wc; [by right|done].
Qed.
End Walk.

(** ** Footprints of the graph services *)

Section GraphFootprints.
Context `{!Ext}.

Lemma descendants_loop_touches fuel frontier ordered :
  touches no_table (descendants_loop fuel frontier ordered).
Proof.
  revert frontier ordered. induction fuel as [|fuel IH]; intros [|c frontier] ordered; simpl; solve_reads.
Qed.
Lemma descendants_touches root : touches no_table (descendants root).
Proof.
  unfold descendants. solve_reads. apply descendants_loop_touches.
Qed.
Lemma all_conditions_met_touches l : touches no_table (all_conditions_met l).
Proof. induction l; simpl; solve_reads. Qed.
Lemma dependencies_satisfied_touches target : touches no_table (dependencies_satisfied target).
Proof. unfold dependencies_satisfied. solve_reads. apply all_conditions_met_touches. Qed.
Lemma eligible_descendants_touches l : touches no_table (eligible_descendants l).
Proof. induction l; simpl; solve_reads. Qed.
End GraphFootprints.
#[export] Hint Resolve descendants_touches dependencies_satisfied_touches
  eligible_descendants_touches : touches.

Section CancelRelations.
Context `{!Ext}.

Lemma advance_epoch_runs root rev :
  0 <= root.(RunRow.cancellation_epoch) <= i64_max ->
  ensures (on_db runs_rel) (advance_epoch root rev).
Proof.
  intros Hc. unfold advance_epoch. solve_ensures. apply runs_cas_update_runs. split; [done|].
  intros r (_ & _ & He)%run_cas_matches_inv. apply apply_run_patch_evolves; simpl; try done.
  intros c [= <-]. rewrite (He _ eq_refl). unfold u64_saturating_add, u64_max, i64_max in *. lia.
Qed.

Lemma load_run_returns id :
  returns (load_run id) (fun r => 0 <= r.(RunRow.cancellation_epoch) <= i64_max).
Proof. intros t r t' (_ & _ & D)%load_run_inv. by apply decode_run_ok in D as (_ & _ & _ & D). Qed.

Lemma cancel_subtree_runs root rev : ensures (on_db runs_rel) (cancel_subtree root rev).
Proof.
  unfold cancel_subtree. eapply ensures_bind_returns; [apply _| |apply load_run_returns|].
  - solve_ensures.
  - intros row Hrow. solve_ensures. by apply advance_epoch_runs.
Qed.
Lemma cancel_subtree_graph root rev : ensures (on_db graph_rel) (cancel_subtree root rev).
Proof. unfold cancel_subtree, advance_epoch. solve_ensures. Qed.
Lemma cancel_subtree_events root rev : ensures (on_db events_rel) (cancel_subtree root rev).
Proof. unfold cancel_subtree, advance_epoch. solve_ensures. Qed.
End CancelRelations.
#[export] Hint Resolve cancel_subtree_runs cancel_subtree_graph cancel_subtree_events : ensures.

(** ** Readiness is exact *)

Section Readiness.

Lemma all_conditions_met_inv l t b t' :
  all_conditions_met l t = (Ok b, t') ->
  t' = t /\ (b = true <-> forall e, e ∈ l -> exists src,
    t.(t_db).(runs) !! e.(RunDependencyRow.source_run_id) = Some src /\
    condition_met e.(RunDependencyRow.dependency_condition) src.(RunRow.state) = true).
Proof.
  revert t b. induction l as [|e l IH]; intros t b E; simpl in E.
  - inv_ok. split; [done|]. split; [|done]. intros _ e He. by apply elem_of_nil in He.
  - apply bind_ok_inv in E as (src & t1 & (-> & Hs & _)%load_run_inv & E).
    destruct (condition_met _ _) eqn:Hc.
    + apply IH in E as [-> IHl]. split; [done|]. rewrite IHl. split.
      * intros Hall e0 [->|He]%elem_of_cons; eauto.
      * intros Hall e0 He. apply Hall. by right.
    + inv_ok. split; [done|]. split; [done|]. intros Hall.
      destruct (Hall e) as (src' & Hs' & Hc'); [by left|]. congruence.
Qed.

(** The answer of [dependencies_satisfied], edge by edge. *)
Lemma dependencies_satisfied_inv target t b t' :
  graph_ok t.(t_db) -> dependencies_satisfied target t = (Ok b, t') ->
  t' = t /\ (b = true <-> forall k e, t.(t_db).(dependencies) !! k = Some e ->
    e.(RunDependencyRow.target_run_id) = target -> exists src,
    t.(t_db).(runs) !! e.(RunDependencyRow.source_run_id) = Some src /\
    condition_met e.(RunDependencyRow.dependency_condition) src.(RunRow.state) = true).
Proof.
  intros Hg E. unfold dependencies_satisfied in E.
  apply bind_ok_inv in E as (row & t1 & (-> & Hrow & _)%load_run_inv & E).
  apply bind_ok_inv in E as (deps & t1 & (-> & Hdeps)%graph_list_dependencies_inv & E).
  apply all_conditions_met_inv in E as [-> ->]. split; [done|].
  assert (Hin : forall e, e ∈ List.filter (fun row => bool_decide (row.(RunDependencyRow.target_run_id) = target)) deps
            <-> exists k, t.(t_db).(dependencies) !! k = Some e /\ e.(RunDependencyRow.target_run_id) = target).
  { intros e. rewrite list_elem_of_In, filter_In, <- list_elem_of_In, Hdeps, bool_decide_eq_true. split.
    - intros [(k & Hk & _) Ht]. eauto.
    - intros (k & Hk & Ht). split; [|done]. exists k. split; [done|].
      destruct (go_scope _ Hg _ _ Hk) as [_ (r & Hr & Htask)]. rewrite Ht in Hr. congruence. }
  split.
  - intros Hall k e Hk Ht. apply Hall, Hin. eauto.
  - intros Hall e (k & Hk & Ht)%Hin. eauto.
Qed.

(** Readiness is exact: a run's dependencies count as satisfied precisely
    when every edge into it, stored under whatever task, has its condition met
    by the current state of its source; asking changes nothing. *)
Theorem readiness_exact target t b t' :
  graph_ok t.(t_db) -> dependencies_satisfied target t = (Ok b, t') ->
  t' = t /\ (b = true <-> forall k e, t.(t_db).(dependencies) !! k = Some e ->
    e.(RunDependencyRow.target_run_id) = target -> exists src,
    t.(t_db).(runs) !! e.(RunDependencyRow.source_run_id) = Some src /\
    condition_met e.(RunDependencyRow.dependency_condition) src.(RunRow.state) = true).
Proof. apply dependencies_satisfied_inv. Qed.
End Readiness.

Section GraphClaims.
Context `{!Ext}.

Lemma same_endpoints_edge s t e : same_endpoints s t e = true ->
  e.(RunDependencyRow.source_run_id) = s /\ e.(RunDependencyRow.target_run_id) = t.
Proof. unfold same_endpoints. by rewrite andb_true_iff, !bool_decide_eq_true. Qed.

(** The edge is there after a successful request. *)
Lemma add_dependency_edge source target c rev now t u t' :
  add_dependency source target c rev now t = (Ok u, t') -> edge (deps_edges t'.(t_db)) source target.
Proof.
  intros (_ & rs & rt & _ & _ & _ & _ & [[-> (k & e & Hk & [<- <-]%same_endpoints_edge & _)]|Hnew])%add_dependency_inv.
  - apply elem_of_dep_edges. eauto.
  - destruct Hnew as (id & ti & t1 & Ed & _ & G & payload & P).
    apply graph_insert_dependency_inv in G as (h & _ & _ & _ & _ & _ & _ & ->).
    apply stage_dependency_event_touches in P as [_ [w ->]]. apply elem_of_dep_edges. simpl.
    exists id. eexists. rewrite lookup_insert_eq. done.
Qed.

(** C12: Accepted dependencies keep the graph acyclic: after a successful
    [add_dependency] the edge is stored, every earlier edge is still there, no
    run depends on itself through any path, and so a request whose target
    already leads to its source never succeeds. *)
Theorem accepted_dependency_keeps_acyclic source target c rev now t u t' :
  graph_ok t.(t_db) -> add_dependency source target c rev now t = (Ok u, t') ->
  edge (deps_edges t'.(t_db)) source target /\
  (forall x y, edge (deps_edges t.(t_db)) x y -> edge (deps_edges t'.(t_db)) x y) /\
  (forall x, ~ tc (edge (deps_edges t'.(t_db))) x x) /\
  ~ rtc (edge (deps_edges t.(t_db))) target source.
Proof.
  intros Hg E. pose proof (add_dependency_edge _ _ _ _ _ _ _ _ E) as He.
  destruct (add_dependency_graph _ _ _ _ _ _ _ _ E) as [[Hgrow Hok] _].
  assert (Hmono : forall x y, edge (deps_edges t.(t_db)) x y -> edge (deps_edges t'.(t_db)) x y).
  { intros x y (k & e & Hk & Hxy)%elem_of_dep_edges. apply elem_of_dep_edges. exists k, e. split; [|done].
    eapply lookup_weaken, Hgrow. done. }
  split; [done|]. split; [done|]. split; [apply (go_acyclic _ (Hok Hg))|]. intros Hr.
  apply (go_acyclic _ (Hok Hg) source). eapply tc_rtc_r; [by apply tc_once|].
  eapply rtc_subrel; [|exact Hr]. exact Hmono.
Qed.

(** The descendant walk, a queue without a visited set, terminates on
    every stored run forest and returns each descendant of the root exactly
    once and nothing else. *)
Theorem descendants_exact root r t :
  runs_inv t.(t_db) -> runs_readable t.(t_db) -> t.(t_db).(runs) !! root = Some r ->
  exists l, descendants root t = (Ok l, t) /\ NoDup l /\
    forall x, x ∈ l <-> tc (child_of t.(t_db)) root x.
Proof. intros Hinv Hread Hr. by eapply descendants_run. Qed.
End GraphClaims.
