(* ===== verification/EffectPolicy.v ===== *)
(** * Effect contracts and the conservative policy resolver
    ([effects/src/contract.rs], [policy.rs])

    The kernel-effective contract is, axis by axis, the least safe value among
    the contributing sources: kernel knowledge, the adapter's own claim when the
    adapter is trusted and conformant, and operator policy.  The theorems state
    the resolver by its result (an upper bound in the danger order that some
    source attains), that a claim never promotes a contract, and that every
    resolved contract is persistable. *)

From S2P Require Import Prelude Domain Ids Models.

Open Scope string_scope.
Open Scope Z_scope.

(** ** Contract ([contract.rs]) *)

Module CancellationSemantics.
Inductive CancellationSemantics :=
  | BeforeDispatch | Cooperative | ProviderSpecific | Unsupported.
End CancellationSemantics.
Abbreviation CancellationSemantics := CancellationSemantics.CancellationSemantics.
#[export] Instance CancellationSemantics_eq_dec : EqDecision CancellationSemantics.
Proof. solve_decision. Defined.

Definition CancellationSemantics_as_str (x : CancellationSemantics) : string :=
  match x with
  | CancellationSemantics.BeforeDispatch => "before_dispatch"
  | CancellationSemantics.Cooperative => "cooperative"
  | CancellationSemantics.ProviderSpecific => "provider_specific"
  | CancellationSemantics.Unsupported => "unsupported"
  end.

Definition CancellationSemantics_strs : list (string * CancellationSemantics) :=
  [("before_dispatch", CancellationSemantics.BeforeDispatch);
   ("cooperative", CancellationSemantics.Cooperative);
   ("provider_specific", CancellationSemantics.ProviderSpecific);
   ("unsupported", CancellationSemantics.Unsupported)].

Definition CancellationSemantics_from_state_str (s : string)
    : CancellationSemantics + UnknownStateValue :=
  match decode_by CancellationSemantics_strs s with
  | Some x => inl x
  | None => inr (mkUnknownStateValue s "CancellationSemantics")
  end.

#[export] Program Instance CancellationSemantics_state : StateEnum CancellationSemantics :=
  {| state_enum_name := "CancellationSemantics"; as_str := CancellationSemantics_as_str;
     from_state_str := CancellationSemantics_from_state_str |}.
Next Obligation. intros []; reflexivity. Qed.
Next Obligation. unfold CancellationSemantics_from_state_str. solve_codec. Qed.
Next Obligation. unfold CancellationSemantics_from_state_str. solve_codec. Qed.

Record EffectContract := mkContract {
  c_effect_class : EffectClass;
  c_idempotency : IdempotencySemantics;
  c_reconciliation : ReconciliationSemantics;
  c_cancellation : CancellationSemantics;
  c_compensation_capability : option string }.

(** [EffectContract::unknown]. *)
Definition contract_unknown : EffectContract :=
  mkContract EffectClass.Opaque IdempotencySemantics.UnknownIdempotency
    ReconciliationSemantics.UnknownReconciliation CancellationSemantics.Unsupported None.

Definition is_reconcilable (c : EffectContract) : bool :=
  match c.(c_reconciliation) with
  | ReconciliationSemantics.StatusLookup | ReconciliationSemantics.ResultLookup
  | ReconciliationSemantics.DeterministicInspection => true
  | _ => false
  end.

Definition is_safely_redispatchable (c : EffectContract) : bool :=
  match c.(c_idempotency) with
  | IdempotencySemantics.NaturallyIdempotent | IdempotencySemantics.IdempotencyKeySupported => true
  | _ => false
  end.

Definition can_cancel_before_dispatch (c : EffectContract) : bool :=
  bool_decide (c.(c_cancellation) = CancellationSemantics.BeforeDispatch).

(** [EffectContract::to_contract]. *)
Definition contract_to_wire (c : EffectContract) : EffectContractMsg := {|
  ec_effect_class := to_wire c.(c_effect_class);
  ec_idempotency := to_wire c.(c_idempotency);
  ec_reconciliation := to_wire c.(c_reconciliation);
  ec_cancellation_semantics := as_str c.(c_cancellation);
  ec_compensation_capability := from_option (fun s => s) "" c.(c_compensation_capability) |}.

(** [EffectContract::from_contract]; the error carries the rejected field. *)
Definition contract_from_wire (m : EffectContractMsg) : option EffectContract :=
  match from_wire m.(ec_effect_class), from_wire m.(ec_idempotency),
        from_wire m.(ec_reconciliation), from_state_str m.(ec_cancellation_semantics) with
  | inl a, inl b, inl c, inl d =>
      Some (mkContract a b c d
        (if str_is_empty m.(ec_compensation_capability) then None
         else Some m.(ec_compensation_capability)))
  | _, _, _, _ => None
  end.

(** ** Policy ([policy.rs]) *)

Record DeclaredSemantics := mkDeclared {
  d_effect_class : option EffectClass;
  d_idempotency : option IdempotencySemantics;
  d_reconciliation : option ReconciliationSemantics;
  d_cancellation : option CancellationSemantics;
  d_compensation_capability : option string }.

Definition declared_default : DeclaredSemantics := mkDeclared None None None None None.

Record ResolveInputs := mkInputs {
  i_kernel : option DeclaredSemantics;
  i_claim : option DeclaredSemantics;
  i_trust : TrustState;
  i_conformance : ConformanceState;
  i_policy : option DeclaredSemantics }.

Definition class_rank (c : EffectClass) : Z :=
  match c with
  | EffectClass.ReadOnly => 0
  | EffectClass.LocalMutation => 1
  | EffectClass.ExternalMutation => 2
  | EffectClass.Opaque => 3
  | EffectClass.Unspecified => 4
  end.

Definition idempotency_rank (s : IdempotencySemantics) : Z :=
  match s with
  | IdempotencySemantics.NaturallyIdempotent => 0
  | IdempotencySemantics.IdempotencyKeySupported => 1
  | IdempotencySemantics.NotIdempotent => 2
  | IdempotencySemantics.UnknownIdempotency => 3
  | IdempotencySemantics.Unspecified => 4
  end.

Definition reconciliation_rank (s : ReconciliationSemantics) : Z :=
  match s with
  | ReconciliationSemantics.ResultLookup => 0
  | ReconciliationSemantics.DeterministicInspection => 1
  | ReconciliationSemantics.StatusLookup => 2
  | ReconciliationSemantics.Impossible => 3
  | ReconciliationSemantics.UnknownReconciliation => 4
  | ReconciliationSemantics.Unspecified => 5
  end.

Definition cancellation_rank (s : CancellationSemantics) : Z :=
  match s with
  | CancellationSemantics.BeforeDispatch => 0
  | CancellationSemantics.Cooperative => 1
  | CancellationSemantics.ProviderSpecific => 2
  | CancellationSemantics.Unsupported => 3
  end.

(** [Iterator::max_by_key]: of equal maxima, the last. *)
Definition max_by_key {A} (rank : A -> Z) (l : list A) : option A :=
  fold_left (fun acc x =>
    match acc with
    | None => Some x
    | Some a => if rank x <? rank a then Some a else Some x
    end) l None.

Definition weakest {A} (sources : list DeclaredSemantics) (field : DeclaredSemantics -> option A)
    (rank : A -> Z) : option A :=
  max_by_key rank (omap field sources).

(** [Iterator::find_map]. *)
Fixpoint find_map {A B} (f : A -> option B) (l : list A) : option B :=
  match l with
  | [] => None
  | a :: l => match f a with Some b => Some b | None => find_map f l end
  end.

Definition resolve_compensation (sources : list DeclaredSemantics) : option string :=
  match find_map d_compensation_capability sources with
  | None => None
  | Some declared =>
      if forallb (fun s => match s.(d_compensation_capability) with
                           | None => true
                           | Some c => bool_decide (c = declared)
                           end) sources
      then Some declared else None
  end.

(** The claim counts only for a trusted, conformant adapter. *)
Definition admitted_claim (i : ResolveInputs) : option DeclaredSemantics :=
  match i.(i_trust), i.(i_conformance) with
  | TrustState.Trusted, ConformanceState.Passed => i.(i_claim)
  | _, _ => None
  end.

Definition sources_of (i : ResolveInputs) : list DeclaredSemantics :=
  omap (fun o => o) [i.(i_kernel); admitted_claim i; i.(i_policy)].

Definition normal_class (c : EffectClass) : EffectClass :=
  match c with EffectClass.Unspecified => EffectClass.Opaque | other => other end.
Definition normal_idempotency (s : IdempotencySemantics) : IdempotencySemantics :=
  match s with
  | IdempotencySemantics.Unspecified => IdempotencySemantics.UnknownIdempotency
  | other => other
  end.
Definition normal_reconciliation (s : ReconciliationSemantics) : ReconciliationSemantics :=
  match s with
  | ReconciliationSemantics.Unspecified => ReconciliationSemantics.UnknownReconciliation
  | other => other
  end.

(** [policy::resolve]. *)
Definition resolve (inputs : ResolveInputs) : EffectContract :=
  let sources := sources_of inputs in {|
  c_effect_class :=
    from_option normal_class EffectClass.Opaque (weakest sources d_effect_class class_rank);
  c_idempotency :=
    from_option normal_idempotency IdempotencySemantics.UnknownIdempotency
      (weakest sources d_idempotency idempotency_rank);
  c_reconciliation :=
    from_option normal_reconciliation ReconciliationSemantics.UnknownReconciliation
      (weakest sources d_reconciliation reconciliation_rank);
  c_cancellation :=
    from_option (fun s => s) CancellationSemantics.Unsupported
      (weakest sources d_cancellation cancellation_rank);
  c_compensation_capability := resolve_compensation sources |}.

(** [policy::kernel_declared]. *)
Definition kernel_declared (operation : string) : DeclaredSemantics :=
  if decide (operation = "fixture.increment_counter") then
    mkDeclared (Some EffectClass.ExternalMutation) (Some IdempotencySemantics.IdempotencyKeySupported)
      (Some ReconciliationSemantics.StatusLookup) (Some CancellationSemantics.BeforeDispatch) None
  else if decide (operation = "fixture.unreconcilable_counter") then
    mkDeclared (Some EffectClass.ExternalMutation) (Some IdempotencySemantics.NotIdempotent)
      (Some ReconciliationSemantics.Impossible) (Some CancellationSemantics.Unsupported) None
  else declared_default.

(** ** Lemmas on [max_by_key] *)

Lemma max_by_key_fold {A} (rank : A -> Z) l a :
  exists m, fold_left (fun acc x => match acc with
      | None => Some x
      | Some a => if rank x <? rank a then Some a else Some x end) l (Some a) = Some m /\
    m ∈ a :: l /\ forall x, x ∈ a :: l -> rank x <= rank m.
Proof.
  revert a. induction l as [|y l IH]; intros a; simpl.
  - exists a. split; [done|]. split; [by left|]. intros x ->%list_elem_of_singleton. lia.
  - destruct (Z.ltb_spec (rank y) (rank a)).
    + destruct (IH a) as (m & -> & Hin & Hmax). exists m. split; [done|]. split.
      * apply elem_of_cons in Hin as [->|?]; [by left|by right; right].
      * intros x [->|[->|Hx]%elem_of_cons]%elem_of_cons; [apply Hmax; by left| |apply Hmax; by right].
        specialize (Hmax a ltac:(by left)). lia.
    + destruct (IH y) as (m & -> & Hin & Hmax). exists m. split; [done|]. split; [by right|].
      intros x [->|Hx]%elem_of_cons; [|by apply Hmax].
      specialize (Hmax y ltac:(by left)). lia.
Qed.

Lemma max_by_key_spec {A} (rank : A -> Z) l :
  match max_by_key rank l with
  | Some m => m ∈ l /\ forall x, x ∈ l -> rank x <= rank m
  | None => l = []
  end.
Proof.
  unfold max_by_key. destruct l as [|a l]; [done|]. simpl.
  destruct (max_by_key_fold rank l a) as (m & -> & ? & ?). done.
Qed.

(** The value of one axis: the default without evidence; otherwise a declared
    value, at least as dangerous as every declared one. *)
Lemma weakest_spec {A} sources (field : DeclaredSemantics -> option A) rank :
  match weakest sources field rank with
  | Some m => (exists s, s ∈ sources /\ field s = Some m) /\
      forall s x, s ∈ sources -> field s = Some x -> rank x <= rank m
  | None => forall s, s ∈ sources -> field s = None
  end.
Proof.
  unfold weakest. pose proof (max_by_key_spec rank (omap field sources)) as H.
  destruct (max_by_key rank (omap field sources)) as [m|].
  - destruct H as [Hin Hmax]. apply list_elem_of_omap in Hin as (s & Hs & Hf).
    split; [eauto|]. intros s' x Hs' Hx. apply Hmax, list_elem_of_omap. eauto.
  - intros s Hs. destruct (field s) as [x|] eqn:E; [|done].
    assert (x ∈ omap field sources) as Hx by (apply list_elem_of_omap; eauto).
    rewrite H in Hx. by apply elem_of_nil in Hx.
Qed.

(** Adding a source never makes an axis safer. *)
Lemma weakest_mono {A} sources sources' (field : DeclaredSemantics -> option A) rank (def : A) :
  (forall s, s ∈ sources -> s ∈ sources') ->
  (exists s, s ∈ sources /\ is_Some (field s)) ->
  rank (from_option (fun x => x) def (weakest sources field rank))
  <= rank (from_option (fun x => x) def (weakest sources' field rank)).
Proof.
  intros Hsub (s0 & Hs0 & [x0 Hx0]).
  pose proof (weakest_spec sources field rank) as H1.
  pose proof (weakest_spec sources' field rank) as H2.
  destruct (weakest sources field rank) as [m|]; [|by rewrite (H1 s0 Hs0) in Hx0].
  destruct (weakest sources' field rank) as [m'|].
  - destruct H1 as [(s & Hs & Hm) _]. destruct H2 as [_ Hmax]. simpl. eauto.
  - by rewrite (H2 s0 (Hsub _ Hs0)) in Hx0.
Qed.

(** ** The resolver *)

(** What the resolver promises on one axis: without evidence the default; with
    evidence, the normal form of a declared value that no declared value exceeds
    in danger. *)
Definition axis_resolved {A} (sources : list DeclaredSemantics) (field : DeclaredSemantics -> option A)
    (rank : A -> Z) (normal : A -> A) (def result : A) : Prop :=
  ((forall s, s ∈ sources -> field s = None) /\ result = def) \/
  (exists s x, s ∈ sources /\ field s = Some x /\ result = normal x /\
     forall s' x', s' ∈ sources -> field s' = Some x' -> rank x' <= rank x).

Lemma axis_resolved_weakest {A} sources (field : DeclaredSemantics -> option A) rank normal def :
  axis_resolved sources field rank normal def (from_option normal def (weakest sources field rank)).
Proof.
  pose proof (weakest_spec sources field rank) as H.
  destruct (weakest sources field rank) as [m|]; [right|by left].
  destruct H as [(s & Hs & Hm) Hmax]. simpl. eauto 8.
Qed.

(** A normal form is at least as dangerous as any declared value that is not
    [Unspecified]. *)
Lemma axis_floor {A} sources (field : DeclaredSemantics -> option A) rank normal def s x :
  (forall a b, rank a <= rank b -> rank (normal a) <= rank (normal b)) ->
  s ∈ sources -> field s = Some x ->
  rank (normal x) <= rank (from_option normal def (weakest sources field rank)).
Proof.
  intros Hmono Hs Hx. pose proof (weakest_spec sources field rank) as H.
  destruct (weakest sources field rank) as [m|]; [|by rewrite (H s Hs) in Hx].
  destruct H as [_ Hmax]. simpl. eauto.
Qed.

Lemma normal_class_mono a b : class_rank a <= class_rank b ->
  class_rank (normal_class a) <= class_rank (normal_class b).
Proof. destruct a, b; simpl; lia. Qed.
Lemma normal_idempotency_mono a b : idempotency_rank a <= idempotency_rank b ->
  idempotency_rank (normal_idempotency a) <= idempotency_rank (normal_idempotency b).
Proof. destruct a, b; simpl; lia. Qed.
Lemma normal_reconciliation_mono a b : reconciliation_rank a <= reconciliation_rank b ->
  reconciliation_rank (normal_reconciliation a) <= reconciliation_rank (normal_reconciliation b).
Proof. destruct a, b; simpl; lia. Qed.

(** The effect-policy resolver returns, on every axis independently, the
    most conservative default when no contributing source declares the axis,
    and otherwise the (normalized) least-safe value among the contributing
    sources, where an adapter's own claim contributes only when the adapter is
    trusted and its conformance evidence has passed. *)
Theorem resolve_least_safe (i : ResolveInputs) :
  let sources := sources_of i in
  let c := resolve i in
  axis_resolved sources d_effect_class class_rank normal_class EffectClass.Opaque c.(c_effect_class) /\
  axis_resolved sources d_idempotency idempotency_rank normal_idempotency
    IdempotencySemantics.UnknownIdempotency c.(c_idempotency) /\
  axis_resolved sources d_reconciliation reconciliation_rank normal_reconciliation
    ReconciliationSemantics.UnknownReconciliation c.(c_reconciliation) /\
  axis_resolved sources d_cancellation cancellation_rank (fun x => x)
    CancellationSemantics.Unsupported c.(c_cancellation) /\
  (forall s, s ∈ sources <-> i.(i_kernel) = Some s \/ i.(i_policy) = Some s \/
     (i.(i_trust) = TrustState.Trusted /\ i.(i_conformance) = ConformanceState.Passed /\
      i.(i_claim) = Some s)).
Proof.
  simpl. repeat (split; [apply axis_resolved_weakest|]).
  intros s. unfold sources_of, admitted_claim. destruct i as [k cl t cf p]. simpl.
  destruct k, p, t, cf, cl; simpl; rewrite ?elem_of_cons, ?elem_of_nil;
    intuition congruence.
Qed.

(** The resolved contract never understates danger and can always be
    stored: each axis ranks at least as dangerous as every contributing
    declaration, and no axis is the unspecified value the schema rejects. *)
Theorem resolve_never_promotes (i : ResolveInputs) (s : DeclaredSemantics) :
  s ∈ sources_of i ->
  let c := resolve i in
  (forall x, s.(d_effect_class) = Some x -> class_rank (normal_class x) <= class_rank c.(c_effect_class)) /\
  (forall x, s.(d_idempotency) = Some x ->
     idempotency_rank (normal_idempotency x) <= idempotency_rank c.(c_idempotency)) /\
  (forall x, s.(d_reconciliation) = Some x ->
     reconciliation_rank (normal_reconciliation x) <= reconciliation_rank c.(c_reconciliation)) /\
  (forall x, s.(d_cancellation) = Some x -> cancellation_rank x <= cancellation_rank c.(c_cancellation)) /\
  c.(c_effect_class) <> EffectClass.Unspecified /\
  c.(c_idempotency) <> IdempotencySemantics.Unspecified /\
  c.(c_reconciliation) <> ReconciliationSemantics.Unspecified.
Proof.
  intros Hs c. subst c. unfold resolve. simpl.
  split; [intros x Hx; eapply axis_floor; eauto using normal_class_mono|].
  split; [intros x Hx; eapply axis_floor; eauto using normal_idempotency_mono|].
  split; [intros x Hx; eapply axis_floor; eauto using normal_reconciliation_mono|].
  split; [intros x Hx; eapply (axis_floor _ _ _ (fun x => x)); eauto|].
  split; [|split]; by destruct (weakest _ _ _) as [[]|].
Qed.

(** A contract written to the wire message decodes back to itself. *)
Theorem contract_wire_roundtrip (c : EffectContract) :
  c.(c_compensation_capability) <> Some "" ->
  contract_from_wire (contract_to_wire c) = Some c.
Proof.
  intros Hc. destruct c as [a b r x o]. unfold contract_from_wire, contract_to_wire.
  cbn [ec_effect_class ec_idempotency ec_reconciliation ec_cancellation_semantics
       ec_compensation_capability c_effect_class c_idempotency c_reconciliation c_cancellation
       c_compensation_capability] in *.
  rewrite (from_to_wire a), (from_to_wire b), (from_to_wire r), (from_as_str x).
  destruct o as [[|ch s]|]; [done|reflexivity|reflexivity].
Qed.
