(* ===== verification/Effects.v ===== *)
(** * The effect coordinator (crate [effects])

    The effect state machine ([record.rs]), preparation with its deduplication
    on the logical identity ([coordinator.rs]), executor leases and fencing
    ([executor.rs]) and reconciliation ([reconcile.rs]).  Every service keeps
    [effects_rel]: rows and their frozen columns persist, the state moves along
    the table, fencing tokens never decrease, and two rows never share a
    logical identity. *)

From S2P Require Import Prelude Domain Ids Models StoreBase Store Events EffectPolicy.

Open Scope string_scope.
Open Scope Z_scope.

(** ** The table ([record.rs]) *)

Definition can_transition (from to : EffectState) : bool :=
  match from, to with
  | EffectState.Prepared, EffectState.Claimed
  | EffectState.Prepared, EffectState.Cancelled
  | EffectState.Claimed, EffectState.Claimed
  | EffectState.Claimed, EffectState.Dispatched
  | EffectState.Claimed, EffectState.Cancelled
  | EffectState.Dispatched, EffectState.Prepared
  | EffectState.Dispatched, EffectState.Acknowledged
  | EffectState.Dispatched, EffectState.Failed
  | EffectState.Dispatched, EffectState.Cancelled
  | EffectState.Dispatched, EffectState.Unknown
  | EffectState.Acknowledged, EffectState.Committed
  | EffectState.Acknowledged, EffectState.Failed
  | EffectState.Unknown, EffectState.Committed
  | EffectState.Unknown, EffectState.Failed
  | EffectState.Unknown, EffectState.Prepared => true
  | _, _ => false
  end.

Definition effect_is_terminal (s : EffectState) : bool :=
  match s with
  | EffectState.Committed | EffectState.Failed | EffectState.Cancelled => true
  | _ => false
  end.

Definition effect_is_in_flight (s : EffectState) : bool :=
  negb (effect_is_terminal s) && negb (bool_decide (s = EffectState.Unspecified)).

(** ** Preparation ([coordinator.rs]) *)

Record AdapterBinding := mkAdapterBinding {
  ab_adapter_id : AdapterId; ab_adapter_version : string; ab_adapter_digest : string }.

Record PrepareRequest := mkPrepareRequest {
  pr_effect_id : EffectId;
  pr_run_id : RunId;
  pr_step_sequence : Z;
  pr_decision_id : DecisionId;
  pr_operation : string;
  pr_request_payload : bytes;
  pr_adapter : AdapterBinding;
  pr_contract : EffectContract }.

Inductive PrepareOutcome :=
  | Prepared (row : EffectRow)
  | Replayed (row : EffectRow).

(** The effect environment: the correlation and causation it carries. *)
Record EffectEnv := mkEffectEnv {
  ee_correlation_id : option string; ee_causation_id : option EventId }.

Definition hex_digit (n : N) : ascii := if (n <? 10)%N then ascii_of_N (48 + n) else ascii_of_N (87 + n).

(** [write!(rendered, "{byte:02x}")]. *)
Fixpoint hex_lower (l : bytes) : string :=
  match l with
  | [] => ""
  | b :: l =>
      let n := Byte.to_N b in
      String (hex_digit (n / 16)) (String (hex_digit (n mod 16)) (hex_lower l))
  end.

(** [match m { Ok(..) => .., Err(error) => .. }]: runs on with the outcome. *)
Definition attempt {S A} (m : ST S A) : ST S (Res A) := fun s => let (r, s') := m s in (Ok r, s').

Section Effects.
Context `{!Ext}.

Definition request_hash (payload : bytes) : string := hex_lower (sha256 payload).

Definition contract_of_row (row : EffectRow) : EffectContract :=
  mkContract row.(EffectRow.effect_class) row.(EffectRow.idempotency_semantics)
    row.(EffectRow.reconciliation_semantics)
    (match from_state_str row.(EffectRow.cancellation_semantics) with
     | inl c => c
     | inr _ => CancellationSemantics.Unsupported
     end)
    row.(EffectRow.compensation_capability).

Definition effect_record (row : EffectRow) : EffectRecordMsg := {|
  er_effect_id := uuid_hyphenated row.(EffectRow.effect_id);
  er_run_id := uuid_hyphenated row.(EffectRow.run_id);
  er_step_sequence := row.(EffectRow.step_sequence);
  er_decision_id := uuid_hyphenated row.(EffectRow.decision_id);
  er_operation := row.(EffectRow.operation);
  er_request_hash := row.(EffectRow.request_hash);
  er_effective_contract := Some (contract_to_wire (contract_of_row row));
  er_adapter_id := uuid_hyphenated row.(EffectRow.adapter_id);
  er_adapter_version := row.(EffectRow.adapter_version);
  er_adapter_digest := row.(EffectRow.adapter_digest);
  er_state := to_wire row.(EffectRow.state);
  er_executor_id := from_option (fun s => s) "" row.(EffectRow.executor_id);
  er_executor_fencing_token := from_option (fun z => z) 0 row.(EffectRow.executor_fencing_token);
  er_lease_expires_unix_ms := from_option (fun z => z) 0 row.(EffectRow.lease_expires_ms);
  er_result_ref := from_option (fun s => s) "" row.(EffectRow.result_ref);
  er_error_code := from_option (fun s => s) "" row.(EffectRow.error_code) |}.

Definition new_effect_of (request : PrepareRequest) (hash : string) (now_ms : Z) : NewEffect := {|
  NewEffect.effect_id := request.(pr_effect_id);
  NewEffect.run_id := request.(pr_run_id);
  NewEffect.step_sequence := request.(pr_step_sequence);
  NewEffect.decision_id := request.(pr_decision_id);
  NewEffect.operation := request.(pr_operation);
  NewEffect.request_hash := hash;
  NewEffect.request_payload := request.(pr_request_payload);
  NewEffect.effect_class := request.(pr_contract).(c_effect_class);
  NewEffect.idempotency_semantics := request.(pr_contract).(c_idempotency);
  NewEffect.reconciliation_semantics := request.(pr_contract).(c_reconciliation);
  NewEffect.cancellation_semantics := as_str request.(pr_contract).(c_cancellation);
  NewEffect.compensation_capability := request.(pr_contract).(c_compensation_capability);
  NewEffect.adapter_id := request.(pr_adapter).(ab_adapter_id);
  NewEffect.adapter_version := request.(pr_adapter).(ab_adapter_version);
  NewEffect.adapter_digest := request.(pr_adapter).(ab_adapter_digest);
  NewEffect.state := EffectState.Prepared;
  NewEffect.created_at_ms := now_ms |}.

Definition replay_existing (request : PrepareRequest) (hash : string) : M PrepareOutcome :=
  let! rows := effects_list_by_run request.(pr_run_id) in
  match List.find (fun row =>
      bool_decide (row.(EffectRow.decision_id) = request.(pr_decision_id)) &&
      bool_decide (row.(EffectRow.operation) = request.(pr_operation)) &&
      bool_decide (row.(EffectRow.request_hash) = hash)) rows with
  | Some row => ret (Replayed row)
  | None => raise (kerr Internal "effect identity conflict without a matching persisted row")
  end.

(** Stages an effect event with a fresh id and the row as its payload. *)
Definition stage_effect_row (event_type : string) (id : EffectId) (row : EffectRow)
    (correlation : option string) (causation : option EventId) : M unit :=
  let! event_id := draw_uuid in
  do! stage_effect_event event_id event_type id (encode_to_vec (MsgEffectRecord (effect_record row)))
        correlation causation in
  ret tt.

Definition prepare_effect (env : EffectEnv) (request : PrepareRequest) : M PrepareOutcome :=
  let hash := request_hash request.(pr_request_payload) in
  let! now_ms := now_unix_ms in
  let! insert := attempt (effects_insert (new_effect_of request hash now_ms)) in
  match insert with
  | Err error =>
      if bool_decide (error.(err_code) = Conflict) then replay_existing request hash
      else raise error
  | Ok _ =>
      let! got := effects_get request.(pr_effect_id) in
      let! row := lift_res (ok_or got
        (kerr Internal "prepared effect is not visible in its transaction")) in
      do! stage_effect_row "EffectPrepared" request.(pr_effect_id) row
            env.(ee_correlation_id) env.(ee_causation_id) in
      ret (Prepared row)
  end.

(** ** Executor leases and fencing ([executor.rs]) *)

Definition EFFECT_LEASE_MS : Z := 30000.

Inductive ClaimOutcome :=
  | Claimed (fencing_token : Z) (row : EffectRow)
  | Busy (row : EffectRow).

Record ExecutorRef := mkExecutorRef { ex_executor_id : string; ex_fencing_token : Z }.

Definition effect_not_found (id : EffectId) : KernelError :=
  kerr NotFound ("effect " +:+ uuid_hyphenated id +:+ " does not exist").

Definition stale_executor : KernelError :=
  kerr Conflict "effect claim is held by a different executor or fencing token".

Definition load_effect (id : EffectId) : M EffectRow :=
  let! got := effects_get id in
  lift_res (ok_or got (effect_not_found id)).

(** [executor::claim]. *)
Definition effect_claim (env : EffectEnv) (id : EffectId) (executor_id : string) : M ClaimOutcome :=
  let! now_ms := now_unix_ms in
  let! ctx := txn_context in
  let! token := effects_claim id executor_id ctx.(ctx_daemon_epoch)
                  (i64_wrapping_add now_ms EFFECT_LEASE_MS) now_ms in
  let! row := load_effect id in
  match token with
  | Some fencing_token =>
      do! stage_effect_row "EffectClaimed" id row env.(ee_correlation_id) None in
      ret (Claimed fencing_token row)
  | None => ret (Busy row)
  end.

Definition state_debug (s : EffectState) : string :=
  match s with
  | EffectState.Unspecified => "Unspecified"
  | EffectState.Prepared => "Prepared"
  | EffectState.Claimed => "Claimed"
  | EffectState.Dispatched => "Dispatched"
  | EffectState.Acknowledged => "Acknowledged"
  | EffectState.Committed => "Committed"
  | EffectState.Failed => "Failed"
  | EffectState.Cancelled => "Cancelled"
  | EffectState.Unknown => "Unknown"
  end.

Definition illegal_transition (from to : EffectState) : KernelError :=
  kerr FailedPrecondition
    ("illegal effect transition " +:+ state_debug from +:+ " -> " +:+ state_debug to).

(** [verify_executor]: identity, token, daemon epoch and lease. *)
Definition verify_executor (row : EffectRow) (executor : ExecutorRef) (daemon_epoch now_ms : Z)
    : Res Z :=
  if negb (bool_decide (row.(EffectRow.executor_id) = Some executor.(ex_executor_id)))
  then Err stale_executor
  else if negb (bool_decide (row.(EffectRow.executor_fencing_token) = Some executor.(ex_fencing_token)))
  then Err stale_executor
  else if negb (bool_decide (row.(EffectRow.daemon_fencing_epoch) = Some daemon_epoch))
  then Err (kerr Conflict "executor daemon fencing epoch is stale")
  else if match row.(EffectRow.lease_expires_ms) with Some lease => lease <=? now_ms | None => false end
  then Err (kerr Conflict "executor lease has expired")
  else Ok executor.(ex_fencing_token).

(** The token the compare-and-set expects. *)
Definition expected_token (row : EffectRow) (executor : option ExecutorRef) : M (option Z) :=
  match executor with
  | Some ex =>
      let! now_ms := now_unix_ms in
      let! ctx := txn_context in
      let! token := lift_res (verify_executor row ex ctx.(ctx_daemon_epoch) now_ms) in
      ret (Some token)
  | None => ret row.(EffectRow.executor_fencing_token)
  end.

(** [executor::transition] with [Transition { to, event_type, patch }]. *)
Definition effect_transition (env : EffectEnv) (id : EffectId) (executor : option ExecutorRef)
    (to : EffectState) (event_type : string) (patch : EffectPatch) : M EffectRow :=
  let! row := load_effect id in
  guard! can_transition row.(EffectRow.state) to else illegal_transition row.(EffectRow.state) to in
  let! token := expected_token row executor in
  let! applied := effects_cas_transition id row.(EffectRow.state) token patch in
  guard! applied else stale_executor in
  let! row := load_effect id in
  do! stage_effect_row event_type id row env.(ee_correlation_id) None in
  ret row.

(** [EffectPatch { state, .. }] with the columns a transition may set. *)
Definition effect_patch (to : EffectState) (provider_ref result_ref error_code : option string)
    : EffectPatch := {|
  EffectPatch.state := Some to;
  EffectPatch.executor_id := None;
  EffectPatch.executor_fencing_token := None;
  EffectPatch.daemon_fencing_epoch := None;
  EffectPatch.lease_expires_ms := None;
  EffectPatch.provider_operation_ref := provider_ref;
  EffectPatch.result_ref := result_ref;
  EffectPatch.error_code := error_code |}.

Definition mark_dispatched (env : EffectEnv) (id : EffectId) (ex : ExecutorRef)
    (provider_ref : option string) : M EffectRow :=
  effect_transition env id (Some ex) EffectState.Dispatched "EffectDispatched"
    (effect_patch EffectState.Dispatched provider_ref None None).

Definition acknowledge (env : EffectEnv) (id : EffectId) (ex : ExecutorRef)
    (result_ref : option string) : M EffectRow :=
  effect_transition env id (Some ex) EffectState.Acknowledged "EffectAcknowledged"
    (effect_patch EffectState.Acknowledged None result_ref None).

Definition commit (env : EffectEnv) (id : EffectId) (ex : ExecutorRef)
    (result_ref : option string) : M EffectRow :=
  effect_transition env id (Some ex) EffectState.Committed "EffectCommitted"
    (effect_patch EffectState.Committed None result_ref None).

Definition commit_durable (env : EffectEnv) (id : EffectId) (result_ref : option string) : M EffectRow :=
  effect_transition env id None EffectState.Committed "EffectCommitted"
    (effect_patch EffectState.Committed None result_ref None).

Definition fail (env : EffectEnv) (id : EffectId) (ex : ExecutorRef) (error_code : string) : M EffectRow :=
  effect_transition env id (Some ex) EffectState.Failed "EffectFailed"
    (effect_patch EffectState.Failed None None (Some error_code)).

Definition mark_unknown (env : EffectEnv) (id : EffectId) (ex : option ExecutorRef) : M EffectRow :=
  effect_transition env id ex EffectState.Unknown "EffectUnknown"
    (effect_patch EffectState.Unknown None None None).

Definition effect_cancel (env : EffectEnv) (id : EffectId) (ex : option ExecutorRef) : M EffectRow :=
  effect_transition env id ex EffectState.Cancelled "EffectCancelled"
    (effect_patch EffectState.Cancelled None None None).

(** ** Reconciliation ([reconcile.rs]) *)

Inductive ObservedOutcome :=
  | ObsSucceeded (result_ref : string)
  | ObsFailed (error_code : string)
  | ObsNotFound
  | ObsUnknown.

Inductive ReconcilePlan :=
  | Settle (observed : ObservedOutcome)
  | Redispatch
  | PlanUnknown.

Definition reconcile_plan (row : EffectRow) (observed : ObservedOutcome) : ReconcilePlan :=
  if negb (bool_decide (row.(EffectRow.state) = EffectState.Dispatched)) then PlanUnknown
  else match observed with
       | ObsSucceeded _ | ObsFailed _ => Settle observed
       | ObsNotFound =>
           if is_safely_redispatchable (contract_of_row row) then Redispatch else PlanUnknown
       | ObsUnknown => PlanUnknown
       end.

Definition stage_reconciled (env : EffectEnv) (id : EffectId) (row : EffectRow) : M unit :=
  stage_effect_row "EffectReconciled" id row env.(ee_correlation_id) None.

Definition apply_observed (env : EffectEnv) (id : EffectId) (plan : ReconcilePlan) : M EffectRow :=
  let! persisted := load_effect id in
  if negb (bool_decide (persisted.(EffectRow.state) = EffectState.Dispatched)) then ret persisted
  else match plan with
  | Settle (ObsSucceeded result_ref) =>
      do! effect_transition env id None EffectState.Acknowledged "EffectAcknowledged"
            (effect_patch EffectState.Acknowledged None (Some result_ref) None) in
      let! row := effect_transition env id None EffectState.Committed "EffectCommitted"
            (effect_patch EffectState.Committed None None None) in
      do! stage_reconciled env id row in
      ret row
  | Settle (ObsFailed error_code) =>
      let! row := effect_transition env id None EffectState.Failed "EffectFailed"
            (effect_patch EffectState.Failed None None (Some error_code)) in
      do! stage_reconciled env id row in
      ret row
  | Redispatch =>
      effect_transition env id None EffectState.Prepared "EffectPrepared"
        (effect_patch EffectState.Prepared None None None)
  | Settle ObsNotFound | Settle ObsUnknown | PlanUnknown =>
      effect_transition env id None EffectState.Unknown "EffectUnknown"
        (effect_patch EffectState.Unknown None None None)
  end.

Inductive Resolution := MarkSucceeded | MarkFailed | RetryAcceptingDuplicateRisk.

(** [Resolution::parse]. *)
Definition resolution_parse (action : string) : option Resolution :=
  if decide (action = "mark_succeeded") then Some MarkSucceeded
  else if decide (action = "mark_failed") then Some MarkFailed
  else if decide (action = "retry_accepting_duplicate_risk") then Some RetryAcceptingDuplicateRisk
  else None.

Definition resolution_target (r : Resolution) : EffectState :=
  match r with
  | MarkSucceeded => EffectState.Committed
  | MarkFailed => EffectState.Failed
  | RetryAcceptingDuplicateRisk => EffectState.Prepared
  end.

Definition apply_resolution (env : EffectEnv) (id : EffectId) (resolution : Resolution)
    (result_ref : option string) (reason : string) : M EffectRow :=
  let to := resolution_target resolution in
  let! row :=
    match resolution with
    | MarkSucceeded => effect_transition env id None to "EffectCommitted" (effect_patch to None result_ref None)
    | MarkFailed => effect_transition env id None to "EffectFailed"
        (effect_patch to None None (Some (if str_is_empty reason then "resolved_failed" else reason)))
    | RetryAcceptingDuplicateRisk =>
        effect_transition env id None to "EffectPrepared" (effect_patch to None None None)
    end in
  do! stage_reconciled env id row in
  ret row.
End Effects.

(** ** How an effect row evolves *)

Definition effect_step (a b : EffectState) : Prop := can_transition a b = true.

(** The columns frozen at preparation. *)
Definition effect_frozen (r : EffectRow) :=
  (r.(EffectRow.effect_id), r.(EffectRow.run_id), r.(EffectRow.step_sequence),
   r.(EffectRow.decision_id), r.(EffectRow.operation), r.(EffectRow.request_hash),
   r.(EffectRow.request_payload), r.(EffectRow.effect_class), r.(EffectRow.idempotency_semantics),
   r.(EffectRow.reconciliation_semantics), r.(EffectRow.cancellation_semantics),
   r.(EffectRow.compensation_capability), r.(EffectRow.adapter_id), r.(EffectRow.adapter_version),
   r.(EffectRow.adapter_digest), r.(EffectRow.created_at_ms)).

Definition fencing_token (r : EffectRow) : Z :=
  from_option (fun z => z) 0 r.(EffectRow.executor_fencing_token).

Record effect_evolves (r r' : EffectRow) : Prop := {
  ee_frozen : effect_frozen r' = effect_frozen r;
  ee_state : rtc effect_step r.(EffectRow.state) r'.(EffectRow.state);
  ee_token : fencing_token r <= fencing_token r';
  ee_claim : r'.(EffectRow.state) = EffectState.Claimed ->
    r.(EffectRow.state) = EffectState.Claimed \/ fencing_token r < fencing_token r' }.

#[export] Instance effect_evolves_preorder : PreOrder effect_evolves.
Proof.
  split.
  - intros r. split; [done|done|lia|auto].
  - intros r1 r2 r3 [F1 S1 T1 C1] [F2 S2 T2 C2]. split; [congruence|by transitivity (EffectRow.state r2)|lia|].
    intros Hc. destruct (C2 Hc) as [Hc2|]; [|right; lia]. destruct (C1 Hc2); [by left|right; lia].
Qed.

Lemma effect_terminal_absorbing a b : effect_is_terminal a = true -> rtc effect_step a b -> b = a.
Proof.
  intros Ht Hr. destruct Hr as [|x y z Hxy _]; [done|].
  unfold effect_step in Hxy. destruct x; try done; destruct y; done.
Qed.

Definition identity_of (r : EffectRow) :=
  (r.(EffectRow.run_id), r.(EffectRow.decision_id), r.(EffectRow.operation), r.(EffectRow.request_hash)).

Record effects_inv (d : Db) : Prop := {
  ei_key : forall id r, d.(effects) !! id = Some r -> r.(EffectRow.effect_id) = id;
  ei_state : forall id r, d.(effects) !! id = Some r -> r.(EffectRow.state) <> EffectState.Unspecified;
  ei_identity : forall i1 r1 i2 r2, d.(effects) !! i1 = Some r1 -> d.(effects) !! i2 = Some r2 ->
    identity_of r1 = identity_of r2 -> i1 = i2 }.

Definition effects_evolve (d d' : Db) : Prop :=
  forall id r, d.(effects) !! id = Some r -> exists r', d'.(effects) !! id = Some r' /\ effect_evolves r r'.

Definition effects_rel (d d' : Db) : Prop :=
  (effects_inv d -> effects_inv d') /\ effects_evolve d d'.

#[export] Instance effects_rel_preorder : PreOrder effects_rel.
Proof.
  split.
  - intros d. split; [done|]. intros id r Hr. exists r. split; [done|reflexivity].
  - intros d1 d2 d3 [I1 E1] [I2 E2]. split; [auto|]. intros id r Hr.
    destruct (E1 _ _ Hr) as (r2 & Hr2 & V2). destruct (E2 _ _ Hr2) as (r3 & Hr3 & V3).
    exists r3. split; [done|by transitivity r2].
Qed.

Lemma effects_rel_frame d d' : d.(effects) = d'.(effects) -> effects_rel d d'.
Proof.
  intros E. split.
  - intros [H1 H2 H3]. split; rewrite <- E; eauto.
  - intros id r Hr. rewrite <- E. exists r. split; [done|reflexivity].
Qed.
#[export] Hint Extern 1 (effects_rel _ _) => apply effects_rel_frame; reflexivity : frame.

(** A service that leaves the effects alone. *)
Definition effects_same (d d' : Db) : Prop := d'.(effects) = d.(effects).
#[export] Instance effects_same_preorder : PreOrder effects_same.
Proof. split; [by intros ?|]. intros d1 d2 d3 E1 E2. unfold effects_same in *. congruence. Qed.
#[export] Hint Extern 1 (effects_same _ _) => reflexivity : frame.

Definition put_effect (id : EffectId) (r : EffectRow) (d : Db) : Db :=
  set_effects (<[id := r]> d.(effects)) d.

Lemma effect_step_specified a b :
  rtc effect_step a b -> a <> EffectState.Unspecified -> b <> EffectState.Unspecified.
Proof.
  intros H Ha. apply rtc_inv_r in H as [->|(c & _ & H)]; [done|].
  intros ->. unfold effect_step in H. by destruct c.
Qed.

Lemma put_effect_rel id r r' d :
  d.(effects) !! id = Some r -> effect_evolves r r' -> effects_rel d (put_effect id r' d).
Proof.
  intros Hr Hev. pose proof Hev as [F S T _].
  assert (Hold : forall i x, effects (put_effect id r' d) !! i = Some x -> exists x0,
     effects d !! i = Some x0 /\ effect_frozen x = effect_frozen x0 /\
     (x0.(EffectRow.state) <> EffectState.Unspecified -> x.(EffectRow.state) <> EffectState.Unspecified)).
  { intros i x Hx. simpl in Hx. apply lookup_insert_Some in Hx as [[<- <-]|[? ?]].
    - exists r. split; [done|]. split; [done|]. by apply effect_step_specified.
    - by exists x. }
  split.
  - intros [H1 H2 H3]. split.
    + intros i x (x0 & Hx0 & F0 & _)%Hold. injection F0 as. rewrite <- (H1 _ _ Hx0). congruence.
    + intros i x (x0 & Hx0 & _ & S0)%Hold. eauto.
    + intros i1 x1 i2 x2 (y1 & Hy1 & F1 & _)%Hold (y2 & Hy2 & F2 & _)%Hold Hid.
      apply (H3 _ _ _ _ Hy1 Hy2). unfold identity_of in *. injection F1 as. injection F2 as.
      injection Hid as. congruence.
  - intros i x Hx. simpl. destruct (decide (id = i)) as [->|Hne].
    + rewrite Hr in Hx. injection Hx as <-. exists r'. by rewrite lookup_insert_eq.
    + exists x. rewrite lookup_insert_ne by done. split; [done|reflexivity].
Qed.

(** ** The effect statements *)

Lemma effects_get_inv id t o t' :
  effects_get id t = (Ok o, t') ->
  t' = t /\ o = t.(t_db).(effects) !! id /\ (forall r, o = Some r -> decode_effect r = Ok r).
Proof.
  unfold effects_get. intros E. inv_run. rename select (opt_traverse _ _ = _) into H0.
  destruct (effects (t_db t') !! id) as [r|] eqn:Hr; simpl in *.
  - destruct (decode_effect r) as [r1|e] eqn:D; simpl in *; [|done]. injection H0 as <-.
    assert (r1 = r) as -> by (unfold decode_effect in D; inv_ok; done).
    split; [done|]. split; [done|]. by intros ? [= <-].
  - injection H0 as <-. done.
Qed.

Lemma effects_cas_transition_inv id from token p t b t' :
  effects_cas_transition id from token p t = (Ok b, t') ->
  (b = true /\ exists r, t.(t_db).(effects) !! id = Some r /\ r.(EffectRow.state) = from /\
     (forall k, token = Some k -> r.(EffectRow.executor_fencing_token) = Some k) /\
     t' = set_db (put_effect id (apply_effect_patch p r) t.(t_db)) t) \/
  (b = false /\ t' = t).
Proof.
  unfold effects_cas_transition. intros E. inv_store; [|by right|by right].
  left. split; [done|]. eexists. split; [done|].
  rename select (_ && _ = true) into Hm. apply andb_true_iff in Hm as [Hs Ht].
  apply bool_decide_eq_true in Hs. split; [done|]. split; [|done].
  intros k ->. rename select (opt_traverse (encode_u64 _) (Some k) = _) into He. simpl in He.
  destruct (encode_u64 _ k) as [k'|] eqn:Ek; [|done]. simpl in He. injection He as <-.
  apply encode_u64_ok in Ek as [-> _]. by apply bool_decide_eq_true in Ht.
Qed.

Lemma effects_claim_inv id ex epoch lease now t o t' :
  effects_claim id ex epoch lease now t = (Ok o, t') ->
  (exists r, t.(t_db).(effects) !! id = Some r /\ claimable now r = true /\
     o = Some (fencing_token r + 1) /\
     t' = set_db (put_effect id (claim_row ex epoch lease now r) t.(t_db)) t) \/
  (o = None /\ t' = t /\ forall r, t.(t_db).(effects) !! id = Some r -> claimable now r = false).
Proof.
  unfold effects_claim. intros E. inv_store.
  - left. eexists. split; [done|]. split; [done|].
    rename select (res_map _ _ = _) into Ho.
    destruct (u64_column _ _ _) as [z|] eqn:Ez; [|done]. simpl in Ho. injection Ho as <-.
    apply u64_column_ok in Ez as [-> _]. split; [done|].
    rename select (encode_u64 _ _ = _) into He. apply encode_u64_ok in He as [-> _]. done.
  - right. split; [done|]. split; [done|]. intros ? [= <-]. done.
  - right. done.
Qed.

(** A failed insertion leaves the transaction as it was. *)
Lemma effects_insert_err n t e t' : effects_insert n t = (Err e, t') -> t' = t.
Proof.
  unfold effects_insert, bind, query, gets, lift_res, update_db, modify.
  destruct (encode_u64 _ _); [|by intros [= _ <-]].
  match goal with |- context [constraints ?l t] =>
    pose proof (constraints_state l t) as Hs; destruct (constraints l t) as [[]] end.
  - by intros [=].
  - by intros [= _ <-].
Qed.

Lemma effects_insert_inv n t u t' :
  effects_insert n t = (Ok u, t') ->
  n.(NewEffect.state) <> EffectState.Unspecified /\
  t.(t_db).(effects) !! n.(NewEffect.effect_id) = None /\
  (forall i r, t.(t_db).(effects) !! i = Some r -> identity_of r <> identity_of (effect_row_of_new n)) /\
  t' = set_db (put_effect n.(NewEffect.effect_id) (effect_row_of_new n) t.(t_db)) t.
Proof.
  unfold effects_insert. intros E. inv_store.
  rename select (effect_checks _ = true) into Hc. rename select (absent _ _ = true) into Ha.
  rename select (none_such _ _ = true) into Hu. apply absent_true in Ha. rewrite none_such_true in Hu.
  split; [|split; [done|split; [|done]]].
  - unfold effect_checks in Hc. rewrite !andb_true_iff in Hc. destruct Hc as [_ Hc].
    intros Hs. by rewrite Hs in Hc.
  - intros i r Hr Hid. specialize (Hu i r Hr). unfold identity_of in Hid. injection Hid as I1 I2 I3 I4.
    unfold same_identity in Hu. simpl in *. rewrite I1, I2, I3, I4 in Hu.
    by rewrite !bool_decide_true in Hu.
Qed.

Lemma effects_insert_effects n : ensures (on_db effects_rel) (effects_insert n).
Proof.
  intros t u t' (Hs & Ha & Hu & ->)%effects_insert_inv. split; [|done]. simpl.
  set (id := NewEffect.effect_id n) in *. split.
  - intros [H1 H2 H3]. split; simpl.
    + intros i r [[<- <-]|[_ Hr]]%lookup_insert_Some; [done|eauto].
    + intros i r [[<- <-]|[_ Hr]]%lookup_insert_Some; [done|eauto].
    + intros i1 r1 i2 r2 [[<- <-]|[_ Hr1]]%lookup_insert_Some [[<- <-]|[_ Hr2]]%lookup_insert_Some Hid.
      * done.
      * exfalso. by apply (Hu i2 r2 Hr2).
      * exfalso. by apply (Hu i1 r1 Hr1).
      * eauto.
  - intros i r Hr. exists r. simpl. rewrite lookup_insert_ne by congruence. split; [done|reflexivity].
Qed.
#[export] Hint Resolve effects_insert_effects : ensures.

Lemma decode_effects_ok l k : res_collect decode_effect l = Ok k -> k = l.
Proof.
  intros E. apply res_collect_same in E as [-> _]; [done|]. intros a b Hb. unfold decode_effect in Hb. inv_ok. done.
Qed.

(** ** What the services keep *)

Lemma attempt_insert_ok n t r t' :
  attempt (effects_insert n) t = (Ok r, t') -> effects_insert n t = (r, t').
Proof. unfold attempt. destruct (effects_insert n t). by intros [= -> ->]. Qed.

Section ServiceFootprints.
Context `{!Ext}.

Lemma load_effect_inv id t r t' :
  load_effect id t = (Ok r, t') ->
  t' = t /\ t.(t_db).(effects) !! id = Some r /\ decode_effect r = Ok r.
Proof.
  unfold load_effect. intros E. inv_ok. rename select (effects_get _ _ = _) into G.
  apply effects_get_inv in G as (-> & G & D). rewrite <- G. auto.
Qed.
Lemma load_effect_touches id : touches no_table (load_effect id).
Proof. intros t r t' (-> & _)%load_effect_inv. split; [done|]. by exists tt. Qed.
Lemma expected_token_touches row ex : touches no_table (expected_token row ex).
Proof. unfold expected_token. solve_reads. Qed.
Lemma replay_existing_touches req hash : touches no_table (replay_existing req hash).
Proof. unfold replay_existing. solve_reads. Qed.
Lemma stage_effect_row_touches ty id row corr caus :
  touches set_outbox (stage_effect_row ty id row corr caus).
Proof.
  intros t u t' E. unfold stage_effect_row in E. inv_run.
  rename select (stage_effect_event _ _ _ _ _ _ _ = _) into S.
  apply stage_effect_event_touches in S as [C [w W]]. split; [exact C|]. by exists w.
Qed.
Lemma stage_effect_row_events ty id row corr caus :
  ensures (on_db events_rel) (stage_effect_row ty id row corr caus).
Proof. unfold stage_effect_row. solve_ensures. Qed.
Lemma attempt_insert_touches n : touches set_effects (attempt (effects_insert n)).
Proof.
  intros t r t' E%attempt_insert_ok. destruct r as [u|e].
  - eapply effects_insert_touches, E.
  - apply effects_insert_err in E as ->. split; [done|]. apply set_same.
Qed.
Lemma attempt_insert_effects n : ensures (on_db effects_rel) (attempt (effects_insert n)).
Proof.
  intros t r t' E%attempt_insert_ok. destruct r as [u|e].
  - eapply effects_insert_effects, E.
  - apply effects_insert_err in E as ->. reflexivity.
Qed.
End ServiceFootprints.
#[export] Hint Resolve load_effect_touches expected_token_touches replay_existing_touches
  stage_effect_row_touches attempt_insert_touches : touches.
#[export] Hint Resolve stage_effect_row_events attempt_insert_effects : ensures.

(** Every relation that neither the effects table nor the outbox can break. *)
Section FrameEffects.
Context `{!Ext} (R : Db -> Db -> Prop) `{!PreOrder R}.
Hypothesis HE : forall x d, R d (set_effects x d).
Hypothesis HO : forall x d, R d (set_outbox x d).

Lemma effect_transition_frame env id ex to ty p :
  ensures (on_db R) (effect_transition env id ex to ty p).
Proof. unfold effect_transition. solve_ensures. Qed.
Lemma effect_claim_frame env id ex : ensures (on_db R) (effect_claim env id ex).
Proof. unfold effect_claim. solve_ensures. Qed.
Lemma prepare_effect_frame env req : ensures (on_db R) (prepare_effect env req).
Proof. unfold prepare_effect. solve_ensures. Qed.
Lemma apply_observed_frame env id plan : ensures (on_db R) (apply_observed env id plan).
Proof. pose proof effect_transition_frame. unfold apply_observed, stage_reconciled. solve_ensures. Qed.
Lemma apply_resolution_frame env id r res why : ensures (on_db R) (apply_resolution env id r res why).
Proof. pose proof effect_transition_frame. unfold apply_resolution, stage_reconciled. solve_ensures. Qed.
End FrameEffects.

Ltac frame_service lem := apply lem; [apply _ | intros ? ?; solve [eauto 2 with frame] ..].
#[export] Hint Extern 3 (ensures (on_db _) (effect_transition _ _ _ _ _ _)) =>
  frame_service effect_transition_frame : ensures.
#[export] Hint Extern 3 (ensures (on_db _) (effect_claim _ _ _)) => frame_service effect_claim_frame : ensures.
#[export] Hint Extern 3 (ensures (on_db _) (prepare_effect _ _)) => frame_service prepare_effect_frame : ensures.
#[export] Hint Extern 3 (ensures (on_db _) (apply_observed _ _ _)) =>
  frame_service apply_observed_frame : ensures.
#[export] Hint Extern 3 (ensures (on_db _) (apply_resolution _ _ _ _ _)) =>
  frame_service apply_resolution_frame : ensures.

Section ServiceRelations.
Context `{!Ext}.

(** A transition's patch sets its target, which is never a claim, and no fencing
    column. *)
Definition plain_patch (to : EffectState) (p : EffectPatch) : Prop :=
  to <> EffectState.Claimed /\ p.(EffectPatch.state) = Some to /\ p.(EffectPatch.executor_fencing_token) = None.

Lemma apply_effect_patch_evolves from to p r :
  r.(EffectRow.state) = from -> can_transition from to = true -> plain_patch to p ->
  effect_evolves r (apply_effect_patch p r).
Proof.
  intros Hs Hc (Hne & Ht & Hk). split; [done|..]; unfold fencing_token; simpl.
  - rewrite Ht, Hs. by apply rtc_once.
  - rewrite Hk. simpl. lia.
  - by rewrite Ht.
Qed.

Lemma effects_cas_transition_effects id from token to p :
  can_transition from to = true -> plain_patch to p ->
  ensures (on_db effects_rel) (effects_cas_transition id from token p).
Proof.
  intros Hc Hp t b t' E.
  apply effects_cas_transition_inv in E as [(-> & r & Hr & Hs & _ & ->)|(-> & ->)]; [|reflexivity].
  split; [|done]. eapply put_effect_rel; [done|]. by eapply apply_effect_patch_evolves.
Qed.

Lemma claim_row_evolves ex epoch lease now r :
  claimable now r = true -> effect_evolves r (claim_row ex epoch lease now r).
Proof.
  intros Hc. split; [done|..].
  - simpl. apply rtc_once. unfold claimable in Hc. apply orb_true_iff in Hc as [Hs|Hs].
    + apply bool_decide_eq_true in Hs. by rewrite Hs.
    + apply andb_true_iff in Hs as [Hs _]. apply bool_decide_eq_true in Hs. by rewrite Hs.
  - unfold fencing_token. simpl. lia.
  - right. unfold fencing_token. simpl. lia.
Qed.

Lemma effects_claim_effects id ex epoch lease now :
  ensures (on_db effects_rel) (effects_claim id ex epoch lease now).
Proof.
  intros t o t' [(r & Hr & Hc & -> & ->)|(-> & -> & _)]%effects_claim_inv; [|reflexivity].
  split; [|done]. eapply put_effect_rel; [done|]. by apply claim_row_evolves.
Qed.
#[local] Hint Resolve effects_claim_effects : ensures.

Lemma effect_transition_effects env id ex to ty p :
  plain_patch to p -> ensures (on_db effects_rel) (effect_transition env id ex to ty p).
Proof.
  intros Hp. unfold effect_transition. solve_ensures. by eapply effects_cas_transition_effects.
Qed.
#[local] Hint Extern 1 (ensures (on_db effects_rel) (effect_transition _ _ _ _ _ _)) =>
  apply effect_transition_effects; done : ensures.

Lemma effect_claim_effects env id ex : ensures (on_db effects_rel) (effect_claim env id ex).
Proof. unfold effect_claim. solve_ensures. Qed.
Lemma prepare_effect_effects env req : ensures (on_db effects_rel) (prepare_effect env req).
Proof. unfold prepare_effect. solve_ensures. Qed.
Lemma apply_observed_effects env id plan : ensures (on_db effects_rel) (apply_observed env id plan).
Proof. unfold apply_observed, stage_reconciled. solve_ensures. Qed.
Lemma apply_resolution_effects env id r res why :
  ensures (on_db effects_rel) (apply_resolution env id r res why).
Proof. unfold apply_resolution, stage_reconciled. solve_ensures. Qed.

Lemma effect_transition_events env id ex to ty p :
  ensures (on_db events_rel) (effect_transition env id ex to ty p).
Proof. unfold effect_transition. solve_ensures. Qed.
#[local] Hint Resolve effect_transition_events : ensures.
Lemma effect_claim_events env id ex : ensures (on_db events_rel) (effect_claim env id ex).
Proof. unfold effect_claim. solve_ensures. Qed.
Lemma prepare_effect_events env req : ensures (on_db events_rel) (prepare_effect env req).
Proof. unfold prepare_effect. solve_ensures. Qed.
Lemma apply_observed_events env id plan : ensures (on_db events_rel) (apply_observed env id plan).
Proof. unfold apply_observed, stage_reconciled. solve_ensures. Qed.
Lemma apply_resolution_events env id r res why :
  ensures (on_db events_rel) (apply_resolution env id r res why).
Proof. unfold apply_resolution, stage_reconciled. solve_ensures. Qed.
End ServiceRelations.
#[export] Hint Extern 1 (ensures (on_db effects_rel) (effect_transition _ _ _ _ _ _)) =>
  apply effect_transition_effects; done : ensures.
#[export] Hint Resolve effect_claim_effects prepare_effect_effects apply_observed_effects
  apply_resolution_effects effect_transition_events effect_claim_events prepare_effect_events
  apply_observed_events apply_resolution_events : ensures.

(** ** Behaviour *)

Section Behaviour.
Context `{!Ext}.

Lemma load_effect_run id t r :
  t.(t_db).(effects) !! id = Some r -> decode_effect r = Ok r -> load_effect id t = (Ok r, t).
Proof.
  intros Hr Hd. unfold load_effect, effects_get, bind, query, gets, lift_res. rewrite Hr. simpl.
  by rewrite Hd.
Qed.

(** Verification accepts exactly the current holder of a live claim. *)
Lemma verify_executor_ok row ex epoch now k :
  verify_executor row ex epoch now = Ok k <->
  row.(EffectRow.executor_id) = Some ex.(ex_executor_id) /\
  row.(EffectRow.executor_fencing_token) = Some ex.(ex_fencing_token) /\
  row.(EffectRow.daemon_fencing_epoch) = Some epoch /\
  (forall lease, row.(EffectRow.lease_expires_ms) = Some lease -> now < lease) /\
  k = ex.(ex_fencing_token).
Proof.
  unfold verify_executor.
  repeat case_bool_decide; simpl; [|by split; [|intros (?&?&?&?&?)]..].
  destruct (EffectRow.lease_expires_ms row) as [lease|]; [destruct (Z.leb_spec lease now)|]; split.
  - done.
  - intros (_ & _ & _ & Hl & _). specialize (Hl lease eq_refl). lia.
  - intros [= <-]. repeat split; try done. by intros ? [= <-].
  - by intros (_ & _ & _ & _ & ->).
  - intros [= <-]. done.
  - by intros (_ & _ & _ & _ & ->).
Qed.

(** What a successful transition did. *)
Lemma effect_transition_inv env id ex to ty p t row t' :
  effect_transition env id ex to ty p t = (Ok row, t') ->
  exists r, t.(t_db).(effects) !! id = Some r /\ can_transition r.(EffectRow.state) to = true /\
    row = apply_effect_patch p r /\
    t'.(t_db).(effects) = <[id := row]> t.(t_db).(effects) /\
    forall e, ex = Some e ->
      r.(EffectRow.executor_id) = Some e.(ex_executor_id) /\
      r.(EffectRow.executor_fencing_token) = Some e.(ex_fencing_token) /\
      r.(EffectRow.daemon_fencing_epoch) = Some t.(t_ctx).(ctx_daemon_epoch) /\
      forall lease, r.(EffectRow.lease_expires_ms) = Some lease -> clock_ms t.(t_clock) < lease.
Proof.
  unfold effect_transition. intros E.
  apply bind_ok_inv in E as (r & t1 & (-> & Hr & Hd)%load_effect_inv & E).
  exists r. split; [done|]. destruct (can_transition _ _) eqn:Hc; [|inv_ok]. split; [done|].
  apply bind_ok_inv in E as (token & t2 & Et & E).
  assert (t_db t2 = t_db t) as Edb by apply (touches_reads _ _ _ _ (expected_token_touches r ex) Et).
  apply bind_ok_inv in E as (b & t3 & Ec & E).
  apply effects_cas_transition_inv in Ec as [(-> & r1 & Hr1 & _ & _ & ->)|(-> & ->)]; [|inv_ok].
  rewrite Edb, Hr in Hr1. injection Hr1 as <-.
  apply bind_ok_inv in E as (row2 & t4 & (-> & Hrow & _)%load_effect_inv & E).
  simpl in Hrow. rewrite lookup_insert_eq in Hrow. injection Hrow as <-.
  apply bind_ok_inv in E as (u & t5 & Es & E). inv_ok.
  split; [done|]. apply stage_effect_row_touches in Es as [_ [w W]]. split.
  - rewrite W. simpl. by rewrite Edb.
  - intros e ->. unfold expected_token in Et. inv_run.
    rename select (verify_executor _ _ _ _ = _) into V. apply verify_executor_ok in V as (? & ? & ? & ? & _).
    done.
Qed.

(** A transition of an effect is accepted only from a legal source state
    and, when an executor presents itself, only from the executor that
    currently holds the claim: same identity, same fencing token, same daemon
    epoch, lease not expired.  The row then carries exactly the patch, and no
    other effect changes. *)
Theorem effect_transition_accepts env id ex to ty p t row t' :
  effect_transition env id (Some ex) to ty p t = (Ok row, t') ->
  exists r,
    t.(t_db).(effects) !! id = Some r /\
    can_transition r.(EffectRow.state) to = true /\
    r.(EffectRow.executor_id) = Some ex.(ex_executor_id) /\
    r.(EffectRow.executor_fencing_token) = Some ex.(ex_fencing_token) /\
    r.(EffectRow.daemon_fencing_epoch) = Some t.(t_ctx).(ctx_daemon_epoch) /\
    (forall lease, r.(EffectRow.lease_expires_ms) = Some lease -> clock_ms t.(t_clock) < lease) /\
    row = apply_effect_patch p r /\
    t'.(t_db).(effects) = <[id := row]> t.(t_db).(effects).
Proof.
  intros (r & Hr & Hc & -> & Ht & Hx)%effect_transition_inv.
  destruct (Hx ex eq_refl) as (? & ? & ? & ?). exists r. done.
Qed.

Lemma effect_claim_inv env id ex t tok row t' :
  effect_claim env id ex t = (Ok (Claimed tok row), t') ->
  exists r, t.(t_db).(effects) !! id = Some r /\ claimable (clock_ms t.(t_clock)) r = true /\
    tok = fencing_token r + 1 /\
    row = claim_row ex t.(t_ctx).(ctx_daemon_epoch)
            (i64_wrapping_add (clock_ms t.(t_clock)) EFFECT_LEASE_MS) (clock_ms t.(t_clock)) r /\
    t'.(t_db).(effects) = <[id := row]> t.(t_db).(effects).
Proof.
  unfold effect_claim. intros E.
  apply bind_ok_inv in E as (now & t1 & [= <- <-] & E).
  apply bind_ok_inv in E as (ctx & t2 & [= <- <-] & E).
  apply bind_ok_inv in E as (o & t3 & Ec & E).
  apply bind_ok_inv in E as (row1 & t4 & (-> & Hrow & _)%load_effect_inv & E).
  apply effects_claim_inv in Ec as [(r & Hr & Hc & -> & ->)|(-> & -> & _)]; [|inv_ok; done].
  simpl in *. rewrite lookup_insert_eq in Hrow. injection Hrow as <-.
  apply bind_ok_inv in E as (u & t5 & Es & E). inv_ok. simplify_eq.
  apply stage_effect_row_touches in Es as [_ [w W]].
  exists r. repeat split; try done. by rewrite W.
Qed.

(** C10: Fencing.  A successful claim takes an effect that was prepared or whose
    lease had run out, and raises the fencing token by one; from then on, while
    the claim's row stands, no transition presented with any other fencing
    token can succeed, in particular none by the executor it was taken from. *)
Theorem claim_fences_previous_executor env id ex t tok row t' :
  effect_claim env id ex t = (Ok (Claimed tok row), t') ->
  (exists r, t.(t_db).(effects) !! id = Some r /\ claimable (clock_ms t.(t_clock)) r = true /\
     tok = fencing_token r + 1 /\ fencing_token row = tok) /\
  forall env2 old to ty p t2,
    t2.(t_db).(effects) !! id = Some row -> old.(ex_fencing_token) <> tok ->
    exists e, fst (effect_transition env2 id (Some old) to ty p t2) = Err e.
Proof.
  intros (r & Hr & Hc & Htok & Hrow & Ht)%effect_claim_inv. split.
  - exists r. repeat split; try done. by rewrite Hrow, Htok.
  - intros env2 old to ty p t2 Hid Hne.
    destruct (effect_transition env2 id (Some old) to ty p t2) as [[row2|e] t3] eqn:E; [|by exists e].
    apply effect_transition_inv in E as (r2 & Hr2 & _ & _ & _ & Hx).
    destruct (Hx old eq_refl) as (_ & Hk & _). rewrite Hid in Hr2. injection Hr2 as <-.
    rewrite Hrow in Hk. simpl in Hk. injection Hk as Hk. unfold fencing_token in Htok. congruence.
Qed.

(** The reconciler never reopens a row that is not awaiting a dispatched
    response: whatever plan it is given, it returns the stored row and changes
    nothing; and it plans to dispatch again only when the provider has no record
    of the operation and the stored contract makes a repeat safe. *)
Theorem reconcile_never_reopens env id plan t r observed :
  t.(t_db).(effects) !! id = Some r -> decode_effect r = Ok r ->
  (r.(EffectRow.state) <> EffectState.Dispatched -> apply_observed env id plan t = (Ok r, t)) /\
  (reconcile_plan r observed = Redispatch ->
     r.(EffectRow.state) = EffectState.Dispatched /\ observed = ObsNotFound /\
     is_safely_redispatchable (contract_of_row r) = true).
Proof.
  intros Hr Hd. split.
  - intros Hs. unfold apply_observed. erewrite bind_step by (by apply load_effect_run).
    by rewrite bool_decide_false.
  - unfold reconcile_plan. case_bool_decide; simpl; [|done].
    destruct observed; try done. by destruct (is_safely_redispatchable (contract_of_row r)) eqn:E.
Qed.

Definition request_identity (req : PrepareRequest) :=
  (req.(pr_run_id), req.(pr_decision_id), req.(pr_operation), request_hash req.(pr_request_payload)).

(** After a successful preparation the operation is persisted. *)
Lemma prepare_effect_present env req t o t' :
  prepare_effect env req t = (Ok o, t') ->
  exists i r, t'.(t_db).(effects) !! i = Some r /\ identity_of r = request_identity req.
Proof.
  unfold prepare_effect. intros E. apply bind_ok_inv in E as (now & t1 & _ & E).
  apply bind_ok_inv in E as (ins & t2 & Ei%attempt_insert_ok & E). destruct ins as [u|e].
  - apply effects_insert_inv in Ei as (_ & _ & _ & ->).
    apply bind_ok_inv in E as (g & t3 & (-> & _)%effects_get_inv & E).
    apply bind_ok_inv in E as (row & t3 & Er & E). unfold lift_res in Er. apply pair_ok_inv in Er as [_ <-].
    apply bind_ok_inv in E as (v & t4 & [_ [w W]]%stage_effect_row_touches & E). inv_ok.
    eexists _, _. rewrite W. simpl. rewrite lookup_insert_eq. done.
  - apply effects_insert_err in Ei as ->. case_bool_decide; [|inv_ok]. unfold replay_existing in E.
    apply bind_ok_inv in E as (rows & t3 & El & E). unfold effects_list_by_run in El.
    apply bind_ok_inv in El as (l & t4 & Eq & El). unfold query, gets in Eq. injection Eq as <- <-.
    unfold lift_res in El. apply pair_ok_inv in El as [Hc <-].
    destruct (List.find _ rows) as [x|] eqn:Hf; [|inv_ok]. inv_ok.
    apply List.find_some in Hf as [Hin Hx]. apply decode_effects_ok in Hc as ->.
    apply list_elem_of_In, elem_of_select_by in Hin as (k & Hk & Hrun). apply bool_decide_eq_true in Hrun.
    rewrite !andb_true_iff, !bool_decide_eq_true in Hx. destruct Hx as [[X1 X2] X3].
    exists k, x. split; [done|]. unfold identity_of, request_identity. congruence.
Qed.

(** The insert of a request whose identity is taken reports a conflict. *)
Lemma effects_insert_conflict n t i r :
  t.(t_db).(effects) !! i = Some r -> identity_of r = identity_of (effect_row_of_new n) ->
  effect_checks n = true -> 0 <= n.(NewEffect.step_sequence) <= i64_max ->
  exists e, effects_insert n t = (Err e, t) /\ e.(err_code) = Conflict.
Proof.
  intros Hi Hid Hc Hs. unfold effects_insert, bind, query, gets, lift_res.
  rewrite (proj2 (encode_u64_ok _ _ _) (conj eq_refl (proj2 Hs))). cbn [constraints]. rewrite Hc.
  destruct (absent _ _); [|by eexists].
  destruct (none_such _ _) eqn:Hn; [|by eexists].
  exfalso. rewrite none_such_true in Hn. specialize (Hn i r Hi).
  unfold identity_of in Hid. injection Hid as I1 I2 I3 I4. unfold same_identity in Hn.
  simpl in *. rewrite I1, I2, I3, I4 in Hn. by rewrite !bool_decide_true in Hn.
Qed.

(** Preparing an operation whose logical identity (run, decision, operation
    and request hash) is already persisted never creates a second effect: the
    stored row is returned and the database is unchanged. *)
Theorem prepare_effect_deduplicates env req t i r :
  effects_inv t.(t_db) ->
  (forall j x, t.(t_db).(effects) !! j = Some x -> decode_effect x = Ok x) ->
  t.(t_db).(effects) !! i = Some r -> identity_of r = request_identity req ->
  effect_checks (new_effect_of req (request_hash req.(pr_request_payload)) 0) = true ->
  0 <= req.(pr_step_sequence) <= i64_max ->
  exists t', prepare_effect env req t = (Ok (Replayed r), t') /\ t'.(t_db) = t.(t_db).
Proof.
  intros Hinv Hdec Hi Hid Hc Hs. unfold prepare_effect.
  erewrite bind_step by reflexivity. set (t1 := mkTxn _ _ _ _).
  edestruct (effects_insert_conflict (new_effect_of req (request_hash (pr_request_payload req))
    (clock_ms (t_clock t))) t1 i r) as (e & He & Hcode); [done|exact Hid|exact Hc|exact Hs|].
  erewrite bind_step by (unfold attempt; rewrite He; reflexivity).
  cbv beta iota. rewrite bool_decide_true by done. exists t1. split; [|done].
  unfold replay_existing, effects_list_by_run, bind, query, gets, lift_res.
  rewrite res_collect_all; cycle 1.
  { intros x (k & Hk & _)%elem_of_select_by. eapply Hdec, Hk. }
  set (rows := select_by _ _ _). set (p := fun _ => _).
  assert (Hp : forall x, p x = true -> x ∈ rows -> x = r).
  { intros x Hx (k & Hk & Hrun)%elem_of_select_by. apply bool_decide_eq_true in Hrun.
    unfold p in Hx. rewrite !andb_true_iff, !bool_decide_eq_true in Hx. destruct Hx as [[X1 X2] X3].
    assert (k = i) as ->; [|simpl in Hk; congruence].
    apply (ei_identity _ Hinv k x i r Hk Hi). rewrite Hid. unfold identity_of, request_identity.
    congruence. }
  destruct (List.find p rows) as [x|] eqn:Hf.
  - apply List.find_some in Hf as [Hin Hx]. apply list_elem_of_In in Hin. by rewrite (Hp x Hx Hin).
  - exfalso. unfold identity_of, request_identity in Hid. injection Hid as I1 I2 I3 I4.
    assert (Hin : In r rows).
    { apply list_elem_of_In, elem_of_select_by. exists i. split; [done|]. by apply bool_decide_eq_true. }
    pose proof (List.find_none _ _ Hf r Hin) as Hpr. unfold p in Hpr.
    by rewrite I2, I3, I4, !bool_decide_true in Hpr.
Qed.
End Behaviour.
