(* ===== verification/Scheduler.v ===== *)
(** * Durable one-shot timers (crate [scheduler])

    [schedule], [cancel], [claim], [claim_next_due] and [mark_fired] over the
    timers table.  Every service keeps [timers_rel]: a timer's identity columns
    persist, any change raises its version, its state only moves
    Scheduled -> Claimed -> Fired or Scheduled -> Cancelled (a stale claim is
    taken over in place), and a claim never moves to an older daemon epoch. *)

From S2P Require Import Prelude Domain Ids Models StoreBase Store Events.

Open Scope string_scope.
Open Scope Z_scope.

Record SchedulerEnv := mkSchedulerEnv {
  se_correlation_id : option string; se_causation_id : option EventId }.

Record ScheduleRequest := mkScheduleRequest {
  sr_timer_id : option TimerId;
  sr_run_id : option RunId;
  sr_timer_kind : string;
  sr_due_at_ms : Z;
  sr_payload : bytes }.

(** [.expect("timer visible in its own transaction")]: a panic unwinds and
    drops the transaction. *)
Definition timer_not_visible : KernelError := kerr Internal "timer visible in its own transaction".

(** [TimerPatch { state, claim_* }]. *)
Definition timer_patch (to : TimerState) (claim : option (string * Z * Z)) : TimerPatch := {|
  TimerPatch.state := Some to;
  TimerPatch.due_at_ms := None;
  TimerPatch.claim_owner := (fun c => c.1.1) <$> claim;
  TimerPatch.claim_fencing_token := (fun c => c.1.2) <$> claim;
  TimerPatch.claim_daemon_epoch := (fun c => c.2) <$> claim |}.

Section Scheduler.
Context `{!Ext}.

(** [fire_idempotency_key]. *)
Definition fire_idempotency_key (id : TimerId) : string := "timer.fire." +:+ uuid_hyphenated id.

Definition timer_missing (id : TimerId) : KernelError :=
  kerr NotFound ("timer " +:+ uuid_hyphenated id +:+ " does not exist").

Definition timer_stream (run_id : option RunId) : Res StreamKey :=
  match run_id with Some id => stream_run id | None => stream_config_global end.

Definition timer_payload (row : TimerRow) : bytes :=
  encode_to_vec (MsgScheduleTimer (uuid_hyphenated row.(TimerRow.timer_id))
    (opt_id_text row.(TimerRow.run_id)) row.(TimerRow.timer_kind) row.(TimerRow.due_at_ms)
    row.(TimerRow.payload)).

(** The staging call each mutation ends with. *)
Definition stage_timer_row (env : SchedulerEnv) (event_type : string) (row : TimerRow) : M unit :=
  let! event_id := draw_uuid in
  let! stream := lift_res (timer_stream row.(TimerRow.run_id)) in
  do! stage_timer_event event_id event_type stream (timer_payload row)
        env.(se_correlation_id) env.(se_causation_id) in
  ret tt.

Definition load_timer (e : KernelError) (id : TimerId) : M TimerRow :=
  let! got := timers_get id in lift_res (ok_or got e).

Definition timer_schedule (env : SchedulerEnv) (request : ScheduleRequest) : M TimerRow :=
  let! timer_id := match request.(sr_timer_id) with Some id => ret id | None => draw_uuid end in
  let! got := timers_get timer_id in
  match got with
  | Some existing =>
      if bool_decide (existing.(TimerRow.run_id) = request.(sr_run_id)) &&
         bool_decide (existing.(TimerRow.timer_kind) = request.(sr_timer_kind)) &&
         bool_decide (existing.(TimerRow.due_at_ms) = request.(sr_due_at_ms)) &&
         bool_decide (existing.(TimerRow.payload) = request.(sr_payload))
      then ret existing
      else raise (kerr Conflict "timer_id already scheduled with different fields")
  | None =>
      let! now_ms := now_unix_ms in
      do! timers_insert (NewTimer.mk timer_id request.(sr_run_id) request.(sr_timer_kind)
            request.(sr_payload) request.(sr_due_at_ms) TimerState.Scheduled 0 now_ms) in
      let! row := load_timer timer_not_visible timer_id in
      do! stage_timer_row env "TimerScheduled" row in
      ret row
  end.

Definition timer_cancel (env : SchedulerEnv) (timer_id : TimerId) (expected_version : Z) : M TimerRow :=
  let! row := load_timer (timer_missing timer_id) timer_id in
  if bool_decide (row.(TimerRow.state) = TimerState.Cancelled) then ret row else
  guard! bool_decide (row.(TimerRow.state) = TimerState.Scheduled)
    else kerr FailedPrecondition
           ("timer in state " +:+ as_str row.(TimerRow.state) +:+ " cannot be cancelled") in
  let! won := timers_cas_transition timer_id TimerState.Scheduled expected_version
                (timer_patch TimerState.Cancelled None) in
  guard! won else mkKernelError Conflict RetrySafe "timer cancel lost a version race" in
  let! row := load_timer timer_not_visible timer_id in
  do! stage_timer_row env "TimerCancelled" row in
  ret row.

Definition timer_claim (env : SchedulerEnv) (timer_id : TimerId) (owner : string) (daemon_epoch : Z)
    : M (option TimerRow) :=
  let! row := load_timer (timer_missing timer_id) timer_id in
  if negb (bool_decide (row.(TimerRow.state) = TimerState.Scheduled)) then ret None else
  let! won := timers_cas_transition timer_id TimerState.Scheduled row.(TimerRow.version)
    (timer_patch TimerState.Claimed
       (Some (owner, u64_wrapping_add row.(TimerRow.version) 1, daemon_epoch))) in
  if negb won then ret None else
  let! claimed := load_timer timer_not_visible timer_id in
  do! stage_timer_row env "TimerClaimed" claimed in
  ret (Some claimed).

(** One iteration of [claim_next_due]: [Some] ends the loop with that result. *)
Definition try_due (env : SchedulerEnv) (owner : string) (daemon_epoch : Z) (row : TimerRow)
    : M (option (option TimerRow)) :=
  match row.(TimerRow.state) with
  | TimerState.Claimed =>
      if bool_decide (row.(TimerRow.claim_owner) = Some owner) &&
         bool_decide (row.(TimerRow.claim_daemon_epoch) = Some daemon_epoch)
      then ret (Some (Some row))
      else if match row.(TimerRow.claim_daemon_epoch) with
              | Some epoch => daemon_epoch <=? epoch
              | None => false
              end
      then ret None
      else
        let! won := timers_cas_transition row.(TimerRow.timer_id) TimerState.Claimed
          row.(TimerRow.version)
          (timer_patch TimerState.Claimed
             (Some (owner, u64_wrapping_add row.(TimerRow.version) 1, daemon_epoch))) in
        if won then let! got := timers_get row.(TimerRow.timer_id) in ret (Some got) else ret None
  | TimerState.Scheduled =>
      let! claimed := timer_claim env row.(TimerRow.timer_id) owner daemon_epoch in
      match claimed with Some c => ret (Some (Some c)) | None => ret None end
  | _ => ret None
  end.

Fixpoint claim_first (env : SchedulerEnv) (owner : string) (daemon_epoch : Z)
    (exclude : gset TimerId) (rows : list TimerRow) : M (option TimerRow) :=
  match rows with
  | [] => ret None
  | row :: rows =>
      if decide (row.(TimerRow.timer_id) ∈ exclude)
      then claim_first env owner daemon_epoch exclude rows
      else
        let! out := try_due env owner daemon_epoch row in
        match out with
        | Some result => ret result
        | None => claim_first env owner daemon_epoch exclude rows
        end
  end.

Definition claim_next_due (env : SchedulerEnv) (now_ms : Z) (owner : string) (daemon_epoch : Z)
    (exclude : gset TimerId) : M (option TimerRow) :=
  let! rows := timers_list_due now_ms in
  claim_first env owner daemon_epoch exclude rows.

Definition mark_fired (env : SchedulerEnv) (claimed : TimerRow) : M bool :=
  let! won := timers_cas_transition claimed.(TimerRow.timer_id) TimerState.Claimed
                claimed.(TimerRow.version) (timer_patch TimerState.Fired None) in
  if negb won then ret false else
  do! stage_timer_row env "TimerFired" claimed in
  ret true.
End Scheduler.

(** ** How a timer row evolves *)

Definition timer_step (a b : TimerState) : Prop :=
  match a, b with
  | TimerState.Scheduled, TimerState.Claimed
  | TimerState.Scheduled, TimerState.Cancelled
  | TimerState.Claimed, TimerState.Claimed
  | TimerState.Claimed, TimerState.Fired => True
  | _, _ => False
  end.

Definition timer_frozen (r : TimerRow) :=
  (r.(TimerRow.timer_id), r.(TimerRow.run_id), r.(TimerRow.timer_kind), r.(TimerRow.payload),
   r.(TimerRow.due_at_ms), r.(TimerRow.created_at_ms)).

Record timer_evolves (r r' : TimerRow) : Prop := {
  te_frozen : timer_frozen r' = timer_frozen r;
  te_version : r' = r \/ r.(TimerRow.version) < r'.(TimerRow.version);
  te_state : rtc timer_step r.(TimerRow.state) r'.(TimerRow.state);
  te_epoch : forall e, r.(TimerRow.claim_daemon_epoch) = Some e ->
    exists e', r'.(TimerRow.claim_daemon_epoch) = Some e' /\ e <= e' }.

#[export] Instance timer_evolves_preorder : PreOrder timer_evolves.
Proof.
  split.
  - intros r. split; [done|by left|done|]. intros e He. exists e. split; [done|lia].
  - intros r1 r2 r3 [F1 V1 S1 E1] [F2 V2 S2 E2]. split.
    + congruence.
    + destruct V1 as [->|?], V2 as [->|?]; auto. right. lia.
    + by transitivity (TimerRow.state r2).
    + intros e He. destruct (E1 e He) as (e2 & He2 & L2). destruct (E2 e2 He2) as (e3 & He3 & L3).
      exists e3. split; [done|lia].
Qed.

(** Row well-formedness: an unclaimed timer names no claimant's epoch, and a
    claimed one carries its version as the fencing token. *)
Definition timer_ok (r : TimerRow) : Prop :=
  match r.(TimerRow.state) with
  | TimerState.Scheduled => r.(TimerRow.claim_daemon_epoch) = None
  | TimerState.Claimed => r.(TimerRow.claim_fencing_token) = Some r.(TimerRow.version)
  | _ => True
  end.

Record timers_inv (d : Db) : Prop := {
  ti_key : forall id r, d.(timers) !! id = Some r -> r.(TimerRow.timer_id) = id;
  ti_ok : forall id r, d.(timers) !! id = Some r -> timer_ok r }.

Definition timers_rel (d d' : Db) : Prop :=
  timers_inv d -> timers_inv d' /\
  forall id r, d.(timers) !! id = Some r -> exists r', d'.(timers) !! id = Some r' /\ timer_evolves r r'.

#[export] Instance timers_rel_preorder : PreOrder timers_rel.
Proof.
  split.
  - intros d Hi. split; [done|]. intros id r Hr. exists r. split; [done|reflexivity].
  - intros d1 d2 d3 H12 H23 I1. destruct (H12 I1) as [I2 E1]. destruct (H23 I2) as [I3 E2].
    split; [done|]. intros id r Hr. destruct (E1 _ _ Hr) as (r2 & Hr2 & V2).
    destruct (E2 _ _ Hr2) as (r3 & Hr3 & V3). exists r3. split; [done|by transitivity r2].
Qed.

Lemma timers_rel_frame d d' : d.(timers) = d'.(timers) -> timers_rel d d'.
Proof.
  intros E [H1 H2]. split.
  - split; rewrite <- E; eauto.
  - intros id r Hr. rewrite <- E. exists r. split; [done|reflexivity].
Qed.
#[export] Hint Extern 1 (timers_rel _ _) => apply timers_rel_frame; reflexivity : frame.

Definition put_timer (id : TimerId) (r : TimerRow) (d : Db) : Db := set_timers (<[id := r]> d.(timers)) d.

Lemma put_timer_rel id r r' d :
  d.(timers) !! id = Some r ->
  (timer_ok r -> timer_evolves r r' /\ timer_ok r') -> timers_rel d (put_timer id r' d).
Proof.
  intros Hr Hev [H1 H2]. destruct (Hev (H2 _ _ Hr)) as [V Ok']. split; [split|]; simpl.
  - intros i x [[<- <-]|[_ Hx]]%lookup_insert_Some; [|eauto].
    pose proof (te_frozen _ _ V) as F. injection F as F _ _ _ _ _. rewrite F. eauto.
  - intros i x [[<- <-]|[_ Hx]]%lookup_insert_Some; eauto.
  - intros i x Hx. destruct (decide (id = i)) as [->|Hne].
    + rewrite Hr in Hx. injection Hx as <-. exists r'. by rewrite lookup_insert_eq.
    + exists x. rewrite lookup_insert_ne by done. split; [done|reflexivity].
Qed.

(** ** The timer statements *)

Lemma timers_get_inv id t o t' :
  timers_get id t = (Ok o, t') ->
  t' = t /\ o = t.(t_db).(timers) !! id /\ (forall r, o = Some r -> decode_timer r = Ok r).
Proof.
  unfold timers_get. intros E. inv_run. rename select (opt_traverse _ _ = _) into H0.
  destruct (timers (t_db t') !! id) as [r|] eqn:Hr; simpl in *.
  - destruct (decode_timer r) as [r1|e] eqn:D; simpl in *; [|done]. injection H0 as <-.
    assert (r1 = r) as -> by (unfold decode_timer in D; inv_ok; done).
    split; [done|]. split; [done|]. by intros ? [= <-].
  - injection H0 as <-. done.
Qed.

Lemma decode_timer_version r : decode_timer r = Ok r -> 0 <= r.(TimerRow.version) <= i64_max.
Proof.
  unfold decode_timer. intros E. inv_ok. rename select (u64_column _ _ _ = _) into U.
  by apply u64_column_ok in U as [_ ?].
Qed.

Lemma timers_cas_transition_inv id from v p t b t' :
  timers_cas_transition id from v p t = (Ok b, t') ->
  (b = true /\ exists r, t.(t_db).(timers) !! id = Some r /\ r.(TimerRow.state) = from /\
     r.(TimerRow.version) = v /\ t' = set_db (put_timer id (apply_timer_patch p r) t.(t_db)) t) \/
  (b = false /\ t' = t).
Proof.
  unfold timers_cas_transition. intros E. inv_store; [|by right|by right].
  left. split; [done|]. eexists. split; [done|].
  rename select (_ && _ = true) into Hm. apply andb_true_iff in Hm as [Hs Hv].
  apply bool_decide_eq_true in Hs, Hv. rename select (encode_u64 _ v = _) into He.
  apply encode_u64_ok in He as [-> _]. done.
Qed.

Lemma load_timer_inv e id t r t' :
  load_timer e id t = (Ok r, t') ->
  t' = t /\ t.(t_db).(timers) !! id = Some r /\ decode_timer r = Ok r.
Proof.
  unfold load_timer. intros E. inv_ok. rename select (timers_get _ _ = _) into G.
  apply timers_get_inv in G as (-> & G & D). rewrite <- G. auto.
Qed.
Lemma load_timer_touches e id : touches no_table (load_timer e id).
Proof. intros t r t' (-> & _)%load_timer_inv. split; [done|]. by exists tt. Qed.
#[export] Hint Resolve load_timer_touches : touches.

Section TimerServices.
Context `{!Ext}.

Lemma stage_timer_row_touches env ty row : touches set_outbox (stage_timer_row env ty row).
Proof.
  intros t u t' E. unfold stage_timer_row in E. inv_run.
  rename select (stage_timer_event _ _ _ _ _ _ _ = _) into S.
  apply stage_timer_event_touches in S as [C [w W]]. split; [exact C|]. by exists w.
Qed.
Lemma stage_timer_row_events env ty row : ensures (on_db events_rel) (stage_timer_row env ty row).
Proof. unfold stage_timer_row. solve_ensures. Qed.
End TimerServices.
#[export] Hint Resolve stage_timer_row_touches : touches.
#[export] Hint Resolve stage_timer_row_events : ensures.


(** Every relation that the timers table cannot break and staging keeps. *)
Section FrameTimers.
Context `{!Ext} (R : Db -> Db -> Prop) `{!PreOrder R}.
Hypothesis HT : forall x d, R d (set_timers x d).
Hypothesis HO : forall env ty row, ensures (on_db R) (stage_timer_row env ty row).

Lemma timer_schedule_frame env req : ensures (on_db R) (timer_schedule env req).
Proof. unfold timer_schedule. solve_ensures. Qed.
Lemma timer_cancel_frame env id v : ensures (on_db R) (timer_cancel env id v).
Proof. unfold timer_cancel. solve_ensures. Qed.
Lemma timer_claim_frame env id owner epoch : ensures (on_db R) (timer_claim env id owner epoch).
Proof. unfold timer_claim. solve_ensures. Qed.
Lemma claim_next_due_frame env now owner epoch ex :
  ensures (on_db R) (claim_next_due env now owner epoch ex).
Proof.
  pose proof timer_claim_frame. unfold claim_next_due. solve_ensures.
  match goal with |- ensures _ (claim_first _ _ _ _ ?l) => induction l as [|r l IH]; simpl end; [solve_ensures|].
  unfold try_due. solve_ensures.
Qed.
Lemma mark_fired_frame env row : ensures (on_db R) (mark_fired env row).
Proof. unfold mark_fired. solve_ensures. Qed.
End FrameTimers.

Ltac staged_service lem :=
  apply lem; [apply _ | intros ? ?; solve [eauto 2 with frame]
             | intros; solve [eauto 3 with ensures typeclass_instances]].
#[export] Hint Extern 3 (ensures (on_db _) (timer_schedule _ _)) => staged_service timer_schedule_frame : ensures.
#[export] Hint Extern 3 (ensures (on_db _) (timer_cancel _ _ _)) => staged_service timer_cancel_frame : ensures.
#[export] Hint Extern 3 (ensures (on_db _) (timer_claim _ _ _ _)) => staged_service timer_claim_frame : ensures.
#[export] Hint Extern 3 (ensures (on_db _) (claim_next_due _ _ _ _ _)) =>
  staged_service claim_next_due_frame : ensures.
#[export] Hint Extern 3 (ensures (on_db _) (mark_fired _ _)) => staged_service mark_fired_frame : ensures.

(** ** The services keep the timer relation *)

Section TimerRelations.
Context `{!Ext}.

Lemma timers_insert_timers n :
  n.(NewTimer.state) = TimerState.Scheduled -> ensures (on_db timers_rel) (timers_insert n).
Proof.
  intros Hs t u t' E. unfold timers_insert in E. inv_store. split; [|done]. simpl.
  rename select (absent _ _ = true) into Ha. apply absent_true in Ha.
  intros [H1 H2]. split; [split|]; simpl.
  - intros i y [[<- <-]|[_ Hx]]%lookup_insert_Some; [done|eauto].
  - intros i y [[<- <-]|[_ Hx]]%lookup_insert_Some; [|eauto]. unfold timer_ok. simpl. by rewrite Hs.
  - intros i y Hx. exists y. rewrite lookup_insert_ne by congruence. split; [done|reflexivity].
Qed.

Lemma timers_cas_timers id from v p :
  (forall r, timer_ok r -> r.(TimerRow.state) = from -> r.(TimerRow.version) = v ->
     timer_evolves r (apply_timer_patch p r) /\ timer_ok (apply_timer_patch p r)) ->
  ensures (on_db timers_rel) (timers_cas_transition id from v p).
Proof.
  intros Hp t b t' [(-> & r & Hr & Hs & Hv & ->)|(-> & ->)]%timers_cas_transition_inv; [|reflexivity].
  split; [|done]. eapply put_timer_rel; eauto.
Qed.

(** A patch without a claim keeps it; one with a claim must not go back. *)
Lemma timer_patch_evolves to claim r :
  timer_step r.(TimerRow.state) to ->
  (forall o k e, claim = Some (o, k, e) -> forall e0, r.(TimerRow.claim_daemon_epoch) = Some e0 -> e0 <= e) ->
  timer_evolves r (apply_timer_patch (timer_patch to claim) r).
Proof.
  intros Hs He. split; simpl; [done|right; simpl; lia|by apply rtc_once|].
  intros e0 H0. destruct claim as [[[o k] e]|]; simpl.
  - exists e. split; [done|eauto].
  - exists e0. split; [done|lia].
Qed.

Lemma timer_cancel_timers env id v : ensures (on_db timers_rel) (timer_cancel env id v).
Proof.
  unfold timer_cancel. solve_ensures. apply timers_cas_timers. intros r _ Hs _. split; [|done].
  apply timer_patch_evolves; [by rewrite Hs|done].
Qed.
Lemma timer_schedule_timers env req : ensures (on_db timers_rel) (timer_schedule env req).
Proof. unfold timer_schedule. solve_ensures. by apply timers_insert_timers. Qed.

Lemma no_wrap v : 0 <= v <= i64_max -> u64_wrapping_add v 1 = v + 1.
Proof. unfold u64_wrapping_add, i64_max. intros. apply Z.mod_small. lia. Qed.

Lemma timer_claim_timers env id owner epoch : ensures (on_db timers_rel) (timer_claim env id owner epoch).
Proof.
  unfold timer_claim. apply (ensures_bind_returns _ _ _ (fun r => 0 <= r.(TimerRow.version) <= i64_max)).
  - solve_ensures.
  - intros t r t' (_ & _ & D)%load_timer_inv. by apply decode_timer_version.
  - intros row Hrow. solve_ensures. apply timers_cas_timers. intros r Hok Hs Hv. split.
    + apply timer_patch_evolves; [by rewrite Hs|]. intros o k e _ e0 H0.
      unfold timer_ok in Hok. rewrite Hs in Hok. congruence.
    + unfold timer_ok. simpl. rewrite no_wrap by done. by rewrite Hv.
Qed.
#[local] Hint Resolve timer_claim_timers : ensures.

Lemma mark_fired_timers env row : ensures (on_db timers_rel) (mark_fired env row).
Proof.
  unfold mark_fired. solve_ensures. apply timers_cas_timers. intros r _ Hs _. split; [|done].
  apply timer_patch_evolves; [by rewrite Hs|done].
Qed.

(** An unsuccessful iteration changes nothing. *)
Lemma timer_claim_none env id owner epoch t t' :
  timer_claim env id owner epoch t = (Ok None, t') -> t_db t' = t_db t /\ t_ctx t' = t_ctx t.
Proof.
  unfold timer_claim. intros E. apply bind_ok_inv in E as (row & t1 & (-> & _ & _)%load_timer_inv & E).
  destruct (negb _); [by inv_ok|]. apply bind_ok_inv in E as (b & t2 & Ec & E).
  apply timers_cas_transition_inv in Ec as [(-> & r & _ & _ & _ & ->)|(-> & ->)]; simpl in E.
  - apply bind_ok_inv in E as (row1 & t3 & _ & E). apply bind_ok_inv in E as (u & t4 & _ & E). inv_ok. done.
  - by inv_ok.
Qed.

Lemma try_due_none env owner epoch row t t' :
  try_due env owner epoch row t = (Ok None, t') -> t_db t' = t_db t /\ t_ctx t' = t_ctx t.
Proof.
  unfold try_due. intros E. destruct (TimerRow.state row); [..|by inv_ok|by inv_ok].
  - apply bind_ok_inv in E as ([c|] & t1 & Ec & E); [by inv_ok|]. inv_ok. by eapply timer_claim_none.
  - destruct (_ && _); [by inv_ok|].
    match type of E with (if ?b then _ else _) _ = _ => destruct b end; [by inv_ok|].
    apply bind_ok_inv in E as (b & t2 & Ec & E).
    apply timers_cas_transition_inv in Ec as [(-> & r & _ & _ & _ & ->)|(-> & ->)].
    + apply bind_ok_inv in E as (got & t3 & _ & E). by inv_ok.
    + by inv_ok.
Qed.

(** An iteration on a row that is current keeps the relation: a claim is taken
    over only from an older epoch. *)
Lemma try_due_timers env owner epoch row t out t' :
  t.(t_db).(timers) !! row.(TimerRow.timer_id) = Some row -> decode_timer row = Ok row ->
  try_due env owner epoch row t = (Ok out, t') -> on_db timers_rel t t'.
Proof.
  intros Hrow Hdec E. unfold try_due in E. destruct (TimerRow.state row) eqn:Hst; [..|by inv_ok|by inv_ok].
  - apply bind_ok_inv in E as (c & t1 & Ec & E). apply timer_claim_timers in Ec.
    destruct c; inv_ok; exact Ec.
  - destruct (_ && _); [by inv_ok|].
    match type of E with (if ?b then _ else _) _ = _ => destruct b eqn:Hep end; [by inv_ok|].
    apply bind_ok_inv in E as (b & t2 & Ec & E).
    assert (t' = t2) as ->.
    { destruct b; [|by inv_ok]. apply bind_ok_inv in E as (g & t3 & (-> & _)%timers_get_inv & E). by inv_ok. }
    clear E. apply timers_cas_transition_inv in Ec as [(-> & r & Hr & _ & _ & ->)|(-> & ->)]; [|reflexivity].
    rewrite Hrow in Hr. injection Hr as <-. split; [|done]. eapply put_timer_rel; [done|]. intros _. split.
    + apply timer_patch_evolves; [by rewrite Hst|]. intros o k e [= _ _ <-] e0 H0. rewrite H0 in Hep.
      destruct (Z.leb_spec epoch e0); [done|lia].
    + unfold timer_ok. simpl. rewrite no_wrap; [done|]. by apply decode_timer_version.
Qed.

Lemma claim_first_timers env owner epoch ex rows t out t' :
  (forall row, row ∈ rows -> t.(t_db).(timers) !! row.(TimerRow.timer_id) = Some row /\ decode_timer row = Ok row) ->
  claim_first env owner epoch ex rows t = (Ok out, t') -> on_db timers_rel t t'.
Proof.
  revert t. induction rows as [|row rows IH]; intros t Hrows E; simpl in E; [by inv_ok|].
  destruct (decide _); [apply IH; [set_solver|done]|].
  apply bind_ok_inv in E as (o & t1 & Et & E).
  destruct (Hrows row) as [Hrow Hdec]; [by left|].
  destruct o as [res|].
  - inv_ok. by eapply try_due_timers.
  - apply try_due_none in Et as [Ed Ec]. transitivity t1.
    + split; [by rewrite Ed|done].
    + apply IH; [|done]. intros x Hx. rewrite Ed. apply Hrows. by right.
Qed.

Lemma claim_next_due_timers env now owner epoch ex t out t' :
  timers_inv t.(t_db) -> claim_next_due env now owner epoch ex t = (Ok out, t') -> on_db timers_rel t t'.
Proof.
  intros Hinv E. unfold claim_next_due, timers_list_due in E. apply bind_ok_inv in E as (rows & t1 & El & E).
  inv_run. rename select (res_collect _ _ = _) into Hc.
  eapply claim_first_timers; [|exact E]. intros row Hin.
  apply res_collect_same in Hc as [-> Hdec]; [|intros a b Hb; unfold decode_timer in Hb; inv_ok; done].
  split; [|auto].
  apply elem_of_select_by in Hin as (k & Hk & _). by rewrite (ti_key _ Hinv _ _ Hk).
Qed.
Lemma claim_next_due_rel env now owner epoch ex :
  ensures (on_db timers_rel) (claim_next_due env now owner epoch ex).
Proof.
  intros t out t' E. split.
  - intros Hinv. by apply (claim_next_due_timers _ _ _ _ _ _ _ _ Hinv E).
  - assert (ensures (on_db (fun _ _ => True)) (claim_next_due env now owner epoch ex)) as Hc.
    { apply claim_next_due_frame; [split; by intros ?|done|].
      intros env' ty row. eapply ensures_touches; [apply stage_timer_row_touches|done]. }
    apply (Hc _ _ _ E).
Qed.
End TimerRelations.
#[export] Hint Resolve timer_cancel_timers timer_schedule_timers timer_claim_timers mark_fired_timers
  claim_next_due_rel : ensures.

(** ** Behaviour *)

Section TimerBehaviour.
Context `{!Ext}.

Lemma timer_step_final a b :
  a = TimerState.Fired \/ a = TimerState.Cancelled -> rtc timer_step a b -> b = a.
Proof. intros Ha Hr. destruct Hr as [|x y z Hxy _]; [done|]. by destruct Ha as [->| ->]. Qed.

Lemma mark_fired_true env row t t' :
  mark_fired env row t = (Ok true, t') ->
  exists r, t.(t_db).(timers) !! row.(TimerRow.timer_id) = Some r /\
    r.(TimerRow.state) = TimerState.Claimed /\ r.(TimerRow.version) = row.(TimerRow.version) /\
    t'.(t_db).(timers) = <[row.(TimerRow.timer_id) := apply_timer_patch (timer_patch TimerState.Fired None) r]>
                           t.(t_db).(timers).
Proof.
  unfold mark_fired. intros E. apply bind_ok_inv in E as (b & t1 & Ec & E).
  apply timers_cas_transition_inv in Ec as [(-> & r & Hr & Hs & Hv & ->)|(-> & ->)]; simpl in E; [|by inv_ok].
  apply bind_ok_inv in E as (u & t2 & Es & E). inv_ok.
  apply stage_timer_row_touches in Es as [_ [w W]]. exists r. repeat split; try done. by rewrite W.
Qed.

(** A timer fires at most once: once [mark_fired] has committed a timer as
    fired, no later [mark_fired] of that timer can succeed, whatever the
    scheduler did to the timers in between. *)
Theorem timer_fires_at_most_once env row t t' :
  timers_inv t.(t_db) ->
  mark_fired env row t = (Ok true, t') ->
  forall env2 row2 t2,
    timers_rel t'.(t_db) t2.(t_db) -> row2.(TimerRow.timer_id) = row.(TimerRow.timer_id) ->
    fst (mark_fired env2 row2 t2) <> Ok true.
Proof.
  intros Hinv E env2 row2 t2 Hrel Hid Hfire.
  destruct (mark_fired_timers env row t true t' E) as [Hrel1 _].
  destruct (Hrel1 Hinv) as [Hinv1 _]. destruct (Hrel Hinv1) as [_ Hev].
  apply mark_fired_true in E as (r & _ & _ & _ & Ht).
  destruct (mark_fired env2 row2 t2) as [[b|] t3] eqn:E2; [|done]. injection Hfire as ->.
  apply mark_fired_true in E2 as (r2 & Hr2 & Hs2 & _).
  destruct (Hev row.(TimerRow.timer_id) (apply_timer_patch (timer_patch TimerState.Fired None) r))
    as (r3 & Hr3 & V); [by rewrite Ht, lookup_insert_eq|].
  rewrite <- Hid, Hr2 in Hr3. injection Hr3 as <-.
  pose proof (timer_step_final _ _ (or_introl eq_refl) (te_state _ _ V)) as Hf. simpl in Hf. congruence.
Qed.

Lemma timer_step_claimed b :
  rtc timer_step TimerState.Claimed b -> b = TimerState.Claimed \/ b = TimerState.Fired.
Proof.
  apply (rtc_ind_r (R:=timer_step) (fun c => c = TimerState.Claimed \/ c = TimerState.Fired)); [by left|].
  intros y z _ Hyz [->| ->]; destruct z; try done; auto.
Qed.

(** The state a successful cancel, or claim, leaves. *)
Lemma timer_cancel_state env id v t row t' :
  timer_cancel env id v t = (Ok row, t') ->
  exists r, t'.(t_db).(timers) !! id = Some r /\ r.(TimerRow.state) = TimerState.Cancelled.
Proof.
  unfold timer_cancel. intros E. apply bind_ok_inv in E as (r0 & t1 & (-> & Hr0 & _)%load_timer_inv & E).
  case_bool_decide as Hc; [inv_ok; eauto|]. case_bool_decide; [|inv_ok].
  apply bind_ok_inv in E as (b & t2 & Ec & E).
  apply timers_cas_transition_inv in Ec as [(-> & r1 & Hr1 & _ & _ & ->)|(-> & ->)]; [|inv_ok].
  apply bind_ok_inv in E as (r2 & t3 & (-> & _)%load_timer_inv & E).
  apply bind_ok_inv in E as (u & t4 & Es & E). inv_ok.
  apply stage_timer_row_touches in Es as [_ [w W]]. rewrite W. simpl. rewrite lookup_insert_eq. eauto.
Qed.

Lemma timer_claim_state env id owner epoch t row t' :
  timer_claim env id owner epoch t = (Ok (Some row), t') ->
  exists r, t'.(t_db).(timers) !! id = Some r /\ r.(TimerRow.state) = TimerState.Claimed.
Proof.
  unfold timer_claim. intros E. apply bind_ok_inv in E as (r0 & t1 & (-> & Hr0 & _)%load_timer_inv & E).
  destruct (negb _); [by inv_ok|]. apply bind_ok_inv in E as (b & t2 & Ec & E).
  apply timers_cas_transition_inv in Ec as [(-> & r1 & Hr1 & _ & _ & ->)|(-> & ->)]; simpl in E; [|by inv_ok].
  apply bind_ok_inv in E as (r2 & t3 & (-> & _)%load_timer_inv & E).
  apply bind_ok_inv in E as (u & t4 & Es & E). inv_ok.
  apply stage_timer_row_touches in Es as [_ [w W]]. rewrite W. simpl. rewrite lookup_insert_eq. eauto.
Qed.

(** What a claim, or a cancel, needs of the row. *)
Lemma timer_claim_needs env id owner epoch t row t' r :
  t.(t_db).(timers) !! id = Some r -> timer_claim env id owner epoch t = (Ok (Some row), t') ->
  r.(TimerRow.state) = TimerState.Scheduled.
Proof.
  intros Hr E. unfold timer_claim in E.
  apply bind_ok_inv in E as (r4 & t4 & (-> & Hr4 & _)%load_timer_inv & E).
  rewrite Hr in Hr4. injection Hr4 as <-. case_bool_decide; [done|]. by inv_ok.
Qed.

Lemma timer_cancel_needs env id v t row t' r :
  t.(t_db).(timers) !! id = Some r -> timer_cancel env id v t = (Ok row, t') ->
  r.(TimerRow.state) = TimerState.Cancelled \/ r.(TimerRow.state) = TimerState.Scheduled.
Proof.
  intros Hr E. unfold timer_cancel in E.
  apply bind_ok_inv in E as (r4 & t4 & (-> & Hr4 & _)%load_timer_inv & E).
  rewrite Hr in Hr4. injection Hr4 as <-. case_bool_decide; [auto|]. case_bool_decide; [auto|by inv_ok].
Qed.

(** Claiming and cancelling exclude each other: a timer that was cancelled
    is never claimed afterwards, and a timer that was claimed can no longer be
    cancelled, whatever the scheduler does in between. *)
Theorem timer_claim_cancel_exclusive id t t' :
  timers_inv t.(t_db) ->
  (forall env v row, timer_cancel env id v t = (Ok row, t') ->
   forall env2 owner epoch t2 row2, timers_rel t'.(t_db) t2.(t_db) ->
     fst (timer_claim env2 id owner epoch t2) <> Ok (Some row2)) /\
  (forall env owner epoch row, timer_claim env id owner epoch t = (Ok (Some row), t') ->
   forall env2 v t2 row2, timers_rel t'.(t_db) t2.(t_db) ->
     fst (timer_cancel env2 id v t2) <> Ok row2).
Proof.
  intros Hinv. split.
  - intros env v row E env2 owner epoch t2 row2 Hrel E2.
    destruct (timer_cancel_timers env id v t row t' E) as [Hrel1 _].
    destruct (Hrel (proj1 (Hrel1 Hinv))) as [_ Hev].
    destruct (timer_cancel_state _ _ _ _ _ _ E) as (r & Hr & Hs). destruct (Hev id r Hr) as (r3 & Hr3 & V).
    pose proof (timer_step_final _ _ (or_intror Hs) (te_state _ _ V)) as Hf.
    destruct (timer_claim env2 id owner epoch t2) as [[[c|]|e] t3] eqn:E3; try done.
    pose proof (timer_claim_needs _ _ _ _ _ _ _ _ Hr3 E3). congruence.
  - intros env owner epoch row E env2 v t2 row2 Hrel E2.
    destruct (timer_claim_timers env id owner epoch t (Some row) t' E) as [Hrel1 _].
    destruct (Hrel (proj1 (Hrel1 Hinv))) as [_ Hev].
    destruct (timer_claim_state _ _ _ _ _ _ _ E) as (r & Hr & Hs). destruct (Hev id r Hr) as (r3 & Hr3 & V).
    pose proof (te_state _ _ V) as Hp. rewrite Hs in Hp. apply timer_step_claimed in Hp.
    destruct (timer_cancel env2 id v t2) as [[c|e] t3] eqn:E3; [|done].
    destruct (timer_cancel_needs _ _ _ _ _ _ _ Hr3 E3), Hp; congruence.
Qed.
End TimerBehaviour.
