(* ===== verification/Resources.v ===== *)
(** * Resource reservations and budget delegation (crate [resources])

    [reserve] with its transactional delegation check, [allocate], [release],
    [mark_unknown] and [recover_unknown].  The invariant: the active children
    of a reservation that share its unit never add up to more than its amount. *)

From S2P Require Import Prelude Domain Ids Models StoreBase Store Events.

Open Scope string_scope.
Open Scope Z_scope.

Inductive ResourceUnit :=
  | ChildRunSlots | SandboxSlots | ModelTokens | ModelCostMicrounits | WallClockMs | DiskBytes.

Definition unit_as_str (u : ResourceUnit) : string :=
  match u with
  | ChildRunSlots => "child_run_slots"
  | SandboxSlots => "sandbox_slots"
  | ModelTokens => "model_tokens"
  | ModelCostMicrounits => "model_cost_microunits"
  | WallClockMs => "wall_clock_ms"
  | DiskBytes => "disk_bytes"
  end.

(** [FromStr for ResourceUnit]. *)
Definition unit_from_str (s : string) : option ResourceUnit :=
  if decide (s = "child_run_slots") then Some ChildRunSlots
  else if decide (s = "sandbox_slots") then Some SandboxSlots
  else if decide (s = "model_tokens") then Some ModelTokens
  else if decide (s = "model_cost_microunits") then Some ModelCostMicrounits
  else if decide (s = "wall_clock_ms") then Some WallClockMs
  else if decide (s = "disk_bytes") then Some DiskBytes
  else None.

Record ResourceEnv := mkResourceEnv {
  rv_correlation_id : option string; rv_causation_id : option EventId }.

Record ReserveRequest := mkReserveRequest {
  rq_reservation_id : option ReservationId;
  rq_run_id : RunId;
  rq_unit : ResourceUnit;
  rq_amount : Z;
  rq_parent : option ReservationId;
  rq_fencing_token : Z }.

(** The [ACTIVE] states, which still hold budget. *)
Definition active (s : ReservationState) : bool :=
  match s with
  | ReservationState.Reserved | ReservationState.Allocated | ReservationState.Unknown => true
  | _ => false
  end.

(** [try_fold(0i64, |acc, child| acc.checked_add(child.amount))]. *)
Fixpoint checked_sum (acc : Z) (l : list ReservationRow) : option Z :=
  match l with
  | [] => Some acc
  | r :: l =>
      match i64_checked_add acc r.(ReservationRow.amount) with
      | Some acc => checked_sum acc l
      | None => None
      end
  end.

Definition reservation_not_visible : KernelError :=
  kerr Internal "reservation visible in its own transaction".

Definition state_conflict (row : ReservationRow) : KernelError :=
  mkKernelError Conflict RetrySafe
    ("reservation lost a race from state " +:+ as_str row.(ReservationRow.state)).

Definition verify_token (row : ReservationRow) (fencing_token : Z) : Res unit :=
  if bool_decide (row.(ReservationRow.fencing_token) = fencing_token) then Ok tt
  else Err (kerr FailedPrecondition "fencing token does not own this reservation").

Section Resources.
Context `{!Ext}.

Definition reservation_missing (id : ReservationId) : KernelError :=
  kerr NotFound ("reservation " +:+ uuid_hyphenated id +:+ " does not exist").

Definition load_reservation (e : KernelError) (id : ReservationId) : M ReservationRow :=
  let! got := resources_get id in lift_res (ok_or got e).

Definition reservation_payload (row : ReservationRow) : bytes :=
  encode_to_vec (MsgResourceReservation (uuid_hyphenated row.(ReservationRow.reservation_id))
    (uuid_hyphenated row.(ReservationRow.run_id)) row.(ReservationRow.resource_type)
    (as_str row.(ReservationRow.state)) row.(ReservationRow.amount) row.(ReservationRow.unit)
    row.(ReservationRow.fencing_token)).

Definition stage_reservation (env : ResourceEnv) (event_type : string) (row : ReservationRow) : M unit :=
  let! event_id := draw_uuid in
  do! stage_resource_event event_id event_type row.(ReservationRow.run_id) (reservation_payload row)
        env.(rv_correlation_id) env.(rv_causation_id) in
  ret tt.

Definition check_parent_budget (parent_id : ReservationId) (u : ResourceUnit) (amount : Z) : M unit :=
  let! parent := load_reservation (reservation_missing parent_id) parent_id in
  guard! active parent.(ReservationRow.state)
    else kerr FailedPrecondition ("parent reservation is " +:+ as_str parent.(ReservationRow.state)) in
  guard! bool_decide (parent.(ReservationRow.unit) = unit_as_str u)
    else kerr FailedPrecondition "child unit differs from the parent reservation's unit" in
  let! children := resources_list_children parent_id in
  let! delegated := lift_res (ok_or
    (checked_sum 0 (List.filter (fun c => active c.(ReservationRow.state) &&
       bool_decide (c.(ReservationRow.unit) = unit_as_str u)) children))
    (mkKernelError ResourceExhausted RetrySafe "delegated budget sum overflows i64")) in
  guard! match i64_checked_add delegated amount with
         | None => false
         | Some total => total <=? parent.(ReservationRow.amount)
         end
    else mkKernelError ResourceExhausted RetrySafe ("delegated " +:+ i64_to_string delegated +:+ " + " +:+
      i64_to_string amount +:+ " exceeds parent budget " +:+ i64_to_string parent.(ReservationRow.amount)) in
  ret tt.

Definition reserve (env : ResourceEnv) (request : ReserveRequest) : M ReservationRow :=
  guard! 0 <? request.(rq_amount) else kerr InvalidArgument "reservation amount must be positive" in
  let! id := match request.(rq_reservation_id) with Some id => ret id | None => draw_uuid end in
  let! got := resources_get id in
  match got with
  | Some existing =>
      if bool_decide (existing.(ReservationRow.run_id) = request.(rq_run_id)) &&
         bool_decide (existing.(ReservationRow.unit) = unit_as_str request.(rq_unit)) &&
         bool_decide (existing.(ReservationRow.amount) = request.(rq_amount)) &&
         bool_decide (existing.(ReservationRow.parent_reservation_id) = request.(rq_parent)) &&
         bool_decide (existing.(ReservationRow.fencing_token) = request.(rq_fencing_token))
      then ret existing
      else raise (kerr Conflict "reservation_id reused with different fields")
  | None =>
      do! match request.(rq_parent) with
          | Some parent_id => check_parent_budget parent_id request.(rq_unit) request.(rq_amount)
          | None => ret tt
          end in
      let! now_ms := now_unix_ms in
      do! resources_insert (NewReservation.mk id request.(rq_run_id) (unit_as_str request.(rq_unit))
            ReservationState.Reserved request.(rq_amount) (unit_as_str request.(rq_unit))
            request.(rq_fencing_token) request.(rq_parent) now_ms) in
      let! row := load_reservation reservation_not_visible id in
      do! stage_reservation env "ResourceReserved" row in
      ret row
  end.

Definition stage_and_fetch (env : ResourceEnv) (id : ReservationId) (event_type : string)
    : M ReservationRow :=
  let! row := load_reservation reservation_not_visible id in
  do! stage_reservation env event_type row in
  ret row.

Definition allocate (env : ResourceEnv) (id : ReservationId) (fencing_token : Z) : M ReservationRow :=
  let! row := load_reservation (reservation_missing id) id in
  do! lift_res (verify_token row fencing_token) in
  let! won := resources_cas_transition id ReservationState.Reserved
                (ReservationPatch.mk (Some ReservationState.Allocated) None) in
  guard! won else state_conflict row in
  stage_and_fetch env id "ResourceAllocated".

Definition release (env : ResourceEnv) (id : ReservationId) (fencing_token : Z) : M ReservationRow :=
  let! row := load_reservation (reservation_missing id) id in
  do! lift_res (verify_token row fencing_token) in
  let! won := resources_cas_transition id ReservationState.Allocated
                (ReservationPatch.mk (Some ReservationState.Released) None) in
  guard! won else state_conflict row in
  stage_and_fetch env id "ResourceReleased".

(** [resources::mark_unknown]. *)
Definition reservation_mark_unknown (env : ResourceEnv) (id : ReservationId) : M ReservationRow :=
  let! row := load_reservation (reservation_missing id) id in
  guard! bool_decide (row.(ReservationRow.state) = ReservationState.Allocated) ||
         bool_decide (row.(ReservationRow.state) = ReservationState.Reserved)
    else state_conflict row in
  let! won := resources_cas_transition id row.(ReservationRow.state)
                (ReservationPatch.mk (Some ReservationState.Unknown) None) in
  guard! won else state_conflict row in
  stage_and_fetch env id "ResourceUnknown".

Definition recover_unknown (env : ResourceEnv) (id : ReservationId) (new_fencing_token : Z)
    : M ReservationRow :=
  let! row := load_reservation (reservation_missing id) id in
  guard! row.(ReservationRow.fencing_token) <? new_fencing_token
    else kerr FailedPrecondition "recovery fencing token must exceed the previous owner" in
  let! won := resources_cas_transition id ReservationState.Unknown
                (ReservationPatch.mk (Some ReservationState.Allocated) (Some new_fencing_token)) in
  guard! won else state_conflict row in
  stage_and_fetch env id "ResourceAllocated".
End Resources.

(** ** Delegated budget *)

(** A row's share of the budget [parent] delegates in [unit]. *)
Definition share (parent : ReservationId) (unit_ : string) (r : ReservationRow) : Z :=
  if is_child_of parent r && active r.(ReservationRow.state) &&
     bool_decide (r.(ReservationRow.unit) = unit_)
  then r.(ReservationRow.amount) else 0.

Definition delegated (m : gmap N ReservationRow) (parent : ReservationId) (unit_ : string) : Z :=
  map_fold (fun _ r acc => share parent unit_ r + acc) 0 m.

Lemma delegated_insert m k r p u :
  m !! k = None -> delegated (<[k := r]> m) p u = share p u r + delegated m p u.
Proof.
  intros Hk. unfold delegated.
  rewrite (map_fold_insert_L (fun _ r acc => share p u r + acc) 0) by (intros; lia || done). done.
Qed.

(** Replacing a row replaces its share. *)
Lemma delegated_update m k r r' p u :
  m !! k = Some r -> delegated (<[k := r']> m) p u = delegated m p u - share p u r + share p u r'.
Proof.
  intros Hk. rewrite <- (insert_delete_id m k r Hk) at 2. rewrite <- insert_delete_eq.
  rewrite !delegated_insert by apply lookup_delete_eq. lia.
Qed.

Lemma checked_sum_ok acc l z :
  checked_sum acc l = Some z -> z = acc + foldr (fun r s => r.(ReservationRow.amount) + s) 0 l.
Proof.
  revert acc. induction l as [|r l IH]; intros acc; simpl; [intros [= <-]; lia|].
  unfold i64_checked_add. destruct (in_i64 _); [|done]. intros ->%IH. lia.
Qed.

(** The sum over the listed children is the delegated budget. *)
Lemma sum_children m p u :
  foldr (fun r s => r.(ReservationRow.amount) + s) 0
    (List.filter (fun c => active c.(ReservationRow.state) && bool_decide (c.(ReservationRow.unit) = u))
       (select (is_child_of p) m))
  = delegated m p u.
Proof.
  set (q := fun c => active c.(ReservationRow.state) && bool_decide (c.(ReservationRow.unit) = u)).
  set (sum := fun l => foldr (fun r s => r.(ReservationRow.amount) + s) 0 (List.filter q l)).
  assert (Hperm : forall l l', l ≡ₚ l' -> sum l = sum l').
  { intros l l' Hl. unfold sum. induction Hl; simpl; try done.
    - destruct (q x); simpl; lia.
    - destruct (q x), (q y); simpl; lia.
    - lia. }
  change (sum (select (is_child_of p) m) = delegated m p u).
  unfold select, select_by. rewrite (Hperm _ (map_to_list (filter (fun kv => is_child_of p kv.2 = true) m)).*2)
    by (by rewrite merge_sort_Permutation).
  induction m as [|k r m Hk IH] using map_ind.
  - rewrite map_filter_empty. by rewrite map_to_list_empty.
  - rewrite delegated_insert by done. unfold share. destruct (is_child_of p r) eqn:Hc.
    + rewrite map_filter_insert_True by done.
      rewrite (Hperm _ (r :: (map_to_list (filter (fun kv => is_child_of p kv.2 = true) m)).*2)).
      * unfold sum in *. simpl. fold (q r). change (active _ && bool_decide _) with (q r).
        destruct (q r); simpl; lia.
      * rewrite map_to_list_insert by (by apply map_lookup_filter_None; left). done.
    + rewrite map_filter_insert_not' by (simpl; congruence). simpl. lia.
Qed.


(** ** The budget invariant *)

(** What a reservation keeps for life, and how it moves: its state follows the
    lifecycle, its fencing token never goes back. *)
Definition reservation_step (a b : ReservationState) : Prop :=
  match a, b with
  | ReservationState.Reserved, ReservationState.Allocated
  | ReservationState.Reserved, ReservationState.Unknown
  | ReservationState.Allocated, ReservationState.Released
  | ReservationState.Allocated, ReservationState.Unknown
  | ReservationState.Unknown, ReservationState.Allocated => True
  | _, _ => False
  end.

Definition reservation_frozen (r : ReservationRow) :=
  (r.(ReservationRow.reservation_id), r.(ReservationRow.run_id), r.(ReservationRow.resource_type),
   r.(ReservationRow.amount), r.(ReservationRow.unit), r.(ReservationRow.parent_reservation_id)).

Record reservation_evolves (r r' : ReservationRow) : Prop := {
  rve_frozen : reservation_frozen r' = reservation_frozen r;
  rve_state : rtc reservation_step r.(ReservationRow.state) r'.(ReservationRow.state);
  rve_token : r.(ReservationRow.fencing_token) <= r'.(ReservationRow.fencing_token) }.

#[export] Instance reservation_evolves_preorder : PreOrder reservation_evolves.
Proof.
  split.
  - intros r. split; [done|done|lia].
  - intros r1 r2 r3 [F1 S1 T1] [F2 S2 T2].
    split; [congruence|by transitivity (ReservationRow.state r2)|lia].
Qed.

Record budget_inv (d : Db) : Prop := {
  bi_key : forall id r, d.(reservations) !! id = Some r -> r.(ReservationRow.reservation_id) = id;
  bi_positive : forall id r, d.(reservations) !! id = Some r -> 0 < r.(ReservationRow.amount);
  bi_parent : forall id r p, d.(reservations) !! id = Some r ->
    r.(ReservationRow.parent_reservation_id) = Some p -> is_Some (d.(reservations) !! p);
  bi_budget : forall id r, d.(reservations) !! id = Some r ->
    delegated d.(reservations) id r.(ReservationRow.unit) <= r.(ReservationRow.amount) }.

Definition budget_rel (d d' : Db) : Prop :=
  budget_inv d -> budget_inv d' /\
  forall id r, d.(reservations) !! id = Some r ->
    exists r', d'.(reservations) !! id = Some r' /\ reservation_evolves r r'.

#[export] Instance budget_rel_preorder : PreOrder budget_rel.
Proof.
  split.
  - intros d Hi. split; [done|]. intros id r Hr. exists r. split; [done|reflexivity].
  - intros d1 d2 d3 H12 H23 I1. destruct (H12 I1) as [I2 E1]. destruct (H23 I2) as [I3 E2].
    split; [done|]. intros id r Hr. destruct (E1 _ _ Hr) as (r2 & Hr2 & V2).
    destruct (E2 _ _ Hr2) as (r3 & Hr3 & V3). exists r3. split; [done|by transitivity r2].
Qed.

Lemma budget_rel_frame d d' : d.(reservations) = d'.(reservations) -> budget_rel d d'.
Proof.
  intros E [H1 H2 H3 H4]. split.
  - split; rewrite <- E; eauto.
  - intros id r Hr. rewrite <- E. exists r. split; [done|reflexivity].
Qed.
#[export] Hint Extern 1 (budget_rel _ _) => apply budget_rel_frame; reflexivity : frame.

(** Moving a row along the lifecycle never enlarges its share: a released
    reservation does not come back. *)
Lemma share_evolves p u r r' :
  0 < r.(ReservationRow.amount) -> reservation_evolves r r' -> share p u r' <= share p u r.
Proof.
  intros Hpos [F S _]. unfold reservation_frozen in F. injection F as _ _ _ Fa Fu Fp.
  assert (Ha : active r'.(ReservationRow.state) = true -> active r.(ReservationRow.state) = true).
  { destruct S as [|a b c Hab _]; [done|]. intros _. by destruct a, b. }
  unfold share, is_child_of. rewrite Fa, Fu, Fp.
  destruct (bool_decide (_ = Some p)), (bool_decide (_ = u)), (active (ReservationRow.state r'));
    simpl; rewrite ?(Ha eq_refl); simpl; try lia; destruct (active _); simpl; lia.
Qed.

Definition put_reservation (id : ReservationId) (r : ReservationRow) (d : Db) : Db :=
  set_reservations (<[id := r]> d.(reservations)) d.

Lemma put_reservation_rel id r r' d :
  d.(reservations) !! id = Some r -> reservation_evolves r r' -> budget_rel d (put_reservation id r' d).
Proof.
  intros Hr Hev [H1 H2 H3 H4]. pose proof (rve_frozen _ _ Hev) as F.
  injection F as Fi _ _ Fa Fu Fp. split; [split|]; simpl.
  - intros i y [[<- <-]|[_ Hy]]%lookup_insert_Some; [rewrite Fi|]; eauto.
  - intros i y [[<- <-]|[_ Hy]]%lookup_insert_Some; [rewrite Fa|]; eauto.
  - intros i y p Hy Hp. apply lookup_insert_is_Some'. right.
    apply lookup_insert_Some in Hy as [[<- <-]|[_ Hy]]; [rewrite Fp in Hp|]; eauto.
  - intros i y Hy. rewrite (delegated_update _ _ r) by done.
    assert (delegated (reservations d) i (ReservationRow.unit y) <= ReservationRow.amount y).
    { apply lookup_insert_Some in Hy as [[<- <-]|[_ Hy]]; [rewrite Fa, Fu|]; eauto. }
    pose proof (share_evolves i (ReservationRow.unit y) r r' (H2 _ _ Hr) Hev). lia.
  - intros i y Hy. destruct (decide (id = i)) as [->|Hne].
    + rewrite Hr in Hy. injection Hy as <-. exists r'. by rewrite lookup_insert_eq.
    + exists y. rewrite lookup_insert_ne by done. split; [done|reflexivity].
Qed.

Lemma delegated_none m p u :
  (forall id r, m !! id = Some r -> r.(ReservationRow.parent_reservation_id) <> Some p) ->
  delegated m p u = 0.
Proof.
  induction m as [|k r m Hk IH] using map_ind; intros Hno; [done|].
  rewrite delegated_insert by done.
  assert (share p u r = 0) as ->.
  { unfold share, is_child_of. rewrite bool_decide_eq_false_2; [done|].
    apply (Hno k). by rewrite lookup_insert_eq. }
  rewrite IH; [done|]. intros id r0 Hr0. apply (Hno id). rewrite lookup_insert_ne by congruence. done.
Qed.

(** The budget that admits a child: the parent exists, holds the unit, and the
    children it already has leave room. *)
Definition admits (d : Db) (parent : ReservationId) (unit_ : string) (amount : Z) : Prop :=
  exists pr, d.(reservations) !! parent = Some pr /\ active pr.(ReservationRow.state) = true /\
    pr.(ReservationRow.unit) = unit_ /\
    delegated d.(reservations) parent unit_ + amount <= pr.(ReservationRow.amount).

Lemma new_reservation_rel r d :
  d.(reservations) !! r.(ReservationRow.reservation_id) = None -> 0 < r.(ReservationRow.amount) ->
  (forall p, r.(ReservationRow.parent_reservation_id) = Some p ->
     admits d p r.(ReservationRow.unit) r.(ReservationRow.amount)) ->
  budget_rel d (put_reservation r.(ReservationRow.reservation_id) r d).
Proof.
  intros Hnew Hpos Hadm [H1 H2 H3 H4]. split; [split|]; simpl.
  - intros i y [[<- <-]|[_ Hy]]%lookup_insert_Some; eauto.
  - intros i y [[<- <-]|[_ Hy]]%lookup_insert_Some; eauto.
  - intros i y p Hy Hp. apply lookup_insert_is_Some'. right.
    apply lookup_insert_Some in Hy as [[<- <-]|[_ Hy]]; [|eauto].
    destruct (Hadm p Hp) as (pr & Hpr & _). by exists pr.
  - intros i y Hy. rewrite delegated_insert by done.
    apply lookup_insert_Some in Hy as [[<- <-]|[Hne Hy]].
    + rewrite delegated_none.
      * unfold share, is_child_of. rewrite bool_decide_eq_false_2; [simpl; lia|].
        intros Hp. destruct (Hadm _ Hp) as (pr & Hpr & _). congruence.
      * intros i y Hy Hp. destruct (H3 _ _ _ Hy Hp) as [q Hq]. congruence.
    + pose proof (H4 _ _ Hy) as Hb. unfold share, is_child_of.
      destruct (bool_decide_reflect (ReservationRow.parent_reservation_id r = Some i)) as [Hp|]; [|simpl; lia].
      destruct (Hadm _ Hp) as (pr & Hpr & _ & Hu & Ha). rewrite Hy in Hpr. injection Hpr as <-.
      rewrite <- Hu in Ha. destruct (_ && _); lia.
  - intros i y Hy. exists y. rewrite lookup_insert_ne by congruence. split; [done|reflexivity].
Qed.

(** ** The reservation statements *)

Lemma decode_reservations_ok l k : res_collect decode_reservation l = Ok k -> k = l.
Proof.
  intros E. apply res_collect_same in E as [-> _]; [done|]. intros a b Hb. unfold decode_reservation in Hb. inv_ok. done.
Qed.

Lemma resources_get_inv id t o t' :
  resources_get id t = (Ok o, t') -> t' = t /\ o = t.(t_db).(reservations) !! id.
Proof.
  unfold resources_get. intros E. inv_run. rename select (opt_traverse _ _ = _) into D.
  destruct (reservations (t_db t') !! id) as [r0|] eqn:Hr; simpl in D; [|by injection D as <-].
  destruct (decode_reservation r0) as [r1|] eqn:D1; [|done]. injection D as <-.
  unfold decode_reservation in D1. inv_ok. done.
Qed.

Lemma load_reservation_inv e id t r t' :
  load_reservation e id t = (Ok r, t') -> t' = t /\ t.(t_db).(reservations) !! id = Some r.
Proof.
  unfold load_reservation. intros E. apply bind_ok_inv in E as (o & t1 & [-> Ho]%resources_get_inv & E).
  inv_ok. split; congruence.
Qed.
Lemma load_reservation_touches e id : touches no_table (load_reservation e id).
Proof. intros t r t' (-> & _)%load_reservation_inv. split; [done|]. by exists tt. Qed.
#[export] Hint Resolve load_reservation_touches : touches.

Lemma resources_cas_transition_inv id from p t b t' :
  resources_cas_transition id from p t = (Ok b, t') ->
  (b = true /\ exists r, t.(t_db).(reservations) !! id = Some r /\ r.(ReservationRow.state) = from /\
     t' = set_db (put_reservation id (apply_reservation_patch p r) t.(t_db)) t) \/
  (b = false /\ t' = t).
Proof.
  unfold resources_cas_transition. intros E. inv_store; [|by right|by right].
  left. split; [done|]. eexists. split; [done|].
  rename select (bool_decide _ = true) into Hm. apply bool_decide_eq_true in Hm. done.
Qed.

(** What a passed delegation check establishes. *)
Lemma check_parent_budget_inv `{!Ext} p u amount t x t' :
  check_parent_budget p u amount t = (Ok x, t') -> t' = t /\ admits t.(t_db) p (unit_as_str u) amount.
Proof.
  unfold check_parent_budget. intros E. apply bind_ok_inv in E as (pr & t1 & (-> & Hpr)%load_reservation_inv & E).
  destruct (active _) eqn:Ha; [|inv_ok]. case_bool_decide as Hu; [|inv_ok].
  apply bind_ok_inv in E as (ch & t1 & Ec & E). unfold resources_list_children in Ec. inv_run.
  rename select (res_collect _ _ = _) into Hc. apply decode_reservations_ok in Hc as ->.
  rename select (checked_sum _ _ = _) into Hz. rename select (_ = true) into Hle.
  apply checked_sum_ok in Hz. rewrite sum_children in Hz.
  unfold i64_checked_add in Hle. destruct (in_i64 _); [|done]. apply Z.leb_le in Hle.
  split; [done|]. exists pr. repeat split; try done. lia.
Qed.

Section ResourceServices.
Context `{!Ext}.

Lemma check_parent_budget_touches p u a : touches no_table (check_parent_budget p u a).
Proof. intros t r t' (-> & _)%check_parent_budget_inv. split; [done|]. by exists tt. Qed.
Lemma stage_reservation_touches env ty row : touches set_outbox (stage_reservation env ty row).
Proof.
  intros t u t' E. unfold stage_reservation in E. inv_run.
  rename select (stage_resource_event _ _ _ _ _ _ _ = _) into S.
  apply stage_resource_event_touches in S as [C [w W]]. split; [exact C|]. by exists w.
Qed.
Lemma stage_reservation_events env ty row : ensures (on_db events_rel) (stage_reservation env ty row).
Proof. unfold stage_reservation. solve_ensures. Qed.
End ResourceServices.
#[export] Hint Resolve check_parent_budget_touches stage_reservation_touches : touches.
#[export] Hint Resolve stage_reservation_events : ensures.

(** Every relation that the reservations table cannot break and staging keeps. *)
Section FrameReservations.
Context `{!Ext} (R : Db -> Db -> Prop) `{!PreOrder R}.
Hypothesis HT : forall x d, R d (set_reservations x d).
Hypothesis HO : forall env ty row, ensures (on_db R) (stage_reservation env ty row).

Lemma reserve_frame env req : ensures (on_db R) (reserve env req).
Proof. unfold reserve. solve_ensures. Qed.
Lemma allocate_frame env id tok : ensures (on_db R) (allocate env id tok).
Proof. unfold allocate, stage_and_fetch. solve_ensures. Qed.
Lemma release_frame env id tok : ensures (on_db R) (release env id tok).
Proof. unfold release, stage_and_fetch. solve_ensures. Qed.
Lemma reservation_mark_unknown_frame env id : ensures (on_db R) (reservation_mark_unknown env id).
Proof. unfold reservation_mark_unknown, stage_and_fetch. solve_ensures. Qed.
Lemma recover_unknown_frame env id tok : ensures (on_db R) (recover_unknown env id tok).
Proof. unfold recover_unknown, stage_and_fetch. solve_ensures. Qed.
End FrameReservations.

Ltac resource_service lem :=
  apply lem; [apply _ | intros ? ?; solve [eauto 2 with frame]
             | intros; solve [eauto 3 with ensures typeclass_instances]].
#[export] Hint Extern 3 (ensures (on_db _) (reserve _ _)) => resource_service reserve_frame : ensures.
#[export] Hint Extern 3 (ensures (on_db _) (allocate _ _ _)) => resource_service allocate_frame : ensures.
#[export] Hint Extern 3 (ensures (on_db _) (release _ _ _)) => resource_service release_frame : ensures.
#[export] Hint Extern 3 (ensures (on_db _) (reservation_mark_unknown _ _)) =>
  resource_service reservation_mark_unknown_frame : ensures.
#[export] Hint Extern 3 (ensures (on_db _) (recover_unknown _ _ _)) =>
  resource_service recover_unknown_frame : ensures.

(** ** The services keep the budget *)

Section BudgetRelations.
Context `{!Ext}.

Lemma cas_budget id from p :
  (forall r, r.(ReservationRow.state) = from -> reservation_evolves r (apply_reservation_patch p r)) ->
  ensures (on_db budget_rel) (resources_cas_transition id from p).
Proof.
  intros Hp t b t' [(-> & r & Hr & Hs & ->)|(-> & ->)]%resources_cas_transition_inv; [|reflexivity].
  split; [|done]. eapply put_reservation_rel; eauto.
Qed.

Lemma patch_evolves to r :
  reservation_step r.(ReservationRow.state) to ->
  reservation_evolves r (apply_reservation_patch (ReservationPatch.mk (Some to) None) r).
Proof. intros Hs. split; simpl; [done|by apply rtc_once|lia]. Qed.

Lemma stage_and_fetch_budget env id ty : ensures (on_db budget_rel) (stage_and_fetch env id ty).
Proof. unfold stage_and_fetch. solve_ensures. Qed.
#[local] Hint Resolve stage_and_fetch_budget : ensures.

Lemma allocate_budget env id tok : ensures (on_db budget_rel) (allocate env id tok).
Proof. unfold allocate. solve_ensures. apply cas_budget. intros r Hs. apply patch_evolves. by rewrite Hs. Qed.
Lemma release_budget env id tok : ensures (on_db budget_rel) (release env id tok).
Proof. unfold release. solve_ensures. apply cas_budget. intros r Hs. apply patch_evolves. by rewrite Hs. Qed.

Lemma mark_unknown_budget env id : ensures (on_db budget_rel) (reservation_mark_unknown env id).
Proof.
  unfold reservation_mark_unknown. apply ensures_bind; [apply _|solve_ensures|]. intros row.
  destruct (_ || _) eqn:Hs; [|solve_ensures].
  assert (reservation_step row.(ReservationRow.state) ReservationState.Unknown).
  { apply orb_true_iff in Hs as [Hs|Hs]; apply bool_decide_eq_true in Hs; by rewrite Hs. }
  solve_ensures. apply cas_budget. intros r Hr. apply patch_evolves. by rewrite Hr.
Qed.

(** What a successful recovery found and did before it announced itself. *)
Lemma recover_unknown_inv env id tok t row t' :
  recover_unknown env id tok t = (Ok row, t') ->
  exists r, t.(t_db).(reservations) !! id = Some r /\ r.(ReservationRow.state) = ReservationState.Unknown /\
    r.(ReservationRow.fencing_token) < tok /\
    stage_and_fetch env id "ResourceAllocated"
      (set_db (put_reservation id (apply_reservation_patch
         (ReservationPatch.mk (Some ReservationState.Allocated) (Some tok)) r) t.(t_db)) t) = (Ok row, t').
Proof.
  unfold recover_unknown. intros E. apply bind_ok_inv in E as (r & t1 & (-> & Hr)%load_reservation_inv & E).
  destruct (Z.ltb_spec (ReservationRow.fencing_token r) tok) as [Hlt|]; [|inv_ok].
  apply bind_ok_inv in E as (b & t2 & Ec & E).
  apply resources_cas_transition_inv in Ec as [(-> & r1 & Hr1 & Hs & ->)|(-> & ->)]; [|inv_ok].
  rewrite Hr in Hr1. injection Hr1 as <-. eauto.
Qed.

Lemma recover_unknown_budget env id tok : ensures (on_db budget_rel) (recover_unknown env id tok).
Proof.
  intros t row t' (r & Hr & Hs & Hlt & E)%recover_unknown_inv.
  etransitivity; [|by eapply stage_and_fetch_budget]. split; [|done]. simpl.
  apply (put_reservation_rel _ r); [done|]. split; simpl; [done|apply rtc_once; by rewrite Hs|lia].
Qed.

(** A fresh reservation with enough room in its parent. *)
Lemma resources_insert_inv n t u t' :
  resources_insert n t = (Ok u, t') ->
  t.(t_db).(reservations) !! n.(NewReservation.reservation_id) = None /\
  t' = set_db (put_reservation n.(NewReservation.reservation_id) (reservation_row_of_new n) t.(t_db)) t.
Proof.
  unfold resources_insert. intros E. inv_store. rename select (absent _ _ = true) into Ha.
  by apply absent_true in Ha.
Qed.

Lemma admission_inv parent u amount t x t' :
  match parent with Some p => check_parent_budget p u amount | None => ret tt end t = (Ok x, t') ->
  t' = t /\ forall p, parent = Some p -> admits t.(t_db) p (unit_as_str u) amount.
Proof.
  destruct parent as [p|]; intros E; [|by inv_ok].
  apply check_parent_budget_inv in E as [-> Ha]. split; [done|]. by intros ? [= <-].
Qed.

(** What a granted reservation that is not a replay found and did. *)
Lemma reserve_new_inv env rq t row t' :
  reserve env rq t = (Ok row, t') ->
  (t_db t' = t_db t /\ t_ctx t' = t_ctx t /\ exists id, t.(t_db).(reservations) !! id = Some row /\
     row.(ReservationRow.amount) = rq.(rq_amount) /\
     row.(ReservationRow.parent_reservation_id) = rq.(rq_parent)) \/
  (0 < rq.(rq_amount) /\
   (forall p, rq.(rq_parent) = Some p -> admits t.(t_db) p (unit_as_str rq.(rq_unit)) rq.(rq_amount)) /\
   exists id now t1,
     t.(t_db).(reservations) !! id = None /\
     row = reservation_row_of_new (NewReservation.mk id rq.(rq_run_id) (unit_as_str rq.(rq_unit))
             ReservationState.Reserved rq.(rq_amount) (unit_as_str rq.(rq_unit))
             rq.(rq_fencing_token) rq.(rq_parent) now) /\
     t1.(t_db) = put_reservation id row t.(t_db) /\ t1.(t_ctx) = t.(t_ctx) /\
     stage_reservation env "ResourceReserved" row t1 = (Ok tt, t')).
Proof.
  unfold reserve. intros E. destruct (Z.ltb_spec 0 rq.(rq_amount)); [|inv_ok].
  apply bind_ok_inv in E as (id & t1 & E1 & E).
  assert (t_db t1 = t_db t /\ t_ctx t1 = t_ctx t) as [Ed Ec].
  { destruct (rq_reservation_id rq); inv_run; done. }
  apply bind_ok_inv in E as ([r0|] & t2 & Eg & E).
  - left. apply resources_get_inv in Eg as [-> Hr]. clear E1.
    destruct (_ && _) eqn:Hm in E; inv_ok. rewrite !andb_true_iff, !bool_decide_eq_true in Hm. rewrite Ed in Hr.
    split; [done|]. split; [done|]. exists id. split; [done|tauto].
  - right. apply resources_get_inv in Eg as [-> Hr].
    apply bind_ok_inv in E as (x1 & t2 & [-> Hadm]%admission_inv & E).
    apply bind_ok_inv in E as (now & t3 & En & E).
    assert (t_db t3 = t_db t /\ t_ctx t3 = t_ctx t) as [Ed3 Ec3].
    { clear E E1. inv_run. done. }
    apply bind_ok_inv in E as (x2 & t4 & [Ha ->]%resources_insert_inv & E).
    apply bind_ok_inv in E as (r & t5 & [-> Hl]%load_reservation_inv & E). simpl in Hl.
    rewrite lookup_insert_eq in Hl. injection Hl as <-.
    apply bind_ok_inv in E as ([] & t6 & Es & E). inv_ok.
    rewrite Ed in Hadm. rewrite Ed3 in Ha. split; [done|]. split; [done|].
    eexists id, now, _. split; [exact Ha|]. split; [reflexivity|].
    split; [|split; [|exact Es]]; simpl; [by rewrite Ed3|done].
Qed.

Lemma reserve_budget env rq : ensures (on_db budget_rel) (reserve env rq).
Proof.
  intros t row t' E. apply reserve_new_inv in E as [(Ed & Ec & _)|(Hpos & Hadm & id & now & t1 & Hn & -> & Ed & Ec & Es)].
  - split; [by rewrite Ed|done].
  - transitivity t1.
    + split; [|by rewrite Ec]. rewrite Ed. apply new_reservation_rel; done.
    + eapply (ensures_touches _ _ _ (stage_reservation_touches _ _ _)); [|exact Es]. intros. eauto with frame.
Qed.
End BudgetRelations.
#[export] Hint Resolve reserve_budget allocate_budget release_budget mark_unknown_budget
  recover_unknown_budget : ensures.

(** ** Behaviour *)

Section ResourceBehaviour.
Context `{!Ext}.

(** C11: The delegation check protects the parent: however [reserve] answers
    with a row, and whatever reservations already exist, the active children
    of every reservation that share its unit add up to at most its amount, and
    a granted child is covered by an active parent of its unit. *)
Theorem reserve_within_parent_budget env rq t row t' :
  budget_inv t.(t_db) -> reserve env rq t = (Ok row, t') ->
  (forall id r, t'.(t_db).(reservations) !! id = Some r ->
     delegated t'.(t_db).(reservations) id r.(ReservationRow.unit) <= r.(ReservationRow.amount)) /\
  (forall p, t.(t_db).(reservations) !! row.(ReservationRow.reservation_id) = None ->
     rq.(rq_parent) = Some p ->
     exists pr, t.(t_db).(reservations) !! p = Some pr /\ active pr.(ReservationRow.state) = true /\
       pr.(ReservationRow.unit) = row.(ReservationRow.unit) /\
       row.(ReservationRow.amount) = rq.(rq_amount) /\
       delegated t.(t_db).(reservations) p row.(ReservationRow.unit) + rq.(rq_amount)
         <= pr.(ReservationRow.amount)).
Proof.
  intros Hinv E. destruct (reserve_budget env rq t row t' E) as [Hrel _].
  destruct (Hrel Hinv) as [Hinv' _]. split; [apply Hinv'|]. intros p Hnone Hp.
  apply reserve_new_inv in E as [(_ & _ & id & Hid & _)|(_ & Hadm & id & now & t1 & _ & -> & _)].
  - rewrite (bi_key _ Hinv _ _ Hid) in Hnone. congruence.
  - destruct (Hadm p Hp) as (pr & Hpr & Ha & Hu & Hle). exists pr. simpl. auto.
Qed.

(** Recovering an unknown reservation re-fences it: the recovered row is
    allocated under a strictly larger token, and the previous owner's token is
    refused by [allocate] and [release] from then on. *)
Theorem recovery_refences_reservation env id tok t row t' r :
  budget_inv t.(t_db) -> t.(t_db).(reservations) !! id = Some r ->
  recover_unknown env id tok t = (Ok row, t') ->
  r.(ReservationRow.state) = ReservationState.Unknown /\
  row.(ReservationRow.state) = ReservationState.Allocated /\
  r.(ReservationRow.fencing_token) < row.(ReservationRow.fencing_token) /\
  forall env2 t2, budget_rel t'.(t_db) t2.(t_db) ->
    (forall row2, fst (allocate env2 id r.(ReservationRow.fencing_token) t2) <> Ok row2) /\
    (forall row2, fst (release env2 id r.(ReservationRow.fencing_token) t2) <> Ok row2).
Proof.
  intros Hinv Hr E. destruct (recover_unknown_budget env id tok t row t' E) as [Hrel _].
  destruct (Hrel Hinv) as [Hinv' _]. apply recover_unknown_inv in E as (r0 & Hr0 & Hs & Hlt & E).
  rewrite Hr in Hr0. injection Hr0 as <-. unfold stage_and_fetch in E.
  apply bind_ok_inv in E as (r1 & t1 & [-> Hr1]%load_reservation_inv & E). simpl in Hr1.
  rewrite lookup_insert_eq in Hr1. injection Hr1 as <-.
  apply bind_ok_inv in E as (u & t2 & [_ [w W]]%stage_reservation_touches & E). inv_ok.
  split; [done|]. split; [done|]. split; [done|]. intros env2 t2 Hrel2.
  destruct (Hrel2 Hinv') as [_ Hev].
  destruct (Hev id _ ltac:(rewrite W; simpl; apply lookup_insert_eq)) as (r2 & Hr2 & V).
  pose proof (rve_token _ _ V) as Htok. simpl in Htok.
  assert (Hno : verify_token r2 r.(ReservationRow.fencing_token)
                = Err (kerr FailedPrecondition "fencing token does not own this reservation")).
  { unfold verify_token. rewrite bool_decide_eq_false_2; [done|lia]. }
  split; intros row2; unfold allocate, release.
  all: match goal with |- fst (bind ?m ?f ?s) <> _ => destruct (bind m f s) as [[x|] t3] eqn:E end; [|done].
  all: apply bind_ok_inv in E as (r3 & t4 & [-> Hr3]%load_reservation_inv & E).
  all: rewrite Hr2 in Hr3; injection Hr3 as <-; rewrite Hno in E; inv_ok.
Qed.
End ResourceBehaviour.
