(* ===== verification/Kernel.v ===== *)
(** * The kernel's invariant and the relation every transaction keeps

    [kernel_inv] collects the invariants of the tables the services share and
    [kernel_rel] the relations between the database before and after a
    service; a service keeps [kernel_rel] when it keeps each part. *)

From S2P Require Import Prelude Domain Ids Models StoreBase Store SecurityStore Ledger Events Runs RunGraph.
From S2P Require Import EffectPolicy.
From S2P Require Import Effects Scheduler Resources.

Open Scope Z_scope.

Record kernel_inv (d : Db) : Prop := {
  ki_runs : runs_inv d;
  ki_graph : graph_ok d;
  ki_outbox : outbox_ok d;
  ki_effects : effects_inv d;
  ki_timers : timers_inv d;
  ki_budget : budget_inv d;
  ki_ledger : ledger_inv d }.

Record kernel_rel (d d' : Db) : Prop := {
  kr_runs : runs_rel d d';
  kr_graph : graph_rel d d';
  kr_events : events_rel d d';
  kr_effects : effects_rel d d';
  kr_timers : timers_rel d d';
  kr_budget : budget_rel d d';
  kr_ledger : ledger_rel d d' }.

#[export] Instance kernel_rel_preorder : PreOrder kernel_rel.
Proof.
  split.
  - intros d. split; reflexivity.
  - intros d1 d2 d3 [] []. split; etransitivity; eassumption.
Qed.

#[export] Hint Extern 1 (kernel_rel _ _) => split; solve [eauto 2 with frame] : frame.

Lemma ensures_kernel {A} (m : M A) :
  ensures (on_db runs_rel) m -> ensures (on_db graph_rel) m -> ensures (on_db events_rel) m ->
  ensures (on_db effects_rel) m -> ensures (on_db timers_rel) m -> ensures (on_db budget_rel) m ->
  ensures (on_db ledger_rel) m -> ensures (on_db kernel_rel) m.
Proof.
  intros H1 H2 H3 H4 H5 H6 H7 t a t' E. split; [|by apply (H1 _ _ _ E)].
  split; [apply (H1 _ _ _ E)|apply (H2 _ _ _ E)|apply (H3 _ _ _ E)|apply (H4 _ _ _ E)
         |apply (H5 _ _ _ E)|apply (H6 _ _ _ E)|apply (H7 _ _ _ E)].
Qed.

Lemma kernel_rel_inv d d' : kernel_rel d d' -> kernel_inv d -> kernel_inv d'.
Proof.
  intros [R1 R2 R3 R4 R5 R6 R7] [I1 I2 I3 I4 I5 I6 I7].
  split; [by apply R1|by apply R2|by apply R3|by apply R4|by apply R5|by apply R6|by apply R7].
Qed.

(** Splits a service into the seven relations and solves each by its parts. *)
Ltac solve_kernel := apply ensures_kernel; solve_ensures.

(** The component services, as parts of larger transactions. *)
Section ComponentServices.
Context `{!Ext}.

Lemma transition_kernel id rev to reason : ensures (on_db kernel_rel) (transition id rev to reason).
Proof. apply ensures_kernel; solve [solve_ensures] || (unfold transition; solve_ensures). Qed.
Lemma add_dependency_kernel s t c rev now : ensures (on_db kernel_rel) (add_dependency s t c rev now).
Proof. apply ensures_kernel; solve [solve_ensures] || (unfold add_dependency; solve_ensures). Qed.
Lemma cancel_subtree_kernel root rev : ensures (on_db kernel_rel) (cancel_subtree root rev).
Proof. apply ensures_kernel; solve [solve_ensures] || (unfold cancel_subtree, advance_epoch; solve_ensures). Qed.

Lemma timer_schedule_kernel env req : ensures (on_db kernel_rel) (timer_schedule env req).
Proof. solve_kernel. Qed.
Lemma timer_cancel_kernel env id v : ensures (on_db kernel_rel) (timer_cancel env id v).
Proof. solve_kernel. Qed.
Lemma claim_next_due_kernel env now owner epoch ex :
  ensures (on_db kernel_rel) (claim_next_due env now owner epoch ex).
Proof. solve_kernel. Qed.
Lemma mark_fired_kernel env row : ensures (on_db kernel_rel) (mark_fired env row).
Proof. solve_kernel. Qed.

Lemma effect_claim_kernel env id ex : ensures (on_db kernel_rel) (effect_claim env id ex).
Proof. solve_kernel. Qed.
Lemma effect_transition_kernel env id ex to ty pr rr ec : to <> EffectState.Claimed ->
  ensures (on_db kernel_rel) (effect_transition env id ex to ty (effect_patch to pr rr ec)).
Proof.
  intros Hto. apply ensures_kernel; [..|by apply effect_transition_effects| | |];
    solve [solve_ensures] || (unfold effect_transition; solve_ensures).
Qed.
Lemma prepare_effect_kernel env req : ensures (on_db kernel_rel) (prepare_effect env req).
Proof. solve_kernel. Qed.
Lemma apply_observed_kernel env id plan : ensures (on_db kernel_rel) (apply_observed env id plan).
Proof. solve_kernel. Qed.
Lemma apply_resolution_kernel env id r res why :
  ensures (on_db kernel_rel) (apply_resolution env id r res why).
Proof. solve_kernel. Qed.

Lemma reserve_kernel env rq : ensures (on_db kernel_rel) (reserve env rq).
Proof. solve_kernel. Qed.
Lemma allocate_kernel env id tok : ensures (on_db kernel_rel) (allocate env id tok).
Proof. solve_kernel. Qed.
Lemma release_kernel env id tok : ensures (on_db kernel_rel) (release env id tok).
Proof. solve_kernel. Qed.
Lemma reservation_mark_unknown_kernel env id : ensures (on_db kernel_rel) (reservation_mark_unknown env id).
Proof. solve_kernel. Qed.
Lemma recover_unknown_kernel env id tok : ensures (on_db kernel_rel) (recover_unknown env id tok).
Proof. solve_kernel. Qed.
End ComponentServices.
#[export] Hint Resolve transition_kernel add_dependency_kernel cancel_subtree_kernel timer_schedule_kernel
  timer_cancel_kernel claim_next_due_kernel mark_fired_kernel effect_claim_kernel
  effect_transition_kernel prepare_effect_kernel apply_observed_kernel apply_resolution_kernel
  reserve_kernel allocate_kernel
  release_kernel reservation_mark_unknown_kernel recover_unknown_kernel : ensures.

Lemma no_row {K A} `{Countable K} (m : gmap K A) i x : m = ∅ -> m !! i = Some x -> False.
Proof. intros ->. by rewrite lookup_empty. Qed.

(** The database of a fresh daemon satisfies the invariant. *)
Lemma kernel_inv_init f : kernel_inv (set_daemon_fence f empty_db).
Proof.
  assert (Hedge : forall x y, ~ edge (deps_edges (set_daemon_fence f empty_db)) x y).
  { intros x y (k & e & Hk & _)%elem_of_dep_edges. exact (no_row _ _ _ eq_refl Hk). }
  split.
  - split; try (intros ? ? Hx; intros; exfalso; exact (no_row _ _ _ eq_refl Hx)).
    + intros ? ? ? Hx; intros; exfalso; exact (no_row _ _ _ eq_refl Hx).
    + exists (fun _ => 0%nat). intros ? ? ? Hx; intros; exfalso; exact (no_row _ _ _ eq_refl Hx).
  - split; try (intros ? ? Hx; intros; exfalso; exact (no_row _ _ _ eq_refl Hx)).
    + intros x Hx. destruct Hx as [? ? Hx|? ? ? Hx]; by apply Hedge in Hx.
    + intros ? ? ? ? Hx; intros; exfalso; exact (no_row _ _ _ eq_refl Hx).
  - split.
    + intros key. unfold stream_head. simpl. rewrite lookup_empty. done.
    + intros ? ? Hx; intros; exfalso; exact (no_row _ _ _ eq_refl Hx).
    + intros ? ? ? ? [Hx _]; intros; exfalso; exact (no_row _ _ _ eq_refl Hx).
    + intros key n. unfold stream_head. simpl. rewrite lookup_empty. simpl. lia.
    + intros ? ? ? ? ? ? [Hx _]; intros; exfalso; exact (no_row _ _ _ eq_refl Hx).
  - split; try (intros ? ? Hx; intros; exfalso; exact (no_row _ _ _ eq_refl Hx)).
    intros ? ? ? ? Hx; intros; exfalso; exact (no_row _ _ _ eq_refl Hx).
  - split; intros ? ? Hx; intros; exfalso; exact (no_row _ _ _ eq_refl Hx).
  - split; try (intros ? ? Hx; intros; exfalso; exact (no_row _ _ _ eq_refl Hx)).
    intros ? ? ? Hx; intros; exfalso; exact (no_row _ _ _ eq_refl Hx).
  - split; intros ? ? Hx; intros; exfalso; exact (no_row _ _ _ eq_refl Hx).
Qed.
