(* ===== verification/RunServices.v ===== *)
(** * Run services and their command handlers ([runtime/src/*.rs])

    [ClaimReadyRun], [CancelRun], [CreateTaskRun], [CreateSession],
    [PutAgentSpecRevision], [ScheduleTimer] and [CancelTimer]: the
    transaction-scoped service and the handler that decodes its command. *)

From S2P Require Import Prelude Domain Ids Text Models StoreBase Store SecurityStore Ledger Events Runs RunGraph.
From S2P Require Import EffectPolicy.
From S2P Require Import Effects Scheduler Resources Kernel.

Open Scope string_scope.
Open Scope Z_scope.

(** ** Command plumbing ([command-coordinator/src/handler.rs], [runtime/src/lib.rs]) *)

Record CommandContext := mkCommandContext {
  cc_command_id : CommandId;
  cc_principal_id : PrincipalId;
  cc_actor_id : ActorId;
  cc_device_id : option DeviceId;
  cc_delegation_chain_id : option DelegationChainId;
  cc_correlation_id : option string;
  cc_causation_id : option string }.

Inductive OutcomeCode := OutcomeOk.

Record CommandOutcome := mkCommandOutcome { co_code : OutcomeCode; co_payload : bytes }.

Definition outcome_code_as_str (c : OutcomeCode) : string := match c with OutcomeOk => "ok" end.

Definition outcome_code_from_stored (value : string) : Res OutcomeCode :=
  if decide (value = "ok") then Ok OutcomeOk
  else Err (kerr Internal "stored idempotency outcome_code is not recognized").

(** The decoded command payloads ([domain::generated::contract]). *)
Record ClaimReadyRunMsg := mkClaimReadyRunMsg {
  crr_run_id : string; crr_claim_owner : string; crr_claim_ttl_ms : Z }.
Record CancelRunMsg := mkCancelRunMsg {
  cr_run_id : string; cr_reason : string; cr_expected_run_revision : Z }.
Record VersionedRefMsg := mkVersionedRefMsg { vr_id : string; vr_version : string; vr_digest : string }.
Record CreateTaskRunMsg := mkCreateTaskRunMsg {
  ct_task_id : string; ct_run_id : string; ct_session_id : string; ct_task_kind : string;
  ct_task_payload : bytes; ct_agent_spec_ref : option VersionedRefMsg; ct_parent_run_id : string;
  ct_observed_parent_cancellation_epoch : Z; ct_requested_profile : string;
  ct_workspace_uri : string; ct_requested_capabilities : list string; ct_requested_budget : bytes }.
Record CreateSessionMsg := mkCreateSessionMsg { cs_session_id : string; cs_metadata : bytes }.
Record PutAgentSpecRevisionMsg := mkPutAgentSpecRevisionMsg {
  pa_agent_spec_id : string; pa_version : string; pa_body_bytes : bytes; pa_body_digest : string }.
Record ScheduleTimerMsg := mkScheduleTimerMsg {
  st_timer_id : string; st_run_id : string; st_timer_kind : string; st_due_at_ms : Z; st_payload : bytes }.
Record CancelTimerMsg := mkCancelTimerMsg { ctm_timer_id : string; ctm_expected_version : Z }.

(** [prost::Message::decode] for each command. *)
Class Contracts := {
  decode_claim_ready_run : bytes -> option ClaimReadyRunMsg;
  decode_cancel_run : bytes -> option CancelRunMsg;
  decode_create_task_run : bytes -> option CreateTaskRunMsg;
  decode_create_session : bytes -> option CreateSessionMsg;
  decode_put_agent_spec_revision : bytes -> option PutAgentSpecRevisionMsg;
  decode_schedule_timer : bytes -> option ScheduleTimerMsg;
  decode_cancel_timer : bytes -> option CancelTimerMsg }.

Definition decode_contract {A} (decode : bytes -> option A) (name : string) (payload : bytes) : Res A :=
  ok_or (decode payload) (kerr InvalidArgument (name +:+ " payload is not valid contract bytes")).

Definition invalid_field (field detail : string) : KernelError :=
  kerr InvalidArgument (field +:+ " " +:+ detail).

Section Handlers.
Context `{!Ext} `{!Contracts}.

Definition required_id (field text : string) : Res Uuid :=
  ok_or (uuid_v7_from_str text) (invalid_field field "is not a valid identifier").

Definition optional_id (field text : string) : Res (option Uuid) :=
  if str_is_empty text then Ok None else res_map Some (required_id field text).

(** [CommandOutcome { code: Ok, payload: id.to_string().into_bytes() }]. *)
Definition outcome_id (id : Uuid) : CommandOutcome :=
  mkCommandOutcome OutcomeOk (String.list_byte_of_string (uuid_hyphenated id)).

(** ** [ClaimReadyRun] ([claim.rs]) *)

Definition fresh_token : M Z :=
  let! u := draw_uuid in ret (Z.land (Z.of_N u) i64_max).

Definition claim_patch (claim : ClaimPatch) : RunPatch := {|
  RunPatch.state := Some RunState.Running;
  RunPatch.recovery := None;
  RunPatch.loop_epoch := None;
  RunPatch.step_sequence := None;
  RunPatch.input_event_cursor := None;
  RunPatch.cancellation_epoch := None;
  RunPatch.resolved_environment_id := None;
  RunPatch.claim := Some claim;
  RunPatch.terminal_reason := None;
  RunPatch.output_ref := None;
  RunPatch.current_turn_id := None;
  RunPatch.bump_revision := true |}.

(** [now_ms.saturating_add(i64::try_from(ttl_ms).unwrap_or(i64::MAX))]. *)
Definition claim_expiry (now_ms ttl_ms : Z) : Z :=
  i64_saturating_add now_ms (if ttl_ms <=? i64_max then ttl_ms else i64_max).

(** [stage_catalogued] with a fresh id on a given stream. *)
Definition stage_on (event_type : string) (stream : Res StreamKey) (payload : bytes)
    (correlation : option string) : M unit :=
  let! event_id := draw_uuid in
  let! stream := lift_res stream in
  do! stage_catalogued event_id event_type stream payload correlation None in
  ret tt.

Definition stage_on_run (event_type : string) (run_id : RunId) (payload : bytes)
    (correlation : option string) : M unit :=
  stage_on event_type (stream_run run_id) payload correlation.

Definition claim_with_ids (run_id : RunId) (owner : string) (ttl_ms now_ms daemon_epoch : Z) : M unit :=
  let! current := load_run run_id in
  guard! bool_decide (current.(RunRow.state) = RunState.Ready)
    else kerr Conflict "run is not ready to be claimed" in
  guard! bool_decide (current.(RunRow.recovery) = RecoveryDisposition.Normal)
    else kerr FailedPrecondition "run recovery disposition does not permit claiming" in
  guard! negb (has_live_claim current now_ms)
    else kerr Conflict "run already carries a live claim" in
  let! satisfied := dependencies_satisfied run_id in
  guard! satisfied else kerr FailedPrecondition "run dependencies are not satisfied" in
  let! token := fresh_token in
  let! updated := runs_cas_update run_id
    (RunCas.mk current.(RunRow.run_revision) (Some RunState.Ready) None)
    (claim_patch (ClaimPatch.mk owner token (claim_expiry now_ms ttl_ms) daemon_epoch)) in
  guard! updated else kerr Conflict "run claim lost a revision race" in
  let! got := runs_get run_id in
  let! claimed := lift_res (ok_or got (kerr Internal "run vanished after its claim")) in
  let payload := encode_to_vec (MsgAgentRun (run_payload claimed)) in
  do! stage_on_run "RunClaimed" run_id payload None in
  stage_on_run "RunStarted" run_id payload None.

Definition claim_ready_run_handle (ctx : CommandContext) (payload : bytes) : M CommandOutcome :=
  let! raw := lift_res (decode_contract decode_claim_ready_run "ClaimReadyRun" payload) in
  let! run_id := lift_res (required_id "run_id" raw.(crr_run_id)) in
  guard! negb (trim_is_empty raw.(crr_claim_owner))
    else invalid_field "claim_owner" "must not be empty" in
  let! now_ms := now_unix_ms in
  let! tx := txn_context in
  do! claim_with_ids run_id raw.(crr_claim_owner) raw.(crr_claim_ttl_ms) now_ms tx.(ctx_daemon_epoch) in
  ret (outcome_id run_id).

(** ** [CancelRun] ([cancel.rs]) *)

Record CancellationReport := mkCancellationReport {
  cr_root : RunId; cr_cancellation_epoch : Z; cr_changed : list RunId }.

(** [cancel::terminal_reason]. *)
Definition cancel_reason (reason : string) : option string :=
  if trim_is_empty reason then None else Some reason.

(** [stage_run_event]. *)
Definition stage_run_event (row : RunRow) (event_type : string) : M unit :=
  stage_on_run event_type row.(RunRow.run_id) (encode_to_vec (MsgAgentRun (run_payload row))) None.

(** The loop over the eligible runs; returns those it changed. *)
Fixpoint cancel_each (reason : string) (eligible : list RunId) : M (list RunId) :=
  match eligible with
  | [] => ret []
  | candidate :: eligible =>
      let! got := runs_get candidate in
      let! row := lift_res (ok_or got (kerr Internal "eligible run vanished during cancellation")) in
      match cancellation_target row.(RunRow.state) with
      | Some RunState.Cancelled =>
          let! final := transition candidate row.(RunRow.run_revision) RunState.Cancelled
                          (cancel_reason reason) in
          do! stage_run_event final "RunCancelled" in
          let! changed := cancel_each reason eligible in
          ret (candidate :: changed)
      | Some RunState.Cancelling =>
          let! final := transition candidate row.(RunRow.run_revision) RunState.Cancelling
                          (Some REASON_CANCELLATION_REQUESTED) in
          do! stage_run_event final "RunStateChanged" in
          let! changed := cancel_each reason eligible in
          ret (candidate :: changed)
      | _ => cancel_each reason eligible
      end
  end.

Definition cancel (run_id : RunId) (expected_run_revision : option Z) (reason : string)
    : M CancellationReport :=
  let! eligible := cancel_subtree run_id expected_run_revision in
  let! changed := cancel_each reason eligible in
  let! got := runs_get run_id in
  let! root_row := lift_res (ok_or got (kerr Internal "root run vanished during cancellation")) in
  ret (mkCancellationReport run_id root_row.(RunRow.cancellation_epoch) changed).

Definition cancel_run_handle (ctx : CommandContext) (payload : bytes) : M CommandOutcome :=
  let! raw := lift_res (decode_contract decode_cancel_run "CancelRun" payload) in
  let! run_id := lift_res (required_id "run_id" raw.(cr_run_id)) in
  guard! negb (trim_is_empty raw.(cr_reason)) else invalid_field "reason" "must not be empty" in
  let expected := if bool_decide (raw.(cr_expected_run_revision) = 0) then None
                  else Some raw.(cr_expected_run_revision) in
  do! now_unix_ms in
  let! report := cancel run_id expected raw.(cr_reason) in
  ret (outcome_id report.(cr_root)).

(** ** [CreateTaskRun] ([create_run.rs], [task.rs]) *)

Record AgentSpecRef := mkAgentSpecRef {
  asr_agent_spec_id : AgentSpecId; asr_version : string; asr_digest : string }.

Record CreateTaskRunRequest := mkCreateTaskRunRequest {
  cq_task_id : TaskId;
  cq_run_id : RunId;
  cq_session_id : option SessionId;
  cq_task_kind : string;
  cq_task_payload : bytes;
  cq_agent_spec_ref : option AgentSpecRef;
  cq_parent_run_id : option RunId;
  cq_observed_parent_cancellation_epoch : Z;
  cq_requested_profile : string;
  cq_workspace_uri : string;
  cq_requested_capabilities : list string;
  cq_requested_budget : bytes }.

(** An identifier the caller may leave to the provider. *)
Definition id_or_fresh (field text : string) : M Uuid :=
  let! got := lift_res (optional_id field text) in
  match got with Some id => ret id | None => draw_uuid end.

(** [CreateTaskRunRequest::from_contract]. *)
Definition from_contract (raw : CreateTaskRunMsg) : M CreateTaskRunRequest :=
  let! task_id := id_or_fresh "task_id" raw.(ct_task_id) in
  let! run_id := id_or_fresh "run_id" raw.(ct_run_id) in
  let! session_id := lift_res (optional_id "session_id" raw.(ct_session_id)) in
  let! parent_run_id := lift_res (optional_id "parent_run_id" raw.(ct_parent_run_id)) in
  let! agent_spec_ref := lift_res (
    match raw.(ct_agent_spec_ref) with
    | Some reference =>
        if str_is_empty reference.(vr_id) && str_is_empty reference.(vr_version) &&
           str_is_empty reference.(vr_digest)
        then Ok None
        else res_map (fun id => Some (mkAgentSpecRef id reference.(vr_version) reference.(vr_digest)))
               (required_id "agent_spec_ref.id" reference.(vr_id))
    | None => Ok None
    end) in
  ret (mkCreateTaskRunRequest task_id run_id session_id raw.(ct_task_kind) raw.(ct_task_payload)
         agent_spec_ref parent_run_id raw.(ct_observed_parent_cancellation_epoch)
         raw.(ct_requested_profile) raw.(ct_workspace_uri) raw.(ct_requested_capabilities)
         raw.(ct_requested_budget)).

(** [task::ensure_task]. *)
Definition ensure_task (task : NewTask) : M unit :=
  let! got := tasks_get task.(NewTask.task_id) in
  do! match got with None => tasks_insert task | Some _ => ret tt end in
  do! graph_ensure_head task.(NewTask.task_id) in
  ret tt.

Definition input_cursor (run_id : RunId) : Res EventCursor :=
  match event_stream_key_new ("run/" +:+ uuid_hyphenated run_id) with
  | Some key => Ok (mkEventCursor key 0)
  | None => Err (kerr Internal "run stream key is not canonical")
  end.

(** The referenced agent spec revision is stored with the expected digest. *)
Definition check_agent_spec (reference : option AgentSpecRef) : M unit :=
  match reference with
  | None => ret tt
  | Some reference =>
      let! got := agent_specs_get reference.(asr_agent_spec_id) reference.(asr_version) in
      match got with
      | Some stored =>
          guard! bool_decide (stored.(AgentSpecRow.digest) = reference.(asr_digest))
            else kerr FailedPrecondition "agent spec reference digest does not match the stored revision" in
          ret tt
      | None => raise (kerr FailedPrecondition "agent spec revision is not stored")
      end
  end.

(** The spawn fence: the parent exists at the observed cancellation epoch. *)
Definition check_parent_epoch (parent : option RunId) (observed : Z) : M unit :=
  match parent with
  | None => ret tt
  | Some parent_run_id =>
      let! got := runs_get parent_run_id in
      match got with
      | Some parent =>
          guard! bool_decide (parent.(RunRow.cancellation_epoch) = observed)
            else kerr FailedPrecondition "observed parent cancellation epoch is stale" in
          ret tt
      | None => raise (kerr FailedPrecondition "parent run is not persisted")
      end
  end.

Definition new_run_of (request : CreateTaskRunRequest) (cursor : EventCursor) (now_ms : Z) : NewRun := {|
  NewRun.run_id := request.(cq_run_id);
  NewRun.task_id := request.(cq_task_id);
  NewRun.session_id := request.(cq_session_id);
  NewRun.parent_run_id := request.(cq_parent_run_id);
  NewRun.state := RunState.Created;
  NewRun.recovery := RecoveryDisposition.Normal;
  NewRun.loop_epoch := 0;
  NewRun.step_sequence := 0;
  NewRun.input_event_cursor := cursor;
  NewRun.cancellation_epoch := 0;
  NewRun.resolved_environment_id := None;
  NewRun.agent_spec_id := asr_agent_spec_id <$> request.(cq_agent_spec_ref);
  NewRun.agent_spec_version := asr_version <$> request.(cq_agent_spec_ref);
  NewRun.agent_spec_digest := asr_digest <$> request.(cq_agent_spec_ref);
  NewRun.requested_profile := request.(cq_requested_profile);
  NewRun.workspace_uri :=
    if str_is_empty request.(cq_workspace_uri) then None else Some request.(cq_workspace_uri);
  NewRun.created_at_ms := now_ms |}.

Definition create_task_run (request : CreateTaskRunRequest) (ctx : CommandContext) (now_ms : Z)
    : M RunId :=
  do! check_agent_spec request.(cq_agent_spec_ref) in
  do! check_parent_epoch request.(cq_parent_run_id) request.(cq_observed_parent_cancellation_epoch) in
  let! cursor := lift_res (input_cursor request.(cq_run_id)) in
  do! ensure_task (NewTask.mk request.(cq_task_id) request.(cq_session_id) ctx.(cc_actor_id)
        request.(cq_task_kind) request.(cq_task_payload) now_ms) in
  do! runs_insert (new_run_of request cursor now_ms) in
  ret request.(cq_run_id).

Definition run_created_event (request : CreateTaskRunRequest) (run_id : RunId) (cursor : EventCursor)
    : bytes :=
  encode_to_vec (MsgAgentRun {|
    ar_run_id := uuid_hyphenated run_id;
    ar_task_id := uuid_hyphenated request.(cq_task_id);
    ar_session_id := opt_id_text request.(cq_session_id);
    ar_parent_run_id := opt_id_text request.(cq_parent_run_id);
    ar_state := to_wire RunState.Created;
    ar_recovery := to_wire RecoveryDisposition.Normal;
    ar_run_revision := 0;
    ar_loop_epoch := 0;
    ar_step_sequence := 0;
    ar_input_event_cursor := cursor_to_string cursor;
    ar_cancellation_epoch := 0;
    ar_resolved_environment_id := "";
    ar_output_ref := "";
    ar_current_turn_id := "" |}).

Definition create_task_run_handle (ctx : CommandContext) (payload : bytes) : M CommandOutcome :=
  let! raw := lift_res (decode_contract decode_create_task_run "CreateTaskRun" payload) in
  let! request := from_contract raw in
  let! now_ms := now_unix_ms in
  let! before := tasks_get request.(cq_task_id) in
  let! run_id := create_task_run request ctx now_ms in
  let! cursor := lift_res (input_cursor run_id) in
  do! match before with
      | None => stage_on "TaskCreated" (stream_task request.(cq_task_id))
          (encode_to_vec (MsgTask (uuid_hyphenated request.(cq_task_id))
             (opt_id_text request.(cq_session_id)) (uuid_hyphenated ctx.(cc_actor_id))
             request.(cq_task_kind) request.(cq_task_payload) now_ms))
          ctx.(cc_correlation_id)
      | Some _ => ret tt
      end in
  let run_event := run_created_event request run_id cursor in
  do! stage_on_run "RunCreated" run_id run_event ctx.(cc_correlation_id) in
  do! match request.(cq_parent_run_id) with
      | Some parent => stage_on_run "ChildRunCreated" parent run_event ctx.(cc_correlation_id)
      | None => ret tt
      end in
  ret (outcome_id run_id).

(** ** [CreateSession] ([session.rs]) *)

Definition create_session (session_id : option SessionId) (principal : PrincipalId) (now_ms : Z)
    : M SessionId :=
  let! tx := txn_context in
  let id := from_option (fun i => i) tx.(ctx_command_id) session_id in
  do! sessions_insert (NewSession.mk id principal now_ms None) in
  ret id.

Definition create_session_handle (ctx : CommandContext) (payload : bytes) : M CommandOutcome :=
  let! raw := lift_res (decode_contract decode_create_session "CreateSession" payload) in
  let! session_id := lift_res (optional_id "session_id" raw.(cs_session_id)) in
  let! now_ms := now_unix_ms in
  let! session_id := create_session session_id ctx.(cc_principal_id) now_ms in
  do! stage_on "SessionCreated" (stream_session session_id)
        (encode_to_vec (MsgSession (uuid_hyphenated session_id) (uuid_hyphenated ctx.(cc_principal_id))
           raw.(cs_metadata) now_ms)) ctx.(cc_correlation_id) in
  ret (outcome_id session_id).

(** ** [PutAgentSpecRevision] ([agent_spec.rs]) *)

Definition put_agent_spec_revision (spec_id : option AgentSpecId) (version : string) (body : bytes)
    (body_digest : string) (now_ms : Z) : M unit :=
  let! tx := txn_context in
  guard! negb (trim_is_empty version) else kerr InvalidArgument "agent spec version is required" in
  agent_specs_insert (NewAgentSpec.mk (from_option (fun i => i) tx.(ctx_command_id) spec_id)
    version body_digest body now_ms).

Definition put_agent_spec_revision_handle (ctx : CommandContext) (payload : bytes) : M CommandOutcome :=
  let! raw := lift_res (decode_contract decode_put_agent_spec_revision "PutAgentSpecRevision" payload) in
  let! given := lift_res (optional_id "agent_spec_id" raw.(pa_agent_spec_id)) in
  let spec_id := from_option (fun i => i) ctx.(cc_command_id) given in
  let! now_ms := now_unix_ms in
  let! stored := agent_specs_get spec_id raw.(pa_version) in
  let already := match stored with
    | Some row => bool_decide (row.(AgentSpecRow.digest) = raw.(pa_body_digest)) &&
                  bool_decide (row.(AgentSpecRow.body) = raw.(pa_body_bytes))
    | None => false
    end in
  do! (if already then ret tt else
    do! put_agent_spec_revision (Some spec_id) raw.(pa_version) raw.(pa_body_bytes)
          raw.(pa_body_digest) now_ms in
    stage_on "AgentSpecRevisionStored" stream_config_global
      (encode_to_vec (MsgAgentSpecRevision (uuid_hyphenated spec_id) raw.(pa_version)
         raw.(pa_body_digest) raw.(pa_body_bytes) now_ms)) ctx.(cc_correlation_id)) in
  ret (outcome_id spec_id).

(** ** [ScheduleTimer] and [CancelTimer] ([timers.rs]) *)

Definition timer_env (ctx : CommandContext) : SchedulerEnv := mkSchedulerEnv ctx.(cc_correlation_id) None.

Definition schedule_timer_handle (ctx : CommandContext) (payload : bytes) : M CommandOutcome :=
  let! raw := lift_res (decode_contract decode_schedule_timer "ScheduleTimer" payload) in
  let! timer_id := lift_res (optional_id "timer_id" raw.(st_timer_id)) in
  let! run_id := lift_res (optional_id "run_id" raw.(st_run_id)) in
  let! row := timer_schedule (timer_env ctx)
    (mkScheduleRequest timer_id run_id raw.(st_timer_kind) raw.(st_due_at_ms) raw.(st_payload)) in
  ret (outcome_id row.(TimerRow.timer_id)).

Definition cancel_timer_handle (ctx : CommandContext) (payload : bytes) : M CommandOutcome :=
  let! raw := lift_res (decode_contract decode_cancel_timer "CancelTimer" payload) in
  let! timer_id := lift_res (required_id "timer_id" raw.(ctm_timer_id)) in
  do! timer_cancel (timer_env ctx) timer_id raw.(ctm_expected_version) in
  ret (outcome_id timer_id).
End Handlers.

(** ** The services keep the kernel relation *)

Section ServiceRelations.
Context `{!Ext} `{!Contracts}.

Lemma stage_on_touches ty stream payload corr : touches set_outbox (stage_on ty stream payload corr).
Proof.
  intros t u t' E. unfold stage_on in E. inv_run.
  rename select (stage_catalogued _ _ _ _ _ _ _ = _) into S.
  apply stage_catalogued_touches in S as [C [w W]]. split; [exact C|]. by exists w.
Qed.
#[local] Hint Resolve stage_on_touches : touches.
Lemma stage_on_kernel ty stream payload corr : ensures (on_db kernel_rel) (stage_on ty stream payload corr).
Proof. apply ensures_kernel; solve [solve_ensures] || (unfold stage_on; solve_ensures). Qed.
#[local] Hint Resolve stage_on_kernel : ensures.

Lemma runs_cas_update_kernel id e p : sound_patch e p -> ensures (on_db kernel_rel) (runs_cas_update id e p).
Proof. intros Hp. apply ensures_kernel; [by apply runs_cas_update_runs|solve_ensures..]. Qed.

(** The same, for the row the statement actually finds. *)
Lemma runs_cas_update_kernel_at id e p t b t' :
  p.(RunPatch.bump_revision) = true ->
  (forall r, t.(t_db).(runs) !! id = Some r -> run_cas_matches e r = true ->
     run_evolves r (apply_run_patch p r)) ->
  runs_cas_update id e p t = (Ok b, t') -> on_db kernel_rel t t'.
Proof.
  intros Hb Hev E.
  assert (Hr : forall R, ensures (on_db R) (runs_cas_update id e p) -> on_db R t t') by (intros R Hm; by eapply Hm).
  split; [|by apply (Hr graph_rel); solve_ensures]. split; [|apply Hr; solve_ensures..].
  apply runs_cas_update_inv in E as [(-> & r & Hrow & Hm & _ & ->)|(-> & -> & _)]; [|reflexivity].
  apply (put_run_rel id r); [done|by apply Hev|]. rewrite (apply_bump p r Hb). lia.
Qed.

Lemma fresh_token_touches : touches no_table fresh_token.
Proof. unfold fresh_token. solve_reads. Qed.
#[local] Hint Resolve fresh_token_touches : touches.

Lemma claim_patch_sound rev c :
  sound_patch (RunCas.mk rev (Some RunState.Ready) None) (claim_patch c).
Proof.
  split; [done|]. intros r (_ & Hs & _)%run_cas_matches_inv.
  apply apply_run_patch_evolves; simpl; try done. intros s [= <-].
  rewrite (Hs _ eq_refl). by apply rtc_once.
Qed.

Lemma claim_with_ids_kernel id owner ttl now epoch :
  ensures (on_db kernel_rel) (claim_with_ids id owner ttl now epoch).
Proof.
  unfold claim_with_ids, stage_on_run. solve_ensures. apply runs_cas_update_kernel, claim_patch_sound.
Qed.

Lemma cancel_each_kernel reason l : ensures (on_db kernel_rel) (cancel_each reason l).
Proof. induction l as [|c l IH]; simpl; unfold stage_run_event, stage_on_run; solve_ensures. Qed.
#[local] Hint Resolve cancel_each_kernel : ensures.
Lemma cancel_kernel id rev reason : ensures (on_db kernel_rel) (cancel id rev reason).
Proof. unfold cancel. solve_ensures. Qed.

Lemma check_agent_spec_touches r : touches no_table (check_agent_spec r).
Proof. unfold check_agent_spec. solve_reads. Qed.
Lemma check_parent_epoch_touches p e : touches no_table (check_parent_epoch p e).
Proof. unfold check_parent_epoch. solve_reads. Qed.
#[local] Hint Resolve check_agent_spec_touches check_parent_epoch_touches : touches.

(** The fence a spawn passed. *)
Lemma check_parent_epoch_inv parent observed t u t' :
  check_parent_epoch parent observed t = (Ok u, t') ->
  forall p, parent = Some p -> exists r, t.(t_db).(runs) !! p = Some r /\
    r.(RunRow.cancellation_epoch) = observed.
Proof.
  unfold check_parent_epoch. intros E p ->.
  apply bind_ok_inv in E as (o & t1 & (-> & -> & _)%runs_get_inv & E).
  destruct (_ !! p) as [r|]; [|inv_ok]. case_bool_decide; [|inv_ok]. eauto.
Qed.

Lemma ensure_task_kernel task : ensures (on_db kernel_rel) (ensure_task task).
Proof. unfold ensure_task. apply ensures_kernel; solve_ensures. Qed.
Lemma ensure_task_runs_same task : ensures (on_db runs_same) (ensure_task task).
Proof. unfold ensure_task. solve_ensures. Qed.

Lemma runs_insert_inv n t u t' :
  runs_insert n t = (Ok u, t') ->
  t.(t_db).(runs) !! n.(NewRun.run_id) = None /\ n.(NewRun.state) <> RunState.Unspecified /\
  t' = set_db (put_run n.(NewRun.run_id) (run_row_of_new n) t.(t_db)) t.
Proof.
  unfold runs_insert. intros E. inv_store. rename select (absent _ _ = true) into Ha.
  apply absent_true in Ha. split; [done|]. split; [|done]. intros Hs.
  rename select (run_checks _ _ = true) into Hc. by rewrite Hs in Hc.
Qed.

(** What a successful creation found and did, from the fences to the INSERT. *)
Lemma create_task_run_inv req ctx now t id t' :
  create_task_run req ctx now t = (Ok id, t') ->
  id = req.(cq_run_id) /\
  exists cursor t1 t2,
    t_db t1 = t_db t /\ t_ctx t1 = t_ctx t /\
    (forall p, req.(cq_parent_run_id) = Some p -> exists r, t.(t_db).(runs) !! p = Some r /\
       r.(RunRow.cancellation_epoch) = req.(cq_observed_parent_cancellation_epoch)) /\
    input_cursor req.(cq_run_id) = Ok cursor /\
    ensure_task (NewTask.mk req.(cq_task_id) req.(cq_session_id) ctx.(cc_actor_id)
      req.(cq_task_kind) req.(cq_task_payload) now) t1 = (Ok tt, t2) /\
    runs_insert (new_run_of req cursor now) t2 = (Ok tt, t').
Proof.
  unfold create_task_run. intros E.
  apply bind_ok_inv in E as (u1 & t1 & E1 & E). apply (touches_reads _ _ _ _ (check_agent_spec_touches _)) in E1 as [D1 C1].
  apply bind_ok_inv in E as (u2 & t2 & E2 & E). pose proof (check_parent_epoch_inv _ _ _ _ _ E2) as Hp.
  apply (touches_reads _ _ _ _ (check_parent_epoch_touches _ _)) in E2 as [D2 C2].
  apply bind_ok_inv in E as (cursor & t3 & E3 & E). unfold lift_res in E3. apply pair_ok_inv in E3 as [E3 <-].
  apply bind_ok_inv in E as ([] & t4 & E4 & E). apply bind_ok_inv in E as ([] & t5 & E5 & E). inv_ok.
  split; [done|]. exists cursor, t2, t4. rewrite D1 in Hp. repeat split; try done; congruence.
Qed.

Lemma runs_insert_kernel n t u t' :
  (forall p, n.(NewRun.parent_run_id) = Some p -> is_Some (t.(t_db).(runs) !! p)) ->
  runs_insert n t = (Ok u, t') -> on_db kernel_rel t t'.
Proof.
  intros Hp E.
  assert (Hr : forall R, ensures (on_db R) (runs_insert n) -> on_db R t t') by (intros R Hm; by eapply Hm).
  split; [|by apply (Hr graph_rel); solve_ensures]. split; [|apply Hr; solve_ensures..].
  apply runs_insert_inv in E as (Ha & Hs & ->). by apply (new_run_rel (run_row_of_new n)).
Qed.

Lemma create_task_run_kernel req ctx now : ensures (on_db kernel_rel) (create_task_run req ctx now).
Proof.
  intros t id t' (_ & cursor & t1 & t2 & D & C & Hp & _ & E1 & E2)%create_task_run_inv.
  transitivity t1; [split; [rewrite D; reflexivity|done]|].
  transitivity t2; [by eapply ensure_task_kernel|]. apply ensure_task_runs_same in E1 as [E1 _].
  eapply runs_insert_kernel; [|exact E2]. intros p Hpar. rewrite E1, D.
  destruct (Hp p Hpar) as (r & Hr & _). eauto.
Qed.
#[local] Hint Resolve claim_with_ids_kernel cancel_kernel create_task_run_kernel : ensures.

(** Reading the request draws identifiers but writes nothing. *)
Lemma from_contract_touches raw : touches no_table (from_contract raw).
Proof. unfold from_contract, id_or_fresh. solve_reads. Qed.
#[local] Hint Resolve from_contract_touches : touches.

Lemma create_task_run_handle_kernel ctx p : ensures (on_db kernel_rel) (create_task_run_handle ctx p).
Proof. unfold create_task_run_handle, stage_on_run. solve_ensures. Qed.
Lemma claim_ready_run_handle_kernel ctx p : ensures (on_db kernel_rel) (claim_ready_run_handle ctx p).
Proof. unfold claim_ready_run_handle. solve_ensures. Qed.
Lemma cancel_run_handle_kernel ctx p : ensures (on_db kernel_rel) (cancel_run_handle ctx p).
Proof. unfold cancel_run_handle. solve_ensures. Qed.
Lemma create_session_handle_kernel ctx p : ensures (on_db kernel_rel) (create_session_handle ctx p).
Proof. unfold create_session_handle, create_session. solve_ensures. Qed.
Lemma put_agent_spec_revision_handle_kernel ctx p :
  ensures (on_db kernel_rel) (put_agent_spec_revision_handle ctx p).
Proof. unfold put_agent_spec_revision_handle, put_agent_spec_revision. solve_ensures. Qed.
Lemma schedule_timer_handle_kernel ctx p : ensures (on_db kernel_rel) (schedule_timer_handle ctx p).
Proof. unfold schedule_timer_handle. solve_ensures. Qed.
Lemma cancel_timer_handle_kernel ctx p : ensures (on_db kernel_rel) (cancel_timer_handle ctx p).
Proof. unfold cancel_timer_handle. solve_ensures. Qed.
End ServiceRelations.
#[export] Hint Resolve stage_on_touches fresh_token_touches from_contract_touches : touches.
#[export] Hint Resolve stage_on_kernel claim_with_ids_kernel cancel_kernel create_task_run_kernel
  ensure_task_kernel create_task_run_handle_kernel claim_ready_run_handle_kernel cancel_run_handle_kernel
  create_session_handle_kernel put_agent_spec_revision_handle_kernel schedule_timer_handle_kernel
  cancel_timer_handle_kernel : ensures.

(** ** Behaviour of claims *)

Section ClaimBehaviour.
Context `{!Ext} `{!Contracts}.

Lemma fresh_token_inv t z t' :
  fresh_token t = (Ok z, t') -> t_db t' = t_db t /\ t_ctx t' = t_ctx t /\ 0 <= z <= i64_max.
Proof.
  unfold fresh_token. intros E. inv_run. split; [done|]. split; [done|].
  change i64_max with (Z.ones 63). rewrite Z.land_ones by lia.
  pose proof (Z.mod_pos_bound (Z.of_N (new_uuid_v7 (t_ids t))) (2 ^ 63)). change (Z.ones 63) with (2 ^ 63 - 1).
  lia.
Qed.

(** A claim up to the events it announces. *)
Lemma claim_with_ids_inv id owner ttl now epoch t u t' :
  graph_ok t.(t_db) ->
  claim_with_ids id owner ttl now epoch t = (Ok u, t') ->
  exists r token,
    t.(t_db).(runs) !! id = Some r /\ r.(RunRow.state) = RunState.Ready /\
    r.(RunRow.recovery) = RecoveryDisposition.Normal /\ has_live_claim r now = false /\
    (forall k e, t.(t_db).(dependencies) !! k = Some e -> e.(RunDependencyRow.target_run_id) = id ->
       exists src, t.(t_db).(runs) !! e.(RunDependencyRow.source_run_id) = Some src /\
         condition_met e.(RunDependencyRow.dependency_condition) src.(RunRow.state) = true) /\
    0 <= token <= i64_max /\
    t'.(t_db).(runs) = <[id := apply_run_patch
      (claim_patch (ClaimPatch.mk owner token (claim_expiry now ttl) epoch)) r]> t.(t_db).(runs).
Proof.
  intros Hg E. unfold claim_with_ids in E.
  apply bind_ok_inv in E as (r & t1 & (-> & Hr & _)%load_run_inv & E).
  case_bool_decide as Hst; [|inv_ok]. case_bool_decide as Hrec; [|inv_ok].
  destruct (has_live_claim r now) eqn:Hlive; simpl in E; [inv_ok|].
  apply bind_ok_inv in E as (b & t1 & Ed & E). apply dependencies_satisfied_inv in Ed as [-> Hdeps]; [|done].
  destruct b; [|inv_ok]. apply bind_ok_inv in E as (token & t1 & Et & E).
  apply fresh_token_inv in Et as (Dt & _ & Htok). apply bind_ok_inv in E as (ok & t2 & Ec & E).
  apply runs_cas_update_inv in Ec as [(-> & r1 & Hr1 & _ & _ & ->)|(-> & -> & _)]; [|inv_ok].
  rewrite Dt, Hr in Hr1. injection Hr1 as <-.
  apply bind_ok_inv in E as (o & t3 & (-> & _ & _)%runs_get_inv & E).
  apply bind_ok_inv in E as (row & t4 & Eo & E). unfold lift_res in Eo. apply pair_ok_inv in Eo as [_ <-].
  apply bind_ok_inv in E as (x1 & t5 & [_ [w1 W1]]%stage_on_touches & E).
  apply stage_on_touches in E as [_ [w2 W2]].
  exists r, token. repeat split; try done; try lia.
  - by apply Hdeps.
  - rewrite W2. simpl. rewrite W1. simpl. by rewrite Dt.
Qed.

(** A claim is granted only to a run that is Ready, in normal recovery,
    without a live claim and with every incoming dependency met; it leaves
    that run Running one revision later under the claimant's name, expiry and
    daemon epoch with a token that fits its column, and no other run changes. *)
Theorem claim_grants_only_ready_runs id owner ttl now epoch t u t' :
  graph_ok t.(t_db) ->
  claim_with_ids id owner ttl now epoch t = (Ok u, t') ->
  exists r r',
    t.(t_db).(runs) !! id = Some r /\ t'.(t_db).(runs) = <[id := r']> t.(t_db).(runs) /\
    r.(RunRow.state) = RunState.Ready /\ r.(RunRow.recovery) = RecoveryDisposition.Normal /\
    (forall e, r.(RunRow.claim_expires_ms) = Some e -> e <= now) /\
    (forall k e, t.(t_db).(dependencies) !! k = Some e -> e.(RunDependencyRow.target_run_id) = id ->
       exists src, t.(t_db).(runs) !! e.(RunDependencyRow.source_run_id) = Some src /\
         condition_met e.(RunDependencyRow.dependency_condition) src.(RunRow.state) = true) /\
    r'.(RunRow.state) = RunState.Running /\ r'.(RunRow.run_revision) = r.(RunRow.run_revision) + 1 /\
    r'.(RunRow.claim_owner) = Some owner /\ r'.(RunRow.claim_daemon_epoch) = Some epoch /\
    r'.(RunRow.claim_expires_ms) = Some (claim_expiry now ttl) /\
    (exists token, r'.(RunRow.claim_token) = Some token /\ 0 <= token <= i64_max).
Proof.
  intros Hg (r & token & Hr & Hs & Hrec & Hlive & Hdeps & Htok & Hruns)%claim_with_ids_inv; [|done].
  eexists r, _. split; [done|]. split; [exact Hruns|]. repeat split; try done.
  - intros e He. unfold has_live_claim in Hlive. rewrite He in Hlive. by apply Z.ltb_ge in Hlive.
  - by exists token.
Qed.

Lemma not_ready_again s : rtc allowed RunState.Running s -> s <> RunState.Ready.
Proof.
  intros Hr. assert (s <> RunState.Ready /\ s <> RunState.Created) as [? _]; [|done].
  revert s Hr. apply rtc_ind_r; [done|]. intros y z _ Hyz [Hy1 Hy2].
  unfold allowed in Hyz. split; intros ->; by destruct y.
Qed.

(** C6: A ready run is claimed at most once: after a granted claim, whatever
    the kernel does to the database next, a further claim of the same run is
    refused. *)
Theorem run_claimed_at_most_once id owner ttl now epoch t u t' :
  kernel_inv t.(t_db) ->
  claim_with_ids id owner ttl now epoch t = (Ok u, t') ->
  forall owner2 ttl2 now2 epoch2 t2,
    kernel_rel t'.(t_db) t2.(t_db) ->
    fst (claim_with_ids id owner2 ttl2 now2 epoch2 t2) <> Ok tt.
Proof.
  intros Hinv E owner2 ttl2 now2 epoch2 t2 Hrel E2.
  destruct (claim_with_ids_kernel _ _ _ _ _ _ _ _ E) as [Hk _].
  pose proof (kernel_rel_inv _ _ Hk Hinv) as Hinv'. pose proof (kernel_rel_inv _ _ Hrel Hinv') as Hinv2.
  apply claim_with_ids_inv in E as (r & tok & _ & _ & _ & _ & _ & _ & Hruns); [|apply Hinv].
  destruct (claim_with_ids id owner2 ttl2 now2 epoch2 t2) as [[v|] t3] eqn:E3; [|done].
  apply claim_with_ids_inv in E3 as (r2 & tok2 & Hr2 & Hs2 & _); [|apply Hinv2].
  destruct (proj2 (kr_runs _ _ Hrel (ki_runs _ Hinv')) id _ ltac:(rewrite Hruns; apply lookup_insert_eq))
    as (r3 & Hr3 & V). rewrite Hr2 in Hr3. injection Hr3 as <-.
  by apply (not_ready_again _ (re_state _ _ V)).
Qed.
End ClaimBehaviour.
