(* ===== verification/Cancellation.v ===== *)
(** * Cancellation reaches the whole subtree ([runtime/src/cancel.rs],
    [run-graph/src/cancellation.rs])

    The effect of [cancel] on every run, and the spawn fence it raises. *)

From S2P Require Import Prelude Domain Ids Models StoreBase Store SecurityStore Ledger Events Runs RunGraph.
From S2P Require Import EffectPolicy.
From S2P Require Import Effects Scheduler Resources Kernel RunServices.

Open Scope string_scope.
Open Scope Z_scope.

(** A run a cancellation request still moves. *)
Definition cancellable (d : Db) (x : RunId) : Prop :=
  exists r, d.(runs) !! x = Some r /\ is_Some (cancellation_target r.(RunRow.state)).

(** The state a cancellation leaves a run in. *)
Definition after_cancel (s : RunState) : RunState := from_option (fun s => s) s (cancellation_target s).

(** The run and everything below it. *)
Definition in_subtree (d : Db) (root x : RunId) : Prop := rtc (child_of d) root x.

Lemma eligible_descendants_inv ids t l t' :
  eligible_descendants ids t = (Ok l, t') ->
  t' = t /\ (forall x, x ∈ l <-> x ∈ ids /\ cancellable t.(t_db) x) /\ (NoDup ids -> NoDup l).
Proof.
  revert l. induction ids as [|id ids IH]; intros l E; simpl in E.
  - inv_ok. split; [done|]. split; [|done]. intros x. split; [by intros ?%elem_of_nil|].
    by intros [?%elem_of_nil _].
  - apply bind_ok_inv in E as (o & t1 & (-> & -> & _)%runs_get_inv & E).
    apply bind_ok_inv in E as (r & t1 & Er & E). inv_ok. rename select (_ !! id = Some r) into Hr.
    rename select (eligible_descendants _ _ = _) into El. apply IH in El as (-> & Hin & Hnd).
    assert (Hcan : cancellable (t_db t1) id <-> is_Some (cancellation_target (RunRow.state r))).
    { split; [intros (r1 & Hr1 & Hc); congruence|intros Hc; by exists r]. }
    split; [done|]. destruct (cancellation_target (RunRow.state r)) eqn:Hc; split.
    + intros y. rewrite !elem_of_cons, Hin. split; [|tauto].
      intros [->|[? ?]]; [|tauto]. split; [by left|]. apply Hcan. eauto.
    + intros [Hn Hids]%list.NoDup_cons. apply list.NoDup_cons. split; [|auto]. by intros [? _]%Hin.
    + intros y. rewrite elem_of_cons, Hin. split; [tauto|]. intros [[->|?] Hx]; [|tauto].
      apply Hcan in Hx as [? ?]. done.
    + intros [_ Hids]%list.NoDup_cons. auto.
Qed.

(** Changing a run's row, but not its parent column, keeps the forest. *)
Lemma child_of_put id r r' d p c :
  d.(runs) !! id = Some r -> r'.(RunRow.parent_run_id) = r.(RunRow.parent_run_id) ->
  child_of (put_run id r' d) p c <-> child_of d p c.
Proof.
  intros Hr Hp. unfold child_of. simpl. destruct (decide (id = c)) as [->|Hne].
  - rewrite lookup_insert_eq. split; intros (y & Hy & Hpar).
    + injection Hy as <-. exists r. split; [done|congruence].
    + rewrite Hr in Hy. injection Hy as <-. exists r'. split; [done|congruence].
  - by rewrite lookup_insert_ne.
Qed.

Lemma cancellable_put id r r' d x :
  d.(runs) !! id = Some r -> r'.(RunRow.state) = r.(RunRow.state) ->
  cancellable (put_run id r' d) x <-> cancellable d x.
Proof.
  intros Hr Hs. unfold cancellable. simpl. destruct (decide (id = x)) as [->|Hne].
  - rewrite lookup_insert_eq. split; intros (y & Hy & Hc).
    + injection Hy as <-. exists r. by rewrite <- Hs.
    + rewrite Hr in Hy. injection Hy as <-. exists r'. by rewrite Hs.
  - by rewrite lookup_insert_ne.
Qed.

Lemma tc_child_iff d d' :
  (forall p c, child_of d p c <-> child_of d' p c) ->
  forall a b, tc (child_of d) a b <-> tc (child_of d') a b.
Proof.
  intros Hchild a b. split; induction 1 as [? ? Hc|? ? ? Hc _ IH];
    solve [by apply tc_once, Hchild | eapply tc_l; [by apply Hchild|done]].
Qed.

Section Subtree.
Context `{!Ext}.

Lemma advance_epoch_inv r rev t r' t' :
  t.(t_db).(runs) !! r.(RunRow.run_id) = Some r ->
  advance_epoch r rev t = (Ok r', t') ->
  r' = apply_run_patch (epoch_patch (u64_saturating_add r.(RunRow.cancellation_epoch) 1)) r /\
  decode_run r' = Ok r' /\ r.(RunRow.run_revision) = rev /\
  t' = set_db (put_run r.(RunRow.run_id) r' t.(t_db)) t.
Proof.
  intros Hr E. unfold advance_epoch in E. apply bind_ok_inv in E as (b & t1 & Ec & E).
  apply runs_cas_update_inv in Ec as [(-> & r0 & Hr0 & Hm & _ & ->)|(-> & -> & _)]; [|inv_ok].
  rewrite Hr in Hr0. injection Hr0 as <-. apply run_cas_matches_inv in Hm as (Hrev & _ & _).
  apply bind_ok_inv in E as (o & t2 & (-> & -> & D)%runs_get_inv & E). inv_ok.
  rename select (_ !! _ = Some r') into Hr'. pose proof (D _ Hr') as Hd. simpl in Hr'.
  rewrite lookup_insert_eq in Hr'. injection Hr' as <-. done.
Qed.

(** What [cancel_subtree] found and did. *)
Lemma cancel_subtree_inv root rev t l t' :
  runs_inv t.(t_db) -> runs_readable t.(t_db) ->
  cancel_subtree root rev t = (Ok l, t') ->
  exists r r', t.(t_db).(runs) !! root = Some r /\
    r' = apply_run_patch (epoch_patch (u64_saturating_add r.(RunRow.cancellation_epoch) 1)) r /\
    r.(RunRow.run_revision) = from_option (fun v => v) r.(RunRow.run_revision) rev /\
    t'.(t_db).(runs) = <[root := r']> t.(t_db).(runs) /\ NoDup l /\
    forall x, x ∈ l <-> in_subtree t.(t_db) root x /\ cancellable t.(t_db) x.
Proof.
  intros Hinv Hread E. unfold cancel_subtree in E.
  apply bind_ok_inv in E as (r & t1 & (-> & Hr & Hd)%load_run_inv & E).
  pose proof (ri_key _ Hinv _ _ Hr) as Hid. apply bind_ok_inv in E as (r' & t1 & Ea & E).
  destruct (advance_epoch_runs r _ (proj2 (proj2 (proj2 (decode_run_ok _ Hd)))) _ _ _ Ea) as [Hrel _].
  apply advance_epoch_inv in Ea as (Hr' & Hd' & Hrev & ->); [|by rewrite Hid]. rewrite Hid in E, Hrel.
  apply bind_ok_inv in E as (x1 & t2 & [_ [w W]]%stage_epoch_event_touches & E).
  assert (Hr2 : runs (t_db t2) = <[root := r']> (runs (t_db t))) by (by rewrite W).
  assert (Hpar : RunRow.parent_run_id r' = RunRow.parent_run_id r) by (by rewrite Hr').
  assert (Hst : RunRow.state r' = RunRow.state r) by (by rewrite Hr').
  assert (Hchild : forall p c, child_of (t_db t2) p c <-> child_of (t_db t) p c).
  { intros p c. rewrite <- (child_of_put root r r' (t_db t) p c Hr Hpar). unfold child_of. by rewrite Hr2. }
  assert (Hcan : forall y, cancellable (t_db t2) y <-> cancellable (t_db t) y).
  { intros y. rewrite <- (cancellable_put root r r' (t_db t) y Hr Hst). unfold cancellable. by rewrite Hr2. }
  assert (Hinv2 : runs_inv (t_db t2)).
  { rewrite W. eapply (runs_rel_frame (put_run root r' (t_db t))); [done|done|]. by apply Hrel. }
  assert (Hread2 : runs_readable (t_db t2)).
  { intros id y. rewrite Hr2. intros [[<- <-]|[_ Hy]]%lookup_insert_Some; eauto. }
  apply bind_ok_inv in E as (below & t3 & Ed & E).
  destruct (descendants_run t2 root Hinv2 Hread2 r') as (l0 & Hl0 & Hnd & Hdesc).
  { rewrite Hr2. apply lookup_insert_eq. }
  rewrite Hl0 in Ed. injection Ed as <- <-.
  apply bind_ok_inv in E as (el & t3 & (-> & Hel & Hnd2)%eligible_descendants_inv & E).
  unfold ret in E. injection E as <- <-.
  exists r, r'. split; [done|]. split; [done|]. split; [done|]. split; [done|].
  assert (Hmem : forall y, y ∈ el <-> tc (child_of (t_db t)) root y /\ cancellable (t_db t) y).
  { intros y. by rewrite Hel, Hdesc, (tc_child_iff _ _ Hchild), Hcan. }
  assert (Hroot : cancellable (t_db t) root <-> is_Some (cancellation_target (RunRow.state r'))).
  { rewrite Hst. split; [intros (z & Hz & Hc); congruence|intros Hc; by exists r]. }
  assert (Hsub : forall y, in_subtree (t_db t) root y <-> y = root \/ tc (child_of (t_db t)) root y).
  { intros y. unfold in_subtree. rewrite rtc_tc. split; intros [?|?]; auto. }
  assert (Hnr : root ∉ el) by (intros [Hx _]%Hmem; by apply (child_irrefl t Hinv root)).
  destruct (cancellation_target (RunRow.state r')) eqn:Hc; split.
  - apply list.NoDup_cons. auto.
  - intros y. rewrite elem_of_cons, Hmem, Hsub. split; [|tauto].
    intros [->|[? ?]]; [|tauto]. split; [by left|]. apply Hroot. eauto.
  - auto.
  - intros y. rewrite Hmem, Hsub. split; [tauto|]. intros [[->|?] Hy]; [|tauto].
    apply Hroot in Hy as [? ?]. done.
Qed.

(** [d'] is [d] with exactly the listed runs cancelled; [ch] are those that moved. *)
Record cancelled_all (l : list RunId) (d d' : Db) (ch : list RunId) : Prop := {
  ca_rest : forall x, x ∉ l -> d'.(runs) !! x = d.(runs) !! x;
  ca_moved : forall x, x ∈ l -> exists r r', d.(runs) !! x = Some r /\ d'.(runs) !! x = Some r' /\
    r'.(RunRow.state) = after_cancel r.(RunRow.state) /\
    r'.(RunRow.cancellation_epoch) = r.(RunRow.cancellation_epoch);
  ca_changed : forall x, x ∈ ch <-> x ∈ l /\ cancellable d x }.

Lemma cancelled_all_nil d : cancelled_all [] d d [].
Proof.
  split; [done|by intros ? ?%elem_of_nil|]. intros y. split; [by intros ?%elem_of_nil|].
  by intros [?%elem_of_nil _].
Qed.

Lemma cancelled_all_skip c r l d d' ch :
  c ∉ l -> d.(runs) !! c = Some r -> cancellation_target r.(RunRow.state) = None ->
  cancelled_all l d d' ch -> cancelled_all (c :: l) d d' ch.
Proof.
  intros Hc Hr Ht [H1 H2 H3]. split.
  - intros y Hy. apply H1. by intros ?%(list_elem_of_further _ c).
  - intros y [->|Hy]%elem_of_cons; [|eauto]. exists r, r. rewrite H1 by done.
    unfold after_cancel. by rewrite Ht.
  - intros y. rewrite H3, elem_of_cons. split; [tauto|]. intros [[->|?] (r0 & Hr0 & [s Hs])]; [congruence|].
    split; [done|]. exists r0. eauto.
Qed.

Lemma cancelled_all_step c r r' l d d1 d' ch :
  c ∉ l -> d.(runs) !! c = Some r -> is_Some (cancellation_target r.(RunRow.state)) ->
  d1.(runs) = <[c := r']> d.(runs) -> r'.(RunRow.state) = after_cancel r.(RunRow.state) ->
  r'.(RunRow.cancellation_epoch) = r.(RunRow.cancellation_epoch) ->
  cancelled_all l d1 d' ch -> cancelled_all (c :: l) d d' (c :: ch).
Proof.
  intros Hc Hr Ht Hd1 Hs He [H1 H2 H3].
  assert (Hne : forall y, y ∈ l -> d1.(runs) !! y = d.(runs) !! y).
  { intros y Hy. rewrite Hd1, lookup_insert_ne; [done|]. intros ->. done. }
  split.
  - intros y [Hyc Hyl]%not_elem_of_cons. rewrite H1 by done. rewrite Hd1. by rewrite lookup_insert_ne.
  - intros y [->|Hy]%elem_of_cons.
    + exists r, r'. rewrite H1 by done. by rewrite Hd1, lookup_insert_eq.
    + rewrite <- Hne by done. eauto.
  - intros y. rewrite !elem_of_cons, H3. unfold cancellable. split.
    + intros [->|[Hy Hcan]]; [split; [by left|by exists r]|]. rewrite Hne in Hcan by done. auto.
    + intros [[->|Hy] Hcan]; [by left|]. rewrite <- Hne in Hcan by done. auto.
Qed.

(** One cancellation step and the rest of the loop. *)
Lemma cancel_step_inv reason c l to why ty r t ch t' :
  (forall t ch, cancel_each reason l t = (Ok ch, t') -> cancelled_all l t.(t_db) t'.(t_db) ch) ->
  c ∉ l -> t.(t_db).(runs) !! c = Some r -> cancellation_target r.(RunRow.state) = Some to ->
  bind (transition c (RunRow.run_revision r) to why) (fun final =>
    bind (stage_run_event final ty) (fun _ =>
      bind (cancel_each reason l) (fun changed => ret (c :: changed)))) t = (Ok ch, t') ->
  cancelled_all (c :: l) t.(t_db) t'.(t_db) ch.
Proof.
  intros IH Hc Hr Ht E.
  apply bind_ok_inv in E as (final & t1 & (r0 & Hr0 & _ & _ & _ & Hf & ->)%transition_inv & E).
  rewrite Hr in Hr0. injection Hr0 as <-.
  apply bind_ok_inv in E as (y & t2 & [_ [w W]]%stage_on_touches & E).
  apply bind_ok_inv in E as (ch1 & t3 & El & E). unfold ret in E. injection E as <- <-. apply IH in El.
  eapply (cancelled_all_step c r final); [done|done|eauto|..|exact El].
  - by rewrite W.
  - rewrite Hf. simpl. unfold after_cancel. by rewrite Ht.
  - by rewrite Hf.
Qed.

Lemma cancel_each_inv reason l t ch t' :
  NoDup l -> cancel_each reason l t = (Ok ch, t') -> cancelled_all l t.(t_db) t'.(t_db) ch.
Proof.
  revert t ch. induction l as [|c l IH]; intros t ch Hnd E; simpl in E.
  { unfold ret in E. injection E as <- <-. apply cancelled_all_nil. }
  apply list.NoDup_cons in Hnd as [Hc Hnd].
  apply bind_ok_inv in E as (o & t1 & (-> & -> & _)%runs_get_inv & E).
  apply bind_ok_inv in E as (r & t1 & Er & E). unfold lift_res in Er. apply pair_ok_inv in Er as [Hr <-].
  apply ok_or_ok in Hr.
  destruct (cancellation_target (RunRow.state r)) as [s|] eqn:Ht.
  - assert (s = RunState.Cancelled \/ s = RunState.Cancelling) as [->| ->]
      by (destruct (RunRow.state r); naive_solver).
    all: eapply cancel_step_inv in E; eauto.
  - eapply cancelled_all_skip; eauto.
Qed.

Lemma cancel_inv root rev reason t report t' :
  runs_inv t.(t_db) -> runs_readable t.(t_db) ->
  cancel root rev reason t = (Ok report, t') ->
  (forall x r, in_subtree t.(t_db) root x -> t.(t_db).(runs) !! x = Some r ->
     exists r', t'.(t_db).(runs) !! x = Some r' /\ r'.(RunRow.state) = after_cancel r.(RunRow.state)) /\
  (forall x, ~ in_subtree t.(t_db) root x -> t'.(t_db).(runs) !! x = t.(t_db).(runs) !! x) /\
  (forall x, x ∈ report.(cr_changed) <-> in_subtree t.(t_db) root x /\ cancellable t.(t_db) x) /\
  (exists r r', t.(t_db).(runs) !! root = Some r /\ t'.(t_db).(runs) !! root = Some r' /\
     r'.(RunRow.cancellation_epoch) = r.(RunRow.cancellation_epoch) + 1 /\
     report.(cr_cancellation_epoch) = r.(RunRow.cancellation_epoch) + 1).
Proof.
  intros Hinv Hread E. unfold cancel in E.
  apply bind_ok_inv in E as (l & t1 & Es & E).
  apply cancel_subtree_inv in Es as (r & r1 & Hr & Hr1 & _ & Ht1 & Hnd & Hl); [|done..].
  apply bind_ok_inv in E as (ch & t2 & Ee & E). apply cancel_each_inv in Ee as [C1 C2 C3]; [|done].
  apply bind_ok_inv in E as (o & t3 & (-> & -> & _)%runs_get_inv & E).
  apply bind_ok_inv in E as (row & t3 & Er & E). unfold lift_res in Er. apply pair_ok_inv in Er as [Hrow <-].
  apply ok_or_ok in Hrow. unfold ret in E. injection E as <- <-. simpl.
  assert (Hdec : 0 <= RunRow.cancellation_epoch r <= i64_max) by (apply Hread, decode_run_ok in Hr; tauto).
  assert (Hep : RunRow.cancellation_epoch r1 = RunRow.cancellation_epoch r + 1).
  { rewrite Hr1. simpl. unfold u64_saturating_add, u64_max, i64_max in *. lia. }
  assert (Hst : RunRow.state r1 = RunRow.state r) by (by rewrite Hr1).
  assert (Hcan : forall x, cancellable (t_db t1) x <-> cancellable (t_db t) x).
  { intros x. rewrite <- (cancellable_put root r r1 (t_db t) x Hr Hst). unfold cancellable. by rewrite Ht1. }
  assert (Hsame : forall x rx, runs (t_db t) !! x = Some rx -> exists y, runs (t_db t1) !! x = Some y /\
            RunRow.state y = RunRow.state rx).
  { intros x rx Hx. rewrite Ht1. destruct (decide (root = x)) as [->|Hne].
    - exists r1. rewrite lookup_insert_eq. split; [done|congruence].
    - exists rx. by rewrite lookup_insert_ne. }
  assert (Hroot1 : runs (t_db t1) !! root = Some r1) by (rewrite Ht1; apply lookup_insert_eq).
  split; [|split; [|split]].
  - intros x rx Hin Hx. destruct (Hsame x rx Hx) as (y & Hy & Hys). rewrite <- Hys.
    destruct (decide (x ∈ l)) as [Hxl|Hxl].
    + destruct (C2 x Hxl) as (y0 & r' & Hy0 & Hr' & Hs' & _). rewrite Hy in Hy0. injection Hy0 as <-. eauto.
    + exists y. rewrite C1 by done. split; [done|]. unfold after_cancel.
      destruct (cancellation_target (RunRow.state y)) eqn:Hc; [|done].
      destruct Hxl. apply Hl. split; [done|]. exists rx. rewrite <- Hys. eauto.
  - intros x Hx. assert (Hxl : x ∉ l) by (by intros [? _]%Hl). rewrite C1 by done.
    rewrite Ht1, lookup_insert_ne; [done|]. intros ->. apply Hx. unfold in_subtree. done.
  - intros x. rewrite C3, Hcan, Hl. tauto.
  - assert (Hend : RunRow.cancellation_epoch row = RunRow.cancellation_epoch r1).
    { destruct (decide (root ∈ l)) as [Hin|Hin].
      - destruct (C2 root Hin) as (y & r' & Hy & Hr' & _ & He). congruence.
      - rewrite C1 in Hrow by done. congruence. }
    exists r, row. rewrite Hend, Hep. done.
Qed.

(** C4: Cancellation reaches the whole subtree and nothing else: every run
    under the cancelled root that had not finished is afterwards Cancelled if
    it had not started and Cancelling if it had, finished and already
    cancelling runs keep their state, runs outside the subtree are untouched,
    the report lists exactly the runs that moved, and the root's cancellation
    epoch has advanced by one. *)
Theorem cancel_reaches_subtree root rev reason t report t' :
  runs_inv t.(t_db) -> runs_readable t.(t_db) ->
  cancel root rev reason t = (Ok report, t') ->
  (forall x r, in_subtree t.(t_db) root x -> t.(t_db).(runs) !! x = Some r ->
     exists r', t'.(t_db).(runs) !! x = Some r' /\ r'.(RunRow.state) = after_cancel r.(RunRow.state)) /\
  (forall x, ~ in_subtree t.(t_db) root x -> t'.(t_db).(runs) !! x = t.(t_db).(runs) !! x) /\
  (forall x, x ∈ report.(cr_changed) <-> in_subtree t.(t_db) root x /\ cancellable t.(t_db) x) /\
  (exists r r', t.(t_db).(runs) !! root = Some r /\ t'.(t_db).(runs) !! root = Some r' /\
     r'.(RunRow.cancellation_epoch) = r.(RunRow.cancellation_epoch) + 1 /\
     report.(cr_cancellation_epoch) = r.(RunRow.cancellation_epoch) + 1).
Proof. apply cancel_inv. Qed.

(** [req] asks for a child of [root] and saw its cancellation epoch no later than [epoch]. *)
Definition spawn_observed (root : RunId) (epoch : Z) (req : CreateTaskRunRequest) : Prop :=
  req.(cq_parent_run_id) = Some root /\ req.(cq_observed_parent_cancellation_epoch) <= epoch.

(** C5: A cancellation fences later spawns: a child request that observed the
    root's cancellation epoch before a successful cancel is refused in every
    later state of the kernel. *)
Theorem cancel_fences_spawns root rev reason t report t' r req ctx now t2 :
  kernel_inv t.(t_db) -> runs_readable t.(t_db) -> t.(t_db).(runs) !! root = Some r ->
  cancel root rev reason t = (Ok report, t') ->
  kernel_rel t'.(t_db) t2.(t_db) ->
  spawn_observed root r.(RunRow.cancellation_epoch) req ->
  forall id, fst (create_task_run req ctx now t2) <> Ok id.
Proof.
  intros Hinv Hread Hr E Hrel [Hp Hobs] id E2.
  destruct (cancel_kernel _ _ _ _ _ _ E) as [Hk _]. pose proof (kernel_rel_inv _ _ Hk Hinv) as Hinv'.
  apply cancel_inv in E as (_ & _ & _ & r0 & r' & Hr0 & Hr' & He & _); [|apply Hinv|done].
  rewrite Hr in Hr0. injection Hr0 as <-.
  destruct (proj2 (kr_runs _ _ Hrel (ki_runs _ Hinv')) root r' Hr') as (r2 & Hr2 & V).
  destruct (create_task_run req ctx now t2) as [[i|] t3] eqn:E3; [|done].
  apply create_task_run_inv in E3 as (_ & cursor & t4 & t5 & _ & _ & Hpar & _).
  destruct (Hpar root Hp) as (r3 & Hr3 & He3). rewrite Hr2 in Hr3. injection Hr3 as <-.
  pose proof (re_cancel _ _ V). lia.
Qed.

(** The spawn fence of a cancellation stands at the root only: every run
    below it is cancelled but keeps its cancellation epoch, so that a spawn under a cancelled
    descendant which shows the epoch it had before still passes the check of
    its parent. *)
Theorem spawn_fence_stops_at_root root rev reason t report t' x r :
  runs_inv t.(t_db) -> runs_readable t.(t_db) ->
  cancel root rev reason t = (Ok report, t') -> in_subtree t.(t_db) root x -> x <> root ->
  t.(t_db).(runs) !! x = Some r ->
  exists r', t'.(t_db).(runs) !! x = Some r' /\ r'.(RunRow.state) = after_cancel r.(RunRow.state) /\
    r'.(RunRow.cancellation_epoch) = r.(RunRow.cancellation_epoch) /\
    (decode_run r' = Ok r' ->
     check_parent_epoch (Some x) r.(RunRow.cancellation_epoch) t' = (Ok tt, t')).
Proof.
  intros Hinv Hread E Hsub Hne Hr.
  destruct (proj1 (cancel_inv _ _ _ _ _ _ Hinv Hread E) x r Hsub Hr) as (ra & Hra & Hst). unfold cancel in E. apply bind_ok_inv in E as (l & t1 & Es & E).
  apply cancel_subtree_inv in Es as (rr & r1 & _ & _ & _ & Ht1 & Hnd & _); [|done..].
  apply bind_ok_inv in E as (ch & t2 & Ee & E). apply cancel_each_inv in Ee as [C1 C2 _]; [|done].
  apply bind_ok_inv in E as (o & t3 & (-> & -> & _)%runs_get_inv & E).
  apply bind_ok_inv in E as (row & t3 & Er & E). unfold lift_res in Er. apply pair_ok_inv in Er as [_ <-].
  unfold ret in E. injection E as <- <-.
  assert (Hx : runs (t_db t1) !! x = Some r) by (by rewrite Ht1, lookup_insert_ne).
  assert (exists r', runs (t_db t2) !! x = Some r' /\
    RunRow.cancellation_epoch r' = RunRow.cancellation_epoch r) as (r' & Hr' & He).
  { destruct (decide (x ∈ l)) as [Hin|Hin]; [|exists r; by rewrite C1].
    destruct (C2 x Hin) as (y & y' & Hy & Hy' & _ & Hee). exists y'. split; [done|]. congruence. }
  assert (ra = r') as -> by congruence.
  exists r'. split; [done|]. split; [done|]. split; [done|]. intros D. unfold check_parent_epoch, runs_get, query, gets, bind.
  simpl. rewrite Hr'. simpl. rewrite D. simpl. by rewrite bool_decide_eq_true_2.
Qed.
End Subtree.
