(* ===== verification/Turns.v ===== *)
(** * Loop turns and decisions ([runtime/src/loop_turn.rs], [decision.rs])

    Issuing a turn, restarting a loop, and accepting a loop's decision: the
    fence tuple of an issued turn, the durable decision record, the transition
    it implies and the effect it prepares, in one transaction. *)

From S2P Require Import Prelude Domain Ids Models StoreBase Store SecurityStore Ledger Events Runs RunGraph.
From S2P Require Import EffectPolicy.
From S2P Require Import Effects Scheduler Resources Kernel RunServices.

Open Scope string_scope.
Open Scope Z_scope.

(** [turn_state]. *)
Definition ISSUED : string := "issued".
Definition ACCEPTED : string := "accepted".
Definition STALE : string := "stale".

(** [{:?}] of a run state. *)
Definition run_state_debug (s : RunState) : string :=
  match s with
  | RunState.Unspecified => "Unspecified"
  | RunState.Created => "Created"
  | RunState.Ready => "Ready"
  | RunState.Running => "Running"
  | RunState.WaitingTool => "WaitingTool"
  | RunState.WaitingChild => "WaitingChild"
  | RunState.WaitingHuman => "WaitingHuman"
  | RunState.Suspended => "Suspended"
  | RunState.Cancelling => "Cancelling"
  | RunState.Completed => "Completed"
  | RunState.Failed => "Failed"
  | RunState.Cancelled => "Cancelled"
  end.

(** States that are not turn-eligible though not terminal. *)
Definition turn_blocked (s : RunState) : bool :=
  match s with
  | RunState.Cancelling | RunState.Suspended | RunState.WaitingHuman => true
  | _ => false
  end.

Definition turn_patch (step : Z) : RunPatch := {|
  RunPatch.state := Some RunState.Running;
  RunPatch.recovery := None;
  RunPatch.loop_epoch := None;
  RunPatch.step_sequence := Some step;
  RunPatch.input_event_cursor := None;
  RunPatch.cancellation_epoch := None;
  RunPatch.resolved_environment_id := None;
  RunPatch.claim := None;
  RunPatch.terminal_reason := None;
  RunPatch.output_ref := None;
  RunPatch.current_turn_id := None;
  RunPatch.bump_revision := true |}.

Definition loop_epoch_patch (epoch : Z) : RunPatch := {|
  RunPatch.state := None;
  RunPatch.recovery := None;
  RunPatch.loop_epoch := Some epoch;
  RunPatch.step_sequence := None;
  RunPatch.input_event_cursor := None;
  RunPatch.cancellation_epoch := None;
  RunPatch.resolved_environment_id := None;
  RunPatch.claim := None;
  RunPatch.terminal_reason := None;
  RunPatch.output_ref := None;
  RunPatch.current_turn_id := None;
  RunPatch.bump_revision := true |}.

(** ** Decisions *)

(** [loop_decision::Decision]. *)
Inductive DecisionKind :=
  | DkComplete (output_ref : string)
  | DkFail (reason_code : string)
  | DkWait (reason timer_id : string)
  | DkSpawnAgent (child_request : bytes)
  | DkInvokeEffect (operation : string) (payload effect_claim : bytes)
  | DkRequestApproval (approval_draft : bytes).

(** [contract::LoopDecision]. *)
Record LoopDecision := mkLoopDecision {
  ld_decision_id : string;
  ld_turn_id : string;
  ld_run_revision : Z;
  ld_loop_epoch : Z;
  ld_step_sequence : Z;
  ld_input_event_cursor : string;
  ld_decision : option DecisionKind }.

Inductive DecisionInstruction :=
  | Complete (output_ref : string)
  | Fail (reason_code : string)
  | Wait (reason timer_id : string)
  | SpawnAgent (child_request : bytes)
  | InvokeEffect (operation : string) (payload effect_claim : bytes)
  | RequestApproval (approval_draft : bytes).

Inductive AcceptOutcome :=
  | Accepted (row : DecisionRow) (instruction : DecisionInstruction)
  | DecisionReplayed (prior : DecisionRow).

Definition decision_type_and_instruction (decision : LoopDecision)
    : Res (string * DecisionInstruction * RunState) :=
  match decision.(ld_decision) with
  | None => Err (kerr InvalidArgument "decision body missing")
  | Some (DkComplete o) => Ok ("Complete", Complete o, RunState.Completed)
  | Some (DkFail r) => Ok ("Fail", Fail r, RunState.Failed)
  | Some (DkWait r t) => Ok ("Wait", Wait r t, RunState.WaitingTool)
  | Some (DkSpawnAgent c) => Ok ("SpawnAgent", SpawnAgent c, RunState.WaitingChild)
  | Some (DkInvokeEffect o p e) => Ok ("InvokeEffect", InvokeEffect o p e, RunState.WaitingTool)
  | Some (DkRequestApproval a) => Ok ("RequestApproval", RequestApproval a, RunState.WaitingHuman)
  end.

Definition decision_patch (next : RunState) (instruction : DecisionInstruction) : RunPatch := {|
  RunPatch.state := Some next;
  RunPatch.recovery := None;
  RunPatch.loop_epoch := None;
  RunPatch.step_sequence := None;
  RunPatch.input_event_cursor := None;
  RunPatch.cancellation_epoch := None;
  RunPatch.resolved_environment_id := None;
  RunPatch.claim := None;
  RunPatch.terminal_reason := match instruction with Fail r => Some r | _ => None end;
  RunPatch.output_ref := match instruction with Complete o => Some o | _ => None end;
  RunPatch.current_turn_id := None;
  RunPatch.bump_revision := true |}.

Definition state_event (next : RunState) : option string :=
  match next with
  | RunState.Completed => Some "RunCompleted"
  | RunState.Failed => Some "RunFailed"
  | RunState.WaitingTool => Some "RunWaitingTool"
  | RunState.WaitingChild => Some "RunWaitingChild"
  | RunState.WaitingHuman => Some "RunWaitingHuman"
  | _ => None
  end.

(** The fence tuple of a decision against the turn it answers. *)
Definition fence_ok (decision : LoopDecision) (turn : LoopTurnRow) : bool :=
  bool_decide (decision.(ld_run_revision) = turn.(LoopTurnRow.run_revision)) &&
  bool_decide (decision.(ld_loop_epoch) = turn.(LoopTurnRow.loop_epoch)) &&
  bool_decide (decision.(ld_step_sequence) = turn.(LoopTurnRow.step_sequence)) &&
  bool_decide (decision.(ld_input_event_cursor) = cursor_to_string turn.(LoopTurnRow.input_event_cursor)).

(** [serde_json::Value] as far as the kernel looks into it, and the lookup of
    a member in a document it parses. *)
Inductive JsonValue := JsonBool (b : bool) | JsonString (s : string) | JsonOther.

Class Json := { json_member : bytes -> string -> option JsonValue }.

Section Turns.
Context `{!Ext}.

Definition issue_turn (run : RunId) (now_ms : Z) : M LoopTurnRow :=
  let! got := runs_get run in
  let! row := lift_res (ok_or got (kerr NotFound "run not found")) in
  guard! negb (run_is_terminal row.(RunRow.state))
    else kerr FailedPrecondition
           ("run is terminal (" +:+ run_state_debug row.(RunRow.state) +:+ ") — no further turns") in
  guard! negb (turn_blocked row.(RunRow.state))
    else kerr FailedPrecondition
           ("run state " +:+ run_state_debug row.(RunRow.state) +:+ " is not turn-eligible") in
  let next_step := u64_wrapping_add row.(RunRow.step_sequence) 1 in
  let next_revision := u64_wrapping_add row.(RunRow.run_revision) 1 in
  let! moved := runs_cas_update run
    (RunCas.mk row.(RunRow.run_revision) None (Some row.(RunRow.cancellation_epoch)))
    (turn_patch next_step) in
  guard! moved else kerr Conflict "run moved during turn issue" in
  let! turn_id := draw_uuid in
  do! turns_insert (NewLoopTurn.mk turn_id run next_revision row.(RunRow.loop_epoch) next_step
        row.(RunRow.input_event_cursor) ISSUED now_ms) in
  let! turn := turns_get turn_id in
  lift_res (ok_or turn (kerr Internal "issued turn not visible")).

Definition mark_turn (id : TurnId) (to : string) : M bool := turns_cas id ISSUED (LoopTurnPatch.mk (Some to)).

Definition bump_loop_epoch (run : RunId) (expected_revision : Z) (outstanding_issued : list TurnId) : M Z :=
  let! got := runs_get run in
  let! row := lift_res (ok_or got (kerr NotFound "run not found")) in
  do! for_each outstanding_issued (fun turn_id => do! mark_turn turn_id STALE in ret tt) in
  let epoch := u64_wrapping_add row.(RunRow.loop_epoch) 1 in
  let! moved := runs_cas_update run
    (RunCas.mk expected_revision None (Some row.(RunRow.cancellation_epoch)))
    (loop_epoch_patch epoch) in
  guard! moved else kerr Conflict "run moved during loop epoch bump" in
  ret epoch.

Context `{!Json}.

(** The creative flag of a task envelope. *)
Definition creative (payload : bytes) : bool :=
  match json_member payload "creative" with
  | Some (JsonBool b) => b
  | Some (JsonString s) => bool_decide (s = "true")
  | _ => false
  end.

Definition prepare_effect_in_txn (env : EffectEnv) (run : RunId) (decision : LoopDecision)
    (step_sequence : Z) (operation : string) (payload : bytes) : M unit :=
  let! got := runs_get run in
  let! row := lift_res (ok_or got (kerr Internal "run vanished mid-accept")) in
  do! (if starts_with "harness." operation then
         let! got := tasks_get row.(RunRow.task_id) in
         let! task := lift_res (ok_or got (kerr Internal "run task vanished mid-accept")) in
         guard! creative task.(TaskRow.payload)
           else kerr FailedPrecondition
                  "harness.* operations require `creative: true` in the task envelope" in
         ret tt
       else ret tt) in
  let! environment_id := lift_res (ok_or row.(RunRow.resolved_environment_id)
    (kerr FailedPrecondition "InvokeEffect before environment binding")) in
  let! rows := environments_get_bindings environment_id in
  let! binding := lift_res (ok_or
    (List.find (fun b => bool_decide (b.(ResolvedBindingRow.port_id) = "effect.execute")) rows)
    (kerr FailedPrecondition "frozen environment has no effect.execute binding")) in
  let! got := adapters_get_registration binding.(ResolvedBindingRow.adapter_id)
    binding.(ResolvedBindingRow.adapter_version) binding.(ResolvedBindingRow.adapter_digest) in
  let! registration := lift_res (ok_or got
    (kerr FailedPrecondition "bound effect adapter is not registered")) in
  let contract := resolve (mkInputs (Some (kernel_declared operation)) None
    registration.(AdapterRegistrationRow.trust_state)
    registration.(AdapterRegistrationRow.conformance_state) None) in
  let! decision_id := lift_res (ok_or (uuid_v7_from_str decision.(ld_decision_id))
    (kerr InvalidArgument "decision_id is not an id")) in
  let! effect_id := draw_uuid in
  do! prepare_effect env (mkPrepareRequest effect_id run step_sequence decision_id operation payload
    (mkAdapterBinding binding.(ResolvedBindingRow.adapter_id)
       binding.(ResolvedBindingRow.adapter_version) binding.(ResolvedBindingRow.adapter_digest))
    contract) in
  ret tt.

(** The decision row and the turn it closes, and the run CAS it implies. *)
Definition record_decision (run : RunId) (decision_id : DecisionId) (turn : LoopTurnRow)
    (turn_id : TurnId) (decision_type : string) (instruction : DecisionInstruction)
    (next_state : RunState) (decision_bytes : bytes) (now_ms : Z) : M unit :=
  do! decisions_insert (NewDecision.mk decision_id run turn_id decision_type
        ("sha256:" +:+ hex_lower (sha256 decision_bytes)) decision_bytes
        turn.(LoopTurnRow.run_revision) turn.(LoopTurnRow.loop_epoch) turn.(LoopTurnRow.step_sequence)
        turn.(LoopTurnRow.input_event_cursor) now_ms) in
  let! accepted := mark_turn turn_id ACCEPTED in
  guard! accepted else kerr Conflict "turn accepted concurrently" in
  let! moved := runs_cas_update run (RunCas.mk turn.(LoopTurnRow.run_revision) None None)
                  (decision_patch next_state instruction) in
  guard! moved else kerr Conflict "run moved during decision accept" in
  ret tt.

Definition accept_decision (run : RunId) (decision : LoopDecision) (decision_bytes : bytes)
    (now_ms : Z) : M AcceptOutcome :=
  let! decision_id := lift_res (ok_or (uuid_v7_from_str decision.(ld_decision_id))
    (kerr InvalidArgument "decision_id is not an id")) in
  let! prior := decisions_get run decision_id in
  match prior with
  | Some prior => ret (DecisionReplayed prior)
  | None =>
      let! turn_id := lift_res (ok_or (uuid_v7_from_str decision.(ld_turn_id))
        (kerr InvalidArgument "turn_id is not an id")) in
      let! got := turns_get turn_id in
      let! turn := lift_res (ok_or got (kerr NotFound "turn not found for decision")) in
      guard! bool_decide (turn.(LoopTurnRow.run_id) = run)
        else kerr FailedPrecondition "decision turn belongs to a different run" in
      guard! bool_decide (turn.(LoopTurnRow.state) = ISSUED)
        else kerr FailedPrecondition
               ("turn is " +:+ turn.(LoopTurnRow.state) +:+ " — not accepting decisions") in
      if negb (fence_ok decision turn) then
        do! mark_turn turn_id STALE in
        raise (kerr Conflict "stale decision: fence tuple does not match the issued turn")
      else
      let! kind := lift_res (decision_type_and_instruction decision) in
      let '(decision_type, instruction, next_state) := kind in
      do! record_decision run decision_id turn turn_id decision_type instruction next_state
            decision_bytes now_ms in
      do! match instruction with
          | InvokeEffect operation payload _ =>
              prepare_effect_in_txn (mkEffectEnv None None) run decision
                turn.(LoopTurnRow.step_sequence) operation payload
          | _ => ret tt
          end in
      let! got := decisions_get run decision_id in
      let! row := lift_res (ok_or got (kerr Internal "decision row not visible")) in
      do! stage_on_run "LoopDecisionAccepted" run decision_bytes None in
      do! match state_event next_state with
          | Some event =>
              do! stage_on_run event run decision_bytes None in
              stage_on_run "RunStateChanged" run decision_bytes None
          | None => ret tt
          end in
      ret (Accepted row instruction)
  end.
End Turns.

(** ** Turn rows *)

Lemma turns_cas_inv id from p t b t' :
  turns_cas id from p t = (Ok b, t') ->
  (b = true /\ exists r, t.(t_db).(loop_turns) !! id = Some r /\ r.(LoopTurnRow.state) = from /\
     t' = set_db (set_loop_turns (<[id := set_turn_state
       (coalesce p.(LoopTurnPatch.state) r.(LoopTurnRow.state)) r]> t.(t_db).(loop_turns)) t.(t_db)) t) \/
  (b = false /\ t' = t).
Proof.
  unfold turns_cas. intros E. inv_store; [|by right|by right]. left. split; [done|]. eexists. split; [done|].
  rename select (bool_decide (_ = from) = true) into Hm. apply bool_decide_eq_true in Hm. done.
Qed.

(** Only the state of a turn row ever changes. *)
Lemma set_turn_rel id x st d :
  d.(loop_turns) !! id = Some x ->
  runs_rel d (set_loop_turns (<[id := set_turn_state st x]> d.(loop_turns)) d).
Proof.
  intros Hx [H1 H2 H3 H4 H5]. split; [split|]; simpl; try done.
  - intros i y [[<- <-]|[_ Hy]]%lookup_insert_Some; [|by apply (H5 i)]. exact (H5 _ _ Hx).
  - intros i y Hy. exists y. split; [done|reflexivity].
Qed.
Lemma turns_cas_runs id from p : ensures (on_db runs_rel) (turns_cas id from p).
Proof.
  intros t b t' [(-> & r & Hr & _ & ->)|(-> & ->)]%turns_cas_inv; [|reflexivity].
  split; [|done]. by apply set_turn_rel.
Qed.
#[export] Hint Resolve turns_cas_runs : ensures.

Lemma turns_get_inv id t o t' :
  turns_get id t = (Ok o, t') ->
  t' = t /\ o = t.(t_db).(loop_turns) !! id /\ (forall r, o = Some r -> decode_turn r = Ok r).
Proof.
  unfold turns_get. intros E. inv_run. rename select (opt_traverse _ _ = _) into H0.
  destruct (loop_turns (t_db t') !! id) as [r|] eqn:Hr; simpl in *.
  - destruct (decode_turn r) as [r1|e] eqn:D; simpl in *; [|done]. injection H0 as <-.
    assert (r1 = r) as -> by (unfold decode_turn in D; inv_ok; done).
    split; [done|]. split; [done|]. by intros ? [= <-].
  - injection H0 as <-. done.
Qed.

Definition turn_row_of_new (n : NewLoopTurn) : LoopTurnRow :=
  LoopTurnRow.mk n.(NewLoopTurn.turn_id) n.(NewLoopTurn.run_id) n.(NewLoopTurn.run_revision)
    n.(NewLoopTurn.loop_epoch) n.(NewLoopTurn.step_sequence) n.(NewLoopTurn.input_event_cursor)
    n.(NewLoopTurn.state) n.(NewLoopTurn.issued_at_ms).

Lemma turns_insert_inv n t u t' :
  turns_insert n t = (Ok u, t') ->
  t.(t_db).(loop_turns) !! n.(NewLoopTurn.turn_id) = None /\
  t' = set_db (set_loop_turns (<[n.(NewLoopTurn.turn_id) := turn_row_of_new n]> t.(t_db).(loop_turns))
                 t.(t_db)) t.
Proof.
  unfold turns_insert. intros E. inv_store. rename select (absent _ _ = true) into Ha.
  by apply absent_true in Ha.
Qed.

(** A new turn at the current revision of a running run. *)
Lemma new_turn_rel x r d :
  d.(runs) !! x.(LoopTurnRow.run_id) = Some r -> r.(RunRow.state) = RunState.Running ->
  x.(LoopTurnRow.run_revision) = r.(RunRow.run_revision) ->
  forall id, runs_rel d (set_loop_turns (<[id := x]> d.(loop_turns)) d).
Proof.
  intros Hr Hs Hv id [H1 H2 H3 H4 H5]. split; [split|]; simpl; try done.
  - intros i y [[<- <-]|[_ Hy]]%lookup_insert_Some; [|by apply (H5 i)].
    exists r. split; [done|]. split; [lia|done].
  - intros i y Hy. exists y. split; [done|reflexivity].
Qed.

(** Every turn-eligible state leads to Running. *)
Lemma turn_eligible s :
  s <> RunState.Unspecified -> run_is_terminal s = false -> turn_blocked s = false ->
  rtc allowed s RunState.Running.
Proof.
  intros H1 H2 H3. destruct s; try done; try reflexivity; try by apply rtc_once.
  by apply (rtc_l _ _ RunState.Ready); [|apply rtc_once].
Qed.

Section TurnRelations.
Context `{!Ext} `{!Json}.

(** What an issued turn found and left. *)
Lemma issue_turn_inv run now t turn t' :
  issue_turn run now t = (Ok turn, t') ->
  exists r id t1, t.(t_db).(runs) !! run = Some r /\ decode_run r = Ok r /\
    run_is_terminal r.(RunRow.state) = false /\ turn_blocked r.(RunRow.state) = false /\
    t.(t_db).(loop_turns) !! id = None /\
    turn = LoopTurnRow.mk id run (r.(RunRow.run_revision) + 1) r.(RunRow.loop_epoch)
             (r.(RunRow.step_sequence) + 1) r.(RunRow.input_event_cursor) ISSUED now /\
    t1.(t_db) = put_run run (apply_run_patch (turn_patch (r.(RunRow.step_sequence) + 1)) r) t.(t_db) /\
    t'.(t_db) = set_loop_turns (<[id := turn]> t1.(t_db).(loop_turns)) t1.(t_db) /\
    t_ctx t' = t_ctx t.
Proof.
  unfold issue_turn. intros E. apply bind_ok_inv in E as (o & t1 & (-> & -> & D)%runs_get_inv & E).
  apply bind_ok_inv in E as (r & t1 & Er & E). unfold lift_res in Er. apply pair_ok_inv in Er as [Hr <-].
  apply ok_or_ok in Hr. specialize (D _ Hr).
  destruct (run_is_terminal _) eqn:Ht; cbn [negb] in E; [inv_ok|].
  destruct (turn_blocked _) eqn:Hb; cbn [negb] in E; [inv_ok|].
  pose proof (decode_run_ok _ D) as (Hrev & _ & Hstep & _). rewrite !no_wrap in E by done.
  apply bind_ok_inv in E as (b & t1 & Ec & E).
  apply runs_cas_update_inv in Ec as [(-> & r1 & Hr1 & _ & _ & ->)|(-> & -> & _)]; [|inv_ok].
  rewrite Hr in Hr1. injection Hr1 as <-. apply bind_ok_inv in E as (id & t2 & Ei & E).
  unfold draw_uuid in Ei. injection Ei as <- <-.
  apply bind_ok_inv in E as (u & t3 & [Ha ->]%turns_insert_inv & E). simpl in Ha, E.
  apply bind_ok_inv in E as (o & t4 & (-> & -> & _)%turns_get_inv & E). unfold lift_res in E.
  apply pair_ok_inv in E as [Hturn <-]. apply ok_or_ok in Hturn. simpl in Hturn.
  rewrite lookup_insert_eq in Hturn. injection Hturn as <-.
  eexists r, _, (set_db (put_run run _ t.(t_db)) t). repeat split; done.
Qed.

Lemma issue_turn_runs run now : ensures (on_db runs_rel) (issue_turn run now).
Proof.
  intros t turn t' (r & id & t1 & Hr & _ & Ht & Hb & Ha & -> & E1 & E2 & Ec)%issue_turn_inv.
  split; [|done]. rewrite E2, E1. apply runs_rel_assume. intros Hinv.
  set (r' := apply_run_patch (turn_patch (RunRow.step_sequence r + 1)) r).
  assert (R1 : runs_rel (t_db t) (put_run run r' (t_db t))).
  { apply (put_run_rel run r); [done| |simpl; lia].
    apply apply_run_patch_evolves; simpl; try done; [intros s [= <-]|intros c [= <-]; lia].
    apply turn_eligible; [eapply ri_state; eauto|done..]. }
  etransitivity; [exact R1|]. by apply (new_turn_rel _ r'); [apply lookup_insert_eq|..].
Qed.

Lemma issue_turn_kernel run now : ensures (on_db kernel_rel) (issue_turn run now).
Proof. apply ensures_kernel; [apply issue_turn_runs|unfold issue_turn; solve_ensures..]. Qed.

Lemma mark_turn_kernel id to : ensures (on_db kernel_rel) (mark_turn id to).
Proof. unfold mark_turn. solve_kernel. Qed.
#[local] Hint Resolve mark_turn_kernel : ensures.

Lemma mark_turns_runs_same l :
  ensures (on_db runs_same) (for_each l (fun turn_id => bind (mark_turn turn_id STALE) (fun _ => ret tt))).
Proof. unfold mark_turn. solve_ensures. Qed.

(** A restart raises the loop epoch of the row it read by one. *)
Lemma bump_loop_epoch_inv run rev l t z t' :
  bump_loop_epoch run rev l t = (Ok z, t') ->
  exists r t1, t.(t_db).(runs) !! run = Some r /\ r.(RunRow.run_revision) = rev /\
    z = r.(RunRow.loop_epoch) + 1 /\
    for_each l (fun turn_id => bind (mark_turn turn_id STALE) (fun _ => ret tt)) t = (Ok tt, t1) /\
    t' = set_db (put_run run (apply_run_patch (loop_epoch_patch z) r) t1.(t_db)) t1.
Proof.
  unfold bump_loop_epoch. intros E. apply bind_ok_inv in E as (o & t1 & (-> & -> & D)%runs_get_inv & E).
  apply bind_ok_inv in E as (r & t1 & Er & E). unfold lift_res in Er. apply pair_ok_inv in Er as [Hr <-].
  apply ok_or_ok in Hr. specialize (D _ Hr). apply decode_run_ok in D as (_ & Hep & _ & _).
  apply bind_ok_inv in E as ([] & t1 & Em & E). pose proof Em as [Hsame _]%mark_turns_runs_same.
  rewrite no_wrap in E by done. apply bind_ok_inv in E as (b & t2 & Ec & E).
  apply runs_cas_update_inv in Ec as [(-> & r1 & Hr1 & Hm & _ & ->)|(-> & -> & _)]; [|inv_ok].
  unfold ret in E. injection E as <- <-. rewrite Hsame, Hr in Hr1. injection Hr1 as <-.
  apply run_cas_matches_inv in Hm as (Hrev & _ & _). exists r, t1. done.
Qed.

Lemma bump_loop_epoch_runs run rev l : ensures (on_db runs_rel) (bump_loop_epoch run rev l).
Proof.
  intros t z t' (r & t1 & Hr & _ & -> & Em & ->)%bump_loop_epoch_inv.
  pose proof Em as [Hsame _]%mark_turns_runs_same. transitivity t1.
  - eapply ensures_for_each; [apply _| |exact Em]. intros id _. unfold mark_turn. solve_ensures.
  - split; [|done]. simpl. apply (put_run_rel run r); [by rewrite Hsame| |simpl; lia].
    apply apply_run_patch_evolves; simpl; try done. intros c [= <-]. lia.
Qed.

Lemma bump_loop_epoch_kernel run rev l : ensures (on_db kernel_rel) (bump_loop_epoch run rev l).
Proof.
  apply ensures_kernel; [apply bump_loop_epoch_runs|unfold bump_loop_epoch, mark_turn; solve_ensures..].
Qed.

Lemma prepare_effect_in_txn_kernel env run d step op payload :
  ensures (on_db kernel_rel) (prepare_effect_in_txn env run d step op payload).
Proof. unfold prepare_effect_in_txn. solve_ensures. Qed.
#[local] Hint Resolve prepare_effect_in_txn_kernel : ensures.

(** ** Accepting a decision *)

Lemma decisions_insert_inv n t u t' :
  decisions_insert n t = (Ok u, t') ->
  t.(t_db).(decisions) !! n.(NewDecision.decision_id) = None /\
  t' = set_db (set_decisions (<[n.(NewDecision.decision_id) := decision_row_of_new n]>
                 t.(t_db).(decisions)) t.(t_db)) t.
Proof.
  unfold decisions_insert. intros E. inv_store. rename select (absent _ _ = true) into Ha.
  by apply absent_true in Ha.
Qed.

(** The decision's record, its turn closed and its run moved. *)
Definition decided (run : RunId) (row : DecisionRow) (turn : LoopTurnRow) (r' : RunRow) (d : Db) : Db :=
  put_run run r' (set_loop_turns (<[row.(DecisionRow.turn_id) := set_turn_state ACCEPTED turn]> d.(loop_turns))
    (set_decisions (<[row.(DecisionRow.decision_id) := row]> d.(decisions)) d)).

Lemma record_decision_inv run did turn turn_id ty instr next raw now t u t' :
  t.(t_db).(loop_turns) !! turn_id = Some turn ->
  record_decision run did turn turn_id ty instr next raw now t = (Ok u, t') ->
  exists r, t.(t_db).(runs) !! run = Some r /\
    r.(RunRow.run_revision) = turn.(LoopTurnRow.run_revision) /\
    t.(t_db).(decisions) !! did = None /\
    t' = set_db (decided run (DecisionRow.mk did run turn_id ty ("sha256:" +:+ hex_lower (sha256 raw)) raw
           turn.(LoopTurnRow.run_revision) turn.(LoopTurnRow.loop_epoch) turn.(LoopTurnRow.step_sequence)
           turn.(LoopTurnRow.input_event_cursor) now) turn
           (apply_run_patch (decision_patch next instr) r) t.(t_db)) t.
Proof.
  intros Ht E. unfold record_decision in E.
  apply bind_ok_inv in E as (u1 & t1 & [Hd ->]%decisions_insert_inv & E).
  apply bind_ok_inv in E as (b & t2 & Em & E).
  apply turns_cas_inv in Em as [(-> & x & Hx & _ & ->)|(-> & ->)]; [|inv_ok]. simpl in Hx, Hd.
  rewrite Ht in Hx. injection Hx as <-. apply bind_ok_inv in E as (b & t3 & Ec & E).
  apply runs_cas_update_inv in Ec as [(-> & r & Hr & Hm & _ & ->)|(-> & -> & _)]; [|inv_ok].
  unfold ret in E. injection E as <- <-. apply run_cas_matches_inv in Hm as (Hrev & _ & _).
  exists r. done.
Qed.

(** Every state a decision names is allowed from Running. *)
Lemma decision_states d ty instr next :
  decision_type_and_instruction d = Ok (ty, instr, next) -> allows RunState.Running next = true.
Proof.
  unfold decision_type_and_instruction. intros E. destruct (ld_decision d) as [[]|]; by inversion E.
Qed.

Lemma record_decision_kernel run did turn turn_id ty instr next raw now t u t' :
  t.(t_db).(loop_turns) !! turn_id = Some turn -> turn.(LoopTurnRow.run_id) = run ->
  allows RunState.Running next = true ->
  record_decision run did turn turn_id ty instr next raw now t = (Ok u, t') -> on_db kernel_rel t t'.
Proof.
  intros Ht Hrun Ha E. split.
  2: { by apply record_decision_inv in E as (r & _ & _ & _ & ->). }
  assert (Hr : forall R, ensures (on_db R) (record_decision run did turn turn_id ty instr next raw now) ->
            R t.(t_db) t'.(t_db)) by (intros R Hm; by eapply Hm).
  split; [|apply Hr; unfold record_decision, mark_turn; solve_ensures..].
  apply record_decision_inv in E as (r & Hrow & Hrev & _ & ->); [|done].
  apply runs_rel_assume. intros Hinv.
  destruct (ri_turn _ Hinv _ _ Ht) as (r0 & Hr0 & _ & Hst). rewrite Hrun, Hrow in Hr0. injection Hr0 as <-.
  unfold decided. simpl. etransitivity; [|apply (put_run_rel run r); simpl; [done| |lia]].
  - etransitivity; [|exact (set_turn_rel turn_id turn ACCEPTED (set_decisions _ (t_db t)) Ht)].
    by apply runs_rel_frame.
  - apply apply_run_patch_evolves; simpl; try done. intros s [= <-]. rewrite Hst by done. by apply rtc_once.
Qed.

Lemma decisions_get_inv run did t o t' :
  decisions_get run did t = (Ok o, t') ->
  t' = t /\ (forall row, o = Some row -> t.(t_db).(decisions) !! did = Some row /\
               row.(DecisionRow.run_id) = run /\ decode_decision row = Ok row) /\
  (o = None -> forall row, t.(t_db).(decisions) !! did = Some row -> row.(DecisionRow.run_id) <> run).
Proof.
  unfold decisions_get. intros E. inv_run. rename select (opt_traverse _ _ = _) into D.
  destruct (decisions (t_db t') !! did) as [row|] eqn:Hd; simpl in D; [|injection D as <-; naive_solver].
  case_bool_decide as Hrun; simpl in D; [|injection D as <-; naive_solver].
  destruct (decode_decision row) as [row'|] eqn:Dr; simpl in D; [|done]. injection D as <-.
  assert (row' = row) as -> by (unfold decode_decision in Dr; inv_ok; done). naive_solver.
Qed.

(** The work after the record: the effect, then the row and the events. *)
Definition announce_decision (run : RunId) (did : DecisionId) (instruction : DecisionInstruction)
    (next : RunState) (raw : bytes) : M AcceptOutcome :=
  let! got := decisions_get run did in
  let! row := lift_res (ok_or got (kerr Internal "decision row not visible")) in
  do! stage_on_run "LoopDecisionAccepted" run raw None in
  do! match state_event next with
      | Some event =>
          do! stage_on_run event run raw None in
          stage_on_run "RunStateChanged" run raw None
      | None => ret tt
      end in
  ret (Accepted row instruction).

Definition after_record (run : RunId) (decision : LoopDecision) (did : DecisionId) (turn : LoopTurnRow)
    (instruction : DecisionInstruction) (next : RunState) (raw : bytes) : M AcceptOutcome :=
  do! match instruction with
      | InvokeEffect operation payload _ =>
          prepare_effect_in_txn (mkEffectEnv None None) run decision
            turn.(LoopTurnRow.step_sequence) operation payload
      | _ => ret tt
      end in
  announce_decision run did instruction next raw.

Lemma after_record_kernel run decision did turn instr next raw :
  ensures (on_db kernel_rel) (after_record run decision did turn instr next raw).
Proof. unfold after_record, announce_decision, stage_on_run. solve_ensures. Qed.

(** Every way [accept_decision] succeeds. *)
Lemma accept_decision_inv run decision raw now t out t' :
  accept_decision run decision raw now t = (Ok out, t') ->
  exists did, uuid_v7_from_str decision.(ld_decision_id) = Some did /\
  ((t' = t /\ exists prior, out = DecisionReplayed prior /\ t.(t_db).(decisions) !! did = Some prior /\
      prior.(DecisionRow.run_id) = run) \/
   exists turn_id turn ty instr next t1,
     uuid_v7_from_str decision.(ld_turn_id) = Some turn_id /\
     t.(t_db).(loop_turns) !! turn_id = Some turn /\ turn.(LoopTurnRow.run_id) = run /\
     turn.(LoopTurnRow.state) = ISSUED /\ fence_ok decision turn = true /\
     decision_type_and_instruction decision = Ok (ty, instr, next) /\
     record_decision run did turn turn_id ty instr next raw now t = (Ok tt, t1) /\
     after_record run decision did turn instr next raw t1 = (Ok out, t')).
Proof.
  unfold accept_decision. intros E. apply bind_ok_inv in E as (did & t1 & Ei & E).
  unfold lift_res in Ei. apply pair_ok_inv in Ei as [Hdid%ok_or_ok <-]. exists did. split; [done|].
  apply bind_ok_inv in E as (o & t1 & (-> & Hsome & _)%decisions_get_inv & E).
  destruct o as [prior|].
  { unfold ret in E. injection E as <- <-. left. split; [done|]. exists prior. naive_solver. }
  right. apply bind_ok_inv in E as (turn_id & t1 & Et & E).
  unfold lift_res in Et. apply pair_ok_inv in Et as [Htid%ok_or_ok <-].
  apply bind_ok_inv in E as (o & t1 & (-> & -> & _)%turns_get_inv & E).
  apply bind_ok_inv in E as (turn & t1 & Et & E).
  unfold lift_res in Et. apply pair_ok_inv in Et as [Hturn%ok_or_ok <-].
  case_bool_decide as Hrun; [|inv_ok]. case_bool_decide as Hst; [|inv_ok].
  destruct (fence_ok decision turn) eqn:Hf; cbn [negb] in E; [|inv_ok].
  apply bind_ok_inv in E as ([[ty instr] next] & t1 & Ek & E).
  unfold lift_res in Ek. apply pair_ok_inv in Ek as [Hk <-].
  apply bind_ok_inv in E as ([] & t1 & Er & E). exists turn_id, turn, ty, instr, next, t1. done.
Qed.

Lemma accept_decision_kernel run decision raw now :
  ensures (on_db kernel_rel) (accept_decision run decision raw now).
Proof.
  intros t out t' (did & _ & [[-> _]|(turn_id & turn & ty & instr & next & t1 & _ & Ht & Hrun & _ & _ & Hk & Er & E)])%accept_decision_inv;
    [reflexivity|].
  transitivity t1; [|by eapply after_record_kernel].
  eapply record_decision_kernel; eauto using decision_states.
Qed.
End TurnRelations.
#[export] Hint Resolve issue_turn_kernel bump_loop_epoch_kernel accept_decision_kernel : ensures.

(** ** Behaviour *)

(** The tables a decision is recorded in. *)
Definition loop_same (d d' : Db) : Prop :=
  d'.(runs) = d.(runs) /\ d'.(loop_turns) = d.(loop_turns) /\ d'.(decisions) = d.(decisions) /\
  d'.(tasks) = d.(tasks).

#[export] Instance loop_same_preorder : PreOrder loop_same.
Proof.
  split; [by intros ?|]. intros d1 d2 d3 (A1 & A2 & A3 & A4) (B1 & B2 & B3 & B4).
  unfold loop_same. repeat split; congruence.
Qed.
#[export] Hint Extern 1 (loop_same _ _) => repeat split; reflexivity : frame.

Section DecisionBehaviour.
Context `{!Ext} `{!Json}.

Lemma after_record_same run decision did turn instr next raw :
  ensures (on_db loop_same) (after_record run decision did turn instr next raw).
Proof. unfold after_record, announce_decision, prepare_effect_in_txn, stage_on_run. solve_ensures. Qed.

Lemma announce_effects run did instr next raw :
  ensures (on_db effects_same) (announce_decision run did instr next raw).
Proof. unfold announce_decision, stage_on_run. solve_ensures. Qed.

(** The row an acceptance reports. *)
Lemma after_record_row run decision did turn instr next raw t out t' :
  after_record run decision did turn instr next raw t = (Ok out, t') ->
  exists row, out = Accepted row instr /\ t.(t_db).(decisions) !! did = Some row /\
    row.(DecisionRow.run_id) = run /\ decode_decision row = Ok row.
Proof.
  unfold after_record. intros E. apply bind_ok_inv in E as (u & t1 & Ep & E).
  assert (Hsame : decisions (t_db t1) = decisions (t_db t)).
  { assert (Hp : ensures (on_db loop_same) (match instr with
      | InvokeEffect operation payload _ => prepare_effect_in_txn (mkEffectEnv None None) run decision
            turn.(LoopTurnRow.step_sequence) operation payload
      | _ => ret tt end)) by (unfold prepare_effect_in_txn; solve_ensures).
    apply Hp in Ep as [(_ & _ & Hd & _) _]. exact Hd. }
  apply bind_ok_inv in E as (o & t2 & (-> & Hsome & _)%decisions_get_inv & E).
  apply bind_ok_inv in E as (row & t2 & Er & E). unfold lift_res in Er. apply pair_ok_inv in Er as [->%ok_or_ok <-].
  apply bind_ok_inv in E as (u1 & t3 & _ & E). apply bind_ok_inv in E as (u2 & t4 & _ & E).
  unfold ret in E. injection E as <- <-. exists row. split; [done|]. rewrite <- Hsame. by apply Hsome.
Qed.

Lemma decisions_get_run run did row t :
  t.(t_db).(decisions) !! did = Some row -> row.(DecisionRow.run_id) = run -> decode_decision row = Ok row ->
  decisions_get run did t = (Ok (Some row), t).
Proof.
  intros Hd Hr Hdec. unfold decisions_get, bind, query, gets, lift_res. rewrite Hd.
  rewrite bool_decide_eq_true_2 by done. simpl. by rewrite Hdec.
Qed.

(** C2: An accepted decision is exactly one fenced step of its run: the turn it
    answers was issued to that run and carries the same revision, epoch, step
    and cursor; the run was Running and still at that revision; afterwards the
    run is in the state the decision names one revision later, the turn is
    accepted, the decision is recorded, and no other run has changed. *)
Theorem accepted_decision_is_fenced run decision raw now t row instr t' :
  runs_inv t.(t_db) ->
  accept_decision run decision raw now t = (Ok (Accepted row instr), t') ->
  exists did turn_id turn ty next r r',
    uuid_v7_from_str decision.(ld_decision_id) = Some did /\
    uuid_v7_from_str decision.(ld_turn_id) = Some turn_id /\
    decision_type_and_instruction decision = Ok (ty, instr, next) /\
    t.(t_db).(loop_turns) !! turn_id = Some turn /\ turn.(LoopTurnRow.run_id) = run /\
    turn.(LoopTurnRow.state) = ISSUED /\ fence_ok decision turn = true /\
    t.(t_db).(runs) !! run = Some r /\ r.(RunRow.state) = RunState.Running /\
    r.(RunRow.run_revision) = decision.(ld_run_revision) /\
    r'.(RunRow.state) = next /\ r'.(RunRow.run_revision) = r.(RunRow.run_revision) + 1 /\
    t'.(t_db).(runs) = <[run := r']> t.(t_db).(runs) /\
    t'.(t_db).(loop_turns) = <[turn_id := set_turn_state ACCEPTED turn]> t.(t_db).(loop_turns) /\
    t.(t_db).(decisions) !! did = None /\ t'.(t_db).(decisions) = <[did := row]> t.(t_db).(decisions).
Proof.
  intros Hinv (did & Hdid & [(_ & prior & [=] & _)|(turn_id & turn & ty & instr0 & next & t1 & Htid & Ht & Hrun & Hst & Hf & Hk & Er & E)])%accept_decision_inv.
  pose proof E as (row0 & [= <- <-] & Hrow & _)%after_record_row.
  apply after_record_same in E as [(S1 & S2 & S3 & _) _].
  apply record_decision_inv in Er as (r & Hr & Hrev & Hnone & ->); [|done]. simpl in *.
  rewrite lookup_insert_eq in Hrow. injection Hrow as <-.
  destruct (ri_turn _ Hinv _ _ Ht) as (r0 & Hr0 & _ & Hrunning). rewrite Hrun, Hr in Hr0. injection Hr0 as <-.
  assert (Hdrev : ld_run_revision decision = LoopTurnRow.run_revision turn).
  { unfold fence_ok in Hf. rewrite !andb_true_iff, !bool_decide_eq_true in Hf. tauto. }
  exists did, turn_id, turn, ty, next, r, (apply_run_patch (decision_patch next instr) r).
  repeat split; try done; [by apply Hrunning|congruence].
Qed.

(** A decision is applied once: resubmitting a recorded decision, in any
    later state of the kernel and whatever else the submission carries,
    replays the recorded row and changes nothing. *)
Theorem decision_replay_changes_nothing run decision raw now t row instr t' :
  accept_decision run decision raw now t = (Ok (Accepted row instr), t') ->
  forall decision2 raw2 now2 t2,
    decision2.(ld_decision_id) = decision.(ld_decision_id) ->
    kernel_rel t'.(t_db) t2.(t_db) ->
    accept_decision run decision2 raw2 now2 t2 = (Ok (DecisionReplayed row), t2).
Proof.
  intros (did & Hdid & [(_ & prior & [=] & _)|(turn_id & turn & ty & instr0 & next & t1 & _ & Ht & Hrun & _ & _ & _ & Er & E)])%accept_decision_inv
    decision2 raw2 now2 t2 Hsame Hrel.
  pose proof (lg_decisions _ _ (proj1 (kr_ledger _ _ Hrel))) as Hsub.
  pose proof E as (row0 & [= <- <-] & Hrow & Hid & Hdec)%after_record_row.
  apply after_record_same in E as [(_ & _ & S3 & _) _].
  rewrite <- S3 in Hrow. pose proof (lookup_weaken _ _ _ _ Hrow Hsub) as Hrow2.
  unfold accept_decision. rewrite Hsame, Hdid. erewrite bind_step by reflexivity.
  rewrite (bind_step _ _ t2 (Some row) t2) by (by apply decisions_get_run). reflexivity.
Qed.

(** What the preparation inside an acceptance checked and left. *)
Lemma prepare_effect_in_txn_inv env run decision step op payload t u t' :
  prepare_effect_in_txn env run decision step op payload t = (Ok u, t') ->
  (starts_with "harness." op = true ->
   exists r task, t.(t_db).(runs) !! run = Some r /\ t.(t_db).(tasks) !! r.(RunRow.task_id) = Some task /\
     creative task.(TaskRow.payload) = true) /\
  exists i e, t'.(t_db).(effects) !! i = Some e /\ e.(EffectRow.run_id) = run /\
    e.(EffectRow.operation) = op /\ e.(EffectRow.request_hash) = request_hash payload.
Proof.
  unfold prepare_effect_in_txn. intros E.
  apply bind_ok_inv in E as (o & t1 & (-> & -> & _)%runs_get_inv & E).
  apply bind_ok_inv in E as (r & t1 & Er & E). unfold lift_res in Er. apply pair_ok_inv in Er as [Hr%ok_or_ok <-].
  apply bind_ok_inv in E as (v & t1 & Eh & E). split.
  - intros Hop. rewrite Hop in Eh. clear E. unfold tasks_get in Eh. inv_run. eauto.
  - clear Eh. inv_run. rename select (prepare_effect _ _ _ = _) into Ep.
    apply prepare_effect_present in Ep as (i & e & Hi & Hid). exists i, e. split; [done|].
    unfold identity_of, request_identity in Hid. simpl in Hid. by injection Hid as -> _ -> ->.
Qed.

(** Creative operations are gated in the kernel: an accepted decision that
    invokes a [harness.] operation belongs to a run whose task envelope says
    [creative], and the invoked operation is persisted as an effect. *)
Theorem harness_effects_need_creative_task run decision raw now t row op payload claim t' :
  accept_decision run decision raw now t = (Ok (Accepted row (InvokeEffect op payload claim)), t') ->
  (starts_with "harness." op = true ->
   exists r task, t.(t_db).(runs) !! run = Some r /\ t.(t_db).(tasks) !! r.(RunRow.task_id) = Some task /\
     creative task.(TaskRow.payload) = true) /\
  exists i e, t'.(t_db).(effects) !! i = Some e /\ e.(EffectRow.run_id) = run /\
    e.(EffectRow.operation) = op /\ e.(EffectRow.request_hash) = request_hash payload.
Proof.
  intros (did & Hdid & [(_ & prior & [=] & _)|(turn_id & turn & ty & instr0 & next & t1 & _ & Ht & Hrun & _ & _ & _ & Er & E)])%accept_decision_inv.
  pose proof E as (row0 & [= <- <-] & _)%after_record_row.
  apply record_decision_inv in Er as (r & Hr & _ & _ & ->); [|done].
  unfold after_record in E. apply bind_ok_inv in E as (u & t2 & Ep & E).
  apply prepare_effect_in_txn_inv in Ep as [Hh (i & e & Hi & He)]. split.
  - intros Hop. destruct (Hh Hop) as (r' & task & Hr' & Htask & Hc). simpl in Hr', Htask.
    rewrite lookup_insert_eq in Hr'. injection Hr' as <-. exists r, task. done.
  - apply announce_effects in E as [-> _]. eauto.
Qed.
End DecisionBehaviour.

(** ** The accepting transaction ([agentd/src/workers/loops.rs]) *)

Section AcceptTransaction.
Context `{!Ext} `{!Json}.

(** [accept_with_new_txn]: an error drops the transaction. *)
Definition accept_with_new_txn (ctx : TxContext) (turn : LoopTurnRow) (decision : LoopDecision)
    (decision_bytes : bytes) (now_ms : Z) : ST World AcceptOutcome :=
  with_write_txn ctx (accept_decision turn.(LoopTurnRow.run_id) decision decision_bytes now_ms).

(** A superseded turn has no say: once a run has moved past the revision a
    turn was issued at, a decision for that turn is never accepted, and
    submitting it leaves the committed database exactly as it was. *)
Theorem superseded_turn_is_rejected ctx turn_id turn decision raw now w r :
  w.(w_db).(loop_turns) !! turn_id = Some turn ->
  uuid_v7_from_str decision.(ld_turn_id) = Some turn_id ->
  w.(w_db).(runs) !! turn.(LoopTurnRow.run_id) = Some r ->
  turn.(LoopTurnRow.run_revision) <> r.(RunRow.run_revision) ->
  (forall row instr, fst (accept_with_new_txn ctx turn decision raw now w) <> Ok (Accepted row instr)) /\
  w_db (snd (accept_with_new_txn ctx turn decision raw now w)) = w.(w_db).
Proof.
  intros Ht Htid Hr Hrev. unfold accept_with_new_txn, with_write_txn, begin_write.
  destruct (assert_epoch _ _) as [[]|e]; simpl; [|done].
  destruct (accept_decision _ _ _ _ _) as [[out|e] t'] eqn:E; simpl; [|done].
  apply accept_decision_inv in E as (did & _ & [(-> & prior & -> & _)|Hacc]); [done|exfalso].
  destruct Hacc as (turn_id' & turn' & ty & instr & next & t1 & Htid' & Ht' & _ & _ & _ & _ & Er & _).
  rewrite Htid in Htid'. injection Htid' as <-. simpl in Ht'. rewrite Ht in Ht'. injection Ht' as <-.
  apply record_decision_inv in Er as (r0 & Hr0 & Hrev0 & _); [|done]. simpl in Hr0. congruence.
Qed.

(** A decision whose fence tuple differs from its issued turn is refused as
    a conflict; the mark [stale] that [accept_decision] writes on the turn is
    rolled back with the transaction, so the stored turn stays issued. *)
Theorem stale_mark_is_rolled_back ctx did turn_id turn decision raw now w :
  assert_epoch ctx.(ctx_daemon_epoch) w.(w_db) = Ok tt ->
  uuid_v7_from_str decision.(ld_decision_id) = Some did ->
  uuid_v7_from_str decision.(ld_turn_id) = Some turn_id ->
  w.(w_db).(decisions) !! did = None ->
  w.(w_db).(loop_turns) !! turn_id = Some turn -> decode_turn turn = Ok turn ->
  turn.(LoopTurnRow.state) = ISSUED -> fence_ok decision turn = false ->
  fst (accept_with_new_txn ctx turn decision raw now w) =
    Err (kerr Conflict "stale decision: fence tuple does not match the issued turn") /\
  w_db (snd (accept_with_new_txn ctx turn decision raw now w)) = w.(w_db).
Proof.
  intros He Hdid Htid Hd Ht Hdec Hst Hf.
  unfold accept_with_new_txn, with_write_txn, begin_write. rewrite He. simpl.
  set (t := mkTxn _ _ _ _). unfold accept_decision. rewrite Hdid. erewrite bind_step by reflexivity.
  rewrite (bind_step _ _ t None t); cycle 1.
  { unfold decisions_get, bind, query, gets, lift_res. simpl. by rewrite Hd. }
  rewrite Htid. erewrite bind_step by reflexivity.
  rewrite (bind_step _ _ t (Some turn) t); cycle 1.
  { unfold turns_get, bind, query, gets, lift_res. simpl. rewrite Ht. simpl. by rewrite Hdec. }
  erewrite bind_step by reflexivity. rewrite !bool_decide_eq_true_2 by done. rewrite Hf. cbn [negb].
  erewrite bind_step; cycle 1.
  { unfold mark_turn, turns_cas, bind, query, gets. simpl. rewrite Ht. simpl.
    rewrite bool_decide_eq_true_2 by done. reflexivity. }
  done.
Qed.
End AcceptTransaction.
