(* ===== verification/Bind.v ===== *)
(** * Binding a run to its environment ([runtime/src/bind.rs],
    [resolved_environment.rs])

    [BindRun] decodes the resolved environment, freezes it with its bindings
    and moves the run from Created to Ready, once. *)

From S2P Require Import Prelude Domain Ids Models StoreBase Store SecurityStore Ledger Events Runs RunGraph.
From S2P Require Import EffectPolicy.
From S2P Require Import Effects Scheduler Resources Kernel RunServices.

Open Scope string_scope.
Open Scope Z_scope.

Definition CMD_BIND_RUN : string := "agentos.spec.v1.BindRun".

Record ResolvedBindingMsg := mkResolvedBindingMsg {
  rb_port_id : string; rb_adapter : option VersionedRefMsg; rb_capabilities : gmap string string }.

Record ResolvedRunEnvironmentMsg := mkResolvedRunEnvironmentMsg {
  env_id : string; env_run_id : string;
  env_agent_spec : option VersionedRefMsg; env_agent_loop : option VersionedRefMsg;
  env_config_generation_id : string; env_bindings : list ResolvedBindingMsg;
  env_workspace_uri : option string; env_workspace_base_revision : string; env_workspace_mode : Z;
  env_model_provider : string; env_model_id : string; env_model_parameters_json : bytes;
  env_kernel_version : string; env_protocol_versions : list string;
  env_capability_grant_ids : list string; env_approval_request_ids : list string }.

Record BindRunMsg := mkBindRunMsg {
  br_run_id : string; br_expected_run_revision : Z; br_config_generation_id : string;
  br_resolved_environment : option ResolvedRunEnvironmentMsg }.

(** Decoding of the command and [serde_json::to_vec] of a string map. *)
Class BindContracts := {
  decode_bind_run : bytes -> option BindRunMsg;
  json_of_map : gmap string string -> option bytes }.

Record EnvironmentPlan := mkEnvironmentPlan {
  ep_environment : NewResolvedEnvironment;
  ep_bindings : list NewResolvedBinding;
  ep_generation_id : ConfigGenerationId }.

(** [if s.is_empty() { None } else { Some(s) }]. *)
Definition non_empty (s : string) : option string := if str_is_empty s then None else Some s.
Definition non_empty_bytes (b : bytes) : option bytes := match b with [] => None | _ => Some b end.

Definition newline : string := String "010"%char "".

(** [strings.join(sep).into_bytes()]. *)
Definition join_bytes (sep : string) (l : list string) : bytes :=
  String.list_byte_of_string (String.concat sep l).

Definition environment_patch (id : EnvironmentId) : RunPatch := {|
  RunPatch.state := None;
  RunPatch.recovery := None;
  RunPatch.loop_epoch := None;
  RunPatch.step_sequence := None;
  RunPatch.input_event_cursor := None;
  RunPatch.cancellation_epoch := None;
  RunPatch.resolved_environment_id := Some id;
  RunPatch.claim := None;
  RunPatch.terminal_reason := None;
  RunPatch.output_ref := None;
  RunPatch.current_turn_id := None;
  RunPatch.bump_revision := true |}.

(** [freeze_environment]. *)
Definition freeze_environment (plan : EnvironmentPlan) (run : RunId) (expected_run_revision : Z)
    : M EnvironmentId :=
  let environment_id := plan.(ep_environment).(NewResolvedEnvironment.environment_id) in
  do! environments_insert plan.(ep_environment) in
  do! environments_insert_bindings environment_id plan.(ep_bindings) in
  let! moved := runs_cas_update run (RunCas.mk expected_run_revision None None)
                  (environment_patch environment_id) in
  guard! moved else kerr Conflict "run moved during environment binding" in
  ret environment_id.

Section Bind.
Context `{!Ext} `{!BindContracts}.

Definition decode_binding (b : ResolvedBindingMsg) : Res NewResolvedBinding :=
  let? adapter := ok_or b.(rb_adapter)
    (invalid_field "resolved_environment.bindings.adapter" "is required") in
  let? adapter_id := required_id "resolved_environment.bindings.adapter.id" adapter.(vr_id) in
  let? capabilities := ok_or (json_of_map b.(rb_capabilities))
    (kerr Internal "binding capabilities do not encode") in
  Ok (NewResolvedBinding.mk b.(rb_port_id) adapter_id adapter.(vr_version) adapter.(vr_digest)
        capabilities).

Definition decode_environment (raw : ResolvedRunEnvironmentMsg) (now_ms : Z) : Res EnvironmentPlan :=
  let? environment_id := required_id "resolved_environment.id" raw.(env_id) in
  let? run_id := required_id "resolved_environment.run_id" raw.(env_run_id) in
  let? agent_spec := ok_or raw.(env_agent_spec)
    (invalid_field "resolved_environment.agent_spec" "is required") in
  let? agent_loop := ok_or raw.(env_agent_loop)
    (invalid_field "resolved_environment.agent_loop" "is required") in
  let? workspace_mode := match from_wire raw.(env_workspace_mode) with
    | inl mode => Ok (mode : WorkspaceAccessMode)
    | inr _ => Err (invalid_field "resolved_environment.workspace_mode" "is not a known mode")
    end in
  let? bindings := res_collect decode_binding raw.(env_bindings) in
  let? agent_spec_id := required_id "resolved_environment.agent_spec.id" agent_spec.(vr_id) in
  let? generation_id := required_id "resolved_environment.config_generation_id"
    raw.(env_config_generation_id) in
  Ok (mkEnvironmentPlan {|
    NewResolvedEnvironment.environment_id := environment_id;
    NewResolvedEnvironment.run_id := run_id;
    NewResolvedEnvironment.agent_spec_id := agent_spec_id;
    NewResolvedEnvironment.agent_spec_version := agent_spec.(vr_version);
    NewResolvedEnvironment.agent_spec_digest := agent_spec.(vr_digest);
    NewResolvedEnvironment.agent_loop_id := agent_loop.(vr_id);
    NewResolvedEnvironment.agent_loop_version := agent_loop.(vr_version);
    NewResolvedEnvironment.agent_loop_digest := agent_loop.(vr_digest);
    NewResolvedEnvironment.config_generation_id := generation_id;
    NewResolvedEnvironment.workspace_uri :=
      match raw.(env_workspace_uri) with Some uri => non_empty uri | None => None end;
    NewResolvedEnvironment.workspace_base_revision := non_empty raw.(env_workspace_base_revision);
    NewResolvedEnvironment.workspace_mode := workspace_mode;
    NewResolvedEnvironment.model_provider := non_empty raw.(env_model_provider);
    NewResolvedEnvironment.model_id := non_empty raw.(env_model_id);
    NewResolvedEnvironment.model_parameters := non_empty_bytes raw.(env_model_parameters_json);
    NewResolvedEnvironment.kernel_version := raw.(env_kernel_version);
    NewResolvedEnvironment.protocol_versions := join_bytes "," raw.(env_protocol_versions);
    NewResolvedEnvironment.capability_grant_ids := join_bytes newline raw.(env_capability_grant_ids);
    NewResolvedEnvironment.approval_request_ids := join_bytes newline raw.(env_approval_request_ids);
    NewResolvedEnvironment.created_at_ms := now_ms |} bindings generation_id).

(** The transactional part of the handler, once the payload is decoded. *)
Definition bind_run (ctx : CommandContext) (run_id : RunId) (environment_id : EnvironmentId)
    (plan : EnvironmentPlan) (expected_run_revision : Z) : M CommandOutcome :=
  let! got := runs_get run_id in
  let! run := lift_res (ok_or got (kerr NotFound "run not found")) in
  if bool_decide (run.(RunRow.resolved_environment_id) = Some environment_id)
  then ret (outcome_id environment_id)
  else
  guard! match run.(RunRow.resolved_environment_id) with None => true | Some _ => false end
    else kerr Conflict "run is already bound to a different environment" in
  guard! bool_decide (run.(RunRow.state) = RunState.Created)
    else kerr FailedPrecondition "run is not in Created" in
  guard! bool_decide (run.(RunRow.run_revision) = expected_run_revision)
    else kerr Conflict "expected_run_revision is stale" in
  do! freeze_environment plan run_id run.(RunRow.run_revision) in
  let! got := runs_get run_id in
  let! bound := lift_res (ok_or got (kerr Internal "bind invariant broken")) in
  let! moved := runs_cas_update run_id
    (RunCas.mk bound.(RunRow.run_revision) (Some RunState.Created) None)
    (state_patch RunState.Ready None) in
  guard! moved else kerr Conflict "run moved during bind" in
  let! got := runs_get run_id in
  let! ready := lift_res (ok_or got (kerr Internal "bind invariant broken")) in
  let payload := encode_to_vec (MsgAgentRun (run_payload ready)) in
  do! for_each ["RunReady"; "RunBound"; "RunStateChanged"] (fun event_type =>
        stage_on_run event_type run_id payload ctx.(cc_correlation_id)) in
  ret (outcome_id environment_id).

Definition bind_run_handle (ctx : CommandContext) (payload : bytes) : M CommandOutcome :=
  let! raw := lift_res (decode_contract decode_bind_run "BindRun" payload) in
  let! run_id := lift_res (required_id "run_id" raw.(br_run_id)) in
  let! raw_env := lift_res (ok_or raw.(br_resolved_environment)
    (invalid_field "resolved_environment" "is required")) in
  guard! bool_decide (raw_env.(env_run_id) = raw.(br_run_id))
    else invalid_field "resolved_environment.run_id" "must equal the bound run" in
  guard! str_is_empty raw.(br_config_generation_id) ||
         bool_decide (raw.(br_config_generation_id) = raw_env.(env_config_generation_id))
    else invalid_field "config_generation_id" "must equal the environment's generation" in
  let! environment_id := lift_res (required_id "resolved_environment.id" raw_env.(env_id)) in
  let! now_ms := now_unix_ms in
  let! plan := lift_res (decode_environment raw_env now_ms) in
  bind_run ctx run_id environment_id plan raw.(br_expected_run_revision).
End Bind.

(** ** Binding keeps the kernel relation *)

Section BindRelations.
Context `{!Ext} `{!BindContracts}.

Lemma environments_insert_bindings_runs_same env l :
  ensures (on_db runs_same) (environments_insert_bindings env l).
Proof. unfold environments_insert_bindings. solve_ensures. Qed.
#[local] Hint Resolve environments_insert_bindings_runs_same : ensures.

(** Freezing gives the row it found an environment. *)
Lemma freeze_environment_inv plan run rev t e t' :
  freeze_environment plan run rev t = (Ok e, t') ->
  e = plan.(ep_environment).(NewResolvedEnvironment.environment_id) /\
  exists r, t.(t_db).(runs) !! run = Some r /\ r.(RunRow.run_revision) = rev /\
    t'.(t_db).(runs) = <[run := apply_run_patch (environment_patch e) r]> t.(t_db).(runs).
Proof.
  unfold freeze_environment. intros E. apply bind_ok_inv in E as (u1 & t1 & E1 & E).
  assert (S1 : runs (t_db t1) = runs (t_db t)).
  { by apply environments_insert_touches in E1 as [_ [w ->]]. }
  apply bind_ok_inv in E as (u2 & t2 & [S2 _]%environments_insert_bindings_runs_same & E).
  unfold runs_same in S2. apply bind_ok_inv in E as (b & t3 & Ec & E).
  apply runs_cas_update_inv in Ec as [(-> & r & Hr & Hm & _ & ->)|(-> & -> & _)]; [|inv_ok].
  unfold ret in E. injection E as <- <-. apply run_cas_matches_inv in Hm as (Hrev & _ & _).
  rewrite S2, S1 in Hr. split; [done|]. exists r. simpl. rewrite S2, S1. done.
Qed.

Lemma environments_insert_bindings_kernel env l :
  ensures (on_db kernel_rel) (environments_insert_bindings env l).
Proof. unfold environments_insert_bindings. solve_ensures. Qed.
#[local] Hint Resolve environments_insert_bindings_kernel : ensures.

Lemma freeze_environment_kernel plan run rev t e t' :
  (forall r, t.(t_db).(runs) !! run = Some r -> r.(RunRow.resolved_environment_id) = None) ->
  freeze_environment plan run rev t = (Ok e, t') -> on_db kernel_rel t t'.
Proof.
  intros Hnone E. unfold freeze_environment in E.
  apply bind_ok_inv in E as (u1 & t1 & E1 & E). apply bind_ok_inv in E as (u2 & t2 & E2 & E).
  assert (Hpre : on_db kernel_rel t t2).
  { transitivity t1; [|by eapply environments_insert_bindings_kernel].
    eapply ensures_touches; [apply environments_insert_touches| |exact E1]. intros. eauto with frame. }
  assert (S2 : runs (t_db t2) = runs (t_db t)).
  { apply environments_insert_bindings_runs_same in E2 as [-> _].
    by apply environments_insert_touches in E1 as [_ [w ->]]. }
  apply bind_ok_inv in E as (b & t3 & Ec & E). destruct b; [|inv_ok]. unfold ret in E. injection E as <- <-.
  etransitivity; [exact Hpre|]. eapply runs_cas_update_kernel_at; [| |exact Ec]; [done|].
  intros r Hr _. apply apply_run_patch_evolves; simpl; try done. rewrite S2 in Hr. intros e0 _. left. eauto.
Qed.

Lemma stage_each_kernel l run payload corr :
  ensures (on_db kernel_rel) (for_each l (fun ty => stage_on_run ty run payload corr)).
Proof. unfold stage_on_run. solve_ensures. Qed.
Lemma stage_each_runs_same l run payload corr :
  ensures (on_db runs_same) (for_each l (fun ty => stage_on_run ty run payload corr)).
Proof. unfold stage_on_run. solve_ensures. Qed.

(** What a bind that was not a replay found and did. *)
Lemma bind_run_inv ctx run env plan rev t out t' :
  plan.(ep_environment).(NewResolvedEnvironment.environment_id) = env ->
  bind_run ctx run env plan rev t = (Ok out, t') ->
  out = outcome_id env /\ exists r, t.(t_db).(runs) !! run = Some r /\
  ((r.(RunRow.resolved_environment_id) = Some env /\ t' = t) \/
   (r.(RunRow.resolved_environment_id) = None /\ r.(RunRow.state) = RunState.Created /\
    r.(RunRow.run_revision) = rev /\ on_db kernel_rel t t' /\
    t'.(t_db).(runs) = <[run := apply_run_patch (state_patch RunState.Ready None)
                                 (apply_run_patch (environment_patch env) r)]> t.(t_db).(runs))).
Proof.
  intros Hplan E. unfold bind_run in E.
  apply bind_ok_inv in E as (o & t1 & (-> & -> & _)%runs_get_inv & E).
  apply bind_ok_inv in E as (r & t1 & Er & E). unfold lift_res in Er. apply pair_ok_inv in Er as [Hr%ok_or_ok <-].
  case_bool_decide as Henv.
  { unfold ret in E. injection E as <- <-. split; [done|]. exists r. auto. }
  destruct (RunRow.resolved_environment_id r) as [e|] eqn:Hnone; [inv_ok|].
  case_bool_decide as Hst; [|inv_ok]. case_bool_decide as Hrev; [|inv_ok].
  apply bind_ok_inv in E as (e & t1 & Ef & E).
  assert (Hk1 : on_db kernel_rel t t1).
  { eapply freeze_environment_kernel; [|exact Ef]. intros r0 Hr0. congruence. }
  apply freeze_environment_inv in Ef as (He & r1 & Hr1 & _ & Ht1). rewrite Hr in Hr1. injection Hr1 as <-.
  rewrite Hplan in He. subst e.
  apply bind_ok_inv in E as (o & t2 & (-> & -> & _)%runs_get_inv & E).
  apply bind_ok_inv in E as (rb & t2 & Er & E). unfold lift_res in Er. apply pair_ok_inv in Er as [Hb%ok_or_ok <-].
  apply bind_ok_inv in E as (b & t2 & Ec & E).
  pose proof (runs_cas_update_kernel _ _ _ (state_patch_sound _ RunState.Created RunState.Ready None None eq_refl) _ _ _ Ec) as Hk2.
  apply runs_cas_update_inv in Ec as [(-> & r2 & Hr2 & _ & _ & ->)|(-> & -> & _)]; [|inv_ok].
  rewrite Ht1, lookup_insert_eq in Hr2. injection Hr2 as <-.
  apply bind_ok_inv in E as (o & t2 & (-> & -> & _)%runs_get_inv & E).
  apply bind_ok_inv in E as (rr & t2 & Er & E). unfold lift_res in Er. apply pair_ok_inv in Er as [_ <-].
  apply bind_ok_inv in E as (u & t3 & Es & E). unfold ret in E. injection E as <- <-.
  split; [done|]. exists r. split; [done|]. right.
  split; [done|]. split; [done|]. split; [done|]. split.
  - etransitivity; [exact Hk1|]. etransitivity; [exact Hk2|]. by eapply stage_each_kernel.
  - apply stage_each_runs_same in Es as [-> _]. simpl. rewrite Ht1. by rewrite insert_insert_eq.
Qed.

Lemma bind_run_kernel ctx run env plan rev :
  plan.(ep_environment).(NewResolvedEnvironment.environment_id) = env ->
  ensures (on_db kernel_rel) (bind_run ctx run env plan rev).
Proof.
  intros Hp t out t' E. apply bind_run_inv in E as (_ & r & _ & [[_ ->]|(_ & _ & _ & Hk & _)]); [|done..].
  reflexivity.
Qed.

(** The decoded environment carries the id the handler replays on. *)
Lemma decode_environment_id raw now plan id :
  required_id "resolved_environment.id" raw.(env_id) = Ok id ->
  decode_environment raw now = Ok plan ->
  plan.(ep_environment).(NewResolvedEnvironment.environment_id) = id.
Proof. intros Hid E. unfold decode_environment in E. rewrite Hid in E. inv_ok. done. Qed.

Lemma bind_run_handle_kernel ctx payload : ensures (on_db kernel_rel) (bind_run_handle ctx payload).
Proof.
  intros t out t' E. unfold bind_run_handle in E. apply bind_ok_inv in E as (raw & t1 & E1 & E).
  apply bind_ok_inv in E as (run & t2 & E2 & E). apply bind_ok_inv in E as (renv & t3 & E3 & E).
  destruct (bool_decide _); [|inv_ok]. destruct (_ || _); [|inv_ok].
  apply bind_ok_inv in E as (env & t4 & E4 & E). apply bind_ok_inv in E as (now & t5 & E5 & E).
  apply bind_ok_inv in E as (plan & t6 & E6 & E). unfold lift_res in *.
  apply pair_ok_inv in E1 as [_ <-]. apply pair_ok_inv in E2 as [_ <-]. apply pair_ok_inv in E3 as [_ <-].
  apply pair_ok_inv in E4 as [Hid <-]. apply pair_ok_inv in E6 as [Hplan <-].
  unfold now_unix_ms in E5. injection E5 as _ <-.
  eapply bind_run_kernel in E; [exact E|]. by eapply decode_environment_id.
Qed.

(** ** Behaviour *)

(** A bind is final: after a successful bind the run carries the
    environment and has become Ready if it was not bound before; from then on,
    whatever the kernel does, binding it to another environment is refused and
    binding it to the same one answers the same outcome without a change. *)
Theorem bind_is_final ctx run env plan rev t out t' :
  kernel_inv t.(t_db) ->
  plan.(ep_environment).(NewResolvedEnvironment.environment_id) = env ->
  bind_run ctx run env plan rev t = (Ok out, t') ->
  (exists r', t'.(t_db).(runs) !! run = Some r' /\ r'.(RunRow.resolved_environment_id) = Some env /\
     (forall r, t.(t_db).(runs) !! run = Some r -> r.(RunRow.resolved_environment_id) = None ->
        r.(RunRow.state) = RunState.Created /\ r.(RunRow.run_revision) = rev /\
        r'.(RunRow.state) = RunState.Ready /\ r'.(RunRow.run_revision) = rev + 2)) /\
  forall ctx2 env2 plan2 rev2 t2,
    kernel_rel t'.(t_db) t2.(t_db) ->
    plan2.(ep_environment).(NewResolvedEnvironment.environment_id) = env2 ->
    forall out2 t3, bind_run ctx2 run env2 plan2 rev2 t2 = (Ok out2, t3) ->
      env2 = env /\ out2 = out /\ t3 = t2.
Proof.
  intros Hinv Hp E. destruct (bind_run_kernel ctx run env plan rev Hp _ _ _ E) as [Hk _].
  pose proof (kernel_rel_inv _ _ Hk Hinv) as Hinv'.
  apply bind_run_inv in E as (-> & r & Hr & Hcase); [|done].
  assert (Hafter : exists r', t'.(t_db).(runs) !! run = Some r' /\ r'.(RunRow.resolved_environment_id) = Some env /\
     (r.(RunRow.resolved_environment_id) = None ->
        r.(RunRow.state) = RunState.Created /\ r.(RunRow.run_revision) = rev /\
        r'.(RunRow.state) = RunState.Ready /\ r'.(RunRow.run_revision) = rev + 2)).
  { destruct Hcase as [[Henv ->]|(Hnone & Hst & Hrev & _ & Ht)].
    - exists r. split; [done|]. split; [done|]. congruence.
    - eexists. rewrite Ht, lookup_insert_eq. split; [done|]. split; [done|]. intros _.
      split; [done|]. split; [done|]. split; [done|]. simpl. lia. }
  destruct Hafter as (r' & Hr' & Henv & Hnew). split.
  - exists r'. split; [done|]. split; [done|]. intros r0 Hr0. rewrite Hr in Hr0. injection Hr0 as <-. done.
  - intros ctx2 env2 plan2 rev2 t2 Hrel Hp2 out2 t3 E2.
    destruct (proj2 (kr_runs _ _ Hrel (ki_runs _ Hinv')) run r' Hr') as (r2 & Hr2 & V).
    pose proof (re_env _ _ V env Henv) as Henv2.
    apply bind_run_inv in E2 as (-> & r3 & Hr3 & Hc); [|done]. rewrite Hr2 in Hr3. injection Hr3 as <-.
    destruct Hc as [[He ->]|[Hn _]]; [|congruence]. rewrite Henv2 in He. by injection He as <-.
Qed.
End BindRelations.
#[export] Hint Resolve bind_run_handle_kernel : ensures.
