(* ===== verification/Coordinator.v ===== *)
(** * The command coordinator ([command-coordinator/src/*.rs])

    Request digests, command envelopes, the handler registry and
    [CommandCoordinator::execute]: lookup, validation, the fenced write
    transaction, idempotent replay, dispatch, the two fault points around the
    commit, and the idempotency record. *)

From S2P Require Import Prelude Domain Ids Text Models StoreBase Store SecurityStore Ledger Events Runs RunGraph.
From S2P Require Import EffectPolicy Effects Scheduler Resources Kernel RunServices.

Open Scope string_scope.
Open Scope Z_scope.

(** ** Digests ([envelope.rs]) *)

Record RequestDigest := mkRequestDigest { rd_bytes : bytes }.

#[export] Instance RequestDigest_eq_dec : EqDecision RequestDigest.
Proof. solve_decision. Defined.

Definition hex_nibble (c : ascii) : option N :=
  let n := N_of_ascii c in
  if ((48 <=? n) && (n <=? 57))%N then Some (n - 48)%N
  else if ((97 <=? n) && (n <=? 102))%N then Some (n - 97 + 10)%N else None.

Definition malformed_digest : KernelError :=
  kerr InvalidArgument "request_digest must be 64 lowercase hexadecimal characters".

(** [text.as_bytes().chunks_exact(2)], each pair as a byte. *)
Fixpoint hex_pairs (s : string) : option bytes :=
  match s with
  | String high (String low s) =>
      match hex_nibble high, hex_nibble low with
      | Some h, Some l =>
          match Byte.of_N (16 * h + l), hex_pairs s with
          | Some b, Some bs => Some (b :: bs)
          | _, _ => None
          end
      | _, _ => None
      end
  | _ => Some []
  end.

(** The 64 lowercase hexadecimal characters of a digest, or nothing. *)
Definition digest_bytes (text : string) : option bytes :=
  if (String.length text =? 64)%nat then hex_pairs text else None.

Definition digest_from_str (text : string) : Res RequestDigest :=
  res_map mkRequestDigest (ok_or (digest_bytes text) malformed_digest).

Definition digest_to_string (d : RequestDigest) : string := hex_lower d.(rd_bytes).

(** ** Envelopes *)

Record CommandEnvelope := mkCommandEnvelope {
  ce_command_id : CommandId;
  ce_idempotency_key : string;
  ce_principal_id : PrincipalId;
  ce_actor_id : ActorId;
  ce_device_id : option DeviceId;
  ce_delegation_chain_id : option DelegationChainId;
  ce_request_digest : RequestDigest;
  ce_correlation_id : option string;
  ce_causation_id : option string;
  ce_deadline_unix_ms : option Z;
  ce_command_type : string;
  ce_payload : bytes }.

Definition validate (env : CommandEnvelope) (now_unix_ms : Z) : Res unit :=
  if trim_is_empty env.(ce_idempotency_key)
  then Err (kerr InvalidArgument "idempotency_key must not be empty")
  else if trim_is_empty env.(ce_command_type)
  then Err (kerr InvalidArgument "command_type must not be empty")
  else match env.(ce_deadline_unix_ms) with
       | Some deadline =>
           if deadline <? now_unix_ms
           then Err (kerr FailedPrecondition "deadline_unix_ms is in the past") else Ok tt
       | None => Ok tt
       end.

(** ** Handlers and their registry ([handler.rs]) *)

Abbreviation CommandHandler := (CommandContext -> bytes -> M CommandOutcome).

Abbreviation CommandRegistry := (gmap string CommandHandler).

(** [CommandRegistry::register]: the registry afterwards, or why it is unchanged. *)
Definition register (command_type : string) (handler : CommandHandler) (registry : CommandRegistry)
    : Res CommandRegistry :=
  if trim_is_empty command_type then Err (kerr InvalidArgument "command_type must not be empty")
  else match registry !! command_type with
       | Some _ => Err (kerr Conflict "command_type is already registered")
       | None => Ok (<[command_type := handler]> registry)
       end.

Definition registry_get (registry : CommandRegistry) (command_type : string) : option CommandHandler :=
  registry !! command_type.

(** ** Execution ([lib.rs]) *)

Definition BEFORE_COMMIT : string := "command.before_commit".
Definition AFTER_COMMIT : string := "command.after_commit".

(** The registry, the daemon epoch the fence provider reports, and which fault
    points fire. *)
Record CommandCoordinator := mkCommandCoordinator {
  coord_registry : CommandRegistry;
  coord_epoch : Z;
  coord_inject : string -> bool }.

(** The quotes of [{command_type:?}]; characters it escapes are left as they are. *)
Definition unregistered (command_type : string) : KernelError :=
  kerr InvalidArgument ("command_type " +:+ String "034" (command_type +:+ String "034" EmptyString) +:+
    " is not registered in the coordinator").

Definition digest_conflict : KernelError :=
  kerr Conflict "request_digest differs from the record stored for idempotency_key".

Definition before_commit_fault : KernelError :=
  mkKernelError Unavailable RetrySafe "command.before_commit fault point aborted the transaction".

Definition after_commit_fault : KernelError :=
  mkKernelError Unavailable RetrySafe "command.after_commit fault point fired after commit".

Definition command_context (env : CommandEnvelope) : CommandContext :=
  mkCommandContext env.(ce_command_id) env.(ce_principal_id) env.(ce_actor_id) env.(ce_device_id)
    env.(ce_delegation_chain_id) env.(ce_correlation_id) env.(ce_causation_id).

Definition command_tx_context (epoch : Z) (env : CommandEnvelope) : TxContext :=
  mkTxContext epoch env.(ce_principal_id) env.(ce_command_id) env.(ce_correlation_id).

(** The answer a stored record gives to a resubmission. *)
Definition replay_stored (env : CommandEnvelope) (stored : IdempotencyRecordRow) : Res CommandOutcome :=
  if negb (bool_decide (stored.(IdempotencyRecordRow.request_digest) =
                        digest_to_string env.(ce_request_digest)))
  then Err digest_conflict
  else
  let? code := outcome_code_from_stored stored.(IdempotencyRecordRow.outcome_code) in
  Ok (mkCommandOutcome code stored.(IdempotencyRecordRow.outcome_payload)).

Section Coordinator.
Context `{!Ext}.

(** [clock.now_unix_ms()] outside a transaction. *)
Definition tick (w : World) : World := mkWorld w.(w_db) w.(w_ids) (S w.(w_clock)).

Definition new_record (env : CommandEnvelope) (outcome : CommandOutcome) (now_ms : Z) : NewIdempotencyRecord :=
  NewIdempotencyRecord.mk env.(ce_principal_id) env.(ce_idempotency_key)
    (digest_to_string env.(ce_request_digest)) env.(ce_command_id)
    (outcome_code_as_str outcome.(co_code)) outcome.(co_payload) now_ms.

Definition insert_record (env : CommandEnvelope) (outcome : CommandOutcome) : M unit :=
  let! now_ms := now_unix_ms in
  idempotency_insert (new_record env outcome now_ms).

Definition execute (c : CommandCoordinator) (env : CommandEnvelope) : ST World CommandOutcome := fun w =>
  match registry_get c.(coord_registry) env.(ce_command_type) with
  | None => (Err (unregistered env.(ce_command_type)), w)
  | Some handler =>
  match validate env (clock_ms w.(w_clock)) with
  | Err e => (Err e, tick w)
  | Ok _ =>
  match begin_write (command_tx_context c.(coord_epoch) env) (tick w) with
  | Err e => (Err e, tick w)
  | Ok txn =>
  match idempotency_lookup env.(ce_principal_id) env.(ce_idempotency_key) txn with
  | (Err e, txn) => (Err e, rollback_txn w txn)
  | (Ok (Some stored), txn) => (replay_stored env stored, rollback_txn w txn)
  | (Ok None, txn) =>
  match handler (command_context env) env.(ce_payload) txn with
  | (Err e, txn) => (Err e, rollback_txn w txn)
  | (Ok outcome, txn) =>
  if c.(coord_inject) BEFORE_COMMIT then (Err before_commit_fault, rollback_txn w txn)
  else
  match insert_record env outcome txn with
  | (Err e, txn) => (Err e, rollback_txn w txn)
  | (Ok _, txn) =>
      (if c.(coord_inject) AFTER_COMMIT then Err after_commit_fault else Ok outcome, commit_txn txn)
  end end end end end end.
End Coordinator.

(** ** Digest text *)

Lemma nibble_digit n : (n < 16)%N -> hex_nibble (hex_digit n) = Some n.
Proof.
  intros Hn. destruct n as [|p]; [done|]. do 4 (destruct p as [p|p|]; try done); lia.
Qed.

Lemma nibble_inv c v : hex_nibble c = Some v -> (v < 16)%N /\ hex_digit v = c.
Proof.
  unfold hex_nibble, hex_digit. pose proof (ascii_N_embedding c) as Hc. revert Hc.
  generalize (N_of_ascii c) as n. intros n <-.
  destruct ((48 <=? n) && (n <=? 57))%N eqn:E1; [|destruct ((97 <=? n) && (n <=? 102))%N eqn:E2; [|done]];
    intros E; injection E as <-; [clear -E1; apply andb_prop in E1 as [H1 H2]|
                                  clear -E2; apply andb_prop in E2 as [H1 H2]];
    apply N.leb_le in H1, H2.
  - rewrite (proj2 (N.ltb_lt _ _)) by lia. split; [lia|f_equal; lia].
  - rewrite (proj2 (N.ltb_ge _ _)) by lia. split; [lia|f_equal; lia].
Qed.

Lemma byte_pair b : Byte.of_N (16 * (Byte.to_N b / 16) + Byte.to_N b mod 16) = Some b.
Proof. by destruct b. Qed.

Lemma hex_pairs_lower l : hex_pairs (hex_lower l) = Some l.
Proof.
  induction l as [|b l IH]; [done|]. cbn [hex_lower hex_pairs]. pose proof (Byte.to_N_bounded b).
  rewrite !nibble_digit; [by rewrite byte_pair, IH|by apply N.mod_lt|].
  apply N.Div0.div_lt_upper_bound. lia.
Qed.

Lemma byte_of_pair h l b :
  (h < 16)%N -> (l < 16)%N -> Byte.of_N (16 * h + l) = Some b ->
  (Byte.to_N b / 16)%N = h /\ (Byte.to_N b mod 16)%N = l.
Proof.
  intros Hh Hl Hb. apply Byte.to_of_N in Hb. rewrite Hb, (N.mul_comm 16), N.div_add_l, N.div_small by lia.
  rewrite (N.add_comm (_ * _)), N.Div0.mod_add, N.mod_small by lia. split; lia.
Qed.

Lemma hex_lower_pairs s l :
  Nat.Even (String.length s) -> hex_pairs s = Some l ->
  hex_lower l = s /\ String.length s = (2 * length l)%nat.
Proof.
  revert s l. fix IH 1. intros [|c1 [|c2 s]] l Hev E.
  - injection E as <-. done.
  - destruct Hev as [k Hk]. simpl in Hk. lia.
  - cbn [hex_pairs] in E.
    destruct (hex_nibble c1) as [h|] eqn:E1; [|done]. destruct (hex_nibble c2) as [n|] eqn:E2; [|done].
    destruct (Byte.of_N (16 * h + n)) as [b|] eqn:Eb; [|done].
    destruct (hex_pairs s) as [l'|] eqn:E3; [|done]. injection E as <-.
    apply nibble_inv in E1 as [Hh <-], E2 as [Hn <-].
    destruct (byte_of_pair _ _ _ Hh Hn Eb) as [H1 H2].
    destruct (IH s l') as [H3 H4]; [destruct Hev as [k Hk]; exists (k - 1)%nat; simpl in Hk; lia|done|].
    cbn [hex_lower]. rewrite H1, H2, H3. split; [done|]. simpl. rewrite H4. lia.
Qed.

Lemma hex_lower_length l : String.length (hex_lower l) = (2 * length l)%nat.
Proof. induction l as [|b l IH]; [done|]. simpl. rewrite IH. lia. Qed.

Lemma hex_lower_inj l1 l2 : hex_lower l1 = hex_lower l2 -> l1 = l2.
Proof. intros E. apply (f_equal hex_pairs) in E. rewrite !hex_pairs_lower in E. by injection E. Qed.

Lemma digest_from_str_text s d : digest_from_str s = Ok d -> digest_to_string d = s /\ length d.(rd_bytes) = 32%nat.
Proof.
  unfold digest_from_str, digest_bytes, digest_to_string. destruct d as [l]. intros E.
  destruct (Nat.eqb_spec (String.length s) 64) as [Hs|]; [|done].
  destruct (hex_pairs s) as [l'|] eqn:El; [|done]. injection E as <-.
  destruct (hex_lower_pairs s l') as [Ht Hlen]; [exists 32%nat; lia|done|]. simpl. split; [done|lia].
Qed.

(** Digest text and digests correspond: a 32-byte digest prints to text
    that parses back to it, and any text that parses is the lowercase print of
    a 32-byte digest, so that two spellings never denote one digest. *)
Theorem request_digest_roundtrip :
  (forall d, length d.(rd_bytes) = 32%nat -> digest_from_str (digest_to_string d) = Ok d) /\
  (forall s d, digest_from_str s = Ok d -> digest_to_string d = s /\ length d.(rd_bytes) = 32%nat).
Proof.
  split; [|exact digest_from_str_text]. unfold digest_from_str, digest_bytes, digest_to_string.
  intros [l] Hl. simpl in *. rewrite hex_lower_length, Hl. simpl. by rewrite hex_pairs_lower.
Qed.

(** ** Execution *)

Definition command_key (env : CommandEnvelope) : N * string := (env.(ce_principal_id), env.(ce_idempotency_key)).

(** [d] records that the command of [env] was carried out with [outcome]. *)
Definition recorded (d : Db) (env : CommandEnvelope) (outcome : CommandOutcome) : Prop :=
  exists rec, d.(idempotency_records) !! command_key env = Some rec /\
    rec.(IdempotencyRecordRow.request_digest) = digest_to_string env.(ce_request_digest) /\
    rec.(IdempotencyRecordRow.outcome_code) = outcome_code_as_str outcome.(co_code) /\
    rec.(IdempotencyRecordRow.outcome_payload) = outcome.(co_payload).

(** The command of [env] reaches its idempotency lookup in [w]. *)
Definition admitted `{!Ext} (c : CommandCoordinator) (env : CommandEnvelope) (w : World) : Prop :=
  is_Some (registry_get c.(coord_registry) env.(ce_command_type)) /\
  validate env (clock_ms w.(w_clock)) = Ok tt /\
  assert_epoch c.(coord_epoch) w.(w_db) = Ok tt.

(** What the handler of a service promises the coordinator. *)
Class KernelHandler (h : CommandHandler) : Prop :=
  handler_kernel ctx payload : ensures (on_db kernel_rel) (h ctx payload).

(** Every registered handler keeps that promise. *)
Definition registry_sound (registry : CommandRegistry) : Prop :=
  map_Forall (fun _ h => KernelHandler h) registry.

Lemma registry_empty_sound : registry_sound ∅.
Proof. apply map_Forall_empty. Qed.

Lemma register_sound ty h registry registry' :
  registry_sound registry -> KernelHandler h -> register ty h registry = Ok registry' ->
  registry_sound registry'.
Proof.
  intros Hr Hh. unfold register. destruct (trim_is_empty ty); [done|].
  destruct (registry !! ty) eqn:Hl; [done|]. intros [= <-]. by apply map_Forall_insert_2.
Qed.

Section Execution.
Context `{!Ext}.

Lemma insert_record_inv env outcome t u t' :
  insert_record env outcome t = (Ok u, t') ->
  exists rec, t'.(t_db) = set_idempotency_records (<[command_key env := rec]> t.(t_db).(idempotency_records)) t.(t_db) /\
    t.(t_db).(idempotency_records) !! command_key env = None /\ recorded t'.(t_db) env outcome.
Proof.
  unfold insert_record. intros E. apply bind_ok_inv in E as (now & t1 & [= _ <-] & E).
  apply idempotency_insert_inv in E as [Hn ->]. eexists. split; [reflexivity|]. split; [exact Hn|].
  eexists. split; [apply lookup_insert_eq|]. done.
Qed.

(** Every way [execute] can end. *)
Lemma execute_inv c env w r w' :
  execute c env w = (r, w') ->
  (w'.(w_db) = w.(w_db) /\
     ((exists e, r = Err e) \/
      exists stored, w.(w_db).(idempotency_records) !! command_key env = Some stored /\ r = replay_stored env stored)) \/
  (exists handler t outcome t1 t2,
     registry_get c.(coord_registry) env.(ce_command_type) = Some handler /\
     begin_write (command_tx_context c.(coord_epoch) env) (tick w) = Ok t /\
     w.(w_db).(idempotency_records) !! command_key env = None /\
     handler (command_context env) env.(ce_payload) t = (Ok outcome, t1) /\
     insert_record env outcome t1 = (Ok tt, t2) /\ w' = commit_txn t2 /\
     r = if c.(coord_inject) AFTER_COMMIT then Err after_commit_fault else Ok outcome).
Proof.
  unfold execute. destruct (registry_get (coord_registry c) (ce_command_type env)) as [h|] eqn:Hh; [|intros [= <- <-]; eauto].
  destruct (validate env _) as [u|e]; [|intros [= <- <-]; eauto].
  destruct (begin_write _ (tick w)) as [t|e] eqn:Hb; [|intros [= <- <-]; eauto].
  assert (Ht : t_db t = w_db w).
  { unfold begin_write in Hb. destruct (assert_epoch _ _); [|done]. by injection Hb as <-. }
  unfold idempotency_lookup, query, gets. rewrite Ht.
  destruct (idempotency_records (w_db w) !! (ce_principal_id env, ce_idempotency_key env)) as [stored|] eqn:Hs.
  { intros [= <- <-]. left. split; [done|]. right. by exists stored. }
  destruct (h (command_context env) (ce_payload env) t) as [[outcome|e] t1] eqn:E1; [|intros [= <- <-]; eauto].
  destruct (coord_inject c BEFORE_COMMIT); [intros [= <- <-]; eauto|].
  destruct (insert_record env outcome t1) as [[[]|e] t2] eqn:E2; [|intros [= <- <-]; eauto].
  intros [= <- <-]. right. exists h, t, outcome, t1, t2. done.
Qed.

(** A recorded command is answered from its record. *)
Lemma execute_replays c env w outcome :
  admitted c env w -> recorded w.(w_db) env outcome ->
  fst (execute c env w) = Ok outcome /\ w_db (snd (execute c env w)) = w.(w_db).
Proof.
  intros ([h Hh] & Hv & He) (rec & Hr & Hd & Hc & Hp). unfold execute. rewrite Hh, Hv.
  unfold begin_write. simpl. rewrite He. simpl. unfold idempotency_lookup, query, gets. simpl.
  unfold command_key in Hr. rewrite Hr. simpl. split; [|done].
  unfold replay_stored. rewrite bool_decide_eq_true_2 by done. simpl. rewrite Hc, Hp.
  by destruct outcome as [[] p].
Qed.

Lemma execute_conflicts c env w rec :
  admitted c env w -> w.(w_db).(idempotency_records) !! command_key env = Some rec ->
  rec.(IdempotencyRecordRow.request_digest) <> digest_to_string env.(ce_request_digest) ->
  fst (execute c env w) = Err digest_conflict /\ w_db (snd (execute c env w)) = w.(w_db).
Proof.
  intros ([h Hh] & Hv & He) Hr Hd. unfold execute. rewrite Hh, Hv.
  unfold begin_write. simpl. rewrite He. simpl. unfold idempotency_lookup, query, gets. simpl.
  unfold command_key in Hr. rewrite Hr. simpl. split; [|done].
  unfold replay_stored. by rewrite bool_decide_eq_false_2.
Qed.

(** A command keeps the relation every kernel transaction keeps. *)
Lemma execute_kernel c env w r w' :
  registry_sound c.(coord_registry) -> execute c env w = (r, w') -> kernel_rel w.(w_db) w'.(w_db).
Proof.
  intros Hs E. apply execute_inv in E as [[-> _]|(h & t & outcome & t1 & t2 & Hh & Hb & _ & E1 & E2 & -> & _)];
    [reflexivity|].
  assert (Ht : t_db t = w_db w).
  { unfold begin_write in Hb. destruct (assert_epoch _ _); [|done]. by injection Hb as <-. }
  rewrite <- Ht. destruct (Hs _ _ Hh _ _ _ _ _ E1) as [K1 _]. etransitivity; [exact K1|].
  unfold insert_record in E2. apply bind_ok_inv in E2 as (now & t3 & [= _ <-] & E2). simpl.
  assert (Hi : forall n, ensures (on_db kernel_rel) (idempotency_insert n)) by (intros n; solve_kernel).
  by destruct (Hi _ _ _ _ E2) as [K2 _].
Qed.

(** A command is atomic.  Either the database is untouched, and the answer
    is an error or the replay of an earlier record; or the registered handler
    succeeded on the database the command started from, and exactly its
    changes and the record of its outcome are committed together, whether or
    not the outcome is acknowledged. *)
Theorem execute_is_atomic c env w r w' :
  execute c env w = (r, w') ->
  (w'.(w_db) = w.(w_db) /\
     ((exists e, r = Err e) \/
      exists stored, w.(w_db).(idempotency_records) !! command_key env = Some stored /\ r = replay_stored env stored)) \/
  (exists handler t outcome t1 rec,
     registry_get c.(coord_registry) env.(ce_command_type) = Some handler /\
     t.(t_db) = w.(w_db) /\ t.(t_ctx) = command_tx_context c.(coord_epoch) env /\
     handler (command_context env) env.(ce_payload) t = (Ok outcome, t1) /\
     w'.(w_db) = set_idempotency_records
       (<[command_key env := rec]> t1.(t_db).(idempotency_records)) t1.(t_db) /\
     recorded w'.(w_db) env outcome /\
     (r = Ok outcome \/ c.(coord_inject) AFTER_COMMIT = true /\ r = Err after_commit_fault)).
Proof.
  intros [H1|(h & t & outcome & t1 & t2 & Hh & Hb & _ & E1 & E2 & -> & ->)]%execute_inv; [by left|right].
  apply insert_record_inv in E2 as (rec & Hd & _ & Hr).
  unfold begin_write in Hb. destruct (assert_epoch _ _); [|done]. injection Hb as <-.
  exists h, (mkTxn (w_db (tick w)) (command_tx_context (coord_epoch c) env) (w_ids (tick w)) (w_clock (tick w))),
    outcome, t1, rec.
  repeat split; try done. destruct (coord_inject c AFTER_COMMIT); [by right|by left].
Qed.

(** C16: A command is executed at most once: once it has committed, whether or
    not its outcome reached the caller, every resubmission under the same
    principal and key that is admitted answers the recorded outcome if it
    carries the same digest and a conflict if it does not, and never changes
    the database, whatever the kernel did in between. *)
Theorem command_executes_at_most_once c env w r w' :
  execute c env w = (r, w') -> w'.(w_db) <> w.(w_db) ->
  exists outcome, (r = Ok outcome \/ r = Err after_commit_fault) /\
  forall c2 env2 w2,
    command_key env2 = command_key env -> kernel_rel w'.(w_db) w2.(w_db) -> admitted c2 env2 w2 ->
    w_db (snd (execute c2 env2 w2)) = w2.(w_db) /\
    fst (execute c2 env2 w2) =
      (if bool_decide (digest_to_string env2.(ce_request_digest) = digest_to_string env.(ce_request_digest))
       then Ok outcome else Err digest_conflict).
Proof.
  intros [[? _]|(h & t & outcome & t1 & t2 & _ & _ & _ & _ & E2 & -> & ->)]%execute_inv Hne; [done|].
  apply insert_record_inv in E2 as (_ & _ & _ & rec & Hr & Hd & Hc & Hp).
  exists outcome. split; [destruct (coord_inject c AFTER_COMMIT); [by right|by left]|].
  intros c2 env2 w2 Hk Hrel Ha.
  pose proof (lookup_weaken _ _ _ _ Hr (lg_records _ _ (proj1 (kr_ledger _ _ Hrel)))) as Hr2.
  rewrite <- Hk in Hr2. case_bool_decide as Hdig.
  - destruct (execute_replays c2 env2 w2 outcome Ha) as [H1 H2]; [|done].
    exists rec. by rewrite Hdig.
  - destruct (execute_conflicts c2 env2 w2 rec Ha Hr2) as [H1 H2]; [congruence|done].
Qed.
End Execution.
