(* ===== verification/Approvals.v ===== *)
(** * Approvals ([approvals/src/lib.rs])

    The canonical digest that binds an approval to its content, the creation of
    an immutable request, the single terminal response and the resolution of a
    request from its stored rows, with the two command handlers. *)

From S2P Require Import Prelude Domain Ids Text Models StoreBase Store SecurityStore Ledger Identity Permissions.
From S2P Require Import Events Runs RunGraph EffectPolicy Effects Scheduler Resources Kernel RunServices Coordinator.

Open Scope string_scope.
Open Scope Z_scope.

(** ** The digest *)

Record ApprovalDigest := mkApprovalDigest { apd_bytes : bytes }.

#[export] Instance ApprovalDigest_eq_dec : EqDecision ApprovalDigest.
Proof. solve_decision. Defined.

Definition malformed_approval_digest : KernelError :=
  kerr InvalidArgument "approval_digest must be 64 lowercase hexadecimal characters".

Definition approval_digest_from_str (text : string) : Res ApprovalDigest :=
  res_map mkApprovalDigest (ok_or (digest_bytes text) malformed_approval_digest).

Definition approval_digest_to_string (d : ApprovalDigest) : string := hex_lower d.(apd_bytes).

Record DigestInput := mkDigestInput {
  di_request_id : option ApprovalRequestId;
  di_principal_id : PrincipalId;
  di_actor_id : ActorId;
  di_run_id : option RunId;
  di_operation : string;
  di_target : string;
  di_capabilities : list Capability;
  di_extension_digest : option string;
  di_config_digest : option string;
  di_expiry_ms : Z;
  di_nonce : string }.

Definition put_str (text : string) : bytes :=
  (to_be_bytes 4 (Z.of_nat (String.length text)) ++ into_bytes text)%list.

Definition put_optional (text : option string) : bytes :=
  match text with
  | Some text => (Byte.x01 :: put_str text)%list
  | None => [Byte.x00]
  end.

Section Digest.
Context `{!Ext}.

(** The buffer [canonical_digest] hashes. *)
Definition digest_buffer (input : DigestInput) : bytes :=
  let capabilities := capability_set input.(di_capabilities) in
  (put_optional (uuid_hyphenated <$> input.(di_request_id)) ++
   put_str (uuid_hyphenated input.(di_principal_id)) ++
   put_str (uuid_hyphenated input.(di_actor_id)) ++
   put_optional (uuid_hyphenated <$> input.(di_run_id)) ++
   put_str input.(di_operation) ++
   put_str input.(di_target) ++
   to_be_bytes 4 (Z.of_nat (length capabilities)) ++
   concat ((fun c => put_str (capability_to_string c)) <$> capabilities) ++
   put_optional input.(di_extension_digest) ++
   put_optional input.(di_config_digest) ++
   to_be_bytes 8 input.(di_expiry_ms) ++
   put_str input.(di_nonce))%list.

Definition canonical_digest (input : DigestInput) : ApprovalDigest :=
  mkApprovalDigest (sha256 (digest_buffer input)).

(** [encode_capabilities] and [decode_capabilities]. *)
Definition encode_capabilities (capabilities : list Capability) : bytes :=
  into_bytes (join_with (String NEWLINE "") (capability_to_string <$> capabilities)).

Definition decode_capabilities (blob : bytes) : Res (list Capability) :=
  if bool_decide (blob = []) then Ok []
  else
  let? text := ok_or (from_utf8 blob)
    (kerr Internal "approval request capability list is not canonical text") in
  res_collect (fun token => ok_or (capability_from_str token)
    (kerr Internal "approval request capability list is not canonical")) (split_on NEWLINE text).

Definition recompute_digest (row : ApprovalRequestRow) : Res ApprovalDigest :=
  let? capabilities := decode_capabilities row.(ApprovalRequestRow.capability_ids) in
  Ok (canonical_digest (mkDigestInput (Some row.(ApprovalRequestRow.request_id))
    row.(ApprovalRequestRow.principal_id) row.(ApprovalRequestRow.actor_id)
    row.(ApprovalRequestRow.run_id) row.(ApprovalRequestRow.operation)
    (from_option (fun s => s) "" row.(ApprovalRequestRow.target_resource)) capabilities
    row.(ApprovalRequestRow.extension_bundle_digest) row.(ApprovalRequestRow.config_generation_digest)
    row.(ApprovalRequestRow.expires_at_ms) row.(ApprovalRequestRow.nonce))).
End Digest.

(** ** Requests *)

Definition approval_uncatalogued : KernelError :=
  kerr Internal "catalogued approval event has no catalog entry".
Definition approval_stream_error : KernelError := kerr Internal "catalogued stream key is not canonical".
Definition outside_catalogue : KernelError :=
  kerr InvalidArgument "approval request cites a capability outside the catalogue".

Section Requests.
Context `{!Ext}.

(** [stage_approval_requested] and the staging half of
    [stage_approval_resolved]: on the principal's stream, with the
    transaction's correlation. *)
Definition stage_approval_event (event_id : EventId) (event_type : string) (principal : PrincipalId)
    (payload : bytes) : M unit :=
  let! stream := lift_res (stream_principal principal) in
  let! tx := txn_context in
  do! stage_classified approval_uncatalogued approval_stream_error event_id event_type stream payload
        tx.(ctx_correlation_id) None in
  ret tt.

Definition approval_event (request_id : ApprovalRequestId) (digest : ApprovalDigest) (input : DigestInput)
    : ApprovalRequestMsg := {|
  ap_request_id := uuid_hyphenated request_id;
  ap_request_digest := approval_digest_to_string digest;
  ap_actor_id := uuid_hyphenated input.(di_actor_id);
  ap_run_id := opt_id_text input.(di_run_id);
  ap_capability_ids := capability_to_string <$> input.(di_capabilities);
  ap_target_resource := input.(di_target);
  ap_operation := input.(di_operation);
  ap_extension_bundle_digest := from_option (fun s => s) "" input.(di_extension_digest);
  ap_config_generation_digest := from_option (fun s => s) "" input.(di_config_digest);
  ap_expires_unix_ms := input.(di_expiry_ms);
  ap_nonce := input.(di_nonce) |}.

Definition new_approval_request (request_id : ApprovalRequestId) (digest : ApprovalDigest)
    (input : DigestInput) (now_ms : Z) : NewApprovalRequest := {|
  NewApprovalRequest.request_id := request_id;
  NewApprovalRequest.request_digest := approval_digest_to_string digest;
  NewApprovalRequest.principal_id := input.(di_principal_id);
  NewApprovalRequest.actor_id := input.(di_actor_id);
  NewApprovalRequest.run_id := input.(di_run_id);
  NewApprovalRequest.operation := input.(di_operation);
  NewApprovalRequest.target_resource := if str_is_empty input.(di_target) then None else Some input.(di_target);
  NewApprovalRequest.capability_ids := encode_capabilities input.(di_capabilities);
  NewApprovalRequest.extension_bundle_digest := input.(di_extension_digest);
  NewApprovalRequest.config_generation_digest := input.(di_config_digest);
  NewApprovalRequest.expires_at_ms := input.(di_expiry_ms);
  NewApprovalRequest.nonce := input.(di_nonce);
  NewApprovalRequest.state := ApprovalState.Pending;
  NewApprovalRequest.created_at_ms := now_ms;
  NewApprovalRequest.resolved_at_ms := None |}.

(** The input as [create_request] canonicalizes it. *)
Definition canonical_input (request_id : ApprovalRequestId) (input : DigestInput) : DigestInput := {|
  di_request_id := Some request_id;
  di_principal_id := input.(di_principal_id);
  di_actor_id := input.(di_actor_id);
  di_run_id := input.(di_run_id);
  di_operation := input.(di_operation);
  di_target := input.(di_target);
  di_capabilities := capability_set input.(di_capabilities);
  di_extension_digest := input.(di_extension_digest);
  di_config_digest := input.(di_config_digest);
  di_expiry_ms := input.(di_expiry_ms);
  di_nonce := uuid_hyphenated request_id |}.

Definition create_request (input : DigestInput) (now_ms : Z) : M (ApprovalRequestId * ApprovalDigest) :=
  let! tx := txn_context in
  let request_id := from_option (fun i => i) tx.(ctx_command_id) input.(di_request_id) in
  guard! negb (trim_is_empty input.(di_operation))
    else kerr InvalidArgument "approval request operation must not be empty" in
  guard! forallb is_supported input.(di_capabilities) else outside_catalogue in
  let input := canonical_input request_id input in
  let digest := canonical_digest input in
  do! security_insert_approval_request (new_approval_request request_id digest input now_ms) in
  do! stage_approval_event request_id "ApprovalRequested" input.(di_principal_id)
        (encode_to_vec (MsgApprovalRequest (approval_event request_id digest input))) in
  ret (request_id, digest).

(** ** Responses *)

Inductive ApprovalDecision := Approve | DenyApproval.

#[export] Instance ApprovalDecision_eq_dec : EqDecision ApprovalDecision.
Proof. solve_decision. Defined.

Definition decision_as_str (d : ApprovalDecision) : string :=
  match d with Approve => "approve" | DenyApproval => "deny" end.

Definition decision_from_token (token : string) : Res ApprovalDecision :=
  if decide (token = "approve") then Ok Approve
  else if decide (token = "deny") then Ok DenyApproval
  else Err (kerr InvalidArgument "approval decision is not recognized").

Record Responder := mkResponder { rs_principal_id : PrincipalId; rs_device_id : option DeviceId }.

Inductive ApprovalOutcome := Approved | Denied | Pending | Expired | Invalidated | UnknownApproval.

Definition digest_mismatch : KernelError :=
  kerr Internal "approval request digest does not match its persisted fields".

(** The digest of a stored request, checked against the stored text. *)
Definition persisted_digest (row : ApprovalRequestRow) : Res ApprovalDigest :=
  let? persisted := recompute_digest row in
  if bool_decide (approval_digest_to_string persisted = row.(ApprovalRequestRow.request_digest))
  then Ok persisted else Err digest_mismatch.

Definition stage_approval_resolved (row : ApprovalRequestRow) (decision : ApprovalDecision)
    (device_id : DeviceId) (responded_at_ms : Z) : M unit :=
  let! event_id := draw_uuid in
  stage_approval_event event_id "ApprovalResolved" row.(ApprovalRequestRow.principal_id)
    (encode_to_vec (MsgApprovalResolved (uuid_hyphenated row.(ApprovalRequestRow.request_id))
       row.(ApprovalRequestRow.request_digest) (decision_as_str decision)
       (uuid_hyphenated row.(ApprovalRequestRow.principal_id)) (uuid_hyphenated device_id) responded_at_ms)).

Definition respond (request_id : ApprovalRequestId) (digest : ApprovalDigest) (decision : ApprovalDecision)
    (responder : Responder) (now_ms : Z) : M unit :=
  let! got := security_get_approval_request request_id in
  let! row := lift_res (ok_or got (kerr NotFound "approval request does not exist")) in
  let! persisted := lift_res (persisted_digest row) in
  guard! bool_decide (digest = persisted)
    else kerr Conflict "approval request digest does not match the persisted request" in
  guard! now_ms <? row.(ApprovalRequestRow.expires_at_ms)
    else kerr FailedPrecondition "approval request has expired" in
  let! responses := security_list_approval_responses request_id in
  guard! bool_decide (responses = []) else kerr Conflict "approval request already has a terminal response" in
  guard! bool_decide (responder.(rs_principal_id) = row.(ApprovalRequestRow.principal_id))
    else kerr FailedPrecondition "responder is not the approval principal" in
  let! device_id := lift_res (ok_or responder.(rs_device_id)
    (kerr InvalidArgument "responder device identity is required")) in
  do! security_insert_approval_response (NewApprovalResponse.mk request_id
        (approval_digest_to_string persisted) (decision_as_str decision) device_id
        responder.(rs_principal_id) now_ms) in
  stage_approval_resolved row decision device_id now_ms.

(** ** Resolution *)

Definition is_satisfied (request_id : ApprovalRequestId) (expected : ApprovalDigest) (now_ms : Z)
    : M ApprovalOutcome :=
  let! got := security_get_approval_request request_id in
  match got with
  | None => ret UnknownApproval
  | Some row =>
      let! persisted := lift_res (persisted_digest row) in
      let! responses := security_list_approval_responses request_id in
      if negb (bool_decide (expected = persisted)) then ret Invalidated
      else match responses with
      | response :: _ =>
          if negb (bool_decide (response.(ApprovalResponseRow.request_digest) =
                                approval_digest_to_string persisted)) then ret Invalidated
          else if decide (response.(ApprovalResponseRow.decision) = "approve") then ret Approved
          else if decide (response.(ApprovalResponseRow.decision) = "deny") then ret Denied
          else raise (kerr Internal "approval response decision is not recognized")
      | [] => ret (if row.(ApprovalRequestRow.expires_at_ms) <=? now_ms then Expired else Pending)
      end
  end.
End Requests.

(** ** Command handlers *)

Definition CMD_CREATE_APPROVAL_REQUEST : string := "agentos.spec.v1.CreateApprovalRequest".
Definition CMD_RESPOND_APPROVAL : string := "agentos.spec.v1.RespondApproval".

Record CreateApprovalRequestMsg := mkCreateApprovalRequestMsg {
  car_request_id : string; car_principal_id : string; car_actor_id : string; car_run_id : string;
  car_operation : string; car_target_resource : string; car_capability_ids : list string;
  car_extension_bundle_digest : string; car_config_generation_digest : string;
  car_expires_at_ms : Z; car_nonce : string }.

Record RespondApprovalMsg := mkRespondApprovalMsg {
  ra_request_id : string; ra_request_digest : string; ra_decision : string; ra_device_id : string;
  ra_responder_principal_id : string }.

(** [prost::Message::decode] for the two commands. *)
Class ApprovalContracts := {
  decode_create_approval_request : bytes -> option CreateApprovalRequestMsg;
  decode_respond_approval : bytes -> option RespondApprovalMsg }.

Definition context_mismatch (field : string) : KernelError :=
  invalid_field field "does not match the command context".

(** An empty contract string is an absent value. *)
Definition optional_text (text : string) : option string := if str_is_empty text then None else Some text.

Definition parse_capabilities (tokens : list string) : Res (list Capability) :=
  res_collect (fun token => ok_or (capability_from_str token) outside_catalogue) tokens.

Section ApprovalHandlers.
Context `{!Ext} `{!ApprovalContracts}.

Definition create_approval_request_handle (ctx : CommandContext) (payload : bytes) : M CommandOutcome :=
  let! raw := lift_res (decode_contract decode_create_approval_request "CreateApprovalRequest" payload) in
  let! payload_principal := lift_res (required_id "principal_id" raw.(car_principal_id)) in
  guard! bool_decide (payload_principal = ctx.(cc_principal_id)) else context_mismatch "principal_id" in
  let! request_id := lift_res (optional_id "request_id" raw.(car_request_id)) in
  let! actor_id := lift_res (required_id "actor_id" raw.(car_actor_id)) in
  let! run_id := lift_res (optional_id "run_id" raw.(car_run_id)) in
  let! capabilities := lift_res (parse_capabilities raw.(car_capability_ids)) in
  let input := mkDigestInput request_id ctx.(cc_principal_id) actor_id run_id raw.(car_operation)
    raw.(car_target_resource) capabilities (optional_text raw.(car_extension_bundle_digest))
    (optional_text raw.(car_config_generation_digest)) raw.(car_expires_at_ms) raw.(car_nonce) in
  let! now_ms := now_unix_ms in
  let! created := create_request input now_ms in
  ret (outcome_id created.1).

Definition respond_approval_handle (ctx : CommandContext) (payload : bytes) : M CommandOutcome :=
  let! raw := lift_res (decode_contract decode_respond_approval "RespondApproval" payload) in
  let! request_id := lift_res (required_id "request_id" raw.(ra_request_id)) in
  let! digest := lift_res (approval_digest_from_str raw.(ra_request_digest)) in
  let! decision := lift_res (decision_from_token raw.(ra_decision)) in
  let! payload_principal := lift_res (required_id "responder_principal_id" raw.(ra_responder_principal_id)) in
  guard! bool_decide (payload_principal = ctx.(cc_principal_id))
    else context_mismatch "responder_principal_id" in
  let! payload_device := lift_res (optional_id "device_id" raw.(ra_device_id)) in
  guard! bool_decide (payload_device = ctx.(cc_device_id)) else context_mismatch "device_id" in
  let! now_ms := now_unix_ms in
  do! respond request_id digest decision (mkResponder ctx.(cc_principal_id) ctx.(cc_device_id)) now_ms in
  ret (mkCommandOutcome OutcomeOk []).

(** [approvals::register_handlers]. *)
Definition register_approval_handlers (registry : CommandRegistry) : Res CommandRegistry :=
  let? registry := register CMD_CREATE_APPROVAL_REQUEST create_approval_request_handle registry in
  register CMD_RESPOND_APPROVAL respond_approval_handle registry.
End ApprovalHandlers.

(** ** The services keep the kernel relation *)

Section ApprovalRelations.
Context `{!Ext}.

Lemma stage_approval_event_touches id ty p payload : touches set_outbox (stage_approval_event id ty p payload).
Proof.
  intros t u t' E. unfold stage_approval_event in E. inv_run.
  rename select (stage_classified _ _ _ _ _ _ _ _ _ = _) into S.
  apply stage_classified_touches in S as [C [w W]]. split; [exact C|]. by exists w.
Qed.
#[local] Hint Resolve stage_approval_event_touches : touches.
Lemma stage_approval_event_events id ty p payload :
  ensures (on_db events_rel) (stage_approval_event id ty p payload).
Proof. unfold stage_approval_event. solve_ensures. Qed.
#[local] Hint Resolve stage_approval_event_events : ensures.

Lemma create_request_kernel input now : ensures (on_db kernel_rel) (create_request input now).
Proof. unfold create_request. solve_kernel. Qed.

Lemma respond_kernel id digest decision responder now :
  ensures (on_db kernel_rel) (respond id digest decision responder now).
Proof. unfold respond, stage_approval_resolved. solve_kernel. Qed.
End ApprovalRelations.
#[export] Hint Resolve create_request_kernel respond_kernel : ensures.

#[export] Instance create_approval_request_handler `{!Ext} `{!ApprovalContracts} :
  KernelHandler create_approval_request_handle.
Proof. intros ctx payload. unfold create_approval_request_handle. solve_ensures. Qed.
#[export] Instance respond_approval_handler `{!Ext} `{!ApprovalContracts} : KernelHandler respond_approval_handle.
Proof. intros ctx payload. unfold respond_approval_handle. solve_ensures. Qed.

(** ** The framing is unambiguous *)

Definition short (text : string) : Prop := Z.of_nat (String.length text) < 2 ^ 32.

Lemma put_str_prefix a b x y :
  short a -> short b -> (put_str a ++ x)%list = (put_str b ++ y)%list -> a = b /\ x = y.
Proof.
  unfold put_str, short. intros Ha Hb E. rewrite <- !app_assoc in E.
  apply app_inj_1 in E as [El%to_be_bytes_inj E]; [|by rewrite !to_be_bytes_length].
  change (256 ^ Z.of_nat 4) with (2 ^ 32) in El. rewrite !Z.mod_small in El by lia.
  apply app_inj_1 in E as [Et E]; [|rewrite !into_bytes_length; lia]. split; [by apply into_bytes_inj|done].
Qed.

Lemma put_optional_prefix a b x y :
  (forall s, a = Some s -> short s) -> (forall s, b = Some s -> short s) ->
  (put_optional a ++ x)%list = (put_optional b ++ y)%list -> a = b /\ x = y.
Proof.
  intros Ha Hb E. destruct a as [a|], b as [b|]; cbn [put_optional app] in E; try discriminate.
  - apply list.cons_eq_inj in E as [_ E]. apply put_str_prefix in E as [-> ->]; auto.
  - by injection E as ->.
Qed.

Lemma capability_to_string_inj c1 c2 : capability_to_string c1 = capability_to_string c2 -> c1 = c2.
Proof.
  destruct c1 as [f1 a1], c2 as [f2 a2]. unfold capability_to_string. cbn [family action]. intros E.
  apply (f_equal (split_on ".")) in E.
  assert (Hf : forall f, no_byte "." (family_as_str f) = true) by (by intros []).
  assert (Hr : forall f, family_from_str (family_as_str f) = Some f) by (by intros []; vm_compute).
  change ("." +:+ ?a) with (String "." a) in E. rewrite !split_on_field in E by apply Hf.
  injection E as E1 E2. apply (f_equal family_from_str) in E1. rewrite !Hr in E1.
  apply (f_equal (join_with ".")) in E2. rewrite !join_split in E2.
  apply (f_equal action_from_str) in E2. rewrite !action_round_trip in E2. congruence.
Qed.

Lemma capability_to_string_short c : short (capability_to_string c).
Proof. destruct c as [[] []]; vm_compute; reflexivity. Qed.

Lemma put_capabilities_prefix l1 l2 x y :
  length l1 = length l2 ->
  (concat ((fun c => put_str (capability_to_string c)) <$> l1) ++ x)%list =
  (concat ((fun c => put_str (capability_to_string c)) <$> l2) ++ y)%list -> l1 = l2 /\ x = y.
Proof.
  revert l2. induction l1 as [|c1 l1 IH]; intros [|c2 l2] Hlen E; try discriminate; [done|].
  cbn [fmap list_fmap concat] in E. rewrite <- !app_assoc in E.
  apply put_str_prefix in E as [Ec E]; [|apply capability_to_string_short..].
  apply capability_to_string_inj in Ec as ->. apply IH in E as [-> ->]; [done|]. simpl in Hlen. lia.
Qed.

Definition all_capabilities : list Capability :=
  f ← all_families; a ← all_actions; [mkCapability f a].

Lemma capability_set_count l : Z.of_nat (length (capability_set l)) < 2 ^ 32.
Proof.
  assert (Hall : forall c, c ∈ all_capabilities).
  { intros [f a]. unfold all_capabilities. apply list_elem_of_bind. exists f. split.
    - apply list_elem_of_bind. exists a. split; [set_solver|]. destruct a; vm_compute; set_solver.
    - destruct f; vm_compute; set_solver. }
  assert (Hle : (length (capability_set l) <= length all_capabilities)%nat).
  { apply submseteq_length. apply NoDup_submseteq; [|by intros c _]. unfold capability_set.
    rewrite merge_sort_Permutation. apply NoDup_remove_dups. }
  assert (Hcount : (length all_capabilities <= 200)%nat) by (vm_compute; lia). change (2 ^ 32) with 4294967296. lia.
Qed.

Section Binding.
Context `{!Ext}.

(** What an approval is about: identifiers by their text, the capabilities as
    a set. *)
Definition approval_content (i : DigestInput) :=
  (uuid_hyphenated <$> i.(di_request_id), uuid_hyphenated i.(di_principal_id), uuid_hyphenated i.(di_actor_id),
   uuid_hyphenated <$> i.(di_run_id), i.(di_operation), i.(di_target), capability_set i.(di_capabilities),
   i.(di_extension_digest), i.(di_config_digest), i.(di_expiry_ms), i.(di_nonce)).

(** The expiry is an [i64] and no text is 4 GiB long. *)
Record bounded_input (i : DigestInput) : Prop := {
  bi_expiry : in_i64 i.(di_expiry_ms) = true;
  bi_ids : forall u, short (uuid_hyphenated u);
  bi_operation : short i.(di_operation);
  bi_target : short i.(di_target);
  bi_extension : forall s, i.(di_extension_digest) = Some s -> short s;
  bi_config : forall s, i.(di_config_digest) = Some s -> short s;
  bi_nonce : short i.(di_nonce) }.

Lemma fmap_short (f : N -> string) (o : option N) s : (forall u, short (f u)) -> f <$> o = Some s -> short s.
Proof. intros Hf. destruct o; [|done]. by intros [= <-]. Qed.

Lemma be_bytes_i64_inj a b :
  in_i64 a = true -> in_i64 b = true -> to_be_bytes 8 a = to_be_bytes 8 b -> a = b.
Proof.
  unfold in_i64, i64_min, i64_max. intros Ha%andb_prop Hb%andb_prop E%to_be_bytes_inj.
  destruct Ha as [Ha1%Z.leb_le Ha2%Z.leb_le], Hb as [Hb1%Z.leb_le Hb2%Z.leb_le].
  change (256 ^ Z.of_nat 8) with 18446744073709551616 in E.
  assert (Hshift : (a + 9223372036854775808) mod 18446744073709551616 =
                   (b + 9223372036854775808) mod 18446744073709551616).
  { by rewrite Zplus_mod, E, <- Zplus_mod. }
  rewrite !Z.mod_small in Hshift by lia. lia.
Qed.

Lemma digest_buffer_inj i1 i2 :
  bounded_input i1 -> bounded_input i2 -> digest_buffer i1 = digest_buffer i2 ->
  approval_content i1 = approval_content i2.
Proof.
  intros [E1 U1 O1 T1 X1 C1 N1] [E2 U2 O2 T2 X2 C2 N2] E. unfold digest_buffer in E. cbn zeta in E.
  apply put_optional_prefix in E as [Hreq E]; [|by intros s ?%fmap_short..].
  apply put_str_prefix in E as [Hpri E]; [|done..]. apply put_str_prefix in E as [Hact E]; [|done..].
  apply put_optional_prefix in E as [Hrun E]; [|by intros s ?%fmap_short..].
  apply put_str_prefix in E as [Hop E]; [|done..]. apply put_str_prefix in E as [Htgt E]; [|done..].
  apply app_inj_1 in E as [Hcnt%to_be_bytes_inj E]; [|by rewrite !to_be_bytes_length].
  change (256 ^ Z.of_nat 4) with (2 ^ 32) in Hcnt.
  rewrite !Z.mod_small in Hcnt by (split; [lia|apply capability_set_count]).
  apply put_capabilities_prefix in E as [Hcap E]; [|lia].
  apply put_optional_prefix in E as [Hext E]; [|done..]. apply put_optional_prefix in E as [Hcfg E]; [|done..].
  apply app_inj_1 in E as [Hexp%be_bytes_i64_inj E]; [|done..|by rewrite !to_be_bytes_length].
  rewrite <- (app_nil_r (put_str (di_nonce i1))), <- (app_nil_r (put_str (di_nonce i2))) in E.
  apply put_str_prefix in E as [Hnon _]; [|done..].
  unfold approval_content. congruence.
Qed.

(** An approval digest binds its content: two requests with one digest
    agree on every identifier, the operation, the target, the set of
    capabilities, both bundle digests, the expiry and the nonce, unless they
    are a collision of SHA-256. No pair of fields can be shifted into each
    other, because the framing is unambiguous. *)
Theorem approval_digest_binds_content i1 i2 :
  bounded_input i1 -> bounded_input i2 -> canonical_digest i1 = canonical_digest i2 ->
  approval_content i1 = approval_content i2 \/
  (digest_buffer i1 <> digest_buffer i2 /\ sha256 (digest_buffer i1) = sha256 (digest_buffer i2)).
Proof.
  intros H1 H2 E. unfold canonical_digest in E. injection E as E.
  destruct (decide (digest_buffer i1 = digest_buffer i2)) as [Hb|Hb]; [left|by right].
  by apply digest_buffer_inj.
Qed.
End Binding.

(** ** Stored requests keep their digest *)

Lemma capability_token_plain c :
  no_byte NEWLINE (capability_to_string c) = true /\ is_utf8 (capability_to_string c) = true.
Proof. destruct c as [[] []]; vm_compute; split; reflexivity. Qed.

Lemma encode_capabilities_nil l : encode_capabilities l = [] -> l = [].
Proof.
  destruct l as [|c l]; [done|]. unfold encode_capabilities. intros E. exfalso.
  apply (f_equal length) in E. rewrite into_bytes_length in E.
  assert (Hc : (0 < String.length (capability_to_string c))%nat) by (destruct c as [[] []]; vm_compute; lia).
  destruct l as [|c2 l].
  - cbn [fmap list_fmap join_with] in E. simpl length in E. lia.
  - rewrite fmap_cons, fmap_cons in E. cbn [join_with] in E. rewrite str_length_app in E. simpl length in E. lia.
Qed.

Lemma decode_encode_capabilities l :
  Forall (fun c => is_supported c = true) l -> decode_capabilities (encode_capabilities l) = Ok l.
Proof.
  intros Hl. unfold decode_capabilities. case_bool_decide as Hb; [by apply encode_capabilities_nil in Hb as ->|].
  assert (Hne : capability_to_string <$> l <> []) by (by destruct l).
  unfold encode_capabilities. rewrite from_into.
  2:{ apply is_utf8_join; [done|]. apply Forall_fmap, Forall_true. intros c. apply capability_token_plain. }
  cbn [ok_or res_bind]. rewrite split_join; [|done|].
  2:{ apply Forall_fmap, Forall_true. intros c. apply capability_token_plain. }
  clear Hb Hne. induction Hl as [|c l Hc Hl IH]; [done|]. cbn [fmap list_fmap res_collect].
  rewrite capability_round_trip by done. cbn [ok_or res_bind]. by rewrite IH.
Qed.

Section Stored.
Context `{!Ext}.

Lemma capability_set_supported l :
  forallb is_supported l = true -> Forall (fun c => is_supported c = true) (capability_set l).
Proof.
  intros Hl. apply List.Forall_forall. intros c Hc. apply list_elem_of_In in Hc.
  exact (proj1 (forallb_elem _ _) Hl c (proj1 (elem_of_capability_set c l) Hc)).
Qed.

Lemma created_row_digest id input now :
  forallb is_supported input.(di_capabilities) = true ->
  let canonical := canonical_input id input in
  persisted_digest (approval_row_of_new (new_approval_request id (canonical_digest canonical) canonical now))
    = Ok (canonical_digest canonical).
Proof.
  intros Hs canonical. unfold persisted_digest.
  assert (E : recompute_digest (approval_row_of_new (new_approval_request id (canonical_digest canonical) canonical now))
              = Ok (canonical_digest canonical)).
  { unfold recompute_digest. cbn -[decode_capabilities encode_capabilities canonical_digest].
    rewrite decode_encode_capabilities by (by apply capability_set_supported). cbn [res_bind].
    unfold canonical, canonical_input. do 2 f_equal. by destruct (di_target input). }
  rewrite E. cbn [res_bind]. by rewrite bool_decide_true.
Qed.
End Stored.

(** ** Outcomes *)

Lemma responses_of d id :
  ledger_inv d ->
  select_by responded_le (fun r => bool_decide (r.(ApprovalResponseRow.request_id) = id)) d.(approval_responses)
  = match d.(approval_responses) !! id with Some r => [r] | None => [] end.
Proof.
  intros [_ Hkey]. unfold select_by.
  assert (E : filter (fun kv => bool_decide (kv.2.(ApprovalResponseRow.request_id) = id) = true) d.(approval_responses)
    = match d.(approval_responses) !! id with Some r => {[ id := r ]} | None => ∅ end).
  { apply map_eq. intros k. apply option_eq. intros r.
    rewrite map_lookup_filter_Some. cbn [snd]. rewrite bool_decide_eq_true. split.
    - intros [Hk Hid]. destruct (Hkey _ _ Hk) as [Hk' _]. assert (k = id) as -> by congruence.
      rewrite Hk. apply lookup_singleton_eq.
    - destruct (approval_responses d !! id) as [r'|] eqn:Er; [|by rewrite lookup_empty].
      intros [<- <-]%lookup_singleton_Some. split; [done|]. by destruct (Hkey _ _ Er). }
  rewrite E. destruct (approval_responses d !! id) as [r|].
  - by rewrite map_to_list_singleton.
  - by rewrite map_to_list_empty.
Qed.

Section Outcomes.
Context `{!Ext}.

(** Reading the responses of a request. *)
Lemma list_responses_run d id t :
  t.(t_db) = d -> ledger_inv d ->
  (forall r, d.(approval_responses) !! id = Some r -> decode_approval_response r = Ok r) ->
  security_list_approval_responses id t =
    (Ok (match d.(approval_responses) !! id with Some r => [r] | None => [] end), t).
Proof.
  intros <- Hinv Hdec. unfold security_list_approval_responses, bind, query, gets.
  rewrite responses_of by done. unfold lift_res. f_equal.
  destruct (approval_responses (t_db t) !! id) as [r|]; [|done]. simpl. by rewrite Hdec.
Qed.

(** [is_satisfied] as a function of the two rows. *)
Lemma is_satisfied_run id expected now t row digest :
  ledger_inv t.(t_db) -> t.(t_db).(approval_requests) !! id = Some row -> persisted_digest row = Ok digest ->
  (forall r, t.(t_db).(approval_responses) !! id = Some r -> decode_approval_response r = Ok r) ->
  is_satisfied id expected now t =
    (if negb (bool_decide (expected = digest)) then ret Invalidated
     else match t.(t_db).(approval_responses) !! id with
     | Some response =>
         if negb (bool_decide (response.(ApprovalResponseRow.request_digest) = approval_digest_to_string digest))
         then ret Invalidated
         else if decide (response.(ApprovalResponseRow.decision) = "approve") then ret Approved
         else if decide (response.(ApprovalResponseRow.decision) = "deny") then ret Denied
         else raise (kerr Internal "approval response decision is not recognized")
     | None => ret (if row.(ApprovalRequestRow.expires_at_ms) <=? now then Expired else Pending)
     end) t.
Proof.
  intros Hinv Hrow Hdig Hdec. unfold is_satisfied, bind at 1, security_get_approval_request, query, gets.
  rewrite Hrow. unfold bind at 1, lift_res. rewrite Hdig. unfold bind.
  rewrite (list_responses_run _ id t eq_refl Hinv Hdec).
  destruct (negb _); [done|]. by destruct (approval_responses (t_db t) !! id).
Qed.

Lemma create_request_inv input now t id digest t' :
  create_request input now t = (Ok (id, digest), t') ->
  digest = canonical_digest (canonical_input id input) /\
  forallb is_supported input.(di_capabilities) = true /\
  t.(t_db).(approval_requests) !! id = None /\
  t'.(t_db).(approval_requests) !! id =
    Some (approval_row_of_new (new_approval_request id digest (canonical_input id input) now)) /\
  t'.(t_db).(approval_responses) = t.(t_db).(approval_responses).
Proof.
  intros E. unfold create_request in E. apply bind_ok_inv in E as (tx & t1 & [= <- <-] & E). cbn zeta in E.
  destruct (negb (trim_is_empty _)); [|done]. destruct (forallb _ _) eqn:Hs; [|done].
  apply bind_ok_inv in E as (u & t1 & Ei & E). apply bind_ok_inv in E as (u2 & t2 & Es & E).
  unfold ret in E. injection E as <- <- <-. destruct (stage_approval_event_touches _ _ _ _ _ _ _ Es) as [_ [x Hx]].
  unfold security_insert_approval_request in Ei. inv_store.
  rename select (absent _ _ = true) into Ha. apply absent_true in Ha.
  split; [done|]. split; [done|]. split; [exact Ha|]. rewrite Hx. cbn. split; [apply lookup_insert_eq|done].
Qed.

(** A new approval request is undecided: for its own digest it answers
    pending until its expiry and expired from then on, for any other digest it
    answers invalidated, and the digest recomputed from the stored columns is
    the one that was returned. *)
Theorem created_approval_is_pending input now t id digest t' :
  kernel_inv t.(t_db) -> create_request input now t = (Ok (id, digest), t') ->
  forall expected later, is_satisfied id expected later t' =
    (Ok (if decide (expected = digest)
         then (if input.(di_expiry_ms) <=? later then Expired else Pending) else Invalidated), t').
Proof.
  intros Hinv E expected later. pose proof (create_request_kernel _ _ _ _ _ E) as [Hk _].
  pose proof (ki_ledger _ (kernel_rel_inv _ _ Hk Hinv)) as Hl'.
  apply create_request_inv in E as (-> & Hs & Ha & Hrow & Hresp).
  assert (Hnone : t'.(t_db).(approval_responses) !! id = None).
  { rewrite Hresp. apply eq_None_not_Some. intros [r Hr].
    destruct (li_response _ (ki_ledger _ Hinv) _ _ Hr) as [_ [x Hx]]. congruence. }
  erewrite is_satisfied_run; [|done|exact Hrow|by apply created_row_digest|by rewrite Hnone].
  rewrite Hnone. case_bool_decide as Hd; cbn [negb]; [rewrite decide_True by done|rewrite decide_False by done]; done.
Qed.
End Outcomes.

Section Resolution.
Context `{!Ext}.

Lemma respond_inv id digest decision responder now t u t' :
  ledger_inv t.(t_db) -> respond id digest decision responder now t = (Ok u, t') ->
  exists row device, t.(t_db).(approval_requests) !! id = Some row /\ persisted_digest row = Ok digest /\
    now < row.(ApprovalRequestRow.expires_at_ms) /\
    responder = mkResponder row.(ApprovalRequestRow.principal_id) (Some device) /\
    t.(t_db).(approval_responses) !! id = None /\
    t'.(t_db).(approval_requests) = t.(t_db).(approval_requests) /\
    t'.(t_db).(approval_responses) !! id = Some (ApprovalResponseRow.mk id (approval_digest_to_string digest)
      (decision_as_str decision) device row.(ApprovalRequestRow.principal_id) now).
Proof.
  intros Hinv E. unfold respond in E.
  apply bind_ok_inv in E as (got & t1 & [= <- <-] & E).
  apply bind_ok_inv in E as (row & t1 & Er & E). apply pair_ok_inv in Er as [Er%ok_or_ok <-].
  apply bind_ok_inv in E as (persisted & t1 & Ed & E). apply pair_ok_inv in Ed as [Ed <-].
  case_bool_decide as Hd; [|done]. subst persisted.
  destruct (Z.ltb_spec now row.(ApprovalRequestRow.expires_at_ms)) as [Hx|]; [|done].
  apply bind_ok_inv in E as (responses & t1 & El & E).
  unfold security_list_approval_responses in El. apply bind_ok_inv in El as (rows & t2 & [= <- <-] & El).
  rewrite responses_of in El by done. apply pair_ok_inv in El as [El <-].
  case_bool_decide as Hn; [|done]. subst responses. case_bool_decide as Hp; [|done].
  apply bind_ok_inv in E as (device & t1 & Ev & E). apply pair_ok_inv in Ev as [Ev%ok_or_ok <-].
  apply bind_ok_inv in E as (u1 & t1 & Ei & E). unfold stage_approval_resolved in E.
  apply bind_ok_inv in E as (ev & t2 & Eu & E). injection Eu as _ <-.
  destruct (stage_approval_event_touches _ _ _ _ _ _ _ E) as [_ [x Hs]].
  unfold security_insert_approval_response in Ei. inv_store. rename select (absent _ _ = true) into Ha.
  apply absent_true in Ha. exists row, device. rewrite Hs. cbn.
  destruct responder as [p o]. cbn in *. subst. rewrite lookup_insert_eq. done.
Qed.

Lemma decision_decodes id text decision device p now :
  let r := ApprovalResponseRow.mk id text (decision_as_str decision) device p now in
  decode_approval_response r = Ok r.
Proof. by destruct decision. Qed.

(** C26: An approval is decided at most once, by its own principal, before it
    expires, and for the content that was asked: a response is accepted only
    with the digest recomputed from the stored request, and from then on,
    whatever the kernel does, the request resolves to that decision at any
    time and every further response is refused. *)
Theorem approval_decided_once id digest decision responder now t u t' :
  kernel_inv t.(t_db) -> respond id digest decision responder now t = (Ok u, t') ->
  (exists row, t.(t_db).(approval_requests) !! id = Some row /\ persisted_digest row = Ok digest /\
     now < row.(ApprovalRequestRow.expires_at_ms) /\
     responder.(rs_principal_id) = row.(ApprovalRequestRow.principal_id) /\ is_Some responder.(rs_device_id)) /\
  forall t2, kernel_rel t'.(t_db) t2.(t_db) ->
    (forall later, is_satisfied id digest later t2 =
       (Ok (match decision with Approve => Approved | DenyApproval => Denied end), t2)) /\
    (forall digest2 decision2 responder2 now2,
       is_ok (fst (respond id digest2 decision2 responder2 now2 t2)) = false).
Proof.
  intros Hinv E. pose proof (respond_kernel _ _ _ _ _ _ _ _ E) as [Hk _].
  apply respond_inv in E as (row & device & Hrow & Hd & Hx & -> & Hn & Hreq & Hresp); [|apply Hinv].
  split; [by exists row|]. intros t2 Hrel.
  pose proof (ki_ledger _ (kernel_rel_inv _ _ Hrel (kernel_rel_inv _ _ Hk Hinv))) as Hl2.
  pose proof (proj1 (kr_ledger _ _ Hrel)) as Hg. rewrite <- Hreq in Hrow.
  pose proof (lookup_weaken _ _ _ _ Hrow (lg_approvals _ _ Hg)) as Hrow2.
  pose proof (lookup_weaken _ _ _ _ Hresp (lg_responses _ _ Hg)) as Hresp2. split.
  - intros later. erewrite is_satisfied_run; [|done|exact Hrow2|exact Hd|].
    2:{ rewrite Hresp2. intros r [= <-]. apply decision_decodes. }
    rewrite Hresp2, !bool_decide_true by done. cbn. by destruct decision.
  - intros digest2 decision2 responder2 now2.
    destruct (respond id digest2 decision2 responder2 now2 t2) as [[u2|e] t3] eqn:E2; [|done].
    apply respond_inv in E2 as (? & ? & _ & _ & _ & _ & Hn2 & _); [congruence|done].
Qed.
End Resolution.
