(* ===== verification/Recovery.v ===== *)
(** * Startup recovery and the resolution of unknown effects

    [runtime/src/recovery.rs]: the recovery matrix, the classification of a run
    from its stored effects, timers, environment, dependencies and approvals,
    and [reconstruct], which persists every changed disposition.
    [runtime/src/effect_recovery.rs]: the [ResolveUnknownEffect] command with
    its permission and approval gates. *)

From S2P Require Import Prelude Domain Ids Text Models StoreBase Store SecurityStore Ledger Identity Permissions.
From S2P Require Import Events Runs RunGraph EffectPolicy Effects Scheduler Resources Kernel RunServices Coordinator.
From S2P Require Import Approvals.

Open Scope string_scope.
Open Scope Z_scope.

(** ** The matrix *)

Inductive RecoveryClass :=
  | ClassNone | ClassPrepared | ClassClaimed | ClassAcknowledged
  | ClassDispatchedSafe | ClassDispatchedUnsafe | ClassUnknown.

#[export] Instance EffectClass_eq_dec : EqDecision RecoveryClass.
Proof. solve_decision. Defined.

Definition precedence (c : RecoveryClass) : Z :=
  match c with
  | ClassNone => 0
  | ClassPrepared => 1
  | ClassAcknowledged => 2
  | ClassClaimed => 3
  | ClassDispatchedSafe => 4
  | ClassDispatchedUnsafe => 5
  | ClassUnknown => 6
  end.

Definition is_ordinary (c : RecoveryClass) : bool :=
  match c with ClassNone | ClassPrepared | ClassClaimed | ClassAcknowledged => true | _ => false end.

(** A dispatched effect that can be neither reconciled nor safely retried. *)
Definition dispatched_is_unsafe (effect : EffectRow) : bool :=
  bool_decide (effect.(EffectRow.reconciliation_semantics) ∈
    [ReconciliationSemantics.Impossible; ReconciliationSemantics.UnknownReconciliation]) &&
  bool_decide (effect.(EffectRow.idempotency_semantics) ∈
    [IdempotencySemantics.NotIdempotent; IdempotencySemantics.UnknownIdempotency]).

(** The class one effect contributes: an error, nothing, or a class. *)
Definition class_of (effect : EffectRow) : option (option RecoveryClass) :=
  match effect.(EffectRow.state) with
  | EffectState.Unspecified => None
  | EffectState.Prepared => Some (Some ClassPrepared)
  | EffectState.Claimed => Some (Some ClassClaimed)
  | EffectState.Acknowledged => Some (Some ClassAcknowledged)
  | EffectState.Dispatched =>
      Some (Some (if dispatched_is_unsafe effect then ClassDispatchedUnsafe else ClassDispatchedSafe))
  | EffectState.Unknown => Some (Some ClassUnknown)
  | EffectState.Committed | EffectState.Failed | EffectState.Cancelled => Some None
  end.

Fixpoint aggregate_from (class : RecoveryClass) (effects : list EffectRow) : option RecoveryClass :=
  match effects with
  | [] => Some class
  | effect :: effects =>
      match class_of effect with
      | None => None
      | Some None => aggregate_from class effects
      | Some (Some next) =>
          aggregate_from (if precedence class <? precedence next then next else class) effects
      end
  end.

Definition aggregate (effects : list EffectRow) : option RecoveryClass := aggregate_from ClassNone effects.

Definition matrix (run_state : RunState) (class : RecoveryClass) : option RecoveryDisposition :=
  match run_state, class with
  | (RunState.Created | RunState.Ready), ClassNone => Some RecoveryDisposition.Normal
  | RunState.Running, ClassNone => Some RecoveryDisposition.Recovering
  | RunState.WaitingTool, ClassNone => Some RecoveryDisposition.Normal
  | RunState.WaitingChild, ClassNone => Some RecoveryDisposition.Normal
  | RunState.WaitingHuman, ClassNone => Some RecoveryDisposition.Normal
  | RunState.Suspended,
      (ClassNone | ClassPrepared | ClassClaimed | ClassAcknowledged | ClassDispatchedSafe) =>
      Some RecoveryDisposition.RequiresHumanDecision
  | (RunState.Running | RunState.WaitingTool), ClassPrepared => Some RecoveryDisposition.Normal
  | (RunState.Running | RunState.WaitingTool | RunState.Cancelling), (ClassClaimed | ClassAcknowledged) =>
      Some RecoveryDisposition.Recovering
  | (RunState.Running | RunState.WaitingTool | RunState.Cancelling), ClassDispatchedSafe =>
      Some RecoveryDisposition.NeedsReconciliation
  | (RunState.Running | RunState.WaitingTool | RunState.Cancelling | RunState.Suspended),
      (ClassDispatchedUnsafe | ClassUnknown) => Some RecoveryDisposition.BlockedUnknownEffect
  | RunState.Cancelling, (ClassNone | ClassPrepared) => Some RecoveryDisposition.Recovering
  | _, _ => None
  end.

(** Matrix D. *)
Definition missing_resource (run : RunRow) (effects : list EffectRow)
    (environment : option ResolvedEnvironmentRow) (bindings : list ResolvedBindingRow) : bool :=
  bool_decide (run.(RunRow.state) ∈
    [RunState.Running; RunState.WaitingTool; RunState.Cancelling; RunState.Suspended]) &&
  existsb (fun effect =>
    bool_decide (effect.(EffectRow.state) ∈ [EffectState.Prepared; EffectState.Claimed]) &&
    match environment with
    | None => true
    | Some environment =>
        negb (bool_decide (environment.(ResolvedEnvironmentRow.run_id) = run.(RunRow.run_id))) ||
        negb (existsb (fun binding =>
          bool_decide (binding.(ResolvedBindingRow.adapter_id) = effect.(EffectRow.adapter_id)) &&
          bool_decide (binding.(ResolvedBindingRow.adapter_version) = effect.(EffectRow.adapter_version)) &&
          bool_decide (binding.(ResolvedBindingRow.adapter_digest) = effect.(EffectRow.adapter_digest))) bindings)
    end) effects.

Definition is_stale_claimed_timer (daemon_epoch : Z) (timer : TimerRow) : bool :=
  bool_decide (timer.(TimerRow.state) = TimerState.Claimed) &&
  negb (bool_decide (timer.(TimerRow.claim_daemon_epoch) = Some daemon_epoch)).

(** [Iterator::max_by_key] over [(created_at_ms, request_id)]: the last greatest. *)
Definition latest_approval (rows : list ApprovalRequestRow) : option ApprovalRequestRow :=
  fold_left (fun best row =>
    match best with
    | None => Some row
    | Some b =>
        if decide (approval_le (b.(ApprovalRequestRow.request_id), b) (row.(ApprovalRequestRow.request_id), row))
        then Some row else Some b
    end) rows None.

(** The loop over the edges into the waiting run: [None] when no edge names it. *)
Fixpoint declared_conditions (run : RunId) (runs : list RunRow) (declared : bool)
    (dependencies : list RunDependencyRow) : Res (option bool) :=
  match dependencies with
  | [] => Ok (if declared then Some true else None)
  | dependency :: dependencies =>
      if bool_decide (dependency.(RunDependencyRow.target_run_id) = run) then
        let? source := ok_or (List.find (fun row =>
            bool_decide (row.(RunRow.run_id) = dependency.(RunDependencyRow.source_run_id))) runs)
          (kerr Internal "waiting-child dependency source is missing") in
        if condition_met dependency.(RunDependencyRow.dependency_condition) source.(RunRow.state)
        then declared_conditions run runs true dependencies
        else Ok (Some false)
      else declared_conditions run runs declared dependencies
  end.

(** ** Classification *)

Section Classification.
Context `{!Ext}.

Definition unmapped (run : RunRow) (effect : option EffectRow) : KernelError :=
  kerr Internal ("unmapped recovery combination: run " +:+ uuid_hyphenated run.(RunRow.run_id) +:+
    " state " +:+ u64_to_string (RunState_to_wire run.(RunRow.state)) +:+
    match effect with
    | Some effect => " with effect " +:+ uuid_hyphenated effect.(EffectRow.effect_id) +:+ " state " +:+
        u64_to_string (EffectState_to_wire effect.(EffectRow.state))
    | None => ""
    end).

Definition latest_approval_expired (run : RunId) (now_ms : Z) : M bool :=
  let! approvals := security_list_approvals_by_run run in
  ret (match latest_approval approvals with
       | None => false
       | Some latest => latest.(ApprovalRequestRow.expires_at_ms) <=? now_ms
       end).

(** [EnvironmentRead::get_environment]. *)
Definition environments_get (id : EnvironmentId) : M (option ResolvedEnvironmentRow) :=
  query (fun d => d.(environments) !! id).

Definition load_frozen_environment (run : RunRow)
    : M (option ResolvedEnvironmentRow * list ResolvedBindingRow) :=
  match run.(RunRow.resolved_environment_id) with
  | None => ret (None, [])
  | Some environment_id =>
      let! environment := environments_get environment_id in
      match environment with
      | None => ret (None, [])
      | Some environment =>
          let! bindings := environments_get_bindings environment_id in
          ret (Some environment, bindings)
      end
  end.

Definition waiting_child_advanced (run : RunRow) : M bool :=
  let! runs := runs_list_by_task run.(RunRow.task_id) in
  let! dependencies := graph_list_dependencies run.(RunRow.task_id) in
  let! verdict := lift_res (declared_conditions run.(RunRow.run_id) runs false dependencies) in
  ret (match verdict with
       | Some verdict => verdict
       | None => forallb (fun child => run_is_terminal child.(RunRow.state))
           (List.filter (fun row => bool_decide (row.(RunRow.parent_run_id) = Some run.(RunRow.run_id))) runs)
       end).

Definition classify_run (run : RunRow) (effects : list EffectRow) (timers : list TimerRow)
    (daemon_epoch now_ms : Z) : M RecoveryDisposition :=
  match aggregate effects with
  | None => raise (unmapped run
      (List.find (fun e => bool_decide (e.(EffectRow.state) = EffectState.Unspecified)) effects))
  | Some class =>
  match matrix run.(RunRow.state) class with
  | None => raise (unmapped run (List.find (fun e => effect_is_in_flight e.(EffectRow.state)) effects))
  | Some disposition =>
      let! disposition :=
        (if is_ordinary class then
           let! frozen := load_frozen_environment run in
           ret (if missing_resource run effects frozen.1 frozen.2
                then RecoveryDisposition.BlockedMissingResource else disposition)
         else ret disposition) in
      let! disposition :=
        (if bool_decide (run.(RunRow.state) = RunState.WaitingChild) && bool_decide (class = ClassNone) then
           let! advanced := waiting_child_advanced run in
           ret (if advanced : bool then RecoveryDisposition.Recovering else RecoveryDisposition.Normal)
         else ret disposition) in
      let! disposition :=
        (if bool_decide (run.(RunRow.state) = RunState.WaitingHuman) && bool_decide (class = ClassNone) then
           let! expired := latest_approval_expired run.(RunRow.run_id) now_ms in
           ret (if expired : bool then RecoveryDisposition.RequiresHumanDecision else disposition)
         else ret disposition) in
      ret (if bool_decide (disposition = RecoveryDisposition.Normal) &&
              existsb (is_stale_claimed_timer daemon_epoch) timers
           then RecoveryDisposition.Recovering else disposition)
  end end.

(** [recovery::reclassify]. *)
Definition reclassify (run : RunRow) (now_ms : Z) : M RecoveryDisposition :=
  let! effects := effects_list_by_run run.(RunRow.run_id) in
  let! timers := timers_list_by_run run.(RunRow.run_id) in
  let! tx := txn_context in
  classify_run run effects timers tx.(ctx_daemon_epoch) now_ms.

(** ** Persisting dispositions *)

Definition disposition_patch (disposition : RecoveryDisposition) : RunPatch := {|
  RunPatch.state := None;
  RunPatch.recovery := Some disposition;
  RunPatch.loop_epoch := None;
  RunPatch.step_sequence := None;
  RunPatch.input_event_cursor := None;
  RunPatch.cancellation_epoch := None;
  RunPatch.resolved_environment_id := None;
  RunPatch.claim := None;
  RunPatch.terminal_reason := None;
  RunPatch.output_ref := None;
  RunPatch.current_turn_id := None;
  RunPatch.bump_revision := true |}.

Definition persist_disposition_change (run : RunRow) (disposition : RecoveryDisposition)
    (event_id : EventId) : M unit :=
  let! updated := runs_cas_update run.(RunRow.run_id)
    (RunCas.mk run.(RunRow.run_revision) (Some run.(RunRow.state)) None) (disposition_patch disposition) in
  guard! updated else kerr Conflict "run changed while its recovery disposition was applied" in
  let! got := runs_get run.(RunRow.run_id) in
  let! current := lift_res (ok_or got (kerr Internal "run vanished during recovery disposition write")) in
  let! stream := lift_res (stream_run run.(RunRow.run_id)) in
  do! stage_catalogued event_id "RunRecoveryDispositionChanged" stream
        (encode_to_vec (MsgAgentRun (run_payload current))) None None in
  ret tt.

Definition mark_unsafe_dispatched (run : RunId) (env : EffectEnv) : M unit :=
  let! effects := effects_list_by_run run in
  for_each effects (fun effect =>
    if bool_decide (effect.(EffectRow.state) = EffectState.Dispatched) && dispatched_is_unsafe effect
    then do! mark_unknown env effect.(EffectRow.effect_id) None in ret tt
    else ret tt).

(** ** [reconstruct] *)

Record RecoveryReport := mkRecoveryReport {
  rr_examined : nat; rr_dispositions : list (RunId * RecoveryDisposition) }.

(** The read pass: the disposition of every active run. *)
Definition plan_recovery (epoch now_ms : Z) : M (list (RunRow * RecoveryDisposition)) :=
  let! runs := runs_list_active in
  collect_each runs (fun run =>
    let! effects := effects_list_by_run run.(RunRow.run_id) in
    let! timers := timers_list_by_run run.(RunRow.run_id) in
    let! disposition := classify_run run effects timers epoch now_ms in
    ret (run, disposition)).

Definition changed_only (planned : list (RunRow * RecoveryDisposition)) : list (RunRow * RecoveryDisposition) :=
  List.filter (fun p => negb (bool_decide (p.1.(RunRow.recovery) = p.2))) planned.

(** The write pass, inside its transaction. *)
Definition apply_recovery (env : EffectEnv) (changed : list (RunRow * RecoveryDisposition)) : M unit :=
  for_each changed (fun p =>
    do! (if bool_decide (p.2 = RecoveryDisposition.BlockedUnknownEffect)
         then mark_unsafe_dispatched p.1.(RunRow.run_id) env else ret tt) in
    let! event_id := draw_uuid in
    persist_disposition_change p.1 p.2 event_id).

Definition recovery_report (planned : list (RunRow * RecoveryDisposition)) : RecoveryReport :=
  mkRecoveryReport (length planned) ((fun p => (p.1.(RunRow.run_id), p.2)) <$> planned).

Definition no_fence : KernelError := kerr FailedPrecondition "startup recovery requires an acquired daemon fence".

Definition reconstruct : ST World RecoveryReport := fun w =>
  match w.(w_db).(daemon_fence) with
  | None => (Err no_fence, w)
  | Some fence =>
      let now_ms := clock_ms w.(w_clock) in
      let w := tick w in
      let system := mkTxContext fence.(fence_epoch) (new_uuid_v7 w.(w_ids)) (new_uuid_v7 (S w.(w_ids))) None in
      match plan_recovery fence.(fence_epoch) now_ms (mkTxn w.(w_db) system w.(w_ids) w.(w_clock)) with
      | (Err e, _) => (Err e, w)
      | (Ok planned, _) =>
          match changed_only planned with
          | [] => (Ok (recovery_report planned), w)
          | changed =>
              let w := mkWorld w.(w_db) (S (S w.(w_ids))) w.(w_clock) in
              match with_write_txn system (apply_recovery (mkEffectEnv None None) changed) w with
              | (Err e, w) => (Err e, w)
              | (Ok _, w) => (Ok (recovery_report planned), w)
              end
          end
      end
  end.
End Classification.

(** ** [ResolveUnknownEffect] ([effect_recovery.rs]) *)

Definition CMD_RESOLVE_UNKNOWN_EFFECT : string := "agentos.spec.v1.ResolveUnknownEffect".
Definition RESOLVE_OPERATION : string := "effect.resolve_unknown".
Definition RETRY_ACTION : string := "retry_accepting_duplicate_risk".

Record ResolveUnknownEffectMsg := mkResolveUnknownEffectMsg {
  ru_effect_id : string; ru_action : string; ru_expected_effect_state : Z;
  ru_approval_request_id : string; ru_result_ref : string; ru_reason : string }.

Class RecoveryContracts := { decode_resolve_unknown_effect : bytes -> option ResolveUnknownEffectMsg }.

Definition needs_approval : KernelError :=
  kerr FailedPrecondition "ResolveUnknownEffect requires an approved approval request for this run".

(** The text of an unknown action is quoted as it is. *)
Definition unknown_action (action : string) : KernelError :=
  kerr InvalidArgument ("unknown ResolveUnknownEffect action " +:+
    String "034" (action +:+ String "034" EmptyString)).

Definition resolve_capability : Capability := mkCapability CapabilityFamily.Effect CapabilityAction.ResolveUnknown.

Section EffectRecovery.
Context `{!Ext}.

Definition verify_approval (row : EffectRow) (request : ResolveUnknownEffectMsg) : M unit :=
  let! given := lift_res (optional_id "approval_request_id" request.(ru_approval_request_id)) in
  let! approval_id := lift_res (ok_or given needs_approval) in
  let! got := security_get_approval_request approval_id in
  let! approval := lift_res (ok_or got needs_approval) in
  let! now_ms := now_unix_ms in
  guard! bool_decide (approval.(ApprovalRequestRow.state) = ApprovalState.Approved) &&
         bool_decide (approval.(ApprovalRequestRow.operation) = RESOLVE_OPERATION +:+ ":" +:+ request.(ru_action)) &&
         bool_decide (approval.(ApprovalRequestRow.run_id) = Some row.(EffectRow.run_id)) &&
         bool_decide (approval.(ApprovalRequestRow.target_resource) =
                      Some (uuid_hyphenated row.(EffectRow.effect_id))) &&
         (now_ms <? approval.(ApprovalRequestRow.expires_at_ms))
    else needs_approval in
  ret tt.

(** [ResolveUnknownEffectHandler::load_chain]. *)
Definition load_caller_chain (ctx : CommandContext) : M DelegationChain :=
  match ctx.(cc_delegation_chain_id) with
  | Some chain_id => load_chain chain_id
  | None => raise (kerr FailedPrecondition "ResolveUnknownEffect requires a delegation chain")
  end.

Definition authorize (ctx : CommandContext) (row : EffectRow) (request : ResolveUnknownEffectMsg) : M unit :=
  let! chain := load_caller_chain ctx in
  let! grant_scopes := load_grant_scopes (concat (hop_grant_ids <$> chain.(hops))) in
  let! now_ms := now_unix_ms in
  match evaluate (mkPermissionRequest ctx.(cc_principal_id) ctx.(cc_actor_id) (Some row.(EffectRow.run_id))
          chain grant_scopes None resolve_capability TargetNone None None now_ms) with
  | Allow _ => if decide (request.(ru_action) = RETRY_ACTION) then verify_approval row request else ret tt
  | RequireApproval _ => verify_approval row request
  | Deny reason => raise (kerr FailedPrecondition
      ("ResolveUnknownEffect denied by policy: " +:+ deny_reason_as_str reason))
  end.

(** The owning run's disposition, recomputed after the resolution. *)
Definition refresh_disposition (run : RunRow) : M unit :=
  if run_is_terminal run.(RunRow.state) then ret tt
  else
  let! now_ms := now_unix_ms in
  let! disposition := reclassify run now_ms in
  if bool_decide (disposition = run.(RunRow.recovery)) then ret tt
  else
  let! event_id := draw_uuid in
  persist_disposition_change run disposition event_id.

Context `{!RecoveryContracts}.

Definition resolve_unknown_effect_handle (ctx : CommandContext) (payload : bytes) : M CommandOutcome :=
  let! request := lift_res (decode_contract decode_resolve_unknown_effect "ResolveUnknownEffect" payload) in
  let! effect_id := lift_res (required_id "effect_id" request.(ru_effect_id)) in
  let! resolution := lift_res (ok_or (resolution_parse request.(ru_action)) (unknown_action request.(ru_action))) in
  let! got := effects_get effect_id in
  let! row := lift_res (ok_or got (kerr NotFound "effect does not exist")) in
  let! expected := lift_res (match EffectState_from_wire request.(ru_expected_effect_state) with
    | inl s => Ok s
    | inr _ => Err (kerr InvalidArgument "expected_effect_state is not a canonical effect state")
    end) in
  guard! bool_decide (row.(EffectRow.state) = expected)
    else kerr Conflict "expected_effect_state does not match the persisted state" in
  guard! bool_decide (row.(EffectRow.state) = EffectState.Unknown)
    else kerr FailedPrecondition "only an Unknown effect may be resolved" in
  do! authorize ctx row request in
  let! row := apply_resolution (mkEffectEnv ctx.(cc_correlation_id) None) effect_id resolution
    (optional_text request.(ru_result_ref)) request.(ru_reason) in
  let! got := runs_get row.(EffectRow.run_id) in
  let! run := lift_res (ok_or got (kerr Internal "owning run vanished during effect resolution")) in
  do! refresh_disposition run in
  ret (outcome_id row.(EffectRow.effect_id)).
End EffectRecovery.

(** ** The services keep the kernel relation *)


(** ** The services keep the kernel relation *)

Section RecoveryRelations.
Context `{!Ext}.

Lemma disposition_patch_sound rev st d : sound_patch (RunCas.mk rev st None) (disposition_patch d).
Proof. split; [done|]. intros r _. by apply apply_run_patch_evolves. Qed.

Lemma stage_catalogued_kernel id ty stream payload corr caus :
  ensures (on_db kernel_rel) (stage_catalogued id ty stream payload corr caus).
Proof. solve_kernel. Qed.
Hint Resolve stage_catalogued_kernel : ensures.

Lemma persist_disposition_change_kernel run d id :
  ensures (on_db kernel_rel) (persist_disposition_change run d id).
Proof.
  unfold persist_disposition_change.
  apply ensures_bind; [apply _|apply runs_cas_update_kernel, disposition_patch_sound|]. intros b. solve_ensures.
Qed.
Hint Resolve persist_disposition_change_kernel : ensures.

Lemma mark_unsafe_dispatched_kernel run env : ensures (on_db kernel_rel) (mark_unsafe_dispatched run env).
Proof. unfold mark_unsafe_dispatched, mark_unknown. solve_ensures. Qed.
Hint Resolve mark_unsafe_dispatched_kernel : ensures.

Lemma apply_recovery_kernel env l : ensures (on_db kernel_rel) (apply_recovery env l).
Proof. unfold apply_recovery. solve_ensures. Qed.

Lemma classify_run_kernel run effects timers epoch now :
  ensures (on_db kernel_rel) (classify_run run effects timers epoch now).
Proof.
  unfold classify_run, load_frozen_environment, environments_get, waiting_child_advanced, latest_approval_expired.
  solve_ensures.
Qed.
Hint Resolve classify_run_kernel : ensures.

Lemma plan_recovery_kernel epoch now : ensures (on_db kernel_rel) (plan_recovery epoch now).
Proof. unfold plan_recovery. solve_ensures. Qed.
Lemma reclassify_kernel run now : ensures (on_db kernel_rel) (reclassify run now).
Proof. unfold reclassify. solve_ensures. Qed.
Hint Resolve reclassify_kernel : ensures.

Lemma authorize_kernel ctx row request : ensures (on_db kernel_rel) (authorize ctx row request).
Proof.
  unfold authorize, load_caller_chain, load_chain, load_hop, grant_capabilities, load_grant_scopes, verify_approval.
  solve_ensures.
Qed.
Hint Resolve authorize_kernel : ensures.

#[export] Instance resolve_unknown_effect_handler `{!RecoveryContracts} :
  KernelHandler resolve_unknown_effect_handle.
Proof. intros ctx payload. unfold resolve_unknown_effect_handle, refresh_disposition. solve_ensures. Qed.
End RecoveryRelations.

(** ** Classification is safe *)

(** An effect whose outcome nobody can establish. *)
Definition outcome_unknown (e : EffectRow) : Prop :=
  e.(EffectRow.state) = EffectState.Unknown \/
  (e.(EffectRow.state) = EffectState.Dispatched /\ dispatched_is_unsafe e = true).

(** The weight one effect has in the aggregate. *)
Definition weight (e : EffectRow) : Z := from_option (from_option precedence 0) 0 (class_of e).

Lemma aggregate_from_spec c effects c' :
  aggregate_from c effects = Some c' ->
  precedence c <= precedence c' /\
  (forall e, e ∈ effects -> is_Some (class_of e) /\ weight e <= precedence c') /\
  (c' = c \/ exists e, e ∈ effects /\ class_of e = Some (Some c')).
Proof.
  revert c. induction effects as [|e effects IH]; intros c E; simpl in E.
  { injection E as <-. split; [lia|]. split; [by intros ? ?%elem_of_nil|by left]. }
  assert (Hw : weight e = from_option (from_option precedence 0) 0 (class_of e)) by done.
  destruct (class_of e) as [[next|]|] eqn:Ec; [| |done]; apply IH in E as (Hle & Hall & Hex).
  - assert (Hc : precedence c <= precedence c' /\ precedence next <= precedence c').
    { destruct (Z.ltb_spec (precedence c) (precedence next)); lia. }
    split; [lia|]. split.
    + intros x [->|Hx]%elem_of_cons; [|by apply Hall]. rewrite Hw, Ec. split; [by eexists|simpl; lia].
    + destruct Hex as [->|(x & Hx & Hcx)]; [|right; exists x; set_solver].
      destruct (precedence c <? precedence next); [right; exists e; set_solver|by left].
  - split; [done|]. split.
    + intros x [->|Hx]%elem_of_cons; [|by apply Hall]. rewrite Hw, Ec. split; [by eexists|].
      simpl. destruct c'; simpl; lia.
    + destruct Hex as [->|(x & Hx & Hcx)]; [by left|right; exists x; set_solver].
Qed.

Lemma outcome_unknown_weight e : is_Some (class_of e) -> outcome_unknown e <-> 5 <= weight e.
Proof.
  unfold outcome_unknown, weight, class_of. intros [o Ho].
  destruct e.(EffectRow.state); simpl in *; try done; try (split; [intros [?|[? ?]]; discriminate|lia]).
  - destruct (dispatched_is_unsafe e); simpl; split; [lia|by right|intros [?|[_ ?]]; discriminate|lia].
  - split; [lia|by left].
Qed.

Lemma matrix_blocked s c d :
  matrix s c = Some d -> d = RecoveryDisposition.BlockedUnknownEffect <-> 5 <= precedence c.
Proof. destruct s, c; simpl; intros [= <-]; split; (discriminate || lia || done). Qed.

Lemma matrix_normal s c : matrix s c = Some RecoveryDisposition.Normal -> precedence c <= 1.
Proof. destruct s, c; simpl; intros [=]; lia. Qed.

Lemma ordinary_weight c : is_ordinary c = true -> precedence c <= 3.
Proof. destruct c; simpl; intros [=]; lia. Qed.

Section Safety.
Context `{!Ext}.

(** How the refinements of [classify_run] can move the matrix disposition. *)
Lemma classify_run_inv run effects timers epoch now t d t' :
  classify_run run effects timers epoch now t = (Ok d, t') ->
  exists c d0, aggregate effects = Some c /\ matrix run.(RunRow.state) c = Some d0 /\
    (d = d0 \/ (d = RecoveryDisposition.BlockedMissingResource /\ precedence c <= 3) \/
     ((d = RecoveryDisposition.Recovering \/ d = RecoveryDisposition.Normal \/
       d = RecoveryDisposition.RequiresHumanDecision) /\ c = ClassNone) \/
     (d = RecoveryDisposition.Recovering /\ precedence c <= 1)).
Proof.
  unfold classify_run. intros E.
  destruct (aggregate effects) as [c|]; [|done]. destruct (matrix _ c) as [d0|] eqn:Hm; [|done].
  exists c, d0. split; [done|]. split; [done|].
  apply bind_ok_inv in E as (d1 & t1 & E1 & E). apply bind_ok_inv in E as (d2 & t2 & E2 & E).
  apply bind_ok_inv in E as (d3 & t3 & E3 & E). unfold ret in E. injection E as <- _.
  assert (H1 : d1 = d0 \/ (d1 = RecoveryDisposition.BlockedMissingResource /\ precedence c <= 3)).
  { destruct (is_ordinary c) eqn:Ho; [|injection E1 as <- _; by left].
    apply bind_ok_inv in E1 as (f & t4 & _ & E1). unfold ret in E1. injection E1 as <- _.
    destruct (missing_resource _ _ _ _); [right; split; [done|by apply ordinary_weight]|by left]. }
  assert (H2 : d2 = d1 \/ ((d2 = RecoveryDisposition.Recovering \/ d2 = RecoveryDisposition.Normal) /\ c = ClassNone)).
  { destruct (bool_decide (RunRow.state run = RunState.WaitingChild)), (bool_decide_reflect (c = ClassNone)); simpl in E2;
      try (injection E2 as <- _; by left).
    apply bind_ok_inv in E2 as (f & t4 & _ & E2). unfold ret in E2. injection E2 as <- _. destruct f; tauto. }
  assert (H3 : d3 = d2 \/ (d3 = RecoveryDisposition.RequiresHumanDecision /\ c = ClassNone)).
  { destruct (bool_decide (RunRow.state run = RunState.WaitingHuman)), (bool_decide_reflect (c = ClassNone)); simpl in E3;
      try (injection E3 as <- _; by left).
    apply bind_ok_inv in E3 as (f & t4 & _ & E3). unfold ret in E3. injection E3 as <- _. destruct f; tauto. }
  assert (Hn : d3 = RecoveryDisposition.Normal -> precedence c <= 1).
  { intros ->. destruct H3 as [<-|[[=] _]]. destruct H2 as [<-|[_ ->]]; [|simpl; lia].
    destruct H1 as [<-|[[=] _]]. by eapply matrix_normal. }
  clear E1 E2 E3. assert (H4 : d3 = d0 \/ (d3 = RecoveryDisposition.BlockedMissingResource /\ precedence c <= 3) \/
    ((d3 = RecoveryDisposition.Recovering \/ d3 = RecoveryDisposition.Normal \/
      d3 = RecoveryDisposition.RequiresHumanDecision) /\ c = ClassNone)).
  { destruct H3 as [->|[-> ->]]; [|tauto]. destruct H2 as [->|[[->| ->] ->]]; tauto. }
  case_bool_decide as Hd; [|tauto]. destruct (existsb _ timers); [|tauto]. apply Hn in Hd. tauto.
Qed.

(** A run is classified as blocked on an unknown effect exactly when one of its
    effects is unknown, or was dispatched and can be neither reconciled nor
    safely retried; it is classified as normal only when every effect is
    settled or merely prepared. *)
Lemma classify_run_safe run effects timers epoch now t d t' :
  classify_run run effects timers epoch now t = (Ok d, t') ->
  (d = RecoveryDisposition.BlockedUnknownEffect <-> exists e, e ∈ effects /\ outcome_unknown e) /\
  (d = RecoveryDisposition.Normal -> Forall (fun e => e.(EffectRow.state) ∈
     [EffectState.Prepared; EffectState.Committed; EffectState.Failed; EffectState.Cancelled]) effects).
Proof.
  intros (c & d0 & Ha & Hm & Hd)%classify_run_inv. apply aggregate_from_spec in Ha as (_ & Hall & Hex).
  pose proof (matrix_blocked _ _ _ Hm) as Hb.
  assert (Hcb : 5 <= precedence c <-> exists e, e ∈ effects /\ outcome_unknown e).
  { split.
    - intros Hc. destruct Hex as [->|(e & He & Hce)]; [simpl in Hc; lia|]. exists e. split; [done|].
      destruct (Hall e He) as [Hs _]. apply outcome_unknown_weight; [done|]. unfold weight. by rewrite Hce.
    - intros (e & He & Hu). destruct (Hall e He) as [Hs Hw]. apply outcome_unknown_weight in Hu; [lia|done]. }
  split.
  - rewrite <- Hcb.
    destruct Hd as [->|[[-> Hp]|[[[->|[->| ->]] ->]|[-> Hp]]]]; [exact Hb|..]; split; try discriminate; simpl; lia.
  - intros Hn. assert (Hp : precedence c <= 1).
    { destruct Hd as [Hd|[[Hd _]|[[_ ->]|[Hd _]]]]; [|congruence|simpl; lia|congruence].
      apply (matrix_normal (RunRow.state run)). congruence. }
    apply List.Forall_forall. intros e He%list_elem_of_In. destruct (Hall e He) as [Hs Hw]. revert Hs Hw Hp.
    unfold weight, class_of.
    destruct (EffectRow.state e); simpl; intros Hs Hw Hp; try (exfalso; lia);
      try (apply (bool_decide_eq_true_1 _); reflexivity); [by destruct Hs|].
    exfalso. destruct (dispatched_is_unsafe e); simpl in Hw; lia.
Qed.
End Safety.

(** ** Reconstruction *)

(** Operations that leave the whole transaction as it was. *)
Lemma query_eq {A} (f : Db -> A) : ensures eq (query f).
Proof. by intros t a t' [= _ <-]. Qed.
Lemma runs_list_active_eq : ensures eq runs_list_active.
Proof. unfold runs_list_active. pose proof @query_eq. solve_ensures. Qed.
Lemma effects_list_by_run_eq id : ensures eq (effects_list_by_run id).
Proof. unfold effects_list_by_run. pose proof @query_eq. solve_ensures. Qed.
Lemma timers_list_by_run_eq id : ensures eq (timers_list_by_run id).
Proof. unfold timers_list_by_run. pose proof @query_eq. solve_ensures. Qed.
#[local] Hint Resolve query_eq runs_list_active_eq effects_list_by_run_eq timers_list_by_run_eq : ensures.

Lemma ensures_eq {A} R `{!PreOrder R} (m : M A) : ensures eq m -> ensures (on_db R) m.
Proof. intros Hm t a t' E. by rewrite <- (Hm _ _ _ E). Qed.

Lemma select_by_ids {V} (f : V -> N) le `{!RelDecision le} p (m : gmap N V) :
  (forall k v, m !! k = Some v -> f v = k) -> NoDup (f <$> select_by le p m).
Proof.
  intros Hkey. unfold select_by. rewrite <- list_fmap_compose.
  set (l := merge_sort le (map_to_list (filter (fun kv => p kv.2 = true) m))).
  assert (Hl : l ≡ₚ map_to_list (filter (fun kv => p kv.2 = true) m)) by apply merge_sort_Permutation.
  assert (E : (f ∘ snd) <$> l = l.*1).
  { apply list_fmap_ext. intros i [k v] Hi. simpl. apply Hkey. apply list_elem_of_lookup_2 in Hi.
    rewrite Hl, elem_of_map_to_list, map_lookup_filter_Some in Hi. by destruct Hi. }
  rewrite E, Hl. apply NoDup_fst_map_to_list.
Qed.

Section Reconstruction.
Context `{!Ext}.

Lemma classify_run_eq run effects timers epoch now : ensures eq (classify_run run effects timers epoch now).
Proof.
  unfold classify_run, load_frozen_environment, environments_get, environments_get_bindings, waiting_child_advanced,
    latest_approval_expired, runs_list_by_task, graph_list_dependencies, security_list_approvals_by_run.
  solve_ensures.
Qed.

(** The stored effects of a run. *)
Definition effects_of (d : Db) (run : RunId) (e : EffectRow) : Prop :=
  exists k, d.(effects) !! k = Some e /\ e.(EffectRow.run_id) = run.

Lemma effects_list_by_run_inv id t l t' :
  effects_list_by_run id t = (Ok l, t') -> forall e, e ∈ l <-> effects_of t.(t_db) id e.
Proof.
  unfold effects_list_by_run. intros E. apply bind_ok_inv in E as (rows & t1 & [= <- <-] & E).
  apply pair_ok_inv in E as [E%decode_effects_ok _]. subst l. intros e. rewrite elem_of_select_by.
  unfold effects_of. by setoid_rewrite bool_decide_eq_true.
Qed.

Definition active_rows (d : Db) : list RunRow :=
  select_by created_le (fun r => bool_decide (r.(RunRow.state) ∉
    [RunState.Completed; RunState.Failed; RunState.Cancelled])) d.(runs).

Lemma elem_of_active_rows d r :
  runs_inv d -> r ∈ active_rows d <->
  d.(runs) !! r.(RunRow.run_id) = Some r /\ run_is_terminal r.(RunRow.state) = false.
Proof.
  intros Hinv. unfold active_rows. rewrite elem_of_select_by.
  assert (Hs : bool_decide (r.(RunRow.state) ∉ [RunState.Completed; RunState.Failed; RunState.Cancelled]) =
    negb (run_is_terminal r.(RunRow.state))) by (by destruct r.(RunRow.state)).
  rewrite Hs. split.
  - intros (k & Hk & Ht%negb_true_iff). by rewrite (ri_key _ Hinv _ _ Hk).
  - intros [Hk Ht]. exists (RunRow.run_id r). by rewrite Ht.
Qed.

Lemma plan_recovery_inv epoch now t planned t' :
  plan_recovery epoch now t = (Ok planned, t') ->
  planned.*1 = active_rows t.(t_db) /\
  Forall (fun p => exists effects timers, (forall e, e ∈ effects <-> effects_of t.(t_db) p.1.(RunRow.run_id) e) /\
    classify_run p.1 effects timers epoch now t = (Ok p.2, t)) planned.
Proof.
  unfold plan_recovery. intros E. apply bind_ok_inv in E as (rows & t1 & Er & E).
  assert (rows = active_rows (t_db t) /\ t1 = t) as [-> ->].
  { unfold runs_list_active in Er. apply bind_ok_inv in Er as (raw & t2 & [= <- <-] & Er).
    apply pair_ok_inv in Er as [Er <-]. split; [|done].
    refine (proj1 (res_collect_same decode_run _ _ _ Er)). intros a b Hab. unfold decode_run in Hab. inv_ok. done. }
  apply collect_each_reads in E as [_ H2].
  - split.
    + clear -H2. induction H2 as [|r p rows planned Hp H2 IH]; [done|]. cbn [fmap list_fmap]. f_equal; [|exact IH].
      apply bind_ok_inv in Hp as (? & ? & _ & Hp). apply bind_ok_inv in Hp as (? & ? & _ & Hp).
      apply bind_ok_inv in Hp as (? & ? & _ & Hp). unfold ret in Hp. by injection Hp as <- _.
    + clear -H2. induction H2 as [|r p rows planned Hp H2 IH]; constructor; [|done].
      apply bind_ok_inv in Hp as (effects & t1 & He & Hp). pose proof (effects_list_by_run_eq _ _ _ _ He) as <-.
      apply bind_ok_inv in Hp as (timers & t2 & Ht & Hp). pose proof (timers_list_by_run_eq _ _ _ _ Ht) as <-.
      apply bind_ok_inv in Hp as (d & t2 & Hc & Hp). unfold ret in Hp. injection Hp as <- ->.
      exists effects, timers. split; [by eapply effects_list_by_run_inv|done].
  - intros a s b s' E1. symmetry. revert s b s' E1. refine (_ : ensures eq _).
    pose proof classify_run_eq. solve_ensures.
Qed.

(** The run table after the write pass: each planned run carries its new
    disposition and a later revision, and no other run changed. *)
Lemma persist_disposition_change_inv run d id t u t' :
  persist_disposition_change run d id t = (Ok u, t') ->
  exists r, t.(t_db).(runs) !! run.(RunRow.run_id) = Some r /\ r.(RunRow.state) = run.(RunRow.state) /\
    t'.(t_db).(runs) = <[run.(RunRow.run_id) := apply_run_patch (disposition_patch d) r]> t.(t_db).(runs).
Proof.
  unfold persist_disposition_change. intros E. apply bind_ok_inv in E as (b & t1 & E1 & E).
  destruct b; [|done]. apply runs_cas_update_inv in E1 as [(_ & r & Hr & Hm & _ & ->)|([=] & _)].
  apply run_cas_matches_inv in Hm as (_ & Hs & _). exists r. split; [done|]. split; [by apply Hs|].
  assert (Hsame : ensures (on_db runs_same) (bind (runs_get run.(RunRow.run_id)) (fun got =>
    bind (lift_res (ok_or got (kerr Internal "run vanished during recovery disposition write"))) (fun current =>
    bind (lift_res (stream_run run.(RunRow.run_id))) (fun stream =>
    bind (stage_catalogued id "RunRecoveryDispositionChanged" stream
        (encode_to_vec (MsgAgentRun (run_payload current))) None None) (fun _ => ret tt)))))) by solve_ensures.
  by apply Hsame in E as [E _].
Qed.

Lemma mark_unsafe_dispatched_same run env : ensures (on_db runs_same) (mark_unsafe_dispatched run env).
Proof. unfold mark_unsafe_dispatched, mark_unknown. solve_ensures. Qed.

Lemma apply_recovery_inv env l t u t' :
  NoDup ((fun p => p.1.(RunRow.run_id)) <$> l) -> apply_recovery env l t = (Ok u, t') ->
  (forall p, p ∈ l -> exists r, t.(t_db).(runs) !! p.1.(RunRow.run_id) = Some r /\
     t'.(t_db).(runs) !! p.1.(RunRow.run_id) = Some (apply_run_patch (disposition_patch p.2) r)) /\
  (forall id, id ∉ (fun p => p.1.(RunRow.run_id)) <$> l -> t'.(t_db).(runs) !! id = t.(t_db).(runs) !! id).
Proof.
  revert t. induction l as [|q l IH]; intros t Hnd E.
  { injection E as _ <-. split; [by intros ? ?%elem_of_nil|done]. }
  cbn [fmap list_fmap] in Hnd. apply list.NoDup_cons in Hnd as [Hq Hnd].
  unfold apply_recovery in E. cbn [for_each] in E. apply bind_ok_inv in E as (u1 & t1 & E1 & E).
  apply bind_ok_inv in E1 as (u0 & t0 & E0 & E1).
  assert (H0 : t0.(t_db).(runs) = t.(t_db).(runs)).
  { case_bool_decide; [by apply mark_unsafe_dispatched_same in E0 as [? _]|by injection E0 as _ <-]. }
  apply bind_ok_inv in E1 as (ev & t2 & E2 & E1). unfold draw_uuid in E2. injection E2 as _ <-.
  apply persist_disposition_change_inv in E1 as (r & Hr & _ & Hruns). cbn in Hr, Hruns. rewrite H0 in Hr, Hruns.
  destruct (IH t1 Hnd E) as [Hin Hout]. split.
  - intros p [->|Hp]%elem_of_cons.
    + exists r. split; [done|]. rewrite Hout, Hruns by done. apply lookup_insert_eq.
    + destruct (Hin p Hp) as (r' & Hr' & ->). exists r'. split; [|done]. rewrite <- Hr', Hruns, lookup_insert_ne; [done|].
      intros Heq. apply Hq. rewrite Heq. by eapply list_elem_of_fmap_2'.
  - intros id Hid. cbn [fmap list_fmap] in Hid. apply not_elem_of_cons in Hid as [Hne Hid].
    rewrite Hout, Hruns by done. by apply lookup_insert_ne.
Qed.

(** What a successful startup leaves behind. *)
Record recovered (d d' : Db) (report : RecoveryReport) : Prop := {
  rc_kernel : kernel_rel d d';
  rc_count : report.(rr_examined) = length report.(rr_dispositions);
  rc_complete : forall id r, d.(runs) !! id = Some r -> run_is_terminal r.(RunRow.state) = false ->
    exists disposition, (id, disposition) ∈ report.(rr_dispositions);
  rc_applied : forall id disposition, (id, disposition) ∈ report.(rr_dispositions) ->
    exists r r', d.(runs) !! id = Some r /\ run_is_terminal r.(RunRow.state) = false /\
      d'.(runs) !! id = Some r' /\ r'.(RunRow.state) = r.(RunRow.state) /\
      r'.(RunRow.recovery) = disposition /\
      (disposition = RecoveryDisposition.BlockedUnknownEffect <->
         exists e, effects_of d id e /\ outcome_unknown e) /\
      (disposition = RecoveryDisposition.Normal -> forall e, effects_of d id e ->
         e.(EffectRow.state) ∈
           [EffectState.Prepared; EffectState.Committed; EffectState.Failed; EffectState.Cancelled]);
  rc_terminal : forall id r, d.(runs) !! id = Some r -> run_is_terminal r.(RunRow.state) = true ->
    d'.(runs) !! id = Some r }.

Lemma NoDup_fmap_inj {A B} (f : A -> B) l x y :
  NoDup (f <$> l) -> x ∈ l -> y ∈ l -> f x = f y -> x = y.
Proof.
  intros Hnd [i Hi]%list_elem_of_lookup [j Hj]%list_elem_of_lookup E.
  assert (i = j) as ->; [|congruence]. apply (NoDup_lookup _ i j (f x) Hnd).
  - by rewrite list_lookup_fmap, Hi.
  - by rewrite list_lookup_fmap, Hj, E.
Qed.

Lemma plan_applied d d' planned epoch now t :
  runs_inv d -> t.(t_db) = d -> planned.*1 = active_rows d ->
  Forall (fun p => exists effects timers, (forall e, e ∈ effects <-> effects_of d p.1.(RunRow.run_id) e) /\
    classify_run p.1 effects timers epoch now t = (Ok p.2, t)) planned ->
  (forall p, p ∈ changed_only planned -> exists r, d.(runs) !! p.1.(RunRow.run_id) = Some r /\
     d'.(runs) !! p.1.(RunRow.run_id) = Some (apply_run_patch (disposition_patch p.2) r)) ->
  (forall id, id ∉ (fun p => p.1.(RunRow.run_id)) <$> changed_only planned -> d'.(runs) !! id = d.(runs) !! id) ->
  kernel_rel d d' -> recovered d d' (recovery_report planned).
Proof.
  intros Hinv Ht Hrows Hcl Hin Hout Hk.
  assert (Hact : forall p, p ∈ planned -> d.(runs) !! p.1.(RunRow.run_id) = Some p.1 /\
    run_is_terminal p.1.(RunRow.state) = false).
  { intros p Hp. apply elem_of_active_rows; [done|]. rewrite <- Hrows. by apply list_elem_of_fmap_2. }
  assert (Hnd : NoDup ((fun p => p.1.(RunRow.run_id)) <$> planned)).
  { change (NoDup ((RunRow.run_id ∘ fst) <$> planned)). rewrite list_fmap_compose, Hrows.
    apply select_by_ids, Hinv. }
  split; [done|by simpl; rewrite length_fmap|..].
  - intros id r Hr Hterm. pose proof (ri_key _ Hinv _ _ Hr) as <-.
    assert (Hr' : r ∈ planned.*1) by (rewrite Hrows; by apply elem_of_active_rows).
    apply list_elem_of_fmap in Hr' as (p & -> & Hp). exists p.2. simpl. apply list_elem_of_fmap. by exists p.
  - intros id disposition Hd. simpl in Hd. apply list_elem_of_fmap in Hd as (p & [= -> ->] & Hp).
    destruct (Hact p Hp) as [Hr Hterm].
    rewrite List.Forall_forall in Hcl. destruct (Hcl p (proj1 (list_elem_of_In _ _) Hp)) as (effects & timers & He & Hc).
    apply classify_run_safe in Hc as [Hb Hn]. setoid_rewrite He in Hb. rewrite List.Forall_forall in Hn.
    setoid_rewrite <- list_elem_of_In in Hn. setoid_rewrite He in Hn.
    destruct (decide (p.1.(RunRow.recovery) = p.2)) as [Hrec|Hne].
    + exists p.1, p.1. rewrite Hout; [done|].
      intros (q & Hq & Hqc)%list_elem_of_fmap. apply elem_of_Listfilter in Hqc as [Hqp Hqc].
      assert (q = p) as -> by (by eapply (NoDup_fmap_inj (fun p => p.1.(RunRow.run_id)))).
      by rewrite bool_decide_true in Hqc.
    + destruct (Hin p) as (r & Hr2 & Hr'); [apply elem_of_Listfilter; by rewrite bool_decide_false|].
      assert (r = p.1) as -> by congruence.
      exists p.1, (apply_run_patch (disposition_patch p.2) p.1). done.
  - intros id r Hr Hterm. rewrite Hout; [done|].
    intros (q & -> & Hqc)%list_elem_of_fmap. apply elem_of_Listfilter in Hqc as [Hqp _].
    destruct (Hact q Hqp) as [Hq1 Hq2]. congruence.
Qed.

Lemma changed_only_NoDup planned :
  NoDup ((fun p => p.1.(RunRow.run_id)) <$> planned) ->
  NoDup ((fun p => p.1.(RunRow.run_id)) <$> changed_only planned).
Proof.
  induction planned as [|p l IH]; [done|]. cbn [fmap list_fmap]. intros [Hp Hl]%list.NoDup_cons.
  unfold changed_only. simpl. destruct (negb _); [|by apply IH]. cbn [fmap list_fmap]. apply list.NoDup_cons.
  split; [|by apply IH]. intros (q & Hq & Hqc)%list_elem_of_fmap. apply Hp.
  apply elem_of_Listfilter in Hqc as [Hqc _]. by eapply list_elem_of_fmap_2'.
Qed.

(** C13: Startup recovery classifies every unfinished run and never hides an
    unknown outcome. When it succeeds, the report names every unfinished run
    once, each of them carries the reported disposition, its state is
    unchanged, finished runs are untouched; a run is blocked on an unknown
    effect exactly when one of its effects is unknown or was dispatched and can
    be neither reconciled nor safely retried, and a run is normal only when
    every effect is settled or merely prepared. When it fails, nothing was
    written. *)
Theorem reconstruct_recovers w :
  kernel_inv w.(w_db) ->
  match reconstruct w with
  | (Ok report, w') => recovered w.(w_db) w'.(w_db) report
  | (Err _, w') => w'.(w_db) = w.(w_db)
  end.
Proof.
  intros Hinv. unfold reconstruct. destruct (daemon_fence (w_db w)) as [fence|]; [|done]. cbn zeta.
  set (t := mkTxn _ _ _ _).
  destruct (plan_recovery (fence_epoch fence) (clock_ms (w_clock w)) t) as [[planned|e] t1] eqn:Ep; [|done].
  pose proof (plan_recovery_inv _ _ _ _ _ Ep) as [Hrows Hcl]. cbn [t_db] in *.
  assert (Hsame : changed_only planned = [] -> recovered (w_db w) (w_db w) (recovery_report planned)).
  { intros Hnil. apply (plan_applied _ _ planned (fence_epoch fence) (clock_ms (w_clock w)) t); try done.
    - apply Hinv.
    - rewrite Hnil. by intros ? ?%elem_of_nil. }
  destruct (changed_only planned) as [|p l] eqn:Hch; [by apply Hsame|]. rewrite <- Hch. clear Hsame.
  unfold with_write_txn, begin_write. cbn [ctx_daemon_epoch w_db].
  destruct (assert_epoch _ _); [|done]. cbn [res_bind].
  destruct (apply_recovery _ _ _) as [[u|e] t2] eqn:Ea; [|done].
  pose proof (apply_recovery_kernel _ _ _ _ _ Ea) as [Hk _].
  apply apply_recovery_inv in Ea as [Hin Hout].
  - apply (plan_applied _ _ planned (fence_epoch fence) (clock_ms (w_clock w)) t); try done. apply Hinv.
  - apply changed_only_NoDup. change (NoDup ((RunRow.run_id ∘ fst) <$> planned)).
    rewrite list_fmap_compose, Hrows. apply select_by_ids, Hinv.
Qed.
End Reconstruction.

(** ** Resolving an unknown effect *)

Section ResolutionGate.
Context `{!Ext}.

(** The permission request the command is judged by. *)
Definition resolve_request (ctx : CommandContext) (row : EffectRow) (chain : DelegationChain)
    (scopes : list GrantScope) (now_ms : Z) : PermissionRequest :=
  mkPermissionRequest ctx.(cc_principal_id) ctx.(cc_actor_id) (Some row.(EffectRow.run_id))
    chain scopes None resolve_capability TargetNone None None now_ms.

(** The stored approval the request cites covers exactly this action on this
    effect, and has not run out. *)
Record covered (d : Db) (row : EffectRow) (request : ResolveUnknownEffectMsg) (now_ms : Z) (id : ApprovalRequestId)
    (approval : ApprovalRequestRow) : Prop := {
  cv_cited : optional_id "approval_request_id" request.(ru_approval_request_id) = Ok (Some id);
  cv_stored : d.(approval_requests) !! id = Some approval;
  cv_approved : approval.(ApprovalRequestRow.state) = ApprovalState.Approved;
  cv_operation : approval.(ApprovalRequestRow.operation) = RESOLVE_OPERATION +:+ ":" +:+ request.(ru_action);
  cv_run : approval.(ApprovalRequestRow.run_id) = Some row.(EffectRow.run_id);
  cv_effect : approval.(ApprovalRequestRow.target_resource) = Some (uuid_hyphenated row.(EffectRow.effect_id));
  cv_current : now_ms < approval.(ApprovalRequestRow.expires_at_ms) }.

(** Who may resolve [row] as asked: the caller's chain carries the authority to
    resolve unknown effects; a retry, and any resolution policy finds risky, needs
    an approval of its own besides. *)
Definition may_resolve (ctx : CommandContext) (row : EffectRow) (request : ResolveUnknownEffectMsg) (t : Txn) : Prop :=
  exists chain_id chain scopes, ctx.(cc_delegation_chain_id) = Some chain_id /\
    load_chain chain_id t = (Ok chain, t) /\
    load_grant_scopes (concat (hop_grant_ids <$> chain.(hops))) t = (Ok scopes, t) /\
    let asked := resolve_request ctx row chain scopes (clock_ms t.(t_clock)) in
    authorized asked /\
    (request.(ru_action) = RETRY_ACTION \/ risky asked ->
       exists id approval, covered t.(t_db) row request (clock_ms (S t.(t_clock))) id approval).

Lemma verify_approval_spec row request t :
  is_ok (fst (verify_approval row request t)) = true <->
  exists id approval, covered t.(t_db) row request (clock_ms t.(t_clock)) id approval.
Proof.
  unfold verify_approval, Prelude.bind, lift_res.
  destruct (optional_id _ _) as [[id|]|e] eqn:Eid; cbn.
  2-3: split; [done|]; intros (? & ? & []); congruence.
  destruct (approval_requests (t_db t) !! id) as [approval|] eqn:Ea; cbn; [|split; [done|]; intros (? & ? & []); congruence].
  destruct (_ && _) eqn:Eb; cbn; (split; [intros Hok|intros (id' & a' & [])]); try done.
  - apply andb_prop in Eb as [Eb ?%Z.ltb_lt]. apply andb_prop in Eb as [Eb ?%bool_decide_eq_true].
    apply andb_prop in Eb as [Eb ?%bool_decide_eq_true]. apply andb_prop in Eb as [?%bool_decide_eq_true ?%bool_decide_eq_true].
    by exists id, approval.
  - assert (id' = id) as -> by congruence. assert (a' = approval) as -> by congruence. exfalso. apply Bool.not_true_iff_false in Eb. apply Eb. rewrite !bool_decide_true by done. by apply Z.ltb_lt.
Qed.

Lemma load_chain_eq id : ensures eq (load_chain id).
Proof. unfold load_chain, load_hop, grant_capabilities, security_list_delegation_hops, security_get_grant. pose proof @query_eq. solve_ensures. Qed.
Lemma load_grant_scopes_eq l : ensures eq (load_grant_scopes l).
Proof. unfold load_grant_scopes, security_get_grant. pose proof @query_eq. solve_ensures. Qed.

Lemma authorize_spec ctx row request t : is_ok (fst (authorize ctx row request t)) = true <-> may_resolve ctx row request t.
Proof.
  unfold authorize, load_caller_chain, may_resolve, Prelude.bind.
  destruct (cc_delegation_chain_id ctx) as [chain_id|]; [|split; [done|]; by intros (? & ? & ? & [=] & _)].
  destruct (load_chain chain_id t) as [[chain|e] t1] eqn:Ec; [|split; [done|]; intros (? & ? & ? & [= <-] & Ec' & _); congruence].
  pose proof (load_chain_eq _ _ _ _ Ec) as <-.
  destruct (load_grant_scopes _ t) as [[scopes|e] t1] eqn:Es.
  2: { split; [done|]. intros (? & ? & ? & [= <-] & Ec' & Es' & _). rewrite Ec in Ec'. injection Ec' as <-. congruence. }
  pose proof (load_grant_scopes_eq _ _ _ _ Es) as <-. cbn [now_unix_ms].
  pose proof (evaluate_spec (resolve_request ctx row chain scopes (clock_ms (t_clock t)))) as Hev. unfold resolve_request in Hev.
  set (u := mkTxn _ _ _ _). pose proof (verify_approval_spec row request u) as Hv. cbn [t_db t_clock u] in Hv.
  assert (Hex : forall P : DelegationChain -> list GrantScope -> Prop, (exists chain_id0 chain0 scopes0, Some chain_id = Some chain_id0 /\
      load_chain chain_id0 t = (Ok chain0, t) /\ load_grant_scopes (concat (hop_grant_ids <$> hops chain0)) t = (Ok scopes0, t) /\
      P chain0 scopes0) <-> P chain scopes).
  { intros P. split; [|by intros; exists chain_id, chain, scopes]. intros (? & ? & ? & [= <-] & Ec' & Es' & HP).
    rewrite Ec in Ec'. injection Ec' as <-. rewrite Es in Es'. by injection Es' as <-. }
  cbn zeta. rewrite Hex. clear Hex. unfold resolve_request.
  destruct (evaluate _) as [refs|reason|draft].
  - destruct Hev as (Hau & Hr & _). destruct (decide _) as [Ha|Ha].
    + rewrite Hv. tauto.
    + cbn. split; [|done]. intros _. split; [done|]. tauto.
  - split; [done|]. tauto.
  - destruct Hev as (Hau & Hr & _). rewrite Hv. tauto.
Qed.

Context `{!RecoveryContracts}.

(** Everything a successful resolution passed through. *)
Lemma resolve_unknown_effect_inv ctx payload t out t' :
  resolve_unknown_effect_handle ctx payload t = (Ok out, t') ->
  exists request id resolution row row',
    decode_resolve_unknown_effect payload = Some request /\
    required_id "effect_id" request.(ru_effect_id) = Ok id /\
    resolution_parse request.(ru_action) = Some resolution /\
    t.(t_db).(effects) !! id = Some row /\ row.(EffectRow.state) = EffectState.Unknown /\
    may_resolve ctx row request t /\
    t'.(t_db).(effects) = <[id := row']> t.(t_db).(effects) /\
    effect_frozen row' = effect_frozen row /\
    row'.(EffectRow.state) = resolution_target resolution.
Proof.
  intros E. unfold resolve_unknown_effect_handle in E.
  apply bind_ok_inv in E as (request & t1 & Hreq & E). apply pair_ok_inv in Hreq as [Hreq <-].
  apply bind_ok_inv in E as (id & t1 & Hid & E). apply pair_ok_inv in Hid as [Hid <-].
  apply bind_ok_inv in E as (resolution & t1 & Hres & E). apply pair_ok_inv in Hres as [Hres%ok_or_ok <-].
  apply bind_ok_inv in E as (got & t1 & (-> & -> & _)%effects_get_inv & E).
  apply bind_ok_inv in E as (row & t1 & Hrow & E). apply pair_ok_inv in Hrow as [Hrow%ok_or_ok <-].
  apply bind_ok_inv in E as (expected & t1 & [= _ <-] & E).
  case_bool_decide as Hexp; [|done]. case_bool_decide as Hunk; [|done].
  apply bind_ok_inv in E as (u & t1 & Hau & E).
  assert (H1 : t_db t1 = t_db t).
  { assert (Ha : ensures (on_db eq) (authorize ctx row request)).
    { unfold authorize, load_caller_chain, load_chain, load_hop, grant_capabilities, load_grant_scopes,
        verify_approval. solve_ensures. }
    by apply Ha in Hau as [-> _]. }
  assert (Hmay : may_resolve ctx row request t) by (apply authorize_spec; by rewrite Hau).
  apply bind_ok_inv in E as (row' & t2 & Hap & E).
  assert (H2 : t2.(t_db).(effects) = <[id := row']> t.(t_db).(effects) /\
               effect_frozen row' = effect_frozen row /\ row'.(EffectRow.state) = resolution_target resolution).
  { unfold apply_resolution in Hap. apply bind_ok_inv in Hap as (r2 & t3 & Ht & Hap).
    apply bind_ok_inv in Hap as (u2 & t4 & Hs & Hap). unfold ret in Hap. injection Hap as <- <-.
    assert (Hsame : t4.(t_db).(effects) = t3.(t_db).(effects)).
    { assert (Hst : forall r, ensures (on_db effects_same) (stage_reconciled (mkEffectEnv (cc_correlation_id ctx) None) id r)).
      { intros r. unfold stage_reconciled. solve_ensures. }
      by apply Hst in Hs as [? _]. }
    rewrite Hsame, <- H1. rewrite <- H1 in Hrow.
    destruct resolution; apply effect_transition_inv in Ht as (r & Hr & _ & -> & -> & _);
      rewrite Hrow in Hr; injection Hr as <-; done. }
  assert (H3 : t'.(t_db).(effects) = t2.(t_db).(effects)).
  { assert (Hsame : ensures (on_db effects_same) (bind (runs_get row'.(EffectRow.run_id)) (fun got =>
      bind (lift_res (ok_or got (kerr Internal "owning run vanished during effect resolution"))) (fun run =>
      bind (refresh_disposition run) (fun _ => ret (outcome_id row'.(EffectRow.effect_id))))))).
    { unfold refresh_disposition, reclassify, persist_disposition_change.
      pose proof (fun r e ts ep n => ensures_eq effects_same _ (classify_run_eq r e ts ep n)). solve_ensures. }
    by apply Hsame in E as [? _]. }
  exists request, id, resolution, row, row'. rewrite H3. unfold decode_contract in Hreq. apply ok_or_ok in Hreq.
  destruct H2 as (? & ? & ?). done.
Qed.

(** C27: An unknown effect is resolved only under authority, and exactly as asked.
    The gate of the command passes exactly when the caller's delegation chain loads
    and carries the authority to resolve unknown effects and, for a retry or where
    policy finds the request risky, the request cites a stored approval that is
    approved, not yet expired, and names this action, this run and this effect.  A
    resolution that succeeds passed that gate for an effect found unknown, and
    changes that effect alone: to committed, to failed, or for an approved retry
    back to prepared, its frozen columns kept. *)
Theorem unknown_effect_resolved_under_authority ctx payload t :
  (forall row request, is_ok (fst (authorize ctx row request t)) = true <-> may_resolve ctx row request t) /\
  forall out t', resolve_unknown_effect_handle ctx payload t = (Ok out, t') ->
  exists request id row row',
    decode_resolve_unknown_effect payload = Some request /\
    required_id "effect_id" request.(ru_effect_id) = Ok id /\
    t.(t_db).(effects) !! id = Some row /\ row.(EffectRow.state) = EffectState.Unknown /\
    may_resolve ctx row request t /\
    t'.(t_db).(effects) = <[id := row']> t.(t_db).(effects) /\
    effect_frozen row' = effect_frozen row /\
    (request.(ru_action), row'.(EffectRow.state)) ∈
      [("mark_succeeded", EffectState.Committed); ("mark_failed", EffectState.Failed); (RETRY_ACTION, EffectState.Prepared)].
Proof.
  split; [intros; apply authorize_spec|]. intros out t' E.
  destruct (resolve_unknown_effect_inv _ _ _ _ _ E) as (request & id & res & row & row' & Hd & Hid & Hres & Hrow & Hu & Hm & He & Hf & Hst).
  exists request, id, row, row'. do 7 (split; [done|]). rewrite Hst.
  rewrite !elem_of_cons. unfold resolution_parse in Hres. unfold RETRY_ACTION.
  repeat case_decide; try done; injection Hres as <-; cbn [resolution_target]; rewrite ?pair_equal_spec; tauto.
Qed.

(** In a ledger the kernel wrote, no stored approval request leaves the pending
    state (the decision is the response's row), so there the retry is refused. *)
Lemma effect_retry_never_authorized ctx payload request t :
  kernel_inv t.(t_db) -> decode_resolve_unknown_effect payload = Some request ->
  request.(ru_action) = RETRY_ACTION ->
  is_ok (fst (resolve_unknown_effect_handle ctx payload t)) = false.
Proof.
  intros Hinv Hdec Hact. destruct (resolve_unknown_effect_handle ctx payload t) as [[out|e] t'] eqn:E; [|done].
  apply resolve_unknown_effect_inv in E as (request' & _ & _ & row & _ & Hdec' & _ & _ & _ & _ & Hm & _).
  destruct Hm as (? & ? & ? & _ & _ & _ & _ & Ha). destruct Ha as (id & approval & Hcov); [left; congruence|].
  destruct Hcov as [_ Hs Hap _ _ _ _]. assert (Hl : ledger_inv (t_db t)) by apply Hinv.
  destruct (li_approval _ Hl _ _ Hs) as [_ Hp]. congruence.
Qed.
End ResolutionGate.
