(* ===== verification/Workspace.v ===== *)
(** * Workspace leases ([workspace/src/coordinator.rs], [workspace/src/local.rs])

    Write authority over a workspace is a lease row: acquisition, transfer of
    exclusive authority, revocation and the check every mediated write
    passes.  Forks, which record a lease for the child, are in [Forks]. *)

From S2P Require Import Prelude Domain Ids Models StoreBase Store ExtensionStore.

Open Scope string_scope.
Open Scope Z_scope.

Definition LOCKING : string := "workspace.locking".
Definition VERSIONED_WRITE : string := "workspace.versioned_write".
Definition CONFLICT_REPORT : string := "workspace.conflict_report".

(** ** Leases *)

Section Leases.
Context `{!Ext}.

Definition shared_write_supported (adapter_capabilities : list string) : bool :=
  forallb (fun cap => bool_decide (cap ∈ adapter_capabilities)) [LOCKING; VERSIONED_WRITE; CONFLICT_REPORT].

Definition acquire_lease (workspace : WorkspaceId) (owner : RunId) (mode : WorkspaceAccessMode)
    (adapter_capabilities : list string) (delegated_from : bytes) (now_ms : Z) : M WorkspaceLeaseRow :=
  guard! negb (bool_decide (mode = WorkspaceAccessMode.SharedCoordinatedWrite)) ||
         shared_write_supported adapter_capabilities
    else kerr FailedPrecondition
      "SHARED_COORDINATED_WRITE requires an adapter with locking, versioned-write, and conflict-report capabilities" in
  guard! negb (bool_decide (mode = WorkspaceAccessMode.Unspecified))
    else kerr InvalidArgument "workspace access mode unspecified" in
  let! lease_id := draw_uuid in
  do! leases_insert (NewWorkspaceLease.mk lease_id workspace owner mode 1 LeaseEnforcementState.Active
                       delegated_from now_ms) in
  ret (WorkspaceLeaseRow.mk lease_id workspace owner mode 1 LeaseEnforcementState.Active delegated_from now_ms now_ms).

Definition lease_not_found : KernelError := kerr NotFound "lease not found".

Definition transferable (lease : WorkspaceLeaseRow) (from : RunId) (expected_epoch : Z) : bool :=
  active_exclusive lease && bool_decide (lease.(WorkspaceLeaseRow.owner_run_id) = from) &&
  (lease.(WorkspaceLeaseRow.lease_epoch) =? expected_epoch).

Definition transfer_exclusive (lease_id : LeaseId) (from to : RunId) (expected_epoch : Z)
    (delegation_proof : bytes) : M WorkspaceLeaseRow :=
  let! row := leases_get lease_id in
  let! lease := lift_res (ok_or row lease_not_found) in
  guard! transferable lease from expected_epoch
    else kerr FailedPrecondition
      "lease is not an active exclusive lease owned by the transferring run at the expected epoch" in
  let! moved := leases_cas lease_id expected_epoch
    (LeasePatch.mk None (Some to) None (Some delegation_proof) (Some (u64_saturating_add expected_epoch 1))) in
  guard! moved else kerr Conflict "lease epoch moved during transfer" in
  let! row := leases_get lease_id in
  lift_res (ok_or row (kerr Internal "lease vanished mid-transfer")).

Definition revoke_lease (lease_id : LeaseId) (expected_epoch : Z) : M unit :=
  let! moved := leases_cas lease_id expected_epoch
    (LeasePatch.mk (Some LeaseEnforcementState.Revoked) None None None (Some (u64_saturating_add expected_epoch 1))) in
  guard! moved else kerr FailedPrecondition "lease epoch moved during revoke" in
  ret tt.

Definition verify_write_authority (lease_id : LeaseId) (workspace : WorkspaceId) (owner : RunId) (epoch : Z) : M unit :=
  let! row := leases_get lease_id in
  let! lease := lift_res (ok_or row lease_not_found) in
  guard! bool_decide (lease.(WorkspaceLeaseRow.workspace_id) = workspace) &&
         bool_decide (lease.(WorkspaceLeaseRow.owner_run_id) = owner) &&
         (lease.(WorkspaceLeaseRow.lease_epoch) =? epoch) && active_exclusive lease
    else kerr FailedPrecondition "stale or non-exclusive lease token" in
  ret tt.

Definition record_lease (lease : NewWorkspaceLease) : M unit :=
  guard! bool_decide (lease.(NewWorkspaceLease.mode) ∈ [WorkspaceAccessMode.ExclusiveWrite; WorkspaceAccessMode.ReadOnly])
    else kerr InvalidArgument "local adapter only supports read-only and exclusive-write leases" in
  leases_insert lease.

End Leases.

(** ** The invariant *)

Definition clash_free (m : gmap N WorkspaceLeaseRow) : Prop := forall i j r1 r2,
  m !! i = Some r1 -> m !! j = Some r2 -> active_exclusive r1 = true -> active_exclusive r2 = true ->
  r1.(WorkspaceLeaseRow.workspace_id) = r2.(WorkspaceLeaseRow.workspace_id) -> i = j.

(** Rows sit under their key and no workspace has two active exclusive leases. *)
Record leases_inv (d : Db) : Prop := {
  li_keys : forall id r, d.(workspace_leases) !! id = Some r -> r.(WorkspaceLeaseRow.lease_id) = id;
  li_exclusive : clash_free d.(workspace_leases) }.

(** A later version of a lease: unchanged or at a higher epoch, for the same
    workspace in the same mode, and never revived once it is revoked. *)
Definition lease_later (r r' : WorkspaceLeaseRow) : Prop :=
  r' = r \/
  (r.(WorkspaceLeaseRow.lease_epoch) < r'.(WorkspaceLeaseRow.lease_epoch) /\
   r'.(WorkspaceLeaseRow.workspace_id) = r.(WorkspaceLeaseRow.workspace_id) /\
   r'.(WorkspaceLeaseRow.mode) = r.(WorkspaceLeaseRow.mode) /\
   (r.(WorkspaceLeaseRow.enforcement_state) = LeaseEnforcementState.Revoked ->
    r'.(WorkspaceLeaseRow.enforcement_state) = LeaseEnforcementState.Revoked)).

Record leases_rel (d d' : Db) : Prop := {
  lr_inv : leases_inv d -> leases_inv d';
  lr_later : forall id r, d.(workspace_leases) !! id = Some r ->
    exists r', d'.(workspace_leases) !! id = Some r' /\ lease_later r r' }.

#[export] Instance lease_later_preorder : PreOrder lease_later.
Proof.
  split; [by left|]. intros r1 r2 r3 [->|(E1 & W1 & M1 & S1)] [->|(E2 & W2 & M2 & S2)]; [by left|by right|by right|].
  right. split_and!; [lia|congruence|congruence|auto].
Qed.

#[export] Instance leases_rel_preorder : PreOrder leases_rel.
Proof.
  split.
  - intros d. split; [done|]. intros id r Hr. exists r. by split.
  - intros d1 d2 d3 [I1 L1] [I2 L2]. split; [auto|]. intros id r Hr.
    destruct (L1 _ _ Hr) as (r' & Hr' & Hl). destruct (L2 _ _ Hr') as (r'' & Hr'' & Hl'). exists r''.
    split; [done|]. by transitivity r'.
Qed.

Lemma leases_rel_same d d' : d'.(workspace_leases) = d.(workspace_leases) -> leases_rel d d'.
Proof.
  intros E. split.
  - intros [K X]. split; by rewrite E.
  - intros id r Hr. exists r. rewrite E. by split.
Qed.
#[export] Hint Extern 2 (leases_rel _ _) => apply leases_rel_same; reflexivity : frame.

Lemma clash_none r (m : gmap N WorkspaceLeaseRow) :
  none_such (exclusive_clash r) m = true -> active_exclusive r = true ->
  forall j r2, m !! j = Some r2 -> active_exclusive r2 = true ->
    r.(WorkspaceLeaseRow.workspace_id) = r2.(WorkspaceLeaseRow.workspace_id) ->
    r2.(WorkspaceLeaseRow.lease_id) = r.(WorkspaceLeaseRow.lease_id).
Proof.
  intros Hn Hr j r2 H2 Ha Hw. apply none_such_true with (k := j) (v := r2) in Hn; [|done].
  unfold exclusive_clash in Hn. rewrite Hr, Ha, (bool_decide_eq_true_2 _ Hw) in Hn. cbn in Hn.
  by apply negb_false_iff, bool_decide_eq_true in Hn.
Qed.

(** Writing a row that does not clash keeps the invariant. *)
Lemma leases_inv_insert d r :
  leases_inv d -> none_such (exclusive_clash r) d.(workspace_leases) = true ->
  leases_inv (set_workspace_leases (<[r.(WorkspaceLeaseRow.lease_id) := r]> d.(workspace_leases)) d).
Proof.
  intros [K X] Hn. split; cbn.
  - intros id x. rewrite lookup_insert_Some. intros [[<- <-]|[_ Hx]]; [done|by apply K].
  - intros i j r1 r2. rewrite !lookup_insert_Some. intros [[<- <-]|[Hi H1]] [[<- <-]|[Hj H2]] A1 A2 Hw; [done| | |by eapply X].
    + exfalso. apply Hj. pose proof (clash_none _ _ Hn A1 _ _ H2 A2 Hw) as E. by rewrite (K _ _ H2) in E.
    + exfalso. apply Hi. pose proof (clash_none _ _ Hn A2 _ _ H1 A1 (eq_sym Hw)) as E. by rewrite (K _ _ H1) in E.
Qed.

Lemma leases_get_ok id t o t' :
  leases_get id t = (Ok o, t') -> t' = t /\ o = t.(t_db).(workspace_leases) !! id /\
  forall r, o = Some r -> 0 <= r.(WorkspaceLeaseRow.lease_epoch) <= i64_max.
Proof.
  unfold leases_get. intros E. inv_store. destruct (workspace_leases (t_db t') !! id) as [r|]; cbn in *; inv_ok.
  - unfold decode_lease in *. split_and!; [done| |].
    + destruct (u64_column _ _ _); cbn in *; inv_ok. done.
    + intros r' ->. destruct (u64_column _ _ _) eqn:Eu; cbn in *; inv_ok. by apply u64_column_ok in Eu as [_ ?].
  - done.
Qed.

Lemma leases_insert_ok n t u t' :
  leases_insert n t = (Ok u, t') ->
  n.(NewWorkspaceLease.lease_epoch) <= i64_max /\
  t.(t_db).(workspace_leases) !! n.(NewWorkspaceLease.lease_id) = None /\
  none_such (exclusive_clash (lease_row_of_new n)) t.(t_db).(workspace_leases) = true /\
  t' = set_db (set_workspace_leases (<[n.(NewWorkspaceLease.lease_id) := lease_row_of_new n]>
         t.(t_db).(workspace_leases)) t.(t_db)) t.
Proof.
  unfold leases_insert. intros E. inv_store. split_and!; try done.
  - match goal with H : encode_u64 _ _ = Ok _ |- _ => by apply encode_u64_ok in H as [_ ?] end.
  - by apply absent_true.
Qed.

Lemma leases_cas_ok id e p t b t' :
  leases_cas id e p t = (Ok b, t') ->
  (b = false /\ t' = t) \/
  (b = true /\ exists r, t.(t_db).(workspace_leases) !! id = Some r /\ r.(WorkspaceLeaseRow.lease_epoch) = e /\
     (forall e', p.(LeasePatch.lease_epoch) = Some e' -> e' <= i64_max) /\
     none_such (exclusive_clash (apply_lease_patch p r)) t.(t_db).(workspace_leases) = true /\
     t' = set_db (set_workspace_leases (<[id := apply_lease_patch p r]> t.(t_db).(workspace_leases)) t.(t_db)) t).
Proof.
  unfold leases_cas. intros E. inv_store; try (by left).
  right. split; [done|]. eexists. split; [reflexivity|]. split_and!; [lia| |done|done].
  intros e' He. rewrite He in *. unfold opt_traverse, encode_u64 in *. destruct (Z.leb_spec e' i64_max); [lia|done].
Qed.

(** A patch that moves the epoch forward and keeps the mode. *)
Definition advances (e : Z) (p : LeasePatch) : Prop :=
  p.(LeasePatch.mode) = None /\ p.(LeasePatch.lease_epoch) = Some (u64_saturating_add e 1).

Lemma advances_epoch e p : p.(LeasePatch.lease_epoch) = Some (u64_saturating_add e 1) ->
  (forall e', p.(LeasePatch.lease_epoch) = Some e' -> e' <= i64_max) -> u64_saturating_add e 1 = e + 1.
Proof. intros -> Hb. specialize (Hb _ eq_refl). unfold u64_saturating_add, u64_max, i64_max in *. lia. Qed.

Lemma leases_insert_rel n : ensures (on_db leases_rel) (leases_insert n).
Proof.
  intros t u t' (_ & Ha & Hn & ->)%leases_insert_ok. split; [|done]. cbn [t_db set_db]. split.
  - intros Hi. by apply (leases_inv_insert _ (lease_row_of_new n)).
  - intros id r Hr. exists r. split; [|done]. cbn. rewrite lookup_insert_ne; [done|]. intros <-. congruence.
Qed.

Lemma leases_cas_rel id e p :
  advances e p -> (p.(LeasePatch.enforcement_state) = Some LeaseEnforcementState.Active -> False) ->
  ensures (on_db leases_rel) (leases_cas id e p).
Proof.
  intros [Hm He] Hs t b t' [[_ ->]|(_ & r & Hr & Hre & Hb & Hn & ->)]%leases_cas_ok; [split; reflexivity|].
  pose proof (advances_epoch e p He Hb) as Hs1. split; [|done]. cbn [t_db set_db]. split.
  - intros Hi. pose proof (leases_inv_insert _ (apply_lease_patch p r) Hi Hn) as Hj. cbn in Hj.
    by rewrite (li_keys _ Hi _ _ Hr) in Hj.
  - intros id' r' Hr'. cbn. destruct (decide (id = id')) as [<-|Hne].
    + exists (apply_lease_patch p r). rewrite lookup_insert_eq. split; [done|]. right. simplify_eq.
      unfold apply_lease_patch. cbn. rewrite Hm, He. cbn. split_and!; [lia|done|done|].
      destruct (LeasePatch.enforcement_state p) as [[]|]; cbn; [by destruct Hs|done|done].
    + exists r'. by rewrite lookup_insert_ne.
Qed.

#[export] Hint Resolve leases_insert_rel : ensures.
#[export] Hint Extern 1 (ensures (on_db leases_rel) (leases_cas _ _ _)) => by apply leases_cas_rel : ensures.

(** ** Services *)

Section Services.
Context `{!Ext}.

Inductive workspace_service : forall {A}, M A -> Prop :=
  | ws_acquire w o m c p now : workspace_service (acquire_lease w o m c p now)
  | ws_transfer l f o e p : workspace_service (transfer_exclusive l f o e p)
  | ws_revoke l e : workspace_service (revoke_lease l e)
  | ws_record_lease n : workspace_service (record_lease n).

Lemma acquire_lease_rel w o m c p now : ensures (on_db leases_rel) (acquire_lease w o m c p now).
Proof. unfold acquire_lease. solve_ensures. Qed.

Lemma workspace_service_rel {A} (m : M A) : workspace_service m -> ensures (on_db leases_rel) m.
Proof.
  destruct 1; [apply acquire_lease_rel| | |].
  - unfold transfer_exclusive. solve_ensures.
  - unfold revoke_lease. solve_ensures.
  - unfold record_lease. solve_ensures.
Qed.

(** Steps of the system, as the lease table sees them: a workspace service
    that succeeds, or anything that does not write leases. *)
Inductive lease_step (d d' : Db) : Prop :=
  | step_service A (m : M A) t a t' :
      workspace_service m -> m t = (Ok a, t') -> t.(t_db) = d -> t'.(t_db) = d' -> lease_step d d'
  | step_elsewhere : d'.(workspace_leases) = d.(workspace_leases) -> lease_step d d'.

Lemma lease_step_rel d d' : lease_step d d' -> leases_rel d d'.
Proof.
  intros [A m t a t' Hm E <- <-|E]; [|by apply leases_rel_same].
  by apply (workspace_service_rel m Hm _ _ _ E).
Qed.

Lemma lease_steps_rel d d' : rtc lease_step d d' -> leases_rel d d'.
Proof. induction 1 as [|d1 d2 d3 Hs _ IH]; [done|]. transitivity d2; [by apply lease_step_rel|done]. Qed.

(** ** Tokens *)

Definition lease_grants (r : WorkspaceLeaseRow) (w : WorkspaceId) (o : RunId) (e : Z) : Prop :=
  r.(WorkspaceLeaseRow.workspace_id) = w /\ r.(WorkspaceLeaseRow.owner_run_id) = o /\
  r.(WorkspaceLeaseRow.lease_epoch) = e /\ active_exclusive r = true.

Lemma verify_ok l w o e t u t' :
  verify_write_authority l w o e t = (Ok u, t') ->
  t' = t /\ exists r, t.(t_db).(workspace_leases) !! l = Some r /\ lease_grants r w o e.
Proof.
  unfold verify_write_authority. intros E. apply bind_ok_inv in E as (row & t1 & E1 & E).
  apply leases_get_ok in E1 as (-> & Hrow & _). inv_run. split; [done|]. eexists. split; [by symmetry|].
  repeat match goal with H : _ && _ = true |- _ => apply andb_prop in H as [? ?] end.
  repeat match goal with H : bool_decide _ = true |- _ => apply bool_decide_eq_true in H end.
  split_and!; try done. by apply Z.eqb_eq.
Qed.

Lemma verify_accepts l w o e r t :
  t.(t_db).(workspace_leases) !! l = Some r -> lease_grants r w o e -> 0 <= e <= i64_max ->
  verify_write_authority l w o e t = (Ok tt, t).
Proof.
  intros Hr (Hw & Ho & He & Ha) Hb. unfold verify_write_authority, leases_get, bind, query, gets, lift_res.
  cbn. rewrite Hr. unfold opt_traverse, decode_lease. rewrite He, u64_column_intro by done. cbn.
  rewrite Hw, Ho, He, Ha, !bool_decide_eq_true_2, Z.eqb_refl by done. done.
Qed.

(** C29: Write authority over a workspace is exclusive: from a consistent
    database, however workspace services and other writes follow each other,
    any two tokens the coordinator accepts for one workspace are the same lease,
    owner and epoch. *)
Theorem write_authority_exclusive d t w l1 o1 e1 u1 t1 l2 o2 e2 u2 t2 :
  leases_inv d -> rtc lease_step d t.(t_db) ->
  verify_write_authority l1 w o1 e1 t = (Ok u1, t1) -> verify_write_authority l2 w o2 e2 t = (Ok u2, t2) ->
  l1 = l2 /\ o1 = o2 /\ e1 = e2.
Proof.
  intros Hi Hs (_ & r1 & H1 & W1 & O1 & E1 & A1)%verify_ok (_ & r2 & H2 & W2 & O2 & E2 & A2)%verify_ok.
  apply (lr_inv _ _ (lease_steps_rel _ _ Hs)) in Hi.
  assert (l1 = l2) as -> by (eapply (li_exclusive _ Hi); [exact H1|exact H2|done|done|congruence]).
  rewrite H1 in H2. simplify_eq. done.
Qed.

Lemma verify_refuses l w o e t r :
  t.(t_db).(workspace_leases) !! l = Some r -> ~ lease_grants r w o e ->
  exists err, verify_write_authority l w o e t = (Err err, t).
Proof.
  intros Hr Hn. destruct (verify_write_authority l w o e t) as [[u|err] t'] eqn:E.
  - apply verify_ok in E as (_ & r2 & H2 & Hg). by simplify_eq.
  - exists err. f_equal. revert E. unfold verify_write_authority, leases_get, bind, query, gets, lift_res. cbn.
    rewrite Hr. destruct (opt_traverse _ _) as [[x|]|]; cbn; [|congruence|congruence].
    destruct (_ && _); cbn; unfold ret, raise; congruence.
Qed.

(** A lease that has moved past [e] grants nothing at or below [e], and a
    revoked one nothing at all. *)
Lemma outdated_token_refused d l r t w o e :
  d.(workspace_leases) !! l = Some r -> rtc lease_step d t.(t_db) -> e < r.(WorkspaceLeaseRow.lease_epoch) ->
  exists err, verify_write_authority l w o e t = (Err err, t).
Proof.
  intros Hr Hs He. destruct (lr_later _ _ (lease_steps_rel _ _ Hs) _ _ Hr) as (r' & Hr' & Hl).
  eapply verify_refuses; [exact Hr'|]. intros (_ & _ & E2 & _). destruct Hl as [->|[Hl _]]; lia.
Qed.

Lemma dead_lease_refused d l r t w o e :
  d.(workspace_leases) !! l = Some r -> r.(WorkspaceLeaseRow.enforcement_state) = LeaseEnforcementState.Revoked ->
  rtc lease_step d t.(t_db) -> exists err, verify_write_authority l w o e t = (Err err, t).
Proof.
  intros Hr Hd Hs. destruct (lr_later _ _ (lease_steps_rel _ _ Hs) _ _ Hr) as (r' & Hr' & Hl).
  eapply verify_refuses; [exact Hr'|]. intros (_ & _ & _ & Ha). unfold active_exclusive in Ha.
  apply andb_prop in Ha as [_ Ha%bool_decide_eq_true].
  destruct Hl as [->|(_ & _ & _ & Hrev)]; [congruence|]. rewrite (Hrev Hd) in Ha. done.
Qed.

Lemma transfer_exclusive_ok l from to e proof t row t' :
  transfer_exclusive l from to e proof t = (Ok row, t') ->
  exists r, t.(t_db).(workspace_leases) !! l = Some r /\
    lease_grants r r.(WorkspaceLeaseRow.workspace_id) from e /\ 0 <= e < i64_max /\
    row = WorkspaceLeaseRow.mk r.(WorkspaceLeaseRow.lease_id) r.(WorkspaceLeaseRow.workspace_id) to
            r.(WorkspaceLeaseRow.mode) (e + 1) r.(WorkspaceLeaseRow.enforcement_state) proof
            r.(WorkspaceLeaseRow.created_at_ms) r.(WorkspaceLeaseRow.updated_at_ms) /\
    t' = set_db (set_workspace_leases (<[l := row]> t.(t_db).(workspace_leases)) t.(t_db)) t.
Proof.
  unfold transfer_exclusive. intros E. apply bind_ok_inv in E as (o & t1 & E1 & E).
  apply leases_get_ok in E1 as (-> & Ho & Hb). apply bind_ok_inv in E as (r & t1 & E1 & E). inv_ok.
  destruct (transferable r from e) eqn:Ht; [|done].
  unfold transferable in Ht. apply andb_prop in Ht as [[Ha Hf%bool_decide_eq_true]%andb_prop He%Z.eqb_eq].
  apply bind_ok_inv in E as (b & t2 & E2 & E). apply leases_cas_ok in E2 as [[-> _]|(-> & r' & Hr' & _ & Hm & _ & ->)]; [done|].
  apply bind_ok_inv in E as (o2 & t3 & E3 & E). apply leases_get_ok in E3 as (-> & -> & _).
  cbn in E. rewrite lookup_insert_eq in E. cbn in E. unfold lift_res in E. simplify_eq. specialize (Hm _ eq_refl).
  specialize (Hb _ E1). exists r. unfold apply_lease_patch. cbn in *.
  assert (u64_saturating_add (WorkspaceLeaseRow.lease_epoch r) 1 = WorkspaceLeaseRow.lease_epoch r + 1 /\
    WorkspaceLeaseRow.lease_epoch r < i64_max) as [-> ?] by (unfold u64_saturating_add, u64_max, i64_max in *; lia).
  split_and!; try done. lia.
Qed.

(** A transfer hands exclusive authority over at once and for good: it is
    accepted only from the current owner at the current epoch, afterwards
    exactly the new owner's token at the next epoch is accepted, and whatever
    the system does next no token at or below the old epoch is accepted again. *)
Theorem transfer_fences_old_tokens l from to e proof t row t' :
  transfer_exclusive l from to e proof t = (Ok row, t') ->
  let w := row.(WorkspaceLeaseRow.workspace_id) in
  (exists r, t.(t_db).(workspace_leases) !! l = Some r /\ lease_grants r w from e) /\
  verify_write_authority l w to (e + 1) t' = (Ok tt, t') /\
  (forall w' o e', verify_write_authority l w' o e' t' = (Ok tt, t') -> w' = w /\ o = to /\ e' = e + 1) /\
  (forall t2 w' o e', rtc lease_step t'.(t_db) t2.(t_db) -> e' <= e ->
     exists err, verify_write_authority l w' o e' t2 = (Err err, t2)).
Proof.
  intros (r & Hr & Hg & He & -> & ->)%transfer_exclusive_ok. cbn [WorkspaceLeaseRow.workspace_id].
  pose proof Hg as (_ & _ & _ & Ha). split_and!; [by eauto| | |].
  - eapply verify_accepts; [cbn; apply lookup_insert_eq| |lia]. by split_and!.
  - intros w' o e' (_ & r2 & H2 & <- & <- & <- & _)%verify_ok. cbn in H2. rewrite lookup_insert_eq in H2. by simplify_eq.
  - intros t2 w' o e' Hs Hle. eapply outdated_token_refused; [|exact Hs|]; [cbn; apply lookup_insert_eq|cbn; lia].
Qed.

Lemma revoke_lease_ok l e t u t' :
  revoke_lease l e t = (Ok u, t') ->
  exists r, t.(t_db).(workspace_leases) !! l = Some r /\ r.(WorkspaceLeaseRow.lease_epoch) = e /\ e < i64_max /\
    t' = set_db (set_workspace_leases (<[l := WorkspaceLeaseRow.mk r.(WorkspaceLeaseRow.lease_id)
           r.(WorkspaceLeaseRow.workspace_id) r.(WorkspaceLeaseRow.owner_run_id) r.(WorkspaceLeaseRow.mode) (e + 1)
           LeaseEnforcementState.Revoked r.(WorkspaceLeaseRow.delegated_from) r.(WorkspaceLeaseRow.created_at_ms)
           r.(WorkspaceLeaseRow.updated_at_ms)]> t.(t_db).(workspace_leases)) t.(t_db)) t.
Proof.
  unfold revoke_lease. intros E. apply bind_ok_inv in E as (b & t1 & E1 & E).
  apply leases_cas_ok in E1 as [[-> ->]|(-> & r & Hr & He & Hm & _ & ->)]; [done|]. inv_ok.
  specialize (Hm _ eq_refl). exists r. unfold apply_lease_patch. cbn in *.
  assert (u64_saturating_add (WorkspaceLeaseRow.lease_epoch r) 1 = WorkspaceLeaseRow.lease_epoch r + 1 /\
    WorkspaceLeaseRow.lease_epoch r < i64_max) as [-> ?] by (unfold u64_saturating_add, u64_max, i64_max in *; lia).
  done.
Qed.

Lemma acquire_exclusive_run w o proof now t :
  let id := new_uuid_v7 t.(t_ids) in
  let row := WorkspaceLeaseRow.mk id w o WorkspaceAccessMode.ExclusiveWrite 1 LeaseEnforcementState.Active proof now now in
  let t1 := mkTxn t.(t_db) t.(t_ctx) (S t.(t_ids)) t.(t_clock) in
  t.(t_db).(workspace_leases) !! id = None -> is_Some (t.(t_db).(runs) !! o) ->
  acquire_lease w o WorkspaceAccessMode.ExclusiveWrite [] proof now t =
  if none_such (exclusive_clash row) t.(t_db).(workspace_leases)
  then (Ok row, set_db (set_workspace_leases (<[id := row]> t.(t_db).(workspace_leases)) t.(t_db)) t1)
  else (Err unique_failure, t1).
Proof.
  intros id row t1 Hf [r Hr]. unfold acquire_lease. rewrite !bool_decide_eq_false_2 by done. cbn [negb orb].
  unfold leases_insert, bind, draw_uuid, query, gets, lift_res, lease_row_of_new.
  cbn. fold id. unfold absent. rewrite Hf, Hr. fold row. by destruct (none_such _ _).
Qed.

Lemma none_such_false {K A} `{Countable K} (p : A -> bool) (m : gmap K A) :
  none_such p m = false -> exists k v, m !! k = Some v /\ p v = true.
Proof.
  unfold none_such. rewrite <- not_true_iff_false, forallb_forall. intros Hn.
  destruct (decide (Exists (fun kv => p kv.2 = true) (map_to_list m))) as [Hx|Hx].
  - apply Exists_exists in Hx as ([k v] & Hin & Hp). exists k, v. split; [|exact Hp].
    by apply elem_of_map_to_list, list_elem_of_In.
  - destruct Hn. intros kv Hin. apply negb_true_iff, not_true_is_false. intros Hp. apply Hx, Exists_exists.
    exists kv. by split.
Qed.

(** An exclusive lease is granted exactly when the workspace has none that
    is active; the winner's token is accepted, a loser is told of the conflict
    and leaves the database as it was. *)
Theorem exclusive_lease_exact w o proof now t :
  let id := new_uuid_v7 t.(t_ids) in
  leases_inv t.(t_db) -> t.(t_db).(workspace_leases) !! id = None -> is_Some (t.(t_db).(runs) !! o) ->
  match acquire_lease w o WorkspaceAccessMode.ExclusiveWrite [] proof now t with
  | (Ok row, t') =>
      (forall l r, t.(t_db).(workspace_leases) !! l = Some r -> active_exclusive r = true ->
         r.(WorkspaceLeaseRow.workspace_id) <> w) /\
      verify_write_authority id w o 1 t' = (Ok tt, t')
  | (Err e, t') =>
      err_code e = Conflict /\ t'.(t_db) = t.(t_db) /\
      exists l r, t.(t_db).(workspace_leases) !! l = Some r /\ active_exclusive r = true /\
        r.(WorkspaceLeaseRow.workspace_id) = w
  end.
Proof.
  intros id Hi Hf Ho. rewrite acquire_exclusive_run by done. fold id.
  set (row := WorkspaceLeaseRow.mk _ _ _ _ _ _ _ _ _). destruct (none_such _ _) eqn:Hn; split.
  - intros l r Hr Ha Hw. assert (id = l); [|congruence]. rewrite <- (li_keys _ Hi _ _ Hr). symmetry.
    by eapply (clash_none row).
  - eapply verify_accepts; [cbn; apply lookup_insert_eq| |unfold i64_max; lia]. by split_and!.
  - done.
  - split; [done|]. apply none_such_false in Hn as (l & r & Hr & Hc). unfold exclusive_clash in Hc.
    rewrite !andb_true_iff, bool_decide_eq_true in Hc. destruct Hc as [[[_ Ha] Hw] _]. eauto.
Qed.

(** Revocation is final and makes room: no token of a revoked lease is
    accepted in any later state, and once the active exclusive lease of a
    workspace is revoked the next run that asks gets one. *)
Theorem revocation_frees_workspace l e t u t' :
  leases_inv t.(t_db) -> revoke_lease l e t = (Ok u, t') ->
  (forall t2 w o e', rtc lease_step t'.(t_db) t2.(t_db) ->
     exists err, verify_write_authority l w o e' t2 = (Err err, t2)) /\
  (forall r o proof now, t.(t_db).(workspace_leases) !! l = Some r -> active_exclusive r = true ->
     t'.(t_db).(workspace_leases) !! new_uuid_v7 t'.(t_ids) = None -> is_Some (t'.(t_db).(runs) !! o) ->
     is_ok (fst (acquire_lease r.(WorkspaceLeaseRow.workspace_id) o WorkspaceAccessMode.ExclusiveWrite [] proof now t')) = true).
Proof.
  intros Hi (r & Hr & He & Hlt & ->)%revoke_lease_ok. set (r' := WorkspaceLeaseRow.mk _ _ _ _ _ _ _ _ _). split.
  - intros t2 w o e' Hs. eapply dead_lease_refused; [| |exact Hs]; [cbn; apply lookup_insert_eq|done].
  - intros r0 o proof now Hr0 Ha Hf Ho. rewrite acquire_exclusive_run by done. simplify_eq.
    set (row := WorkspaceLeaseRow.mk (new_uuid_v7 _) _ _ _ _ _ _ _ _). destruct (none_such _ _) eqn:Hn; [done|].
    apply none_such_false in Hn as (l2 & r2 & H2 & Hc). unfold exclusive_clash in Hc.
    rewrite !andb_true_iff, !bool_decide_eq_true in Hc. destruct Hc as [[[_ Ha2] Hw] _]. exfalso.
    cbn in H2. rewrite lookup_insert_Some in H2. destruct H2 as [[<- <-]|[Hne H2]].
    { unfold active_exclusive in Ha2. apply andb_prop in Ha2 as [_ Ha2%bool_decide_eq_true]. done. }
    apply Hne.
    by eapply (li_exclusive _ Hi).
Qed.
End Services.
