(* ===== verification/LocalFiles.v ===== *)
(** * Files of a local workspace ([workspace/src/local.rs])

    [resolve_relative], [read] and [write] over a model of the Unix file
    system: a tree of directories, files and symbolic links, with the path
    resolution of [std::fs::canonicalize], [read], [write] and
    [create_dir_all].  Permissions, mounts and concurrent changes of the file
    system are left out. *)

From S2P Require Import Prelude Domain Ids Text Models StoreBase.

Open Scope string_scope.
Open Scope Z_scope.

(** ** The file system *)

(** An absolute path is the list of its components; [[]] is the root. *)
Abbreviation FsPath := (list string) (only parsing).

Inductive Node :=
  | Dir
  | File (content : bytes)
  | Symlink (absolute : bool) (target : list string).

#[export] Instance Node_eq_dec : EqDecision Node.
Proof. solve_decision. Defined.

Abbreviation Fs := (gmap (list string) Node) (only parsing).

Definition parent_path (p : FsPath) : FsPath := take (length p - 1) p.

(** The limit of symbolic links in one resolution. *)
Definition MAX_LINKS : nat := 40.

(** Path resolution: where [todo] leads from the directory [cur].  With
    [create], the last name need not exist. *)
Fixpoint resolve_path (create : bool) (links : nat) (fs : Fs) {struct links} : FsPath -> list string -> option FsPath :=
  fix walk (cur : FsPath) (todo : list string) {struct todo} : option FsPath :=
    match todo with
    | [] => Some cur
    | name :: rest =>
        if decide (name = "" \/ name = ".") then walk cur rest
        else if decide (name = "..") then walk (parent_path cur) rest
        else
          match fs !! (cur ++ [name])%list with
          | None => if create && bool_decide (rest = []) then Some (cur ++ [name])%list else None
          | Some Dir => walk (cur ++ [name])%list rest
          | Some (File _) => if decide (rest = []) then Some (cur ++ [name])%list else None
          | Some (Symlink absolute target) =>
              match links with
              | O => None
              | S links => resolve_path create links fs (if absolute then [] else cur) (target ++ rest)%list
              end
          end
    end.

(** [Path::canonicalize]. *)
Definition canonicalize (fs : Fs) (p : FsPath) : option FsPath := resolve_path false MAX_LINKS fs [] p.

(** [std::fs::read]. *)
Definition fs_read (fs : Fs) (p : FsPath) : option bytes :=
  match canonicalize fs p with
  | Some c => match fs !! c with Some (File b) => Some b | _ => None end
  | None => None
  end.

(** [std::fs::write]: opens with create and truncate, following links. *)
Definition fs_write (fs : Fs) (p : FsPath) (data : bytes) : option Fs :=
  match resolve_path true MAX_LINKS fs [] p with
  | Some [] | None => None
  | Some c => match fs !! c with Some Dir => None | _ => Some (<[c := File data]> fs) end
  end.

Definition is_dir (fs : Fs) (p : FsPath) : bool :=
  match canonicalize fs p with
  | Some [] => true
  | Some c => bool_decide (fs !! c = Some Dir)
  | None => false
  end.

Inductive MkdirError := DirMissing | DirExists.

(** [mkdir]: the parent must resolve to a directory, the name must be free. *)
Definition mkdir (fs : Fs) (p : FsPath) : Fs + MkdirError :=
  match list.last p with
  | None => inr DirExists
  | Some name =>
      if is_dir fs (parent_path p) then
        match canonicalize fs (parent_path p) with
        | Some c => match fs !! (c ++ [name])%list with
                    | Some _ => inr DirExists
                    | None => inl (<[(c ++ [name])%list := Dir]> fs)
                    end
        | None => inr DirMissing
        end
      else inr DirMissing
  end.

(** [create_dir_all]; every turn shortens the path. *)
Fixpoint create_dir_all (fuel : nat) (fs : Fs) (p : FsPath) : option Fs :=
  match fuel with
  | O => Some fs
  | S fuel =>
      match mkdir fs p with
      | inl fs' => Some fs'
      | inr DirExists => if is_dir fs p then Some fs else None
      | inr DirMissing =>
          match create_dir_all fuel fs (parent_path p) with
          | None => None
          | Some fs1 => match mkdir fs1 p with
                        | inl fs2 => Some fs2
                        | inr _ => if is_dir fs1 p then Some fs1 else None
                        end
          end
      end
  end.

(** ** The workspace operations *)

Inductive Component := CurDir | ParentDir | Normal (name : string).

(** [Path::components] of a relative path: empty and inner [.] components
    disappear, a leading [.] stays. *)
Definition component_of (leading : bool) (s : string) : list Component :=
  if decide (s = "") then []
  else if decide (s = ".") then if leading then [CurDir] else []
  else if decide (s = "..") then [ParentDir]
  else [Normal s].

Definition path_components (relative : string) : list Component :=
  match split_on "/" relative with
  | [] => []
  | first :: rest => (component_of true first ++ concat (component_of false <$> rest))%list
  end.

Definition denied_path (message : string) : KernelError := kerr FailedPrecondition message.
Definition io_error (op : string) : KernelError :=
  mkKernelError Unavailable RetrySafe ("workspace " +:+ op +:+ " failed").

Definition escapes_workspace (relative : string) : KernelError :=
  denied_path ("path '" +:+ relative +:+ "' escapes the workspace").

(** The [for] over the components: only ordinary names are kept. *)
Fixpoint normal_parts (relative : string) (l : list Component) : Res (list string) :=
  match l with
  | [] => Ok []
  | Normal c :: l => let? parts := normal_parts relative l in Ok (c :: parts)
  | _ :: _ => Err (escapes_workspace relative)
  end.

(** The probe loop, over the length of the probe: the deepest existing ancestor
    must lie in the root. *)
Fixpoint probe_loop (fuel : nat) (fs : Fs) (root : FsPath) (relative : string) (probe : FsPath) : Res unit :=
  match canonicalize fs probe with
  | Some c => if bool_decide (root `prefix_of` c) then Ok tt else Err (escapes_workspace relative)
  | None =>
      match fuel with
      | O => Ok tt
      | S fuel => probe_loop fuel fs root relative (parent_path probe)
      end
  end.

Definition resolve_relative (fs : Fs) (root : FsPath) (relative : string) : Res FsPath :=
  if str_is_empty relative || starts_with "/" relative || str_contains "\" relative
  then Err (denied_path ("path '" +:+ relative +:+ "' is not a normalized relative path"))
  else
    let? parts := normal_parts relative (path_components relative) in
    let? root_canonical := ok_or (canonicalize fs root) (io_error "canonicalize workspace") in
    let joined := (root_canonical ++ parts)%list in
    let? _ := probe_loop (length joined) fs root_canonical relative joined in
    Ok joined.

Definition read_file (fs : Fs) (root : FsPath) (relative : string) : Res bytes :=
  let? path := resolve_relative fs root relative in
  ok_or (fs_read fs path) (io_error "read").

Definition write_file (root : FsPath) (relative : string) (data : bytes) (fs : Fs) : Res Fs :=
  let? path := resolve_relative fs root relative in
  let? fs1 := match path with
              | [] => Ok fs
              | _ => ok_or (create_dir_all (length path) fs (parent_path path)) (io_error "mkdir")
              end in
  ok_or (fs_write fs1 path data) (io_error "write").

(** ** Resolution *)

Lemma resolve_nil create links fs cur : resolve_path create links fs cur [] = Some cur.
Proof. by destruct links. Qed.

Lemma resolve_cons create links fs cur name rest :
  resolve_path create links fs cur (name :: rest) =
  if decide (name = "" \/ name = ".") then resolve_path create links fs cur rest
  else if decide (name = "..") then resolve_path create links fs (parent_path cur) rest
  else
    match fs !! (cur ++ [name])%list with
    | None => if create && bool_decide (rest = []) then Some (cur ++ [name])%list else None
    | Some Dir => resolve_path create links fs (cur ++ [name])%list rest
    | Some (File _) => if decide (rest = []) then Some (cur ++ [name])%list else None
    | Some (Symlink absolute target) =>
        match links with
        | O => None
        | S links => resolve_path create links fs (if absolute then [] else cur) (target ++ rest)%list
        end
    end.
Proof. by destruct links. Qed.

(** What exists is found the same way when a missing last name is allowed. *)
Lemma resolve_create links fs : forall cur p c,
  resolve_path false links fs cur p = Some c -> resolve_path true links fs cur p = Some c.
Proof.
  induction links as [|links IHl]; intros cur p; revert cur; induction p as [|name rest IHp]; intros cur c;
    rewrite ?resolve_nil, ?resolve_cons; try done;
    (case_decide; [apply IHp|]); (case_decide; [apply IHp|]);
    destruct (fs !! _) as [[| |absolute target]|]; try done; first [apply IHp|apply IHl].
Qed.

Definition ordinary (name : string) : Prop := name <> "" /\ name <> "." /\ name <> "..".

Lemma parent_forall (P : string -> Prop) cur : Forall P cur -> Forall P (parent_path cur).
Proof. apply Forall_take. Qed.

(** Resolved paths consist of ordinary names. *)
Lemma resolve_ordinary create links fs : forall cur p c,
  resolve_path create links fs cur p = Some c -> Forall ordinary cur -> Forall ordinary c.
Proof.
  induction links as [|links IHl]; intros cur p; revert cur; induction p as [|name rest IHp]; intros cur c;
    rewrite ?resolve_nil, ?resolve_cons; try (by intros [= <-]);
    (case_decide; [apply IHp|]); (case_decide as Hup; [intros E Hc; eapply IHp; [exact E|by apply parent_forall]|]);
    (assert (Hn : Forall ordinary cur -> Forall ordinary (cur ++ [name])) by
      (intros Hc; apply Forall_app; split; [done|]; constructor; [unfold ordinary; tauto|constructor]));
    destruct (fs !! _) as [[| |absolute target]|]; try done; intros E Hc.
  1,4: eapply IHp; [exact E|by apply Hn].
  1,3: case_decide; [|done]; injection E as <-; by apply Hn.
  1,3: destruct (_ && _); [|done]; injection E as <-; by apply Hn.
  eapply IHl; [exact E|]. by destruct absolute.
Qed.

(** A missing last name, after a path that resolves to a directory. *)
Lemma resolve_missing create links fs name : ordinary name -> forall cur p c,
  resolve_path false links fs cur p = Some c -> c = [] \/ fs !! c = Some Dir -> fs !! (c ++ [name])%list = None ->
  resolve_path create links fs cur (p ++ [name]) = if create then Some (c ++ [name])%list else None.
Proof.
  intros (N1 & N2 & N3). assert (Hlast : forall links cur, fs !! (cur ++ [name])%list = None ->
    resolve_path create links fs cur [name] = if create then Some (cur ++ [name])%list else None).
  { intros l cur Hn. rewrite resolve_cons, !decide_False by tauto. rewrite Hn, bool_decide_eq_true_2 by done. by destruct create. }
  induction links as [|links IHl]; intros cur p; revert cur; induction p as [|n rest IHp]; intros cur c;
    rewrite ?resolve_nil; cbn [app]; rewrite ?(resolve_cons _ _ _ _ n); try (by intros [= <-] _; apply Hlast);
    (case_decide; [apply IHp|]); (case_decide; [apply IHp|]);
    destruct (fs !! (cur ++ [n])%list) as [[|b|absolute target]|] eqn:Hn; try done; try apply IHp;
    try (case_decide as Hr; [|done]; intros [= <-] [Hx|Hx] _; [by destruct cur|congruence]).
  rewrite app_assoc. apply IHl.
Qed.

(** ** Confinement *)

Lemma parent_snoc (q : list string) n : parent_path (q ++ [n]) = q.
Proof. unfold parent_path. rewrite length_app, Nat.add_sub. apply take_app_length. Qed.

Definition dirlike (fs : Fs) (p : FsPath) : Prop := p = [] \/ fs !! p = Some Dir.

(** A tree: every node lies in a directory. *)
Definition tree (fs : Fs) : Prop := forall p, is_Some (fs !! p) -> dirlike fs (parent_path p).

Lemma tree_parent fs p : tree fs -> dirlike fs p -> dirlike fs (parent_path p).
Proof. intros Ht [->|Hp]; [by left|]. apply Ht. eauto. Qed.

Lemma is_dir_spec fs p : is_dir fs p = true <-> exists c, canonicalize fs p = Some c /\ dirlike fs c.
Proof.
  unfold is_dir, dirlike. destruct (canonicalize fs p) as [[|n c]|]; [split; eauto| |split; [done|by intros (? & ? & _)]].
  rewrite bool_decide_eq_true. split; [eauto|]. intros (c' & [= <-] & [?|?]); done.
Qed.

(** Only directories are walked through. *)
Lemma resolve_head links fs n : tree fs -> forall cur p c,
  dirlike fs cur -> resolve_path false links fs cur (p ++ [n]) = Some c ->
  exists cp, resolve_path false links fs cur p = Some cp /\ dirlike fs cp.
Proof.
  intros Ht. induction links as [|links IHl]; intros cur p; revert cur; induction p as [|name rest IHp]; intros cur c Hc;
    rewrite ?resolve_nil; try (by eauto); cbn [app]; rewrite !(resolve_cons _ _ _ _ name);
    (case_decide; [by apply IHp|]); (case_decide; [apply IHp; by apply tree_parent|]);
    destruct (fs !! _) as [[| |absolute target]|] eqn:Hn; try done; try (apply IHp; by right);
    try (by rewrite decide_False by (by destruct rest)).
  rewrite app_assoc. apply IHl. destruct absolute; [by left|done].
Qed.

(** Nothing is created for a directory that exists. *)
Lemma create_dir_exists fuel fs p :
  tree fs -> Forall ordinary p -> is_dir fs p = true -> create_dir_all fuel fs p = Some fs.
Proof.
  intros Ht Ho Hd. destruct fuel as [|fuel]; [done|]. cbn [create_dir_all].
  destruct p as [|n q _] using rev_ind; [by rewrite Hd|]. apply Forall_app in Ho as [_ Hn]. apply list.Forall_cons in Hn as [Hn _].
  pose proof Hd as (c & Hc & _)%is_dir_spec. destruct (resolve_head _ _ _ Ht [] q c (or_introl eq_refl) Hc) as (cq & Hq & Hdq).
  unfold mkdir. rewrite last_snoc, parent_snoc. rewrite (proj2 (is_dir_spec fs q)) by eauto.
  unfold canonicalize at 1. rewrite Hq. destruct (fs !! (cq ++ [n])%list) eqn:Hf; [by rewrite Hd|].
  pose proof (resolve_missing false _ _ _ Hn _ _ _ Hq Hdq Hf) as Hm. unfold canonicalize in Hc. congruence.
Qed.

(** Reading stays in the workspace: whatever links the tree holds, a file
    that is read has its real path below the real path of the workspace root. *)
Theorem read_stays_inside fs root relative b :
  read_file fs root relative = Ok b ->
  exists top c, canonicalize fs root = Some top /\ top `prefix_of` c /\ fs !! c = Some (File b).
Proof.
  unfold read_file, resolve_relative. intros E. apply res_bind_ok_inv in E as (path & Hp & E%ok_or_ok).
  destruct (_ || _); [done|]. apply res_bind_ok_inv in Hp as (parts & _ & Hp).
  apply res_bind_ok_inv in Hp as (top & Ht%ok_or_ok & Hp). apply res_bind_ok_inv in Hp as (u & Hl & [= <-]).
  unfold fs_read in E. destruct (canonicalize fs (top ++ parts)) as [c|] eqn:Hc; [|done].
  exists top, c. split; [done|]. split; [|by destruct (fs !! c) as [[]|]; simplify_eq].
  destruct (length (top ++ parts)); cbn [probe_loop] in Hl; rewrite Hc in Hl; by case_bool_decide.
Qed.

Lemma normal_parts_ordinary relative l parts : 
  (forall c, Normal c ∈ l -> ordinary c) -> normal_parts relative l = Ok parts -> Forall ordinary parts.
Proof.
  revert parts. induction l as [|[| |c] l IH]; intros parts Hl E; cbn in E; [by injection E as <-|done|done|].
  apply res_bind_ok_inv in E as (ps & Hp & [= <-]). constructor; [apply Hl; left|]. apply IH; [|done].
  intros c' Hc'. apply Hl. by right.
Qed.

Lemma component_ordinary leading s c : Normal c ∈ component_of leading s -> ordinary c.
Proof.
  unfold component_of. case_decide; [by intros ?%not_elem_of_nil|]. case_decide.
  { destruct leading; [by intros ?%list_elem_of_singleton|by intros ?%not_elem_of_nil]. }
  case_decide; [by intros ?%list_elem_of_singleton|]. intros [= ->]%list_elem_of_singleton. done.
Qed.

Lemma components_ordinary relative c : Normal c ∈ path_components relative -> ordinary c.
Proof.
  unfold path_components. destruct (split_on "/" relative) as [|first rest]; [by intros ?%not_elem_of_nil|].
  intros [Hc|Hc]%elem_of_app; [by eapply component_ordinary|].
  apply list_elem_of_In, in_concat in Hc as (x & Hx & Hc). apply list_elem_of_In, list_elem_of_fmap in Hx as (y & -> & _).
  by eapply component_ordinary, list_elem_of_In.
Qed.

Lemma resolve_relative_ok fs root relative path :
  resolve_relative fs root relative = Ok path ->
  exists top parts, canonicalize fs root = Some top /\ path = (top ++ parts)%list /\ Forall ordinary path /\
    probe_loop (length path) fs top relative path = Ok tt.
Proof.
  unfold resolve_relative. destruct (_ || _); [done|]. intros Hp. apply res_bind_ok_inv in Hp as (parts & Hps & Hp).
  apply res_bind_ok_inv in Hp as (top & Ht%ok_or_ok & Hp). apply res_bind_ok_inv in Hp as ([] & Hl & [= <-]).
  exists top, parts. split_and!; try done. apply Forall_app. split.
  - eapply resolve_ordinary; [exact Ht|constructor].
  - eapply normal_parts_ordinary; [|exact Hps]. apply components_ordinary.
Qed.

Lemma probe_first fuel fs top relative p c :
  canonicalize fs p = Some c -> probe_loop fuel fs top relative p = Ok tt -> top `prefix_of` c.
Proof. intros Hc. destruct fuel; cbn [probe_loop]; rewrite Hc; by case_bool_decide. Qed.

(** Writing stays in the workspace as long as the name written is not a
    dangling link in an existing directory: exactly one file changes, its real
    path is below the real path of the workspace root, and it holds the data. *)
Theorem write_stays_inside fs root relative data fs' path :
  tree fs -> resolve_relative fs root relative = Ok path -> write_file root relative data fs = Ok fs' ->
  is_dir fs (parent_path path) = true ->
  (canonicalize fs path = None -> forall dir name, canonicalize fs (parent_path path) = Some dir ->
     list.last path = Some name -> fs !! (dir ++ [name])%list = None) ->
  exists top c, canonicalize fs root = Some top /\ top `prefix_of` c /\ fs' = <[c := File data]> fs.
Proof.
  intros Ht Hp Hw Hd Hlink. pose proof Hp as (top & parts & Htop & _ & Ho & Hl)%resolve_relative_ok.
  unfold write_file in Hw. rewrite Hp in Hw. cbn [res_bind] in Hw. apply res_bind_ok_inv in Hw as (fs1 & Hmk & Hw%ok_or_ok).
  assert (Hop : Forall ordinary (parent_path path)) by (by apply parent_forall).
  assert (fs1 = fs) as ->. { destruct path; [by injection Hmk|]. rewrite create_dir_exists in Hmk by done. by injection Hmk. }
  assert (Hc : exists c, resolve_path true MAX_LINKS fs [] path = Some c /\ top `prefix_of` c).
  { destruct (canonicalize fs path) as [c|] eqn:Hc; [exists c; split; [by apply resolve_create|by eapply probe_first]|].
    destruct path as [|name q _] using rev_ind; [done|]. rewrite parent_snoc in *. apply is_dir_spec in Hd as (dir & Hq & Hdir).
    exists (dir ++ [name])%list. apply Forall_app in Ho as [_ Ho]. apply list.Forall_cons in Ho as [Ho _]. split.
    - apply (resolve_missing true _ _ _ Ho _ _ _ Hq Hdir). by apply Hlink; rewrite ?last_snoc.
    - rewrite length_app, Nat.add_comm in Hl. cbn [Nat.add length probe_loop] in Hl. rewrite Hc, parent_snoc in Hl.
      by apply prefix_app_r, (probe_first _ _ _ _ _ _ Hq Hl). }
  destruct Hc as (c & Hc & Hpre). exists top, c. split; [done|]. split; [done|].
  unfold fs_write in Hw. rewrite Hc in Hw. destruct c as [|n c]; [done|]. destruct (fs !! (n :: c)) as [[]|]; by simplify_eq.
Qed.

(** ** A dangling link *)

Definition link_fs : Fs :=
  <[["etc"] := Dir]> (<[["ws"] := Dir]> (<[["ws"; "out"] := Symlink true ["etc"; "new"]]> ∅)).

Lemma link_fs_tree : tree link_fs.
Proof.
  intros p [n Hn]. unfold link_fs in Hn. rewrite !lookup_insert_Some, lookup_empty in Hn.
  destruct Hn as [[<- _]|[_ [[<- _]|[_ [[<- _]|[_ ?]]]]]]; [by left|by left|by right|done].
Qed.

(** A link inside the workspace whose target does not exist yet defeats the
    confinement: the probe accepts the path because only the workspace itself
    exists, and the write then creates the file the link names, outside. *)
Theorem dangling_link_escapes data :
  exists fs', write_file ["ws"] "out" data link_fs = Ok fs' /\ canonicalize link_fs ["ws"] = Some ["ws"] /\
    link_fs !! ["etc"; "new"] = None /\ fs' !! ["etc"; "new"] = Some (File data) /\ ~ ["ws"] `prefix_of` ["etc"; "new"].
Proof.
  assert (Hw : match write_file ["ws"] "out" data link_fs with
               | Ok fs' => fs' !! ["etc"; "new"] = Some (File data) | Err _ => False end) by (vm_compute; reflexivity).
  destruct (write_file ["ws"] "out" data link_fs) as [fs'|]; [|done]. exists fs'.
  split_and!; [done|vm_compute; reflexivity|vm_compute; reflexivity|done|]. intros [k Hk]. discriminate Hk.
Qed.
