(* ===== verification/Forks.v ===== *)
(** * Workspace forks ([workspace/src/git.rs], [local.rs], [coordinator.rs])

    The operations on the host: git commands, the recursive copy of a directory,
    forks with the rows they record, and merges.  The file system is that of
    [LocalFiles]; the [git] program is a parameter that answers a command and
    may change the file system, and so is the order of a directory listing. *)

From S2P Require Import Prelude Domain Ids Text Models StoreBase Store ExtensionStore EffectPolicy Effects.
From S2P Require Import ResourceUri LocalFiles Workspace.

Open Scope string_scope.
Open Scope Z_scope.

(** The output of a command: its exit status, and its output and error text as
    [String::from_utf8_lossy] reads them. *)
Record GitOutput := mkGitOutput { go_success : bool; go_stdout : string; go_stderr : string }.

(** The host: [Command::new("git").args(..).output()], which fails to spawn
    with an error text; the names [read_dir] lists for a directory; the text of
    an operating-system error. *)
Class WorkspaceHost := {
  git : list string -> Fs -> (GitOutput + string) * Fs;
  dir_names : Fs -> FsPath -> list string;
  os_error : string -> FsPath -> string }.

(** Programs over the file system. *)
Abbreviation Disk := (ST Fs).

(** [Path::display] of an absolute path. *)
Definition display (p : FsPath) : string := "/" +:+ join_with "/" p.

Section Git.
Context `{!WorkspaceHost}.

Definition run_command (args : list string) : Disk (GitOutput + string) :=
  fun fs => let (o, fs') := git args fs in (Ok o, fs').

Definition git_err (op detail : string) : KernelError :=
  kerr Unavailable ("git " +:+ op +:+ " failed: " +:+ str_trim detail).

Definition is_git_repo (dir : FsPath) : Disk bool :=
  let! o := run_command ["-C"; display dir; "rev-parse"; "--is-inside-work-tree"] in
  ret match o with
      | inl o => o.(go_success) && bool_decide (str_trim o.(go_stdout) = "true")
      | inr _ => false
      end.

(** A git command that must succeed; answers its output. *)
Definition git_checked (op : string) (args : list string) : Disk string :=
  let! o := run_command args in
  match o with
  | inr e => raise (git_err op e)
  | inl o => if o.(go_success) then ret o.(go_stdout) else raise (git_err op o.(go_stderr))
  end.

Definition head_revision (dir : FsPath) : Disk string :=
  let! out := git_checked "rev-parse" ["-C"; display dir; "rev-parse"; "HEAD"] in
  ret (str_trim out).

Definition add_worktree (repo : FsPath) (revision : string) (target : FsPath) : Disk unit :=
  do! git_checked "worktree add" ["-C"; display repo; "worktree"; "add"; "--detach"; display target; revision] in
  ret tt.

Definition remove_worktree (repo target : FsPath) : Disk unit :=
  do! git_checked "worktree remove" ["-C"; display repo; "worktree"; "remove"; "--force"; display target] in
  ret tt.

Definition worktree_base (dir : FsPath) : Disk string := head_revision dir.

Definition list_files (dir : FsPath) : Disk (list string) :=
  let! out := git_checked "ls-files"
    ["-C"; display dir; "ls-files"; "-z"; "--cached"; "--others"; "--exclude-standard"] in
  ret (List.filter (fun s => negb (str_is_empty s)) (split_on "000" out)).

(** ** Copies *)

(** [std::fs::symlink_metadata]: the node itself, links not followed. *)
Definition lstat (fs : Fs) (p : FsPath) : option Node :=
  match list.last p with
  | None => Some Dir
  | Some name => match canonicalize fs (parent_path p) with Some c => fs !! (c ++ [name])%list | None => None end
  end.

(** [std::fs::read_dir], read to its end. *)
Definition read_dir (fs : Fs) (p : FsPath) : option (list string) :=
  match canonicalize fs p with
  | Some c => if is_dir fs c then Some (dir_names fs c) else None
  | None => None
  end.

(** [std::fs::copy]. *)
Definition fs_copy (fs : Fs) (from to : FsPath) : option Fs :=
  match fs_read fs from with Some b => fs_write fs to b | None => None end.

(** A call of the operating system that changes the file system or fails. *)
Definition os_call (op : string) (p : FsPath) (f : Fs -> option Fs) : Disk unit :=
  fun fs => match f fs with Some fs' => (Ok tt, fs') | None => (Err (git_err op (os_error op p)), fs) end.

Definition OUT_OF_FUEL : KernelError := kerr Internal "out of fuel".

(** [copy_tree], over the depth of the tree. *)
Fixpoint copy_tree (fuel : nat) (src dst : FsPath) : Disk unit :=
  match fuel with
  | O => raise OUT_OF_FUEL
  | S fuel =>
      let! dir := gets (fun fs => is_dir fs src) in
      guard! dir else git_err "copy" (display src +:+ " is not a directory") in
      do! os_call "mkdir" dst (fun fs => create_dir_all (length dst) fs dst) in
      let! entries := gets (fun fs => read_dir fs src) in
      let! names := lift_res (ok_or entries (git_err "read_dir" (os_error "read_dir" src))) in
      for_each names (fun name =>
        let entry := (src ++ [name])%list in
        let dest := (dst ++ [name])%list in
        let! stat := gets (fun fs => lstat fs entry) in
        let! meta := lift_res (ok_or stat (git_err "stat" (os_error "stat" entry))) in
        match meta with
        | Dir => copy_tree fuel entry dest
        | File _ => os_call "copy file" dest (fun fs => fs_copy fs entry dest)
        | Symlink _ _ => ret tt
        end)
  end.

(** ** Workspaces and forks ([local.rs]) *)

Definition GIT_WORKTREE : string := "git-worktree".
Definition COPY_FORK : string := "copy-fork".

Record AdapterCapabilities := mkAdapterCapabilities { ac_kind : string; ac_git_semantic : bool; ac_shared_write : bool }.

Definition capabilities (root : FsPath) : Disk AdapterCapabilities :=
  let! repo := is_git_repo root in
  ret (if repo then mkAdapterCapabilities GIT_WORKTREE true false else mkAdapterCapabilities COPY_FORK false false).

Definition base_revision (root : FsPath) : Disk (option string) :=
  let! repo := is_git_repo root in
  if repo then let! r := head_revision root in ret (Some r) else ret None.

(** Programs over the database and the file system. *)
Abbreviation Host := (ST (Txn * Fs)).

Definition on_txn {A} (m : M A) : Host A := fun s => let (r, t) := m s.1 in (r, (t, s.2)).
Definition on_disk {A} (m : Disk A) : Host A := fun s => let (r, fs) := m s.2 in (r, (s.1, fs)).

(** The copy of the whole file system at most: deeper than its node count no
    tree is. *)
Definition copy_fuel (fs : Fs) : nat := S (size fs).
Definition copy_directory (src dst : FsPath) : Disk unit := fun fs => copy_tree (copy_fuel fs) src dst fs.

Definition fork (parent_root : FsPath) (parent child : WorkspaceId) (child_root : FsPath) (now_ms : Z)
    : Host AdapterCapabilities :=
  let! caps := on_disk (capabilities parent_root) in
  if caps.(ac_git_semantic) then
    let! row := on_txn (workspaces_get parent) in
    let! prow := lift_res (ok_or row (kerr NotFound "parent workspace row missing")) in
    let! base := lift_res (ok_or prow.(WorkspaceRow.base_revision)
                    (kerr FailedPrecondition "parent workspace has no recorded base revision")) in
    do! on_disk (add_worktree parent_root base child_root) in
    do! on_txn (workspaces_insert (NewWorkspace.mk child GIT_WORKTREE (Some base) (Some parent) now_ms)) in
    ret caps
  else
    do! on_disk (copy_directory parent_root child_root) in
    do! on_txn (workspaces_insert (NewWorkspace.mk child COPY_FORK None (Some parent) now_ms)) in
    ret caps.

Definition record_workspace (workspace : WorkspaceId) (root : FsPath) (now_ms : Z) : Host AdapterCapabilities :=
  let! caps := on_disk (capabilities root) in
  let! base := on_disk (base_revision root) in
  do! on_txn (workspaces_insert (NewWorkspace.mk workspace caps.(ac_kind) base None now_ms)) in
  ret caps.

(** ** The coordinator's forks and merges ([coordinator.rs]) *)

Definition fork_for_child `{!Ext} (parent_root : FsPath) (parent child : WorkspaceId) (child_root : FsPath)
    (child_owner : RunId) (now_ms : Z) : Host WorkspaceLeaseRow :=
  let! _ := fork parent_root parent child child_root now_ms in
  on_txn (acquire_lease child child_owner WorkspaceAccessMode.ExclusiveWrite [] [] now_ms).

Definition run_git (dir : FsPath) (args : list string) : Disk unit :=
  let! o := run_command ("-C" :: display dir :: args) in
  match o with
  | inr e => raise (kerr Internal ("git spawn: " +:+ e))
  | inl o => if o.(go_success) then ret tt else raise (kerr Internal (str_trim o.(go_stderr)))
  end.

Definition conflicted_paths (dir : FsPath) : Disk (list string) :=
  let! o := run_command ["-C"; display dir; "diff"; "--name-only"; "--diff-filter=U"] in
  match o with
  | inr e => raise (kerr Internal ("git spawn: " +:+ e))
  | inl o => ret (str_lines o.(go_stdout))
  end.

Definition debug_list `{!DebugText} (l : list string) : string := "[" +:+ join_with ", " (debug_text <$> l) +:+ "]".

(** [MergeOutcome] is the list of files. *)
Definition merge `{!DebugText} (target_root source_root : FsPath) : Disk (list string) :=
  let! target_repo := is_git_repo target_root in
  let! repos := if target_repo then is_git_repo source_root else ret false in
  guard! repos else kerr FailedPrecondition
    "merge requires Git-worktree workspaces; copy forks are applied by the caller with content-addressed artifacts" in
  let! source_head := head_revision source_root in
  do! run_git target_root ["fetch"; display source_root; source_head] in
  let! merged := attempt (run_git target_root ["merge"; "--no-commit"; "--no-ff"; "FETCH_HEAD"]) in
  match merged with
  | Ok _ => list_files target_root
  | Err err =>
      let! conflicts := attempt (conflicted_paths target_root) in
      let conflicts := match conflicts with Ok l => l | Err _ => [] end in
      do! attempt (run_git target_root ["merge"; "--abort"]) in
      raise (kerr Conflict ("merge conflicted on " +:+ debug_list conflicts +:+ ": " +:+ err.(err_message)))
  end.
End Git.

(** What [read_dir] lists: the entries of the directory, once each. *)
Class HostLaws `{!WorkspaceHost} : Prop := {
  dir_names_elem fs c n : n ∈ dir_names fs c <-> is_Some (fs !! (c ++ [n])%list);
  dir_names_nodup fs c : NoDup (dir_names fs c) }.

(** ** Real directories *)

(** A tree whose nodes have ordinary names. *)
Record well_formed (fs : Fs) : Prop := {
  wf_tree : tree fs;
  wf_names : forall p, is_Some (fs !! p) -> p <> [] /\ Forall ordinary p }.

Section Real.
Context (fs : Fs) (Hwf : well_formed fs).

Lemma dirlike_ordinary p : dirlike fs p -> Forall ordinary p.
Proof. intros [->|Hp]; [constructor|]. apply (wf_names _ Hwf). eauto. Qed.

Lemma dirlike_snoc p n : is_Some (fs !! (p ++ [n])%list) -> dirlike fs p.
Proof. intros H. pose proof (wf_tree _ Hwf _ H) as Ht. by rewrite parent_snoc in Ht. Qed.

(** Nothing lies below a path that is no directory. *)
Lemma nothing_below p q : fs !! p <> Some Dir -> p <> [] -> q <> [] -> fs !! (p ++ q)%list = None.
Proof.
  intros Hp Hn Hq. destruct (fs !! (p ++ q)%list) as [x|] eqn:E; [|done]. exfalso. revert x E Hq.
  induction q as [|n q IH] using rev_ind; intros x E Hq; [done|]. rewrite app_assoc in E.
  destruct (dirlike_snoc (p ++ q) n) as [Hd|Hd]; [by eauto|by apply app_eq_nil in Hd as [? _]|].
  destruct q as [|m q]; [by rewrite app_nil_r in Hd|]. by eapply IH.
Qed.

Lemma dirlike_prefix p q : dirlike fs (p ++ q)%list -> dirlike fs p.
Proof.
  induction q as [|n q IH] using rev_ind; [by rewrite app_nil_r|]. rewrite app_assoc. intros [H|H]; [by destruct (p ++ q)%list|].
  apply IH, (dirlike_snoc _ n). eauto.
Qed.

Lemma resolve_dir create links p rest :
  dirlike fs p -> resolve_path create links fs [] (p ++ rest) = resolve_path create links fs p rest.
Proof.
  revert rest. induction p as [|n p IH] using rev_ind; intros rest Hp; [done|].
  destruct Hp as [Hp|Hp]; [by destruct p|]. rewrite <- app_assoc. cbn [app].
  rewrite IH by (apply (dirlike_snoc _ n); eauto). rewrite resolve_cons.
  assert (Ho : ordinary n).
  { destruct (wf_names _ Hwf (p ++ [n])%list) as [_ Ho]; [eauto|]. apply Forall_app in Ho as [_ Ho]. by inversion Ho. }
  destruct Ho as (O1 & O2 & O3). rewrite !decide_False by tauto. by rewrite Hp.
Qed.

Lemma canonicalize_dir p : dirlike fs p -> canonicalize fs p = Some p.
Proof. intros Hp. unfold canonicalize. rewrite <- (app_nil_r p) at 1. rewrite resolve_dir by done. apply resolve_nil. Qed.

Lemma is_dir_dirlike p : dirlike fs p -> is_dir fs p = true.
Proof. intros Hp. apply is_dir_spec. exists p. split; [by apply canonicalize_dir|done]. Qed.

Lemma lstat_dir p n : dirlike fs p -> lstat fs (p ++ [n])%list = fs !! (p ++ [n])%list.
Proof. intros Hp. unfold lstat. by rewrite last_snoc, parent_snoc, canonicalize_dir. Qed.

Lemma node_ordinary p n : is_Some (fs !! (p ++ [n])%list) -> ordinary n.
Proof. intros [_ Ho]%(wf_names _ Hwf). apply Forall_app in Ho as [_ Ho]. by inversion Ho. Qed.

Lemma read_real p n b : fs !! (p ++ [n])%list = Some (File b) -> fs_read fs (p ++ [n])%list = Some b.
Proof.
  intros Hf. assert (Hs : is_Some (fs !! (p ++ [n])%list)) by eauto. pose proof (node_ordinary _ _ Hs) as (O1 & O2 & O3).
  unfold fs_read, canonicalize. rewrite resolve_dir by (by apply dirlike_snoc in Hs).
  rewrite resolve_cons, !decide_False, Hf, decide_True by tauto. by rewrite Hf.
Qed.

Lemma write_real p n b :
  dirlike fs p -> ordinary n -> fs !! (p ++ [n])%list = None -> fs_write fs (p ++ [n])%list b = Some (<[(p ++ [n])%list := File b]> fs).
Proof.
  intros Hp (O1 & O2 & O3) Hn. unfold fs_write. rewrite resolve_dir by done.
  rewrite resolve_cons, !decide_False, Hn, bool_decide_eq_true_2 by tauto. cbn [andb]. rewrite Hn. by destruct p.
Qed.

Lemma mkdir_real p n :
  dirlike fs p -> fs !! (p ++ [n])%list = None ->
  create_dir_all (length (p ++ [n])) fs (p ++ [n])%list = Some (<[(p ++ [n])%list := Dir]> fs).
Proof.
  intros Hp Hn. rewrite length_app, Nat.add_comm. cbn [Nat.add length create_dir_all]. unfold mkdir.
  by rewrite last_snoc, parent_snoc, is_dir_dirlike, canonicalize_dir, Hn.
Qed.

Lemma read_dir_real `{!WorkspaceHost} p : dirlike fs p -> read_dir fs p = Some (dir_names fs p).
Proof. intros Hp. unfold read_dir. by rewrite canonicalize_dir, is_dir_dirlike. Qed.

(** The depth of a node is at most the number of nodes. *)
Lemma depth_bound p : is_Some (fs !! p) -> (length p <= size fs)%nat.
Proof.
  intros Hp. set (l := (fun k => take k p) <$> seq 1 (length p)).
  assert (Hl : forall k, (1 <= k <= length p)%nat -> take k p ∈ dom fs).
  { intros k Hk. apply elem_of_dom. rewrite <- (take_drop k p) in Hp.
    destruct (drop k p) as [|n r] eqn:Hd; [by rewrite app_nil_r in Hp|].
    assert (Hdir : dirlike fs (take k p)).
    { destruct (n :: r) as [|m r' _] eqn:E using rev_ind; [done|]. rewrite app_assoc in Hp. by eapply dirlike_prefix, dirlike_snoc. }
    destruct Hdir as [Hnil|Hdir]; [|eauto]. apply (f_equal length) in Hnil. rewrite length_take in Hnil. cbn in Hnil. lia. }
  assert (Hnd : NoDup l).
  { unfold l. apply NoDup_fmap_2_strong; [|apply NoDup_seq]. intros a b Ha%elem_of_seq Hb%elem_of_seq E.
    apply (f_equal length) in E. rewrite !length_take in E. lia. }
  replace (length p) with (length l) by (unfold l; by rewrite length_fmap, length_seq). rewrite <- size_dom.
  rewrite <- (size_list_to_set (C := gset (list string))) by done. apply subseteq_size.
  intros x. rewrite elem_of_list_to_set. unfold l. intros (k & -> & Hk%elem_of_seq)%list_elem_of_fmap. apply Hl. lia.
Qed.
End Real.

(** ** The copy *)

Lemma prefix_snoc_both (p q : list string) (m : string) :
  (p ++ [m])%list `prefix_of` (q ++ [m])%list -> p `prefix_of` q.
Proof.
  intros Hp. pose proof (prefix_length _ _ Hp) as Hl. rewrite !length_app in Hl. cbn in Hl.
  assert (H1 : p `prefix_of` (q ++ [m])%list) by (etrans; [|exact Hp]; by apply prefix_app_r).
  destruct (prefix_weak_total p q (q ++ [m])%list) as [?|[r ->]]; [done|by exists [m]|done|].
  rewrite length_app in Hl. destruct r; [by rewrite app_nil_r|cbn in Hl; lia].
Qed.

(** Links are left out. *)
Definition keep (n : option Node) : option Node :=
  match n with Some (Symlink _ _) => None | other => other end.

Section Copy.
Context `{!WorkspaceHost} `{!HostLaws}.

(** [fs'] is [fs] with a directory [dst] that holds the entries [done] of [src]. *)
Record partial_copy (fs fs' : Fs) (src dst : FsPath) (done : list string) : Prop := {
  pc_top : fs' !! dst = Some Dir;
  pc_done : forall m q, m ∈ done -> fs' !! (dst ++ m :: q)%list = keep (fs !! (src ++ m :: q)%list);
  pc_todo : forall m q, m ∉ done -> fs' !! (dst ++ m :: q)%list = None;
  pc_else : forall p, ~ dst `prefix_of` p -> fs' !! p = fs !! p }.

Definition copied (fs fs' : Fs) (src dst : FsPath) : Prop :=
  (forall q, fs' !! (dst ++ q)%list = keep (fs !! (src ++ q)%list)) /\
  (forall p, ~ dst `prefix_of` p -> fs' !! p = fs !! p).

(** Source and target: the source is a directory, the target is a free name in
    a directory and does not lie in the source. *)
Record copy_ok (fs : Fs) (src top : FsPath) (name : string) : Prop := {
  co_wf : well_formed fs;
  co_src : dirlike fs src;
  co_top : dirlike fs top;
  co_name : ordinary name;
  co_free : fs !! (top ++ [name])%list = None;
  co_apart : ~ src `prefix_of` (top ++ [name])%list }.

Section Partial.
Context (fs : Fs) (src top : FsPath) (name : string) (Hok : copy_ok fs src top name).
Notation dst := (top ++ [name])%list.

Lemma src_dir : fs !! src = Some Dir.
Proof. destruct (co_src _ _ _ _ Hok) as [E|]; [|done]. destruct (co_apart _ _ _ _ Hok). rewrite E. apply prefix_nil. Qed.

Lemma below_free q : fs !! (dst ++ q)%list = None.
Proof.
  destruct q as [|n q]; [rewrite app_nil_r; apply (co_free _ _ _ _ Hok)|].
  apply (nothing_below fs (co_wf _ _ _ _ Hok)); [by rewrite (co_free _ _ _ _ Hok)|by destruct top|done].
Qed.

(** Nothing of the source lies in the target. *)
Lemma src_outside q : ~ dst `prefix_of` (src ++ q)%list.
Proof.
  intros [k Hk]. destruct (prefix_weak_total src dst (src ++ q)%list) as [Hpre|[r Hr]].
  - by exists q.
  - by exists k.
  - by apply (co_apart _ _ _ _ Hok).
  - pose proof src_dir as Hd. rewrite Hr, below_free in Hd. done.
Qed.

Lemma partial_src fs' l q : partial_copy fs fs' src dst l -> fs' !! (src ++ q)%list = fs !! (src ++ q)%list.
Proof. intros Hc. apply (pc_else _ _ _ _ _ Hc), src_outside. Qed.

Lemma top_outside : ~ dst `prefix_of` top.
Proof. intros Hl%prefix_length. rewrite length_app in Hl. cbn in Hl. lia. Qed.

Lemma partial_wf fs' l : partial_copy fs fs' src dst l -> well_formed fs'.
Proof.
  intros Hc. pose proof (co_wf _ _ _ _ Hok) as W.
  assert (Hdst : Forall ordinary dst).
  { apply Forall_app. split; [by apply (dirlike_ordinary fs W), (co_top _ _ _ _ Hok)|].
    constructor; [apply (co_name _ _ _ _ Hok)|constructor]. }
  assert (Hin : forall m q, is_Some (fs' !! (dst ++ m :: q)%list) -> is_Some (fs !! (src ++ m :: q)%list)).
  { intros m q [x Hx]. destruct (decide (m ∈ l)) as [Hm|Hm]; [|by rewrite (pc_todo _ _ _ _ _ Hc) in Hx].
    rewrite (pc_done _ _ _ _ _ Hc) in Hx by done. destruct (fs !! (src ++ m :: q)%list); [eauto|done]. }
  split.
  - intros p Hp. destruct (decide (dst `prefix_of` p)) as [[[|m q] ->]|Hout].
    + rewrite app_nil_r, parent_snoc. destruct (co_top _ _ _ _ Hok) as [->|Ht]; [by left|right].
      rewrite (pc_else _ _ _ _ _ Hc); [done|apply top_outside].
    + right. destruct q as [|x q _] using rev_ind.
      * rewrite parent_snoc. apply (pc_top _ _ _ _ _ Hc).
      * pose proof (Hin _ _ Hp) as Hs. rewrite (app_comm_cons q [x] m), app_assoc in Hs |- *. rewrite parent_snoc.
        destruct (dirlike_snoc fs W _ _ Hs) as [E|E]; [by destruct src|].
        rewrite (app_comm_cons q [x] m), app_assoc in Hp. destruct (decide (m ∈ l)) as [Hm|Hm].
        -- by rewrite (pc_done _ _ _ _ _ Hc), E.
        -- rewrite <- app_assoc in Hp. cbn [app] in Hp. rewrite (pc_todo _ _ _ _ _ Hc) in Hp by done. by destruct Hp.
    + rewrite (pc_else _ _ _ _ _ Hc) in Hp by done. destruct (wf_tree _ W _ Hp) as [E|E]; [by left|right].
      rewrite (pc_else _ _ _ _ _ Hc); [done|]. intros Hpre. apply Hout. etrans; [exact Hpre|]. apply prefix_take.
  - intros p Hp. destruct (decide (dst `prefix_of` p)) as [[[|m q] ->]|Hout].
    + rewrite app_nil_r. split; [by destruct top|done].
    + split; [by destruct top|]. apply Forall_app. split; [done|]. apply Hin, (wf_names _ W) in Hp as [_ Hp].
      by apply Forall_app in Hp as [_ Hp].
    + rewrite (pc_else _ _ _ _ _ Hc) in Hp by done. by apply (wf_names _ W).
Qed.

Lemma partial_start : partial_copy fs (<[dst := Dir]> fs) src dst [].
Proof.
  split.
  - apply lookup_insert_eq.
  - intros m q []%not_elem_of_nil.
  - intros m q _. rewrite lookup_insert_ne; [apply below_free|]. intros E%(f_equal length). rewrite !length_app in E. cbn in E. lia.
  - intros p Hp. apply lookup_insert_ne. intros <-. by destruct Hp.
Qed.

(** One more entry: a file, a link, or a copied directory. *)
Lemma partial_next fs' fs'' l m :
  partial_copy fs fs' src dst l -> m ∉ l ->
  (forall q, fs'' !! (dst ++ m :: q)%list = keep (fs !! (src ++ m :: q)%list)) ->
  (forall p, ~ (dst ++ [m])%list `prefix_of` p -> fs'' !! p = fs' !! p) ->
  partial_copy fs fs'' src dst (m :: l).
Proof.
  intros Hc Hm Hnew Hold.
  assert (Hne : forall k q, k <> m -> ~ (dst ++ [m])%list `prefix_of` (dst ++ k :: q)%list).
  { intros k q Hk [r Hr]. rewrite <- (app_assoc dst [m] r) in Hr. by apply app_inv_head in Hr as [= ->]. }
  split.
  - rewrite Hold; [apply (pc_top _ _ _ _ _ Hc)|]. intros Hl%prefix_length. rewrite !length_app in Hl. cbn in Hl. lia.
  - intros k q [->|Hk]%elem_of_cons; [apply Hnew|]. assert (k <> m) by (by intros ->).
    rewrite Hold by (by apply Hne). by apply (pc_done _ _ _ _ _ Hc).
  - intros k q [Hk Hl]%not_elem_of_cons. rewrite Hold by (by apply Hne). by apply (pc_todo _ _ _ _ _ Hc).
  - intros p Hp. rewrite Hold; [by apply (pc_else _ _ _ _ _ Hc)|]. intros Hpre. apply Hp. etrans; [|exact Hpre].
    by apply prefix_app_r.
Qed.

(** An entry that is no directory has nothing below. *)
Lemma keep_below m q : fs !! (src ++ [m])%list <> Some Dir -> q <> [] -> fs !! (src ++ m :: q)%list = None.
Proof.
  intros Hn Hq. change (m :: q) with ([m] ++ q)%list. rewrite app_assoc.
  apply (nothing_below fs (co_wf _ _ _ _ Hok)); [done|by destruct src|done].
Qed.
End Partial.

(** The entries of one directory, given that directories below are copied. *)
Definition copies_below (n : nat) : Prop := forall fs src top name,
  copy_ok fs src top name -> (forall q, is_Some (fs !! (src ++ q)%list) -> (length q < n)%nat) ->
  exists fs', copy_tree n src (top ++ [name])%list fs = (Ok tt, fs') /\ copied fs fs' src (top ++ [name])%list.

Definition copy_entry (n : nat) (src dst : FsPath) (name : string) : Disk unit :=
  let! stat := gets (fun fs => lstat fs (src ++ [name])%list) in
  let! meta := lift_res (ok_or stat (git_err "stat" (os_error "stat" (src ++ [name])%list))) in
  match meta with
  | Dir => copy_tree n (src ++ [name])%list (dst ++ [name])%list
  | File _ => os_call "copy file" (dst ++ [name])%list (fun fs => fs_copy fs (src ++ [name])%list (dst ++ [name])%list)
  | Symlink _ _ => ret tt
  end.

Section Entries.
Context (n : nat) (IHn : copies_below n).
Context (fs : Fs) (src top : FsPath) (name : string) (Hok : copy_ok fs src top name).
Context (Hdepth : forall q, is_Some (fs !! (src ++ q)%list) -> (length q < S n)%nat).
Notation dst := (top ++ [name])%list.

Lemma entry_step fs' l m :
  partial_copy fs fs' src dst l -> m ∉ l -> is_Some (fs !! (src ++ [m])%list) ->
  exists fs'', copy_entry n src dst m fs' = (Ok tt, fs'') /\ partial_copy fs fs'' src dst (m :: l).
Proof.
  intros Hc Hm [x Hx]. pose proof (partial_wf _ _ _ _ Hok _ _ Hc) as W.
  assert (Hsrc : forall q, fs' !! (src ++ q)%list = fs !! (src ++ q)%list) by (intros q; by eapply partial_src).
  assert (Hsd : dirlike fs' src) by (right; rewrite <- (app_nil_r src), Hsrc, app_nil_r; by eapply src_dir).
  assert (Hmo : ordinary m) by (eapply (node_ordinary fs (co_wf _ _ _ _ Hok)); eauto).
  unfold copy_entry, bind, gets. rewrite (lstat_dir fs' W), Hsrc, Hx by done. cbn [ok_or lift_res].
  destruct x as [|b|absolute target].
  - assert (Hok' : copy_ok fs' (src ++ [m]) dst m).
    { split; [done|right; by rewrite Hsrc|right; apply (pc_top _ _ _ _ _ Hc)|done|apply (pc_todo _ _ _ _ _ Hc m [] Hm)|].
      intros Hp. apply (co_apart _ _ _ _ Hok). apply prefix_snoc_both in Hp. exact Hp. }
    destruct (IHn fs' _ _ _ Hok') as (fs'' & E & C1 & C2).
    { intros q. rewrite <- app_assoc, Hsrc. cbn [app]. intros Hq%Hdepth. cbn in Hq. lia. }
    exists fs''. split; [exact E|]. eapply partial_next; [exact Hc|done| |done].
    intros q. specialize (C1 q). rewrite <- (app_assoc dst [m] q), <- (app_assoc src [m] q) in C1. cbn [app] in C1 |- *.
    by rewrite C1, Hsrc.
  - exists (<[(dst ++ [m])%list := File b]> fs'). split.
    { unfold os_call, fs_copy. rewrite (read_real fs' W _ _ b) by (by rewrite Hsrc).
      rewrite (write_real fs' W); [done|right; apply (pc_top _ _ _ _ _ Hc)|done|apply (pc_todo _ _ _ _ _ Hc m [] Hm)]. }
    eapply partial_next; [exact Hc|done| |].
    + intros [|k q]; [by rewrite lookup_insert_eq, Hx|].
      rewrite lookup_insert_ne, (keep_below _ _ _ _ Hok) by (try rewrite Hx; try done; intros E%app_inv_head; done).
      by apply (pc_todo _ _ _ _ _ Hc).
    + intros p Hp. apply lookup_insert_ne. intros <-. by destruct Hp.
  - exists fs'. split; [done|]. eapply partial_next; [exact Hc|done| |done].
    intros [|k q]; [rewrite Hx; by apply (pc_todo _ _ _ _ _ Hc)|].
    rewrite (keep_below _ _ _ _ Hok) by (try rewrite Hx; done). by apply (pc_todo _ _ _ _ _ Hc).
Qed.

Lemma entries_loop names : forall fs' l,
  partial_copy fs fs' src dst l -> NoDup names -> (forall m, m ∈ names -> m ∉ l /\ is_Some (fs !! (src ++ [m])%list)) ->
  exists fs'', for_each names (copy_entry n src dst) fs' = (Ok tt, fs'') /\
    partial_copy fs fs'' src dst (reverse names ++ l).
Proof.
  induction names as [|m names IH]; intros fs' l Hc Hnd Hall; [by exists fs'|]. apply list.NoDup_cons in Hnd as [Hm Hnd].
  destruct (Hall m) as [Hml Hs]; [left|]. destruct (entry_step _ _ _ Hc Hml Hs) as (fs1 & E1 & C1).
  destruct (IH fs1 (m :: l) C1 Hnd) as (fs2 & E2 & C2).
  { intros k Hk. destruct (Hall k) as [Hkl Hks]; [by right|]. split; [|done]. apply not_elem_of_cons. split; [|done]. by intros ->. }
  exists fs2. split; [cbn [for_each]; by rewrite (bind_step _ _ _ _ _ E1)|]. by rewrite reverse_cons, <- app_assoc.
Qed.
End Entries.

Lemma copy_tree_copies n : copies_below n.
Proof.
  induction n as [|n IH]; intros fs src top name Hok Hdepth.
  { pose proof (src_dir _ _ _ _ Hok) as Hd. specialize (Hdepth []). rewrite app_nil_r, Hd in Hdepth. cbn in Hdepth.
    exfalso. eapply Nat.nlt_0_r, Hdepth. eauto. }
  pose proof (co_wf _ _ _ _ Hok) as W. pose proof (partial_start _ _ _ _ Hok) as Hstart.
  pose proof (partial_wf _ _ _ _ Hok _ _ Hstart) as W1.
  set (fs1 := <[(top ++ [name])%list := Dir]> fs) in *.
  assert (Hsrc : forall q, fs1 !! (src ++ q)%list = fs !! (src ++ q)%list) by (intros q; by eapply partial_src).
  assert (Hsd : dirlike fs1 src) by (right; rewrite <- (app_nil_r src), Hsrc, app_nil_r; by eapply src_dir).
  destruct (entries_loop n IH fs src top name Hok Hdepth (dir_names fs1 src) fs1 [] Hstart) as (fs' & E & C).
  { apply dir_names_nodup. }
  { intros m Hm%dir_names_elem. rewrite Hsrc in Hm. split; [apply not_elem_of_nil|done]. }
  exists fs'. split.
  - cbn [copy_tree]. unfold bind at 1, gets at 1. rewrite (is_dir_dirlike fs W) by apply (co_src _ _ _ _ Hok).
    unfold bind at 1, os_call at 1. rewrite (mkdir_real fs W) by (apply (co_top _ _ _ _ Hok) || apply (co_free _ _ _ _ Hok)).
    fold fs1. unfold bind at 1, gets at 1. rewrite (read_dir_real fs1 W1) by done. exact E.
  - split; [|apply (pc_else _ _ _ _ _ C)]. intros [|m q].
    + rewrite !app_nil_r, (pc_top _ _ _ _ _ C), (src_dir _ _ _ _ Hok). done.
    + rewrite app_nil_r in C. destruct (decide (m ∈ dir_names fs1 src)) as [Hm|Hm].
      * apply (pc_done _ _ _ _ _ C). by apply elem_of_reverse.
      * rewrite (pc_todo _ _ _ _ _ C) by (by rewrite elem_of_reverse). rewrite dir_names_elem, Hsrc in Hm.
        assert (Hn : fs !! (src ++ [m])%list = None) by (by destruct (fs !! (src ++ [m])%list); [destruct Hm; eauto|]).
        destruct q as [|k q]; [by rewrite Hn|]. by rewrite (keep_below _ _ _ _ Hok) by (try rewrite Hn; done).
Qed.

(** A fork by copy is exact: copying a directory to a free name outside it
    always succeeds, and leaves a directory with the same files and directories
    and without the links, byte for byte, and every other path as it was. *)
Theorem copy_directory_exact fs src top name :
  copy_ok fs src top name ->
  exists fs', copy_directory src (top ++ [name])%list fs = (Ok tt, fs') /\
    (forall q, fs' !! (top ++ [name] ++ q)%list = keep (fs !! (src ++ q)%list)) /\
    (forall p, ~ (top ++ [name])%list `prefix_of` p -> fs' !! p = fs !! p).
Proof.
  intros Hok. destruct (copy_tree_copies (copy_fuel fs) fs src top name Hok) as (fs' & E & C1 & C2).
  { intros q Hq%(depth_bound fs (co_wf _ _ _ _ Hok)). rewrite length_app in Hq. unfold copy_fuel. lia. }
  exists fs'. split; [exact E|]. split; [|done]. intros q. rewrite app_assoc. apply C1.
Qed.
End Copy.

(** ** Forks and leases *)

Section ForkLeases.
Context `{!Ext} `{!WorkspaceHost}.

Definition same_leases (s s' : Txn * Fs) : Prop :=
  (t_db s'.1).(workspace_leases) = (t_db s.1).(workspace_leases).

#[local] Instance same_leases_preorder : PreOrder same_leases.
Proof. split; [done|]. intros s1 s2 s3. unfold same_leases. congruence. Qed.

Lemma on_disk_leases {A} (m : Disk A) : ensures same_leases (on_disk m).
Proof. intros s a s'. unfold on_disk. destruct (m s.2). intros [= _ <-]. done. Qed.

Lemma insert_workspace_leases n : ensures same_leases (on_txn (workspaces_insert n)).
Proof.
  intros s a s' E. unfold on_txn in E. destruct (workspaces_insert n s.1) as [r t] eqn:E1. injection E as -> <-.
  unfold workspaces_insert in E1. inv_store. done.
Qed.

Lemma get_workspace_leases id : ensures same_leases (on_txn (workspaces_get id)).
Proof.
  intros s a s' E. unfold on_txn in E. destruct (workspaces_get id s.1) as [r t] eqn:E1. injection E as -> <-.
  unfold workspaces_get in E1. inv_store. done.
Qed.

#[local] Hint Resolve on_disk_leases insert_workspace_leases get_workspace_leases : ensures.

Lemma fork_leases parent_root parent child child_root now : ensures same_leases (fork parent_root parent child child_root now).
Proof. unfold fork. solve_ensures. Qed.

(** A fork for a child is a sequence of the steps under which write authority is
    exclusive: the rows of the workspace, then the child's lease. *)
Lemma fork_for_child_steps parent_root parent child child_root owner now t fs row t' fs' :
  fork_for_child parent_root parent child child_root owner now (t, fs) = (Ok row, (t', fs')) ->
  rtc lease_step (t_db t) (t_db t').
Proof.
  intros E. apply bind_ok_inv in E as (caps & [t1 fs1] & E1 & E). apply fork_leases in E1. cbn in E1.
  unfold on_txn in E. cbn in E. destruct (acquire_lease _ _ _ _ _ _ t1) as [r t2] eqn:E2. injection E as -> -> ->.
  apply rtc_l with (t_db t1); [by apply step_elsewhere|]. apply rtc_once. eapply step_service; [|exact E2|done|done]. constructor.
Qed.
End ForkLeases.
