(* ===== verification/Secrets.v ===== *)
(** * The secrets broker (crate [secrets])

    Every secret operation goes through the permission engine first; the
    broker asks its store only after [Allow] and reports one audit record per
    outcome.  The state is the clock, the audit log and the log of calls that
    reach the store.  The in-memory store and the codec of the Keychain
    backend's metadata items are modelled; the Keychain itself is a parameter. *)

From S2P Require Import Prelude Domain Ids Text Models StoreBase EffectPolicy Effects Identity Permissions Coordinator.

Open Scope string_scope.
Open Scope Z_scope.

Definition SECRET_USE : Capability := mkCapability CapabilityFamily.Secret CapabilityAction.Use.
Definition SECRET_SIGN_OR_ACT : Capability := mkCapability CapabilityFamily.Secret CapabilityAction.SignOrAct.

Record SecretMetadata := mkSecretMetadata { sm_uri : string; sm_kind : string; sm_scopes : list string }.
Record ActResult := mkActResult { ar_reference : string }.

(** The [SecretStore] trait. *)
Record SecretStore := mkSecretStore {
  store_metadata : string -> Res SecretMetadata;
  store_get : string -> Res bytes;
  store_sign_or_act : string -> string -> bytes -> Res ActResult }.

Record SecretUseRequest := mkSecretUseRequest {
  su_principal_id : PrincipalId;
  su_actor_id : ActorId;
  su_run_id : option RunId;
  su_chain : DelegationChain;
  su_grant_scopes : list GrantScope;
  su_uri : string;
  su_egress : option (list string);
  su_operation : string }.

Inductive SecretUseOutcome := Allowed | Acted | Denied | ApprovalRequired | Failed.

Definition outcome_as_str (o : SecretUseOutcome) : string :=
  match o with
  | Allowed => "allowed"
  | Acted => "acted"
  | Denied => "denied"
  | ApprovalRequired => "approval_required"
  | Failed => "failed"
  end.

Record SecretAuditRecord := mkSecretAuditRecord {
  sa_actor_id : ActorId; sa_run_id : option RunId; sa_uri : string; sa_outcome : SecretUseOutcome }.

Inductive StoreCall := CallMetadata (uri : string) | CallGet (uri : string) | CallSign (uri action : string) (payload : bytes).

Record Broker := mkBroker { bk_clock : nat; bk_audit : list SecretAuditRecord; bk_calls : list StoreCall }.

Section Broker.
Context `{!Ext} (store : SecretStore).

Definition broker_now : ST Broker Z := fun s =>
  (Ok (clock_ms s.(bk_clock)), mkBroker (S s.(bk_clock)) s.(bk_audit) s.(bk_calls)).

Definition record_outcome (request : SecretUseRequest) (outcome : SecretUseOutcome) : ST Broker unit :=
  modify (fun s => mkBroker s.(bk_clock)
    (s.(bk_audit) ++ [mkSecretAuditRecord request.(su_actor_id) request.(su_run_id) request.(su_uri) outcome])%list
    s.(bk_calls)).

Definition permission_request (request : SecretUseRequest) (capability : Capability) (now : Z) : PermissionRequest :=
  mkPermissionRequest request.(su_principal_id) request.(su_actor_id) request.(su_run_id) request.(su_chain)
    request.(su_grant_scopes) None capability (TargetSecret request.(su_uri) request.(su_egress)) None None now.

Definition permission_decision (request : SecretUseRequest) (capability : Capability) : ST Broker Decision :=
  let! now := broker_now in ret (evaluate (permission_request request capability now)).

Definition authorize_secret (request : SecretUseRequest) (capability : Capability) (operation : string) : ST Broker unit :=
  let! decision := permission_decision request capability in
  match decision with
  | Allow _ => ret tt
  | Deny reason =>
      do! record_outcome request Denied in
      raise (kerr FailedPrecondition ("secret " +:+ operation +:+ " denied: " +:+ deny_reason_as_str reason))
  | RequireApproval _ =>
      do! record_outcome request ApprovalRequired in
      raise (kerr Conflict ("secret " +:+ operation +:+ " requires approval"))
  end.

(** A call of the store, noted in the log. *)
Definition call_store {A} (call : StoreCall) (answer : Res A) : ST Broker (Res A) := fun s =>
  (Ok answer, mkBroker s.(bk_clock) s.(bk_audit) (s.(bk_calls) ++ [call])%list).

Definition resolve_metadata (request : SecretUseRequest) : ST Broker SecretMetadata :=
  do! authorize_secret request SECRET_USE "metadata" in
  let! answer := call_store (CallMetadata request.(su_uri)) (store.(store_metadata) request.(su_uri)) in
  match answer with
  | Ok metadata => do! record_outcome request Allowed in ret metadata
  | Err error => do! record_outcome request Failed in raise error
  end.

Definition use_secret (request : SecretUseRequest) : ST Broker bytes :=
  do! authorize_secret request SECRET_USE "use" in
  let! answer := call_store (CallGet request.(su_uri)) (store.(store_get) request.(su_uri)) in
  match answer with
  | Ok value => do! record_outcome request Allowed in ret value
  | Err error => do! record_outcome request Failed in raise error
  end.

Definition sign_or_act (request : SecretUseRequest) (payload : bytes) : ST Broker ActResult :=
  guard! negb (str_is_empty request.(su_operation)) else kerr InvalidArgument "sign-or-act requires an operation" in
  do! authorize_secret request SECRET_SIGN_OR_ACT "sign_or_act" in
  let! answer := call_store (CallSign request.(su_uri) request.(su_operation) payload)
                   (store.(store_sign_or_act) request.(su_uri) request.(su_operation) payload) in
  match answer with
  | Ok result => do! record_outcome request Acted in ret result
  | Err error => do! record_outcome request Failed in raise error
  end.
End Broker.

(** ** The in-memory store *)

Section InMemory.
Context `{!Ext}.

Record Entry := mkEntry { en_metadata : SecretMetadata; en_value : bytes }.

Definition memory_insert (metadata : SecretMetadata) (value : bytes) (entries : gmap string Entry) : gmap string Entry :=
  <[metadata.(sm_uri) := mkEntry metadata value]> entries.

Definition value_missing : KernelError := kerr NotFound "secret not found".
Definition metadata_missing : KernelError := kerr NotFound "secret metadata not found".

(** What [scoped_reference] feeds to the hash. *)
Definition scoped_input (uri action : string) (payload secret : bytes) : bytes :=
  (into_bytes "agentd-secrets-sign-or-act-v1" ++ into_bytes uri ++ [Byte.x00] ++ into_bytes action ++ [Byte.x00] ++
   to_be_bytes 8 (Z.of_nat (length payload)) ++ payload ++ secret)%list.

Definition scoped_reference (uri action : string) (payload secret : bytes) : string :=
  "scoped:v1:" +:+ hex_lower (sha256 (scoped_input uri action payload secret)).

Definition memory_store (entries : gmap string Entry) : SecretStore := mkSecretStore
  (fun uri => ok_or (en_metadata <$> entries !! uri) metadata_missing)
  (fun uri => ok_or (en_value <$> entries !! uri) value_missing)
  (fun uri action payload =>
     let? entry := ok_or (entries !! uri) value_missing in
     Ok (mkActResult (scoped_reference uri action payload entry.(en_value)))).
End InMemory.

(** ** The Keychain backend ([keychain.rs]) *)

Definition ERR_SEC_ITEM_NOT_FOUND : Z := -25300.
Definition METADATA_SUFFIX : string := "#metadata".
Definition METADATA_HEADER : string := "agentd-secrets-v1".

(** [security_framework::passwords] for one service: the stored bytes of an
    account or an error code; whether a write succeeds. *)
Class Keychain := {
  get_generic_password : string -> bytes + Z;
  set_generic_password : string -> bytes -> bool }.

Definition metadata_account (uri : string) : string := uri +:+ METADATA_SUFFIX.
Definition corrupt_metadata : KernelError := kerr Internal "keychain metadata item is malformed".

Definition has_newline (s : string) : bool := str_contains (String NEWLINE "") s.

Definition encode_metadata (metadata : SecretMetadata) : Res bytes :=
  if has_newline metadata.(sm_kind) || existsb has_newline metadata.(sm_scopes)
  then Err (kerr InvalidArgument "secret metadata contains a line break")
  else Ok (into_bytes (foldl (fun encoded scope => encoded +:+ String NEWLINE scope)
             (METADATA_HEADER +:+ String NEWLINE metadata.(sm_kind)) metadata.(sm_scopes))).

Definition decode_metadata (uri : string) (encoded : bytes) : Res SecretMetadata :=
  let? text := ok_or (from_utf8 encoded) corrupt_metadata in
  match split_on NEWLINE text with
  | header :: lines =>
      if decide (header = METADATA_HEADER) then
        match lines with
        | [] => Err corrupt_metadata
        | kind :: scopes => if str_is_empty kind then Err corrupt_metadata else Ok (mkSecretMetadata uri kind scopes)
        end
      else Err corrupt_metadata
  | [] => Err corrupt_metadata
  end.

Section Keychain.
Context `{!Keychain}.

Definition read_failed (not_found : string) (code : Z) : KernelError :=
  if code =? ERR_SEC_ITEM_NOT_FOUND then kerr NotFound not_found
  else mkKernelError Unavailable RetrySafe "keychain read failed".

Definition write_failed (message : string) : KernelError := mkKernelError Unavailable RetrySafe message.

Definition keychain_put (metadata : SecretMetadata) (value : bytes) : Res unit :=
  let? encoded := encode_metadata metadata in
  if set_generic_password metadata.(sm_uri) value then
    if set_generic_password (metadata_account metadata.(sm_uri)) encoded then Ok tt
    else Err (write_failed "keychain metadata write failed")
  else Err (write_failed "keychain secret write failed").

Definition keychain_store : SecretStore := mkSecretStore
  (fun uri => match get_generic_password (metadata_account uri) with
              | inl encoded => decode_metadata uri encoded
              | inr code => Err (read_failed "secret metadata not found" code)
              end)
  (fun uri => match get_generic_password uri with
              | inl value => Ok value
              | inr code => Err (read_failed "secret not found" code)
              end)
  (fun _ _ _ => Err (kerr FailedPrecondition "sign-or-act is not supported by the macOS Keychain backend")).
End Keychain.

(** ** What the broker promises *)

Inductive SecretOp := OpMetadata | OpUse | OpSign (payload : bytes).
Inductive SecretAnswer := AnsMetadata (m : SecretMetadata) | AnsValue (v : bytes) | AnsAct (r : ActResult).

Definition op_capability (op : SecretOp) : Capability :=
  match op with OpMetadata | OpUse => SECRET_USE | OpSign _ => SECRET_SIGN_OR_ACT end.
Definition op_call (op : SecretOp) (r : SecretUseRequest) : StoreCall :=
  match op with
  | OpMetadata => CallMetadata r.(su_uri)
  | OpUse => CallGet r.(su_uri)
  | OpSign payload => CallSign r.(su_uri) r.(su_operation) payload
  end.
Definition op_answer (store : SecretStore) (op : SecretOp) (r : SecretUseRequest) : Res SecretAnswer :=
  match op with
  | OpMetadata => res_map AnsMetadata (store.(store_metadata) r.(su_uri))
  | OpUse => res_map AnsValue (store.(store_get) r.(su_uri))
  | OpSign payload => res_map AnsAct (store.(store_sign_or_act) r.(su_uri) r.(su_operation) payload)
  end.
Definition op_name (op : SecretOp) : string :=
  match op with OpMetadata => "metadata" | OpUse => "use" | OpSign _ => "sign_or_act" end.
Definition op_granted (op : SecretOp) : SecretUseOutcome := match op with OpSign _ => Acted | _ => Allowed end.
Definition op_rejected (op : SecretOp) (r : SecretUseRequest) : bool :=
  match op with OpSign _ => str_is_empty r.(su_operation) | _ => false end.

Section Promises.
Context `{!Ext}.

Definition run_secret (store : SecretStore) (op : SecretOp) (r : SecretUseRequest) : ST Broker SecretAnswer :=
  match op with
  | OpMetadata => let! m := resolve_metadata store r in ret (AnsMetadata m)
  | OpUse => let! v := use_secret store r in ret (AnsValue v)
  | OpSign payload => let! a := sign_or_act store r payload in ret (AnsAct a)
  end.

Definition decision_of (op : SecretOp) (r : SecretUseRequest) (s : Broker) : Decision :=
  evaluate (permission_request r (op_capability op) (clock_ms s.(bk_clock))).

Definition audited (r : SecretUseRequest) (o : SecretUseOutcome) : SecretAuditRecord :=
  mkSecretAuditRecord r.(su_actor_id) r.(su_run_id) r.(su_uri) o.

Lemma run_secret_rejected store op r s :
  op_rejected op r = true ->
  run_secret store op r s = (Err (kerr InvalidArgument "sign-or-act requires an operation"), s).
Proof. destruct op; cbn; try done. intros Hr. unfold sign_or_act, bind. by rewrite Hr. Qed.

Lemma run_secret_run store op r s :
  op_rejected op r = false ->
  run_secret store op r s =
  match decision_of op r s with
  | Allow _ =>
      (op_answer store op r,
       mkBroker (S s.(bk_clock))
         (s.(bk_audit) ++ [audited r (if is_ok (op_answer store op r) then op_granted op else Failed)])%list
         (s.(bk_calls) ++ [op_call op r])%list)
  | Deny reason =>
      (Err (kerr FailedPrecondition ("secret " +:+ op_name op +:+ " denied: " +:+ deny_reason_as_str reason)),
       mkBroker (S s.(bk_clock)) (s.(bk_audit) ++ [audited r Denied])%list s.(bk_calls))
  | RequireApproval _ =>
      (Err (kerr Conflict ("secret " +:+ op_name op +:+ " requires approval")),
       mkBroker (S s.(bk_clock)) (s.(bk_audit) ++ [audited r ApprovalRequired])%list s.(bk_calls))
  end.
Proof.
  intros Hr. destruct op as [| |payload]; cbn in Hr; unfold decision_of; cbn [op_capability run_secret op_answer op_granted op_call op_name];
    unfold resolve_metadata, use_secret, sign_or_act, authorize_secret, permission_decision, broker_now, bind, ret, modify,
      record_outcome, call_store, raise; rewrite ?Hr; cbn [negb];
    destruct (evaluate _) as [grants|reason|draft]; try done.
  - by destruct (store_metadata store _).
  - by destruct (store_get store _).
  - by destruct (store_sign_or_act store _ _ _).
Qed.

(** C30: The store is asked only with authority: a brokered operation reaches
    the store at most once and only when the permission engine allows it for the
    request's own secret; otherwise the whole outcome is the same for every
    store, so that nothing of its content is released.  Every operation other than
    a request to act that names no operation leaves exactly one audit record, which
    names the actor, the run, the secret and the outcome. *)
Theorem secrets_need_authority store op r s :
  let '(answer, s') := run_secret store op r s in
  (s'.(bk_calls) <> s.(bk_calls) ->
     s'.(bk_calls) = (s.(bk_calls) ++ [op_call op r])%list /\ (exists grants, decision_of op r s = Allow grants) /\
     answer = op_answer store op r) /\
  (s'.(bk_calls) = s.(bk_calls) ->
     is_ok answer = false /\ forall store', run_secret store' op r s = (answer, s')) /\
  (op_rejected op r = false -> exists o, s'.(bk_audit) = (s.(bk_audit) ++ [audited r o])%list /\
     (is_ok answer = true <-> o = op_granted op)).
Proof.
  assert (Hlen : forall A (l : list A) x, (l ++ [x])%list <> l).
  { intros A l x E%(f_equal length). rewrite length_app in E. cbn in E. lia. }
  destruct (op_rejected op r) eqn:Hr.
  - rewrite run_secret_rejected by done. split_and!; try done. split; [done|]. intros store'. by apply run_secret_rejected.
  - rewrite run_secret_run by done.
    destruct (decision_of op r s) as [grants|reason|draft] eqn:Hd; cbn [bk_calls bk_audit].
    + split_and!; try done; [by eauto|by intros ?%Hlen|]. intros _. eexists. split; [done|].
      destruct (is_ok _); [done|]. split; [done|]. by destruct op.
    + split_and!; try done.
      * intros _. split; [done|]. intros store'. by rewrite run_secret_run, Hd.
      * intros _. eexists. split; [done|]. by destruct op.
    + split_and!; try done.
      * intros _. split; [done|]. intros store'. by rewrite run_secret_run, Hd.
      * intros _. eexists. split; [done|]. by destruct op.
Qed.

(** ** Scoped references *)

Lemma scoped_input_inj u1 a1 p1 k1 u2 a2 p2 k2 :
  Byte.x00 ∉ into_bytes u1 -> Byte.x00 ∉ into_bytes u2 -> Byte.x00 ∉ into_bytes a1 -> Byte.x00 ∉ into_bytes a2 ->
  Z.of_nat (length p1) < 2 ^ 64 -> Z.of_nat (length p2) < 2 ^ 64 ->
  scoped_input u1 a1 p1 k1 = scoped_input u2 a2 p2 k2 -> u1 = u2 /\ a1 = a2 /\ p1 = p2 /\ k1 = k2.
Proof.
  unfold scoped_input. intros U1 U2 A1 A2 L1 L2 E. apply app_inj_1 in E as [_ E]; [|done]. cbn [app] in E.
  apply split_at_byte in E as [Hu%into_bytes_inj E]; [|done|done].
  apply split_at_byte in E as [Ha%into_bytes_inj E]; [|done|done].
  apply app_inj_1 in E as [Hl%to_be_bytes_inj E]; [|by rewrite !to_be_bytes_length].
  change (256 ^ Z.of_nat 8) with (2 ^ 64) in Hl. rewrite !Z.mod_small in Hl by lia.
  apply app_inj_1 in E as [-> ->]; [done|lia].
Qed.

(** A scoped reference binds the secret, its address, the action and the
    payload: two operations of the in-memory backend with one reference agree on
    all four, unless they are a collision of SHA-256. *)
Theorem scoped_reference_binds u1 a1 p1 k1 u2 a2 p2 k2 :
  Byte.x00 ∉ into_bytes u1 -> Byte.x00 ∉ into_bytes u2 -> Byte.x00 ∉ into_bytes a1 -> Byte.x00 ∉ into_bytes a2 ->
  Z.of_nat (length p1) < 2 ^ 64 -> Z.of_nat (length p2) < 2 ^ 64 ->
  scoped_reference u1 a1 p1 k1 = scoped_reference u2 a2 p2 k2 ->
  (u1 = u2 /\ a1 = a2 /\ p1 = p2 /\ k1 = k2) \/
  (scoped_input u1 a1 p1 k1 <> scoped_input u2 a2 p2 k2 /\
   sha256 (scoped_input u1 a1 p1 k1) = sha256 (scoped_input u2 a2 p2 k2)).
Proof.
  intros U1 U2 A1 A2 L1 L2 E. unfold scoped_reference in E.
  assert (E' : hex_lower (sha256 (scoped_input u1 a1 p1 k1)) = hex_lower (sha256 (scoped_input u2 a2 p2 k2))) by (by injection E).
  apply hex_lower_inj in E'. destruct (decide (scoped_input u1 a1 p1 k1 = scoped_input u2 a2 p2 k2)); [left|by right].
  by apply scoped_input_inj.
Qed.
End Promises.

(** ** The metadata item *)

Lemma foldl_join sep l : forall init,
  foldl (fun e s => e +:+ String sep s) init l = join_with (String sep "") (init :: l).
Proof.
  induction l as [|x l IH]; intros init; [done|]. cbn [foldl]. rewrite IH.
  change (join_with (String sep "") (init :: x :: l)) with (init +:+ String sep "" +:+ join_with (String sep "") (x :: l)).
  destruct l as [|y l]; [done|].
  change (join_with (String sep "") ((init +:+ String sep x) :: y :: l))
    with ((init +:+ String sep x) +:+ String sep "" +:+ join_with (String sep "") (y :: l)).
  change (join_with (String sep "") (x :: y :: l)) with (x +:+ String sep "" +:+ join_with (String sep "") (y :: l)).
  rewrite <- !app_assoc_str. done.
Qed.

Lemma contains_no_byte c s : str_contains (String c "") s = false -> no_byte c s = true.
Proof.
  unfold str_contains. induction s as [|x s IH]; [done|]. cbn [split_once strip_prefix].
  case_decide as Hx; [done|]. destruct (split_once (String c "") s) as [[]|] eqn:E; [done|]. intros _.
  apply no_byte_cons. split; [congruence|]. by apply IH.
Qed.

(** The Keychain backend reads back the metadata it stored, whenever the
    kind is not empty; an item stored with an empty kind is reported as malformed
    by every later read. *)
Theorem metadata_item_roundtrip m b :
  Forall (fun s => is_utf8 s = true) (m.(sm_kind) :: m.(sm_scopes)) -> encode_metadata m = Ok b ->
  decode_metadata m.(sm_uri) b = if str_is_empty m.(sm_kind) then Err corrupt_metadata else Ok m.
Proof.
  unfold encode_metadata. intros Hu. destruct (has_newline (sm_kind m)) eqn:Hk; [done|].
  destruct (existsb has_newline (sm_scopes m)) eqn:Hs; [done|]. cbn [orb]. intros [= <-].
  assert (Hall : Forall (fun w => no_byte NEWLINE w = true) (METADATA_HEADER :: sm_kind m :: sm_scopes m)).
  { constructor; [vm_compute; reflexivity|]. constructor; [by apply contains_no_byte|].
    apply list.Forall_forall. intros w Hw. apply contains_no_byte. destruct (str_contains _ w) eqn:E; [|done].
    exfalso. rewrite <- not_true_iff_false, existsb_exists in Hs. apply Hs. exists w. by rewrite <- list_elem_of_In. }
  rewrite foldl_join. set (text := join_with (String NEWLINE "") _).
  assert (Htext : text = join_with (String NEWLINE "") (METADATA_HEADER :: sm_kind m :: sm_scopes m)).
  { unfold text. rewrite <- (foldl_join NEWLINE (sm_scopes m)), <- (foldl_join NEWLINE (_ :: _) METADATA_HEADER). done. }
  unfold decode_metadata. rewrite Htext, from_into.
  - cbn [ok_or res_bind]. rewrite split_join by done. rewrite decide_True by done. by destruct m as [uri [|c kind] scopes].
  - apply is_utf8_join; [done|]. by constructor.
Qed.
