(* ===== verification/Profiles.v ===== *)
(** * Configuration documents and profiles
    ([config-engine/src/schema.rs], [model.rs], [profile.rs])

    The typed document, its semantic checks and the resolution of a profile
    through its [extends] chain.  The YAML parser is a parameter.  Sections the
    engine accepts and never reads ([policies], [observability]) are left out. *)

From S2P Require Import Prelude Domain Ids Text Models StoreBase.

Open Scope string_scope.
Open Scope Z_scope.

(** ** The schema *)

Definition SCHEMA_VERSION : Z := 1.

Record KernelSection := mkKernelSection { ks_store : string; ks_daemon_identity : option string }.

Record ServicesSection := mkServicesSection {
  sv_event_journal : option string; sv_message_queue : option string;
  sv_secret_store : option string; sv_transport : option string }.

#[export] Instance ServicesSection_eq_dec : EqDecision ServicesSection.
Proof. solve_decision. Defined.

Record ProfileSection := mkProfileSection {
  pr_extends : option string;
  pr_sandbox : option string;
  pr_workspace : option string;
  pr_artifact_store : option string;
  pr_memory_store : option string;
  pr_model_provider : option string;
  pr_tool_runtime : option string;
  pr_agent_loop : option string;
  pr_effect_execute : option string }.

Record ContextLimits := mkContextLimits {
  cl_max_state_bytes : Z; cl_max_fed_events : Z; cl_max_fed_event_bytes : Z }.
Definition default_max_state_bytes : Z := 65536.
Definition default_max_fed_events : Z := 64.
Definition default_max_fed_event_bytes : Z := 65536.
Definition context_limits_default : ContextLimits :=
  mkContextLimits default_max_state_bytes default_max_fed_events default_max_fed_event_bytes.

Record QueueLimits := mkQueueLimits { ql_capacity_messages : Z }.
Record AdapterLimits := mkAdapterLimits {
  al_max_frame_bytes : Z; al_handshake_timeout_ms : Z; al_request_deadline_ms : Z; al_health_ping_ms : Z;
  al_health_missed_allowed : Z; al_supervisor_max_restarts : Z; al_supervisor_backoff_initial_ms : Z;
  al_supervisor_backoff_max_ms : Z }.
Record EffectLimits := mkEffectLimits { el_lease_ms : Z; el_lease_renew_ms : Z }.
Record RunLimits := mkRunLimits { rl_claim_ttl_ms : Z }.
Record DaemonLimits := mkDaemonLimits { dl_fence_lease_ms : Z; dl_fence_renew_ms : Z }.
Record ApprovalLimits := mkApprovalLimits { apl_ttl_ms : Z }.
Record ShutdownLimits := mkShutdownLimits { sl_drain_deadline_ms : Z }.
Record EventLimits := mkEventLimits { evl_live_buffer_events : Z; evl_dispatcher_poll_ms : Z; evl_scheduler_poll_ms : Z }.
Record StreamLimits := mkStreamLimits { stl_read_default_limit : Z; stl_read_max_limit : Z }.
Record FsLimits := mkFsLimits { fl_db_file_mode : string; fl_runtime_dir_mode : string; fl_control_socket_mode : string }.

Record LimitsSection := mkLimitsSection {
  ls_queue : QueueLimits; ls_adapters : AdapterLimits; ls_effects : EffectLimits; ls_runs : RunLimits;
  ls_daemon : DaemonLimits; ls_approvals : ApprovalLimits; ls_shutdown : ShutdownLimits; ls_events : EventLimits;
  ls_streams : StreamLimits; ls_fs : FsLimits; ls_context : ContextLimits }.

Record ConfigDocument := mkConfigDocument {
  cd_schema_version : Z;
  cd_kernel : KernelSection;
  cd_services : ServicesSection;
  cd_profiles : gmap string ProfileSection;
  cd_limits : LimitsSection }.

(** [serde_yaml::from_str], the document or the parser's message, and the text
    of [str::from_utf8]'s error. *)
Class ConfigYaml := {
  yaml_from_str : string -> ConfigDocument + string;
  utf8_error : bytes -> string }.

(** ** Semantic checks ([model.rs]) *)

(** The walk along [extends]: every turn indexes [profiles[cursor]], which
    panics on an unknown profile, and stops at a profile it has seen. *)
Inductive Walk := WalkDone (visited : list string) | WalkCycle (revisited : string) | WalkPanic | WalkOutOfFuel.

Fixpoint extends_walk (fuel : nat) (profiles : gmap string ProfileSection) (seen : gset string) (cursor : string) : Walk :=
  match fuel with
  | O => WalkOutOfFuel
  | S fuel =>
      match profiles !! cursor with
      | None => WalkPanic
      | Some p =>
          match p.(pr_extends) with
          | None => WalkDone []
          | Some next =>
              if bool_decide (next ∈ seen) then WalkCycle next
              else match extends_walk fuel profiles ({[next]} ∪ seen) next with
                   | WalkDone visited => WalkDone (next :: visited)
                   | other => other
                   end
          end
      end
  end.

(** Enough turns: every one adds a profile to [seen], or the walk panics. *)
Definition walk_fuel (profiles : gmap string ProfileSection) : nat := S (S (size profiles)).

Fixpoint check_parents (profiles : gmap string ProfileSection) (names : list string) : Res unit :=
  match names with
  | [] => Ok tt
  | name :: names =>
      match pr_extends <$> profiles !! name with
      | Some (Some parent) =>
          if bool_decide (is_Some (profiles !! parent)) then check_parents profiles names
          else Err (kerr InvalidArgument ("profile '" +:+ name +:+ "' extends unknown profile '" +:+ parent +:+ "'"))
      | _ => check_parents profiles names
      end
  end.

Definition panicked : KernelError := kerr Internal "panic: unknown profile".

Fixpoint check_cycles (profiles : gmap string ProfileSection) (names : list string) : Res unit :=
  match names with
  | [] => Ok tt
  | name :: names =>
      match extends_walk (walk_fuel profiles) profiles ∅ name with
      | WalkDone _ => check_cycles profiles names
      | WalkCycle next =>
          Err (kerr InvalidArgument ("profile inheritance cycle at '" +:+ name +:+ "' (revisits '" +:+ next +:+ "')"))
      | _ => Err panicked
      end
  end.

Definition validate_profiles (profiles : gmap string ProfileSection) : Res unit :=
  let? _ := check_parents profiles (btree_keys profiles) in
  check_cycles profiles (btree_keys profiles).

Section Parse.
Context `{!Ext} `{!ConfigYaml}.

Definition parse_document (yaml : string) : Res ConfigDocument :=
  match yaml_from_str yaml with
  | inr e => Err (kerr InvalidArgument ("config document is not valid v1 YAML schema: " +:+ e))
  | inl doc =>
      if negb (doc.(cd_schema_version) =? SCHEMA_VERSION) then
        Err (kerr InvalidArgument ("unsupported schema_version " +:+ u64_to_string doc.(cd_schema_version) +:+
               " (expected " +:+ u64_to_string SCHEMA_VERSION +:+ ")"))
      else let? _ := validate_profiles doc.(cd_profiles) in Ok doc
  end.
End Parse.

Definition generation_services (doc : ConfigDocument) : ServicesSection := doc.(cd_services).

(** ** Resolution ([profile.rs]) *)

Definition PROFILE_PORTS : list string :=
  ["sandbox"; "workspace"; "artifact_store"; "memory_store"; "model_provider"; "tool_runtime"; "agent_loop";
   "effect.execute"].

(** The slots of a profile, in the order [resolve_profile] copies them. *)
Definition profile_slots (p : ProfileSection) : list (string * option string) :=
  [("sandbox", p.(pr_sandbox)); ("workspace", p.(pr_workspace)); ("artifact_store", p.(pr_artifact_store));
   ("memory_store", p.(pr_memory_store)); ("model_provider", p.(pr_model_provider));
   ("tool_runtime", p.(pr_tool_runtime)); ("agent_loop", p.(pr_agent_loop)); ("effect.execute", p.(pr_effect_execute))].

Definition put_slot (bindings : gmap string string) (slot : string * option string) : gmap string string :=
  match slot.2 with Some v => <[slot.1 := v]> bindings | None => bindings end.

Definition apply_profile (profiles : gmap string ProfileSection) (bindings : gmap string string) (name : string) : gmap string string :=
  match profiles !! name with Some p => foldl put_slot bindings (profile_slots p) | None => bindings end.

Definition resolve_profile (doc : ConfigDocument) (name : string) : Res (gmap string string) :=
  match doc.(cd_profiles) !! name with
  | None => Err (kerr NotFound ("profile '" +:+ name +:+ "' not defined"))
  | Some _ =>
      match extends_walk (walk_fuel doc.(cd_profiles)) doc.(cd_profiles) {[name]} name with
      | WalkDone ancestors => Ok (foldl (apply_profile doc.(cd_profiles)) ∅ (rev (name :: ancestors)))
      | WalkCycle _ => Err (kerr InvalidArgument ("profile inheritance cycle at '" +:+ name +:+ "'"))
      | _ => Err panicked
      end
  end.

(** ** Chains *)

Section Chains.
Context (profiles : gmap string ProfileSection).

Definition parent_of (n q : string) : Prop := exists p, profiles !! n = Some p /\ p.(pr_extends) = Some q.

Definition chains_ok : Prop :=
  (forall n q, parent_of n q -> is_Some (profiles !! q)) /\ (forall n, ~ tc parent_of n n).

Lemma walk_shrinks (seen : gset string) next :
  next ∉ seen -> is_Some (profiles !! next) ->
  (size (dom profiles ∖ ({[next]} ∪ seen)) < size (dom profiles ∖ seen))%nat.
Proof.
  intros Hs Hq%elem_of_dom. apply subset_size. split.
  - intros x. rewrite !elem_of_difference, elem_of_union. tauto.
  - intros Hsub. specialize (Hsub next). rewrite !elem_of_difference, elem_of_union, elem_of_singleton in Hsub. tauto.
Qed.

Lemma walk_terminates fuel seen cursor :
  (size (dom profiles ∖ seen) + 2 <= fuel)%nat -> extends_walk fuel profiles seen cursor <> WalkOutOfFuel.
Proof.
  revert seen cursor. induction fuel as [|fuel IH]; intros seen cursor Hf; [lia|]. cbn [extends_walk].
  destruct (profiles !! cursor) as [p|]; [|done]. destruct (pr_extends p) as [next|]; [|done].
  case_bool_decide as Hs; [done|]. destruct (profiles !! next) as [q|] eqn:Hq.
  - pose proof (walk_shrinks seen next Hs (mk_is_Some _ _ Hq)) as Hsz. clear Hq.
    assert (Hle : (size (dom profiles ∖ ({[next]} ∪ seen)) + 2 <= fuel)%nat) by lia.
    specialize (IH _ next Hle). clear -IH. destruct (extends_walk fuel profiles ({[next]} ∪ seen) next); congruence.
  - destruct fuel as [|fuel]; [lia|]. cbn [extends_walk]. by rewrite Hq.
Qed.

(** A walk that ends shows the chain is finite. *)
Lemma walk_done_acc fuel : forall seen cursor visited,
  extends_walk fuel profiles seen cursor = WalkDone visited -> Acc (fun q n => parent_of n q) cursor.
Proof.
  induction fuel as [|fuel IH]; intros seen cursor visited E; [discriminate E|]. cbn [extends_walk] in E.
  destruct (profiles !! cursor) as [p|] eqn:Hp; [|discriminate E].
  constructor. intros q (p' & Hp' & Hq). simplify_eq. rewrite Hq in E.
  case_bool_decide; [discriminate E|]. destruct (extends_walk fuel profiles ({[q]} ∪ seen) q) eqn:Hw; try discriminate E.
  by apply (IH _ _ _ Hw).
Qed.

Lemma acc_acyclic n : Acc (fun q n => parent_of n q) n -> ~ tc parent_of n n.
Proof.
  induction 1 as [n _ IH]. intros Hc. inversion Hc as [x y Hxy|x y z Hxy Hyz]; subst; [by apply (IH n)|].
  apply (IH y Hxy). eapply tc_r; eauto.
Qed.

(** Where the chains are sound the walk ends. *)
Lemma walk_succeeds fuel : forall seen cursor,
  chains_ok -> is_Some (profiles !! cursor) -> (forall s, s ∈ seen -> rtc parent_of s cursor) ->
  (size (dom profiles ∖ seen) + 2 <= fuel)%nat -> exists visited, extends_walk fuel profiles seen cursor = WalkDone visited.
Proof.
  induction fuel as [|fuel IH]; intros seen cursor Hok [p Hp] Hseen Hf; [lia|]. cbn [extends_walk]. rewrite Hp.
  destruct (pr_extends p) as [next|] eqn:He; [|eauto]. assert (Hpar : parent_of cursor next) by (by exists p).
  case_bool_decide as Hs.
  { exfalso. apply (proj2 Hok next). apply Hseen in Hs. by eapply tc_rtc_l; [exact Hs|apply tc_once]. }
  pose proof (proj1 Hok _ _ Hpar) as Hq.
  pose proof (walk_shrinks seen next Hs Hq) as Hsz.
  destruct (IH ({[next]} ∪ seen) next Hok Hq) as [visited Hv]; [|lia|rewrite Hv; eauto].
  intros s [->%elem_of_singleton|Hin]%elem_of_union; [done|]. eapply rtc_r; [by apply Hseen|done].
Qed.

Lemma check_parents_ok names :
  check_parents profiles names = Ok tt <-> forall n q, n ∈ names -> parent_of n q -> is_Some (profiles !! q).
Proof.
  induction names as [|n names IH]; cbn [check_parents]; [split; [by intros _ n q ?%not_elem_of_nil|done]|].
  destruct (profiles !! n) as [p|] eqn:Hp; cbn [fmap option_fmap option_map].
  2:{ rewrite IH. split; intros Hall m q; [|intros Hm; apply Hall; by right].
      intros [->|Hm]%elem_of_cons; [intros (p & Hp' & _); congruence|by apply Hall]. }
  destruct (pr_extends p) as [parent|] eqn:He.
  - case_bool_decide as Hpar.
    + rewrite IH. split; intros Hall m q; [|intros Hm; apply Hall; by right].
      intros [->|Hm]%elem_of_cons; [|by apply Hall]. intros (p' & Hp' & Hq). by simplify_eq.
    + split; [done|]. intros Hall. destruct Hpar. apply (Hall n parent); [left|]. by exists p.
  - rewrite IH. split; intros Hall m q; [|intros Hm; apply Hall; by right].
    intros [->|Hm]%elem_of_cons; [|by apply Hall]. intros (p' & Hp' & Hq). by simplify_eq.
Qed.

Lemma check_cycles_ok names :
  check_cycles profiles names = Ok tt <->
  forall n, n ∈ names -> exists visited, extends_walk (walk_fuel profiles) profiles ∅ n = WalkDone visited.
Proof.
  induction names as [|n names IH]; cbn [check_cycles]; [split; [by intros _ n ?%not_elem_of_nil|done]|].
  destruct (extends_walk _ _ _ n) as [visited| | |] eqn:Hw.
  2-4: split; [done|]; intros Hall; destruct (Hall n (list_elem_of_here _ _)) as [v Hv]; congruence.
  rewrite IH. split; intros Hall m; [|intros Hm; apply Hall; by right].
  intros [->|Hm]%elem_of_cons; [eauto|by apply Hall].
Qed.

Lemma walk_fuel_start seen : (size (dom profiles ∖ seen) + 2 <= walk_fuel profiles)%nat.
Proof.
  assert (Hsub : dom profiles ∖ seen ⊆ dom profiles) by (intros x; rewrite elem_of_difference; tauto).
  apply subseteq_size in Hsub. rewrite size_dom in Hsub. unfold walk_fuel. lia.
Qed.

Lemma validate_profiles_ok : validate_profiles profiles = Ok tt <-> chains_ok.
Proof.
  unfold validate_profiles, chains_ok. split.
  - intros E. apply res_bind_ok_inv in E as ([] & E1 & E2). rewrite check_parents_ok in E1. rewrite check_cycles_ok in E2. split.
    + intros n q Hp. apply (E1 n q); [|done]. apply btree_keys_elem. destruct Hp as (p & Hp & _). eauto.
    + intros n Hc. assert (Hn : is_Some (profiles !! n)).
      { clear -Hc. inversion Hc as [x y (p & Hp & _)|x y z (p & Hp & _) _]; eauto. }
      apply btree_keys_elem in Hn. destruct (E2 n Hn) as [visited Hv]. exact (acc_acyclic n (walk_done_acc _ _ _ _ Hv) Hc).
  - intros Hok. assert (check_parents profiles (btree_keys profiles) = Ok tt) as ->.
    { apply check_parents_ok. intros n q _. apply Hok. }
    cbn [res_bind]. apply check_cycles_ok. intros n Hn%btree_keys_elem. apply walk_succeeds;
      [exact Hok|exact Hn|by intros s ?%not_elem_of_empty|apply walk_fuel_start].
Qed.
End Chains.

(** ** What a profile resolves to *)

(** The value of a slot: the profile's own, or else what its parent resolves to. *)
Inductive inherits (profiles : gmap string ProfileSection) : string -> string -> string -> Prop :=
  | inherits_own n p slot v :
      profiles !! n = Some p -> (slot, Some v) ∈ profile_slots p -> inherits profiles n slot v
  | inherits_parent n p q slot v :
      profiles !! n = Some p -> (slot, None) ∈ profile_slots p -> p.(pr_extends) = Some q ->
      inherits profiles q slot v -> inherits profiles n slot v.

Lemma put_slots_lookup slots : forall b slot,
  NoDup slots.*1 ->
  foldl put_slot b slots !! slot =
  match list_find (fun kv => kv.1 = slot) slots with Some (_, (_, Some v)) => Some v | _ => b !! slot end.
Proof.
  induction slots as [|[k o] slots IH]; intros b slot Hnd; [done|]. cbn [foldl list_find fmap list_fmap] in *.
  apply list.NoDup_cons in Hnd as [Hk Hnd]. rewrite IH by done. cbn [fst].
  case_decide as Heq.
  - subst k. assert (list_find (fun kv => kv.1 = slot) slots = None) as ->.
    { apply list_find_None, list.Forall_forall. intros [k' o'] Hin Heq. cbn in Heq. subst. apply Hk.
      apply list_elem_of_fmap. by exists (slot, o'). }
    unfold put_slot. cbn. destruct o; [by rewrite lookup_insert_eq|done].
  - destruct (list_find _ slots) as [[i [k' [v|]]]|] eqn:Hf; cbn [fmap option_fmap option_map prod_map fst snd]; try done.
    + unfold put_slot. cbn. destruct o; [by rewrite lookup_insert_ne|done].
    + unfold put_slot. cbn. destruct o; [by rewrite lookup_insert_ne|done].
Qed.

Lemma profile_slots_nodup p : NoDup (profile_slots p).*1.
Proof. cbn. apply (bool_decide_unpack _). vm_compute. exact I. Qed.

Lemma profile_slot_unique p slot o o' : (slot, o) ∈ profile_slots p -> (slot, o') ∈ profile_slots p -> o = o'.
Proof.
  intros H1 H2. unfold profile_slots in *. rewrite !elem_of_cons in *.
  repeat match goal with H : _ \/ _ |- _ => destruct H | H : _ ∈ [] |- _ => by apply not_elem_of_nil in H end; by simplify_eq.
Qed.

Lemma apply_profile_lookup profiles b n p slot :
  profiles !! n = Some p ->
  (forall v, (slot, Some v) ∈ profile_slots p -> apply_profile profiles b n !! slot = Some v) /\
  ((slot, None) ∈ profile_slots p -> apply_profile profiles b n !! slot = b !! slot) /\
  ((forall o, (slot, o) ∉ profile_slots p) -> apply_profile profiles b n !! slot = b !! slot).
Proof.
  intros Hp. unfold apply_profile. rewrite Hp, put_slots_lookup by apply profile_slots_nodup.
  destruct (list_find (fun kv => kv.1 = slot) (profile_slots p)) as [[i [k o]]|] eqn:Hf.
  - apply list_find_Some in Hf as (Hi & Hk & _). cbn in Hk. subst k. apply list_elem_of_lookup_2 in Hi. split_and!.
    + intros v Hv. by rewrite (profile_slot_unique _ _ _ _ Hi Hv).
    + intros Hn. by rewrite (profile_slot_unique _ _ _ _ Hi Hn).
    + intros Hn. by destruct (Hn o).
  - apply list_find_None in Hf. split_and!; try done. intros v Hv.
    rewrite list.Forall_forall in Hf. by destruct (Hf _ Hv).
Qed.

Lemma slot_is_port p slot o : (slot, o) ∈ profile_slots p -> slot ∈ PROFILE_PORTS.
Proof. intros Hs. change PROFILE_PORTS with (profile_slots p).*1. apply list_elem_of_fmap. by exists (slot, o). Qed.

Lemma other_slots_unbound profiles names : forall b slot,
  slot ∉ PROFILE_PORTS -> b !! slot = None -> foldl (apply_profile profiles) b names !! slot = None.
Proof.
  induction names as [|n names IH]; intros b slot Hs Hb; [done|]. cbn [foldl]. apply IH; [done|].
  destruct (profiles !! n) as [p|] eqn:Hp; [|unfold apply_profile; by rewrite Hp].
  destruct (apply_profile_lookup profiles b n p slot Hp) as (_ & _ & ->); [done|]. intros o Ho. by apply slot_is_port in Ho.
Qed.

Lemma walk_inherits profiles fuel : forall seen n visited slot v,
  extends_walk fuel profiles seen n = WalkDone visited ->
  foldl (apply_profile profiles) ∅ (rev (n :: visited)) !! slot = Some v <-> inherits profiles n slot v.
Proof.
  induction fuel as [|fuel IH]; intros seen n visited slot v E; [discriminate E|]. cbn [extends_walk] in E.
  destruct (profiles !! n) as [p|] eqn:Hp; [|discriminate E].
  cbn [rev]. rewrite foldl_app. cbn [foldl]. set (b := foldl _ ∅ (rev visited)).
  destruct (apply_profile_lookup profiles b n p slot Hp) as (Hown & Hnone & Hnot).
  assert (Hcase : (exists w, (slot, Some w) ∈ profile_slots p) \/ (slot, None) ∈ profile_slots p \/ slot ∉ PROFILE_PORTS).
  { destruct (decide (slot ∈ PROFILE_PORTS)) as [Hs|]; [|by right; right].
    change PROFILE_PORTS with (profile_slots p).*1 in Hs. apply list_elem_of_fmap in Hs as ([k [w|]] & -> & Hs); eauto. }
  destruct Hcase as [[w Hw]|[Hn|Hn]].
  - rewrite (Hown w Hw). split; [intros [= ->]; by eapply inherits_own|].
    intros Hi. inversion Hi as [? p' ? ? Hp' Hs|? p' ? ? ? Hp' Hs]; simplify_eq.
    + f_equal. pose proof (profile_slot_unique _ _ _ _ Hw Hs). congruence.
    + pose proof (profile_slot_unique _ _ _ _ Hw Hs). congruence.
  - rewrite (Hnone Hn). destruct (pr_extends p) as [q|] eqn:He.
    + case_bool_decide; [discriminate E|].
      destruct (extends_walk fuel profiles ({[q]} ∪ seen) q) as [visited'| | |] eqn:Hw; try discriminate E.
      injection E as <-. unfold b. rewrite (IH _ _ _ slot v Hw). split; [by eapply inherits_parent|].
      intros Hi. inversion Hi as [? p' ? ? Hp' Hs|? p' ? ? ? Hp' Hs He' Hq]; simplify_eq; [|done].
      pose proof (profile_slot_unique _ _ _ _ Hn Hs). congruence.
    + injection E as <-. unfold b. cbn. rewrite lookup_empty. split; [done|]. intros Hi. exfalso.
      inversion Hi as [? p' ? ? Hp' Hs|? p' ? ? ? Hp' Hs He' Hq]; simplify_eq.
      pose proof (profile_slot_unique _ _ _ _ Hn Hs). congruence.
  - rewrite Hnot by (intros o Ho; by apply slot_is_port in Ho). unfold b. rewrite other_slots_unbound by done.
    split; [done|]. intros Hi. destruct Hn. by inversion Hi; eapply slot_is_port.
Qed.

Lemma resolve_profile_inherits doc name bindings :
  resolve_profile doc name = Ok bindings ->
  forall slot v, bindings !! slot = Some v <-> inherits doc.(cd_profiles) name slot v.
Proof.
  unfold resolve_profile. destruct (cd_profiles doc !! name); [|done].
  destruct (extends_walk _ _ _ name) as [visited| | |] eqn:Hw; try done. intros [= <-] slot v. by eapply walk_inherits.
Qed.

(** C31: A document whose profiles pass the checks has sound inheritance, and
    then every profile resolves, to exactly the bindings it inherits: for each
    port the value of the nearest ancestor that sets it.  The checks accept
    exactly the documents whose parents exist and whose chains have no cycle. *)
Theorem profile_resolution_exact doc :
  (validate_profiles doc.(cd_profiles) = Ok tt <-> chains_ok doc.(cd_profiles)) /\
  (chains_ok doc.(cd_profiles) -> forall name, is_Some (doc.(cd_profiles) !! name) ->
     exists bindings, resolve_profile doc name = Ok bindings /\
       forall slot v, bindings !! slot = Some v <-> inherits doc.(cd_profiles) name slot v).
Proof.
  split; [apply validate_profiles_ok|]. intros Hok name [p Hp]. unfold resolve_profile. rewrite Hp.
  destruct (walk_succeeds doc.(cd_profiles) (walk_fuel doc.(cd_profiles)) {[name]} name Hok) as [visited Hv];
    [by eauto|by intros s ->%elem_of_singleton|apply walk_fuel_start|].
  rewrite Hv. eexists. split; [done|]. apply resolve_profile_inherits. unfold resolve_profile. by rewrite Hp, Hv.
Qed.

(** The walk along [extends] always ends, within as many turns as there are
    profiles and two more, on every document, cyclic ones included. *)
Theorem extends_walk_terminates profiles seen cursor :
  extends_walk (walk_fuel profiles) profiles seen cursor <> WalkOutOfFuel.
Proof. apply walk_terminates, walk_fuel_start. Qed.
