(* ===== verification/Config.v ===== *)
(** * Configuration generations ([config-engine/src/generations.rs],
    [activate.rs], [commands.rs])

    Proposal, validation and smoke test of immutable generations, the
    compare-and-set of the active pointer, and the four command handlers. *)

From S2P Require Import Prelude Domain Ids Text Models StoreBase Store SecurityStore ExtensionStore Ledger Identity.
From S2P Require Import Events Runs RunGraph EffectPolicy Effects Scheduler Resources Kernel RunServices Coordinator.
From S2P Require Import Profiles.

Open Scope string_scope.
Open Scope Z_scope.

Definition PROPOSED : string := "proposed".
Definition VALIDATED : string := "validated".
Definition REJECTED : string := "rejected".
Definition UNTESTED : string := "untested".
Definition PASSED : string := "passed".
Definition FAILED : string := "failed".

Definition BUILTIN_ADAPTERS : list string := ["local-process-t0"; "local-workspace"; "local-artifacts"; "fixture-loop"].

Section Generations.
Context `{!Ext} `{!ConfigYaml}.

Definition document_digest (b : bytes) : string := "sha256:" +:+ hex_lower (sha256 b).

Definition propose (document : bytes) (actor : ActorId) (now_ms : Z) : M ConfigGenerationRow :=
  let digest := document_digest document in
  let! generation_id := draw_uuid in
  do! config_insert_generation (NewConfigGeneration.mk generation_id digest document PROPOSED UNTESTED actor now_ms) in
  let! row := config_get_generation generation_id in
  lift_res (ok_or row (kerr Internal "inserted generation not visible")).

Definition get_generation (id : ConfigGenerationId) : M ConfigGenerationRow :=
  let! row := config_get_generation id in lift_res (ok_or row generation_not_found).

Definition read_document (document : bytes) : Res ConfigDocument :=
  let? text := ok_or (from_utf8 document) (kerr InvalidArgument ("not utf-8: " +:+ utf8_error document)) in
  parse_document text.

Definition validate (id : ConfigGenerationId) : M ConfigGenerationRow :=
  let! row := get_generation id in
  match read_document row.(ConfigGenerationRow.document) with
  | Ok _ => do! config_set_generation_states id (Some VALIDATED) None in get_generation id
  | Err err => do! config_set_generation_states id (Some REJECTED) None in raise err
  end.

Definition adapter_exists (registered : list AdapterRegistrationRow) (name : string) : bool :=
  bool_decide (name ∈ BUILTIN_ADAPTERS) ||
  existsb (fun row => bool_decide (uuid_hyphenated row.(AdapterRegistrationRow.adapter_id) = name)) registered.

(** [binding.split('@').next()]. *)
Definition binding_name (binding : string) : string := List.hd binding (split_on "@" binding).

Fixpoint check_bindings (registered : list AdapterRegistrationRow) (profile : string) (bindings : gmap string string)
    (slots : list string) : Res unit :=
  match slots with
  | [] => Ok tt
  | slot :: slots =>
      let binding := default "" (bindings !! slot) in
      if adapter_exists registered (binding_name binding) then check_bindings registered profile bindings slots
      else Err (kerr FailedPrecondition
             ("profile '" +:+ profile +:+ "' binds missing adapter '" +:+ binding +:+ "' on " +:+ slot))
  end.

Fixpoint check_profiles (registered : list AdapterRegistrationRow) (doc : ConfigDocument) (names : list string) : Res unit :=
  match names with
  | [] => Ok tt
  | name :: names =>
      let? bindings := resolve_profile doc name in
      let? _ := check_bindings registered name bindings (btree_keys bindings) in
      check_profiles registered doc names
  end.

Definition validate_adapter_refs (doc : ConfigDocument) : M (Res unit) :=
  let! registered := adapters_list_registrations in
  ret (check_profiles registered doc (btree_keys doc.(cd_profiles))).

Definition smoke_test (id : ConfigGenerationId) : M ConfigGenerationRow :=
  let! row := get_generation id in
  guard! bool_decide (row.(ConfigGenerationRow.validation_state) = VALIDATED)
    else kerr FailedPrecondition "generation must be validated before smoke testing" in
  let! text := lift_res (ok_or (from_utf8 row.(ConfigGenerationRow.document))
                 (kerr InvalidArgument "generation document is not utf-8")) in
  let! doc := lift_res (parse_document text) in
  let! outcome := validate_adapter_refs doc in
  match outcome with
  | Ok _ => do! config_set_generation_states id None (Some PASSED) in get_generation id
  | Err err => do! config_set_generation_states id None (Some FAILED) in raise err
  end.

(** ** Activation ([activate.rs]) *)

Definition DAEMON_RESTART_REQUIRED : string := "DAEMON_RESTART_REQUIRED".

Definition active_state : M (option ActiveConfigGenerationRow * option ConfigGenerationRow) :=
  let! pointer := config_get_active in
  let! generation := match pointer with
                     | Some p => config_get_generation p.(ActiveConfigGenerationRow.generation_id)
                     | None => ret None
                     end in
  ret (pointer, generation).

Definition activate (id : ConfigGenerationId) (expected_revision : Z) (running_services : ServicesSection) (now_ms : Z)
    : M ActiveConfigGenerationRow :=
  let! row := get_generation id in
  guard! bool_decide (row.(ConfigGenerationRow.validation_state) = VALIDATED) &&
         bool_decide (row.(ConfigGenerationRow.test_state) = PASSED)
    else kerr FailedPrecondition ("generation is not eligible (validation=" +:+ row.(ConfigGenerationRow.validation_state)
           +:+ ", test=" +:+ row.(ConfigGenerationRow.test_state) +:+ ")") in
  let! text := lift_res (ok_or (from_utf8 row.(ConfigGenerationRow.document))
                 (kerr InvalidArgument "document not utf-8")) in
  let! doc := lift_res (parse_document text) in
  guard! bool_decide (generation_services doc = running_services)
    else kerr FailedPrecondition (DAEMON_RESTART_REQUIRED +:+
      ": generation-global service bindings differ from the running daemon's; restart to adopt them") in
  let! moved := config_cas_active expected_revision id now_ms in
  guard! moved else kerr Conflict "active generation revision moved during activation" in
  let! pointer := config_get_active in
  lift_res (ok_or pointer (kerr Internal "activated pointer not visible")).

Definition rollback := activate.

(** ** Commands ([commands.rs]) *)

Definition CMD_PROPOSE_CONFIG : string := "agentos.spec.v1.ProposeConfigGeneration".
Definition CMD_MARK_CONFIG_TESTED : string := "agentos.spec.v1.MarkConfigTested".
Definition CMD_ACTIVATE_CONFIG : string := "agentos.spec.v1.ActivateConfigGeneration".
Definition CMD_ROLLBACK_CONFIG : string := "agentos.spec.v1.RollbackConfigGeneration".

Record ProposeConfigMsg := mkProposeConfigMsg { pc_digest : string; pc_document_bytes : bytes }.
Record MarkConfigTestedMsg := mkMarkConfigTestedMsg { mt_generation_id : string; mt_digest : string }.
Record ActivateConfigMsg := mkActivateConfigMsg { ac_generation_id : string; ac_expected_active_revision : Z }.

(** [prost::Message::decode] of the four commands. *)
Class ConfigContracts := {
  decode_propose_config : bytes -> option ProposeConfigMsg;
  decode_mark_config_tested : bytes -> option MarkConfigTestedMsg;
  decode_activate_config : bytes -> option ActivateConfigMsg;
  decode_rollback_config : bytes -> option ActivateConfigMsg }.

Context `{!ConfigContracts} (running_services : ServicesSection).

Definition stage_config_event (event_type : string) (payload : bytes) (ctx : CommandContext) : M unit :=
  let! policy := lift_res policy_embedded in
  let uncatalogued := kerr Internal "event type is not catalogued" in
  let! sensitivity := lift_res (ok_or (policy_minimum policy event_type) uncatalogued) in
  let! retention := lift_res (ok_or (policy_default_retention policy event_type) uncatalogued) in
  let! stream := lift_res stream_config_global in
  let! stream_key := lift_res (ok_or (event_stream_key_new stream.(sk_text)) (kerr Internal "stream key is not canonical")) in
  let! event_id := draw_uuid in
  let! _ := stage (mkDraft event_id stream_key event_type payload sensitivity retention ctx.(cc_correlation_id) None) in
  ret tt.

Definition generation_message (row : ConfigGenerationRow) : bytes :=
  encode_to_vec (MsgConfigGeneration (uuid_hyphenated row.(ConfigGenerationRow.generation_id))
    row.(ConfigGenerationRow.digest) row.(ConfigGenerationRow.document) row.(ConfigGenerationRow.validation_state)
    row.(ConfigGenerationRow.test_state) row.(ConfigGenerationRow.created_at_ms)).

Definition propose_config_handle (ctx : CommandContext) (payload : bytes) : M CommandOutcome :=
  let! raw := lift_res (decode_contract decode_propose_config "ProposeConfigGeneration" payload) in
  guard! str_is_empty raw.(pc_digest) || bool_decide (raw.(pc_digest) = document_digest raw.(pc_document_bytes))
    else kerr InvalidArgument "declared digest does not match the document bytes" in
  let! now_ms := now_unix_ms in
  let! row := propose raw.(pc_document_bytes) ctx.(cc_actor_id) now_ms in
  let! row := validate row.(ConfigGenerationRow.generation_id) in
  do! stage_config_event "ConfigProposed" (generation_message row) ctx in
  ret (outcome_id row.(ConfigGenerationRow.generation_id)).

Definition check_digest (id : ConfigGenerationId) (digest : string) : M unit :=
  if str_is_empty digest then ret tt
  else
    let! row := get_generation id in
    guard! bool_decide (row.(ConfigGenerationRow.digest) = digest)
      else kerr Conflict "generation digest does not match the stored document" in
    ret tt.

Definition mark_config_tested_handle (ctx : CommandContext) (payload : bytes) : M CommandOutcome :=
  let! raw := lift_res (decode_contract decode_mark_config_tested "MarkConfigTested" payload) in
  let! id := lift_res (required_id "generation_id" raw.(mt_generation_id)) in
  do! check_digest id raw.(mt_digest) in
  let! row := smoke_test id in
  do! stage_config_event "ConfigTested" (generation_message row) ctx in
  ret (mkCommandOutcome OutcomeOk (into_bytes row.(ConfigGenerationRow.test_state))).

Definition announce_active (event_type : string) (id : ConfigGenerationId) (active : ActiveConfigGenerationRow)
    (ctx : CommandContext) : M CommandOutcome :=
  let! now_ms := now_unix_ms in
  do! stage_config_event event_type
        (encode_to_vec (MsgConfigGeneration (uuid_hyphenated id) "" [] "" "" now_ms)) ctx in
  ret (mkCommandOutcome OutcomeOk (into_bytes (u64_to_string active.(ActiveConfigGenerationRow.revision)))).

Definition activate_config_handle (ctx : CommandContext) (payload : bytes) : M CommandOutcome :=
  let! raw := lift_res (decode_contract decode_activate_config "ActivateConfigGeneration" payload) in
  let! id := lift_res (required_id "generation_id" raw.(ac_generation_id)) in
  let! now_ms := now_unix_ms in
  let! active := activate id raw.(ac_expected_active_revision) running_services now_ms in
  announce_active "ConfigActivated" id active ctx.

Definition rollback_config_handle (ctx : CommandContext) (payload : bytes) : M CommandOutcome :=
  let! raw := lift_res (decode_contract decode_rollback_config "RollbackConfigGeneration" payload) in
  let! id := lift_res (required_id "generation_id" raw.(ac_generation_id)) in
  let! now_ms := now_unix_ms in
  let! active := rollback id raw.(ac_expected_active_revision) running_services now_ms in
  announce_active "ConfigRolledBack" id active ctx.

Definition active_revision : M Z :=
  let! st := active_state in
  ret (from_option ActiveConfigGenerationRow.revision 0 st.1).

Definition register_config_handlers (registry : CommandRegistry) : Res CommandRegistry :=
  let? registry := register CMD_PROPOSE_CONFIG propose_config_handle registry in
  let? registry := register CMD_MARK_CONFIG_TESTED mark_config_tested_handle registry in
  let? registry := register CMD_ACTIVATE_CONFIG activate_config_handle registry in
  register CMD_ROLLBACK_CONFIG rollback_config_handle registry.
End Generations.

(** ** The operations, inverted *)

Section Behaviour.
Context `{!Ext} `{!ConfigYaml}.

Definition document_parses (document : bytes) (doc : ConfigDocument) : Prop := read_document document = Ok doc.

Lemma read_document_from document text doc :
  from_utf8 document = Some text -> parse_document text = Ok doc -> document_parses document doc.
Proof. intros Ht Hp. unfold document_parses, read_document. by rewrite Ht. Qed.

Lemma get_generation_ok id t row t' :
  get_generation id t = (Ok row, t') -> t' = t /\ t.(t_db).(config_generations) !! id = Some row.
Proof. unfold get_generation, config_get_generation. intros E. inv_run. done. Qed.

Lemma set_states_ok id v ts t u t' :
  config_set_generation_states id v ts t = (Ok u, t') ->
  exists r, t.(t_db).(config_generations) !! id = Some r /\
    t' = set_db (set_config_generations (<[id := set_states v ts r]> t.(t_db).(config_generations)) t.(t_db)) t.
Proof. unfold config_set_generation_states. intros E. inv_store. eauto. Qed.

Definition proposed_row (id : ConfigGenerationId) (document : bytes) (actor : ActorId) (now : Z) (v : string) : ConfigGenerationRow :=
  ConfigGenerationRow.mk id (document_digest document) document v UNTESTED actor now.

Lemma propose_ok document actor now t row t' :
  propose document actor now t = (Ok row, t') ->
  let id := new_uuid_v7 t.(t_ids) in
  row = proposed_row id document actor now PROPOSED /\ t.(t_db).(config_generations) !! id = None /\
  (forall k r, t.(t_db).(config_generations) !! k = Some r -> r.(ConfigGenerationRow.digest) <> document_digest document) /\
  t' = mkTxn (set_config_generations (<[id := row]> t.(t_db).(config_generations)) t.(t_db)) t.(t_ctx) (S t.(t_ids)) t.(t_clock).
Proof.
  intros E id. unfold propose, config_insert_generation, config_get_generation in E. inv_store. subst id.
  match goal with H : _ !! _ = Some row |- _ => cbn in H; rewrite lookup_insert_eq in H; injection H as <- end.
  split; [done|]. split; [by apply absent_true|]. split; [|done].
  match goal with H : none_such _ _ = true |- _ => rewrite none_such_true in H; intros k r Hr; specialize (H k r Hr) end.
  by case_bool_decide.
Qed.

Lemma validate_ok id t row t' :
  validate id t = (Ok row, t') ->
  exists r doc, t.(t_db).(config_generations) !! id = Some r /\ document_parses r.(ConfigGenerationRow.document) doc /\
    row = set_states (Some VALIDATED) None r /\
    t' = set_db (set_config_generations (<[id := row]> t.(t_db).(config_generations)) t.(t_db)) t.
Proof.
  unfold validate. intros E. apply bind_ok_inv in E as (r & t1 & E1 & E). apply get_generation_ok in E1 as [-> Hr].
  destruct (read_document _) as [doc|] eqn:Hd; [|inv_ok]. apply bind_ok_inv in E as ([] & t2 & E2 & E).
  apply set_states_ok in E2 as (r' & Hr' & ->). apply get_generation_ok in E as [-> Hg]. cbn in Hg.
  rewrite lookup_insert_eq in Hg. rewrite Hr in Hr'. injection Hr' as ->. injection Hg as <-. by exists r', doc.
Qed.

Definition registered_rows (d : Db) : list AdapterRegistrationRow := (merge_sort registration_le (map_to_list d.(registrations))).*2.

Definition refs_resolve (d : Db) (doc : ConfigDocument) : Prop :=
  check_profiles (registered_rows d) doc (btree_keys doc.(cd_profiles)) = Ok tt.

Lemma smoke_test_ok id t row t' :
  smoke_test id t = (Ok row, t') ->
  exists r doc, t.(t_db).(config_generations) !! id = Some r /\ r.(ConfigGenerationRow.validation_state) = VALIDATED /\
    document_parses r.(ConfigGenerationRow.document) doc /\ refs_resolve t.(t_db) doc /\
    row = set_states None (Some PASSED) r /\
    t' = set_db (set_config_generations (<[id := row]> t.(t_db).(config_generations)) t.(t_db)) t.
Proof.
  unfold smoke_test. intros E. apply bind_ok_inv in E as (r & t1 & E1 & E). apply get_generation_ok in E1 as [-> Hr].
  case_bool_decide as Hv; [|inv_ok]. unfold lift_res in E.
  apply bind_ok_inv in E as (text & t1 & [= Ht <-] & E). apply bind_ok_inv in E as (doc & t2 & [= Hd <-] & E).
  apply bind_ok_inv in E as (o & t3 & E3 & E).
  unfold validate_adapter_refs, adapters_list_registrations, query, gets, bind, ret in E3. injection E3 as <- <-.
  destruct (check_profiles _ _ _) as [[]|] eqn:Hc; [|inv_ok]. apply bind_ok_inv in E as ([] & t4 & E4 & E).
  apply set_states_ok in E4 as (r' & Hr' & ->). apply get_generation_ok in E as [-> Hg]. cbn in Hg.
  rewrite lookup_insert_eq in Hg. rewrite Hr in Hr'. injection Hr' as ->. injection Hg as <-.
  exists r', doc. apply ok_or_ok in Ht. split_and!; try done. by eapply read_document_from.
Qed.

Definition revision_of (d : Db) : Z := from_option ActiveConfigGenerationRow.revision 0 d.(active_config).

Lemma cas_active_ok e id now t b t' :
  config_cas_active e id now t = (Ok b, t') ->
  (b = false /\ t' = t) \/
  (b = true /\ revision_of t.(t_db) = e /\ is_Some (t.(t_db).(config_generations) !! id) /\
   u64_saturating_add e 1 <= i64_max /\
   t' = set_db (set_active_config (Some (ActiveConfigGenerationRow.mk id (u64_saturating_add e 1) now)) t.(t_db)) t).
Proof.
  unfold config_cas_active, revision_of. intros E. unfold query, gets, lift_res in E.
  apply bind_ok_inv in E as (row & t1 & [= <- <-] & E). apply bind_ok_inv in E as (cur & t2 & E2 & E).
  assert (Hc : t2 = t /\ cur = from_option ActiveConfigGenerationRow.revision 0 (active_config (t_db t))).
  { destruct (active_config (t_db t)) as [r|]; [|by injection E2 as <- <-]. injection E2 as E2 <-.
    by apply u64_column_ok in E2 as [-> _]. }
  destruct Hc as [-> ->]. destruct (Z.eqb_spec (from_option ActiveConfigGenerationRow.revision 0 (active_config (t_db t))) e) as [He|He];
    cbn [negb] in E; [|injection E as <- <-; by left]. right.
  apply bind_ok_inv in E as (g & t3 & [= <- <-] & E). destruct (config_generations (t_db t) !! id) as [r|]; [|inv_ok].
  apply bind_ok_inv in E as (next & t3 & [= E3 <-] & E). apply encode_u64_ok in E3 as [-> ?].
  apply bind_ok_inv in E as ([] & t4 & E4 & E). rewrite update_db_run in E4. injection E4 as <-. injection E as <- <-.
  split_and!; eauto.
Qed.
Lemma activate_ok id e services now t a t' :
  activate id e services now t = (Ok a, t') ->
  exists r doc, t.(t_db).(config_generations) !! id = Some r /\
    r.(ConfigGenerationRow.validation_state) = VALIDATED /\ r.(ConfigGenerationRow.test_state) = PASSED /\
    document_parses r.(ConfigGenerationRow.document) doc /\ doc.(cd_services) = services /\
    revision_of t.(t_db) = e /\ 0 <= e + 1 <= i64_max /\ a = ActiveConfigGenerationRow.mk id (e + 1) now /\
    t' = set_db (set_active_config (Some a) t.(t_db)) t.
Proof.
  unfold activate. intros E. apply bind_ok_inv in E as (r & t1 & E1 & E). apply get_generation_ok in E1 as [-> Hr].
  destruct (_ && _) eqn:Hst; [|inv_ok]. apply andb_prop in Hst as [Hv%bool_decide_eq_true Hp%bool_decide_eq_true].
  unfold lift_res in E. apply bind_ok_inv in E as (text & t1 & [= Ht%ok_or_ok <-] & E).
  apply bind_ok_inv in E as (doc & t2 & [= Hd <-] & E). case_bool_decide as Hs; [|inv_ok].
  apply bind_ok_inv in E as (b & t3 & E3 & E). apply cas_active_ok in E3 as [[-> ->]|(-> & He & _ & Hb & ->)]; [inv_ok|].
  apply bind_ok_inv in E as (p & t4 & E4 & E). unfold config_get_active, query, gets, bind, lift_res in E4. cbn in E4.
  unfold decode_active in E4. cbn in E4.
  destruct (u64_column _ _ (u64_saturating_add e 1)) as [z|] eqn:Hu; cbn in E4; [|done].
  apply u64_column_ok in Hu as [-> Hu]. injection E4 as <- <-. injection E as <- <-.
  assert (u64_saturating_add e 1 = e + 1) as Hsat by (unfold u64_saturating_add, u64_max, i64_max in *; lia).
  rewrite Hsat in *. exists r, doc. split_and!; try done; try lia. by eapply read_document_from.
Qed.

(** ** The invariant *)

(** A generation that may be stored: it parses, is validated under its digest,
    and when it has passed, every adapter its profiles bind is available. *)
Record generation_ok (d : Db) (id : ConfigGenerationId) (r : ConfigGenerationRow) : Prop := {
  go_key : r.(ConfigGenerationRow.generation_id) = id;
  go_digest : r.(ConfigGenerationRow.digest) = document_digest r.(ConfigGenerationRow.document);
  go_validated : r.(ConfigGenerationRow.validation_state) = VALIDATED;
  go_tested : r.(ConfigGenerationRow.test_state) = UNTESTED \/ r.(ConfigGenerationRow.test_state) = PASSED;
  go_parses : exists doc, document_parses r.(ConfigGenerationRow.document) doc /\
    (r.(ConfigGenerationRow.test_state) = PASSED -> refs_resolve d doc) }.

Record config_inv (d : Db) : Prop := {
  ci_generations : forall id r, d.(config_generations) !! id = Some r -> generation_ok d id r;
  ci_active : forall a, d.(active_config) = Some a -> exists r,
    d.(config_generations) !! a.(ActiveConfigGenerationRow.generation_id) = Some r /\
    r.(ConfigGenerationRow.test_state) = PASSED }.

(** What a step keeps: generations stay, with their content and their marks,
    the active revision only grows, and an unchanged revision means an unchanged
    pointer. *)
Record config_rel (d d' : Db) : Prop := {
  cr_inv : config_inv d -> config_inv d';
  cr_revision : revision_of d < revision_of d' \/ d'.(active_config) = d.(active_config) }.

Definition adapters_grow (d d' : Db) : Prop := forall k r, d.(registrations) !! k = Some r ->
  exists r', d'.(registrations) !! k = Some r' /\ r'.(AdapterRegistrationRow.adapter_id) = r.(AdapterRegistrationRow.adapter_id).

#[export] Instance config_rel_preorder : PreOrder config_rel.
Proof.
  split; [intros d; split; [done|by right]|]. intros d1 d2 d3 [I1 R1] [I2 R2]. split; [auto|].
  assert (Heq : forall d d', active_config d' = active_config d -> revision_of d' = revision_of d).
  { intros d d' E. unfold revision_of. by rewrite E. }
  destruct R1 as [R1|R1], R2 as [R2|R2]; [left; lia|apply Heq in R2; left; lia|apply Heq in R1; left; lia|right; congruence].
Qed.

Lemma registered_elem d r : r ∈ registered_rows d <-> exists k, d.(registrations) !! k = Some r.
Proof.
  unfold registered_rows. rewrite merge_sort_Permutation, list_elem_of_fmap. split.
  - intros ([k r'] & -> & Hk%elem_of_map_to_list). eauto.
  - intros [k Hk]. exists (k, r). split; [done|]. by apply elem_of_map_to_list.
Qed.

Lemma adapter_exists_grows d d' name :
  adapters_grow d d' -> adapter_exists (registered_rows d) name = true -> adapter_exists (registered_rows d') name = true.
Proof.
  intros Hg. unfold adapter_exists. rewrite !orb_true_iff, !existsb_exists. intros [Hb|(r & Hr & Hn%bool_decide_eq_true)]; [by left|right].
  apply list_elem_of_In, registered_elem in Hr as [k Hk]. destruct (Hg k r Hk) as (r' & Hk' & Hid). exists r'. split.
  - apply list_elem_of_In, registered_elem. eauto.
  - apply bool_decide_eq_true. by rewrite Hid.
Qed.

Lemma refs_resolve_grows d d' doc : adapters_grow d d' -> refs_resolve d doc -> refs_resolve d' doc.
Proof.
  intros Hg. unfold refs_resolve. generalize (btree_keys (cd_profiles doc)) as names.
  assert (Hb : forall profile bindings slots, check_bindings (registered_rows d) profile bindings slots = Ok tt ->
    check_bindings (registered_rows d') profile bindings slots = Ok tt).
  { intros profile bindings. induction slots as [|slot slots IH]; [done|]. cbn [check_bindings].
    destruct (adapter_exists (registered_rows d) _) eqn:Ha; [|done]. by rewrite (adapter_exists_grows d d'). }
  induction names as [|name names IH]; [done|]. cbn [check_profiles]. intros E.
  apply res_bind_ok_inv in E as (bindings & Hr & E). apply res_bind_ok_inv in E as ([] & Hc & E).
  rewrite Hr. cbn [res_bind]. rewrite (Hb _ _ _ Hc). cbn [res_bind]. by apply IH.
Qed.

Lemma generation_ok_grows d d' id r : adapters_grow d d' -> generation_ok d id r -> generation_ok d' id r.
Proof.
  intros Hg [K D V T (doc & Hd & Hp)]. split; try done. exists doc. split; [done|]. intros Ht. by eapply refs_resolve_grows, Hp.
Qed.

Lemma config_rel_elsewhere d d' :
  d'.(config_generations) = d.(config_generations) -> d'.(active_config) = d.(active_config) -> adapters_grow d d' ->
  config_rel d d'.
Proof.
  intros Eg Ea Hg. split; [|by right]. intros [G A]. split.
  - intros id r. rewrite Eg. intros Hr. by eapply generation_ok_grows, G.
  - intros a. rewrite Ea, Eg. apply A.
Qed.

Lemma adapters_grow_same d d' : d'.(registrations) = d.(registrations) -> adapters_grow d d'.
Proof. intros E k r Hr. exists r. by rewrite E. Qed.

(** The generations after a write of one row. *)
Lemma config_inv_write d id r :
  config_inv d -> generation_ok d id r ->
  (forall r0, d.(config_generations) !! id = Some r0 -> r0.(ConfigGenerationRow.test_state) = PASSED -> r.(ConfigGenerationRow.test_state) = PASSED) ->
  config_inv (set_config_generations (<[id := r]> d.(config_generations)) d).
Proof.
  intros [G A] Hr Hk. split; cbn [config_generations active_config set_config_generations].
  - intros k x. rewrite lookup_insert_Some. intros Hx. apply (generation_ok_grows d); [by apply adapters_grow_same|].
    destruct Hx as [[<- <-]|[_ Hx]]; [done|by apply G].
  - intros a Ha. destruct (A a Ha) as (r0 & Hr0 & Hp). destruct (decide (id = a.(ActiveConfigGenerationRow.generation_id))) as [->|Hne].
    + exists r. rewrite lookup_insert_eq. split; [done|by eapply Hk].
    + exists r0. by rewrite lookup_insert_ne.
Qed.

Lemma propose_validate_rel document actor now :
  ensures (on_db config_rel) (let! row := propose document actor now in validate row.(ConfigGenerationRow.generation_id)).
Proof.
  intros t row t' E. apply bind_ok_inv in E as (r0 & t1 & E1 & E). apply propose_ok in E1 as (-> & Hn & _ & ->).
  apply validate_ok in E as (r & doc & Hr & Hd & -> & ->). cbn in Hr. rewrite lookup_insert_eq in Hr. injection Hr as <-.
  split; [|done]. split; [|by right]. intros Hi. cbn. rewrite insert_insert_eq. refine (config_inv_write (t_db t) _ _ Hi _ _).
  - split; try done; [by left|]. exists doc. by split.
  - intros r0 Hr0. congruence.
Qed.

Lemma smoke_test_rel id : ensures (on_db config_rel) (smoke_test id).
Proof.
  intros t row t' (r & doc & Hr & Hv & Hd & Hrefs & -> & ->)%smoke_test_ok. split; [|done]. split; [|by right]. intros Hi.
  destruct (ci_generations _ Hi id r Hr) as [K D V T (doc' & Hd' & _)]. cbn. apply config_inv_write; [done| |done].
  split; try done; [by right|]. exists doc. split; [done|]. intros _. exact Hrefs.
Qed.

Lemma activate_rel id e services now : ensures (on_db config_rel) (activate id e services now).
Proof.
  intros t a t' (r & doc & Hr & Hv & Hp & Hd & _ & He & Hb & -> & ->)%activate_ok. split; [|done]. split.
  - intros [G A]. split; [|cbn; intros a [= <-]; by exists r].
    intros k x Hx. apply (generation_ok_grows (t_db t)); [by apply adapters_grow_same|by apply G].
  - left. unfold revision_of in *. cbn. lia.
Qed.

Lemma stage_config_event_touches ty p ctx : touches set_outbox (stage_config_event ty p ctx).
Proof.
  intros t u t' E. unfold stage_config_event in E. inv_run.
  rename select (stage _ _ = _) into S. apply stage_touches in S as [C [w W]]. split; [exact C|]. by exists w.
Qed.

Lemma get_generation_touches id : touches no_table (get_generation id).
Proof. unfold get_generation. solve_reads. Qed.
Lemma check_digest_touches id g : touches no_table (check_digest id g).
Proof. unfold check_digest. solve_reads. apply get_generation_touches. Qed.
End Behaviour.
#[export] Hint Resolve get_generation_touches stage_config_event_touches check_digest_touches : touches.
#[export] Hint Resolve smoke_test_rel activate_rel : ensures.
#[export] Hint Extern 2 (config_rel _ _) =>
  apply config_rel_elsewhere; [reflexivity|reflexivity|apply adapters_grow_same; reflexivity] : frame.

(** ** The commands *)

Section Commands.
Context `{!Ext} `{!ConfigYaml} `{!ConfigContracts}.

Definition config_commands (services : ServicesSection) : list CommandHandler :=
  [propose_config_handle; mark_config_tested_handle; activate_config_handle services; rollback_config_handle services].

Lemma announce_active_rel ty id a ctx : ensures (on_db config_rel) (announce_active ty id a ctx).
Proof. unfold announce_active. solve_ensures. Qed.
#[local] Hint Resolve announce_active_rel : ensures.

(** A proposal and its validation are one step. *)
Lemma propose_handle_split ctx payload t o t' :
  propose_config_handle ctx payload t = (Ok o, t') ->
  exists raw now t1 row t2, decode_propose_config payload = Some raw /\ t1 = mkTxn t.(t_db) t.(t_ctx) t.(t_ids) (S t.(t_clock)) /\
    (let! r := propose raw.(pc_document_bytes) ctx.(cc_actor_id) now in validate r.(ConfigGenerationRow.generation_id)) t1 = (Ok row, t2) /\
    (do! stage_config_event "ConfigProposed" (generation_message row) ctx in
     ret (outcome_id row.(ConfigGenerationRow.generation_id))) t2 = (Ok o, t').
Proof.
  unfold propose_config_handle. intros E. unfold lift_res in E. apply bind_ok_inv in E as (raw & t1 & [= Hr%ok_or_ok <-] & E).
  destruct (_ || _); [|inv_ok]. apply bind_ok_inv in E as (now & t2 & [= <- <-] & E).
  apply bind_ok_inv in E as (r & t3 & E3 & E). apply bind_ok_inv in E as (row & t4 & E4 & E).
  eexists raw, (clock_ms t.(t_clock)), _, row, t4. split; [done|]. split; [reflexivity|]. split; [|done].
  unfold bind. by rewrite E3.
Qed.

Lemma config_command_rel services h ctx payload :
  h ∈ config_commands services -> ensures (on_db config_rel) (h ctx payload).
Proof.
  unfold config_commands. rewrite !elem_of_cons. intros [->|[->|[->|[->|Hn]]]]; [| | | |by apply not_elem_of_nil in Hn].
  - intros t o t' (raw & now & t1 & row & t2 & _ & -> & E1 & E2)%propose_handle_split.
    destruct (propose_validate_rel _ _ _ _ _ _ E1) as [R1 C1].
    assert (Hs : ensures (on_db config_rel) (do! stage_config_event "ConfigProposed" (generation_message row) ctx in
      ret (outcome_id row.(ConfigGenerationRow.generation_id)))) by solve_ensures.
    destruct (Hs _ _ _ E2) as [R2 C2]. split; [by transitivity (t_db t2)|by rewrite C2, C1].
  - unfold mark_config_tested_handle. solve_ensures.
  - unfold activate_config_handle. solve_ensures.
  - unfold rollback_config_handle, rollback. solve_ensures.
Qed.

(** Steps of the system, as the configuration sees them: a configuration
    command that commits, under any daemon's services, or anything that leaves
    the generations and the pointer alone and unregisters no adapter. *)
Inductive config_step (d d' : Db) : Prop :=
  | config_step_command services h ctx payload t o t' :
      h ∈ config_commands services -> h ctx payload t = (Ok o, t') -> t.(t_db) = d -> t'.(t_db) = d' -> config_step d d'
  | config_step_elsewhere :
      d'.(config_generations) = d.(config_generations) -> d'.(active_config) = d.(active_config) -> adapters_grow d d' ->
      config_step d d'.

Lemma config_steps_rel d d' : rtc config_step d d' -> config_rel d d'.
Proof.
  induction 1 as [|d1 d2 d3 Hs _ IH]; [done|]. transitivity d2; [|done].
  destruct Hs as [services h ctx payload t o t' Hh E <- <-|E1 E2 E3]; [|by apply config_rel_elsewhere].
  by apply (config_command_rel services h ctx payload Hh _ _ _ E).
Qed.

Lemma config_inv_empty : config_inv empty_db.
Proof. split; [|done]. intros id r Hr. cbn in Hr. by rewrite lookup_empty in Hr. Qed.

(** What a successful check of the references says of each inherited binding. *)
Lemma check_bindings_ok registered profile bindings slots slot :
  check_bindings registered profile bindings slots = Ok tt -> slot ∈ slots ->
  adapter_exists registered (binding_name (default "" (bindings !! slot))) = true.
Proof.
  induction slots as [|s slots IH]; cbn [check_bindings]; [by intros _ ?%not_elem_of_nil|].
  destruct (adapter_exists registered (binding_name (default "" (bindings !! s)))) eqn:Ha; [|done].
  intros E [->|Hin]%elem_of_cons; [exact Ha|by apply IH].
Qed.

Lemma check_profiles_ok registered doc names name :
  check_profiles registered doc names = Ok tt -> name ∈ names ->
  exists bindings, resolve_profile doc name = Ok bindings /\
    check_bindings registered name bindings (btree_keys bindings) = Ok tt.
Proof.
  induction names as [|n names IH]; cbn [check_profiles]; [by intros _ ?%not_elem_of_nil|]. intros E.
  apply res_bind_ok_inv in E as (bindings & Hr & E). apply res_bind_ok_inv in E as ([] & Hc & E).
  intros [->|Hin]%elem_of_cons; [eauto|by apply IH].
Qed.

Lemma refs_resolve_inherits d doc :
  refs_resolve d doc -> forall profile slot v, inherits doc.(cd_profiles) profile slot v ->
  adapter_exists (registered_rows d) (binding_name v) = true.
Proof.
  intros Hrefs profile slot v Hi. assert (Hp : is_Some (cd_profiles doc !! profile)) by (inversion Hi; eauto).
  apply btree_keys_elem in Hp as Hk. destruct (check_profiles_ok _ _ _ _ Hrefs Hk) as (bindings & Hr & Hc).
  pose proof (proj2 (resolve_profile_inherits _ _ _ Hr slot v) Hi) as Hv.
  pose proof (check_bindings_ok _ _ _ _ slot Hc) as Ha. rewrite Hv in Ha. cbn in Ha. apply Ha, btree_keys_elem. eauto.
Qed.

(** C32: The active configuration is always vetted: in every state configuration
    commands and other writes lead to from an empty database, the active pointer
    names a stored generation that is validated and has passed its test, its
    document parses, its profiles all resolve, and every adapter they bind is
    built in or registered. *)
Theorem active_config_vetted d a :
  rtc config_step empty_db d -> d.(active_config) = Some a ->
  exists r doc, d.(config_generations) !! a.(ActiveConfigGenerationRow.generation_id) = Some r /\
    r.(ConfigGenerationRow.validation_state) = VALIDATED /\ r.(ConfigGenerationRow.test_state) = PASSED /\
    r.(ConfigGenerationRow.digest) = document_digest r.(ConfigGenerationRow.document) /\
    read_document r.(ConfigGenerationRow.document) = Ok doc /\
    forall profile slot v, inherits doc.(cd_profiles) profile slot v ->
      adapter_exists (registered_rows d) (binding_name v) = true.
Proof.
  intros Hs Ha. pose proof (cr_inv _ _ (config_steps_rel _ _ Hs) config_inv_empty) as [G A].
  destruct (A a Ha) as (r & Hr & Hp). destruct (G _ _ Hr) as [_ D V _ (doc & Hd & Hrefs)]. exists r, doc.
  split_and!; try done. by apply refs_resolve_inherits, Hrefs.
Qed.

(** Activation is a compare-and-set on the revision: it succeeds only for a
    generation that is validated, tested and binds the running daemon's services,
    at the current revision, and then moves the pointer and nothing else; and at
    most one activation succeeds at each revision, whatever happens in between. *)
Theorem activation_is_fenced id e services now t a t' :
  activate id e services now t = (Ok a, t') ->
  (exists r doc, t.(t_db).(config_generations) !! id = Some r /\
     r.(ConfigGenerationRow.validation_state) = VALIDATED /\ r.(ConfigGenerationRow.test_state) = PASSED /\
     read_document r.(ConfigGenerationRow.document) = Ok doc /\ generation_services doc = services) /\
  revision_of t.(t_db) = e /\ t'.(t_db) = set_active_config (Some (ActiveConfigGenerationRow.mk id (e + 1) now)) t.(t_db) /\
  (forall id2 services2 now2 t2, rtc config_step t'.(t_db) t2.(t_db) ->
     is_ok (fst (activate id2 e services2 now2 t2)) = false).
Proof.
  intros (r & doc & Hr & Hv & Hp & Hd & Hs & He & Hb & -> & ->)%activate_ok. split_and!; [by exists r, doc|done|done|].
  intros id2 services2 now2 t2 Hst. destruct (activate id2 e services2 now2 t2) as [[a2|] t3] eqn:E2; [|done].
  apply activate_ok in E2 as (_ & _ & _ & _ & _ & _ & _ & He2 & _). exfalso.
  pose proof (cr_revision _ _ (config_steps_rel _ _ Hst)) as Hrev. unfold revision_of in *. cbn in Hrev.
  destruct Hrev as [Hrev|Hrev]; [|rewrite Hrev in He2; cbn in He2]; lia.
Qed.

(** A generation that fails leaves nothing behind: the mark a failed
    validation or smoke test writes is rolled back with its command, so that in
    every reachable state each stored generation is validated and untested or
    passed; a document that does not parse is not even recorded as proposed. *)
Theorem failure_marks_are_rolled_back d :
  rtc config_step empty_db d ->
  (forall id r, d.(config_generations) !! id = Some r ->
     r.(ConfigGenerationRow.validation_state) = VALIDATED /\ r.(ConfigGenerationRow.test_state) ∈ [UNTESTED; PASSED]) /\
  (forall txctx ctx payload raw w, w.(w_db) = d -> decode_propose_config payload = Some raw ->
     is_ok (read_document raw.(pc_document_bytes)) = false ->
     let '(res, w') := with_write_txn txctx (propose_config_handle ctx payload) w in is_ok res = false /\ w'.(w_db) = d).
Proof.
  intros Hs. split.
  - intros id r Hr. pose proof (cr_inv _ _ (config_steps_rel _ _ Hs) config_inv_empty) as [G _].
    destruct (G _ _ Hr) as [_ _ V T _]. split; [done|]. rewrite !elem_of_cons. tauto.
  - intros txctx ctx payload raw w <- Hraw Hbad. unfold with_write_txn.
    destruct (begin_write txctx w) as [t|] eqn:Hb; [|done].
    destruct (propose_config_handle ctx payload t) as [[o|err] t'] eqn:E; [|done]. exfalso.
    apply propose_handle_split in E as (raw' & now & t1 & row & t2 & Hraw' & _ & E & _). simplify_eq.
    apply bind_ok_inv in E as (r0 & t3 & E1 & E). apply propose_ok in E1 as (-> & _ & _ & ->).
    apply validate_ok in E as (r & doc & Hr & Hd & _). cbn in Hr. rewrite lookup_insert_eq in Hr. injection Hr as <-.
    unfold document_parses in Hd. cbn in Hd. by rewrite Hd in Hbad.
Qed.

(** The configuration commands keep the kernel relation. *)
Lemma stage_config_event_kernel ty p ctx : ensures (on_db kernel_rel) (stage_config_event ty p ctx).
Proof. apply ensures_kernel; solve [solve_ensures] || (unfold stage_config_event; solve_ensures). Qed.
#[local] Hint Resolve stage_config_event_kernel : ensures.

Lemma config_command_kernel services h : h ∈ config_commands services -> KernelHandler h.
Proof.
  unfold config_commands. rewrite !elem_of_cons. intros Hh ctx payload.
  destruct Hh as [->|[->|[->|[->|Hn]]]]; [| | | |by apply not_elem_of_nil in Hn].
  - unfold propose_config_handle, propose, validate. solve_ensures.
  - unfold mark_config_tested_handle, smoke_test, validate_adapter_refs. solve_ensures.
  - unfold activate_config_handle, activate, announce_active. solve_ensures.
  - unfold rollback_config_handle, rollback, activate, announce_active. solve_ensures.
Qed.
End Commands.
