(* ===== verification/Resolver.v ===== *)
(** * Capability sets and the port resolver
    ([adapter-registry/src/capabilities.rs], [resolver.rs])

    Which registered adapter serves a port: the ones that implement it, declare
    the capabilities, host the tier and satisfy trust, conformance and pin; of
    these the first by configured priority and then by identity.  The JSON
    decoder of the stored columns is a parameter. *)

From S2P Require Import Prelude Domain Ids Text Models StoreBase Store.

Open Scope string_scope.
Open Scope Z_scope.

Inductive SandboxTier := T0 | T1 | T2 | T3.

Definition tier_rank (t : SandboxTier) : nat := match t with T0 => 0 | T1 => 1 | T2 => 2 | T3 => 3 end.
Definition tier_debug (t : SandboxTier) : string := match t with T0 => "T0" | T1 => "T1" | T2 => "T2" | T3 => "T3" end.

Definition REQUIRED_FOR_T2 : list string :=
  ["host_fs_default_deny"; "network_default_deny"; "host_socket_deny"; "process_tree_containment"; "cpu_limit";
   "memory_limit"; "pid_limit"; "disk_quota"; "wall_clock_limit"; "descendant_cleanup"].

(** [CapabilitySet] is a [BTreeSet]. *)
Definition capability_set (names : list string) : gset string := list_to_set names.
Definition satisfies (set : gset string) (required : list string) : bool := forallb (fun r => bool_decide (r ∈ set)) required.
Definition hosts_tier (set : gset string) (tier : SandboxTier) : bool :=
  match tier with T0 | T1 => true | T2 | T3 => satisfies set REQUIRED_FOR_T2 end.
Definition capability_names (set : gset string) : list string := merge_sort string_le (elements set).

Record PortImpl := mkPortImpl { pi_port_id : string; pi_port_version : Z }.

Record PortRequirement := mkPortRequirement {
  rq_port_id : string;
  rq_port_version : Z;
  rq_required_capabilities : list string;
  rq_sandbox_tier : SandboxTier;
  rq_pin_adapter_id : option AdapterId;
  rq_require_conformance_passed : bool }.

Record ResolvedAdapter := mkResolvedAdapter {
  rs_adapter_id : AdapterId;
  rs_version : string;
  rs_bundle_digest : string;
  rs_negotiated_capabilities : list string;
  rs_port : PortImpl;
  rs_trust_state : TrustState }.

Record Candidate := mkCandidate {
  ca_row : AdapterRegistrationRow; ca_ports : list PortImpl; ca_capabilities : gset string }.

(** [serde_json::from_slice] and [to_vec] of the two stored columns. *)
Class RegistryJson := {
  ports_from_slice : bytes -> option (list PortImpl);
  names_from_slice : bytes -> option (list string);
  ports_to_vec : list PortImpl -> bytes;
  names_to_vec : list string -> bytes }.

Definition candidate_decode `{!RegistryJson} (row : AdapterRegistrationRow) : Res Candidate :=
  let? ports := ok_or (ports_from_slice row.(AdapterRegistrationRow.implemented_ports))
                  (kerr Internal "persisted implemented_ports is not valid JSON") in
  let? caps := ok_or (names_from_slice row.(AdapterRegistrationRow.capabilities))
                 (kerr Internal "persisted capabilities is not valid JSON") in
  Ok (mkCandidate row ports (capability_set caps)).

Definition serves (requirement : PortRequirement) (p : PortImpl) : bool :=
  bool_decide (p.(pi_port_id) = requirement.(rq_port_id)) && (p.(pi_port_version) =? requirement.(rq_port_version)).

(** The filter of [resolve]. *)
Definition eligible (requirement : PortRequirement) (c : Candidate) : bool :=
  existsb (serves requirement) c.(ca_ports) &&
  satisfies c.(ca_capabilities) requirement.(rq_required_capabilities) &&
  hosts_tier c.(ca_capabilities) requirement.(rq_sandbox_tier) &&
  ((tier_rank requirement.(rq_sandbox_tier) <=? tier_rank T0)%nat ||
   bool_decide (c.(ca_row).(AdapterRegistrationRow.trust_state) = TrustState.Trusted)) &&
  match requirement.(rq_pin_adapter_id) with
  | None => true
  | Some pin => bool_decide (pin = c.(ca_row).(AdapterRegistrationRow.adapter_id))
  end &&
  negb (bool_decide (c.(ca_row).(AdapterRegistrationRow.conformance_state) = ConformanceState.Failed)) &&
  (negb requirement.(rq_require_conformance_passed) ||
   bool_decide (c.(ca_row).(AdapterRegistrationRow.conformance_state) = ConformanceState.Passed)).

Section Resolve.
Context `{!Ext}.

(** [priority.iter().position(..).unwrap_or(usize::MAX)]: positions of a slice
    are below [usize::MAX]. *)
Fixpoint position (p : AdapterId -> bool) (l : list AdapterId) : option nat :=
  match l with [] => None | x :: l => if p x then Some O else S <$> position p l end.

Definition rank (priority : list AdapterId) (c : Candidate) : option nat :=
  position (fun p => bool_decide (p = c.(ca_row).(AdapterRegistrationRow.adapter_id))) priority.

Definition identity (c : Candidate) : string * string * string :=
  (uuid_hyphenated c.(ca_row).(AdapterRegistrationRow.adapter_id), c.(ca_row).(AdapterRegistrationRow.version),
   c.(ca_row).(AdapterRegistrationRow.bundle_digest)).

(** [cmp] on the three texts, and on the rank first. *)
Definition identity_compare (a b : string * string * string) : comparison :=
  match String.compare a.1.1 b.1.1 with
  | Eq => match String.compare a.1.2 b.1.2 with Eq => String.compare a.2 b.2 | c => c end
  | c => c
  end.

Definition rank_compare (a b : option nat) : comparison :=
  match a, b with
  | Some a, Some b => Nat.compare a b
  | Some _, None => Lt
  | None, Some _ => Gt
  | None, None => Eq
  end.

Definition candidate_compare (priority : list AdapterId) (a b : Candidate) : comparison :=
  match rank_compare (rank priority a) (rank priority b) with
  | Eq => identity_compare (identity a) (identity b)
  | c => c
  end.

Definition candidate_le (priority : list AdapterId) (a b : Candidate) : Prop := candidate_compare priority a b <> Gt.

#[export] Instance candidate_le_dec priority : RelDecision (candidate_le priority).
Proof. intros a b. unfold candidate_le. apply _. Defined.

Definition unsupported_port (requirement : PortRequirement) : KernelError :=
  kerr FailedPrecondition ("no adapter satisfies port " +:+ requirement.(rq_port_id) +:+ "@" +:+
    u64_to_string requirement.(rq_port_version) +:+ " (tier " +:+ tier_debug requirement.(rq_sandbox_tier) +:+
    "): capability unsupported").

Definition resolve_port (requirement : PortRequirement) (candidates : list Candidate) (priority : list AdapterId)
    : Res ResolvedAdapter :=
  let matches := merge_sort (candidate_le priority) (List.filter (eligible requirement) candidates) in
  let? chosen := ok_or (head matches) (unsupported_port requirement) in
  let? port := ok_or (List.find (serves requirement) chosen.(ca_ports)) (kerr Internal "panic: filtered on this port") in
  Ok (mkResolvedAdapter chosen.(ca_row).(AdapterRegistrationRow.adapter_id)
        chosen.(ca_row).(AdapterRegistrationRow.version) chosen.(ca_row).(AdapterRegistrationRow.bundle_digest)
        (capability_names chosen.(ca_capabilities)) port chosen.(ca_row).(AdapterRegistrationRow.trust_state)).
End Resolve.

(** ** Comparison functions that are total orders *)

Class LawfulCompare {A} (cmp : A -> A -> comparison) : Prop := {
  cmp_eq a b : cmp a b = Eq <-> a = b;
  cmp_opp a b : cmp b a = CompOpp (cmp a b);
  cmp_trans a b c : cmp a b = Lt -> cmp b c = Lt -> cmp a c = Lt }.

Lemma ascii_compare_trans a b c : Ascii.compare a b = Lt -> Ascii.compare b c = Lt -> Ascii.compare a c = Lt.
Proof. unfold Ascii.compare. rewrite !N.compare_lt_iff. lia. Qed.

#[export] Instance string_compare_lawful : LawfulCompare String.compare.
Proof.
  split.
  - intros a b. split; [apply String.compare_eq_iff|]. intros ->. induction b as [|c b IH]; [done|]. cbn.
    unfold Ascii.compare. by rewrite N.compare_refl.
  - intros a b. apply String.compare_antisym.
  - induction a as [|x a IH]; intros [|y b] [|z c]; cbn; try done.
    destruct (Ascii.compare x y) eqn:E1; [|intros _|done].
    + apply Ascii.compare_eq_iff in E1 as ->. destruct (Ascii.compare y z); try done. by apply IH.
    + destruct (Ascii.compare y z) eqn:E2; [intros _|intros _|done].
      * apply Ascii.compare_eq_iff in E2 as <-. by rewrite E1.
      * by rewrite (ascii_compare_trans _ _ _ E1 E2).
Qed.

Definition lex_compare {A B} (c1 : A -> A -> comparison) (c2 : B -> B -> comparison) (a b : A * B) : comparison :=
  match c1 a.1 b.1 with Eq => c2 a.2 b.2 | c => c end.

#[export] Instance lex_compare_lawful {A B} (c1 : A -> A -> comparison) (c2 : B -> B -> comparison) :
  LawfulCompare c1 -> LawfulCompare c2 -> LawfulCompare (lex_compare c1 c2).
Proof.
  intros L1 L2. unfold lex_compare. split.
  - intros [a1 a2] [b1 b2]. cbn. destruct (c1 a1 b1) eqn:E.
    + apply cmp_eq in E as ->. rewrite cmp_eq. split; congruence.
    + split; [done|]. intros [= -> ->]. by rewrite (proj2 (cmp_eq b1 b1) eq_refl) in E.
    + split; [done|]. intros [= -> ->]. by rewrite (proj2 (cmp_eq b1 b1) eq_refl) in E.
  - intros [a1 a2] [b1 b2]. cbn. rewrite (cmp_opp a1 b1). destruct (c1 a1 b1); cbn; [apply cmp_opp|done|done].
  - intros [a1 a2] [b1 b2] [d1 d2]. cbn. destruct (c1 a1 b1) eqn:E1; [|intros _|done].
    + apply cmp_eq in E1 as ->. destruct (c1 b1 d1); try done. apply cmp_trans.
    + destruct (c1 b1 d1) eqn:E2; [intros _|intros _|done].
      * apply cmp_eq in E2 as ->. by rewrite E1.
      * by rewrite (cmp_trans _ _ _ E1 E2).
Qed.

#[export] Instance rank_compare_lawful : LawfulCompare rank_compare.
Proof.
  split.
  - intros [a|] [b|]; cbn; rewrite ?Nat.compare_eq_iff; split; congruence.
  - intros [a|] [b|]; cbn; try done. apply Nat.compare_antisym.
  - intros [a|] [b|] [c|]; cbn; try done. rewrite !Nat.compare_lt_iff. lia.
Qed.

Section Order.
Context {A} (cmp : A -> A -> comparison) `{!LawfulCompare cmp}.

Lemma not_gt_total a b : cmp a b <> Gt \/ cmp b a <> Gt.
Proof. rewrite (cmp_opp (cmp := cmp) a b). destruct (cmp a b); cbn; auto. Qed.

Lemma not_gt_trans a b c : cmp a b <> Gt -> cmp b c <> Gt -> cmp a c <> Gt.
Proof.
  destruct (cmp a b) eqn:E1; [apply cmp_eq in E1 as ->; auto|intros _|done].
  destruct (cmp b c) eqn:E2; [apply cmp_eq in E2 as <-; by rewrite E1| |done].
  by rewrite (cmp_trans (cmp := cmp) _ _ _ E1 E2).
Qed.

Lemma not_gt_antisym a b : cmp a b <> Gt -> cmp b a <> Gt -> a = b.
Proof. rewrite (cmp_opp (cmp := cmp) a b). destruct (cmp a b) eqn:E; cbn; try done. intros _ _. by apply cmp_eq. Qed.
End Order.

(** ** What the resolver picks *)

Section Resolution.
Context `{!Ext}.

Definition sort_key (priority : list AdapterId) (c : Candidate) : option nat * (string * string * string) :=
  (rank priority c, identity c).

Definition key_compare : (option nat * (string * string * string)) -> _ -> comparison :=
  lex_compare rank_compare (lex_compare (lex_compare String.compare String.compare) String.compare).

#[export] Instance key_compare_lawful : LawfulCompare key_compare.
Proof. unfold key_compare. apply _. Qed.

Lemma candidate_compare_key priority a b :
  candidate_compare priority a b = key_compare (sort_key priority a) (sort_key priority b).
Proof.
  unfold candidate_compare, key_compare, lex_compare, sort_key. cbn. destruct (rank_compare _ _); [|done|done].
  unfold identity_compare. cbn. by destruct (String.compare (uuid_hyphenated _) _).
Qed.

#[export] Instance candidate_le_total priority : Total (candidate_le priority).
Proof. intros a b. unfold candidate_le. rewrite !candidate_compare_key. apply (not_gt_total key_compare). Qed.
#[export] Instance candidate_le_trans priority : Transitive (candidate_le priority).
Proof. intros a b c. unfold candidate_le. rewrite !candidate_compare_key. apply (not_gt_trans key_compare). Qed.

Lemma candidate_le_identity priority a b :
  candidate_le priority a b -> candidate_le priority b a -> identity a = identity b.
Proof.
  unfold candidate_le. rewrite !candidate_compare_key. intros H1 H2.
  exact (f_equal snd (not_gt_antisym key_compare _ _ H1 H2)).
Qed.

(** The chosen candidate: eligible, and before every other eligible one. *)
Lemma resolve_port_ok requirement candidates priority r :
  resolve_port requirement candidates priority = Ok r ->
  exists c port, c ∈ candidates /\ eligible requirement c = true /\
    List.find (serves requirement) c.(ca_ports) = Some port /\
    (forall c', c' ∈ candidates -> eligible requirement c' = true -> candidate_le priority c c') /\
    r = mkResolvedAdapter c.(ca_row).(AdapterRegistrationRow.adapter_id)
        c.(ca_row).(AdapterRegistrationRow.version) c.(ca_row).(AdapterRegistrationRow.bundle_digest)
        (capability_names c.(ca_capabilities)) port c.(ca_row).(AdapterRegistrationRow.trust_state).
Proof.
  unfold resolve_port. intros E. apply res_bind_ok_inv in E as (c & Hc%ok_or_ok & E).
  apply res_bind_ok_inv in E as (port & Hp%ok_or_ok & [= <-]).
  set (l := List.filter (eligible requirement) candidates) in *.
  pose proof (merge_sort_Permutation (candidate_le priority) l) as Hperm.
  pose proof (StronglySorted_merge_sort (candidate_le priority) l) as Hsort.
  destruct (merge_sort (candidate_le priority) l) as [|c' rest]; [done|]. injection Hc as ->.
  assert (Hin : forall x, x ∈ l <-> x ∈ candidates /\ eligible requirement x = true).
  { intros x. unfold l. rewrite !list_elem_of_In, filter_In. done. }
  assert (Hcl : c ∈ candidates /\ eligible requirement c = true) by (apply Hin; rewrite <- Hperm; left).
  exists c, port. split_and!; try tauto.
  intros c' Hc' He. assert (Hc'l : c' ∈ l) by (by apply Hin). rewrite <- Hperm in Hc'l.
  apply elem_of_cons in Hc'l as [->|Hc'l].
  - destruct (total (candidate_le priority) c c); done.
  - inversion Hsort as [|? ? _ Hall]; subst. rewrite list.Forall_forall in Hall. by apply Hall.
Qed.

Lemma resolve_port_none requirement candidates priority :
  (forall c, c ∈ candidates -> eligible requirement c = false) ->
  resolve_port requirement candidates priority = Err (unsupported_port requirement).
Proof.
  intros Hn. unfold resolve_port. assert (List.filter (eligible requirement) candidates = []) as ->; [|done].
  clear -Hn. induction candidates as [|c l IH]; [done|]. cbn. rewrite Hn by left. apply IH. intros c' Hc'. apply Hn. by right.
Qed.

Lemma resolve_port_some requirement candidates priority c :
  c ∈ candidates -> eligible requirement c = true -> exists r, resolve_port requirement candidates priority = Ok r.
Proof.
  intros Hc He. unfold resolve_port. set (l := List.filter _ _).
  assert (Hl : c ∈ l) by (unfold l; rewrite list_elem_of_In, filter_In, <- list_elem_of_In; done).
  assert (Hall : forall x, x ∈ l -> eligible requirement x = true).
  { intros x. unfold l. rewrite list_elem_of_In, filter_In. tauto. }
  pose proof (merge_sort_Permutation (candidate_le priority) l) as Hperm.
  destruct (merge_sort (candidate_le priority) l) as [|x rest]; [rewrite <- Hperm in Hl; by apply not_elem_of_nil in Hl|].
  cbn [head ok_or res_bind]. assert (Hx : eligible requirement x = true) by (apply Hall; rewrite <- Hperm; left).
  destruct (List.find (serves requirement) (ca_ports x)) as [port|] eqn:Hf; [cbn; eauto|].
  exfalso. unfold eligible in Hx. rewrite !andb_true_iff in Hx. destruct Hx as [[[[[[Hx _] _] _] _] _] _].
  apply existsb_exists in Hx as (p & Hp & Hs). by rewrite (List.find_none _ _ Hf p Hp) in Hs.
Qed.

Lemma nodup_identity (candidates : list Candidate) c c' :
  NoDup (identity <$> candidates) -> c ∈ candidates -> c' ∈ candidates -> identity c = identity c' -> c = c'.
Proof.
  intros Hnd Hc Hc' Hid. apply list_elem_of_lookup in Hc as [i Hi]. apply list_elem_of_lookup in Hc' as [j Hj].
  assert (i = j) as <-; [|congruence].
  eapply (NoDup_lookup _ i j (identity c) Hnd); rewrite list_lookup_fmap; [by rewrite Hi|by rewrite Hj, Hid].
Qed.

Lemma eligible_true requirement c :
  eligible requirement c = true ->
  satisfies c.(ca_capabilities) requirement.(rq_required_capabilities) = true /\
  (c.(ca_row).(AdapterRegistrationRow.trust_state) = TrustState.Trusted \/ requirement.(rq_sandbox_tier) = T0) /\
  (forall pin, requirement.(rq_pin_adapter_id) = Some pin -> pin = c.(ca_row).(AdapterRegistrationRow.adapter_id)) /\
  c.(ca_row).(AdapterRegistrationRow.conformance_state) <> ConformanceState.Failed.
Proof.
  unfold eligible. rewrite !andb_true_iff, negb_true_iff, bool_decide_eq_false, orb_true_iff, bool_decide_eq_true, Nat.leb_le.
  intros [[[[[[_ H1] _] H2] H3] H4] _]. split_and!; [done| |intros pin Hp; rewrite Hp in H3; by apply bool_decide_eq_true in H3|done].
  destruct H2 as [H2|H2]; [right|by left]. destruct (rq_sandbox_tier requirement); cbn in H2; [done|lia..].
Qed.

Lemma capability_names_elem set x : x ∈ capability_names set <-> x ∈ set.
Proof. unfold capability_names. rewrite merge_sort_Permutation. apply elem_of_elements. Qed.

Lemma resolved_follows_policy requirement candidates priority r :
  resolve_port requirement candidates priority = Ok r ->
  exists c, c ∈ candidates /\ r.(rs_adapter_id) = c.(ca_row).(AdapterRegistrationRow.adapter_id) /\
      (forall c', c' ∈ candidates -> eligible requirement c' = true -> candidate_le priority c c') /\
      serves requirement r.(rs_port) = true /\ r.(rs_port) ∈ c.(ca_ports) /\
      (forall cap, cap ∈ requirement.(rq_required_capabilities) -> cap ∈ r.(rs_negotiated_capabilities)) /\
      c.(ca_row).(AdapterRegistrationRow.conformance_state) <> ConformanceState.Failed /\
      (forall pin, requirement.(rq_pin_adapter_id) = Some pin -> r.(rs_adapter_id) = pin) /\
      (r.(rs_trust_state) = TrustState.Untrusted -> requirement.(rq_sandbox_tier) = T0).
Proof.
  intros (c & port & Hc & He & Hport & Hfirst & ->)%resolve_port_ok. exists c. cbn.
  apply eligible_true in He as (Hs & Ht & Hpin & Hconf). apply List.find_some in Hport as [Hp1%list_elem_of_In Hp2].
  split_and!; try done; [|by intros pin ->%Hpin|destruct Ht as [->| ->]; done].
  intros cap Hcap. apply capability_names_elem. unfold satisfies in Hs. rewrite forallb_forall in Hs.
  by apply (bool_decide_eq_true_1 _ (Hs cap (proj1 (list_elem_of_In _ _) Hcap))).
Qed.

(** Resolution follows the policy and is deterministic: it fails exactly when
    no registered adapter is eligible; otherwise it answers with an eligible
    adapter that no other eligible one precedes by priority and then identity, so
    that the answer does not depend on the order of the candidates.  The adapter
    implements the port at the exact version, declares every required capability,
    never failed conformance, is the pinned one if there is a pin, and is trusted
    for every tier above T0. *)
Theorem resolution_is_deterministic requirement candidates candidates' priority :
  NoDup (identity <$> candidates) -> Permutation candidates candidates' ->
  resolve_port requirement candidates priority = resolve_port requirement candidates' priority /\
  match resolve_port requirement candidates priority with
  | Err e => e = unsupported_port requirement /\ forall c, c ∈ candidates -> eligible requirement c = false
  | Ok r => exists c, c ∈ candidates /\ r.(rs_adapter_id) = c.(ca_row).(AdapterRegistrationRow.adapter_id) /\
      (forall c', c' ∈ candidates -> eligible requirement c' = true -> candidate_le priority c c') /\
      serves requirement r.(rs_port) = true /\ r.(rs_port) ∈ c.(ca_ports) /\
      (forall cap, cap ∈ requirement.(rq_required_capabilities) -> cap ∈ r.(rs_negotiated_capabilities)) /\
      c.(ca_row).(AdapterRegistrationRow.conformance_state) <> ConformanceState.Failed /\
      (forall pin, requirement.(rq_pin_adapter_id) = Some pin -> r.(rs_adapter_id) = pin) /\
      (r.(rs_trust_state) = TrustState.Untrusted -> requirement.(rq_sandbox_tier) = T0)
  end.
Proof.
  intros Hnd Hperm.
  assert (Hdec : (exists c, c ∈ candidates /\ eligible requirement c = true) \/
                 forall c, c ∈ candidates -> eligible requirement c = false).
  { clear. induction candidates as [|c l IH]; [right; intros c Hc; by apply not_elem_of_nil in Hc|].
    destruct (eligible requirement c) eqn:E; [left; exists c; split; [left|done]|].
    destruct IH as [(d & Hd & Hed)|Hn]; [left; exists d; split; [by right|done]|right].
    intros d Hd. apply elem_of_cons in Hd as [->|Hd]; auto. }
  destruct Hdec as [(c0 & Hc0 & He0)|Hn].
  - destruct (resolve_port_some _ _ priority _ Hc0 He0) as [r Hr].
    assert (Hc0' : c0 ∈ candidates') by (by rewrite <- Hperm).
    destruct (resolve_port_some _ _ priority _ Hc0' He0) as [r' Hr'].
    split; [|rewrite Hr; by apply resolved_follows_policy].
    rewrite Hr, Hr'. f_equal.
    apply resolve_port_ok in Hr as (c & port & Hc & He & Hport & Hfirst & ->).
    apply resolve_port_ok in Hr' as (c' & port' & Hc' & He' & Hport' & Hfirst' & ->).
    assert (c = c') as <-.
    { apply (nodup_identity candidates); [done|done|by rewrite Hperm|].
      apply (candidate_le_identity priority); [apply Hfirst; [by rewrite Hperm|done]|].
      apply Hfirst'; [by rewrite <- Hperm|done]. }
    rewrite Hport in Hport'. by injection Hport' as ->.
  - assert (Hn' : forall c, c ∈ candidates' -> eligible requirement c = false) by (intros c Hc; apply Hn; by rewrite Hperm).
    rewrite (resolve_port_none _ _ _ Hn), (resolve_port_none _ _ _ Hn'). repeat split; apply Hn.
Qed.
End Resolution.
