(* ===== verification/Bundles.v ===== *)
(** * Adapter bundles ([adapter-registry/src/manifest.rs], [registry.rs],
    [conformance.rs])

    Manifests, locks, the bundle digest over the files on disk, registration,
    the verification before a spawn, and conformance reports.  The bundle lies
    in the file system of [LocalFiles]; the JSON codecs are parameters. *)

From S2P Require Import Prelude Domain Ids Text Models StoreBase Store ExtensionStore EffectPolicy Effects Coordinator.
From S2P Require Import LocalFiles Resolver.

Open Scope string_scope.
Open Scope Z_scope.

(** ** The manifest *)

Definition MANIFEST_VERSION : Z := 1.
Definition MANIFEST_FILE : string := "adapter.manifest.json".
Definition LOCK_FILE : string := "bundle.lock".

Record RuntimeSection := mkRuntimeSection {
  rt_type : string; rt_entrypoint : string; rt_language : option string; rt_isolation : option string }.

Record ExtensionManifest := mkExtensionManifest {
  mf_manifest_version : Z;
  mf_id : string;
  mf_version : string;
  mf_kind : string;
  mf_runtime : RuntimeSection;
  mf_implements : list string;
  mf_exports : list string;
  mf_requested_capabilities : gmap string (list string) }.

(** One machine-readable case outcome of a conformance run. *)
Record CaseResult := mkCaseResult { cr_test_id : string; cr_passed : bool; cr_details : string }.

(** [serde_json] on manifests and case lists; serialising the latter does not
    fail. *)
Class BundleJson := {
  manifest_from_slice : bytes -> option ExtensionManifest;
  cases_to_vec : list CaseResult -> bytes }.

Definition invalid_bundle (message : string) : KernelError := kerr InvalidArgument message.
Definition registry_io (op : string) : KernelError :=
  mkKernelError Unavailable RetrySafe ("adapter registry " +:+ op +:+ " failed").

(** [ExtensionManifest::capabilities]: the values of a [BTreeMap] come in key order. *)
Definition manifest_capabilities (m : ExtensionManifest) : list string :=
  concat ((fun family => default [] (m.(mf_requested_capabilities) !! family)) <$> btree_keys m.(mf_requested_capabilities)).

Definition u32_max : Z := 2 ^ 32 - 1.

Definition port_of_entry (raw : string) : Res PortImpl :=
  match rsplit_once "@" raw with
  | None => Err (invalid_bundle ("implements entry '" +:+ raw +:+ "' lacks a '@major' version"))
  | Some (port_id, major) =>
      match parse_unsigned u32_max major with
      | None => Err (invalid_bundle ("implements entry '" +:+ raw +:+ "' has a non-numeric major"))
      | Some port_version => Ok (mkPortImpl port_id port_version)
      end
  end.

Fixpoint ports_of_entries (l : list string) : Res (list PortImpl) :=
  match l with
  | [] => Ok []
  | raw :: l => let? p := port_of_entry raw in let? ps := ports_of_entries l in Ok (p :: ps)
  end.

Definition implemented_ports (m : ExtensionManifest) : Res (list PortImpl) := ports_of_entries m.(mf_implements).

Definition ISOLATIONS : list string := ["none"; "user-ns"; "user-ns-no-net"].

Definition parse_manifest `{!BundleJson} (b : bytes) : Res ExtensionManifest :=
  let? m := ok_or (manifest_from_slice b) (kerr InvalidArgument "extension manifest is not valid manifest v1 JSON") in
  if negb (m.(mf_manifest_version) =? MANIFEST_VERSION) then
    Err (invalid_bundle ("manifest_version " +:+ u64_to_string m.(mf_manifest_version) +:+
           " unsupported (kernel understands 1)"))
  else if negb (bool_decide (m.(mf_kind) = "adapter")) then
    Err (invalid_bundle ("manifest kind '" +:+ m.(mf_kind) +:+ "' is not 'adapter'"))
  else
    let? _ := match m.(mf_runtime).(rt_isolation) with
              | None => Ok tt
              | Some other =>
                  if bool_decide (other ∈ ISOLATIONS) then Ok tt
                  else Err (invalid_bundle ("runtime.isolation '" +:+ other +:+ "' is not one of none|user-ns|user-ns-no-net"))
              end in
    if negb (bool_decide (m.(mf_runtime).(rt_type) = "process")) && negb (bool_decide (m.(mf_runtime).(rt_type) = "wasm")) then
      Err (invalid_bundle ("runtime type '" +:+ m.(mf_runtime).(rt_type) +:+
             "' is not 'process' or 'wasm' (the spawnable kinds)"))
    else Ok m.

(** ** The lock *)

Record LockEntry := mkLockEntry { le_sha256_hex : string; le_path : string }.

Definition is_ascii_hexdigit (c : ascii) : bool := is_ascii_digit c || byte_in 97 102 c || byte_in 65 70 c.

Definition line_error (line_no : nat) (what : string) : KernelError :=
  invalid_bundle ("bundle.lock line " +:+ u64_to_string (Z.of_nat line_no + 1) +:+ " " +:+ what).

(** A path is refused if it is empty, absolute, or has a [..] or empty segment. *)
Definition bad_lock_path (path : string) : bool :=
  str_is_empty path || starts_with "/" path ||
  existsb (fun seg => bool_decide (seg = "..") || str_is_empty seg) (split_on "/" path).

Definition lock_entry (line_no : nat) (line : string) : Res LockEntry :=
  match split_once " " line with
  | None => Err (line_error line_no "lacks '<digest> <path>'")
  | Some (digest_part, path) =>
      match strip_prefix "sha256:" digest_part with
      | None => Err (line_error line_no "digest lacks sha256: prefix")
      | Some sha =>
          if negb (str_len sha =? 64) || negb (str_all is_ascii_hexdigit sha) then
            Err (line_error line_no "has malformed sha256")
          else if bad_lock_path path then
            Err (invalid_bundle ("bundle.lock path '" +:+ path +:+ "' escapes or is malformed"))
          else Ok (mkLockEntry (to_ascii_lowercase sha) path)
      end
  end.

Fixpoint lock_entries (line_no : nat) (lines : list string) : Res (list LockEntry) :=
  match lines with
  | [] => Ok []
  | line :: lines =>
      if str_is_empty line then lock_entries (S line_no) lines
      else
        let? e := lock_entry line_no line in
        let? es := lock_entries (S line_no) lines in
        Ok (e :: es)
  end.

Definition entry_le (a b : LockEntry) : Prop := string_le a.(le_path) b.(le_path).
#[export] Instance entry_le_dec : RelDecision entry_le.
Proof. intros a b. unfold entry_le. apply _. Defined.

(** [entries.windows(2).any(|w| w[0].path == w[1].path)]. *)
Fixpoint adjacent_duplicate (l : list LockEntry) : bool :=
  match l with
  | a :: ((b :: _) as l') => bool_decide (a.(le_path) = b.(le_path)) || adjacent_duplicate l'
  | _ => false
  end.

Definition parse_lock (lock_bytes : bytes) : Res (list LockEntry) :=
  let? text := ok_or (from_utf8 lock_bytes) (kerr InvalidArgument "bundle.lock is not UTF-8") in
  let? entries := lock_entries 0 (str_lines text) in
  let sorted := merge_sort entry_le entries in
  if existsb (fun p => negb (bool_decide (p.1.(le_path) = p.2.(le_path)))) (zip sorted entries) then
    Err (invalid_bundle "bundle.lock entries must be sorted by path")
  else if adjacent_duplicate entries then Err (invalid_bundle "bundle.lock has duplicate paths")
  else Ok entries.

(** ** The bundle digest *)

(** [Path::join] with a text path. *)
Definition join_path (root : FsPath) (p : string) : FsPath :=
  if starts_with "/" p then split_on "/" p else (root ++ split_on "/" p)%list.

Section Registry.
Context `{!Ext} `{!BundleJson} `{!RegistryJson}.

Definition manifest_digest (b : bytes) : string := "sha256:" +:+ hex_lower (sha256 b).

Definition check_asset (fs : Fs) (root : FsPath) (e : LockEntry) : Res unit :=
  let? canonical := ok_or (canonicalize fs (join_path root e.(le_path)))
                      (kerr FailedPrecondition ("bundle asset '" +:+ e.(le_path) +:+ "' unreadable")) in
  if negb (bool_decide (root `prefix_of` canonical)) then
    Err (invalid_bundle ("bundle asset '" +:+ e.(le_path) +:+ "' resolves outside the bundle root"))
  else
    let? b := ok_or (fs_read fs canonical) (registry_io "read bundle asset") in
    if negb (bool_decide (hex_lower (sha256 b) = e.(le_sha256_hex))) then
      Err (kerr FailedPrecondition ("bundle asset '" +:+ e.(le_path) +:+ "' digest mismatch"))
    else Ok tt.

Fixpoint check_assets (fs : Fs) (root : FsPath) (entries : list LockEntry) : Res unit :=
  match entries with
  | [] => Ok tt
  | e :: entries => let? _ := check_asset fs root e in check_assets fs root entries
  end.

Definition bundle_input (manifest_digest : string) (lock_bytes : bytes) : bytes :=
  (into_bytes ("agentos.bundle.v1" +:+ String "010" EmptyString) ++ into_bytes manifest_digest ++ Byte.x0a :: lock_bytes)%list.

Definition compute_bundle_digest (fs : Fs) (dir : FsPath) (manifest_digest : string) : Res string :=
  let? lock_bytes := ok_or (fs_read fs (dir ++ [LOCK_FILE])%list) (registry_io "read bundle.lock") in
  let? entries := parse_lock lock_bytes in
  let? root := ok_or (canonicalize fs dir) (registry_io "canonicalize bundle dir") in
  let? _ := check_assets fs root entries in
  Ok ("sha256:" +:+ hex_lower (sha256 (bundle_input manifest_digest lock_bytes))).

(** ** Registration and verification *)

Definition register (fs : Fs) (dir : FsPath) (trust_state : TrustState) (now_ms : Z) : M AdapterRegistrationRow :=
  let! manifest_bytes := lift_res (ok_or (fs_read fs (dir ++ [MANIFEST_FILE])%list) (registry_io "read manifest")) in
  let! manifest := lift_res (parse_manifest manifest_bytes) in
  let manifest_digest := manifest_digest manifest_bytes in
  let! bundle_digest := lift_res (compute_bundle_digest fs dir manifest_digest) in
  let! adapter_id := lift_res (ok_or (uuid_v7_from_str manifest.(mf_id))
    (invalid_bundle ("manifest id '" +:+ manifest.(mf_id) +:+ "' is not an adapter id: invalid identifier"))) in
  let! ports := lift_res (implemented_ports manifest) in
  let row := NewAdapterRegistration.mk adapter_id manifest.(mf_version) bundle_digest manifest_digest
               manifest.(mf_runtime).(rt_type) (ports_to_vec ports) (names_to_vec (manifest_capabilities manifest))
               trust_state ConformanceState.Untested now_ms in
  let! known := adapters_get_registration adapter_id manifest.(mf_version) bundle_digest in
  match known with
  | Some _ => raise (kerr Conflict ("adapter identity " +:+ uuid_hyphenated adapter_id +:+ "@" +:+
                       manifest.(mf_version) +:+ " already registered"))
  | None =>
      do! adapters_insert_registration row in
      ret (registration_row_of_new row)
  end.

Record VerifiedBundle := mkVerifiedBundle {
  vb_dir : FsPath;
  vb_manifest : ExtensionManifest;
  vb_bundle_digest : string;
  vb_entrypoint : FsPath;
  vb_manifest_digest : string }.

Definition verify_for_spawn (fs : Fs) (adapter_id : AdapterId) (version expected_bundle_digest : string) (dir : FsPath)
    : M VerifiedBundle :=
  let! found := adapters_get_registration adapter_id version expected_bundle_digest in
  let! row := lift_res (ok_or found (kerr NotFound ("no registered adapter " +:+ uuid_hyphenated adapter_id +:+ "@" +:+
                version +:+ ":" +:+ expected_bundle_digest))) in
  let! manifest_bytes := lift_res (ok_or (fs_read fs (dir ++ [MANIFEST_FILE])%list) (registry_io "read manifest")) in
  let! manifest := lift_res (parse_manifest manifest_bytes) in
  let manifest_digest := manifest_digest manifest_bytes in
  let! recomputed := lift_res (compute_bundle_digest fs dir manifest_digest) in
  guard! bool_decide (recomputed = row.(AdapterRegistrationRow.bundle_digest))
    else kerr FailedPrecondition ("bundle digest drifted: registry has " +:+ row.(AdapterRegistrationRow.bundle_digest) +:+
           ", disk computes " +:+ recomputed) in
  let! root := lift_res (ok_or (canonicalize fs dir) (registry_io "canonicalize bundle")) in
  let entrypoint := join_path root manifest.(mf_runtime).(rt_entrypoint) in
  let! real := lift_res (ok_or (canonicalize fs entrypoint) (registry_io "canonicalize entrypoint")) in
  guard! bool_decide (root `prefix_of` real) else invalid_bundle "entrypoint escapes the bundle root" in
  ret (mkVerifiedBundle root manifest recomputed entrypoint manifest_digest).

(** ** Conformance *)

Definition HARNESS_VERSION : string := "agentos-conformance/1".

Record ConformanceReport := mkConformanceReport {
  cf_adapter_id : AdapterId;
  cf_adapter_version : string;
  cf_bundle_digest : string;
  cf_cases : list CaseResult;
  cf_result : string;
  cf_report_digest : string;
  cf_harness_version : string;
  cf_run_at_ms : Z }.

Definition report_input (adapter_id : AdapterId) (adapter_version bundle_digest : string) (details : bytes) : bytes :=
  (into_bytes ("agentos.conformance.v1" +:+ String "010" EmptyString) ++
   into_bytes (uuid_hyphenated adapter_id) ++ Byte.x0a :: into_bytes adapter_version ++ Byte.x0a ::
   into_bytes bundle_digest ++ Byte.x0a :: details)%list.

Definition from_cases (adapter_id : AdapterId) (adapter_version bundle_digest : string) (cases : list CaseResult)
    (run_at_ms : Z) : ConformanceReport :=
  mkConformanceReport adapter_id adapter_version bundle_digest cases
    (if forallb cr_passed cases then "pass" else "fail")
    ("sha256:" +:+ hex_lower (sha256 (report_input adapter_id adapter_version bundle_digest (cases_to_vec cases))))
    HARNESS_VERSION run_at_ms.

Definition persist_report (report : ConformanceReport) : M unit :=
  do! adapters_insert_conformance_report (NewConformanceReport.mk report.(cf_adapter_id) report.(cf_adapter_version)
    report.(cf_bundle_digest) report.(cf_report_digest) report.(cf_harness_version) report.(cf_result)
    report.(cf_run_at_ms) (Some (cases_to_vec report.(cf_cases)))) in
  adapters_set_conformance_state report.(cf_adapter_id) report.(cf_adapter_version) report.(cf_bundle_digest)
    (if bool_decide (report.(cf_result) = "pass") then ConformanceState.Passed else ConformanceState.Failed).
End Registry.

(** ** What a lock says *)

Lemma string_le_compare a b : string_le a b <-> String.compare a b <> Gt.
Proof. unfold string_le, String.leb. by destruct (String.compare a b). Qed.

#[export] Instance entry_le_total : Total entry_le.
Proof. intros a b. unfold entry_le. rewrite !string_le_compare. apply (not_gt_total String.compare). Qed.
#[export] Instance entry_le_trans : Transitive entry_le.
Proof. intros a b c. unfold entry_le. rewrite !string_le_compare. apply (not_gt_trans String.compare). Qed.

Definition entry_lt (a b : LockEntry) : Prop := entry_le a b /\ a.(le_path) <> b.(le_path).

Lemma entry_le_antisym a b : entry_le a b -> entry_le b a -> a.(le_path) = b.(le_path).
Proof. unfold entry_le. rewrite !string_le_compare. apply (not_gt_antisym String.compare). Qed.

Lemma zip_paths_equal (l k : list LockEntry) :
  length l = length k -> existsb (fun p => negb (bool_decide (p.1.(le_path) = p.2.(le_path)))) (zip l k) = false ->
  le_path <$> l = le_path <$> k.
Proof.
  revert k. induction l as [|a l IH]; intros [|b k] Hl E; try done. cbn in E |- *.
  apply orb_false_iff in E as [E1%negb_false_iff%bool_decide_eq_true E2]. rewrite E1. f_equal. apply IH; [by injection Hl|done].
Qed.

Lemma sorted_paths (l k : list LockEntry) :
  le_path <$> l = le_path <$> k -> StronglySorted entry_le l -> StronglySorted entry_le k.
Proof.
  revert k. induction l as [|a l IH]; intros [|b k] E Hs; try done. cbn in E. injection E as Eb Ek.
  inversion Hs as [|? ? Hs' Hall]; subst. constructor; [by apply IH|].
  apply list.Forall_forall. intros y Hy. apply list_elem_of_fmap_2 with (f := le_path) in Hy. rewrite <- Ek in Hy.
  apply list_elem_of_fmap in Hy as (x & Hxy & Hx). rewrite list.Forall_forall in Hall. specialize (Hall x Hx).
  unfold entry_le in *. by rewrite <- Eb, Hxy.
Qed.

Lemma strictly_sorted l : StronglySorted entry_le l -> adjacent_duplicate l = false -> StronglySorted entry_lt l.
Proof.
  induction l as [|a l IH]; intros Hs Hd; [constructor|]. inversion Hs as [|? ? Hs' Hall]; subst.
  assert (Hd' : adjacent_duplicate l = false) by (destruct l; [done|]; cbn in Hd; by apply orb_false_iff in Hd as [_ ?]).
  constructor; [by apply IH|]. apply list.Forall_forall. intros y Hy. rewrite list.Forall_forall in Hall.
  split; [by apply Hall|]. destruct l as [|b l]; [by apply not_elem_of_nil in Hy|].
  cbn in Hd. apply orb_false_iff in Hd as [Hab%bool_decide_eq_false _].
  intros Hay. apply Hab, entry_le_antisym; [apply Hall; left|].
  apply elem_of_cons in Hy as [->|Hy]; [by unfold entry_le; rewrite Hay|].
  inversion Hs' as [|? ? _ Hb]; subst. rewrite list.Forall_forall in Hb. specialize (Hb y Hy). unfold entry_le in *. by rewrite Hay.
Qed.

(** The path of an entry has ordinary or [.] segments only. *)
Definition confined_path (p : string) : Prop :=
  starts_with "/" p = false /\ Forall (fun seg => seg <> "" /\ seg <> "..") (split_on "/" p).

Definition lower_hex_digit (c : ascii) : bool := is_ascii_digit c || byte_in 97 102 c.

Lemma lower_hex s : str_all is_ascii_hexdigit s = true -> str_all lower_hex_digit (to_ascii_lowercase s) = true.
Proof.
  unfold str_all. induction s as [|c s IH]; [done|]. cbn. rewrite !andb_true_iff. intros [Hc Hs]. split; [|by apply IH].
  clear -Hc. by destruct c as [[] [] [] [] [] [] [] []].
Qed.

Lemma lowercase_length s : str_len (to_ascii_lowercase s) = str_len s.
Proof. unfold str_len. f_equal. induction s as [|c s IH]; [done|]. cbn. by rewrite IH. Qed.

Definition lock_entry_ok (e : LockEntry) : Prop :=
  str_len e.(le_sha256_hex) = 64 /\ str_all lower_hex_digit e.(le_sha256_hex) = true /\ confined_path e.(le_path).

Lemma lock_entry_sound n line e : lock_entry n line = Ok e -> lock_entry_ok e.
Proof.
  unfold lock_entry. destruct (split_once " " line) as [[d p]|]; [|done]. destruct (strip_prefix _ d) as [sha|]; [|done].
  destruct (_ || _) eqn:Hsha; [done|]. destruct (bad_lock_path p) eqn:Hp; [done|]. intros [= <-].
  apply orb_false_iff in Hsha as [H1%negb_false_iff%Z.eqb_eq H2%negb_false_iff]. unfold bad_lock_path in Hp.
  apply orb_false_iff in Hp as [[_ Hp]%orb_false_iff Hseg]. split_and!; cbn.
  - by rewrite lowercase_length.
  - by apply lower_hex.
  - split; [done|]. apply list.Forall_forall. intros seg Hin.
    destruct (bool_decide (seg = "..") || str_is_empty seg) eqn:E.
    + rewrite (proj2 (existsb_exists _ _)) in Hseg; [done|]. exists seg. by rewrite <- list_elem_of_In.
    + apply orb_false_iff in E as [E1%bool_decide_eq_false E2]. split; [|done]. by intros ->.
Qed.

Lemma lock_entries_sound n lines es : lock_entries n lines = Ok es -> Forall lock_entry_ok es.
Proof.
  revert n es. induction lines as [|line lines IH]; intros n es E; cbn in E; [injection E as <-; constructor|].
  destruct (str_is_empty line); [by eapply IH|]. apply res_bind_ok_inv in E as (e & He & E).
  apply res_bind_ok_inv in E as (es' & Hes & [= <-]). constructor; [by eapply lock_entry_sound|by eapply IH].
Qed.

(** A lock that parses lists distinct paths in order, none of which leaves
    the bundle by name, each with a SHA-256 in lower case. *)
Lemma parse_lock_canonical lock_bytes es :
  parse_lock lock_bytes = Ok es -> StronglySorted entry_lt es /\ Forall lock_entry_ok es.
Proof.
  unfold parse_lock. intros E. apply res_bind_ok_inv in E as (text & _ & E). apply res_bind_ok_inv in E as (l & Hl & E).
  destruct (existsb _ _) eqn:Hz; [done|]. destruct (adjacent_duplicate l) eqn:Hd; [done|]. injection E as <-.
  split; [|by eapply lock_entries_sound]. apply strictly_sorted; [|done].
  assert (Hlen : length (merge_sort entry_le l) = length l) by apply Permutation_length, merge_sort_Permutation.
  apply (sorted_paths (merge_sort entry_le l)); [by apply zip_paths_equal|].
  apply (StronglySorted_merge_sort entry_le).
Qed.

(** ** What a digest binds *)

Section Promises.
Context `{!Ext} `{!BundleJson} `{!RegistryJson}.

(** Two inputs are equal or collide under SHA-256. *)
Definition same_or_collide (x y : bytes) : Prop := x = y \/ (x <> y /\ sha256 x = sha256 y).

Lemma sha_text_binds x y :
  "sha256:" +:+ hex_lower (sha256 x) = "sha256:" +:+ hex_lower (sha256 y) -> same_or_collide x y.
Proof.
  intros E. assert (E' : hex_lower (sha256 x) = hex_lower (sha256 y)) by (by injection E).
  apply hex_lower_inj in E'. unfold same_or_collide. destruct (decide (x = y)); auto.
Qed.

Lemma hex_lower_no_newline l : Byte.x0a ∉ into_bytes (hex_lower l).
Proof.
  induction l as [|b l IH]; [apply not_elem_of_nil|]. cbn [hex_lower]. rewrite !into_bytes_cons, !not_elem_of_cons. split_and!; [clear; by destruct b..|done].
Qed.

Lemma manifest_digest_no_newline b : Byte.x0a ∉ into_bytes (manifest_digest b).
Proof.
  unfold manifest_digest. rewrite !app_cons_str, !into_bytes_cons, !not_elem_of_cons.
  split_and!; try done. apply hex_lower_no_newline.
Qed.

Lemma bundle_input_inj m1 l1 m2 l2 :
  bundle_input (manifest_digest m1) l1 = bundle_input (manifest_digest m2) l2 ->
  manifest_digest m1 = manifest_digest m2 /\ l1 = l2.
Proof.
  unfold bundle_input. intros E%app_inv_head.
  apply split_at_byte in E as [E%into_bytes_inj ->]; [done|apply manifest_digest_no_newline..].
Qed.

(** The content of a locked asset: what its real path in the bundle holds. *)
Definition asset (fs : Fs) (dir : FsPath) (path : string) : option bytes :=
  match canonicalize fs dir with
  | Some root => match canonicalize fs (join_path root path) with
                 | Some c => if bool_decide (root `prefix_of` c) then fs_read fs c else None
                 | None => None
                 end
  | None => None
  end.

Lemma check_assets_ok fs dir root es :
  canonicalize fs dir = Some root -> check_assets fs root es = Ok tt ->
  forall e, e ∈ es -> exists b, asset fs dir e.(le_path) = Some b /\ hex_lower (sha256 b) = e.(le_sha256_hex).
Proof.
  intros Hr. induction es as [|e es IH]; intros E x Hx; [by apply not_elem_of_nil in Hx|]. cbn in E.
  apply res_bind_ok_inv in E as ([] & He & E). apply elem_of_cons in Hx as [->|Hx]; [|by apply IH].
  unfold check_asset in He. apply res_bind_ok_inv in He as (c & Hc%ok_or_ok & He). unfold asset. rewrite Hr, Hc.
  case_bool_decide; [|done]. cbn in He. apply res_bind_ok_inv in He as (b & Hb%ok_or_ok & He).
  case_bool_decide; [|done]. eauto.
Qed.

Lemma compute_bundle_digest_ok fs dir md d :
  compute_bundle_digest fs dir md = Ok d ->
  exists lock_bytes es, fs_read fs (dir ++ [LOCK_FILE])%list = Some lock_bytes /\ parse_lock lock_bytes = Ok es /\
    d = "sha256:" +:+ hex_lower (sha256 (bundle_input md lock_bytes)) /\
    forall e, e ∈ es -> exists b, asset fs dir e.(le_path) = Some b /\ hex_lower (sha256 b) = e.(le_sha256_hex).
Proof.
  unfold compute_bundle_digest. intros E. apply res_bind_ok_inv in E as (lb & Hlb%ok_or_ok & E).
  apply res_bind_ok_inv in E as (es & Hes & E). apply res_bind_ok_inv in E as (root & Hr%ok_or_ok & E).
  apply res_bind_ok_inv in E as ([] & Ha & [= <-]). exists lb, es. split_and!; try done. by eapply check_assets_ok.
Qed.

(** The files a bundle consists of: manifest, lock and locked assets. *)
Definition bundle_at (fs : Fs) (dir : FsPath) (manifest_bytes lock_bytes : bytes) (es : list LockEntry) : Prop :=
  fs_read fs (dir ++ [MANIFEST_FILE])%list = Some manifest_bytes /\
  fs_read fs (dir ++ [LOCK_FILE])%list = Some lock_bytes /\ parse_lock lock_bytes = Ok es /\
  forall e, e ∈ es -> exists b, asset fs dir e.(le_path) = Some b /\ hex_lower (sha256 b) = e.(le_sha256_hex).

(** The key of a stored registration is its identity. *)
Definition registrations_keyed (d : Db) : Prop := map_Forall (fun k r =>
  k = (r.(AdapterRegistrationRow.adapter_id), r.(AdapterRegistrationRow.version), r.(AdapterRegistrationRow.bundle_digest)))
  d.(registrations).

Definition row_identity (r : AdapterRegistrationRow) : RegistrationKey :=
  (r.(AdapterRegistrationRow.adapter_id), r.(AdapterRegistrationRow.version), r.(AdapterRegistrationRow.bundle_digest)).

Ltac next_lift E x Hx :=
  apply bind_ok_inv in E as (x & ? & Hx & E); unfold lift_res in Hx; injection Hx as Hx <-; rewrite ?ok_or_ok in Hx.

Lemma registry_insert_ok n t u t' :
  adapters_insert_registration n t = (Ok u, t') ->
  t' = set_db (set_registrations (<[registration_key n := registration_row_of_new n]> t.(t_db).(registrations)) t.(t_db)) t.
Proof. unfold adapters_insert_registration. intros E. inv_store. done. Qed.

Lemma register_ok fs dir trust now t row t' :
  register fs dir trust now t = (Ok row, t') ->
  exists m l es mf, bundle_at fs dir m l es /\ parse_manifest m = Ok mf /\
    row.(AdapterRegistrationRow.bundle_digest) = "sha256:" +:+ hex_lower (sha256 (bundle_input (manifest_digest m) l)) /\
    row.(AdapterRegistrationRow.trust_state) = trust /\
    row.(AdapterRegistrationRow.conformance_state) = ConformanceState.Untested /\
    t.(t_db).(registrations) !! row_identity row = None /\
    t' = set_db (set_registrations (<[row_identity row := row]> t.(t_db).(registrations)) t.(t_db)) t.
Proof.
  unfold register. intros E. next_lift E m Hm. next_lift E mf Hmf. next_lift E d Hd. next_lift E aid Hid. next_lift E ps Hps.
  apply compute_bundle_digest_ok in Hd as (l & es & Hl & Hes & -> & Ha).
  apply bind_ok_inv in E as (known & t1 & [= <- <-] & E). destruct (registrations _ !! _) eqn:Hk; [done|].
  apply bind_ok_inv in E as (u & t2 & E1%registry_insert_ok & [= <- ->]). exists m, l, es, mf. done.
Qed.

Lemma verify_for_spawn_ok fs id version digest dir t vb t' :
  registrations_keyed t.(t_db) -> verify_for_spawn fs id version digest dir t = (Ok vb, t') ->
  t' = t /\ vb.(vb_bundle_digest) = digest /\
  exists m l es real, bundle_at fs dir m l es /\ parse_manifest m = Ok vb.(vb_manifest) /\
    digest = "sha256:" +:+ hex_lower (sha256 (bundle_input (manifest_digest m) l)) /\
    canonicalize fs dir = Some vb.(vb_dir) /\ canonicalize fs vb.(vb_entrypoint) = Some real /\ vb.(vb_dir) `prefix_of` real.
Proof.
  unfold verify_for_spawn. intros Hk E. apply bind_ok_inv in E as (found & t1 & [= <- <-] & E).
  next_lift E row Hrow. next_lift E m Hm. next_lift E mf Hmf. next_lift E d Hd.
  case_bool_decide as Hdig; [|done]. next_lift E root Hroot. next_lift E real Hreal.
  case_bool_decide as Hpre; [|done]. injection E as <- <-. cbn.
  pose proof (Hk _ _ Hrow) as Hkey. cbn in Hkey. injection Hkey as _ _ Hkey.
  assert (d = digest) as -> by congruence.
  apply compute_bundle_digest_ok in Hd as (l & es & Hl & Hes & Hd & Ha).
  split_and!; [done|done|]. exists m, l, es, real. done.
Qed.

(** C36: A bundle that verifies before a spawn is the registered one: its manifest
    and lock are byte for byte those that were registered, every locked asset has
    the registered content, and the entrypoint lies in the bundle, unless two
    of these pairs collide under SHA-256.  Verification changes nothing. *)
Theorem verified_bundle_is_registered fs0 dir0 trust now t row t' fs dir t1 vb t2 :
  register fs0 dir0 trust now t = (Ok row, t') -> registrations_keyed t1.(t_db) ->
  verify_for_spawn fs row.(AdapterRegistrationRow.adapter_id) row.(AdapterRegistrationRow.version)
    row.(AdapterRegistrationRow.bundle_digest) dir t1 = (Ok vb, t2) ->
  t2 = t1 /\ exists m0 l0 es0 m l es real, bundle_at fs0 dir0 m0 l0 es0 /\ bundle_at fs dir m l es /\
    parse_manifest m = Ok vb.(vb_manifest) /\
    canonicalize fs vb.(vb_entrypoint) = Some real /\ vb.(vb_dir) `prefix_of` real /\
    ((m = m0 /\ l = l0 /\ es = es0 /\
      forall e b0 b, e ∈ es -> asset fs0 dir0 e.(le_path) = Some b0 -> asset fs dir e.(le_path) = Some b -> same_or_collide b0 b) \/
     (m0 <> m /\ sha256 m0 = sha256 m) \/
     (bundle_input (manifest_digest m0) l0 <> bundle_input (manifest_digest m) l /\
      sha256 (bundle_input (manifest_digest m0) l0) = sha256 (bundle_input (manifest_digest m) l))).
Proof.
  intros (m0 & l0 & es0 & mf0 & B0 & _ & Hd0 & _)%register_ok Hk E.
  apply verify_for_spawn_ok in E as (-> & _ & m & l & es & real & B & Hm & Hd & Hroot & Hreal & Hpre); [|done].
  split; [done|]. exists m0, l0, es0, m, l, es, real. split_and!; try done. rewrite Hd in Hd0. symmetry in Hd0.
  apply sha_text_binds in Hd0 as [E|?]; [|by right; right]. apply bundle_input_inj in E as [Em%sha_text_binds ->].
  destruct Em as [->|?]; [left|by right; left].
  destruct B0 as (_ & _ & Hes0 & A0), B as (_ & _ & Hes & A). assert (es = es0) as -> by congruence. split_and!; try done.
  intros e b0 b He Hb0 Hb. destruct (A0 e He) as (? & E0 & D0). destruct (A e He) as (? & E1 & D1).
  rewrite Hb0 in E0. rewrite Hb in E1. injection E0 as <-. injection E1 as <-. apply sha_text_binds. by rewrite D0, D1.
Qed.
Lemma register_keyed fs dir trust now t row t' :
  registrations_keyed t.(t_db) -> register fs dir trust now t = (Ok row, t') -> registrations_keyed t'.(t_db).
Proof.
  intros Hk (m & l & es & mf & _ & _ & _ & _ & _ & _ & ->)%register_ok. apply map_Forall_insert_2; [done|exact Hk].
Qed.

(** *** An entrypoint that is not locked *)

(** A bundle with an empty lock: only the manifest is under the digest. *)
Definition unlocked_fs (manifest code : bytes) : Fs :=
  <[["b"] := Dir]> (<[["b"; MANIFEST_FILE] := File manifest]>
    (<[["b"; LOCK_FILE] := File []]> (<[["b"; "run"] := File code]> ∅))).

Lemma unlocked_files m code :
  fs_read (unlocked_fs m code) ["b"; MANIFEST_FILE] = Some m /\ fs_read (unlocked_fs m code) ["b"; LOCK_FILE] = Some [] /\
  fs_read (unlocked_fs m code) ["b"; "run"] = Some code /\ canonicalize (unlocked_fs m code) ["b"] = Some ["b"] /\
  canonicalize (unlocked_fs m code) ["b"; "run"] = Some ["b"; "run"] /\ parse_lock [] = Ok [].
Proof. split_and!; vm_compute; reflexivity. Qed.

(** The lock need not list the entrypoint, and then the digest does not bind
    the program: such a bundle registers, its entrypoint can be replaced, and the
    verification before the spawn still accepts it under the registered identity
    and hands out the replaced program. *)
Theorem unlocked_entrypoint_changes_unseen m mf code code' trust now t row t' :
  manifest_from_slice m = Some mf -> mf.(mf_runtime).(rt_entrypoint) = "run" -> registrations_keyed t.(t_db) ->
  register (unlocked_fs m code) ["b"] trust now t = (Ok row, t') ->
  exists vb, verify_for_spawn (unlocked_fs m code') row.(AdapterRegistrationRow.adapter_id)
      row.(AdapterRegistrationRow.version) row.(AdapterRegistrationRow.bundle_digest) ["b"] t' = (Ok vb, t') /\
    vb.(vb_bundle_digest) = row.(AdapterRegistrationRow.bundle_digest) /\
    fs_read (unlocked_fs m code) vb.(vb_entrypoint) = Some code /\
    fs_read (unlocked_fs m code') vb.(vb_entrypoint) = Some code'.
Proof.
  intros Hmf Hent Hk E. pose proof (register_keyed _ _ _ _ _ _ _ Hk E) as Hk'.
  apply register_ok in E as (m1 & l & es & mf1 & (Hm & Hl & Hes & _) & Hp & Hd & _ & _ & _ & Ht).
  destruct (unlocked_files m code) as (F1 & F2 & F3 & _). destruct (unlocked_files m code') as (G1 & G2 & G3 & G4 & G5 & G6).
  cbn [app] in Hm, Hl. rewrite F1 in Hm. rewrite F2 in Hl. injection Hm as <-. injection Hl as <-.
  assert (mf1 = mf) as ->.
  { unfold parse_manifest in Hp. rewrite Hmf in Hp. cbn in Hp. destruct (negb _); [done|]. destruct (negb _); [done|].
    apply res_bind_ok_inv in Hp as (u & _ & Hp). destruct (negb _ && negb _); [done|]. by injection Hp. }
  assert (Hrow : t'.(t_db).(registrations) !! (row.(AdapterRegistrationRow.adapter_id), row.(AdapterRegistrationRow.version),
    row.(AdapterRegistrationRow.bundle_digest)) = Some row) by (rewrite Ht; cbn; apply lookup_insert_eq).
  exists (mkVerifiedBundle ["b"] mf row.(AdapterRegistrationRow.bundle_digest) ["b"; "run"] (manifest_digest m)).
  split_and!; try done. unfold verify_for_spawn, adapters_get_registration, query, bind, lift_res, ret.
  unfold gets. rewrite Hrow. cbn [ok_or app]. rewrite G1. cbn [ok_or]. rewrite Hp.
  unfold compute_bundle_digest. cbn [app]. rewrite G2. cbn [ok_or res_bind]. rewrite G6. cbn [res_bind]. rewrite G4.
  cbn [ok_or res_bind check_assets]. rewrite <- Hd, bool_decide_eq_true_2 by done. rewrite Hent.
  change (join_path ["b"] "run") with ["b"; "run"]. rewrite G5. cbn [ok_or].
  rewrite bool_decide_eq_true_2 by (by exists ["run"]). done.
Qed.

(** *** The conformance gate *)

Lemma persist_report_ok report t u t' :
  persist_report report t = (Ok u, t') ->
  let key := (report.(cf_adapter_id), report.(cf_adapter_version), report.(cf_bundle_digest)) in
  let state := if bool_decide (report.(cf_result) = "pass") then ConformanceState.Passed else ConformanceState.Failed in
  t.(t_db).(conformance_reports) !! key = None /\ is_Some (t.(t_db).(registrations) !! key) /\
  t'.(t_db).(registrations) = alter (set_conformance state) key t.(t_db).(registrations) /\
  exists rep, t'.(t_db).(conformance_reports) = <[key := rep]> t.(t_db).(conformance_reports) /\
    rep.(ConformanceReportRow.result) = report.(cf_result) /\
    rep.(ConformanceReportRow.report_digest) = report.(cf_report_digest).
Proof.
  unfold persist_report, adapters_insert_conformance_report, adapters_set_conformance_state. intros E. inv_store.
  rename select (absent _ _ = true) into Ha. apply absent_true in Ha.
  rename select (match _ with Some _ => true | None => false end = true) into Hf.
  cbn. split_and!; [exact Ha|by apply fk_ok_some|done|]. eexists. done.
Qed.

Lemma pass_text cases : (if forallb cr_passed cases then "pass" else "fail") = "pass" <-> forallb cr_passed cases = true.
Proof. by destruct (forallb cr_passed cases). Qed.

(** A persisted report and the gate agree: the report is stored for a
    registered identity that had none, the registration becomes passed exactly
    when every case passed and failed otherwise, no other registration changes,
    a failed one is never eligible for any port, and no second report for the
    identity is accepted. *)
Theorem report_decides_gate id version digest cases now t t' :
  persist_report (from_cases id version digest cases now) t = (Ok tt, t') ->
  exists row, t.(t_db).(registrations) !! (id, version, digest) = Some row /\
    let row' := set_conformance (if forallb cr_passed cases then ConformanceState.Passed else ConformanceState.Failed) row in
    t'.(t_db).(registrations) = <[(id, version, digest) := row']> t.(t_db).(registrations) /\
    (exists rep, t.(t_db).(conformance_reports) !! (id, version, digest) = None /\
       t'.(t_db).(conformance_reports) !! (id, version, digest) = Some rep /\
       (rep.(ConformanceReportRow.result) = "pass" <-> forall c, c ∈ cases -> c.(cr_passed) = true)) /\
    (forallb cr_passed cases = false -> forall requirement c, candidate_decode row' = Ok c -> eligible requirement c = false) /\
    (forall cases' now', exists e, (persist_report (from_cases id version digest cases' now') t').1 = Err e).
Proof.
  intros E. apply persist_report_ok in E as (Hnone & [row Hrow] & Hregs & rep & Hreps & Hres & _).
  cbn [cf_adapter_id cf_adapter_version cf_bundle_digest from_cases cf_result] in *. exists row. split; [done|].
  assert (Hst : bool_decide ((if forallb cr_passed cases then "pass" else "fail") = "pass") = forallb cr_passed cases)
    by (destruct (forallb cr_passed cases); [by apply bool_decide_eq_true|by apply bool_decide_eq_false]).
  rewrite Hst in Hregs. split_and!.
  - rewrite Hregs, <- (insert_id _ _ _ Hrow) at 1. apply alter_insert_eq.
  - exists rep. rewrite Hreps, lookup_insert_eq, Hres. split_and!; try done. rewrite (pass_text cases).
    rewrite forallb_forall. by setoid_rewrite list_elem_of_In.
  - intros Hfail requirement c Hc. apply not_true_is_false. intros He. apply eligible_true in He as (_ & _ & _ & Hconf).
    apply Hconf. rewrite Hfail in Hc. unfold candidate_decode in Hc. apply res_bind_ok_inv in Hc as (ps & _ & Hc).
    by apply res_bind_ok_inv in Hc as (cs & _ & [= <-]).
  - intros cases' now'. destruct (persist_report (from_cases id version digest cases' now') t') as [[u|e] t''] eqn:E; [|eauto].
    apply persist_report_ok in E as (Hn & _). cbn in Hn. rewrite Hreps, lookup_insert_eq in Hn. done.
Qed.
End Promises.
