(* ===== verification/Protocol.v ===== *)
(** * The adapter protocol ([adapter-protocol/src/framing.rs], [handshake.rs],
    [session.rs]) and its handshake ([process-supervisor/src/spawn.rs])

    Length-delimited frames over a byte stream, the order of a session, the
    verification of the adapter's identity, calls with a deadline and pings.  A
    stream is what the peer has sent, how reading goes on after that, whether it
    can be written, and what was written; the protobuf codec of a frame and the
    monotonic clock are parameters. *)

From S2P Require Import Prelude Domain Ids Text Models StoreBase.

Open Scope string_scope.
Open Scope Z_scope.

(** ** Frames (contract messages) *)

Record AdapterBootstrap := mkAdapterBootstrap {
  ab_daemon_instance_id : string; ab_daemon_fencing_epoch : Z; ab_adapter_instance_id : string;
  ab_expected_bundle_digest : string; ab_bootstrap_nonce : string; ab_protocol_version : Z }.
Record AdapterHello := mkAdapterHello {
  ah_adapter_instance_id : string; ah_adapter_id : string; ah_adapter_version : string; ah_bundle_digest : string;
  ah_protocol_version : Z; ah_implemented_ports : list string; ah_capability_document : bytes }.
Record ExecutionContext := mkExecutionContext {
  ec_call_id : string; ec_operation_id : string; ec_effect_id : string; ec_actor_id : string; ec_run_id : string;
  ec_delegation_chain_ref : string; ec_deadline_unix_ms : Z; ec_fencing_token : Z; ec_capability_grant_ids : list string }.
Record PortCallRequest := mkPortCallRequest {
  pq_call_id : string; pq_port_id : string; pq_operation : string; pq_context : option ExecutionContext; pq_payload : bytes }.
Record PortCallResponse := mkPortCallResponse { ps_call_id : string; ps_payload : bytes; ps_error_code : string }.

Inductive FrameBody :=
  | BodyBootstrap (b : AdapterBootstrap)
  | BodyHello (h : AdapterHello)
  | BodyRequest (r : PortCallRequest)
  | BodyResponse (r : PortCallResponse)
  | BodyCancel (call_id : string)
  | BodyPing (nonce : string)
  | BodyPong (nonce : string)
  | BodyShutdown (reason : string).

(** [AdapterFrame { body }]. *)
Definition AdapterFrame : Type := option FrameBody.

(** [prost]: [encode_to_vec] and [decode] of a frame. *)
Class FrameCodec := { frame_encode : AdapterFrame -> bytes; frame_decode : bytes -> option AdapterFrame }.

(** [Instant::now], the n-th reading. *)
Class MonotonicClock := instant_now : nat -> Z.

(** ** Streams *)

Inductive IoKind := UnexpectedEof | WouldBlock | OtherIo.

(** What a read finds after the bytes the peer sent: the peer closed, it sends
    nothing before the timeout, or the read fails. *)
Inductive StreamEnd := Closed | Silent | Broken.

Record Stream := mkStream {
  sm_rx : bytes;
  sm_end : StreamEnd;
  sm_writable : bool;
  sm_tx : bytes;
  sm_clock : nat }.

Definition end_kind (e : StreamEnd) : IoKind :=
  match e with Closed => UnexpectedEof | Silent => WouldBlock | Broken => OtherIo end.

(** [Read::read_exact]: what is there is consumed also when it is too little. *)
Definition read_exact (n : nat) (s : Stream) : (bytes + IoKind) * Stream :=
  if (n <=? length s.(sm_rx))%nat
  then (inl (take n s.(sm_rx)), mkStream (drop n s.(sm_rx)) s.(sm_end) s.(sm_writable) s.(sm_tx) s.(sm_clock))
  else (inr (end_kind s.(sm_end)), mkStream [] s.(sm_end) s.(sm_writable) s.(sm_tx) s.(sm_clock)).

Definition write_all (b : bytes) (s : Stream) : Stream :=
  mkStream s.(sm_rx) s.(sm_end) s.(sm_writable) (s.(sm_tx) ++ b)%list s.(sm_clock).

(** ** Framing ([framing.rs]) *)

Definition MAX_FRAME_BYTES : Z := 4194304.

Definition frame_io (op : string) : KernelError := mkKernelError Unavailable RetrySafe (op +:+ " failed").

(** [u32::from_be_bytes]. *)
Definition from_be_bytes (b : bytes) : Z := foldl (fun acc x => acc * 256 + Z.of_N (Byte.to_N x)) 0 b.

Inductive ReadOutcome :=
  | GotFrame (f : AdapterFrame)
  | CleanEof
  | ReadFailed (e : KernelError) (source : option IoKind).

Section Framing.
Context `{!FrameCodec}.

Definition encode_frame (f : AdapterFrame) : bytes :=
  let body := frame_encode f in (to_be_bytes 4 (Z.of_nat (length body)) ++ body)%list.

Definition write_frame (f : AdapterFrame) (s : Stream) : Res unit * Stream :=
  if s.(sm_writable) then (Ok tt, write_all (encode_frame f) s) else (Err (frame_io "write frame"), s).

Definition frame_too_long (len : Z) : KernelError :=
  kerr ResourceExhausted ("adapter frame " +:+ u64_to_string len +:+ " exceeds 4194304 bytes").

Definition read_frame (s : Stream) : ReadOutcome * Stream :=
  match read_exact 4 s with
  | (inr UnexpectedEof, s1) => (CleanEof, s1)
  | (inr kind, s1) => (ReadFailed (frame_io "read frame length") (Some kind), s1)
  | (inl len_buf, s1) =>
      let len := from_be_bytes len_buf in
      if MAX_FRAME_BYTES <? len then (ReadFailed (frame_too_long len) None, s1)
      else
        match read_exact (Z.to_nat len) s1 with
        | (inr kind, s2) => (ReadFailed (frame_io "read frame body") (Some kind), s2)
        | (inl body, s2) =>
            match frame_decode body with
            | Some f => (GotFrame f, s2)
            | None => (ReadFailed (kerr InvalidArgument "adapter frame body is not a valid AdapterFrame") None, s2)
            end
        end
  end.
End Framing.

(** ** Handshake ([handshake.rs]) *)

Record ExpectedIdentity := mkExpectedIdentity {
  ei_daemon_instance_id : DaemonInstanceId;
  ei_daemon_fencing_epoch : Z;
  ei_adapter_instance_id : string;
  ei_adapter_id : string;
  ei_adapter_version : string;
  ei_expected_bundle_digest : string;
  ei_protocol_version : Z }.

Definition bootstrap_frame `{!Ext} (e : ExpectedIdentity) (bootstrap_nonce : string) : AdapterFrame :=
  Some (BodyBootstrap (mkAdapterBootstrap (uuid_hyphenated e.(ei_daemon_instance_id)) e.(ei_daemon_fencing_epoch)
    e.(ei_adapter_instance_id) e.(ei_expected_bundle_digest) bootstrap_nonce e.(ei_protocol_version))).

Definition handshake_failed (message : string) : KernelError := kerr FailedPrecondition message.

Definition check_field (field got want : string) : Res unit :=
  if bool_decide (got = want) then Ok tt else Err (handshake_failed ("adapter hello " +:+ field +:+ " mismatch")).

Definition verify_hello (e : ExpectedIdentity) (h : AdapterHello) : Res unit :=
  let? _ := check_field "adapter_instance_id" h.(ah_adapter_instance_id) e.(ei_adapter_instance_id) in
  let? _ := check_field "adapter_id" h.(ah_adapter_id) e.(ei_adapter_id) in
  let? _ := check_field "adapter_version" h.(ah_adapter_version) e.(ei_adapter_version) in
  let? _ := check_field "bundle_digest" h.(ah_bundle_digest) e.(ei_expected_bundle_digest) in
  if negb (h.(ah_protocol_version) =? e.(ei_protocol_version)) then
    Err (handshake_failed ("protocol version mismatch: adapter offers " +:+ u64_to_string h.(ah_protocol_version) +:+
           ", kernel expects " +:+ u64_to_string e.(ei_protocol_version)))
  else Ok tt.

Inductive SessionPhase := AwaitingHello | Ready | Draining.

Definition accept_inbound (phase : SessionPhase) (frame : AdapterFrame) : Res SessionPhase :=
  match frame with
  | None => Err (kerr InvalidArgument "adapter frame has no body")
  | Some body =>
      match phase, body with
      | AwaitingHello, BodyHello _ => Ok Ready
      | AwaitingHello, _ => Err (handshake_failed "expected AdapterHello before any other frame")
      | Ready, (BodyResponse _ | BodyPong _ | BodyHello _ | BodyCancel _) => Ok Ready
      | Ready, (BodyBootstrap _ | BodyShutdown _) => Err (handshake_failed "kernel frame received inbound")
      | Ready, BodyPing _ => Ok Ready
      | Ready, BodyRequest _ => Err (handshake_failed "PortCallRequest is a kernel->adapter frame")
      | Draining, _ => Err (handshake_failed "frame received after AdapterShutdown")
      end
  end.

(** [spawn::handshake]: the bootstrap, the reply, its verification. *)
Definition handshake `{!Ext} `{!FrameCodec} (expected : ExpectedIdentity) (bootstrap_nonce : string) (timeout_ms : Z)
    (s : Stream) : Res AdapterHello * Stream :=
  if timeout_ms =? 0 then (Err (mkKernelError Unavailable RetrySafe
    "process supervisor set_read_timeout failed: cannot set a 0 duration timeout"), s)
  else
    match write_frame (bootstrap_frame expected bootstrap_nonce) s with
    | (Err e, s1) => (Err e, s1)
    | (Ok _, s1) =>
        match read_frame s1 with
        | (ReadFailed e _, s2) => (Err e, s2)
        | (CleanEof, s2) => (Err (handshake_failed "adapter closed the channel instead of replying to bootstrap"), s2)
        | (GotFrame reply, s2) =>
            (let? _ := accept_inbound AwaitingHello reply in
             match reply with
             | Some (BodyHello hello) => let? _ := verify_hello expected hello in Ok hello
             | _ => Err (kerr Internal "panic: AwaitingHello only admits Hello")
             end, s2)
        end
    end.

(** ** Calls ([session.rs]) *)

Inductive CallError := CallKernel (e : KernelError) | CallCancelled (call_id : string) | CallOutOfFuel.

Definition deadline_exceeded (call_id : string) : KernelError :=
  kerr Unavailable ("adapter call " +:+ call_id +:+ " exceeded its deadline").

Section Session.
Context `{!FrameCodec} `{!MonotonicClock}.

Definition tick (s : Stream) : Stream := mkStream s.(sm_rx) s.(sm_end) s.(sm_writable) s.(sm_tx) (S s.(sm_clock)).

(** [deadline.checked_duration_since(Instant::now())], then
    [set_read_timeout(Some(remaining))], which refuses a zero timeout. *)
Definition arm_timeout (deadline : Z) (what : string) (s : Stream) : Res unit * Stream :=
  let remaining := deadline - instant_now s.(sm_clock) in
  (if remaining <? 0 then Err (deadline_exceeded what)
   else if remaining =? 0 then Err (frame_io "set read timeout")
   else Ok tt, tick s).

Definition send_cancel (call_id : string) (s : Stream) : Stream := snd (write_frame (Some (BodyCancel call_id)) s).

Definition closed_mid_call : KernelError := kerr Unavailable "adapter stream closed mid-call".

(** The loop of [dispatch_call]; every turn reads a frame of four bytes or more. *)
Fixpoint call_loop (fuel : nat) (deadline : Z) (call_id : string) (phase : SessionPhase) (s : Stream)
    : (PortCallResponse + CallError) * SessionPhase * Stream :=
  match fuel with
  | O => (inr CallOutOfFuel, phase, s)
  | S fuel =>
      match arm_timeout deadline call_id s with
      | (Err e, s) => (inr (CallKernel e), phase, s)
      | (Ok _, s) =>
          match read_frame s with
          | (CleanEof, s) => (inr (CallKernel closed_mid_call), phase, s)
          | (ReadFailed _ (Some WouldBlock), s) =>
              (inr (CallKernel (deadline_exceeded call_id)), phase, send_cancel call_id s)
          | (ReadFailed e _, s) => (inr (CallKernel e), phase, s)
          | (GotFrame frame, s) =>
              match accept_inbound phase frame with
              | Err e => (inr (CallKernel e), phase, s)
              | Ok phase =>
                  match frame with
                  | Some (BodyResponse resp) =>
                      if bool_decide (resp.(ps_call_id) = call_id) then (inl resp, phase, s)
                      else call_loop fuel deadline call_id phase s
                  | Some (BodyPing nonce) =>
                      call_loop fuel deadline call_id phase (snd (write_frame (Some (BodyPong nonce)) s))
                  | Some (BodyCancel cid) =>
                      if bool_decide (cid = call_id) then (inr (CallCancelled cid), phase, s)
                      else call_loop fuel deadline call_id phase s
                  | _ => call_loop fuel deadline call_id phase s
                  end
              end
          end
      end
  end.

Definition loop_fuel (s : Stream) : nat := S (length s.(sm_rx)).

Definition dispatch_call (phase : SessionPhase) (request : PortCallRequest) (deadline : Z) (s : Stream)
    : (PortCallResponse + CallError) * SessionPhase * Stream :=
  match write_frame (Some (BodyRequest request)) s with
  | (Err e, s) => (inr (CallKernel e), phase, s)
  | (Ok _, s) => call_loop (loop_fuel s) deadline request.(pq_call_id) phase s
  end.

Fixpoint ping_loop (fuel : nat) (deadline : Z) (nonce : string) (s : Stream) : option (Res unit * Stream) :=
  match fuel with
  | O => None
  | S fuel =>
      match arm_timeout deadline nonce s with
      | (Err e, s) => Some (Err e, s)
      | (Ok _, s) =>
          match read_frame s with
          | (CleanEof, s) => Some (Err (kerr Unavailable "adapter stream closed during ping"), s)
          | (ReadFailed e _, s) => Some (Err e, s)
          | (GotFrame frame, s) =>
              if match frame with Some (BodyPong got) => bool_decide (got = nonce) | _ => false end then Some (Ok tt, s)
              else match accept_inbound Ready frame with
                   | Err e => Some (Err e, s)
                   | Ok _ => ping_loop fuel deadline nonce s
                   end
          end
      end
  end.

Definition ping (nonce : string) (deadline : Z) (s : Stream) : option (Res unit * Stream) :=
  match write_frame (Some (BodyPing nonce)) s with
  | (Err e, s) => Some (Err e, s)
  | (Ok _, s) => ping_loop (loop_fuel s) deadline nonce s
  end.
End Session.

(** ** Frames on the wire *)

Lemma from_to_be_bytes n z : 0 <= z < 256 ^ Z.of_nat n -> from_be_bytes (to_be_bytes n z) = z.
Proof.
  unfold from_be_bytes. revert z. induction n as [|n IH]; intros z Hz; [cbn in *; lia|].
  rewrite Nat2Z.inj_succ, Z.pow_succ_r in Hz by lia. cbn [to_be_bytes]. rewrite foldl_app, IH.
  - cbn [foldl]. rewrite byte_of_Z_value, Z2N.id by (apply Z.mod_pos_bound; lia). rewrite Z.mul_comm. symmetry. apply Z.div_mod. lia.
  - split; [apply Z.div_pos; lia|]. apply Z.div_lt_upper_bound; lia.
Qed.

Lemma from_be_bytes_nonneg b : 0 <= from_be_bytes b.
Proof.
  unfold from_be_bytes. assert (H0 : forall acc, 0 <= acc -> 0 <= foldl (fun acc x => acc * 256 + Z.of_N (Byte.to_N x)) acc b); [|by apply H0].
  induction b as [|x b IH]; intros acc Ha; [done|]. cbn [foldl]. apply IH. lia.
Qed.

Lemma read_exact_app n b rest s :
  length b = n -> s.(sm_rx) = (b ++ rest)%list ->
  read_exact n s = (inl b, mkStream rest s.(sm_end) s.(sm_writable) s.(sm_tx) s.(sm_clock)).
Proof.
  intros <- E. unfold read_exact. rewrite E, length_app, (proj2 (Nat.leb_le _ _)) by lia.
  by rewrite take_app_length, drop_app_length.
Qed.

(** ** What a call does with the bytes it is sent *)

Section Wire.
Context `{!FrameCodec}.

(** A whole frame at the head of the bytes: a length prefix of four bytes, within
    the limit, and a body of that length that decodes. *)
Definition framed (rx : bytes) (f : AdapterFrame) (rest : bytes) : Prop :=
  exists prefix body, rx = (prefix ++ body ++ rest)%list /\ length prefix = 4%nat /\
    from_be_bytes prefix = Z.of_nat (length body) /\ from_be_bytes prefix <= MAX_FRAME_BYTES /\
    frame_decode body = Some f.

(** The bytes are these frames, one after the other, and then [rest]. *)
Fixpoint on_wire (rx : bytes) (fs : list AdapterFrame) (rest : bytes) : Prop :=
  match fs with
  | [] => rx = rest
  | f :: fs => exists mid, framed rx f mid /\ on_wire mid fs rest
  end.

(** A frame that has begun and is not all there. *)
Definition incomplete (rx : bytes) : Prop :=
  (length rx < 4)%nat \/
  from_be_bytes (take 4 rx) <= MAX_FRAME_BYTES /\ Z.of_nat (length rx) < 4 + from_be_bytes (take 4 rx).

(** The frames an adapter may send to a ready session. *)
Definition from_adapter (f : AdapterFrame) : Prop :=
  match f with
  | Some (BodyHello _ | BodyResponse _ | BodyCancel _ | BodyPing _ | BodyPong _) => True
  | _ => False
  end.

(** The frames that end a call, and what it then returns. *)
Inductive answers (call_id : string) : AdapterFrame -> PortCallResponse + CallError -> Prop :=
  | answers_response r : r.(ps_call_id) = call_id -> answers call_id (Some (BodyResponse r)) (inl r)
  | answers_cancel : answers call_id (Some (BodyCancel call_id)) (inr (CallCancelled call_id)).

Definition passes (call_id : string) (f : AdapterFrame) : Prop := from_adapter f /\ forall a, ~ answers call_id f a.

Definition pongs (fs : list AdapterFrame) : list AdapterFrame :=
  omap (fun f => match f with Some (BodyPing nonce) => Some (Some (BodyPong nonce)) | _ => None end) fs.

(** How a call can end when [rest] is what the peer has sent after the frames it
    passed over, and [now] the reading of the clock before the last wait: what it
    returns, and what it sends last. *)
Inductive call_ends (call_id : string) (deadline now : Z) (e : StreamEnd) (rest : bytes)
    : PortCallResponse + CallError -> bytes -> Prop :=
  | ends_answered f left a : now < deadline -> framed rest f left -> answers call_id f a ->
      call_ends call_id deadline now e rest a []
  | ends_refused f left k : now < deadline -> framed rest f left -> ~ from_adapter f ->
      call_ends call_id deadline now e rest (inr (CallKernel k)) []
  | ends_silent : now < deadline -> incomplete rest -> e = Silent ->
      call_ends call_id deadline now e rest (inr (CallKernel (deadline_exceeded call_id))) (encode_frame (Some (BodyCancel call_id)))
  | ends_lost k : now < deadline -> (forall f left, ~ framed rest f left) -> ~ (incomplete rest /\ e = Silent) ->
      (rest = [] -> e = Closed -> k = closed_mid_call) ->
      call_ends call_id deadline now e rest (inr (CallKernel k)) []
  | ends_late k extra : deadline <= now -> (deadline < now -> k = deadline_exceeded call_id) ->
      extra = [] \/ extra = encode_frame (Some (BodyCancel call_id)) ->
      call_ends call_id deadline now e rest (inr (CallKernel k)) extra.

Lemma framed_det rx f rest f' rest' : framed rx f rest -> framed rx f' rest' -> f = f' /\ rest = rest'.
Proof.
  intros (p & b & -> & Hp & Hl & _ & Hf) (p' & b' & E & Hp' & Hl' & _ & Hf').
  apply app_inj_1 in E as [<- E]; [|lia]. apply app_inj_1 in E as [<- <-]; [|lia]. by simplify_eq.
Qed.

(** What [encode_frame] writes is a frame, when the body is within the limit and
    decodes. *)
Lemma framed_encode f rest :
  Z.of_nat (length (frame_encode f)) <= MAX_FRAME_BYTES -> frame_decode (frame_encode f) = Some f ->
  framed (encode_frame f ++ rest) f rest.
Proof.
  intros Hf Hd. unfold encode_frame. exists (to_be_bytes 4 (Z.of_nat (length (frame_encode f)))), (frame_encode f).
  rewrite <- app_assoc, to_be_bytes_length, from_to_be_bytes by (unfold MAX_FRAME_BYTES in Hf; lia). done.
Qed.

Lemma framed_length rx f rest : framed rx f rest -> (length rest < length rx)%nat.
Proof. intros (p & b & -> & Hp & _). rewrite !length_app. lia. Qed.

Definition with_rx (rx : bytes) (s : Stream) : Stream := mkStream rx s.(sm_end) s.(sm_writable) s.(sm_tx) s.(sm_clock).

Lemma read_exact_short n s : (length s.(sm_rx) < n)%nat -> read_exact n s = (inr (end_kind s.(sm_end)), with_rx [] s).
Proof. intros Hn. unfold read_exact. by rewrite (proj2 (Nat.leb_gt _ _)). Qed.

(** What [read_frame] finds is what is on the wire. *)
Lemma read_frame_spec s :
  match read_frame s with
  | (GotFrame f, s') => framed s.(sm_rx) f s'.(sm_rx) /\ s' = with_rx s'.(sm_rx) s
  | (CleanEof, s') => (length s.(sm_rx) < 4)%nat /\ s.(sm_end) = Closed /\ s' = with_rx s'.(sm_rx) s
  | (ReadFailed e source, s') =>
      (forall f left, ~ framed s.(sm_rx) f left) /\ (source = Some WouldBlock <-> incomplete s.(sm_rx) /\ s.(sm_end) = Silent) /\
      (s.(sm_end) = Closed -> s.(sm_rx) <> []) /\ s' = with_rx s'.(sm_rx) s
  end.
Proof.
  unfold read_frame. destruct (decide (length s.(sm_rx) < 4)%nat) as [Hs|Hl].
  { rewrite read_exact_short by done. assert (Hno : forall f left, ~ framed (sm_rx s) f left).
    { intros f left (p & b & E & Hp & _). rewrite E, !length_app in Hs. lia. }
    assert (Hi : incomplete (sm_rx s)) by (by left).
    destruct (sm_end s) eqn:He; cbn; [done|..]; (split; [done|]); (split; [by split; [|intros []]|done]). }
  destruct (take 4 (sm_rx s), drop 4 (sm_rx s)) as [p r] eqn:Epr. injection Epr as Ep Er.
  assert (Hp : length p = 4%nat) by (rewrite <- Ep, length_take; lia).
  assert (Hrx : sm_rx s = (p ++ r)%list) by (by rewrite <- Ep, <- Er, take_drop).
  clear Ep Er. rewrite (read_exact_app 4 p r s Hp Hrx).
  pose proof (from_be_bytes_nonneg p) as Hlen.
  assert (Hfr : forall f left, framed (sm_rx s) f left -> from_be_bytes p <= MAX_FRAME_BYTES /\
    exists b, r = (b ++ left)%list /\ from_be_bytes p = Z.of_nat (length b) /\ frame_decode b = Some f).
  { intros f left (p' & b & E & Hp' & Hb & Hm & Hf). rewrite Hrx in E. apply app_inj_1 in E as [<- E]; [|lia]. eauto. }
  assert (Hne : sm_rx s <> []) by (intros E; rewrite Hrx in E; by destruct p).
  assert (Hinc : incomplete (sm_rx s) <-> from_be_bytes p <= MAX_FRAME_BYTES /\ Z.of_nat (length r) < from_be_bytes p).
  { unfold incomplete. rewrite Hrx, length_app, take_app_length' by done. lia. }
  destruct (Z.ltb_spec MAX_FRAME_BYTES (from_be_bytes p)) as [Hbig|Hfit].
  { split_and!; [|split; [done|]|done|done]; [|intros [[]%Hinc _]; lia]. intros f left [? _]%Hfr. lia. }
  set (s1 := mkStream r _ _ _ _). destruct (decide (length r < Z.to_nat (from_be_bytes p))%nat) as [Hsh|Hge].
  { rewrite read_exact_short by done. assert (Hi : incomplete (sm_rx s)) by (apply Hinc; lia).
    split_and!; [|cbn; split|done|done].
    - intros f left (_ & b & -> & Hb & _)%Hfr. rewrite length_app in Hsh. lia.
    - intros [= E]. by destruct (sm_end s).
    - by intros [_ ->]. }
  assert (Hr : r = (take (Z.to_nat (from_be_bytes p)) r ++ drop (Z.to_nat (from_be_bytes p)) r)%list) by (by rewrite take_drop).
  rewrite (read_exact_app (Z.to_nat (from_be_bytes p)) (take (Z.to_nat (from_be_bytes p)) r) (drop (Z.to_nat (from_be_bytes p)) r) s1)
    by (try done; rewrite length_take; lia).
  destruct (frame_decode _) as [f|] eqn:Ed; cbn [sm_rx].
  - split; [|done]. exists p, (take (Z.to_nat (from_be_bytes p)) r). rewrite <- Hr, length_take. split_and!; [done..|lia|done|done].
  - split_and!; [|split; [done|]|done|done]; [|intros [[]%Hinc _]; lia].
    intros f left (_ & b & E & Hb & Hf)%Hfr. rewrite E, take_app_length' in Ed by lia. congruence.
Qed.

Lemma accept_ready f : match accept_inbound Ready f with Ok phase => phase = Ready /\ from_adapter f | Err _ => ~ from_adapter f end.
Proof. destruct f as [[]|]; cbn; tauto. Qed.

Context `{!MonotonicClock}.

(** What is told of a call that starts to wait with the stream [s]: the session
    stays ready; the frames passed over are the first on the wire, each read before
    the deadline; each ping among them is answered. *)
Definition told (deadline : Z) (call_id : string) (s : Stream) (out : (PortCallResponse + CallError) * SessionPhase * Stream) : Prop :=
  let '(answer, phase, s') := out in
  phase = Ready /\ exists fs rest extra, on_wire s.(sm_rx) fs rest /\ Forall (passes call_id) fs /\
    (forall i, (i < length fs)%nat -> instant_now (s.(sm_clock) + i) < deadline) /\
    s'.(sm_tx) = (s.(sm_tx) ++ concat (encode_frame <$> pongs fs) ++ extra)%list /\
    call_ends call_id deadline (instant_now (s.(sm_clock) + length fs)) s.(sm_end) rest answer extra.

Lemma told_end deadline call_id s answer s' extra :
  s'.(sm_tx) = (s.(sm_tx) ++ extra)%list ->
  call_ends call_id deadline (instant_now s.(sm_clock)) s.(sm_end) s.(sm_rx) answer extra ->
  told deadline call_id s (answer, Ready, s').
Proof. intros Htx Hend. split; [done|]. exists [], (sm_rx s), extra. cbn. rewrite Nat.add_0_r. split_and!; done || lia. Qed.

Lemma told_next deadline call_id s f rest tx out :
  instant_now s.(sm_clock) < deadline -> framed s.(sm_rx) f rest -> passes call_id f ->
  tx = (s.(sm_tx) ++ concat (encode_frame <$> pongs [f]))%list ->
  told deadline call_id (mkStream rest s.(sm_end) s.(sm_writable) tx (S s.(sm_clock))) out -> told deadline call_id s out.
Proof.
  destruct out as [[answer phase] s']. intros Hnow Hf Hpass -> (-> & fs & rest' & extra & Hwire & Hp & Hi & Ht & He).
  cbn [sm_rx sm_clock sm_tx sm_end] in *. split; [done|]. exists (f :: fs), rest', extra.
  split; [by exists rest|]. split; [by constructor|]. cbn [length]. rewrite <- Nat.add_succ_comm. split; [|split; [|done]].
  - intros [|i] Hlen; [by rewrite Nat.add_0_r|]. rewrite <- Nat.add_succ_comm. apply Hi. cbn in Hlen. lia.
  - rewrite Ht, <- !app_assoc. f_equal. rewrite app_assoc. f_equal. rewrite <- concat_app, <- fmap_app.
    f_equal. f_equal. unfold pongs. cbn. by destruct f as [[]|].
Qed.

(** The frame read decides the turn. *)
Lemma call_turn deadline call_id fuel s f rest :
  instant_now s.(sm_clock) < deadline -> framed s.(sm_rx) f rest -> s.(sm_writable) = true ->
  (forall tx, told deadline call_id (mkStream rest s.(sm_end) true tx (S s.(sm_clock)))
     (call_loop fuel deadline call_id Ready (mkStream rest s.(sm_end) true tx (S s.(sm_clock))))) ->
  let s1 := mkStream rest s.(sm_end) s.(sm_writable) s.(sm_tx) (S s.(sm_clock)) in
  told deadline call_id s
    match accept_inbound Ready f with
    | Err e => (inr (CallKernel e), Ready, s1)
    | Ok phase =>
        match f with
        | Some (BodyResponse resp) =>
            if bool_decide (resp.(ps_call_id) = call_id) then (inl resp, phase, s1) else call_loop fuel deadline call_id phase s1
        | Some (BodyPing nonce) => call_loop fuel deadline call_id phase (snd (write_frame (Some (BodyPong nonce)) s1))
        | Some (BodyCancel cid) =>
            if bool_decide (cid = call_id) then (inr (CallCancelled cid), phase, s1) else call_loop fuel deadline call_id phase s1
        | _ => call_loop fuel deadline call_id phase s1
        end
    end.
Proof.
  intros Hnow Hf Hw Hgo s1.
  assert (Hstop : forall a, call_ends call_id deadline (instant_now s.(sm_clock)) s.(sm_end) s.(sm_rx) a [] ->
    told deadline call_id s (a, Ready, s1)) by (intros a; apply told_end; by rewrite app_nil_r).
  assert (Hpass : forall tx, passes call_id f -> tx = (sm_tx s ++ concat (encode_frame <$> pongs [f]))%list ->
    told deadline call_id s (call_loop fuel deadline call_id Ready (mkStream rest (sm_end s) true tx (S (sm_clock s))))).
  { intros tx Hp Htx. eapply told_next; [done..|]. rewrite Hw. apply Hgo. }
  subst s1. rewrite Hw in *. unfold write_frame, write_all. cbn [sm_writable snd sm_rx sm_end sm_tx sm_clock].
  destruct f as [[b|h|r|r|cid|nonce|nonce|reason]|]; cbn [accept_inbound]; try (by apply Hstop; eapply ends_refused; [done|done|intros []]);
    try case_bool_decide as Hc; try (apply Hpass; [split; [done|by intros a Hn; inversion Hn]|cbn; by rewrite ?app_nil_r]).
  - apply Hstop. eapply ends_answered; [done|done|by apply answers_response].
  - subst cid. apply Hstop. eapply ends_answered; [done|done|apply answers_cancel].
Qed.

Lemma call_loop_told deadline call_id fuel : forall s, (length s.(sm_rx) < fuel)%nat -> s.(sm_writable) = true ->
  told deadline call_id s (call_loop fuel deadline call_id Ready s).
Proof.
  induction fuel as [|fuel IH]; intros s Hfuel Hw; [lia|]. cbn [call_loop].
  unfold arm_timeout. destruct (Z.ltb_spec (deadline - instant_now (sm_clock s)) 0) as [Hneg|Hpos].
  { apply (told_end _ _ _ _ _ []); [by rewrite app_nil_r|]. apply ends_late; [lia|done|by left]. }
  destruct (Z.eqb_spec (deadline - instant_now (sm_clock s)) 0) as [Hz|Hnz].
  { apply (told_end _ _ _ _ _ []); [by rewrite app_nil_r|]. apply ends_late; [lia|lia|by left]. }
  assert (Hnow : instant_now (sm_clock s) < deadline) by lia.
  pose proof (read_frame_spec (tick s)) as Hr. destruct (read_frame (tick s)) as [[f| |e source] s1]; cbn [sm_rx tick sm_end] in Hr.
  - destruct Hr as [Hf ->]. cbn [with_rx tick sm_end sm_writable sm_tx sm_clock].
    apply (call_turn deadline call_id fuel s f (sm_rx s1) Hnow Hf Hw). intros tx. apply IH; [|done].
    apply framed_length in Hf. cbn. lia.
  - destruct Hr as (Hl & He & Hs1). apply (told_end _ _ _ _ _ []); [by rewrite Hs1, app_nil_r|].
    apply ends_lost; [done| |by rewrite He; intros []|done]. intros f left (p & b & E & Hp & _). rewrite E, !length_app in Hl. lia.
  - destruct Hr as (Hno & Hwb & Hne & Hs1).
    assert (Hlost : source <> Some WouldBlock ->
      call_ends call_id deadline (instant_now (sm_clock s)) (sm_end s) (sm_rx s) (inr (CallKernel e)) []).
    { intros Hd. apply ends_lost; [done|done|by rewrite <- Hwb|]. intros Hnil Hcl. by destruct (Hne Hcl). }
    destruct source as [[]|]; try (apply (told_end _ _ _ _ _ []); [by rewrite Hs1, app_nil_r|by apply Hlost]).
    destruct (proj1 Hwb eq_refl) as [Hi He].
    apply (told_end _ _ _ _ _ (encode_frame (Some (BodyCancel call_id)))); [|by apply ends_silent].
    unfold send_cancel, write_frame. rewrite Hs1. cbn. by rewrite Hw.
Qed.
Lemma framed_complete rx f rest : framed rx f rest -> ~ incomplete rx.
Proof.
  intros (p & b & -> & Hp & Hl & _) [Hs|[_ Hs]]; [rewrite !length_app in Hs; lia|].
  rewrite take_app_length', !length_app in Hs by done. lia.
Qed.

Lemma answers_det call_id f a b : answers call_id f a -> answers call_id f b -> a = b.
Proof. intros Ha Hb. destruct Ha; inversion Hb; congruence. Qed.

(** In time, a whole frame decides how the call ends. *)
Lemma ends_by_frame call_id deadline now e rest answer extra f left :
  now < deadline -> framed rest f left -> call_ends call_id deadline now e rest answer extra ->
  answers call_id f answer \/ ~ from_adapter f.
Proof.
  intros Hnow Hf [f' left' a _ Hf' Ha|f' left' k _ Hf' Ha|_ Hi _|k _ Hno _ _|k x Hl _ _].
  - destruct (framed_det _ _ _ _ _ Hf Hf') as [-> _]. by left.
  - destruct (framed_det _ _ _ _ _ Hf Hf') as [-> _]. by right.
  - by destruct (framed_complete _ _ _ Hf).
  - by destruct (Hno f left).
  - lia.
Qed.

(** A wire that holds frames to pass over and then an answer, all read in time,
    ends only with that answer. *)
Lemma ends_by_answer call_id deadline e f left a answer extra pre : forall c rx fs rest,
  on_wire rx (pre ++ [f]) left -> Forall (passes call_id) pre -> answers call_id f a ->
  (forall i, (i <= length pre)%nat -> instant_now (c + i) < deadline) ->
  on_wire rx fs rest -> Forall (passes call_id) fs ->
  call_ends call_id deadline (instant_now (c + length fs)) e rest answer extra -> answer = a.
Proof.
  induction pre as [|g pre IH]; intros c rx [|h fs] rest Hpre Hp Hans Hi Hwire Hfs He; cbn in Hpre, Hwire.
  - subst rest. destruct Hpre as (mid & Hf & _). cbn [length] in *.
    destruct (ends_by_frame _ _ _ _ _ _ _ _ _ (Hi 0%nat (le_n _)) Hf He) as [Ha|Hn]; [by eapply answers_det|].
    by destruct Hans.
  - destruct Hpre as (mid & Hf & _), Hwire as (mid' & Hh & _). destruct (framed_det _ _ _ _ _ Hf Hh) as [<- _].
    apply list.Forall_cons in Hfs as [[_ Hno] _]. by destruct (Hno a).
  - subst rest. destruct Hpre as (mid & Hg & _). apply list.Forall_cons in Hp as [[Hok Hno] _].
    assert (Hnow : instant_now (c + 0) < deadline) by (apply Hi; lia).
    destruct (ends_by_frame _ _ _ _ _ _ _ _ _ Hnow Hg He) as [Ha|Hn]; [by destruct (Hno answer)|done].
  - destruct Hpre as (mid & Hg & Hpre), Hwire as (mid' & Hh & Hwire). destruct (framed_det _ _ _ _ _ Hg Hh) as [<- <-].
    apply list.Forall_cons in Hp as [_ Hp]. apply list.Forall_cons in Hfs as [_ Hfs].
    apply (IH (S c) mid fs rest); try done.
    + intros i Hle. rewrite Nat.add_succ_comm. apply Hi. cbn. lia.
    + rewrite Nat.add_succ_comm. exact He.
Qed.

(** C39: What a call over a ready session does, on whatever bytes the peer has sent,
    whatever the clock reads.  It sends the request; a stream that cannot be written
    fails the call there.  The frames it passes over are the first on the wire, all
    of kinds an adapter may send and none an answer to this call, each awaited
    before the deadline, and each ping among them is answered in order.  Then it
    ends: with the first response or cancellation that carries its identifier; with
    an error at a frame no adapter may send; with the deadline error, after sending
    a cancellation, when the peer stays silent over an unfinished frame; with an
    error when the peer closes or what it sent is no frame; or with an error once
    the deadline has come.  So an answer on the wire behind such frames, reached
    before the deadline, is the one returned. *)
Theorem call_ends_by_wire request deadline s :
  let '(answer, phase, s') := dispatch_call Ready request deadline s in
  phase = Ready /\
  (s.(sm_writable) = false -> answer = inr (CallKernel (frame_io "write frame")) /\ s' = s) /\
  (s.(sm_writable) = true ->
    (exists fs rest extra, on_wire s.(sm_rx) fs rest /\ Forall (passes request.(pq_call_id)) fs /\
      (forall i, (i < length fs)%nat -> instant_now (s.(sm_clock) + i) < deadline) /\
      s'.(sm_tx) = (s.(sm_tx) ++ encode_frame (Some (BodyRequest request)) ++ concat (encode_frame <$> pongs fs) ++ extra)%list /\
      call_ends request.(pq_call_id) deadline (instant_now (s.(sm_clock) + length fs)) s.(sm_end) rest answer extra) /\
    forall pre f left a, on_wire s.(sm_rx) (pre ++ [f]) left -> Forall (passes request.(pq_call_id)) pre ->
      answers request.(pq_call_id) f a -> (forall i, (i <= length pre)%nat -> instant_now (s.(sm_clock) + i) < deadline) ->
      answer = a).
Proof.
  unfold dispatch_call, write_frame. destruct (sm_writable s) eqn:Hw; [|by split_and!].
  set (s1 := write_all _ s). pose proof (call_loop_told deadline (pq_call_id request) (loop_fuel s1) s1 (Nat.lt_succ_diag_r _) Hw) as Ht.
  destruct (call_loop _ _ _ _ s1) as [[answer phase] s']. destruct Ht as (-> & fs & rest & extra & Hwire & Hp & Hi & Htx & He).
  split; [done|]. split; [done|]. intros _. cbn [s1 write_all sm_rx sm_clock sm_end sm_tx] in *. split.
  - exists fs, rest, extra. by rewrite Htx, <- app_assoc.
  - intros pre f left a Hpre Hpp Ha Hc. exact (ends_by_answer _ _ _ _ _ _ _ _ _ _ _ _ _ Hpre Hpp Ha Hc Hwire Hp He).
Qed.
End Wire.

(** ** Termination, order and identity *)

Section Order.
Context `{!FrameCodec} `{!MonotonicClock}.

Lemma read_exact_rx n s r s' : read_exact n s = (r, s') -> (length s'.(sm_rx) <= length s.(sm_rx))%nat /\
  (forall b, r = inl b -> (length s'.(sm_rx) + n = length s.(sm_rx))%nat).
Proof.
  unfold read_exact. destruct (Nat.leb_spec n (length (sm_rx s))); intros [= <- <-]; cbn.
  - rewrite length_drop. split; [lia|]. intros. lia.
  - split; [lia|done].
Qed.

Lemma read_frame_rx s f s' : read_frame s = (GotFrame f, s') -> (length s'.(sm_rx) < length s.(sm_rx))%nat.
Proof.
  unfold read_frame. destruct (read_exact 4 s) as [[len_buf|[]] s1] eqn:E1; try done.
  apply read_exact_rx in E1 as [_ E1]. specialize (E1 _ eq_refl). destruct (_ <? _); [done|].
  destruct (read_exact _ s1) as [[body|kind] s2] eqn:E2; [|done]. apply read_exact_rx in E2 as [E2 _].
  destruct (frame_decode body); [|done]. intros [= _ <-]. lia.
Qed.

Lemma write_frame_rx f s : (snd (write_frame f s)).(sm_rx) = s.(sm_rx).
Proof. unfold write_frame. by destruct (sm_writable s). Qed.

Lemma call_loop_fuel deadline call_id fuel : forall phase s,
  (length s.(sm_rx) < fuel)%nat -> fst (fst (call_loop fuel deadline call_id phase s)) <> inr CallOutOfFuel.
Proof.
  induction fuel as [|fuel IH]; intros phase s Hf; [lia|]. cbn [call_loop].
  destruct (arm_timeout deadline call_id s) as [[[]|e] s1] eqn:Ha; [|done].
  assert (Hs1 : s1 = tick s) by (unfold arm_timeout in Ha; by injection Ha).
  destruct (read_frame s1) as [[f| |e [[]|]] s2] eqn:Hr; try done.
  apply read_frame_rx in Hr. rewrite Hs1 in Hr. cbn [tick sm_rx] in Hr.
  destruct (accept_inbound phase f) as [ph|e]; [|done].
  destruct f as [[b|h|r|r|cid|nonce|nonce|reason]|]; try (apply IH; lia).
  - case_bool_decide; [done|apply IH; lia].
  - case_bool_decide; [done|apply IH; lia].
  - apply IH. rewrite write_frame_rx. lia.
Qed.

(** A call always ends: on whatever bytes the peer has sent, within one turn
    per byte and one more. *)
Theorem dispatch_terminates phase request deadline s :
  fst (fst (dispatch_call phase request deadline s)) <> inr CallOutOfFuel.
Proof.
  unfold dispatch_call. destruct (write_frame _ s) as [[u|e] s1] eqn:Hw; [|done]. apply call_loop_fuel. unfold loop_fuel. lia.
Qed.

Lemma check_field_ok field got want u : check_field field got want = Ok u -> got = want.
Proof. unfold check_field. by case_bool_decide. Qed.

(** The handshake pins the identity: it succeeds only when the first frame
    the child sends is a hello with exactly the instance, adapter, version,
    bundle digest and protocol the supervisor expects, after the bootstrap was
    sent; every other reply fails, and the identity is never taken from it. *)
Theorem handshake_pins_identity `{!Ext} expected nonce timeout s hello s' :
  handshake expected nonce timeout s = (Ok hello, s') ->
  (exists s1 s2, write_frame (bootstrap_frame expected nonce) s = (Ok tt, s1) /\ read_frame s1 = (GotFrame (Some (BodyHello hello)), s2)) /\
  hello.(ah_adapter_instance_id) = expected.(ei_adapter_instance_id) /\ hello.(ah_adapter_id) = expected.(ei_adapter_id) /\
  hello.(ah_adapter_version) = expected.(ei_adapter_version) /\ hello.(ah_bundle_digest) = expected.(ei_expected_bundle_digest) /\
  hello.(ah_protocol_version) = expected.(ei_protocol_version).
Proof.
  unfold handshake. destruct (timeout =? 0); [done|]. destruct (write_frame _ s) as [[[]|e] s1] eqn:Hw; [|done].
  destruct (read_frame s1) as [[reply| |e source] s2] eqn:Hr; [|done|done]. intros [= E _].
  apply res_bind_ok_inv in E as (ph & _ & E). destruct reply as [[b|h|r|r|cid|n|n|reason]|]; try done.
  apply res_bind_ok_inv in E as (u & Hv & [= ->]). split; [by eauto|].
  unfold verify_hello in Hv. apply res_bind_ok_inv in Hv as (u1 & F1%check_field_ok & Hv).
  apply res_bind_ok_inv in Hv as (u2 & F2%check_field_ok & Hv). apply res_bind_ok_inv in Hv as (u3 & F3%check_field_ok & Hv).
  apply res_bind_ok_inv in Hv as (u4 & F4%check_field_ok & Hv). destruct (Z.eqb_spec (ah_protocol_version hello) (ei_protocol_version expected)); done.
Qed.

(** A stream that ends inside a length prefix reads as a clean end. *)
Lemma truncated_prefix_is_clean s :
  (length s.(sm_rx) < 4)%nat -> s.(sm_end) = Closed -> fst (read_frame s) = CleanEof.
Proof.
  intros Hl He. unfold read_frame, read_exact. rewrite (proj2 (Nat.leb_gt _ _)) by lia. by rewrite He.
Qed.

(** A call whose deadline has passed when it starts to wait sends no cancellation. *)
Lemma expired_call_sends_no_cancel phase request deadline s :
  deadline < instant_now s.(sm_clock) -> s.(sm_writable) = true ->
  let '(answer, _, s') := dispatch_call phase request deadline s in
  answer = inr (CallKernel (deadline_exceeded request.(pq_call_id))) /\
  s'.(sm_tx) = (s.(sm_tx) ++ encode_frame (Some (BodyRequest request)))%list.
Proof.
  intros Hd Hw. unfold dispatch_call, write_frame. rewrite Hw. unfold loop_fuel. cbn [call_loop]. unfold arm_timeout.
  cbn [write_all sm_clock]. by rewrite (proj2 (Z.ltb_lt _ _)) by lia.
Qed.
End Order.
