(* ===== verification/Supervisor.v ===== *)
(** * Process supervision and the sandbox ([process-supervisor/src/spawn.rs],
    [child.rs], [sandbox/src/manager.rs], [local_process.rs])

    The command line of an isolated child, its start identity and exit reason,
    the durable record of an adapter instance, sandbox resolution, the lease gate
    of an execution and the capped capture of output.  Spawning, signals and
    waiting are left to the operating system. *)

From S2P Require Import Prelude Domain Ids Text Models StoreBase Store ExtensionStore Workspace Resolver.

Open Scope string_scope.
Open Scope Z_scope.

(** ** Spawning ([spawn.rs]) *)

Inductive Isolation := IsolationNone | UserNamespace (network : bool).

Definition unshare_probe (network : bool) : list string :=
  (["unshare"; "--user"; "--map-root-user"; "--ipc"] ++ (if network then [] else ["--net"]) ++ ["true"])%list.

(** The command [spawn] builds; [available] is whether the probe ran and
    succeeded. *)
Definition spawn_command (isolation : Isolation) (executable : string) (argv : list string)
    (available : list string -> bool) : Res (list string) :=
  match isolation with
  | IsolationNone => Ok (executable :: argv)
  | UserNamespace network =>
      if negb (available (unshare_probe network)) then
        Err (kerr FailedPrecondition "user-namespace isolation unavailable on this host")
      else
        Ok (["unshare"; "--user"; "--map-root-user"; "--ipc"; "--kill-child"] ++ (if network then [] else ["--net"]) ++
            executable :: argv)%list
  end.

Inductive ExitReason := Exited (code : Z) | Signaled (signal : Z) | Undetermined.

Definition exit_reason_to_string (r : ExitReason) : string :=
  match r with
  | Exited code => "exit:" +:+ i64_to_string code
  | Signaled sig => "signal:" +:+ i64_to_string sig
  | Undetermined => "undetermined"
  end.

(** [try_wait]: an exit status has a code or a signal. *)
Record ExitStatus := mkExitStatus { xs_code : option Z; xs_signal : option Z }.

Definition exit_reason (status : option ExitStatus) : ExitReason :=
  match status with
  | Some status =>
      match status.(xs_code) with
      | Some code => Exited code
      | None => match status.(xs_signal) with Some sig => Signaled sig | None => Undetermined end
      end
  | None => Undetermined
  end.

(** [process_start_identity] on Linux: [stat] is the text of [/proc/<pid>/stat],
    [own] the supervisor's pid. *)
Definition process_start_identity (pid own : Z) (stat : option string) : string :=
  let fallback := u64_to_string pid +:+ ":" +:+ u64_to_string own in
  match stat with
  | None => fallback
  | Some stat =>
      let start := match rsplit_once ")" stat with Some (_, r) => r | None => stat end in
      match split_whitespace start !! 20%nat with
      | Some ticks => u64_to_string pid +:+ ":" +:+ ticks
      | None => fallback
      end
  end.

(** ** Instance records ([child.rs]) *)

Definition STARTING : string := "starting".
Definition READY : string := "ready".
Definition EXITED : string := "exited".
Definition INSTANCE_FAILED : string := "failed".

(** The fields of [SpawnSpec] and [Child] the record keeps. *)
Record SpawnedChild := mkSpawnedChild {
  sc_adapter_instance_id : AdapterInstanceId;
  sc_adapter_id : AdapterId;
  sc_adapter_version : string;
  sc_expected_bundle_digest : string;
  sc_daemon_instance_id : DaemonInstanceId;
  sc_pid : Z;
  sc_start_identity : string }.

Definition record_spawn (c : SpawnedChild) (now_ms : Z) : M unit :=
  adapters_insert_instance (NewAdapterInstance.mk c.(sc_adapter_instance_id) c.(sc_adapter_id) c.(sc_adapter_version)
    c.(sc_expected_bundle_digest) c.(sc_daemon_instance_id) (Some c.(sc_pid)) (Some c.(sc_start_identity)) STARTING None
    (Some now_ms) now_ms None).

Section Instances.
Context `{!Ext}.

Definition state_conflict (instance : AdapterInstanceId) : KernelError :=
  mkKernelError Conflict RetrySafe ("adapter instance " +:+ uuid_hyphenated instance +:+ " lost a state race").

Definition mark_ready (instance : AdapterInstanceId) (now_ms : Z) : M unit :=
  let! moved := adapters_cas_instance_state instance STARTING
    (AdapterInstanceStatePatch.mk (Some READY) None (Some now_ms) None) in
  guard! moved else state_conflict instance in
  ret tt.

(** [cas(READY)? || cas(STARTING)?]. *)
Definition end_instance (instance : AdapterInstanceId) (patch : AdapterInstanceStatePatch) : M unit :=
  let! from_ready := adapters_cas_instance_state instance READY patch in
  let! moved := if from_ready then ret true else adapters_cas_instance_state instance STARTING patch in
  guard! moved else state_conflict instance in
  ret tt.

Definition mark_exited (instance : AdapterInstanceId) (reason : ExitReason) (now_ms : Z) : M unit :=
  end_instance instance (AdapterInstanceStatePatch.mk (Some EXITED) (Some (exit_reason_to_string reason)) None (Some now_ms)).

Definition mark_failed (instance : AdapterInstanceId) (reason : string) (now_ms : Z) : M unit :=
  end_instance instance (AdapterInstanceStatePatch.mk (Some INSTANCE_FAILED) (Some reason) None (Some now_ms)).

Definition heartbeat (instance : AdapterInstanceId) (state : string) (now_ms : Z) : M unit :=
  let! moved := adapters_cas_instance_state instance state (AdapterInstanceStatePatch.mk None None (Some now_ms) None) in
  guard! moved else state_conflict instance in
  ret tt.

(** ** The sandbox manager ([manager.rs]) *)

Definition T0_CAPABILITIES : list string :=
  ["sandbox.exec"; "sandbox.env_allowlist"; "sandbox.deadline"; "sandbox.capture_output"].

Record SandboxInstance := mkSandboxInstance {
  sb_tier : SandboxTier; sb_kind : string; sb_negotiated_capabilities : list string; sb_is_security_boundary : bool }.

Definition resolve_sandbox (tier : SandboxTier) (candidates : list Candidate) : Res SandboxInstance :=
  match tier with
  | T0 => Ok (mkSandboxInstance tier "local-process-t0" T0_CAPABILITIES false)
  | _ =>
      match resolve_port (mkPortRequirement "sandbox" 1 [] tier None true) candidates [] with
      | Err _ => Err (kerr FailedPrecondition ("capability unsupported: no adapter passes sandbox tier " +:+ tier_debug tier))
      | Ok resolved =>
          Ok (mkSandboxInstance tier (uuid_hyphenated resolved.(rs_adapter_id) +:+ "@" +:+ resolved.(rs_version))
                resolved.(rs_negotiated_capabilities) (tier_rank T2 <=? tier_rank tier)%nat)
      end
  end.

(** [exec_in_workspace]; [exec] is the run of the process. *)
Definition exec_in_workspace {Spec Outcome} (exec : Spec -> Res Outcome) (spec : Spec) (workspace : WorkspaceId)
    (lease_id : LeaseId) (owner : RunId) (lease_epoch : Z) : M Outcome := fun t =>
  match verify_write_authority lease_id workspace owner lease_epoch t with
  | (Err e, t') => (Err (kerr e.(err_code) ("workspace lease gate denied exec: " +:+ e.(err_message))), t')
  | (Ok _, t') => (exec spec, t')
  end.
End Instances.

(** ** Captured output ([local_process.rs]) *)

(** [read_capped] over the chunks a pipe yields until its end. *)
Fixpoint read_capped (cap : nat) (buf : bytes) (truncated : bool) (chunks : list bytes) : bytes * bool :=
  match chunks with
  | [] => (buf, truncated)
  | chunk :: chunks =>
      if (cap <? length buf + length chunk)%nat
      then read_capped cap (buf ++ take (cap - length buf) chunk)%list true chunks
      else read_capped cap (buf ++ chunk)%list truncated chunks
  end.

(** ** Captured output is a prefix *)

Lemma read_capped_from cap chunks : forall pre,
  read_capped cap (take cap pre) (cap <? length pre)%nat chunks =
  (take cap (pre ++ concat chunks), (cap <? length (pre ++ concat chunks))%nat).
Proof.
  induction chunks as [|c chunks IH]; intros pre; cbn [read_capped concat]; [by rewrite app_nil_r|].
  rewrite app_assoc, <- IH, length_take. destruct (Nat.ltb_spec cap (cap `min` length pre + length c)).
  - replace (take cap pre ++ take (cap - cap `min` length pre) c)%list with (take cap (pre ++ c)).
    + f_equal. symmetry. apply Nat.ltb_lt. rewrite length_app. lia.
    + rewrite take_app. f_equal. destruct (Nat.le_ge_cases cap (length pre)).
      * by replace (cap - length pre)%nat with (cap - cap `min` length pre)%nat by lia.
      * by replace (Nat.min cap (length pre)) with (length pre) by lia.
  - f_equal.
    + rewrite take_app, (take_ge c) by lia. done.
    + rewrite length_app. destruct (Nat.ltb_spec cap (length pre)), (Nat.ltb_spec cap (length pre + length c)); lia.
Qed.

(** Captured output is exact: however the pipe splits the output into chunks,
    the first [cap] bytes of it are kept, and truncation is reported exactly when
    there were more. *)
Theorem captured_output_exact cap chunks :
  read_capped cap [] false chunks = (take cap (concat chunks), (cap <? length (concat chunks))%nat).
Proof. pose proof (read_capped_from cap chunks []) as E. by rewrite take_nil in E. Qed.

(** ** Instances only move forward *)

Definition ended (r : AdapterInstanceRow) : Prop :=
  r.(AdapterInstanceRow.state) = EXITED \/ r.(AdapterInstanceRow.state) = INSTANCE_FAILED.

(** A later version of a record: the identity stays, an ended instance keeps
    how it ended, and a state changes from starting to ready or to an end only. *)
Definition instance_later (r r' : AdapterInstanceRow) : Prop :=
  r'.(AdapterInstanceRow.adapter_instance_id) = r.(AdapterInstanceRow.adapter_instance_id) /\
  r'.(AdapterInstanceRow.adapter_id) = r.(AdapterInstanceRow.adapter_id) /\
  r'.(AdapterInstanceRow.adapter_version) = r.(AdapterInstanceRow.adapter_version) /\
  r'.(AdapterInstanceRow.bundle_digest) = r.(AdapterInstanceRow.bundle_digest) /\
  r'.(AdapterInstanceRow.daemon_instance_id) = r.(AdapterInstanceRow.daemon_instance_id) /\
  r'.(AdapterInstanceRow.pid) = r.(AdapterInstanceRow.pid) /\
  r'.(AdapterInstanceRow.process_start_identity) = r.(AdapterInstanceRow.process_start_identity) /\
  (ended r -> r'.(AdapterInstanceRow.state) = r.(AdapterInstanceRow.state) /\
     r'.(AdapterInstanceRow.exit_reason) = r.(AdapterInstanceRow.exit_reason) /\
     r'.(AdapterInstanceRow.ended_at_ms) = r.(AdapterInstanceRow.ended_at_ms)) /\
  (r.(AdapterInstanceRow.state) = READY -> r'.(AdapterInstanceRow.state) = READY \/ ended r').

#[export] Instance instance_later_preorder : PreOrder instance_later.
Proof.
  split; [by intros r; split_and!; auto|].
  intros r1 r2 r3 (A1 & B1 & C1 & D1 & E1 & F1 & G1 & H1 & I1) (A2 & B2 & C2 & D2 & E2 & F2 & G2 & H2 & I2).
  split_and!; try congruence.
  - intros Hr. destruct (H1 Hr) as (S1 & X1 & Y1). assert (Hr2 : ended r2) by (unfold ended in *; by rewrite S1).
    destruct (H2 Hr2) as (S2 & X2 & Y2). split_and!; congruence.
  - intros Hr. destruct (I1 Hr) as [Hr2|Hr2]; [by apply I2|right]. destruct (H2 Hr2) as (S2 & _). unfold ended in *. by rewrite S2.
Qed.

Definition instances_later (d d' : Db) : Prop := forall id r, d.(adapter_instances) !! id = Some r ->
  exists r', d'.(adapter_instances) !! id = Some r' /\ instance_later r r'.

#[export] Instance instances_later_preorder : PreOrder instances_later.
Proof.
  split; [intros d id r Hr; by exists r|]. intros d1 d2 d3 R1 R2 id r Hr.
  destruct (R1 _ _ Hr) as (r2 & H2 & L2). destruct (R2 _ _ H2) as (r3 & H3 & L3). exists r3. split; [done|]. by transitivity r2.
Qed.

Lemma cas_instance_ok id e p t b t' :
  adapters_cas_instance_state id e p t = (Ok b, t') ->
  (b = false /\ t' = t) \/
  (b = true /\ exists r, t.(t_db).(adapter_instances) !! id = Some r /\ r.(AdapterInstanceRow.state) = e /\
     t' = set_db (set_adapter_instances (<[id := apply_instance_patch p r]> t.(t_db).(adapter_instances)) t.(t_db)) t).
Proof.
  unfold adapters_cas_instance_state. intros E. inv_store; try (by left). right. split; [done|].
  eexists. split; [reflexivity|]. split; [by eapply bool_decide_eq_true_1|done].
Qed.

(** A patch that respects the lifecycle when it applies in state [e]. *)
Definition lifecycle_patch (e : string) (p : AdapterInstanceStatePatch) : Prop :=
  forall r, r.(AdapterInstanceRow.state) = e -> instance_later r (apply_instance_patch p r).

Lemma cas_instance_later id e p : lifecycle_patch e p -> ensures (on_db instances_later) (adapters_cas_instance_state id e p).
Proof.
  intros Hp t b t' [[_ ->]|(_ & r & Hr & He & ->)]%cas_instance_ok; [split; reflexivity|]. split; [|done]. cbn.
  intros i x Hx. cbn. destruct (decide (i = id)) as [->|Hne].
  - exists (apply_instance_patch p r). rewrite lookup_insert_eq. split; [done|]. simplify_eq. by apply Hp.
  - exists x. by rewrite lookup_insert_ne.
Qed.

Lemma lifecycle_ready now : lifecycle_patch STARTING (AdapterInstanceStatePatch.mk (Some READY) None (Some now) None).
Proof.
  intros r Hr. unfold instance_later, ended. cbn. rewrite Hr. split_and!; try done. by intros [|].
Qed.

Lemma lifecycle_end e s reason now : (e = READY \/ e = STARTING) -> (s = EXITED \/ s = INSTANCE_FAILED) ->
  lifecycle_patch e (AdapterInstanceStatePatch.mk (Some s) (Some reason) None (Some now)).
Proof.
  intros He Hs r Hr. unfold instance_later, ended. cbn. rewrite Hr. split_and!; try done.
  - intros [-> | ->]; by destruct He.
  - intros _. right. by destruct Hs as [-> | ->]; auto.
Qed.

Lemma lifecycle_beat e now : lifecycle_patch e (AdapterInstanceStatePatch.mk None None (Some now) None).
Proof. intros r Hr. unfold instance_later. cbn. split_and!; try done. auto. Qed.

Section Lifecycle.
Context `{!Ext}.

Inductive instance_service : M unit -> Prop :=
  | is_spawn c now : instance_service (record_spawn c now)
  | is_ready i now : instance_service (mark_ready i now)
  | is_exited i r now : instance_service (mark_exited i r now)
  | is_failed i r now : instance_service (mark_failed i r now)
  | is_beat i s now : instance_service (heartbeat i s now).

Lemma end_instance_later i s reason now : s = EXITED \/ s = INSTANCE_FAILED ->
  ensures (on_db instances_later) (end_instance i (AdapterInstanceStatePatch.mk (Some s) (Some reason) None (Some now))).
Proof.
  intros Hs. unfold end_instance. apply ensures_bind; [apply _|apply cas_instance_later, lifecycle_end; auto|].
  intros b. apply ensures_bind; [apply _| |intros m; solve_ensures].
  destruct b; [solve_ensures|]. apply cas_instance_later, lifecycle_end; auto.
Qed.

Lemma record_spawn_later c now : ensures (on_db instances_later) (record_spawn c now).
Proof.
  intros t u t' E. unfold record_spawn, adapters_insert_instance in E. inv_store. split; [|done]. cbn.
  intros i r Hr. exists r. rename select (absent _ _ = true) into Ha. apply absent_true in Ha. cbn in *.
  rewrite lookup_insert_ne by congruence. done.
Qed.

Lemma instance_service_later m : instance_service m -> ensures (on_db instances_later) m.
Proof.
  destruct 1 as [c now|i now|i r now|i r now|i s now].
  - apply record_spawn_later.
  - unfold mark_ready. apply ensures_bind; [apply _|apply cas_instance_later, lifecycle_ready|intros b; solve_ensures].
  - apply end_instance_later. auto.
  - apply end_instance_later. auto.
  - unfold heartbeat. apply ensures_bind; [apply _|apply cas_instance_later, lifecycle_beat|intros b; solve_ensures].
Qed.

Inductive instance_step (d d' : Db) : Prop :=
  | instance_step_service m t u t' : instance_service m -> m t = (Ok u, t') -> t.(t_db) = d -> t'.(t_db) = d' -> instance_step d d'
  | instance_step_elsewhere : d'.(adapter_instances) = d.(adapter_instances) -> instance_step d d'.

(** An adapter instance only moves forward: whatever the supervisor records
    afterwards, a stored instance keeps its adapter, bundle, daemon and process
    identity, leaves ready only for an end, and once it has ended keeps its
    state, reason and time; so a restart cannot revive it. *)
Theorem instance_never_revived d d' id r :
  rtc instance_step d d' -> d.(adapter_instances) !! id = Some r ->
  exists r', d'.(adapter_instances) !! id = Some r' /\ instance_later r r'.
Proof.
  intros Hs. revert id r. change (instances_later d d'). induction Hs as [|d1 d2 d3 Hs _ IH]; [done|]. transitivity d2; [|done].
  destruct Hs as [m t u t' Hm E <- <-|E]; [by apply (instance_service_later m Hm _ _ _ E)|].
  intros id r Hr. exists r. by rewrite E.
Qed.

(** ** Sandboxes *)

Lemma sandbox_adapter tier candidates r : (tier_rank T0 < tier_rank tier)%nat ->
  resolve_port (mkPortRequirement "sandbox" 1 [] tier None true) candidates [] = Ok r ->
  exists c, c ∈ candidates /\ hosts_tier c.(ca_capabilities) tier = true /\
    c.(ca_row).(AdapterRegistrationRow.trust_state) = TrustState.Trusted /\
    c.(ca_row).(AdapterRegistrationRow.conformance_state) = ConformanceState.Passed /\
    r.(rs_negotiated_capabilities) = capability_names c.(ca_capabilities).
Proof.
  intros Ht (c & port & Hc & He & _ & _ & ->)%resolve_port_ok. exists c. cbn.
  unfold eligible in He. cbn in He. rewrite !andb_true_iff, !orb_true_iff in He.
  destruct He as ((((((_ & _) & Hh) & Htrust) & _) & _) & Hpass).
  destruct Htrust as [Hz%Nat.leb_le|Htrust%bool_decide_eq_true_1]; [lia|].
  by apply bool_decide_eq_true_1 in Hpass.
Qed.

Lemma hosts_tier_demands set tier cap : (tier_rank T2 <= tier_rank tier)%nat -> hosts_tier set tier = true ->
  cap ∈ REQUIRED_FOR_T2 -> cap ∈ capability_names set.
Proof.
  intros Ht Hh Hcap. apply capability_names_elem. assert (Hs : satisfies set REQUIRED_FOR_T2 = true).
  { destruct tier; cbn in Ht; [lia|lia|exact Hh|exact Hh]. }
  unfold satisfies in Hs. rewrite forallb_forall in Hs.
  by apply (bool_decide_eq_true_1 _ (Hs cap (proj1 (list_elem_of_In _ _) Hcap))).
Qed.

(** Sandbox resolution never falls back: a tier above T0 is granted only by a
    registered adapter that is trusted, has passed conformance and hosts that
    tier; only T2 and above are called a security boundary, and then the adapter
    declares every capability the tier demands. *)
Theorem sandbox_never_falls_back tier candidates inst :
  resolve_sandbox tier candidates = Ok inst ->
  inst.(sb_tier) = tier /\ (inst.(sb_is_security_boundary) = true <-> tier = T2 \/ tier = T3) /\
  (tier <> T0 -> exists c, c ∈ candidates /\ hosts_tier c.(ca_capabilities) tier = true /\
     c.(ca_row).(AdapterRegistrationRow.trust_state) = TrustState.Trusted /\
     c.(ca_row).(AdapterRegistrationRow.conformance_state) = ConformanceState.Passed /\
     (inst.(sb_is_security_boundary) = true -> forall cap, cap ∈ REQUIRED_FOR_T2 -> cap ∈ inst.(sb_negotiated_capabilities))).
Proof.
  destruct tier; unfold resolve_sandbox; [intros [= <-]; cbn; split_and!; [done|split; [done|by intros [|]]|done]| | |];
    destruct (resolve_port _ _ _) as [r|] eqn:E; [|done| |done| |done]; intros [= <-]; cbn;
    (split_and!; [done|split; first [done|by auto|by intros [|]]|]); intros _;
    (apply sandbox_adapter in E as (c & Hc & Hh & Ht & Hp & Hr); [|cbn; lia]); exists c; split_and!; try done.
  - intros _ cap Hcap. rewrite Hr. apply (hosts_tier_demands _ T2); [cbn; lia|done|done].
  - intros _ cap Hcap. rewrite Hr. apply (hosts_tier_demands _ T3); [cbn; lia|done|done].
Qed.

(** A command runs in a workspace only under the current lease: unless the
    presented token is that of the active exclusive lease, the refusal is the
    same whatever the command would do, so that it is not run. *)
Theorem execution_needs_lease {Spec Outcome} (exec : Spec -> Res Outcome) spec w l o e t :
  (exec_in_workspace exec spec w l o e t = (exec spec, t) /\
   exists r, t.(t_db).(workspace_leases) !! l = Some r /\ lease_grants r w o e) \/
  (exists err, forall (exec' : Spec -> Res Outcome), exec_in_workspace exec' spec w l o e t = (Err err, t)).
Proof.
  unfold exec_in_workspace. destruct (verify_write_authority l w o e t) as [[u|err] t'] eqn:E.
  - apply verify_ok in E as (-> & r & Hr & Hg). left. eauto.
  - right. assert (t' = t) as ->; [|eauto]. revert E. unfold verify_write_authority, leases_get, bind, query, gets, lift_res.
    destruct (opt_traverse _ _) as [[x|]|]; cbn; [|congruence|congruence]. destruct (_ && _); cbn; unfold ret, raise; congruence.
Qed.
End Lifecycle.

(** ** The start identity *)

(** Fields of [/proc/<pid>/stat] after the command name: printable, without
    spaces or parentheses. *)
Definition stat_byte (c : ascii) : bool :=
  (33 <=? Z.of_N (N_of_ascii c)) && (Z.of_N (N_of_ascii c) <=? 126) && negb (bool_decide (c = ")"%char)).
Definition stat_field (w : string) : bool := negb (String.eqb w "") && str_all stat_byte w.

Lemma stat_byte_not_space c rest : stat_byte c = true -> strip_any strip_prefix WHITESPACE (String c rest) = None.
Proof.
  destruct c as [[] [] [] [] [] [] [] []]; vm_compute; done.
Qed.

Lemma stat_field_inv w : stat_field w = true -> exists c w', w = String c w' /\ stat_byte c = true /\ str_all stat_byte w' = true.
Proof.
  unfold stat_field. destruct w as [|c w']; [done|]. cbn. intros H. apply andb_true_iff in H as [Hc Hw]. eauto.
Qed.

(** The line of a process: its fields after the name, numbered from 3 by [proc(5)]. *)
Definition stat_tail (fields : list string) : string := foldr (fun w s => String " " (w +:+ s)) (String "010" "") fields.
Definition stat_line (pid : Z) (comm : string) (fields : list string) : string :=
  u64_to_string pid +:+ " (" +:+ comm +:+ String ")" (stat_tail fields).
Definition stat_number (n : nat) (fields : list string) : option string := fields !! (n - 3)%nat.

Lemma stat_tail_space fields : exists c rest, stat_tail fields = String c rest /\
  strip_any strip_prefix WHITESPACE (String c rest) = Some rest /\ c <> ")"%char.
Proof. destruct fields as [|w fields]; cbn [stat_tail foldr]; eexists _, _; split_and!; reflexivity || done. Qed.

Lemma take_word_field w fields : str_all stat_byte w = true -> take_word (w +:+ stat_tail fields) = (w, stat_tail fields).
Proof.
  induction w as [|c w IH]; intros Hw.
  - rewrite app_nil_str. destruct (stat_tail_space fields) as (c & rest & -> & E & _). cbn [take_word]. by rewrite E.
  - apply andb_true_iff in Hw as [Hc Hw]. rewrite app_cons_str. cbn [take_word].
    rewrite stat_byte_not_space by done. by rewrite IH.
Qed.

Lemma split_words_tail fields n : Forall (fun w => stat_field w = true) fields -> (length fields < n)%nat ->
  split_words n (stat_tail fields) = fields.
Proof.
  intros Hf. revert n. induction Hf as [|w fields Hw Hf IH]; intros [|n] Hn; try (cbn in Hn; lia); [done|].
  apply stat_field_inv in Hw as (c & w' & -> & Hc & Hw). cbn [split_words stat_tail foldr].
  change (foldr _ _ fields) with (stat_tail fields). cbn [String.length trim_with]. rewrite app_cons_str.
  replace (strip_any strip_prefix WHITESPACE (String " " (String c (w' +:+ stat_tail fields))))
    with (Some (String c (w' +:+ stat_tail fields))) by reflexivity.
  cbn [String.length trim_with]. rewrite stat_byte_not_space by done. cbn [String.eqb].
  rewrite <- app_cons_str, take_word_field by (by apply andb_true_iff). rewrite IH by (cbn in Hn; lia). done.
Qed.

Lemma stat_tail_length fields : (length fields <= String.length (stat_tail fields))%nat.
Proof.
  induction fields as [|w fields IH]; cbn [length stat_tail foldr String.length]; [lia|].
  change (foldr _ _ fields) with (stat_tail fields). rewrite str_length_app. lia.
Qed.

Lemma stat_tail_no_paren fields : Forall (fun w => stat_field w = true) fields -> no_byte ")" (stat_tail fields) = true.
Proof.
  induction 1 as [|w fields Hw Hf IH]; [reflexivity|]. cbn [stat_tail foldr]. apply no_byte_cons. split; [done|].
  change (foldr _ _ fields) with (stat_tail fields). apply stat_field_inv in Hw as (c & w' & -> & Hc & Hw).
  assert (Hcw : str_all stat_byte (String c w') = true) by (by apply andb_true_iff). clear Hc Hw. revert Hcw.
  generalize (String c w'). intros u. induction u as [|a u IHu]; intros Hu; [by rewrite app_nil_str|].
  apply andb_true_iff in Hu as [Ha Hu]. rewrite app_cons_str. apply no_byte_cons. split; [|by apply IHu].
  unfold stat_byte in Ha. rewrite !andb_true_iff in Ha. destruct Ha as [_ Ha]. by apply negb_true_iff, bool_decide_eq_false in Ha.
Qed.

Lemma start_identity_field pid own comm fields :
  Forall (fun w => stat_field w = true) fields ->
  process_start_identity pid own (Some (stat_line pid comm fields)) =
  match stat_number 23 fields with
  | Some v => u64_to_string pid +:+ ":" +:+ v
  | None => u64_to_string pid +:+ ":" +:+ u64_to_string own
  end.
Proof.
  intros Hf. unfold process_start_identity, stat_number, stat_line. cbn [Nat.sub].
  rewrite (proj2 (rsplit_once_spec ")" _ (u64_to_string pid +:+ " (" +:+ comm) (stat_tail fields))).
  - unfold split_whitespace. pose proof (stat_tail_length fields). by rewrite split_words_tail by (done || lia).
  - split; [by rewrite !app_assoc_str|by apply stat_tail_no_paren].
Qed.

(** The start identity of a process does not hold its start time: it is the
    number of the process with field 23 of its status line, the size of its
    address space, so that a reused number whose process has the same size has
    the same identity, whenever either was started. *)
Theorem start_identity_ignores_start_time pid own comm comm' fields fields' :
  Forall (fun w => stat_field w = true) fields -> Forall (fun w => stat_field w = true) fields' ->
  stat_number 23 fields = stat_number 23 fields' ->
  process_start_identity pid own (Some (stat_line pid comm fields)) =
  process_start_identity pid own (Some (stat_line pid comm' fields')).
Proof. intros Hf Hf' E. by rewrite !start_identity_field, E. Qed.
