(* ===== verification/Artifacts.v ===== *)
(** * Artifacts ([artifacts/src/local.rs])

    The local artifact store: content in files below an app-owned root, one per
    artifact, and metadata rows in the kernel store.  The root is a map from the
    path relative to it to the content of the file; which disk operations fail,
    the name of a temporary file and where a crash strikes are left open. *)

From S2P Require Import Prelude Domain Ids Text Models StoreBase Store ExtensionStore EffectPolicy Effects.

Open Scope string_scope.
Open Scope Z_scope.

Definition artifact_error (code : ErrorCode) (msg : string) : KernelError := kerr code msg.
Definition artifact_io_error (op : string) : KernelError :=
  mkKernelError Unavailable RetrySafe ("artifact " +:+ op +:+ " failed").

Record PutMetadata := mkPutMetadata {
  pm_media_type : string;
  pm_sensitivity : SensitivityClass;
  pm_retention : RetentionClass;
  pm_origin_effect_id : option EffectId }.

(** The files below the root, and which disk operations succeed. *)
Abbreviation ArtifactDir := (gmap string bytes).
Inductive DiskOp := OpTempFile | OpWrite | OpFsync | OpPersist | OpRead | OpRemove.
Definition Disk : Type := DiskOp -> bool.

Abbreviation AM := (ST (ArtifactDir * Txn)).

Definition in_txn {A} (m : M A) : AM A := fun '(dir, t) => let '(r, t') := m t in (r, (dir, t')).

(** [write_atomic]: the temporary file is dropped on every error. *)
Definition write_atomic (disk : Disk) (path : string) (data : bytes) : AM unit :=
  guard! disk OpTempFile else artifact_io_error "tempfile" in
  guard! disk OpWrite else artifact_io_error "write" in
  guard! disk OpFsync else artifact_io_error "fsync" in
  guard! disk OpPersist else artifact_error Unavailable "artifact rename failed" in
  modify (fun '(dir, t) => (<[path := data]> dir, t)).

Section Artifacts.
Context `{!Ext}.

Definition content_digest (data : bytes) : string := "sha256:" +:+ hex_lower (sha256 data).

Definition locator (id : ArtifactId) (digest : string) : string :=
  let hex := match strip_prefix "sha256:" digest with Some h => h | None => digest end in
  uuid_hyphenated id +:+ "." +:+ hex +:+ ".bin".

Definition artifact_uri (id : ArtifactId) : string := "artifact://" +:+ uuid_hyphenated id.

Definition put (disk : Disk) (id : ArtifactId) (data : bytes) (meta : PutMetadata) (origin_run : RunId) (now_ms : Z)
    : AM ArtifactRow :=
  let digest := content_digest data in
  let uri := artifact_uri id in
  let! existing := in_txn (artifacts_get_by_uri uri) in
  guard! bool_decide (existing = None) else artifact_error Conflict "artifact uri already exists" in
  let final_path := locator id digest in
  do! write_atomic disk final_path data in
  do! in_txn (artifacts_insert (NewArtifact.mk id uri digest meta.(pm_media_type) (Z.of_nat (length data))
        origin_run meta.(pm_origin_effect_id) meta.(pm_sensitivity) meta.(pm_retention) final_path now_ms)) in
  let! row := in_txn (artifacts_get_by_id id) in
  match row with
  | Some row => ret row
  | None => raise (artifact_error Internal "inserted artifact not visible")
  end.

Definition lookup_artifact (uri : string) : AM ArtifactRow :=
  let! row := in_txn (artifacts_get_by_uri uri) in
  match row with
  | Some row => ret row
  | None => raise (artifact_error NotFound "artifact not found")
  end.

Definition get (disk : Disk) (uri : string) : AM (ArtifactRow * bytes) :=
  let! row := lookup_artifact uri in
  let! file := gets (fun '(dir, _) => dir !! row.(ArtifactRow.locator)) in
  match (if disk OpRead then file else None) with
  | None => raise (artifact_io_error "read")
  | Some data =>
      guard! bool_decide (content_digest data = row.(ArtifactRow.digest))
        else artifact_error FailedPrecondition "artifact content digest mismatch" in
      ret (row, data)
  end.

(** [get_range] on a 64-bit machine; [None] is a panic of the slice. *)
Definition range_of (data : bytes) (offset len : Z) : option bytes :=
  let start := Z.min offset (Z.of_nat (length data)) in
  let end_ := Z.min ((start + len) mod 2 ^ 64) (Z.of_nat (length data)) in
  if start <=? end_ then Some (take (Z.to_nat (end_ - start)) (drop (Z.to_nat start) data)) else None.

Definition get_range (disk : Disk) (uri : string) (offset len : Z) (s : ArtifactDir * Txn)
    : option (Res (ArtifactRow * bytes) * (ArtifactDir * Txn)) :=
  match get disk uri s with
  | (Err e, s') => Some (Err e, s')
  | (Ok (row, data), s') =>
      match range_of data offset len with
      | Some part => Some (Ok (row, part), s')
      | None => None
      end
  end.

Definition head (uri : string) : AM ArtifactRow := lookup_artifact uri.

Definition list_by_run (run : RunId) : AM (list ArtifactRow) := in_txn (artifacts_list_by_run run).

Definition delete (disk : Disk) (uri : string) : AM unit :=
  let! row := lookup_artifact uri in
  guard! bool_decide (row.(ArtifactRow.retention) = RetentionClass.Ephemeral)
    else artifact_error FailedPrecondition "artifact retention class forbids delete" in
  let! file := gets (fun '(dir, _) => dir !! row.(ArtifactRow.locator)) in
  match file with
  | None => ret tt
  | Some _ =>
      guard! disk OpRemove else artifact_io_error "delete" in
      modify (fun '(dir, t) => (base.delete row.(ArtifactRow.locator) dir, t))
  end.

(** ** What can happen to the store *)

(** Where a crash during a put leaves the files: before the temporary file,
    with part of the content in it, or after the rename. *)
Inductive crash_during_write (path : string) (data : bytes) (dir : ArtifactDir) : ArtifactDir -> Prop :=
  | crash_before : crash_during_write path data dir dir
  | crash_in_temp tmp n : dir !! (".tmp" +:+ tmp) = None ->
      crash_during_write path data dir (<[".tmp" +:+ tmp := take n data]> dir)
  | crash_after : crash_during_write path data dir (<[path := data]> dir).

Inductive artifact_step : ArtifactDir * Db -> ArtifactDir * Db -> Prop :=
  | step_put disk id data meta run now dir t row dir' t' :
      uuid_wf id -> put disk id data meta run now (dir, t) = (Ok row, (dir', t')) ->
      artifact_step (dir, t.(t_db)) (dir', t'.(t_db))
  | step_put_rolled_back disk id data meta run now dir t r dir' t' :
      uuid_wf id -> put disk id data meta run now (dir, t) = (r, (dir', t')) ->
      artifact_step (dir, t.(t_db)) (dir', t.(t_db))
  | step_put_crashed id data dir dir' t t' :
      uuid_wf id -> artifacts_get_by_uri (artifact_uri id) t = (Ok None, t') ->
      crash_during_write (locator id (content_digest data)) data dir dir' ->
      artifact_step (dir, t.(t_db)) (dir', t.(t_db))
  | step_delete disk uri dir t r dir' t' :
      delete disk uri (dir, t) = (r, (dir', t')) ->
      artifact_step (dir, t.(t_db)) (dir', t'.(t_db))
  | step_elsewhere dir d d' : d'.(artifacts) = d.(artifacts) -> artifact_step (dir, d) (dir, d').
End Artifacts.

(** ** Lemmas *)

Lemma in_txn_ok {A} (m : M A) dir t a s : in_txn m (dir, t) = (Ok a, s) -> exists t', m t = (Ok a, t') /\ s = (dir, t').
Proof. unfold in_txn. destruct (m t) as [r t']. intros [= -> <-]. eauto. Qed.

Lemma write_atomic_ok disk path data dir t u s :
  write_atomic disk path data (dir, t) = (Ok u, s) -> s = (<[path := data]> dir, t).
Proof. unfold write_atomic. repeat case_match; intros E; inv_ok; done. Qed.

Lemma write_atomic_err disk path data dir t e s :
  write_atomic disk path data (dir, t) = (Err e, s) -> s = (dir, t).
Proof. unfold write_atomic, raise, modify. repeat case_match; by intros [=]. Qed.

Lemma get_by_uri_eq uri t : artifacts_get_by_uri uri t =
  (Ok (list.head (select (fun r => bool_decide (r.(ArtifactRow.uri) = uri)) t.(t_db).(artifacts))), t).
Proof. reflexivity. Qed.

Lemma head_select_some {V} (p : V -> bool) (m : gmap N V) v :
  list.head (select p m) = Some v -> exists k, m !! k = Some v /\ p v = true.
Proof. intros E. apply elem_of_select. destruct (select p m); simplify_eq/=. by left. Qed.

Lemma head_select_none {V} (p : V -> bool) (m : gmap N V) k v :
  list.head (select p m) = None -> m !! k = Some v -> p v = false.
Proof.
  intros E Hk. destruct (p v) eqn:Hp; [|done]. assert (Hin : v ∈ select p m) by (apply elem_of_select; eauto).
  destruct (select p m); [by apply elem_of_nil in Hin|done].
Qed.

Lemma head_select_unique {V} (p : V -> bool) (m : gmap N V) k v :
  m !! k = Some v -> p v = true -> (forall k' v', m !! k' = Some v' -> p v' = true -> k' = k) ->
  list.head (select p m) = Some v.
Proof.
  intros Hk Hp Hu. destruct (list.head (select p m)) as [v'|] eqn:E.
  - apply head_select_some in E as (k' & Hk' & Hp'). rewrite (Hu _ _ Hk' Hp') in Hk'. congruence.
  - by rewrite (head_select_none _ _ _ _ E Hk) in Hp.
Qed.

(** ** Stored artifacts stay readable *)

Section Durability.
Context `{!Ext} {Htext : UuidForm}.

Lemma uuid_text_length u : uuid_wf u -> String.length (uuid_hyphenated u) = 36%nat.
Proof. intros Hu. apply uuid_text_canonical in Hu. apply andb_true_iff in Hu as [Hu _]. by apply Nat.eqb_eq in Hu. Qed.

Lemma str_app_inj_length a b c d : String.length a = String.length b -> a +:+ c = b +:+ d -> a = b.
Proof.
  revert b. induction a as [|x a IH]; intros [|y b] Hl E; try done.
  rewrite !app_cons_str in E. injection E as -> E. f_equal. apply IH; [by injection Hl|done].
Qed.

Lemma locator_id id id' dg dg' : uuid_wf id -> uuid_wf id' -> locator id dg = locator id' dg' -> id = id'.
Proof.
  unfold locator. intros Hu Hu' E. apply uuid_text_inj; [done..|]. eapply str_app_inj_length; [|exact E]. by rewrite !uuid_text_length.
Qed.

Lemma locator_not_temp id dg tmp : uuid_wf id -> locator id dg <> ".tmp" +:+ tmp.
Proof.
  unfold locator. intros Hu. apply uuid_text_canonical in Hu. destruct (uuid_hyphenated id) as [|c rest]; [done|].
  apply andb_true_iff in Hu as [_ Hu]. cbn in Hu. apply andb_true_iff in Hu as [Hu _]. rewrite app_cons_str. intros [= -> _]. done.
Qed.

Lemma artifact_uri_inj id id' : uuid_wf id -> uuid_wf id' -> artifact_uri id = artifact_uri id' -> id = id'.
Proof. intros Hu Hu' E. apply uuid_text_inj; [done..|]. unfold artifact_uri in E. by injection E. Qed.

(** Rows as [put] writes them. *)
Definition artifacts_wf (d : Db) : Prop := forall id r, d.(artifacts) !! id = Some r ->
  uuid_wf id /\ r.(ArtifactRow.artifact_id) = id /\ r.(ArtifactRow.uri) = artifact_uri id /\
  r.(ArtifactRow.locator) = locator id r.(ArtifactRow.digest).

Lemma put_inv disk id data meta run now dir t res dir' t' :
  put disk id data meta run now (dir, t) = (res, (dir', t')) ->
  (dir' = dir /\ exists e, res = Err e) \/
  (list.head (select (fun r => bool_decide (r.(ArtifactRow.uri) = artifact_uri id)) t.(t_db).(artifacts)) = None /\
   dir' = <[locator id (content_digest data) := data]> dir).
Proof.
  unfold put. intros E. unfold bind at 1, in_txn at 1 in E. rewrite get_by_uri_eq in E.
  destruct (list.head _) as [x|]; cbn in E; [left; injection E as <- <- <-; eauto|].
  unfold bind at 1 in E. destruct (write_atomic _ _ _ _) as [[u|e] s1] eqn:Hw.
  - right. split; [done|]. apply write_atomic_ok in Hw as ->. revert E. unfold bind, in_txn.
    destruct (artifacts_insert _ _) as [[?|?] t1]; [|by intros [= _ <- _]].
    destruct (artifacts_get_by_id _ _) as [[[?|]|?] t2]; by intros [= _ <- _].
  - left. apply write_atomic_err in Hw as ->. injection E as <- <- <-. eauto.
Qed.

Lemma put_ok disk id data meta run now dir t row dir' t' :
  put disk id data meta run now (dir, t) = (Ok row, (dir', t')) ->
  row = ArtifactRow.mk id (artifact_uri id) (content_digest data) meta.(pm_media_type) (Z.of_nat (length data)) run
          meta.(pm_origin_effect_id) meta.(pm_sensitivity) meta.(pm_retention) (locator id (content_digest data)) now /\
  t.(t_db).(artifacts) !! id = None /\
  (forall k r, t.(t_db).(artifacts) !! k = Some r -> r.(ArtifactRow.uri) <> artifact_uri id) /\
  t'.(t_db).(artifacts) = <[id := row]> t.(t_db).(artifacts) /\
  dir' = <[locator id (content_digest data) := data]> dir.
Proof.
  intros E. pose proof E as [(_ & e & ?)|(Hnone & Hdir)]%put_inv; [done|].
  unfold put in E. apply bind_ok_inv in E as (x & s1 & E1 & E). apply in_txn_ok in E1 as (t1 & E1 & ->).
  rewrite get_by_uri_eq in E1. injection E1 as <- <-. rewrite Hnone in E. cbn [bool_decide] in E.
  rewrite bool_decide_eq_true_2 in E by done. apply bind_ok_inv in E as (u & s2 & Hw%write_atomic_ok & E). subst s2.
  apply bind_ok_inv in E as (u2 & s3 & E3 & E). apply in_txn_ok in E3 as (t3 & E3 & ->).
  apply bind_ok_inv in E as (row' & s4 & E4 & E). apply in_txn_ok in E4 as (t4 & E4 & ->).
  unfold artifacts_insert in E3. inv_store. unfold artifacts_get_by_id in E4. inv_store.
  rewrite lookup_insert_eq in E4. injection E4 as <-. rename select (absent _ _ = true) into Ha. apply absent_true in Ha.
  split_and!; try done. intros k r Hk Hr. pose proof (head_select_none _ _ _ _ Hnone Hk) as Hf.
  by apply bool_decide_eq_false in Hf.
Qed.

Lemma lookup_artifact_inv uri dir t r s :
  lookup_artifact uri (dir, t) = (r, s) -> s = (dir, t) /\ forall row, r = Ok row ->
    exists k, t.(t_db).(artifacts) !! k = Some row /\ row.(ArtifactRow.uri) = uri.
Proof.
  unfold lookup_artifact, bind, in_txn. rewrite get_by_uri_eq. destruct (list.head _) as [x|] eqn:E; intros [= <- <-].
  - split; [done|]. intros row [= <-]. apply head_select_some in E as (k & Hk & Hp). exists k. split; [done|]. by apply bool_decide_eq_true_1 in Hp.
  - split; [done|by intros].
Qed.

Lemma delete_inv disk uri dir t r dir' t' :
  delete disk uri (dir, t) = (r, (dir', t')) ->
  t' = t /\ (dir' = dir \/ exists k row, t.(t_db).(artifacts) !! k = Some row /\
    row.(ArtifactRow.retention) = RetentionClass.Ephemeral /\ dir' = base.delete row.(ArtifactRow.locator) dir).
Proof.
  unfold delete, bind at 1. destruct (lookup_artifact uri (dir, t)) as [[row|e] s] eqn:E;
    apply lookup_artifact_inv in E as [-> Hr]; [|intros [= _ <- <-]; auto].
  destruct (Hr row eq_refl) as (k & Hk & _). destruct (bool_decide _) eqn:Hret; [|intros [= _ <- <-]; auto].
  apply bool_decide_eq_true_1 in Hret. unfold bind, gets. destruct (dir !! _); [|intros [= _ <- <-]; auto].
  destruct (disk OpRemove); intros [= _ <- <-]; eauto 10.
Qed.

(** The stored artifact: its row, its file, and no other row of its URI. *)
Definition stored (id : ArtifactId) (row : ArtifactRow) (data : bytes) (s : ArtifactDir * Db) : Prop :=
  artifacts_wf s.2 /\ s.2.(artifacts) !! id = Some row /\ s.1 !! row.(ArtifactRow.locator) = Some data.

Lemma stored_step id row data s s' : row.(ArtifactRow.retention) <> RetentionClass.Ephemeral ->
  stored id row data s -> artifact_step s s' -> stored id row data s'.
Proof.
  intros Hret (Hwf & Hrow & Hfile) Hs. destruct (Hwf _ _ Hrow) as (Hu & _ & Huri & Hloc).
  assert (Hother : forall id' dg, uuid_wf id' -> list.head (select (fun r : ArtifactRow => bool_decide (r.(ArtifactRow.uri) = artifact_uri id'))
      s.2.(artifacts)) = None -> locator id' dg <> row.(ArtifactRow.locator)).
  { intros id' dg Hu' Hn E. rewrite Hloc in E. apply locator_id in E as ->; [|done..].
    pose proof (head_select_none _ _ _ _ Hn Hrow) as Hf. by apply bool_decide_eq_false in Hf. }
  destruct Hs as [disk id' data' meta run now dir t row' dir' t' Hid E|disk id' data' meta run now dir t r dir' t' Hid E
    |id' data' dir dir' t t' Hid E Hc|disk uri dir t r dir' t' E|dir d d' E]; cbn in *.
  - pose proof E as [(_ & e & ?)|(Hn & ->)]%put_inv; [done|]. apply put_ok in E as (Erow & Habs & _ & Hart & _).
    unfold stored. cbn. rewrite Hart. split_and!.
    + intros k r Hk. destruct (decide (k = id')) as [->|Hne].
      * rewrite Hart, lookup_insert_eq in Hk. by injection Hk as <-; subst row'.
      * rewrite Hart, lookup_insert_ne in Hk by done. by apply Hwf.
    + rewrite lookup_insert_ne; [done|]. congruence.
    + rewrite lookup_insert_ne; [done|]. by apply Hother.
  - apply put_inv in E as [(-> & _)|(Hn & ->)]; [by split_and!|]. split_and!; [done|done|]. cbn.
    rewrite lookup_insert_ne; [done|]. by apply Hother.
  - rewrite get_by_uri_eq in E. injection E as Hn <-. split_and!; [done|done|]. cbn.
    destruct Hc as [|tmp n Ht|]; [done| |]; rewrite lookup_insert_ne; try done; [|by apply Hother].
    rewrite Hloc. intros E. symmetry in E. by apply locator_not_temp in E.
  - apply delete_inv in E as [-> [-> |(k & r' & Hk & Hr' & ->)]]; [by split_and!|]. split_and!; [done|done|]. cbn.
    rewrite lookup_delete_ne; [done|]. destruct (Hwf _ _ Hk) as (Hk' & _ & _ & Hl'). rewrite Hl', Hloc. intros E%locator_id; [|done..].
    congruence.
  - split_and!; [intros k r; cbn; rewrite E; apply Hwf|by cbn; rewrite E|done].
Qed.

(** C37: A stored artifact stays readable: whatever is put, rolled back, deleted or
    interrupted by a crash afterwards, a committed artifact that is not ephemeral
    reads back as the very bytes that were put, with the row the put returned. *)
Theorem artifact_reads_back disk id data meta run now dir t row dir' t' s t2 disk2 :
  artifacts_wf t.(t_db) -> uuid_wf id -> meta.(pm_retention) <> RetentionClass.Ephemeral -> disk2 OpRead = true ->
  put disk id data meta run now (dir, t) = (Ok row, (dir', t')) ->
  rtc artifact_step (dir', t'.(t_db)) s -> t2.(t_db) = s.2 ->
  get disk2 (artifact_uri id) (s.1, t2) = (Ok (row, data), (s.1, t2)) /\
  row.(ArtifactRow.size_bytes) = Z.of_nat (length data).
Proof.
  intros Hwf Hid Hret Hread E Hs Ht2. apply put_ok in E as (Erow & Habs & Huri & Hart & Hdir).
  assert (Hst : stored id row data (dir', t'.(t_db))).
  { split_and!; cbn.
    - intros k r. rewrite Hart. destruct (decide (k = id)) as [->|Hne]; [rewrite lookup_insert_eq|rewrite lookup_insert_ne by done; apply Hwf].
      intros [= <-]. by subst row.
    - by rewrite Hart, lookup_insert_eq.
    - rewrite Hdir, Erow. cbn. by rewrite lookup_insert_eq. }
  assert (Hrr : row.(ArtifactRow.retention) <> RetentionClass.Ephemeral) by (by subst row).
  assert (Hend : stored id row data s).
  { clear -Hst Hs Hrr Htext. induction Hs as [|s1 s2 s3 H12 _ IH]; [done|]. apply IH. by eapply stored_step. }
  destruct Hend as (Hwf2 & Hrow2 & Hfile2). split; [|by subst row].
  unfold get, lookup_artifact, bind, in_txn. rewrite get_by_uri_eq, Ht2.
  rewrite (head_select_unique _ _ id row); [|done|by rewrite bool_decide_eq_true_2 by (apply (Hwf2 _ _ Hrow2))|].
  - cbn. rewrite Hread, Hfile2. rewrite bool_decide_eq_true_2; [done|]. by subst row.
  - intros k r Hk Hp%bool_decide_eq_true_1. destruct (Hwf2 _ _ Hk) as (Hk' & _ & Hu & _). rewrite Hu in Hp. by apply artifact_uri_inj.
Qed.
End Durability.

(** A range read is exact or panics: with 64-bit offset and length, the bytes
    at the offset are returned, clamped to the content, except that a length
    which carries the end past 2^64 panics instead of being clamped. *)
Theorem range_read_clamps_or_panics data offset len :
  0 <= offset < 2 ^ 64 -> 0 <= len < 2 ^ 64 -> Z.of_nat (length data) < 2 ^ 63 ->
  range_of data offset len =
  if Z.min offset (Z.of_nat (length data)) + len <? 2 ^ 64
  then Some (take (Z.to_nat len) (drop (Z.to_nat offset) data)) else None.
Proof.
  intros Ho Hl Hd. unfold range_of. set (n := Z.of_nat (length data)) in *. set (start := Z.min offset n).
  destruct (Z.ltb_spec (start + len) (2 ^ 64)) as [Hlt|Hge].
  - rewrite Z.mod_small by lia. rewrite (proj2 (Z.leb_le _ _)) by lia. f_equal.
    destruct (Z.le_ge_cases offset n) as [Hon|Hno].
    + replace start with offset by lia. destruct (Z.le_ge_cases (offset + len) n) as [Hin|Hout].
      * by replace (Z.min (offset + len) n - offset) with len by lia.
      * rewrite !take_ge; [done| |]; rewrite length_drop; lia.
    + rewrite !(drop_ge data) by lia. by rewrite !take_nil.
  - rewrite (proj2 (Z.leb_gt _ _)); [done|].
    replace ((start + len) mod 2 ^ 64) with (start + len - 2 ^ 64); [lia|].
    rewrite <- (Z.mod_small (start + len - 2 ^ 64) (2 ^ 64)) by lia.
    replace (start + len - 2 ^ 64) with (start + len + (-1) * 2 ^ 64) by lia. by rewrite Z.mod_add by lia.
Qed.
