(* ===== verification/Planning.v ===== *)
(** * Planning a run's environment ([runtime/src/resolved_environment.rs],
    [agentd/src/workers/runs.rs])

    Before a run starts, the worker resolves its agent loop and the ports its
    profile binds against the registered adapters that have a bundle on this
    host, and sends the plan through [BindRun]. *)

From S2P Require Import Prelude Domain Ids Text Models StoreBase Store ExtensionStore Runs EffectPolicy Effects RunServices.
From S2P Require Import Bind Profiles Config Resolver.

Open Scope string_scope.
Open Scope Z_scope.

Definition LOOP_PORT_ID : string := "agent_loop".
Definition KERNEL_VERSION : string := "0.1.0".

Definition env_error (code : ErrorCode) (msg : string) : KernelError := kerr code msg.
Definition worker_error (code : ErrorCode) (msg : string) : KernelError := kerr code msg.

(** A bundle on this host: what [plan_environment] is given of it. *)
Record LocalBundle := mkLocalBundle { lb_adapter_id : string; lb_version : string; lb_bundle_digest : string }.

(** [serde_json] of the columns the plan writes and [plan_to_contract] reads. *)
Class PlanJson := {
  versions_to_vec : list Z -> bytes;
  versions_from_slice : bytes -> option (list Z);
  capabilities_from_slice : bytes -> option (gmap string string) }.

Section Planning.
Context `{!Ext} `{!ConfigYaml} `{!RegistryJson} `{!PlanJson}.

Definition has_bundle (local_bundles : list LocalBundle) (c : Candidate) : bool :=
  existsb (fun b =>
    bool_decide (b.(lb_adapter_id) = uuid_hyphenated c.(ca_row).(AdapterRegistrationRow.adapter_id)) &&
    bool_decide (b.(lb_version) = c.(ca_row).(AdapterRegistrationRow.version)) &&
    bool_decide (b.(lb_bundle_digest) = c.(ca_row).(AdapterRegistrationRow.bundle_digest))) local_bundles.

(** The registered adapters this host can spawn. *)
Definition local_candidates (local_bundles : list LocalBundle) : M (list Candidate) :=
  let! rows := adapters_list_registrations in
  let! candidates := lift_res (res_collect candidate_decode rows) in
  ret (List.filter (has_bundle local_bundles) candidates).

(** [binding.split_once('@')]: the adapter and its port version, 1 by default. *)
Definition binding_parts (binding : string) : string * Z :=
  match split_once "@" binding with
  | Some (n, v) => (n, match parse_unsigned (2 ^ 32 - 1) v with Some version => version | None => 1 end)
  | None => (binding, 1)
  end.

Definition is_builtin (binding : string) : bool := existsb (fun b => starts_with b binding) BUILTIN_ADAPTERS.

(** One turn of the loop over [profile.bindings]: [None] for a builtin. *)
Definition plan_binding (candidates : list Candidate) (slot binding : string) : Res (option NewResolvedBinding) :=
  if is_builtin binding then Ok None
  else
    let '(name, version) := binding_parts binding in
    let? adapter_id := ok_or (uuid_v7_from_str name) (env_error InvalidArgument "binding id is not an adapter id") in
    match resolve_port (mkPortRequirement slot version [] T0 (Some adapter_id) false) candidates [] with
    | Err _ => Err (env_error FailedPrecondition
        ("required adapter '" +:+ binding +:+ "' for port '" +:+ slot +:+ "' is unavailable"))
    | Ok resolved =>
        Ok (Some (NewResolvedBinding.mk slot resolved.(rs_adapter_id) resolved.(rs_version) resolved.(rs_bundle_digest)
              (names_to_vec resolved.(rs_negotiated_capabilities))))
    end.

Fixpoint plan_bindings (candidates : list Candidate) (l : list (string * string)) : Res (list NewResolvedBinding) :=
  match l with
  | [] => Ok []
  | (slot, binding) :: l =>
      let? planned := plan_binding candidates slot binding in
      let? rest := plan_bindings candidates l in
      Ok match planned with Some b => b :: rest | None => rest end
  end.

(** The document of the active generation. *)
Definition generation_document (err : KernelError) (document : bytes) : Res ConfigDocument :=
  let? text := ok_or (from_utf8 document) err in parse_document text.

Definition slot_le (x y : string * string) : Prop := string_le x.1 y.1.
#[local] Instance slot_le_dec : RelDecision slot_le.
Proof. intros x y. unfold slot_le. apply _. Defined.

(** [&profile.bindings], a [BTreeMap]: in the order of the slots. *)
Definition bindings_in_order (bindings : gmap string string) : list (string * string) :=
  merge_sort slot_le (map_to_list bindings).

Definition plan_environment (run : RunId) (profile_name : string) (agent_spec : AgentSpecRef) (agent_loop : ResolvedAdapter)
    (local_bundles : list LocalBundle) (workspace_uri workspace_base_revision : option string)
    (workspace_mode : WorkspaceAccessMode) (capability_grant_ids approval_request_ids : bytes) (now_ms : Z)
    : M EnvironmentPlan :=
  let! got := config_get_active in
  let! active := lift_res (ok_or got
    (env_error FailedPrecondition "no active config generation — cannot resolve a run environment")) in
  let! got := config_get_generation active.(ActiveConfigGenerationRow.generation_id) in
  let! generation := lift_res (ok_or got (env_error Internal "active generation row missing")) in
  let! doc := lift_res (generation_document (env_error Internal "generation document not utf-8")
    generation.(ConfigGenerationRow.document)) in
  let! profile := lift_res (resolve_profile doc profile_name) in
  let! candidates := local_candidates local_bundles in
  let! bindings := lift_res (plan_bindings candidates (bindings_in_order profile)) in
  let! environment_id := draw_uuid in
  ret (mkEnvironmentPlan {|
    NewResolvedEnvironment.environment_id := environment_id;
    NewResolvedEnvironment.run_id := run;
    NewResolvedEnvironment.agent_spec_id := agent_spec.(asr_agent_spec_id);
    NewResolvedEnvironment.agent_spec_version := agent_spec.(asr_version);
    NewResolvedEnvironment.agent_spec_digest := agent_spec.(asr_digest);
    NewResolvedEnvironment.agent_loop_id := uuid_hyphenated agent_loop.(rs_adapter_id);
    NewResolvedEnvironment.agent_loop_version := agent_loop.(rs_version);
    NewResolvedEnvironment.agent_loop_digest := agent_loop.(rs_bundle_digest);
    NewResolvedEnvironment.config_generation_id := active.(ActiveConfigGenerationRow.generation_id);
    NewResolvedEnvironment.workspace_uri := workspace_uri;
    NewResolvedEnvironment.workspace_base_revision := workspace_base_revision;
    NewResolvedEnvironment.workspace_mode := workspace_mode;
    NewResolvedEnvironment.model_provider := profile !! "model_provider";
    NewResolvedEnvironment.model_id := None;
    NewResolvedEnvironment.model_parameters := None;
    NewResolvedEnvironment.kernel_version := KERNEL_VERSION;
    NewResolvedEnvironment.protocol_versions := versions_to_vec [1];
    NewResolvedEnvironment.capability_grant_ids := capability_grant_ids;
    NewResolvedEnvironment.approval_request_ids := approval_request_ids;
    NewResolvedEnvironment.created_at_ms := now_ms |} bindings active.(ActiveConfigGenerationRow.generation_id)).

(** ** The worker's plan ([runs.rs]) *)

Definition profile_loop_pin (profile_name : string) : M (option (AdapterId * Z)) :=
  let! got := config_get_active in
  match got with
  | None => ret None
  | Some active =>
      let! got := config_get_generation active.(ActiveConfigGenerationRow.generation_id) in
      match got with
      | None => ret None
      | Some generation =>
          let! doc := lift_res (generation_document (worker_error Internal "generation doc not utf-8")
            generation.(ConfigGenerationRow.document)) in
          let! profile := lift_res (resolve_profile doc profile_name) in
          match profile !! LOOP_PORT_ID with
          | None => ret None
          | Some binding =>
              let '(name, version) := binding_parts binding in
              if bool_decide (name ∈ BUILTIN_ADAPTERS) then ret None
              else
                let! id := lift_res (ok_or (uuid_v7_from_str name)
                  (worker_error InvalidArgument "profile agent_loop binding is not an adapter id")) in
                ret (Some (id, version))
          end
      end
  end.

Definition plan (bundles : list LocalBundle) (row : RunRow) : M EnvironmentPlan :=
  let! candidates := local_candidates bundles in
  let! loop_pin := profile_loop_pin row.(RunRow.requested_profile) in
  let! agent_loop := lift_res (resolve_port
    (mkPortRequirement LOOP_PORT_ID (match loop_pin with Some (_, v) => v | None => 1 end) [] T0 (fst <$> loop_pin) false)
    candidates []) in
  match row.(RunRow.agent_spec_id), row.(RunRow.agent_spec_version), row.(RunRow.agent_spec_digest) with
  | Some id, Some version, Some digest =>
      let! now_ms := now_unix_ms in
      plan_environment row.(RunRow.run_id) row.(RunRow.requested_profile) (mkAgentSpecRef id version digest) agent_loop bundles
        row.(RunRow.workspace_uri) None WorkspaceAccessMode.ReadOnly [] [] now_ms
  | _, _, _ => raise (worker_error FailedPrecondition "run has no agent spec binding input")
  end.

Definition lines_of (b : bytes) : list string :=
  List.filter (fun s => negb (str_is_empty s)) (split_on "010"%char (from_utf8_lossy b)).

Definition binding_message (b : NewResolvedBinding) : ResolvedBindingMsg :=
  mkResolvedBindingMsg b.(NewResolvedBinding.port_id)
    (Some (mkVersionedRefMsg (uuid_hyphenated b.(NewResolvedBinding.adapter_id)) b.(NewResolvedBinding.adapter_version)
       b.(NewResolvedBinding.adapter_digest)))
    (from_option (fun m => m) ∅ (capabilities_from_slice b.(NewResolvedBinding.capabilities))).

Definition plan_to_contract (plan : EnvironmentPlan) : ResolvedRunEnvironmentMsg :=
  let environment := plan.(ep_environment) in
  let text o := from_option (fun s => s) "" o in
  {| env_id := uuid_hyphenated environment.(NewResolvedEnvironment.environment_id);
     env_run_id := uuid_hyphenated environment.(NewResolvedEnvironment.run_id);
     env_agent_spec := Some (mkVersionedRefMsg (uuid_hyphenated environment.(NewResolvedEnvironment.agent_spec_id))
       environment.(NewResolvedEnvironment.agent_spec_version) environment.(NewResolvedEnvironment.agent_spec_digest));
     env_agent_loop := Some (mkVersionedRefMsg environment.(NewResolvedEnvironment.agent_loop_id)
       environment.(NewResolvedEnvironment.agent_loop_version) environment.(NewResolvedEnvironment.agent_loop_digest));
     env_config_generation_id := uuid_hyphenated environment.(NewResolvedEnvironment.config_generation_id);
     env_bindings := binding_message <$> plan.(ep_bindings);
     env_workspace_uri := environment.(NewResolvedEnvironment.workspace_uri);
     env_workspace_base_revision := text environment.(NewResolvedEnvironment.workspace_base_revision);
     env_workspace_mode := to_wire environment.(NewResolvedEnvironment.workspace_mode);
     env_model_provider := text environment.(NewResolvedEnvironment.model_provider);
     env_model_id := text environment.(NewResolvedEnvironment.model_id);
     env_model_parameters_json := from_option (fun b => b) [] environment.(NewResolvedEnvironment.model_parameters);
     env_kernel_version := environment.(NewResolvedEnvironment.kernel_version);
     env_protocol_versions := u64_to_string <$>
       from_option (fun l => l) [] (versions_from_slice environment.(NewResolvedEnvironment.protocol_versions));
     env_capability_grant_ids := lines_of environment.(NewResolvedEnvironment.capability_grant_ids);
     env_approval_request_ids := lines_of environment.(NewResolvedEnvironment.approval_request_ids) |}.

(** The payload of [bind]. *)
Definition bind_message (row : RunRow) (plan : EnvironmentPlan) : BindRunMsg :=
  mkBindRunMsg (uuid_hyphenated row.(RunRow.run_id)) row.(RunRow.run_revision) (uuid_hyphenated plan.(ep_generation_id))
    (Some (plan_to_contract plan)).
End Planning.

(** ** What a plan binds *)

Section Planned.
Context `{!Ext} `{!ConfigYaml} `{!RegistryJson} `{!PlanJson}.

(** An adapter that can serve the port here: registered, not failed in
    conformance, with a bundle of its very identity on this host. *)
Definition spawnable (d : Db) (bundles : list LocalBundle) (port : string) (pversion : Z) (id : AdapterId)
    (version digest : string) : Prop :=
  exists key row ports impl, d.(registrations) !! key = Some row /\
    row.(AdapterRegistrationRow.adapter_id) = id /\ row.(AdapterRegistrationRow.version) = version /\
    row.(AdapterRegistrationRow.bundle_digest) = digest /\
    row.(AdapterRegistrationRow.conformance_state) <> ConformanceState.Failed /\
    mkLocalBundle (uuid_hyphenated id) version digest ∈ bundles /\
    ports_from_slice row.(AdapterRegistrationRow.implemented_ports) = Some ports /\ impl ∈ ports /\
    impl.(pi_port_id) = port /\ impl.(pi_port_version) = pversion.

Definition spawnable_candidate (d : Db) (bundles : list LocalBundle) (c : Candidate) : Prop :=
  has_bundle bundles c = true /\ exists key, d.(registrations) !! key = Some c.(ca_row) /\
    ports_from_slice c.(ca_row).(AdapterRegistrationRow.implemented_ports) = Some c.(ca_ports).

Lemma local_candidates_inv bundles t l t' :
  local_candidates bundles t = (Ok l, t') -> t' = t /\ forall c, c ∈ l -> spawnable_candidate t.(t_db) bundles c.
Proof.
  unfold local_candidates, adapters_list_registrations. intros E. inv_run. split; [done|]. intros c Hc.
  rewrite list_elem_of_In, filter_In, <- list_elem_of_In in Hc. destruct Hc as [Hc Hb]. split; [done|].
  rename select (res_collect _ _ = _) into Hr. apply res_collect_ok in Hr.
  apply list_elem_of_lookup in Hc as [i Hi]. destruct (Forall2_lookup_r _ _ _ _ _ Hr Hi) as (row & Hrow & Hd).
  unfold candidate_decode in Hd. inv_ok. cbn. apply list_elem_of_lookup_2 in Hrow. rewrite list_elem_of_fmap in Hrow.
  destruct Hrow as ([k y] & -> & Hy). rewrite merge_sort_Permutation, elem_of_map_to_list in Hy. eauto.
Qed.

Lemma resolved_spawnable d bundles req candidates r : (forall c, c ∈ candidates -> spawnable_candidate d bundles c) ->
  resolve_port req candidates [] = Ok r ->
  spawnable d bundles req.(rq_port_id) req.(rq_port_version) r.(rs_adapter_id) r.(rs_version) r.(rs_bundle_digest) /\
  forall pin, req.(rq_pin_adapter_id) = Some pin -> r.(rs_adapter_id) = pin.
Proof.
  intros Hall (c & port & Hc & He & Hport & _ & ->)%resolve_port_ok. cbn.
  destruct (Hall c Hc) as [Hb (key & Hkey & Hports)]. apply eligible_true in He as (_ & _ & Hpin & Hconf).
  split; [|intros pin Hx; symmetry; by apply Hpin]. apply List.find_some in Hport as [Hp1%list_elem_of_In Hp2].
  unfold serves in Hp2. apply andb_true_iff in Hp2 as [Hid%bool_decide_eq_true_1 Hv%Z.eqb_eq].
  exists key, c.(ca_row), c.(ca_ports), port. split_and!; try done.
  unfold has_bundle in Hb. apply existsb_exists in Hb as (b & Hin%list_elem_of_In & Hm).
  rewrite !andb_true_iff, !bool_decide_eq_true in Hm. destruct Hm as [[<- <-] <-]. by destruct b.
Qed.

(** The bindings of a plan against the slots they are for. *)
Definition binds (d : Db) (bundles : list LocalBundle) (sb : string * string) (b : NewResolvedBinding) : Prop :=
  b.(NewResolvedBinding.port_id) = sb.1 /\
  uuid_v7_from_str (binding_parts sb.2).1 = Some b.(NewResolvedBinding.adapter_id) /\
  spawnable d bundles sb.1 (binding_parts sb.2).2 b.(NewResolvedBinding.adapter_id)
    b.(NewResolvedBinding.adapter_version) b.(NewResolvedBinding.adapter_digest).

Lemma plan_bindings_ok d bundles candidates l bs : (forall c, c ∈ candidates -> spawnable_candidate d bundles c) ->
  plan_bindings candidates l = Ok bs ->
  Forall2 (binds d bundles) (List.filter (fun sb => negb (is_builtin sb.2)) l) bs.
Proof.
  intros Hall. revert bs. induction l as [|[slot binding] l IH]; intros bs E; cbn in E; [injection E as <-; constructor|].
  apply res_bind_ok_inv in E as (planned & Hp & E). apply res_bind_ok_inv in E as (rest & Hrest & [= <-]).
  cbn [List.filter snd]. unfold plan_binding in Hp. destruct (is_builtin binding); cbn [negb]; [injection Hp as <-; by apply IH|].
  destruct (binding_parts binding) as [name version] eqn:Eb. apply res_bind_ok_inv in Hp as (id & Hid%ok_or_ok & Hp).
  destruct (resolve_port _ _ _) as [r|] eqn:Er; [|done]. injection Hp as <-. constructor; [|by apply IH].
  apply (resolved_spawnable d bundles) in Er as [Hs Hpin]; [|done]. cbn in Hs, Hpin. unfold binds. cbn. rewrite Eb. cbn.
  rewrite (Hpin id eq_refl) in *. done.
Qed.

Lemma profile_loop_pin_reads name t o t' : profile_loop_pin name t = (Ok o, t') -> t'.(t_db) = t.(t_db).
Proof.
  intros E. assert (Ht : touches no_table (profile_loop_pin name)) by (unfold profile_loop_pin; solve_reads).
  apply Ht in E as [_ [u ->]]. done.
Qed.

Lemma plan_environment_ok run name spec lp bundles wu wb wm cg ar now t p t' :
  plan_environment run name spec lp bundles wu wb wm cg ar now t = (Ok p, t') ->
  t'.(t_db) = t.(t_db) /\ exists active generation doc profile,
    t.(t_db).(active_config) = Some active /\
    t.(t_db).(config_generations) !! active.(ActiveConfigGenerationRow.generation_id) = Some generation /\
    (exists text, from_utf8 generation.(ConfigGenerationRow.document) = Some text /\ parse_document text = Ok doc) /\
    resolve_profile doc name = Ok profile /\
    Forall2 (binds t.(t_db) bundles) (List.filter (fun sb => negb (is_builtin sb.2)) (bindings_in_order profile)) p.(ep_bindings) /\
    p.(ep_environment).(NewResolvedEnvironment.agent_loop_id) = uuid_hyphenated lp.(rs_adapter_id) /\
    p.(ep_environment).(NewResolvedEnvironment.agent_loop_version) = lp.(rs_version) /\
    p.(ep_environment).(NewResolvedEnvironment.agent_loop_digest) = lp.(rs_bundle_digest).
Proof.
  unfold plan_environment, config_get_active, config_get_generation. intros E. inv_run.
  rename select (local_candidates _ _ = _) into Hl. apply local_candidates_inv in Hl as [-> Hc].
  rename select (opt_traverse _ _ = _) into Ha. rename select (generation_document _ _ = _) into Hd.
  destruct (active_config _) as [a|] eqn:Hact; cbn in Ha; [|done].
  destruct (decode_active a) as [a'|] eqn:Hda; cbn in Ha; [|done]. injection Ha as <-.
  assert (a' = a) as -> by (unfold decode_active in Hda; by inv_ok).
  unfold generation_document in Hd. apply res_bind_ok_inv in Hd as (text & Ht%ok_or_ok & Hd).
  split; [done|]. do 4 eexists. split_and!; try done; [eauto|]. cbn. by eapply plan_bindings_ok.
Qed.

(** A plan binds only adapters this host can spawn: the agent loop and every
    port of the profile that is not built in is given, in the order of the slots,
    a registered adapter that implements the port at the version asked for, never
    failed conformance, is the one the profile names and has a bundle of the same
    id, version and digest on this host; planning writes nothing. *)
Theorem plan_binds_spawnable_adapters bundles row t p t' :
  plan bundles row t = (Ok p, t') ->
  t'.(t_db) = t.(t_db) /\
  (exists v id, p.(ep_environment).(NewResolvedEnvironment.agent_loop_id) = uuid_hyphenated id /\
     spawnable t.(t_db) bundles LOOP_PORT_ID v id p.(ep_environment).(NewResolvedEnvironment.agent_loop_version)
       p.(ep_environment).(NewResolvedEnvironment.agent_loop_digest)) /\
  exists active generation doc profile,
    t.(t_db).(active_config) = Some active /\
    t.(t_db).(config_generations) !! active.(ActiveConfigGenerationRow.generation_id) = Some generation /\
    (exists text, from_utf8 generation.(ConfigGenerationRow.document) = Some text /\ parse_document text = Ok doc) /\
    resolve_profile doc row.(RunRow.requested_profile) = Ok profile /\
    Forall2 (binds t.(t_db) bundles) (List.filter (fun sb => negb (is_builtin sb.2)) (bindings_in_order profile)) p.(ep_bindings).
Proof.
  unfold plan. intros E. apply bind_ok_inv in E as (cands & t1 & [-> Hc]%local_candidates_inv & E).
  apply bind_ok_inv in E as (pin & t2 & Ht2%profile_loop_pin_reads & E).
  apply bind_ok_inv in E as (lp & t3 & El & E). unfold lift_res in El. injection El as El ->.
  destruct (RunRow.agent_spec_id row) as [sid|]; [|done]. destruct (RunRow.agent_spec_version row) as [sv|]; [|done].
  destruct (RunRow.agent_spec_digest row) as [sd|]; [|done]. apply bind_ok_inv in E as (now & t4 & En & E).
  assert (Ht4 : t4.(t_db) = t.(t_db)) by (unfold now_unix_ms in En; by injection En as _ <-).
  apply plan_environment_ok in E as (Hdb & active & generation & doc & profile & Ha & Hg & Hd & Hp & Hb & Hl & Hlv & Hld).
  rewrite Ht4 in *. split; [done|]. split; [|eauto 10].
  apply (resolved_spawnable t.(t_db) bundles) in El as [Hs _]; [|done]. cbn in Hs. rewrite Hl, Hlv, Hld. eauto.
Qed.
End Planned.

(** ** What binding keeps of a plan *)

Section Frozen.
Context `{!Ext} `{!ConfigYaml} `{!RegistryJson} `{!PlanJson} `{!BindContracts}.
(** An identifier that was read prints to text that reads back. *)
Hypothesis uuid_print_parse : forall s u, uuid_v7_from_str s = Some u -> uuid_v7_from_str (uuid_hyphenated u) = Some u.
(** A JSON array of names is not a JSON object. *)
Hypothesis names_are_no_map : forall l, capabilities_from_slice (names_to_vec l) = None.

Definition without_capabilities (empty : bytes) (b : NewResolvedBinding) : NewResolvedBinding :=
  NewResolvedBinding.mk b.(NewResolvedBinding.port_id) b.(NewResolvedBinding.adapter_id)
    b.(NewResolvedBinding.adapter_version) b.(NewResolvedBinding.adapter_digest) empty.

(** The id comes from the profile, the capabilities from the registry. *)
Definition planned_by_name (b : NewResolvedBinding) : Prop :=
  (exists names, b.(NewResolvedBinding.capabilities) = names_to_vec names) /\
  exists s, uuid_v7_from_str s = Some b.(NewResolvedBinding.adapter_id).

Lemma plan_bindings_names candidates l bs : plan_bindings candidates l = Ok bs ->
  Forall planned_by_name bs.
Proof.
  revert bs. induction l as [|[slot binding] l IH]; intros bs E; cbn in E; [injection E as <-; constructor|].
  apply res_bind_ok_inv in E as (planned & Hp & E). apply res_bind_ok_inv in E as (rest & Hrest%IH & [= <-]).
  unfold plan_binding in Hp. destruct (is_builtin binding); [by injection Hp as <-|].
  destruct (binding_parts binding) as [name version]. apply res_bind_ok_inv in Hp as (id & Hid%ok_or_ok & Hp).
  destruct (resolve_port _ _ _) as [r|] eqn:Er; [|done]. injection Hp as <-. constructor; [|done].
  apply resolve_port_ok in Er as (c & port & _ & He & _ & _ & ->). apply eligible_true in He as (_ & _ & Hpin & _).
  split; cbn; [eauto|]. exists name. rewrite <- (Hpin id eq_refl). done.
Qed.

Lemma plan_capabilities bundles row t p t' : plan bundles row t = (Ok p, t') ->
  Forall planned_by_name p.(ep_bindings).
Proof.
  unfold plan. intros E. apply bind_ok_inv in E as (cands & t1 & _ & E). apply bind_ok_inv in E as (pin & t2 & _ & E).
  apply bind_ok_inv in E as (lp & t3 & _ & E).
  destruct (RunRow.agent_spec_id row); [|done]. destruct (RunRow.agent_spec_version row); [|done].
  destruct (RunRow.agent_spec_digest row); [|done]. apply bind_ok_inv in E as (now & t4 & _ & E).
  unfold plan_environment in E. do 8 (apply bind_ok_inv in E as (? & ? & ? & E)). cbn in E. inv_ok. cbn.
  by eapply plan_bindings_names.
Qed.

Lemma decode_binding_forgets b b' : planned_by_name b -> decode_binding (binding_message b) = Ok b' ->
  exists empty, json_of_map ∅ = Some empty /\ b' = without_capabilities empty b.
Proof.
  intros [[names Hn] [s Hs]] E. unfold decode_binding, binding_message in E. cbn in E. rewrite Hn, names_are_no_map in E.
  apply res_bind_ok_inv in E as (id & Hid & E). unfold required_id in Hid. apply ok_or_ok in Hid.
  rewrite (uuid_print_parse _ _ Hs) in Hid. injection Hid as <-. apply res_bind_ok_inv in E as (e & He%ok_or_ok & [= <-]).
  by exists e.
Qed.

Lemma decode_bindings_forget bs bs' : Forall planned_by_name bs ->
  Forall2 (fun m b' => decode_binding m = Ok b') (binding_message <$> bs) bs' ->
  exists empty, (bs <> [] -> json_of_map ∅ = Some empty) /\ bs' = without_capabilities empty <$> bs.
Proof.
  intros Hp. revert bs'. induction Hp as [|b bs Hb Hp IH]; intros bs' Hd; cbn in Hd.
  - apply Forall2_nil_inv_l in Hd as ->. exists []. done.
  - apply Forall2_cons_inv_l in Hd as (b' & bs1 & Hd & Hds & ->).
    destruct (decode_binding_forgets _ _ Hb Hd) as (e & He & ->). destruct (IH _ Hds) as (e' & He' & ->).
    exists e. split; [done|]. cbn. f_equal. destruct bs as [|b2 bs]; [done|]. by rewrite He in He'; injection (He' ltac:(done)) as ->.
Qed.

(** Binding forgets the negotiated capabilities: when [BindRun] reads back
    the plan the worker sent, every binding has the planned port and adapter, but
    its capabilities are those of the empty map, whatever was negotiated. *)
Theorem bind_forgets_capabilities bundles row t p t' now p' :
  plan bundles row t = (Ok p, t') -> decode_environment (plan_to_contract p) now = Ok p' ->
  exists empty, (p.(ep_bindings) <> [] -> json_of_map ∅ = Some empty) /\
    p'.(ep_bindings) = without_capabilities empty <$> p.(ep_bindings).
Proof.
  intros Hp E. apply plan_capabilities in Hp. unfold decode_environment in E. inv_ok. cbn.
  rename select (res_collect _ _ = _) into Hc. cbn [plan_to_contract env_bindings] in Hc. apply res_collect_ok in Hc.
  by apply decode_bindings_forget.
Qed.
End Frozen.
