(* ===== verification/LoopFeed.v ===== *)
(** * What a loop turn is fed ([agentd/src/workers/runs.rs])

    The worker gives a loop adapter the payload of its task and the outcomes
    that settled since the last decision, within the bounds of the profile's
    generation: the state is cut at a character boundary, and the events are
    shortened step by step until they fit. *)

From S2P Require Import Prelude Domain Ids Text Models StoreBase Store EffectPolicy Effects Runs Turns Profiles.

Open Scope string_scope.
Open Scope Z_scope.

(** ** Base64 *)

Definition BASE64_TABLE : string := "ABCDEFGHIJKLMNOPQRSTUVWXYZabcdefghijklmnopqrstuvwxyz0123456789+/".
Definition table_char (n : N) : ascii := from_option (fun c => c) "A"%char (String.get (N.to_nat n) BASE64_TABLE).

Fixpoint table_position (c : ascii) (table : string) : option N :=
  match table with
  | "" => None
  | String a table => if decide (a = c) then Some 0%N else N.succ <$> table_position c table
  end.
Definition base64_value (c : ascii) : option N := table_position c BASE64_TABLE.

Definition byte_of (n : N) : Byte.byte := from_option (fun b => b) Byte.x00 (Byte.of_N (n mod 256)).

(** The characters of a packed 24-bit group, from the highest. *)
Definition sextet (packed : N) (shift : N) : ascii := table_char (N.land (N.shiftr packed shift) 63).
Definition pack_bytes (a b c : N) : N := N.lor (N.lor (N.shiftl a 16) (N.shiftl b 8)) c.
Definition pack_sextets (a b c d : N) : N := N.lor (N.lor (N.lor (N.shiftl a 18) (N.shiftl b 12)) (N.shiftl c 6)) d.

Fixpoint base64_encode (l : bytes) : string :=
  match l with
  | [] => ""
  | [a] =>
      let p := pack_bytes (Byte.to_N a) 0 0 in
      String (sextet p 18) (String (sextet p 12) "==")
  | [a; b] =>
      let p := pack_bytes (Byte.to_N a) (Byte.to_N b) 0 in
      String (sextet p 18) (String (sextet p 12) (String (sextet p 6) "="))
  | a :: b :: c :: l =>
      let p := pack_bytes (Byte.to_N a) (Byte.to_N b) (Byte.to_N c) in
      String (sextet p 18) (String (sextet p 12) (String (sextet p 6) (String (sextet p 0) (base64_encode l))))
  end.

Fixpoint decode_chunks (l : list ascii) : option bytes :=
  match l with
  | [] => Some []
  | [_] => None
  | [a; b] =>
      a ← base64_value a; b ← base64_value b;
      let p := pack_sextets a b 0 0 in Some [byte_of (N.shiftr p 16)]
  | [a; b; c] =>
      a ← base64_value a; b ← base64_value b; c ← base64_value c;
      let p := pack_sextets a b c 0 in Some [byte_of (N.shiftr p 16); byte_of (N.shiftr p 8)]
  | a :: b :: c :: d :: l =>
      a ← base64_value a; b ← base64_value b; c ← base64_value c; d ← base64_value d;
      let p := pack_sextets a b c d in
      rest ← decode_chunks l;
      Some (byte_of (N.shiftr p 16) :: byte_of (N.shiftr p 8) :: byte_of p :: rest)
  end.

Definition base64_decode (input : string) : option bytes :=
  decode_chunks (List.filter (fun c => negb (bool_decide (c = "="%char))) (String.list_ascii_of_string input)).

(** ** JSON values *)

(** [serde_json::Value]; a number is its text. *)
Inductive Value :=
  | VNull
  | VBool (b : bool)
  | VNumber (repr : string)
  | VString (s : string)
  | VArray (l : list Value)
  | VObject (l : list (string * Value)).

(** [serde_json::to_vec] and [from_slice]; the printer orders the fields. *)
Class SerdeJson := { json_to_vec : Value -> bytes; json_from_slice : bytes -> option Value }.

Fixpoint field (k : string) (l : list (string * Value)) : option Value :=
  match l with [] => None | (k', v) :: l => if decide (k = k') then Some v else field k l end.
Definition get_field (k : string) (v : Value) : option Value := match v with VObject l => field k l | _ => None end.
Definition as_str (v : Value) : option string := match v with VString s => Some s | _ => None end.
Definition get_str (k : string) (v : Value) : option string := get_field k v ≫= as_str.
Definition field_or_null (k : string) (v : Value) : Value := from_option (fun x => x) VNull (get_field k v).

Fixpoint insert_field (k : string) (x : Value) (l : list (string * Value)) : list (string * Value) :=
  match l with
  | [] => [(k, x)]
  | (k', v) :: l => if decide (k = k') then (k, x) :: l else (k', v) :: insert_field k x l
  end.
(** [event[k] = x] on an object. *)
Definition set_field (k : string) (x : Value) (v : Value) : Value :=
  match v with VObject l => VObject (insert_field k x l) | _ => v end.
Definition opt_string (o : option string) : Value := match o with Some s => VString s | None => VNull end.

(** ** Result references *)

Definition CHILD_FEED_EXCERPT_BYTES : nat := 4096.
Definition base64_marker : string := ";base64,".

Definition bound_child_result_ref (result_ref : string) : string :=
  match split_once base64_marker result_ref with
  | None => result_ref
  | Some (prefix, body) =>
      match base64_decode body with
      | None => result_ref
      | Some decoded =>
          if (length decoded <=? CHILD_FEED_EXCERPT_BYTES)%nat then result_ref
          else
            let end_ := boundary_at (Byte.to_N <$> decoded) CHILD_FEED_EXCERPT_BYTES in
            let excerpt := from_utf8_lossy (take end_ decoded) +:+ String "010" "[truncated]" in
            prefix +:+ base64_marker +:+ base64_encode (into_bytes excerpt)
      end
  end.

Section Feed.
Context `{!Ext} `{!SerdeJson}.

Definition is_image (item : Value) : bool :=
  bool_decide (get_str "type" item = Some "image") && match get_field "data" item with Some _ => true | None => false end.
Definition strip_image (item : Value) : Value :=
  if is_image item then set_field "data" (VString "[image attached]") item else item.

Definition compact_result_ref_for_loop (result_ref : string) : string :=
  match split_once base64_marker result_ref with
  | None => result_ref
  | Some (prefix, body) =>
      match base64_decode body with
      | None => result_ref
      | Some decoded =>
          match json_from_slice decoded with
          | None => result_ref
          | Some value =>
              match get_field "content" value with
              | Some (VArray content) =>
                  if negb (existsb is_image content) then result_ref
                  else prefix +:+ base64_marker +:+
                    base64_encode (json_to_vec (set_field "content" (VArray (strip_image <$> content)) value))
              | _ => result_ref
              end
          end
      end
  end.

(** ** The entries *)

Definition effect_entry (e : EffectRow) : Value := VObject
  [ ("effect_id", VString (uuid_hyphenated e.(EffectRow.effect_id)));
    ("operation", VString e.(EffectRow.operation));
    ("state", VString (to_ascii_lowercase (state_debug e.(EffectRow.state))));
    ("result_ref", opt_string e.(EffectRow.result_ref));
    ("error_code", opt_string e.(EffectRow.error_code)) ].

(** At most 64 operations are counted. *)
Definition count_op (counts : gmap string Z) (op : string) : gmap string Z :=
  if (size counts <? 64)%nat || bool_decide (is_Some (counts !! op))
  then <[op := from_option (fun n => n) 0 (counts !! op) + 1]> counts else counts.

Definition terminal_effects (effects : list EffectRow) : list EffectRow :=
  List.filter (fun e => effect_is_terminal e.(EffectRow.state)) effects.
Definition op_counts (effects : list EffectRow) : gmap string Z :=
  foldl count_op ∅ (EffectRow.operation <$> terminal_effects effects).
Definition settled_effects (step : Z) (effects : list EffectRow) : list Value :=
  effect_entry <$> List.filter (fun e => e.(EffectRow.step_sequence) =? step) (terminal_effects effects).

(** [max_by_key(|e| (e.step_sequence, e.updated_at_ms))]: the last maximum. *)
Definition later_effect (a b : EffectRow) : bool :=
  (a.(EffectRow.step_sequence) <? b.(EffectRow.step_sequence)) ||
  ((a.(EffectRow.step_sequence) =? b.(EffectRow.step_sequence)) && (a.(EffectRow.updated_at_ms) <=? b.(EffectRow.updated_at_ms))).
Definition latest_effect (l : list EffectRow) : option EffectRow :=
  foldl (fun best e => match best with None => Some e | Some b => if later_effect b e then Some e else Some b end) None l.
Definition latest_request_hash (p : string -> bool) (effects : list EffectRow) : string :=
  match latest_effect (List.filter (fun e => p e.(EffectRow.operation)) (terminal_effects effects)) with
  | Some e => e.(EffectRow.request_hash)
  | None => ""
  end.

Definition child_excerpt (task : option TaskRow) : string * string :=
  match task with
  | None => ("", "")
  | Some task =>
      let text := from_utf8_lossy task.(TaskRow.payload) in
      let end_ := boundary_at (str_bytes text) (Nat.min (length (str_bytes text)) 400) in
      (string_of_Ns (take end_ (str_bytes text)), hex_lower (sha256 task.(TaskRow.payload)))
  end.

Definition child_entry (child : RunRow) (task_excerpt payload_hash : string) : Value := VObject
  [ ("effect_id", VString "");
    ("operation", VString "kernel.child_settled");
    ("run_id", VString (uuid_hyphenated child.(RunRow.run_id)));
    ("state", VString (to_ascii_lowercase (run_state_debug child.(RunRow.state))));
    ("result_ref", VString (from_option (fun s => s) "" child.(RunRow.output_ref)));
    ("error_code", VString (from_option (fun s => s) "" child.(RunRow.terminal_reason)));
    ("task_excerpt", VString task_excerpt);
    ("payload_hash", VString payload_hash) ].

(** The hashes of the children's tasks, and the outcomes fed on a resume from
    [WaitingChild]. *)
Fixpoint children_feed (waiting_child : bool) (l : list (RunRow * option TaskRow)) : list string * list Value :=
  match l with
  | [] => ([], [])
  | (child, task) :: l =>
      let '(excerpt, hash) := child_excerpt task in
      let '(hashes, entries) := children_feed waiting_child l in
      ((if str_is_empty hash then hashes else hash :: hashes),
       if waiting_child && run_is_terminal child.(RunRow.state) then child_entry child excerpt hash :: entries else entries)
  end.

Definition count_le (x y : string * Z) : Prop := string_le x.1 y.1.
#[local] Instance count_le_dec : RelDecision count_le.
Proof. intros x y. unfold count_le. apply _. Defined.
Definition counts_value (counts : gmap string Z) : Value :=
  VObject ((fun kv => (kv.1, VNumber (u64_to_string kv.2))) <$> merge_sort count_le (map_to_list counts)).

Definition feed_marker (effects : list EffectRow) (child_count : nat) (child_payload_hashes : list string) : Value := VObject
  [ ("effect_id", VString ""); ("operation", VString "kernel.op_counts"); ("state", VString "committed");
    ("result_ref", VString ""); ("error_code", VString "");
    ("op_counts", counts_value (op_counts effects));
    ("child_count", VNumber (u64_to_string (Z.of_nat child_count)));
    ("child_payload_hashes", VArray (VString <$> child_payload_hashes));
    ("latest_mcp_request_hash", VString (latest_request_hash (starts_with "mcp.") effects));
    ("latest_tool_request_hash",
       VString (latest_request_hash (fun op => starts_with "mcp." op || starts_with "harness." op) effects)) ].

(** ** Fitting the events *)

Definition pack (settled : list Value) (marker : option Value) : bytes :=
  json_to_vec (VArray (match marker with Some m => m :: settled | None => settled end)).
(** The marker accompanies settled entries only. *)
Definition fed (marker : Value) (settled : list Value) : bytes :=
  pack settled (match settled with [] => None | _ => Some marker end).

Definition is_child_entry (event : Value) : bool := bool_decide (get_str "operation" event = Some "kernel.child_settled").

Definition bound_event (event : Value) : Value :=
  match get_str "result_ref" event with
  | Some r => if is_child_entry event then set_field "result_ref" (VString (bound_child_result_ref r)) event else event
  | None => event
  end.
Definition compact_event (event : Value) : Value :=
  match get_str "result_ref" event with
  | Some r => set_field "result_ref" (VString (compact_result_ref_for_loop r)) event
  | None => event
  end.
Definition degrade_event (event : Value) : Value :=
  if is_child_entry event then VObject
    [ ("effect_id", VString ""); ("operation", VString "kernel.child_settled");
      ("run_id", field_or_null "run_id" event); ("state", field_or_null "state" event);
      ("error_code", field_or_null "error_code" event); ("payload_hash", field_or_null "payload_hash" event);
      ("truncated", VBool true) ]
  else event.

Definition GUARD_FIELDS : list string :=
  ["op_counts"; "latest_mcp_request_hash"; "latest_tool_request_hash"; "child_count"; "child_payload_hashes"].
Definition inline_guards (marker event : Value) : Value :=
  foldl (fun event k => set_field k (field_or_null k marker) event) event GUARD_FIELDS.
Fixpoint update_last {A} (f : A -> A) (l : list A) : list A :=
  match l with [] => [] | [x] => [f x] | x :: l => x :: update_last f l end.

Definition over (limit : nat) (events : bytes) : bool := (limit <? length events)%nat.

(** [while events.len() > max && settled.len() > 1 { settled.remove(0); .. }]. *)
Fixpoint evict (limit : nat) (marker : Value) (settled : list Value) : list Value :=
  match settled with
  | _ :: ((_ :: _) as rest) => if over limit (fed marker settled) then evict limit marker rest else settled
  | _ => settled
  end.

Definition fit_events (limit : nat) (marker : Value) (settled : list Value) : bytes :=
  let settled := if over limit (fed marker settled) then bound_event <$> settled else settled in
  let settled := evict limit marker settled in
  let settled := if over limit (fed marker settled) then compact_event <$> settled else settled in
  let settled := if over limit (fed marker settled) then degrade_event <$> settled else settled in
  let events :=
    if over limit (fed marker settled) && negb (match settled with [] => true | _ => false end)
    then pack (update_last (inline_guards marker) settled) None
    else fed marker settled in
  if over limit events then
    let alone := pack [] (Some marker) in
    if over limit alone then [] else alone
  else events.

(** The state, cut before a character that does not fit. *)
Definition truncate_state (cap : nat) (state : bytes) : bytes :=
  if (cap <? length state)%nat then take (boundary_at (Byte.to_N <$> state) cap) state else state.

(** [settled.drain(..settled.len().saturating_sub(max))]. *)
Definition keep_newest (max : nat) (settled : list Value) : list Value := drop (length settled - max) settled.

Fixpoint load_children (children : list RunRow) : M (list (RunRow * option TaskRow)) :=
  match children with
  | [] => ret []
  | child :: children =>
      let! task := tasks_get child.(RunRow.task_id) in
      let! rest := load_children children in
      ret ((child, task) :: rest)
  end.

(** The read transaction of [drive]: the state and the events of a turn. *)
Definition loop_context (limits : ContextLimits) (row : RunRow) : M (bytes * bytes) :=
  let! task := tasks_get row.(RunRow.task_id) in
  let state := truncate_state (Z.to_nat limits.(cl_max_state_bytes)) (match task with Some t => t.(TaskRow.payload) | None => [] end) in
  let! run_effects := effects_list_by_run row.(RunRow.run_id) in
  let! children := runs_list_children row.(RunRow.run_id) in
  let! children := load_children children in
  let '(hashes, outcomes) := children_feed (bool_decide (row.(RunRow.state) = RunState.WaitingChild)) children in
  let settled := (settled_effects row.(RunRow.step_sequence) run_effects ++ outcomes)%list in
  let settled := keep_newest (Z.to_nat limits.(cl_max_fed_events)) settled in
  let marker := feed_marker run_effects (length children) hashes in
  ret (state, fit_events (Z.to_nat limits.(cl_max_fed_event_bytes)) marker settled).
End Feed.

(** ** Base64 round trip *)

Open Scope N_scope.

Lemma byte_of_to_N b : byte_of (Byte.to_N b) = b.
Proof.
  unfold byte_of. pose proof (Byte.to_N_bounded b). rewrite N.mod_small by lia. by rewrite Byte.of_to_N.
Qed.

Lemma table_value n : n < 64 -> base64_value (table_char n) = Some n /\ table_char n <> "="%char.
Proof.
  intros Hn. assert (Hall : forallb (fun k => bool_decide (base64_value (table_char (N.of_nat k)) = Some (N.of_nat k)) &&
    negb (bool_decide (table_char (N.of_nat k) = "="%char))) (seq 0 64) = true) by (vm_compute; reflexivity).
  rewrite forallb_forall in Hall. specialize (Hall (N.to_nat n)). rewrite N2Nat.id in Hall.
  destruct (andb_prop _ _ (Hall ltac:(apply in_seq; lia))) as [H1 H2].
  apply bool_decide_eq_true_1 in H1. by apply negb_true_iff, bool_decide_eq_false in H2.
Qed.

Lemma lor_shiftl a k b : b < 2 ^ k -> N.lor (N.shiftl a k) b = a * 2 ^ k + b.
Proof.
  intros Hb. assert (Hd : N.land (N.shiftl a k) b = 0).
  { apply N.bits_inj_0. intros i. rewrite N.land_spec. destruct (N.lt_ge_cases i k) as [Hi|Hi].
    - by rewrite N.shiftl_spec_low.
    - replace (N.testbit b i) with false; [by rewrite andb_false_r|]. symmetry.
      rewrite <- (N.mod_small b (2 ^ k)) by done. by apply N.mod_pow2_bits_high. }
  rewrite <- N.lxor_lor, <- N.add_nocarry_lxor, N.shiftl_mul_pow2 by done. done.
Qed.

Lemma pack_bytes_sum a b c : b < 256 -> c < 256 -> pack_bytes a b c = a * 65536 + b * 256 + c.
Proof.
  intros Hb Hc. unfold pack_bytes. rewrite lor_shiftl by (rewrite N.shiftl_mul_pow2; cbn; lia).
  replace (a * 2 ^ 16 + N.shiftl b 8) with (N.shiftl (a * 256 + b) 8) by (rewrite !N.shiftl_mul_pow2; cbn; lia).
  rewrite lor_shiftl by (cbn; lia). cbn. lia.
Qed.

Lemma pack_sextets_sum a b c d : b < 64 -> c < 64 -> d < 64 -> pack_sextets a b c d = a * 262144 + b * 4096 + c * 64 + d.
Proof.
  intros Hb Hc Hd. unfold pack_sextets. rewrite lor_shiftl by (rewrite N.shiftl_mul_pow2; cbn; lia).
  replace (a * 2 ^ 18 + N.shiftl b 12) with (N.shiftl (a * 64 + b) 12) by (rewrite !N.shiftl_mul_pow2; cbn; lia).
  rewrite lor_shiftl by (rewrite N.shiftl_mul_pow2; cbn; lia).
  replace ((a * 64 + b) * 2 ^ 12 + N.shiftl c 6) with (N.shiftl (a * 4096 + b * 64 + c) 6) by (rewrite !N.shiftl_mul_pow2; cbn; lia).
  rewrite lor_shiftl by (cbn; lia). cbn. lia.
Qed.

(** The value behind a character of a packed group. *)
Definition sextet_value (p shift : N) : N := p / 2 ^ shift mod 64.
Lemma sextet_table p k : sextet p k = table_char (sextet_value p k).
Proof. unfold sextet, sextet_value. rewrite N.shiftr_div_pow2. change 63 with (N.ones 6). by rewrite N.land_ones. Qed.
Lemma sextet_value_lt p k : sextet_value p k < 64.
Proof. apply N.mod_lt. done. Qed.
Lemma sextet_base64 p k : base64_value (sextet p k) = Some (sextet_value p k) /\ sextet p k <> "="%char.
Proof. rewrite sextet_table. apply table_value, sextet_value_lt. Qed.

(** Unpacking the characters of three bytes gives the three bytes. *)
Lemma repack a b c : let p := pack_bytes (Byte.to_N a) (Byte.to_N b) (Byte.to_N c) in
  pack_sextets (sextet_value p 18) (sextet_value p 12) (sextet_value p 6) (sextet_value p 0) = p.
Proof.
  intros p. pose proof (Byte.to_N_bounded a). pose proof (Byte.to_N_bounded b). pose proof (Byte.to_N_bounded c).
  rewrite pack_sextets_sum by apply sextet_value_lt. subst p. rewrite pack_bytes_sum by lia.
  set (p := Byte.to_N a * 65536 + Byte.to_N b * 256 + Byte.to_N c). unfold sextet_value.
  change (2 ^ 18) with (64 * (64 * 64)). change (2 ^ 12) with (64 * 64). change (2 ^ 6) with 64. change (2 ^ 0) with 1.
  rewrite !N.div_1_r, <- !N.Div0.div_div.
  assert (p / 64 / 64 / 64 < 64) by (rewrite !N.Div0.div_div; apply N.Div0.div_lt_upper_bound; unfold p; lia).
  pose proof (N.div_mod p 64 ltac:(done)). pose proof (N.div_mod (p / 64) 64 ltac:(done)).
  pose proof (N.div_mod (p / 64 / 64) 64 ltac:(done)). rewrite (N.mod_small (p / 64 / 64 / 64)) by done. lia.
Qed.

Lemma packed_bytes a b c : let p := pack_bytes (Byte.to_N a) (Byte.to_N b) (Byte.to_N c) in
  byte_of (N.shiftr p 16) = a /\ byte_of (N.shiftr p 8) = b /\ byte_of p = c.
Proof.
  intros p. pose proof (Byte.to_N_bounded a). pose proof (Byte.to_N_bounded b). pose proof (Byte.to_N_bounded c).
  assert (Hb : forall n x, n mod 256 = Byte.to_N x -> byte_of n = x).
  { intros n x Hx. unfold byte_of. rewrite Hx, Byte.of_to_N. done. }
  subst p. rewrite pack_bytes_sum by lia. rewrite !N.shiftr_div_pow2. change (2 ^ 16) with 65536. change (2 ^ 8) with 256.
  set (x := Byte.to_N a) in *. set (y := Byte.to_N b) in *. set (z := Byte.to_N c) in *.
  assert (E1 : (x * 65536 + y * 256 + z) / 65536 = x) by (symmetry; apply (N.div_unique _ _ x (y * 256 + z)); lia).
  assert (E2 : (x * 65536 + y * 256 + z) / 256 = x * 256 + y) by (symmetry; apply (N.div_unique _ _ _ z); lia).
  rewrite E1, E2. split_and!; apply Hb.
  - apply N.mod_small. lia.
  - symmetry. apply (N.mod_unique _ _ x); lia.
  - symmetry. apply (N.mod_unique _ _ (x * 256 + y)); lia.
Qed.

Definition not_pad (c : ascii) : bool := negb (bool_decide (c = "="%char)).
Lemma sextet_not_pad p k : not_pad (sextet p k) = true.
Proof. unfold not_pad. by rewrite bool_decide_eq_false_2 by apply sextet_base64. Qed.

(** A group without its last bytes: the missing sextets are zero. *)
Lemma low_sextets a b : sextet_value (pack_bytes (Byte.to_N a) 0 0) 6 = 0 /\ sextet_value (pack_bytes (Byte.to_N a) 0 0) 0 = 0 /\
  sextet_value (pack_bytes (Byte.to_N a) (Byte.to_N b) 0) 0 = 0.
Proof.
  pose proof (Byte.to_N_bounded a). pose proof (Byte.to_N_bounded b). rewrite !pack_bytes_sum by lia. unfold sextet_value.
  change (2 ^ 6) with 64. change (2 ^ 0) with 1. rewrite !N.div_1_r. set (x := Byte.to_N a) in *. set (y := Byte.to_N b) in *.
  replace (x * 65536 + 0 * 256 + 0) with ((x * 1024) * 64) by lia. rewrite N.div_mul by done.
  replace (x * 65536 + y * 256 + 0) with ((x * 1024 + y * 4) * 64) by lia. rewrite !N.Div0.mod_mul.
  split_and!; try done. replace (x * 1024) with ((x * 16) * 64) by lia. by rewrite N.Div0.mod_mul.
Qed.

Lemma decode_full w x y z l a b c d : base64_value w = Some a -> base64_value x = Some b -> base64_value y = Some c ->
  base64_value z = Some d ->
  decode_chunks (w :: x :: y :: z :: l) = (fun rest => byte_of (N.shiftr (pack_sextets a b c d) 16) ::
    byte_of (N.shiftr (pack_sextets a b c d) 8) :: byte_of (pack_sextets a b c d) :: rest) <$> decode_chunks l.
Proof. intros Hw Hx Hy Hz. cbn [decode_chunks]. rewrite Hw, Hx, Hy, Hz. cbn. by destruct (decode_chunks l). Qed.
Lemma decode_three w x y a b c : base64_value w = Some a -> base64_value x = Some b -> base64_value y = Some c ->
  decode_chunks [w; x; y] = Some [byte_of (N.shiftr (pack_sextets a b c 0) 16); byte_of (N.shiftr (pack_sextets a b c 0) 8)].
Proof. intros Hw Hx Hy. cbn [decode_chunks]. by rewrite Hw, Hx, Hy. Qed.
Lemma decode_two w x a b : base64_value w = Some a -> base64_value x = Some b ->
  decode_chunks [w; x] = Some [byte_of (N.shiftr (pack_sextets a b 0 0) 16)].
Proof. intros Hw Hx. cbn [decode_chunks]. by rewrite Hw, Hx. Qed.

(** Base64 text decodes to the bytes that were encoded. *)
Theorem base64_roundtrip l : base64_decode (base64_encode l) = Some l.
Proof.
  unfold base64_decode. change (fun c => negb (bool_decide (c = "="%char))) with not_pad.
  induction l as [l IH] using (well_founded_induction (well_founded_ltof _ (@length Byte.byte))). unfold ltof in IH.
  destruct l as [|a [|b [|c l]]]; cbn [base64_encode String.list_ascii_of_string List.filter]; [done|..];
    rewrite ?sextet_not_pad; change (not_pad "="%char) with false; cbv iota.
  - pose proof (repack a Byte.x00 Byte.x00) as Hr. pose proof (packed_bytes a Byte.x00 Byte.x00) as [Hb _].
    destruct (low_sextets a Byte.x00) as (H6 & H0 & _). change (Byte.to_N Byte.x00) with 0 in *. cbv zeta in Hr, Hb.
    rewrite H6, H0 in Hr. rewrite (decode_two _ _ _ _ (proj1 (sextet_base64 _ _)) (proj1 (sextet_base64 _ _))).
    by rewrite Hr, Hb.
  - pose proof (repack a b Byte.x00) as Hr. pose proof (packed_bytes a b Byte.x00) as (Hb1 & Hb2 & _).
    destruct (low_sextets a b) as (_ & _ & H0). change (Byte.to_N Byte.x00) with 0 in *. cbv zeta in Hr, Hb1, Hb2.
    rewrite H0 in Hr.
    rewrite (decode_three _ _ _ _ _ _ (proj1 (sextet_base64 _ _)) (proj1 (sextet_base64 _ _)) (proj1 (sextet_base64 _ _))).
    by rewrite Hr, Hb1, Hb2.
  - pose proof (repack a b c) as Hr. pose proof (packed_bytes a b c) as (Hb1 & Hb2 & Hb3). cbv zeta in Hr, Hb1, Hb2, Hb3.
    rewrite (decode_full _ _ _ _ _ _ _ _ _ (proj1 (sextet_base64 _ _)) (proj1 (sextet_base64 _ _)) (proj1 (sextet_base64 _ _))
      (proj1 (sextet_base64 _ _))).
    rewrite Hr, Hb1, Hb2, Hb3. by rewrite (IH l) by (cbn; lia).
Qed.

Open Scope Z_scope.

(** ** The input stays within its bounds *)

Lemma truncate_state_length cap state : (length (truncate_state cap state) <= cap)%nat.
Proof.
  unfold truncate_state. destruct (Nat.ltb_spec cap (length state)); [|done]. rewrite length_take.
  pose proof (boundary_at_le (Byte.to_N <$> state) cap). lia.
Qed.

Lemma truncate_state_prefix cap state : truncate_state cap state `prefix_of` state.
Proof. unfold truncate_state. destruct (_ <? _)%nat; [apply prefix_take|done]. Qed.

Lemma truncate_state_wf cap state : utf8_wf (Byte.to_N <$> state) -> utf8_wf (Byte.to_N <$> truncate_state cap state).
Proof.
  intros Hw. unfold truncate_state. destruct (_ <? _)%nat; [|done]. rewrite fmap_take. by apply boundary_keeps_wf.
Qed.

Section Bounds.
Context `{!Ext} `{!SerdeJson}.

Lemma fit_events_length limit marker settled : (length (fit_events limit marker settled) <= limit)%nat.
Proof.
  unfold fit_events. set (events := if _ && _ then _ else _). unfold over at 1.
  destruct (Nat.ltb_spec limit (length events)); [|done]. unfold over.
  destruct (Nat.ltb_spec limit (length (pack [] (Some marker)))); [cbn; lia|done].
Qed.

Lemma load_children_reads children t l t' : load_children children t = (Ok l, t') -> t' = t.
Proof.
  revert l. induction children as [|c cs IH]; intros l E; cbn [load_children] in E; [unfold ret in E; by injection E as _ <-|].
  apply bind_ok_inv in E as (task & t1 & E1 & E). apply bind_ok_inv in E as (rest & t2 & E2 & E).
  unfold tasks_get in E1. inv_run. by eapply IH.
Qed.

(** ** The guards survive *)

Definition is_object (v : Value) : Prop := exists l, v = VObject l.

Lemma set_field_object k x v : is_object v -> is_object (set_field k x v).
Proof. intros [l ->]. by eexists. Qed.

Lemma field_insert k k' x l : field k (insert_field k' x l) = if decide (k = k') then Some x else field k l.
Proof.
  induction l as [|[k1 v] l IH]; cbn; [done|]. destruct (decide (k' = k1)) as [->|Hne]; cbn.
  - by destruct (decide (k = k1)).
  - destruct (decide (k = k1)) as [->|]; [by rewrite decide_False by congruence|done].
Qed.

Lemma get_set_field k k' x v : is_object v ->
  get_field k (set_field k' x v) = if decide (k = k') then Some x else get_field k v.
Proof. intros [l ->]. apply field_insert. Qed.

Lemma inline_guards_fields marker event k : is_object event -> k ∈ GUARD_FIELDS ->
  get_field k (inline_guards marker event) = Some (field_or_null k marker).
Proof.
  intros Ho Hk. unfold inline_guards, GUARD_FIELDS. cbn [foldl].
  rewrite !get_set_field by (repeat apply set_field_object; done). unfold GUARD_FIELDS in Hk. rewrite !elem_of_cons, elem_of_nil in Hk.
  destruct Hk as [->|[->|[->|[->|[->|[]]]]]]; done.
Qed.

Lemma bound_event_object v : is_object v -> is_object (bound_event v).
Proof. intros Ho. unfold bound_event. repeat case_match; auto using set_field_object. Qed.
Lemma compact_event_object v : is_object v -> is_object (compact_event v).
Proof. intros Ho. unfold compact_event. case_match; auto using set_field_object. Qed.
Lemma degrade_event_object v : is_object v -> is_object (degrade_event v).
Proof. intros Ho. unfold degrade_event. case_match; [by eexists|done]. Qed.

(** A stage keeps the entries objects, and some if there were some. *)
Definition stage_ok (l l' : list Value) : Prop :=
  (Forall is_object l -> Forall is_object l') /\ (l' = [] <-> l = []).
#[local] Instance stage_ok_preorder : PreOrder stage_ok.
Proof. split; [done|]. intros l1 l2 l3 [A1 B1] [A2 B2]. split; [auto|by rewrite B2]. Qed.

Lemma stage_map (f : Value -> Value) b l : (forall v, is_object v -> is_object (f v)) -> stage_ok l (if b : bool then f <$> l else l).
Proof.
  intros Hf. destruct b; [|done]. split; [|by destruct l]. intros Hl. apply Forall_fmap. exact (Forall_impl _ Hf Hl).
Qed.

Lemma stage_evict limit marker l : stage_ok l (evict limit marker l).
Proof.
  induction l as [|x [|y l] IH]; [done|done|]. cbn [evict]. destruct (over _ _); [|done].
  destruct IH as [IH1 IH2]. split; [intros Hl; apply IH1; by inversion Hl|]. rewrite IH2. done.
Qed.

Lemma last_update_last {A} (f : A -> A) (l : list A) x : list.last l = Some x -> list.last (update_last f l) = Some (f x).
Proof.
  induction l as [|a [|b l] IH]; [done|by intros [= ->]|]. intros Hl. change (update_last f (a :: b :: l)) with (a :: update_last f (b :: l)).
  rewrite list.last_cons, IH by done. done.
Qed.

(** The spawn guards survive an oversized feed: the operation counts, the
    request hashes and the bookkeeping of children reach the loop whenever there
    is an entry to feed, either in a marker of their own or in the newest entry,
    unless not even the marker alone fits. *)
Theorem spawn_guards_survive limit marker settled : Forall is_object settled ->
  (fit_events limit marker settled = [] /\ over limit (pack [] (Some marker)) = true) \/
  exists l, fit_events limit marker settled = json_to_vec (VArray l) /\
    ((settled = [] /\ l = []) \/ list.head l = Some marker \/
     exists newest, list.last l = Some newest /\ forall k, k ∈ GUARD_FIELDS -> get_field k newest = Some (field_or_null k marker)).
Proof.
  intros Ho. unfold fit_events.
  set (s1 := if over limit (fed marker settled) then _ else _). set (s2 := evict limit marker s1).
  set (s3 := if over limit (fed marker s2) then _ else _). set (s4 := if over limit (fed marker s3) then _ else _).
  assert (Hst : stage_ok settled s4).
  { transitivity s3; [|apply stage_map, degrade_event_object]. transitivity s2; [|apply stage_map, compact_event_object].
    transitivity s1; [apply stage_map, bound_event_object|apply stage_evict]. }
  destruct Hst as [Hobj Hnil]. specialize (Hobj Ho). clearbody s4. clear s1 s2 s3.
  set (events := if _ && _ then _ else _).
  assert (He : exists l, events = json_to_vec (VArray l) /\ ((settled = [] /\ l = []) \/ list.head l = Some marker \/
     exists newest, list.last l = Some newest /\ forall k, k ∈ GUARD_FIELDS -> get_field k newest = Some (field_or_null k marker))).
  { subst events. destruct (_ && _) eqn:Eb.
    - apply andb_true_iff in Eb as [_ Hne]. eexists. split; [reflexivity|]. right. right.
      destruct (list.last s4) as [x|] eqn:Hx; [|by apply list.last_None in Hx; rewrite Hx in Hne].
      exists (inline_guards marker x). split; [by apply last_update_last|]. intros k Hk. apply inline_guards_fields; [|done].
      rewrite list.Forall_forall in Hobj. apply Hobj. by apply list.last_Some_elem_of.
    - eexists. split; [reflexivity|]. destruct s4 as [|y s4]; [|right; by left]. left. split; [by apply Hnil|done]. }
  clearbody events. destruct (over limit events); [|by right]. destruct (over limit (pack [] _)) eqn:Ea; [by left|].
  right. exists [marker]. split; [done|]. right. by left.
Qed.
(** ** The bound of a turn's input *)

(** The entries shown are the newest of those settled, in order, each perhaps
    shortened but for the same operation. *)
Definition newest_of (shown settled : list Value) : Prop :=
  exists k, Forall2 (fun e e0 => get_str "operation" e = get_str "operation" e0) shown (drop k settled).

#[local] Instance newest_of_preorder : PreOrder newest_of.
Proof.
  split.
  - intros l. exists 0%nat. rewrite drop_0. by apply Forall_Forall2_diag, list.Forall_forall.
  - intros l1 l2 l3 [k1 H1] [k2 H2]. exists (k2 + k1)%nat. rewrite <- drop_drop.
    eapply Forall2_trans; [|exact H1|by apply Forall2_drop]. intros x y z -> ->. done.
Qed.

Lemma newest_map (f : Value -> Value) (b : bool) l :
  (forall v, is_object v -> get_str "operation" (f v) = get_str "operation" v) -> Forall is_object l ->
  newest_of (if b then f <$> l else l) l.
Proof.
  intros Hf Hl. destruct b; [|reflexivity]. exists 0%nat. rewrite drop_0. apply Forall2_fmap_l, Forall_Forall2_diag.
  exact (Forall_impl _ Hf Hl).
Qed.

Lemma newest_evict limit marker l : newest_of (evict limit marker l) l.
Proof.
  induction l as [|x [|y l] IH]; [reflexivity|reflexivity|]. cbn [evict]. destruct (over _ _); [|reflexivity].
  destruct IH as [k IH]. by exists (S k).
Qed.

Lemma get_str_set k k' x v : k <> k' -> is_object v -> get_str k (set_field k' x v) = get_str k v.
Proof. intros Hne Ho. unfold get_str. by rewrite get_set_field, decide_False by done. Qed.

Lemma bound_event_operation v : is_object v -> get_str "operation" (bound_event v) = get_str "operation" v.
Proof. intros Ho. unfold bound_event. repeat case_match; try done. by apply get_str_set. Qed.
Lemma compact_event_operation v : is_object v -> get_str "operation" (compact_event v) = get_str "operation" v.
Proof. intros Ho. unfold compact_event. case_match; [|done]. by apply get_str_set. Qed.
Lemma degrade_event_operation v : is_object v -> get_str "operation" (degrade_event v) = get_str "operation" v.
Proof. intros Ho. unfold degrade_event. destruct (is_child_entry v) eqn:E; [|done]. by apply bool_decide_eq_true in E. Qed.
Lemma inline_guards_operation marker v : is_object v -> get_str "operation" (inline_guards marker v) = get_str "operation" v.
Proof.
  intros Ho. unfold inline_guards, GUARD_FIELDS. cbn [foldl]. rewrite !get_str_set by (try done; repeat apply set_field_object; done). done.
Qed.

Lemma newest_update_last f l : (forall v, is_object v -> get_str "operation" (f v) = get_str "operation" v) -> Forall is_object l ->
  newest_of (update_last f l) l.
Proof.
  intros Hf Hl. exists 0%nat. rewrite drop_0. induction Hl as [|x l Hx Hl IH]; [constructor|].
  destruct l as [|y l]; [by repeat constructor; auto|]. change (update_last f (x :: y :: l)) with (x :: update_last f (y :: l)). by constructor.
Qed.

(** What is fed: nothing, the marker alone, or the newest entries, with the marker
    in front or its guards in the last. *)
Lemma fit_events_entries limit marker settled : Forall is_object settled ->
  fit_events limit marker settled = [] \/
  exists front shown, fit_events limit marker settled = json_to_vec (VArray (front ++ shown)) /\
    (front = [] \/ front = [marker]) /\ newest_of shown settled.
Proof.
  intros Ho. unfold fit_events.
  set (s1 := if over limit (fed marker settled) then _ else _). set (s2 := evict limit marker s1).
  set (s3 := if over limit (fed marker s2) then _ else _). set (s4 := if over limit (fed marker s3) then _ else _).
  assert (O1 : Forall is_object s1) by (by apply (stage_map bound_event); [apply bound_event_object|]).
  assert (O2 : Forall is_object s2) by (by apply stage_evict).
  assert (O3 : Forall is_object s3) by (by apply (stage_map compact_event); [apply compact_event_object|]).
  assert (O4 : Forall is_object s4) by (by apply (stage_map degrade_event); [apply degrade_event_object|]).
  assert (Hn : newest_of s4 settled).
  { transitivity s3; [apply newest_map; [apply degrade_event_operation|done]|].
    transitivity s2; [apply newest_map; [apply compact_event_operation|done]|].
    transitivity s1; [apply newest_evict|apply newest_map; [apply bound_event_operation|done]]. }
  clearbody s4. clear s1 s2 s3 O1 O2 O3. set (events := if _ && _ then _ else _).
  assert (He : exists front shown, events = json_to_vec (VArray (front ++ shown)) /\ (front = [] \/ front = [marker]) /\ newest_of shown settled).
  { subst events. destruct (_ && _).
    - exists [], (update_last (inline_guards marker) s4). split; [done|]. split; [by left|].
      transitivity s4; [apply newest_update_last; [apply inline_guards_operation|done]|done].
    - unfold fed, pack. destruct s4 as [|x s4]; [exists [], []|exists [marker], (x :: s4)]; (split; [done|]); (split; [auto|done]). }
  clearbody events. destruct (over limit events); [|by right]. destruct (over limit (pack [] _)); [by left|]. right.
  exists [marker], []. split; [done|]. split; [by right|]. exists (length settled). by rewrite drop_all.
Qed.

Lemma newest_keep max shown settled :
  newest_of shown (keep_newest max settled) -> (length shown <= max)%nat /\ newest_of shown settled.
Proof.
  intros [k Hk]. unfold keep_newest in Hk. split; [apply Forall2_length in Hk; rewrite !length_drop in Hk; lia|].
  rewrite drop_drop in Hk. by eexists.
Qed.

Lemma children_feed_entries waiting l : Forall (fun e => is_object e /\ is_child_entry e = true) (snd (children_feed waiting l)).
Proof.
  induction l as [|[c task] l IH]; cbn [children_feed]; [constructor|]. destruct (child_excerpt task) as [excerpt hash].
  destruct (children_feed waiting l) as [hashes entries]. cbn in *. destruct (_ && _); [|done]. constructor; [|done].
  split; [by eexists|]. by apply bool_decide_eq_true.
Qed.

End Bounds.
