(* ===== verification/WorkerBase.v ===== *)
(** * Programs of the run worker ([agentd/src/workers/runs.rs],
    [workers/loops.rs])

    A worker step alternates transactions on the store with processes it spawns
    and calls.  It is a program over the actions below; a transaction is atomic,
    and anything may happen elsewhere between two actions. *)

From S2P Require Import Prelude Domain Ids Text Models StoreBase Store SecurityStore ExtensionStore Events Runs RunGraph.
From S2P Require Import EffectPolicy Effects RunServices Bind Coordinator LocalFiles Profiles Config Resolver Bundles.
From S2P Require Import Protocol Supervisor Planning.

Open Scope string_scope.
Open Scope Z_scope.

Definition EFFECT_PORT_ID : string := "effect.execute".
Definition LOOP_NEXT_OPERATION : string := "next".
Definition CLAIM_TTL_MS : Z := 30000.
Definition CALL_TIMEOUT_MS : Z := 30000.
Definition LOOP_CALL_TIMEOUT_MS : Z := 120000.
Definition APPROVAL_TTL_MS : Z := 24 * 60 * 60 * 1000.

(** ** Bundles and dependencies *)

Record AdapterBundle := mkAdapterBundle {
  bn_adapter_id : string;
  bn_version : string;
  bn_dir : FsPath;
  bn_bundle_digest : string;
  bn_isolation : Isolation;
  bn_runtime_type : string }.

Definition local_bundle (b : AdapterBundle) : LocalBundle :=
  mkLocalBundle b.(bn_adapter_id) b.(bn_version) b.(bn_bundle_digest).

(** [RunWorkerDeps], with the environment of the daemon process and the WASM host
    binary it finds. *)
Record RunWorkerDeps := mkRunWorkerDeps {
  wd_coordinator : CommandCoordinator;
  wd_epoch : Z;
  wd_daemon_instance : DaemonInstanceId;
  wd_principal : PrincipalId;
  wd_actor : ActorId;
  wd_bundles : list AdapterBundle;
  wd_loop_scripts : gmap N string;
  wd_loop_env : list (string * string);
  wd_runtime_dir : string;
  wd_effect_env : list (string * string);
  wd_host_env : list (string * string);
  wd_wasm_host : option FsPath }.

Definition SpawnTarget : Type := FsPath * list string * bool.

Definition path_text (p : FsPath) : string := join_with "/" p.

Definition spawn_target (deps : RunWorkerDeps) (bundle : AdapterBundle) (entrypoint : FsPath) : Res SpawnTarget :=
  if bool_decide (bundle.(bn_runtime_type) = "wasm") then
    let? host := ok_or deps.(wd_wasm_host)
      (kerr FailedPrecondition "wasm bundle requires the agentos-wasm-host binary (set AGENTOS_WASM_HOST)") in
    Ok (host, [path_text entrypoint], true)
  else Ok (entrypoint, [], false).

Record SpawnSpec := mkSpawnSpec {
  ss_adapter_id : AdapterId;
  ss_adapter_version : string;
  ss_expected_bundle_digest : string;
  ss_adapter_instance_id : AdapterInstanceId;
  ss_daemon_instance_id : DaemonInstanceId;
  ss_daemon_fencing_epoch : Z;
  ss_protocol_version : Z;
  ss_executable : FsPath;
  ss_argv : list string;
  ss_env : list (string * string);
  ss_isolation : Isolation;
  ss_stdout_ipc : bool }.

(** A running child. *)
Record Child := mkChild { ch_pid : Z; ch_start_identity : string; ch_instance : AdapterInstanceId }.

(** ** Calls to adapters *)

Record EffectExecutionRequest := mkEffectExecutionRequest {
  xr_effect_id : string; xr_operation_id : string; xr_request_hash : string; xr_fencing_token : Z; xr_payload : bytes }.
Record EffectExecutionResponse := mkEffectExecutionResponse { xp_status : string; xp_result_ref : string; xp_error_code : string }.
Record EffectStatusRequest := mkEffectStatusRequest {
  sr_effect_id : string; sr_operation_id : string; sr_provider_operation_ref : string }.
Record EffectStatusResponse := mkEffectStatusResponse { sp_status : string; sp_result_ref : string; sp_error_code : string }.
Record LoopInput := mkLoopInput {
  li_run_id : string; li_run_revision : Z; li_loop_epoch : Z; li_step_sequence : Z; li_input_event_cursor : string;
  li_turn_id : string; li_state : bytes; li_events : bytes }.

(** What the worker asks of an adapter. *)
Inductive AdapterCall :=
  | ExecuteEffect (m : EffectExecutionRequest)
  | QueryEffect (m : EffectStatusRequest)
  | NextTurn (m : LoopInput).

(** [prost::Message::encode_to_vec] of the requests. *)
Class CallContracts := {
  encode_execution_request : EffectExecutionRequest -> bytes;
  encode_status_request : EffectStatusRequest -> bytes;
  encode_loop_input : LoopInput -> bytes;
  decode_execution_response : bytes -> option EffectExecutionResponse;
  decode_status_response : bytes -> option EffectStatusResponse }.

Definition call_request `{!CallContracts} (c : AdapterCall) : PortCallRequest :=
  match c with
  | ExecuteEffect m => mkPortCallRequest ("effect-" +:+ m.(xr_effect_id)) EFFECT_PORT_ID "execute" None (encode_execution_request m)
  | QueryEffect m => mkPortCallRequest ("status-" +:+ m.(sr_effect_id)) EFFECT_PORT_ID "status" None (encode_status_request m)
  | NextTurn m => mkPortCallRequest ("loop-" +:+ m.(li_turn_id)) LOOP_PORT_ID LOOP_NEXT_OPERATION None (encode_loop_input m)
  end.

(** ** Actions and programs *)

Inductive Act : Type -> Type :=
  | OnStore {A} (f : World -> A * World) : Act A
  | ReadDisk : Act Fs
  | InstantNow : Act Z
  | SpawnChild (spec : SpawnSpec) : Act (Res Child)
  | Ipc {A} (child : Child) (f : Stream -> A * Stream) : Act A
  | CallChild (child : Child) (phase : SessionPhase) (call : AdapterCall) (timeout_ms : Z)
      : Act ((PortCallResponse + CallError) * SessionPhase)
  | TerminateChild (child : Child) : Act ExitReason.

Inductive Prog (A : Type) : Type :=
  | Done (a : A)
  | Do {B} (act : Act B) (k : B -> Prog A).
Arguments Done {A} a.
Arguments Do {A B} act k.

Fixpoint prog_bind {A B} (p : Prog A) (f : A -> Prog B) : Prog B :=
  match p with
  | Done a => f a
  | Do act k => Do act (fun x => prog_bind (k x) f)
  end.
Definition act {A} (a : Act A) : Prog A := Do a Done.

(** [p.await?]. *)
Definition prog_try {A B} (p : Prog (Res A)) (f : A -> Prog (Res B)) : Prog (Res B) :=
  prog_bind p (fun r => match r with Ok a => f a | Err e => Done (Err e) end).

Notation "'await!' x ':=' p 'in' k" := (prog_bind p (fun x => k)) (at level 10, x binder, p at level 200, k at level 200).
Notation "'try!' x ':=' p 'in' k" := (prog_try p (fun x => k)) (at level 10, x binder, p at level 200, k at level 200).

Section Transactions.
Context `{!Ext} (deps : RunWorkerDeps).

(** [tx_context()]: a fresh command id. *)
Definition worker_context (w : World) : TxContext * World :=
  (mkTxContext deps.(wd_epoch) deps.(wd_principal) (new_uuid_v7 w.(w_ids)) None,
   mkWorld w.(w_db) (S w.(w_ids)) w.(w_clock)).

(** A write transaction whose body says whether to commit; an error drops it. *)
Definition run_write_as {A} (ctx : TxContext) (body : M (A * bool)) (w : World) : Res A * World :=
  match begin_write ctx w with
  | Err e => (Err e, w)
  | Ok t =>
      match body t with
      | (Ok (a, true), t') => (Ok a, commit_txn t')
      | (Ok (a, false), t') => (Ok a, rollback_txn w t')
      | (Err e, t') => (Err e, rollback_txn w t')
      end
  end.
Definition run_write {A} (body : M (A * bool)) (w : World) : Res A * World :=
  let '(ctx, w1) := worker_context w in run_write_as ctx body w1.
Definition write_txn {A} (body : M (A * bool)) : Prog (Res A) := act (OnStore (run_write body)).

Definition committed {A} (m : M A) : M (A * bool) := let! a := m in ret (a, true).
Definition rolled_back {A} (m : M A) : M (A * bool) := let! a := m in ret (a, false).

(** A read transaction; nothing is fenced and nothing is written. *)
Definition run_read {A} (body : M A) (w : World) : Res A * World :=
  let t := mkTxn w.(w_db) (mkTxContext deps.(wd_epoch) deps.(wd_principal) 0%N None) w.(w_ids) w.(w_clock) in
  let '(r, t') := body t in (r, rollback_txn w t').
Definition read_txn {A} (body : M A) : Prog (Res A) := act (OnStore (run_read body)).

Definition new_id : Prog Uuid :=
  act (OnStore (fun w => (new_uuid_v7 w.(w_ids), mkWorld w.(w_db) (S w.(w_ids)) w.(w_clock)))).
Definition now : Prog Z :=
  act (OnStore (fun w => (clock_ms w.(w_clock), mkWorld w.(w_db) w.(w_ids) (S w.(w_clock))))).

(** [submit]: the command id is drawn before the key is checked. *)
Definition run_submit (command_type : string) (payload : bytes) (key : string) (w : World) : Res unit * World :=
  let command_id := new_uuid_v7 w.(w_ids) in
  let w1 := mkWorld w.(w_db) (S w.(w_ids)) w.(w_clock) in
  match idempotency_key_new key with
  | None => (Err (worker_error InvalidArgument "derived idempotency key malformed"), w1)
  | Some key =>
      let '(r, w2) := execute deps.(wd_coordinator) (mkCommandEnvelope command_id key deps.(wd_principal) deps.(wd_actor)
        None None (mkRequestDigest (sha256 payload)) None None None command_type payload) w1 in
      (res_map (fun _ => tt) r, w2)
  end.
Definition submit (command_type : string) (payload : bytes) (key : string) : Prog (Res unit) :=
  act (OnStore (run_submit command_type payload key)).

(** ** Instance records *)

Definition record_instance_spawn (adapter_id : AdapterId) (version digest : string) (instance : AdapterInstanceId) (child : Child)
    : Prog (Res unit) :=
  write_txn (committed (
    let! started := now_unix_ms in
    adapters_insert_instance (NewAdapterInstance.mk instance adapter_id version digest deps.(wd_daemon_instance)
      (Some child.(ch_pid)) (Some child.(ch_start_identity)) STARTING None None started None))).

Definition mark_instance_ready (instance : AdapterInstanceId) : Prog (Res unit) :=
  write_txn (
    let! beat := now_unix_ms in
    let! moved := adapters_cas_instance_state instance STARTING
      (AdapterInstanceStatePatch.mk (Some READY) None (Some beat) None) in
    ret (tt, moved)).

(** [cas(..).await.unwrap_or(false)]. *)
Definition cas_or_false (instance : AdapterInstanceId) (expect : string) (patch : AdapterInstanceStatePatch) : M bool :=
  let! r := attempt (adapters_cas_instance_state instance expect patch) in
  ret (match r with Ok b => b | Err _ => false end).

(** Best effort: failures are dropped. *)
Definition mark_instance_exit (instance : AdapterInstanceId) (state reason : string) : Prog unit :=
  await! _ := write_txn (
    let patch at_ := AdapterInstanceStatePatch.mk (Some state) (Some reason) None (Some at_) in
    let! at_ready := now_unix_ms in
    let! from_ready := cas_or_false instance READY (patch at_ready) in
    if from_ready then ret (tt, true)
    else
      let! at_starting := now_unix_ms in
      let! from_starting := cas_or_false instance STARTING (patch at_starting) in
      ret (tt, from_starting)) in
  Done tt.
End Transactions.
