(* ===== verification/Worker.v ===== *)
(** * The run worker ([agentd/src/workers/runs.rs], [workers/loops.rs])

    Every step the worker takes for a run: binding, claiming, driving a turn of
    its loop, dispatching and reconciling its effects, and finishing a
    cancellation; and the two internal commands the worker submits. *)

From S2P Require Import Prelude Domain Ids Text Models StoreBase Store SecurityStore ExtensionStore Events Runs RunGraph.
From S2P Require Import EffectPolicy Effects RunServices Turns Bind Coordinator Approvals Recovery LocalFiles Profiles Config.
From S2P Require Import Resolver Bundles Protocol Supervisor Planning LoopFeed WorkerBase.

Open Scope string_scope.
Open Scope Z_scope.

Definition CMD_RUN_WAIT_EXPIRED : string := "agentos.internal.RunWaitExpired".
Definition CMD_RUN_CANCEL_COMPLETE : string := "agentos.internal.RunCancelComplete".
Definition CMD_CLAIM_READY_RUN : string := "agentos.spec.v1.ClaimReadyRun".
Definition CMD_CREATE_TASK_RUN : string := "agentos.spec.v1.CreateTaskRun".
Definition CMD_SCHEDULE_TIMER : string := "agentos.spec.v1.ScheduleTimer".

(** [prost::Message::encode_to_vec] of the commands the worker submits, and
    [decode] of a loop's answer. *)
Class WorkerContracts := {
  encode_bind_run : BindRunMsg -> bytes;
  encode_claim_ready_run : ClaimReadyRunMsg -> bytes;
  encode_create_task_run : CreateTaskRunMsg -> bytes;
  encode_schedule_timer : ScheduleTimerMsg -> bytes;
  encode_create_approval_request : CreateApprovalRequestMsg -> bytes;
  decode_loop_decision : bytes -> option LoopDecision }.

(** ** The environment of a child *)

Definition host_var (deps : RunWorkerDeps) (k : string) : option string :=
  snd <$> List.find (fun kv => bool_decide (kv.1 = k)) deps.(wd_host_env).

(** The allow-listed variables that are set and not empty. *)
Fixpoint allowed_vars (deps : RunWorkerDeps) (keys : list string) : list (string * string) :=
  match keys with
  | [] => []
  | k :: keys =>
      match host_var deps k with
      | Some v => if str_is_empty v then allowed_vars deps keys else (k, v) :: allowed_vars deps keys
      | None => allowed_vars deps keys
      end
  end.
Definition rust_log (deps : RunWorkerDeps) : list (string * string) :=
  match host_var deps "RUST_LOG" with Some level => [("RUST_LOG", level)] | None => [] end.

Definition EFFECT_ENV_ALLOWLIST : list string :=
  ["OPENROUTER_API_KEY"; "OPENROUTER_MODEL"; "OPENROUTER_BASE_URL"; "OPENROUTER_SITE"; "OPENROUTER_APP_NAME";
   "OPENROUTER_TIMEOUT_MS"; "OPENROUTER_ALLOW_ANY_BASE_URL"; "MCP_SERVERS"; "MCP_TIMEOUT_MS"; "MCP_ALLOW_ANY_URL";
   "AGENTOS_HARNESS_ROOT"; "MCP_SERVERS_FILE"; "HOME"].
Definition LOOP_ENV_ALLOWLIST : list string :=
  ["OPENROUTER_API_KEY"; "OPENROUTER_MODEL"; "OPENROUTER_BASE_URL"; "OPENROUTER_SITE"; "OPENROUTER_APP_NAME";
   "OPENROUTER_TIMEOUT_MS"; "OPENROUTER_ALLOW_ANY_BASE_URL"; "ACP_COMMAND"; "ACP_ARGS"; "ACP_CWD"; "ACP_TIMEOUT_MS";
   "ACP_ALLOW_TOOLS"; "ACP_ALLOW_CONNECTOR"; "FIXTURE_LOOP_RECORD_DIR"; "AGENTOS_HARNESS_ROOT"; "HOME"].

Definition effect_env_of (deps : RunWorkerDeps) (adapter_id version : string) : list (string * string) :=
  ([("FIXTURE_ADAPTER_ID", adapter_id); ("FIXTURE_ADAPTER_VERSION", version);
    ("FIXTURE_STORE", deps.(wd_runtime_dir) +:+ "/fixture-store-" +:+ adapter_id +:+ ".json")] ++
   deps.(wd_effect_env) ++ rust_log deps ++ allowed_vars deps EFFECT_ENV_ALLOWLIST ++
   List.filter (fun kv => starts_with "PROVIDER_KEY_" kv.1 && negb (str_is_empty kv.2)) deps.(wd_host_env))%list.

Definition loop_env_of (deps : RunWorkerDeps) (adapter_id version script : string) : list (string * string) :=
  ([("FIXTURE_LOOP_ADAPTER_ID", adapter_id); ("FIXTURE_LOOP_ADAPTER_VERSION", version); ("FIXTURE_LOOP_SCRIPT", script);
    ("AGENTOS_ADAPTER_ID", adapter_id); ("AGENTOS_ADAPTER_VERSION", version)] ++
   deps.(wd_loop_env) ++ rust_log deps ++ allowed_vars deps LOOP_ENV_ALLOWLIST)%list.

Section Worker.
Context `{!Ext} `{!Contracts} `{!BindContracts} `{!ApprovalContracts} `{!Json} `{!ConfigYaml} `{!BundleJson} `{!RegistryJson}.
Context `{!PlanJson} `{!SerdeJson} `{!FrameCodec} `{!MonotonicClock} `{!CallContracts} `{!WorkerContracts}.
Context (deps : RunWorkerDeps).

Definition find_bundle (adapter_id version digest : string) : option AdapterBundle :=
  List.find (fun b => bool_decide (b.(bn_adapter_id) = adapter_id) && bool_decide (b.(bn_version) = version) &&
                      bool_decide (b.(bn_bundle_digest) = digest)) deps.(wd_bundles).

(** [verify_for_spawn] in a transaction that is rolled back. *)
Definition verify_bundle (id : AdapterId) (version digest : string) (bundle : AdapterBundle) : Prog (Res VerifiedBundle) :=
  await! fs := act ReadDisk in
  write_txn deps (rolled_back (verify_for_spawn fs id version digest bundle.(bn_dir))).

(** The reply to the bootstrap frame. *)
Inductive Hello := HelloOk | HelloError (e : KernelError) | HelloOther.

Definition exchange_hello (identity : ExpectedIdentity) (nonce what : string) (s : Stream) : Hello * Stream :=
  match write_frame (bootstrap_frame identity nonce) s with
  | (Err e, s1) => (HelloError e, s1)
  | (Ok _, s1) =>
      let hello_deadline := instant_now s1.(sm_clock) + CALL_TIMEOUT_MS in
      let s2 := Protocol.tick (Protocol.tick s1) in
      if hello_deadline <=? instant_now (S s1.(sm_clock)) then
        (HelloError (worker_error Unavailable (what +:+ " ipc timeout setup failed")), s2)
      else
        match read_frame s2 with
        | (ReadFailed e _, s3) => (HelloError e, s3)
        | (GotFrame (Some (BodyHello hello)), s3) =>
            (match verify_hello identity hello with Ok _ => HelloOk | Err e => HelloError e end, s3)
        | (_, s3) => (HelloOther, s3)
        end
  end.

(** From the verified bundle to a child that said hello; [what] names the adapter
    in messages. *)
Definition establish (what : string) (id : AdapterId) (adapter_text version digest : string) (bundle : AdapterBundle)
    (env : list (string * string)) (instance : AdapterInstanceId) (target : SpawnTarget) : Prog (Res (Child * SessionPhase)) :=
  let '(executable, argv, ipc) := target in
  try! child := act (SpawnChild (mkSpawnSpec id version digest instance deps.(wd_daemon_instance) deps.(wd_epoch) 1
    executable argv env bundle.(bn_isolation) ipc)) in
  await! recorded := record_instance_spawn deps id version digest instance child in
  match recorded with
  | Err e => await! _ := act (TerminateChild child) in Done (Err e)
  | Ok _ =>
      await! nonce := new_id in
      let identity := mkExpectedIdentity deps.(wd_daemon_instance) deps.(wd_epoch) (uuid_hyphenated instance) adapter_text
        version digest 1 in
      await! hello := act (Ipc child (exchange_hello identity (uuid_hyphenated nonce) what)) in
      match hello with
      | HelloError e => Done (Err e)
      | HelloOther =>
          await! _ := mark_instance_exit deps instance INSTANCE_FAILED "handshake failed" in
          await! _ := act (TerminateChild child) in
          Done (Err (worker_error Unavailable (what +:+ " adapter did not complete the handshake")))
      | HelloOk =>
          await! ready := mark_instance_ready deps instance in
          match ready with
          | Err e => await! _ := act (TerminateChild child) in Done (Err e)
          | Ok _ => Done (Ok (child, Ready))
          end
      end
  end.

Definition spawn_effect_adapter (effect : EffectRow) : Prog (Res (Child * SessionPhase)) :=
  let adapter_text := uuid_hyphenated effect.(EffectRow.adapter_id) in
  let version := effect.(EffectRow.adapter_version) in
  let digest := effect.(EffectRow.adapter_digest) in
  try! bundle := Done (ok_or (find_bundle adapter_text version digest)
    (worker_error FailedPrecondition "no local bundle for the frozen effect adapter")) in
  try! id := Done (ok_or (uuid_v7_from_str adapter_text) (worker_error Internal "effect adapter id is not an adapter id")) in
  try! verified := verify_bundle id version digest bundle in
  await! instance := new_id in
  try! target := Done (spawn_target deps bundle verified.(vb_entrypoint)) in
  establish "effect" id adapter_text version digest bundle (effect_env_of deps adapter_text version) instance target.

(** ** Effects *)

Definition executor_id : string := "agentd.run-worker." +:+ u64_to_string deps.(wd_epoch).
Definition effect_env : EffectEnv := mkEffectEnv None None.

(** [lease.is_some_and(|lease| lease > clock.now_unix_ms())]. *)
Definition lease_live (lease : option Z) : M bool :=
  match lease with
  | None => ret false
  | Some lease => let! now_ms := now_unix_ms in ret (now_ms <? lease)
  end.

(** The token to dispatch under: a new claim, or one this worker still holds. *)
Definition dispatch_token (id : EffectId) : M (option Z) :=
  let! outcome := effect_claim effect_env id executor_id in
  match outcome with
  | Claimed fencing_token _ => ret (Some fencing_token)
  | Busy row =>
      if bool_decide (row.(EffectRow.executor_id) = Some executor_id) &&
         bool_decide (row.(EffectRow.daemon_fencing_epoch) = Some deps.(wd_epoch)) then
        let! live := lease_live row.(EffectRow.lease_expires_ms) in
        ret (if live then row.(EffectRow.executor_fencing_token) else None)
      else ret None
  end.

(** Claim and [Dispatched] in one transaction, before any external call. *)
Definition begin_dispatch (id : EffectId) : M (option Z * bool) :=
  let! token := dispatch_token id in
  match token with
  | Some token =>
      do! mark_dispatched effect_env id (mkExecutorRef executor_id token) (Some (uuid_hyphenated id)) in
      ret (Some token, true)
  | None => ret (None, false)
  end.

(** Spawns the adapter of an effect, makes one call and ends the process. *)
Definition call_effect_adapter (effect : EffectRow) (call : AdapterCall) : Prog (PortCallResponse + CallError) :=
  await! spawned := spawn_effect_adapter effect in
  match spawned with
  | Err e => Done (inr (CallKernel e))
  | Ok (child, phase) =>
      await! answer := act (CallChild child phase call CALL_TIMEOUT_MS) in
      await! reason := act (TerminateChild child) in
      await! _ := mark_instance_exit deps child.(ch_instance) EXITED (exit_reason_to_string reason) in
      Done answer.1
  end.

(** The transaction that records an answer: [None] when it is left to the
    reconciler. *)
Definition settle_answer (effect : EffectRow) (token : Z) (answer : PortCallResponse + CallError) : M (unit * bool) :=
  let id := effect.(EffectRow.effect_id) in
  let executor := mkExecutorRef executor_id token in
  match answer with
  | inl response =>
      if str_is_empty response.(ps_error_code) then
        match decode_execution_response response.(ps_payload) with
        | Some decoded =>
            if bool_decide (decoded.(xp_status) = "succeeded") then
              do! acknowledge effect_env id executor (Some decoded.(xp_result_ref)) in
              do! commit effect_env id executor (Some decoded.(xp_result_ref)) in
              ret (tt, true)
            else
              do! fail effect_env id executor
                    (if str_is_empty decoded.(xp_error_code) then decoded.(xp_status) else decoded.(xp_error_code)) in
              ret (tt, true)
        | None => raise (worker_error InvalidArgument "effect adapter response did not decode")
        end
      else ret (tt, false)
  | inr _ => ret (tt, false)
  end.

Definition dispatch_effect (effect : EffectRow) : Prog (Res unit) :=
  let id := effect.(EffectRow.effect_id) in
  try! token := write_txn deps (begin_dispatch id) in
  match token with
  | None => Done (Ok tt)
  | Some token =>
      await! answer := call_effect_adapter effect (ExecuteEffect (mkEffectExecutionRequest (uuid_hyphenated id)
        (uuid_hyphenated id) effect.(EffectRow.request_hash) token effect.(EffectRow.request_payload))) in
      write_txn deps (settle_answer effect token answer)
  end.

Definition observed_of (response : PortCallResponse) : ObservedOutcome :=
  match decode_status_response response.(ps_payload) with
  | Some decoded =>
      if bool_decide (decoded.(sp_status) = "succeeded") then ObsSucceeded decoded.(sp_result_ref)
      else if bool_decide (decoded.(sp_status) = "failed") then ObsFailed decoded.(sp_error_code)
      else if bool_decide (decoded.(sp_status) = "not_found") then ObsNotFound
      else ObsUnknown
  | None => ObsUnknown
  end.

Definition maybe_reconcile_effect (effect : EffectRow) : Prog (Res unit) :=
  let id := effect.(EffectRow.effect_id) in
  let epoch_stale := negb (bool_decide (effect.(EffectRow.daemon_fencing_epoch) = Some deps.(wd_epoch))) in
  await! lease_dead := match effect.(EffectRow.lease_expires_ms) with
    | Some lease => await! now_ms := now in Done (lease <=? now_ms)
    | None => Done false
    end in
  let mine := bool_decide (effect.(EffectRow.executor_id) = Some executor_id) && negb epoch_stale in
  if negb mine && negb epoch_stale && negb lease_dead then Done (Ok tt)
  else
    let operation_id := match effect.(EffectRow.provider_operation_ref) with Some r => r | None => uuid_hyphenated id end in
    await! answer := call_effect_adapter effect (QueryEffect (mkEffectStatusRequest (uuid_hyphenated id) operation_id operation_id)) in
    match answer with
    | inr _ => Done (Ok tt)
    | inl response =>
        if negb (str_is_empty response.(ps_error_code)) then Done (Ok tt)
        else write_txn deps (committed (
          do! apply_observed effect_env id (reconcile_plan effect (observed_of response)) in ret tt))
    end.

Definition commit_acknowledged (effect : EffectRow) : Prog (Res unit) :=
  let id := effect.(EffectRow.effect_id) in
  write_txn deps (committed (
    let! live :=
      match effect.(EffectRow.executor_id), effect.(EffectRow.executor_fencing_token) with
      | Some _, Some _ =>
          if bool_decide (effect.(EffectRow.daemon_fencing_epoch) = Some deps.(wd_epoch))
          then lease_live effect.(EffectRow.lease_expires_ms) else ret false
      | _, _ => ret false
      end in
    match effect.(EffectRow.executor_id), effect.(EffectRow.executor_fencing_token) with
    | Some executor, Some token =>
        if live then do! commit effect_env id (mkExecutorRef executor token) effect.(EffectRow.result_ref) in ret tt
        else do! commit_durable effect_env id effect.(EffectRow.result_ref) in ret tt
    | _, _ => do! commit_durable effect_env id effect.(EffectRow.result_ref) in ret tt
    end)).

(** ** Claims and waits *)

Definition claim_owner_text : string := "run-worker:" +:+ uuid_hyphenated deps.(wd_actor).

Definition claim_ours (row : RunRow) : bool :=
  bool_decide (row.(RunRow.claim_daemon_epoch) = Some deps.(wd_epoch)) &&
  bool_decide (row.(RunRow.claim_owner) = Some claim_owner_text).

(** The claim a worker stamps on a run. *)
Definition worker_claim (now_ms token : Z) : ClaimPatch :=
  ClaimPatch.mk claim_owner_text token (i64_saturating_add now_ms CLAIM_TTL_MS) deps.(wd_epoch).

Definition restake_patch (claim : ClaimPatch) : RunPatch :=
  RunPatch.mk None None None None None None None (Some claim) None None None true.
Definition reclaim_patch (loop_epoch : Z) (claim : ClaimPatch) : RunPatch :=
  RunPatch.mk None (Some RecoveryDisposition.Normal) (Some loop_epoch) None None None None (Some claim) None None None true.

(** Both read the clock, then draw the token inside the transaction. *)
Definition restake_claim (row : RunRow) : Prog (Res unit) :=
  await! now_ms := now in
  write_txn deps (
    let! token := fresh_token in
    let! moved := runs_cas_update row.(RunRow.run_id) (RunCas.mk row.(RunRow.run_revision) (Some row.(RunRow.state)) None)
      (restake_patch (worker_claim now_ms token)) in
    ret (tt, moved)).

Definition wait_expired (row : RunRow) : M bool :=
  let! timers := timers_list_by_run row.(RunRow.run_id) in
  ret (existsb (fun t => bool_decide (t.(TimerRow.state) = TimerState.Fired)) timers).

Definition children_terminal (row : RunRow) : M bool :=
  let! children := runs_list_children row.(RunRow.run_id) in
  ret (negb (match children with [] => true | _ => false end) &&
       forallb (fun c => run_is_terminal c.(RunRow.state)) children).

(** ** The worker's own state *)

Record LoopHandle := mkLoopHandle { lh_child : Child; lh_phase : SessionPhase }.
Record WorkerState := mkWorkerState { ws_loops : gmap N LoopHandle; ws_context_limits : gmap N ContextLimits }.
Definition set_loops (l : gmap N LoopHandle) (ws : WorkerState) : WorkerState := mkWorkerState l ws.(ws_context_limits).

(** A step returns its outcome and the worker's state. *)
Definition Step : Type := Prog (Res unit * WorkerState).
Definition plain (ws : WorkerState) (p : Prog (Res unit)) : Step := await! r := p in Done (r, ws).

Definition stop_loop (run_id : RunId) (state : string) (ws : WorkerState) : Prog WorkerState :=
  match ws.(ws_loops) !! run_id with
  | None => Done ws
  | Some handle =>
      await! reason := act (TerminateChild handle.(lh_child)) in
      await! _ := mark_instance_exit deps handle.(lh_child).(ch_instance) state (exit_reason_to_string reason) in
      Done (set_loops (base.delete run_id ws.(ws_loops)) ws)
  end.

Definition reclaim (row : RunRow) (ws : WorkerState) : Step :=
  await! ws := stop_loop row.(RunRow.run_id) INSTANCE_FAILED ws in
  await! now_ms := now in
  plain ws (write_txn deps (
    let! token := fresh_token in
    let! moved := runs_cas_update row.(RunRow.run_id) (RunCas.mk row.(RunRow.run_revision) (Some RunState.Running) None)
      (reclaim_patch (u64_wrapping_add row.(RunRow.loop_epoch) 1) (worker_claim now_ms token)) in
    ret (tt, moved))).

(** The transaction of [step_waiting_human]: whether the run was failed, and
    whether to commit. *)
Definition resume_human (row : RunRow) (now_ms : Z) : M (bool * bool) :=
  let! approvals := security_list_approvals_by_run row.(RunRow.run_id) in
  match latest_approval approvals with
  | None => ret (false, false)
  | Some latest =>
      match approval_digest_from_str latest.(ApprovalRequestRow.request_digest) with
      | Err _ => ret (false, false)
      | Ok expected =>
          let! outcome := is_satisfied latest.(ApprovalRequestRow.request_id) expected now_ms in
          match (match outcome with
                 | Approved => Some (RunState.Running, None)
                 | Denied => Some (RunState.Failed, Some "approval denied")
                 | _ => None
                 end) with
          | None => ret (false, false)
          | Some (next, reason) =>
              let! moved := runs_cas_update row.(RunRow.run_id)
                (RunCas.mk row.(RunRow.run_revision) (Some RunState.WaitingHuman) None)
                (RunPatch.mk (Some next) None None None None None None None reason None None true) in
              ret (moved && bool_decide (next = RunState.Failed), moved)
          end
      end
  end.

Definition step_waiting_human (row : RunRow) (ws : WorkerState) : Step :=
  await! now_ms := now in
  await! failed := write_txn deps (resume_human row now_ms) in
  match failed with
  | Err e => Done (Err e, ws)
  | Ok false => Done (Ok tt, ws)
  | Ok true => await! ws := stop_loop row.(RunRow.run_id) INSTANCE_FAILED ws in Done (Ok tt, ws)
  end.

Definition finalize_cancel (row : RunRow) (ws : WorkerState) : Step :=
  await! ws := stop_loop row.(RunRow.run_id) EXITED ws in
  let id := uuid_hyphenated row.(RunRow.run_id) in
  plain ws (submit deps CMD_RUN_CANCEL_COMPLETE (into_bytes id) ("cancel-complete." +:+ id)).

Definition bind (row : RunRow) : Prog (Res unit) :=
  try! plan := write_txn deps (rolled_back (plan (local_bundle <$> deps.(wd_bundles)) row)) in
  submit deps CMD_BIND_RUN (encode_bind_run (bind_message row plan)) ("bind." +:+ uuid_hyphenated row.(RunRow.run_id)).

Definition claim (row : RunRow) : Prog (Res unit) :=
  let id := uuid_hyphenated row.(RunRow.run_id) in
  submit deps CMD_CLAIM_READY_RUN (encode_claim_ready_run (mkClaimReadyRunMsg id claim_owner_text CLAIM_TTL_MS)) ("claim." +:+ id).

(** ** Driving a turn *)

Definition spawn_loop (row : RunRow) : Prog (Res LoopHandle) :=
  try! environment := read_txn deps (
    let! id := lift_res (ok_or row.(RunRow.resolved_environment_id) (worker_error FailedPrecondition "run is not bound")) in
    let! got := environments_get id in
    lift_res (ok_or got (worker_error NotFound "run environment missing"))) in
  let adapter_text := environment.(ResolvedEnvironmentRow.agent_loop_id) in
  let version := environment.(ResolvedEnvironmentRow.agent_loop_version) in
  let digest := environment.(ResolvedEnvironmentRow.agent_loop_digest) in
  let script := from_option (fun s => s) "" (deps.(wd_loop_scripts) !! row.(RunRow.run_id)) in
  try! id := Done (ok_or (uuid_v7_from_str adapter_text) (worker_error Internal "bound agent_loop id is not an adapter id")) in
  try! bundle := Done (ok_or (find_bundle adapter_text version digest)
    (worker_error FailedPrecondition "no local bundle for the frozen loop adapter")) in
  try! verified := verify_bundle id version digest bundle in
  await! instance := new_id in
  try! target := Done (spawn_target deps bundle verified.(vb_entrypoint)) in
  try! established := establish "loop" id adapter_text version digest bundle (loop_env_of deps adapter_text version script)
    instance target in
  Done (Ok (mkLoopHandle established.1 established.2)).

(** [drive_turn]: issue, call, accept; the phase the session is left in. *)
Definition drive_turn (ctx : TxContext) (handle : LoopHandle) (run : RunId) (state events : bytes) (now_ms : Z)
    : Prog (Res AcceptOutcome * SessionPhase) :=
  await! issued := act (OnStore (run_write_as ctx (committed (issue_turn run now_ms)))) in
  match issued with
  | Err e => Done (Err e, handle.(lh_phase))
  | Ok turn =>
      let input := mkLoopInput (uuid_hyphenated turn.(LoopTurnRow.run_id)) turn.(LoopTurnRow.run_revision)
        turn.(LoopTurnRow.loop_epoch) turn.(LoopTurnRow.step_sequence) (cursor_to_string turn.(LoopTurnRow.input_event_cursor))
        (uuid_hyphenated turn.(LoopTurnRow.turn_id)) state events in
      await! answer := act (CallChild handle.(lh_child) handle.(lh_phase) (NextTurn input) LOOP_CALL_TIMEOUT_MS) in
      match answer.1 with
      | inr (CallCancelled id) => Done (Err (worker_error Unavailable ("loop call " +:+ id +:+ " cancelled")), answer.2)
      | inr (CallKernel e) => Done (Err e, answer.2)
      | inr CallOutOfFuel => Done (Err (worker_error Internal "call out of fuel"), answer.2)
      | inl response =>
          if negb (str_is_empty response.(ps_error_code)) then
            Done (Err (worker_error FailedPrecondition ("loop adapter rejected the call: " +:+ response.(ps_error_code))), answer.2)
          else
            match decode_loop_decision response.(ps_payload) with
            | None => Done (Err (worker_error InvalidArgument "loop response did not decode"), answer.2)
            | Some decision =>
                await! outcome := act (OnStore (run_write_as ctx (committed
                  (accept_decision turn.(LoopTurnRow.run_id) decision response.(ps_payload) now_ms)))) in
                Done (outcome, answer.2)
            end
      end
  end.

Definition follow_up (row : RunRow) (instruction : DecisionInstruction) (ws : WorkerState) : Step :=
  let id := uuid_hyphenated row.(RunRow.run_id) in
  let step := u64_to_string row.(RunRow.step_sequence) in
  match instruction with
  | Complete _ | Fail _ => await! ws := stop_loop row.(RunRow.run_id) EXITED ws in Done (Ok tt, ws)
  | SpawnAgent child_request =>
      match decode_create_task_run child_request with
      | None => Done (Err (worker_error InvalidArgument "spawn child request is not a CreateTaskRun"), ws)
      | Some request =>
          let task_id := if str_is_empty request.(ct_task_id) && match request.(ct_task_payload) with [] => true | _ => false end
            then uuid_hyphenated row.(RunRow.task_id) else request.(ct_task_id) in
          plain ws (submit deps CMD_CREATE_TASK_RUN (encode_create_task_run (mkCreateTaskRunMsg task_id request.(ct_run_id)
            request.(ct_session_id) request.(ct_task_kind) request.(ct_task_payload) request.(ct_agent_spec_ref) id
            request.(ct_observed_parent_cancellation_epoch) request.(ct_requested_profile) request.(ct_workspace_uri)
            request.(ct_requested_capabilities) request.(ct_requested_budget))) ("spawn." +:+ id +:+ "." +:+ step))
      end
  | Wait _ timer_id =>
      await! timer := if str_is_empty timer_id then await! u := new_id in Done (uuid_hyphenated u) else Done timer_id in
      await! due := now in
      plain ws (submit deps CMD_SCHEDULE_TIMER (encode_schedule_timer
        (mkScheduleTimerMsg timer id CMD_RUN_WAIT_EXPIRED due (into_bytes id))) ("wait." +:+ id +:+ "." +:+ timer))
  | RequestApproval approval_draft =>
      match decode_create_approval_request approval_draft with
      | None => Done (Err (worker_error InvalidArgument "approval draft is not a CreateApprovalRequest"), ws)
      | Some draft =>
          await! expires := if draft.(car_expires_at_ms) =? 0
            then await! n := now in Done (i64_wrapping_add n APPROVAL_TTL_MS) else Done draft.(car_expires_at_ms) in
          plain ws (submit deps CMD_CREATE_APPROVAL_REQUEST (encode_create_approval_request (mkCreateApprovalRequestMsg
            draft.(car_request_id) draft.(car_principal_id) draft.(car_actor_id) draft.(car_run_id) draft.(car_operation)
            draft.(car_target_resource) draft.(car_capability_ids) draft.(car_extension_bundle_digest)
            draft.(car_config_generation_digest) expires draft.(car_nonce))) ("approval." +:+ id +:+ "." +:+ step))
      end
  | InvokeEffect _ _ _ => Done (Ok tt, ws)
  end.

(** [context_limits_for]: cached by environment. *)
Definition context_limits_for (row : RunRow) (ws : WorkerState) : Prog (Res ContextLimits * WorkerState) :=
  match row.(RunRow.resolved_environment_id) with
  | None => Done (Ok context_limits_default, ws)
  | Some env_id =>
      match ws.(ws_context_limits) !! env_id with
      | Some limits => Done (Ok limits, ws)
      | None =>
          await! loaded := read_txn deps (
            let! got := environments_get env_id in
            let! env := lift_res (ok_or got (worker_error Internal "frozen environment row is missing")) in
            let! got := config_get_generation env.(ResolvedEnvironmentRow.config_generation_id) in
            let! generation := lift_res (ok_or got (worker_error Internal "frozen config generation row is missing")) in
            lift_res (match generation_document (worker_error Internal "") generation.(ConfigGenerationRow.document) with
                      | Ok doc => Ok doc.(cd_limits).(ls_context)
                      | Err _ => Err (worker_error Internal "frozen config document is unreadable")
                      end)) in
          Done (loaded, match loaded with
                        | Ok limits => mkWorkerState ws.(ws_loops) (<[env_id := limits]> ws.(ws_context_limits))
                        | Err _ => ws
                        end)
      end
  end.

(** The turn itself, once a loop process is at hand. *)
Definition drive_with (row : RunRow) (handle : LoopHandle) (ws : WorkerState) : Step :=
  await! command := new_id in
  let ctx := mkTxContext deps.(wd_epoch) deps.(wd_principal) command None in
  await! loaded := context_limits_for row ws in
  let ws := loaded.2 in
  match loaded.1 with
  | Err e => Done (Err e, ws)
  | Ok limits =>
      await! context := read_txn deps (loop_context limits row) in
      match context with
      | Err e => Done (Err e, ws)
      | Ok (state, events) =>
          await! now_ms := now in
          await! turned := drive_turn ctx handle row.(RunRow.run_id) state events now_ms in
          let ws := set_loops (<[row.(RunRow.run_id) := mkLoopHandle handle.(lh_child) turned.2]> ws.(ws_loops)) ws in
          match turned.1 with
          | Err e => await! ws := stop_loop row.(RunRow.run_id) INSTANCE_FAILED ws in Done (Err e, ws)
          | Ok (Accepted _ instruction) => follow_up row instruction ws
          | Ok (DecisionReplayed _) => Done (Ok tt, ws)
          end
      end
  end.

Definition drive (row : RunRow) (ws : WorkerState) : Step :=
  if negb (claim_ours row) then Done (Ok tt, ws)
  else
    match ws.(ws_loops) !! row.(RunRow.run_id) with
    | Some handle => drive_with row handle ws
    | None =>
        await! spawned := spawn_loop row in
        match spawned with
        | Err e => Done (Err e, ws)
        | Ok handle => drive_with row handle (set_loops (<[row.(RunRow.run_id) := handle]> ws.(ws_loops)) ws)
        end
    end.

(** ** Waiting for tools *)

Definition step_effect (effect : EffectRow) : Prog (Res unit) :=
  match effect.(EffectRow.state) with
  | EffectState.Prepared | EffectState.Claimed => dispatch_effect effect
  | EffectState.Dispatched => maybe_reconcile_effect effect
  | EffectState.Acknowledged => commit_acknowledged effect
  | _ => Done (Ok tt)
  end.

Fixpoint step_effects (l : list EffectRow) : Prog (Res unit) :=
  match l with
  | [] => Done (Ok tt)
  | effect :: l => try! _ := step_effect effect in step_effects l
  end.

Definition step_waiting_tool (row : RunRow) (ws : WorkerState) : Step :=
  await! listed := read_txn deps (effects_list_by_run row.(RunRow.run_id)) in
  match listed with
  | Err e => Done (Err e, ws)
  | Ok effects =>
      if existsb (fun e => bool_decide (e.(EffectRow.state) = EffectState.Unknown)) effects then Done (Ok tt, ws)
      else
        match List.filter (fun e => effect_is_in_flight e.(EffectRow.state)) effects with
        | [] =>
            await! again := read_txn deps (effects_list_by_run row.(RunRow.run_id)) in
            match again with
            | Err e => Done (Err e, ws)
            | Ok (_ :: _) => drive row ws
            | Ok [] =>
                await! expired := read_txn deps (wait_expired row) in
                match expired with
                | Err e => Done (Err e, ws)
                | Ok true => drive row ws
                | Ok false => Done (Ok tt, ws)
                end
            end
        | in_flight => plain ws (step_effects in_flight)
        end
  end.

(** ** A step and a tick *)

Definition step (row : RunRow) (ws : WorkerState) : Step :=
  match row.(RunRow.state) with
  | RunState.Created => plain ws (bind row)
  | RunState.Ready => plain ws (claim row)
  | RunState.Running =>
      if bool_decide (row.(RunRow.recovery) = RecoveryDisposition.Recovering) then reclaim row ws else drive row ws
  | RunState.WaitingTool => if claim_ours row then step_waiting_tool row ws else plain ws (restake_claim row)
  | RunState.WaitingChild =>
      if negb (claim_ours row) then plain ws (restake_claim row)
      else
        await! settled := read_txn deps (children_terminal row) in
        match settled with
        | Err e => Done (Err e, ws)
        | Ok true => drive row ws
        | Ok false => Done (Ok tt, ws)
        end
  | RunState.WaitingHuman => if negb (claim_ours row) then plain ws (restake_claim row) else step_waiting_human row ws
  | RunState.Cancelling => finalize_cancel row ws
  | _ => Done (Ok tt, ws)
  end.

(** [poll * 2^(fails - 1)], at most [2^7] times, and at most five seconds. *)
Definition backoff_ms (poll_ms fails : Z) : Z := Z.min (poll_ms * 2 ^ Z.min (fails - 1) 7) 5000.

Record Driver := mkDriver { dr_worker : WorkerState; dr_retry_after : gmap N (Z * Z) }.

Definition record_outcome (poll_ms : Z) (id : RunId) (outcome : Res unit) (instant : Z) (retry : gmap N (Z * Z)) : gmap N (Z * Z) :=
  match outcome with
  | Ok _ => base.delete id retry
  | Err _ =>
      let fails := match retry !! id with Some (n, _) => Z.min (n + 1) (2 ^ 32 - 1) | None => 1 end in
      <[id := (fails, instant + backoff_ms poll_ms fails)]> retry
  end.

(** Whether a run is still backing off. *)
Definition backing_off (retry : gmap N (Z * Z)) (id : RunId) (instant : Z) : bool :=
  match retry !! id with Some (_, next) => instant <? next | None => false end.

Fixpoint step_runs (poll_ms started : Z) (rows : list RunRow) (dr : Driver) : Prog Driver :=
  match rows with
  | [] => Done dr
  | row :: rows =>
      if backing_off dr.(dr_retry_after) row.(RunRow.run_id) started then step_runs poll_ms started rows dr
      else
        await! stepped := step row dr.(dr_worker) in
        await! instant := match stepped.1 with Ok _ => Done 0 | Err _ => act InstantNow end in
        step_runs poll_ms started rows
          (mkDriver stepped.2 (record_outcome poll_ms row.(RunRow.run_id) stepped.1 instant dr.(dr_retry_after)))
  end.

Definition tick (poll_ms : Z) (dr : Driver) : Prog (Res unit * Driver) :=
  await! listed := read_txn deps runs_list_active in
  match listed with
  | Err e => Done (Err e, dr)
  | Ok active =>
      let ids : gset N := list_to_set (RunRow.run_id <$> active) in
      let retry := filter (fun kv => kv.1 ∈ ids) dr.(dr_retry_after) in
      await! started := act InstantNow in
      await! dr := step_runs poll_ms started active (mkDriver dr.(dr_worker) retry) in
      Done (Ok tt, dr)
  end.
End Worker.

(** ** Internal commands *)

Section InternalCommands.
Context `{!Ext}.

Definition internal_run_id (command : string) (payload : bytes) : Res RunId :=
  let? text := ok_or (from_utf8 payload) (worker_error InvalidArgument (command +:+ " payload is not utf-8")) in
  ok_or (uuid_v7_from_str text) (worker_error InvalidArgument (command +:+ " payload is not a run id")).

Definition run_wait_expired_handle (ctx : CommandContext) (payload : bytes) : M CommandOutcome :=
  let! run_id := lift_res (internal_run_id "wait-expired" payload) in
  let! got := runs_get run_id in
  let! run := lift_res (ok_or got (worker_error NotFound "run not found")) in
  if bool_decide (run.(RunRow.state) = RunState.WaitingTool) then
    do! runs_cas_update run_id (RunCas.mk run.(RunRow.run_revision) (Some RunState.WaitingTool) None)
          (state_patch RunState.Running None) in
    ret (mkCommandOutcome OutcomeOk [])
  else ret (mkCommandOutcome OutcomeOk []).

Definition run_cancel_complete_handle (ctx : CommandContext) (payload : bytes) : M CommandOutcome :=
  let! run_id := lift_res (internal_run_id "cancel-complete" payload) in
  let! got := runs_get run_id in
  let! run := lift_res (ok_or got (worker_error NotFound "run not found")) in
  if run_is_terminal run.(RunRow.state) then ret (mkCommandOutcome OutcomeOk [])
  else
  guard! bool_decide (run.(RunRow.state) = RunState.Cancelling)
    else worker_error FailedPrecondition "run is not cancelling" in
  let! moved := runs_cas_update run_id (RunCas.mk run.(RunRow.run_revision) (Some RunState.Cancelling) None)
    (state_patch RunState.Cancelled (Some REASON_CANCELLED)) in
  guard! moved else worker_error Conflict "run moved during cancel finalization" in
  do! for_each ["RunCancelled"; "RunStateChanged"] (fun event_type =>
        stage_on_run event_type run_id (into_bytes (uuid_hyphenated run_id)) ctx.(cc_correlation_id)) in
  ret (mkCommandOutcome OutcomeOk []).
End InternalCommands.
