(* ===== verification/WorkerSafety.v ===== *)
(** * What the run worker may do to effects

    A small program logic for worker programs and, with it, the safety of effect
    execution: however workers, other services, crashes and restarts interleave,
    an adapter is asked to execute an effect at most once per claim. *)

From S2P Require Import Prelude Domain Ids Text Models StoreBase Store SecurityStore ExtensionStore Events Runs RunGraph.
From S2P Require Import EffectPolicy Effects Kernel RunServices Turns Bind Coordinator Approvals Recovery LocalFiles Profiles Config.
From S2P Require Import Resolver Bundles Protocol Supervisor Planning LoopFeed WorkerBase Worker.

Open Scope string_scope.
Open Scope Z_scope.

(** ** Permits *)

(** The right to have an effect executed under a fencing token. *)
Definition Permit : Type := EffectId * Z.

(** A token that can not be dispatched again: the row has moved past the claim. *)
Definition spent (d : Db) (x : Permit) : Prop :=
  exists r, d.(effects) !! x.1 = Some r /\ x.2 <= fencing_token r /\
    (r.(EffectRow.state) = EffectState.Claimed -> x.2 < fencing_token r).

Lemma spent_evolves d d' x : effects_rel d d' -> spent d x -> spent d' x.
Proof.
  intros [_ He] (r & Hr & Ht & Hc). destruct (He _ _ Hr) as (r' & Hr' & [_ _ Htok Hcl]). exists r'. split; [done|].
  split; [lia|]. intros Hs. destruct (Hcl Hs) as [Hs0|Hlt]; [specialize (Hc Hs0)|]; lia.
Qed.

(** A transaction hands out a permit that was not spent and now is. *)
Definition granted (d : Db) (p p' : option Permit) (d' : Db) : Prop :=
  p' = p \/ exists x, p' = Some x /\ ~ spent d x /\ spent d' x.

(** The call that uses a permit. *)
Definition call_uses `{!Ext} (x : Permit) (m : EffectExecutionRequest) : Prop :=
  m.(xr_effect_id) = uuid_hyphenated x.1 /\ m.(xr_fencing_token) = x.2.

(** ** A program logic *)

Section Logic.
Context `{!Ext}.

(** What an action may do while holding [p], and what holds of its result. *)
Definition act_ok {B} (p : option Permit) (a : Act B) : (B -> option Permit -> Prop) -> Prop :=
  match a in Act B return (B -> option Permit -> Prop) -> Prop with
  | OnStore f => fun post => forall w, effects_rel w.(w_db) (f w).2.(w_db) /\
      exists p', granted w.(w_db) p p' (f w).2.(w_db) /\ post (f w).1 p'
  | CallChild _ _ (ExecuteEffect m) _ => fun post => (exists x, p = Some x /\ call_uses x m) /\ forall b, post b None
  | _ => fun post => forall b, post b p
  end.

Fixpoint wp {A} (p : option Permit) (m : Prog A) (Q : A -> option Permit -> Prop) : Prop :=
  match m with
  | Done a => Q a p
  | Do a k => act_ok p a (fun b p' => wp p' (k b) Q)
  end.

Lemma act_ok_mono {B} p (a : Act B) (P Q : B -> option Permit -> Prop) :
  (forall b p', P b p' -> Q b p') -> act_ok p a P -> act_ok p a Q.
Proof.
  intros HPQ. destruct a as [B f| | | | |child phase [m|m|m] ms|]; cbn; eauto.
  - intros Hw w. destruct (Hw w) as (He & p' & Hg & Hp). eauto.
  - intros [Hx Hp]. eauto.
Qed.

Lemma wp_mono {A} (m : Prog A) p (P Q : A -> option Permit -> Prop) :
  (forall a p', P a p' -> Q a p') -> wp p m P -> wp p m Q.
Proof.
  intros HPQ. revert p. induction m as [a|B a k IH]; intros p; cbn; [apply HPQ|]. apply act_ok_mono. intros b p'. apply IH.
Qed.

Lemma wp_bind {A B} (m : Prog A) (f : A -> Prog B) p Q :
  wp p m (fun a p' => wp p' (f a) Q) -> wp p (prog_bind m f) Q.
Proof. revert p. induction m as [a|C a k IH]; intros p; cbn; [done|]. apply act_ok_mono. intros b p'. apply IH. Qed.

(** A program that neither takes nor uses a permit. *)
Definition quiet {A} (m : Prog A) : Prop := forall p (Q : A -> option Permit -> Prop), (forall a, Q a p) -> wp p m Q.

Definition keeps {A} (f : World -> A * World) : Prop := forall w, effects_rel w.(w_db) (f w).2.(w_db).

Lemma quiet_done {A} (a : A) : quiet (Done a).
Proof. intros p Q HQ. apply HQ. Qed.
Lemma quiet_bind {A B} (m : Prog A) (f : A -> Prog B) : quiet m -> (forall a, quiet (f a)) -> quiet (prog_bind m f).
Proof. intros Hm Hf p Q HQ. apply wp_bind, Hm. intros a. by apply Hf. Qed.
Lemma quiet_try {A B} (m : Prog (Res A)) (f : A -> Prog (Res B)) : quiet m -> (forall a, quiet (f a)) -> quiet (prog_try m f).
Proof. intros Hm Hf. apply quiet_bind; [done|]. intros [a|e]; [apply Hf|apply quiet_done]. Qed.
Lemma quiet_store {A} (f : World -> A * World) : keeps f -> quiet (act (OnStore f)).
Proof. intros Hf p Q HQ w. split; [apply Hf|]. exists p. split; [by left|apply HQ]. Qed.
Lemma quiet_disk : quiet (act ReadDisk).
Proof. intros p Q HQ b. apply HQ. Qed.
Lemma quiet_instant : quiet (act InstantNow).
Proof. intros p Q HQ b. apply HQ. Qed.
Lemma quiet_spawn spec : quiet (act (SpawnChild spec)).
Proof. intros p Q HQ b. apply HQ. Qed.
Lemma quiet_ipc {A} child (f : Stream -> A * Stream) : quiet (act (Ipc child f)).
Proof. intros p Q HQ b. apply HQ. Qed.
Lemma quiet_terminate child : quiet (act (TerminateChild child)).
Proof. intros p Q HQ b. apply HQ. Qed.
Lemma wp_store {A} (f : World -> A * World) p Q :
  (forall w, effects_rel w.(w_db) (f w).2.(w_db) /\ exists p', granted w.(w_db) p p' (f w).2.(w_db) /\ Q (f w).1 p') ->
  wp p (act (OnStore f)) Q.
Proof. done. Qed.
Lemma wp_execute x child phase m ms Q : call_uses x m -> (forall b, Q b None) ->
  wp (Some x) (act (CallChild child phase (ExecuteEffect m) ms)) Q.
Proof. intros Hu HQ. split; [eauto|exact HQ]. Qed.
Lemma quiet_query child phase m ms : quiet (act (CallChild child phase (QueryEffect m) ms)).
Proof. intros p Q HQ b. apply HQ. Qed.
Lemma quiet_next child phase m ms : quiet (act (CallChild child phase (NextTurn m) ms)).
Proof. intros p Q HQ b. apply HQ. Qed.

(** ** Transactions *)

Lemma keeps_write_as {A} ctx (body : M (A * bool)) : ensures (on_db effects_rel) body -> keeps (run_write_as ctx body).
Proof.
  intros Hb w. unfold run_write_as, begin_write. destruct (assert_epoch _ _) as [u|u]; cbn; [|reflexivity].
  destruct (body _) as [[[a []]|e] t'] eqn:E; cbn; try reflexivity. by apply Hb in E as [E _].
Qed.
Lemma keeps_write {A} deps (body : M (A * bool)) : ensures (on_db effects_rel) body -> keeps (run_write deps body).
Proof. intros Hb w. exact (keeps_write_as _ _ Hb (mkWorld w.(w_db) (S w.(w_ids)) w.(w_clock))). Qed.
Lemma keeps_rolled_back {A} deps (body : M A) : keeps (run_write deps (rolled_back body)).
Proof.
  intros w. unfold run_write, worker_context, run_write_as, begin_write. cbn. destruct (assert_epoch _ _) as [u|u]; cbn; [|reflexivity].
  unfold rolled_back, StoreBase.M, Prelude.bind, ret. destruct (body _) as [[a|e] t'] eqn:E; cbn; reflexivity.
Qed.
Lemma keeps_read {A} deps (body : M A) : keeps (run_read deps body).
Proof. intros w. unfold run_read. destruct (body _) as [r t']. cbn. reflexivity. Qed.

Lemma quiet_write {A} deps (body : M (A * bool)) : ensures (on_db effects_rel) body -> quiet (write_txn deps body).
Proof. intros Hb. by apply quiet_store, keeps_write. Qed.
Lemma quiet_write_rolled_back {A} deps (body : M A) : quiet (write_txn deps (rolled_back body)).
Proof. apply quiet_store, keeps_rolled_back. Qed.
Lemma quiet_read {A} deps (body : M A) : quiet (read_txn deps body).
Proof. apply quiet_store, keeps_read. Qed.
Lemma quiet_new_id : quiet new_id.
Proof. apply quiet_store. intros w. reflexivity. Qed.
Lemma quiet_now : quiet now.
Proof. apply quiet_store. intros w. reflexivity. Qed.

Lemma quiet_submit deps ty payload key : registry_sound deps.(wd_coordinator).(coord_registry) -> quiet (submit deps ty payload key).
Proof.
  intros Hr. apply quiet_store. intros w. unfold run_submit. destruct (idempotency_key_new key); [|reflexivity].
  destruct (execute _ _ _) as [r w2] eqn:E. cbn. apply execute_kernel in E; [|done]. by apply kr_effects in E.
Qed.
End Logic.

Create HintDb quiet.
#[export] Hint Resolve quiet_done quiet_disk quiet_instant quiet_spawn quiet_ipc quiet_terminate quiet_query quiet_next
  quiet_write_rolled_back quiet_read quiet_new_id quiet_now : quiet.

(** Follows a program to its end; transactions are left to the [ensures] hints. *)
Ltac solve_quiet :=
  repeat (intros; cbv zeta;
    match goal with
    | |- quiet (prog_bind _ _) => apply quiet_bind
    | |- quiet (prog_try _ _) => apply quiet_try
    | |- quiet _ => solve [eauto 2 with quiet]
    | |- quiet (write_txn _ _) => apply quiet_write; solve_ensures
    | |- quiet (act (OnStore (run_write_as _ _))) => apply quiet_store, keeps_write_as; solve_ensures
    | |- quiet (if ?b then _ else _) => destruct b
    | |- quiet (match ?x with _ => _ end) => destruct x
    end).

Section WorkerPrograms.
Context `{!Ext} `{!Contracts} `{!BindContracts} `{!ApprovalContracts} `{!Json} `{!ConfigYaml} `{!BundleJson} `{!RegistryJson}.
Context `{!PlanJson} `{!SerdeJson} `{!FrameCodec} `{!MonotonicClock} `{!CallContracts} `{!WorkerContracts}.
Context (deps : RunWorkerDeps) (Hreg : registry_sound deps.(wd_coordinator).(coord_registry)).

#[local] Hint Extern 1 (quiet (submit _ _ _ _)) => apply quiet_submit; exact Hreg : quiet.

Lemma cas_or_false_same i e p : ensures (on_db effects_rel) (cas_or_false i e p).
Proof.
  intros t b t' E. unfold cas_or_false, attempt in E. apply bind_ok_inv in E as (r & t1 & E1 & E).
  unfold ret in E. injection E as _ <-. destruct (adapters_cas_instance_state i e p t) as [[c|er] t2] eqn:Ec; injection E1 as <- <-.
  - assert (He : ensures (on_db effects_rel) (adapters_cas_instance_state i e p)) by solve_ensures. by apply He in Ec.
  - assert (t2 = t) as ->; [|reflexivity]. revert Ec.
    unfold adapters_cas_instance_state, Prelude.bind, query, gets, update_db, modify, lift_res, ret.
    destruct (adapter_instances _ !! i) as [r|]; [|done]. destruct (decode_instance r); [|by intros [= _ <-]].
    destruct (bool_decide _); [|done].
    match goal with |- context [constraints ?l t] =>
      pose proof (constraints_state l t) as Hs; destruct (constraints l t) as [[u|er'] t3] end; [done|].
    intros [= _ <-]. exact Hs.
Qed.

Lemma quiet_record_spawn id v d i c : quiet (record_instance_spawn deps id v d i c).
Proof. unfold record_instance_spawn, committed. solve_quiet. Qed.
Lemma quiet_mark_ready i : quiet (mark_instance_ready deps i).
Proof. unfold mark_instance_ready. solve_quiet. Qed.
Lemma quiet_mark_exit i s r : quiet (mark_instance_exit deps i s r).
Proof. pose proof cas_or_false_same. unfold mark_instance_exit. solve_quiet. Qed.
#[local] Hint Resolve quiet_record_spawn quiet_mark_ready quiet_mark_exit : quiet.

Lemma quiet_establish what id tx v d b env i target : quiet (establish deps what id tx v d b env i target).
Proof. unfold establish. destruct target as [[ex argv] ipc]. solve_quiet. Qed.
#[local] Hint Resolve quiet_establish : quiet.

Lemma quiet_spawn_effect_adapter e : quiet (spawn_effect_adapter deps e).
Proof. unfold spawn_effect_adapter, verify_bundle. solve_quiet. Qed.
Lemma quiet_spawn_loop row : quiet (spawn_loop deps row).
Proof. unfold spawn_loop, verify_bundle. solve_quiet. Qed.
#[local] Hint Resolve quiet_spawn_effect_adapter quiet_spawn_loop : quiet.

(** ** Effects *)

Lemma settle_answer_effects e tok ans : ensures (on_db effects_rel) (settle_answer deps e tok ans).
Proof. unfold settle_answer, acknowledge, commit, fail. solve_ensures. Qed.

Lemma quiet_reconcile e : quiet (maybe_reconcile_effect deps e).
Proof. unfold maybe_reconcile_effect, call_effect_adapter, committed. solve_quiet. Qed.

Lemma quiet_commit_acknowledged e : quiet (commit_acknowledged deps e).
Proof. unfold commit_acknowledged, committed, lease_live, commit, commit_durable. solve_quiet. Qed.
#[local] Hint Resolve quiet_reconcile quiet_commit_acknowledged : quiet.

Lemma quiet_stop_loop i s ws : quiet (stop_loop deps i s ws).
Proof. unfold stop_loop. solve_quiet. Qed.
#[local] Hint Resolve quiet_stop_loop : quiet.

Lemma quiet_restake row : quiet (restake_claim deps row).
Proof. unfold restake_claim. solve_quiet. Qed.
Lemma quiet_reclaim row ws : quiet (reclaim deps row ws).
Proof. unfold reclaim, plain. solve_quiet. Qed.
Lemma quiet_waiting_human row ws : quiet (step_waiting_human deps row ws).
Proof. unfold step_waiting_human, resume_human, is_satisfied. solve_quiet. Qed.
Lemma quiet_finalize row ws : quiet (finalize_cancel deps row ws).
Proof. unfold finalize_cancel, plain. solve_quiet. Qed.
Lemma quiet_bind_run row : quiet (Worker.bind deps row).
Proof. unfold Worker.bind. solve_quiet. Qed.
Lemma quiet_claim_run row : quiet (claim deps row).
Proof. unfold claim. solve_quiet. Qed.
#[local] Hint Resolve quiet_restake quiet_reclaim quiet_waiting_human quiet_finalize quiet_bind_run quiet_claim_run : quiet.

Lemma kernel_effects {A} (m : M A) : ensures (on_db kernel_rel) m -> ensures (on_db effects_rel) m.
Proof. intros Hm t a t' E. apply Hm in E as [E C]. split; [apply (kr_effects _ _ E)|exact C]. Qed.
Lemma issue_turn_effects run n : ensures (on_db effects_rel) (issue_turn run n).
Proof. apply kernel_effects, issue_turn_kernel. Qed.
Lemma accept_decision_effects run d raw n : ensures (on_db effects_rel) (accept_decision run d raw n).
Proof. apply kernel_effects, accept_decision_kernel. Qed.
#[local] Hint Resolve issue_turn_effects accept_decision_effects : ensures.

Lemma quiet_drive_turn ctx h run st ev n : quiet (drive_turn ctx h run st ev n).
Proof. unfold drive_turn, committed. solve_quiet. Qed.
Lemma quiet_follow_up row instr ws : quiet (follow_up deps row instr ws).
Proof. unfold follow_up, plain. solve_quiet. Qed.
Lemma quiet_limits row ws : quiet (context_limits_for deps row ws).
Proof. unfold context_limits_for. solve_quiet. Qed.
#[local] Hint Resolve quiet_drive_turn quiet_follow_up quiet_limits : quiet.
Lemma quiet_drive row ws : quiet (drive deps row ws).
Proof. unfold drive, drive_with. solve_quiet. Qed.
#[local] Hint Resolve quiet_drive : quiet.

(** ** Dispatching *)

Lemma effect_claim_outcome id ex t o t' :
  effect_claim effect_env id ex t = (Ok o, t') ->
  match o with
  | Claimed tok _ => exists r, t.(t_db).(effects) !! id = Some r /\ tok = fencing_token r + 1
  | Busy row => t'.(t_db) = t.(t_db) /\ t.(t_db).(effects) !! id = Some row
  end.
Proof.
  destruct o as [tok row|row]; intros E.
  - apply effect_claim_inv in E as (r & Hr & _ & -> & _). eauto.
  - unfold effect_claim in E. apply bind_ok_inv in E as (n & t1 & [= <- <-] & E).
    apply bind_ok_inv in E as (ctx & t2 & [= <- <-] & E). apply bind_ok_inv in E as (tok & t3 & Ec & E).
    apply effects_claim_inv in Ec as [(r & _ & _ & -> & ->)|(-> & -> & _)].
    + apply bind_ok_inv in E as (row' & t4 & _ & E). cbn in E. apply bind_ok_inv in E as (? & ? & _ & E). by inv_ok.
    + apply bind_ok_inv in E as (row' & t4 & (-> & Hr & _)%load_effect_inv & E). cbn in E. unfold ret in E.
      injection E as <- <-. done.
Qed.

Lemma lease_live_same l t b t' : lease_live l t = (Ok b, t') -> t'.(t_db) = t.(t_db).
Proof. unfold lease_live. destruct l; intros E; inv_run; done. Qed.

(** The row a dispatch token was taken from. *)
Lemma dispatch_token_inv id t tok t' : dispatch_token deps id t = (Ok (Some tok), t') ->
  (exists r, t.(t_db).(effects) !! id = Some r /\ tok = fencing_token r + 1) \/
  (t'.(t_db) = t.(t_db) /\ exists r, t.(t_db).(effects) !! id = Some r /\ r.(EffectRow.executor_fencing_token) = Some tok).
Proof.
  unfold dispatch_token. intros E. apply bind_ok_inv in E as (o & t1 & Ec & E). apply effect_claim_outcome in Ec.
  destruct o as [tok' row|row]; [unfold ret in E; injection E as <- <-; by left|]. right. destruct Ec as [Hdb Hr].
  destruct (_ && _); [|by inv_ok]. apply bind_ok_inv in E as (live & t2 & El%lease_live_same & E).
  unfold ret in E. injection E as E <-. destruct live; [|done]. split; [congruence|eauto].
Qed.

Lemma begin_dispatch_grants id t tok b t' : begin_dispatch deps id t = (Ok (Some tok, b), t') ->
  b = true /\ ~ spent t.(t_db) (id, tok) /\ spent t'.(t_db) (id, tok).
Proof.
  unfold begin_dispatch. intros E. apply bind_ok_inv in E as (o & t1 & Et & E). destruct o as [k|]; [|by inv_ok].
  apply bind_ok_inv in E as (row & t2 & Em & E). unfold ret in E. injection E as -> <- <-.
  unfold mark_dispatched in Em. apply effect_transition_inv in Em as (r & Hr & Hc & -> & He & Hex).
  destruct (Hex _ eq_refl) as (_ & Htok & _). cbn in Htok.
  assert (Hcl : r.(EffectRow.state) = EffectState.Claimed) by (unfold can_transition in Hc; by destruct (EffectRow.state r)).
  split; [done|]. split.
  - intros (r0 & Hr0 & Hle & Hlt). cbn in Hr0, Hle, Hlt. apply dispatch_token_inv in Et as [(r1 & Hr1 & ->)|(Hdb & r1 & Hr1 & Htok1)].
    + rewrite Hr0 in Hr1. injection Hr1 as <-. lia.
    + rewrite Hdb, Hr1 in Hr. injection Hr as ->. rewrite Hr0 in Hr1. injection Hr1 as ->.
      specialize (Hlt Hcl). unfold fencing_token in Hlt. rewrite Htok in Hlt. cbn in Hlt. lia.
  - eexists. cbn. rewrite He, lookup_insert_eq. split; [done|]. unfold fencing_token. cbn. rewrite Htok. cbn. split; [lia|done].
Qed.

Lemma begin_dispatch_effects id : ensures (on_db effects_rel) (begin_dispatch deps id).
Proof. unfold begin_dispatch, dispatch_token, lease_live, mark_dispatched. solve_ensures. Qed.

(** ** Whole steps *)

(** A program that is safe whatever permit it starts with. *)
Definition calm {A} (m : Prog A) : Prop := forall p (Q : A -> option Permit -> Prop), (forall a p', Q a p') -> wp p m Q.

Lemma quiet_calm {A} (m : Prog A) : quiet m -> calm m.
Proof. intros Hm p Q HQ. apply Hm. auto. Qed.
Lemma calm_bind {A B} (m : Prog A) (f : A -> Prog B) : calm m -> (forall a, calm (f a)) -> calm (prog_bind m f).
Proof. intros Hm Hf p Q HQ. apply wp_bind, Hm. intros a p'. by apply Hf. Qed.

Lemma calm_execute e m p Q : call_uses p m -> (forall a p', Q a p') ->
  wp (Some p) (call_effect_adapter deps e (ExecuteEffect m)) Q.
Proof.
  intros Hu HQ. unfold call_effect_adapter. apply wp_bind, quiet_spawn_effect_adapter. intros [[child phase]|err]; [|apply HQ].
  apply wp_bind, (wp_execute p); [done|]. intros b. apply wp_bind, quiet_terminate. intros reason.
  apply wp_bind, quiet_mark_exit. intros _. apply HQ.
Qed.

Lemma calm_dispatch e : calm (dispatch_effect deps e).
Proof.
  intros p Q HQ. unfold dispatch_effect, prog_try. apply wp_bind. unfold write_txn at 1. apply wp_store. intros w.
  split; [apply keeps_write, begin_dispatch_effects|].
  destruct (run_write deps (begin_dispatch deps (EffectRow.effect_id e)) w) as [r w'] eqn:E. cbn [fst snd].
  assert (Hcont : forall p' tok, (forall x, tok = Some x -> p' = Some (EffectRow.effect_id e, x)) ->
    wp p' (match tok with None => Done (Ok tt) | Some tok =>
      await! answer := call_effect_adapter deps e (ExecuteEffect (mkEffectExecutionRequest (uuid_hyphenated (EffectRow.effect_id e))
        (uuid_hyphenated (EffectRow.effect_id e)) e.(EffectRow.request_hash) tok e.(EffectRow.request_payload))) in
      write_txn deps (settle_answer deps e tok answer) end) Q).
  { intros p' [tok|] Hp; [|apply HQ]. rewrite (Hp tok eq_refl). apply wp_bind, calm_execute; [done|].
    intros a p2. apply quiet_write; [apply settle_answer_effects|]. intros b. apply HQ. }
  destruct r as [[tok|]|err]; [|exists p; split; [by left|by apply (Hcont p None)]|exists p; split; [by left|apply HQ]].
  exists (Some (EffectRow.effect_id e, tok)). split; [|apply (Hcont _ (Some tok)); by intros x [= ->]]. right. eexists. split; [done|].
  unfold run_write, worker_context, run_write_as, begin_write in E. cbn in E. destruct (assert_epoch _ _); cbn in E; [|done].
  destruct (begin_dispatch _ _ _) as [[[o b]|err] t'] eqn:Eb; [|done]. destruct o as [k|].
  - apply begin_dispatch_grants in Eb as (-> & Hn & Hs). injection E as -> <-. done.
  - by destruct b.
Qed.

Lemma calm_done {A} (a : A) : calm (Done a).
Proof. intros p Q HQ. apply HQ. Qed.
Lemma calm_step_effect e : calm (step_effect deps e).
Proof.
  unfold step_effect. destruct (EffectRow.state e);
    first [apply calm_dispatch | apply quiet_calm; solve_quiet].
Qed.
Lemma calm_step_effects l : calm (step_effects deps l).
Proof.
  induction l as [|e l IH]; [apply calm_done|]. apply calm_bind; [apply calm_step_effect|].
  intros [u|err]; [exact IH|apply calm_done].
Qed.
Lemma calm_waiting_tool row ws : calm (step_waiting_tool deps row ws).
Proof.
  unfold step_waiting_tool. apply calm_bind; [apply quiet_calm; solve_quiet|].
  intros [l|err]; [|apply calm_done]. destruct (existsb _ _); [apply calm_done|].
  destruct (List.filter _ l) as [|e es]; [apply quiet_calm; solve_quiet|].
  unfold plain. apply calm_bind; [apply calm_step_effects|]. intros r. apply calm_done.
Qed.
Lemma calm_step row ws : calm (step deps row ws).
Proof.
  unfold step. destruct (RunRow.state row);
    first [ destruct (claim_ours deps row); [apply calm_waiting_tool|]; apply quiet_calm; unfold plain; solve_quiet
          | apply quiet_calm; unfold plain; solve_quiet ].
Qed.
Lemma calm_step_runs poll started rows dr : calm (step_runs deps poll started rows dr).
Proof.
  revert dr. induction rows as [|row rows IH]; intros dr; [apply calm_done|]. cbn.
  destruct (backing_off _ _ _); [apply IH|]. apply calm_bind; [apply calm_step|]. intros [[u|e] ws'].
  - apply calm_bind; [apply calm_done|]. intros z. apply IH.
  - apply calm_bind; [apply quiet_calm, quiet_instant|]. intros z. apply IH.
Qed.
Lemma calm_tick poll dr : calm (tick deps poll dr).
Proof.
  unfold tick. apply calm_bind; [apply quiet_calm; solve_quiet|]. intros [rows|e]; [|apply calm_done].
  apply calm_bind; [apply quiet_calm, quiet_instant|]. intros started.
  apply calm_bind; [apply calm_step_runs|]. intros d. apply calm_done.
Qed.
End WorkerPrograms.

(** ** The system

    Any number of workers, of any daemon instance, next to everything else that
    writes to the store. *)

(** What an action may return; a process, the disk and the clock answer freely. *)
Definition act_result {B} (a : Act B) (w : World) : B -> World -> Prop :=
  match a in Act B return B -> World -> Prop with
  | OnStore f => fun b w' => f w = (b, w')
  | _ => fun _ w' => w' = w
  end.

(** The executions an action asks of an adapter. *)
Definition executions {B} (a : Act B) : list EffectExecutionRequest :=
  match a with
  | CallChild _ _ (ExecuteEffect m) _ => [m]
  | _ => []
  end.

Record Sys := mkSys {
  sy_world : World;
  sy_progs : gmap nat (Prog (Res unit * Driver));
  sy_calls : list EffectExecutionRequest }.

Section System.
Context `{!Ext} `{!Contracts} `{!BindContracts} `{!ApprovalContracts} `{!Json} `{!ConfigYaml} `{!BundleJson} `{!RegistryJson}.
Context `{!PlanJson} `{!SerdeJson} `{!FrameCodec} `{!MonotonicClock} `{!CallContracts} `{!WorkerContracts}.

(** [sys_stop] is the end of a tick, or a crash in the middle of one. *)
Inductive sys_step : Sys -> Sys -> Prop :=
  | sys_elsewhere s w' : kernel_rel s.(sy_world).(w_db) w'.(w_db) ->
      sys_step s (mkSys w' s.(sy_progs) s.(sy_calls))
  | sys_start s i deps poll dr : s.(sy_progs) !! i = None -> registry_sound deps.(wd_coordinator).(coord_registry) ->
      sys_step s (mkSys s.(sy_world) (<[i := tick deps poll dr]> s.(sy_progs)) s.(sy_calls))
  | sys_act s i B (a : Act B) k b w' : s.(sy_progs) !! i = Some (Do a k) -> act_result a s.(sy_world) b w' ->
      sys_step s (mkSys w' (<[i := k b]> s.(sy_progs)) (s.(sy_calls) ++ executions a)%list)
  | sys_stop s i : sys_step s (mkSys s.(sy_world) (base.delete i s.(sy_progs)) s.(sy_calls)).

Definition sys_reach (w : World) : Sys -> Prop := rtc sys_step (mkSys w ∅ []).

(** Every worker holds at most one permit, no two the same, none already used. *)
Record sys_inv (s : Sys) (held : gmap nat Permit) (used : list Permit) : Prop := {
  si_progs : forall i m, s.(sy_progs) !! i = Some m -> wp (held !! i) m (fun _ _ => True);
  si_apart : forall i j x, held !! i = Some x -> held !! j = Some x -> i = j;
  si_held : forall i x, held !! i = Some x -> spent s.(sy_world).(w_db) x /\ x ∉ used;
  si_used : Forall (spent s.(sy_world).(w_db)) used;
  si_once : NoDup used;
  si_calls : Forall2 call_uses used s.(sy_calls) }.

(** A store that moved keeps every permit spent. *)
Lemma sys_inv_store s held used w' : effects_rel s.(sy_world).(w_db) w'.(w_db) -> sys_inv s held used ->
  sys_inv (mkSys w' s.(sy_progs) s.(sy_calls)) held used.
Proof.
  intros He [Hp Ha Hh Hu Ho Hc]. split; try done; cbn.
  - intros i x Hx. destruct (Hh i x Hx). split; [by eapply spent_evolves|done].
  - eapply Forall_impl; [|exact Hu]. intros x. by apply spent_evolves.
Qed.

Lemma sys_inv_prog s held used i m : wp (held !! i) m (fun _ _ => True) -> sys_inv s held used ->
  sys_inv (mkSys s.(sy_world) (<[i := m]> s.(sy_progs)) s.(sy_calls)) held used.
Proof.
  intros Hm [Hp Ha Hh Hu Ho Hc]. split; try done. intros j m' Hj. cbn in Hj.
  apply lookup_insert_Some in Hj as [[<- <-]|[_ Hj]]; [done|by apply Hp].
Qed.

(** Taking a permit that nobody has. *)
Lemma sys_inv_take s held used i x m : (forall j, held !! j <> Some x) -> x ∉ used -> spent s.(sy_world).(w_db) x ->
  wp (Some x) m (fun _ _ => True) -> sys_inv s held used ->
  sys_inv (mkSys s.(sy_world) (<[i := m]> s.(sy_progs)) s.(sy_calls)) (<[i := x]> held) used.
Proof.
  intros Hnew Hx Hs Hm [Hp Ha Hh Hu Ho Hc]. split; try done; cbn.
  - intros j m' Hj. apply lookup_insert_Some in Hj as [[<- <-]|[Hn Hj]].
    + by rewrite lookup_insert_eq.
    + rewrite lookup_insert_ne by done. by apply Hp.
  - intros j k y. rewrite !lookup_insert_Some. intros [[<- <-]|[? Hj]] [[<- E]|[? Hk]]; try done.
    + by apply Hnew in Hk. + subst. by apply Hnew in Hj. + by eapply Ha.
  - intros j y. rewrite lookup_insert_Some. intros [[<- <-]|[? Hj]]; [done|by apply Hh in Hj].
Qed.

(** Using the permit a worker holds. *)
Lemma sys_inv_use s held used i x m req : held !! i = Some x -> call_uses x req ->
  wp None m (fun _ _ => True) -> sys_inv s held used ->
  sys_inv (mkSys s.(sy_world) (<[i := m]> s.(sy_progs)) (s.(sy_calls) ++ [req])%list) (base.delete i held) (used ++ [x])%list.
Proof.
  intros Hx Hr Hm [Hp Ha Hh Hu Ho Hc]. destruct (Hh i x Hx) as [Hs Hn]. split; cbn.
  - intros j m' Hj. apply lookup_insert_Some in Hj as [[<- <-]|[Hne Hj]].
    + by rewrite lookup_delete_eq.
    + rewrite lookup_delete_ne by done. by apply Hp.
  - intros j k y. rewrite !lookup_delete_Some. intros [_ Hj] [_ Hk]. by eapply Ha.
  - intros j y. rewrite lookup_delete_Some. intros [Hne Hj]. destruct (Hh j y Hj) as [? ?]. split; [done|].
    rewrite not_elem_of_app, list_elem_of_singleton. split; [done|]. intros ->. by apply Hne, (Ha i j x).
  - apply Forall_app. split; [done|]. by constructor.
  - apply list.NoDup_app. split; [done|]. split; [|apply NoDup_singleton].
    intros y Hy ->%list_elem_of_singleton. done.
  - apply Forall2_app; [done|]. by constructor.
Qed.

Lemma sys_inv_stop s held used i : sys_inv s held used ->
  sys_inv (mkSys s.(sy_world) (base.delete i s.(sy_progs)) s.(sy_calls)) held used.
Proof.
  intros [Hp Ha Hh Hu Ho Hc]. split; try done. intros j m Hj. cbn in Hj. apply lookup_delete_Some in Hj as [_ Hj]. by apply Hp.
Qed.

Lemma sys_inv_act s held used i B (a : Act B) k b w' : sys_inv s held used ->
  s.(sy_progs) !! i = Some (Do a k) -> act_result a s.(sy_world) b w' ->
  exists held' used', sys_inv (mkSys w' (<[i := k b]> s.(sy_progs)) (s.(sy_calls) ++ executions a)%list) held' used'.
Proof.
  intros Hinv Hi Hr. pose proof (si_progs _ _ _ Hinv _ _ Hi) as Hw. cbn in Hw.
  destruct a as [B f| | | | |child phase [req|req|req] ms|]; cbn in Hw, Hr |- *; rewrite ?app_nil_r;
    try (subst w'; exists held, used; by apply sys_inv_prog).
  - destruct (Hw s.(sy_world)) as (He & p' & Hg & Hk). rewrite Hr in He, Hg, Hk. cbn in He, Hg, Hk.
    pose proof (sys_inv_store _ _ _ _ He Hinv) as Hinv'.
    destruct Hg as [->|(x & -> & Hns & Hs)]; [exists held, used; exact (sys_inv_prog _ _ _ i _ Hk Hinv')|].
    exists (<[i := x]> held), used. apply (sys_inv_take (mkSys w' s.(sy_progs) s.(sy_calls)) _ _ i x (k b)); try done.
    + intros j Hj. by apply (si_held _ _ _ Hinv) in Hj as [? _].
    + intros Hx. pose proof (si_used _ _ _ Hinv) as Hu. rewrite list.Forall_forall in Hu. by apply Hu in Hx.
  - destruct Hw as [(x & Hx & Hu) Hk]. subst w'. exists (base.delete i held), (used ++ [x])%list. by eapply sys_inv_use.
Qed.

Lemma sys_inv_step s s' : sys_step s s' -> forall held used, sys_inv s held used -> exists held' used', sys_inv s' held' used'.
Proof.
  intros [s0 w' Hk|s0 i deps poll dr Hi Hreg|s0 i B a k b w' Hi Hr|s0 i] held used Hinv.
  - exists held, used. apply sys_inv_store; [apply (kr_effects _ _ Hk)|done].
  - exists held, used. apply sys_inv_prog; [|done]. by apply calm_tick.
  - by eapply sys_inv_act.
  - exists held, used. by apply sys_inv_stop.
Qed.

Lemma sys_reach_inv w s : sys_reach w s -> exists held used, sys_inv s held used.
Proof.
  intros Hr. apply (rtc_ind_r (fun s => exists held used, sys_inv s held used) (mkSys w ∅ [])) in Hr; [done| |].
  - exists ∅, []. split; try done; cbn. all: constructor.
  - intros s1 s2 _ Hs (held & used & Hinv). by eapply sys_inv_step.
Qed.

(** C1: In every reachable state of a system of any number of run workers (of
    any daemon epoch, started, interleaved and killed at any action, next to any
    transactions of the other services), the requests to execute an effect that
    were sent to adapters are for pairwise different pairs of an effect and a
    fencing token: a claim leads to at most one external execution.  Each request
    was sent under a token that the stored row had already been given. *)
Theorem effect_executed_once_per_claim w s : sys_reach w s ->
  exists used : list (EffectId * Z), NoDup used /\
    Forall2 (fun x m => m.(xr_effect_id) = uuid_hyphenated x.1 /\ m.(xr_fencing_token) = x.2) used s.(sy_calls) /\
    Forall (fun x => exists r, s.(sy_world).(w_db).(effects) !! x.1 = Some r /\ x.2 <= fencing_token r) used.
Proof.
  intros (held & used & Hinv)%sys_reach_inv. exists used. split; [apply (si_once _ _ _ Hinv)|].
  split; [apply (si_calls _ _ _ Hinv)|]. eapply Forall_impl; [|apply (si_used _ _ _ Hinv)]. intros x (r & Hr & Ht & _). eauto.
Qed.
End System.
