(* ===== verification/SchedulerWorker.v ===== *)
(** * The scheduler worker ([agentd/src/workers/scheduler.rs]) and the outbox
    worker's pacing ([outbox.rs])

    A tick claims due timers one after the other, submits the command of each
    and then marks it fired, in three transactions between which anything may
    happen. *)

From S2P Require Import Prelude Domain Ids Text Models StoreBase Store SecurityStore Ledger Events Runs RunGraph.
From S2P Require Import EffectPolicy Effects Scheduler Resources Kernel RunServices Coordinator WorkerBase Worker WorkerSafety.

Open Scope string_scope.
Open Scope Z_scope.

Definition BATCH_LIMIT_PER_TICK : nat := 64.

Record SchedulerDeps := mkSchedulerDeps {
  sd_coordinator : CommandCoordinator;
  sd_epoch : Z;
  sd_principal : PrincipalId;
  sd_actor : ActorId }.

(** [timer_id -> (attempts, next_attempt_unix_ms)]. *)
Abbreviation TimerBackoff := (gmap TimerId (Z * Z)).

(** 2s, 4s, 8s, ... capped at 60s. *)
Definition timer_delay_ms (attempts : Z) : Z :=
  let shift := Z.min (Z.max 0 (attempts - 1)) 5 in Z.min (2000 * Z.shiftl 1 shift) 60000.

Section SchedulerWorker.
Context `{!Ext} (deps : SchedulerDeps).

Definition scheduler_env : SchedulerEnv := mkSchedulerEnv None None.

Definition scheduler_context (w : World) : TxContext * World :=
  (mkTxContext deps.(sd_epoch) deps.(sd_principal) (new_uuid_v7 w.(w_ids)) None, mkWorld w.(w_db) (S w.(w_ids)) w.(w_clock)).

(** [begin_write .. commit] with a fresh command id. *)
Definition scheduler_txn {A} (body : M A) : Prog (Res A) :=
  act (OnStore (fun w => let '(ctx, w) := scheduler_context w in run_write_as ctx (committed body) w)).

Definition claim_next (owner : string) (exclude : gset TimerId) : Prog (Res (option TimerRow)) :=
  scheduler_txn (let! now := now_unix_ms in claim_next_due scheduler_env now owner deps.(sd_epoch) exclude).

(** The two [expect]s of [fire]: a panic unwinds before anything is submitted. *)
Definition malformed_fire : KernelError := kerr Internal "derived idempotency key or digest is malformed".

Definition fire_envelope (claimed : TimerRow) (command_id : CommandId) : Res CommandEnvelope :=
  let? key := ok_or (idempotency_key_new (fire_idempotency_key claimed.(TimerRow.timer_id))) malformed_fire in
  let? digest := match digest_from_str (hex_lower (sha256 claimed.(TimerRow.payload))) with Ok d => Ok d | Err _ => Err malformed_fire end in
  Ok (mkCommandEnvelope command_id key deps.(sd_principal) deps.(sd_actor) None None digest
        (Some ("timer/" +:+ uuid_hyphenated claimed.(TimerRow.timer_id))) None None
        claimed.(TimerRow.timer_kind) claimed.(TimerRow.payload)).

Definition submit_fire (claimed : TimerRow) : Prog (Res CommandOutcome) :=
  act (OnStore (fun w =>
    let w1 := mkWorld w.(w_db) (S w.(w_ids)) w.(w_clock) in
    match fire_envelope claimed (new_uuid_v7 w.(w_ids)) with
    | Ok env => execute deps.(sd_coordinator) env w1
    | Err e => (Err e, w1)
    end)).

(** Whether the claim was still current is not looked at. *)
Definition fire (claimed : TimerRow) : Prog (Res unit) :=
  try! _ := submit_fire claimed in
  try! _ := scheduler_txn (mark_fired scheduler_env claimed) in
  Done (Ok tt).

Definition deferred (now : Z) (backoff : TimerBackoff) : gset TimerId :=
  dom (filter (fun e => now < e.2.2) backoff).

Definition defer (now : Z) (id : TimerId) (backoff : TimerBackoff) : TimerBackoff :=
  let attempts := Z.min (from_option fst 0 (backoff !! id) + 1) (2 ^ 32 - 1) in
  <[id := (attempts, now + timer_delay_ms attempts)]> backoff.

Fixpoint dispatch_timers (fuel : nat) (owner : string) (now : Z) (exclude : gset TimerId) (backoff : TimerBackoff)
    : Prog (Res unit * TimerBackoff) :=
  match fuel with
  | O => Done (Ok tt, backoff)
  | S fuel =>
      await! next := claim_next owner exclude in
      match next with
      | Err e => Done (Err e, backoff)
      | Ok None => Done (Ok tt, backoff)
      | Ok (Some claimed) =>
          let id := claimed.(TimerRow.timer_id) in
          await! outcome := fire claimed in
          match outcome with
          | Err _ => dispatch_timers fuel owner now ({[id]} ∪ exclude) (defer now id backoff)
          | Ok _ => dispatch_timers fuel owner now exclude (base.delete id backoff)
          end
      end
  end.

Definition dispatch_tick (backoff : TimerBackoff) : Prog (Res unit * TimerBackoff) :=
  await! now := act (OnStore (fun w => (clock_ms w.(w_clock), mkWorld w.(w_db) w.(w_ids) (S w.(w_clock))))) in
  dispatch_timers BATCH_LIMIT_PER_TICK ("scheduler:" +:+ uuid_hyphenated deps.(sd_actor)) now (deferred now backoff) backoff.
End SchedulerWorker.

(** ** The outbox worker's pacing *)

Definition INITIAL_BACKOFF : Z := 50.
Definition MAX_BACKOFF : Z := 2000.

(** The pause after an iteration, if any, and the next back-off. *)
Definition outbox_pace {A} (r : Res A) (backoff : Z) : option Z * Z :=
  match r with
  | Ok _ => (None, INITIAL_BACKOFF)
  | Err e => match e.(err_code) with Unavailable => (Some backoff, Z.min (2 * backoff) MAX_BACKOFF) | _ => (None, INITIAL_BACKOFF) end
  end.

(** ** A program logic for timers *)

Definition fired (d : Db) (id : TimerId) : Prop := exists r, d.(timers) !! id = Some r /\ r.(TimerRow.state) = TimerState.Fired.

Definition no_new_fired (d d' : Db) : Prop := forall id, fired d' id -> fired d id.

#[export] Instance no_new_fired_preorder : PreOrder no_new_fired.
Proof. split; [by intros d id|]. intros d1 d2 d3 H12 H23 id Hf. by apply H12, H23. Qed.

Lemma no_new_fired_frame d d' : d.(timers) = d'.(timers) -> no_new_fired d d'.
Proof. intros E id. unfold fired. by rewrite E. Qed.
#[export] Hint Extern 1 (no_new_fired _ _) => apply no_new_fired_frame; reflexivity : frame.

(** Every handler leaves the firing of timers to the worker. *)
Definition fires_nothing (h : CommandHandler) : Prop := forall ctx payload, ensures (on_db no_new_fired) (h ctx payload).

Section TimerLogic.
Context `{!Ext} (p : PrincipalId).

(** The command of the timer is on record under the worker's principal. *)
Definition carried (d : Db) (id : TimerId) (payload : bytes) : Prop :=
  exists rec, d.(idempotency_records) !! (p, fire_idempotency_key id) = Some rec /\
    rec.(IdempotencyRecordRow.request_digest) = hex_lower (sha256 payload).

Definition fires_carried (d d' : Db) : Prop := forall id r, d'.(timers) !! id = Some r -> r.(TimerRow.state) = TimerState.Fired ->
  fired d id \/ carried d' id r.(TimerRow.payload).

Definition timer_known (d : Db) (c : TimerRow) : Prop :=
  exists r, d.(timers) !! c.(TimerRow.timer_id) = Some r /\ r.(TimerRow.payload) = c.(TimerRow.payload).

Lemma carried_stable d d' id payload : kernel_rel d d' -> carried d id payload -> carried d' id payload.
Proof.
  intros Hk (rec & Hr & Hd). exists rec. split; [|done]. exact (lookup_weaken _ _ _ _ Hr (lg_records _ _ (proj1 (kr_ledger _ _ Hk)))).
Qed.

Lemma timer_payload_stable d d' id r : timers_inv d -> kernel_rel d d' -> d.(timers) !! id = Some r ->
  exists r', d'.(timers) !! id = Some r' /\ r'.(TimerRow.payload) = r.(TimerRow.payload).
Proof.
  intros Hi Hk Hr. destruct (kr_timers _ _ Hk Hi) as [_ Hev]. destruct (Hev _ _ Hr) as (r' & Hr' & V). exists r'. split; [done|].
  pose proof (te_frozen _ _ V) as F. unfold timer_frozen in F. congruence.
Qed.

Lemma timer_known_stable d d' c : timers_inv d -> kernel_rel d d' -> timer_known d c -> timer_known d' c.
Proof. intros Hi Hk (r & Hr & Hp). destruct (timer_payload_stable _ _ _ _ Hi Hk Hr) as (r' & Hr' & E). exists r'. split; congruence. Qed.

(** From any state the kernel reaches after [d], the program only fires timers
    whose command is on record, and ends in [Q]. *)
Fixpoint timer_wp {A} (d : Db) (m : Prog A) (Q : A -> Db -> Prop) : Prop :=
  match m with
  | Done a => forall d', timers_inv d' -> kernel_rel d d' -> Q a d'
  | Do a k => forall w b w', timers_inv w.(w_db) -> kernel_rel d w.(w_db) -> act_result a w b w' ->
      kernel_rel w.(w_db) w'.(w_db) /\ fires_carried w.(w_db) w'.(w_db) /\ timer_wp w'.(w_db) (k b) Q
  end.

Lemma timer_wp_later {A} d d' (m : Prog A) Q : kernel_rel d d' -> timer_wp d m Q -> timer_wp d' m Q.
Proof.
  intros Hk. destruct m as [a|B a k]; cbn; intros Hm.
  - intros d2 Hi Hk2. apply Hm; [done|]. by transitivity d'.
  - intros w b w' Hi Hk2. apply Hm; [done|]. by transitivity d'.
Qed.

Lemma timer_wp_bind {A B} d (m : Prog A) (f : A -> Prog B) Q :
  timer_wp d m (fun a d' => timer_wp d' (f a) Q) -> timers_inv d -> timer_wp d (prog_bind m f) Q.
Proof.
  revert d. induction m as [a|C a k IH]; intros d; cbn.
  - intros Hm Hi. apply Hm; [done|reflexivity].
  - intros Hm _ w b w' Hw Hk Ha. destruct (Hm w b w' Hw Hk Ha) as (Hk' & Hf & Hn). split; [done|]. split; [done|].
    apply IH; [done|]. by apply (kr_timers _ _ Hk').
Qed.
End TimerLogic.

(** ** What is claimed *)

Section Claimed.
Context `{!Ext}.

(** The claimed row is one of the due rows, none of the excluded ones. *)
Definition claim_of (row c : TimerRow) : Prop :=
  c.(TimerRow.timer_id) = row.(TimerRow.timer_id) /\ c.(TimerRow.payload) = row.(TimerRow.payload) /\
  c.(TimerRow.timer_kind) = row.(TimerRow.timer_kind).

Lemma timer_claim_of env owner epoch row t c t' : t.(t_db).(timers) !! row.(TimerRow.timer_id) = Some row ->
  timer_claim env row.(TimerRow.timer_id) owner epoch t = (Ok (Some c), t') -> claim_of row c.
Proof.
  intros Hrow E. unfold timer_claim in E. apply bind_ok_inv in E as (r0 & t1 & (-> & Hr0 & _)%load_timer_inv & E).
  rewrite Hrow in Hr0. injection Hr0 as <-. destruct (negb _); [by inv_ok|]. apply bind_ok_inv in E as (b & t2 & Ec & E).
  apply timers_cas_transition_inv in Ec as [(-> & r1 & Hr1 & _ & _ & ->)|(-> & ->)]; simpl in E; [|by inv_ok].
  apply bind_ok_inv in E as (r2 & t3 & (-> & Hr2 & _)%load_timer_inv & E).
  apply bind_ok_inv in E as (u & t4 & Es & E). inv_ok. cbn in Hr2. rewrite lookup_insert_eq in Hr2. injection Hr2 as <-.
  rewrite Hrow in Hr1. injection Hr1 as <-. done.
Qed.

Lemma try_due_of env owner epoch row t c t' : t.(t_db).(timers) !! row.(TimerRow.timer_id) = Some row ->
  try_due env owner epoch row t = (Ok (Some (Some c)), t') -> claim_of row c.
Proof.
  intros Hrow E. unfold try_due in E. destruct (TimerRow.state row); [..|by inv_ok|by inv_ok].
  - apply bind_ok_inv in E as ([c'|] & t1 & Ec & E); [|by inv_ok]. inv_ok. by eapply timer_claim_of.
  - destruct (_ && _); [by inv_ok|].
    match type of E with (if ?b then _ else _) _ = _ => destruct b end; [by inv_ok|].
    apply bind_ok_inv in E as (b & t2 & Ec & E).
    apply timers_cas_transition_inv in Ec as [(-> & r & Hr & _ & _ & ->)|(-> & ->)]; [|by inv_ok].
    apply bind_ok_inv in E as (got & t3 & (-> & Hg & _)%timers_get_inv & E).
    rewrite Hrow in Hr. injection Hr as <-. cbn in Hg. rewrite lookup_insert_eq in Hg. rewrite Hg in E. inv_ok. done.
Qed.

Lemma claim_first_of env owner epoch ex rows t c t' :
  (forall row, row ∈ rows -> t.(t_db).(timers) !! row.(TimerRow.timer_id) = Some row) ->
  claim_first env owner epoch ex rows t = (Ok (Some c), t') ->
  exists row, row ∈ rows /\ row.(TimerRow.timer_id) ∉ ex /\ claim_of row c.
Proof.
  revert t. induction rows as [|row rows IH]; intros t Hrows E; cbn [claim_first] in E; [by inv_ok|].
  case_decide as D.
  - destruct (IH t) as (r & Hr & Hx); [intros x Hx; apply Hrows; by right|done|]. exists r. split; [by right|done].
  - apply bind_ok_inv in E as (o & t1 & Et & E). destruct o as [res|].
    + inv_ok. exists row. split; [left|]. split; [done|]. eapply try_due_of; [|done]. apply Hrows. left.
    + apply try_due_none in Et as [Ed _]. destruct (IH t1) as (r & Hr & Hx); [|done|].
      * intros x Hx. rewrite Ed. apply Hrows. by right.
      * exists r. split; [by right|done].
Qed.

Lemma claim_next_due_of env now owner epoch ex t c t' : timers_inv t.(t_db) ->
  claim_next_due env now owner epoch ex t = (Ok (Some c), t') ->
  timer_known t.(t_db) c /\ c.(TimerRow.timer_id) ∉ ex.
Proof.
  intros Hinv E. unfold claim_next_due, timers_list_due in E. apply bind_ok_inv in E as (rows & t1 & El & E).
  inv_run. rename select (res_collect _ _ = _) into Hc.
  apply res_collect_same in Hc as [-> Hdec]; [|intros a b Hb; unfold decode_timer in Hb; inv_ok; done].
  apply claim_first_of in E as (row & Hin & Hx & Hid & Hp & _).
  - apply elem_of_select_by in Hin as (k & Hk & _). rewrite Hid. split; [|done]. exists row. rewrite Hid, Hp.
    by rewrite (ti_key _ Hinv _ _ Hk).
  - intros r Hr. apply elem_of_select_by in Hr as (k & Hk & _). by rewrite (ti_key _ Hinv _ _ Hk).
Qed.

(** Claiming fires nothing. *)
Lemma cas_fires_nothing id from v to claim : to <> TimerState.Fired ->
  ensures (on_db no_new_fired) (timers_cas_transition id from v (timer_patch to claim)).
Proof.
  intros Hto t b t' [(-> & r & Hr & _ & _ & ->)|(-> & ->)]%timers_cas_transition_inv; [|reflexivity].
  split; [|done]. intros i (r' & Hr' & Hs). cbn in Hr'. apply lookup_insert_Some in Hr' as [[<- <-]|[Hne Hr']]; [done|].
  exists r'. by split.
Qed.

Lemma stage_fires_nothing env ty row : ensures (on_db no_new_fired) (stage_timer_row env ty row).
Proof. eapply ensures_touches; [apply stage_timer_row_touches|]. intros x d. by apply no_new_fired_frame. Qed.

Lemma claim_next_due_fires_nothing env now owner epoch ex :
  ensures (on_db no_new_fired) (claim_next_due env now owner epoch ex).
Proof.
  pose proof stage_fires_nothing. pose proof (fun id from v claim => cas_fires_nothing id from v TimerState.Claimed claim ltac:(done)).
  assert (forall id, ensures (on_db no_new_fired) (timer_claim env id owner epoch)) by (intros id; unfold timer_claim; solve_ensures).
  unfold claim_next_due. solve_ensures.
  match goal with |- ensures _ (claim_first _ _ _ _ ?l) => induction l as [|r l IH]; simpl end; [solve_ensures|].
  unfold try_due. solve_ensures.
Qed.
End Claimed.

(** ** The worker's transactions *)

Section WorkerSpecs.
Context `{!Ext} (deps : SchedulerDeps).
Hypothesis Hsound : registry_sound deps.(sd_coordinator).(coord_registry).
Hypothesis Hquiet : map_Forall (fun _ h => fires_nothing h) deps.(sd_coordinator).(coord_registry).
Local Notation wp := (timer_wp deps.(sd_principal)).
Local Notation carried := (carried deps.(sd_principal)).
Local Notation fires_carried := (fires_carried deps.(sd_principal)).

Lemma quiet_carried d d' : no_new_fired d d' -> fires_carried d d'.
Proof. intros Hq id r Hr Hs. left. apply Hq. by exists r. Qed.

Lemma timer_wp_store {A} d (f : World -> A * World) Q :
  (forall w b w', timers_inv w.(w_db) -> kernel_rel d w.(w_db) -> f w = (b, w') ->
     kernel_rel w.(w_db) w'.(w_db) /\ fires_carried w.(w_db) w'.(w_db) /\
     forall d', timers_inv d' -> kernel_rel w'.(w_db) d' -> Q b d') ->
  wp d (act (OnStore f)) Q.
Proof. intros Hf w b w' Hi Hk E. destruct (Hf w b w' Hi Hk E) as (H1 & H2 & H3). by split_and!. Qed.

(** A transaction of the worker commits what its body did, or nothing. *)
Lemma wp_txn {A} d (body : M A) Q :
  (forall t r t', timers_inv t.(t_db) -> kernel_rel d t.(t_db) -> body t = (Ok r, t') ->
     kernel_rel t.(t_db) t'.(t_db) /\ fires_carried t.(t_db) t'.(t_db) /\
     forall d', timers_inv d' -> kernel_rel t'.(t_db) d' -> Q (Ok r) d') ->
  (forall e d', timers_inv d' -> Q (Err e) d') -> wp d (scheduler_txn deps body) Q.
Proof.
  intros Hb He. apply timer_wp_store. intros w b w' Hi Hk E. unfold scheduler_context, run_write_as, begin_write in E. cbn in E.
  assert (Hnone : kernel_rel (w_db w) (w_db w) /\ fires_carried (w_db w) (w_db w) /\
    forall e d', timers_inv d' -> kernel_rel (w_db w) d' -> Q (Err e) d') by (split_and!; [reflexivity|by apply quiet_carried|auto]).
  destruct Hnone as (H1 & H2 & H3). destruct (assert_epoch _ _) as [u|e]; cbn in E; [|injection E as <- <-; split_and!; auto].
  unfold committed, Prelude.bind in E. destruct (body _) as [[r|e] t'] eqn:Eb; cbn in E; injection E as <- <-.
  - refine (Hb _ _ _ _ _ Eb); done.
  - cbn. split_and!; auto.
Qed.

Lemma wp_claim_next d owner ex Q :
  (forall r d', timers_inv d' -> (forall c, r = Ok (Some c) -> timer_known d' c) -> Q r d') ->
  wp d (claim_next deps owner ex) Q.
Proof.
  intros HQ. apply wp_txn; [|intros e d' Hd'; by apply HQ]. intros t r t' Hi Hk E.
  apply bind_ok_inv in E as (now & t1 & [= _ <-] & E).
  pose proof (claim_next_due_kernel _ _ _ _ _ _ _ _ E) as [Hk' _]. cbn in Hk'. split_and!; [done|..].
  - apply quiet_carried. by apply (claim_next_due_fires_nothing _ _ _ _ _ _ _ _ E).
  - intros d' Hd' Hk2. apply HQ; [done|]. intros c [= ->]. apply claim_next_due_of in E as [Hc _]; [|done].
    cbn in Hc. eapply timer_known_stable; [exact Hi| |exact Hc]. by etransitivity.
Qed.

(** The command of the timer is on record once the coordinator accepts it. *)
Lemma execute_records c env w o w' : execute c env w = (Ok o, w') -> exists rec,
  w'.(w_db).(idempotency_records) !! command_key env = Some rec /\ rec.(IdempotencyRecordRow.request_digest) = digest_to_string env.(ce_request_digest).
Proof.
  intros [[-> [[e He]|(stored & Hs & Hr)]]|(h & t & outcome & t1 & t2 & _ & _ & _ & _ & E2 & -> & _)]%execute_inv; [done| |].
  - exists stored. split; [done|]. unfold replay_stored in Hr. case_bool_decide; [done|]. done.
  - apply insert_record_inv in E2 as (_ & _ & _ & rec & Hr & Hd & _). by exists rec.
Qed.

Lemma execute_fires_nothing env w r w' : execute deps.(sd_coordinator) env w = (r, w') -> no_new_fired w.(w_db) w'.(w_db).
Proof.
  intros [[-> _]|(h & t & outcome & t1 & t2 & Hh & Hb & _ & E1 & E2 & -> & _)]%execute_inv; [reflexivity|].
  unfold begin_write in Hb. destruct (assert_epoch _ _); [|done]. injection Hb as <-.
  destruct (Hquiet _ _ Hh _ _ _ _ _ E1) as [Hq _]. cbn in Hq. etransitivity; [exact Hq|].
  apply insert_record_inv in E2 as (rec & Hd & _). apply no_new_fired_frame. cbn. by rewrite Hd.
Qed.

Lemma fire_envelope_inv claimed id env : fire_envelope deps claimed id = Ok env ->
  command_key env = (deps.(sd_principal), fire_idempotency_key claimed.(TimerRow.timer_id)) /\
  digest_to_string env.(ce_request_digest) = hex_lower (sha256 claimed.(TimerRow.payload)).
Proof.
  unfold fire_envelope. destruct (idempotency_key_new _) as [key|] eqn:Hk; [|done]. cbn.
  destruct (digest_from_str _) as [g|] eqn:Hd; [|done]. cbn. intros [= <-]. cbn. apply digest_from_str_text in Hd as [Hd _].
  split; [|done]. unfold command_key. cbn. f_equal. unfold idempotency_key_new in Hk. destruct (_ || _); [discriminate|by injection Hk].
Qed.

Lemma wp_submit_fire d claimed Q :
  (forall r d', timers_inv d' -> kernel_rel d d' ->
     (forall o, r = Ok o -> carried d' claimed.(TimerRow.timer_id) claimed.(TimerRow.payload)) -> Q r d') ->
  wp d (submit_fire deps claimed) Q.
Proof.
  intros HQ. apply timer_wp_store. intros w b w' Hi Hk E. destruct (fire_envelope _ _ _) as [env|e] eqn:Ee.
  - pose proof (execute_kernel _ _ _ _ _ Hsound E) as Hk'. cbn in Hk'. split_and!; [done|..].
    + apply quiet_carried. by apply execute_fires_nothing in E.
    + intros d' Hd' Hk2. apply HQ; [done|by do 2 (etransitivity; [eassumption|])|]. intros o ->.
      apply fire_envelope_inv in Ee as [Hkey Hdig]. apply execute_records in E as (rec & Hr & Hd).
      eapply carried_stable; [exact Hk2|]. exists rec. rewrite <- Hkey. split; [done|]. congruence.
  - injection E as <- <-. split_and!; [reflexivity|by apply quiet_carried|]. intros d' Hd' Hk2.
    apply HQ; [done|by etransitivity|done].
Qed.

Lemma wp_mark_fired d claimed Q : timers_inv d -> timer_known d claimed ->
  carried d claimed.(TimerRow.timer_id) claimed.(TimerRow.payload) -> (forall r d', timers_inv d' -> Q r d') ->
  wp d (scheduler_txn deps (mark_fired scheduler_env claimed)) Q.
Proof.
  intros Hd Hkn Hc HQ. apply wp_txn; [|intros e d' Hd'; by apply HQ]. intros t r t' Hi Hk Eb.
  pose proof (mark_fired_kernel _ _ _ _ _ Eb) as [Hk' _]. split_and!; [done| |intros d' Hd' _; by apply HQ].
  destruct r.
  - apply mark_fired_true in Eb as (r & Hr & _ & _ & Ht). cbn in Hr, Ht. intros i r' Hr' Hs. rewrite Ht in Hr'.
    apply lookup_insert_Some in Hr' as [[<- <-]|[_ Hr']]; [right|left; by exists r'].
    destruct (timer_known_stable _ _ _ Hd Hk Hkn) as (r0 & Hr0 & Hp). rewrite Hr in Hr0. injection Hr0 as <-. cbn. rewrite Hp.
    eapply carried_stable; [|exact Hc]. by etransitivity.
  - apply quiet_carried, no_new_fired_frame. unfold mark_fired in Eb. apply bind_ok_inv in Eb as (b & t1 & Ec & Eb).
    apply timers_cas_transition_inv in Ec as [(-> & _)|(-> & ->)]; cbn in Eb; inv_ok; done.
Qed.

Lemma wp_fire d claimed Q : timers_inv d -> timer_known d claimed -> (forall r d', timers_inv d' -> Q r d') ->
  wp d (fire deps claimed) Q.
Proof.
  intros Hi Hkn HQ. unfold fire, prog_try. apply timer_wp_bind; [|done]. apply wp_submit_fire. intros r d' Hd' Hk Hc.
  destruct r as [o|e]; [|intros d2 Hd2 _; by apply HQ]. apply timer_wp_bind; [|done].
  apply wp_mark_fired; [done|exact (timer_known_stable _ _ _ Hi Hk Hkn)|exact (Hc o eq_refl)|].
  intros r2 d2 Hd2. destruct r2; intros d3 Hd3 _; by apply HQ.
Qed.

Lemma wp_dispatch_timers fuel d owner now ex bo : timers_inv d -> wp d (dispatch_timers deps fuel owner now ex bo) (fun _ _ => True).
Proof.
  revert d ex bo. induction fuel as [|fuel IH]; intros d ex bo Hi; cbn [dispatch_timers]; [done|].
  apply timer_wp_bind; [|done]. apply wp_claim_next. intros r d' Hd' Hkn. destruct r as [[c|]|e]; [|done|done].
  apply timer_wp_bind; [|done]. apply wp_fire; [done|by apply Hkn|]. intros [u|e] d2 Hd2; by apply IH.
Qed.

Lemma wp_dispatch_tick d bo : timers_inv d -> wp d (dispatch_tick deps bo) (fun _ _ => True).
Proof.
  intros Hi. unfold dispatch_tick. apply timer_wp_bind; [|done]. apply timer_wp_store. intros w b w' Hw Hk [= <- <-].
  split_and!; [reflexivity|by apply quiet_carried|]. intros d' Hd' _. by apply wp_dispatch_timers.
Qed.
End WorkerSpecs.

(** ** Workers, other services, crashes *)

Record Timing := mkTiming { tm_world : World; tm_progs : gmap nat (Prog (Res unit * TimerBackoff)) }.

Section Timing.
Context `{!Ext} (p : PrincipalId).

(** Whoever else changes the kernel leaves firing to the workers; [tim_stop] is the
    end of a tick or a crash in the middle of one. *)
Inductive timing_step : Timing -> Timing -> Prop :=
  | tim_elsewhere s w' : kernel_rel s.(tm_world).(w_db) w'.(w_db) -> no_new_fired s.(tm_world).(w_db) w'.(w_db) ->
      timing_step s (mkTiming w' s.(tm_progs))
  | tim_start s i deps backoff : s.(tm_progs) !! i = None -> deps.(sd_principal) = p ->
      registry_sound deps.(sd_coordinator).(coord_registry) ->
      map_Forall (fun _ h => fires_nothing h) deps.(sd_coordinator).(coord_registry) ->
      timing_step s (mkTiming s.(tm_world) (<[i := dispatch_tick deps backoff]> s.(tm_progs)))
  | tim_act s i B (a : Act B) k b w' : s.(tm_progs) !! i = Some (Do a k) -> act_result a s.(tm_world) b w' ->
      timing_step s (mkTiming w' (<[i := k b]> s.(tm_progs)))
  | tim_stop s i : timing_step s (mkTiming s.(tm_world) (base.delete i s.(tm_progs))).

Record timing_inv (w : World) (s : Timing) : Prop := {
  tmi_timers : timers_inv s.(tm_world).(w_db);
  tmi_progs : forall i m, s.(tm_progs) !! i = Some m -> timer_wp p s.(tm_world).(w_db) m (fun _ _ => True);
  tmi_fired : forall id r, s.(tm_world).(w_db).(timers) !! id = Some r -> r.(TimerRow.state) = TimerState.Fired ->
    fired w.(w_db) id \/ carried p s.(tm_world).(w_db) id r.(TimerRow.payload) }.

(** What was carried out stays so, and what fires is carried out. *)
Lemma fired_moves w d d' : timers_inv d -> kernel_rel d d' -> fires_carried p d d' ->
  (forall id r, d.(timers) !! id = Some r -> r.(TimerRow.state) = TimerState.Fired -> fired w.(w_db) id \/ carried p d id r.(TimerRow.payload)) ->
  forall id r, d'.(timers) !! id = Some r -> r.(TimerRow.state) = TimerState.Fired -> fired w.(w_db) id \/ carried p d' id r.(TimerRow.payload).
Proof.
  intros Hi Hk Hf Hold id r Hr Hs. destruct (Hf id r Hr Hs) as [(r0 & Hr0 & Hs0)|Hc]; [|by right].
  destruct (Hold id r0 Hr0 Hs0) as [Hw|Hc]; [by left|right]. destruct (timer_payload_stable _ _ _ _ Hi Hk Hr0) as (r1 & Hr1 & E).
  rewrite Hr in Hr1. injection Hr1 as <-. rewrite E. by eapply carried_stable.
Qed.

Lemma timing_inv_move w s w' progs : timing_inv w s -> kernel_rel s.(tm_world).(w_db) w'.(w_db) ->
  fires_carried p s.(tm_world).(w_db) w'.(w_db) ->
  (forall i m, progs !! i = Some m -> timer_wp p w'.(w_db) m (fun _ _ => True)) -> timing_inv w (mkTiming w' progs).
Proof.
  intros [Hi _ Hf] Hk Hc Hp. split; cbn; [by apply (kr_timers _ _ Hk)|done|]. by eapply fired_moves.
Qed.

Lemma timing_step_inv w s s' : timing_inv w s -> timing_step s s' -> timing_inv w s'.
Proof.
  intros Hinv. pose proof (tmi_timers _ _ Hinv) as Hi. pose proof (tmi_progs _ _ Hinv) as Hp.
  destruct 1 as [s w' Hk Hq|s i deps bo Hn Hd Hs Hh|s i B a k b w' Hm Ha|s i].
  - eapply timing_inv_move; [done|done|by apply (quiet_carried (mkSchedulerDeps (mkCommandCoordinator ∅ 0 (fun _ => false)) 0 p 0%N))|].
    intros j m Hj. exact (timer_wp_later p _ _ m _ Hk (Hp j m Hj)).
  - destruct Hinv as [_ _ Hf]. split; cbn [tm_world tm_progs]; [exact Hi| |exact Hf]. intros j m Hj. apply lookup_insert_Some in Hj as [[_ <-]|[_ Hj]]; [|exact (Hp j m Hj)].
    subst p. exact (wp_dispatch_tick deps Hs Hh _ bo Hi).
  - destruct (Hp i _ Hm (tm_world s) b w' Hi) as (Hk & Hf & Hn); [reflexivity|exact Ha|]. eapply timing_inv_move; [done|done|done|].
    intros j m Hj. apply lookup_insert_Some in Hj as [[_ <-]|[_ Hj]]; [exact Hn|]. exact (timer_wp_later p _ _ m _ Hk (Hp j m Hj)).
  - destruct Hinv as [_ _ Hf]. split; cbn [tm_world tm_progs]; [exact Hi| |exact Hf]. intros j m Hj. apply lookup_delete_Some in Hj as [_ Hj]. exact (Hp j m Hj).
Qed.

Lemma timing_reach_inv w s : timers_inv w.(w_db) -> rtc timing_step (mkTiming w ∅) s -> timing_inv w s.
Proof.
  intros Hi Hr. assert (Hstart : timing_inv w (mkTiming w ∅)).
  { split; cbn; [done|by intros i m|]. intros id r Hr' Hs. left. by exists r. }
  revert Hstart. induction Hr as [|s1 s2 s3 Hstep _ IH]; [done|]. intros Hinv. apply IH. by eapply timing_step_inv.
Qed.

End Timing.

(** ** Pacing *)

(** The delays double from two seconds and stay at a minute. *)
Lemma timer_delay_bounds n : 2000 <= timer_delay_ms n <= 60000 /\ (1 <= n <= 5 -> timer_delay_ms n = 2000 * 2 ^ (n - 1)).
Proof.
  unfold timer_delay_ms. set (k := Z.min (Z.max 0 (n - 1)) 5). assert (0 <= k <= 5) by lia. rewrite Z.shiftl_1_l. split.
  - assert (1 <= 2 ^ k <= 32); [|lia]. split; [apply (Z.pow_le_mono_r 2 0); lia|]. change 32 with (2 ^ 5). apply Z.pow_le_mono_r; lia.
  - intros Hn. replace k with (n - 1) by lia. assert (2 ^ (n - 1) <= 2 ^ 4) by (apply Z.pow_le_mono_r; lia). lia.
Qed.

(** A pause of the outbox worker lasts between its two bounds. *)
Fixpoint outbox_pauses {A} (rs : list (Res A)) (backoff : Z) : list Z :=
  match rs with
  | [] => []
  | r :: rs => let '(pause, backoff) := outbox_pace r backoff in
      match pause with Some ms => ms :: outbox_pauses rs backoff | None => outbox_pauses rs backoff end
  end.

Lemma outbox_pauses_bounded {A} (rs : list (Res A)) backoff : INITIAL_BACKOFF <= backoff <= MAX_BACKOFF ->
  Forall (fun ms => INITIAL_BACKOFF <= ms <= MAX_BACKOFF) (outbox_pauses rs backoff).
Proof.
  revert backoff. induction rs as [|r rs IH]; intros bo Hb; cbn [outbox_pauses]; [constructor|].
  assert (H0 : INITIAL_BACKOFF <= INITIAL_BACKOFF <= MAX_BACKOFF) by (unfold INITIAL_BACKOFF, MAX_BACKOFF; lia).
  destruct r as [a|e]; cbn; [by apply IH|]. destruct (err_code e); try by apply IH.
  constructor; [done|]. apply IH. unfold INITIAL_BACKOFF, MAX_BACKOFF in *. lia.
Qed.
