(* ===== verification/LiveBus.v ===== *)
(** * Live delivery ([events/src/live_bus.rs])

    The bounded fan-out of journaled events.  The [tokio] broadcast channel
    below it is described by its documented behaviour: a receiver gets the
    messages sent after it subscribed, in order, unless it falls more than the
    capacity behind, which it is told. *)

From S2P Require Import Prelude Domain Ids Text Models StoreBase Store Events Envelope.

Open Scope string_scope.
Open Scope Z_scope.

(** ** The broadcast channel *)

(** What the sender keeps: every message sent while there was a receiver, and
    whether the sender is still there. *)
Record Channel := mkChannel { ch_capacity : nat; ch_sent : list EventEnvelope; ch_open : bool }.

Inductive Received := Message (e : EventEnvelope) | RecvLagged (missed : nat) | RecvClosed.

(** What [Receiver::recv] may return at a position, and the position after. *)
Inductive recv (c : Channel) (pos : nat) : Received -> nat -> Prop :=
  | recv_message e : (length c.(ch_sent) - pos <= c.(ch_capacity))%nat -> c.(ch_sent) !! pos = Some e ->
      recv c pos (Message e) (S pos)
  | recv_lagged : (c.(ch_capacity) < length c.(ch_sent) - pos)%nat ->
      recv c pos (RecvLagged (length c.(ch_sent) - c.(ch_capacity) - pos)) (length c.(ch_sent) - c.(ch_capacity))
  | recv_closed : c.(ch_open) = false -> pos = length c.(ch_sent) -> recv c pos RecvClosed pos.

(** ** [LiveBus] *)

Inductive LiveItem :=
  | LiveEvent (e : EventEnvelope)
  | Lagged (resume_from : option EventCursor)
  | BusClosed.

(** [LiveBus::publish]: nothing is sent when nobody listens. *)
Definition bus_publish (receivers : nat) (e : EventEnvelope) (c : Channel) : Channel :=
  if (receivers =? 0)%nat then c else mkChannel c.(ch_capacity) (c.(ch_sent) ++ [e])%list c.(ch_open).

Record LiveSubscription := mkLiveSubscription {
  ls_pos : nat;
  ls_last_delivered : option EventCursor;
  ls_ended : bool }.

(** [LiveBus::subscribe]: positioned at the current tail. *)
Definition bus_subscribe (c : Channel) : LiveSubscription := mkLiveSubscription (length c.(ch_sent)) None false.

Definition event_cursor (e : EventEnvelope) : EventCursor := mkEventCursor (sk_text e.(ev_stream_key)) e.(ev_sequence).

(** [LiveSubscription::next] on what the channel returned; [None] is the panic of
    a call after the end. *)
Definition next (r : Received) (pos : nat) (s : LiveSubscription) : option (LiveItem * LiveSubscription) :=
  if s.(ls_ended) then None
  else Some match r with
    | Message e => (LiveEvent e, mkLiveSubscription pos (Some (event_cursor e)) false)
    | RecvLagged _ => (Lagged s.(ls_last_delivered), mkLiveSubscription pos None true)
    | RecvClosed => (BusClosed, mkLiveSubscription pos s.(ls_last_delivered) true)
    end.

(** ** [EphemeralBus] *)

(** Nothing ever receives from the private receiver. *)
Record EphemeralBus := mkEphemeralBus { eb_capacity : nat; eb_buffered : list bytes; eb_dropped : Z }.

Definition try_publish (b : bytes) (bus : EphemeralBus) : bool * EphemeralBus :=
  if (length bus.(eb_buffered) <? bus.(eb_capacity))%nat
  then (true, mkEphemeralBus bus.(eb_capacity) (bus.(eb_buffered) ++ [b])%list bus.(eb_dropped))
  else (false, mkEphemeralBus bus.(eb_capacity) bus.(eb_buffered) (u64_wrapping_add bus.(eb_dropped) 1)).

Fixpoint publish_all (l : list bytes) (bus : EphemeralBus) : EphemeralBus :=
  match l with [] => bus | b :: l => publish_all l (snd (try_publish b bus)) end.

(** ** What a subscription delivers *)

Inductive drained (c : Channel) : LiveSubscription -> list EventEnvelope -> LiveSubscription -> Prop :=
  | drained_nil s : drained c s [] s
  | drained_snoc s l s1 e pos s2 : drained c s l s1 -> recv c s1.(ls_pos) (Message e) pos ->
      next (Message e) pos s1 = Some (LiveEvent e, s2) -> drained c s (l ++ [e])%list s2.

(** A subscription delivers what was sent from its position on, in order, and
    reports as the cursor to resume from that of the last event it delivered. *)
Lemma drained_exact c s l s' : drained c s l s' ->
  l = take (length l) (drop s.(ls_pos) c.(ch_sent)) /\ s'.(ls_pos) = (s.(ls_pos) + length l)%nat /\
  (l <> [] -> s'.(ls_last_delivered) = event_cursor <$> list.last l).
Proof.
  induction 1 as [s|s l s1 e pos s2 Hd (Hl & Hp & Hc) Hr Hn].
  - split; [done|]. split; [cbn; lia|done].
  - unfold next in Hn. destruct (ls_ended s1); [done|]. injection Hn as <-. inversion Hr as [e' Hcap He Ee Epos| |]; subst.
    rewrite length_app. cbn [length ls_pos ls_last_delivered]. rewrite Nat.add_1_r. split_and!.
    + rewrite Hp in He. erewrite take_S_r by (rewrite lookup_drop; exact He). by rewrite <- Hl.
    + lia.
    + intros _. by rewrite last_snoc.
Qed.

(** The ephemeral bus keeps the first messages that fit and counts the rest: with
    nobody receiving, a full buffer stays full. *)
Lemma ephemeral_counts cap l : Z.of_nat (length l) <= u64_max ->
  let bus := publish_all l (mkEphemeralBus cap [] 0) in
  bus.(eb_buffered) = take cap l /\ bus.(eb_dropped) = Z.of_nat (length l - cap).
Proof.
  intros Hl. cbn zeta.
  assert (G : forall l b k, (length b <= cap)%nat -> 0 <= k -> k + Z.of_nat (length l) <= u64_max ->
    let bus := publish_all l (mkEphemeralBus cap b k) in
    bus.(eb_buffered) = take cap (b ++ l) /\ bus.(eb_dropped) = k + Z.of_nat (length b + length l - cap)).
  { clear. induction l as [|x l IH]; intros b k Hb Hk Hm; cbn zeta.
    - cbn. rewrite app_nil_r, take_ge by done. split; [done|lia].
    - cbn [publish_all]. unfold try_publish. cbn [eb_buffered eb_capacity eb_dropped length] in *.
      destruct (Nat.ltb_spec (length b) cap) as [Hlt|Hge]; cbn [snd].
      + destruct (IH (b ++ [x])%list k) as [E1 E2]; [rewrite length_app; cbn; lia|lia|lia|]. cbn zeta in E1, E2.
        rewrite E1, E2, <- app_assoc, length_app. cbn. split; [done|lia].
      + destruct (IH b (u64_wrapping_add k 1)) as [E1 E2]; cbn zeta in *.
        all: assert (Hw : u64_wrapping_add k 1 = k + 1) by (unfold u64_wrapping_add; apply Z.mod_small; unfold u64_max in Hm; lia).
        all: try (rewrite ?Hw; lia). rewrite E1, E2, Hw, !take_app_le by lia. split; [done|lia]. }
  destruct (G l [] 0) as [E1 E2]; [cbn; lia|lia|lia|]. cbn in E1, E2. done.
Qed.
