(* ===== verification/ApiAuth.v ===== *)
(** * Callers of the local API ([control-api/src/server.rs])

    The connection carries the credentials the operating system reports of the
    peer; a map turns its uid into a principal. *)

From S2P Require Import Prelude Domain Ids Text Models StoreBase.

Open Scope string_scope.
Open Scope Z_scope.

(** [tonic::Code] and [Status]. *)
Inductive GrpcCode :=
  | CodeInvalidArgument | CodeNotFound | CodeAlreadyExists | CodePermissionDenied | CodeResourceExhausted
  | CodeFailedPrecondition | CodeInternal | CodeUnavailable | CodeUnauthenticated.
Record Status := mkStatus { st_code : GrpcCode; st_message : string }.

Inductive Reply (A : Type) := Answer (a : A) | Refusal (s : Status).
Arguments Answer {A} a.
Arguments Refusal {A} s.

Definition reply_bind {A B} (r : Reply A) (f : A -> Reply B) : Reply B :=
  match r with Answer a => f a | Refusal s => Refusal s end.
Notation "'rpc!' x ':=' r 'in' k" := (reply_bind r (fun x => k)) (at level 10, x binder, r at level 200, k at level 200).

Definition kernel_error_to_string (e : KernelError) : string := error_code_as_str e.(err_code) +:+ ": " +:+ e.(err_message).

Record PeerCreds := mkPeerCreds { pc_uid : Z; pc_pid : option Z }.

(** [UidPrincipalMap]. *)
Abbreviation UidPrincipalMap := (gmap Z PrincipalId).

Fixpoint uid_map_insert (entries : list (Z * PrincipalId)) (principals : UidPrincipalMap) : Res UidPrincipalMap :=
  match entries with
  | [] => Ok principals
  | (uid, principal) :: entries =>
      match principals !! uid with
      | Some _ => Err (kerr InvalidArgument ("uid " +:+ u64_to_string uid +:+ " is mapped to two principals"))
      | None => uid_map_insert entries (<[uid := principal]> principals)
      end
  end.
Definition uid_map_new (entries : list (Z * PrincipalId)) : Res UidPrincipalMap := uid_map_insert entries ∅.
Definition principal_for_uid (principals : UidPrincipalMap) (uid : Z) : option PrincipalId := principals !! uid.

Definition reply_or {A} (o : option A) (code : GrpcCode) (message : string) : Reply A :=
  match o with Some a => Answer a | None => Refusal (mkStatus code message) end.

(** The principal of a connection. *)
Definition peer_principal (principals : UidPrincipalMap) (creds : option PeerCreds) : Reply PrincipalId :=
  rpc! creds := reply_or creds CodeUnauthenticated "missing peer credentials" in
  reply_or (principal_for_uid principals creds.(pc_uid)) CodePermissionDenied "peer uid has no mapped principal".

Section Auth.
Context `{!Ext}.

(** [actor_for]: a claimed principal must be the peer's. *)
Definition actor_for (principals : UidPrincipalMap) (creds : option PeerCreds) (claimed : string) : Reply PrincipalId :=
  rpc! principal := peer_principal principals creds in
  if str_is_empty claimed then Answer principal
  else
    rpc! claimed := reply_or (uuid_v7_from_str claimed) CodeInvalidArgument "principal_id is malformed" in
    if bool_decide (claimed = principal) then Answer principal
    else Refusal (mkStatus CodePermissionDenied "principal_id does not match the peer principal").

(** The actor is the principal of the peer's uid, and nothing the caller says. *)
Lemma actor_for_peer principals creds claimed p : actor_for principals creds claimed = Answer p ->
  exists c, creds = Some c /\ principals !! c.(pc_uid) = Some p.
Proof.
  unfold actor_for, peer_principal, principal_for_uid. destruct creds as [c|]; [|done]. cbn.
  destruct (principals !! pc_uid c) as [q|] eqn:Hq; [|done]. cbn. intros E. exists c. split; [done|]. revert E.
  destruct (str_is_empty claimed); [by intros [= ->]|]. destruct (uuid_v7_from_str claimed) as [u|]; [|done]. cbn.
  destruct (bool_decide _); by intros [= ->].
Qed.
End Auth.
