(* ===== verification/EventApi.v ===== *)
(** * The event API ([control-api/src/event_service.rs])

    Durable reads of a stream, and subscriptions that replay the journal and
    then follow the live bus. *)

From S2P Require Import Prelude Domain Ids Text Models StoreBase Store Events Envelope Journal LiveBus ApiAuth.

Open Scope string_scope.
Open Scope Z_scope.

Section EventApi.
Context `{!Ext} `{!EnvelopeCodec}.

Definition event_status (e : KernelError) : Status :=
  mkStatus (match e.(err_code) with
    | NotFound => CodeNotFound
    | FailedPrecondition => CodeFailedPrecondition
    | Conflict => CodeAlreadyExists
    | InvalidArgument => CodeInvalidArgument
    | ResourceExhausted => CodeResourceExhausted
    | _ => CodeUnavailable
    end) (kernel_error_to_string e).

(** [project]: the payload of a secret event stays in the journal. *)
Definition project (e : EventEnvelope) : EventEnvelopeMsg :=
  to_contract (mkEventEnvelope e.(ev_event_id) e.(ev_event_type) e.(ev_event_version) e.(ev_stream_key) e.(ev_sequence)
    e.(ev_occurred_unix_ms) e.(ev_run_id) e.(ev_task_id) e.(ev_session_id) e.(ev_effect_id) e.(ev_causation_id)
    e.(ev_correlation_id) e.(ev_sensitivity) e.(ev_retention)
    (if bool_decide (e.(ev_sensitivity) = SensitivityClass.Secret) then [] else e.(ev_payload))).

Definition parse_stream_key (field raw : string) : Reply StreamKey :=
  match stream_key_from_str raw with
  | Ok k => Answer k
  | Err _ => Refusal (mkStatus CodeInvalidArgument (field +:+ " is not a canonical stream key"))
  end.

Record ReadEventStreamResponse := mkReadEventStreamResponse { re_events : list EventEnvelopeMsg; re_retention_gap : bool }.

Definition read_stream_rpc (principals : UidPrincipalMap) (creds : option PeerCreds) (stream_key : string) (from_sequence : Z)
    (limit : nat) (j : Journal) : Reply ReadEventStreamResponse :=
  rpc! _ := peer_principal principals creds in
  rpc! k := parse_stream_key "stream_key" stream_key in
  match fst (read_stream k from_sequence limit j) with
  | Ok page => Answer (mkReadEventStreamResponse (project <$> page.(rr_events)) page.(rr_retention_gap))
  | Err e => Refusal (event_status e)
  end.

(** ** Subscriptions *)

Inductive Frame :=
  | FrameEvent (m : EventEnvelopeMsg)
  | FrameLag (stream_key : string) (resume_sequence : Z)
  | FrameError (s : Status).

Inductive SubPhase := Replaying | Following | Finished.

(** The task of a subscription: [from] equals [last_sequence] at every turn. *)
Record Subscriber := mkSubscriber {
  su_key : StreamKey;
  su_after : Z;
  su_live : LiveSubscription;
  su_last : Z;
  su_phase : SubPhase;
  su_sent : list Frame }.

Definition subscribe (principals : UidPrincipalMap) (creds : option PeerCreds) (stream_key : string) (after_sequence : Z)
    (bus : Channel) : Reply Subscriber :=
  rpc! _ := peer_principal principals creds in
  rpc! k := parse_stream_key "stream_key" stream_key in
  Answer (mkSubscriber k after_sequence (bus_subscribe bus) after_sequence Replaying []).

Definition finish (u : Subscriber) (frames : list Frame) : Subscriber :=
  mkSubscriber u.(su_key) u.(su_after) u.(su_live) u.(su_last) Finished (u.(su_sent) ++ frames)%list.

Definition last_sequence (default : Z) (events : list EventEnvelope) : Z :=
  match list.last events with Some e => e.(ev_sequence) | None => default end.

(** One turn of the replay loop. *)
Definition replay_turn (u : Subscriber) (j : Journal) : Subscriber :=
  match fst (read_stream u.(su_key) u.(su_last) 256 j) with
  | Err e => finish u [FrameError (event_status e)]
  | Ok page =>
      match page.(rr_events) with
      | [] => mkSubscriber u.(su_key) u.(su_after) u.(su_live) u.(su_last) Following u.(su_sent)
      | events => mkSubscriber u.(su_key) u.(su_after) u.(su_live) (last_sequence u.(su_last) events) Replaying
          (u.(su_sent) ++ (FrameEvent ∘ project <$> events))%list
      end
  end.

(** One turn of the follow loop, on what the channel returned. *)
Definition follow_turn (r : Received) (pos : nat) (u : Subscriber) : Subscriber :=
  match next r pos u.(su_live) with
  | None => u
  | Some (item, live) =>
      let u := mkSubscriber u.(su_key) u.(su_after) live u.(su_last) u.(su_phase) u.(su_sent) in
      match item with
      | LiveEvent e =>
          if negb (bool_decide (e.(ev_stream_key) = u.(su_key))) then u
          else if e.(ev_sequence) <=? u.(su_last) then u
          else mkSubscriber u.(su_key) u.(su_after) live e.(ev_sequence) u.(su_phase)
                 (u.(su_sent) ++ [FrameEvent (project e)])%list
      | Lagged _ => finish u [FrameLag (sk_text u.(su_key)) u.(su_last)]
      | BusClosed => finish u []
      end
  end.

(** The client went away while a page was being sent: [n] of its events got
    through. *)
Definition hang_up (n : nat) (u : Subscriber) (j : Journal) : Subscriber :=
  match u.(su_phase), fst (read_stream u.(su_key) u.(su_last) 256 j) with
  | Replaying, Ok page => finish
      (mkSubscriber u.(su_key) u.(su_after) u.(su_live) (last_sequence u.(su_last) (take n page.(rr_events))) Replaying u.(su_sent))
      (FrameEvent ∘ project <$> take n page.(rr_events))
  | _, _ => finish u []
  end.
End EventApi.
