(* ===== verification/Fanout.v ===== *)
(** * Gap-free subscriptions ([control-api/src/event_service.rs] over
    [events/src/dispatcher.rs] and [events/src/live_bus.rs])

    The dispatcher taken apart at the points where others can act, next to
    commands that stage events and subscribers that replay and follow. *)

From stdpp Require Import sorting list_numbers.
From S2P Require Import Prelude Domain Ids Text Models StoreBase Store Events Envelope Journal Dispatch Feed Drain.
From S2P Require Import LiveBus ApiAuth EventApi.

Open Scope string_scope.
Open Scope Z_scope.

(** ** The system *)

(** Where the dispatcher is in an iteration. *)
Inductive DispatchPoint :=
  | Idle
  | Journaling (rows : list OutboxEventRow) (todo : list (StreamKey * list EventEnvelope)) (events : list EventEnvelope)
  | Publishing (todo : list EventEnvelope).

Record Fanout := mkFanout {
  fo_state : DispatchState;
  fo_point : DispatchPoint;
  fo_bus : Channel;
  fo_subs : gmap nat Subscriber }.

Definition fo_db (f : Fanout) : Db := f.(fo_state).(ds_world).(w_db).

Definition listening (u : Subscriber) : bool := match u.(su_phase) with Finished => false | _ => true end.
Definition receivers (subs : gmap nat Subscriber) : nat := size (filter (fun iu => listening iu.2 = true) subs).

Definition with_world (w : World) (s : DispatchState) : DispatchState :=
  mkDispatch w s.(ds_journal) s.(ds_live) s.(ds_faults).

Section System.
Context `{!Ext} `{!EnvelopeCodec} `{!Faults}.

(** One action of the dispatcher; the bus is handed the event that is published. *)
Inductive dispatch_action : DispatchPoint -> DispatchState -> option EventEnvelope -> DispatchPoint -> DispatchState -> Prop :=
  | act_scan system limit epoch s rows w' groups :
      scan system limit epoch s.(ds_world) = (Ok rows, w') -> group_rows rows = Ok groups ->
      dispatch_action Idle s None (Journaling rows groups (concat groups.*2)) (with_world w' s)
  | act_scan_failed system limit epoch s r w' :
      scan system limit epoch s.(ds_world) = (r, w') ->
      (forall rows, r = Ok rows -> exists e, group_rows rows = Err e) ->
      dispatch_action Idle s None Idle (with_world w' s)
  | act_group rows g todo events s r s' :
      journal_group g.1 g.2 s = (r, s') ->
      dispatch_action (Journaling rows (g :: todo) events) s None
        (match r with Ok _ => Journaling rows todo events | Err _ => Idle end) s'
  | act_mark system epoch rows events s r s' :
      mark_phase system epoch rows s = (r, s') ->
      dispatch_action (Journaling rows [] events) s None (match r with Ok _ => Publishing events | Err _ => Idle end) s'
  | act_publish e todo s s' :
      live_publish e s = (Ok tt, s') -> dispatch_action (Publishing (e :: todo)) s (Some e) (Publishing todo) s'
  | act_done s : dispatch_action (Publishing []) s None Idle s.

Inductive fanout_step (principals : UidPrincipalMap) (f : Fanout) : Fanout -> Prop :=
  | fan_kernel w' : events_rel (fo_db f) w'.(w_db) -> publishable w'.(w_db) ->
      fanout_step principals f (mkFanout (with_world w' f.(fo_state)) f.(fo_point) f.(fo_bus) f.(fo_subs))
  | fan_dispatch e p' s' : dispatch_action f.(fo_point) f.(fo_state) e p' s' ->
      fanout_step principals f (mkFanout s' p'
        (match e with Some e => bus_publish (receivers f.(fo_subs)) e f.(fo_bus) | None => f.(fo_bus) end) f.(fo_subs))
  | fan_restart capacity :
      fanout_step principals f (mkFanout (mkDispatch f.(fo_state).(ds_world) f.(fo_state).(ds_journal) [] f.(fo_state).(ds_faults))
        Idle (mkChannel capacity [] true) ∅)
  | fan_subscribe i creds stream_key after u : f.(fo_subs) !! i = None -> 0 <= after ->
      subscribe principals creds stream_key after f.(fo_bus) = Answer u ->
      fanout_step principals f (mkFanout f.(fo_state) f.(fo_point) f.(fo_bus) (<[i := u]> f.(fo_subs)))
  | fan_replay i u : f.(fo_subs) !! i = Some u -> u.(su_phase) = Replaying ->
      fanout_step principals f (mkFanout f.(fo_state) f.(fo_point) f.(fo_bus)
        (<[i := replay_turn u f.(fo_state).(ds_journal)]> f.(fo_subs)))
  | fan_follow i u r pos : f.(fo_subs) !! i = Some u -> u.(su_phase) = Following ->
      recv f.(fo_bus) u.(su_live).(ls_pos) r pos ->
      fanout_step principals f (mkFanout f.(fo_state) f.(fo_point) f.(fo_bus) (<[i := follow_turn r pos u]> f.(fo_subs)))
  | fan_hang_up i u n : f.(fo_subs) !! i = Some u -> listening u = true ->
      fanout_step principals f (mkFanout f.(fo_state) f.(fo_point) f.(fo_bus)
        (<[i := hang_up n u f.(fo_state).(ds_journal)]> f.(fo_subs))).

Definition fanout_start (f : Fanout) : Prop :=
  pipeline_start f.(fo_state) /\ f.(fo_point) = Idle /\ f.(fo_subs) = ∅.

(** ** Histories *)

Definition of_stream (k : StreamKey) (e : EventEnvelope) : bool := bool_decide (e.(ev_stream_key) = k).

Lemma history_at d k i e : outbox_ok d -> history d k !! i = Some e ->
  ev_sequence e = Z.of_nat i + 1 /\ ev_stream_key e = k.
Proof. intros Hok Hi. destruct (history_lookup d k i e Hok Hi) as (id & r & (_ & _ & Hn) & ->). by split. Qed.

(** A stored row is in the history of its stream, at its position. *)
Lemma history_row d k id r : outbox_ok d -> at_position d (sk_text k) (OutboxEventRow.sequence r) id r ->
  history d k !! Z.to_nat (OutboxEventRow.sequence r - 1) = Some (envelope_from_row r k).
Proof.
  intros Hok Hp. pose proof (ob_bound _ Hok _ _ _ _ Hp) as Hb.
  destruct (lookup_lt_is_Some_2 (history d k) (Z.to_nat (OutboxEventRow.sequence r - 1))) as [e He].
  { rewrite length_history by done. lia. }
  rewrite He. f_equal. apply history_lookup in He as (id' & r' & Hp' & ->); [|done].
  replace (Z.of_nat (Z.to_nat (OutboxEventRow.sequence r - 1)) + 1) with (OutboxEventRow.sequence r) in Hp' by lia.
  assert (id' = id) as -> by (by eapply ob_unique). destruct Hp as (Hr & _), Hp' as (Hr' & _). congruence.
Qed.

Lemma history_kernel d d' k : outbox_ok d -> events_rel d d' -> history d k `prefix_of` history d' k.
Proof.
  intros Hok [Hok' [Hkeep _ Hheads]]. specialize (Hok' Hok).
  assert (Hi : forall i e, history d k !! i = Some e -> history d' k !! i = Some e).
  { intros i e He. pose proof (history_at _ _ _ _ Hok He) as [Hs _].
    apply history_lookup in He as (id & r & (Hr & Hk & Hn) & ->); [|done]. cbn in Hs.
    replace i with (Z.to_nat (OutboxEventRow.sequence r - 1)) by lia.
    apply (history_row d' k id r); [done|]. split; [by apply Hkeep|done]. }
  exists (drop (length (history d k)) (history d' k)). rewrite <- (take_drop (length (history d k)) (history d' k)) at 1. f_equal.
  apply list_eq. intros i. destruct (decide (i < length (history d k))%nat) as [Hlt|Hge].
  - rewrite lookup_take_lt by done. destruct (lookup_lt_is_Some_2 _ _ Hlt) as [e He]. by rewrite He, (Hi _ _ He).
  - rewrite lookup_take_ge by lia. by rewrite lookup_ge_None_2 by lia.
Qed.

Lemma history_marks ids d d' k : outbox_ok d -> marks ids d d' -> history d' k = history d k.
Proof.
  intros Hok Hm. pose proof (marks_outbox_ok _ _ _ Hm Hok) as Hok'. symmetry. apply list_eq. intros i.
  assert (Hi : forall i e, history d k !! i = Some e -> history d' k !! i = Some e).
  { clear i. intros i e He. pose proof (history_at _ _ _ _ Hok He) as [Hs _].
    apply history_lookup in He as (id & r & Hp & ->); [|done]. cbn in Hs.
    destruct (marks_at_kept _ _ _ _ _ _ _ Hm Hp) as (r' & Hp' & Hmr). destruct (marked_same _ _ _ _ Hmr) as (_ & Hq & _ & He & _).
    replace i with (Z.to_nat (OutboxEventRow.sequence r' - 1)) by lia. rewrite <- He.
    apply (history_row d' k id r'); [done|]. destruct Hp' as (? & ? & ?). split_and!; [done|done|lia]. }
  destruct (history d k !! i) as [e|] eqn:E; [symmetry; by apply Hi|]. symmetry. apply lookup_ge_None_2.
  rewrite length_history by done. apply lookup_ge_None_1 in E. rewrite length_history in E by done.
  destruct (mk_frame _ _ _ Hm) as [x ->]. exact E.
Qed.
End System.

(** ** Segments of a list *)

Definition seg {A} (a b : nat) (l : list A) : list A := drop a (take b l).

Lemma seg_nil {A} a (l : list A) : seg a a l = [].
Proof. unfold seg. apply drop_ge. rewrite length_take. lia. Qed.
Lemma seg_app {A} a b c (l : list A) : (a <= b <= c)%nat -> (seg a b l ++ seg b c l)%list = seg a c l.
Proof.
  intros Hab. unfold seg. rewrite <- (take_drop b (take c l)) at 2. rewrite take_take, Nat.min_l by lia.
  destruct (decide (a <= length (take b l))%nat) as [Hle|Hgt]; [by rewrite drop_app_le|].
  rewrite length_take in Hgt. rewrite !(take_ge l) by lia. rewrite (drop_ge l a), (drop_ge l b) by lia. cbn. by rewrite app_nil_r, drop_ge by lia.
Qed.
Lemma seg_prefix {A} a b (l l' : list A) : l `prefix_of` l' -> (b <= length l)%nat -> seg a b l' = seg a b l.
Proof. intros [k ->] Hb. unfold seg. by rewrite take_app_le. Qed.
Lemma seg_cons {A} a b (l : list A) e rest : seg a b l = e :: rest -> (a < b)%nat /\ l !! a = Some e /\ rest = seg (S a) b l.
Proof.
  unfold seg. intros E. assert (He : drop a (take b l) !! 0%nat = Some e) by (by rewrite E).
  rewrite lookup_drop, Nat.add_0_r in He. apply lookup_take_Some in He as [He Hlt]. split; [done|]. split; [done|].
  assert (Ht : tail (drop a (take b l)) = rest) by (by rewrite E).
  rewrite <- Ht, <- Nat.add_1_r, <- drop_drop. by destruct (drop a (take b l)).
Qed.
Lemma seg_of_lookup {A} a b (l m : list A) : (a <= b)%nat -> (b <= length l)%nat -> length m = (b - a)%nat ->
  (forall i x, m !! i = Some x -> l !! (a + i)%nat = Some x) -> m = seg a b l.
Proof.
  intros Hab Hb Hlen Hm. apply list_eq. intros i. unfold seg. destruct (m !! i) as [x|] eqn:E.
  - rewrite lookup_drop, lookup_take_lt; [symmetry; by apply Hm|]. apply lookup_lt_Some in E. lia.
  - apply lookup_ge_None_1 in E. symmetry. apply lookup_ge_None_2. rewrite length_drop, length_take. lia.
Qed.

Lemma filter_take_prefix {A} (P : A -> Prop) `{!forall x, Decision (P x)} n (l : list A) : filter P (take n l) `prefix_of` filter P l.
Proof. rewrite <- (take_drop n l) at 2. rewrite list.filter_app. by apply prefix_app_r. Qed.

Lemma prefix_of_seqZ (l : list Z) m n : l `prefix_of` seqZ m n -> l = seqZ m (Z.of_nat (length l)).
Proof.
  intros Hp. apply list_eq. intros i. destruct (l !! i) as [x|] eqn:E.
  - pose proof (lookup_lt_Some _ _ _ E) as Hlt. pose proof (prefix_lookup_Some _ _ _ _ E Hp) as Hx.
    apply lookup_seqZ in Hx as [-> _]. symmetry. apply lookup_seqZ. lia.
  - apply lookup_ge_None_1 in E. symmetry. apply lookup_ge_None_2. rewrite length_seqZ. lia.
Qed.

(** ** The invariant *)

Section Invariant.
Context `{!Ext} `{!EnvelopeCodec} `{!Faults}.

(** [M key] events of a stream are marked, the oldest ones. *)
Definition marked_upto (d : Db) (M : string -> nat) : Prop :=
  (forall key, (Z.of_nat (M key) <= stream_head d key)) /\
  forall key n id r, at_position d key n id r -> (unpublished r = false <-> n <= Z.of_nat (M key)).

Definition in_key (key : string) (r : OutboxEventRow) : bool := bool_decide (r.(OutboxEventRow.stream_key) = key).

(** The scanned rows are the next unmarked ones of their streams. *)
Definition next_rows (M : string -> nat) (rows : list OutboxEventRow) : Prop := forall key,
  OutboxEventRow.sequence <$> filter (fun r => in_key key r = true) rows =
  seqZ (Z.of_nat (M key) + 1) (Z.of_nat (length (filter (fun r => in_key key r = true) rows))).

Definition of_key (k : StreamKey) (l : list EventEnvelope) : list EventEnvelope := filter (fun e => of_stream k e = true) l.

Definition point_ok (d : Db) (j : Journal) (M : string -> nat) (p : DispatchPoint) : Prop :=
  match p with
  | Idle => True
  | Journaling rows todo events => exists done,
      (forall r, r ∈ rows -> r ∈ backlog d /\ r.(OutboxEventRow.sequence) <= i64_max) /\
      group_rows rows = Ok (done ++ todo)%list /\ events = concat (done ++ todo)%list.*2 /\
      (forall k batch e, (k, batch) ∈ done -> e ∈ batch -> is_Some (j !! (sk_text k, e.(ev_sequence)))) /\
      next_rows M rows
  | Publishing l => forall k, stream_key_from_str (sk_text k) = Ok k -> exists a, (a <= M (sk_text k))%nat /\
      of_key k l = seg a (M (sk_text k)) (history d k)
  end.

Definition unpublished_of (p : DispatchPoint) : list EventEnvelope := match p with Publishing l => l | _ => [] end.

Definition last_frames (key : StreamKey) (last : Z) (phase : SubPhase) (tail : list Frame) : Prop :=
  tail = [] \/ phase = Finished /\ (tail = [FrameLag (sk_text key) last] \/ exists st, tail = [FrameError st]).

(** What a subscriber has been sent: a segment of the history, and the end. *)
Record sent_ok (d : Db) (u : Subscriber) : Prop := {
  so_key : stream_key_from_str (sk_text u.(su_key)) = Ok u.(su_key);
  so_after : 0 <= u.(su_after) <= u.(su_last);
  so_last : u.(su_last) = u.(su_after) \/ (Z.to_nat u.(su_last) <= length (history d u.(su_key)))%nat;
  so_sent : exists tail, last_frames u.(su_key) u.(su_last) u.(su_phase) tail /\
    u.(su_sent) = ((FrameEvent ∘ project <$> seg (Z.to_nat u.(su_after)) (Z.to_nat u.(su_last)) (history d u.(su_key))) ++ tail)%list }.

(** What it will get from the bus: the history from a position it has reached. *)
Definition pending_ok (d : Db) (M : string -> nat) (p : DispatchPoint) (bus : Channel) (u : Subscriber) : Prop :=
  u.(su_live).(ls_ended) = false /\ (u.(su_live).(ls_pos) <= length bus.(ch_sent))%nat /\
  exists a, (a <= M (sk_text u.(su_key)))%nat /\ (u.(su_phase) = Following -> Z.of_nat a <= u.(su_last)) /\
    of_key u.(su_key) (drop u.(su_live).(ls_pos) bus.(ch_sent) ++ unpublished_of p)%list =
    seg a (M (sk_text u.(su_key))) (history d u.(su_key)).

Record fanout_inv (f : Fanout) (M : string -> nat) : Prop := {
  fi_ok : pipeline_ok f.(fo_state);
  fi_publishable : publishable (fo_db f);
  fi_marked : marked_upto (fo_db f) M;
  fi_point : point_ok (fo_db f) f.(fo_state).(ds_journal) M f.(fo_point);
  fi_sent : forall i u, f.(fo_subs) !! i = Some u -> sent_ok (fo_db f) u;
  fi_pending : forall i u, f.(fo_subs) !! i = Some u -> listening u = true ->
    pending_ok (fo_db f) M f.(fo_point) f.(fo_bus) u }.

Lemma marked_within d M k : outbox_ok d -> marked_upto d M -> (M (sk_text k) <= length (history d k))%nat.
Proof. intros Hok [Hh _]. rewrite length_history by done. specialize (Hh (sk_text k)). lia. Qed.

(** ** Growth of the outbox *)

Lemma sent_grows d d' u : (history d u.(su_key) `prefix_of` history d' u.(su_key)) -> sent_ok d u -> sent_ok d' u.
Proof.
  intros Hp [Hk Ha Hl (tail & Ht & Hs)]. pose proof (prefix_length _ _ Hp) as Hlen. split; try done.
  - destruct Hl as [Hl|Hl]; [by left|right; lia].
  - exists tail. split; [done|]. rewrite Hs. f_equal. f_equal. destruct Hl as [->|Hl]; [by rewrite !seg_nil|].
    symmetry. by apply seg_prefix.
Qed.

Lemma marked_kernel d d' M : outbox_ok d -> events_rel d d' -> marked_upto d M -> marked_upto d' M.
Proof.
  intros Hok [Hok' [Hkeep Hnew Hheads]] [Hh Hm]. specialize (Hok' Hok). split.
  - intros key. specialize (Hh key). specialize (Hheads key). lia.
  - intros key n id r Hp. pose proof Hp as (Hr & Hk & Hn). destruct (outbox_events d !! id) as [r0|] eqn:E.
    + rewrite (Hkeep _ _ E) in Hr. injection Hr as ->. apply (Hm key n id r). split_and!; done.
    + destruct (Hnew _ _ E Hr) as [Hu _]. rewrite Hu. split; [done|]. intros Hle.
      destruct (ob_dense _ Hok key n) as (id0 & r0 & Hp0).
      { pose proof (ob_bound _ Hok' _ _ _ _ Hp). specialize (Hh key). lia. }
      assert (id0 = id) as ->.
      { apply (ob_unique _ Hok' key n id0 r0 id r); [|done]. destruct Hp0 as (A1 & A2 & A3). split; [by apply Hkeep|done]. }
      destruct Hp0 as (A1 & _). congruence.
Qed.

Lemma backlog_kernel d d' r : outbox_grows d d' -> r ∈ backlog d -> r ∈ backlog d'.
Proof. intros [Hkeep _ _] (id & Hr & Hu)%elem_of_backlog. apply elem_of_backlog. exists id. split; [by apply Hkeep|done]. Qed.

Lemma point_kernel d d' j M p : outbox_ok d -> events_rel d d' -> marked_upto d M -> point_ok d j M p -> point_ok d' j M p.
Proof.
  intros Hok He HM. destruct p as [|rows todo events|l]; cbn; [done| |].
  - intros (dn & Hr & Hg). exists dn. split; [|done]. intros r Hin. destruct (Hr r Hin). split; [|done].
    eapply backlog_kernel; [apply He|done].
  - intros Hp k Hk. destruct (Hp k Hk) as (a & Ha & E). exists a. split; [done|]. rewrite E. symmetry.
    apply seg_prefix; [by apply history_kernel|by apply marked_within].
Qed.

Lemma pending_kernel d d' M p bus u : outbox_ok d -> events_rel d d' -> marked_upto d M ->
  pending_ok d M p bus u -> pending_ok d' M p bus u.
Proof.
  intros Hok He HM (H1' & H2' & a & Ha & Hf & E). split; [done|]. split; [done|]. exists a. split; [done|]. split; [done|].
  rewrite E. symmetry. apply seg_prefix; [by apply history_kernel|by apply marked_within].
Qed.
End Invariant.

(** ** What the dispatcher marks and publishes *)

Section Marking.
Context `{!Ext} `{!EnvelopeCodec} `{!Faults}.

Lemma filter_in_key key r (rows : list OutboxEventRow) : r ∈ filter (fun r => in_key key r = true) rows <-> r ∈ rows /\ OutboxEventRow.stream_key r = key.
Proof. rewrite list_elem_of_filter. unfold in_key. rewrite bool_decide_eq_true. tauto. Qed.

(** The unmarked rows of a stream are the positions after the marked ones. *)
Lemma backlog_sequences d M key : outbox_ok d -> marked_upto d M ->
  OutboxEventRow.sequence <$> filter (fun r => in_key key r = true) (backlog d) =
  seqZ (Z.of_nat (M key) + 1) (Z.of_nat (Z.to_nat (stream_head d key - Z.of_nat (M key)))).
Proof.
  intros Hok [Hh Hm]. specialize (Hh key). apply (StronglySorted_unique_strong Z.le); [lia|..].
  - pose proof (backlog_sorted d) as Hs. induction Hs as [|x l Hs IH Hx]; [constructor|]. rewrite filter_cons.
    case_decide as D; [|done]. rewrite fmap_cons. constructor; [done|]. apply Forall_fmap, list.Forall_forall.
    intros y [Hy Hk]%filter_in_key. rewrite list.Forall_forall in Hx. specialize (Hx y Hy).
    unfold in_key in D. apply bool_decide_eq_true in D. destruct Hx as [[Hne _]|[_ Hle]]; cbn in *; [congruence|done].
  - apply seqZ_StronglySorted.
  - apply NoDup_Permutation; [|apply NoDup_seqZ|].
    + apply NoDup_fmap_2_strong; [|apply list.NoDup_filter, backlog_NoDup; done].
      intros x y [Hx Kx]%filter_in_key [Hy Ky]%filter_in_key E. destruct (backlog_row d x Hok Hx) as (Rx & _ & _).
      destruct (backlog_row d y Hok Hy) as (Ry & _ & _).
      assert (OutboxEventRow.event_id x = OutboxEventRow.event_id y) as Hid
        by (eapply (ob_unique _ Hok key (OutboxEventRow.sequence x)); split_and!; done).
      rewrite Hid in Rx. congruence.
    + intros n. rewrite list_elem_of_fmap, elem_of_seqZ. split.
      * intros (r & -> & [(id & Hr & Hu)%elem_of_backlog Hk]%filter_in_key).
        assert (Hp : at_position d key (OutboxEventRow.sequence r) id r) by done.
        pose proof (ob_bound _ Hok _ _ _ _ Hp). destruct (Hm _ _ _ _ Hp) as [_ Hp2]. rewrite Hu in Hp2.
        destruct (Z.le_gt_cases (OutboxEventRow.sequence r) (Z.of_nat (M key))) as [Hle|Hgt]; [by specialize (Hp2 Hle)|lia].
      * intros Hn. destruct (ob_dense _ Hok key n) as (id & r & Hp); [lia|]. pose proof Hp as (Hr & Hk & Hs).
        exists r. split; [done|]. apply filter_in_key. split; [|done]. apply elem_of_backlog. exists id. split; [done|].
        destruct (unpublished r) eqn:Hu; [done|]. apply (Hm _ _ _ _ Hp) in Hu. lia.
Qed.

Lemma scanned_next_rows d M limit : outbox_ok d -> marked_upto d M -> next_rows M (take limit (backlog d)).
Proof.
  intros Hok HM key. set (l := filter _ _).
  assert (Hp : (OutboxEventRow.sequence <$> l) `prefix_of` (OutboxEventRow.sequence <$> filter (fun r => in_key key r = true) (backlog d))).
  { destruct (filter_take_prefix (fun r => in_key key r = true) limit (backlog d)) as [k ->]. rewrite fmap_app. by apply prefix_app_r. }
  rewrite (backlog_sequences d M key Hok HM) in Hp. apply prefix_of_seqZ in Hp. by rewrite length_fmap in Hp.
Qed.

Lemma next_rows_positions d M rows key n id r :
  outbox_ok d -> (forall r, r ∈ rows -> r ∈ backlog d) -> next_rows M rows -> at_position d key n id r ->
  id ∈ OutboxEventRow.event_id <$> rows <->
  Z.of_nat (M key) < n <= Z.of_nat (M key + length (filter (fun r => in_key key r = true) rows)).
Proof.
  intros Hok Hb Hn Hp. specialize (Hn key). set (l := filter _ rows) in *. pose proof Hp as (Hr & Hk & Hs). split.
  - intros (r' & -> & Hin)%list_elem_of_fmap. destruct (backlog_row d r' Hok (Hb _ Hin)) as (Hr' & _).
    rewrite Hr in Hr'. injection Hr' as <-.
    assert (Hi : n ∈ OutboxEventRow.sequence <$> l) by (apply list_elem_of_fmap; exists r; split; [done|by apply filter_in_key]).
    rewrite Hn, elem_of_seqZ in Hi. lia.
  - intros Hrange. assert (Hi : n ∈ OutboxEventRow.sequence <$> l) by (rewrite Hn, elem_of_seqZ; lia).
    apply list_elem_of_fmap in Hi as (r' & Hn' & [Hin Hk']%filter_in_key).
    destruct (backlog_row d r' Hok (Hb _ Hin)) as (Hr' & _). apply list_elem_of_fmap. exists r'. split; [|done].
    apply (ob_unique _ Hok key n id r _ r'); [done|]. split_and!; done.
Qed.

(** The marks after a transaction. *)
Definition advance (M : string -> nat) (rows : list OutboxEventRow) (key : string) : nat :=
  (M key + length (filter (fun r => in_key key r = true) rows))%nat.

Lemma marked_advance d d' M rows : outbox_ok d -> (forall r, r ∈ rows -> r ∈ backlog d) -> next_rows M rows ->
  marked_upto d M -> marks (OutboxEventRow.event_id <$> rows) d d' -> marked_upto d' (advance M rows).
Proof.
  intros Hok Hb Hn [Hh HM] Hm. destruct (mk_frame _ _ _ Hm) as [x Hx]. split.
  - intros key. assert (stream_head d' key = stream_head d key) as -> by (by rewrite Hx). unfold advance.
    specialize (Hn key). destruct (filter (fun r => in_key key r = true) rows) as [|r0 l] eqn:El.
    { cbn. specialize (Hh key). lia. }
    rewrite <- El in *. set (m := length (filter _ rows)) in *.
    assert (Hi : (Z.of_nat (M key) + Z.of_nat m) ∈ OutboxEventRow.sequence <$> filter (fun r => in_key key r = true) rows).
    { rewrite Hn, elem_of_seqZ. assert (0 < m)%nat by (unfold m; rewrite El; cbn; lia). lia. }
    apply list_elem_of_fmap in Hi as (r & Hr & [Hin Hk]%filter_in_key). destruct (backlog_row d r Hok (Hb _ Hin)) as (Hr' & _).
    pose proof (ob_bound _ Hok key (OutboxEventRow.sequence r) (OutboxEventRow.event_id r) r) as Hbd.
    specialize (Hbd ltac:(done)). lia.
  - intros key n id r' Hp'. apply (marks_at _ _ _ _ _ _ _ Hm) in Hp' as (r & Hp & Hmr & _).
    destruct (marked_same _ _ _ _ Hmr) as (_ & _ & _ & _ & ->).
    rewrite (HM _ _ _ _ Hp), (next_rows_positions d M rows key n id r Hok Hb Hn Hp). unfold advance. lia.
Qed.

Lemma advance_mirror d d' j M rows groups : outbox_ok d -> mirror d j -> (forall r, r ∈ rows -> r ∈ backlog d) ->
  marked_upto d M -> next_rows M rows -> group_rows rows = Ok groups ->
  (forall k batch e, (k, batch) ∈ groups -> e ∈ batch -> is_Some (j !! (sk_text k, e.(ev_sequence)))) ->
  marks (OutboxEventRow.event_id <$> rows) d d' -> mirror d' j.
Proof.
  intros Hok Hmi Hb [_ HM] Hn Hg Hj Hm. eapply marks_mirror; [done|done|..].
  - intros key n id r (Hr & Hk & Hs) (r0 & Hid & Hin)%list_elem_of_fmap. destruct (backlog_row d r0 Hok (Hb _ Hin)) as (Hr0 & _).
    rewrite <- Hid, Hr in Hr0. injection Hr0 as <-. destruct (row_in_group _ _ r Hg Hin) as (k & b & Hkb & He & Hkk).
    specialize (Hj k b _ Hkb He). cbn in Hj. by rewrite Hkk, Hk, Hs in Hj.
  - intros key n id r m id' r' Hp Hin Hp' Hmn. apply (next_rows_positions d M rows _ _ _ _ Hok Hb Hn Hp) in Hin.
    rewrite (HM _ _ _ _ Hp'), (next_rows_positions d M rows _ _ _ _ Hok Hb Hn Hp'). lia.
Qed.

(** The events handed on are the history from the old marks to the new ones. *)
Lemma events_of_key rows events k : Forall2 row_event rows events -> stream_key_from_str (sk_text k) = Ok k ->
  of_key k events = (fun r => envelope_from_row r k) <$> filter (fun r => in_key (sk_text k) r = true) rows.
Proof.
  intros Hf Hk. unfold of_key. induction Hf as [|r e rows events (key & Hkey & ->) _ IH]; [done|]. rewrite !filter_cons, IH.
  pose proof (stream_key_from_str_text _ _ Hkey) as Ht. unfold of_stream, in_key. cbn [ev_stream_key envelope_from_row].
  destruct (decide (key = k)) as [->|Hne].
  - rewrite !decide_True; [done|..]; by apply bool_decide_eq_true.
  - rewrite !decide_False; [done|..]; rewrite bool_decide_eq_true; [|done]. intros E. rewrite E in Hkey. congruence.
Qed.

Lemma published_segment d M rows groups k : outbox_ok d -> (forall r, r ∈ rows -> r ∈ backlog d) -> next_rows M rows ->
  group_rows rows = Ok groups -> stream_key_from_str (sk_text k) = Ok k ->
  (advance M rows (sk_text k) <= length (history d k))%nat ->
  of_key k (concat groups.*2) = seg (M (sk_text k)) (advance M rows (sk_text k)) (history d k).
Proof.
  intros Hok Hb Hn Hg Hk Hle. apply group_rows_spec in Hg as [_ Hf]. rewrite (events_of_key rows) by done.
  unfold advance in *. specialize (Hn (sk_text k)). set (l := filter _ rows) in *.
  apply seg_of_lookup; [lia|done|rewrite length_fmap; lia|].
  intros i e Hi. rewrite list_lookup_fmap, fmap_Some in Hi. destruct Hi as (r & Hr & ->).
  assert (Hs : (OutboxEventRow.sequence <$> l) !! i = Some (OutboxEventRow.sequence r)) by (by rewrite list_lookup_fmap, Hr).
  rewrite Hn in Hs. apply lookup_seqZ in Hs as [Hs _]. apply list_elem_of_lookup_2, filter_in_key in Hr as [Hin Hkr].
  destruct (backlog_row d r Hok (Hb _ Hin)) as (Hr & _).
  replace (M (sk_text k) + i)%nat with (Z.to_nat (OutboxEventRow.sequence r - 1)) by lia.
  by apply (history_row d k (OutboxEventRow.event_id r) r).
Qed.
End Marking.

(** ** Every step keeps the invariant *)

Section Preservation.
Context `{!Ext} `{!EnvelopeCodec} `{!Faults} `{!WireCodec}.

(** What a step of the dispatcher does to the subscribers' view. *)
Lemma dispatch_ok f M e p' s' : fanout_inv f M -> dispatch_action f.(fo_point) f.(fo_state) e p' s' ->
  exists M', pipeline_ok s' /\ publishable s'.(ds_world).(w_db) /\ marked_upto s'.(ds_world).(w_db) M' /\
    point_ok s'.(ds_world).(w_db) s'.(ds_journal) M' p' /\
    (forall k, history s'.(ds_world).(w_db) k = history (fo_db f) k) /\
    (forall k, stream_key_from_str (sk_text k) = Ok k -> (M (sk_text k) <= M' (sk_text k))%nat /\
       (of_key k (match e with Some e => [e] | None => [] end ++ unpublished_of p')%list =
        (of_key k (unpublished_of f.(fo_point)) ++ seg (M (sk_text k)) (M' (sk_text k)) (history (fo_db f) k))%list)).
Proof.
  intros [[Hok Hmi] Hpub HM Hpt _ _]. unfold fo_db in *. set (d := w_db (ds_world (fo_state f))) in *.
  destruct f as [s p bus subs]. cbn in *.
  assert (Hstay : forall w', w_db w' = d -> forall p', point_ok d (ds_journal s) M p' -> unpublished_of p = [] -> unpublished_of p' = [] ->
    exists M', pipeline_ok (with_world w' s) /\ publishable (w_db w') /\ marked_upto (w_db w') M' /\
    point_ok (w_db w') (ds_journal s) M' p' /\ (forall k, history (w_db w') k = history d k) /\
    (forall k, stream_key_from_str (sk_text k) = Ok k -> (M (sk_text k) <= M' (sk_text k))%nat /\
       of_key k ([] ++ unpublished_of p')%list = (of_key k (unpublished_of p) ++ seg (M (sk_text k)) (M' (sk_text k)) (history d k))%list)).
  { intros w' Hd p0 Hp0 E E0. exists M. unfold pipeline_ok. cbn. rewrite Hd, E, E0. split_and!; try done.
    intros k _. split; [done|]. by rewrite seg_nil. }
  destruct 1 as [system limit epoch s rows w' groups Es Hg|system limit epoch s r w' Es Hfail|rows g todo events s r s' Eg
    |system epoch rows events s r s' Em|e todo s s' El|s].
  - apply scan_spec in Es as [Hd Hrows]. destruct (Hrows rows eq_refl) as [-> Hseq]. apply Hstay; try done.
    exists []. split_and!; try done.
    + intros r Hr. split; [by eapply take_in_backlog|by apply Hseq].
    + intros k b e Hin. by apply elem_of_nil in Hin.
    + by apply scanned_next_rows.
  - apply scan_spec in Es as [Hd _]. by apply Hstay.
  - destruct Hpt as (dn & Hr & Hgr & -> & Hdn & Hn). destruct g as [k b].
    assert (Hb : forall r, r ∈ rows -> r ∈ backlog d) by (intros r0 Hin; by apply Hr).
    assert (Hbatch : batch_of d k b).
    { intros e He. destruct (grouped_envelope d rows _ k b e Hok Hb Hgr) as (row & Hrow & _ & _ & -> & Henv & Hge); [set_solver|done|].
      split; [done|]. destruct (Hr row Hrow). cbn in *. lia. }
    apply (journal_group_spec d) in Eg as [(Hw & Hl & HM') Hdone]; [|done|done]. destruct (HM' Hmi) as [Hmi' Hsub].
    assert (s' = mkDispatch (ds_world s) (ds_journal s') (ds_live s) (ds_faults s')) as -> by (destruct s'; cbn in *; by subst).
    exists M. cbn. fold d. split; [done|]. split; [done|]. split; [done|].
    destruct r as [[]|e]; cbn; (split; [|split; [done|intros k0 _; split; [done|by rewrite seg_nil]]]); [|done].
    exists (dn ++ [(k, b)])%list. rewrite <- app_assoc. split_and!; try done.
    intros k0 b0 e [Hin|Hin]%elem_of_app He.
    + destruct (Hdn _ _ _ Hin He) as [row Hrow]. exists row. by eapply lookup_weaken.
    + apply list_elem_of_singleton in Hin as [= -> ->]. by apply Hdone.
  - destruct Hpt as (dn & Hr & Hgr & -> & Hdn & Hn). rewrite app_nil_r in *.
    assert (Hb : forall r, r ∈ rows -> r ∈ backlog d) by (intros r0 Hin; by apply Hr).
    apply mark_phase_spec in Em as (Hj & Hl & Hcase); [|done].
    destruct Hcase as [(e & -> & Hd)|[-> Hmk]].
    + exists M. unfold pipeline_ok. rewrite Hd, Hj. fold d. cbn. split_and!; try done. intros k _. split; [done|by rewrite seg_nil].
    + fold d in Hmk. pose proof (marked_advance d _ M rows Hok Hb Hn HM Hmk) as HM'. pose proof (marks_outbox_ok _ _ _ Hmk Hok) as Hok'.
      assert (Hh : forall k, history (w_db (ds_world s')) k = history d k) by (intros k; by eapply history_marks).
      exists (advance M rows). unfold pipeline_ok. rewrite Hj. split_and!; try done.
      * exact (advance_mirror d _ _ M rows dn Hok Hmi Hb HM Hn Hgr Hdn Hmk).
      * by eapply marks_publishable.
      * intros k Hk. exists (M (sk_text k)). split; [unfold advance; lia|]. rewrite Hh.
        apply published_segment; try done. rewrite <- Hh. by apply marked_within.
      * intros k Hk. split; [unfold advance; lia|]. cbn. apply published_segment; try done.
        rewrite <- Hh. by apply marked_within.
  - injection El as <-. exists M. cbn. fold d. split_and!; try done.
    + intros k Hk. destruct (Hpt k Hk) as (a & Ha & E). unfold of_key in *. rewrite filter_cons in E. case_decide as D; [|by exists a].
      symmetry in E. apply seg_cons in E as (Hlt & _ & E). exists (S a). split; [lia|done].
    + intros k Hk. split; [done|]. by rewrite seg_nil, app_nil_r.
  - exists M. split_and!; try done. intros k Hk. split; [done|]. cbn. by rewrite seg_nil.
Qed.

Lemma listening_receivers subs i u : subs !! i = Some u -> listening u = true -> receivers subs <> 0%nat.
Proof.
  intros Hi Hl. unfold receivers. apply map_size_non_empty_iff. intros E.
  assert (Hf : filter (fun iu => listening iu.2 = true) subs !! i = Some u) by (by apply map_lookup_filter_Some).
  by rewrite E, lookup_empty in Hf.
Qed.

Lemma of_key_app k l l' : of_key k (l ++ l')%list = (of_key k l ++ of_key k l')%list.
Proof. apply list.filter_app. Qed.

(** The bus after a step of the dispatcher still holds what is to come. *)
Lemma pending_dispatch f M e p' s' M' i u : fanout_inv f M -> dispatch_action f.(fo_point) f.(fo_state) e p' s' ->
  (forall k, stream_key_from_str (sk_text k) = Ok k -> (M (sk_text k) <= M' (sk_text k))%nat /\
     (of_key k (match e with Some e => [e] | None => [] end ++ unpublished_of p')%list =
      (of_key k (unpublished_of f.(fo_point)) ++ seg (M (sk_text k)) (M' (sk_text k)) (history (fo_db f) k))%list)) ->
  f.(fo_subs) !! i = Some u -> listening u = true ->
  pending_ok (fo_db f) M' p' (match e with Some e => bus_publish (receivers f.(fo_subs)) e f.(fo_bus) | None => f.(fo_bus) end) u.
Proof.
  intros Hinv Ha Hk Hi Hl. destruct (fi_pending _ _ Hinv i u Hi Hl) as (Hend & Hpos & a & Hle & Hfol & E).
  destruct (Hk (su_key u) (so_key _ _ (fi_sent _ _ Hinv i u Hi))) as [HMM Eq].
  set (bus' := match e with Some e => _ | None => _ end).
  assert (Hbus : ch_sent bus' = (ch_sent (fo_bus f) ++ match e with Some e => [e] | None => [] end)%list).
  { unfold bus'. destruct e as [e|]; [|by rewrite app_nil_r]. unfold bus_publish.
    pose proof (listening_receivers _ _ _ Hi Hl) as Hr. by destruct (Nat.eqb_spec (receivers (fo_subs f)) 0). }
  split; [done|]. split; [rewrite Hbus, length_app; lia|]. exists a. split; [lia|]. split; [done|].
  rewrite Hbus, drop_app_le, <- app_assoc, of_key_app, Eq, app_assoc, <- of_key_app, E by done. apply seg_app. lia.
Qed.

Lemma fanout_dispatch f M e p' s' : fanout_inv f M -> dispatch_action f.(fo_point) f.(fo_state) e p' s' ->
  exists M', fanout_inv (mkFanout s' p'
    (match e with Some e => bus_publish (receivers f.(fo_subs)) e f.(fo_bus) | None => f.(fo_bus) end) f.(fo_subs)) M'.
Proof.
  intros Hinv Ha. destruct (dispatch_ok _ _ _ _ _ Hinv Ha) as (M' & Hok & Hpub & HM & Hpt & Hh & Hk). exists M'.
  split; cbn; try done; unfold fo_db; cbn.
  - intros i u Hi. apply (sent_grows (fo_db f)); [by rewrite Hh|by apply (fi_sent _ _ Hinv i)].
  - intros i u Hi Hl. pose proof (pending_dispatch _ _ _ _ _ _ _ _ Hinv Ha Hk Hi Hl) as (H1' & H2' & a & Ha1 & Ha2 & Ha3).
    split; [done|]. split; [done|]. exists a. by rewrite Hh.
Qed.

Lemma fanout_kernel f M w' : fanout_inv f M -> events_rel (fo_db f) w'.(w_db) -> publishable w'.(w_db) ->
  fanout_inv (mkFanout (with_world w' f.(fo_state)) f.(fo_point) f.(fo_bus) f.(fo_subs)) M.
Proof.
  intros [[Hok Hmi] Hpub HM Hpt Hs Hp] He Hpub'. split; unfold fo_db in *; cbn in *.
  - split; [by apply He|by eapply mirror_kernel].
  - done.
  - by eapply marked_kernel.
  - by eapply point_kernel.
  - intros i u Hi. eapply sent_grows; [by apply history_kernel|by apply (Hs i)].
  - intros i u Hi Hl. eapply pending_kernel; [done|done|done|by apply (Hp i)].
Qed.

(** Replacing one subscriber. *)
Lemma fanout_sub f M i u : fanout_inv f M -> sent_ok (fo_db f) u ->
  (listening u = true -> pending_ok (fo_db f) M f.(fo_point) f.(fo_bus) u) ->
  fanout_inv (mkFanout f.(fo_state) f.(fo_point) f.(fo_bus) (<[i := u]> f.(fo_subs))) M.
Proof.
  intros [H1' H2' H3' H4' Hs Hp] Hu Hpu. split; try done; cbn.
  - intros j v Hj. apply lookup_insert_Some in Hj as [[_ <-]|[_ Hj]]; [done|by apply (Hs j)].
  - intros j v Hj Hl. apply lookup_insert_Some in Hj as [[_ <-]|[_ Hj]]; [by apply Hpu|by apply (Hp j)].
Qed.
End Preservation.

(** ** The subscribers' steps *)

Section Subscribers.
Context `{!Ext} `{!EnvelopeCodec} `{!Faults} `{!WireCodec}.

Lemma project_wire_form e : project (wire_form e) = project e.
Proof.
  unfold project, to_contract, wire_form. cbn. f_equal; unfold wire_text, absent_if_empty.
  - destruct (ev_causation_id e) as [s|]; [|done]. cbn. by destruct s.
  - destruct (ev_correlation_id e) as [s|]; [|done]. cbn. by destruct s.
Qed.

(** Everything marked is in the journal. *)
Lemma marked_journaled d j M key : outbox_ok d -> mirror d j -> marked_upto d M -> Z.of_nat (M key) <= stream_max key j.
Proof.
  intros Hok Hmi [Hh HM]. destruct (stream_max_spec key j (mi_wf _ _ Hmi)) as [Hge Hmax].
  destruct (decide (M key = 0%nat)) as [E|Hne]; [lia|]. specialize (Hh key).
  destruct (ob_dense _ Hok key (Z.of_nat (M key))) as (id & r & Hp); [lia|].
  apply Hmax. apply (mi_marked _ _ Hmi key _ id r Hp). apply (HM _ _ _ _ Hp). lia.
Qed.

Lemma seg_last d k a b e : outbox_ok d -> list.last (seg a b (history d k)) = Some e ->
  exists n, (a < n <= b)%nat /\ (n <= length (history d k))%nat /\ ev_sequence e = Z.of_nat n /\ seg a b (history d k) = seg a n (history d k).
Proof.
  intros Hok Hl. rewrite last_lookup in Hl. unfold seg in Hl. rewrite lookup_drop in Hl. apply lookup_take_Some in Hl as [Hl Hlt].
  pose proof (history_at _ _ _ _ Hok Hl) as [Hs _]. pose proof (lookup_lt_Some _ _ _ Hl) as Hlen.
  unfold seg in *. rewrite length_drop, length_take in *. exists (Nat.min b (length (history d k))).
  split; [lia|]. split; [lia|]. split; [lia|]. f_equal.
  destruct (decide (b <= length (history d k))%nat); [by rewrite Nat.min_l|]. rewrite Nat.min_r by lia. by rewrite !take_ge by lia.
Qed.

Lemma last_sequence_wire last l : last_sequence last (wire_form <$> l) = last_sequence last l.
Proof. unfold last_sequence. rewrite fmap_last. by destruct (list.last l). Qed.

Lemma frames_wire (l : list EventEnvelope) : FrameEvent ∘ project <$> (wire_form <$> l) = FrameEvent ∘ project <$> l.
Proof. rewrite <- list_fmap_compose. apply list_fmap_ext. intros i x _. cbn. by rewrite project_wire_form. Qed.

(** The next stretch of the history extends what was sent. *)
Lemma sent_extend d u b live phase : outbox_ok d -> sent_ok d u -> listening u = true ->
  let l := seg (Z.to_nat u.(su_last)) b (history d u.(su_key)) in
  sent_ok d (mkSubscriber u.(su_key) u.(su_after) live (last_sequence u.(su_last) l) phase
    (u.(su_sent) ++ (FrameEvent ∘ project <$> l))%list).
Proof.
  intros Hok [Hk Ha Hl (tail & Ht & Hs)] Hlis. cbn zeta. set (l := seg _ _ _).
  assert (tail = []) as ->. { destruct Ht as [->|[E _]]; [done|]. unfold listening in Hlis. by rewrite E in Hlis. }
  rewrite app_nil_r in Hs. unfold last_sequence. destruct (list.last l) as [e|] eqn:E.
  - apply seg_last in E as (n & Hn & Hlen & -> & El); [|done]. unfold l. rewrite El. split; cbn; try done; [lia|right; lia|].
    exists []. split; [by left|]. rewrite app_nil_r, Hs, <- fmap_app, Nat2Z.id. do 2 f_equal. apply seg_app. lia.
  - apply last_None in E. rewrite E. split; cbn; try done. exists []. split; [by left|]. by rewrite Hs, !app_nil_r.
Qed.

Lemma sent_finish d u frames : sent_ok d u -> listening u = true ->
  (frames = [] \/ frames = [FrameLag (sk_text u.(su_key)) u.(su_last)] \/ exists st, frames = [FrameError st]) ->
  sent_ok d (finish u frames).
Proof.
  intros [Hk Ha Hl (tail & Ht & Hs)] Hlis Hf. split; cbn; try done.
  assert (tail = []) as ->. { destruct Ht as [->|[E _]]; [done|]. unfold listening in Hlis. by rewrite E in Hlis. }
  exists frames. rewrite app_nil_r in Hs. rewrite Hs. split; [|done]. destruct Hf as [->|Hf]; [by left|right; tauto].
Qed.

(** What a turn of the replay loop reads. *)
Lemma replay_page d j u limit : outbox_ok d -> mirror d j -> publishable d -> sent_ok d u ->
  (exists e, fst (read_stream u.(su_key) u.(su_last) limit j) = Err e) \/
  fst (read_stream u.(su_key) u.(su_last) limit j) =
    Ok (mkReadResult (wire_form <$> seg (Z.to_nat u.(su_last)) (Nat.min (Z.to_nat u.(su_last) + limit) (Z.to_nat (stream_max (sk_text u.(su_key)) j)))
      (history d u.(su_key))) false).
Proof.
  intros Hok Hmi Hpub [Hk Ha _ _]. destruct (Z.le_gt_cases u.(su_last) i64_max) as [Hle|Hgt].
  - right. rewrite (read_page d j) by (done || lia). cbn. do 3 f_equal. unfold seg. rewrite take_drop_commute, take_take. done.
  - left. unfold read_stream, encode_sequence. destruct (Z.leb_spec u.(su_last) i64_max); [lia|]. cbn. by eexists.
Qed.

Lemma replay_ok f M i u : fanout_inv f M -> f.(fo_subs) !! i = Some u -> u.(su_phase) = Replaying ->
  sent_ok (fo_db f) (replay_turn u f.(fo_state).(ds_journal)) /\
  (listening (replay_turn u f.(fo_state).(ds_journal)) = true ->
   pending_ok (fo_db f) M f.(fo_point) f.(fo_bus) (replay_turn u f.(fo_state).(ds_journal))).
Proof.
  intros Hinv Hi Hph. pose proof (fi_ok _ _ Hinv) as [Hok Hmi]. pose proof (fi_sent _ _ Hinv i u Hi) as Hs.
  assert (Hl : listening u = true) by (unfold listening; by rewrite Hph).
  destruct (fi_pending _ _ Hinv i u Hi Hl) as (Hend & Hpos & a & Ha & Hf & E).
  unfold replay_turn. destruct (replay_page (fo_db f) (ds_journal (fo_state f)) u 256 Hok Hmi (fi_publishable _ _ Hinv) Hs) as [[e ->]| ->].
  - split; [|done]. apply sent_finish; [done|done|]. right; right. by eexists.
  - cbn [rr_events]. set (b := Nat.min _ _). pose proof (sent_extend (fo_db f) u b u.(su_live) Replaying Hok Hs Hl) as Hx.
    cbn zeta in Hx. set (l := seg _ b _) in *. destruct (wire_form <$> l) as [|w ws] eqn:El.
    + split; [destruct Hs as [? ? ? (tail & [->|[E' _]] & ?)]; [|congruence]; split; try done; exists []; split; [by left|done]|].
      intros _. split; [done|]. split; [done|]. exists a. split; [done|]. split; [intros _|done]. cbn.
      apply fmap_nil_inv in El. unfold l, seg in El. apply (f_equal length) in El. rewrite length_drop, length_take in El. cbn in El.
      pose proof (marked_journaled _ _ _ (sk_text (su_key u)) Hok Hmi (fi_marked _ _ Hinv)) as Hmj.
      pose proof (journaled_within_history _ _ (su_key u) Hok Hmi) as Hjh. unfold fo_db in *. destruct (so_after _ _ Hs). lia.
    + rewrite <- El, last_sequence_wire, frames_wire. split; [done|]. intros _. split; [done|]. split; [done|]. exists a. by split.
Qed.

Lemma hang_up_ok f M i u n : fanout_inv f M -> f.(fo_subs) !! i = Some u -> listening u = true ->
  sent_ok (fo_db f) (hang_up n u f.(fo_state).(ds_journal)) /\ listening (hang_up n u f.(fo_state).(ds_journal)) = false.
Proof.
  intros Hinv Hi Hl. pose proof (fi_ok _ _ Hinv) as [Hok Hmi]. pose proof (fi_sent _ _ Hinv i u Hi) as Hs.
  assert (Hquit : sent_ok (fo_db f) (finish u []) /\ listening (finish u []) = false) by (split; [by apply sent_finish; [| |left]|done]).
  unfold hang_up. destruct (su_phase u) eqn:Hph; [|done|done].
  destruct (replay_page (fo_db f) (ds_journal (fo_state f)) u 256 Hok Hmi (fi_publishable _ _ Hinv) Hs) as [[e ->]| ->]; [done|].
  cbn [rr_events]. split; [|done]. rewrite <- fmap_take, last_sequence_wire, frames_wire.
  set (b := Nat.min _ _). assert (Hseg : take n (seg (Z.to_nat (su_last u)) b (history (fo_db f) (su_key u))) =
    seg (Z.to_nat (su_last u)) (Nat.min (Z.to_nat (su_last u) + n) b) (history (fo_db f) (su_key u))).
  { unfold seg. by rewrite take_drop_commute, take_take. }
  rewrite Hseg. unfold finish. cbn. apply (sent_extend (fo_db f) u _ u.(su_live) Finished Hok Hs Hl).
Qed.

Lemma follow_ok f M i u r pos : fanout_inv f M -> f.(fo_subs) !! i = Some u -> u.(su_phase) = Following ->
  recv f.(fo_bus) u.(su_live).(ls_pos) r pos ->
  sent_ok (fo_db f) (follow_turn r pos u) /\
  (listening (follow_turn r pos u) = true -> pending_ok (fo_db f) M f.(fo_point) f.(fo_bus) (follow_turn r pos u)).
Proof.
  intros Hinv Hi Hph Hr. pose proof (fi_ok _ _ Hinv) as [Hok Hmi]. pose proof (fi_sent _ _ Hinv i u Hi) as Hs.
  assert (Hl : listening u = true) by (unfold listening; by rewrite Hph).
  destruct (fi_pending _ _ Hinv i u Hi Hl) as (Hend & Hpos & a & Ha & Hf & E). specialize (Hf Hph).
  unfold follow_turn, next. rewrite Hend. destruct Hr as [e Hcap He|Hcap|Hop Hp].
  2,3: split; [|done]; match goal with |- sent_ok _ (finish ?v ?fr) => assert (Hv : sent_ok (fo_db f) v) by (by destruct Hs; split) end.
  2: apply sent_finish; [done|by unfold listening; cbn; rewrite Hph|right; by left].
  2: apply sent_finish; [done|by unfold listening; cbn; rewrite Hph|by left].
  erewrite drop_S in E by exact He. cbn [app] in E. unfold of_key in E. rewrite filter_cons in E. unfold of_stream in E at 1.
  pose proof (lookup_lt_Some _ _ _ He) as Hlt. cbn [su_key su_last].
  destruct (bool_decide_reflect (ev_stream_key e = su_key u)) as [Hk|Hk]; cbn [negb].
  - rewrite decide_True in E by (by apply bool_decide_eq_true_2). symmetry in E. apply seg_cons in E as (Hab & Hat & E).
    pose proof (history_at _ _ _ _ Hok Hat) as [Hseq _]. destruct (Z.leb_spec (ev_sequence e) (su_last u)) as [Hle|Hgt].
    + split; [by destruct Hs; split|]. intros _. split; [done|]. split; [cbn; lia|]. exists (S a). cbn. split; [lia|]. split; [lia|done].
    + assert (Hlast : su_last u = Z.of_nat a) by lia. split.
      * pose proof (sent_extend (fo_db f) u (S a) (mkLiveSubscription (S (ls_pos (su_live u))) (Some (event_cursor e)) false) Following Hok Hs Hl) as Hx.
        cbn zeta in Hx. rewrite Hlast, Nat2Z.id in Hx.
        assert (Hone : seg a (S a) (history (fo_db f) (su_key u)) = [e]).
        { unfold seg. erewrite take_S_r by exact Hat. rewrite drop_app_ge by (rewrite length_take; lia).
          rewrite length_take, Nat.min_l by (apply lookup_lt_Some in Hat; lia). by rewrite Nat.sub_diag. }
        rewrite Hone in Hx. rewrite Hph. exact Hx.
      * intros _. split; [done|]. split; [cbn; lia|]. exists (S a). cbn. split; [lia|]. split; [lia|done].
  - rewrite decide_False in E by (by intros D%bool_decide_eq_true). split; [by destruct Hs; split|]. intros _. split; [done|]. split; [cbn; lia|].
    exists a. by split.
Qed.

Lemma subscribe_ok f M principals creds stream_key after u : fanout_inv f M -> 0 <= after ->
  subscribe principals creds stream_key after f.(fo_bus) = Answer u ->
  sent_ok (fo_db f) u /\ pending_ok (fo_db f) M f.(fo_point) f.(fo_bus) u.
Proof.
  intros Hinv Ha. unfold subscribe, parse_stream_key. destruct (peer_principal principals creds) as [pr|]; [|done]. cbn.
  destruct (stream_key_from_str stream_key) as [k|] eqn:Ek; [|done]. cbn. intros [= <-].
  pose proof (stream_key_from_str_text _ _ Ek) as Ht. rewrite <- Ht in Ek. split.
  - split; cbn; [done|lia|by left|]. exists []. split; [by left|]. by rewrite seg_nil.
  - split; [done|]. split; [done|]. cbn. rewrite drop_ge by done. cbn [app]. pose proof (fi_point _ _ Hinv) as Hp.
    destruct (fo_point f) as [|rows todo events|l]; cbn in *.
    1,2: exists (M (sk_text k)); split; [done|]; split; [done|by rewrite seg_nil].
    destruct (Hp k Ek) as (n & Hle & E). by exists n.
Qed.

Lemma fanout_step_inv principals f f' M : fanout_inv f M -> fanout_step principals f f' -> exists M', fanout_inv f' M'.
Proof.
  intros Hinv. destruct 1 as [w' He Hpub|e p' s' Ha|capacity|i creds key after u _ Ha Hu|i u Hi Hph|i u r pos Hi Hph Hr|i u n Hi Hl].
  - exists M. by apply fanout_kernel.
  - by eapply fanout_dispatch.
  - exists M. destruct Hinv as [Hok Hpub HM _ _ _]. by split.
  - destruct (subscribe_ok _ _ _ _ _ _ _ Hinv Ha Hu) as [Hs Hp]. exists M. by apply fanout_sub.
  - destruct (replay_ok _ _ _ _ Hinv Hi Hph) as [Hs Hp]. exists M. by apply fanout_sub.
  - destruct (follow_ok _ _ _ _ _ _ Hinv Hi Hph Hr) as [Hs Hp]. exists M. by apply fanout_sub.
  - destruct (hang_up_ok _ _ _ _ n Hinv Hi Hl) as [Hs Hp]. exists M. apply fanout_sub; [done|done|]. by rewrite Hp.
Qed.

Lemma fanout_start_inv f : fanout_start f -> fanout_inv f (fun _ => 0%nat).
Proof.
  intros (Hs & Hp & Hsub). destruct (reachable_ok _ _ Hs (rtc_refl _ _)) as [Hok _]. destruct Hs as (E1 & E2 & _).
  split; unfold fo_db; try done.
  - intros id r Hr. by rewrite E1, lookup_empty in Hr.
  - split.
    + intros key. cbn. unfold stream_head. by rewrite E2, lookup_empty.
    + intros key n id r (Hr & _). by rewrite E1, lookup_empty in Hr.
  - by rewrite Hp.
  - intros i u Hi. by rewrite Hsub, lookup_empty in Hi.
  - intros i u Hi. by rewrite Hsub, lookup_empty in Hi.
Qed.

Lemma fanout_reach_inv principals f f' : fanout_start f -> rtc (fanout_step principals) f f' -> exists M, fanout_inv f' M.
Proof.
  intros Hs. assert (Hinv : exists M, fanout_inv f M) by (eexists; by apply fanout_start_inv).
  clear Hs. induction 1 as [|f f1 f' Hstep _ IH]; [done|]. destruct Hinv as [M Hinv]. apply IH. by eapply fanout_step_inv.
Qed.

(** C9: However commands that stage events, iterations of the dispatcher (failed
    ones too), restarts and the turns of the subscriptions interleave, a
    subscriber that asked for a stream after a position has been sent exactly the
    stream's events after that position, in order, none missing and none twice,
    with the payloads of secret events withheld, up to its last sequence; then
    nothing, or a lag notice that names that sequence to resume from, or an
    error.  And a subscriber that follows and has taken everything off the bus
    while no marked event waits to be published has been sent every event the
    dispatcher marked. *)
Theorem subscription_has_no_gap principals f f' i u :
  fanout_start f -> rtc (fanout_step principals) f f' -> f'.(fo_subs) !! i = Some u ->
  (exists tail, last_frames u.(su_key) u.(su_last) u.(su_phase) tail /\
    u.(su_sent) = ((FrameEvent ∘ project <$>
      seg (Z.to_nat u.(su_after)) (Z.to_nat u.(su_last)) (history (fo_db f') u.(su_key))) ++ tail)%list) /\
  u.(su_after) <= u.(su_last) /\
  (u.(su_phase) = Following -> drop u.(su_live).(ls_pos) f'.(fo_bus).(ch_sent) = [] -> unpublished_of f'.(fo_point) = [] ->
   forall n id r, at_position (fo_db f') (sk_text u.(su_key)) n id r -> unpublished r = false -> n <= u.(su_last)).
Proof.
  intros Hs Hr Hi. destruct (fanout_reach_inv _ _ _ Hs Hr) as [M Hinv]. pose proof (fi_sent _ _ Hinv i u Hi) as [Hk Ha _ Hsent].
  split; [done|]. split; [lia|]. intros Hph Hd Hun n id r Hp Hu.
  destruct (fi_pending _ _ Hinv i u Hi) as (_ & _ & a & Hle & Hf & E); [unfold listening; by rewrite Hph|].
  rewrite Hd, Hun in E. specialize (Hf Hph). pose proof (fi_marked _ _ Hinv) as HM. pose proof (fi_ok _ _ Hinv) as [Hok _].
  pose proof (marked_within _ _ (su_key u) Hok HM) as Hw. apply (proj2 HM _ _ _ _ Hp) in Hu.
  symmetry in E. apply (f_equal length) in E. unfold seg in E. rewrite length_drop, length_take in E. cbn in E. unfold fo_db in *. lia.
Qed.

(** ** The dispatcher in one piece *)

Definition dispatch_path (x y : DispatchPoint * DispatchState) : Prop := exists e, dispatch_action x.1 x.2 e y.1 y.2.

Lemma path_step p s e p' s' : dispatch_action p s e p' s' -> dispatch_path (p, s) (p', s').
Proof. intros Ha. by exists e. Qed.

Lemma dispatch_path_groups rows events groups todo s r s' :
  for_each groups (fun g => journal_group g.1 g.2) s = (r, s') ->
  rtc dispatch_path (Journaling rows (groups ++ todo) events, s)
    (match r with Ok _ => Journaling rows todo events | Err _ => Idle end, s').
Proof.
  revert s. induction groups as [|g groups IH]; intros s E; cbn [for_each] in E.
  - injection E as <- <-. done.
  - unfold bind in E. destruct (journal_group g.1 g.2 s) as [[u|e] s1] eqn:Eg.
    + eapply rtc_l; [|by apply IH]. exists None. apply (act_group _ _ _ _ _ (Ok u)). done.
    + injection E as <- <-. apply rtc_once. exists None. by apply (act_group _ _ _ _ _ (Err e)).
Qed.

Lemma dispatch_path_publish events s r s' : for_each events live_publish s = (r, s') ->
  r = Ok tt /\ rtc dispatch_path (Publishing events, s) (Idle, s').
Proof.
  revert s. induction events as [|e events IH]; intros s E; cbn [for_each] in E.
  - injection E as <- <-. split; [done|]. apply rtc_once. exists None. constructor.
  - unfold bind, live_publish at 1 in E. destruct (IH _ E) as [-> Hp]. split; [done|].
    eapply rtc_l; [|exact Hp]. exists (Some e). by constructor.
Qed.

(** An iteration of [dispatch_once] that nothing interrupts is a run of the
    machine from idle to idle. *)
Lemma dispatch_once_path system limit epoch s r s' :
  dispatch_once system limit epoch s = (r, s') -> rtc dispatch_path (Idle, s) (Idle, s').
Proof.
  unfold dispatch_once, bind, on_world, lift_res. destruct (scan system limit epoch (ds_world s)) as [[rows|e] w1] eqn:Es.
  2:{ intros [= <- <-]. apply rtc_once. exists None. by eapply act_scan_failed. }
  destruct (group_rows rows) as [groups|e] eqn:Eg.
  2:{ intros [= <- <-]. apply rtc_once. exists None. eapply act_scan_failed; [done|]. intros rows' [= <-]. by eexists. }
  destruct (for_each groups _ _) as [r1 s1] eqn:Ef. intros E.
  eapply rtc_l; [exact (path_step _ _ _ _ _ (act_scan system limit epoch s rows w1 groups Es Eg))|].
  eapply (dispatch_path_groups rows (concat groups.*2) groups []) in Ef. rewrite app_nil_r in Ef.
  etransitivity; [exact Ef|]. destruct r1 as [[]|e]; [|injection E as <- <-; done].
  destruct (mark_phase system epoch rows s1) as [r2 s2] eqn:Em.
  eapply rtc_l; [exact (path_step _ _ _ _ _ (act_mark system epoch rows _ s1 r2 s2 Em))|]. destruct r2 as [[]|e]; [|by injection E as <- <-].
  destruct (for_each (concat groups.*2) live_publish s2) as [r3 s3] eqn:Ep. apply dispatch_path_publish in Ep as [-> Hp].
  cbn in E. injection E as <- <-. done.
Qed.
End Subscribers.
