(* ===== verification/Views.v ===== *)
(** * Views of rows ([control-api/src/views.rs])

    What the query RPCs answer with.  [run_view] builds the same message as the
    snapshot services stage ([Runs.run_payload]). *)

From S2P Require Import Prelude Domain Ids Text Models StoreBase Store SecurityStore ExtensionStore Events Runs EffectPolicy Effects.
From S2P Require Import RunServices Bind Config Resolver Planning LoopFeed.

Open Scope string_scope.
Open Scope Z_scope.

Record TaskMsg := mkTaskMsg {
  tk_task_id : string; tk_session_id : string; tk_created_by_actor_id : string; tk_task_kind : string;
  tk_payload : bytes; tk_created_unix_ms : Z }.

Record RunDependencyMsg := mkRunDependencyMsg {
  rdv_dependency_id : string; rdv_task_id : string; rdv_source_run_id : string; rdv_target_run_id : string;
  rdv_condition : Z; rdv_created_graph_revision : Z }.

Record ConfigGenerationMsg := mkConfigGenerationMsg {
  cgv_generation_id : string; cgv_digest : string; cgv_document : bytes; cgv_validation_state : string;
  cgv_test_state : string; cgv_created_unix_ms : Z }.

Record AdapterRegistrationView := mkAdapterRegistrationView {
  arv_adapter : option VersionedRefMsg; arv_manifest_digest : string; arv_runtime_type : string;
  arv_implemented_ports : list string; arv_capabilities_json : bytes; arv_trust_state : string;
  arv_conformance_state : string }.

Record ApprovalRequestView := mkApprovalRequestView {
  apv_request_id : string; apv_request_digest : string; apv_principal_id : string; apv_actor_id : string;
  apv_run_id : string; apv_operation : string; apv_target_resource : string; apv_capability_ids : list string;
  apv_extension_bundle_digest : string; apv_config_generation_digest : string; apv_expires_at_ms : Z;
  apv_nonce : string; apv_state : string; apv_created_at_ms : Z; apv_resolved_at_ms : Z }.

Section Views.
Context `{!Ext} `{!RegistryJson} `{!PlanJson} `{!SerdeJson}.

Definition or_empty (o : option string) : string := from_option (fun s => s) "" o.
Definition or_zero (o : option Z) : Z := from_option (fun z => z) 0 o.

Definition run_view (row : RunRow) : AgentRunMsg := {|
  ar_run_id := uuid_hyphenated row.(RunRow.run_id);
  ar_task_id := uuid_hyphenated row.(RunRow.task_id);
  ar_session_id := opt_id_text row.(RunRow.session_id);
  ar_parent_run_id := opt_id_text row.(RunRow.parent_run_id);
  ar_state := to_wire row.(RunRow.state);
  ar_recovery := to_wire row.(RunRow.recovery);
  ar_run_revision := row.(RunRow.run_revision);
  ar_loop_epoch := row.(RunRow.loop_epoch);
  ar_step_sequence := row.(RunRow.step_sequence);
  ar_input_event_cursor := cursor_to_string row.(RunRow.input_event_cursor);
  ar_cancellation_epoch := row.(RunRow.cancellation_epoch);
  ar_resolved_environment_id := opt_id_text row.(RunRow.resolved_environment_id);
  ar_output_ref := or_empty row.(RunRow.output_ref);
  ar_current_turn_id := opt_id_text row.(RunRow.current_turn_id) |}.

Definition task_view (row : TaskRow) : TaskMsg :=
  mkTaskMsg (uuid_hyphenated row.(TaskRow.task_id)) (opt_id_text row.(TaskRow.session_id))
    (uuid_hyphenated row.(TaskRow.created_by_actor_id)) row.(TaskRow.task_kind) row.(TaskRow.payload)
    row.(TaskRow.created_at_ms).

(** The error code of the row is not shown. *)
Definition effect_view (row : EffectRow) : EffectRecordMsg := {|
  er_effect_id := uuid_hyphenated row.(EffectRow.effect_id);
  er_run_id := uuid_hyphenated row.(EffectRow.run_id);
  er_step_sequence := row.(EffectRow.step_sequence);
  er_decision_id := uuid_hyphenated row.(EffectRow.decision_id);
  er_operation := row.(EffectRow.operation);
  er_request_hash := row.(EffectRow.request_hash);
  er_effective_contract := Some (mkEffectContractMsg (to_wire row.(EffectRow.effect_class))
    (to_wire row.(EffectRow.idempotency_semantics)) (to_wire row.(EffectRow.reconciliation_semantics))
    row.(EffectRow.cancellation_semantics) (or_empty row.(EffectRow.compensation_capability)));
  er_adapter_id := uuid_hyphenated row.(EffectRow.adapter_id);
  er_adapter_version := row.(EffectRow.adapter_version);
  er_adapter_digest := row.(EffectRow.adapter_digest);
  er_state := to_wire row.(EffectRow.state);
  er_executor_id := or_empty row.(EffectRow.executor_id);
  er_executor_fencing_token := or_zero row.(EffectRow.executor_fencing_token);
  er_lease_expires_unix_ms := or_zero row.(EffectRow.lease_expires_ms);
  er_result_ref := or_empty row.(EffectRow.result_ref);
  er_error_code := "" |}.

(** A JSON list of names becomes a map with empty values. *)
Definition decode_caps (raw : bytes) : gmap string string :=
  list_to_map ((fun c => (c, "")) <$> from_option (fun l => l) [] (names_from_slice raw)).

Definition binding_view (b : ResolvedBindingRow) : ResolvedBindingMsg :=
  mkResolvedBindingMsg b.(ResolvedBindingRow.port_id)
    (Some (mkVersionedRefMsg (uuid_hyphenated b.(ResolvedBindingRow.adapter_id)) b.(ResolvedBindingRow.adapter_version)
       b.(ResolvedBindingRow.adapter_digest)))
    (decode_caps b.(ResolvedBindingRow.capabilities)).

Definition environment_view (row : ResolvedEnvironmentRow) (bindings : list ResolvedBindingRow) : ResolvedRunEnvironmentMsg := {|
  env_id := uuid_hyphenated row.(ResolvedEnvironmentRow.environment_id);
  env_run_id := uuid_hyphenated row.(ResolvedEnvironmentRow.run_id);
  env_agent_spec := Some (mkVersionedRefMsg (uuid_hyphenated row.(ResolvedEnvironmentRow.agent_spec_id))
    row.(ResolvedEnvironmentRow.agent_spec_version) row.(ResolvedEnvironmentRow.agent_spec_digest));
  env_agent_loop := Some (mkVersionedRefMsg row.(ResolvedEnvironmentRow.agent_loop_id)
    row.(ResolvedEnvironmentRow.agent_loop_version) row.(ResolvedEnvironmentRow.agent_loop_digest));
  env_config_generation_id := uuid_hyphenated row.(ResolvedEnvironmentRow.config_generation_id);
  env_bindings := binding_view <$> bindings;
  env_workspace_uri := row.(ResolvedEnvironmentRow.workspace_uri);
  env_workspace_base_revision := or_empty row.(ResolvedEnvironmentRow.workspace_base_revision);
  env_workspace_mode := to_wire row.(ResolvedEnvironmentRow.workspace_mode);
  env_model_provider := or_empty row.(ResolvedEnvironmentRow.model_provider);
  env_model_id := or_empty row.(ResolvedEnvironmentRow.model_id);
  env_model_parameters_json := from_option (fun b => b) [] row.(ResolvedEnvironmentRow.model_parameters);
  env_kernel_version := row.(ResolvedEnvironmentRow.kernel_version);
  env_protocol_versions := u64_to_string <$>
    from_option (fun l => l) [] (versions_from_slice row.(ResolvedEnvironmentRow.protocol_versions));
  env_capability_grant_ids := from_option (fun l => l) [] (names_from_slice row.(ResolvedEnvironmentRow.capability_grant_ids));
  env_approval_request_ids := from_option (fun l => l) [] (names_from_slice row.(ResolvedEnvironmentRow.approval_request_ids)) |}.

Definition dependency_view (row : RunDependencyRow) : RunDependencyMsg :=
  mkRunDependencyMsg (uuid_hyphenated row.(RunDependencyRow.dependency_id)) (uuid_hyphenated row.(RunDependencyRow.task_id))
    (uuid_hyphenated row.(RunDependencyRow.source_run_id)) (uuid_hyphenated row.(RunDependencyRow.target_run_id))
    (to_wire row.(RunDependencyRow.dependency_condition)) row.(RunDependencyRow.created_graph_revision).

Definition config_generation_view (row : ConfigGenerationRow) : ConfigGenerationMsg :=
  mkConfigGenerationMsg (uuid_hyphenated row.(ConfigGenerationRow.generation_id)) row.(ConfigGenerationRow.digest)
    row.(ConfigGenerationRow.document) row.(ConfigGenerationRow.validation_state) row.(ConfigGenerationRow.test_state)
    row.(ConfigGenerationRow.created_at_ms).

(** [from_slice::<Vec<Value>>(..).unwrap_or_default()] and the [port_id]s in it. *)
Definition port_ids (raw : bytes) : list string :=
  match json_from_slice raw with Some (VArray l) => omap (get_str "port_id") l | _ => [] end.

Definition adapter_view (row : AdapterRegistrationRow) : AdapterRegistrationView :=
  mkAdapterRegistrationView
    (Some (mkVersionedRefMsg (uuid_hyphenated row.(AdapterRegistrationRow.adapter_id)) row.(AdapterRegistrationRow.version)
       row.(AdapterRegistrationRow.bundle_digest)))
    row.(AdapterRegistrationRow.manifest_digest) row.(AdapterRegistrationRow.runtime_type)
    (port_ids row.(AdapterRegistrationRow.implemented_ports)) row.(AdapterRegistrationRow.capabilities)
    (TrustState_as_str row.(AdapterRegistrationRow.trust_state))
    (ConformanceState_as_str row.(AdapterRegistrationRow.conformance_state)).

Definition approval_view (row : ApprovalRequestRow) : ApprovalRequestView :=
  let capabilities := List.filter (fun token => negb (str_is_empty token))
    (split_on "010"%char (from_option (fun s => s) "" (from_utf8 row.(ApprovalRequestRow.capability_ids)))) in
  mkApprovalRequestView (uuid_hyphenated row.(ApprovalRequestRow.request_id)) row.(ApprovalRequestRow.request_digest)
    (uuid_hyphenated row.(ApprovalRequestRow.principal_id)) (uuid_hyphenated row.(ApprovalRequestRow.actor_id))
    (opt_id_text row.(ApprovalRequestRow.run_id)) row.(ApprovalRequestRow.operation)
    (or_empty row.(ApprovalRequestRow.target_resource))
    (match row.(ApprovalRequestRow.capability_ids) with [] => [] | _ => capabilities end)
    (or_empty row.(ApprovalRequestRow.extension_bundle_digest)) (or_empty row.(ApprovalRequestRow.config_generation_digest))
    row.(ApprovalRequestRow.expires_at_ms) row.(ApprovalRequestRow.nonce) (ApprovalState_as_str row.(ApprovalRequestRow.state))
    row.(ApprovalRequestRow.created_at_ms) (or_zero row.(ApprovalRequestRow.resolved_at_ms)).
End Views.
