(* ===== verification/ControlApi.v ===== *)
(** * The control service ([control-api/src/server.rs])

    Commands go through the coordinator under the identity of the connection.
    Queries run statement by statement on a pooled connection: a read
    transaction opens no snapshot, so that each statement sees the database as
    it is when the statement runs. *)

From S2P Require Import Prelude Domain Ids Text Models StoreBase Store SecurityStore ExtensionStore Ledger Events Runs RunGraph.
From S2P Require Import EffectPolicy Effects Scheduler Resources Kernel RunServices Bind Coordinator Approvals Recovery.
From S2P Require Import Config Resolver Planning LoopFeed Envelope Journal LiveBus ApiAuth EventApi Views.

Open Scope string_scope.
Open Scope Z_scope.

(** ** Requests and responses *)

Record CommandRequest := mkCommandRequest {
  cr_command_id : string; cr_idempotency_key : string; cr_principal_id : string; cr_request_digest : string;
  cr_correlation_id : string; cr_causation_id : string; cr_deadline_unix_ms : Z; cr_command_type : string; cr_payload : bytes }.
Record CommandResponse := mkCommandResponse { cs_command_id : string; cs_outcome_code : string; cs_payload : bytes }.

Record ApprovalResponseRequest := mkApprovalResponseRequest {
  aq_request_id : string; aq_request_digest : string; aq_decision : string; aq_responder_principal_id : string; aq_device_id : string }.

Record HealthInfo := mkHealthInfo {
  hi_status : string; hi_daemon_instance_id : string; hi_daemon_fencing_epoch : Z; hi_active_config_generation_id : string }.
Record HealthResponse := mkHealthResponse {
  hr_status : string; hr_daemon_instance_id : string; hr_daemon_fencing_epoch : Z; hr_active_config_generation_id : string;
  hr_outbox_unpublished_count : Z }.

Record GetRunResponse := mkGetRunResponse { gr_run : AgentRunMsg; gr_resolved_environment : option ResolvedRunEnvironmentMsg }.
Record RunGraphView := mkRunGraphView {
  rg_task_id : string; rg_graph_revision : Z; rg_runs : list AgentRunMsg; rg_dependencies : list RunDependencyMsg }.
Record GetActiveConfigResponse := mkGetActiveConfigResponse { ga_generation : ConfigGenerationMsg; ga_active_revision : Z }.

Record ControlApiService := mkControlApiService {
  cas_coordinator : CommandCoordinator;
  cas_principals : UidPrincipalMap;
  cas_operator_chain : option DelegationChainId;
  cas_health : HealthInfo }.

Definition unavailable (e : KernelError) : Status :=
  mkStatus (match e.(err_code) with
    | InvalidArgument => CodeInvalidArgument
    | NotFound => CodeNotFound
    | Conflict => CodeAlreadyExists
    | FailedPrecondition => CodeFailedPrecondition
    | ResourceExhausted => CodeResourceExhausted
    | Unavailable => CodeUnavailable
    | Internal => CodeInternal
    end) (kernel_error_to_string e).

Definition reply_of {A} (r : Res A) : Reply A := match r with Ok a => Answer a | Err e => Refusal (unavailable e) end.

(** [let x = r?;] in a handler that goes on with the world. *)
Notation "'or_refuse!' x ':=' r 'at' w 'in' k" :=
  (match r with Answer x => k | Refusal s => (Refusal s, w) end) (at level 10, x binder, r at level 200, w at level 200, k at level 200).

(** [prost::Message::encode_to_vec] of the response command. *)
Class ResponseCodec := { encode_respond_approval : RespondApprovalMsg -> bytes }.

Section Commands.
Context `{!Ext} `{!ResponseCodec}.

Definition parse_id (field value : string) : Reply Uuid :=
  reply_or (uuid_v7_from_str value) CodeInvalidArgument (field +:+ " is malformed: invalid identifier").

Definition parse_digest (field value : string) : Reply RequestDigest :=
  match digest_from_str value with
  | Ok d => Answer d
  | Err e => Refusal (mkStatus CodeInvalidArgument (field +:+ " is malformed: " +:+ kernel_error_to_string e))
  end.

(** [ActorId::new(ids)] and the like. *)
Definition draw_id (w : World) : Uuid * World := (new_uuid_v7 w.(w_ids), mkWorld w.(w_db) (S w.(w_ids)) w.(w_clock)).

(** The fields are evaluated in order: the actor is drawn before the digest is
    parsed. *)
Definition submit_command (svc : ControlApiService) (creds : option PeerCreds) (req : CommandRequest) (w : World)
    : Reply CommandResponse * World :=
  or_refuse! principal := actor_for svc.(cas_principals) creds req.(cr_principal_id) at w in
  or_refuse! command_id := parse_id "command_id" req.(cr_command_id) at w in
  or_refuse! key := reply_or (idempotency_key_new req.(cr_idempotency_key)) CodeInvalidArgument "idempotency_key is malformed" at w in
  let '(actor, w) := draw_id w in
  or_refuse! digest := parse_digest "request_digest" req.(cr_request_digest) at w in
  let env := mkCommandEnvelope command_id key principal actor None
    (if bool_decide (req.(cr_command_type) = CMD_RESOLVE_UNKNOWN_EFFECT) then svc.(cas_operator_chain) else None)
    digest (non_empty req.(cr_correlation_id)) (non_empty req.(cr_causation_id))
    (if bool_decide (req.(cr_deadline_unix_ms) = 0) then None else Some req.(cr_deadline_unix_ms))
    req.(cr_command_type) req.(cr_payload) in
  let '(r, w) := execute svc.(cas_coordinator) env w in
  (match r with
   | Ok outcome => Answer (mkCommandResponse (uuid_hyphenated command_id) (outcome_code_as_str outcome.(co_code)) outcome.(co_payload))
   | Err e => Refusal (unavailable e)
   end, w).

Definition respond_approval (svc : ControlApiService) (creds : option PeerCreds) (req : ApprovalResponseRequest) (w : World)
    : Reply string * World :=
  or_refuse! principal := actor_for svc.(cas_principals) creds req.(aq_responder_principal_id) at w in
  or_refuse! device := (if str_is_empty req.(aq_device_id) then Answer None
    else rpc! d := parse_id "device_id" req.(aq_device_id) in Answer (Some d)) at w in
  let encoded := encode_respond_approval (mkRespondApprovalMsg req.(aq_request_id) req.(aq_request_digest) req.(aq_decision)
    req.(aq_device_id) (uuid_hyphenated principal)) in
  or_refuse! request_id := parse_id "request_id" req.(aq_request_id) at w in
  let '(command_id, w) := draw_id w in
  or_refuse! key := reply_or (idempotency_key_new
      ("approval.respond." +:+ uuid_hyphenated request_id +:+ "." +:+ req.(aq_request_digest)))
    CodeInvalidArgument "idempotency key invalid" at w in
  let '(actor, w) := draw_id w in
  or_refuse! digest := (match digest_from_str (hex_lower (sha256 encoded)) with
    | Ok d => Answer d
    | Err _ => Refusal (mkStatus CodeInvalidArgument "request_digest is malformed")
    end) at w in
  let env := mkCommandEnvelope command_id key principal actor device None digest None None None CMD_RESPOND_APPROVAL encoded in
  let '(r, w) := execute svc.(cas_coordinator) env w in
  (match r with Ok _ => Answer "recorded" | Err e => Refusal (unavailable e) end, w).

(** The backlog is counted in a write transaction that is rolled back. *)
Definition health (svc : ControlApiService) (creds : option PeerCreds) (w : World) : Reply HealthResponse * World :=
  or_refuse! principal := actor_for svc.(cas_principals) creds "" at w in
  let info := svc.(cas_health) in
  let '(command_id, w) := draw_id w in
  match begin_write (mkTxContext info.(hi_daemon_fencing_epoch) principal command_id None) w with
  | Err e => (Refusal (unavailable e), w)
  | Ok t =>
      match streams_scan_unpublished (Z.to_nat (2 ^ 32 - 1)) t with
      | (Err e, t) => (Refusal (unavailable e), rollback_txn w t)
      | (Ok rows, t) => (Answer (mkHealthResponse info.(hi_status) info.(hi_daemon_instance_id) info.(hi_daemon_fencing_epoch)
          info.(hi_active_config_generation_id) (Z.of_nat (length rows))), rollback_txn w t)
      end
  end.
End Commands.

(** ** Queries *)

(** A query as the statements it runs. *)
Inductive Query (A : Type) :=
  | Finish (r : Reply A)
  | Statement (B : Type) (q : M B) (k : B -> Query A).
Arguments Finish {A} r.
Arguments Statement {A B} q k.

Notation "'select!' x ':=' q 'in' k" := (Statement q (fun x => k)) (at level 10, x binder, q at level 200, k at level 200).
Notation "'or_finish!' x ':=' r 'in' k" :=
  (match r with Answer x => k | Refusal s => Finish (Refusal s) end) (at level 10, x binder, r at level 200, k at level 200).

Definition read_at {A} (d : Db) (q : M A) : Res A := fst (q (mkTxn d (mkTxContext 0 0%N 0%N None) 0 0)).

(** The [n]-th statement sees [views n]. *)
Fixpoint run_query {A} (views : nat -> Db) (n : nat) (q : Query A) : Reply A :=
  match q with
  | Finish r => r
  | Statement q k =>
      match read_at (views n) q with Ok b => run_query views (S n) (k b) | Err e => Refusal (unavailable e) end
  end.

Section Queries.
Context `{!Ext} `{!RegistryJson} `{!PlanJson} `{!SerdeJson}.
Context (svc : ControlApiService) (creds : option PeerCreds).

Definition found {A} (o : option A) (what : string) : Reply A := reply_or o CodeNotFound what.

Definition run_environment (run : RunRow) (k : option ResolvedRunEnvironmentMsg -> Query GetRunResponse) : Query GetRunResponse :=
  match run.(RunRow.resolved_environment_id) with
  | None => k None
  | Some env_id =>
      select! row := environments_get env_id in
      match row with
      | None => k None
      | Some row => select! bindings := environments_get_bindings env_id in k (Some (environment_view row bindings))
      end
  end.

Definition get_run (run_id : string) : Query GetRunResponse :=
  or_finish! _ := actor_for svc.(cas_principals) creds "" in
  or_finish! run_id := parse_id "run_id" run_id in
  select! run := runs_get run_id in
  or_finish! run := found run "run not found" in
  run_environment run (fun environment => Finish (Answer (mkGetRunResponse (run_view run) environment))).

Definition get_task (task_id : string) : Query TaskMsg :=
  or_finish! _ := actor_for svc.(cas_principals) creds "" in
  or_finish! task_id := parse_id "task_id" task_id in
  select! task := tasks_get task_id in
  or_finish! task := found task "task not found" in
  Finish (Answer (task_view task)).

Definition get_effect (effect_id : string) : Query EffectRecordMsg :=
  or_finish! _ := actor_for svc.(cas_principals) creds "" in
  or_finish! effect_id := parse_id "effect_id" effect_id in
  select! effect := effects_get effect_id in
  or_finish! effect := found effect "effect not found" in
  Finish (Answer (effect_view effect)).

Definition get_run_graph (task_id : string) : Query RunGraphView :=
  or_finish! _ := actor_for svc.(cas_principals) creds "" in
  or_finish! task_id := parse_id "task_id" task_id in
  select! head := graph_get_head task_id in
  or_finish! head := found head "task graph not found" in
  select! deps := graph_list_dependencies task_id in
  select! runs := runs_list_by_task task_id in
  Finish (Answer (mkRunGraphView (uuid_hyphenated task_id) head.(RunGraphHeadRow.graph_revision) (run_view <$> runs)
    (dependency_view <$> deps))).

Definition get_active_config : Query GetActiveConfigResponse :=
  or_finish! _ := actor_for svc.(cas_principals) creds "" in
  select! active := config_get_active in
  or_finish! active := found active "no active config generation" in
  select! generation := config_get_generation active.(ActiveConfigGenerationRow.generation_id) in
  or_finish! generation := found generation "active generation row missing" in
  Finish (Answer (mkGetActiveConfigResponse (config_generation_view generation) active.(ActiveConfigGenerationRow.revision))).

Definition list_approvals (run_filter : string) : Query (list ApprovalRequestView) :=
  or_finish! _ := actor_for svc.(cas_principals) creds "" in
  if str_is_empty run_filter then
    select! rows := security_list_approvals in Finish (Answer (approval_view <$> rows))
  else
    or_finish! run_id := parse_id "run_id" run_filter in
    select! rows := security_list_approvals_by_run run_id in Finish (Answer (approval_view <$> rows)).

Definition implements_port (port_filter : string) (row : AdapterRegistrationRow) : bool :=
  match json_from_slice row.(AdapterRegistrationRow.implemented_ports) with
  | Some (VArray l) => existsb (fun p => bool_decide (get_str "port_id" p = Some port_filter)) l
  | _ => false
  end.

Definition list_adapters (port_filter : string) : Query (list AdapterRegistrationView) :=
  or_finish! _ := actor_for svc.(cas_principals) creds "" in
  select! rows := adapters_list_registrations in
  Finish (Answer (adapter_view <$>
    if str_is_empty port_filter then rows else List.filter (implements_port port_filter) rows)).
End Queries.

(** ** Who may ask *)

Section Identity.
Context `{!Ext} `{!ResponseCodec}.

(** The envelope carries the identity of the connection. *)
Record acts_as_peer (svc : ControlApiService) (c : PeerCreds) (env : CommandEnvelope) : Prop := {
  aap_principal : svc.(cas_principals) !! c.(pc_uid) = Some env.(ce_principal_id);
  aap_chain : env.(ce_delegation_chain_id) = None \/
    env.(ce_command_type) = CMD_RESOLVE_UNKNOWN_EFFECT /\ env.(ce_delegation_chain_id) = svc.(cas_operator_chain) }.

(** C17: Identity is the connection's.  A submitted command either runs nothing and is
    refused, or the coordinator executes one envelope whose principal is the one
    the peer's uid is mapped to, whose actor is fresh, that has no device, and
    whose delegation chain is the operator's only for the resolution of unknown
    effects; what the request says of type, key, digest and payload is passed on
    as it is, and the answer is the coordinator's. *)
Theorem submit_acts_as_peer svc creds req w r w' : submit_command svc creds req w = (r, w') ->
  (w'.(w_db) = w.(w_db) /\ exists s, r = Refusal s) \/
  exists c env w1 res, creds = Some c /\ acts_as_peer svc c env /\ env.(ce_device_id) = None /\
    env.(ce_actor_id) = new_uuid_v7 w.(w_ids) /\ w1 = mkWorld w.(w_db) (S w.(w_ids)) w.(w_clock) /\
    env.(ce_command_type) = req.(cr_command_type) /\ env.(ce_payload) = req.(cr_payload) /\
    env.(ce_idempotency_key) = req.(cr_idempotency_key) /\ digest_from_str req.(cr_request_digest) = Ok env.(ce_request_digest) /\
    execute svc.(cas_coordinator) env w1 = (res, w') /\
    r = match res with
        | Ok o => Answer (mkCommandResponse (uuid_hyphenated env.(ce_command_id)) (outcome_code_as_str o.(co_code)) o.(co_payload))
        | Err e => Refusal (unavailable e)
        end.
Proof.
  unfold submit_command. destruct (actor_for _ _ _) as [principal|s] eqn:Ha; [|intros [= <- <-]; left; eauto].
  apply actor_for_peer in Ha as (c & -> & Hc).
  destruct (parse_id _ _) as [command_id|s]; [|intros [= <- <-]; left; eauto].
  destruct (idempotency_key_new _) as [key|] eqn:Hk; cbn [reply_or]; [|intros [= <- <-]; left; eauto].
  unfold draw_id, parse_digest. destruct (digest_from_str _) as [digest|e] eqn:Hd; [|intros [= <- <-]; left; eauto].
  destruct (execute _ _ _) as [res w2] eqn:Ee. intros [= <- <-]. right. eexists c, _, _, res.
  assert (key = cr_idempotency_key req) as -> by (unfold idempotency_key_new in Hk; destruct (_ || _); [discriminate|by injection Hk]).
  split_and!; try exact Ee; try done. split; cbn; [done|]. case_bool_decide; [by right|by left].
Qed.

(** What a response to an approval executes. *)
Definition response_bytes (p : PrincipalId) (req : ApprovalResponseRequest) : bytes :=
  encode_respond_approval (mkRespondApprovalMsg req.(aq_request_id) req.(aq_request_digest) req.(aq_decision)
    req.(aq_device_id) (uuid_hyphenated p)).

Definition response_key (req : ApprovalResponseRequest) : option string :=
  request_id ← uuid_v7_from_str req.(aq_request_id);
  idempotency_key_new ("approval.respond." +:+ uuid_hyphenated request_id +:+ "." +:+ req.(aq_request_digest)).

Definition response_reply (r : Res CommandOutcome) : Reply string :=
  match r with Ok _ => Answer "recorded" | Err e => Refusal (unavailable e) end.

Lemma respond_approval_inv svc creds req w r w' : respond_approval svc creds req w = (r, w') ->
  (w'.(w_db) = w.(w_db) /\ exists s, r = Refusal s) \/
  exists c env w1 res, creds = Some c /\ acts_as_peer svc c env /\ env.(ce_delegation_chain_id) = None /\
    w1 = mkWorld w.(w_db) (S (S w.(w_ids))) w.(w_clock) /\ response_key req = Some env.(ce_idempotency_key) /\
    env.(ce_command_type) = CMD_RESPOND_APPROVAL /\ env.(ce_payload) = response_bytes env.(ce_principal_id) req /\
    env.(ce_deadline_unix_ms) = None /\ digest_to_string env.(ce_request_digest) = hex_lower (sha256 env.(ce_payload)) /\
    execute svc.(cas_coordinator) env w1 = (res, w') /\ r = response_reply res.
Proof.
  unfold respond_approval. destruct (actor_for _ _ _) as [principal|s] eqn:Ha; [|intros [= <- <-]; left; eauto].
  apply actor_for_peer in Ha as (c & -> & Hc).
  destruct (if str_is_empty _ then _ else _) as [device|s]; [|intros [= <- <-]; left; eauto].
  unfold parse_id at 1. destruct (uuid_v7_from_str (aq_request_id req)) as [request_id|] eqn:Hr; cbn [reply_or]; [|intros [= <- <-]; left; eauto].
  unfold draw_id at 1. destruct (idempotency_key_new _) as [key|] eqn:Hk; cbn [reply_or]; [|intros [= <- <-]; left; eauto].
  unfold draw_id. destruct (digest_from_str _) as [digest|e] eqn:Hd; [|intros [= <- <-]; left; eauto].
  destruct (execute _ _ _) as [res w2] eqn:Ee. intros [= <- <-]. right. eexists c, _, _, res.
  apply digest_from_str_text in Hd as [Hd _]. split_and!; try exact Ee; try done; cbn.
  - split; cbn; [done|by left].
  - unfold response_key. by rewrite Hr.
Qed.
(** A command that changed something was registered and valid. *)
Lemma execute_changed c env w r w' : execute c env w = (r, w') -> w'.(w_db) <> w.(w_db) ->
  is_Some (registry_get c.(coord_registry) env.(ce_command_type)) /\ Coordinator.validate env (clock_ms w.(w_clock)) = Ok tt /\
  exists outcome, recorded w'.(w_db) env outcome.
Proof.
  intros E Hne. pose proof (execute_inv _ _ _ _ _ E) as [[? _]|(h & t & outcome & t1 & t2 & Hh & _ & _ & _ & E2 & -> & _)]; [done|].
  split; [by rewrite Hh|]. apply insert_record_inv in E2 as (_ & _ & _ & Hr). split; [|by exists outcome].
  unfold execute in E. rewrite Hh in E. destruct (Coordinator.validate env _) as [[]|e]; [done|]. exfalso. apply Hne. by apply (f_equal (fun x => w_db x.2)) in E.
Qed.

Lemma validate_stable env env2 now now2 : env2.(ce_idempotency_key) = env.(ce_idempotency_key) ->
  env2.(ce_command_type) = env.(ce_command_type) -> env.(ce_deadline_unix_ms) = None -> env2.(ce_deadline_unix_ms) = None ->
  Coordinator.validate env now = Ok tt -> Coordinator.validate env2 now2 = Ok tt.
Proof. unfold Coordinator.validate. intros -> -> -> ->. done. Qed.

(** The checks before the execution do not depend on the world. *)
Lemma respond_approval_again svc creds req w r w' w2 : respond_approval svc creds req w = (r, w') -> w'.(w_db) <> w.(w_db) ->
  exists env w1 env2 w3, execute svc.(cas_coordinator) env w1 = (fst (execute svc.(cas_coordinator) env w1), w') /\ w1.(w_db) = w.(w_db) /\
    command_key env2 = command_key env /\ env2.(ce_request_digest) = env.(ce_request_digest) /\
    env2.(ce_command_type) = env.(ce_command_type) /\ env.(ce_deadline_unix_ms) = None /\ env2.(ce_deadline_unix_ms) = None /\
    w3.(w_db) = w2.(w_db) /\
    respond_approval svc creds req w2 =
      (response_reply (fst (execute svc.(cas_coordinator) env2 w3)), snd (execute svc.(cas_coordinator) env2 w3)).
Proof.
  unfold respond_approval. destruct (actor_for _ _ _) as [principal|s]; [|by intros [= <- <-]].
  destruct (if str_is_empty _ then _ else _) as [device|s]; [|by intros [= <- <-]].
  destruct (parse_id _ (aq_request_id req)) as [request_id|]; [|by intros [= <- <-]].
  unfold draw_id. destruct (idempotency_key_new _) as [key|]; cbn [reply_or]; [|by intros [= <- <-]].
  destruct (digest_from_str _) as [digest|e]; [|by intros [= <- <-]].
  match goal with |- (let '(_, _) := execute ?c ?env ?w0 in _) = _ -> _ => destruct (execute c env w0) as [res w4] eqn:Ee end. intros [= <- <-] _.
  match goal with |- context [let '(_, _) := execute _ ?env2 ?w3 in _] => eexists _, _, env2, w3 end.
  split; [rewrite Ee; reflexivity|]. split_and!; try reflexivity.
  match goal with |- context [let '(_, _) := execute ?c ?e ?x in _] => by destruct (execute c e x) end.
Qed.

(** An answer to an approval is final.  Once a peer's response was carried out,
    whatever the kernel does after, no response of that principal to the same
    request changes anything; the same response again is acknowledged as the first
    was, and one that differs in any part of the command is refused. *)
Theorem approval_answer_is_final svc creds req w r w' :
  respond_approval svc creds req w = (r, w') -> w'.(w_db) <> w.(w_db) ->
  forall p creds2 req2 w2, actor_for svc.(cas_principals) creds "" = Answer p -> actor_for svc.(cas_principals) creds2 "" = Answer p ->
    kernel_rel w'.(w_db) w2.(w_db) -> response_key req2 = response_key req ->
    w_db (snd (respond_approval svc creds2 req2 w2)) = w2.(w_db) /\
    (creds2 = creds -> req2 = req -> assert_epoch svc.(cas_coordinator).(coord_epoch) w2.(w_db) = Ok tt ->
       fst (respond_approval svc creds2 req2 w2) = Answer "recorded") /\
    (sha256 (response_bytes p req2) <> sha256 (response_bytes p req) ->
       exists s, fst (respond_approval svc creds2 req2 w2) = Refusal s).
Proof.
  intros E Hne p creds2 req2 w2 Hp1 Hp2 Hk Hkey.
  apply actor_for_peer in Hp1 as (c1 & Hc1 & Hp1), Hp2 as (c2 & Hc2 & Hp2).
  pose proof E as E0. apply respond_approval_inv in E0 as [[? _]|(c & env & w1 & res & Hc & [Hpr _] & _ & -> & Hkenv & _ & Hpay & _ & Hdig & Ee & _)]; [done|].
  assert (ce_principal_id env = p) as Hpe by congruence. rewrite Hpe in Hpay.
  pose proof (execute_changed _ _ _ _ _ Ee Hne) as (_ & _ & outcome & rec & Hrec & Hrd & _).
  pose proof (lookup_weaken _ _ _ _ Hrec (lg_records _ _ (proj1 (kr_ledger _ _ Hk)))) as Hrec2.
  assert (Hsecond : w_db (snd (respond_approval svc creds2 req2 w2)) = w2.(w_db) /\
    (sha256 (response_bytes p req2) <> sha256 (response_bytes p req) ->
       exists s, fst (respond_approval svc creds2 req2 w2) = Refusal s)).
  { destruct (respond_approval svc creds2 req2 w2) as [r2 w5] eqn:E2. cbn.
    apply respond_approval_inv in E2 as [[-> [s ->]]|(c' & env2 & w3 & res2 & Hc' & [Hpr2 _] & _ & -> & Hkenv2 & _ & Hpay2 & _ & Hdig2 & Ee2 & ->)];
      [by eauto|].
    assert (ce_principal_id env2 = p) as Hpe2 by congruence. rewrite Hpe2 in Hpay2.
    assert (command_key env2 = command_key env) as Hck by (unfold command_key; congruence). rewrite <- Hck in Hrec2.
    apply execute_inv in Ee2 as [[Hw Hr]|(h & t & o & t1 & t2 & _ & _ & Hnone & _)]; [|cbn in Hnone; congruence].
    split; [exact Hw|]. intros Hsha. destruct Hr as [[e ->]|(stored & Hst & ->)]; [by eexists|]. cbn in Hst.
    rewrite Hrec2 in Hst. injection Hst as <-. unfold replay_stored. rewrite bool_decide_eq_false_2; [by eexists|].
    rewrite Hrd, Hdig, Hdig2, Hpay, Hpay2. intros Ex%hex_lower_inj. by apply Hsha. }
  destruct Hsecond as [H1' H2']. split; [done|]. split; [|done]. intros -> -> He.
  destruct (respond_approval_again _ _ _ _ _ _ w2 E Hne) as (env' & w1 & env2 & w3 & Ex & Hw1 & Hck & Hdg & Hty & Hdl & Hdl2 & Hw3 & ->).
  cbn. rewrite <- Hw1 in Hne. destruct (execute_changed _ _ _ _ _ Ex Hne) as (Hreg & Hval & o & rec' & Hr1 & Hr2 & Hr3 & Hr4).
  destruct (execute_replays (cas_coordinator svc) env2 w3 o) as [-> _]; [| |done].
  - split; [by rewrite Hty|]. rewrite Hw3. split; [|done].
    eapply validate_stable; [|done|exact Hdl|done|exact Hval]. by injection Hck.
  - exists rec'. rewrite Hw3, Hck, Hdg. split; [|done]. exact (lookup_weaken _ _ _ _ Hr1 (lg_records _ _ (proj1 (kr_ledger _ _ Hk)))).
Qed.
End Identity.

(** ** Queries *)

Section Reads.
Context `{!Ext} `{!ResponseCodec} `{!EnvelopeCodec} `{!RegistryJson} `{!PlanJson} `{!SerdeJson}.

Definition mapped_principal (principals : UidPrincipalMap) (creds : option PeerCreds) : option PrincipalId :=
  c ← creds; principals !! c.(pc_uid).

Lemma unmapped_refused principals creds : mapped_principal principals creds = None ->
  exists s, s.(st_code) ∈ [CodeUnauthenticated; CodePermissionDenied] /\ peer_principal principals creds = Refusal s /\
    forall claimed, actor_for principals creds claimed = Refusal s.
Proof.
  unfold mapped_principal, actor_for, peer_principal, principal_for_uid. destruct creds as [c|]; cbn.
  - intros ->. eexists. split; [|split; [reflexivity|done]]. cbn. set_solver.
  - intros _. eexists. split; [|split; [reflexivity|done]]. cbn. set_solver.
Qed.

(** C18: A connection whose uid is mapped to no principal learns nothing and changes
    nothing: every command is refused with the world as it was, every query ends
    before its first statement, and reads of streams and subscriptions are
    refused, all with one status that depends on nothing stored. *)
Theorem unmapped_peer_learns_nothing svc creds : mapped_principal svc.(cas_principals) creds = None ->
  exists s, s.(st_code) ∈ [CodeUnauthenticated; CodePermissionDenied] /\
  (forall req w, submit_command svc creds req w = (Refusal s, w)) /\
  (forall req w, respond_approval svc creds req w = (Refusal s, w)) /\
  (forall w, health svc creds w = (Refusal s, w)) /\
  (forall id, get_run svc creds id = Finish (Refusal s)) /\ (forall id, get_task svc creds id = Finish (Refusal s)) /\
  (forall id, get_effect svc creds id = Finish (Refusal s)) /\ (forall id, get_run_graph svc creds id = Finish (Refusal s)) /\
  get_active_config svc creds = Finish (Refusal s) /\
  (forall f, list_approvals svc creds f = Finish (Refusal s)) /\ (forall f, list_adapters svc creds f = Finish (Refusal s)) /\
  (forall key from limit j, read_stream_rpc svc.(cas_principals) creds key from limit j = Refusal s) /\
  (forall key after bus, subscribe svc.(cas_principals) creds key after bus = Refusal s).
Proof.
  intros (s & Hs & Hp & Ha)%unmapped_refused. exists s. split; [done|].
  unfold submit_command, respond_approval, health, get_run, get_task, get_effect, get_run_graph, get_active_config,
    list_approvals, list_adapters, read_stream_rpc, subscribe.
  split_and!; intros; by rewrite ?Ha, ?Hp.
Qed.

(** What the statements of the graph query return. *)
Lemma read_dependencies d task l : read_at d (graph_list_dependencies task) = Ok l ->
  forall e, e ∈ l <-> exists k, d.(dependencies) !! k = Some e /\ e.(RunDependencyRow.task_id) = task.
Proof.
  unfold read_at. destruct (graph_list_dependencies task _) as [[l'|e] t'] eqn:E; [|done]. cbn. intros [= ->].
  by apply graph_list_dependencies_inv in E as [_ E].
Qed.

Lemma read_runs d task l : read_at d (runs_list_by_task task) = Ok l ->
  forall r, r ∈ l <-> exists id, d.(runs) !! id = Some r /\ r.(RunRow.task_id) = task.
Proof.
  unfold read_at, runs_list_by_task, query, gets, bind, lift_res. cbn. intros E r.
  apply res_collect_same in E as [-> _].
  - rewrite elem_of_select. by setoid_rewrite bool_decide_eq_true.
  - intros a b Hb. unfold decode_run in Hb. inv_ok. done.
Qed.

(** The graph a client is shown is closed.  The three statements of the query may
    each see a later state of the kernel, but every edge the task had when the
    query started is shown, no edge is shown that does not exist, and both runs of
    every edge shown are among the runs shown. *)
Theorem run_graph_view_is_closed svc creds task views g :
  graph_ok (views 0%nat) -> runs_inv (views 0%nat) -> (forall n, kernel_rel (views n) (views (S n))) ->
  run_query views 0 (get_run_graph svc creds task) = Answer g ->
  exists task_id, uuid_v7_from_str task = Some task_id /\
  (forall k e, (views 0%nat).(dependencies) !! k = Some e -> e.(RunDependencyRow.task_id) = task_id -> dependency_view e ∈ g.(rg_dependencies)) /\
  (forall v, v ∈ g.(rg_dependencies) -> exists k e, (views 1%nat).(dependencies) !! k = Some e /\ v = dependency_view e /\
     exists source target, source ∈ g.(rg_runs) /\ target ∈ g.(rg_runs) /\
       source.(ar_run_id) = v.(rdv_source_run_id) /\ target.(ar_run_id) = v.(rdv_target_run_id)).
Proof.
  intros Hg Hr Hk. unfold get_run_graph, parse_id. destruct (actor_for _ _ _) as [p|s]; [|done].
  destruct (uuid_v7_from_str task) as [task_id|]; cbn [reply_or]; [|done]. cbn [run_query].
  destruct (read_at (views 0%nat) _) as [head|]; [|done]. destruct head as [head|]; cbn [found reply_or]; [|done]. cbn [run_query].
  destruct (read_at (views 1%nat) _) as [deps|] eqn:Ed; [|done]. destruct (read_at (views 2%nat) _) as [rows|] eqn:Er; [|done].
  intros [= <-]. exists task_id. split; [done|]. cbn [rg_dependencies rg_runs].
  pose proof (read_dependencies _ _ _ Ed) as Hd. pose proof (read_runs _ _ _ Er) as Hrows.
  pose proof (kr_graph _ _ (Hk 0%nat)) as [G01 Hg1]. pose proof (kr_graph _ _ (Hk 1%nat)) as [G12 _]. specialize (Hg1 Hg).
  assert (Hr2 : runs_inv (views 2%nat)) by (apply (kr_runs _ _ (Hk 1%nat)), (kr_runs _ _ (Hk 0%nat)), Hr).
  assert (Hshown : forall id, task_of (views 1%nat) id task_id -> exists m, m ∈ run_view <$> rows /\ ar_run_id m = uuid_hyphenated id).
  { intros id Ht. apply (gg_runs _ _ G12) in Ht as (r & Hr' & Ht). exists (run_view r). split.
    - apply list_elem_of_fmap. exists r. split; [done|]. apply Hrows. by exists id.
    - cbn. by rewrite (ri_key _ Hr2 _ _ Hr'). }
  split.
  - intros k e He Ht. apply list_elem_of_fmap. exists e. split; [done|]. apply Hd. exists k. split; [|done].
    by eapply lookup_weaken, (gg_deps _ _ G01).
  - intros v (e & -> & (k & He & Ht)%Hd)%list_elem_of_fmap. exists k, e. split; [done|]. split; [done|].
    destruct (go_scope _ Hg1 _ _ He) as [H1' H2']. rewrite Ht in H1', H2'.
    destruct (Hshown _ H1') as (s & Hs & Es), (Hshown _ H2') as (t & Htt & Et). exists s, t. split_and!; [done|done|by rewrite Es|by rewrite Et].
Qed.

(** The backlog [Health] reports is the number of events not yet published, and
    asking leaves the database as it is. *)
Lemma health_counts_backlog svc creds w h w' : health svc creds w = (Answer h, w') ->
  w'.(w_db) = w.(w_db) /\ exists t rows t', t.(t_db) = w.(w_db) /\
    streams_scan_unpublished (Z.to_nat (2 ^ 32 - 1)) t = (Ok rows, t') /\ h.(hr_outbox_unpublished_count) = Z.of_nat (length rows).
Proof.
  unfold health. destruct (actor_for _ _ _) as [p|s]; [|done]. unfold draw_id. destruct (begin_write _ _) as [t|e] eqn:Hb; [|done].
  destruct (streams_scan_unpublished _ t) as [[rows|e] t'] eqn:E; [|done]. intros [= <- <-]. split; [done|].
  exists t, rows, t'. split; [|split; [exact E|done]]. unfold begin_write in Hb. destruct (assert_epoch _ _); [|done]. by injection Hb as <-.
Qed.
End Reads.
