(* ===== verification/Devices.v ===== *)
(** * Device credentials of the gateway ([agentgw/src/devices.rs])

    A JSON file maps device ids to the hashes of their bearer tokens.  It is
    read again at every request; [add] and [revoke] rewrite it under an
    exclusive [flock] on a sidecar file and replace it by a rename.  Here are
    the operations, the command line over them, and the system of processes
    that run them at the same time. *)

From S2P Require Import Prelude Domain Ids Text Models StoreBase Effects LoopFeed.

Open Scope string_scope.
Open Scope Z_scope.

(** ** Paths and files *)

(** [Path::components]; the files of the host by their components. *)
Definition components (p : string) : list string :=
  ((if starts_with "/" p then ["/"] else []) ++
   List.filter (fun c => negb (bool_decide (c = "")) && negb (bool_decide (c = "."))) (split_on "/" p))%list.
Abbreviation Files := (gmap (list string) bytes).

(** [Path::file_stem] of a file name: a leading dot starts no extension. *)
Definition file_stem (name : string) : string :=
  match rsplit_once "." name with Some (stem, _) => if str_is_empty stem then name else stem | None => name end.

(** [Path::with_extension]. *)
Definition with_extension (ext : string) (path : list string) : list string :=
  match list.last path with
  | Some name =>
      if bool_decide (name = "/") || bool_decide (name = "..") then path
      else (removelast path ++ [file_stem name +:+ "." +:+ ext])%list
  | None => path
  end.

(** ** The registry *)

Record DeviceEntry := mkDeviceEntry {
  de_token_hash : string; de_label : string; de_enabled : bool; de_created_at_ms : Z }.
Record DeviceRegistry := mkDeviceRegistry { dr_devices : gmap string DeviceEntry }.

Definition default_registry : DeviceRegistry := mkDeviceRegistry ∅.

(** [io::Result]: the error is its text. *)
Inductive Io (A : Type) := IoOk (a : A) | IoErr (message : string).
Arguments IoOk {A} a.
Arguments IoErr {A} message.

(** [serde_json] on the registry, [Uuid::now_v7] and the clock of the process,
    and [Uuid::simple]. *)
Class DeviceJson := {
  registry_to_json : DeviceRegistry -> bytes;
  registry_from_json : string -> Io DeviceRegistry }.
Class GatewayHost := {
  gw_uuid : nat -> Uuid;
  gw_now_ms : nat -> Z;
  uuid_simple : Uuid -> string }.

(** The calls of one invocation that the operating system may refuse. *)
Record IoFaults := mkIoFaults {
  io_open_lock : option string; io_flock : option string; io_read : option string;
  io_create : option string; io_write : option string; io_rename : option string }.
Definition no_io_faults : IoFaults := mkIoFaults None None None None None None.

Definition io_err (msg e : string) : string := msg +:+ ": " +:+ e.

Section Registry.
Context `{!Ext} `{!DeviceJson} `{!GatewayHost}.

Definition load (faults : IoFaults) (path : list string) (fs : Files) : Io DeviceRegistry :=
  match faults.(io_read), fs !! path with
  | Some e, _ => IoErr (io_err "read devices file" e)
  | None, None => IoOk default_registry
  | None, Some content =>
      match from_utf8 content with
      | None => IoErr (io_err "read devices file" "stream did not contain valid UTF-8")
      | Some s =>
          match registry_from_json s with
          | IoOk reg => IoOk reg
          | IoErr e => IoErr (io_err "devices file not valid JSON" e)
          end
      end
  end.

(** The file is replaced by the last call, a rename, or not at all; the
    temporary file has a name of its own. *)
Definition save (faults : IoFaults) (path : list string) (reg : DeviceRegistry) (fs : Files) : Io unit * Files :=
  match faults.(io_create), faults.(io_write), faults.(io_rename) with
  | Some e, _, _ => (IoErr (io_err "create devices tmp" e), fs)
  | None, Some e, _ => (IoErr (io_err "write devices tmp" e), fs)
  | None, None, Some e => (IoErr (io_err "rename devices file" e), fs)
  | None, None, None => (IoOk tt, <[path := registry_to_json reg]> fs)
  end.

Definition lock_path (path : list string) : list string := with_extension "lock" path.

(** [File::create] empties the sidecar before it is locked. *)
Definition update {R} (faults : IoFaults) (path : list string) (f : DeviceRegistry -> Io (R * DeviceRegistry)) (fs : Files)
    : Io R * Files :=
  match faults.(io_open_lock) with
  | Some e => (IoErr (io_err "open devices lock" e), fs)
  | None =>
      let fs := <[lock_path path := []]> fs in
      match faults.(io_flock) with
      | Some e => (IoErr (io_err "lock devices file" e), fs)
      | None =>
          match load faults path fs with
          | IoErr e => (IoErr e, fs)
          | IoOk reg =>
              match f reg with
              | IoErr e => (IoErr e, fs)
              | IoOk (result, reg) =>
                  let '(saved, fs) := save faults path reg fs in
                  (match saved with IoOk _ => IoOk result | IoErr e => IoErr e end, fs)
              end
          end
      end
  end.

Definition token_hash (token : string) : string := "sha256:" +:+ hex_lower (sha256 (into_bytes token)).

Definition add_entry (device_id : string) (entry : DeviceEntry) (reg : DeviceRegistry) : Io (string * DeviceRegistry) :=
  IoOk (device_id, mkDeviceRegistry (<[device_id := entry]> reg.(dr_devices))).

(** The id and the token that the [n]-th identifiers give. *)
Definition new_device_id (n : nat) : string := uuid_hyphenated (gw_uuid n).
Definition new_token (n : nat) : string := "gwdev_" +:+ uuid_simple (gw_uuid (1 + n)) +:+ uuid_simple (gw_uuid (2 + n)).

Definition add (faults : IoFaults) (path : list string) (label : string) (n clock : nat) (fs : Files)
    : Io (string * string) * Files :=
  let token := new_token n in
  let '(r, fs) := update faults path
    (add_entry (new_device_id n) (mkDeviceEntry (token_hash token) label true (gw_now_ms clock))) fs in
  (match r with IoOk id => IoOk (id, token) | IoErr e => IoErr e end, fs).

Definition disable (e : DeviceEntry) : DeviceEntry :=
  mkDeviceEntry e.(de_token_hash) e.(de_label) false e.(de_created_at_ms).

Definition revoke_entry (id_prefix : string) (reg : DeviceRegistry) : Io (string * DeviceRegistry) :=
  match List.filter (starts_with id_prefix) (btree_keys reg.(dr_devices)) with
  | [id] => IoOk (id, mkDeviceRegistry (alter disable id reg.(dr_devices)))
  | [] => IoErr ("no device matching '" +:+ id_prefix +:+ "'")
  | _ => IoErr ("device prefix '" +:+ id_prefix +:+ "' is ambiguous")
  end.

Definition revoke (faults : IoFaults) (path : list string) (id_prefix : string) (fs : Files) : Io string * Files :=
  update faults path (revoke_entry id_prefix) fs.

Definition live_match (hash : string) (e : DeviceEntry) : bool := e.(de_enabled) && bool_decide (e.(de_token_hash) = hash).

(** The devices of a [BTreeMap] come in the order of their ids. *)
Fixpoint find_device (hash : string) (ids : list string) (devices : gmap string DeviceEntry) : option string :=
  match ids with
  | [] => None
  | id :: ids => if from_option (live_match hash) false (devices !! id) then Some id else find_device hash ids devices
  end.

Definition authenticate (faults : IoFaults) (path : list string) (token : string) (fs : Files) : Io (option string) :=
  match load faults path fs with
  | IoErr e => IoErr e
  | IoOk reg => IoOk (find_device (token_hash token) (btree_keys reg.(dr_devices)) reg.(dr_devices))
  end.

(** ** The command line *)

Record DeviceArgs := mkDeviceArgs { da_file : option string; da_label : string; da_pos : list string }.

Fixpoint device_args (args : list string) (acc : DeviceArgs) : DeviceArgs :=
  match args with
  | [] => acc
  | a :: rest =>
      let positional := device_args rest (mkDeviceArgs acc.(da_file) acc.(da_label) (acc.(da_pos) ++ [a])%list) in
      match strip_prefix "--devices-file=" a, strip_prefix "--label=" a, rest with
      | Some v, _, _ => device_args rest (mkDeviceArgs (Some v) acc.(da_label) acc.(da_pos))
      | _, Some v, _ => device_args rest (mkDeviceArgs acc.(da_file) v acc.(da_pos))
      | _, _, v :: rest =>
          if bool_decide (a = "--devices-file") then device_args rest (mkDeviceArgs (Some v) acc.(da_label) acc.(da_pos))
          else if bool_decide (a = "--label") then device_args rest (mkDeviceArgs acc.(da_file) v acc.(da_pos))
          else positional
      | _, _, [] => positional
      end
  end.

Inductive Output := Stdout (v : Value) | Stderr (text : string).

Definition device_row (devices : gmap string DeviceEntry) (id : string) : option Value :=
  e ← devices !! id;
  Some (VObject [("device_id", VString id); ("label", VString e.(de_label)); ("enabled", VBool e.(de_enabled));
                 ("created_at_ms", VNumber (i64_to_string e.(de_created_at_ms)))]).

Definition cli (faults : IoFaults) (args : list string) (n clock : nat) (fs : Files) : Z * list Output * Files :=
  let a := device_args args (mkDeviceArgs None "device" []) in
  match a.(da_file) with
  | None => (2, [Stderr "device commands require --devices-file <path>"], fs)
  | Some file =>
      let path := components file in
      match a.(da_pos) with
      | "add" :: _ =>
          match add faults path a.(da_label) n clock fs with
          | (IoOk (id, token), fs) =>
              (0, [Stdout (VObject [("device_id", VString id); ("label", VString a.(da_label)); ("token", VString token)]);
                   Stderr "store the token now — only its hash is kept on disk"], fs)
          | (IoErr e, fs) => (1, [Stderr ("device add failed: " +:+ e)], fs)
          end
      | ["revoke"] => (2, [Stderr "device revoke <id-prefix> required"], fs)
      | "revoke" :: id :: _ =>
          match revoke faults path id fs with
          | (IoOk id, fs) => (0, [Stdout (VObject [("revoked", VString id)])], fs)
          | (IoErr e, fs) => (1, [Stderr ("device revoke failed: " +:+ e)], fs)
          end
      | "list" :: _ =>
          match load faults path fs with
          | IoOk reg => (0, [Stdout (VObject [("devices", VArray (omap (device_row reg.(dr_devices)) (btree_keys reg.(dr_devices))))])], fs)
          | IoErr e => (1, [Stderr ("device list failed: " +:+ e)], fs)
          end
      | _ => (2, [Stderr "usage: agentgw device <add|revoke|list> --devices-file <path> [--label L] [id]"], fs)
      end
  end.
End Registry.

(** ** What the operations do *)

(** The printed registry is text that reads back. *)
Class DeviceJsonLaws `{!DeviceJson} : Prop := {
  registry_text reg : is_Some (from_utf8 (registry_to_json reg));
  registry_round_trip reg s : from_utf8 (registry_to_json reg) = Some s -> registry_from_json s = IoOk reg }.

Lemma btree_keys_NoDup {A} (m : gmap string A) : NoDup (btree_keys m).
Proof. unfold btree_keys. rewrite merge_sort_Permutation. apply NoDup_fst_map_to_list. Qed.

(** The registry that the text of a file holds. *)
Definition holds `{!DeviceJson} (path : list string) (fs : Files) (reg : DeviceRegistry) : Prop :=
  load no_io_faults path fs = IoOk reg.

Section Facts.
Context `{!Ext} `{!DeviceJson} `{!GatewayHost} `{!DeviceJsonLaws}.

Lemma load_holds faults path fs reg : load faults path fs = IoOk reg -> holds path fs reg.
Proof. unfold holds, load. simpl. by destruct (io_read faults). Qed.

Lemma saved_holds path fs reg : holds path (<[path := registry_to_json reg]> fs) reg.
Proof.
  unfold holds, load. simpl. rewrite lookup_insert_eq. destruct (registry_text reg) as [s Hs]. rewrite Hs.
  by rewrite (registry_round_trip _ _ Hs).
Qed.

Lemma holds_other path q b fs reg : q <> path -> holds path (<[q := b]> fs) reg <-> holds path fs reg.
Proof. intros Hq. unfold holds, load. by rewrite lookup_insert_ne. Qed.

Lemma find_device_spec hash ids devices :
  match find_device hash ids devices with
  | Some id => id ∈ ids /\ exists e, devices !! id = Some e /\ live_match hash e = true
  | None => forall id e, id ∈ ids -> devices !! id = Some e -> live_match hash e = false
  end.
Proof.
  induction ids as [|id ids IH]; [by intros ? ? ?%elem_of_nil|]. simpl.
  destruct (devices !! id) as [e|] eqn:E; simpl; [destruct (live_match hash e) eqn:L; [by eauto using list_elem_of_here|]|].
  all: destruct (find_device hash ids devices) as [i|]; [destruct IH as [? ?]; by eauto using list_elem_of_further|].
  all: intros i d [->|Hi]%elem_of_cons Hd; [congruence|by eauto].
Qed.

Lemma live_match_spec hash e : live_match hash e = true <-> e.(de_enabled) = true /\ e.(de_token_hash) = hash.
Proof. unfold live_match. rewrite andb_true_iff, bool_decide_eq_true. done. Qed.

(** A token names an enabled device whose stored hash is the token's, and is
    refused when there is none. *)
Lemma authenticate_exact faults path token fs r : authenticate faults path token fs = IoOk r ->
  exists reg, holds path fs reg /\
  match r with
  | Some id => exists e, reg.(dr_devices) !! id = Some e /\ e.(de_enabled) = true /\ e.(de_token_hash) = token_hash token
  | None => forall id e, reg.(dr_devices) !! id = Some e -> e.(de_enabled) = true -> e.(de_token_hash) <> token_hash token
  end.
Proof.
  unfold authenticate. destruct (load faults path fs) as [reg|] eqn:L; [|done]. intros [= <-].
  exists reg. split; [by eapply load_holds|].
  pose proof (find_device_spec (token_hash token) (btree_keys (dr_devices reg)) (dr_devices reg)) as Hf.
  destruct (find_device _ _ _) as [id|].
  - destruct Hf as (_ & e & He & Hm%live_match_spec). by exists e.
  - intros id e He Hen Hh. assert (Hm : live_match (token_hash token) e = true) by (by apply live_match_spec).
    rewrite (Hf id e) in Hm; [done|apply btree_keys_elem; by eexists|done].
Qed.

Lemma save_cases faults path reg fs r fs' : save faults path reg fs = (r, fs') ->
  fs' = match r with IoOk _ => <[path := registry_to_json reg]> fs | IoErr _ => fs end.
Proof. unfold save. by destruct (io_create faults), (io_write faults), (io_rename faults); intros [= <- <-]. Qed.

(** A revocation disables the only device the prefix names, and changes nothing
    else. *)
Lemma revoke_entry_spec prefix reg id reg' : revoke_entry prefix reg = IoOk (id, reg') ->
  starts_with prefix id = true /\
  (forall k, is_Some (reg.(dr_devices) !! k) -> starts_with prefix k = true -> k = id) /\
  exists e, reg.(dr_devices) !! id = Some e /\ reg'.(dr_devices) = <[id := disable e]> reg.(dr_devices).
Proof.
  unfold revoke_entry. set (ids := List.filter _ _).
  assert (Hids : forall k, k ∈ ids <-> is_Some (reg.(dr_devices) !! k) /\ starts_with prefix k = true).
  { intros k. unfold ids. rewrite list_elem_of_In, filter_In, <- list_elem_of_In. by rewrite btree_keys_elem. }
  destruct ids as [|i [|j l]]; [done| |done]. intros [= <- <-].
  destruct (proj1 (Hids i) (list_elem_of_here _ _)) as [[e He] Hp]. repeat split; [done| |].
  - intros k Hk Hpk. by apply list_elem_of_singleton, Hids.
  - exists e. split; [done|]. simpl. apply map_eq. intros k. destruct (decide (k = i)) as [->|Hne].
    + by rewrite lookup_alter_eq, He, lookup_insert_eq.
    + by rewrite lookup_alter_ne, lookup_insert_ne by done.
Qed.
End Facts.

(** ** Processes that change the registry at the same time *)

(** The two callers of [update], with the values they drew. *)
Inductive DeviceOp :=
  | OpAdd (device_id : string) (entry : DeviceEntry)
  | OpRevoke (id_prefix : string).
Definition run_op (op : DeviceOp) : DeviceRegistry -> Io (string * DeviceRegistry) :=
  match op with OpAdd id e => add_entry id e | OpRevoke p => revoke_entry p end.

(** Where an invocation of [update] stands; it holds the lock from [Holding] to
    [Releasing]. *)
Inductive UpdatePhase :=
  | Opening | Waiting | Holding
  | Changing (result : string) (reg : DeviceRegistry)
  | Releasing (r : Io string)
  | Returned (r : Io string).
Definition holds_lock (ph : UpdatePhase) : bool :=
  match ph with Holding | Changing _ _ | Releasing _ => true | _ => false end.

(** The log of the renames is not kept by the program. *)
Record DeviceSystem := mkDeviceSystem {
  ds_files : Files;
  ds_lock : option nat;
  ds_procs : gmap nat (DeviceOp * UpdatePhase);
  ds_log : list (nat * DeviceOp) }.

Section System.
Context `{!Ext} `{!DeviceJson}.
Context (path : list string).

Definition at_phase (s : DeviceSystem) (p : nat) (op : DeviceOp) (ph : UpdatePhase) (fs : Files) (lock : option nat)
    (log : list (nat * DeviceOp)) : DeviceSystem :=
  mkDeviceSystem fs lock (<[p := (op, ph)]> s.(ds_procs)) log.

(** One call of one process: its lines of [update] in order, a refusal of the
    operating system at any of them, the death of the process, which releases
    its lock, or a new invocation. *)
Inductive device_step : DeviceSystem -> DeviceSystem -> Prop :=
  | step_invoke s p op : s.(ds_procs) !! p = None ->
      device_step s (at_phase s p op Opening s.(ds_files) s.(ds_lock) s.(ds_log))
  | step_open s p op : s.(ds_procs) !! p = Some (op, Opening) ->
      device_step s (at_phase s p op Waiting (<[lock_path path := []]> s.(ds_files)) s.(ds_lock) s.(ds_log))
  | step_not_opened s p op e : s.(ds_procs) !! p = Some (op, Opening) ->
      device_step s (at_phase s p op (Returned (IoErr (io_err "open devices lock" e))) s.(ds_files) s.(ds_lock) s.(ds_log))
  | step_lock s p op : s.(ds_procs) !! p = Some (op, Waiting) -> s.(ds_lock) = None ->
      device_step s (at_phase s p op Holding s.(ds_files) (Some p) s.(ds_log))
  | step_not_locked s p op e : s.(ds_procs) !! p = Some (op, Waiting) ->
      device_step s (at_phase s p op (Returned (IoErr (io_err "lock devices file" e))) s.(ds_files) s.(ds_lock) s.(ds_log))
  | step_load s p op faults ph : s.(ds_procs) !! p = Some (op, Holding) ->
      ph = match load faults path s.(ds_files) with
           | IoErr e => Releasing (IoErr e)
           | IoOk reg => match run_op op reg with IoErr e => Releasing (IoErr e) | IoOk (r, reg) => Changing r reg end
           end ->
      device_step s (at_phase s p op ph s.(ds_files) s.(ds_lock) s.(ds_log))
  | step_save s p op r reg faults fs : s.(ds_procs) !! p = Some (op, Changing r reg) ->
      save faults path reg s.(ds_files) = (IoOk tt, fs) ->
      device_step s (at_phase s p op (Releasing (IoOk r)) fs s.(ds_lock) (s.(ds_log) ++ [(p, op)]))
  | step_not_saved s p op r reg faults fs e : s.(ds_procs) !! p = Some (op, Changing r reg) ->
      save faults path reg s.(ds_files) = (IoErr e, fs) ->
      device_step s (at_phase s p op (Releasing (IoErr e)) fs s.(ds_lock) s.(ds_log))
  | step_release s p op r : s.(ds_procs) !! p = Some (op, Releasing r) ->
      device_step s (at_phase s p op (Returned r) s.(ds_files) None s.(ds_log))
  | step_die s p op ph : s.(ds_procs) !! p = Some (op, ph) ->
      device_step s (mkDeviceSystem s.(ds_files) (if holds_lock ph then None else s.(ds_lock)) (delete p s.(ds_procs)) s.(ds_log)).

(** The operations of a log, one after the other. *)
Fixpoint replay (log : list (nat * DeviceOp)) (reg : DeviceRegistry) : option DeviceRegistry :=
  match log with
  | [] => Some reg
  | (_, op) :: log => match run_op op reg with IoOk (_, reg) => replay log reg | IoErr _ => None end
  end.

(** The answer of an invocation is that of its operation in the log. *)
Definition answered (log : list (nat * DeviceOp)) (reg0 : DeviceRegistry) (p : nat) (op : DeviceOp) (r : string) : Prop :=
  exists before after reg reg', log = (before ++ (p, op) :: after)%list /\ replay before reg0 = Some reg /\
    run_op op reg = IoOk (r, reg').

Definition start (fs : Files) : DeviceSystem := mkDeviceSystem fs None ∅ [].
End System.

Section Linearization.
Context `{!Ext} `{!DeviceJson} `{!DeviceJsonLaws}.
Context (path : list string) (reg0 : DeviceRegistry).
Hypothesis sidecar : lock_path path <> path.

Record device_inv (s : DeviceSystem) : Prop := {
  inv_registry : exists reg, replay s.(ds_log) reg0 = Some reg /\ holds path s.(ds_files) reg;
  inv_lock p op ph : s.(ds_procs) !! p = Some (op, ph) -> holds_lock ph = true -> s.(ds_lock) = Some p;
  inv_changing p op r reg' : s.(ds_procs) !! p = Some (op, Changing r reg') ->
    exists reg, holds path s.(ds_files) reg /\ run_op op reg = IoOk (r, reg');
  inv_answered p op r : s.(ds_procs) !! p = Some (op, Releasing (IoOk r)) \/ s.(ds_procs) !! p = Some (op, Returned (IoOk r)) ->
    answered s.(ds_log) reg0 p op r }.

Lemma replay_app l1 l2 reg : replay (l1 ++ l2) reg = (replay l1 reg ≫= replay l2).
Proof. revert reg. induction l1 as [|[p op] l1 IH]; intros reg; [done|]. simpl. by destruct (run_op op reg) as [[? ?]|]. Qed.

Lemma answered_app log l p op r : answered log reg0 p op r -> answered (log ++ l) reg0 p op r.
Proof. intros (b & a & reg & reg' & -> & Hb & Hr). exists b, (a ++ l)%list, reg, reg'. split; [by rewrite <- app_assoc|done]. Qed.

Lemma holds_fun fs reg reg' : holds path fs reg -> holds path fs reg' -> reg = reg'.
Proof. unfold holds. congruence. Qed.

(** A step that leaves the registry and the log alone keeps the invariant when
    the lock follows the phase of the process and its new phase is justified. *)
Lemma quiet_step s p op ph fs lock : device_inv s ->
  (forall reg, holds path fs reg <-> holds path s.(ds_files) reg) ->
  (forall q op' ph', q <> p -> s.(ds_procs) !! q = Some (op', ph') -> holds_lock ph' = true -> lock = Some q) ->
  (holds_lock ph = true -> lock = Some p) ->
  (forall r reg', ph = Changing r reg' -> exists reg, holds path s.(ds_files) reg /\ run_op op reg = IoOk (r, reg')) ->
  (forall r, ph = Releasing (IoOk r) \/ ph = Returned (IoOk r) -> answered s.(ds_log) reg0 p op r) ->
  device_inv (at_phase s p op ph fs lock s.(ds_log)).
Proof.
  intros [Hr Hl Hc Ha] Hfs Hother Hown Hch Hans. split; simpl.
  - destruct Hr as (reg & ? & ?). exists reg. by rewrite Hfs.
  - intros q op' ph'. rewrite lookup_insert_Some. intros [(<- & [= <- <-])|(Hne & Hq)]; [done|by eauto].
  - intros q op' r reg'. rewrite lookup_insert_Some. setoid_rewrite Hfs. intros [(<- & [= <- ->])|(_ & Hq)]; eauto.
  - intros q op' r. rewrite !lookup_insert_Some. naive_solver.
Qed.

(** Two processes never hold the lock together. *)
Lemma lock_exclusive s p op ph q op' ph' : device_inv s -> s.(ds_procs) !! p = Some (op, ph) -> holds_lock ph = true ->
  s.(ds_procs) !! q = Some (op', ph') -> holds_lock ph' = true -> q = p.
Proof. intros Hi Hp Hlp Hq Hlq. pose proof (inv_lock s Hi p op ph Hp Hlp). pose proof (inv_lock s Hi q op' ph' Hq Hlq). congruence. Qed.

Lemma save_step s p op r reg' faults fs : device_inv s -> s.(ds_procs) !! p = Some (op, Changing r reg') ->
  save faults path reg' s.(ds_files) = (IoOk tt, fs) ->
  device_inv (at_phase s p op (Releasing (IoOk r)) fs s.(ds_lock) (s.(ds_log) ++ [(p, op)])).
Proof.
  intros Hi Hp Hs. pose proof Hi as [(reg & Hr & Hh) Hl Hc Ha]. destruct (Hc p op r reg' Hp) as (reg1 & Hh1 & Hop).
  rewrite <- (holds_fun _ _ _ Hh Hh1) in Hop. clear reg1 Hh1.
  apply save_cases in Hs as ->.
  split; simpl.
  - exists reg'. split; [|apply saved_holds]. rewrite replay_app, Hr. simpl. by rewrite Hop.
  - intros q op' ph'. rewrite lookup_insert_Some. intros [(<- & [= <- <-])|(Hne & Hq)]; eauto.
  - intros q op' r' reg1. rewrite lookup_insert_Some. intros [(_ & [= ])|(Hne & Hq)].
    destruct Hne. symmetry. by eapply (lock_exclusive s p op); eauto.
  - intros q op' r'. rewrite !lookup_insert_Some. intros Hq. destruct (decide (p = q)) as [<-|Hne].
    + assert (op' = op /\ r' = r) as [-> ->] by naive_solver. exists s.(ds_log), [], reg, reg'. done.
    + apply answered_app, Ha. naive_solver.
Qed.

Lemma device_inv_step s s' : device_inv s -> device_step path s s' -> device_inv s'.
Proof.
  intros Hi Hstep. pose proof Hi as [Hreg Hlk Hch Han]. destruct Hstep;
    try (eapply quiet_step; [exact Hi|done| | |by intros ? ? [= ]|by intros ? [[= ]|[= ]]];
         [by eauto|done || (simpl; intros _; by eauto)]).
  - eapply quiet_step; [exact Hi|intros; by apply holds_other|by eauto|done|done|by intros ? [[= ]|[= ]]].
  - (* the lock is taken *)
    eapply quiet_step; [exact Hi|done| |done|done|by intros ? [[= ]|[= ]]].
    intros q op' ph' _ Hq Hl. rewrite (Hlk q op' ph' Hq Hl) in *. congruence.
  - (* the registry is read and changed *)
    eapply quiet_step; [exact Hi|done|by eauto|by eauto| |].
    + intros r reg' E. subst ph. destruct (load faults path (ds_files s)) as [reg|] eqn:L; [|done].
      destruct (run_op op reg) as [[r1 reg1]|] eqn:R; [|done]. injection E as <- <-. exists reg. split; [by eapply load_holds|done].
    + subst ph. intros r. destruct (load _ _ _); [destruct (run_op _ _) as [[? ?]|]|]; by intros [[= ]|[= ]].
  - by eapply save_step; eauto.
  - (* the save failed *)
    match goal with Hs : save _ _ _ _ = _ |- _ => apply save_cases in Hs as -> end.
    eapply quiet_step; [exact Hi|done|by eauto|by eauto|done|by intros ? [[= ]|[= ]]].
  - (* the lock is released *)
    eapply quiet_step; [exact Hi|done| |done|done|].
    + intros q op' ph' Hne Hq Hl. destruct Hne. by eapply (lock_exclusive s p op); eauto.
    + intros r' [[= ]|[= ->]]. apply Han. by left.
  - (* a process dies *)
    split; simpl; [done| | |].
    + intros q op' ph'. rewrite lookup_delete_Some. intros [Hne Hq] Hl. destruct (holds_lock ph) eqn:Hph; [|by eauto].
      destruct Hne. symmetry. by eapply (lock_exclusive s p op); eauto.
    + intros q op' r reg'. rewrite lookup_delete_Some. intros [_ Hq]. by eauto.
    + intros q op' r. rewrite !lookup_delete_Some. naive_solver.
Qed.

Lemma device_reach_inv s s' : device_inv s -> rtc (device_step path) s s' -> device_inv s'.
Proof. induction 2; eauto using device_inv_step. Qed.

Lemma start_inv fs : holds path fs reg0 -> device_inv (start fs).
Proof. intros Hh. split; simpl; [by exists reg0|done|done|]. by intros p op r [?%lookup_empty_Some|?%lookup_empty_Some]. Qed.

(** C23: For a registry file whose name does not itself end in [.lock], so that its
    sidecar lock file is another file ([sidecar]): however invocations of [add] and
    [revoke] interleave, fail and die, the registry file is at all times what the
    completed operations make of the first registry one after the other, each on
    the whole registry its predecessors left: no update is lost.  An invocation
    that returns a device has its operation among them, and returns what it
    answered there. *)
Theorem updates_linearize fs s : holds path fs reg0 -> rtc (device_step path) (start fs) s ->
  exists reg, replay s.(ds_log) reg0 = Some reg /\ holds path s.(ds_files) reg /\
    forall p op r, s.(ds_procs) !! p = Some (op, Returned (IoOk r)) -> answered s.(ds_log) reg0 p op r.
Proof.
  intros Hh Hr. destruct (device_reach_inv _ _ (start_inv fs Hh) Hr) as [(reg & ? & ?) _ _ Ha].
  exists reg. repeat split; [done|done|]. intros p op r Hp. apply Ha. by right.
Qed.

(** ** Revocation *)

Definition added (log : list (nat * DeviceOp)) : list string :=
  omap (fun e => match e.2 with OpAdd id _ => Some id | OpRevoke _ => None end) log.

Lemma run_op_lookup op reg r reg' id e : run_op op reg = IoOk (r, reg') -> id <> r ->
  reg'.(dr_devices) !! id = Some e <-> reg.(dr_devices) !! id = Some e.
Proof.
  intros Hop Hne. destruct op as [i x|prefix]; simpl in Hop.
  - injection Hop as <- <-. simpl. by rewrite lookup_insert_ne.
  - destruct (revoke_entry_spec _ _ _ _ Hop) as (_ & _ & y & _ & ->). by rewrite lookup_insert_ne.
Qed.

(** An operation on a device that is there keeps it, and enables it only by
    adding it again. *)
Lemma run_op_disabled op reg r reg' id e : run_op op reg = IoOk (r, reg') -> (forall x, op <> OpAdd id x) ->
  reg.(dr_devices) !! id = Some e -> e.(de_enabled) = false ->
  exists e', reg'.(dr_devices) !! id = Some e' /\ e'.(de_enabled) = false.
Proof.
  intros Hop Hno Hl He. destruct (decide (id = r)) as [->|Hne].
  - destruct op as [i x|prefix]; simpl in Hop; [injection Hop as <- <-; by destruct (Hno x)|].
    destruct (revoke_entry_spec _ _ _ _ Hop) as (_ & _ & y & _ & ->). exists (disable y). by rewrite lookup_insert_eq.
  - exists e. split; [|done]. by apply (run_op_lookup op reg r).
Qed.

Lemma replay_disabled log reg reg' id e : replay log reg = Some reg' -> id ∉ added log ->
  reg.(dr_devices) !! id = Some e -> e.(de_enabled) = false ->
  exists e', reg'.(dr_devices) !! id = Some e' /\ e'.(de_enabled) = false.
Proof.
  revert reg e. induction log as [|[p op] log IH]; intros reg e Hr Hno Hl He; [injection Hr as <-; by exists e|].
  simpl in Hr. destruct (run_op op reg) as [[r reg1]|] eqn:Hop; [|done].
  destruct (run_op_disabled op reg r reg1 id e Hop) as (e1 & Hl1 & He1); [|done|done|].
  - intros x ->. apply Hno. simpl. apply list_elem_of_here.
  - apply (IH reg1 e1); [done| |done|done]. intros Hin. apply Hno. unfold added. simpl. destruct op; [by apply list_elem_of_further|done].
Qed.

(** A device of the registry was in the first one or was added. *)
Lemma replay_origin log reg reg' id : replay log reg = Some reg' -> is_Some (reg'.(dr_devices) !! id) ->
  is_Some (reg.(dr_devices) !! id) \/ id ∈ added log.
Proof.
  revert reg. induction log as [|[p op] log IH]; intros reg Hr Hl; [injection Hr as <-; by left|].
  simpl in Hr. destruct (run_op op reg) as [[r reg1]|] eqn:Hop; [|done].
  destruct (IH reg1 Hr Hl) as [[e He]|Hin]; [|right; simpl; destruct op; [by apply list_elem_of_further|done]].
  destruct op as [i x|prefix]; simpl in Hop |- *.
  - injection Hop as <- <-. simpl in He. rewrite lookup_insert_Some in He.
    destruct He as [[-> _]|[_ He]]; [right; apply list_elem_of_here|left; by exists e].
  - left. destruct (revoke_entry_spec _ _ _ _ Hop) as (_ & _ & y & Hy & E). rewrite E, lookup_insert_Some in He.
    destruct He as [[<- _]|[_ He]]; [by exists y|by exists e].
Qed.

Lemma device_log_grows s s' : rtc (device_step path) s s' -> exists l, s'.(ds_log) = (s.(ds_log) ++ l)%list.
Proof.
  induction 1 as [s|s s1 s2 Hs _ [l IH]]; [exists []; by rewrite app_nil_r|].
  assert (exists l1, s1.(ds_log) = (s.(ds_log) ++ l1)%list) as [l1 E1].
  { destruct Hs; simpl; try (exists []; by rewrite app_nil_r). by eexists. }
  exists (l1 ++ l)%list. by rewrite IH, E1, app_assoc.
Qed.

(** C22: Once an invocation of [revoke] has returned a device, no token
    authenticates as that device in any later state, whatever other
    invocations do and wherever they fail or die.  Identifiers are fresh: the
    devices added are pairwise different and none was in the first registry. *)
Theorem revoked_device_stays_out fs s s' p prefix id :
  holds path fs reg0 -> rtc (device_step path) (start fs) s -> s.(ds_procs) !! p = Some (OpRevoke prefix, Returned (IoOk id)) ->
  rtc (device_step path) s s' ->
  NoDup (added s'.(ds_log)) -> (forall i, i ∈ added s'.(ds_log) -> reg0.(dr_devices) !! i = None) ->
  forall faults token, authenticate faults path token s'.(ds_files) <> IoOk (Some id).
Proof.
  intros Hh Hr Hp Hr' Hnd Hfresh faults token Hauth.
  pose proof (device_reach_inv _ _ (start_inv fs Hh) Hr) as Hi. pose proof (device_reach_inv _ _ Hi Hr') as Hi'.
  destruct (device_log_grows _ _ Hr') as [l Hl].
  destruct (answered_app _ l _ _ _ (inv_answered s Hi p _ id (or_intror Hp))) as (b & a & reg & reg1 & Hlog & Hb & Hop).
  rewrite <- Hl in Hlog. simpl in Hop. pose proof Hop as (_ & _ & e & He & E1)%revoke_entry_spec.
  destruct (inv_registry s' Hi') as (reg' & Hrep & Hh'). rewrite Hlog, replay_app, Hb in Hrep. simpl in Hrep. rewrite Hop in Hrep.
  assert (Hna : id ∉ added a).
  { unfold added in Hnd, Hfresh. rewrite Hlog, omap_app in Hnd, Hfresh. simpl in Hnd, Hfresh. intros Hin.
    destruct (replay_origin b reg0 reg id Hb) as [[x Hx]|Hb']; [by exists e| |].
    - rewrite (Hfresh id) in Hx; [done|]. apply elem_of_app. by right.
    - apply list.NoDup_app in Hnd as (_ & Hdis & _). by eapply Hdis. }
  destruct (replay_disabled a reg1 reg' id (disable e) Hrep Hna) as (e' & He' & Hoff); [by rewrite E1, lookup_insert_eq|done|].
  destruct (authenticate_exact _ _ _ _ _ Hauth) as (reg2 & Hh2 & e2 & He2 & Hon & _).
  rewrite (holds_fun _ _ _ Hh' Hh2) in He'. congruence.
Qed.
End Linearization.

(** ** One invocation alone *)

Section Alone.
Context `{!Ext} `{!DeviceJson} `{!DeviceJsonLaws}.

(** The only process of the system. *)
Definition solo (op : DeviceOp) (ph : UpdatePhase) (fs : Files) (lock : option nat) (log : list (nat * DeviceOp)) : DeviceSystem :=
  mkDeviceSystem fs lock {[0%nat := (op, ph)]} log.

Lemma solo_at op ph fs lock log ph' fs' lock' log' :
  at_phase (solo op ph fs lock log) 0 op ph' fs' lock' log' = solo op ph' fs' lock' log'.
Proof. unfold at_phase, solo. simpl. by rewrite insert_singleton_eq. Qed.

Lemma solo_procs op ph fs lock log : ds_procs (solo op ph fs lock log) !! 0%nat = Some (op, ph).
Proof. apply lookup_singleton_eq. Qed.

Ltac solo_step c := eapply rtc_l; [eapply c; [apply solo_procs|..]; simpl; done|rewrite solo_at; simpl].

(** [update] is the run of one process of the system by itself, and is logged
    when it succeeds. *)
Lemma update_runs_alone faults path op fs r fs' : update faults path (run_op op) fs = (r, fs') ->
  rtc (device_step path) (solo op Opening fs None [])
    (solo op (Returned r) fs' None (match r with IoOk _ => [(0%nat, op)] | IoErr _ => [] end)).
Proof.
  unfold update. destruct (io_open_lock faults) as [e|].
  { intros [= <- <-]. by solo_step step_not_opened. }
  destruct (io_flock faults) as [e|].
  { intros [= <- <-]. solo_step step_open. by solo_step step_not_locked. }
  set (fs1 := <[lock_path path := []]> fs). intros E.
  assert (forall ph log, ph = match load faults path fs1 with
      | IoErr e => Releasing (IoErr e)
      | IoOk reg => match run_op op reg with IoErr e => Releasing (IoErr e) | IoOk (r, reg) => Changing r reg end
      end -> rtc (device_step path) (solo op ph fs1 (Some 0%nat) []) (solo op (Returned r) fs' None log) ->
    rtc (device_step path) (solo op Opening fs None []) (solo op (Returned r) fs' None log)) as Hlead.
  { intros ph log Hph Hrest. solo_step step_open. solo_step step_lock.
    eapply rtc_l; [eapply step_load; [apply solo_procs|exact Hph]|by rewrite solo_at]. }
  destruct (load faults path fs1) as [reg|e]; [destruct (run_op op reg) as [[x reg']|e]|].
  - destruct (save faults path reg' fs1) as [[[]|e] fs2] eqn:Es; injection E as <- <-; apply (Hlead _ _ eq_refl).
    + eapply rtc_l; [eapply step_save; [apply solo_procs|exact Es]|]. rewrite solo_at. by solo_step step_release.
    + eapply rtc_l; [eapply step_not_saved; [apply solo_procs|exact Es]|]. rewrite solo_at. by solo_step step_release.
  - injection E as <- <-. apply (Hlead _ _ eq_refl). by solo_step step_release.
  - injection E as <- <-. apply (Hlead _ _ eq_refl). by solo_step step_release.
Qed.

(** A registry file whose own extension is [lock] is emptied by the first update:
    the sidecar is the file. *)
Lemma lock_extension_wipes faults path (f : DeviceRegistry -> Io (string * DeviceRegistry)) fs :
  lock_path path = path -> io_open_lock faults = None -> io_read faults = None ->
  (forall reg, registry_from_json "" <> IoOk reg) ->
  (update faults path f fs).2 !! path = Some [].
Proof.
  intros Hp Ho Hr Hj. unfold update. rewrite Ho, Hp. pose proof (lookup_insert_eq fs path ([] : bytes)) as Hl.
  destruct (io_flock faults); [done|]. unfold load. rewrite Hr, Hl. simpl.
  change (String.string_of_list_byte []) with "". destruct (registry_from_json "") as [reg|e]; [by destruct (Hj reg)|done].
Qed.
End Alone.
