(* ===== verification/GatewayAuth.v ===== *)
(** * Who may use the gateway ([agentgw/src/main.rs])

    The command line of the gateway, the rule that a listener other than the
    loopback needs credentials, and the check every request passes before its
    handler. *)

From S2P Require Import Prelude Domain Ids Text Models StoreBase Effects LoopFeed Devices.

Open Scope string_scope.
Open Scope Z_scope.

(** ** Addresses *)

Inductive IpAddr := V4 (octets : list N) | V6 (groups : list N).

Definition digit_value (radix : N) (c : ascii) : option N :=
  let n := N_of_ascii c in
  let v := if is_ascii_digit c then Some (n - 48)%N
           else if byte_in 97 122 c then Some (n - 87)%N
           else if byte_in 65 90 c then Some (n - 55)%N else None in
  v ← v; if (v <? radix)%N then Some v else None.

(** The digits at the start of the text: their value, their number, and what follows. *)
Fixpoint read_digits (radix acc : N) (count : nat) (l : list ascii) : N * nat * list ascii :=
  match l with
  | c :: l' => match digit_value radix c with
               | Some d => read_digits radix (acc * radix + d) (S count) l'
               | None => (acc, count, l)
               end
  | [] => (acc, count, l)
  end.

(** [Parser::read_number]: the parser backtracks on a failure. *)
Definition read_number (radix max_value : N) (max_digits : nat) (allow_zero_prefix : bool) (l : list ascii) : option (N * list ascii) :=
  let '(v, count, rest) := read_digits radix 0 0 l in
  if (count =? 0)%nat || (max_digits <? count)%nat || (max_value <? v)%N
     || (negb allow_zero_prefix && bool_decide (head l = Some "0"%char) && (1 <? count)%nat)
  then None else Some (v, rest).

Definition read_given_char (c : ascii) (l : list ascii) : option (list ascii) :=
  match l with a :: l => if decide (a = c) then Some l else None | [] => None end.

(** [Parser::read_separator]: no separator before the first item. *)
Definition read_separator {A} (sep : ascii) (index : nat) (inner : list ascii -> option (A * list ascii)) (l : list ascii)
    : option (A * list ascii) :=
  match index with O => inner l | S _ => l ← read_given_char sep l; inner l end.

Fixpoint read_octets (index n : nat) (l : list ascii) : option (list N * list ascii) :=
  match n with
  | O => Some ([], l)
  | S n =>
      '(o, l) ← read_separator "." index (read_number 10 255 3 false) l;
      '(os, l) ← read_octets (S index) n l; Some (o :: os, l)
  end.
Definition read_ipv4_addr : list ascii -> option (list N * list ascii) := read_octets 0 4.

Definition embedded_groups (octets : list N) : list N :=
  match octets with [a; b; c; d] => [a * 256 + b; c * 256 + d]%N | _ => [] end.

(** At most [limit] groups; the last two may be an IPv4 address. *)
Fixpoint read_groups (index limit : nat) (l : list ascii) : list N * bool * list ascii :=
  match limit with
  | O => ([], false, l)
  | S more =>
      match (if (1 <=? more)%nat then read_separator ":" index read_ipv4_addr l else None) with
      | Some (octets, l) => (embedded_groups octets, true, l)
      | None =>
          match read_separator ":" index (read_number 16 65535 4 true) l with
          | Some (g, l) => let '(gs, v4, l) := read_groups (S index) more l in (g :: gs, v4, l)
          | None => ([], false, l)
          end
      end
  end.

Definition read_ipv6_addr (l : list ascii) : option (list N * list ascii) :=
  let '(groups, v4, l) := read_groups 0 8 l in
  if (length groups =? 8)%nat then Some (groups, l)
  else if v4 then None
  else
    l ← read_given_char ":" l;
    l ← read_given_char ":" l;
    let '(tail, _, l) := read_groups 0 (8 - (length groups + 1)) l in
    Some ((groups ++ replicate (8 - length groups - length tail) 0%N ++ tail)%list, l).

(** [str::parse::<IpAddr>]: all of the text. *)
Definition parse_ip (s : string) : option IpAddr :=
  let l := String.list_ascii_of_string s in
  let r := match read_ipv4_addr l with
           | Some (o, l) => Some (V4 o, l)
           | None => '(g, l) ← read_ipv6_addr l; Some (V6 g, l)
           end in
  match r with Some (ip, []) => Some ip | _ => None end.

Definition is_loopback (ip : IpAddr) : bool :=
  match ip with
  | V4 octets => bool_decide (head octets = Some 127%N)
  | V6 groups => bool_decide (groups = [0; 0; 0; 0; 0; 0; 0; 1]%N)
  end.

Definition is_bracket (c : ascii) : bool := bool_decide (c = "["%char) || bool_decide (c = "]"%char).
Fixpoint drop_while (p : ascii -> bool) (l : list ascii) : list ascii :=
  match l with c :: l' => if p c then drop_while p l' else l | [] => [] end.
(** [trim_matches(['[', ']'])]. *)
Definition trim_brackets (s : string) : string :=
  String.string_of_list_ascii (rev (drop_while is_bracket (rev (drop_while is_bracket (String.list_ascii_of_string s))))).

Definition is_loopback_addr (listen : string) : bool :=
  let host := match rsplit_once ":" listen with Some (h, _) => trim_brackets h | None => listen end in
  bool_decide (host = "localhost") || from_option is_loopback false (parse_ip host).

(** ** The command line *)

Record GwOptions := mkGwOptions {
  go_socket : string; go_listen : string; go_auth_token : option string; go_devices_file : option string }.

Inductive GwOption := OptSocket | OptListen | OptAuthToken | OptDevicesFile.
Definition option_flag (o : GwOption) : string :=
  match o with
  | OptSocket => "--socket" | OptListen => "--listen" | OptAuthToken => "--auth-token" | OptDevicesFile => "--devices-file"
  end.
Definition GW_OPTIONS : list GwOption := [OptSocket; OptListen; OptAuthToken; OptDevicesFile].
Definition set_option (o : GwOption) (v : string) (g : GwOptions) : GwOptions :=
  match o with
  | OptSocket => mkGwOptions v g.(go_listen) g.(go_auth_token) g.(go_devices_file)
  | OptListen => mkGwOptions g.(go_socket) v g.(go_auth_token) g.(go_devices_file)
  | OptAuthToken => mkGwOptions g.(go_socket) g.(go_listen) (Some v) g.(go_devices_file)
  | OptDevicesFile => mkGwOptions g.(go_socket) g.(go_listen) g.(go_auth_token) (Some v)
  end.

(** [--x v] and [--x=v]. *)
Definition named_option (a : string) : option GwOption :=
  head (List.filter (fun o => bool_decide (a = option_flag o)) GW_OPTIONS).
Definition assigned_option (a : string) : option (GwOption * string) :=
  head (omap (fun o => (fun v => (o, v)) <$> strip_prefix (option_flag o +:+ "=") a) GW_OPTIONS).

Inductive MainAction :=
  | Serve (g : GwOptions) (loopback : bool)
  | Help
  | UnknownArgument (a : string)
  | RefuseListen
  | DeviceCommand (args : list string).

(** The other outcome is the argument that was not understood, or the request for
    help. *)
Fixpoint gw_args (args : list string) (g : GwOptions) : GwOptions + option string :=
  match args with
  | [] => inl g
  | a :: rest =>
      let other := inr (if bool_decide (a = "-h") || bool_decide (a = "--help") then None else Some a) in
      match named_option a, assigned_option a, rest with
      | _, Some (o, v), _ => gw_args rest (set_option o v g)
      | Some o, None, v :: rest => gw_args rest (set_option o v g)
      | _, None, _ => other
      end
  end.

Definition check_listen (g : GwOptions) : MainAction :=
  if negb (is_loopback_addr g.(go_listen)) && bool_decide (g.(go_auth_token) = None) && bool_decide (g.(go_devices_file) = None)
  then RefuseListen else Serve g (is_loopback_addr g.(go_listen)).

(** [main] up to [serve]; the two variables come from the environment. *)
Definition gw_main (env_token env_devices : option string) (args : list string) : MainAction :=
  if bool_decide (head args = Some "device") then DeviceCommand (tail args)
  else
    match gw_args args (mkGwOptions "/tmp/agentd/control.sock" "127.0.0.1:7740" env_token env_devices) with
    | inr None => Help
    | inr (Some a) => UnknownArgument a
    | inl g => check_listen g
    end.

(** ** The check of a request *)

(** The authorization header when it is visible ASCII. *)
Record HttpRequest := mkHttpRequest { rq_path : string; rq_query : option string; rq_authorization : option string }.

Record GwAuth := mkGwAuth { ga_auth_token : option string; ga_devices_file : option (list string); ga_loopback : bool }.

Inductive AuthDecision := Admit (caller : string) | Unauthorized | RegistryUnavailable (message : string).

Definition SSE_PATH : string := "/api/events/subscribe".

Definition query_token (q : string) : option string := head (omap (strip_prefix "token=") (split_on "&" q)).

Definition bearer (req : HttpRequest) : option string :=
  match req.(rq_authorization) ≫= strip_prefix "Bearer " with
  | Some t => Some t
  | None => if bool_decide (req.(rq_path) = SSE_PATH) then req.(rq_query) ≫= query_token else None
  end.

Section Auth.
Context `{!Ext} `{!DeviceJson}.

Definition device_caller (faults : IoFaults) (fs : Files) (st : GwAuth) (token : string) : Io (option string) :=
  match st.(ga_devices_file) with Some f => authenticate faults f token fs | None => IoOk None end.

Definition admit_device (r : Io (option string)) : AuthDecision :=
  match r with
  | IoOk (Some id) => Admit id
  | IoOk None => Unauthorized
  | IoErr e => RegistryUnavailable ("device registry unavailable: " +:+ e)
  end.

Definition require_auth (faults : IoFaults) (fs : Files) (st : GwAuth) (req : HttpRequest) : AuthDecision :=
  match st.(ga_auth_token), st.(ga_devices_file), bearer req with
  | Some expected, _, Some t =>
      if bool_decide (t = expected) then Admit "admin" else admit_device (device_caller faults fs st t)
  | Some _, _, None => Unauthorized
  | None, Some _, Some t => admit_device (device_caller faults fs st t)
  | None, Some _, None => if st.(ga_loopback) then Admit "local" else Unauthorized
  | None, None, _ => if st.(ga_loopback) then Admit "local" else Unauthorized
  end.

(** What entitles a request to act as [caller]. *)
Inductive entitled (fs : Files) (st : GwAuth) (req : HttpRequest) : string -> Prop :=
  | entitled_admin t : st.(ga_auth_token) = Some t -> bearer req = Some t -> entitled fs st req "admin"
  | entitled_device f reg id e t : st.(ga_devices_file) = Some f -> bearer req = Some t ->
      st.(ga_auth_token) <> Some t -> holds f fs reg -> reg.(dr_devices) !! id = Some e -> e.(de_enabled) = true ->
      e.(de_token_hash) = token_hash t -> entitled fs st req id
  | entitled_local : st.(ga_loopback) = true -> st.(ga_auth_token) = None ->
      bearer req = None \/ st.(ga_devices_file) = None -> entitled fs st req "local".

(** The state that [serve] builds from the options. *)
Definition gw_auth (g : GwOptions) (loopback : bool) : GwAuth :=
  mkGwAuth g.(go_auth_token) (components <$> g.(go_devices_file)) loopback.
End Auth.

(** ** Examples *)

Example loopback_v4 : is_loopback_addr "127.0.0.1:7740" = true.
Proof. reflexivity. Qed.
Example loopback_v6 : is_loopback_addr "[::1]:80" = true /\ is_loopback_addr "[0:0:0:0:0:0:0:1]:80" = true.
Proof. split; reflexivity. Qed.
Example not_loopback :
  is_loopback_addr <$> ["0.0.0.0:80"; "[::]:80"; "[::ffff:127.0.0.1]:80"; "127.1:80"; "127.0.0.01:80"; "192.168.0.1:80"; "example.org:80"]
  = replicate 7 false.
Proof. reflexivity. Qed.
Example embedded_v4 : parse_ip "::ffff:1.2.3.4" = Some (V6 [0; 0; 0; 0; 0; 65535; 258; 772]%N).
Proof. reflexivity. Qed.

(** ** Theorems *)

Section Theorems.
Context `{!Ext} `{!DeviceJson}.

Lemma admit_device_inv r c : admit_device r = Admit c -> r = IoOk (Some c).
Proof. by destruct r as [[id|]|]; intros [= ->]. Qed.

(** The check admits a request exactly as a caller it is entitled to be. *)
Lemma require_auth_sound faults fs st req caller : require_auth faults fs st req = Admit caller -> entitled fs st req caller.
Proof.
  unfold require_auth, device_caller.
  assert (Hdev : forall t, bearer req = Some t -> ga_auth_token st <> Some t ->
    admit_device (match ga_devices_file st with Some f => authenticate faults f t fs | None => IoOk None end) = Admit caller ->
    entitled fs st req caller).
  { intros t Hb Ht Ha%admit_device_inv. destruct (ga_devices_file st) as [f|] eqn:Ef; [|done].
    destruct (authenticate_exact _ _ _ _ _ Ha) as (reg & Hh & e & ? & ? & ?). by eapply entitled_device. }
  destruct (ga_auth_token st) as [expected|] eqn:Ea, (bearer req) as [t|] eqn:Eb; try done.
  - case_bool_decide as Ht; [|apply Hdev; congruence]. intros [= <-]. subst t. by eapply entitled_admin.
  - destruct (ga_devices_file st) as [f|] eqn:Ef.
    + intros Ha. by apply (Hdev t).
    + destruct (ga_loopback st) eqn:El; [|done]. intros [= <-]. apply entitled_local; [done|done|by right].
  - destruct (ga_devices_file st) as [f|], (ga_loopback st) eqn:El; try done; intros [= <-];
      (apply entitled_local; [done|done|by left]).
Qed.

(** A master token is recognised whatever the registry says; a device that
    matches is admitted when the registry can be read. *)
Lemma require_auth_complete faults fs st req caller : entitled fs st req caller ->
  (io_read faults = None -> exists c, require_auth faults fs st req = Admit c /\ entitled fs st req c).
Proof.
  intros He Hio. unfold require_auth, device_caller. destruct He as [t Ha Hb|f reg id e t Hf Hb Ht Hh He Hen Hhash|Hl Ha Hor].
  - rewrite Ha, Hb. rewrite bool_decide_eq_true_2 by done. eexists. split; [done|]. by eapply entitled_admin.
  - assert (exists c, authenticate faults f t fs = IoOk (Some c) /\ entitled fs st req c) as (c & Hc & Hec).
    { unfold holds in Hh. assert (Hld : load faults f fs = IoOk reg) by (unfold load in *; simpl in Hh; by rewrite Hio).
      destruct (authenticate faults f t fs) as [[c|]|] eqn:E.
      - exists c. split; [done|]. destruct (authenticate_exact _ _ _ _ _ E) as (reg' & ? & e' & ? & ? & ?). by eapply entitled_device.
      - destruct (authenticate_exact _ _ _ _ _ E) as (reg' & Hh' & Hnone). exfalso. eapply (Hnone id e); [|done|done].
        assert (reg' = reg) as -> by (unfold holds in Hh'; congruence). done.
      - unfold authenticate in E. by rewrite Hld in E. }
    rewrite Hf, Hb, Hc. exists c. split; [|done]. destruct (ga_auth_token st) as [x|]; [|done].
    rewrite bool_decide_eq_false_2 by congruence. done.
  - rewrite Ha, Hl. exists "local". split; [|by apply entitled_local].
    destruct Hor as [Hb|Hf]; [rewrite Hb; by destruct (ga_devices_file st)|by rewrite Hf].
Qed.

(** On the configuration the gateway was started with, a request over a
    listener that is not the loopback reaches a handler only with a bearer
    token that is the configured master token, and then as [admin], or that
    hashes to the stored hash of a device that is enabled in the registry file
    as it is at that moment, and then as that device; the gateway does not start
    on such a listener with neither a token nor a registry. *)
Theorem remote_requests_authenticated env_token env_devices args g :
  gw_main env_token env_devices args = Serve g false ->
  (g.(go_auth_token) <> None \/ g.(go_devices_file) <> None) /\
  forall faults fs req caller, require_auth faults fs (gw_auth g false) req = Admit caller ->
  exists token, bearer req = Some token /\
    (caller = "admin" /\ g.(go_auth_token) = Some token \/
     exists file reg e, g.(go_devices_file) = Some file /\ holds (components file) fs reg /\
       reg.(dr_devices) !! caller = Some e /\ e.(de_enabled) = true /\ e.(de_token_hash) = token_hash token).
Proof.
  intros Hm. split.
  - revert Hm. unfold gw_main, check_listen. case_bool_decide; [done|]. destruct (gw_args _ _) as [g'|[]]; [|done|done].
    destruct (is_loopback_addr _) eqn:El; simpl; [by intros [= -> ?]|].
    case_bool_decide as Ht; [case_bool_decide as Hd; [done|]|]; simpl; intros [= <-]; [by right|by left].
  - intros faults fs req caller [t Ha Hb|f reg id e t Hf Hb Ht Hh He Hen Hhash|Hl _ _]%require_auth_sound; [| |done].
    + exists t. split; [done|]. by left.
    + exists t. split; [done|]. right. simpl in Hf. destruct (go_devices_file g) as [file|]; [|done]. injection Hf as <-. by exists file, reg, e.
Qed.
End Theorems.
