(* ===== verification/GatewayText.v ===== *)
(** * Base64 in the gateway ([agentgw/src/main.rs])

    The gateway has an encoder and a strict decoder of its own, beside those of
    the worker ([LoopFeed]): both encoders agree, and the strict decoder accepts
    exactly the well-padded part of what the worker's accepts, with the same
    result. *)

From S2P Require Import Prelude Domain Ids Text Models StoreBase LoopFeed.

Open Scope N_scope.

(** [chunks(n)]: the last chunk may be shorter. *)
Fixpoint chunks_from {A} (fuel : nat) (n : nat) (l : list A) : list (list A) :=
  match fuel, l with
  | S fuel, _ :: _ => take n l :: chunks_from fuel n (drop n l)
  | _, _ => []
  end.
Definition chunks {A} (n : nat) (l : list A) : list (list A) := chunks_from (length l) n l.

Definition byte_at (chunk : bytes) (i : nat) : N := from_option Byte.to_N 0 (chunk !! i).

Definition encode_chunk (chunk : bytes) : string :=
  let n := N.lor (N.lor (N.shiftl (byte_at chunk 0) 16) (N.shiftl (byte_at chunk 1) 8)) (byte_at chunk 2) in
  String (table_char (N.land (N.shiftr n 18) 63))
    (String (table_char (N.land (N.shiftr n 12) 63))
      (String (if (1 <? length chunk)%nat then table_char (N.land (N.shiftr n 6) 63) else "="%char)
        (String (if (2 <? length chunk)%nat then table_char (N.land n 63) else "="%char) EmptyString))).

Definition b64_encode (input : bytes) : string := foldr (fun chunk out => encode_chunk chunk +:+ out) EmptyString (chunks 3 input).

(** [s.bytes().rev().take_while(|b| *b == b'=').count()]. *)
Fixpoint leading_pads (l : list ascii) : nat :=
  match l with c :: l => if not_pad c then O else S (leading_pads l) | [] => O end.

(** The accumulator of a chunk: [T] gives each character its value, or stops. *)
Fixpoint accumulate (acc : N) (chunk : list ascii) : option N :=
  match chunk with
  | [] => Some acc
  | c :: chunk => v ← base64_value c; accumulate (N.lor (N.shiftl acc 6) v) chunk
  end.

Definition decode_chunk (chunk : list ascii) : option bytes :=
  acc ← accumulate 0 chunk;
  let n := N.of_nat (length chunk) in
  if n <? 2 then None
  else
    let acc := N.shiftl acc (6 * (4 - n)) in
    Some ([byte_of (N.shiftr acc 16)] ++ (if 2 <? n then [byte_of (N.shiftr acc 8)] else []) ++
          (if 3 <? n then [byte_of acc] else []))%list.

Fixpoint decode_all (l : list (list ascii)) : option bytes :=
  match l with [] => Some [] | c :: l => x ← decode_chunk c; rest ← decode_all l; Some (x ++ rest)%list end.

Definition b64_decode (s : string) : option bytes :=
  let l := String.list_ascii_of_string s in
  let padding := leading_pads (rev l) in
  if (2 <? padding)%nat then None
  else
    let body := take (length l - padding) l in
    if negb (forallb not_pad body) then None
    else if negb (length l mod 4 =? 0)%nat then None
    else decode_all (chunks 4 body).

(** ** Agreement *)

Lemma chunks_from_fuel {A} n (l : list A) f g : (0 < n)%nat -> (length l <= f)%nat -> (length l <= g)%nat ->
  chunks_from f n l = chunks_from g n l.
Proof.
  intros Hn. revert f g l. induction f as [|f IH]; intros [|g] [|x l] Hf Hg; simpl in *; try done; try lia.
  f_equal. apply IH; rewrite length_drop; simpl; lia.
Qed.

Lemma chunks_cons {A} n (l : list A) : (0 < n)%nat -> l <> [] -> chunks n l = take n l :: chunks n (drop n l).
Proof.
  intros Hn Hl. destruct l as [|x l]; [done|]. unfold chunks. cbn [length chunks_from].
  f_equal. apply chunks_from_fuel; [done|rewrite length_drop; simpl; lia|done].
Qed.

Lemma b64_encode_agrees l : b64_encode l = base64_encode l.
Proof.
  unfold b64_encode. induction l as [l IH] using (well_founded_induction (well_founded_ltof _ (@length Byte.byte))). unfold ltof in IH.
  destruct l as [|a [|b [|c l]]]; [done|..]; (rewrite chunks_cons; [|lia|done]); cbn [take drop foldr]; [done|done|].
  change (drop 0 l) with l; rewrite (IH l) by (simpl; lia). cbn [base64_encode]. unfold encode_chunk, sextet, pack_bytes, byte_at. cbn [lookup list_lookup from_option length].
  by rewrite N.shiftr_0_r.
Qed.

(** The accumulator, shifted to 24 bits, is the packed group. *)
Lemma shifted_group a b c d :
  N.shiftl (N.lor (N.shiftl (N.lor (N.shiftl 0 6) a) 6) b) 12 = pack_sextets a b 0 0 /\
  N.shiftl (N.lor (N.shiftl (N.lor (N.shiftl (N.lor (N.shiftl 0 6) a) 6) b) 6) c) 6 = pack_sextets a b c 0 /\
  N.shiftl (N.lor (N.shiftl (N.lor (N.shiftl (N.lor (N.shiftl (N.lor (N.shiftl 0 6) a) 6) b) 6) c) 6) d) 0 = pack_sextets a b c d.
Proof.
  unfold pack_sextets. rewrite !N.shiftl_0_r, !N.shiftl_0_l, !N.lor_0_l, !N.lor_0_r, ?N.shiftl_lor, ?N.shiftl_shiftl. done.
Qed.

Lemma decode_chunk_agrees chunk : (length chunk <= 4)%nat -> chunk <> [] -> decode_chunk chunk = decode_chunks chunk.
Proof.
  intros Hlen Hne. unfold decode_chunk.
  destruct chunk as [|a [|b [|c [|d [|? ?]]]]]; cbn [length] in Hlen |- *; try done; try lia; cbn [accumulate decode_chunks].
  all: destruct (base64_value a) as [x|]; cbn [mbind option_bind]; [|done].
  all: try (destruct (base64_value b) as [y|]; cbn [mbind option_bind]; [|done]).
  all: try (destruct (base64_value c) as [z|]; cbn [mbind option_bind]; [|done]).
  all: try (destruct (base64_value d) as [u|]; cbn [mbind option_bind]; [|done]).
  - done.
  - change (6 * (4 - N.of_nat 2)) with 12. by rewrite (proj1 (shifted_group x y 0 0)).
  - change (6 * (4 - N.of_nat 3)) with 6. by rewrite (proj1 (proj2 (shifted_group x y z 0))).
  - change (6 * (4 - N.of_nat 4)) with 0. by rewrite (proj2 (proj2 (shifted_group x y z u))).
Qed.

Lemma decode_chunks_drop l : (4 <= length l)%nat ->
  decode_chunks l = (x ← decode_chunks (take 4 l); rest ← decode_chunks (drop 4 l); Some (x ++ rest)%list).
Proof.
  intros Hl. destruct l as [|a [|b [|c [|d l]]]]; simpl in Hl; try lia. change (drop 4 (a :: b :: c :: d :: l)) with l. change (take 4 (a :: b :: c :: d :: l)) with [a; b; c; d].
  cbn [decode_chunks].
  destruct (base64_value a), (base64_value b), (base64_value c), (base64_value d); cbn [mbind option_bind]; done.
Qed.

Lemma decode_all_agrees l : decode_all (chunks 4 l) = decode_chunks l.
Proof.
  induction l as [l IH] using (well_founded_induction (well_founded_ltof _ (@length ascii))). unfold ltof in IH.
  destruct (decide (l = [])) as [->|Hne]; [done|]. rewrite chunks_cons by (done || lia). cbn [decode_all].
  assert (0 < length l)%nat by (destruct l; simpl; [done|lia]).
  rewrite IH by (rewrite length_drop; lia). destruct (decide (4 <= length l)%nat) as [H4|H4].
  - rewrite decode_chunk_agrees, (decode_chunks_drop l) by (rewrite ?length_take; try lia; by destruct l). done.
  - rewrite take_ge, drop_ge by lia. rewrite decode_chunk_agrees by (done || lia). cbn [decode_chunks].
    destruct (decode_chunks l); cbn; [by rewrite app_nil_r|done].
Qed.

(** ** Padding *)

Definition ends_padded (l : list ascii) : Prop :=
  exists body k, l = (body ++ replicate k "="%char)%list /\ forallb not_pad body = true /\ (k <= 2)%nat /\ (length l mod 4 = 0)%nat.

Lemma not_pad_eq c : not_pad c = false <-> c = "="%char.
Proof. unfold not_pad. rewrite negb_false_iff. apply bool_decide_eq_true. Qed.

Lemma filter_pads body k : forallb not_pad body = true -> List.filter not_pad (body ++ replicate k "="%char) = body.
Proof.
  intros Hb. rewrite List.filter_app. replace (List.filter not_pad (replicate k "="%char)) with (@nil ascii) by (by induction k).
  rewrite app_nil_r. induction body as [|c body IH]; [done|]. simpl in *. apply andb_prop in Hb as [-> Hb]. by rewrite IH.
Qed.

Lemma leading_pads_spec l : exists rest, l = (replicate (leading_pads l) "="%char ++ rest)%list /\
  match rest with c :: _ => not_pad c = true | [] => True end.
Proof.
  induction l as [|c l (rest & E & Hr)]; [by exists []|]. simpl. destruct (not_pad c) eqn:Hc; [by exists (c :: l)|].
  apply not_pad_eq in Hc as ->. exists rest. split; [|done]. simpl. by rewrite <- E.
Qed.

Lemma leading_pads_app k rest : match rest with c :: _ => not_pad c = true | [] => True end ->
  leading_pads (replicate k "="%char ++ rest) = k.
Proof. intros Hr. induction k as [|k IH]; simpl; [destruct rest; [done|]; simpl; by rewrite Hr|by rewrite IH]. Qed.

Lemma rev_replicate_pad k : rev (replicate k "="%char) = replicate k "="%char.
Proof. induction k as [|k IH]; [done|]. simpl. by rewrite IH, <- replicate_cons_app. Qed.

(** On padded text the strict decoder is the permissive one. *)
Lemma b64_decode_padded s : ends_padded (String.list_ascii_of_string s) -> b64_decode s = base64_decode s.
Proof.
  intros (body & k & E & Hb & Hk & Hlen). unfold b64_decode, base64_decode. rewrite E in *. change (fun c => negb (bool_decide (c = "="%char))) with not_pad.
  rewrite filter_pads by done.
  assert (Hp : leading_pads (rev (body ++ replicate k "="%char)) = k).
  { rewrite rev_app_distr, rev_replicate_pad. apply leading_pads_app. destruct (rev body) as [|c r] eqn:Er; [done|].
    rewrite forallb_forall in Hb. apply Hb. apply in_rev. rewrite Er. by left. }
  rewrite Hp. destruct (Nat.ltb_spec 2 k); [lia|]. rewrite length_app, length_replicate in *.
  replace (length body + k - k)%nat with (length body) by lia. rewrite take_app_length, Hb. cbn [negb].
  rewrite Hlen. apply decode_all_agrees.
Qed.

Lemma b64_decode_strict s x : b64_decode s = Some x -> ends_padded (String.list_ascii_of_string s).
Proof.
  unfold b64_decode. set (l := String.list_ascii_of_string s). destruct (Nat.ltb_spec 2 (leading_pads (rev l))); [done|].
  destruct (forallb not_pad (take _ l)) eqn:Hb; [|done]. cbn [negb]. destruct (Nat.eqb_spec (length l mod 4) 0); [|done]. intros _.
  destruct (leading_pads_spec (rev l)) as (rest & E & _). set (k := leading_pads (rev l)) in *.
  apply (f_equal (@rev ascii)) in E. rewrite rev_involutive, rev_app_distr, rev_replicate_pad in E.
  exists (rev rest), k. split_and!; [done| |done|done]. rewrite E, length_app, length_replicate in Hb.
  by rewrite Nat.add_sub, take_app_length in Hb.
Qed.

Lemma encoded_padded l : ends_padded (String.list_ascii_of_string (base64_encode l)).
Proof.
  induction l as [l IH] using (well_founded_induction (well_founded_ltof _ (@length Byte.byte))). unfold ltof in IH.
  destruct l as [|a [|b [|c l]]]; [exists [], O; split_and!; (done || lia)|..].
  - eexists [_; _], 2%nat. split_and!; [done| |lia|done]. cbn [forallb]. by rewrite !sextet_not_pad.
  - eexists [_; _; _], 1%nat. split_and!; [done| |lia|done]. cbn [forallb]. by rewrite !sextet_not_pad.
  - destruct (IH l) as (body & k & E & Hb & Hk & Hlen); [simpl; lia|]. cbn [base64_encode String.list_ascii_of_string].
    eexists (_ :: _ :: _ :: _ :: body), k. split_and!; [cbn [app]; by rewrite E| |done|].
    + cbn [forallb]. by rewrite !sextet_not_pad.
    + cbn [length]. replace (S (S (S (S (length (String.list_ascii_of_string (base64_encode l)))))))%nat
        with (length (String.list_ascii_of_string (base64_encode l)) + 1 * 4)%nat by lia.
      by rewrite Nat.Div0.mod_add.
Qed.

(** Bytes encoded by the gateway decode to themselves; its encoder is the
    worker's; and its decoder accepts a text exactly when it is a text without
    padding characters followed by at most two of them, in groups of four, that
    the worker's permissive decoder accepts, with the same bytes. *)
Theorem gateway_base64_agrees :
  (forall l, b64_decode (b64_encode l) = Some l) /\
  (forall l, b64_encode l = base64_encode l) /\
  (forall s x, b64_decode s = Some x <-> ends_padded (String.list_ascii_of_string s) /\ base64_decode s = Some x).
Proof.
  split_and!; [|apply b64_encode_agrees|].
  - intros l. rewrite b64_encode_agrees, b64_decode_padded by apply encoded_padded. apply base64_roundtrip.
  - intros s x. split.
    + intros E. pose proof (b64_decode_strict _ _ E). split; [done|]. by rewrite <- b64_decode_padded.
    + intros [Hp E]. by rewrite b64_decode_padded.
Qed.
