(* ===== verification/Gateway.v ===== *)
(** * The commands of the gateway ([agentgw/src/main.rs])

    Every POST handler turns a JSON body into one command of the control API,
    under a key and a digest derived from its content, and remembers the
    entities it created in an index of its own, which it writes to a file. *)

From S2P Require Import Prelude Domain Ids Text Models StoreBase Store Ledger Effects Kernel RunServices Coordinator Approvals Recovery.
From S2P Require Import Config LoopFeed Planning Resolver Views ApiAuth ControlApi Devices GatewayAuth GatewayText.

Open Scope string_scope.
Open Scope Z_scope.

(** ** Responses *)

Record Response := mkResponse { rs_status : Z; rs_body : Value }.

Definition error_body (message : string) : Value := VObject [("error", VString message)].
Definition json_ok (v : Value) : Response := mkResponse 200 v.
Definition bad_req (message : string) : Response := mkResponse 400 (error_body message).
Definition unauthorized : Response := mkResponse 401 (error_body "unauthorized").
Definition gw_err (message : string) : Response := mkResponse 502 (error_body message).

(** Requests to the daemon: the contract encoders, and the text of a [Status]. *)
Class GatewayCodec := {
  encode_create_session : CreateSessionMsg -> bytes;
  encode_put_agent_spec_revision : PutAgentSpecRevisionMsg -> bytes;
  encode_create_task_run_msg : CreateTaskRunMsg -> bytes;
  encode_cancel_run : CancelRunMsg -> bytes;
  encode_resolve_unknown_effect : ResolveUnknownEffectMsg -> bytes;
  status_text : Status -> string }.

(** What becomes of one call over the socket. *)
Inductive Transport := Delivered | NotSent (s : Status) | ReplyLost (s : Status).

Definition call_daemon {A S} (t : Transport) (m : S -> Reply A * S) (w : S) : Reply A * S :=
  match t with
  | NotSent s => (Refusal s, w)
  | Delivered => m w
  | ReplyLost s => (Refusal s, snd (m w))
  end.

(** ** The index *)

Record SpecRef := mkSpecRef {
  sr_agent_spec_id : string; sr_version : string; sr_digest : string; sr_display_name : string; sr_profile : string }.
Record TaskRef := mkTaskRef { tr_task_id : string; tr_session_id : string }.
Record RunRef := mkRunRef { rr_run_id : string; rr_task_id : string; rr_session_id : string }.
Record Index := mkIndex {
  ix_sessions : list string; ix_tasks : list TaskRef; ix_runs : list RunRef; ix_specs : list SpecRef }.
Definition default_index : Index := mkIndex [] [] [] [].

Class IndexJson := { index_to_json : Index -> bytes; index_from_json : string -> option Index }.

Definition MAX_INDEX_ENTRIES : nat := 10000.

Definition index_push {A} (item : A) (v : list A) : list A :=
  if (length v <? MAX_INDEX_ENTRIES)%nat then (v ++ [item])%list else v.

(** [std::fs::write] to the index file: complete, refused, or cut off. *)
Inductive IndexWrite := WriteDone | WriteRefused | WriteTorn (content : bytes).

Record AppState := mkAppState {
  as_service : ControlApiService;
  as_creds : option PeerCreds;
  as_index_path : list string;
  as_auth : GwAuth;
  as_runtime_dir : string;
  as_local_device_id : string }.

(** The gateway while it runs, with the kernel behind the socket. *)
Record Gateway := mkGateway { gw_world : World; gw_index : Index; gw_files : Files; gw_drawn : nat }.

Section Index.
Context `{!IndexJson}.

Definition load_index (readable : bool) (path : list string) (fs : Files) : Index :=
  from_option (fun i => i) default_index
    (if readable then content ← fs !! path; s ← from_utf8 content; index_from_json s else None).

Definition remember (st : AppState) (write : IndexWrite) (f : Index -> Index) (g : Gateway) : Gateway :=
  let index := f g.(gw_index) in
  mkGateway g.(gw_world) index
    (match write with
     | WriteDone => <[st.(as_index_path) := index_to_json index]> g.(gw_files)
     | WriteRefused => g.(gw_files)
     | WriteTorn content => <[st.(as_index_path) := content]> g.(gw_files)
     end) g.(gw_drawn).

Definition push_session (session_id : string) (i : Index) : Index :=
  if bool_decide (session_id ∈ i.(ix_sessions)) then i
  else mkIndex (index_push session_id i.(ix_sessions)) i.(ix_tasks) i.(ix_runs) i.(ix_specs).

Definition push_spec (s : SpecRef) (i : Index) : Index :=
  if existsb (fun x => bool_decide (x.(sr_agent_spec_id) = s.(sr_agent_spec_id)) && bool_decide (x.(sr_version) = s.(sr_version)))
       i.(ix_specs) then i
  else mkIndex i.(ix_sessions) i.(ix_tasks) i.(ix_runs) (index_push s i.(ix_specs)).

Definition push_task (t : TaskRef) (i : Index) : Index :=
  if existsb (fun x => bool_decide (x.(tr_task_id) = t.(tr_task_id))) i.(ix_tasks) then i
  else mkIndex i.(ix_sessions) (index_push t i.(ix_tasks)) i.(ix_runs) i.(ix_specs).

Definition push_run (r : RunRef) (i : Index) : Index :=
  if existsb (fun x => bool_decide (x.(rr_run_id) = r.(rr_run_id))) i.(ix_runs) then i
  else mkIndex i.(ix_sessions) i.(ix_tasks) (index_push r i.(ix_runs)) i.(ix_specs).
End Index.

(** ** Commands *)

Definition accepted (r : CommandResponse) : Value :=
  VObject [("status", VString "accepted"); ("command_id", VString r.(cs_command_id)); ("outcome_code", VString r.(cs_outcome_code))].

(** [body.get(key).and_then(as_str)], empty by default. *)
Definition body_string (key : string) (body : Value) : string := from_option (fun s => s) "" (get_str key body).

Definition req_string (key : string) (body : Value) : string + Response :=
  match get_str key body with
  | Some s => if str_is_empty s then inr (bad_req ("missing required field " +:+ key)) else inl s
  | None => inr (bad_req ("missing required field " +:+ key))
  end.
Notation "'need!' x ':=' r 'at' g 'in' k" :=
  (match r with inl x => k | inr res => (res, g) end) (at level 10, x binder, r at level 200, g at level 200, k at level 200).

(** [Value::as_u64]. *)
Definition as_u64 (v : Value) : option Z := match v with VNumber repr => parse_unsigned u64_max repr | _ => None end.
Definition get_u64 (key : string) (v : Value) : option Z := get_field key v ≫= as_u64.
(** [v as i32]. *)
Definition u64_as_i32 (z : Z) : Z := (z + 2147483648) mod 4294967296 - 2147483648.

Section Commands.
Context `{!Ext} `{!SerdeJson} `{!GatewayHost} `{!GatewayCodec} `{!IndexJson} `{!ResponseCodec}.
Context (st : AppState).

Definition sha256_hex (b : bytes) : string := hex_lower (sha256 b).

Definition gw_draw (g : Gateway) : Uuid * Gateway :=
  (gw_uuid g.(gw_drawn), mkGateway g.(gw_world) g.(gw_index) g.(gw_files) (S g.(gw_drawn))).

(** The text the digest is taken of. *)
Definition digest_input (command_type : string) (payload : bytes) : bytes :=
  (into_bytes command_type ++ [Byte.x0a] ++ payload)%list.

Definition gateway_key (key : string) : string :=
  match idempotency_key_new key with Some k => k | None => "key-" +:+ sha256_hex (into_bytes key) end.

(** The actor the gateway names is ignored by the daemon, as is the device. *)
Definition envelope (command_type : string) (payload : bytes) (key : string) (g : Gateway) : CommandRequest * Gateway :=
  let '(command_id, g) := gw_draw g in
  let '(_, g) := gw_draw g in
  (mkCommandRequest (uuid_hyphenated command_id) (gateway_key key) "" (sha256_hex (digest_input command_type payload)) "" "" 0
     command_type payload, g).

Definition with_world (w : World) (g : Gateway) : Gateway := mkGateway w g.(gw_index) g.(gw_files) g.(gw_drawn).

Definition submit (t : Transport) (command_type : string) (payload : bytes) (key : string) (g : Gateway)
    : (Value + Response) * Gateway :=
  let '(request, g) := envelope command_type payload key g in
  let '(reply, w) := call_daemon t (submit_command st.(as_service) st.(as_creds) request) g.(gw_world) in
  (match reply with Answer r => inl (accepted r) | Refusal s => inr (gw_err (status_text s)) end, with_world w g).

Definition id_or_fresh (key : string) (body : Value) (g : Gateway) : string * Gateway :=
  let v := body_string key body in
  if str_is_empty v then let '(u, g) := gw_draw g in (uuid_hyphenated u, g) else (v, g).

Definition session_command (session_id : string) (body : Value) : string * bytes * string :=
  ("agentos.spec.v1.CreateSession",
   encode_create_session (mkCreateSessionMsg session_id (into_bytes (body_string "metadata" body))),
   "session." +:+ session_id).

Definition api_create_session (t : Transport) (write : IndexWrite) (body : Value) (g : Gateway) : Response * Gateway :=
  let '(session_id, g) := id_or_fresh "session_id" body g in
  let '(command_type, payload, key) := session_command session_id body in
  match submit t command_type payload key g with
  | (inl v, g) => (json_ok (set_field "session_id" (VString session_id) v), remember st write (push_session session_id) g)
  | (inr r, g) => (r, g)
  end.

Definition spec_body (body : Value) : bytes + Response :=
  match get_str "body" body, get_str "body_base64" body with
  | Some text, _ => inl (into_bytes text)
  | None, Some b64 =>
      match b64_decode b64 with Some v => inl v | None => inr (bad_req "body_base64 is not valid base64") end
  | None, None => inr (bad_req "missing body or body_base64")
  end.

Definition spec_command (id version : string) (spec : bytes) : string * bytes * string :=
  ("agentos.spec.v1.PutAgentSpecRevision",
   encode_put_agent_spec_revision (mkPutAgentSpecRevisionMsg id version spec (sha256_hex spec)),
   "spec." +:+ id +:+ "." +:+ version +:+ "." +:+ sha256_hex spec).

(** [serde_json::from_slice(..).unwrap_or_default()]: null by default. *)
Definition parsed_string (key : string) (b : bytes) : string :=
  from_option (body_string key) "" (json_from_slice b).

Definition api_put_spec (t : Transport) (write : IndexWrite) (body : Value) (g : Gateway) : Response * Gateway :=
  need! id := req_string "agent_spec_id" body at g in
  need! version := req_string "version" body at g in
  need! spec := spec_body body at g in
  let '(command_type, payload, key) := spec_command id version spec in
  match submit t command_type payload key g with
  | (inl v, g) =>
      let digest := sha256_hex spec in
      let v := set_field "digest" (VString digest) (set_field "version" (VString version) (set_field "agent_spec_id" (VString id) v)) in
      (json_ok v, remember st write (push_spec (mkSpecRef id version digest (parsed_string "display_name" spec)
                                                  (parsed_string "runtime_profile_name" spec))) g)
  | (inr r, g) => (r, g)
  end.

(** The stored spec of an identifier given as text. *)
Definition stored_spec (id version : string) (d : Db) : option AgentSpecRow :=
  head (List.filter (fun row => bool_decide (uuid_hyphenated row.(AgentSpecRow.agent_spec_id) = id) &&
                                bool_decide (row.(AgentSpecRow.version) = version)) (map_to_list d.(agent_specs)).*2).

Definition spec_is (id version : string) (s : SpecRef) : bool :=
  bool_decide (s.(sr_agent_spec_id) = id) && bool_decide (s.(sr_version) = version).

(** The first matching entry gets the profile. *)
Fixpoint set_profile (id version profile : string) (l : list SpecRef) : list SpecRef :=
  match l with
  | [] => []
  | s :: l => if spec_is id version s then mkSpecRef s.(sr_agent_spec_id) s.(sr_version) s.(sr_digest) s.(sr_display_name) profile :: l
              else s :: set_profile id version profile l
  end.

Definition indexed_profile (id version : string) (i : Index) : option string :=
  s ← find (spec_is id version) i.(ix_specs);
  if str_is_empty s.(sr_profile) then None else Some s.(sr_profile).

(** The kernel database may not open. *)
Definition hydrate_spec_profile (db_opens : bool) (write : IndexWrite) (id version : string) (g : Gateway) : option string * Gateway :=
  match indexed_profile id version g.(gw_index) with
  | Some profile => (Some profile, g)
  | None =>
      let profile := if db_opens then
          from_option (fun row => parsed_string "runtime_profile_name" row.(AgentSpecRow.body)) ""
            (stored_spec id version g.(gw_world).(w_db))
        else "" in
      if str_is_empty profile then (None, g)
      else (Some profile, remember st write (fun i => mkIndex i.(ix_sessions) i.(ix_tasks) i.(ix_runs)
                                               (set_profile id version profile i.(ix_specs))) g)
  end.

Definition requested_spec (body : Value) : option VersionedRefMsg :=
  match get_str "agent_spec_id" body, get_str "spec_version" body with
  | Some id, Some version => Some (mkVersionedRefMsg id version (body_string "spec_digest" body))
  | _, _ => None
  end.

Definition requested_profile (db_opens : bool) (write : IndexWrite) (body : Value) (g : Gateway) : string * Gateway :=
  let explicit := body_string "requested_profile" body in
  if str_is_empty explicit then
    match get_str "agent_spec_id" body, get_str "spec_version" body with
    | Some id, Some version =>
        let '(p, g) := hydrate_spec_profile db_opens write id version g in (from_option (fun s => s) "" p, g)
    | _, _ => ("", g)
    end
  else (explicit, g).

Definition requested_capabilities (body : Value) : list string :=
  match get_field "requested_capabilities" body with Some (VArray l) => omap as_str l | _ => [] end.

Definition run_command (session_id task_id run_id profile : string) (body : Value) : string * bytes * string :=
  let task_kind := body_string "task_kind" body in
  ("agentos.spec.v1.CreateTaskRun",
   encode_create_task_run_msg (mkCreateTaskRunMsg task_id run_id session_id
     (if str_is_empty task_kind then "agentos.task.v1.Run" else task_kind)
     (into_bytes (body_string "task_payload" body)) (requested_spec body) (body_string "parent_run_id" body) 0 profile
     (body_string "workspace_uri" body) (requested_capabilities body) []),
   "run." +:+ run_id +:+ "." +:+ task_id).

Definition api_create_run (t : Transport) (db_opens : bool) (write1 write2 : IndexWrite) (body : Value) (g : Gateway) : Response * Gateway :=
  need! session_id := req_string "session_id" body at g in
  let '(task_id, g) := id_or_fresh "task_id" body g in
  let '(run_id, g) := id_or_fresh "run_id" body g in
  let '(profile, g) := requested_profile db_opens write1 body g in
  let '(command_type, payload, key) := run_command session_id task_id run_id profile body in
  match submit t command_type payload key g with
  | (inl v, g) =>
      (json_ok (set_field "task_id" (VString task_id) (set_field "run_id" (VString run_id) v)),
       remember st write2 (fun i => push_run (mkRunRef run_id task_id session_id) (push_task (mkTaskRef task_id session_id) i)) g)
  | (inr r, g) => (r, g)
  end.

Definition cancel_command (run_id : string) (body : Value) : string * bytes * string :=
  ("agentos.spec.v1.CancelRun",
   encode_cancel_run (mkCancelRunMsg run_id (body_string "reason" body)
     (from_option (fun z => z) 0 (get_u64 "expected_run_revision" body))),
   "cancel." +:+ run_id +:+ "." +:+ sha256_hex (json_to_vec body)).

Definition plain {A} (r : (Value + Response) * A) : Response * A :=
  match r with (inl v, g) => (json_ok v, g) | (inr r, g) => (r, g) end.

Definition api_cancel_run (t : Transport) (run_id : string) (body : Value) (g : Gateway) : Response * Gateway :=
  let '(command_type, payload, key) := cancel_command run_id body in
  plain (submit t command_type payload key g).

Definition resolve_command (effect_id action : string) (body : Value) : string * bytes * string :=
  ("agentos.spec.v1.ResolveUnknownEffect",
   encode_resolve_unknown_effect (mkResolveUnknownEffectMsg effect_id action
     (from_option u64_as_i32 8 (get_u64 "expected_effect_state" body)) (body_string "approval_request_id" body)
     (body_string "result_ref" body) (body_string "reason" body)),
   "resolve." +:+ effect_id +:+ "." +:+ action).

Definition api_resolve_effect (t : Transport) (effect_id : string) (body : Value) (g : Gateway) : Response * Gateway :=
  need! action := req_string "action" body at g in
  let '(command_type, payload, key) := resolve_command effect_id action body in
  plain (submit t command_type payload key g).

(** The device that answers is the caller's, or the gateway's own. *)
Definition responding_device (caller : option string) : string :=
  match caller with
  | None => st.(as_local_device_id)
  | Some c => if bool_decide (c = "admin") || bool_decide (c = "local") then st.(as_local_device_id) else c
  end.

Definition approval_request (caller : option string) (request_id request_digest decision : string) : ApprovalResponseRequest :=
  mkApprovalResponseRequest request_id request_digest decision "" (responding_device caller).

Definition api_respond_approval (t : Transport) (caller : option string) (body : Value) (g : Gateway) : Response * Gateway :=
  need! request_id := req_string "request_id" body at g in
  need! request_digest := req_string "request_digest" body at g in
  need! decision := req_string "decision" body at g in
  let '(reply, w) := call_daemon t (respond_approval st.(as_service) st.(as_creds)
                       (approval_request caller request_id request_digest decision)) g.(gw_world) in
  (match reply with
   | Answer status => json_ok (VObject [("status", VString status)])
   | Refusal s => gw_err (status_text s)
   end, with_world w g).
End Commands.

(** ** The index stays within its bound *)

Record index_ok (i : Index) : Prop := {
  ok_bound : (length i.(ix_sessions) <= MAX_INDEX_ENTRIES /\ length i.(ix_tasks) <= MAX_INDEX_ENTRIES /\
              length i.(ix_runs) <= MAX_INDEX_ENTRIES /\ length i.(ix_specs) <= MAX_INDEX_ENTRIES)%nat;
  ok_sessions : NoDup i.(ix_sessions);
  ok_tasks : NoDup (tr_task_id <$> i.(ix_tasks));
  ok_runs : NoDup (rr_run_id <$> i.(ix_runs));
  ok_specs : NoDup ((fun s => (s.(sr_agent_spec_id), s.(sr_version))) <$> i.(ix_specs)) }.

Lemma index_push_length {A} (x : A) l : (length l <= MAX_INDEX_ENTRIES)%nat -> (length (index_push x l) <= MAX_INDEX_ENTRIES)%nat.
Proof. intros Hl. unfold index_push. destruct (Nat.ltb_spec (length l) MAX_INDEX_ENTRIES); [|done]. rewrite length_app. cbn [length]. lia. Qed.

(** An entry whose key is not there yet keeps the keys apart. *)
Lemma index_push_NoDup {A K} (key : A -> K) (x : A) l : NoDup (key <$> l) -> key x ∉ (key <$> l) -> NoDup (key <$> index_push x l).
Proof.
  intros Hn Hx. unfold index_push. destruct (_ <? _)%nat; [|done]. rewrite fmap_app. apply list.NoDup_app. split_and!; [done| |apply NoDup_singleton].
  intros k Hk. simpl. rewrite list_elem_of_singleton. by intros ->.
Qed.

Lemma existsb_key {A K} `{!EqDecision K} (key : A -> K) (test : A -> bool) (x : A) l :
  (forall y, test y = true <-> key y = key x) -> existsb test l = false -> key x ∉ (key <$> l).
Proof.
  intros Ht He (y & Hk & Hy)%list_elem_of_fmap. apply not_true_iff_false in He. apply He. apply existsb_exists.
  exists y. split; [by apply list_elem_of_In|]. by apply Ht.
Qed.

Ltac index_push_ok := constructor; simpl; split_and?; auto using index_push_length.

Lemma push_session_ok id i : index_ok i -> index_ok (push_session id i).
Proof.
  intros [(?&?&?&?) Hs ???]. unfold push_session. case_bool_decide as Hin; [by constructor|]. index_push_ok.
  rewrite <- (list_fmap_id (index_push id _)). apply index_push_NoDup; by rewrite list_fmap_id.
Qed.

Lemma push_spec_ok s i : index_ok i -> index_ok (push_spec s i).
Proof.
  intros [(?&?&?&?) ????]. unfold push_spec. destruct (existsb _ _) eqn:E; [by constructor|]. index_push_ok.
  apply index_push_NoDup; [done|]. eapply (existsb_key (fun s => (sr_agent_spec_id s, sr_version s))); [|exact E].
  intros y. rewrite andb_true_iff, !bool_decide_eq_true. naive_solver congruence.
Qed.

Lemma push_task_ok t i : index_ok i -> index_ok (push_task t i).
Proof.
  intros [(?&?&?&?) ????]. unfold push_task. destruct (existsb _ _) eqn:E; [by constructor|]. index_push_ok.
  apply index_push_NoDup; [done|]. eapply existsb_key; [|exact E]. intros y. apply bool_decide_eq_true.
Qed.

Lemma push_run_ok r i : index_ok i -> index_ok (push_run r i).
Proof.
  intros [(?&?&?&?) ????]. unfold push_run. destruct (existsb _ _) eqn:E; [by constructor|]. index_push_ok.
  apply index_push_NoDup; [done|]. eapply existsb_key; [|exact E]. intros y. apply bool_decide_eq_true.
Qed.

Lemma set_profile_keys id version p l :
  (fun s => (s.(sr_agent_spec_id), s.(sr_version))) <$> set_profile id version p l =
  (fun s => (s.(sr_agent_spec_id), s.(sr_version))) <$> l.
Proof. induction l as [|s l IH]; [done|]. simpl. destruct (spec_is id version s); simpl; [done|f_equal; exact IH]. Qed.

Lemma set_profile_length id version p l : length (set_profile id version p l) = length l.
Proof. induction l as [|s l IH]; [done|]. simpl. destruct (spec_is id version s); simpl; [done|by rewrite IH]. Qed.

Lemma set_profile_ok id version p i : index_ok i ->
  index_ok (mkIndex i.(ix_sessions) i.(ix_tasks) i.(ix_runs) (set_profile id version p i.(ix_specs))).
Proof.
  intros [(?&?&?&?) ????]. constructor; simpl; [|done..|by rewrite set_profile_keys]. split_and!; try done.
  by rewrite set_profile_length.
Qed.

#[export] Hint Resolve push_session_ok push_spec_ok push_task_ok push_run_ok set_profile_ok : index.

(** ** Requests of the gateway are never malformed *)

(** [Uuid::now_v7] makes identifiers of version 7 whose text parses; SHA-256 has
    32 bytes. *)
Class GatewayLaws `{!Ext} `{!GatewayHost} : Prop := {
  gw_uuid_parses n : uuid_v7_from_str (uuid_hyphenated (gw_uuid n)) = Some (gw_uuid n);
  sha256_length b : length (sha256 b) = 32%nat }.

Section Laws.
Context `{!Ext} `{!SerdeJson} `{!GatewayHost} `{!GatewayCodec} `{!IndexJson} `{!ResponseCodec} `{!GatewayLaws}.
Context (st : AppState).

Lemma sha256_hex_parses b : digest_from_str (sha256_hex b) = Ok (mkRequestDigest (sha256 b)).
Proof.
  unfold digest_from_str, digest_bytes, sha256_hex. rewrite hex_lower_length, sha256_length. simpl. by rewrite hex_pairs_lower.
Qed.

Lemma hex_digit_plain n : (n < 16)%N -> is_ascii_control (hex_digit n) = false.
Proof.
  intros Hn. assert (Hall : forallb (fun k => negb (is_ascii_control (hex_digit (N.of_nat k)))) (seq 0 16) = true) by reflexivity.
  rewrite forallb_forall in Hall. specialize (Hall (N.to_nat n)). rewrite N2Nat.id in Hall.
  apply negb_true_iff, Hall, in_seq. lia.
Qed.

Lemma hex_lower_plain l : str_all (fun c => negb (is_ascii_control c)) (hex_lower l) = true.
Proof.
  induction l as [|b l IH]; [done|]. pose proof (Byte.to_N_bounded b). unfold str_all in *. cbn [hex_lower String.list_ascii_of_string forallb].
  rewrite !hex_digit_plain, IH; [done|apply N.mod_lt; lia|apply N.Div0.div_lt_upper_bound; lia].
Qed.

(** Any text becomes a key the daemon takes. *)
Lemma gateway_key_valid key : idempotency_key_new (gateway_key key) = Some (gateway_key key).
Proof.
  unfold gateway_key. destruct (idempotency_key_new key) as [k|] eqn:E.
  - assert (k = key) as -> by (unfold idempotency_key_new in E; destruct (_ || _); [done|by injection E]). done.
  - unfold idempotency_key_new. replace (255 <? str_len _) with false.
    + change (str_all ?p ("key-" +:+ ?s)) with (str_all p s). unfold sha256_hex. rewrite hex_lower_plain. done.
    + symmetry. apply Z.ltb_ge. unfold str_len, sha256_hex. change (String.length ("key-" +:+ ?s)) with (4 + String.length s)%nat. rewrite hex_lower_length, sha256_length. lia.
Qed.

(** The envelope the daemon executes for a request of the gateway. *)
Definition daemon_envelope (principal : PrincipalId) (command_type : string) (payload : bytes) (key : string) (g : Gateway)
    : CommandEnvelope :=
  mkCommandEnvelope (gw_uuid g.(gw_drawn)) (gateway_key key) principal (new_uuid_v7 g.(gw_world).(w_ids)) None
    (if bool_decide (command_type = CMD_RESOLVE_UNKNOWN_EFFECT) then st.(as_service).(cas_operator_chain) else None)
    (mkRequestDigest (sha256 (digest_input command_type payload))) None None None command_type payload.

Definition drawn_world (w : World) : World := mkWorld w.(w_db) (S w.(w_ids)) w.(w_clock).

Definition command_reply (command_id : Uuid) (r : Res CommandOutcome) : Reply CommandResponse :=
  match r with
  | Ok o => Answer (mkCommandResponse (uuid_hyphenated command_id) (outcome_code_as_str o.(co_code)) o.(co_payload))
  | Err e => Refusal (unavailable e)
  end.

Lemma envelope_executes c principal command_type payload key g : st.(as_creds) = Some c ->
  st.(as_service).(cas_principals) !! c.(pc_uid) = Some principal ->
  let '(request, g1) := envelope command_type payload key g in
  g1 = mkGateway g.(gw_world) g.(gw_index) g.(gw_files) (S (S g.(gw_drawn))) /\
  submit_command st.(as_service) st.(as_creds) request g.(gw_world) =
    let '(r, w) := execute st.(as_service).(cas_coordinator) (daemon_envelope principal command_type payload key g) (drawn_world g.(gw_world)) in
    (command_reply (gw_uuid g.(gw_drawn)) r, w).
Proof.
  intros Hc Hp. unfold envelope, gw_draw. simpl. split; [done|]. unfold submit_command, actor_for, peer_principal, principal_for_uid.
  rewrite Hc. simpl. rewrite Hp. simpl. unfold parse_id. rewrite gw_uuid_parses. cbn [reply_or].
  rewrite gateway_key_valid. cbn [reply_or]. unfold draw_id, parse_digest. rewrite sha256_hex_parses. simpl.
  unfold daemon_envelope, drawn_world, command_reply. done.
Qed.
End Laws.

(** ** Requests to the gateway *)

(** The POST routes that change the kernel, and what happens around one request. *)
Inductive Posted :=
  | PostSession | PostSpec | PostRun
  | PostCancel (run_id : string)
  | PostResolve (effect_id : string)
  | PostRespond (caller : option string).
Record Outside := mkOutside { out_transport : Transport; out_db_opens : bool; out_hydrate_write : IndexWrite; out_write : IndexWrite }.

Section Requests.
Context `{!Ext} `{!SerdeJson} `{!GatewayHost} `{!GatewayCodec} `{!IndexJson} `{!ResponseCodec}.
Context (st : AppState).

Definition post (o : Outside) (p : Posted) (body : Value) : Gateway -> Response * Gateway :=
  match p with
  | PostSession => api_create_session st o.(out_transport) o.(out_write) body
  | PostSpec => api_put_spec st o.(out_transport) o.(out_write) body
  | PostRun => api_create_run st o.(out_transport) o.(out_db_opens) o.(out_hydrate_write) o.(out_write) body
  | PostCancel run_id => api_cancel_run st o.(out_transport) run_id body
  | PostResolve effect_id => api_resolve_effect st o.(out_transport) effect_id body
  | PostRespond caller => api_respond_approval st o.(out_transport) caller body
  end.

Definition post_all (l : list (Outside * Posted * Value)) (g : Gateway) : Gateway :=
  foldl (fun g '(o, p, body) => snd (post o p body g)) g l.

(** A body that names every entity it creates, and the profile of a run. *)
Definition identified (p : Posted) (body : Value) : Prop :=
  match p with
  | PostSession => body_string "session_id" body <> ""
  | PostRun => body_string "task_id" body <> "" /\ body_string "run_id" body <> "" /\ body_string "requested_profile" body <> ""
  | _ => True
  end.

Lemma submit_index t command_type payload key g r g' : submit st t command_type payload key g = (r, g') -> g'.(gw_index) = g.(gw_index).
Proof. unfold submit, envelope, gw_draw. simpl. destruct (call_daemon _ _ _). by intros [= _ <-]. Qed.

Lemma id_or_fresh_index key body g id g' : id_or_fresh key body g = (id, g') -> g'.(gw_index) = g.(gw_index).
Proof. unfold id_or_fresh, gw_draw. destruct (str_is_empty _); by intros [= _ <-]. Qed.

Lemma requested_profile_index o w body g p g' : requested_profile st o w body g = (p, g') -> index_ok g.(gw_index) -> index_ok g'.(gw_index).
Proof.
  unfold requested_profile. destruct (str_is_empty _); [|by intros [= _ <-]].
  destruct (get_str "agent_spec_id" body), (get_str "spec_version" body); try by intros [= _ <-].
  unfold hydrate_spec_profile. destruct (indexed_profile _ _ _); [by intros [= _ <-]|].
  match goal with |- context [if str_is_empty ?x then _ else _] => destruct (str_is_empty x) end; [by intros [= _ <-]|].
  intros [= _ <-]. simpl. auto with index.
Qed.

Lemma post_index_ok o p body g : index_ok g.(gw_index) -> index_ok (snd (post o p body g)).(gw_index).
Proof.
  intros Hi. assert (Hs : forall c pl k g0, index_ok g0.(gw_index) -> index_ok (snd (submit st o.(out_transport) c pl k g0)).(gw_index)).
  { intros c pl k g0 Hok. destruct (submit st _ c pl k g0) as [r g1] eqn:E. simpl. by rewrite (submit_index _ _ _ _ _ _ _ E). }
  destruct p; simpl.
  - unfold api_create_session. destruct (id_or_fresh _ _ _) as [id g0] eqn:E0. apply id_or_fresh_index in E0. rewrite <- E0 in Hi.
    simpl. specialize (Hs "agentos.spec.v1.CreateSession" (encode_create_session (mkCreateSessionMsg id (into_bytes (body_string "metadata" body)))) ("session." +:+ id) g0 Hi).
    destruct (submit _ _ _ _ _ _) as [[v|r] g1]; simpl in *; auto with index.
  - unfold api_put_spec. destruct (req_string _ body) as [id|]; [|done]. destruct (req_string _ body) as [version|]; [|done].
    destruct (spec_body body) as [spec|]; [|done]. destruct (spec_command id version spec) as [[c pl] k]. specialize (Hs c pl k g Hi).
    destruct (submit _ _ _ _ _ _) as [[v|r] g1]; simpl in *; auto with index.
  - unfold api_create_run. destruct (req_string _ body) as [session|]; [|done].
    destruct (id_or_fresh _ _ g) as [task g0] eqn:E0. apply id_or_fresh_index in E0. rewrite <- E0 in Hi.
    destruct (id_or_fresh _ _ g0) as [run g1] eqn:E1. apply id_or_fresh_index in E1. rewrite <- E1 in Hi.
    destruct (requested_profile _ _ _ _ g1) as [profile g2] eqn:E2. apply requested_profile_index in E2; [|done].
    destruct (run_command session task run profile body) as [[c pl] k]. specialize (Hs c pl k g2 E2).
    destruct (submit _ _ _ _ _ _) as [[v|r] g3]; simpl in *; auto with index.
  - unfold api_cancel_run. destruct (cancel_command run_id body) as [[c pl] k]. specialize (Hs c pl k g Hi). unfold plain.
    by destruct (submit _ _ _ _ _ _) as [[v|r] g1].
  - unfold api_resolve_effect. destruct (req_string _ body) as [action|]; [|done].
    destruct (resolve_command effect_id action body) as [[c pl] k]. specialize (Hs c pl k g Hi). unfold plain.
    by destruct (submit _ _ _ _ _ _) as [[v|r] g1].
  - unfold api_respond_approval. destruct (req_string _ body); [|done]. destruct (req_string _ body); [|done].
    destruct (req_string _ body); [|done]. by destruct (call_daemon _ _ _) as [r w].
Qed.

(** Whatever requests the gateway serves, in any order, with any loss of
    replies and of index writes, its index lists at most ten thousand sessions,
    tasks, runs and specs, and none of them twice. *)
Theorem index_stays_bounded l g : index_ok g.(gw_index) -> index_ok (post_all l g).(gw_index).
Proof.
  revert g. induction l as [|[[o p] body] l IH]; intros g Hi; [done|]. simpl. apply IH. by apply post_index_ok.
Qed.
End Requests.

(** ** Retries *)

Section Retries.
Context `{!Ext} `{!SerdeJson} `{!GatewayHost} `{!GatewayCodec} `{!IndexJson} `{!ResponseCodec} `{!GatewayLaws}.
Context (st : AppState).

(** A command that committed is answered from its record when it comes again. *)
Lemma command_replays c env env2 w w2 r w' : execute c env w = (r, w') -> w'.(w_db) <> w.(w_db) -> kernel_rel w'.(w_db) w2.(w_db) ->
  command_key env2 = command_key env -> env2.(ce_request_digest) = env.(ce_request_digest) ->
  env2.(ce_command_type) = env.(ce_command_type) -> env.(ce_deadline_unix_ms) = None -> env2.(ce_deadline_unix_ms) = None ->
  assert_epoch c.(coord_epoch) w2.(w_db) = Ok tt ->
  exists o, fst (execute c env2 w2) = Ok o /\ w_db (snd (execute c env2 w2)) = w2.(w_db).
Proof.
  intros E Hne Hk Hck Hdg Hty Hdl Hdl2 He.
  destruct (execute_changed _ _ _ _ _ E Hne) as (Hreg & Hval & o & rec & Hr1 & Hr2 & Hr3 & Hr4). exists o. apply execute_replays.
  - split; [by rewrite Hty|]. split; [|done]. eapply validate_stable; [|done|exact Hdl|done|exact Hval]. by injection Hck.
  - exists rec. rewrite Hck, Hdg. split; [|done]. exact (lookup_weaken _ _ _ _ Hr1 (lg_records _ _ (proj1 (kr_ledger _ _ Hk)))).
Qed.

Lemma submit_unmapped t command_type payload key g r g' : (forall c p, st.(as_creds) = Some c ->
    st.(as_service).(cas_principals) !! c.(pc_uid) <> Some p) ->
  submit st t command_type payload key g = (r, g') -> g'.(gw_world) = g.(gw_world).
Proof.
  intros Hm. unfold submit, envelope, gw_draw. simpl. unfold submit_command, actor_for, peer_principal, principal_for_uid.
  destruct (as_creds st) as [c|]; simpl; [destruct (cas_principals (as_service st) !! pc_uid c) as [p|] eqn:Hp; [by destruct (Hm c p)|]|];
    destruct t; simpl; by intros [= _ <-].
Qed.

(** What [submit] does to the kernel. *)
Lemma submit_mapped c p t command_type payload key g : st.(as_creds) = Some c ->
  st.(as_service).(cas_principals) !! c.(pc_uid) = Some p ->
  let env := daemon_envelope st p command_type payload key g in
  let '(r, g') := submit st t command_type payload key g in
  let run := execute st.(as_service).(cas_coordinator) env (drawn_world g.(gw_world)) in
  g'.(gw_world) = match t with NotSent _ => g.(gw_world) | _ => snd run end /\
  (t = Delivered -> r = match command_reply (gw_uuid g.(gw_drawn)) (fst run) with
                        | Answer a => inl (accepted a) | Refusal s => inr (gw_err (status_text s)) end).
Proof.
  intros Hc Hp. pose proof (envelope_executes st c p command_type payload key g Hc Hp) as He. unfold submit.
  destruct (envelope command_type payload key g) as [request g1]. destruct He as [-> He]. simpl.
  destruct t; simpl; rewrite ?He; try (split; [done|by intros]).
  all: destruct (execute _ _ _) as [res w2]; simpl; split; [done|]; by destruct (command_reply _ _).
Qed.

(** The same command again after it took effect changes nothing, and is
    acknowledged if its answer arrives. *)
Lemma submit_again t t2 command_type payload key g r g1 g2 r2 g3 :
  submit st t command_type payload key g = (r, g1) -> g1.(gw_world).(w_db) <> g.(gw_world).(w_db) ->
  kernel_rel g1.(gw_world).(w_db) g2.(gw_world).(w_db) ->
  assert_epoch st.(as_service).(cas_coordinator).(coord_epoch) g2.(gw_world).(w_db) = Ok tt ->
  submit st t2 command_type payload key g2 = (r2, g3) ->
  g3.(gw_world).(w_db) = g2.(gw_world).(w_db) /\ (t2 = Delivered -> exists v, r2 = inl v).
Proof.
  intros E1 Hne Hk He E2.
  destruct (as_creds st) as [c|] eqn:Hc; [destruct (cas_principals (as_service st) !! pc_uid c) as [p|] eqn:Hp|].
  2: destruct Hne; rewrite (submit_unmapped _ _ _ _ _ _ _ ltac:(naive_solver congruence) E1); done.
  2: destruct Hne; rewrite (submit_unmapped _ _ _ _ _ _ _ ltac:(naive_solver congruence) E1); done.
  pose proof (submit_mapped c p t command_type payload key g Hc Hp) as S1. rewrite E1 in S1. simpl in S1. destruct S1 as [W1 _].
  pose proof (submit_mapped c p t2 command_type payload key g2 Hc Hp) as S2. rewrite E2 in S2. simpl in S2. destruct S2 as [W2 R2].
  set (env1 := daemon_envelope st p command_type payload key g) in *. set (env2 := daemon_envelope st p command_type payload key g2) in *.
  destruct (execute (cas_coordinator (as_service st)) env1 (drawn_world (gw_world g))) as [res w1] eqn:Ex.
  assert (g1.(gw_world) = w1) as Hw1 by (destruct t; [done|by rewrite W1 in Hne|done]).
  destruct (command_replays _ env1 env2 _ (drawn_world g2.(gw_world)) _ _ Ex) as (o & Ho & Hdb); try done; [by rewrite <- Hw1..|].
  split; [destruct t2; rewrite W2; done|]. intros Ht. rewrite (R2 Ht), Ho. simpl. by eexists.
Qed.
(** The command of a request whose body names its entities. *)
Definition command_of (p : Posted) (body : Value) : option (string * bytes * string) :=
  match p with
  | PostSession => Some (session_command (body_string "session_id" body) body)
  | PostSpec =>
      match req_string "agent_spec_id" body, req_string "version" body, spec_body body with
      | inl id, inl version, inl spec => Some (spec_command id version spec)
      | _, _, _ => None
      end
  | PostRun =>
      match req_string "session_id" body with
      | inl session => Some (run_command session (body_string "task_id" body) (body_string "run_id" body)
                               (body_string "requested_profile" body) body)
      | inr _ => None
      end
  | PostCancel run_id => Some (cancel_command run_id body)
  | PostResolve effect_id =>
      match req_string "action" body with inl action => Some (resolve_command effect_id action body) | inr _ => None end
  | PostRespond _ => None
  end.

Lemma named_id key body g : body_string key body <> "" -> id_or_fresh key body g = (body_string key body, g).
Proof. unfold id_or_fresh. by destruct (body_string key body). Qed.

Lemma named_profile o w body g : body_string "requested_profile" body <> "" ->
  requested_profile st o w body g = (body_string "requested_profile" body, g).
Proof. unfold requested_profile. by destruct (body_string "requested_profile" body). Qed.

Lemma post_submits o p body g : identified p body -> (forall c, p <> PostRespond c) ->
  match command_of p body with
  | None => (snd (post st o p body g)).(gw_world) = g.(gw_world)
  | Some (command_type, payload, key) =>
      let '(r, g1) := submit st o.(out_transport) command_type payload key g in
      (snd (post st o p body g)).(gw_world) = g1.(gw_world) /\ ((exists v, r = inl v) -> (fst (post st o p body g)).(rs_status) = 200)
  end.
Proof.
  intros Hid Hno. destruct p; cbn [post command_of identified] in Hid |- *.
  - unfold api_create_session. rewrite named_id by done. destruct (session_command _ _) as [[c pl] k]. destruct (submit _ _ _ _ _ _) as [[v|r] g1]; simpl; naive_solver.
  - unfold api_put_spec. destruct (req_string "agent_spec_id" body) as [id|]; [|done]. destruct (req_string "version" body) as [version|]; [|done].
    destruct (spec_body body) as [spec|]; [|done]. destruct (spec_command id version spec) as [[c pl] k].
    destruct (submit _ _ _ _ _ _) as [[v|r] g1]; simpl; naive_solver.
  - destruct Hid as (Ht & Hr & Hp). unfold api_create_run. destruct (req_string "session_id" body) as [session|]; [|done].
    rewrite (named_id "task_id"), (named_id "run_id"), named_profile by done. destruct (run_command _ _ _ _ _) as [[c pl] k].
    destruct (submit _ _ _ _ _ _) as [[v|r] g1]; simpl; naive_solver.
  - unfold api_cancel_run. destruct (cancel_command run_id body) as [[c pl] k]. destruct (submit _ _ _ _ _ _) as [[v|r] g1]; simpl; naive_solver.
  - unfold api_resolve_effect. destruct (req_string "action" body) as [action|]; [|done].
    destruct (resolve_command effect_id action body) as [[c pl] k]. destruct (submit _ _ _ _ _ _) as [[v|r] g1]; simpl; naive_solver.
  - by destruct (Hno caller).
Qed.

End Retries.

(** ** Approvals *)

Section Devices.
Context `{!Ext} `{!SerdeJson} `{!DeviceJson} `{!GatewayHost} `{!GatewayCodec} `{!ResponseCodec} `{!ApprovalContracts}.
Context (st : AppState).

Lemma respond_handle_inv ctx payload t o t' : ledger_inv t.(t_db) -> respond_approval_handle ctx payload t = (Ok o, t') ->
  exists id row, t.(t_db).(approval_responses) !! id = None /\ t'.(t_db).(approval_responses) !! id = Some row /\
    ctx.(cc_device_id) = Some row.(ApprovalResponseRow.device_id) /\
    ctx.(cc_principal_id) = row.(ApprovalResponseRow.responder_principal_id).
Proof.
  intros Hinv E. unfold respond_approval_handle in E. inv_run.
  match goal with R : respond _ _ _ _ _ _ = _ |- _ =>
    apply respond_inv in R as (row & device & _ & _ & _ & Hr & Hnone & _ & Hsome); [|exact Hinv] end.
  injection Hr as Hp Hd. eexists _, _. split; [exact Hnone|]. split; [exact Hsome|]. done.
Qed.

(** The row a response leaves names the device of the request. *)
Lemma respond_approval_row svc creds req w r w' :
  registry_get svc.(cas_coordinator).(coord_registry) CMD_RESPOND_APPROVAL = Some respond_approval_handle ->
  ledger_inv w.(w_db) -> respond_approval svc creds req w = (r, w') -> w'.(w_db) <> w.(w_db) ->
  exists c id row, creds = Some c /\
    w.(w_db).(approval_responses) !! id = None /\ w'.(w_db).(approval_responses) !! id = Some row /\
    uuid_v7_from_str req.(aq_device_id) = Some row.(ApprovalResponseRow.device_id) /\
    svc.(cas_principals) !! c.(pc_uid) = Some row.(ApprovalResponseRow.responder_principal_id).
Proof.
  intros Hreg Hinv. unfold respond_approval. destruct (actor_for _ _ _) as [principal|s] eqn:Ha; [|by intros [= <- <-]].
  apply actor_for_peer in Ha as (c & -> & Hc).
  destruct (if str_is_empty (aq_device_id req) then _ else _) as [device|s] eqn:Hdev; [|by intros [= <- <-]].
  destruct (parse_id _ (aq_request_id req)) as [request_id|]; [|by intros [= <- <-]].
  unfold draw_id. destruct (idempotency_key_new _) as [key|]; cbn [reply_or]; [|by intros [= <- <-]].
  destruct (digest_from_str _) as [digest|e]; [|by intros [= <- <-]].
  match goal with |- (let '(_, _) := execute ?c ?env ?w0 in _) = _ -> _ => destruct (execute c env w0) as [res w4] eqn:Ee end.
  intros [= _ <-] Hne.
  apply execute_inv in Ee as [[? _]|(h & t & o & t1 & t2 & Hh & Hb & _ & E1 & E2 & -> & _)]; [done|]. simpl in Hh, E1.
  rewrite Hreg in Hh. injection Hh as <-.
  assert (Ht : t_db t = w_db w) by (unfold begin_write in Hb; destruct (assert_epoch _ _); [|done]; by injection Hb as <-).
  rewrite <- Ht in Hinv. apply respond_handle_inv in E1 as (id & row & Hnone & Hsome & Hd & Hp); [|done]. simpl in Hd, Hp. subst principal.
  apply insert_record_inv in E2 as (rec & Hdb & _ & _). exists c, id, row. split; [done|]. rewrite <- Ht. split; [done|].
  split; [simpl; rewrite Hdb; exact Hsome|]. split; [|done]. subst device. revert Hdev. destruct (str_is_empty _); [done|].
  unfold parse_id. by destruct (uuid_v7_from_str (aq_device_id req)) as [u|]; intros [= ->].
Qed.

(** C21: Who answered an approval is not for the caller to say.  When an admitted
    request to the gateway records a response, the row names the device of the
    bearer token as the registry has it, enabled and with the token's hash, or
    the gateway's own device for the master token and for local callers, and the
    principal of the gateway's connection. *)
Theorem approval_names_authenticated_device faults fs req caller t body g r g' :
  registry_get st.(as_service).(cas_coordinator).(coord_registry) CMD_RESPOND_APPROVAL = Some respond_approval_handle ->
  ledger_inv g.(gw_world).(w_db) ->
  require_auth faults fs st.(as_auth) req = Admit caller ->
  api_respond_approval st t (Some caller) body g = (r, g') -> g'.(gw_world).(w_db) <> g.(gw_world).(w_db) ->
  exists c id row device, st.(as_creds) = Some c /\
    g.(gw_world).(w_db).(approval_responses) !! id = None /\ g'.(gw_world).(w_db).(approval_responses) !! id = Some row /\
    st.(as_service).(cas_principals) !! c.(pc_uid) = Some row.(ApprovalResponseRow.responder_principal_id) /\
    uuid_v7_from_str device = Some row.(ApprovalResponseRow.device_id) /\
    (device = st.(as_local_device_id) /\ (caller = "admin" \/ caller = "local") \/
     device = caller /\ exists f reg e token, st.(as_auth).(ga_devices_file) = Some f /\ bearer req = Some token /\
       holds f fs reg /\ reg.(dr_devices) !! device = Some e /\ e.(de_enabled) = true /\ e.(de_token_hash) = token_hash token).
Proof.
  intros Hreg Hinv Hauth%require_auth_sound. unfold api_respond_approval.
  destruct (req_string "request_id" body) as [request_id|]; [|by intros [= _ <-]].
  destruct (req_string "request_digest" body) as [digest|]; [|by intros [= _ <-]].
  destruct (req_string "decision" body) as [decision|]; [|by intros [= _ <-]].
  set (request := approval_request st (Some caller) request_id digest decision).
  destruct (respond_approval (as_service st) (as_creds st) request (gw_world g)) as [r0 w0] eqn:Er.
  assert (Hw : forall r1 w1, call_daemon t (respond_approval (as_service st) (as_creds st) request) (gw_world g) = (r1, w1) ->
    w1.(w_db) <> g.(gw_world).(w_db) -> w1 = w0) by (intros r1 w1; destruct t; simpl; rewrite ?Er; by intros [= _ <-]).
  destruct (call_daemon _ _ _) as [r1 w1]. intros [= _ <-] Hne. simpl in Hne. rewrite (Hw _ _ eq_refl Hne) in Hne |- *.
  destruct (respond_approval_row _ _ _ _ _ _ Hreg Hinv Er Hne) as (c & id & row & Hc & Hnone & Hsome & Hdev & Hpr).
  exists c, id, row, (responding_device st (Some caller)). split_and!; try done. simpl.
  destruct (bool_decide (caller = "admin")) eqn:Ha; [left; split; [done|]; left; by apply bool_decide_eq_true in Ha|].
  destruct (bool_decide (caller = "local")) eqn:Hl; [left; split; [done|]; right; by apply bool_decide_eq_true in Hl|].
  apply bool_decide_eq_false in Ha, Hl. right. split; [done|].
  destruct Hauth as [|f reg id' e token ????????|]; [done| |done]. by exists f, reg, e, token.
Qed.
End Devices.
