(* ===== verification/GatewayQueries.v ===== *)
(** * What the gateway shows ([agentgw/src/main.rs])

    The GET handlers: they ask the control and event APIs, or read the kernel
    database directly, and print JSON. *)

From stdpp Require Import sorting.
From S2P Require Import Prelude Domain Ids Text Models StoreBase Store ExtensionStore Events Envelope Journal Dispatch Feed Effects RunServices Turns.
From S2P Require Import Coordinator Profiles Config LoopFeed Planning Resolver Worker ApiAuth EventApi Fanout Views ControlApi Devices GatewayText Gateway.

Open Scope string_scope.
Open Scope Z_scope.

Definition VInt (z : Z) : Value := VNumber (i64_to_string z).
Definition VStrings (l : list string) : Value := VArray (VString <$> l).

(** One query over the socket: lost, or answered statement by statement from the
    databases it sees. *)
Record Asked := mkAsked { ask_lost : option Status; ask_views : nat -> Db }.
Definition ask {A} (a : Asked) (q : Query A) : Reply A :=
  match a.(ask_lost) with Some s => Refusal s | None => run_query a.(ask_views) 0 q end.

(** ** Runs *)

Definition run_state_name (state : Z) : string :=
  match state with
  | 0 => "unspecified" | 1 => "created" | 2 => "ready" | 3 => "running" | 4 => "waiting_tool" | 5 => "waiting_child"
  | 6 => "waiting_human" | 7 => "suspended" | 8 => "cancelling" | 9 => "completed" | 10 => "failed" | 11 => "cancelled"
  | _ => "unknown"
  end.

Definition run_json (run : AgentRunMsg) : Value :=
  VObject [("run_id", VString run.(ar_run_id)); ("task_id", VString run.(ar_task_id)); ("session_id", VString run.(ar_session_id));
    ("parent_run_id", VString run.(ar_parent_run_id)); ("state", VInt run.(ar_state));
    ("state_name", VString (run_state_name run.(ar_state))); ("run_revision", VInt run.(ar_run_revision));
    ("loop_epoch", VInt run.(ar_loop_epoch)); ("step_sequence", VInt run.(ar_step_sequence));
    ("resolved_environment_id", VString run.(ar_resolved_environment_id)); ("output_ref", VString run.(ar_output_ref))].

Definition effect_state_name (state : Z) : string :=
  match state with
  | 1 => "prepared" | 2 => "claimed" | 3 => "dispatched" | 4 => "acknowledged" | 5 => "committed" | 6 => "failed"
  | 7 => "cancelled" | 8 => "unknown" | _ => "unspecified"
  end.

(** [.chars().take(n)] of well-formed text: a byte that continues a character
    does not count. *)
Fixpoint take_chars (n : nat) (s : string) : string :=
  match s with
  | EmptyString => EmptyString
  | String c s =>
      if continuation (N_of_ascii c) then String c (take_chars n s)
      else match n with O => EmptyString | S n => String c (take_chars n s) end
  end.

Definition event_json (e : EventEnvelopeMsg) : Value :=
  VObject [("event_id", VString e.(em_event_id)); ("event_type", VString e.(em_event_type));
    ("stream_key", VString e.(em_stream_key)); ("sequence", VInt e.(em_sequence));
    ("occurred_unix_ms", VInt e.(em_occurred_unix_ms)); ("sensitivity", VInt e.(em_sensitivity));
    ("payload_b64", VString (match e.(em_payload) with [] => "" | payload => b64_encode payload end))].

Section Queries.
Context `{!Ext} `{!RegistryJson} `{!PlanJson} `{!SerdeJson} `{!GatewayCodec} `{!Contracts} `{!WorkerContracts} `{!EnvelopeCodec} `{!ConfigYaml}.
Context (st : AppState).

Abbreviation svc := st.(as_service).
Abbreviation creds := st.(as_creds).

Definition show {A} (r : Reply A) (f : A -> Value) : Response :=
  match r with Answer a => json_ok (f a) | Refusal s => gw_err (status_text s) end.

Definition api_health (r : Reply HealthResponse) : Response :=
  show r (fun h => VObject [("status", VString h.(hr_status)); ("daemon_instance_id", VString h.(hr_daemon_instance_id));
    ("daemon_fencing_epoch", VInt h.(hr_daemon_fencing_epoch)); ("active_config_generation_id", VString h.(hr_active_config_generation_id));
    ("outbox_unpublished_count", VInt h.(hr_outbox_unpublished_count))]).

(** One [GetRun] per run of the index; a run the daemon does not know is skipped. *)
Fixpoint runs_list (asked : nat -> Asked) (n : nat) (ids : list string) : list Value + Response :=
  match ids with
  | [] => inl []
  | id :: ids =>
      match ask (asked n) (get_run svc creds id) with
      | Answer r => match runs_list asked (S n) ids with inl l => inl (run_json r.(gr_run) :: l) | inr e => inr e end
      | Refusal s => match s.(st_code) with CodeNotFound => runs_list asked (S n) ids | _ => inr (gw_err (status_text s)) end
      end
  end.

Definition api_runs_list (asked : nat -> Asked) (g : Gateway) : Response :=
  match runs_list asked 0 (rr_run_id <$> g.(gw_index).(ix_runs)) with
  | inl l => json_ok (VObject [("runs", VArray l)])
  | inr r => r
  end.

Definition api_get_run (a : Asked) (run_id : string) : Response :=
  show (ask a (get_run svc creds run_id)) (fun r => run_json r.(gr_run)).

Definition api_graph (a : Asked) (task_id : string) : Response :=
  show (ask a (get_run_graph svc creds task_id)) (fun graph =>
    VObject [("task_id", VString graph.(rg_task_id)); ("graph_revision", VInt graph.(rg_graph_revision));
      ("runs", VArray (run_json <$> graph.(rg_runs)));
      ("dependencies", VArray ((fun d => VObject [("dependency_id", VString d.(rdv_dependency_id)); ("task_id", VString d.(rdv_task_id));
         ("source_run_id", VString d.(rdv_source_run_id)); ("target_run_id", VString d.(rdv_target_run_id));
         ("condition", VInt d.(rdv_condition))]) <$> graph.(rg_dependencies)))]).

Definition api_get_effect (a : Asked) (effect_id : string) : Response :=
  show (ask a (get_effect svc creds effect_id)) (fun e =>
    VObject [("effect_id", VString e.(er_effect_id)); ("run_id", VString e.(er_run_id)); ("step_sequence", VInt e.(er_step_sequence));
      ("operation", VString e.(er_operation)); ("state", VInt e.(er_state)); ("adapter_id", VString e.(er_adapter_id));
      ("result_ref", VString e.(er_result_ref)); ("error_code", VString e.(er_error_code));
      ("executor_fencing_token", VInt e.(er_executor_fencing_token))]).

Definition api_adapters (a : Asked) (params : gmap string string) : Response :=
  show (ask a (list_adapters svc creds (from_option (fun s => s) "" (params !! "port_id")))) (fun l =>
    VObject [("adapters", VArray ((fun r => VObject
      [("adapter", match r.(arv_adapter) with
                   | Some v => VObject [("id", VString v.(vr_id)); ("version", VString v.(vr_version))]
                   | None => VNull end);
       ("manifest_digest", VString r.(arv_manifest_digest)); ("runtime_type", VString r.(arv_runtime_type));
       ("trust_state", VString r.(arv_trust_state)); ("conformance_state", VString r.(arv_conformance_state));
       ("ports", VStrings r.(arv_implemented_ports))]) <$> l))]).

Definition api_config (a : Asked) : Response :=
  show (ask a (get_active_config svc creds)) (fun r =>
    VObject [("generation_id", VString r.(ga_generation).(cgv_generation_id)); ("digest", VString r.(ga_generation).(cgv_digest));
      ("validation_state", VString r.(ga_generation).(cgv_validation_state)); ("test_state", VString r.(ga_generation).(cgv_test_state));
      ("active_revision", VInt r.(ga_active_revision)); ("document", VString (from_utf8_lossy r.(ga_generation).(cgv_document)))]).

Definition bindings_json (m : gmap string string) : Value :=
  VObject (omap (fun k => (fun v => (k, VString v)) <$> m !! k) (btree_keys m)).

Definition profile_json (doc : ConfigDocument) (name : string) : Value :=
  let '(bindings, extends) :=
    match resolve_profile doc name with
    | Ok bindings => (bindings, p ← doc.(cd_profiles) !! name; p.(pr_extends))
    | Err _ => (∅, None)
    end in
  VObject [("name", VString name); ("bindings", bindings_json bindings); ("extends", opt_string extends)].

Definition api_profiles (a : Asked) : Response :=
  match ask a (get_active_config svc creds) with
  | Refusal s => gw_err (status_text s)
  | Answer r =>
      match parse_document (from_utf8_lossy r.(ga_generation).(cgv_document)) with
      | Err e => gw_err (kernel_error_to_string e)
      | Ok doc => json_ok (VObject [("profiles", VArray (profile_json doc <$> btree_keys doc.(cd_profiles)))])
      end
  end.

Definition api_approvals (a : Asked) (params : gmap string string) : Response :=
  show (ask a (list_approvals svc creds (from_option (fun s => s) "" (params !! "run_id")))) (fun l =>
    VObject [("approvals", VArray ((fun v => VObject
      [("request_id", VString v.(apv_request_id)); ("request_digest", VString v.(apv_request_digest));
       ("principal_id", VString v.(apv_principal_id)); ("actor_id", VString v.(apv_actor_id)); ("run_id", VString v.(apv_run_id));
       ("operation", VString v.(apv_operation)); ("target_resource", VString v.(apv_target_resource)); ("state", VString v.(apv_state));
       ("expires_at_ms", VInt v.(apv_expires_at_ms)); ("created_at_ms", VInt v.(apv_created_at_ms))]) <$> l))]).

(** ** Events *)

Definition u32_max : Z := 4294967295.

Definition page_limit (params : gmap string string) : Z :=
  Z.min 2000 (from_option (fun z => z) 200 (params !! "limit" ≫= parse_unsigned u32_max)).

Definition ask_stream (lost : option Status) (stream_key : string) (from : Z) (limit : Z) (j : Journal) : Reply ReadEventStreamResponse :=
  match lost with
  | Some s => Refusal s
  | None => read_stream_rpc svc.(cas_principals) creds stream_key from (Z.to_nat limit) j
  end.

Definition api_events_read (lost : option Status) (params : gmap string string) (j : Journal) : Response :=
  let stream_key := from_option (fun s => s) "" (params !! "stream_key") in
  if str_is_empty stream_key then bad_req "missing stream_key"
  else show (ask_stream lost stream_key (from_option (fun z => z) 0 (params !! "from_sequence" ≫= parse_unsigned u64_max)) (page_limit params) j)
    (fun r => VObject [("events", VArray (event_json <$> r.(re_events))); ("retention_gap", VBool r.(re_retention_gap))]).

(** What the browser gets for one item of the subscription. *)
Inductive SseEvent := SseData (v : Value) | SseError (v : Value).
Definition sse_frame (f : Frame) : SseEvent :=
  match f with
  | FrameEvent e => SseData (event_json e)
  | FrameLag stream_key resume => SseData (VObject [("lag", VBool true); ("stream_key", VString stream_key); ("resume_sequence", VInt resume)])
  | FrameError s => SseError (error_body (status_text s))
  end.

(** ** Decisions of a run *)

Definition effect_json (row : EffectRow) : Value :=
  VObject [("effect_id", VString (uuid_hyphenated row.(EffectRow.effect_id))); ("operation", VString row.(EffectRow.operation));
    ("state", VString (effect_state_name (to_wire row.(EffectRow.state)))); ("result_ref", opt_string row.(EffectRow.result_ref));
    ("error_code", opt_string row.(EffectRow.error_code)); ("updated_at_ms", VInt row.(EffectRow.updated_at_ms))].

(** The effects of a run by their decisions, when the database opens. *)
Definition effects_of_run (db : option Db) (run_id : string) : gmap string Value :=
  match db with
  | None => ∅
  | Some d => list_to_map (rev ((fun row => (uuid_hyphenated row.(EffectRow.decision_id), effect_json row)) <$>
                select (fun row => bool_decide (uuid_hyphenated row.(EffectRow.run_id) = run_id)) d.(effects)))
  end.

Definition spawn_detail (child_request : bytes) : Value :=
  match decode_create_task_run child_request with
  | Some request =>
      let envelope := from_option (fun v => v) VNull (json_from_slice request.(ct_task_payload)) in
      VObject [("task", field_or_null "task" envelope); ("profile", VString request.(ct_requested_profile));
        ("spawn_depth", field_or_null "spawn_depth" envelope)]
  | None => VObject []
  end.

Definition decision_detail (effects : gmap string Value) (d : LoopDecision) : string * Value :=
  match d.(ld_decision) with
  | Some (DkComplete output_ref) => ("complete", VObject [("output_ref", VString output_ref)])
  | Some (DkFail reason) => ("fail", VObject [("reason_code", VString reason)])
  | Some (DkWait reason _) => ("wait", VObject [("reason", VString reason)])
  | Some (DkSpawnAgent child_request) => ("spawn_agent", spawn_detail child_request)
  | Some (DkInvokeEffect operation payload _) =>
      ("invoke_effect", VObject [("operation", VString operation); ("payload", VString (take_chars 2000 (from_utf8_lossy payload)));
         ("effect", from_option (fun v => v) VNull (effects !! d.(ld_decision_id)))])
  | Some (DkRequestApproval _) => ("request_approval", VObject [])
  | None => ("none", VObject [])
  end.

Definition decision_row (effects : gmap string Value) (e : EventEnvelopeMsg) : option Value :=
  if bool_decide (e.(em_event_type) = "LoopDecisionAccepted") then
    d ← decode_loop_decision e.(em_payload);
    let '(kind, detail) := decision_detail effects d in
    Some (VObject [("sequence", VInt e.(em_sequence)); ("step_sequence", VInt d.(ld_step_sequence)); ("kind", VString kind); ("detail", detail)])
  else None.

Definition PAGE : nat := 500.

(** The page loop: each page starts after the last event of the one before. *)
Fixpoint decision_pages (fuel : nat) (lost : nat -> option Status) (effects : gmap string Value) (run_id : string) (from : Z) (j : Journal)
    : option (list Value + Response) :=
  match fuel with
  | O => None
  | S fuel =>
      match ask_stream (lost fuel) ("run/" +:+ run_id) from (Z.of_nat PAGE) j with
      | Refusal s => Some (inr (gw_err (status_text s)))
      | Answer page =>
          let rows := omap (decision_row effects) page.(re_events) in
          match list.last page.(re_events) with
          | Some e =>
              if (length page.(re_events) =? PAGE)%nat then
                match decision_pages fuel lost effects run_id e.(em_sequence) j with
                | Some (inl more) => Some (inl (rows ++ more)%list)
                | other => other
                end
              else Some (inl rows)
          | None => Some (inl rows)
          end
      end
  end.

Definition decisions_response (r : list Value + Response) : Response :=
  match r with inl l => json_ok (VObject [("decisions", VArray l)]) | inr e => e end.

Definition api_run_decisions (fuel : nat) (lost : nat -> option Status) (db : option Db) (run_id : string) (j : Journal) : option Response :=
  decisions_response <$> decision_pages fuel lost (effects_of_run db run_id) run_id 0 j.

(** ** Direct reads of the kernel database *)

(** [open_db_ro]: the database, or why it does not open. *)
Definition with_db (db : Db + string) (k : Db -> Response) : Response :=
  match db with
  | inl d => k d
  | inr e => gw_err (kernel_error_to_string (mkKernelError Unavailable RetrySafe ("kernel.db unreadable: " +:+ e)))
  end.

(** JSON, or the hexadecimal text of bytes that are not. *)
Definition blob_json (raw : option bytes) : Value :=
  match raw with
  | None => VNull
  | Some b => from_option (fun v => v) (VString (hex_lower b)) (json_from_slice b)
  end.

Definition binding_json (b : ResolvedBindingRow) : Value :=
  VObject [("port_id", VString b.(ResolvedBindingRow.port_id)); ("adapter_id", VString (uuid_hyphenated b.(ResolvedBindingRow.adapter_id)));
    ("adapter_version", VString b.(ResolvedBindingRow.adapter_version)); ("adapter_digest", VString b.(ResolvedBindingRow.adapter_digest));
    ("capabilities", from_option (fun v => v) VNull (json_from_slice b.(ResolvedBindingRow.capabilities)))].

Definition environment_json (row : ResolvedEnvironmentRow) : Value :=
  VObject [("environment_id", VString (uuid_hyphenated row.(ResolvedEnvironmentRow.environment_id)));
    ("run_id", VString (uuid_hyphenated row.(ResolvedEnvironmentRow.run_id)));
    ("agent_spec_id", VString (uuid_hyphenated row.(ResolvedEnvironmentRow.agent_spec_id)));
    ("agent_spec_version", VString row.(ResolvedEnvironmentRow.agent_spec_version));
    ("agent_spec_digest", VString row.(ResolvedEnvironmentRow.agent_spec_digest));
    ("agent_loop_id", VString row.(ResolvedEnvironmentRow.agent_loop_id));
    ("agent_loop_version", VString row.(ResolvedEnvironmentRow.agent_loop_version));
    ("agent_loop_digest", VString row.(ResolvedEnvironmentRow.agent_loop_digest));
    ("config_generation_id", VString (uuid_hyphenated row.(ResolvedEnvironmentRow.config_generation_id)));
    ("workspace_uri", opt_string row.(ResolvedEnvironmentRow.workspace_uri));
    ("workspace_base_revision", opt_string row.(ResolvedEnvironmentRow.workspace_base_revision));
    ("workspace_mode", VInt (to_wire row.(ResolvedEnvironmentRow.workspace_mode)));
    ("model_provider", opt_string row.(ResolvedEnvironmentRow.model_provider)); ("model_id", opt_string row.(ResolvedEnvironmentRow.model_id));
    ("model_parameters", blob_json row.(ResolvedEnvironmentRow.model_parameters));
    ("kernel_version", VString row.(ResolvedEnvironmentRow.kernel_version));
    ("protocol_versions", blob_json (Some row.(ResolvedEnvironmentRow.protocol_versions)));
    ("capability_grant_ids", blob_json (Some row.(ResolvedEnvironmentRow.capability_grant_ids)));
    ("approval_request_ids", blob_json (Some row.(ResolvedEnvironmentRow.approval_request_ids)));
    ("created_at_ms", VInt row.(ResolvedEnvironmentRow.created_at_ms))].

(** The bindings in the order of their ports. *)
Definition environment_bindings (env : EnvironmentId) (d : Db) : list ResolvedBindingRow :=
  merge_sort port_le (List.filter (fun b => bool_decide (b.(ResolvedBindingRow.environment_id) = env)) (map_to_list d.(bindings)).*2).

Definition api_run_environment (db : Db + string) (run_id : string) : Response :=
  with_db db (fun d =>
    match select (fun row => bool_decide (uuid_hyphenated row.(ResolvedEnvironmentRow.run_id) = run_id)) d.(environments) with
    | [] => mkResponse 404 (error_body "run has no resolved environment")
    | row :: _ =>
        json_ok (VObject [("environment", environment_json row);
          ("bindings", VArray (binding_json <$> environment_bindings row.(ResolvedEnvironmentRow.environment_id) d))])
    end).

Definition generation_json (active : option string) (r : ConfigGenerationRow) : Value :=
  let id := uuid_hyphenated r.(ConfigGenerationRow.generation_id) in
  VObject [("generation_id", VString id); ("digest", VString r.(ConfigGenerationRow.digest));
    ("validation_state", VString r.(ConfigGenerationRow.validation_state)); ("test_state", VString r.(ConfigGenerationRow.test_state));
    ("created_by", VString (uuid_hyphenated r.(ConfigGenerationRow.created_by_actor_id)));
    ("created_at_ms", VInt r.(ConfigGenerationRow.created_at_ms)); ("active", VBool (bool_decide (active = Some id)))].

(** [ORDER BY created_at_ms DESC]. *)
Definition newer (a b : N * ConfigGenerationRow) : Prop := b.2.(ConfigGenerationRow.created_at_ms) <= a.2.(ConfigGenerationRow.created_at_ms).
#[global] Instance newer_dec : RelDecision newer.
Proof. intros a b. unfold newer. apply _. Defined.

Definition api_config_generations (db : Db + string) : Response :=
  with_db db (fun d =>
    let active := (fun r => uuid_hyphenated r.(ActiveConfigGenerationRow.generation_id)) <$> d.(active_config) in
    json_ok (VObject [("active", opt_string active);
      ("generations", VArray (generation_json active <$> select_by newer (fun _ => true) d.(config_generations)))])).

Definition index_json (i : Index) : Value :=
  VObject [("sessions", VStrings i.(ix_sessions));
    ("tasks", VArray ((fun t => VObject [("task_id", VString t.(tr_task_id)); ("session_id", VString t.(tr_session_id))]) <$> i.(ix_tasks)));
    ("runs", VArray ((fun r => VObject [("run_id", VString r.(rr_run_id)); ("task_id", VString r.(rr_task_id));
                                        ("session_id", VString r.(rr_session_id))]) <$> i.(ix_runs)));
    ("specs", VArray ((fun s => VObject [("agent_spec_id", VString s.(sr_agent_spec_id)); ("version", VString s.(sr_version));
        ("digest", VString s.(sr_digest)); ("display_name", VString s.(sr_display_name)); ("profile", VString s.(sr_profile))]) <$> i.(ix_specs)))].

Definition api_index (g : Gateway) : Response := json_ok (index_json g.(gw_index)).

(** ** Staged proposals *)

Definition validity (document : string) : bool * string :=
  match parse_document document with Ok _ => (true, "") | Err e => (false, kernel_error_to_string e) end.

Definition proposal_json (id path : string) (created_at_ms : Z) (document : string) : Value :=
  let '(valid, error) := validity document in
  VObject [("proposal_id", VString id); ("path", VString path); ("created_at_ms", VInt created_at_ms); ("valid", VBool valid);
    ("error", VString error)].

Record Proposal := mkProposal { pp_id : string; pp_path : string; pp_created_at_ms : Z; pp_document : string }.
Definition proposal_le (a b : Proposal) : Prop := a.(pp_created_at_ms) <= b.(pp_created_at_ms).
#[global] Instance proposal_le_dec : RelDecision proposal_le.
Proof. intros a b. unfold proposal_le. apply _. Defined.

(** The readable [yaml] files of the directory. *)
Definition api_proposals_list (scanned : list Proposal + string) : Response :=
  match scanned with
  | inr e => gw_err ("proposals dir: " +:+ e)
  | inl l => json_ok (VObject [("proposals", VArray ((fun p => proposal_json p.(pp_id) p.(pp_path) p.(pp_created_at_ms) p.(pp_document)) <$>
                                merge_sort proposal_le l))])
  end.
End Queries.

(** ** Names of states *)

(** Every state has its own name, and no known state is shown as unknown. *)
Lemma run_state_names_distinct a b : run_state_name (to_wire a) = run_state_name (to_wire b) -> a = b.
Proof. by destruct a, b. Qed.

Lemma effect_state_names_distinct a b : effect_state_name (to_wire a) = effect_state_name (to_wire b) -> a = b.
Proof. by destruct a, b. Qed.

(** ** Secrets *)

Section Shown.
Context `{!Ext} `{!RegistryJson} `{!PlanJson} `{!SerdeJson} `{!GatewayCodec} `{!Contracts} `{!WorkerContracts} `{!EnvelopeCodec} `{!ConfigYaml}.

(** The payload of a secret event is shown by no page and no frame. *)
Lemma secret_event_shown_empty e : e.(ev_sensitivity) = SensitivityClass.Secret ->
  get_str "payload_b64" (event_json (project e)) = Some "".
Proof. intros Hs. unfold project, event_json, to_contract. simpl. by rewrite bool_decide_eq_true_2. Qed.

(** Other payloads decode to what was recorded. *)
Lemma shown_payload_decodes e : e.(ev_sensitivity) <> SensitivityClass.Secret ->
  exists s, get_str "payload_b64" (event_json (project e)) = Some s /\ b64_decode s = Some e.(ev_payload).
Proof.
  intros Hs. unfold project, event_json, to_contract. simpl. rewrite bool_decide_eq_false_2 by done. eexists. split; [reflexivity|].
  destruct (ev_payload e); [done|]. rewrite b64_encode_agrees, b64_decode_padded by apply encoded_padded. apply base64_roundtrip.
Qed.

Lemma page_limit_bound params : page_limit params <= 2000.
Proof. unfold page_limit. lia. Qed.

(** A page holds at most two thousand events, whatever the caller asks for. *)
Lemma read_page_bounded st lost params key from j r :
  ask_stream st lost key from (page_limit params) j = Answer r -> (length r.(re_events) <= 2000)%nat.
Proof.
  unfold ask_stream, read_stream_rpc. destruct lost; [done|]. destruct (peer_principal _ _); [|done]. simpl.
  destruct (parse_stream_key _ _) as [k|]; [|done]. simpl. unfold read_stream. simpl. destruct (encode_sequence from) as [f|]; [|done]. simpl.
  destruct (res_collect _ _) as [l|] eqn:E; [|done]. simpl. intros [= <-]. simpl. rewrite length_fmap.
  apply res_collect_ok, Forall2_length in E. rewrite <- E, length_take. pose proof (page_limit_bound params). lia.
Qed.
End Shown.

(** ** The decisions of a run are all shown *)

Section Decisions.
Context `{!Ext} `{!SerdeJson} `{!GatewayCodec} `{!Contracts} `{!WorkerContracts} `{!EnvelopeCodec} `{!WireCodec}.
Context (st : AppState) (d : Db) (j : Journal) (run_id : string) (k : StreamKey) (c : PeerCreds) (p : PrincipalId).
Context (Hok : outbox_ok d) (Hmirror : mirror d j) (Hpub : publishable d).
Context (Hkey : stream_key_from_str ("run/" +:+ run_id) = Ok k).
Context (Hcreds : st.(as_creds) = Some c) (Hpeer : st.(as_service).(cas_principals) !! c.(pc_uid) = Some p).

(** The events of the run's stream that have reached the journal. *)
Definition journaled : list EventEnvelope := take (Z.to_nat (stream_max (sk_text k) j)) (history d k).

Lemma decision_page n : (n <= length journaled)%nat ->
  ask_stream st None ("run/" +:+ run_id) (Z.of_nat n) (Z.of_nat PAGE) j =
    Answer (mkReadEventStreamResponse (project <$> take PAGE (drop n journaled)) false) /\ Z.of_nat n <= i64_max.
Proof.
  intros Hn. assert (Hb : Z.of_nat n <= i64_max).
  { destruct n as [|n]; [done|]. destruct (lookup_lt_is_Some_2 journaled n) as [e He]; [lia|].
    apply lookup_take_Some in He as [He _]. apply history_lookup in He as (id & r & (Hr & Hk' & Hs) & _); [|done].
    destruct (Hpub _ _ Hr) as (k' & _ & _ & _ & Hmax). lia. }
  split; [|done]. unfold ask_stream, read_stream_rpc, peer_principal, principal_for_uid. rewrite Hcreds. cbn [reply_or reply_bind]. rewrite Hpeer.
  cbn [reply_or reply_bind]. unfold parse_stream_key. rewrite Hkey. cbn [reply_bind].
  assert (Hself : stream_key_from_str (sk_text k) = Ok k) by (by rewrite (stream_key_from_str_text _ _ Hkey)).
  rewrite (read_page d j k) by (done || lia). cbn [fst rr_events rr_retention_gap]. rewrite !Nat2Z.id. do 2 f_equal.
  rewrite <- list_fmap_compose. apply list_fmap_ext. intros i x _. simpl. apply project_wire_form.
Qed.
Lemma journaled_sequence n e : journaled !! n = Some e -> ev_sequence e = Z.of_nat n + 1.
Proof.
  intros He. apply lookup_take_Some in He as [He _]. apply history_lookup in He as (id & r & (_ & _ & Hs) & ->); [|done]. exact Hs.
Qed.

Lemma pages_from effects fuel n : (n <= length journaled)%nat -> (length journaled < n + fuel * PAGE)%nat ->
  decision_pages st fuel (fun _ => None) effects run_id (Z.of_nat n) j =
    Some (inl (omap (decision_row effects) (project <$> drop n journaled))).
Proof.
  revert n. induction fuel as [|fuel IH]; intros n Hn Hf; [lia|]. cbn [decision_pages].
  destruct (decision_page n Hn) as [-> _]. cbn [re_events]. rewrite fmap_last, length_fmap, length_take, length_drop.
  destruct (list.last (take PAGE (drop n journaled))) as [e|] eqn:Hl; cbn [fmap option_fmap option_map].
  - destruct (Nat.eqb_spec (Nat.min PAGE (length journaled - n)) PAGE) as [Hfull|Hshort].
    + assert (He : em_sequence (project e) = Z.of_nat (n + PAGE)).
      { rewrite last_lookup, length_take, length_drop, Hfull, lookup_take_Some, lookup_drop in Hl. destruct Hl as [Hl _].
        apply journaled_sequence in Hl. unfold PAGE in *. simpl in *. lia. }
      rewrite He, IH by (unfold PAGE in *; lia). rewrite <- omap_app, <- fmap_app. do 3 f_equal.
      rewrite <- drop_drop. by rewrite take_drop.
    + rewrite take_ge by (rewrite length_drop; lia). done.
  - apply last_None in Hl. rewrite Hl. apply (f_equal length) in Hl. rewrite length_take, length_drop in Hl. cbn [length] in Hl.
    rewrite drop_ge by (unfold PAGE in *; lia). done.
Qed.

(** C24: The page loop of the decisions view ends, after one page per five hundred
    events and one more, and shows every accepted decision of the run whose event
    has reached the journal, once and in the order of the stream. *)
Theorem decisions_shown_completely db fuel : (length journaled < fuel * PAGE)%nat ->
  api_run_decisions st fuel (fun _ => None) db run_id j =
    Some (json_ok (VObject [("decisions", VArray (omap (decision_row (effects_of_run db run_id)) (project <$> journaled)))])).
Proof. intros Hf. unfold api_run_decisions. rewrite (pages_from _ fuel 0) by (simpl; lia). done. Qed.
End Decisions.
