(* ===== verification/GatewaySite.v ===== *)
(** * The gateway as a whole ([agentgw/src/main.rs])

    The routes with the check in front of them, the pages of the dashboard
    behind no check, the gateway's own device identity and the staged
    configuration proposals. *)

From stdpp Require Import sorting.
From S2P Require Import Prelude Domain Ids Text Models StoreBase Store ExtensionStore Events Envelope Journal Effects RunServices Turns.
From S2P Require Import Coordinator Approvals Profiles Config LoopFeed Planning Resolver Worker ApiAuth EventApi Views ControlApi Devices GatewayAuth.
From S2P Require Import GatewayText Gateway GatewayQueries.

Open Scope string_scope.
Open Scope Z_scope.

(** ** Pages *)

(** The extension after the last dot; the whole text without one. *)
Definition last_part (path : string) : string := match rsplit_once "." path with Some (_, ext) => ext | None => path end.

Definition mime_of (path : string) : string :=
  let ext := last_part path in
  let among l := bool_decide (ext ∈ l) in
  if among ["html"] then "text/html; charset=utf-8"
  else if among ["js"; "mjs"] then "text/javascript"
  else if among ["css"] then "text/css"
  else if among ["json"; "map"] then "application/json"
  else if among ["svg"] then "image/svg+xml"
  else if among ["png"] then "image/png"
  else if among ["ico"] then "image/x-icon"
  else if among ["woff"; "woff2"] then "font/woff2"
  else if among ["txt"] then "text/plain; charset=utf-8"
  else if among ["wasm"] then "application/wasm"
  else "application/octet-stream".

(** An embedded file, JSON, or the head of an answer without its body. *)
Inductive Answered :=
  | Page (mime cache_control : string) (data : bytes)
  | JsonAnswer (r : Response)
  | HeadOnly (a : Answered).

Definition not_found : Response := mkResponse 404 (error_body "not found").

Section Pages.
(** [WebDist::get]: the files embedded at build time. *)
Context (web_dist : string -> option bytes).

Definition embedded (path : string) : Answered :=
  match web_dist path with
  | Some data => Page (mime_of path) (if starts_with "assets/" path then "public, max-age=31536000, immutable" else "no-cache") data
  | None => JsonAnswer not_found
  end.

Fixpoint trim_slashes (s : string) : string :=
  match s with String "/" s => trim_slashes s | _ => s end.

Definition serve_static (uri_path : string) : Answered :=
  let path := trim_slashes uri_path in
  if starts_with "api/" path then JsonAnswer not_found
  else match web_dist path with
       | Some _ => if str_is_empty path then embedded "index.html" else embedded path
       | None => embedded "index.html"
       end.
End Pages.

(** ** Staged proposals *)

Definition MAX_PROPOSALS : nat := 64.

Definition older (a b : Z * string) : Prop := a.1 <= b.1.
#[export] Instance older_dec : RelDecision older.
Proof. intros a b. unfold older. apply _. Defined.
#[export] Instance older_total : Total older.
Proof. intros a b. unfold older. lia. Qed.
#[export] Instance older_trans : Transitive older.
Proof. intros a b c. unfold older. lia. Qed.

(** [Path::extension] of a file name. *)
Definition extension (name : string) : option string :=
  match rsplit_once "." name with Some (stem, ext) => if str_is_empty stem then None else Some ext | None => None end.

(** [Path::join] of a relative name, as text. *)
Definition path_join (dir name : string) : string :=
  if str_is_empty dir then name else if ends_with "/" dir then dir +:+ name else dir +:+ "/" +:+ name.

(** What the operating system makes of the steps of staging: each can fail with a
    text; [std::fs::write] can also leave other content behind; [read_dir] lists
    names in its own order; a time, in nanoseconds of the epoch, may be unreadable;
    a removal may fail, which is ignored; the worker may not run at all. *)
Record ProposalIo := mkProposalIo {
  pi_worker : option string;
  pi_create_dir : option string;
  pi_write : option (option bytes * string);
  pi_set_permissions : option string;
  pi_read_dir : list string + string;
  pi_modified : string -> option Z;
  pi_removes : string -> bool }.

(** The files beyond the bound, oldest first. *)
Definition excess_files (files : list (Z * string)) : list (Z * string) :=
  take (length files - MAX_PROPOSALS) (merge_sort older files).

Definition prune_proposals (io : ProposalIo) (dir : list string) (fs : Files) : option string * Files :=
  match io.(pi_read_dir) with
  | inr e => (Some e, fs)
  | inl names =>
      let present := List.filter (fun name => bool_decide (is_Some (fs !! (dir ++ [name])%list))) names in
      let yaml := List.filter (fun name => bool_decide (extension name = Some "yaml")) present in
      let files := omap (fun name => (fun t => (t, name)) <$> io.(pi_modified) name) yaml in
      (None, foldl (fun fs file => if io.(pi_removes) file.2 then delete (dir ++ [file.2])%list fs else fs) fs (excess_files files))
  end.

(** [v as i64]. *)
Definition u128_as_i64 (z : Z) : Z := (z + 9223372036854775808) mod 18446744073709551616 - 9223372036854775808.

(** [as_millis() as i64] of a time, zero when it is unknown or before the epoch. *)
Definition created_at (modified : option Z) : Z :=
  match modified with Some t => if t <? 0 then 0 else u128_as_i64 (t / 1000000) | None => 0 end.

(** The closure given to [spawn_blocking]: the time of the file, or an error. *)
Definition stage_proposal (io : ProposalIo) (dir : list string) (name : string) (document : string) (fs : Files) : (Z + string) * Files :=
  let path := (dir ++ [name])%list in
  match io.(pi_create_dir) with
  | Some e => (inr e, fs)
  | None =>
      match io.(pi_write) with
      | Some (torn, e) => (inr e, from_option (fun content => <[path := content]> fs) fs torn)
      | None =>
          let fs := <[path := into_bytes document]> fs in
          match io.(pi_set_permissions) with
          | Some e => (inr e, fs)
          | None =>
              let '(failed, fs) := prune_proposals io dir fs in
              (match failed with Some e => inr e | None => inl (created_at (io.(pi_modified) name)) end, fs)
          end
      end
  end.

Section Proposals.
Context `{!Ext} `{!ConfigYaml} `{!GatewayHost}.

Definition proposed_dir (st : AppState) : list string := (components st.(as_runtime_dir) ++ ["proposed"])%list.

Definition api_proposals_create (st : AppState) (io : ProposalIo) (body : Value) (g : Gateway) : Response * Gateway :=
  match req_string "document" body with
  | inr r => (r, g)
  | inl document =>
      let '(id, g) := gw_draw g in
      let name := uuid_hyphenated id +:+ ".yaml" in
      match io.(pi_worker) with
      | Some e => (gw_err ("proposal worker: " +:+ e), g)
      | None =>
          let '(written, fs) := stage_proposal io (proposed_dir st) name document g.(gw_files) in
          (match written with
           | inr e => gw_err ("write proposal: " +:+ e)
           | inl created_at_ms => json_ok (proposal_json (uuid_hyphenated id)
               (path_join (path_join st.(as_runtime_dir) "proposed") name) created_at_ms document)
           end, mkGateway g.(gw_world) g.(gw_index) fs g.(gw_drawn))
      end
  end.

(** Only files of that directory differ. *)
Definition same_outside (dir : list string) (fs fs' : Files) : Prop :=
  forall path, (forall name, path <> (dir ++ [name])%list) -> fs' !! path = fs !! path.

Lemma same_outside_insert dir name content fs fs' : same_outside dir fs fs' -> same_outside dir fs (<[(dir ++ [name])%list := content]> fs').
Proof. intros Hs path Hp. rewrite lookup_insert_ne by (intros E; by apply (Hp name)). by apply Hs. Qed.

Lemma prune_same_outside io dir fs fs' : same_outside dir fs fs' -> same_outside dir fs (snd (prune_proposals io dir fs')).
Proof.
  unfold prune_proposals. destruct (pi_read_dir io); [|done]. cbn [snd]. generalize (excess_files (omap (fun name => (fun t => (t, name)) <$> pi_modified io name)
    (List.filter (fun name => bool_decide (extension name = Some "yaml"))
      (List.filter (fun name => bool_decide (is_Some (fs' !! (dir ++ [name])%list))) l)))).
  intros removed. revert fs'. induction removed as [|file removed IH]; intros fs' Hs; [done|]. cbn [foldl]. apply IH.
  destruct (pi_removes io file.2); [|done]. intros path Hp. rewrite lookup_delete_ne by (intros E; by apply (Hp file.2)). by apply Hs.
Qed.

Lemma proposals_create_confined st io body g : let g' := snd (api_proposals_create st io body g) in
  g'.(gw_world) = g.(gw_world) /\ g'.(gw_index) = g.(gw_index) /\ same_outside (proposed_dir st) g.(gw_files) g'.(gw_files).
Proof.
  unfold api_proposals_create, gw_draw. destruct (req_string _ _); [|done]. destruct (pi_worker io); [done|].
  unfold stage_proposal. destruct (pi_create_dir io); [done|].
  destruct (pi_write io) as [[[torn|] e]|]; [split_and!; [done..|by apply same_outside_insert]|done|].
  destruct (pi_set_permissions io); [split_and!; [done..|by apply same_outside_insert]|].
  cbn [gw_files]. set (name := uuid_hyphenated _ +:+ _). set (fs := <[_ := _]> (gw_files g)).
  assert (Hs : same_outside (proposed_dir st) (gw_files g) fs) by (by apply same_outside_insert).
  apply (prune_same_outside io) in Hs. by destruct (prune_proposals io (proposed_dir st) fs) as [[]].
Qed.

(** The most recent proposals stay, at most sixty-four of them, and none is lost
    below that bound. *)
Lemma excess_keeps_newest files : exists kept, (excess_files files ++ kept)%list ≡ₚ files /\
  length kept = Nat.min MAX_PROPOSALS (length files) /\ (forall a b, a ∈ excess_files files -> b ∈ kept -> a.1 <= b.1).
Proof.
  unfold excess_files. set (n := (_ - _)%nat). exists (drop n (merge_sort older files)). split; [|split].
  - rewrite take_drop. apply merge_sort_Permutation.
  - subst n. rewrite length_drop, merge_sort_Permutation. lia.
  - intros a b Ha Hb. pose proof (StronglySorted_merge_sort older files) as Hs.
    rewrite <- (take_drop n (merge_sort older files)) in Hs. exact (StronglySorted_app_1_elem_of _ _ _ _ _ Hs Ha Hb).
Qed.
End Proposals.

(** ** Routes *)

Inductive Method := Get | Head | Post | OtherMethod.

Inductive Route :=
  | RIndexPage | RHealth | RIndex | RRunsList | RMetrics | RConfig | RGenerations | RProposalsList | RProposalsCreate | RProfiles
  | RAdapters | RApprovals | REventsRead | REventsSubscribe
  | RRun (id : string) | RDecisions (id : string) | REnvironment (id : string) | RGraph (id : string) | REffect (id : string)
  | RPost (p : option string -> Posted).

(** The handlers of a path for GET and POST. *)
Record Handlers := mkHandlers { on_get : option Route; on_post : option Route }.
Definition gets (r : Route) : Handlers := mkHandlers (Some r) None.
Definition posts (p : option string -> Posted) : Handlers := mkHandlers None (Some (RPost p)).

Definition fixed_routes : list (string * Handlers) :=
  [("/", gets RIndexPage); ("/api/health", gets RHealth); ("/api/index", gets RIndex);
   ("/api/sessions", posts (fun _ => PostSession)); ("/api/specs", posts (fun _ => PostSpec));
   ("/api/runs", mkHandlers (Some RRunsList) (Some (RPost (fun _ => PostRun))));
   ("/api/adapters", gets RAdapters); ("/api/config", gets RConfig); ("/api/config/generations", gets RGenerations);
   ("/api/config/proposals", mkHandlers (Some RProposalsList) (Some RProposalsCreate));
   ("/api/profiles", gets RProfiles); ("/api/metrics", gets RMetrics); ("/api/approvals", gets RApprovals);
   ("/api/approvals/respond", posts PostRespond); ("/api/events/read", gets REventsRead);
   (SSE_PATH, gets REventsSubscribe)].

(** A route with a parameter: the segments around it. *)
Definition param_routes : list (string * string * (string -> Handlers)) :=
  [("runs", "", fun id => gets (RRun id)); ("runs", "decisions", fun id => gets (RDecisions id));
   ("runs", "environment", fun id => gets (REnvironment id)); ("runs", "cancel", fun id => posts (fun _ => PostCancel id));
   ("tasks", "graph", fun id => gets (RGraph id)); ("effects", "", fun id => gets (REffect id));
   ("effects", "resolve", fun id => posts (fun _ => PostResolve id))].

Definition param_route (kind id action : string) : option Handlers :=
  if str_is_empty id then None
  else head (omap (fun '(k, a, h) => if bool_decide (k = kind) && bool_decide (a = action) then Some (h id) else None) param_routes).

(** A parameter is one segment that is not empty. *)
Definition handlers_of (path : string) : option Handlers :=
  match find (fun r => bool_decide (r.1 = path)) fixed_routes with
  | Some (_, h) => Some h
  | None =>
      match split_on "/" path with
      | [root; api; kind; id] => if bool_decide (root = "" /\ api = "api") then param_route kind id "" else None
      | [root; api; kind; id; action] =>
          if bool_decide (root = "" /\ api = "api" /\ action <> "") then param_route kind id action else None
      | _ => None
      end
  end.

(** What the router does with a request: the fallback lies outside the layers; a
    known path with another method is answered inside them. *)
Inductive Routed := Fallback | WrongMethod | To (r : Route).
Definition route (m : Method) (path : string) : Routed :=
  match handlers_of path with
  | None => Fallback
  | Some h => from_option To WrongMethod (match m with Get | Head => h.(on_get) | Post => h.(on_post) | OtherMethod => None end)
  end.

(** The answer to HEAD goes without its body. *)
Definition as_sent (m : Method) (a : Answered) : Answered := match m with Head => HeadOnly a | _ => a end.

Section Site.
Context `{!Ext} `{!SerdeJson} `{!DeviceJson} `{!GatewayHost} `{!GatewayCodec} `{!IndexJson} `{!ResponseCodec} `{!ConfigYaml}.
(** [reads]: the answers of the routes that only read. *)
Context (st : AppState) (web_dist : string -> option bytes) (reads : Route -> HttpRequest -> Gateway -> Answered).

Definition run_route (o : Outside) (io : ProposalIo) (r : Route) (caller : string) (req : HttpRequest) (body : Value) (g : Gateway)
    : Answered * Gateway :=
  match r with
  | RPost p => let '(resp, g) := post st o (p (Some caller)) body g in (JsonAnswer resp, g)
  | RProposalsCreate => let '(resp, g) := api_proposals_create st io body g in (JsonAnswer resp, g)
  | RIndexPage => (embedded web_dist "index.html", g)
  | _ => (reads r req g, g)
  end.

(** The layers are passed from the last to the first: the check comes before
    anything else. *)
Definition handle (faults : IoFaults) (o : Outside) (io : ProposalIo) (m : Method) (req : HttpRequest) (body : Value) (g : Gateway)
    : Answered * Gateway :=
  let '(a, g) :=
    match route m req.(rq_path) with
    | Fallback => (serve_static web_dist req.(rq_path), g)
    | routed =>
        match require_auth faults g.(gw_files) st.(as_auth) req with
        | Unauthorized => (JsonAnswer unauthorized, g)
        | RegistryUnavailable e => (JsonAnswer (mkResponse 503 (error_body e)), g)
        | Admit caller =>
            match routed with
            | To r => run_route o io r caller req body g
            | _ => (JsonAnswer (mkResponse 405 VNull), g)
            end
        end
    end in
  (as_sent m a, g).

(** No path has a handler for GET that changes anything. *)
Lemma get_only_reads path h r : handlers_of path = Some h -> h.(on_get) = Some r -> r <> RProposalsCreate /\ forall p, r <> RPost p.
Proof.
  unfold handlers_of. destruct (find _ fixed_routes) as [[path' h']|] eqn:Ef.
  - intros [= ->]. apply find_some in Ef as [Hin _]. simpl in Hin. intros Hg.
    repeat (destruct Hin as [[= <- <-]|Hin]; [simpl in Hg; by simplify_eq|]). done.
  - assert (Hp : forall k id a h, param_route k id a = Some h -> on_get h = Some r -> r <> RProposalsCreate /\ forall p, r <> RPost p).
    { intros k id a h0. unfold param_route. destruct (str_is_empty id); [done|].
      intros ([[k' a'] hf] & Hin & E)%head_Some_elem_of%list_elem_of_omap. destruct (_ && _); [|done]. injection E as <-.
      unfold param_routes in Hin. repeat (apply elem_of_cons in Hin as [[= -> -> ->]|Hin]; [cbn; intros; by simplify_eq|]). by apply elem_of_nil in Hin. }
    repeat case_match; intros E1 E2; try done; by eapply Hp.
Qed.

(** What an admitted request may change: a command's effects, or the directory of
    proposals. *)
Definition permitted (o : Outside) (m : Method) (req : HttpRequest) (body : Value) (caller : string) (g g' : Gateway) : Prop :=
  m = Post /\
  ((exists p resp, route m req.(rq_path) = To (RPost p) /\ post st o (p (Some caller)) body g = (resp, g')) \/
   (route m req.(rq_path) = To RProposalsCreate /\ g'.(gw_world) = g.(gw_world) /\ g'.(gw_index) = g.(gw_index) /\
    same_outside (proposed_dir st) g.(gw_files) g'.(gw_files))).

(** A request that changes anything was admitted, as the caller its handler sees,
    and went to one of the routes for commands or for a proposal. *)
Lemma run_route_changes o io m r caller req body g a g' : route m req.(rq_path) = To r ->
  run_route o io r caller req body g = (a, g') -> g' <> g -> permitted o m req body caller g g'.
Proof.
  intros Hr E Hne. assert (Hm : r = RProposalsCreate \/ (exists p, r = RPost p) -> m = Post).
  { intros Hw. revert Hr. unfold route. destruct (handlers_of (rq_path req)) as [h|] eqn:Eh; [|done].
    destruct m; try done; (destruct (on_get h) as [r'|] eqn:Eg; [|done]); intros [= ->];
      destruct (get_only_reads _ _ _ Eh Eg) as [H1' H2']; destruct Hw as [->|[p ->]]; done || by destruct (H2' p). }
  unfold run_route in E. destruct r; try (by injection E as _ <-).
  - destruct (api_proposals_create st io body g) as [resp g1] eqn:Ep. injection E as _ <-.
    split; [apply Hm; by left|]. right. split; [done|]. pose proof (proposals_create_confined st io body g) as Hc. by rewrite Ep in Hc.
  - destruct (post _ _ _ _ _) as [resp g1] eqn:Ep. injection E as _ <-. split; [apply Hm; by eauto|]. left. by exists p, resp.
Qed.

(** C19: Over a listener that is not the loopback, the gateway answers a request
    without a valid credential with a page of the dashboard, 401, or 503 when the
    device registry cannot be read, and changes nothing; anything else happens on
    behalf of the caller the bearer token proves: [admin] for the configured
    master token, or a device that is enabled in the registry file at that moment
    and whose stored hash is the token's.  What such a request changes comes from a
    POST to a command route, run as that caller, or from a staged configuration
    proposal, which touches files of the proposals directory and neither the kernel
    nor the index.  The gateway does not start on such a listener with neither a
    token nor a registry. *)
Theorem remote_requests_need_credentials env_token env_devices args opts :
  gw_main env_token env_devices args = Serve opts false -> st.(as_auth) = gw_auth opts false ->
  (opts.(go_auth_token) <> None \/ opts.(go_devices_file) <> None) /\
  forall faults o io m req body g a g', handle faults o io m req body g = (a, g') ->
  (route m req.(rq_path) = Fallback /\ a = as_sent m (serve_static web_dist req.(rq_path)) /\ g' = g) \/
  ((a = as_sent m (JsonAnswer unauthorized) \/ exists e, a = as_sent m (JsonAnswer (mkResponse 503 (error_body e)))) /\ g' = g) \/
  exists caller token, bearer req = Some token /\
    (caller = "admin" /\ opts.(go_auth_token) = Some token \/
     exists file reg e, opts.(go_devices_file) = Some file /\ holds (components file) g.(gw_files) reg /\
       reg.(dr_devices) !! caller = Some e /\ e.(de_enabled) = true /\ e.(de_token_hash) = token_hash token) /\
    (g' <> g -> permitted o m req body caller g g').
Proof.
  intros Hm Hst. destruct (remote_requests_authenticated _ _ _ _ Hm) as [Hc Hauth]. split; [done|].
  intros faults o io m req body g a g' Eh. unfold handle in Eh.
  destruct (route m (rq_path req)) as [| |r] eqn:Er; [injection Eh as <- <-; by left|..].
  all: destruct (require_auth _ _ _ _) as [caller| |e] eqn:Ea; [|injection Eh as <- <-; by eauto|injection Eh as <- <-; right; left; by eauto].
  all: right; right; rewrite Hst in Ea; destruct (Hauth _ _ _ _ Ea) as (token & Hb & Hent).
  all: exists caller, token; split_and!; [done|done|].
  - by injection Eh as _ <-.
  - destruct (run_route o io r caller req body g) as [a1 g1] eqn:E1. injection Eh as _ <-. by eapply run_route_changes.
Qed.
End Site.

(** ** The gateway's own device *)

Section LocalDevice.
Context `{!Ext} `{!GatewayHost}.

(** The id of the file, or a new one, which is written when that succeeds. *)
Definition local_device_id (readable writable : bool) (runtime_dir : list string) (n : nat) (fs : Files) : string * Files :=
  let path := (runtime_dir ++ ["agentgw-device-id"])%list in
  match (if readable then content ← fs !! path; s ← from_utf8 content;
           if bool_decide (is_Some (uuid_v7_from_str (str_trim s))) then Some (str_trim s) else None
         else None) with
  | Some id => (id, fs)
  | None =>
      let id := uuid_hyphenated (gw_uuid n) in
      (id, if writable then <[path := into_bytes id]> fs else fs)
  end.

End LocalDevice.
