(* ===== verification/Bootstrap.v ===== *)
(** * The daemon's start ([agentd/src/bootstrap.rs], [runtime/src/lib.rs])

    The command registry the daemon boots with, the operator's delegation chain,
    the adapter bundles, and the configuration document of the command line.
    Until [boot] returns nothing else writes to the store: the runtime directory
    is locked, the fence is the daemon's, and no worker or connection runs. *)

From S2P Require Import Prelude Domain Ids Text Models StoreBase Store SecurityStore ExtensionStore Ledger Identity Permissions.
From S2P Require Import Events Envelope Journal Runs RunGraph EffectPolicy Effects Scheduler Resources Kernel RunServices Bind.
From S2P Require Import Coordinator Approvals Recovery LocalFiles Profiles Config Resolver Bundles Supervisor WorkerBase Worker.

Open Scope string_scope.
Open Scope Z_scope.

(** ** The command registry *)

Definition CMD_CREATE_SESSION : string := "agentos.spec.v1.CreateSession".
Definition CMD_PUT_AGENT_SPEC_REVISION : string := "agentos.spec.v1.PutAgentSpecRevision".
Definition CMD_CANCEL_RUN : string := "agentos.spec.v1.CancelRun".
Definition CMD_CANCEL_TIMER : string := "agentos.spec.v1.CancelTimer".

Section BootRegistry.
Context `{!Ext} `{!Contracts} `{!BindContracts} `{!ApprovalContracts} `{!RecoveryContracts} `{!ConfigYaml} `{!ConfigContracts}.

Abbreviation register := Coordinator.register.

(** [runtime::register_handlers]. *)
Definition register_runtime_handlers (registry : CommandRegistry) : Res CommandRegistry :=
  let? registry := register CMD_CREATE_SESSION create_session_handle registry in
  let? registry := register CMD_PUT_AGENT_SPEC_REVISION put_agent_spec_revision_handle registry in
  let? registry := register CMD_CREATE_TASK_RUN create_task_run_handle registry in
  let? registry := register CMD_BIND_RUN bind_run_handle registry in
  let? registry := register CMD_CLAIM_READY_RUN claim_ready_run_handle registry in
  let? registry := register CMD_CANCEL_RUN cancel_run_handle registry in
  let? registry := register CMD_SCHEDULE_TIMER schedule_timer_handle registry in
  let? registry := register CMD_CANCEL_TIMER cancel_timer_handle registry in
  register CMD_RESOLVE_UNKNOWN_EFFECT resolve_unknown_effect_handle registry.

(** The registry [boot] builds. *)
Definition boot_registry (running_services : ServicesSection) : Res CommandRegistry :=
  let? registry := register_runtime_handlers ∅ in
  let? registry := register_approval_handlers registry in
  let? registry := register_config_handlers running_services registry in
  let? registry := register CMD_RUN_WAIT_EXPIRED run_wait_expired_handle registry in
  register CMD_RUN_CANCEL_COMPLETE run_cancel_complete_handle registry.

(** The coordinator it is given to: a fixed epoch and no fault points. *)
Definition boot_coordinator (running_services : ServicesSection) (epoch : Z) : Res CommandCoordinator :=
  let? registry := boot_registry running_services in
  Ok (mkCommandCoordinator registry epoch (fun _ => false)).

(** *** The registrations as one list *)

Fixpoint register_all (entries : list (string * CommandHandler)) (registry : CommandRegistry) : Res CommandRegistry :=
  match entries with
  | [] => Ok registry
  | (ty, h) :: entries => let? registry := register ty h registry in register_all entries registry
  end.

Definition command_catalog (running_services : ServicesSection) : list (string * CommandHandler) :=
  [ (CMD_CREATE_SESSION, create_session_handle);
    (CMD_PUT_AGENT_SPEC_REVISION, put_agent_spec_revision_handle);
    (CMD_CREATE_TASK_RUN, create_task_run_handle);
    (CMD_BIND_RUN, bind_run_handle);
    (CMD_CLAIM_READY_RUN, claim_ready_run_handle);
    (CMD_CANCEL_RUN, cancel_run_handle);
    (CMD_SCHEDULE_TIMER, schedule_timer_handle);
    (CMD_CANCEL_TIMER, cancel_timer_handle);
    (CMD_RESOLVE_UNKNOWN_EFFECT, resolve_unknown_effect_handle);
    (CMD_CREATE_APPROVAL_REQUEST, create_approval_request_handle);
    (CMD_RESPOND_APPROVAL, respond_approval_handle);
    (CMD_PROPOSE_CONFIG, propose_config_handle);
    (CMD_MARK_CONFIG_TESTED, mark_config_tested_handle);
    (CMD_ACTIVATE_CONFIG, activate_config_handle running_services);
    (CMD_ROLLBACK_CONFIG, rollback_config_handle running_services);
    (CMD_RUN_WAIT_EXPIRED, run_wait_expired_handle);
    (CMD_RUN_CANCEL_COMPLETE, run_cancel_complete_handle) ].

Lemma register_all_app l1 l2 registry :
  register_all (l1 ++ l2) registry = res_bind (register_all l1 registry) (register_all l2).
Proof.
  revert registry. induction l1 as [|[ty h] l1 IH]; intros registry; [done|]. cbn [app register_all].
  destruct (register ty h registry) as [r|e]; [apply IH|done].
Qed.

Lemma register_all_one ty h registry : register_all [(ty, h)] registry = register ty h registry.
Proof. cbn [register_all]. by destruct (register ty h registry). Qed.

Lemma register_all_fresh l registry :
  Forall (fun ty => trim_is_empty ty = false) l.*1 -> NoDup l.*1 -> Forall (fun ty => registry !! ty = None) l.*1 ->
  register_all l registry = Ok (list_to_map (reverse l) ∪ registry).
Proof.
  revert registry. induction l as [|[ty h] l IH]; intros registry Ht Hd Hn.
  { cbn. by rewrite (left_id_L ∅ (∪)). }
  cbn in Ht, Hd, Hn. apply list.Forall_cons in Ht as [Ht1 Ht], Hn as [Hn1 Hn]. apply list.NoDup_cons in Hd as [Hd1 Hd].
  cbn [register_all]. unfold Coordinator.register. rewrite Ht1, Hn1. cbn [res_bind]. rewrite IH; [|done|done|].
  - f_equal. rewrite reverse_cons, list_to_map_app. cbn. rewrite <- (assoc_L (∪)). f_equal.
    by rewrite insert_empty, <- insert_union_singleton_l.
  - rewrite list.Forall_forall in Hn |- *. intros k Hk. rewrite lookup_insert_ne; [by apply Hn|by intros ->].
Qed.

Lemma boot_registry_catalog services : boot_registry services = register_all (command_catalog services) ∅.
Proof.
  unfold boot_registry, register_runtime_handlers, register_approval_handlers, register_config_handlers, command_catalog.
  cbn [register_all]. generalize Coordinator.register as reg. intros reg.
  repeat (match goal with |- res_bind (res_bind ?x _) _ = _ => destruct x | |- res_bind ?x _ = _ => destruct x | |- ?x = res_bind ?x _ => destruct x end;
    cbn [res_bind]; [|reflexivity]). reflexivity.
Qed.

Lemma boot_registry_ok services :
  boot_registry services = Ok (list_to_map (reverse (command_catalog services))).
Proof.
  rewrite boot_registry_catalog, register_all_fresh; [by rewrite (right_id_L ∅ (∪))|..].
  - by repeat constructor.
  - by apply (bool_decide_eq_true_1 (NoDup (command_catalog services).*1)).
  - apply list.Forall_forall. intros k _. apply lookup_empty.
Qed.

(** *** Every handler keeps the kernel's invariants *)

Lemma state_move_kernel id rev from to reason :
  allows from to = true -> ensures (on_db kernel_rel) (runs_cas_update id (RunCas.mk rev (Some from) None) (state_patch to reason)).
Proof. intros Ha. by apply runs_cas_update_kernel, state_patch_sound. Qed.
#[local] Hint Extern 1 (ensures _ (runs_cas_update _ _ _)) => apply state_move_kernel; reflexivity : ensures.

#[export] Instance run_wait_expired_handler : KernelHandler run_wait_expired_handle.
Proof. intros ctx payload. unfold run_wait_expired_handle. solve_ensures. Qed.

#[export] Instance run_cancel_complete_handler : KernelHandler run_cancel_complete_handle.
Proof. intros ctx payload. unfold run_cancel_complete_handle, stage_on_run. solve_ensures. Qed.

Lemma command_catalog_kernel services : Forall (fun e : string * CommandHandler => KernelHandler e.2) (command_catalog services).
Proof.
  assert (Hc : forall h, h ∈ config_commands services -> KernelHandler h) by apply config_command_kernel.
  unfold command_catalog. repeat apply list.Forall_cons_2; cbn [snd]; try apply list.Forall_nil_2;
    solve [apply Hc; unfold config_commands; set_solver | apply _ | intros ctx payload; auto with ensures].
Qed.

Lemma boot_registry_sound services registry : boot_registry services = Ok registry -> registry_sound registry.
Proof.
  rewrite boot_registry_ok. intros E. apply (f_equal (fun r => match r with Ok x => x | Err _ => registry end)) in E.
  cbv beta iota in E. subst registry. intros ty h Hh. apply elem_of_list_to_map_2 in Hh.
  apply (proj1 (list.Forall_forall _ _) (command_catalog_kernel services) (ty, h)). by apply elem_of_reverse.
Qed.
End BootRegistry.

Section BootSafety.
Context `{!Ext} `{!Contracts} `{!BindContracts} `{!ApprovalContracts} `{!RecoveryContracts} `{!ConfigYaml} `{!ConfigContracts}.

Lemma boot_coordinator_inv services epoch c :
  boot_coordinator services epoch = Ok c ->
  c = mkCommandCoordinator (list_to_map (reverse (command_catalog services))) epoch (fun _ => false).
Proof.
  unfold boot_coordinator. rewrite boot_registry_ok. cbn [res_bind]. intros E.
  apply (f_equal (fun r => match r with Ok x => x | Err _ => c end)) in E. symmetry. exact E.
Qed.

Lemma begin_write_db ctx w t : begin_write ctx w = Ok t -> t.(t_db) = w.(w_db).
Proof. unfold begin_write. destruct (assert_epoch _ _); [|done]. by intros [= <-]. Qed.

(** How a command of a booted daemon ends: refused or replayed with the store as
    it was, or carried out by the handler the catalogue names and recorded. *)
Lemma booted_execute_inv services epoch c env w r w' :
  boot_coordinator services epoch = Ok c -> execute c env w = (r, w') ->
  (w'.(w_db) = w.(w_db) /\
     ((exists e, r = Err e) \/
      exists stored, w.(w_db).(idempotency_records) !! command_key env = Some stored /\ r = replay_stored env stored)) \/
  (exists h t o t1 rec, (env.(ce_command_type), h) ∈ command_catalog services /\ t.(t_db) = w.(w_db) /\
     w.(w_db).(idempotency_records) !! command_key env = None /\
     h (command_context env) env.(ce_payload) t = (Ok o, t1) /\ r = Ok o /\
     w'.(w_db) = set_idempotency_records (<[command_key env := rec]> t1.(t_db).(idempotency_records)) t1.(t_db) /\
     rec.(IdempotencyRecordRow.outcome_payload) = o.(co_payload)).
Proof.
  intros ->%boot_coordinator_inv E. apply execute_inv in E as [Hs|(h & t & o & t1 & t2 & Hh & Hb & Hn & E1 & E2 & -> & ->)]; [by left|right].
  unfold registry_get in Hh. cbn [coord_registry] in Hh.
  apply (elem_of_list_to_map_2 (reverse (command_catalog services))) in Hh. apply elem_of_reverse in Hh.
  apply insert_record_inv in E2 as (rec & E2 & Hn1 & rec' & Hr & _ & _ & Hp). rewrite E2 in Hr. cbn in Hr.
  rewrite lookup_insert_eq in Hr. injection Hr as <-.
  exists h, t, o, t1, rec. split_and!; try done. by apply begin_write_db in Hb.
Qed.

(** What every handler keeps, and recording keeps, a command keeps. *)
Lemma booted_execute_frame (R : Db -> Db -> Prop) `{!PreOrder R} services epoch c env w r w' :
  Forall (fun e : string * CommandHandler => forall ctx payload, ensures (on_db R) (e.2 ctx payload)) (command_catalog services) ->
  (forall d x, R d (set_idempotency_records x d)) ->
  boot_coordinator services epoch = Ok c -> execute c env w = (r, w') -> R w.(w_db) w'.(w_db).
Proof.
  intros Hall Hrec Hc E. destruct (booted_execute_inv _ _ _ _ _ _ _ Hc E) as [[-> _]|(h & t & o & t1 & rec & Hh & <- & _ & E1 & _ & -> & _)]; [done|].
  rewrite list.Forall_forall in Hall. destruct (Hall _ Hh _ _ _ _ _ E1) as [H1' _]. by etransitivity.
Qed.

(** C14: The daemon boots with a well-formed command registry: building it never
    fails, it binds exactly the seventeen command types of the catalogue, each to
    a handler that keeps the kernel's invariants, so that whatever command its
    coordinator executes leads from a consistent store to a consistent store that
    only moves forward; any other command type is refused and changes nothing. *)
Theorem boot_registry_well_formed services epoch :
  exists c, boot_coordinator services epoch = Ok c /\ c.(coord_epoch) = epoch /\
    dom c.(coord_registry) = list_to_set (command_catalog services).*1 /\ size (dom c.(coord_registry)) = 17%nat /\
    (forall env w, kernel_rel w.(w_db) (w_db (snd (execute c env w))) /\
       (kernel_inv w.(w_db) -> kernel_inv (w_db (snd (execute c env w))))) /\
    (forall env w, env.(ce_command_type) ∉ (command_catalog services).*1 ->
       execute c env w = (Err (unregistered env.(ce_command_type)), w)).
Proof.
  pose proof (boot_registry_ok services) as E. unfold boot_coordinator. rewrite E. cbn [res_bind].
  eexists. split; [reflexivity|]. cbn [coord_epoch coord_registry]. split; [done|].
  assert (Hdom : dom (list_to_map (reverse (command_catalog services)) : CommandRegistry) = list_to_set (command_catalog services).*1).
  { rewrite dom_list_to_map_L, fmap_reverse. apply set_eq. intros k.
    by rewrite !elem_of_list_to_set, elem_of_reverse. }
  split; [exact Hdom|]. split; [rewrite Hdom; vm_compute; reflexivity|]. split.
  - intros env w. destruct (execute _ env w) as [r w'] eqn:Ex. cbn [snd].
    assert (Hk : kernel_rel w.(w_db) w'.(w_db)) by (eapply execute_kernel; [|exact Ex]; by eapply boot_registry_sound).
    split; [done|]. intros Hi. by apply (kernel_rel_inv _ _ Hk).
  - intros env w Hne. unfold execute, registry_get. cbn [coord_registry].
    assert (Hn : (list_to_map (reverse (command_catalog services)) : CommandRegistry) !! ce_command_type env = None).
    { apply not_elem_of_dom. rewrite Hdom. by rewrite elem_of_list_to_set. }
    by rewrite Hn.
Qed.
End BootSafety.
