(* ===== verification/OperatorChain.v ===== *)
(** * The operator's delegation chain ([agentd/src/bootstrap.rs])

    [deterministic_uuid_v7] and [seed_operator_chain]: the daemon issues its
    local owner the authority to resolve unknown effects, under identifiers
    derived from the owner, so that every restart finds the chain it seeded. *)

From S2P Require Import Prelude Domain Ids Text Models StoreBase Store SecurityStore ExtensionStore Ledger Identity Permissions.
From S2P Require Import Events Runs RunGraph EffectPolicy Effects Scheduler Resources Kernel RunServices Coordinator Approvals.
From S2P Require Import Recovery Profiles Config Bind Worker Bootstrap.

Open Scope string_scope.
Open Scope Z_scope.

(** ** Derived identifiers *)

Definition boot_error (message : string) : KernelError := kerr FailedPrecondition message.

(** [Uuid::from_bytes]: sixteen bytes, the most significant first. *)
Definition uuid_from_bytes (l : bytes) : Uuid := fold_left (fun acc b => acc * 256 + Byte.to_N b)%N l 0%N.

Definition byte_of (n : N) : Byte.byte := default Byte.x00 (Byte.of_N n).

(** The version nibble of byte 6 and the variant bits of byte 8. *)
Definition mark_version (b : Byte.byte) : Byte.byte := byte_of (N.lor 112 (N.land (Byte.to_N b) 15)).
Definition mark_variant (b : Byte.byte) : Byte.byte := byte_of (N.lor 128 (N.land (Byte.to_N b) 63)).

(** The daemon's own principal and actor. *)
Definition DAEMON_PRINCIPAL : PrincipalId := 0x700080000000000000dd%N.
Definition DAEMON_ACTOR : ActorId := 0x700080000000000000ae%N.

Section Operator.
Context `{!Ext}.

Definition derived_uuid (seed : string) : Uuid :=
  uuid_from_bytes (alter mark_variant 8%nat (alter mark_version 6%nat (take 16 (sha256 (into_bytes seed))))).

Definition deterministic_uuid_v7 (seed : string) : string := uuid_hyphenated (derived_uuid seed).

Definition operator_chain_seed (principal : PrincipalId) : string := "agentos/operator-chain/" +:+ uuid_hyphenated principal.
Definition operator_grant_seed (principal : PrincipalId) : string := "agentos/operator-grant/" +:+ uuid_hyphenated principal.

Definition operator_grant (grant_id : CapabilityGrantId) (principal : PrincipalId) (actor : ActorId) (now_ms : Z) : NewCapabilityGrant :=
  NewCapabilityGrant.mk grant_id principal actor None "effect.resolve_unknown" [] None None None now_ms.

Definition operator_hop (chain_id : DelegationChainId) (grant_id : CapabilityGrantId) (actor : ActorId) : NewDelegationHop :=
  NewDelegationHop.mk chain_id 0 (uuid_hyphenated actor) None (into_bytes (uuid_hyphenated grant_id)).

Definition seed_operator_chain (epoch now_ms : Z) (principal : PrincipalId) (actor : ActorId) : ST World DelegationChainId := fun w =>
  match uuid_v7_from_str (deterministic_uuid_v7 (operator_chain_seed principal)) with
  | None => (Err (boot_error "derived operator chain id is invalid"), w)
  | Some chain_id =>
  match uuid_v7_from_str (deterministic_uuid_v7 (operator_grant_seed principal)) with
  | None => (Err (boot_error "derived operator grant id is invalid"), w)
  | Some grant_id =>
      let ctx := mkTxContext epoch principal (new_uuid_v7 w.(w_ids)) None in
      with_write_txn ctx
        (let! hops := security_list_delegation_hops chain_id in
         do! match hops with
             | [] =>
                 do! security_insert_grant (operator_grant grant_id principal actor now_ms) in
                 security_insert_delegation_hop (operator_hop chain_id grant_id actor)
             | _ => ret tt
             end in
         ret chain_id)
        (mkWorld w.(w_db) (S w.(w_ids)) w.(w_clock))
  end end.
End Operator.

(** ** Derived identifiers are identifiers

    [uuid] prints and parses a version 7 identifier of 128 bits, and a SHA-256
    digest has 32 bytes. *)

Class BootLaws `{!Ext} : Prop := {
  v7_text_parses u : (u < 2 ^ 128)%N -> (u / 2 ^ 76 mod 16 = 7)%N -> uuid_v7_from_str (uuid_hyphenated u) = Some u;
  sha256_size b : length (sha256 b) = 32%nat }.

Lemma mark_version_range b : (112 <= Byte.to_N (mark_version b) < 128)%N.
Proof. by destruct b. Qed.

Lemma uuid_fold acc l :
  fold_left (fun acc b => acc * 256 + Byte.to_N b)%N l acc = (acc * 256 ^ N.of_nat (length l) + uuid_from_bytes l)%N.
Proof.
  unfold uuid_from_bytes. revert acc. induction l as [|b l IH]; intros acc; [cbn; lia|]. cbn [fold_left length].
  rewrite IH, (IH (0 * 256 + Byte.to_N b)%N), Nat2N.inj_succ, N.pow_succ_r'. lia.
Qed.

Lemma uuid_from_bytes_app l k : uuid_from_bytes (l ++ k) = (uuid_from_bytes l * 256 ^ N.of_nat (length k) + uuid_from_bytes k)%N.
Proof. unfold uuid_from_bytes at 1. rewrite fold_left_app, uuid_fold. done. Qed.

Lemma uuid_from_bytes_bound l : (uuid_from_bytes l < 256 ^ N.of_nat (length l))%N.
Proof.
  induction l as [|b l IH] using rev_ind; [done|]. rewrite uuid_from_bytes_app, length_app, Nat2N.inj_add, N.pow_add_r.
  cbn [length]. change (256 ^ N.of_nat 1)%N with 256%N. pose proof (Byte.to_N_bounded b) as Hb.
  assert (Hu : (uuid_from_bytes [b] <= 255)%N) by (unfold uuid_from_bytes; cbn [fold_left]; lia). nia.
Qed.

(** The version nibble of sixteen bytes with byte 6 marked. *)
Lemma marked_version l b k :
  length l = 6%nat -> length k = 9%nat -> (112 <= Byte.to_N b < 128)%N ->
  (uuid_from_bytes (l ++ b :: k) < 2 ^ 128 /\ uuid_from_bytes (l ++ b :: k) / 2 ^ 76 mod 16 = 7)%N.
Proof.
  intros Hl Hk Hb. split.
  - pose proof (uuid_from_bytes_bound (l ++ b :: k)) as H. rewrite length_app in H. cbn [length] in H. by rewrite Hl, Hk in H.
  - rewrite uuid_from_bytes_app. cbn [length]. rewrite Hk. change (b :: k) with ([b] ++ k)%list.
    rewrite (uuid_from_bytes_app [b] k), Hk. change (256 ^ N.of_nat 9)%N with (2 ^ 72)%N. change (256 ^ N.of_nat 10)%N with (2 ^ 80)%N.
    pose proof (uuid_from_bytes_bound k) as Hlo. rewrite Hk in Hlo. change (256 ^ N.of_nat 9)%N with (2 ^ 72)%N in Hlo.
    change (uuid_from_bytes [b]) with (0 * 256 + Byte.to_N b)%N. generalize dependent (uuid_from_bytes k). intros lo Hlo.
    generalize (uuid_from_bytes l). intros hi. generalize dependent (Byte.to_N b). intros n Hn.
    assert (E : ((hi * 2 ^ 80 + ((0 * 256 + n) * 2 ^ 72 + lo)) / 2 ^ 76 = hi * 16 + 7)%N).
    { symmetry. apply (N.div_unique _ _ _ ((n - 112) * 2 ^ 72 + lo)); lia. }
    rewrite E, N.add_comm, N.Div0.mod_add. done.
Qed.

Section Derived.
Context `{!Ext} `{!BootLaws}.

Lemma derived_uuid_v7 seed : (derived_uuid seed < 2 ^ 128 /\ derived_uuid seed / 2 ^ 76 mod 16 = 7)%N.
Proof.
  unfold derived_uuid. set (l := take 16 _). assert (Hl : length l = 16%nat).
  { subst l. rewrite length_take, sha256_size. done. }
  clearbody l. do 16 (destruct l as [|? l]; [done|]). destruct l; [|done].
  match goal with |- context [uuid_from_bytes ?x] =>
    let y := eval cbn [alter list_alter] in x in change x with y end.
  match goal with |- context [uuid_from_bytes (?a :: ?b :: ?c :: ?d :: ?e :: ?f :: mark_version ?g :: ?k)] =>
    apply (marked_version [a; b; c; d; e; f] (mark_version g) k); [done|done|apply mark_version_range] end.
Qed.

Lemma derived_parses seed : uuid_v7_from_str (deterministic_uuid_v7 seed) = Some (derived_uuid seed).
Proof. apply v7_text_parses; apply derived_uuid_v7. Qed.
End Derived.

(** ** Nothing else touches authority *)

(** The grants and the delegation hops are the same. *)
Record authority_same (d d' : Db) : Prop := {
  au_grants : d'.(capability_grants) = d.(capability_grants);
  au_hops : d'.(delegation_hops) = d.(delegation_hops) }.

#[export] Instance authority_same_preorder : PreOrder authority_same.
Proof. split; [done|]. intros d1 d2 d3 [] []. split; congruence. Qed.
#[export] Hint Extern 1 (authority_same _ _) => split; reflexivity : frame.

Ltac head_of t := match t with ?f _ => head_of f | _ => t end.

(** [solve_ensures] that also unfolds the operations it finds no lemma for. *)
Ltac solve_ensures_deep :=
  repeat first
    [ solve [eauto 3 with ensures typeclass_instances]
    | match goal with
      | |- ensures _ (Prelude.bind _ _) => apply ensures_bind; [apply _ | | intros ?]
      | |- ensures _ (for_each _ _) => apply ensures_for_each; [apply _ | intros ? ?]
      | |- ensures _ (collect_each _ _) => apply ensures_collect_each; [apply _ | intros ? ?]
      | |- ensures _ (if ?b then _ else _) => destruct b eqn:?
      | |- ensures _ (match ?x with _ => _ end) => destruct x eqn:?
      | |- ensures _ ?m => let h := head_of m in is_const h; unfold h
      end ].

Section Commands.
Context `{!Ext} `{!Contracts} `{!BindContracts} `{!ApprovalContracts} `{!RecoveryContracts} `{!ConfigYaml} `{!ConfigContracts}.

Lemma cancel_each_authority reason l : ensures (on_db authority_same) (cancel_each reason l).
Proof. induction l as [|c l IH]; cbn [cancel_each]; solve_ensures_deep. Qed.
#[local] Hint Resolve cancel_each_authority : ensures.

Lemma catalog_authority services :
  Forall (fun e : string * CommandHandler => forall ctx payload, ensures (on_db authority_same) (e.2 ctx payload)) (command_catalog services).
Proof.
  unfold command_catalog. repeat apply list.Forall_cons_2; cbn [snd]; try apply list.Forall_nil_2; intros ctx payload;
    solve_ensures_deep.
Qed.

Lemma execute_authority services epoch c env w r w' :
  boot_coordinator services epoch = Ok c -> execute c env w = (r, w') -> authority_same w.(w_db) w'.(w_db).
Proof.
  apply booted_execute_frame; [apply _|apply catalog_authority|by split].
Qed.
End Commands.

(** ** The chain across restarts *)

Section Chain.
Context `{!Ext} `{!BootLaws}.

Definition operator_chain_id (principal : PrincipalId) : DelegationChainId := derived_uuid (operator_chain_seed principal).
Definition operator_grant_id (principal : PrincipalId) : CapabilityGrantId := derived_uuid (operator_grant_seed principal).

Definition seeded_hop (principal : PrincipalId) (actor : ActorId) : DelegationHopRow :=
  hop_row_of_new (operator_hop (operator_chain_id principal) (operator_grant_id principal) actor).
Definition seeded_grant (principal : PrincipalId) (actor : ActorId) (now_ms : Z) : CapabilityGrantRow :=
  grant_row_of_new (operator_grant (operator_grant_id principal) principal actor now_ms).

(** All the authority of the store is the operator's chain, once seeded. *)
Inductive authority (principal : PrincipalId) (actor : ActorId) (d : Db) : bool -> Prop :=
  | authority_none : d.(capability_grants) = ∅ -> d.(delegation_hops) = ∅ -> authority principal actor d false
  | authority_seeded now_ms :
      d.(capability_grants) = {[operator_grant_id principal := seeded_grant principal actor now_ms]} ->
      d.(delegation_hops) = {[(operator_chain_id principal, 0) := seeded_hop principal actor]} ->
      authority principal actor d true.

Lemma authority_frame principal actor d d' b : authority_same d d' -> authority principal actor d b -> authority principal actor d' b.
Proof. intros [Eg Eh] [G1 H1|now G1 H1]; [apply authority_none|apply (authority_seeded _ _ _ now)]; congruence. Qed.

Lemma list_hops_none principal actor t :
  authority principal actor t.(t_db) false -> security_list_delegation_hops (operator_chain_id principal) t = (Ok [], t).
Proof.
  inversion 1 as [_ Hh|]. unfold security_list_delegation_hops, Prelude.bind, query, gets, lift_res. by rewrite Hh, map_to_list_empty.
Qed.

Lemma list_hops_seeded principal actor t :
  authority principal actor t.(t_db) true ->
  security_list_delegation_hops (operator_chain_id principal) t = (Ok [seeded_hop principal actor], t).
Proof.
  inversion 1 as [|now Hg Hh]. unfold security_list_delegation_hops, Prelude.bind, query, gets, lift_res.
  rewrite Hh, map_to_list_singleton. cbn. by rewrite bool_decide_true.
Qed.

(** Seeding succeeds under the daemon's fence and leaves the chain in place. *)
Lemma seed_operator_chain_run epoch now_ms principal actor w b :
  assert_epoch epoch w.(w_db) = Ok tt -> authority principal actor w.(w_db) b ->
  exists w', seed_operator_chain epoch now_ms principal actor w = (Ok (operator_chain_id principal), w') /\
    authority principal actor w'.(w_db) true /\ (b = true -> w'.(w_db) = w.(w_db)) /\
    w'.(w_db).(daemon_fence) = w.(w_db).(daemon_fence).
Proof.
  intros He Ha. unfold seed_operator_chain. rewrite !derived_parses. fold (operator_chain_id principal) (operator_grant_id principal).
  unfold with_write_txn, begin_write. cbn [ctx_daemon_epoch w_db]. rewrite He. cbn [res_bind w_ids w_clock]. unfold Prelude.bind at 1.
  destruct b.
  - erewrite list_hops_seeded by exact Ha. cbn. eexists. split; [reflexivity|]. done.
  - erewrite list_hops_none by exact Ha. inversion Ha as [Hg Hh|]. unfold Prelude.bind at 1.
    unfold security_insert_grant, security_insert_delegation_hop, Prelude.bind, query, gets. cbn.
    unfold absent. rewrite Hg. rewrite lookup_empty. cbn. rewrite Hh, lookup_empty. cbn. eexists. split; [reflexivity|].
    split; [|done]. apply (authority_seeded _ _ _ now_ms); cbn; [by rewrite Hg, insert_empty|by rewrite Hh, insert_empty].
Qed.

Lemma v7_canonical text u : uuid_v7_from_str text = Some u -> is_canonical_hyphenated text = true.
Proof. unfold uuid_v7_from_str. by destruct (is_canonical_hyphenated text). Qed.

Lemma canonical_shape text : is_canonical_hyphenated text = true -> is_utf8 text = true /\ String.length text = 36%nat.
Proof.
  unfold is_canonical_hyphenated. intros [Hl%Nat.eqb_eq Hc]%andb_prop. split; [|done].
  apply canonical_field_utf8, plain_canonical; [by destruct text|]. clear Hl. revert Hc. generalize 0%nat.
  induction text as [|c text IH]; intros i Hc; [done|]. cbn in Hc. apply andb_prop in Hc as [Ha Hc].
  unfold str_all. cbn. apply andb_true_iff. split; [|by eapply IH].
  unfold canonical_byte in Ha. clear -Ha. destruct (decide _); by destruct c as [[] [] [] [] [] [] [] []].
Qed.

Lemma decode_one_grant g :
  uuid_v7_from_str (uuid_hyphenated g) = Some g -> decode_grant_ids (into_bytes (uuid_hyphenated g)) = Ok [g].
Proof.
  intros Hg. destruct (canonical_shape _ (v7_canonical _ _ Hg)) as [Hu Hl].
  unfold decode_grant_ids. rewrite into_bytes_length, Hl. cbn [Nat.modulo]. change (36 / GRANT_ID_WIDTH)%nat with 1%nat. cbn [decode_chunks].
  rewrite take_ge by (rewrite into_bytes_length, Hl; done). rewrite from_into by done. cbn. by rewrite Hg.
Qed.

(** The chain the daemon's owner acts under, as the permission engine loads it. *)
Definition loaded_chain (principal : PrincipalId) (actor : ActorId) : DelegationChain :=
  mkDelegationChain (operator_chain_id principal)
    [mkHop 0 actor None [operator_grant_id principal] [resolve_capability]].

Lemma load_operator_chain principal actor t :
  uuid_v7_from_str (uuid_hyphenated actor) = Some actor -> authority principal actor t.(t_db) true ->
  load_chain (operator_chain_id principal) t = (Ok (loaded_chain principal actor), t).
Proof.
  intros Hact Ha. unfold load_chain. unfold Prelude.bind at 1. erewrite list_hops_seeded by exact Ha.
  inversion Ha as [|now Hg Hh]. cbn [collect_each]. unfold load_hop, Prelude.bind, lift_res.
  cbn [seeded_hop hop_row_of_new DelegationHopRow.capability_grant_ids operator_hop NewDelegationHop.capability_grant_ids].
  rewrite decode_one_grant by apply derived_parses. unfold grant_capabilities. cbn [collect_each]. unfold Prelude.bind, lift_res, security_get_grant, query, gets, ret.
  rewrite Hg, lookup_singleton_eq. cbn. rewrite Hact. cbn. done.
Qed.

Lemma operator_authorized principal actor ctx row request t :
  uuid_v7_from_str (uuid_hyphenated actor) = Some actor -> authority principal actor t.(t_db) true ->
  ctx.(cc_delegation_chain_id) = Some (operator_chain_id principal) -> request.(ru_action) <> RETRY_ACTION ->
  exists t', authorize ctx row request t = (Ok tt, t') /\ t'.(t_db) = t.(t_db).
Proof.
  intros Hact Ha Hc Hr. unfold authorize, load_caller_chain. rewrite Hc. unfold Prelude.bind at 1.
  rewrite (load_operator_chain principal actor) by done. inversion Ha as [|now Hg Hh].
  cbn [loaded_chain hops hop_grant_ids fmap list_fmap concat app]. unfold load_grant_scopes. cbn [collect_each].
  unfold Prelude.bind, security_get_grant, query, gets, lift_res, ret. rewrite Hg, lookup_singleton_eq. cbn [ok_or].
  change (parse_capability _) with (Ok resolve_capability). change (decode_grant_scope _) with (Ok (A := option ScopedTarget) None).
  cbn [now_unix_ms].
  match goal with |- context [evaluate ?r] => set (req := r) end.
  assert (Hau : authorized req).
  { split; try done; [by apply list.Forall_singleton, list_elem_of_singleton|by exists "none"|]. exists (operator_grant_id principal). split.
    - apply (proj2 (list_elem_of_singleton _ _)). done.
    - split; [eexists; split; [apply list_elem_of_singleton; reflexivity|done]|].
      intros rw Hrw _ _. apply list_elem_of_singleton in Hrw as ->. done. }
  pose proof (evaluate_spec req) as Hev. destruct (evaluate req) as [refs|reason|draft]; [|by destruct Hev|].
  - destruct (decide (ru_action request = RETRY_ACTION)); [done|]. by eexists.
  - destruct Hev as (_ & [Hs _] & _). done.
Qed.
End Chain.

(** ** Every history of the daemon *)

Section History.
Context `{!Ext} `{!BootLaws}.
Context `{!Contracts} `{!BindContracts} `{!ApprovalContracts} `{!RecoveryContracts} `{!ConfigYaml} `{!ConfigContracts}.

(** A start of the daemon, a command of a started daemon, or a write that leaves
    grants and hops alone. *)
Inductive authority_step (d d' : Db) : Prop :=
  | authority_step_boot epoch now_ms w r w' :
      seed_operator_chain epoch now_ms DAEMON_PRINCIPAL DAEMON_ACTOR w = (r, w') -> w.(w_db) = d -> w'.(w_db) = d' ->
      authority_step d d'
  | authority_step_command services epoch c env w r w' :
      boot_coordinator services epoch = Ok c -> execute c env w = (r, w') -> w.(w_db) = d -> w'.(w_db) = d' ->
      authority_step d d'
  | authority_step_elsewhere : authority_same d d' -> authority_step d d'.

Lemma seed_fenced_out epoch now_ms principal actor w :
  assert_epoch epoch w.(w_db) <> Ok tt -> w_db (snd (seed_operator_chain epoch now_ms principal actor w)) = w.(w_db).
Proof.
  intros He. unfold seed_operator_chain. rewrite !derived_parses. unfold with_write_txn, begin_write. cbn [ctx_daemon_epoch w_db].
  by destruct (assert_epoch epoch (w_db w)) as [[]|e].
Qed.

Lemma authority_steps_keep d d' b :
  rtc authority_step d d' -> authority DAEMON_PRINCIPAL DAEMON_ACTOR d b ->
  exists b', authority DAEMON_PRINCIPAL DAEMON_ACTOR d' b' /\ (b = true -> b' = true).
Proof.
  intros Hs. revert b. induction Hs as [d|d1 d2 d3 Hs _ IH]; intros b Ha; [eauto|].
  assert (exists b', authority DAEMON_PRINCIPAL DAEMON_ACTOR d2 b' /\ (b = true -> b' = true)) as (b' & Ha' & Hb).
  { destruct Hs as [epoch now_ms w r w' E <- <-|services epoch c env w r w' Hc E <- <-|Hsame].
    - destruct (assert_epoch epoch (w_db w)) as [[]|e] eqn:He.
      + destruct (seed_operator_chain_run epoch now_ms _ _ w b He Ha) as (w2 & E2 & Ha2 & _). rewrite E in E2.
        injection E2 as _ ->. eauto.
      + pose proof (seed_fenced_out epoch now_ms DAEMON_PRINCIPAL DAEMON_ACTOR w) as Hout. rewrite E in Hout. cbn [snd] in Hout.
        rewrite Hout by congruence. eauto.
    - exists b. split; [|done]. eapply authority_frame; [by eapply execute_authority|done].
    - exists b. split; [|done]. by eapply authority_frame. }
  destruct (IH b' Ha') as (b'' & Ha'' & Hb''). exists b''. split; [done|auto].
Qed.

Lemma daemon_actor_parses : uuid_v7_from_str (uuid_hyphenated DAEMON_ACTOR) = Some DAEMON_ACTOR.
Proof. by apply v7_text_parses. Qed.

(** C15: The operator can always settle an unknown effect, and nobody else is ever
    given authority.  In every state that starts of the daemon, commands of a
    started daemon and other writes lead to from an empty store, the grants are at
    most the operator's one grant to resolve unknown effects, and the delegation
    hops at most its chain; a start under the current fence then succeeds, and
    from there on, whatever commands and restarts follow, a resolution other than
    a retry that names this chain passes the permission gate. *)
Theorem operator_can_always_resolve d :
  rtc authority_step empty_db d ->
  (forall id row, d.(capability_grants) !! id = Some row ->
     id = operator_grant_id DAEMON_PRINCIPAL /\ row.(CapabilityGrantRow.principal_id) = DAEMON_PRINCIPAL /\
     row.(CapabilityGrantRow.capability_id) = capability_to_string resolve_capability) /\
  (forall chain hop, is_Some (d.(delegation_hops) !! (chain, hop)) -> chain = operator_chain_id DAEMON_PRINCIPAL /\ hop = 0) /\
  (forall epoch now_ms w, w.(w_db) = d -> assert_epoch epoch d = Ok tt ->
     exists chain w', seed_operator_chain epoch now_ms DAEMON_PRINCIPAL DAEMON_ACTOR w = (Ok chain, w') /\
       forall t ctx row request, rtc authority_step w'.(w_db) t.(t_db) ->
         ctx.(cc_delegation_chain_id) = Some chain -> request.(ru_action) <> RETRY_ACTION ->
         fst (authorize ctx row request t) = Ok tt).
Proof.
  intros Hs. assert (H0' : authority DAEMON_PRINCIPAL DAEMON_ACTOR empty_db false) by by apply authority_none.
  destruct (authority_steps_keep _ _ _ Hs H0') as (b & Ha & _). split_and!.
  - intros id row. destruct Ha as [Hg _|now Hg _]; rewrite Hg; [by rewrite lookup_empty|].
    intros [<- <-]%lookup_singleton_Some. done.
  - intros chain hop. destruct Ha as [_ Hh|now _ Hh]; rewrite Hh; [by intros []|].
    intros [x [[= <- <-] _]%lookup_singleton_Some]. done.
  - intros epoch now_ms w <- He. destruct (seed_operator_chain_run epoch now_ms _ _ w b He Ha) as (w' & E & Ha' & _).
    eexists _, w'. split; [exact E|]. intros t ctx row request Hst Hc Hr.
    destruct (authority_steps_keep _ _ _ Hst Ha') as (b' & Hb & Ht). rewrite (Ht eq_refl) in Hb.
    destruct (operator_authorized _ _ ctx row request t daemon_actor_parses Hb Hc Hr) as (t' & -> & _). done.
Qed.
End History.
