(* ===== verification/BootConfig.v ===== *)
(** * The configuration document at start ([agentd/src/bootstrap.rs])

    [bootstrap_config] brings the document of the command line into force: it
    leaves an unchanged document alone, reactivates a generation that has the
    same bytes, or proposes a new one, through the daemon's own coordinator and
    under keys of its own.

    [generation_previously_active] decides whether a start announces a rollback or
    an activation.  It pages through the journal and then scans the outbox;
    together the two hold the committed history of the configuration stream,
    however far the dispatcher has come. *)

From S2P Require Import Prelude Domain Ids Text Models StoreBase Store SecurityStore ExtensionStore Ledger Identity.
From S2P Require Import Events Envelope Journal Dispatch Feed Runs RunGraph EffectPolicy Effects Scheduler Resources Kernel RunServices Bind.
From S2P Require Import Coordinator Approvals Recovery LocalFiles Profiles Config Queue ResourceUri Worker Bootstrap OperatorChain.

Open Scope string_scope.
Open Scope Z_scope.

Definition boot_io (op : string) : KernelError := mkKernelError Unavailable RetrySafe (op +:+ " failed").

(** [prost::Message::encode_to_vec] of the commands, and the identifier
    [contract::ConfigGeneration::decode] finds in an event payload. *)
Class BootCodec := {
  encode_propose_config : ProposeConfigMsg -> bytes;
  encode_mark_config_tested : MarkConfigTestedMsg -> bytes;
  encode_activate_config : ActivateConfigMsg -> bytes;
  encode_rollback_config : ActivateConfigMsg -> bytes;
  decode_generation_id : bytes -> option string }.

(** ** Keys *)

Definition propose_key (digest : string) (revision : Z) : string :=
  "config.propose.boot." +:+ digest +:+ "." +:+ u64_to_string revision.
Definition test_key (generation_id : string) : string := "config.test." +:+ generation_id.
Definition rollback_key (generation_id : string) (revision : Z) : string :=
  "config.rollback." +:+ generation_id +:+ "." +:+ u64_to_string revision.
Definition activate_key (generation_id : string) (revision : Z) : string :=
  "config.activate." +:+ generation_id +:+ "." +:+ u64_to_string revision.

Definition names_activation (event_type : string) : bool :=
  ends_with "ConfigActivated" event_type || ends_with "ConfigRolledBack" event_type.

Section BootConfig.
Context `{!Ext} `{!ConfigYaml} `{!ConfigContracts} `{!EnvelopeCodec} `{!BootCodec}.
Context (coordinator : CommandCoordinator) (principal : PrincipalId) (actor : ActorId) (epoch : Z).

(** A read transaction. *)
Definition boot_read {A} (body : M A) : ST World A := fun w =>
  let '(r, t) := body (mkTxn w.(w_db) (mkTxContext epoch principal 0%N None) w.(w_ids) w.(w_clock)) in (r, rollback_txn w t).

Definition boot_envelope (command_id : CommandId) (command_type : string) (payload : bytes) (key : string) : CommandEnvelope :=
  mkCommandEnvelope command_id key principal actor None None (mkRequestDigest (sha256 payload)) None None None command_type payload.

(** [submit]: the command id is drawn before the key is checked. *)
Definition boot_submit (command_type : string) (payload : bytes) (key : string) : ST World CommandOutcome := fun w =>
  let w1 := mkWorld w.(w_db) (S w.(w_ids)) w.(w_clock) in
  match idempotency_key_new key with
  | None => (Err (boot_error "internal idempotency key malformed"), w1)
  | Some key => execute coordinator (boot_envelope (new_uuid_v7 w.(w_ids)) command_type payload key) w1
  end.

Definition read_active_generation : ST World (option string) :=
  boot_read (let! active := config_get_active in
             ret (uuid_hyphenated ∘ ActiveConfigGenerationRow.generation_id <$> active)).

(** *** Whether a generation held the pointer before *)

Definition payload_names (generation_id : string) (payload : bytes) : bool :=
  bool_decide (decode_generation_id payload = Some generation_id).

Definition event_activates (generation_id : string) (event : EventEnvelope) : bool :=
  names_activation event.(ev_event_type) && payload_names generation_id event.(ev_payload).

Definition PAGE_EVENTS : nat := 512.

(** The pages of the journal, each from the last event of the one before. *)
Fixpoint journal_activates (fuel : nat) (key : StreamKey) (generation_id : string) (journal : Journal) (from : Z) : Res bool :=
  match fuel with
  | O => Err (boot_error "out of fuel")
  | S fuel =>
      let? page := fst (read_stream key from PAGE_EVENTS journal) in
      match list.last page.(rr_events) with
      | None => Ok false
      | Some last =>
          if existsb (event_activates generation_id) page.(rr_events) then Ok true
          else journal_activates fuel key generation_id journal last.(ev_sequence)
      end
  end.

Definition journal_fuel (journal : Journal) : nat := S (size journal).

Definition row_activates (key : StreamKey) (generation_id : string) (row : OutboxEventRow) : bool :=
  bool_decide (row.(OutboxEventRow.stream_key) = key.(sk_text)) &&
  names_activation row.(OutboxEventRow.event_type) && payload_names generation_id row.(OutboxEventRow.payload).

(** [begin_write], a scan, and a rollback. *)
Definition pending_events : ST World (list OutboxEventRow) := fun w =>
  let w1 := mkWorld w.(w_db) (S w.(w_ids)) w.(w_clock) in
  match begin_write (mkTxContext epoch principal (new_uuid_v7 w.(w_ids)) None) w1 with
  | Err e => (Err e, w1)
  | Ok t => let '(r, t') := streams_scan_unpublished (Z.to_nat (2 ^ 32 - 1)) t in (r, rollback_txn w1 t')
  end.

Definition generation_previously_active (journal : Journal) (generation_id : string) : ST World bool :=
  let! key := lift_res stream_config_global in
  let! journaled := lift_res (journal_activates (journal_fuel journal) key generation_id journal 0) in
  if journaled : bool then ret true
  else
    let! pending := pending_events in
    ret (existsb (row_activates key generation_id) pending).

(** *** [bootstrap_config] *)

(** What the active generation says of the document: it is already in force, or
    the revision to move on from and the generation that has these bytes. *)
Inductive ConfigPlan :=
  | KeepActive (generation_id : string)
  | MoveFrom (expected_revision : Z) (reactivate : option string).

Definition plan_config (digest : string) : ST World ConfigPlan :=
  let! active_id := read_active_generation in
  match active_id with
  | None => ret (MoveFrom 0 None)
  | Some active_id =>
      boot_read (
        let! id := lift_res (ok_or (uuid_v7_from_str active_id) (boot_error "active generation id malformed")) in
        let! active := config_get_generation id in
        let! pointer := config_get_active in
        if match active with Some row => bool_decide (row.(ConfigGenerationRow.digest) = digest) | None => false end
        then ret (KeepActive active_id)
        else
          let! known := config_get_generation_by_digest digest in
          ret (MoveFrom (from_option ActiveConfigGenerationRow.revision 0 pointer)
                 (uuid_hyphenated ∘ ConfigGenerationRow.generation_id <$> known)))
  end.

Definition propose_document (document : bytes) (digest : string) (revision : Z) : ST World string :=
  let! outcome := boot_submit CMD_PROPOSE_CONFIG (encode_propose_config (mkProposeConfigMsg digest document))
                    (propose_key digest revision) in
  lift_res (ok_or (from_utf8 outcome.(co_payload)) (boot_error "propose outcome is not a generation id")).

Definition test_generation (generation_id : string) : ST World CommandOutcome :=
  boot_submit CMD_MARK_CONFIG_TESTED (encode_mark_config_tested (mkMarkConfigTestedMsg generation_id "")) (test_key generation_id).

Definition move_pointer (is_rollback : bool) (generation_id : string) (revision : Z) : ST World CommandOutcome :=
  let msg := mkActivateConfigMsg generation_id revision in
  if is_rollback then boot_submit CMD_ROLLBACK_CONFIG (encode_rollback_config msg) (rollback_key generation_id revision)
  else boot_submit CMD_ACTIVATE_CONFIG (encode_activate_config msg) (activate_key generation_id revision).

Definition bootstrap_config (fs : Fs) (path : FsPath) (journal : Journal) : ST World (option string) :=
  let! document := lift_res (ok_or (fs_read fs path) (boot_io "read config doc")) in
  let digest := document_digest document in
  let! plan := plan_config digest in
  match plan with
  | KeepActive active_id => ret (Some active_id)
  | MoveFrom revision reactivate =>
      let! is_rollback := match reactivate with
                          | Some id => generation_previously_active journal id
                          | None => ret false
                          end in
      let! generation_id := match reactivate with
                            | Some existing => ret existing
                            | None => propose_document document digest revision
                            end in
      let! _ := test_generation generation_id in
      let! _ := move_pointer is_rollback generation_id revision in
      ret (Some generation_id)
  end.
End BootConfig.

(** ** Keys denote what they are built from *)

Lemma last_dot_inj a b m n :
  0 <= m -> 0 <= n -> a +:+ "." +:+ u64_to_string m = b +:+ "." +:+ u64_to_string n -> a = b /\ m = n.
Proof.
  intros Hm Hn E. assert (Hd : forall z, no_byte "." (u64_to_string z) = true).
  { intros z. by eapply str_all_no_byte; [apply u64_to_string_digits|]. }
  assert (H1 : rsplit_once "." (a +:+ "." +:+ u64_to_string m) = Some (a, u64_to_string m)) by (apply rsplit_once_spec; by split).
  rewrite E in H1. rewrite (proj2 (rsplit_once_spec "." _ b (u64_to_string n))) in H1 by (by split).
  injection H1 as -> Ez. split; [done|]. symmetry. apply delivery_id_inj; [done..|]. by rewrite Ez.
Qed.

Lemma propose_key_inj D D' R R' : 0 <= R -> 0 <= R' -> propose_key D R = propose_key D' R' -> D = D' /\ R = R'.
Proof. intros HR HR' E. apply last_dot_inj; [done..|]. by repeat injection E as E. Qed.
Lemma activate_key_inj g g' R R' : 0 <= R -> 0 <= R' -> activate_key g R = activate_key g' R' -> R = R'.
Proof. intros HR HR' E. eapply (last_dot_inj g g'); [done..|]. by repeat injection E as E. Qed.
Lemma rollback_key_inj g g' R R' : 0 <= R -> 0 <= R' -> rollback_key g R = rollback_key g' R' -> R = R'.
Proof. intros HR HR' E. eapply (last_dot_inj g g'); [done..|]. by repeat injection E as E. Qed.

(** ** What commands keep of the generations *)

Section Growth.
Context `{!Ext}.

Definition id_parses (u : Uuid) : Prop := uuid_v7_from_str (uuid_hyphenated u) = Some u.

(** Generations are stored under their own printable identifier and the digest of
    their document, and the pointer names one of them. *)
Definition row_honest (row : ConfigGenerationRow) : Prop :=
  row.(ConfigGenerationRow.digest) = document_digest row.(ConfigGenerationRow.document).

Record config_ids (d : Db) : Prop := {
  cd_keyed : forall g row, d.(config_generations) !! g = Some row -> row.(ConfigGenerationRow.generation_id) = g /\ id_parses g;
  cd_honest : forall g row, d.(config_generations) !! g = Some row -> row_honest row;
  cd_active : forall a, d.(active_config) = Some a -> is_Some (d.(config_generations) !! a.(ActiveConfigGenerationRow.generation_id)) }.

Definition has_digest (d : Db) (g : ConfigGenerationId) (digest : string) : Prop :=
  exists row, d.(config_generations) !! g = Some row /\ row.(ConfigGenerationRow.digest) = digest.

Record config_grows (d d' : Db) : Prop := {
  cg_ids : config_ids d -> config_ids d';
  cg_digest : forall g digest, has_digest d g digest -> has_digest d' g digest;
  cg_revision : revision_of d <= revision_of d' }.

#[export] Instance config_grows_preorder : PreOrder config_grows.
Proof. split; [split; [done..|lia]|]. intros d1 d2 d3 [] []. split; [auto..|lia]. Qed.

Lemma config_grows_elsewhere d d' :
  d'.(config_generations) = d.(config_generations) -> d'.(active_config) = d.(active_config) -> config_grows d d'.
Proof.
  intros Eg Ea. split.
  - intros [K D A]. split; [intros g row; rewrite Eg; apply K|intros g row; rewrite Eg; apply D|intros a; rewrite Ea, Eg; apply A].
  - intros g digest (row & Hr & Hd). exists row. by rewrite Eg.
  - unfold revision_of. rewrite Ea. done.
Qed.

Lemma config_grows_write d g row :
  (forall r, d.(config_generations) !! g = Some r -> row.(ConfigGenerationRow.digest) = r.(ConfigGenerationRow.digest)) ->
  (config_ids d -> (row.(ConfigGenerationRow.generation_id) = g /\ id_parses g) /\ row_honest row) ->
  config_grows d (set_config_generations (<[g := row]> d.(config_generations)) d).
Proof.
  intros Hd Hk. split; [|intros k digest (r & Hr & <-)|done].
  - intros Hi. split; cbn [config_generations set_config_generations active_config].
    + intros k r. rewrite lookup_insert_Some. intros [[<- <-]|[_ Hr]]; [by apply Hk|by apply (cd_keyed _ Hi)].
    + intros k r. rewrite lookup_insert_Some. intros [[<- <-]|[_ Hr]]; [by apply Hk|by eapply (cd_honest _ Hi)].
    + intros a Ha. apply lookup_insert_is_Some'. right. by apply (cd_active _ Hi).
  - unfold has_digest. cbn [config_generations set_config_generations]. destruct (decide (g = k)) as [->|Hne].
    + exists row. rewrite lookup_insert_eq. auto.
    + exists r. by rewrite lookup_insert_ne.
Qed.

(** Documents of the same digest are the same, or a collision. *)
Lemma document_digest_inj a b : document_digest a = document_digest b -> a = b \/ a <> b /\ sha256 a = sha256 b.
Proof.
  unfold document_digest. intros E. destruct (decide (a = b)) as [|Hne]; [by left|right]. split; [done|].
  simplify_eq. by apply hex_lower_inj.
Qed.
End Growth.
#[export] Hint Extern 2 (config_grows _ _) => apply config_grows_elsewhere; reflexivity : frame.

(** Identifiers drawn by the daemon print and parse, and commands decode to what
    was encoded. *)
Class BootConfigLaws `{!Ext} `{!ConfigContracts} `{!BootCodec} : Prop := {
  drawn_ids_parse n : id_parses (new_uuid_v7 n);
  propose_decodes m : decode_propose_config (encode_propose_config m) = Some m;
  activate_decodes m : decode_activate_config (encode_activate_config m) = Some m;
  rollback_decodes m : decode_rollback_config (encode_rollback_config m) = Some m }.

Section History.
Context `{!Ext} `{!Contracts} `{!BindContracts} `{!ApprovalContracts} `{!RecoveryContracts} `{!ConfigYaml} `{!ConfigContracts}.
Context `{!EnvelopeCodec} `{!BootCodec} `{!BootConfigLaws}.

(** A handler also leaves the idempotency records to the coordinator. *)
Record handler_grows (d d' : Db) : Prop := {
  hg_config : config_grows d d';
  hg_records : d'.(idempotency_records) = d.(idempotency_records) }.

#[export] Instance handler_grows_preorder : PreOrder handler_grows.
Proof. split; [done|]. intros d1 d2 d3 [] []. split; [by etransitivity|congruence]. Qed.
#[local] Hint Extern 2 (handler_grows _ _) => split; [apply config_grows_elsewhere; reflexivity|reflexivity] : frame.

Lemma propose_grows document a now : ensures (on_db handler_grows) (propose document a now).
Proof.
  intros t row t' (-> & Hn & _ & ->)%propose_ok. split; [split; [|done]|done]. cbn. apply config_grows_write; [congruence|].
  intros _. split; [split; [done|apply drawn_ids_parse]|done].
Qed.

Lemma set_states_grows id v ts : ensures (on_db handler_grows) (config_set_generation_states id v ts).
Proof.
  intros t u t' (r & Hr & ->)%set_states_ok. split; [split; [|done]|done]. cbn. apply config_grows_write.
  - intros r' Hr'. rewrite Hr in Hr'. by injection Hr' as <-.
  - intros Hi. split; [by apply (cd_keyed _ Hi) in Hr|by apply (cd_honest _ Hi) in Hr].
Qed.

Lemma activate_grows id e services now : ensures (on_db handler_grows) (activate id e services now).
Proof.
  intros t a t' (r & doc & Hr & _ & _ & _ & _ & He & Hb & -> & ->)%activate_ok. split; [split; [|done]|done]. cbn. split.
  - intros [K D A]. split; [exact K|exact D|]. cbn. intros a [= <-]. cbn. eauto.
  - done.
  - unfold revision_of in *. cbn. lia.
Qed.
#[local] Hint Resolve propose_grows set_states_grows activate_grows : ensures.

Lemma cancel_each_grows reason l : ensures (on_db handler_grows) (cancel_each reason l).
Proof. induction l as [|c l IH]; cbn [cancel_each]; solve_ensures_deep. Qed.
#[local] Hint Resolve cancel_each_grows : ensures.

Lemma catalog_grows services :
  Forall (fun e : string * CommandHandler => forall ctx payload, ensures (on_db handler_grows) (e.2 ctx payload)) (command_catalog services).
Proof.
  unfold command_catalog. repeat apply list.Forall_cons_2; cbn [snd]; try apply list.Forall_nil_2; intros ctx payload;
    solve_ensures_deep.
Qed.

Lemma execute_grows services epoch c env w r w' :
  boot_coordinator services epoch = Ok c -> execute c env w = (r, w') -> config_grows w.(w_db) w'.(w_db).
Proof.
  intros Hc E. destruct (booted_execute_inv _ _ _ _ _ _ _ Hc E) as [[-> _]|(h & t & o & t1 & rec & Hh & <- & _ & E1 & _ & -> & _)]; [done|].
  pose proof (catalog_grows services) as Hall. rewrite list.Forall_forall in Hall.
  destruct (Hall _ Hh _ _ _ _ _ E1) as [[G _] _]. etransitivity; [exact G|]. by apply config_grows_elsewhere.
Qed.

(** *** What the three commands leave behind *)

Lemma catalog_handler services ty h h' : (ty, h) ∈ command_catalog services -> (ty, h') ∈ command_catalog services -> h = h'.
Proof.
  assert (Hd : NoDup (command_catalog services).*1) by (by apply (bool_decide_eq_true_1 (NoDup (command_catalog services).*1))).
  generalize dependent (command_catalog services). intros l Hd H1' H2'.
  apply (elem_of_list_to_map_1 (M := gmap string)) in H1', H2'; [congruence|done..].
Qed.

Lemma stage_config_event_frame {X} (f : Db -> X) ty p ctx t u t' :
  (forall x d, f (set_outbox x d) = f d) -> stage_config_event ty p ctx t = (Ok u, t') -> f t'.(t_db) = f t.(t_db).
Proof. intros Hf E. apply stage_config_event_touches in E as (_ & x & ->). apply Hf. Qed.

Lemma propose_handle_result ctx digest document t o t' :
  propose_config_handle ctx (encode_propose_config (mkProposeConfigMsg digest document)) t = (Ok o, t') ->
  exists g, o.(co_payload) = into_bytes (uuid_hyphenated g) /\ has_digest t'.(t_db) g (document_digest document).
Proof.
  intros (raw & now & t1 & row & t2 & Hraw & -> & E & E')%propose_handle_split.
  rewrite propose_decodes in Hraw. injection Hraw as <-. cbn [pc_document_bytes] in E.
  apply bind_ok_inv in E as (r0 & t3 & E1 & E). apply propose_ok in E1 as (-> & _ & _ & ->).
  apply validate_ok in E as (r & doc & Hr & _ & -> & ->). cbn in Hr. rewrite lookup_insert_eq in Hr. injection Hr as <-.
  apply bind_ok_inv in E' as (u & t4 & E4 & [= <- <-]). eexists. split; [reflexivity|]. unfold has_digest.
  rewrite (stage_config_event_frame config_generations _ _ _ _ _ _ (fun _ _ => eq_refl) E4).
  cbn [t_db set_db config_generations set_config_generations]. rewrite lookup_insert_eq. eexists. split; [reflexivity|]. reflexivity.
Qed.

(** The pointer moved from [revision] to [g]. *)
Definition pointer_moved (d d' : Db) (g : ConfigGenerationId) (revision : Z) : Prop :=
  revision_of d = revision /\ 0 <= revision + 1 <= i64_max /\ exists now, d'.(active_config) = Some (ActiveConfigGenerationRow.mk g (revision + 1) now).

Lemma announce_moved ty id a ctx t o t' : announce_active ty id a ctx t = (Ok o, t') -> t'.(t_db).(active_config) = t.(t_db).(active_config).
Proof.
  unfold announce_active. intros E. apply bind_ok_inv in E as (now & t1 & [= _ <-] & E). apply bind_ok_inv in E as (u & t2 & E2 & [= _ <-]).
  by apply (stage_config_event_frame active_config) in E2.
Qed.

Lemma move_handle_result services is_rollback ctx msg t o t' :
  (if is_rollback : bool then rollback_config_handle services ctx (encode_rollback_config msg)
   else activate_config_handle services ctx (encode_activate_config msg)) t = (Ok o, t') ->
  exists g, uuid_v7_from_str msg.(ac_generation_id) = Some g /\
    pointer_moved t.(t_db) t'.(t_db) g msg.(ac_expected_active_revision).
Proof.
  assert (Hgo : forall ty id now t1 a t2, t1.(t_db) = t.(t_db) ->
    activate id msg.(ac_expected_active_revision) services now t1 = (Ok a, t2) -> announce_active ty id a ctx t2 = (Ok o, t') ->
    pointer_moved t.(t_db) t'.(t_db) id msg.(ac_expected_active_revision)).
  { intros ty id now t1 a t2 Ht (r & doc & _ & _ & _ & _ & _ & He & Hb & -> & ->)%activate_ok E2%announce_moved.
    rewrite Ht in He. split; [done|]. split; [done|]. exists now. by rewrite E2. }
  destruct is_rollback; unfold rollback_config_handle, activate_config_handle, lift_res; intros E;
    apply bind_ok_inv in E as (raw & t1 & [= Hr%ok_or_ok <-] & E); first [rewrite rollback_decodes in Hr|rewrite activate_decodes in Hr];
    injection Hr as <-; apply bind_ok_inv in E as (id & t1 & [= Hid%ok_or_ok <-] & E);
    apply bind_ok_inv in E as (now & t1 & [= _ <-] & E); apply bind_ok_inv in E as (a & t2 & E1 & E2); exists id; (split; [done|]);
    by eapply Hgo; [|exact E1|exact E2].
Qed.

(** *** The daemon's keys

    Clients of the control socket share the daemon's principal; the daemon's own
    keys start with [config.], and only it uses such keys. *)

Inductive boot_shaped (env : CommandEnvelope) : Prop :=
  | shaped_propose document revision : 0 <= revision ->
      env.(ce_command_type) = CMD_PROPOSE_CONFIG ->
      env.(ce_payload) = encode_propose_config (mkProposeConfigMsg (document_digest document) document) ->
      env.(ce_idempotency_key) = propose_key (document_digest document) revision -> boot_shaped env
  | shaped_test generation_id : env.(ce_idempotency_key) = test_key generation_id -> boot_shaped env
  | shaped_activate generation_id revision : 0 <= revision ->
      env.(ce_command_type) = CMD_ACTIVATE_CONFIG ->
      env.(ce_payload) = encode_activate_config (mkActivateConfigMsg generation_id revision) ->
      env.(ce_idempotency_key) = activate_key generation_id revision -> boot_shaped env
  | shaped_rollback generation_id revision : 0 <= revision ->
      env.(ce_command_type) = CMD_ROLLBACK_CONFIG ->
      env.(ce_payload) = encode_rollback_config (mkActivateConfigMsg generation_id revision) ->
      env.(ce_idempotency_key) = rollback_key generation_id revision -> boot_shaped env.

Definition disciplined (principal : PrincipalId) (env : CommandEnvelope) : Prop :=
  env.(ce_principal_id) <> principal \/ starts_with "config." env.(ce_idempotency_key) = false \/ boot_shaped env.

(** What the records under the daemon's keys say. *)
Record boot_records (principal : PrincipalId) (d : Db) : Prop := {
  br_propose : forall digest revision rec, 0 <= revision ->
    d.(idempotency_records) !! (principal, propose_key digest revision) = Some rec ->
    exists g, rec.(IdempotencyRecordRow.outcome_payload) = into_bytes (uuid_hyphenated g) /\ has_digest d g digest;
  br_activate : forall g revision rec, 0 <= revision ->
    d.(idempotency_records) !! (principal, activate_key g revision) = Some rec -> revision < revision_of d;
  br_rollback : forall g revision rec, 0 <= revision ->
    d.(idempotency_records) !! (principal, rollback_key g revision) = Some rec -> revision < revision_of d }.

Lemma boot_records_mono principal d d' :
  config_grows d d' -> d'.(idempotency_records) = d.(idempotency_records) -> boot_records principal d -> boot_records principal d'.
Proof.
  intros [_ Gd Gr] Er [P A R]. split; rewrite Er.
  - intros digest revision rec Hr H'. destruct (P _ _ _ Hr H') as (g & Hp & Hd). eauto.
  - intros g revision rec Hr H'. specialize (A _ _ _ Hr H'). lia.
  - intros g revision rec Hr H'. specialize (R _ _ _ Hr H'). lia.
Qed.

(** A record added under a key of the daemon is the daemon's. *)
Lemma boot_records_add principal d env rec :
  disciplined principal env -> boot_records principal d ->
  (forall document revision, 0 <= revision -> boot_shaped env ->
     env.(ce_command_type) = CMD_PROPOSE_CONFIG ->
     env.(ce_payload) = encode_propose_config (mkProposeConfigMsg (document_digest document) document) ->
     env.(ce_idempotency_key) = propose_key (document_digest document) revision ->
     exists g, rec.(IdempotencyRecordRow.outcome_payload) = into_bytes (uuid_hyphenated g) /\ has_digest d g (document_digest document)) ->
  (forall (is_rollback : bool) g revision, 0 <= revision ->
     env.(ce_command_type) = (if is_rollback then CMD_ROLLBACK_CONFIG else CMD_ACTIVATE_CONFIG) ->
     env.(ce_payload) = (if is_rollback then encode_rollback_config else encode_activate_config) (mkActivateConfigMsg g revision) ->
     revision < revision_of d) ->
  boot_records principal (set_idempotency_records (<[command_key env := rec]> d.(idempotency_records)) d).
Proof.
  intros Hd [P A R] Hprop Hmove. unfold command_key. split; cbn [idempotency_records set_idempotency_records].
  - intros digest revision r Hr. rewrite lookup_insert_Some. intros [[[= Hp Hk] <-]|[_ H']]; [|by apply (P _ _ _ Hr H')].
    destruct Hd as [Hd|[Hd|Hd]]; [done|by rewrite Hk in Hd|]. pose proof Hd as Hsh.
    destruct Hd as [document rev' Hrev Hty Hpl Hkey|g Hkey|g rev' Hrev Hty Hpl Hkey|g rev' Hrev Hty Hpl Hkey]; rewrite Hk in Hkey; try done.
    apply propose_key_inj in Hkey as [-> ->]; [|done..]. eapply Hprop; eauto.
  - intros g revision r Hr. rewrite lookup_insert_Some. intros [[[= Hp Hk] <-]|[_ H']]; [|by apply (A _ _ _ Hr H')].
    destruct Hd as [Hd|[Hd|Hd]]; [done|by rewrite Hk in Hd|].
    destruct Hd as [document rev' Hrev Hty Hpl Hkey|g' Hkey|g' rev' Hrev Hty Hpl Hkey|g' rev' Hrev Hty Hpl Hkey]; rewrite Hk in Hkey; try done.
    apply activate_key_inj in Hkey as ->; [|done..]. by apply (Hmove false g').
  - intros g revision r Hr. rewrite lookup_insert_Some. intros [[[= Hp Hk] <-]|[_ H']]; [|by apply (R _ _ _ Hr H')].
    destruct Hd as [Hd|[Hd|Hd]]; [done|by rewrite Hk in Hd|].
    destruct Hd as [document rev' Hrev Hty Hpl Hkey|g' Hkey|g' rev' Hrev Hty Hpl Hkey|g' rev' Hrev Hty Hpl Hkey]; rewrite Hk in Hkey; try done.
    apply rollback_key_inj in Hkey as ->; [|done..]. by apply (Hmove true g').
Qed.

Lemma in_catalog_propose services : (CMD_PROPOSE_CONFIG, propose_config_handle) ∈ command_catalog services.
Proof. unfold command_catalog. repeat (apply elem_of_cons; first [left; reflexivity|right]). Qed.
Lemma in_catalog_move services (is_rollback : bool) :
  (if is_rollback then CMD_ROLLBACK_CONFIG else CMD_ACTIVATE_CONFIG,
   if is_rollback then rollback_config_handle services else activate_config_handle services) ∈ command_catalog services.
Proof. unfold command_catalog. destruct is_rollback; repeat (apply elem_of_cons; first [left; reflexivity|right]). Qed.

Lemma boot_records_step principal services epoch c env w r w' :
  boot_coordinator services epoch = Ok c -> disciplined principal env -> execute c env w = (r, w') ->
  boot_records principal w.(w_db) -> boot_records principal w'.(w_db).
Proof.
  intros Hc Hd E Hb. destruct (booted_execute_inv _ _ _ _ _ _ _ Hc E) as [[-> _]|(h & t & o & t1 & rec & Hh & Ht & _ & E1 & _ & -> & Hrec)]; [done|].
  pose proof (catalog_grows services) as Hall. rewrite list.Forall_forall in Hall.
  destruct (Hall _ Hh _ _ _ _ _ E1) as [[G Er] _]. rewrite Ht in G, Er. apply boot_records_add; [done|by eapply boot_records_mono|..].
  - intros document revision _ _ Hty Hpl _. rewrite Hty in Hh.
    rewrite (catalog_handler _ _ _ _ Hh (in_catalog_propose services)), Hpl in E1. rewrite Hrec. by eapply propose_handle_result.
  - intros is_rollback g revision _ Hty Hpl. rewrite Hty in Hh.
    rewrite (catalog_handler _ _ _ _ Hh (in_catalog_move services is_rollback)), Hpl in E1.
    assert (Hm : (if is_rollback then rollback_config_handle services (command_context env) (encode_rollback_config (mkActivateConfigMsg g revision))
      else activate_config_handle services (command_context env) (encode_activate_config (mkActivateConfigMsg g revision))) t = (Ok o, t1))
      by (destruct is_rollback; exact E1).
    apply move_handle_result in Hm as (g' & _ & _ & _ & now & Ha). unfold revision_of. rewrite Ha. cbn. lia.
Qed.

(** *** Histories *)

(** A command of a booted daemon that respects the daemon's keys, be it a client's,
    a worker's or one of the start's own, or a write to other tables.  A start
    that is cut short is the commands it came to. *)
Inductive boot_step (principal : PrincipalId) (d d' : Db) : Prop :=
  | boot_step_command services epoch c env w r w' :
      boot_coordinator services epoch = Ok c -> disciplined principal env -> execute c env w = (r, w') ->
      w.(w_db) = d -> w'.(w_db) = d' -> boot_step principal d d'
  | boot_step_elsewhere :
      d'.(config_generations) = d.(config_generations) -> d'.(active_config) = d.(active_config) ->
      d'.(idempotency_records) = d.(idempotency_records) -> boot_step principal d d'.

Record boot_inv (principal : PrincipalId) (d : Db) : Prop := {
  bi_ids : config_ids d;
  bi_records : boot_records principal d }.

Lemma boot_inv_empty principal : boot_inv principal empty_db.
Proof. split; split; cbn; try done; intros; rewrite lookup_empty in *; done. Qed.

Lemma boot_inv_command principal services epoch c env w r w' :
  boot_coordinator services epoch = Ok c -> disciplined principal env -> execute c env w = (r, w') ->
  boot_inv principal w.(w_db) -> boot_inv principal w'.(w_db).
Proof.
  intros Hc Hd E [Hi Hr]. split; [by apply (cg_ids _ _ (execute_grows _ _ _ _ _ _ _ Hc E))|by eapply boot_records_step].
Qed.

Lemma boot_inv_steps principal d d' : rtc (boot_step principal) d d' -> boot_inv principal d -> boot_inv principal d'.
Proof.
  induction 1 as [|d1 d2 d3 Hs _ IH]; [done|]. intros Hi. apply IH.
  destruct Hs as [services epoch c env w r w' Hc Hd E <- <-|Eg Ea Er]; [by eapply boot_inv_command|].
  pose proof (config_grows_elsewhere _ _ Eg Ea) as G. destruct Hi as [H1' H2']. split; [by apply G|by eapply boot_records_mono].
Qed.

(** *** The steps of a start *)

Definition active_same (d d' : Db) : Prop := d'.(active_config) = d.(active_config).
#[local] Instance active_same_preorder : PreOrder active_same.
Proof. unfold active_same. split; [done|]. intros d1 d2 d3 E1 E2. congruence. Qed.
#[local] Hint Extern 1 (active_same _ _) => reflexivity : frame.

Lemma propose_keeps_active ctx payload : ensures (on_db active_same) (propose_config_handle ctx payload).
Proof. solve_ensures_deep. Qed.
Lemma test_keeps_active ctx payload : ensures (on_db active_same) (mark_config_tested_handle ctx payload).
Proof. solve_ensures_deep. Qed.

(** What the plan says of the store it was read from. *)
Definition plan_true (d : Db) (digest : string) (plan : ConfigPlan) : Prop :=
  match plan with
  | KeepActive s => exists a, d.(active_config) = Some a /\ 0 <= a.(ActiveConfigGenerationRow.revision) <= i64_max /\ s = uuid_hyphenated a.(ActiveConfigGenerationRow.generation_id) /\
      has_digest d a.(ActiveConfigGenerationRow.generation_id) digest
  | MoveFrom revision reactivate => revision = revision_of d /\ 0 <= revision /\
      forall s, reactivate = Some s -> exists g, s = uuid_hyphenated g /\ has_digest d g digest
  end.

Lemma decode_active_ok o o' : opt_traverse decode_active o = Ok o' -> o' = o /\ 0 <= from_option ActiveConfigGenerationRow.revision 0 o <= i64_max.
Proof.
  destruct o as [a|]; cbn; [|intros [= <-]; done]. unfold decode_active. intros E.
  destruct (u64_column _ _ _) as [z|] eqn:Hu; cbn in E; [|done]. injection E as <-. apply u64_column_ok in Hu as [_ Hu]. done.
Qed.

Lemma known_generation d digest row :
  config_ids d -> head (select (fun r => bool_decide (r.(ConfigGenerationRow.digest) = digest)) d.(config_generations)) = Some row ->
  has_digest d row.(ConfigGenerationRow.generation_id) digest.
Proof.
  intros Hi Hh. apply head_Some_elem_of in Hh. apply elem_of_select in Hh as (k & Hk & Hd%bool_decide_eq_true).
  exists row. by rewrite (proj1 (cd_keyed _ Hi _ _ Hk)).
Qed.

Lemma plan_config_ok principal epoch digest w plan w' :
  boot_inv principal w.(w_db) -> plan_config principal epoch digest w = (Ok plan, w') ->
  w'.(w_db) = w.(w_db) /\ plan_true w.(w_db) digest plan.
Proof.
  intros [Hi _] E. unfold plan_config in E. apply bind_ok_inv in E as (active & w1 & E1 & E).
  unfold read_active_generation, boot_read, config_get_active, Prelude.bind, query, gets, lift_res, ret in E1. cbn [t_db] in E1.
  destruct (opt_traverse decode_active (active_config (w_db w))) as [o|e] eqn:Ho; [|done]. injection E1 as <- <-.
  apply decode_active_ok in Ho as [-> Hrange]. destruct (active_config (w_db w)) as [a|] eqn:Ha; cbn [fmap option_fmap option_map] in E.
  2:{ injection E as <- <-. split; [done|]. unfold plan_true, revision_of. rewrite Ha. done. }
  unfold boot_read in E. cbn [w_db rollback_txn] in E.
  destruct (cd_active _ Hi a Ha) as [row Hrow]. destruct (cd_keyed _ Hi _ _ Hrow) as [_ Hg]. cbn [compose] in E. unfold id_parses in Hg.
  rewrite Hg in E. unfold config_get_generation, config_get_active, config_get_generation_by_digest, Prelude.bind, query, gets, lift_res, ret in E.
  cbn [t_db ok_or] in E. rewrite Hrow, Ha in E.
  destruct (opt_traverse decode_active (Some a)) as [p|e] eqn:Hp; [|done]. apply decode_active_ok in Hp as [-> _].
  case_bool_decide as Hd.
  - injection E as <- <-. split; [done|]. exists a. rewrite Ha. split_and!; [done|cbn in Hrange; lia|cbn in Hrange; lia|done|]. by exists row.
  - cbn in E. injection E as <- <-. split; [done|]. unfold plan_true, revision_of. rewrite Ha. cbn. split; [done|]. split; [cbn in Hrange; lia|].
    intros s Hs. apply fmap_Some in Hs as (known & Hk & ->). eexists. split; [reflexivity|]. by apply known_generation.
Qed.

Lemma previously_active_reads principal epoch journal (reactivate : option string) w b w' :
  match reactivate with
  | Some id => generation_previously_active principal epoch journal id
  | None => ret false
  end w = (Ok b, w') -> w'.(w_db) = w.(w_db).
Proof.
  destruct reactivate as [id|]; [|by intros [= _ <-]]. unfold generation_previously_active, lift_res. intros E.
  apply bind_ok_inv in E as (key & w1 & [= _ <-] & E). apply bind_ok_inv in E as (journaled & w1 & [= _ <-] & E).
  destruct journaled; [by injection E as _ <-|]. apply bind_ok_inv in E as (rows & w1 & E1 & [= _ <-]).
  unfold pending_events in E1. destruct (begin_write _ _) as [t|]; [|done].
  destruct (streams_scan_unpublished _ t) as [r t']. injection E1 as _ <-. done.
Qed.

#[local] Opaque boot_coordinator.
Context (services : ServicesSection) (epoch : Z) (c : CommandCoordinator) (Hc : boot_coordinator services epoch = Ok c).
Context (principal : PrincipalId) (actor : ActorId).

Lemma in_catalog_test : (CMD_MARK_CONFIG_TESTED, mark_config_tested_handle) ∈ command_catalog services.
Proof. unfold command_catalog. repeat (apply elem_of_cons; first [left; reflexivity|right]). Qed.

Lemma execute_keeps_active env w r w' :
  env.(ce_command_type) = CMD_PROPOSE_CONFIG \/ env.(ce_command_type) = CMD_MARK_CONFIG_TESTED -> execute c env w = (r, w') ->
  active_same w.(w_db) w'.(w_db).
Proof.
  intros Hty E. destruct (booted_execute_inv _ _ _ _ _ _ _ Hc E) as [[-> _]|(h & t & o & t1 & rec & Hh & <- & _ & E1 & _ & -> & _)]; [done|].
  change (active_same (t_db t) (t_db t1)). destruct Hty as [Hty|Hty]; rewrite Hty in Hh.
  - rewrite (catalog_handler _ _ _ _ Hh (in_catalog_propose services)) in E1. by apply propose_keeps_active in E1 as [? _].
  - rewrite (catalog_handler _ _ _ _ Hh in_catalog_test) in E1. by apply test_keeps_active in E1 as [? _].
Qed.

(** A submission the daemon makes executes one envelope under its own key. *)
Lemma boot_submit_inv ty payload key w o w' :
  boot_submit c principal actor ty payload key w = (Ok o, w') ->
  exists id w1, w1.(w_db) = w.(w_db) /\ execute c (boot_envelope principal actor id ty payload key) w1 = (Ok o, w').
Proof.
  unfold boot_submit, idempotency_key_new. destruct (_ || _ || _); [done|]. intros E. eexists _, _. split; [|exact E]. done.
Qed.

Lemma replay_payload env stored o : replay_stored env stored = Ok o -> o.(co_payload) = stored.(IdempotencyRecordRow.outcome_payload).
Proof.
  unfold replay_stored. destruct (negb _); [done|]. intros E. apply res_bind_ok_inv in E as (code & _ & [= <-]). done.
Qed.

Lemma id_text_utf8 g : id_parses g -> from_utf8 (into_bytes (uuid_hyphenated g)) = Some (uuid_hyphenated g).
Proof. intros Hg. apply from_into. by apply v7_canonical, canonical_shape in Hg as [? _]. Qed.

Lemma has_digest_id d g digest : config_ids d -> has_digest d g digest -> id_parses g.
Proof. intros Hi (row & Hr & _). by apply (cd_keyed _ Hi) in Hr as [_ ?]. Qed.

Lemma propose_document_ok document revision w s w' :
  0 <= revision -> boot_inv principal w.(w_db) ->
  propose_document c principal actor document (document_digest document) revision w = (Ok s, w') ->
  exists g, s = uuid_hyphenated g /\ has_digest w'.(w_db) g (document_digest document) /\ boot_inv principal w'.(w_db) /\
    active_same w.(w_db) w'.(w_db).
Proof.
  intros Hr Hi E. unfold propose_document, lift_res in E. apply bind_ok_inv in E as (o & w1 & E1 & [= Hs%ok_or_ok <-]).
  apply boot_submit_inv in E1 as (id & w0 & Ew & E1). rewrite <- Ew in Hi |- *.
  assert (Hd : disciplined principal (boot_envelope principal actor id CMD_PROPOSE_CONFIG
    (encode_propose_config (mkProposeConfigMsg (document_digest document) document)) (propose_key (document_digest document) revision)))
    by (right; right; by eapply shaped_propose).
  pose proof (boot_inv_command _ _ _ _ _ _ _ _ Hc Hd E1 Hi) as Hi'.
  assert (Ha : active_same (w_db w0) (w_db w1)) by (eapply execute_keeps_active; [|exact E1]; by left).
  assert (exists g, o.(co_payload) = into_bytes (uuid_hyphenated g) /\ has_digest w1.(w_db) g (document_digest document)) as (g & Hp & Hg).
  { destruct (booted_execute_inv _ _ _ _ _ _ _ Hc E1) as [[Es [[e [=]]|(stored & Hst & Hrep)]]|(h & t & o' & t1 & rec & Hh & _ & _ & E2 & [= <-] & -> & _)].
    - symmetry in Hrep. rewrite (replay_payload _ _ _ Hrep), Es. exact (br_propose _ _ (bi_records _ _ Hi) _ revision stored Hr Hst).
    - cbn in Hh. rewrite (catalog_handler _ _ _ _ Hh (in_catalog_propose services)) in E2. by apply propose_handle_result in E2. }
  exists g. rewrite Hp, id_text_utf8 in Hs by (eapply has_digest_id, Hg; apply Hi'). injection Hs as <-.
  split_and!; [reflexivity|exact Hg|exact Hi'|exact Ha].
Qed.

Lemma test_generation_ok s w o w' :
  boot_inv principal w.(w_db) -> test_generation c principal actor s w = (Ok o, w') ->
  config_grows w.(w_db) w'.(w_db) /\ boot_inv principal w'.(w_db) /\ active_same w.(w_db) w'.(w_db).
Proof.
  intros Hi E. apply boot_submit_inv in E as (id & w0 & Ew & E). rewrite <- Ew in Hi |- *.
  split_and!; [by eapply execute_grows| |eapply execute_keeps_active; [|exact E]; by right].
  eapply boot_inv_command; [exact Hc| |exact E|done]. right. right. by eapply shaped_test.
Qed.

Lemma move_pointer_ok is_rollback g w o w' :
  0 <= revision_of w.(w_db) -> id_parses g -> boot_inv principal w.(w_db) ->
  move_pointer c principal actor is_rollback (uuid_hyphenated g) (revision_of w.(w_db)) w = (Ok o, w') ->
  config_grows w.(w_db) w'.(w_db) /\ boot_inv principal w'.(w_db) /\ pointer_moved w.(w_db) w'.(w_db) g (revision_of w.(w_db)).
Proof.
  intros Hr Hg Hi E. set (R := revision_of (w_db w)) in *.
  assert (exists id w0, w0.(w_db) = w.(w_db) /\ execute c (boot_envelope principal actor id
    (if is_rollback then CMD_ROLLBACK_CONFIG else CMD_ACTIVATE_CONFIG)
    ((if is_rollback then encode_rollback_config else encode_activate_config) (mkActivateConfigMsg (uuid_hyphenated g) R))
    ((if is_rollback then rollback_key else activate_key) (uuid_hyphenated g) R)) w0 = (Ok o, w')) as (id & w0 & Ew & E1)
    by (destruct is_rollback; by apply boot_submit_inv in E).
  clear E. rewrite <- Ew in Hi |- *. assert (HR : R = revision_of (w_db w0)) by (by rewrite Ew). clearbody R.
  split; [by eapply execute_grows|]. split.
  { eapply boot_inv_command; [exact Hc| |exact E1|done]. right. right.
    destruct is_rollback; [by eapply shaped_rollback|by eapply shaped_activate]. }
  destruct (booted_execute_inv _ _ _ _ _ _ _ Hc E1) as [[_ [[e [=]]|(stored & Hst & _)]]|(h & t & o' & t1 & rec & Hh & Ht & _ & E2 & [= <-] & -> & _)].
  - exfalso. destruct (bi_records _ _ Hi) as [_ A B]. destruct is_rollback;
      [specialize (B _ _ _ Hr Hst)|specialize (A _ _ _ Hr Hst)]; lia.
  - cbn in Hh. rewrite (catalog_handler _ _ _ _ Hh (in_catalog_move services is_rollback)) in E2.
    assert (Hm : (if is_rollback then rollback_config_handle services (command_context (boot_envelope principal actor id
        (if is_rollback then CMD_ROLLBACK_CONFIG else CMD_ACTIVATE_CONFIG)
        ((if is_rollback then encode_rollback_config else encode_activate_config) (mkActivateConfigMsg (uuid_hyphenated g) R))
        ((if is_rollback then rollback_key else activate_key) (uuid_hyphenated g) R))) (encode_rollback_config (mkActivateConfigMsg (uuid_hyphenated g) R))
      else activate_config_handle services (command_context (boot_envelope principal actor id
        (if is_rollback then CMD_ROLLBACK_CONFIG else CMD_ACTIVATE_CONFIG)
        ((if is_rollback then encode_rollback_config else encode_activate_config) (mkActivateConfigMsg (uuid_hyphenated g) R))
        ((if is_rollback then rollback_key else activate_key) (uuid_hyphenated g) R))) (encode_activate_config (mkActivateConfigMsg (uuid_hyphenated g) R))) t = (Ok o, t1))
      by (destruct is_rollback; exact E2).
    apply move_handle_result in Hm as (g' & Hg' & Hm). cbn [ac_generation_id ac_expected_active_revision] in *. rewrite Hg in Hg'. injection Hg' as <-.
    rewrite Ht in Hm. exact Hm.
Qed.

(** A start whose document is already in force reads, and changes nothing. *)
Lemma bootstrap_config_keeps fs path journal document a w :
  fs_read fs path = Some document -> config_ids w.(w_db) -> w.(w_db).(active_config) = Some a ->
  0 <= a.(ActiveConfigGenerationRow.revision) <= i64_max ->
  has_digest w.(w_db) a.(ActiveConfigGenerationRow.generation_id) (document_digest document) ->
  fst (bootstrap_config c principal actor epoch fs path journal w) = Ok (Some (uuid_hyphenated a.(ActiveConfigGenerationRow.generation_id))) /\
  w_db (snd (bootstrap_config c principal actor epoch fs path journal w)) = w.(w_db).
Proof.
  clear Hc. intros Hfs Hi Ha Hrev (row & Hrow & Hd). destruct (cd_keyed _ Hi _ _ Hrow) as [_ Hg]. unfold id_parses in Hg.
  unfold bootstrap_config, Prelude.bind, lift_res. rewrite Hfs. cbn [ok_or].
  unfold plan_config, read_active_generation, boot_read, config_get_active, Prelude.bind, query, gets, lift_res, ret. cbn [t_db w_db].
  rewrite Ha. cbn [opt_traverse]. unfold decode_active. rewrite (u64_column_intro _ _ _ Hrev). cbn. rewrite Hg. cbn.
  unfold config_get_generation, query, gets. cbn. rewrite Hrow, Ha. cbn. rewrite (u64_column_intro _ _ _ Hrev). cbn.
  rewrite bool_decide_true by done. done.
Qed.

(** The generation a successful start leaves in force. *)
Lemma bootstrap_config_ok fs path journal w o w' :
  boot_inv principal w.(w_db) -> bootstrap_config c principal actor epoch fs path journal w = (Ok o, w') ->
  exists document a, fs_read fs path = Some document /\ w'.(w_db).(active_config) = Some a /\
    o = Some (uuid_hyphenated a.(ActiveConfigGenerationRow.generation_id)) /\
    has_digest w'.(w_db) a.(ActiveConfigGenerationRow.generation_id) (document_digest document) /\ boot_inv principal w'.(w_db) /\
    0 <= a.(ActiveConfigGenerationRow.revision) <= i64_max /\
    (w'.(w_db) = w.(w_db) \/ a.(ActiveConfigGenerationRow.revision) = revision_of w.(w_db) + 1).
Proof.
  intros Hi E. unfold bootstrap_config, lift_res in E. apply bind_ok_inv in E as (document & w1 & [= Hfs%ok_or_ok <-] & E).
  apply bind_ok_inv in E as (plan & w1 & E1 & E). destruct (plan_config_ok _ _ _ _ _ _ Hi E1) as [Ew Hplan]. exists document.
  destruct plan as [s|revision reactivate].
  - injection E as <- <-. destruct Hplan as (a & Ha & Hrg & -> & Hd). exists a. rewrite Ew.
    split; [exact Hfs|]. split; [exact Ha|]. split; [reflexivity|]. split; [exact Hd|]. split; [exact Hi|]. split; [exact Hrg|]. left. reflexivity.
  - destruct Hplan as (HR & Hr & Hre). rewrite <- Ew in Hi, HR, Hre |- *. rewrite <- HR.
    apply bind_ok_inv in E as (is_rollback & w2 & E2 & E).
    apply previously_active_reads in E2 as Ew2.
    apply bind_ok_inv in E as (s & w3 & E3 & E).
    assert (exists g, s = uuid_hyphenated g /\ has_digest w3.(w_db) g (document_digest document) /\ boot_inv principal w3.(w_db) /\
      active_same w1.(w_db) w3.(w_db)) as (g & -> & Hg & Hi3 & Ha3).
    { rewrite <- Ew2 in Hi, Hre |- *. destruct reactivate as [known|].
      - injection E3 as <- <-. destruct (Hre _ eq_refl) as (g & -> & Hg). exists g. split; [reflexivity|]. split; [exact Hg|].
        split; [exact Hi|]. reflexivity.
      - eapply propose_document_ok; [exact Hr|exact Hi|exact E3]. }
    apply bind_ok_inv in E as (o4 & w4 & E4 & E). destruct (test_generation_ok _ _ _ _ Hi3 E4) as (G4 & Hi4 & Ha4).
    apply bind_ok_inv in E as (o5 & w5 & E5 & E). injection E as <- <-.
    assert (Hrev : revision = revision_of (w_db w4)) by (rewrite HR; unfold revision_of, active_same in *; by rewrite Ha4, Ha3).
    clear HR. subst revision.
    assert (Hgp : id_parses g) by (eapply has_digest_id, Hg; apply Hi3).
    destruct (move_pointer_ok _ _ _ _ _ Hr Hgp Hi4 E5) as (G5 & Hi5 & _ & Hb & now & Ha5). eexists. split; [exact Hfs|]. split; [exact Ha5|].
    split; [reflexivity|]. split; [by apply G5, G4|]. split; [exact Hi5|]. split; [exact Hb|]. right. reflexivity.
Qed.
End History.

Section InForce.
Context `{!Ext} `{!Contracts} `{!BindContracts} `{!ApprovalContracts} `{!RecoveryContracts} `{!ConfigYaml} `{!ConfigContracts}.
Context `{!EnvelopeCodec} `{!BootCodec} `{!BootConfigLaws}.

(** C33: The configuration of the command line is in force once the daemon is up.
    In every state the commands of booted daemons lead to, starts cut short
    anywhere, provided no command but the start's own uses an idempotency key that
    begins with [config.] under the daemon's principal (the control socket does not
    refuse one that does), a start that succeeds answers with the active generation,
    and that generation stores the digest of the file and its very bytes, unless the
    two documents are a collision of SHA-256; the pointer moved by one revision or
    nothing was written.
    Started again with the same file, whatever the journal and the paths, the
    daemon answers the same and writes nothing. *)
Theorem boot_puts_document_in_force services epoch c principal actor fs path journal w o w' :
  boot_coordinator services epoch = Ok c -> rtc (boot_step principal) empty_db w.(w_db) ->
  bootstrap_config c principal actor epoch fs path journal w = (Ok o, w') ->
  exists document a row, fs_read fs path = Some document /\ w'.(w_db).(active_config) = Some a /\
    o = Some (uuid_hyphenated a.(ActiveConfigGenerationRow.generation_id)) /\
    w'.(w_db).(config_generations) !! a.(ActiveConfigGenerationRow.generation_id) = Some row /\
    row.(ConfigGenerationRow.digest) = document_digest document /\
    (row.(ConfigGenerationRow.document) = document \/
     row.(ConfigGenerationRow.document) <> document /\ sha256 row.(ConfigGenerationRow.document) = sha256 document) /\
    (w'.(w_db) = w.(w_db) \/ a.(ActiveConfigGenerationRow.revision) = revision_of w.(w_db) + 1) /\
    forall epoch2 c2 actor2 fs2 path2 journal2 w2,
      fs_read fs2 path2 = Some document -> w2.(w_db) = w'.(w_db) ->
      let '(r, w3) := bootstrap_config c2 principal actor2 epoch2 fs2 path2 journal2 w2 in r = Ok o /\ w3.(w_db) = w2.(w_db).
Proof.
  intros Hc Hs E. pose proof (boot_inv_steps _ _ _ Hs (boot_inv_empty principal)) as Hi.
  destruct (bootstrap_config_ok _ _ _ Hc _ _ _ _ _ _ _ _ Hi E) as (document & a & Hfs & Ha & -> & Hd & Hi' & Hrg & Hmove).
  pose proof Hd as (row & Hrow & Hdig). exists document, a, row.
  split; [exact Hfs|]. split; [exact Ha|]. split; [reflexivity|]. split; [exact Hrow|]. split; [exact Hdig|].
  split; [apply document_digest_inj; by rewrite <- Hdig, <- (cd_honest _ (bi_ids _ _ Hi') _ _ Hrow)|]. split; [exact Hmove|].
  intros epoch2 c2 actor2 fs2 path2 journal2 w2 Hfs2 Ew.
  pose proof (bootstrap_config_keeps epoch2 c2 principal actor2 fs2 path2 journal2 document a w2 Hfs2) as Hk. rewrite Ew in Hk |- *.
  destruct (bootstrap_config _ _ _ _ _ _ _ w2) as [r w3]. by apply Hk; [apply Hi'|..].
Qed.
End InForce.

(** ** Rollback or activation *)

Section Scan.
Context `{!Ext} `{!EnvelopeCodec} `{!WireCodec} `{!BootCodec}.
Context (d : Db) (j : Journal) (k : StreamKey) (generation_id : string).
Hypothesis Hok : outbox_ok d.
Hypothesis Hm : mirror d j.
Hypothesis Hpub : publishable d.
Hypothesis Hk : stream_key_from_str (sk_text k) = Ok k.

Abbreviation n := (Z.to_nat (stream_max (sk_text k) j)).
Abbreviation journaled := (take n (history d k)).

Lemma activates_wire e : event_activates generation_id (wire_form e) = event_activates generation_id e.
Proof. done. Qed.

Lemma existsb_wire l : existsb (event_activates generation_id) (wire_form <$> l) = existsb (event_activates generation_id) l.
Proof. induction l as [|e l IH]; [done|]. cbn. by rewrite IH. Qed.

Lemma journaled_length : length journaled = n.
Proof. rewrite length_take. pose proof (journaled_within_history d j k Hok Hm). lia. Qed.

(** The event at index [i] has sequence [i + 1], which fits the store. *)
Lemma journaled_position i e : journaled !! i = Some e -> e.(ev_sequence) = Z.of_nat i + 1 /\ e.(ev_sequence) <= i64_max.
Proof.
  intros [He _]%lookup_take_Some. apply history_lookup in He as (id & r & (Hr & _ & Hs) & ->); [|done].
  destruct (Hpub _ _ Hr) as (_ & _ & _ & _ & Hi). cbn. lia.
Qed.

Lemma stream_max_storable from : 0 <= from <= Z.of_nat n -> from <= i64_max.
Proof.
  intros Hf. destruct (decide (n = 0%nat)) as [Hn|Hn]; [unfold i64_max; lia|].
  destruct (journaled !! (n - 1)%nat) as [e|] eqn:He.
  - apply journaled_position in He as [Hs Hi]. lia.
  - apply lookup_ge_None in He. rewrite journaled_length in He. lia.
Qed.

Lemma existsb_split {A} (p : A -> bool) i l : existsb p l = existsb p (take i l) || existsb p (drop i l).
Proof. by rewrite <- existsb_app, take_drop. Qed.

(** The loop ends within its fuel, and sees every event past [from]. *)
Lemma journal_activates_run fuel from :
  0 <= from <= Z.of_nat n -> (n - Z.to_nat from < fuel)%nat ->
  journal_activates fuel k generation_id j from = Ok (existsb (event_activates generation_id) (drop (Z.to_nat from) journaled)).
Proof.
  revert from. induction fuel as [|fuel IH]; intros from Hf Hfuel; [lia|]. cbn [journal_activates].
  rewrite (read_page d j k) by first [assumption | (split; [lia|by apply stream_max_storable])]. cbn [fst res_bind rr_events].
  set (rest := drop (Z.to_nat from) journaled). rewrite existsb_wire, (existsb_split _ PAGE_EVENTS rest).
  destruct (list.last (wire_form <$> take PAGE_EVENTS rest)) as [e|] eqn:He.
  - destruct (existsb _ (take PAGE_EVENTS rest)); [done|]. cbn [orb].
    rewrite last_lookup, list_lookup_fmap, fmap_Some in He. destruct He as (e0 & He & ->). rewrite length_fmap in He.
    apply lookup_take_Some in He as [He Hlt]. subst rest. rewrite lookup_drop in He. pose proof (lookup_lt_Some _ _ _ He) as Hl.
    rewrite journaled_length in Hl. apply journaled_position in He as [Hs _]. cbn [ev_sequence wire_form]. rewrite Hs.
    assert (Hlen : length (take PAGE_EVENTS (drop (Z.to_nat from) journaled)) = min PAGE_EVENTS (n - Z.to_nat from)).
    { rewrite length_take, length_drop, journaled_length. done. }
    rewrite Hlen in *. assert (HP : (0 < PAGE_EVENTS)%nat) by (unfold PAGE_EVENTS; lia).
    rewrite IH by lia. f_equal. rewrite drop_drop.
    destruct (decide (PAGE_EVENTS <= n - Z.to_nat from)%nat) as [Hle|Hgt].
    + do 2 f_equal. lia.
    + rewrite !drop_ge by (rewrite journaled_length; lia). done.
  - apply last_None, fmap_nil_inv in He. rewrite He. cbn [existsb orb].
    assert (Hnil : rest = []).
    { destruct rest as [|e rest']; [done|]. unfold PAGE_EVENTS in He. done. }
    by rewrite Hnil.
Qed.

Lemma stream_max_size : (n <= size j)%nat.
Proof.
  pose proof (length_stream_rows (sk_text k) 0 j (mi_wf _ _ Hm)) as Hl. rewrite Z.sub_0_r in Hl. rewrite <- Hl by done.
  unfold stream_rows. rewrite merge_sort_Permutation, length_fmap, <- length_map_to_list. apply length_filter.
Qed.

Lemma journal_activates_exact :
  journal_activates (journal_fuel j) k generation_id j 0 = Ok (existsb (event_activates generation_id) journaled).
Proof.
  rewrite journal_activates_run; [done|lia|]. pose proof stream_max_size. unfold journal_fuel. lia.
Qed.

Lemma row_activates_event r :
  row_activates k generation_id r = true <->
  r.(OutboxEventRow.stream_key) = sk_text k /\ event_activates generation_id (envelope_from_row r k) = true.
Proof.
  unfold row_activates, event_activates. cbn [ev_event_type ev_payload envelope_from_row].
  rewrite <- andb_assoc, andb_true_iff, bool_decide_eq_true. done.
Qed.

(** Every committed event of the stream is journaled or still to be published. *)
Lemma scans_cover_history :
  existsb (event_activates generation_id) (history d k) =
  existsb (event_activates generation_id) journaled ||
  existsb (row_activates k generation_id) (select_by position_le unpublished d.(outbox_events)).
Proof.
  apply eq_true_iff_eq. rewrite orb_true_iff, !existsb_exists. split.
  - intros (e & Hin & He). apply list_elem_of_In, list_elem_of_lookup in Hin as [i Hi].
    destruct (decide (i < n)%nat) as [Hlt|Hge].
    { left. exists e. split; [|done]. apply list_elem_of_In, list_elem_of_lookup. exists i. by rewrite lookup_take_lt. }
    right. apply history_lookup in Hi as (id & r & Hp & ->); [|done]. exists r. split.
    + apply list_elem_of_In, elem_of_select_by. exists id. split; [by destruct Hp|].
      destruct (unpublished r) eqn:Hu; [done|]. exfalso.
      pose proof (proj1 (proj2 (stream_max_spec (sk_text k) j (mi_wf _ _ Hm)) _) (mi_marked _ _ Hm _ _ _ _ Hp Hu)). lia.
    + apply row_activates_event. destruct Hp as (_ & Hkey & _). done.
  - intros [(e & Hin & He)|(r & Hin & He)].
    + exists e. split; [|done]. apply list_elem_of_In in Hin. apply list_elem_of_In. apply elem_of_take in Hin as (i & Hi & _). by eapply list_elem_of_lookup_2.
    + apply row_activates_event in He as [Hkey He]. exists (envelope_from_row r k). split; [|done].
      apply list_elem_of_In, elem_of_select_by in Hin as (id & Hr & _). apply list_elem_of_In, list_elem_of_fmap. exists r. split; [done|].
      apply elem_of_history_rows. eauto.
Qed.

Lemma scan_decodes l : (forall r, r ∈ l -> exists id, d.(outbox_events) !! id = Some r) -> res_collect decode_event l = Ok l.
Proof.
  intros Hl. apply res_collect_ok. apply Forall2_same_length_lookup. split; [done|].
  intros i r r' Hi Hi'. rewrite Hi in Hi'. injection Hi' as <-. destruct (Hl r (list_elem_of_lookup_2 _ _ _ Hi)) as [id Hr].
  destruct (Hpub _ _ Hr) as (_ & _ & _ & Hv & Hs).
  pose proof (ob_bound _ Hok _ _ _ _ (conj Hr (conj eq_refl eq_refl))) as Hb. unfold decode_event, int_column, in_i64.
  rewrite (proj2 (Z.leb_le _ _)), (proj2 (Z.leb_le _ _)) by (unfold i64_min, i64_max; lia). cbn [andb res_bind].
  unfold between. rewrite (proj2 (Z.leb_le _ _)), (proj2 (Z.leb_le _ _)) by lia. cbn [andb res_bind].
  rewrite u64_column_intro by lia. done.
Qed.

Lemma pending_events_run principal epoch w :
  w.(w_db) = d -> assert_epoch epoch d = Ok tt -> (size d.(outbox_events) <= Z.to_nat (2 ^ 32 - 1))%nat ->
  exists w', pending_events principal epoch w = (Ok (select_by position_le unpublished d.(outbox_events)), w') /\ w'.(w_db) = d.
Proof.
  intros Hw He Hsz. unfold pending_events, begin_write. cbn [w_db ctx_daemon_epoch]. rewrite Hw, He. cbn [res_bind].
  unfold streams_scan_unpublished, Prelude.bind, query, gets, lift_res. cbn [t_db w_db].
  assert (Hlen : (length (select_by position_le unpublished d.(outbox_events)) <= size d.(outbox_events))%nat).
  { unfold select_by. rewrite length_fmap, merge_sort_Permutation, length_map_to_list. apply map_size_filter. }
  rewrite take_ge by lia. rewrite scan_decodes by (intros r (id & Hr & _)%elem_of_select_by; eauto).
  eexists. split; [reflexivity|]. done.
Qed.
End Scan.

Section Decision.
Context `{!Ext} `{!EnvelopeCodec} `{!WireCodec} `{!BootCodec} `{!Faults}.

(** [StreamKey::config_global()]. *)
Definition config_stream : StreamKey := mkStreamKey "config/global" StreamConfigGlobal.

(** C34: Whether a start rolls back or activates depends on what was committed and on
    nothing else: at any point of any interleaving of commands, dispatch steps and
    restarts, the search through the journal's pages and then the outbox ends
    with an answer, and the answer is whether the committed history of the
    configuration stream holds an activation or a rollback that names the
    generation, however much of that history the dispatcher has published. *)
Theorem rollback_decided_by_history s0 s principal epoch generation_id w :
  pipeline_start s0 -> rtc pipeline_step s0 s -> publishable s.(ds_world).(w_db) ->
  (size s.(ds_world).(w_db).(outbox_events) <= Z.to_nat (2 ^ 32 - 1))%nat ->
  w.(w_db) = s.(ds_world).(w_db) -> assert_epoch epoch w.(w_db) = Ok tt ->
  exists w', generation_previously_active principal epoch s.(ds_journal) generation_id w =
      (Ok (existsb (event_activates generation_id) (history w.(w_db) config_stream)), w') /\ w'.(w_db) = w.(w_db).
Proof.
  intros Hs Hr Hpub Hsz Hw He. destruct (reachable_ok _ _ Hs Hr) as [[Hok Hm] _]. rewrite <- Hw in Hok, Hm, Hpub, Hsz.
  assert (Hk : stream_key_from_str (sk_text config_stream) = Ok config_stream) by reflexivity.
  unfold generation_previously_active, lift_res. unfold Prelude.bind at 1. change stream_config_global with (Ok config_stream). cbv beta iota.
  unfold Prelude.bind at 1. rewrite (journal_activates_exact (w_db w)) by done. rewrite (scans_cover_history (w_db w) (ds_journal s)) by done.
  destruct (existsb _ (take _ _)); [by eexists|]. cbn [orb].
  destruct (pending_events_run (w_db w) Hok Hpub principal epoch w) as (w' & E & Hw'); [done..|].
  unfold Prelude.bind. rewrite E. by eexists.
Qed.
End Decision.
