(* ===== verification/InstalledAdapters.v ===== *)
(** * Installed adapters ([agentd/src/adapters.rs])

    [agentd adapter install | check | enable | disable | remove | list]: bundles
    copied under the runtime directory, the index that records them, and what a
    start of the daemon registers of them.  The index is changed under a lock on
    a file of its own, so that its load and its save are one step; the file
    system is that of [LocalFiles].  What a spawned bundle answers is a parameter. *)

From S2P Require Import Prelude Domain Ids Text Models StoreBase EffectPolicy Effects Coordinator LocalFiles Forks Resolver Bundles.
From S2P Require Import Protocol Supervisor Planning WorkerBase ApiAuth.

Open Scope string_scope.
Open Scope Z_scope.

Definition INSTALLED_DIR : string := "installed-adapters".
Definition INDEX_FILE : string := "index.json".

Record InstalledAdapter := mkInstalledAdapter {
  ia_adapter_id : string;
  ia_version : string;
  ia_bundle_digest : string;
  ia_dir_name : string;
  ia_enabled : bool;
  ia_check : option string;
  ia_installed_at_ms : Z }.

#[export] Instance InstalledAdapter_eq_dec : EqDecision InstalledAdapter.
Proof. solve_decision. Defined.

Record CheckReport := mkCheckReport {
  cp_adapter_id : string; cp_version : string; cp_bundle_digest : string; cp_result : string; cp_cases : list string;
  cp_implemented_ports : list string }.

(** [serde_json] on the index; serialising it does not fail. *)
Class InstallJson := {
  entries_to_json : list InstalledAdapter -> bytes;
  entries_from_json : string -> Res (list InstalledAdapter) }.

(** What a spawned child has to say, and [Debug] of a frame body. *)
Class CheckHost := {
  child_stream : SpawnSpec -> Res Stream;
  debug_body : option FrameBody -> string }.

Definition cli_err (message : string) : KernelError := kerr InvalidArgument message.
Definition io_err (op : string) : KernelError := mkKernelError Unavailable RetrySafe ("adapter cli: " +:+ op +:+ " failed").

Definition index_dir (runtime_dir : FsPath) : FsPath := (runtime_dir ++ [INSTALLED_DIR])%list.
Definition index_path (runtime_dir : FsPath) : FsPath := (index_dir runtime_dir ++ [INDEX_FILE])%list.
Definition index_tmp (runtime_dir : FsPath) : FsPath := (index_dir runtime_dir ++ ["index.json.tmp"])%list.

(** ** The file system calls *)

(** Whether a lookup fails with [NotFound]: a name is missing on the way. *)
Fixpoint missing_name (links : nat) (fs : Fs) {struct links} : FsPath -> list string -> bool :=
  fix walk (cur : FsPath) (todo : list string) {struct todo} : bool :=
    match todo with
    | [] => false
    | name :: rest =>
        if decide (name = "" \/ name = ".") then walk cur rest
        else if decide (name = "..") then walk (parent_path cur) rest
        else
          match fs !! (cur ++ [name])%list with
          | None => true
          | Some Dir => walk (cur ++ [name])%list rest
          | Some (File _) => false
          | Some (Symlink absolute target) =>
              match links with
              | O => false
              | S links => missing_name links fs (if absolute then [] else cur) (target ++ rest)%list
              end
          end
    end.
Definition not_found (fs : Fs) (p : FsPath) : bool := missing_name MAX_LINKS fs [] p.

(** [Path::exists] and [Path::is_file]. *)
Definition path_exists (fs : Fs) (p : FsPath) : bool := bool_decide (is_Some (canonicalize fs p)).
Definition is_file (fs : Fs) (p : FsPath) : bool :=
  match canonicalize fs p with Some c => match fs !! c with Some (File _) => true | _ => false end | None => false end.

(** The directory entry a path names, its last component not followed. *)
Definition entry_of (fs : Fs) (p : FsPath) : option FsPath :=
  match list.last p with
  | None => None
  | Some name => match canonicalize fs (parent_path p) with Some c => Some (c ++ [name])%list | None => None end
  end.

(** [std::fs::rename] onto a file or a free name. *)
Definition fs_rename (fs : Fs) (from to : FsPath) : option Fs :=
  match entry_of fs from, entry_of fs to with
  | Some f, Some t =>
      match fs !! f with
      | Some (File b) => match fs !! t with Some Dir => None | _ => Some (<[t := File b]> (delete f fs)) end
      | _ => None
      end
  | _, _ => None
  end.

(** [std::fs::remove_dir_all]: a link is removed, not followed. *)
Definition remove_dir_all (fs : Fs) (p : FsPath) : option Fs :=
  match entry_of fs p with
  | Some c =>
      match fs !! c with
      | Some Dir => Some (filter (fun kv => ~ c `prefix_of` kv.1) fs)
      | Some (Symlink _ _) => Some (delete c fs)
      | _ => None
      end
  | None => None
  end.

(** The state of a command: the disk, and how many identifiers were drawn. *)
Record CliState := mkCliState { cl_fs : Fs; cl_ids : nat }.
Abbreviation Cli := (ST CliState).

Definition on_fs {A} (m : Disk A) : Cli A := fun s => let '(r, fs) := m s.(cl_fs) in (r, mkCliState fs s.(cl_ids)).

(** A call of the operating system that changes the disk or fails. *)
Definition io_call (op : string) (f : Fs -> option Fs) : Disk unit :=
  fun fs => match f fs with Some fs' => (Ok tt, fs') | None => (Err (io_err op), fs) end.

Section Adapters.
Context `{!Ext} `{!BundleJson} `{!InstallJson} `{!WorkspaceHost} `{!FrameCodec} `{!CheckHost}.

Definition cli_uuid : Cli Uuid := fun s => (Ok (new_uuid_v7 s.(cl_ids)), mkCliState s.(cl_fs) (S s.(cl_ids))).

(** ** The index *)

Definition load_index (runtime_dir : FsPath) : Disk (list InstalledAdapter) := fun fs =>
  (match fs_read fs (index_path runtime_dir) with
   | Some b =>
       let? body := ok_or (from_utf8 b) (io_err "read install index") in
       match entries_from_json body with
       | Ok entries => Ok entries
       | Err e => Err (cli_err ("installed-adapters index is corrupt: " +:+ e.(err_message)))
       end
   | None => if not_found fs (index_path runtime_dir) then Ok [] else Err (io_err "read install index")
   end, fs).

Definition save_index (runtime_dir : FsPath) (entries : list InstalledAdapter) : Disk unit :=
  let dir := index_dir runtime_dir in
  do! io_call "create install dir" (fun fs => create_dir_all (length dir) fs dir) in
  do! io_call "write index" (fun fs => fs_write fs (index_tmp runtime_dir) (entries_to_json entries)) in
  io_call "rename index" (fun fs => fs_rename fs (index_tmp runtime_dir) (index_path runtime_dir)).

(** [with_index_lock]: the lock file is made, then [f] runs alone. *)
Definition with_index_lock {A} (runtime_dir : FsPath) (f : Disk A) : Disk A :=
  let dir := index_dir runtime_dir in
  do! io_call "create install dir" (fun fs => create_dir_all (length dir) fs dir) in
  do! io_call "open index lock" (fun fs => fs_write fs (dir ++ ["index.lock"])%list []) in
  f.

(** ** Bundles *)

Definition verify_bundle (fs : Fs) (dir : FsPath) : Res (ExtensionManifest * string) :=
  let? manifest_bytes := ok_or (fs_read fs (dir ++ [MANIFEST_FILE])%list) (io_err "read manifest") in
  let? manifest := parse_manifest manifest_bytes in
  let? digest := compute_bundle_digest fs dir (manifest_digest manifest_bytes) in
  Ok (manifest, digest).

(** [copy_dir], over the depth of the tree; every failure is reported alike. *)
Fixpoint copy_dir (fuel : nat) (src dst : FsPath) : Disk unit :=
  match fuel with
  | O => raise OUT_OF_FUEL
  | S fuel =>
      do! io_call "copy bundle" (fun fs => create_dir_all (length dst) fs dst) in
      let! entries := gets (fun fs => read_dir fs src) in
      let! names := lift_res (ok_or entries (io_err "copy bundle")) in
      for_each names (fun name =>
        let from := (src ++ [name])%list in
        let to := (dst ++ [name])%list in
        let! stat := gets (fun fs => lstat fs from) in
        let! meta := lift_res (ok_or stat (io_err "copy bundle")) in
        match meta with
        | Dir => copy_dir fuel from to
        | File _ => io_call "copy bundle" (fun fs => fs_copy fs from to)
        | Symlink _ _ => raise (io_err "copy bundle")
        end)
  end.
Definition copy_bundle (src dst : FsPath) : Disk unit := fun fs => copy_dir (copy_fuel fs) src dst fs.

(** ** The spawn check *)

(** [probe]: the handshake and one ping.  Both nonces are drawn beforehand, also
    when the ping is not reached. *)
Definition probe (identity : ExpectedIdentity) (nonce ping_nonce : string) (s : Stream) : Res (list string * list string) * Stream :=
  match write_frame (bootstrap_frame identity nonce) s with
  | (Err e, s1) => (Err e, s1)
  | (Ok _, s1) =>
  match read_frame s1 with
  | (ReadFailed e _, s2) => (Err e, s2)
  | (GotFrame (Some (BodyHello hello)), s2) =>
      match verify_hello identity hello with
      | Err e => (Err e, s2)
      | Ok _ =>
      match write_frame (Some (BodyPing ping_nonce)) s2 with
      | (Err e, s3) => (Err e, s3)
      | (Ok _, s3) =>
      let expected_pong body := cli_err ("expected pong for " +:+ ping_nonce +:+ ", got " +:+ debug_body body) in
      match read_frame s3 with
      | (ReadFailed e _, s4) => (Err e, s4)
      | (GotFrame (Some (BodyPong pong)), s4) =>
          (if bool_decide (pong = ping_nonce) then Ok (["handshake=pass"; "ping_pong=pass"], hello.(ah_implemented_ports))
           else Err (expected_pong (Some (BodyPong pong))), s4)
      | (GotFrame body, s4) => (Err (expected_pong body), s4)
      | (CleanEof, s4) => (Err (expected_pong None), s4)
      end end end
  | (GotFrame body, s2) => (Err (cli_err ("expected AdapterHello, got " +:+ debug_body body)), s2)
  | (CleanEof, s2) => (Err (cli_err ("expected AdapterHello, got " +:+ debug_body None)), s2)
  end end.

Definition manifest_isolation (m : ExtensionManifest) : Isolation :=
  match m.(mf_runtime).(rt_isolation) with
  | Some kind => if bool_decide (kind = "user-ns") then UserNamespace true
                 else if bool_decide (kind = "user-ns-no-net") then UserNamespace false else IsolationNone
  | None => IsolationNone
  end.

Definition check_env (adapter_id version : string) : list (string * string) :=
  [("AGENTOS_ADAPTER_ID", adapter_id); ("AGENTOS_ADAPTER_VERSION", version); ("FIXTURE_ADAPTER_ID", adapter_id);
   ("FIXTURE_ADAPTER_VERSION", version); ("FIXTURE_LOOP_ADAPTER_ID", adapter_id); ("FIXTURE_LOOP_ADAPTER_VERSION", version)].

Context (wasm_host : option FsPath).

Definition check_target (dir : FsPath) (m : ExtensionManifest) : Res (FsPath * list string) :=
  let entrypoint := join_path dir m.(mf_runtime).(rt_entrypoint) in
  if bool_decide (m.(mf_runtime).(rt_type) = "wasm") then
    let? host := ok_or wasm_host
      (kerr FailedPrecondition "wasm bundle requires the agentos-wasm-host binary (set AGENTOS_WASM_HOST)") in
    Ok (host, [path_text entrypoint])
  else Ok (entrypoint, []).

Definition check_bundle (dir : FsPath) : Cli CheckReport :=
  let! verified := (fun s => (verify_bundle s.(cl_fs) dir, s)) in
  let '(manifest, digest) := verified in
  let! adapter_id := lift_res (ok_or (uuid_v7_from_str manifest.(mf_id))
    (cli_err ("manifest id '" +:+ manifest.(mf_id) +:+ "' is not an adapter id: invalid identifier"))) in
  let! instance := cli_uuid in
  let! daemon := cli_uuid in
  let text := uuid_hyphenated adapter_id in
  let version := manifest.(mf_version) in
  let identity := mkExpectedIdentity daemon 1 (uuid_hyphenated instance) text version digest 1 in
  let! target := lift_res (check_target dir manifest) in
  let! stream := lift_res (child_stream (mkSpawnSpec adapter_id version digest instance daemon 1 1 target.1 target.2
    (check_env text version) (manifest_isolation manifest) (bool_decide (manifest.(mf_runtime).(rt_type) = "wasm")))) in
  let! nonce := cli_uuid in
  let! ping_nonce := cli_uuid in
  ret (match fst (probe identity (uuid_hyphenated nonce) (uuid_hyphenated ping_nonce) stream) with
       | Ok (cases, ports) => mkCheckReport text version digest "pass" cases ports
       | Err e => mkCheckReport text version digest ("fail: " +:+ kernel_error_to_string e)
                    ["error=" +:+ kernel_error_to_string e] []
       end).

(** ** The operations *)

Definition matches_entry (id_prefix : string) (version : option string) (e : InstalledAdapter) : bool :=
  starts_with id_prefix e.(ia_adapter_id) &&
  match version with None => true | Some v => bool_decide (e.(ia_version) = v) end.

(** [.iter().enumerate().filter(..).map(|(i, _)| i)]. *)
Fixpoint matching_from (i : nat) (id_prefix : string) (version : option string) (entries : list InstalledAdapter) : list nat :=
  match entries with
  | [] => []
  | e :: entries =>
      let rest := matching_from (S i) id_prefix version entries in
      if matches_entry id_prefix version e then i :: rest else rest
  end.

Definition find_entry (entries : list InstalledAdapter) (id_prefix : string) (version : option string) : Res nat :=
  match matching_from 0 id_prefix version entries with
  | [i] => Ok i
  | [] => Err (cli_err ("no installed adapter matches '" +:+ id_prefix +:+ "'"))
  | l => Err (cli_err ("'" +:+ id_prefix +:+ "' matches " +:+ u64_to_string (Z.of_nat (length l)) +:+
           " installed adapters — be more specific"))
  end.

(** [{id}-{version}-{first twelve of the digest}]. *)
Definition install_dir_name (m : ExtensionManifest) (digest : string) : string :=
  m.(mf_id) +:+ "-" +:+ m.(mf_version) +:+ "-" +:+ String.substring 0 12 (default digest (strip_prefix "sha256:" digest)).

Definition same_identity (a b : InstalledAdapter) : bool :=
  bool_decide (a.(ia_adapter_id) = b.(ia_adapter_id)) && bool_decide (a.(ia_version) = b.(ia_version)).

(** What [install] makes of the index. *)
Definition record_entry (entry : InstalledAdapter) (entries : list InstalledAdapter) : list InstalledAdapter :=
  (List.filter (fun e => negb (same_identity e entry)) entries ++ [entry])%list.

Definition set_enabled_at (i : nat) (enabled : bool) (entries : list InstalledAdapter) : list InstalledAdapter :=
  alter (fun e => mkInstalledAdapter e.(ia_adapter_id) e.(ia_version) e.(ia_bundle_digest) e.(ia_dir_name) enabled
                    e.(ia_check) e.(ia_installed_at_ms)) i entries.

Definition discard (dest : FsPath) : Cli unit :=
  let! _ := attempt (on_fs (io_call "remove" (fun fs => remove_dir_all fs dest))) in ret tt.

Definition install (runtime_dir bundle_dir : FsPath) (run_check : bool) (now_ms : Z) : Cli InstalledAdapter :=
  let! fs := gets cl_fs in
  guard! is_file fs (bundle_dir ++ [MANIFEST_FILE])%list
    else cli_err (path_text bundle_dir +:+ " is not an adapter bundle (missing " +:+ MANIFEST_FILE +:+ ")") in
  guard! is_file fs (bundle_dir ++ [LOCK_FILE])%list
    else cli_err ("bundle lacks " +:+ LOCK_FILE +:+ " — run scripts/make-adapter-bundle.sh first") in
  let! verified := lift_res (verify_bundle fs bundle_dir) in
  let '(manifest, digest) := verified in
  let dir_name := install_dir_name manifest digest in
  let dest := join_path (index_dir runtime_dir) dir_name in
  do! (if path_exists fs dest then on_fs (io_call "replace installed bundle" (fun fs => remove_dir_all fs dest)) else ret tt) in
  do! on_fs (copy_bundle bundle_dir dest) in
  let! fs := gets cl_fs in
  let! copied := lift_res (verify_bundle fs dest) in
  do! (if bool_decide (copied.2 = digest) then ret tt
       else do! discard dest in raise (cli_err "installed copy digest mismatch — install aborted")) in
  let! check := (if run_check then
      let! report := check_bundle dest in
      if bool_decide (report.(cp_result) = "pass") then ret (Some report.(cp_result))
      else do! discard dest in raise (cli_err ("adapter check failed: " +:+ report.(cp_result)))
    else ret None) in
  let entry := mkInstalledAdapter manifest.(mf_id) manifest.(mf_version) digest dir_name true check now_ms in
  do! on_fs (with_index_lock runtime_dir (
        let! entries := load_index runtime_dir in
        save_index runtime_dir (record_entry entry entries))) in
  ret entry.

Definition set_enabled (runtime_dir : FsPath) (id_prefix : string) (version : option string) (enabled : bool) : Disk InstalledAdapter :=
  with_index_lock runtime_dir (
    let! entries := load_index runtime_dir in
    let! i := lift_res (find_entry entries id_prefix version) in
    let entries' := set_enabled_at i enabled entries in
    do! save_index runtime_dir entries' in
    lift_res (ok_or (entries' !! i) (cli_err "index out of range"))).

Definition remove (runtime_dir : FsPath) (id_prefix : string) (version : option string) : Disk unit :=
  with_index_lock runtime_dir (
    let! entries := load_index runtime_dir in
    let! i := lift_res (find_entry entries id_prefix version) in
    let! entry := lift_res (ok_or (entries !! i) (cli_err "index out of range")) in
    let dir := join_path (index_dir runtime_dir) entry.(ia_dir_name) in
    let! fs := gets (fun fs => fs) in
    do! (if path_exists fs dir then io_call "remove bundle dir" (fun fs => remove_dir_all fs dir) else ret tt) in
    save_index runtime_dir (delete i entries)).

Definition enabled_bundle_dirs (runtime_dir : FsPath) : Disk (list FsPath) :=
  let! entries := load_index runtime_dir in
  let! fs := gets (fun fs => fs) in
  ret (List.filter (fun dir => is_file fs (dir ++ [MANIFEST_FILE])%list)
         ((fun e => join_path (index_dir runtime_dir) e.(ia_dir_name)) <$> List.filter ia_enabled entries)).
End Adapters.

(** ** The index as a list *)

Definition identity_of (e : InstalledAdapter) : string * string := (e.(ia_adapter_id), e.(ia_version)).

(** Every (id, version) is installed at most once. *)
Definition unique_identities (entries : list InstalledAdapter) : Prop := NoDup (identity_of <$> entries).

Lemma same_identity_spec a b : same_identity a b = true <-> identity_of a = identity_of b.
Proof.
  unfold same_identity, identity_of. rewrite andb_true_iff, !bool_decide_eq_true. split; [by intros [-> ->]|by intros [= -> ->]].
Qed.

Lemma filter_identities p entries : unique_identities entries -> unique_identities (List.filter p entries).
Proof.
  unfold unique_identities. induction entries as [|e entries IH]; [done|]. cbn. rewrite !list.NoDup_cons. intros [Hn Hd].
  destruct (p e); [|by apply IH]. cbn. apply list.NoDup_cons. split; [|by apply IH]. contradict Hn.
  apply list_elem_of_fmap in Hn as (x & Hx & [Hin _]%list_elem_of_In%filter_In). rewrite Hx. by apply list_elem_of_fmap_2, list_elem_of_In.
Qed.

(** [install] replaces the entry of its identity and keeps the others. *)
Lemma record_entry_unique entry entries : unique_identities entries -> unique_identities (record_entry entry entries).
Proof.
  intros Hu. unfold record_entry, unique_identities. rewrite fmap_app. apply list.NoDup_app. split; [by apply filter_identities|].
  split; [|apply NoDup_singleton]. intros x Hx Hs. apply list_elem_of_singleton in Hs as ->.
  apply list_elem_of_fmap in Hx as (e & He & [_ Hn]%list_elem_of_In%filter_In). symmetry in He.
  apply same_identity_spec in He. by rewrite He in Hn.
Qed.

Lemma elem_of_record_entry e entry entries :
  e ∈ record_entry entry entries <-> e = entry \/ (e ∈ entries /\ identity_of e <> identity_of entry).
Proof.
  unfold record_entry. rewrite elem_of_app, list_elem_of_singleton, list_elem_of_In, filter_In, <- list_elem_of_In, negb_true_iff,
    <- not_true_iff_false, same_identity_spec. tauto.
Qed.

Lemma set_enabled_identities i enabled entries : identity_of <$> set_enabled_at i enabled entries = identity_of <$> entries.
Proof. unfold set_enabled_at. revert i. induction entries as [|e entries IH]; intros [|i]; cbn; [done..|]. f_equal. apply IH. Qed.

Lemma delete_identities i entries : unique_identities entries -> unique_identities (delete i entries).
Proof.
  unfold unique_identities. rewrite list_fmap_delete. intros Hd. eapply sublist_NoDup; [exact Hd|apply sublist_delete].
Qed.

(** [find_entry] names the only entry that matches. *)
Lemma matching_from_elem i id_prefix version entries k :
  k ∈ matching_from i id_prefix version entries <->
  exists n e, k = (i + n)%nat /\ entries !! n = Some e /\ matches_entry id_prefix version e = true.
Proof.
  revert i. induction entries as [|e entries IH]; intros i; cbn [matching_from].
  { split; [by intros ?%not_elem_of_nil|]. by intros (n & e & _ & ? & _). }
  assert (Hrest : k ∈ matching_from (S i) id_prefix version entries <->
    exists n x, k = (i + S n)%nat /\ entries !! n = Some x /\ matches_entry id_prefix version x = true).
  { rewrite IH. split; intros (n & x & -> & Hx & Hm); exists n, x; (split; [lia|done]). }
  destruct (matches_entry id_prefix version e) eqn:He; [rewrite elem_of_cons|]; rewrite Hrest; split.
  - intros [->|(n & x & -> & Hx & Hm)]; [exists 0%nat, e|exists (S n), x]; split_and!; try done; lia.
  - intros ([|n] & x & -> & Hx & Hm); [left; lia|right; eauto].
  - intros (n & x & -> & Hx & Hm). by exists (S n), x.
  - intros ([|n] & x & -> & Hx & Hm); [cbn in Hx; congruence|eauto].
Qed.

Lemma matching_from_nodup i id_prefix version entries : NoDup (matching_from i id_prefix version entries).
Proof.
  revert i. induction entries as [|e entries IH]; intros i; cbn [matching_from]; [constructor|].
  destruct (matches_entry _ _ e); [|apply IH]. apply list.NoDup_cons. split; [|apply IH].
  intros (n & x & Hn & _)%matching_from_elem. lia.
Qed.

Lemma find_entry_spec entries id_prefix version i :
  find_entry entries id_prefix version = Ok i <->
  (exists e, entries !! i = Some e /\ matches_entry id_prefix version e = true) /\
  (forall k e, entries !! k = Some e -> matches_entry id_prefix version e = true -> k = i).
Proof.
  unfold find_entry. pose proof (matching_from_elem 0 id_prefix version entries) as Hin.
  pose proof (matching_from_nodup 0 id_prefix version entries) as Hd.
  destruct (matching_from 0 id_prefix version entries) as [|k [|k' l]].
  - split; [done|]. intros [(e & He & Hm) _]. exfalso. apply (not_elem_of_nil i), Hin. eauto.
  - split.
    + intros [= ->]. split.
      * destruct (proj1 (Hin i) (list_elem_of_here _ _)) as (n & e & -> & He & Hm). eauto.
      * intros k e He Hm. apply list_elem_of_singleton, Hin. eauto.
    + intros [(e & He & Hm) _]. f_equal. symmetry. apply list_elem_of_singleton, Hin. eauto.
  - split; [done|]. intros [_ Hu]. exfalso.
    destruct (proj1 (Hin k)) as (n & e & -> & He & Hm); [left|]. destruct (proj1 (Hin k')) as (n' & e' & -> & He' & Hm'); [right; left|].
    cbn in Hd. rewrite (Hu _ _ He Hm), (Hu _ _ He' Hm') in Hd. apply list.NoDup_cons in Hd as [Hd _]. apply Hd. left.
Qed.

(** ** The index on disk *)

(** A file or nothing. *)
Definition filelike (n : option Node) : Prop := n = None \/ exists b, n = Some (File b).

Lemma dirlike_put fs p q x : dirlike fs p -> p <> q -> dirlike (<[q := x]> fs) p.
Proof. intros [->|Hp] Hne; [by left|right]. by rewrite lookup_insert_ne. Qed.

Lemma well_formed_put fs p n x :
  well_formed fs -> dirlike fs p -> ordinary n -> filelike (fs !! (p ++ [n])%list) -> well_formed (<[(p ++ [n])%list := x]> fs).
Proof.
  intros [Ht Hn] Hp Ho Hf. split.
  - intros q Hq. destruct (decide (q = p ++ [n])%list) as [->|Hne].
    { rewrite parent_snoc. apply dirlike_put; [done|]. intros E. apply (f_equal length) in E. rewrite length_app in E. cbn in E. lia. }
    rewrite lookup_insert_ne in Hq by done. destruct (Ht q Hq) as [E|E]; [by left|right].
    rewrite lookup_insert_ne; [done|]. intros E'. rewrite <- E' in E. destruct Hf as [Hf|[b Hf]]; congruence.
  - intros q. rewrite lookup_insert_is_Some'. intros [<-|Hq]; [|by apply Hn]. split; [by destruct p|].
    apply Forall_app. split; [|by constructor]. destruct Hp as [->|Hp]; [constructor|]. apply Hn. eauto.
Qed.

Lemma well_formed_unlink fs p : well_formed fs -> filelike (fs !! p) -> well_formed (delete p fs).
Proof.
  intros [Ht Hn] Hf. split.
  - intros q [x Hq]. apply lookup_delete_Some in Hq as [Hne Hq]. destruct (Ht q (mk_is_Some _ _ Hq)) as [E|E]; [by left|right].
    rewrite lookup_delete_ne; [done|]. intros E'. rewrite <- E' in E. destruct Hf as [Hf|[b Hf]]; congruence.
  - intros q [x Hq]. apply lookup_delete_Some in Hq as [_ Hq]. apply Hn. eauto.
Qed.

Lemma write_over fs p n b :
  well_formed fs -> dirlike fs p -> ordinary n -> filelike (fs !! (p ++ [n])%list) ->
  fs_write fs (p ++ [n])%list b = Some (<[(p ++ [n])%list := File b]> fs).
Proof.
  intros Hwf Hp Ho [Hf|[b' Hf]]; [by apply write_real|]. pose proof Ho as (O1 & O2 & O3). unfold fs_write. rewrite (resolve_dir fs) by done.
  rewrite resolve_cons, !decide_False, Hf, decide_True by tauto. rewrite Hf. by destruct p.
Qed.

Lemma missing_cons links fs cur name rest :
  missing_name links fs cur (name :: rest) =
  if decide (name = "" \/ name = ".") then missing_name links fs cur rest
  else if decide (name = "..") then missing_name links fs (parent_path cur) rest
  else
    match fs !! (cur ++ [name])%list with
    | None => true
    | Some Dir => missing_name links fs (cur ++ [name])%list rest
    | Some (File _) => false
    | Some (Symlink absolute target) =>
        match links with
        | O => false
        | S links => missing_name links fs (if absolute then [] else cur) (target ++ rest)%list
        end
    end.
Proof. by destruct links. Qed.

Lemma missing_dir fs links p rest :
  well_formed fs -> dirlike fs p -> missing_name links fs [] (p ++ rest)%list = missing_name links fs p rest.
Proof.
  intros Hwf. revert rest. induction p as [|n p IH] using rev_ind; intros rest Hp; [done|].
  destruct Hp as [Hp|Hp]; [by destruct p|]. rewrite <- app_assoc. cbn [app].
  rewrite IH by (apply (dirlike_snoc fs Hwf _ n); eauto). rewrite missing_cons.
  destruct (node_ordinary fs Hwf p n) as (O1 & O2 & O3); [eauto|]. rewrite !decide_False by tauto. by rewrite Hp.
Qed.

(** An absent name of a real directory is not found, and not read. *)
Lemma absent_not_found fs p n rest :
  well_formed fs -> dirlike fs p -> ordinary n -> fs !! (p ++ [n])%list = None ->
  not_found fs (p ++ n :: rest)%list = true /\ fs_read fs (p ++ n :: rest)%list = None.
Proof.
  intros Hwf Hp (O1 & O2 & O3) Hn. unfold not_found, fs_read, canonicalize. rewrite (missing_dir fs), (resolve_dir fs) by done.
  rewrite missing_cons, resolve_cons, !decide_False, Hn by tauto. done.
Qed.

Lemma entry_of_real fs p n : well_formed fs -> dirlike fs p -> entry_of fs (p ++ [n])%list = Some (p ++ [n])%list.
Proof. intros Hwf Hp. unfold entry_of. by rewrite last_snoc, parent_snoc, (canonicalize_dir fs). Qed.

Lemma snoc_inj (p : list string) n m : (p ++ [n])%list = (p ++ [m])%list -> n = m.
Proof. intros E. apply app_inj_tail in E. tauto. Qed.

Section Disk.
Context `{!InstallJson}.

(** Serialising and parsing the index are inverse. *)
Class InstallJsonLaws : Prop :=
  index_round_trip l : exists text, from_utf8 (entries_to_json l) = Some text /\ entries_from_json text = Ok l.

Context `{!InstallJsonLaws} (rd : FsPath).

Abbreviation home := (index_dir rd).

(** The runtime directory is a real directory, the installation directory one or
    absent, and the index, its temporary file and its lock are files or absent. *)
Record index_place (fs : Fs) : Prop := {
  ip_wf : well_formed fs;
  ip_runtime : dirlike fs rd;
  ip_home : fs !! home = Some Dir \/ fs !! home = None;
  ip_files : forall n, n ∈ [INDEX_FILE; "index.json.tmp"; "index.lock"] -> filelike (fs !! (home ++ [n])%list) }.

Lemma home_real fs : index_place fs -> fs !! home = Some Dir -> dirlike fs home.
Proof. by right. Qed.

(** [create_dir_all] of the installation directory. *)
Definition with_home (fs : Fs) : Fs := match fs !! home with Some _ => fs | None => <[home := Dir]> fs end.

Lemma make_home fs : index_place fs ->
  create_dir_all (length home) fs home = Some (with_home fs) /\ index_place (with_home fs) /\ with_home fs !! home = Some Dir.
Proof.
  intros [Hwf Hr Hh Hfiles]. unfold with_home. destruct Hh as [Hh|Hh]; rewrite Hh.
  - split; [|split; [by split; auto|done]]. unfold index_dir. rewrite length_app, Nat.add_comm. cbn [Nat.add length create_dir_all].
    unfold mkdir. rewrite last_snoc, parent_snoc, (is_dir_dirlike fs), (canonicalize_dir fs) by done. unfold index_dir in Hh. rewrite Hh.
    rewrite (is_dir_dirlike fs) by (done || by right). done.
  - assert (Hho : ordinary INSTALLED_DIR) by (by repeat split).
    split; [by apply (mkdir_real fs)|]. rewrite lookup_insert_eq. split; [|done]. split.
    + apply well_formed_put; [done..|by left].
    + apply dirlike_put; [done|]. unfold index_dir. intros E. apply (f_equal length) in E. rewrite length_app in E. cbn in E. lia.
    + left. by rewrite lookup_insert_eq.
    + intros n Hn. rewrite lookup_insert_ne; [by apply Hfiles|]. intros E. apply (f_equal length) in E. rewrite length_app in E. cbn in E. lia.
Qed.

Definition index_names : list string := [INDEX_FILE; "index.json.tmp"; "index.lock"].

Lemma index_name_ordinary n : n ∈ index_names -> ordinary n.
Proof. unfold index_names. rewrite !elem_of_cons. intros [->|[->|[->|[]%not_elem_of_nil]]]; by repeat split. Qed.

Lemma home_below n : (home ++ [n])%list <> home /\ (home ++ [n])%list <> rd.
Proof. unfold index_dir. split; intros E; apply (f_equal length) in E; rewrite !length_app in E; cbn in E; lia. Qed.

Lemma put_place fs n b : index_place fs -> fs !! home = Some Dir -> n ∈ index_names -> index_place (<[(home ++ [n])%list := File b]> fs).
Proof.
  intros [Hwf Hr Hh Hfiles] Hdir Hn. destruct (home_below n) as [N1 N2]. split.
  - apply well_formed_put; [done|by right|by apply index_name_ordinary|by apply Hfiles].
  - apply dirlike_put; [done|congruence].
  - by rewrite lookup_insert_ne.
  - intros m Hm. destruct (decide (m = n)) as [->|Hne]; [rewrite lookup_insert_eq; right; eauto|].
    rewrite lookup_insert_ne; [by apply Hfiles|]. intros E%snoc_inj. congruence.
Qed.

Lemma unlink_place fs n : index_place fs -> n ∈ index_names -> index_place (delete (home ++ [n])%list fs).
Proof.
  intros [Hwf Hr Hh Hfiles] Hn. destruct (home_below n) as [N1 N2]. split.
  - apply well_formed_unlink; [done|by apply Hfiles].
  - destruct Hr as [->|Hr]; [by left|right]. by rewrite lookup_delete_ne.
  - by rewrite lookup_delete_ne.
  - intros m Hm. destruct (decide (m = n)) as [->|Hne]; [left; apply lookup_delete_eq|].
    rewrite lookup_delete_ne; [by apply Hfiles|]. intros E%snoc_inj. congruence.
Qed.

(** Everything but the index files is as it was. *)
Definition index_only (fs fs' : Fs) : Prop :=
  forall q, q <> home -> (forall n, n ∈ index_names -> q <> (home ++ [n])%list) -> fs' !! q = fs !! q.

Lemma index_only_home fs : index_only fs (with_home fs).
Proof. intros q Hq _. unfold with_home. destruct (fs !! home); [done|]. by rewrite lookup_insert_ne. Qed.

Lemma make_home_again fs : fs !! home = Some Dir -> with_home fs = fs.
Proof. unfold with_home. by intros ->. Qed.

Lemma save_index_run fs entries : index_place fs ->
  exists fs', save_index rd entries fs = (Ok tt, fs') /\ index_place fs' /\
    fs' !! index_path rd = Some (File (entries_to_json entries)) /\ index_only fs fs'.
Proof.
  intros Hp. destruct (make_home fs Hp) as (E1 & Hp1 & Hh). pose proof (index_only_home fs) as Hout.
  revert E1 Hp1 Hh Hout. generalize (with_home fs). intros fs1 E1 Hp1 Hh Hout.
  assert (Htmp : "index.json.tmp" ∈ index_names) by (unfold index_names; set_solver).
  assert (Hidx : INDEX_FILE ∈ index_names) by (unfold index_names; set_solver).
  unfold save_index, bind, io_call. rewrite E1. unfold index_tmp.
  rewrite write_over; [|apply Hp1|by right|by apply index_name_ordinary|by apply (ip_files _ Hp1)].
  pose proof (put_place fs1 _ (entries_to_json entries) Hp1 Hh Htmp) as Hp2.
  revert Hp2. set (fs2 := <[(home ++ ["index.json.tmp"])%list := _]> fs1). intros Hp2.
  assert (Hh2 : fs2 !! home = Some Dir) by (unfold fs2; rewrite lookup_insert_ne; [done|apply home_below]).
  unfold fs_rename, index_path. rewrite !(entry_of_real fs2) by (apply Hp2 || by right).
  assert (Hne : (home ++ ["index.json.tmp"])%list <> (home ++ [INDEX_FILE])%list) by (by intros E%snoc_inj).
  assert (Ht : fs2 !! (home ++ ["index.json.tmp"])%list = Some (File (entries_to_json entries))) by apply lookup_insert_eq.
  rewrite Ht. pose proof (ip_files _ Hp2 _ Hidx) as Hf.
  assert (Hgo : match fs2 !! (home ++ [INDEX_FILE])%list with
    | Some Dir => None
    | _ => Some (<[(home ++ [INDEX_FILE])%list := File (entries_to_json entries)]> (delete (home ++ ["index.json.tmp"])%list fs2))
    end = Some (<[(home ++ [INDEX_FILE])%list := File (entries_to_json entries)]> (delete (home ++ ["index.json.tmp"])%list fs2)))
    by (destruct Hf as [->|[b ->]]; done).
  rewrite Hgo. eexists. split; [reflexivity|]. split.
  - apply put_place; [by apply unlink_place| |done]. rewrite lookup_delete_ne; [done|]. apply home_below.
  - split; [apply lookup_insert_eq|]. intros q Hq Hn. pose proof (Hn _ Htmp). pose proof (Hn _ Hidx).
    rewrite lookup_insert_ne by congruence. rewrite lookup_delete_ne by congruence. unfold fs2. rewrite lookup_insert_ne by congruence.
    by apply Hout.
Qed.

(** What [load_index] reads there. *)
Lemma load_index_run fs : index_place fs ->
  load_index rd fs =
    (match fs !! index_path rd with
     | Some (File b) => let? body := ok_or (from_utf8 b) (io_err "read install index") in
         match entries_from_json body with
         | Ok entries => Ok entries
         | Err e => Err (cli_err ("installed-adapters index is corrupt: " +:+ e.(err_message)))
         end
     | _ => Ok []
     end, fs).
Proof.
  intros Hp. unfold load_index. assert (Hidx : INDEX_FILE ∈ index_names) by (unfold index_names; set_solver).
  destruct (ip_files _ Hp _ Hidx) as [Hf|[b Hf]]; fold (index_path rd) in Hf; rewrite Hf.
  - assert (Hwalk : not_found fs (index_path rd) = true /\ fs_read fs (index_path rd) = None).
    { unfold index_path, index_dir in *. destruct (ip_home _ Hp) as [Hh|Hh]; unfold index_dir in Hh.
      - apply (absent_not_found fs _ INDEX_FILE []); [apply Hp|by right|by repeat split|done].
      - rewrite <- app_assoc. apply absent_not_found; [apply Hp|apply Hp|by repeat split|done]. }
    destruct Hwalk as [-> ->]. done.
  - unfold index_path in *. by rewrite (read_real fs (ip_wf _ Hp) _ _ _ Hf).
Qed.

Lemma load_saved fs entries : index_place fs -> fs !! index_path rd = Some (File (entries_to_json entries)) -> load_index rd fs = (Ok entries, fs).
Proof.
  intros Hp Hf. rewrite load_index_run, Hf by done. destruct (index_round_trip entries) as (text & -> & Hj). cbn. by rewrite Hj.
Qed.

(** Taking the lock leaves the index as it is. *)
Lemma lock_run {A} (f : Disk A) fs : index_place fs ->
  exists fs1, with_index_lock rd f fs = f fs1 /\ index_place fs1 /\ index_only fs fs1 /\ fst (load_index rd fs1) = fst (load_index rd fs).
Proof.
  intros Hp. destruct (make_home fs Hp) as (E1 & Hp1 & Hh). assert (Hlock : "index.lock" ∈ index_names) by (unfold index_names; set_solver).
  unfold with_index_lock, bind, io_call. rewrite E1.
  rewrite write_over; [|apply Hp1|by right|by apply index_name_ordinary|by apply (ip_files _ Hp1)].
  exists (<[(home ++ ["index.lock"])%list := File []]> (with_home fs)). split; [done|].
  pose proof (put_place _ _ [] Hp1 Hh Hlock) as Hp2. split; [done|]. split.
  - intros q Hq Hn. pose proof (Hn _ Hlock). rewrite lookup_insert_ne by congruence. by apply index_only_home.
  - rewrite !load_index_run by done. cbn [fst].
    assert (Ei : <[(home ++ ["index.lock"])%list := File []]> (with_home fs) !! index_path rd = fs !! index_path rd); [|by rewrite Ei].
    unfold index_path. rewrite lookup_insert_ne by (by intros E%snoc_inj). unfold with_home. destruct (fs !! home) eqn:Eh; [done|].
    rewrite lookup_insert_ne; [done|]. intros E. symmetry in E. by apply home_below in E.
Qed.

Lemma index_only_trans fs1 fs2 fs3 : index_only fs1 fs2 -> index_only fs2 fs3 -> index_only fs1 fs3.
Proof. intros H12 H23 q Hq Hn. rewrite H23, H12; done. Qed.

(** A change of the index under its lock is read back, and changes no other file. *)
Lemma update_index {A} (change : list InstalledAdapter -> Disk A) fs entries entries' (r : Res A) :
  index_place fs -> load_index rd fs = (Ok entries, fs) ->
  (forall fs, change entries fs = bind (save_index rd entries') (fun _ => lift_res r) fs) ->
  exists fs', with_index_lock rd (bind (load_index rd) change) fs = (r, fs') /\ index_place fs' /\
    load_index rd fs' = (Ok entries', fs') /\ index_only fs fs'.
Proof.
  intros Hp Hl Hc. destruct (lock_run (bind (load_index rd) change) fs Hp) as (fs1 & -> & Hp1 & Ho1 & Hl1). rewrite Hl in Hl1. cbn [fst] in Hl1.
  unfold bind at 1. assert (E1 : load_index rd fs1 = (Ok entries, fs1)) by (rewrite load_index_run in * by done; cbn in Hl1; by rewrite Hl1).
  rewrite E1, Hc. destruct (save_index_run fs1 entries' Hp1) as (fs2 & E2 & Hp2 & Hf2 & Ho2). unfold bind. rewrite E2. unfold lift_res.
  exists fs2. split; [done|]. split; [done|]. split; [by apply load_saved|]. by eapply index_only_trans.
Qed.

(** *** The three changes *)

Lemma record_run fs entries entry : index_place fs -> load_index rd fs = (Ok entries, fs) ->
  exists fs', with_index_lock rd (let! es := load_index rd in save_index rd (record_entry entry es)) fs = (Ok tt, fs') /\
    index_place fs' /\ load_index rd fs' = (Ok (record_entry entry entries), fs') /\ index_only fs fs'.
Proof.
  intros Hp Hl. apply (update_index (fun es => save_index rd (record_entry entry es)) _ entries); [done..|].
  intros fs0. unfold bind, lift_res. by destruct (save_index rd (record_entry entry entries) fs0) as [[[]|e] fs1].
Qed.

Lemma set_enabled_run fs entries id_prefix version enabled : index_place fs -> load_index rd fs = (Ok entries, fs) ->
  exists fs', index_place fs' /\ index_only fs fs' /\
    match find_entry entries id_prefix version with
    | Ok i => exists e, set_enabled rd id_prefix version enabled fs = (Ok e, fs') /\ set_enabled_at i enabled entries !! i = Some e /\
        load_index rd fs' = (Ok (set_enabled_at i enabled entries), fs')
    | Err err => set_enabled rd id_prefix version enabled fs = (Err err, fs') /\ load_index rd fs' = (Ok entries, fs')
    end.
Proof.
  intros Hp Hl. destruct (find_entry entries id_prefix version) as [i|err] eqn:Hf.
  - destruct (proj1 (find_entry_spec _ _ _ _) Hf) as [(e & He & _) _].
    assert (Hi : is_Some (set_enabled_at i enabled entries !! i)).
    { unfold set_enabled_at. rewrite list_lookup_alter_eq, He. by eexists. }
    destruct Hi as [e' He'].
    destruct (update_index (fun es => let! i := lift_res (find_entry es id_prefix version) in
      do! save_index rd (set_enabled_at i enabled es) in
      lift_res (ok_or (set_enabled_at i enabled es !! i) (cli_err "index out of range"))) fs entries
      (set_enabled_at i enabled entries) (Ok e') Hp Hl) as (fs' & E & Hp' & Hl' & Ho).
    { intros fs0. unfold bind at 1, lift_res. rewrite Hf. unfold bind. destruct (save_index _ _ _) as [[]]; [|done]. by rewrite He'. }
    exists fs'. split; [done|]. split; [done|]. by exists e'.
  - destruct (lock_run (let! es := load_index rd in let! i := lift_res (find_entry es id_prefix version) in
      do! save_index rd (set_enabled_at i enabled es) in
      lift_res (ok_or (set_enabled_at i enabled es !! i) (cli_err "index out of range"))) fs Hp) as (fs1 & E & Hp1 & Ho1 & Hl1).
    rewrite Hl in Hl1. cbn [fst] in Hl1.
    assert (E1 : load_index rd fs1 = (Ok entries, fs1)) by (rewrite load_index_run in * by done; cbn in Hl1; by rewrite Hl1).
    exists fs1. split; [done|]. split; [done|]. split; [|done]. unfold set_enabled. rewrite E. unfold bind at 1. rewrite E1.
    unfold bind, lift_res. by rewrite Hf.
Qed.

Lemma alter_at {A} (f : A -> A) (l : list A) i x : l !! i = Some x -> alter f i l = <[i := f x]> l.
Proof.
  intros Hx. apply list_eq. intros j. destruct (decide (j = i)) as [->|Hne].
  - rewrite list_lookup_alter_eq, Hx, list_lookup_insert_eq; [done|]. by eapply lookup_lt_Some.
  - by rewrite list_lookup_alter_ne, list_lookup_insert_ne.
Qed.

(** *** What a start registers *)

Lemma enabled_dirs_spec fs entries : load_index rd fs = (Ok entries, fs) ->
  exists dirs, enabled_bundle_dirs rd fs = (Ok dirs, fs) /\
    forall dir, dir ∈ dirs <-> exists e, e ∈ entries /\ e.(ia_enabled) = true /\ dir = join_path home e.(ia_dir_name) /\
      is_file fs (dir ++ [MANIFEST_FILE])%list = true.
Proof.
  intros Hl. unfold enabled_bundle_dirs, bind. rewrite Hl. unfold gets, ret. eexists. split; [reflexivity|]. intros dir.
  rewrite list_elem_of_In, filter_In, <- list_elem_of_In, list_elem_of_fmap. split.
  - intros [(e & -> & [Hin He]%list_elem_of_In%filter_In) Hf]. exists e. by rewrite list_elem_of_In.
  - intros (e & Hin & He & -> & Hf). split; [|done]. exists e. split; [done|]. apply list_elem_of_In, filter_In. by rewrite <- list_elem_of_In.
Qed.

(** C35: Enabling or disabling one installed adapter decides whether the next start
    registers its bundle, and decides nothing else: when the prefix names exactly
    one entry, the command succeeds, the index read back differs from the one
    before in that entry's mark alone, no other file changes, and the bundle
    directories a start registers are those of the marked entries whose manifest
    is on disk; when it names none or several, the command fails and the index
    stays as it was. *)
Theorem enabling_decides_next_start fs entries id_prefix version enabled :
  index_place fs -> load_index rd fs = (Ok entries, fs) -> unique_identities entries ->
  let '(r, fs') := set_enabled rd id_prefix version enabled fs in
  index_only fs fs' /\
  exists entries', load_index rd fs' = (Ok entries', fs') /\ unique_identities entries' /\
    (is_ok r = true <-> exists i, find_entry entries id_prefix version = Ok i) /\
    (is_ok r = false -> entries' = entries) /\
    (forall e, r = Ok e -> exists i e0, find_entry entries id_prefix version = Ok i /\ entries !! i = Some e0 /\
       matches_entry id_prefix version e0 = true /\
       e = mkInstalledAdapter e0.(ia_adapter_id) e0.(ia_version) e0.(ia_bundle_digest) e0.(ia_dir_name) enabled e0.(ia_check)
             e0.(ia_installed_at_ms) /\
       entries' = <[i := e]> entries) /\
    (forall k, (forall e, entries !! k = Some e -> matches_entry id_prefix version e = false) -> entries' !! k = entries !! k) /\
    exists dirs, enabled_bundle_dirs rd fs' = (Ok dirs, fs') /\
      forall dir, dir ∈ dirs <-> exists e, e ∈ entries' /\ e.(ia_enabled) = true /\ dir = join_path home e.(ia_dir_name) /\
        is_file fs' (dir ++ [MANIFEST_FILE])%list = true.
Proof.
  intros Hp Hl Hu. destruct (set_enabled_run fs entries id_prefix version enabled Hp Hl) as (fs' & Hp' & Ho & Hrun).
  destruct (find_entry entries id_prefix version) as [i|err] eqn:Hf.
  - destruct Hrun as (e & -> & He & Hl'). split; [done|]. exists (set_enabled_at i enabled entries). split; [done|].
    split; [unfold unique_identities; by rewrite set_enabled_identities|]. split; [split; [eauto|done]|]. split; [done|].
    destruct (proj1 (find_entry_spec _ _ _ _) Hf) as [(e0 & He0 & Hm) _].
    pose proof He as He'. unfold set_enabled_at in He'. rewrite list_lookup_alter_eq, He0 in He'. injection He' as <-.
    split.
    { intros e [= <-]. exists i, e0. split_and!; try done. exact (alter_at _ _ _ _ He0). }
    split; [|by apply enabled_dirs_spec].
    intros k Hk. unfold set_enabled_at. rewrite list_lookup_alter_ne; [done|]. intros ->. specialize (Hk _ He0). congruence.
  - destruct Hrun as [-> Hl']. split; [done|]. exists entries. split; [done|]. split; [done|]. split; [split; [done|by intros [? ?]]|].
    split; [done|]. split; [done|]. split; [done|by apply enabled_dirs_spec].
Qed.
End Disk.
