(* ===== verification/Boot.v ===== *)
(** * [boot] ([agentd/src/bootstrap.rs], [lock.rs], [recovery.rs])

    The start of the daemon as one program: the lock, the fence, recovery, the
    command registry, the operator's chain, the adapter bundles, and the
    configuration.  What runs after it (the workers, the control and event
    services) is modelled by their own components, which take what [boot]
    returns. *)

From S2P Require Import Prelude Domain Ids Text Models StoreBase Store SecurityStore ExtensionStore Ledger Identity.
From S2P Require Import Events Envelope Journal Runs RunGraph EffectPolicy Effects Scheduler Resources Kernel RunServices Bind.
From S2P Require Import Coordinator Approvals Recovery LocalFiles Forks Profiles Config Resolver Bundles Protocol Supervisor.
From S2P Require Import Planning WorkerBase Worker WorkerSafety SchedulerWorker LiveBus ApiAuth EventApi Views ControlApi.
From S2P Require Import Bootstrap OperatorChain BootConfig InstalledAdapters.

Open Scope string_scope.
Open Scope Z_scope.

(** ** The lock of the runtime directory *)

Definition LOCK_FILE_NAME : string := "agentd.lock".

Inductive LockError := LockHeld (path : FsPath) | LockIo.

Definition lock_error_text (e : LockError) : string :=
  match e with
  | LockHeld path => "daemon lock is held: " +:+ path_text path
  | LockIo => "daemon lock io error"
  end.

(** The advisory locks of the machine: which process holds which file.  The
    operating system drops those of a process that ends. *)
Abbreviation Locks := (gmap (list string) N).

(** Opening creates the file if need be, and does not truncate it. *)
Definition open_lock_file (fs : Fs) (path : FsPath) : option (FsPath * Fs) :=
  match resolve_path true MAX_LINKS fs [] path with
  | None | Some [] => None
  | Some file =>
      match fs !! file with
      | Some Dir => None
      | Some _ => Some (file, fs)
      | None => Some (file, <[file := File []]> fs)
      end
  end.

Definition lock_acquire (fs : Fs) (locks : Locks) (pid : N) (runtime_dir : FsPath) : (FsPath + LockError) * (Fs * Locks) :=
  let path := (runtime_dir ++ [LOCK_FILE_NAME])%list in
  match open_lock_file fs path with
  | None => (inr LockIo, (fs, locks))
  | Some (file, fs') =>
      match locks !! file with
      | Some _ => (inr (LockHeld path), (fs', locks))
      | None => (inl file, (fs', <[file := pid]> locks))
      end
  end.

Definition lock_release (file : FsPath) (locks : Locks) : Locks := delete file locks.
Definition process_exit (pid : N) (locks : Locks) : Locks := filter (fun kv => kv.2 <> pid) locks.

(** ** Configuration of a start *)

(** Less the poll interval and the log format. *)
Record DaemonConfig := mkDaemonConfig {
  dc_runtime_dir : FsPath;
  dc_config_doc : option FsPath;
  dc_adapter_bundles : list FsPath;
  dc_loop_scripts : gmap N string;
  dc_loop_env : list (string * string);
  dc_effect_env : list (string * string) }.

(** What the rest of the daemon is made from. *)
Record Booted := mkBooted {
  dm_instance : DaemonInstanceId;
  dm_epoch : Z;
  dm_coordinator : CommandCoordinator;
  dm_operator_chain : DelegationChainId;
  dm_bundles : list AdapterBundle;
  dm_active_generation : option string }.

Section Boot.
Context `{!Ext} `{!Contracts} `{!BindContracts} `{!ApprovalContracts} `{!RecoveryContracts} `{!ConfigYaml} `{!ConfigContracts}.
Context `{!EnvelopeCodec} `{!BootCodec} `{!BundleJson} `{!RegistryJson} `{!InstallJson}.

Definition draw_world : ST World Uuid := fun w =>
  (Ok (new_uuid_v7 w.(w_ids)), mkWorld w.(w_db) (S w.(w_ids)) w.(w_clock)).
Definition read_clock : ST World Z := fun w =>
  (Ok (clock_ms w.(w_clock)), mkWorld w.(w_db) w.(w_ids) (S w.(w_clock))).

(** [acquire_daemon_fence]. *)
Definition acquire_daemon_fence (instance : DaemonInstanceId) : ST World DaemonFence := fun w =>
  let '(r, d) := fence_claim instance FENCE_LEASE_MS (clock_ms w.(w_clock)) w.(w_db) in
  (r, mkWorld d w.(w_ids) (S w.(w_clock))).

(** ** Bundles *)

Definition compute_digest (fs : Fs) (dir : FsPath) : Res string :=
  let? manifest_bytes := ok_or (fs_read fs (dir ++ [MANIFEST_FILE])%list) (boot_io "read adapter manifest") in
  compute_bundle_digest fs dir (manifest_digest manifest_bytes).

(** The row of a bundle that is already registered. *)
Definition reload_registration (fs : Fs) (dir : FsPath) (manifest : ExtensionManifest) (epoch : Z) : ST World AdapterRegistrationRow :=
  boot_read DAEMON_PRINCIPAL epoch (
    let! id := lift_res (ok_or (uuid_v7_from_str manifest.(mf_id)) (boot_error "manifest id is not an adapter id")) in
    let! digest := lift_res (compute_digest fs dir) in
    let! found := adapters_get_registration id manifest.(mf_version) digest in
    lift_res (ok_or found (boot_error "registered adapter identity could not be reloaded"))).

Definition register_bundle (fs : Fs) (dir : FsPath) (epoch now_ms : Z) : ST World AdapterBundle :=
  let! manifest_bytes := lift_res (ok_or (fs_read fs (dir ++ [MANIFEST_FILE])%list) (boot_io "read adapter manifest")) in
  let! manifest := lift_res (parse_manifest manifest_bytes) in
  let! command_id := draw_world in
  let! outcome := attempt (with_write_txn (mkTxContext epoch DAEMON_PRINCIPAL command_id None)
                             (Bundles.register fs dir TrustState.Trusted now_ms)) in
  let! registration := match outcome with
    | Ok row => ret row
    | Err error => if bool_decide (error.(err_code) = Conflict) then reload_registration fs dir manifest epoch else raise error
    end in
  ret (mkAdapterBundle (uuid_hyphenated registration.(AdapterRegistrationRow.adapter_id)) registration.(AdapterRegistrationRow.version)
         dir registration.(AdapterRegistrationRow.bundle_digest) (manifest_isolation manifest) manifest.(mf_runtime).(rt_type)).

(** The bundles of the command line: the first failure ends the start. *)
Fixpoint register_configured (fs : Fs) (epoch : Z) (dirs : list FsPath) : ST World (list AdapterBundle) :=
  match dirs with
  | [] => ret []
  | dir :: dirs =>
      let! now_ms := read_clock in
      let! bundle := register_bundle fs dir epoch now_ms in
      let! bundles := register_configured fs epoch dirs in
      ret (bundle :: bundles)
  end.

(** The installed ones: a bundle that fails is skipped. *)
Fixpoint register_installed (fs : Fs) (epoch : Z) (configured dirs : list FsPath) : ST World (list AdapterBundle) :=
  match dirs with
  | [] => ret []
  | dir :: dirs =>
      if bool_decide (dir ∈ configured) then register_installed fs epoch configured dirs
      else
        let! now_ms := read_clock in
        let! outcome := attempt (register_bundle fs dir epoch now_ms) in
        let! bundles := register_installed fs epoch configured dirs in
        ret (match outcome with Ok bundle => bundle :: bundles | Err _ => bundles end)
  end.

Definition register_bundles (fs : Fs) (config : DaemonConfig) (epoch : Z) : ST World (list AdapterBundle) :=
  let! configured := register_configured fs epoch config.(dc_adapter_bundles) in
  match fst (enabled_bundle_dirs config.(dc_runtime_dir) fs) with
  | Ok dirs =>
      let! installed := register_installed fs epoch config.(dc_adapter_bundles) dirs in
      ret (configured ++ installed)%list
  | Err _ => ret configured
  end.

(** ** The whole start *)

(** The service bindings of the document, which the configuration commands hold
    generations against. *)
Definition running_services (fs : Fs) (config_doc : option FsPath) : Res (option (FsPath * ServicesSection)) :=
  match config_doc with
  | None => Ok None
  | Some path =>
      let? document := ok_or (fs_read fs path) (boot_io "read config doc") in
      let? text := ok_or (from_utf8 document) (boot_error "config document is not utf-8") in
      let? doc := parse_document text in
      Ok (Some (path, generation_services doc))
  end.

Definition default_services : ServicesSection := mkServicesSection None None None None.

(** [run_startup_recovery] ([recovery.rs]). *)
Definition run_startup_recovery : ST World RecoveryReport := reconstruct.

(** From the store on: the lock is held. *)
Definition boot_store (fs : Fs) (config : DaemonConfig) (journal : Journal) : ST World Booted :=
  let! instance := draw_world in
  let! fence := acquire_daemon_fence instance in
  let epoch := fence.(fence_epoch) in
  let! _ := run_startup_recovery in
  let! services := lift_res (running_services fs config.(dc_config_doc)) in
  let! coordinator := lift_res (boot_coordinator (from_option snd default_services services) epoch) in
  let! now_ms := read_clock in
  let! operator_chain := seed_operator_chain epoch now_ms DAEMON_PRINCIPAL DAEMON_ACTOR in
  let! bundles := register_bundles fs config epoch in
  let! active := match services with
    | Some (path, _) => bootstrap_config coordinator DAEMON_PRINCIPAL DAEMON_ACTOR epoch fs path journal
    | None => read_active_generation DAEMON_PRINCIPAL epoch
    end in
  ret (mkBooted instance epoch coordinator operator_chain bundles active).

Definition lock_refused (e : LockError) : KernelError := kerr FailedPrecondition (lock_error_text e).

(** The machine: its disk, its locks, and the store in the runtime directory. *)
Record Host := mkHost { ho_fs : Fs; ho_locks : Locks; ho_world : World; ho_journal : Journal }.

Definition boot (pid : N) (config : DaemonConfig) : ST Host Booted := fun h =>
  match create_dir_all (length config.(dc_runtime_dir)) h.(ho_fs) config.(dc_runtime_dir) with
  | None => (Err (boot_io "create runtime dir"), h)
  | Some fs =>
      match lock_acquire fs h.(ho_locks) pid config.(dc_runtime_dir) with
      | (inr e, (fs, locks)) => (Err (lock_refused e), mkHost fs locks h.(ho_world) h.(ho_journal))
      | (inl file, (fs, locks)) =>
          match boot_store fs config h.(ho_journal) h.(ho_world) with
          | (Ok daemon, w) => (Ok daemon, mkHost fs locks w h.(ho_journal))
          | (Err e, w) => (Err e, mkHost fs (lock_release file locks) w h.(ho_journal))
          end
      end
  end.

(** ** What the start hands on *)

Definition scheduler_worker_deps (d : Booted) : SchedulerDeps :=
  mkSchedulerDeps d.(dm_coordinator) d.(dm_epoch) DAEMON_PRINCIPAL DAEMON_ACTOR.

(** [host_env] and [wasm_host] are what the worker finds in the environment of
    the process. *)
Definition run_worker_deps (config : DaemonConfig) (host_env : list (string * string)) (wasm_host : option FsPath) (d : Booted) : RunWorkerDeps :=
  mkRunWorkerDeps d.(dm_coordinator) d.(dm_epoch) d.(dm_instance) DAEMON_PRINCIPAL DAEMON_ACTOR d.(dm_bundles)
    config.(dc_loop_scripts) config.(dc_loop_env) (path_text config.(dc_runtime_dir)) config.(dc_effect_env) host_env wasm_host.

Definition control_service (uid : Z) (d : Booted) : Res ControlApiService :=
  match uid_map_new [(uid, DAEMON_PRINCIPAL)] with
  | Err error => Err (kerr InvalidArgument (kernel_error_to_string error))
  | Ok principals =>
      Ok (mkControlApiService d.(dm_coordinator) principals (Some d.(dm_operator_chain))
            (mkHealthInfo "running" (uuid_hyphenated d.(dm_instance)) d.(dm_epoch) (default "" d.(dm_active_generation))))
  end.
End Boot.

(** ** Exclusion *)

(** A created file is found where it was created. *)
Lemma resolve_created links fs b : forall cur p c,
  resolve_path true links fs cur p = Some c -> fs !! c = None -> resolve_path true links (<[c := File b]> fs) cur p = Some c.
Proof.
  assert (Hkeep : forall q c n, fs !! c = None -> fs !! q = Some n -> <[c := File b]> fs !! q = Some n).
  { intros q c n Hc Hq. rewrite lookup_insert_ne; congruence. }
  induction links as [|links IHl]; intros cur p; revert cur; induction p as [|name rest IHp]; intros cur c;
    rewrite ?resolve_nil, ?resolve_cons; try done; (case_decide; [apply IHp|]); (case_decide; [apply IHp|]); intros E Hc;
    destruct (fs !! (cur ++ [name])%list) as [[|b'|absolute target]|] eqn:Hn;
    try (rewrite (Hkeep _ _ _ Hc Hn)); try (by apply IHp); try (by apply IHl); try done;
    try (case_decide; [|done]; injection E as <-; congruence);
    (case_bool_decide as Hr; cbn [andb] in E; [|done]); injection E as <-; by rewrite lookup_insert_eq, decide_True.
Qed.

Lemma open_lock_again fs path file fs' :
  open_lock_file fs path = Some (file, fs') -> open_lock_file fs' path = Some (file, fs').
Proof.
  unfold open_lock_file. destruct (resolve_path true MAX_LINKS fs [] path) as [[|x c]|] eqn:Hr; [done| |done].
  destruct (fs !! (x :: c)) as [[|b|]|] eqn:Hf; intros [= <- <-]; rewrite ?Hr, ?Hf; try done.
  rewrite (resolve_created _ _ [] _ _ _ Hr Hf). by rewrite lookup_insert_eq.
Qed.

(** While a process holds the lock no other gets it. *)
Lemma lock_acquired_excludes fs locks pid runtime_dir file fs' locks' :
  lock_acquire fs locks pid runtime_dir = (inl file, (fs', locks')) ->
  locks' !! file = Some pid /\
  forall pid2, lock_acquire fs' locks' pid2 runtime_dir = (inr (LockHeld (runtime_dir ++ [LOCK_FILE_NAME])%list), (fs', locks')).
Proof.
  unfold lock_acquire. destruct (open_lock_file fs _) as [[f fs1]|] eqn:Ho; [|done]. destruct (locks !! f) eqn:Hl; [done|].
  intros [= <- <- <-]. split; [apply lookup_insert_eq|]. intros pid2. rewrite (open_lock_again _ _ _ _ Ho). by rewrite lookup_insert_eq.
Qed.

(** ** What a start keeps *)

(** Whatever [m] returns, the store before and after are related. *)
Definition moves {A} (R : Db -> Db -> Prop) (m : ST World A) : Prop := forall w, R w.(w_db) (w_db (snd (m w))).

Lemma moves_bind {A B} R `{!PreOrder R} (m : ST World A) (f : A -> ST World B) :
  moves R m -> (forall a, moves R (f a)) -> moves R (Prelude.bind m f).
Proof.
  intros Hm Hf w. specialize (Hm w). unfold Prelude.bind. destruct (m w) as [[a|e] w1]; [|done].
  cbn in Hm. etransitivity; [exact Hm|]. apply Hf.
Qed.
Lemma moves_ret {A} R `{!Reflexive R} (a : A) : moves R (ret a).
Proof. intros w. cbn. reflexivity. Qed.
Lemma moves_raise {A} R `{!Reflexive R} (e : KernelError) : moves R (raise (A := A) e).
Proof. intros w. cbn. reflexivity. Qed.
Lemma moves_lift {A} R `{!Reflexive R} (r : Res A) : moves R (lift_res r).
Proof. intros w. cbn. reflexivity. Qed.
Lemma moves_attempt {A} R (m : ST World A) : moves R m -> moves R (attempt m).
Proof. intros Hm w. specialize (Hm w). unfold attempt. by destruct (m w). Qed.
Lemma moves_write {A} R `{!Reflexive R} ctx (body : M A) : ensures (on_db R) body -> moves R (with_write_txn ctx body).
Proof.
  intros Hb w. unfold with_write_txn. destruct (begin_write ctx w) as [t|e] eqn:Ht; [|done]. apply begin_write_db in Ht.
  destruct (body t) as [[a|e] t'] eqn:E; [|done]. cbn. rewrite <- Ht. by apply Hb in E as [? _].
Qed.
Lemma moves_read {A} R `{!Reflexive R} principal epoch `{!Ext} (body : M A) : moves R (boot_read principal epoch body).
Proof. intros w. unfold boot_read. destruct (body _) as [r t]. cbn. reflexivity. Qed.

Create HintDb moves.
#[export] Hint Resolve moves_ret moves_raise moves_lift moves_attempt moves_write moves_read : moves.

Ltac solve_moves :=
  repeat first
    [ solve [eauto 6 with moves typeclass_instances]
    | match goal with
      | |- moves _ (Prelude.bind _ _) => apply moves_bind; [apply _ | | intros ?]
      | |- moves _ (if ?b then _ else _) => destruct b
      | |- moves _ (match ?x with _ => _ end) => destruct x
      end ].

(** The store stays consistent and the fence stays. *)
Record boot_rel (d d' : Db) : Prop := {
  bl_kernel : kernel_rel d d';
  bl_fence : d'.(daemon_fence) = d.(daemon_fence) }.

#[export] Instance boot_rel_preorder : PreOrder boot_rel.
Proof. split; [done|]. intros d1 d2 d3 [] []. split; [by etransitivity|congruence]. Qed.

Definition fence_same (d d' : Db) : Prop := d'.(daemon_fence) = d.(daemon_fence).
#[export] Instance fence_same_preorder : PreOrder fence_same.
Proof. unfold fence_same. split; [done|]. intros d1 d2 d3 E1 E2. congruence. Qed.
#[export] Hint Extern 1 (fence_same _ _) => reflexivity : frame.

Lemma ensures_boot {A} (m : M A) : ensures (on_db kernel_rel) m -> ensures (on_db fence_same) m -> ensures (on_db boot_rel) m.
Proof. intros Hk Hf t a t' E. destruct (Hk _ _ _ E) as [K1 C], (Hf _ _ _ E) as [F1 _]. by split. Qed.

Section Keeps.
Context `{!Ext} `{!Contracts} `{!BindContracts} `{!ApprovalContracts} `{!RecoveryContracts} `{!ConfigYaml} `{!ConfigContracts}.
Context `{!EnvelopeCodec} `{!BootCodec} `{!BundleJson} `{!RegistryJson} `{!InstallJson}.

Lemma cancel_each_fence reason l : ensures (on_db fence_same) (cancel_each reason l).
Proof. induction l as [|c l IH]; cbn [cancel_each]; solve_ensures_deep. Qed.
#[local] Hint Resolve cancel_each_fence : ensures.

Lemma catalog_fence services :
  Forall (fun e : string * CommandHandler => forall ctx payload, ensures (on_db fence_same) (e.2 ctx payload)) (command_catalog services).
Proof.
  unfold command_catalog. repeat apply list.Forall_cons_2; cbn [snd]; try apply list.Forall_nil_2; intros ctx payload;
    solve_ensures_deep.
Qed.

Lemma execute_boot services epoch c env : boot_coordinator services epoch = Ok c -> moves boot_rel (execute c env).
Proof.
  intros Hc w. destruct (execute c env w) as [r w'] eqn:E. cbn [snd]. split.
  - eapply execute_kernel; [|exact E]. apply boot_coordinator_inv in Hc as ->. by eapply boot_registry_sound, boot_registry_ok.
  - revert Hc E. apply (booted_execute_frame fence_same); [apply catalog_fence|done].
Qed.

Lemma submit_moves services epoch c principal actor ty payload key :
  boot_coordinator services epoch = Ok c -> moves boot_rel (boot_submit c principal actor ty payload key).
Proof.
  intros Hc w. unfold boot_submit. destruct (idempotency_key_new key); [|done].
  exact (execute_boot services epoch c _ Hc (mkWorld w.(w_db) (S w.(w_ids)) w.(w_clock))).
Qed.

Lemma draw_world_moves R `{!Reflexive R} : moves R draw_world.
Proof. intros w. cbn. reflexivity. Qed.
Lemma read_clock_moves R `{!Reflexive R} : moves R read_clock.
Proof. intros w. cbn. reflexivity. Qed.
#[local] Hint Resolve draw_world_moves read_clock_moves : moves.

Lemma seed_moves epoch now_ms principal actor : moves boot_rel (seed_operator_chain epoch now_ms principal actor).
Proof.
  intros w. unfold seed_operator_chain. destruct (uuid_v7_from_str _) as [chain|]; [|done]. destruct (uuid_v7_from_str _) as [grant|]; [|done].
  match goal with |- context [with_write_txn ?ctx ?body ?w0] =>
    assert (Hw : moves boot_rel (with_write_txn ctx body)); [|exact (Hw w0)] end.
  apply moves_write; [apply _|]. apply ensures_boot; [|solve_ensures_deep].
  apply ensures_kernel; solve_ensures_deep.
Qed.

Lemma register_boot fs dir trust now_ms : ensures (on_db boot_rel) (Bundles.register fs dir trust now_ms).
Proof. apply ensures_boot; [apply ensures_kernel; solve_ensures_deep|solve_ensures_deep]. Qed.
#[local] Hint Resolve register_boot : moves.

Lemma register_bundle_moves fs dir epoch now_ms : moves boot_rel (register_bundle fs dir epoch now_ms).
Proof. unfold register_bundle, reload_registration. solve_moves. Qed.
#[local] Hint Resolve register_bundle_moves : moves.

Lemma register_bundles_moves fs config epoch : moves boot_rel (register_bundles fs config epoch).
Proof.
  assert (Hc : forall dirs, moves boot_rel (register_configured fs epoch dirs)).
  { induction dirs as [|dir dirs IH]; cbn [register_configured]; solve_moves. }
  assert (Hi : forall configured dirs, moves boot_rel (register_installed fs epoch configured dirs)).
  { intros configured. induction dirs as [|dir dirs IH]; cbn [register_installed]; solve_moves. }
  unfold register_bundles. solve_moves.
Qed.

Lemma bootstrap_config_moves services epoch c principal actor fs path journal :
  boot_coordinator services epoch = Ok c -> moves boot_rel (bootstrap_config c principal actor epoch fs path journal).
Proof.
  intros Hc. assert (Hs : forall ty payload key, moves boot_rel (boot_submit c principal actor ty payload key)) by (intros; by eapply submit_moves).
  assert (Hp : moves boot_rel (pending_events principal epoch)).
  { intros w. unfold pending_events. destruct (begin_write _ _) as [t|]; [|done]. by destruct (streams_scan_unpublished _ t). }
  clear Hc. unfold bootstrap_config, plan_config, read_active_generation, generation_previously_active, propose_document,
    test_generation, move_pointer. solve_moves.
Qed.

Lemma reconstruct_moves : moves boot_rel reconstruct.
Proof.
  intros w. unfold reconstruct. destruct (daemon_fence (w_db w)) as [fence|]; [|done].
  destruct (plan_recovery _ _ _) as [[planned|e] t]; [|done]. destruct (changed_only planned) as [|p l]; [done|].
  match goal with |- context [with_write_txn ?ctx ?body ?w0] =>
    assert (Hw : moves boot_rel (with_write_txn ctx body)); [|specialize (Hw w0); destruct (with_write_txn ctx body w0) as [[u|e] w1]; exact Hw] end.
  apply moves_write; [apply _|]. apply ensures_boot; [intros ? ? ? E; by eapply apply_recovery_kernel|solve_ensures_deep].
Qed.

Lemma fence_kernel fence d :
  (forall old, d.(daemon_fence) = Some old -> old.(fence_epoch) <= fence.(fence_epoch)) ->
  kernel_rel d (set_daemon_fence (Some fence) d).
Proof.
  intros Hf. split; try solve [eauto 3 with frame].
  split; [split; try done|by intros []].
  intros old Ho. eexists. split; [reflexivity|]. by apply Hf.
Qed.

(** No command fires a timer: only the scheduler worker does. *)
Lemma timers_insert_quiet n : n.(NewTimer.state) <> TimerState.Fired -> ensures (on_db no_new_fired) (timers_insert n).
Proof.
  intros Hs t u t' E. unfold timers_insert in E. inv_store. split; [|done]. intros id (r & Hr & Hf). cbn in Hr.
  apply lookup_insert_Some in Hr as [[<- <-]|[_ Hr]]; [done|]. by exists r.
Qed.
#[local] Hint Extern 1 (ensures _ (timers_insert _)) => apply timers_insert_quiet; discriminate : ensures.
#[local] Hint Extern 1 (ensures _ (timers_cas_transition _ _ _ _)) => apply cas_fires_nothing; discriminate : ensures.

Lemma cancel_each_quiet reason l : ensures (on_db no_new_fired) (cancel_each reason l).
Proof. induction l as [|c l IH]; cbn [cancel_each]; solve_ensures_deep. Qed.
#[local] Hint Resolve cancel_each_quiet : ensures.

Lemma catalog_quiet services :
  Forall (fun e : string * CommandHandler => fires_nothing e.2) (command_catalog services).
Proof.
  unfold command_catalog. repeat apply list.Forall_cons_2; cbn [snd]; try apply list.Forall_nil_2; intros ctx payload;
    solve_ensures_deep.
Qed.

Lemma booted_quiet services epoch c : boot_coordinator services epoch = Ok c -> map_Forall (fun _ h => fires_nothing h) c.(coord_registry).
Proof.
  intros Hc ty h Hh. apply boot_coordinator_inv in Hc as ->. cbn [coord_registry] in Hh. apply elem_of_list_to_map_2 in Hh.
  apply (proj1 (list.Forall_forall _ _) (catalog_quiet services) (ty, h)). by apply elem_of_reverse.
Qed.

(** The fence a start takes: the daemon's, one epoch on. *)
Definition fence_taken (d d' : Db) (instance : DaemonInstanceId) (epoch : Z) : Prop :=
  kernel_rel d d' /\ (exists fence, d'.(daemon_fence) = Some fence /\ fence.(fence_instance_id) = instance /\ fence.(fence_epoch) = epoch) /\
  (forall old, d.(daemon_fence) = Some old -> epoch = old.(fence_epoch) + 1) /\ 0 <= epoch <= i64_max.

Lemma acquire_fence_ok instance w fence w' :
  acquire_daemon_fence instance w = (Ok fence, w') -> fence_taken w.(w_db) w'.(w_db) instance fence.(fence_epoch).
Proof.
  unfold acquire_daemon_fence, fence_claim. destruct (FENCE_LEASE_MS <=? 0); [done|]. destruct (i64_checked_add _ _) as [expires|]; [|done].
  set (epoch := match daemon_fence (w_db w) with Some f => fence_epoch f + 1 | None => 1 end).
  destruct (in_i64 epoch) eqn:Hi; [|done]. unfold decode_u64. destruct (Z.leb_spec 0 epoch) as [Hnn|]; cbn; [|done]. intros [= <- <-].
  unfold in_i64 in Hi. apply andb_prop in Hi as [_ Hi%Z.leb_le]. cbn. split.
  { apply fence_kernel. intros old Ho. subst epoch. rewrite Ho. cbn. lia. }
  split; [by eexists|]. split; [|done]. intros old Ho. subst epoch. by rewrite Ho.
Qed.

Lemma fence_taken_moves d d1 d2 instance epoch : fence_taken d d1 instance epoch -> boot_rel d1 d2 -> fence_taken d d2 instance epoch.
Proof. intros (K1 & F & O & B) [K2 E]. split; [by etransitivity|]. rewrite E. done. Qed.

(** A coordinator whose epoch is not the fence's writes nothing. *)
Lemma execute_stale_epoch c env w fence :
  w.(w_db).(daemon_fence) = Some fence -> fence.(fence_epoch) <> c.(coord_epoch) ->
  let '(r, w') := execute c env w in is_ok r = false /\ w'.(w_db) = w.(w_db).
Proof.
  intros Hf Hne. unfold execute. destruct (registry_get _ _); [|done]. destruct (Coordinator.validate env _); [|done].
  unfold begin_write. cbn [command_tx_context ctx_daemon_epoch Coordinator.tick w_db]. unfold assert_epoch. rewrite Hf.
  by destruct (Z.eqb_spec (fence_epoch fence) (coord_epoch c)).
Qed.

Lemma moves_ok {A} (R : Db -> Db -> Prop) (m : ST World A) w a w' : moves R m -> m w = (Ok a, w') -> R w.(w_db) w'.(w_db).
Proof. intros Hm E. specialize (Hm w). by rewrite E in Hm. Qed.

Lemma boot_store_ok fs config journal w daemon w' :
  boot_store fs config journal w = (Ok daemon, w') ->
  fence_taken w.(w_db) w'.(w_db) daemon.(dm_instance) daemon.(dm_epoch) /\
  exists services, boot_coordinator services daemon.(dm_epoch) = Ok daemon.(dm_coordinator).
Proof.
  unfold boot_store, lift_res. intros E. apply bind_ok_inv in E as (instance & w1 & E1 & E).
  apply bind_ok_inv in E as (fence & w2 & E2 & E). apply acquire_fence_ok in E2. injection E1 as <- <-. cbn [w_db] in E2.
  apply bind_ok_inv in E as (report & w3 & E3 & E). apply (moves_ok boot_rel _ _ _ _ reconstruct_moves) in E3.
  apply bind_ok_inv in E as (services & w4 & [= _ <-] & E). apply bind_ok_inv in E as (c & w4 & E4 & E).
  apply (f_equal fst) in E4 as Hc. cbn [fst] in Hc. apply (f_equal snd) in E4. cbn [snd] in E4. subst w4.
  apply bind_ok_inv in E as (now & w4 & E4 & E). apply (moves_ok boot_rel _ _ _ _ (read_clock_moves boot_rel)) in E4.
  apply bind_ok_inv in E as (chain & w5 & E5 & E). apply (moves_ok boot_rel _ _ _ _ (seed_moves _ _ _ _)) in E5.
  apply bind_ok_inv in E as (bundles & w6 & E6 & E). apply (moves_ok boot_rel _ _ _ _ (register_bundles_moves _ _ _)) in E6.
  apply bind_ok_inv in E as (active & w7 & E7 & E). injection E as <- <-. cbn [dm_instance dm_epoch dm_coordinator].
  split; [|by eexists].
  assert (Hlast : boot_rel (w_db w6) (w_db w7)).
  { destruct services as [[path svc]|].
    - eapply moves_ok; [|exact E7]. by eapply bootstrap_config_moves.
    - eapply moves_ok; [|exact E7]. unfold read_active_generation. auto with moves typeclass_instances. }
  eapply fence_taken_moves; [exact E2|]. rewrite E3, E4, E5, E6. exact Hlast.
Qed.
End Keeps.

Section Takeover.
Context `{!Ext} `{!Contracts} `{!BindContracts} `{!ApprovalContracts} `{!RecoveryContracts} `{!ConfigYaml} `{!ConfigContracts}.
Context `{!EnvelopeCodec} `{!BootCodec} `{!BundleJson} `{!RegistryJson} `{!InstallJson}.

Lemma boot_ok pid config h daemon h' : boot pid config h = (Ok daemon, h') ->
  assert_epoch daemon.(dm_epoch) h'.(ho_world).(w_db) = Ok tt /\
  exists services, boot_coordinator services daemon.(dm_epoch) = Ok daemon.(dm_coordinator).
Proof.
  unfold boot. destruct (create_dir_all _ _ _) as [fs|]; [|done].
  destruct (lock_acquire fs _ pid _) as [[file|e] [fs1 locks1]]; [|done].
  destruct (boot_store fs1 config _ _) as [[d|e] w1] eqn:Eb; [|done]. intros [= <- <-]. cbn [ho_world].
  destruct (boot_store_ok _ _ _ _ _ _ Eb) as [(_ & (fence & Hf & _ & Hfe) & _ & Hb) Hc]. split; [|exact Hc].
  unfold assert_epoch. rewrite Hf, Hfe, Z.eqb_refl. cbn [andb]. by rewrite (proj2 (Z.leb_le _ _)) by lia.
Qed.

(** C3: A daemon that starts takes over the store and is alone with it.  A start that
    succeeds leads from a consistent store to a consistent one, holds the lock of
    the runtime directory, which no process can then acquire, and holds the fence
    one epoch after the last; every command a coordinator of another epoch
    executes while the fence stands is refused and writes nothing, and the new
    daemon's own commands keep the store consistent. *)
Theorem boot_takes_over pid config h daemon h' :
  kernel_inv h.(ho_world).(w_db) -> boot pid config h = (Ok daemon, h') ->
  kernel_inv h'.(ho_world).(w_db) /\ assert_epoch daemon.(dm_epoch) h'.(ho_world).(w_db) = Ok tt /\
  (forall old, h.(ho_world).(w_db).(daemon_fence) = Some old -> daemon.(dm_epoch) = old.(fence_epoch) + 1) /\
  (forall pid2, fst (lock_acquire h'.(ho_fs) h'.(ho_locks) pid2 config.(dc_runtime_dir)) =
     inr (LockHeld (config.(dc_runtime_dir) ++ [LOCK_FILE_NAME])%list)) /\
  (forall c env w, c.(coord_epoch) <> daemon.(dm_epoch) -> w.(w_db).(daemon_fence) = h'.(ho_world).(w_db).(daemon_fence) ->
     let '(r, w2) := execute c env w in is_ok r = false /\ w2.(w_db) = w.(w_db)) /\
  (forall env w, kernel_inv w.(w_db) -> kernel_inv (w_db (snd (execute daemon.(dm_coordinator) env w)))).
Proof.
  intros Hi E. destruct (boot_ok _ _ _ _ _ E) as [He _]. revert E. unfold boot. destruct (create_dir_all _ _ _) as [fs|]; [|done].
  destruct (lock_acquire fs _ pid _) as [[file|e] [fs1 locks1]] eqn:Hl; [|done].
  destruct (boot_store fs1 config _ _) as [[d|e] w1] eqn:Eb; [|done]. intros [= <- <-]. cbn [ho_world ho_fs ho_locks] in He |- *.
  destruct (boot_store_ok _ _ _ _ _ _ Eb) as [(K & (fence & Hf & Hfi & Hfe) & Hold & Hb) (services & Hc)].
  split; [by apply (kernel_rel_inv _ _ K)|]. split; [exact He|].
  split; [done|]. split; [intros pid2; by rewrite (proj2 (lock_acquired_excludes _ _ _ _ _ _ _ Hl) pid2)|]. split.
  - intros c env w Hne Hw. apply (execute_stale_epoch c env w fence); [exact (eq_trans Hw Hf)|congruence].
  - intros env w Hw. destruct (execute_boot services _ _ env Hc w) as [Kw _]. by apply (kernel_rel_inv _ _ Kw).
Qed.

(** The parts fit together: the run worker, the scheduler worker and the control
    service share one coordinator, whose handlers keep the kernel's invariants and
    leave firing to the scheduler worker; all act under the epoch of the fence the
    start took; and the service serves the owner of the process alone, as the
    daemon's principal. *)
Lemma booted_parts_fit pid config h daemon h' host_env wasm_host uid :
  boot pid config h = (Ok daemon, h') ->
  let worker := run_worker_deps config host_env wasm_host daemon in
  let scheduler := scheduler_worker_deps daemon in
  registry_sound worker.(wd_coordinator).(coord_registry) /\
  map_Forall (fun _ h => fires_nothing h) scheduler.(sd_coordinator).(coord_registry) /\
  worker.(wd_epoch) = worker.(wd_coordinator).(coord_epoch) /\ scheduler.(sd_epoch) = scheduler.(sd_coordinator).(coord_epoch) /\
  assert_epoch worker.(wd_epoch) h'.(ho_world).(w_db) = Ok tt /\
  exists service, control_service uid daemon = Ok service /\ service.(cas_coordinator) = worker.(wd_coordinator) /\
    service.(cas_operator_chain) = Some daemon.(dm_operator_chain) /\
    forall peer p, peer_principal service.(cas_principals) peer = Answer p <-> (exists c, peer = Some c /\ c.(pc_uid) = uid) /\ p = DAEMON_PRINCIPAL.
Proof.
  intros E. apply boot_ok in E as [He (services & Hc)]. cbn [run_worker_deps scheduler_worker_deps wd_coordinator sd_coordinator wd_epoch sd_epoch].
  pose proof (booted_quiet _ _ _ Hc) as Hq. apply boot_coordinator_inv in Hc as Hi.
  assert (Hep : coord_epoch (dm_coordinator daemon) = dm_epoch daemon) by (rewrite Hi; reflexivity).
  assert (Hs : registry_sound (coord_registry (dm_coordinator daemon))) by (rewrite Hi; eapply boot_registry_sound, boot_registry_ok).
  clear Hc Hi. split; [exact Hs|]. split; [exact Hq|]. split; [by symmetry|]. split; [by symmetry|]. split; [exact He|].
  unfold control_service, uid_map_new. cbn [uid_map_insert]. rewrite lookup_empty. eexists. split; [reflexivity|].
  split; [reflexivity|]. split; [reflexivity|]. cbn [cas_principals]. intros peer p.
  unfold peer_principal, principal_for_uid. destruct peer as [c|]; cbn; [|split; [done|by intros [(c & ? & _) _]]].
  destruct (decide (pc_uid c = uid)) as [<-|Hne].
  - rewrite lookup_insert_eq. cbn. split; [intros [= <-]; split; [by eexists|done]|by intros [_ ->]].
  - rewrite lookup_insert_ne, lookup_empty by congruence. cbn. split; [done|]. by intros [(c' & [= <-] & ?) _].
Qed.
End Takeover.
