(* ===== verification/Sample.v ===== *)
(** * A concrete kernel

    Instances of the external interfaces, and a small database built by
    running the services themselves from the empty one.  The theorems are
    applied to these states, so that their hypotheses are met by states the
    kernel reaches. *)

From S2P Require Import Prelude Domain Ids Models StoreBase Store SecurityStore Ledger Events Runs RunGraph.
From S2P Require Import EffectPolicy.
From S2P Require Import Effects Scheduler Resources Kernel RunServices Cancellation Turns Bind.

Open Scope string_scope.
Open Scope Z_scope.

(** ** Identifiers as hexadecimal text *)

(** The [n] low hexadecimal digits of [u], most significant first, before [k]. *)
Fixpoint hex_digits (n : nat) (u : N) (k : string) : string :=
  match n with
  | O => k
  | S n => hex_digits n (u / 16)%N (String (hex_digit (u mod 16)%N) k)
  end.

Definition print_uuid (u : N) : string :=
  hex_digits 8 (u / 2 ^ 96)%N (String "-" (hex_digits 4 (u / 2 ^ 80 mod 2 ^ 16)%N
    (String "-" (hex_digits 4 (u / 2 ^ 64 mod 2 ^ 16)%N
      (String "-" (hex_digits 4 (u / 2 ^ 48 mod 2 ^ 16)%N
        (String "-" (hex_digits 12 (u mod 2 ^ 48)%N "")))))))).

Definition hex_value (c : ascii) : option N :=
  let n := N_of_ascii c in
  if ((48 <=? n) && (n <=? 57))%N then Some (n - 48)%N
  else if ((97 <=? n) && (n <=? 102))%N then Some (n - 87)%N else None.

Fixpoint parse_hex (s : string) (acc : N) : option N :=
  match s with
  | "" => Some acc
  | String c s =>
      if decide (c = "-"%char) then parse_hex s acc
      else match hex_value c with Some d => parse_hex s (acc * 16 + d)%N | None => None end
  end.

(** The [n]-th identifier: version 7, variant bits 10. *)
Definition sample_uuid (n : nat) : N := (2199023255552 * 2 ^ 80 + 7 * 2 ^ 76 + 2 ^ 63 + N.of_nat n)%N.

#[export] Instance sample_ext : Ext := {|
  uuid_hyphenated := print_uuid;
  uuid_parse_str := fun s => parse_hex s 0;
  uuid_version := fun u => Z.of_N (u / 2 ^ 76 mod 16)%N;
  sha256 := fun b => b;
  encode_to_vec := fun _ => [];
  new_uuid_v7 := sample_uuid;
  clock_ms := fun n => 1000 + Z.of_nat n |}.

#[export] Instance sample_json : Json := {| json_member := fun _ _ => Some (JsonBool true) |}.
#[export] Instance sample_bind : BindContracts := {| decode_bind_run := fun _ => None; json_of_map := fun _ => Some [] |}.

Example sample_uuid_round_trip : uuid_v7_from_str (print_uuid (sample_uuid 5)) = Some (sample_uuid 5).
Proof. vm_compute. reflexivity. Qed.

(** ** States *)

Definition sample_ctx : TxContext := mkTxContext 1 (sample_uuid 900) (sample_uuid 901) None.
Definition sample_cmd : CommandContext :=
  mkCommandContext (sample_uuid 901) (sample_uuid 900) (sample_uuid 902) None None None None.

Definition t_empty : Txn :=
  mkTxn (set_daemon_fence (Some (mkDaemonFence (sample_uuid 903) 1 99999)) empty_db) sample_ctx 0 0.

Definition after {A} (m : M A) (t : Txn) : Txn := snd (m t).
Definition succeeds {A} (m : M A) (t : Txn) : bool := is_ok (fst (m t)).

(** A successful service keeps the invariant. *)
Lemma after_inv {A} (m : M A) t :
  kernel_inv t.(t_db) -> ensures (on_db kernel_rel) m -> succeeds m t = true ->
  kernel_inv (t_db (after m t)).
Proof.
  intros Hi Hm Hs. unfold succeeds, after in *. destruct (m t) as [[a|e] t'] eqn:E; [|done].
  destruct (Hm _ _ _ E) as [Hk _]. by apply (kernel_rel_inv _ _ Hk).
Qed.

(** A run and its child, created by the service. *)
Definition root_id : RunId := sample_uuid 1.
Definition child_id : RunId := sample_uuid 2.
Definition task_a : TaskId := sample_uuid 3.

Definition sample_create_request (run : RunId) (parent : option RunId) : CreateTaskRunRequest :=
  mkCreateTaskRunRequest task_a run None "chat" [] None parent 0 "default" "" [] [].

Definition t_root : Txn := after (create_task_run (sample_create_request root_id None) sample_cmd 5) t_empty.
Definition t_tree : Txn := after (create_task_run (sample_create_request child_id (Some root_id)) sample_cmd 6) t_root.

Lemma t_root_inv : kernel_inv (t_db t_root).
Proof. apply after_inv; [apply kernel_inv_init|apply create_task_run_kernel|vm_compute; reflexivity]. Qed.
Lemma t_tree_inv : kernel_inv (t_db t_tree).
Proof. apply after_inv; [apply t_root_inv|apply create_task_run_kernel|vm_compute; reflexivity]. Qed.

(** A run that succeeds, with its value named. *)
Lemma ok_run {A} (m : M A) t : succeeds m t = true -> exists a, m t = (Ok a, after m t).
Proof. unfold succeeds, after. destruct (m t) as [[a|e] t']; [eauto|done]. Qed.

(** The root made ready, claimed, and given a turn. *)
Definition t_ready : Txn := after (transition root_id 0 RunState.Ready None) t_tree.
Definition claim_root : M unit := claim_with_ids root_id "worker" 60000 10 1.
Definition t_claimed : Txn := after claim_root t_ready.
Definition issue_root : M LoopTurnRow := issue_turn root_id 12.
Definition t_turn : Txn := after issue_root t_claimed.

Lemma t_ready_inv : kernel_inv (t_db t_ready).
Proof. apply after_inv; [apply t_tree_inv|apply transition_kernel|vm_compute; reflexivity]. Qed.
Lemma t_claimed_inv : kernel_inv (t_db t_claimed).
Proof. apply after_inv; [apply t_ready_inv|apply claim_with_ids_kernel|vm_compute; reflexivity]. Qed.
Lemma t_turn_inv : kernel_inv (t_db t_turn).
Proof. apply after_inv; [apply t_claimed_inv|apply issue_turn_kernel|vm_compute; reflexivity]. Qed.

(** The turn issued to the root, and decisions that answer it. *)
Definition issued_turn : option LoopTurnRow :=
  match fst (issue_root t_claimed) with Ok turn => Some turn | Err _ => None end.

Definition decide_turn (revision : Z) (kind : DecisionKind) : LoopDecision :=
  match issued_turn with
  | Some turn => mkLoopDecision (print_uuid (sample_uuid 50)) (print_uuid turn.(LoopTurnRow.turn_id)) revision
      turn.(LoopTurnRow.loop_epoch) turn.(LoopTurnRow.step_sequence)
      (cursor_to_string turn.(LoopTurnRow.input_event_cursor)) (Some kind)
  | None => mkLoopDecision "" "" 0 0 0 "" None
  end.

(** Every stored run decodes, checked row by row. *)
Definition readable_check (d : Db) : bool :=
  forallb (fun kv => is_ok (decode_run kv.2)) (map_to_list d.(runs)).

Lemma decode_run_same r r' : decode_run r = Ok r' -> r' = r.
Proof. intros D. unfold decode_run in D. inv_ok. done. Qed.

Lemma readable_checked d : readable_check d = true -> runs_readable d.
Proof.
  unfold readable_check. rewrite forallb_forall. intros Hall id r Hr.
  specialize (Hall (id, r)). rewrite <- list_elem_of_In, elem_of_map_to_list in Hall. specialize (Hall Hr).
  simpl in Hall. destruct (decode_run r) as [r'|e] eqn:D; [|done]. by rewrite (decode_run_same _ _ D).
Qed.

(** A dependency of the root on its child. *)
Definition depend_root : M unit :=
  add_dependency child_id root_id DependencyCondition.CompletedSuccessfully 0 7.
Definition t_dep : Txn := after depend_root t_tree.
Lemma t_dep_inv : kernel_inv (t_db t_dep).
Proof. apply after_inv; [apply t_tree_inv|apply add_dependency_kernel|vm_compute; reflexivity]. Qed.

(** A timer, claimed. *)
Definition timer_id_a : TimerId := sample_uuid 30.
Definition sched_env : SchedulerEnv := mkSchedulerEnv None None.
Definition schedule_a : M TimerRow :=
  timer_schedule sched_env (mkScheduleRequest (Some timer_id_a) (Some root_id) "wake" 2000 []).
Definition t_timer : Txn := after schedule_a t_tree.
Definition claim_a : M (option TimerRow) := timer_claim sched_env timer_id_a "d" 1.
Definition t_timer_claimed : Txn := after claim_a t_timer.
Lemma t_timer_inv : kernel_inv (t_db t_timer).
Proof. apply after_inv; [apply t_tree_inv|apply timer_schedule_kernel|vm_compute; reflexivity]. Qed.

(** A reservation, and its child. *)
Definition res_env : ResourceEnv := mkResourceEnv None None.
Definition res_a : ReservationId := sample_uuid 40.
Definition res_b : ReservationId := sample_uuid 41.
Definition reserve_a : M ReservationRow :=
  reserve res_env (mkReserveRequest (Some res_a) root_id ModelTokens 100 None 7).
Definition reserve_b : M ReservationRow :=
  reserve res_env (mkReserveRequest (Some res_b) child_id ModelTokens 60 (Some res_a) 7).
Definition t_budget : Txn := after reserve_a t_tree.
Lemma t_budget_inv : kernel_inv (t_db t_budget).
Proof. apply after_inv; [apply t_tree_inv|apply reserve_kernel|vm_compute; reflexivity]. Qed.
Definition t_unknown : Txn := after (reservation_mark_unknown res_env res_a) t_budget.
Lemma t_unknown_inv : kernel_inv (t_db t_unknown).
Proof. apply after_inv; [apply t_budget_inv|apply reservation_mark_unknown_kernel|vm_compute; reflexivity]. Qed.

(** An effect, prepared and claimed. *)
Definition eff_env : EffectEnv := mkEffectEnv None None.
Definition eff_a : EffectId := sample_uuid 45.
Definition prepare_a_request : PrepareRequest :=
  mkPrepareRequest eff_a root_id 1 (sample_uuid 50) "fs.read" [] (mkAdapterBinding (sample_uuid 46) "1" "d")
    (resolve (mkInputs None None TrustState.Trusted ConformanceState.Passed None)).
Definition t_effect : Txn := after (prepare_effect eff_env prepare_a_request) t_tree.
Definition claim_eff : M ClaimOutcome := effect_claim eff_env eff_a "exec".
Definition t_effect_claimed : Txn := after claim_eff t_effect.

(** The root bound to an environment whose [effect.execute] port has a
    registered adapter, then claimed and given a turn. *)
Definition env_a : EnvironmentId := sample_uuid 60.
Definition adapter_a : AdapterId := sample_uuid 46.
Definition registered (t : Txn) : Txn :=
  set_db (set_registrations (<[(adapter_a, "1", "d") := AdapterRegistrationRow.mk adapter_a "1" "d" "m" "process"
            [] [] TrustState.Trusted ConformanceState.Passed 5]> t.(t_db).(registrations)) t.(t_db)) t.
Definition plan_a : EnvironmentPlan :=
  mkEnvironmentPlan (NewResolvedEnvironment.mk env_a root_id (sample_uuid 61) "1" "sha256:a" "loop" "1" "sha256:l"
    (sample_uuid 62) None None WorkspaceAccessMode.ReadOnly None None None "k" [] [] [] 8)
    [NewResolvedBinding.mk "effect.execute" adapter_a "1" "d" []] (sample_uuid 62).
Definition bind_a : M CommandOutcome := bind_run sample_cmd root_id env_a plan_a 0.
Definition t_bound : Txn := after bind_a (registered t_tree).
Definition t_bound_turn : Txn := after (issue_turn root_id 12) (after claim_root t_bound).
Definition bound_decision (kind : DecisionKind) : LoopDecision :=
  match fst (issue_turn root_id 12 (after claim_root t_bound)) with
  | Ok turn => mkLoopDecision (print_uuid (sample_uuid 50)) (print_uuid turn.(LoopTurnRow.turn_id))
      turn.(LoopTurnRow.run_revision) turn.(LoopTurnRow.loop_epoch) turn.(LoopTurnRow.step_sequence)
      (cursor_to_string turn.(LoopTurnRow.input_event_cursor)) (Some kind)
  | Err _ => mkLoopDecision "" "" 0 0 0 "" None
  end.

(** ** Reading a concrete run *)

(** A run that succeeds with a value of the form [c b]. *)
Definition picks {A B} (sel : A -> option B) (m : M A) (t : Txn) : bool :=
  match fst (m t) with Ok a => bool_decide (is_Some (sel a)) | Err _ => false end.

Lemma ok_pick {A B} (c : B -> A) (sel : A -> option B) m t :
  (forall a b, sel a = Some b -> a = c b) -> picks sel m t = true ->
  exists b, m t = (Ok (c b), after m t).
Proof.
  unfold picks, after. intros Hc Hp. destruct (m t) as [[a|e] t']; simpl in *; [|done].
  apply bool_decide_eq_true in Hp as [b Hb]. exists b. by rewrite (Hc _ _ Hb).
Qed.

Definition found {A} (o : option A) : bool := bool_decide (is_Some o).
Lemma found_some {A} (o : option A) : found o = true -> exists x, o = Some x.
Proof. unfold found. intros [x ->]%bool_decide_eq_true. by exists x. Qed.

(** A stored row with a property that can be evaluated. *)
Definition row_check {A} (o : option A) (P : A -> bool) : bool := match o with Some x => P x | None => false end.
Lemma row_checked {A} (o : option A) P : row_check o P = true -> exists x, o = Some x /\ P x = true.
Proof. destruct o as [x|]; [by exists x|done]. Qed.

Definition accepted_with (o : AcceptOutcome) : option (DecisionRow * DecisionInstruction) :=
  match o with Accepted row instr => Some (row, instr) | DecisionReplayed _ => None end.
Definition claimed_with (o : ClaimOutcome) : option (Z * EffectRow) :=
  match o with Claimed tok row => Some (tok, row) | Busy _ => None end.

Definition complete_turn : M AcceptOutcome :=
  accept_decision root_id (decide_turn 3 (DkComplete "out")) [] 20.
Definition cancel_root : M CancellationReport := cancel root_id None "user".
Definition t_cancelled : Txn := after cancel_root t_turn.

(** Effect rows that decode, and the invariant of the states above. *)
Lemma effect_decodes r : is_ok (decode_effect r) = true -> decode_effect r = Ok r.
Proof.
  destruct (decode_effect r) as [r'|e] eqn:D; [|done]. intros _. f_equal.
  unfold decode_effect in D. inv_ok. done.
Qed.

Lemma effects_readable_checked d :
  forallb (fun kv => is_ok (decode_effect kv.2)) (map_to_list d.(effects)) = true ->
  forall j x, d.(effects) !! j = Some x -> decode_effect x = Ok x.
Proof.
  rewrite forallb_forall. intros Hall j x Hx. apply effect_decodes, (Hall (j, x)).
  by rewrite <- list_elem_of_In, elem_of_map_to_list.
Qed.

Lemma t_effect_inv : kernel_inv (t_db t_effect).
Proof. apply after_inv; [apply t_tree_inv|apply prepare_effect_kernel|vm_compute; reflexivity]. Qed.
Lemma t_timer_claimed_inv : timers_inv (t_db t_timer_claimed).
Proof.
  destruct (ok_run claim_a t_timer) as [o E]; [vm_compute; reflexivity|]. unfold claim_a in E.
  apply (timer_claim_timers _ _ _ _ _ _ _ E), (ki_timers _ t_timer_inv).
Qed.

#[export] Instance cursor_eq_dec : EqDecision EventCursor.
Proof. solve_decision. Defined.
#[export] Instance turn_eq_dec : EqDecision LoopTurnRow.
Proof. solve_decision. Defined.
Lemma turn_decodes r : is_ok (decode_turn r) = true -> decode_turn r = Ok r.
Proof.
  destruct (decode_turn r) as [r'|e] eqn:D; [|done]. intros _. f_equal.
  unfold decode_turn in D. inv_ok. done.
Qed.
