(* ===== verification/Witnesses.v ===== *)
(** * Witnesses

    Each theorem with hypotheses is applied here to a state of [Sample]: the
    hypotheses are discharged by evaluating the services on it. *)

From S2P Require Import Prelude Domain Ids Models StoreBase Store SecurityStore Ledger Events Runs RunGraph.
From S2P Require Import EffectPolicy.
From S2P Require Import Effects Scheduler Resources Kernel RunServices Cancellation Turns Bind.
From S2P Require Import Sample.

Open Scope string_scope.
Open Scope Z_scope.

(** ** Runs and the run graph *)

Lemma transition_follows_table_witness :
  exists row t', transition root_id 0 RunState.Ready None t_tree = (Ok row, t') /\
    row.(RunRow.state) = RunState.Ready /\ row.(RunRow.run_revision) = 1.
Proof.
  destruct (ok_run (transition root_id 0 RunState.Ready None) t_tree) as [row E]; [vm_compute; reflexivity|].
  exists row. eexists. split; [exact E|].
  destruct (transition_follows_table _ _ _ _ _ _ _ E) as [(r & _ & _ & _ & _ & Hs & Hv & _) _]. by split.
Defined.

Lemma readiness_exact_witness :
  exists t', dependencies_satisfied root_id t_dep = (Ok false, t') /\
    ~ (forall k e, t_dep.(t_db).(dependencies) !! k = Some e -> e.(RunDependencyRow.target_run_id) = root_id ->
         exists src, t_dep.(t_db).(runs) !! e.(RunDependencyRow.source_run_id) = Some src /\
           condition_met e.(RunDependencyRow.dependency_condition) src.(RunRow.state) = true).
Proof.
  destruct (ok_pick (fun _ : unit => false) (fun b : bool => if b then None else Some tt)
              (dependencies_satisfied root_id) t_dep) as [u E];
    [by intros [] ? [=]|vm_compute; reflexivity|].
  eexists. split; [exact E|]. intros Hall.
  destruct (readiness_exact _ _ _ _ (ki_graph _ t_dep_inv) E) as [_ Hb].
  by apply Hb in Hall.
Defined.

Lemma accepted_dependency_keeps_acyclic_witness :
  exists u t', depend_root t_tree = (Ok u, t') /\ edge (deps_edges t'.(t_db)) child_id root_id /\
    ~ rtc (edge (deps_edges t_tree.(t_db))) root_id child_id.
Proof.
  destruct (ok_run depend_root t_tree) as [u E]; [vm_compute; reflexivity|]. unfold depend_root in E.
  exists u. eexists. split; [exact E|].
  destruct (accepted_dependency_keeps_acyclic child_id root_id DependencyCondition.CompletedSuccessfully 0 7
              t_tree u _ (ki_graph _ t_tree_inv) E) as (He & _ & _ & Hn).
  by split.
Defined.

Lemma descendants_exact_witness :
  exists l, descendants root_id t_tree = (Ok l, t_tree) /\ NoDup l /\
    forall x, x ∈ l <-> tc (child_of t_tree.(t_db)) root_id x.
Proof.
  destruct (found_some (t_tree.(t_db).(runs) !! root_id)) as [r Hr]; [vm_compute; reflexivity|].
  apply (descendants_exact root_id r t_tree (ki_runs _ t_tree_inv)); [|exact Hr].
  apply readable_checked. vm_compute. reflexivity.
Defined.

Lemma claim_grants_only_ready_runs_witness :
  exists u t' r', claim_root t_ready = (Ok u, t') /\ t'.(t_db).(runs) !! root_id = Some r' /\
    r'.(RunRow.state) = RunState.Running /\ r'.(RunRow.claim_owner) = Some "worker".
Proof.
  destruct (ok_run claim_root t_ready) as [u E]; [vm_compute; reflexivity|]. unfold claim_root in E.
  destruct (claim_grants_only_ready_runs root_id "worker" 60000 10 1 t_ready u _ (ki_graph _ t_ready_inv) E)
    as (r & r' & _ & Hr' & _ & _ & _ & _ & Hs & _ & Ho & _).
  exists u. eexists. exists r'. split; [exact E|]. rewrite Hr', lookup_insert_eq. by repeat split.
Defined.

Lemma run_claimed_at_most_once_witness :
  exists u t', claim_root t_ready = (Ok u, t') /\
    fst (claim_with_ids root_id "other" 60000 999999 1 t') <> Ok tt.
Proof.
  destruct (ok_run claim_root t_ready) as [u E]; [vm_compute; reflexivity|]. unfold claim_root in E.
  exists u. eexists. split; [exact E|].
  apply (run_claimed_at_most_once root_id "worker" 60000 10 1 t_ready u _ t_ready_inv E). reflexivity.
Defined.

Lemma bind_is_final_witness :
  exists out t' r', bind_a t_tree = (Ok out, t') /\ t'.(t_db).(runs) !! root_id = Some r' /\
    r'.(RunRow.resolved_environment_id) = Some env_a.
Proof.
  destruct (ok_run bind_a t_tree) as [out E]; [vm_compute; reflexivity|]. unfold bind_a in E.
  destruct (bind_is_final sample_cmd root_id env_a plan_a 0 t_tree out _ t_tree_inv eq_refl E) as [(r' & Hr & He & _) _].
  exists out. eexists. exists r'. split; [exact E|]. by split.
Defined.

(** ** Cancellation *)

Lemma cancel_reaches_subtree_witness :
  exists report t', cancel_root t_turn = (Ok report, t') /\
    (forall x, x ∈ report.(cr_changed) <-> in_subtree t_turn.(t_db) root_id x /\ cancellable t_turn.(t_db) x).
Proof.
  destruct (ok_run cancel_root t_turn) as [report E]; [vm_compute; reflexivity|]. unfold cancel_root in E.
  exists report. eexists. split; [exact E|].
  apply (cancel_reaches_subtree root_id None "user" t_turn report _ (ki_runs _ t_turn_inv)) in E as (_ & _ & Hc & _); [exact Hc|].
  apply readable_checked. vm_compute. reflexivity.
Defined.

Lemma cancel_fences_spawns_witness :
  exists report t', cancel_root t_turn = (Ok report, t') /\
    forall id, fst (create_task_run (sample_create_request (sample_uuid 70) (Some root_id)) sample_cmd 30 t') <> Ok id.
Proof.
  destruct (ok_run cancel_root t_turn) as [report E]; [vm_compute; reflexivity|]. unfold cancel_root in E.
  exists report. eexists. split; [exact E|].
  destruct (row_checked (t_turn.(t_db).(runs) !! root_id) (fun r => 0 <=? r.(RunRow.cancellation_epoch)))
    as (r & Hr & Hle); [vm_compute; reflexivity|].
  apply (cancel_fences_spawns root_id None "user" t_turn report (after (cancel root_id None "user") t_turn) r).
  - exact t_turn_inv.
  - apply readable_checked. vm_compute. reflexivity.
  - exact Hr.
  - exact E.
  - reflexivity.
  - split; [reflexivity|by apply Z.leb_le].
Defined.

Lemma spawn_fence_stops_at_root_witness :
  exists report t' r', cancel_root t_turn = (Ok report, t') /\ t'.(t_db).(runs) !! child_id = Some r' /\
    r'.(RunRow.cancellation_epoch) = 0.
Proof.
  destruct (ok_run cancel_root t_turn) as [report E]; [vm_compute; reflexivity|]. unfold cancel_root in E.
  destruct (row_checked (t_turn.(t_db).(runs) !! child_id) (fun r =>
    bool_decide (r.(RunRow.parent_run_id) = Some root_id) &&
    bool_decide (r.(RunRow.cancellation_epoch) = 0))) as (r & Hr & [Hp H0]%andb_prop); [vm_compute; reflexivity|].
  apply bool_decide_eq_true in Hp, H0.
  assert (Hd : runs_readable t_turn.(t_db)) by (apply readable_checked; vm_compute; reflexivity).
  destruct (spawn_fence_stops_at_root root_id None "user" t_turn report _ child_id r (ki_runs _ t_turn_inv)
    Hd E) as (r' & Hr' & _ & He & _).
  - apply rtc_once. exists r. split; [exact Hr|exact Hp].
  - vm_compute. discriminate.
  - exact Hr.
  - exists report. eexists. exists r'. split; [exact E|]. split; [exact Hr'|].
    rewrite He. exact H0.
Defined.

(** ** Events *)

Definition draft_a : DraftEvent :=
  mkDraft (sample_uuid 80) "run/a" "RunReady" [] SensitivityClass.Internal RetentionClass.Ephemeral None None.

Lemma staging_extends_stream_witness :
  exists n t', stage draft_a t_tree = (Ok n, t') /\ stream_head t'.(t_db) "run/a" = n.
Proof.
  destruct (ok_run (stage draft_a) t_tree) as [n E]; [vm_compute; reflexivity|].
  exists n. eexists. split; [exact E|].
  by destruct (staging_extends_stream _ _ _ _ (ki_outbox _ t_tree_inv) E) as (_ & Hh & _).
Defined.

Lemma stream_key_text_roundtrip_witness :
  exists k, try_assemble ["run"; "a"] = Ok k /\ stream_key_from_str k.(sk_text) = Ok k.
Proof.
  destruct (try_assemble ["run"; "a"]) as [k|e] eqn:E; [|by vm_compute in E].
  exists k. split; [reflexivity|]. by apply (stream_key_text_roundtrip ["run"; "a"]).
Defined.

(** ** Effects *)

Definition inputs_a : ResolveInputs :=
  mkInputs (Some (kernel_declared "fs.read")) None TrustState.Trusted ConformanceState.Passed None.

Lemma resolve_never_promotes_witness : (resolve inputs_a).(c_effect_class) <> EffectClass.Unspecified.
Proof.
  destruct (resolve_never_promotes inputs_a (kernel_declared "fs.read")) as (_ & _ & _ & _ & H & _).
  - apply list_elem_of_here.
  - exact H.
Defined.

Lemma contract_wire_roundtrip_witness :
  contract_from_wire (contract_to_wire contract_unknown) = Some contract_unknown.
Proof. apply (contract_wire_roundtrip contract_unknown). discriminate. Defined.

Definition dispatch_a : M EffectRow :=
  effect_transition eff_env eff_a (Some (mkExecutorRef "exec" 1)) EffectState.Dispatched "EffectDispatched"
    (effect_patch EffectState.Dispatched None None None).

Lemma effect_transition_accepts_witness :
  exists row t' r, dispatch_a t_effect_claimed = (Ok row, t') /\
    t_effect_claimed.(t_db).(effects) !! eff_a = Some r /\ r.(EffectRow.executor_fencing_token) = Some 1.
Proof.
  destruct (ok_run dispatch_a t_effect_claimed) as [row E]; [vm_compute; reflexivity|]. unfold dispatch_a in E.
  destruct (effect_transition_accepts _ _ _ _ _ _ _ _ _ E) as (r & Hr & _ & _ & Ht & _).
  exists row. eexists. exists r. split; [exact E|]. by split.
Defined.

Lemma claim_fences_previous_executor_witness :
  exists b t', claim_eff t_effect = (Ok (Claimed b.1 b.2), t') /\ fencing_token b.2 = b.1.
Proof.
  destruct (ok_pick (fun b => Claimed b.1 b.2) claimed_with claim_eff t_effect) as [b E];
    [by intros [] ? [= <-]|vm_compute; reflexivity|]. unfold claim_eff in E.
  exists b. eexists. split; [exact E|].
  by destruct (claim_fences_previous_executor _ _ _ _ _ _ _ E) as [(r & _ & _ & _ & Hf) _].
Defined.

Lemma reconcile_never_reopens_witness :
  exists r, t_effect.(t_db).(effects) !! eff_a = Some r /\
    apply_observed eff_env eff_a Redispatch t_effect = (Ok r, t_effect).
Proof.
  destruct (row_checked (t_effect.(t_db).(effects) !! eff_a)
    (fun r => is_ok (decode_effect r) && negb (bool_decide (r.(EffectRow.state) = EffectState.Dispatched))))
    as (r & Hr & [Hd Hs]%andb_prop); [vm_compute; reflexivity|].
  exists r. split; [exact Hr|].
  apply (reconcile_never_reopens eff_env eff_a Redispatch t_effect r ObsNotFound Hr); [by apply effect_decodes|].
  by apply negb_true_iff, bool_decide_eq_false in Hs.
Defined.

Lemma prepare_effect_deduplicates_witness :
  exists r t', prepare_effect eff_env prepare_a_request t_effect = (Ok (Replayed r), t') /\
    t'.(t_db) = t_effect.(t_db).
Proof.
  destruct (row_checked (t_effect.(t_db).(effects) !! eff_a)
    (fun r => bool_decide (identity_of r = request_identity prepare_a_request))) as (r & Hr & Hi);
    [vm_compute; reflexivity|].
  apply bool_decide_eq_true in Hi.
  exists r. apply (prepare_effect_deduplicates eff_env prepare_a_request t_effect eff_a r).
  - exact (ki_effects _ t_effect_inv).
  - apply effects_readable_checked. vm_compute. reflexivity.
  - exact Hr.
  - exact Hi.
  - vm_compute. reflexivity.
  - split; vm_compute; discriminate.
Defined.

(** ** Timers and budgets *)

Definition claimed_timer (o : option TimerRow) : option TimerRow := o.
Definition fired (b : bool) : option unit := if b then Some tt else None.

Lemma timer_fires_at_most_once_witness :
  exists row t', mark_fired sched_env row t_timer_claimed = (Ok true, t') /\
    fst (mark_fired sched_env row t') <> Ok true.
Proof.
  destruct (row_checked (t_timer_claimed.(t_db).(timers) !! timer_id_a)
    (fun row => picks fired (mark_fired sched_env row) t_timer_claimed)) as (row & _ & Hp);
    [vm_compute; reflexivity|].
  destruct (ok_pick (fun _ : unit => true) fired (mark_fired sched_env row) t_timer_claimed) as [u E];
    [by intros [] ? [=]|exact Hp|].
  exists row. eexists. split; [exact E|].
  apply (timer_fires_at_most_once _ _ _ _ t_timer_claimed_inv E); reflexivity.
Defined.

Lemma timer_claim_cancel_exclusive_witness :
  exists row t', claim_a t_timer = (Ok (Some row), t') /\
    forall row2, fst (timer_cancel sched_env timer_id_a 1 t') <> Ok row2.
Proof.
  destruct (ok_pick Some claimed_timer claim_a t_timer) as [row E];
    [by intros [] ? [= <-]|vm_compute; reflexivity|]. unfold claim_a in E.
  exists row. eexists. split; [exact E|]. intros row2.
  destruct (timer_claim_cancel_exclusive timer_id_a t_timer (after claim_a t_timer) (ki_timers _ t_timer_inv))
    as [_ Hc].
  apply (Hc _ _ _ _ E). reflexivity.
Defined.

Lemma reserve_within_parent_budget_witness :
  exists row t', reserve_b t_budget = (Ok row, t') /\
    forall id r, t'.(t_db).(reservations) !! id = Some r ->
      delegated t'.(t_db).(reservations) id r.(ReservationRow.unit) <= r.(ReservationRow.amount).
Proof.
  destruct (ok_run reserve_b t_budget) as [row E]; [vm_compute; reflexivity|]. unfold reserve_b in E.
  exists row. eexists. split; [exact E|].
  by destruct (reserve_within_parent_budget _ _ _ _ _ (ki_budget _ t_budget_inv) E) as [Hd _].
Defined.

Lemma recovery_refences_reservation_witness :
  exists r row t', t_unknown.(t_db).(reservations) !! res_a = Some r /\
    recover_unknown res_env res_a 9 t_unknown = (Ok row, t') /\
    r.(ReservationRow.fencing_token) < row.(ReservationRow.fencing_token).
Proof.
  destruct (found_some (t_unknown.(t_db).(reservations) !! res_a)) as [r Hr]; [vm_compute; reflexivity|].
  destruct (ok_run (recover_unknown res_env res_a 9) t_unknown) as [row E]; [vm_compute; reflexivity|].
  exists r, row. eexists. split; [exact Hr|]. split; [exact E|].
  by destruct (recovery_refences_reservation _ _ _ _ _ _ _ (ki_budget _ t_unknown_inv) Hr E) as (_ & _ & Hl & _).
Defined.

(** ** Turns and decisions *)

Definition accepted_pair (b : DecisionRow * DecisionInstruction) : AcceptOutcome := Accepted b.1 b.2.
Lemma accepted_pair_of o b : accepted_with o = Some b -> o = accepted_pair b.
Proof. destruct o; simpl; [by intros [= <-]|done]. Qed.

Lemma accepted_decision_is_fenced_witness :
  exists row instr t' r', complete_turn t_turn = (Ok (Accepted row instr), t') /\
    t'.(t_db).(runs) !! root_id = Some r'.
Proof.
  destruct (ok_pick accepted_pair accepted_with complete_turn t_turn accepted_pair_of) as [b E];
    [vm_compute; reflexivity|]. unfold complete_turn, accepted_pair in E.
  destruct (accepted_decision_is_fenced _ _ _ _ _ _ _ _ (ki_runs _ t_turn_inv) E)
    as (did & turn_id & turn & ty & next & r & r' & _ & _ & _ & _ & _ & _ & _ & _ & _ & _ & _ & _ & Hr' & _).
  exists b.1, b.2. eexists. exists r'. split; [exact E|]. by rewrite Hr', lookup_insert_eq.
Defined.

Lemma decision_replay_changes_nothing_witness :
  exists row instr t', complete_turn t_turn = (Ok (Accepted row instr), t') /\
    complete_turn t' = (Ok (DecisionReplayed row), t').
Proof.
  destruct (ok_pick accepted_pair accepted_with complete_turn t_turn accepted_pair_of) as [b E];
    [vm_compute; reflexivity|]. unfold complete_turn, accepted_pair in E.
  exists b.1, b.2. eexists. split; [exact E|].
  apply (decision_replay_changes_nothing _ _ _ _ _ _ _ _ E); reflexivity.
Defined.

Definition edit_turn : M AcceptOutcome :=
  accept_decision root_id (bound_decision (DkInvokeEffect "harness.edit" [] [])) [] 20.

Definition invoked_pair (b : DecisionRow * (bytes * bytes)) : AcceptOutcome :=
  Accepted b.1 (InvokeEffect "harness.edit" b.2.1 b.2.2).
Definition invoked_with (o : AcceptOutcome) : option (DecisionRow * (bytes * bytes)) :=
  match o with
  | Accepted row (InvokeEffect op p c) => if decide (op = "harness.edit") then Some (row, (p, c)) else None
  | _ => None
  end.
Lemma invoked_pair_of o b : invoked_with o = Some b -> o = invoked_pair b.
Proof.
  destruct o as [row [| | | |op p c|]|]; simpl; try done. destruct (decide _); [|done]. by intros [= <-]; subst.
Qed.

Lemma harness_effects_need_creative_task_witness :
  exists row p c t' r task, edit_turn t_bound_turn = (Ok (Accepted row (InvokeEffect "harness.edit" p c)), t') /\
    t_bound_turn.(t_db).(runs) !! root_id = Some r /\
    t_bound_turn.(t_db).(tasks) !! r.(RunRow.task_id) = Some task /\ creative task.(TaskRow.payload) = true.
Proof.
  destruct (ok_pick invoked_pair invoked_with edit_turn t_bound_turn invoked_pair_of) as [b E];
    [vm_compute; reflexivity|]. unfold edit_turn, invoked_pair in E.
  destruct (harness_effects_need_creative_task _ _ _ _ _ _ _ _ _ _ E) as [Hc _].
  destruct Hc as (r & task & Hr & Ht & Hk); [reflexivity|].
  exists b.1, b.2.1, b.2.2. eexists. exists r, task. split; [exact E|]. by repeat split.
Defined.

(** The committed states in which a decision arrives too late or mismatched. *)
Definition w_moved : World := commit_txn t_cancelled.
Definition w_turn : World := commit_txn t_turn.

Lemma superseded_turn_is_rejected_witness :
  exists turn, issued_turn = Some turn /\
    w_db (snd (accept_with_new_txn sample_ctx turn (decide_turn 3 (DkComplete "out")) [] 40 w_moved)) =
      w_moved.(w_db).
Proof.
  destruct (found_some issued_turn) as [turn Ht]; [vm_compute; reflexivity|].
  exists turn. split; [exact Ht|].
  assert (row_check issued_turn (fun turn =>
    bool_decide (w_moved.(w_db).(loop_turns) !! turn.(LoopTurnRow.turn_id) = Some turn) &&
    bool_decide (uuid_v7_from_str (ld_turn_id (decide_turn 3 (DkComplete "out"))) = Some turn.(LoopTurnRow.turn_id)) &&
    row_check (w_moved.(w_db).(runs) !! turn.(LoopTurnRow.run_id)) (fun r =>
      negb (bool_decide (turn.(LoopTurnRow.run_revision) = r.(RunRow.run_revision))))) = true) as Hc
    by (vm_compute; reflexivity).
  rewrite Ht in Hc. apply andb_prop in Hc as [[H1 H2]%andb_prop H3].
  apply bool_decide_eq_true in H1, H2. apply row_checked in H3 as (r & Hr & Hn).
  apply negb_true_iff, bool_decide_eq_false in Hn.
  apply (superseded_turn_is_rejected sample_ctx _ turn _ [] 40 w_moved r H1 H2 Hr Hn).
Defined.

Lemma stale_mark_is_rolled_back_witness :
  exists turn, issued_turn = Some turn /\
    fst (accept_with_new_txn sample_ctx turn (decide_turn 2 (DkComplete "out")) [] 40 w_turn) =
      Err (kerr Conflict "stale decision: fence tuple does not match the issued turn").
Proof.
  destruct (found_some issued_turn) as [turn Ht]; [vm_compute; reflexivity|].
  exists turn. split; [exact Ht|].
  assert (row_check issued_turn (fun turn =>
    bool_decide (w_turn.(w_db).(loop_turns) !! turn.(LoopTurnRow.turn_id) = Some turn) &&
    bool_decide (uuid_v7_from_str (ld_turn_id (decide_turn 2 (DkComplete "out"))) = Some turn.(LoopTurnRow.turn_id)) &&
    bool_decide (turn.(LoopTurnRow.state) = ISSUED) &&
    is_ok (decode_turn turn) &&
    negb (fence_ok (decide_turn 2 (DkComplete "out")) turn)) = true) as Hc
    by (vm_compute; reflexivity).
  rewrite Ht in Hc. apply andb_prop in Hc as [[[[H1 H2]%andb_prop H3]%andb_prop H4]%andb_prop H5].
  apply bool_decide_eq_true in H1, H2, H3. apply turn_decodes in H4. apply negb_true_iff in H5.
  apply (stale_mark_is_rolled_back sample_ctx (sample_uuid 50) turn.(LoopTurnRow.turn_id)); try done.
Defined.

(** ** Behaviours at the edge of what the documents promise *)

(** A cancellation advances only the root's epoch: a spawn under a cancelled
    child that shows the child's epoch still creates a run. *)
Example spawn_under_cancelled_child :
  succeeds cancel_root t_turn = true /\
  row_check (t_cancelled.(t_db).(runs) !! child_id)
    (fun r => bool_decide (r.(RunRow.state) = RunState.Cancelled)) = true /\
  let t' := after (create_task_run (sample_create_request (sample_uuid 71) (Some child_id)) sample_cmd 31) t_cancelled in
  row_check (t'.(t_db).(runs) !! sample_uuid 71)
    (fun r => bool_decide (r.(RunRow.state) = RunState.Created)) = true.
Proof. vm_compute. done. Qed.

(** [issue_turn] moves a run that is still Created to Running, a pair outside
    the transition table. *)
Example issue_turn_from_created :
  row_check (t_tree.(t_db).(runs) !! root_id) (fun r => bool_decide (r.(RunRow.state) = RunState.Created)) = true /\
  row_check ((after issue_root t_tree).(t_db).(runs) !! root_id)
    (fun r => bool_decide (r.(RunRow.state) = RunState.Running)) = true /\
  allows RunState.Created RunState.Running = false.
Proof. vm_compute. done. Qed.
