(* ===== verification/GateWitnesses.v ===== *)
(** * The gates on concrete states

    Commands, delegations, approvals and recovery on states built by the
    services themselves: every theorem of [Coordinator], [Identity],
    [Permissions], [Approvals] and [Recovery] that has hypotheses is applied
    where they hold. *)

From S2P Require Import Prelude Domain Ids Text Models StoreBase Store SecurityStore Ledger Identity Permissions.
From S2P Require Import Events Runs RunGraph EffectPolicy Effects Scheduler Resources Kernel RunServices.
From S2P Require Import Cancellation Turns Bind Coordinator Approvals Recovery Sample.

Open Scope string_scope.
Open Scope Z_scope.

(** ** Commands *)

#[export] Instance sample_contracts : Contracts := {|
  decode_claim_ready_run := fun _ => None;
  decode_cancel_run := fun _ => None;
  decode_create_task_run := fun _ => None;
  decode_create_session := fun _ => Some (mkCreateSessionMsg "" []);
  decode_put_agent_spec_revision := fun _ => None;
  decode_schedule_timer := fun _ => None;
  decode_cancel_timer := fun _ => None |}.

Definition create_session_type : string := "agentos.spec.v1.CreateSession".
Definition coordinator_a : CommandCoordinator :=
  mkCommandCoordinator {[ create_session_type := create_session_handle ]} 1 (fun _ => false).
Definition envelope_a : CommandEnvelope :=
  mkCommandEnvelope (sample_uuid 901) "key-1" (sample_uuid 900) (sample_uuid 902) None None
    (mkRequestDigest (replicate 32 Byte.x07)) None None None create_session_type [].
Definition w_empty : World := commit_txn t_empty.

Definition command_done : bool :=
  match execute coordinator_a envelope_a w_empty with
  | (Ok _, w') => bool_decide (is_Some (w'.(w_db).(idempotency_records) !! command_key envelope_a))
  | _ => false
  end.

Lemma command_run :
  exists outcome w', execute coordinator_a envelope_a w_empty = (Ok outcome, w') /\ w'.(w_db) <> w_empty.(w_db).
Proof.
  assert (H : command_done = true) by (vm_compute; reflexivity). unfold command_done in H.
  destruct (execute coordinator_a envelope_a w_empty) as [[outcome|e] w']; [|done].
  apply bool_decide_eq_true in H as [rec Hr]. exists outcome, w'. split; [done|].
  intros E. rewrite E in Hr. by vm_compute in Hr.
Qed.

Lemma execute_is_atomic_witness :
  exists outcome w', execute coordinator_a envelope_a w_empty = (Ok outcome, w') /\
    recorded w'.(w_db) envelope_a outcome.
Proof.
  destruct command_run as (outcome & w' & E & Hne). exists outcome, w'. split; [exact E|].
  destruct (execute_is_atomic _ _ _ _ _ E) as [[? _]|(h & t & o & t1 & rec & _ & _ & _ & _ & _ & Hr & [Ho|[_ Ho]])].
  - by destruct Hne.
  - injection Ho as ->. exact Hr.
  - discriminate Ho.
Defined.

Lemma again_admitted :
  admitted coordinator_a envelope_a (snd (execute coordinator_a envelope_a w_empty)).
Proof.
  split; [exists create_session_handle; unfold registry_get; apply lookup_singleton_eq|].
  split; vm_compute; reflexivity.
Qed.

Lemma command_executes_at_most_once_witness :
  exists outcome w', execute coordinator_a envelope_a w_empty = (Ok outcome, w') /\
    fst (execute coordinator_a envelope_a w') = Ok outcome.
Proof.
  destruct command_run as (outcome & w' & E & Hne). exists outcome, w'. split; [exact E|].
  destruct (command_executes_at_most_once _ _ _ _ _ E Hne) as (o & [Ho|Ho] & Hagain); [|discriminate Ho].
  injection Ho as ->. destruct (Hagain coordinator_a envelope_a w') as [_ H].
  - exact (eq_refl _).
  - apply kernel_rel_preorder.
  - replace w' with (snd (execute coordinator_a envelope_a w_empty)) by exact (f_equal snd E). exact again_admitted.
  - rewrite H. rewrite bool_decide_true; exact (eq_refl _).
Defined.

(** ** Delegation and permissions *)

Lemma grant_scope_roundtrip_witness :
  decode_grant_scope (encode_grant_scope (Some (TargetNetwork ["example.com"; "*"]))) =
    Ok (Some (TargetNetwork ["example.com"; "*"])).
Proof. apply (grant_scope_roundtrip (Some (TargetNetwork ["example.com"; "*"]))). vm_compute. reflexivity. Defined.

Definition grant_a : CapabilityGrantId := sample_uuid 70.
Definition chain_a : DelegationChainId := sample_uuid 71.
Definition insert_grant_a : M unit :=
  security_insert_grant (NewCapabilityGrant.mk grant_a (sample_uuid 900) (sample_uuid 902) None
    "effect.resolve_unknown" [] None None None 5).
Definition persist_a : M unit :=
  persist_hop chain_a (mkHop 0 (sample_uuid 902) None [grant_a] [resolve_capability]).
Definition delegated_to (t : Txn) : Txn := after persist_a (after insert_grant_a t).

Lemma insert_grant_kernel n : ensures (on_db kernel_rel) (security_insert_grant n).
Proof. solve_kernel. Qed.
Lemma persist_hop_kernel c h : ensures (on_db kernel_rel) (persist_hop c h).
Proof.
  unfold persist_hop, resolve_hop, load_chain, load_hop, grant_capabilities. solve_kernel.
Qed.

Lemma loaded_chain_only_narrows_witness :
  exists ch, load_chain chain_a (delegated_to t_tree) = (Ok ch, delegated_to t_tree) /\
    forall i h, ch.(hops) !! i = Some h -> h.(hop_index) = Z.of_nat i.
Proof.
  destruct (ok_run (load_chain chain_a) (delegated_to t_tree)) as [ch E]; [vm_compute; reflexivity|].
  exists ch. destruct (loaded_chain_only_narrows _ _ _ _ E) as (Ht & Hh & _).
  split; [exact (eq_trans E (f_equal (pair (Ok ch)) Ht))|]. intros i h Hi. exact (proj1 (Hh i h Hi)).
Defined.

Lemma workspace_grant_confines_witness :
  exists root scope target,
    normalized_workspace "ws://host/a" None = Some scope /\
    normalized_workspace "ws://host/a/" (Some "src/main.rs") = Some target /\
    confined root scope /\ confined scope target.
Proof.
  destruct (workspace_grant_confines "ws://host/a" None "ws://host/a/" (Some "src/main.rs"))
    as (root & scope & target & _ & Hs & Ht & Hr & Hc); [vm_compute; reflexivity|].
  exists root, scope, target. exact (conj Hs (conj Ht (conj Hr Hc))).
Defined.

(** ** Approvals *)

Definition approval_input : DigestInput :=
  mkDigestInput (Some (sample_uuid 80)) (sample_uuid 900) (sample_uuid 902) None "secret.use" "secret://a"
    [mkCapability CapabilityFamily.Secret CapabilityAction.Use] None None 5000 "".

Lemma print_uuid_short u : short (print_uuid u).
Proof.
  assert (Hd : forall n v k, String.length (hex_digits n v k) = (n + String.length k)%nat).
  { induction n as [|n IH]; intros v k; [done|]. cbn [hex_digits]. rewrite IH. simpl. lia. }
  unfold short, print_uuid. rewrite !Hd. cbn [String.length]. rewrite !Hd. cbn [String.length].
  rewrite !Hd. cbn [String.length]. rewrite !Hd. cbn [String.length]. rewrite !Hd. cbn [String.length]. lia.
Qed.

Lemma approval_digest_binds_content_witness :
  exists i, di_target i <> di_target approval_input /\ canonical_digest i <> canonical_digest approval_input.
Proof.
  pose (i := mkDigestInput (Some (sample_uuid 80)) (sample_uuid 900) (sample_uuid 902) None "secret.use" "secret://b"
    [mkCapability CapabilityFamily.Secret CapabilityAction.Use] None None 5000 "").
  assert (Hne : di_target i <> di_target approval_input) by discriminate.
  assert (B : forall j, j = i \/ j = approval_input -> bounded_input j).
  { intros j [-> | ->]; (split; [reflexivity|apply print_uuid_short|unfold short; simpl; lia|unfold short; simpl; lia|
      discriminate|discriminate|unfold short; simpl; lia]). }
  exists i. split; [exact Hne|]. intros E.
  destruct (approval_digest_binds_content i approval_input (B _ (or_introl eq_refl)) (B _ (or_intror eq_refl)) E)
    as [Hc|[_ Hs]].
  - apply Hne. unfold approval_content in Hc. congruence.
  - unfold canonical_digest in E. apply Hne. exfalso. revert Hs. vm_compute. discriminate.
Defined.

Definition create_approval : M (ApprovalRequestId * ApprovalDigest) := create_request approval_input 7.
Definition t_approval : Txn := after create_approval t_tree.

Lemma t_approval_inv : kernel_inv (t_db t_approval).
Proof. apply after_inv; [apply t_tree_inv|apply create_request_kernel|vm_compute; reflexivity]. Qed.

Lemma created_approval_is_pending_witness :
  exists id digest, create_approval t_tree = (Ok (id, digest), t_approval) /\
    is_satisfied id digest 4999 t_approval = (Ok Pending, t_approval).
Proof.
  destruct (ok_run create_approval t_tree) as [[id digest] E]; [vm_compute; reflexivity|].
  exists id, digest. split; [exact E|]. unfold create_approval in E.
  rewrite (created_approval_is_pending _ _ _ _ _ _ t_tree_inv E). rewrite decide_True; exact (eq_refl _).
Defined.

Definition approval_digest : ApprovalDigest :=
  match fst (create_approval t_tree) with Ok (_, digest) => digest | Err _ => mkApprovalDigest [] end.
Definition approve : M unit :=
  respond (sample_uuid 80) approval_digest Approve (mkResponder (sample_uuid 900) (Some (sample_uuid 904))) 100.

Lemma approval_decided_once_witness :
  exists u t', approve t_approval = (Ok u, t') /\
    is_satisfied (sample_uuid 80) approval_digest 999999 t' = (Ok Approved, t').
Proof.
  destruct (ok_run approve t_approval) as [u E]; [vm_compute; reflexivity|]. unfold approve in E.
  exists u. eexists. split; [exact E|].
  destruct (approval_decided_once _ _ _ _ _ _ _ _ t_approval_inv E) as [_ H].
  match type of H with forall t2, kernel_rel (t_db ?t1) _ -> _ => destruct (H t1) as [Hs _]; [apply kernel_rel_preorder|] end.
  exact (Hs 999999).
Defined.

(** ** Recovery *)

Definition RESOLVE_DONE : ResolveUnknownEffectMsg :=
  mkResolveUnknownEffectMsg (print_uuid eff_a) "mark_succeeded" (EffectState_to_wire EffectState.Unknown) "" "" "seen".
Definition RESOLVE_RETRY : ResolveUnknownEffectMsg :=
  mkResolveUnknownEffectMsg (print_uuid eff_a) RETRY_ACTION (EffectState_to_wire EffectState.Unknown)
    (print_uuid (sample_uuid 80)) "" "".

#[export] Instance sample_recovery : RecoveryContracts := {|
  decode_resolve_unknown_effect := fun payload =>
    match payload with [] => Some RESOLVE_DONE | _ => Some RESOLVE_RETRY end |}.

(** The running root with a dispatched effect that cannot be reconciled. *)
Definition claim_then_dispatch : M EffectRow :=
  bind (prepare_effect eff_env prepare_a_request) (fun _ => bind claim_eff (fun _ =>
    mark_dispatched eff_env eff_a (mkExecutorRef "exec" 1) None)).
Definition t_dispatched : Txn := after claim_then_dispatch t_claimed.
Definition t_lost : Txn := after (mark_unknown eff_env eff_a None) t_dispatched.

Lemma t_dispatched_inv : kernel_inv (t_db t_dispatched).
Proof.
  apply after_inv; [apply t_claimed_inv| |vm_compute; reflexivity].
  unfold claim_then_dispatch, claim_eff, mark_dispatched. solve_ensures.
Qed.
Lemma t_lost_inv : kernel_inv (t_db t_lost).
Proof.
  apply after_inv; [apply t_dispatched_inv|unfold mark_unknown; solve_ensures|vm_compute; reflexivity].
Qed.

Lemma reconstruct_recovers_witness :
  exists report w', reconstruct (commit_txn t_dispatched) = (Ok report, w') /\
    recovered (t_db t_dispatched) w'.(w_db) report.
Proof.
  assert (Hok : is_ok (fst (reconstruct (commit_txn t_dispatched))) = true) by (vm_compute; reflexivity).
  pose proof (reconstruct_recovers (commit_txn t_dispatched) t_dispatched_inv) as H.
  destruct (reconstruct (commit_txn t_dispatched)) as [[report|e] w']; [|discriminate Hok].
  exists report, w'. split; [exact (eq_refl _)|exact H].
Defined.

Definition sample_caller : CommandContext :=
  mkCommandContext (sample_uuid 901) (sample_uuid 900) (sample_uuid 902) None (Some chain_a) None None.
Definition t_caller : Txn := delegated_to t_lost.

Lemma t_caller_inv : kernel_inv (t_db t_caller).
Proof.
  unfold t_caller, delegated_to. apply after_inv; [|apply persist_hop_kernel|vm_compute; reflexivity].
  apply after_inv; [apply t_lost_inv|apply insert_grant_kernel|vm_compute; reflexivity].
Qed.

(** The caller's store with an approved request for the retry of this effect. *)
Definition retry_approval : ApprovalRequestRow :=
  ApprovalRequestRow.mk (sample_uuid 80) "" (sample_uuid 900) (sample_uuid 902) (Some root_id)
    (RESOLVE_OPERATION +:+ ":" +:+ RETRY_ACTION) (Some (uuid_hyphenated eff_a)) [] None None 1000000 ""
    ApprovalState.Approved 0 None.
Definition t_consented : Txn :=
  mkTxn (set_approval_requests {[sample_uuid 80 := retry_approval]} t_caller.(t_db))
    t_caller.(t_ctx) t_caller.(t_ids) t_caller.(t_clock).

(** Marking the effect succeeded passes on authority alone; its retry passes with
    the approval and returns the effect to prepared. *)
Lemma unknown_effect_resolved_under_authority_witness :
  (exists out t' id row', resolve_unknown_effect_handle sample_caller [] t_caller = (Ok out, t') /\
    t'.(t_db).(effects) = <[id := row']> t_caller.(t_db).(effects)) /\
  exists out t' row, resolve_unknown_effect_handle sample_caller [Byte.x01] t_consented = (Ok out, t') /\
    may_resolve sample_caller row RESOLVE_RETRY t_consented.
Proof.
  split.
  - destruct (ok_run (resolve_unknown_effect_handle sample_caller []) t_caller) as [out E]; [vm_compute; reflexivity|].
    destruct (proj2 (unknown_effect_resolved_under_authority sample_caller [] t_caller) _ _ E)
      as (request & id & row & row' & _ & _ & _ & _ & _ & He & _).
    exists out. eexists. exists id, row'. split; [exact E|exact He].
  - destruct (ok_run (resolve_unknown_effect_handle sample_caller [Byte.x01]) t_consented) as [out E]; [vm_compute; reflexivity|].
    destruct (proj2 (unknown_effect_resolved_under_authority sample_caller [Byte.x01] t_consented) _ _ E)
      as (request & id & row & row' & Hd & _ & _ & _ & Hm & _).
    exists out. eexists. exists row. split; [exact E|]. injection Hd as <-. exact Hm.
Defined.

Lemma effect_retry_never_authorized_witness :
  is_ok (fst (resolve_unknown_effect_handle sample_caller [Byte.x01] t_caller)) = false.
Proof.
  apply (effect_retry_never_authorized sample_caller [Byte.x01] RESOLVE_RETRY t_caller t_caller_inv).
  - exact (eq_refl _).
  - exact (eq_refl _).
Defined.
