(* ===== verification/PipelineWitnesses.v ===== *)
(** * The event pipeline on concrete states

    A wire codec that satisfies its law, and the events the run services staged
    in [Sample], dispatched to an empty journal. *)

From stdpp Require Import countable.
From S2P Require Import Prelude Domain Ids Text Models StoreBase Store SecurityStore Ledger Events Runs RunGraph.
From S2P Require Import EffectPolicy Effects Scheduler Resources Kernel RunServices Cancellation Turns Bind Sample.
From S2P Require Import Envelope Journal Dispatch Feed Drain.

Open Scope string_scope.
Open Scope Z_scope.

(** ** A codec: the message as a number, its bits as bytes *)

#[export] Instance byte_countable : Countable Byte.byte := inj_countable Byte.to_N Byte.of_N Byte.of_to_N.

Definition msg_tuple (m : EventEnvelopeMsg) :=
  (m.(em_event_id), m.(em_event_type), m.(em_event_version), m.(em_stream_key), m.(em_sequence),
   m.(em_occurred_unix_ms), (m.(em_run_id), m.(em_task_id), m.(em_session_id), m.(em_effect_id)),
   (m.(em_causation_id), m.(em_correlation_id), m.(em_sensitivity), m.(em_retention), m.(em_payload))).

Definition tuple_msg (t : string * string * Z * string * Z * Z * (string * string * string * string) *
    (string * string * Z * Z * bytes)) : EventEnvelopeMsg :=
  let '(a, b, c, d, e, f, (g, h, i, j), (k, l, m, n, o)) := t in mkEventEnvelopeMsg a b c d e f g h i j k l m n o.

Lemma tuple_msg_tuple m : tuple_msg (msg_tuple m) = m.
Proof. by destruct m. Qed.

Fixpoint positive_bytes (p : positive) : bytes :=
  match p with xH => [] | xO p => Byte.x00 :: positive_bytes p | xI p => Byte.x01 :: positive_bytes p end.

Fixpoint bytes_positive (b : bytes) : positive :=
  match b with [] => xH | Byte.x00 :: b => xO (bytes_positive b) | _ :: b => xI (bytes_positive b) end.

Lemma bytes_positive_bytes p : bytes_positive (positive_bytes p) = p.
Proof. induction p; simpl; congruence. Qed.

Lemma positive_bytes_text p : from_utf8 (positive_bytes p) = Some (String.string_of_list_byte (positive_bytes p)).
Proof.
  unfold from_utf8. rewrite ascii_utf8; [done|]. unfold is_ascii, str_all.
  induction p as [p IH|p IH|]; [|exact IH|done]. simpl. exact IH.
Qed.

#[export] Instance sample_codec : EnvelopeCodec := {|
  encode_envelope := fun m => positive_bytes (encode (msg_tuple m));
  decode_envelope := fun b => tuple_msg <$> decode (bytes_positive b) |}.

#[export] Instance sample_wire : WireCodec.
Proof.
  intros m. unfold decode_envelope, encode_envelope, sample_codec.
  by rewrite bytes_positive_bytes, decode_encode, fmap_Some_2 with (x := msg_tuple m); rewrite ?tuple_msg_tuple.
Qed.

#[export] Instance no_faults : Faults := fun _ => false.

(** ** Stored events that can be published *)

Definition id_check (id : Uuid) : bool := bool_decide (uuid_v7_from_str (uuid_hyphenated id) = Some id).
Definition opt_id_check (o : option Uuid) : bool := from_option id_check true o.

Definition event_row_check (r : OutboxEventRow) : bool :=
  is_ok (stream_key_from_str r.(OutboxEventRow.stream_key)) && id_check r.(OutboxEventRow.event_id) &&
  opt_id_check r.(OutboxEventRow.run_id) && opt_id_check r.(OutboxEventRow.task_id) &&
  opt_id_check r.(OutboxEventRow.session_id) && opt_id_check r.(OutboxEventRow.effect_id) &&
  negb (bool_decide (r.(OutboxEventRow.sensitivity) = SensitivityClass.Unspecified)) &&
  negb (bool_decide (r.(OutboxEventRow.retention) = RetentionClass.Unspecified)) &&
  between 0 r.(OutboxEventRow.event_version) 4294967295 && (r.(OutboxEventRow.sequence) <=? i64_max).

Lemma opt_id_checked o : opt_id_check o = true -> forall id, o = Some id -> readable_id id.
Proof. intros Ho id ->. by apply bool_decide_eq_true in Ho. Qed.

Lemma event_row_checked r : event_row_check r = true -> publishable_row r.
Proof.
  unfold event_row_check, between. rewrite !andb_true_iff. intros [[[[[[[[[C1 C2] C3] C4] C5] C6] C7] C8] [C9 C10]] C11].
  destruct (stream_key_from_str (OutboxEventRow.stream_key r)) as [k|] eqn:Hk; [|done].
  apply bool_decide_eq_true in C2. apply negb_true_iff, bool_decide_eq_false in C7, C8.
  exists k. split; [done|]. split; [|lia]. split; simpl; try done; try (by apply opt_id_checked).
  rewrite (stream_key_from_str_text _ _ Hk). done.
Qed.

Definition db_check (d : Db) : bool := forallb (fun kv => event_row_check kv.2) (map_to_list d.(outbox_events)).

Lemma db_checked d : db_check d = true -> publishable d.
Proof.
  unfold db_check. rewrite forallb_forall. intros Hall id r Hr. apply event_row_checked.
  apply (Hall (id, r)). by apply list_elem_of_In, elem_of_map_to_list.
Qed.

(** ** A run of the pipeline *)

Definition s_start : DispatchState := mkDispatch (commit_txn t_empty) ∅ [] 0.
Definition s_staged : DispatchState := mkDispatch (commit_txn t_claimed) ∅ [] 0.

Lemma t_claimed_publishable : publishable (t_db t_claimed).
Proof. apply db_checked. vm_compute. reflexivity. Qed.

(** A step of the services is a step of the pipeline. *)
Lemma after_events {A} (m : M A) t :
  ensures (on_db kernel_rel) m -> succeeds m t = true -> events_rel (t_db t) (t_db (after m t)).
Proof.
  intros Hm Hs. unfold succeeds, after in *. destruct (m t) as [[a|e] t'] eqn:E; [|done].
  destruct (Hm _ _ _ E) as [Hk _]. apply (kr_events _ _ Hk).
Qed.

Lemma staged_events : events_rel (t_db t_empty) (t_db t_claimed).
Proof.
  transitivity (t_db t_root); [apply after_events; [apply create_task_run_kernel|vm_compute; reflexivity]|].
  transitivity (t_db t_tree); [apply after_events; [apply create_task_run_kernel|vm_compute; reflexivity]|].
  transitivity (t_db t_ready); [apply after_events; [apply transition_kernel|vm_compute; reflexivity]|].
  apply after_events; [apply claim_with_ids_kernel|vm_compute; reflexivity].
Qed.

Lemma staged_reachable : rtc pipeline_step s_start s_staged.
Proof. apply rtc_once. exact (step_kernel s_start (commit_txn t_claimed) staged_events). Qed.

Lemma started : pipeline_start s_start.
Proof. done. Qed.

Lemma staged_ok : pipeline_ok s_staged.
Proof. apply (reachable_ok s_start s_staged started staged_reachable). Qed.

Lemma staged_fenced : fenced 1 (t_db t_claimed).
Proof. vm_compute. reflexivity. Qed.

Lemma staged_backlog : (0 < length (backlog (t_db t_claimed)) <= 2 * 1)%nat.
Proof. apply (bool_decide_unpack _). vm_compute. exact I. Qed.

(** The stream of the root run. *)
Definition root_stream : StreamKey := mkStreamKey ("run/" +:+ print_uuid root_id) StreamRun.

Lemma root_stream_canonical : stream_key_from_str (sk_text root_stream) = Ok root_stream.
Proof. vm_compute. reflexivity. Qed.

Lemma dispatch_publishes_after_recording_witness :
  exists r s', dispatch_once (sample_uuid 900) 1 1 s_staged = (r, s') /\ pipeline_ok s' /\ ∅ ⊆ s'.(ds_journal).
Proof.
  destruct (dispatch_once (sample_uuid 900) 1 1 s_staged) as [r s'] eqn:E. exists r, s'. split; [reflexivity|].
  destruct (dispatch_publishes_after_recording _ _ _ _ _ _ staged_ok E) as (Hok & Hsub & _). split; [exact Hok|exact Hsub].
Defined.

Lemma journal_serves_history_witness :
  exists s n, rtc pipeline_step s_start s /\
    read_stream root_stream 0 10 s.(ds_journal) =
      (Ok (mkReadResult (wire_form <$> take 10 (drop 0 (take n (history s.(ds_world).(w_db) root_stream)))) false), s.(ds_journal)).
Proof.
  destruct (dispatch_once_run (sample_uuid 900) 1 1 s_staged staged_ok t_claimed_publishable staged_fenced (fun _ => eq_refl))
    as (s' & E & _ & Hpub & _); [apply (bool_decide_unpack _); vm_compute; exact I|].
  assert (Hr : rtc pipeline_step s_start s').
  { etransitivity; [exact staged_reachable|]. apply rtc_once. exact (step_dispatch _ _ _ _ _ _ E). }
  destruct (journal_serves_history s_start s' root_stream started Hr Hpub root_stream_canonical) as (_ & n & _ & _ & Hread).
  exists s', n. split; [exact Hr|]. apply (Hread 0 10%nat). unfold i64_max. lia.
Defined.

Lemma dispatch_drains_backlog_witness :
  (0 < length (backlog s_staged.(ds_world).(w_db)))%nat /\
  exists s', dispatch_times 2 (sample_uuid 900) 1 1 s_staged = (Ok tt, s') /\ backlog s'.(ds_world).(w_db) = [].
Proof.
  split; [exact (proj1 staged_backlog)|].
  destruct (dispatch_drains_backlog 2 (sample_uuid 900) 1 1 s_staged staged_ok t_claimed_publishable staged_fenced
    (fun _ => eq_refl)) as (s' & E & Hb & _); [apply (bool_decide_unpack _); vm_compute; exact I|exact (proj2 staged_backlog)|].
  exists s'. split; [exact E|exact Hb].
Defined.

(** ** An append *)

Definition event_a : EventEnvelope :=
  mkEventEnvelope (sample_uuid 30) "RunCreated" 1 root_stream 1 5 None None None None None None
    SensitivityClass.Internal RetentionClass.Standard [].

Lemma event_a_appended :
  append root_stream 0 [event_a] ∅ = (Ok (mkAppendResult 1), record_batch [event_a] ∅).
Proof.
  assert (Hmax : stream_max (sk_text root_stream) ∅ = 0) by (vm_compute; reflexivity).
  pose proof (append_at_head root_stream [event_a] ∅) as Happ. rewrite Hmax in Happ. apply Happ; clear Happ.
  - by intros key n [? ?].
  - done.
  - intros [|i] e; [|done]. intros [= <-]. done.
  - apply (bool_decide_unpack _). vm_compute. exact I.
  - intros e _. unfold recorded_id. rewrite map_to_list_empty. done.
  - apply NoDup_singleton.
Qed.

Lemma append_records_once_witness :
  append root_stream 0 [event_a] ∅ = (Ok (mkAppendResult 1), record_batch [event_a] ∅) /\
  append root_stream 0 [event_a] (record_batch [event_a] ∅) = (Ok (mkAppendResult 1), record_batch [event_a] ∅).
Proof.
  split; [exact event_a_appended|].
  assert (Hwf : journal_wf ∅) by (by intros key n [? ?]).
  apply (append_records_once root_stream 0 [event_a] ∅ (mkAppendResult 1) _ Hwf); [|exact event_a_appended].
  unfold u64_max. lia.
Defined.
