(* ===== verification/PortWitnesses.v ===== *)
(** * Queue, resource references and the other ports on concrete inputs

    The identifier text of [Sample] satisfies the law of the [uuid] crate the
    reference parser relies on; the queue and the references are run on small
    inputs. *)

From S2P Require Import Prelude Domain Ids Text Models StoreBase Store SecurityStore Ledger Identity Events Runs RunGraph.
From S2P Require Import EffectPolicy Effects Scheduler Resources Kernel RunServices Cancellation Turns Bind Sample.
From S2P Require Import Queue ResourceUri.

Open Scope string_scope.
Open Scope Z_scope.

(** ** Identifiers print back *)

(** Linear arithmetic with quotients and remainders by constants. *)
Ltac div_lia := zify; Z.to_euclidean_division_equations; lia.

Definition lower_hex (c : ascii) : bool := is_ascii_digit c || byte_in 97 102 c.

Lemma lower_hex_value c : lower_hex c = true -> exists d, hex_value c = Some d /\ (d < 16)%N /\ hex_digit d = c /\ c <> "-"%char.
Proof. destruct c as [[] [] [] [] [] [] [] []]; intros Hc; try discriminate Hc; by eexists. Qed.

(** The value of a word of digits, most significant first. *)
Fixpoint word_value (w : list ascii) (acc : N) : N :=
  match w with [] => acc | c :: w => word_value w (acc * 16 + default 0%N (hex_value c))%N end.

Fixpoint put (w : list ascii) (k : string) : string := match w with [] => k | c :: w => String c (put w k) end.

Lemma parse_put w : forall k acc,
  Forall (fun c => lower_hex c = true) w -> parse_hex (put w k) acc = parse_hex k (word_value w acc).
Proof.
  induction w as [|c w IH]; intros k acc Hw; [done|]. apply list.Forall_cons in Hw as [Hc Hw].
  destruct (lower_hex_value c Hc) as (d & Hd & _ & _ & Hn). cbn [put parse_hex word_value].
  by rewrite decide_False, Hd, IH.
Qed.

Lemma word_value_snoc w c acc : word_value (w ++ [c]) acc = (word_value w acc * 16 + default 0 (hex_value c))%N.
Proof. revert acc. induction w as [|x w IH]; intros acc; [done|]. cbn [app word_value]. apply IH. Qed.

Lemma put_app w c k : put (w ++ [c]) k = put w (String c k).
Proof. induction w as [|x w IH]; [done|]. cbn. by rewrite IH. Qed.

Lemma print_word w : forall k,
  Forall (fun c => lower_hex c = true) w -> hex_digits (length w) (word_value w 0) k = put w k.
Proof.
  induction w as [|c w IH] using rev_ind; intros k Hw; [done|]. apply Forall_app in Hw as [Hw Hc]. apply list.Forall_cons in Hc as [Hc _].
  destruct (lower_hex_value c Hc) as (d & Hd & Hlt & Hp & _).
  rewrite length_app, Nat.add_comm, word_value_snoc, put_app, Hd. cbn [Nat.add length hex_digits from_option]; cbv [id].
  assert (Hq : forall v, ((v * 16 + d) / 16 = v /\ (v * 16 + d) mod 16 = d)%N) by (intros v; clear -Hlt; div_lia).
  destruct (Hq (word_value w 0)) as [-> ->]. rewrite Hp. by apply IH.
Qed.

Lemma word_value_bound w : Forall (fun c => lower_hex c = true) w -> (word_value w 0 < 16 ^ N.of_nat (length w))%N.
Proof.
  induction w as [|c w IH] using rev_ind; intros Hw; [done|]. apply Forall_app in Hw as [Hw Hc]. apply list.Forall_cons in Hc as [Hc _].
  destruct (lower_hex_value c Hc) as (d & Hd & Hlt & _). rewrite word_value_snoc, Hd, length_app. cbn [length from_option]; cbv [id].
  rewrite Nat.add_1_r, Nnat.Nat2N.inj_succ, N.pow_succ_r'. specialize (IH Hw). lia.
Qed.

Lemma word_value_acc w : forall acc, word_value w acc = (acc * 16 ^ N.of_nat (length w) + word_value w 0)%N.
Proof.
  induction w as [|c w IH]; intros acc; cbn [word_value length]; [cbn; lia|].
  rewrite IH, (IH (0 * 16 + _)%N), Nnat.Nat2N.inj_succ, N.pow_succ_r'. lia.
Qed.

Definition hyphenated (w1 w2 w3 w4 w5 : list ascii) : string :=
  put w1 (String "-" (put w2 (String "-" (put w3 (String "-" (put w4 (String "-" (put w5 "")))))))).

Lemma parse_dash k acc : parse_hex (String "-" k) acc = parse_hex k acc.
Proof. reflexivity. Qed.

Lemma print_parse_words w1 w2 w3 w4 w5 u :
  Forall (fun c => lower_hex c = true) w1 -> Forall (fun c => lower_hex c = true) w2 ->
  Forall (fun c => lower_hex c = true) w3 -> Forall (fun c => lower_hex c = true) w4 ->
  Forall (fun c => lower_hex c = true) w5 ->
  length w1 = 8%nat -> length w2 = 4%nat -> length w3 = 4%nat -> length w4 = 4%nat -> length w5 = 12%nat ->
  parse_hex (hyphenated w1 w2 w3 w4 w5) 0 = Some u -> print_uuid u = hyphenated w1 w2 w3 w4 w5.
Proof.
  intros H1 H2 H3 H4 H5 L1 L2 L3 L4 L5. unfold hyphenated.
  rewrite !parse_put, !parse_dash, !parse_put, !parse_dash, !parse_put, !parse_dash, !parse_put, !parse_dash, !parse_put by done.
  cbn [parse_hex]. intros [= <-].
  pose proof (word_value_bound w1 H1) as B1. pose proof (word_value_bound w2 H2) as B2.
  pose proof (word_value_bound w3 H3) as B3. pose proof (word_value_bound w4 H4) as B4.
  pose proof (word_value_bound w5 H5) as B5.
  rewrite (word_value_acc w5), (word_value_acc w4), (word_value_acc w3), (word_value_acc w2), L2, L3, L4, L5.
  rewrite L1 in B1. rewrite L2 in B2. rewrite L3 in B3. rewrite L4 in B4. rewrite L5 in B5.
  rewrite <- (print_word w5 ""), <- (print_word w4 (String "-" _)), <- (print_word w3 (String "-" _)),
    <- (print_word w2 (String "-" _)), <- (print_word w1 (String "-" _)) by done.
  rewrite L1, L2, L3, L4, L5. unfold print_uuid.
  set (v1 := word_value w1 0) in *. set (v2 := word_value w2 0) in *. set (v3 := word_value w3 0) in *.
  set (v4 := word_value w4 0) in *. set (v5 := word_value w5 0) in *. clearbody v1 v2 v3 v4 v5.
  change (16 ^ N.of_nat 4)%N with 65536%N in *. change (16 ^ N.of_nat 12)%N with 281474976710656%N in *.
  change (2 ^ 96)%N with 79228162514264337593543950336%N. change (2 ^ 80)%N with 1208925819614629174706176%N.
  change (2 ^ 64)%N with 18446744073709551616%N. change (2 ^ 48)%N with 281474976710656%N.
  change (2 ^ 16)%N with 65536%N.
  f_equal; [div_lia|]. f_equal. f_equal; [div_lia|]. f_equal. f_equal; [div_lia|]. f_equal. f_equal; [div_lia|].
  f_equal. f_equal. div_lia.
Qed.

Lemma canonical_words text :
  is_canonical_hyphenated text = true -> exists w1 w2 w3 w4 w5,
    text = hyphenated w1 w2 w3 w4 w5 /\ Forall (fun c => lower_hex c = true) (w1 ++ w2 ++ w3 ++ w4 ++ w5)%list /\
    length w1 = 8%nat /\ length w2 = 4%nat /\ length w3 = 4%nat /\ length w4 = 4%nat /\ length w5 = 12%nat.
Proof.
  intros [Hl Ha]%andb_prop. apply Nat.eqb_eq in Hl.
  do 36 (destruct text as [|? text]; [discriminate Hl|]). destruct text; [|discriminate Hl]. clear Hl.
  cbn [String.list_ascii_of_string all_enumerated] in Ha. rewrite !andb_true_iff in Ha.
  assert (Hdash : forall c, (nat_of_ascii c =? 45)%nat = true -> c = "-"%char).
  { intros c Hc%Nat.eqb_eq. rewrite <- (ascii_nat_embedding c), Hc. done. }
  repeat match goal with Hx : _ /\ _ |- _ => destruct Hx end.
  repeat match goal with
  | Hx : canonical_byte 8 _ = true |- _ => apply Hdash in Hx
  | Hx : canonical_byte 13 _ = true |- _ => apply Hdash in Hx
  | Hx : canonical_byte 18 _ = true |- _ => apply Hdash in Hx
  | Hx : canonical_byte 23 _ = true |- _ => apply Hdash in Hx
  end. subst.
  eexists [_;_;_;_;_;_;_;_], [_;_;_;_], [_;_;_;_], [_;_;_;_], [_;_;_;_;_;_;_;_;_;_;_;_].
  split; [reflexivity|]. split; [|done]. by repeat constructor.
Qed.

#[export] Instance sample_uuid_text : UuidText.
Proof.
  intros text u. unfold uuid_v7_from_str. destruct (is_canonical_hyphenated text) eqn:Hc; [|done].
  destruct (canonical_words text Hc) as (w1 & w2 & w3 & w4 & w5 & -> & Hw & L1 & L2 & L3 & L4 & L5).
  cbn [uuid_parse_str uuid_hyphenated sample_ext]. intros E. apply bind_Some in E as (v & Hv & E).
  case_decide; [|done]. injection E as <-. rewrite !Forall_app in Hw. destruct Hw as (H1 & H2 & H3 & H4 & H5).
  by apply print_parse_words.
Qed.

(** ** References *)

#[export] Instance sample_debug : DebugText := fun s => String "034" (s +:+ String "034" "").

Definition workspace_text : string := "workspace://" +:+ print_uuid (sample_uuid 7) +:+ "/src/%6dain.rs".

Lemma uri_canonical_roundtrip_witness :
  uri_parse workspace_text = Ok (UriWorkspace (sample_uuid 7) "src/main.rs") /\
  uri_parse (uri_to_string (UriWorkspace (sample_uuid 7) "src/main.rs")) = Ok (UriWorkspace (sample_uuid 7) "src/main.rs").
Proof.
  assert (E : uri_parse workspace_text = Ok (UriWorkspace (sample_uuid 7) "src/main.rs")) by (vm_compute; reflexivity).
  split; [exact E|]. exact (proj1 (uri_canonical_roundtrip _ _ E)).
Defined.

(** ** The queue: publish twice, consume, return, consume, acknowledge *)

Definition queue_script : list QueueOp :=
  [OpPublish (mkPublish "s" "m1" [Byte.x01]); OpPublish (mkPublish "s" "m2" [Byte.x02]);
   OpPublish (mkPublish "s" "m1" [Byte.x01]); OpConsume (mkConsume "s" []); OpNack "d-1";
   OpConsume (mkConsume "s" []); OpAck "d-2"; OpPublish (mkPublish "t" "m3" [])].

Fixpoint queue_run (capacity : nat) (ops : list QueueOp) (s : State) : list (QueueOp * Res QueueReply) * State :=
  match ops with
  | [] => ([], s)
  | op :: ops => let (r, s1) := run_op capacity op s in let (l, s2) := queue_run capacity ops s1 in ((op, r) :: l, s2)
  end.

Lemma queue_run_runs capacity ops : forall s l s', queue_run capacity ops s = (l, s') -> queue_runs capacity s l s'.
Proof.
  induction ops as [|op ops IH]; intros s l s' E; cbn [queue_run] in E; [injection E as <- <-; constructor|].
  destruct (run_op capacity op s) as [r s1] eqn:Er. destruct (queue_run capacity ops s1) as [l2 s2] eqn:E2.
  injection E as <- <-. econstructor; eauto.
Qed.

Definition queue_end : list (QueueOp * Res QueueReply) * State := queue_run 2 queue_script queue_new.

Example queue_end_replies : snd <$> fst queue_end =
  [Ok (Published "m1"); Ok (Published "m2"); Ok (Published "m1");
   Ok (Delivered [mkDelivery "d-1" "m1" [Byte.x01]]); Ok Done;
   Ok (Delivered [mkDelivery "d-2" "m1" [Byte.x01]]); Ok Done; Ok (Published "m3")].
Proof. vm_compute. reflexivity. Qed.

Lemma queue_end_runs : queue_runs 2 queue_new (fst queue_end) (snd queue_end).
Proof. apply queue_run_runs with (ops := queue_script). by destruct queue_end eqn:E. Qed.

(** Published, delivered and acknowledged, [m1] is not enqueued by a retry. *)
Lemma queue_refines_fifo_witness : fifo_runs 2 (mkFifo ∅ ∅ ∅ 0) (fst queue_end) (fifo_of (snd queue_end)) /\
  publish 2 (mkPublish "s" "m1" [Byte.x01]) (snd queue_end) = (Ok "m1", snd queue_end).
Proof.
  destruct (queue_refines_fifo 2 _ _ queue_end_runs) as [Hf Hd]. split; [exact Hf|].
  apply (Hd ltac:(apply Nat.leb_le; vm_compute; reflexivity) (mkPublish "s" "m1" [Byte.x01]) "m1"). vm_compute. left.
Defined.

Lemma queue_stays_bounded_witness : (occupied (snd queue_end) <= 2)%nat.
Proof. apply (queue_stays_bounded 2 _ _ queue_end_runs). Defined.
