(* ===== verification/ToolWitnesses.v ===== *)
(** * Workspaces, files, configuration and adapters on concrete inputs

    Instances of the interfaces of these components and small states built by
    running their services. *)

From S2P Require Import Prelude Domain Ids Text Models StoreBase Store SecurityStore ExtensionStore Ledger Identity Events.
From S2P Require Import Runs RunGraph EffectPolicy Effects Scheduler Resources Kernel RunServices Cancellation Turns Bind.
From S2P Require Import Coordinator Workspace LocalFiles Profiles Config Resolver Bundles Sample.

Open Scope string_scope.
Open Scope Z_scope.

(** ** A workspace under an exclusive lease *)

Definition work_id : WorkspaceId := sample_uuid 70.
Definition t_work : Txn := after (workspaces_insert (NewWorkspace.mk work_id "copy-fork" None None 7)) t_tree.
Definition lease_work : M WorkspaceLeaseRow :=
  acquire_lease work_id root_id WorkspaceAccessMode.ExclusiveWrite [] [] 8.
Definition t_lease : Txn := after lease_work t_work.
Definition lease_id_of : LeaseId := new_uuid_v7 t_work.(t_ids).

Lemma t_work_leases : leases_inv (t_db t_work).
Proof.
  assert (Hn : (t_db t_work).(workspace_leases) = ∅) by (vm_compute; reflexivity).
  split; unfold clash_free; intros *; rewrite Hn, ?lookup_empty; done.
Qed.

Lemma t_lease_steps : rtc lease_step (t_db t_work) (t_db t_lease).
Proof.
  apply rtc_once. destruct (ok_run lease_work t_work) as [r Hr]; [vm_compute; reflexivity|].
  eapply step_service; [|exact Hr|done|done]. constructor.
Qed.

Lemma write_authority_exclusive_witness :
  succeeds (verify_write_authority lease_id_of work_id root_id 1) t_lease = true /\
  (lease_id_of = lease_id_of /\ root_id = root_id /\ 1 = 1).
Proof.
  split; [vm_compute; reflexivity|].
  destruct (ok_run (verify_write_authority lease_id_of work_id root_id 1) t_lease) as [u Hu]; [vm_compute; reflexivity|].
  exact (write_authority_exclusive _ _ _ _ _ _ _ _ _ _ _ _ _ t_work_leases t_lease_steps Hu Hu).
Defined.

(** ** Files *)

Definition file_fs : Fs :=
  <[["ws"] := Dir]> (<[["ws"; "a"] := File [Byte.x01]]> (<[["ws"; "l"] := Symlink false ["a"]]> ∅)).

Lemma read_stays_inside_witness :
  read_file file_fs ["ws"] "l" = Ok [Byte.x01] /\
  exists top c, canonicalize file_fs ["ws"] = Some top /\ top `prefix_of` c /\ file_fs !! c = Some (File [Byte.x01]).
Proof.
  assert (E : read_file file_fs ["ws"] "l" = Ok [Byte.x01]) by (vm_compute; reflexivity).
  split; [exact E|]. exact (read_stays_inside _ _ _ _ E).
Defined.

(** ** A configuration, proposed, tested and activated *)

Definition sample_services : ServicesSection := mkServicesSection None None None None.
Definition no_profile : ProfileSection := mkProfileSection None None None None None None None None None.
Definition sample_limits : LimitsSection :=
  mkLimitsSection (mkQueueLimits 1) (mkAdapterLimits 1 1 1 1 1 1 1 1) (mkEffectLimits 1 1) (mkRunLimits 1)
    (mkDaemonLimits 1 1) (mkApprovalLimits 1) (mkShutdownLimits 1) (mkEventLimits 1 1 1) (mkStreamLimits 1 1)
    (mkFsLimits "0600" "0700" "0600") context_limits_default.
Definition sample_document : ConfigDocument :=
  mkConfigDocument 1 (mkKernelSection "sqlite" None) sample_services
    (<["base" := mkProfileSection None (Some "local-process-t0@1") None None None None None None None]>
      (<["dev" := mkProfileSection (Some "base") None (Some "local-workspace@1") None None None None None None]> ∅))
    sample_limits.

#[export] Instance sample_config_yaml : ConfigYaml :=
  {| yaml_from_str := fun _ => inl sample_document; utf8_error := fun _ => "" |}.

Definition generation_id_a : ConfigGenerationId := sample_uuid 0.
#[export] Instance sample_config_contracts : ConfigContracts := {|
  decode_propose_config := fun b => Some (mkProposeConfigMsg "" b);
  decode_mark_config_tested := fun _ => Some (mkMarkConfigTestedMsg (print_uuid generation_id_a) "");
  decode_activate_config := fun _ => Some (mkActivateConfigMsg (print_uuid generation_id_a) 0);
  decode_rollback_config := fun _ => None |}.

Definition t_blank : Txn := mkTxn empty_db sample_ctx 0 0.
Definition propose_a : M CommandOutcome := propose_config_handle sample_cmd (into_bytes "doc").
Definition test_a : M CommandOutcome := mark_config_tested_handle sample_cmd [].
Definition activate_a : M CommandOutcome := activate_config_handle sample_services sample_cmd [].
Definition t_proposed : Txn := after propose_a t_blank.
Definition t_tested : Txn := after test_a t_proposed.
Definition t_active : Txn := after activate_a t_tested.

Lemma config_ran (h : CommandHandler) ctx payload t :
  h ∈ config_commands sample_services -> succeeds (h ctx payload) t = true ->
  config_step (t_db t) (t_db (after (h ctx payload) t)).
Proof. intros Hh Hs. destruct (ok_run _ _ Hs) as [o Ho]. by eapply config_step_command. Qed.

Lemma t_active_steps : rtc config_step empty_db (t_db t_active).
Proof.
  change empty_db with (t_db t_blank).
  apply rtc_l with (t_db t_proposed); [apply config_ran; [left|vm_compute; reflexivity]|].
  apply rtc_l with (t_db t_tested); [apply config_ran; [right; left|vm_compute; reflexivity]|].
  apply rtc_once, config_ran; [right; right; left|vm_compute; reflexivity].
Qed.

Definition pointer_a : ActiveConfigGenerationRow := ActiveConfigGenerationRow.mk generation_id_a 1 1003.

Lemma active_config_vetted_witness :
  (t_db t_active).(active_config) = Some pointer_a /\
  exists r doc, (t_db t_active).(config_generations) !! generation_id_a = Some r /\
    r.(ConfigGenerationRow.validation_state) = VALIDATED /\ r.(ConfigGenerationRow.test_state) = PASSED /\
    r.(ConfigGenerationRow.digest) = document_digest r.(ConfigGenerationRow.document) /\
    read_document r.(ConfigGenerationRow.document) = Ok doc /\
    forall profile slot v, inherits doc.(cd_profiles) profile slot v ->
      adapter_exists (registered_rows (t_db t_active)) (binding_name v) = true.
Proof.
  assert (E : (t_db t_active).(active_config) = Some pointer_a) by (vm_compute; reflexivity).
  split; [exact E|]. exact (active_config_vetted _ _ t_active_steps E).
Defined.

(** ** Adapters *)

Definition adapter_row (n : nat) : AdapterRegistrationRow :=
  AdapterRegistrationRow.mk (sample_uuid n) "1" "d" "m" "process" [] [] TrustState.Trusted ConformanceState.Passed 5.
Definition candidate (n : nat) : Candidate := mkCandidate (adapter_row n) [mkPortImpl "workspace" 1] (capability_set ["fs"]).
Definition workspace_port : PortRequirement := mkPortRequirement "workspace" 1 ["fs"] T1 None true.

Lemma resolution_is_deterministic_witness :
  (exists r, resolve_port workspace_port [candidate 1; candidate 2] [] = Ok r) /\
  resolve_port workspace_port [candidate 1; candidate 2] [] = resolve_port workspace_port [candidate 2; candidate 1] [].
Proof.
  assert (Hp : Permutation [candidate 1; candidate 2] [candidate 2; candidate 1]) by apply perm_swap.
  assert (Hn : NoDup (identity <$> [candidate 1; candidate 2])) by (vm_compute; repeat constructor; set_solver).
  destruct (resolution_is_deterministic workspace_port _ _ [] Hn Hp) as [E _].
  split; [eexists; vm_compute; reflexivity|exact E].
Defined.

Definition program : bytes := replicate 32 Byte.x61.
Definition run_lock : bytes := into_bytes ("sha256:" +:+ hex_lower program +:+ " run").
Definition sample_manifest : ExtensionManifest :=
  mkExtensionManifest 1 (print_uuid (sample_uuid 80)) "1.0" "adapter" (mkRuntimeSection "process" "run" None None)
    ["workspace@1"] [] ∅.
#[export] Instance sample_bundle_json : BundleJson :=
  {| manifest_from_slice := fun _ => Some sample_manifest; cases_to_vec := fun _ => [] |}.
#[export] Instance sample_registry_json : RegistryJson :=
  {| ports_from_slice := fun _ => Some []; names_from_slice := fun _ => Some [];
     ports_to_vec := fun _ => []; names_to_vec := fun _ => [] |}.

Definition bundle_fs : Fs :=
  <[["b"] := Dir]> (<[["b"; MANIFEST_FILE] := File [Byte.x01]]>
    (<[["b"; LOCK_FILE] := File run_lock]> (<[["b"; "run"] := File program]> ∅))).

Lemma t_blank_keyed : registrations_keyed (t_db t_blank).
Proof. intros k r Hr. cbn in Hr. by rewrite lookup_empty in Hr. Qed.

Definition register_b : M AdapterRegistrationRow := register bundle_fs ["b"] TrustState.Trusted 5.

Lemma verified_bundle_is_registered_witness : exists row vb t2,
  register_b t_blank = (Ok row, after register_b t_blank) /\
  verify_for_spawn bundle_fs row.(AdapterRegistrationRow.adapter_id) row.(AdapterRegistrationRow.version)
    row.(AdapterRegistrationRow.bundle_digest) ["b"] (after register_b t_blank) = (Ok vb, t2) /\ t2 = after register_b t_blank.
Proof.
  destruct (ok_run register_b t_blank) as [row Hr]; [vm_compute; reflexivity|].
  set (v := verify_for_spawn bundle_fs row.(AdapterRegistrationRow.adapter_id) row.(AdapterRegistrationRow.version)
    row.(AdapterRegistrationRow.bundle_digest) ["b"]).
  assert (Hs : match register_b t_blank with
    | (Ok row, t) => succeeds (verify_for_spawn bundle_fs row.(AdapterRegistrationRow.adapter_id)
        row.(AdapterRegistrationRow.version) row.(AdapterRegistrationRow.bundle_digest) ["b"]) t
    | _ => false end = true) by (vm_compute; reflexivity).
  rewrite Hr in Hs. destruct (ok_run v _ Hs) as [vb Hv].
  exists row, vb, (after v (after register_b t_blank)). split; [exact Hr|]. split; [exact Hv|].
  unfold register_b in Hr at 1. pose proof (register_keyed _ _ _ _ _ _ _ t_blank_keyed Hr) as Hk. unfold v in Hv at 1.
  exact (proj1 (verified_bundle_is_registered _ _ _ _ _ _ _ _ _ _ _ _ Hr Hk Hv)).
Defined.

Definition register_u : M AdapterRegistrationRow := register (unlocked_fs [Byte.x01] [Byte.x02]) ["b"] TrustState.Trusted 5.

Lemma unlocked_entrypoint_changes_unseen_witness : exists row vb,
  register_u t_blank = (Ok row, after register_u t_blank) /\
  fst (verify_for_spawn (unlocked_fs [Byte.x01] [Byte.x03]) row.(AdapterRegistrationRow.adapter_id)
    row.(AdapterRegistrationRow.version) row.(AdapterRegistrationRow.bundle_digest) ["b"] (after register_u t_blank)) = Ok vb /\
  fs_read (unlocked_fs [Byte.x01] [Byte.x03]) vb.(vb_entrypoint) = Some [Byte.x03].
Proof.
  destruct (ok_run register_u t_blank) as [row Hr]; [vm_compute; reflexivity|].
  unfold register_u in Hr at 1.
  assert (Hm : manifest_from_slice [Byte.x01] = Some sample_manifest) by reflexivity.
  destruct (unlocked_entrypoint_changes_unseen [Byte.x01] sample_manifest [Byte.x02] [Byte.x03] _ _ _ _ _
    Hm eq_refl t_blank_keyed Hr) as (vb & Hv & _ & _ & Hread).
  exists row, vb. split; [exact Hr|]. split; [by rewrite Hv|exact Hread].
Defined.
