(* ===== verification/HostWitnesses.v ===== *)
(** * Adapter sessions, instances, artifacts and copies on concrete inputs *)

From S2P Require Import Prelude Domain Ids Text Models StoreBase Store SecurityStore ExtensionStore Ledger Identity Events.
From S2P Require Import Runs RunGraph EffectPolicy Effects Scheduler Resources Kernel RunServices Cancellation Turns Bind.
From S2P Require Import Coordinator Workspace LocalFiles Forks Profiles Config Resolver Bundles Protocol Supervisor Artifacts.
From S2P Require Import Sample PipelineWitnesses PortWitnesses ToolWitnesses.

Open Scope string_scope.
Open Scope Z_scope.

(** ** The text of 128-bit identifiers *)

(** The digits [hex_digits] puts in front. *)
Fixpoint digits (n : nat) (u : N) : list ascii :=
  match n with O => [] | S n => (digits n (u / 16)%N ++ [hex_digit (u mod 16)%N])%list end.

Lemma hex_digits_put n : forall u k, hex_digits n u k = PortWitnesses.put (digits n u) k.
Proof. induction n as [|n IH]; intros u k; [done|]. cbn. by rewrite IH, put_app. Qed.

Lemma hex_digit_lower d : (d < 16)%N -> lower_hex (hex_digit d) = true /\ hex_value (hex_digit d) = Some d.
Proof.
  intros Hd. assert (Hin : d ∈ (N.of_nat <$> seq 0 16)).
  { apply list_elem_of_fmap. exists (N.to_nat d). split; [lia|]. apply elem_of_seq. lia. }
  assert (Hall : forallb (fun d => lower_hex (hex_digit d) && bool_decide (hex_value (hex_digit d) = Some d))
    (N.of_nat <$> seq 0 16) = true) by (vm_compute; reflexivity).
  rewrite forallb_forall in Hall. apply list_elem_of_In in Hin. apply Hall, andb_true_iff in Hin as [? ?%bool_decide_eq_true_1]. done.
Qed.

Lemma digits_lower n u : Forall (fun c => lower_hex c = true) (digits n u).
Proof.
  revert u. induction n as [|n IH]; intros u; [constructor|]. cbn. apply Forall_app. split; [apply IH|].
  constructor; [|constructor]. apply hex_digit_lower. apply N.mod_lt. lia.
Qed.

Lemma digits_length n u : length (digits n u) = n.
Proof. revert u. induction n as [|n IH]; intros u; [done|]. cbn. rewrite length_app, IH. cbn. lia. Qed.

Lemma digits_value n u : word_value (digits n u) 0 = (u mod 16 ^ N.of_nat n)%N.
Proof.
  revert u. induction n as [|n IH]; intros u; [by rewrite N.mod_1_r|]. cbn [digits]. rewrite word_value_snoc, IH.
  destruct (hex_digit_lower (u mod 16)) as [_ ->]; [apply N.mod_lt; lia|]. cbn [from_option]. cbv [id].
  rewrite Nnat.Nat2N.inj_succ, N.pow_succ_r', (N.Div0.mod_mul_r u 16); lia.
Qed.

Lemma print_uuid_words u : print_uuid u =
  hyphenated (digits 8 (u / 2 ^ 96)) (digits 4 (u / 2 ^ 80 mod 2 ^ 16)) (digits 4 (u / 2 ^ 64 mod 2 ^ 16))
    (digits 4 (u / 2 ^ 48 mod 2 ^ 16)) (digits 12 (u mod 2 ^ 48)).
Proof. unfold print_uuid, hyphenated. by rewrite !hex_digits_put. Qed.

Lemma parse_words w1 w2 w3 w4 w5 :
  Forall (fun c => lower_hex c = true) (w1 ++ w2 ++ w3 ++ w4 ++ w5)%list ->
  parse_hex (hyphenated w1 w2 w3 w4 w5) 0 =
    Some (word_value w5 (word_value w4 (word_value w3 (word_value w2 (word_value w1 0))))).
Proof. rewrite !Forall_app. intros (? & ? & ? & ? & ?). unfold hyphenated. by rewrite !parse_put, ?parse_dash, !parse_put, ?parse_dash, !parse_put, ?parse_dash, !parse_put, ?parse_dash, !parse_put. Qed.

Lemma print_uuid_parses u : uuid_wf u -> parse_hex (print_uuid u) 0 = Some u.
Proof.
  unfold uuid_wf. intros Hu. rewrite print_uuid_words, parse_words by (rewrite !Forall_app; split_and!; apply digits_lower).
  f_equal. rewrite !(word_value_acc _ (word_value _ _)), !digits_length, !digits_value.
  change (16 ^ N.of_nat 8)%N with (2 ^ 32)%N. change (16 ^ N.of_nat 4)%N with (2 ^ 16)%N. change (16 ^ N.of_nat 12)%N with (2 ^ 48)%N.
  clear -Hu. div_lia.
Qed.

Lemma canonical_word w : forall i k,
  Forall (fun c => lower_hex c = true) w -> (forall j, (i <= j < i + length w)%nat -> j ∉ [8; 13; 18; 23]%nat) ->
  all_enumerated canonical_byte i (String.list_ascii_of_string (PortWitnesses.put w k)) =
  all_enumerated canonical_byte (i + length w) (String.list_ascii_of_string k).
Proof.
  induction w as [|c w IH]; intros i k Hw Hi; [cbn; by rewrite Nat.add_0_r|]. apply list.Forall_cons in Hw as [Hc Hw]. cbn.
  unfold canonical_byte at 1. rewrite decide_False by (apply Hi; cbn; lia). unfold lower_hex in Hc. rewrite Hc. cbn.
  rewrite IH; [by rewrite Nat.add_succ_r|done|]. intros j Hj. apply Hi. cbn. lia.
Qed.

Lemma put_length w k : String.length (PortWitnesses.put w k) = (length w + String.length k)%nat.
Proof. induction w as [|c w IH]; [done|]. cbn. by rewrite IH. Qed.

Lemma hyphenated_canonical w1 w2 w3 w4 w5 :
  Forall (fun c => lower_hex c = true) (w1 ++ w2 ++ w3 ++ w4 ++ w5)%list ->
  length w1 = 8%nat -> length w2 = 4%nat -> length w3 = 4%nat -> length w4 = 4%nat -> length w5 = 12%nat ->
  is_canonical_hyphenated (hyphenated w1 w2 w3 w4 w5) = true.
Proof.
  rewrite !Forall_app. intros (H1 & H2 & H3 & H4 & H5) L1 L2 L3 L4 L5. unfold is_canonical_hyphenated, hyphenated.
  apply andb_true_iff. split; [apply Nat.eqb_eq; repeat (cbn [String.length]; rewrite ?put_length); by rewrite L1, L2, L3, L4, L5|].
  rewrite canonical_word, L1; [|done|intros j Hj; set_unfold; lia]. cbn [Nat.add String.list_ascii_of_string all_enumerated].
  rewrite canonical_word, L2; [|done|intros j Hj; set_unfold; lia]. cbn [Nat.add String.list_ascii_of_string all_enumerated].
  rewrite canonical_word, L3; [|done|intros j Hj; set_unfold; lia]. cbn [Nat.add String.list_ascii_of_string all_enumerated].
  rewrite canonical_word, L4; [|done|intros j Hj; set_unfold; lia]. cbn [Nat.add String.list_ascii_of_string all_enumerated].
  rewrite canonical_word, L5; [|done|intros j Hj; set_unfold; lia]. done.
Qed.

#[export] Instance sample_uuid_form : UuidForm.
Proof.
  split.
  - intros u _. change (uuid_hyphenated u) with (print_uuid u). rewrite print_uuid_words.
    apply hyphenated_canonical; rewrite ?digits_length; try done. rewrite !Forall_app. split_and!; apply digits_lower.
  - intros u v Hu Hv E. apply print_uuid_parses in Hu, Hv. change (print_uuid u = print_uuid v) in E. rewrite E in Hu. congruence.
Qed.

(** ** A codec for frames *)

Definition context_tuple (c : ExecutionContext) :=
  (c.(ec_call_id), c.(ec_operation_id), c.(ec_effect_id), c.(ec_actor_id), c.(ec_run_id), c.(ec_delegation_chain_ref),
   c.(ec_deadline_unix_ms), c.(ec_fencing_token), c.(ec_capability_grant_ids)).
Definition tuple_context (t : string * string * string * string * string * string * Z * Z * list string) : ExecutionContext :=
  let '(a, b, c, d, e, f, g, h, i) := t in mkExecutionContext a b c d e f g h i.

Definition FrameTuple : Type :=
  (string * Z * string * string * string * Z) + ((string * string * string * string * Z * list string * bytes) +
  ((string * string * string * option (string * string * string * string * string * string * Z * Z * list string) * bytes) +
  ((string * bytes * string) + (nat * string)))).

Definition frame_tuple (b : FrameBody) : FrameTuple :=
  match b with
  | BodyBootstrap b => inl (b.(ab_daemon_instance_id), b.(ab_daemon_fencing_epoch), b.(ab_adapter_instance_id),
      b.(ab_expected_bundle_digest), b.(ab_bootstrap_nonce), b.(ab_protocol_version))
  | BodyHello h => inr (inl (h.(ah_adapter_instance_id), h.(ah_adapter_id), h.(ah_adapter_version), h.(ah_bundle_digest),
      h.(ah_protocol_version), h.(ah_implemented_ports), h.(ah_capability_document)))
  | BodyRequest r => inr (inr (inl (r.(pq_call_id), r.(pq_port_id), r.(pq_operation), context_tuple <$> r.(pq_context), r.(pq_payload))))
  | BodyResponse r => inr (inr (inr (inl (r.(ps_call_id), r.(ps_payload), r.(ps_error_code)))))
  | BodyCancel s => inr (inr (inr (inr (0%nat, s))))
  | BodyPing s => inr (inr (inr (inr (1%nat, s))))
  | BodyPong s => inr (inr (inr (inr (2%nat, s))))
  | BodyShutdown s => inr (inr (inr (inr (3%nat, s))))
  end.
Definition tuple_frame (t : FrameTuple) : FrameBody :=
  match t with
  | inl (a, b, c, d, e, f) => BodyBootstrap (mkAdapterBootstrap a b c d e f)
  | inr (inl (a, b, c, d, e, f, g)) => BodyHello (mkAdapterHello a b c d e f g)
  | inr (inr (inl (a, b, c, d, e))) => BodyRequest (mkPortCallRequest a b c (tuple_context <$> d) e)
  | inr (inr (inr (inl (a, b, c)))) => BodyResponse (mkPortCallResponse a b c)
  | inr (inr (inr (inr (0%nat, s)))) => BodyCancel s
  | inr (inr (inr (inr (1%nat, s)))) => BodyPing s
  | inr (inr (inr (inr (2%nat, s)))) => BodyPong s
  | inr (inr (inr (inr (_, s)))) => BodyShutdown s
  end.
Lemma tuple_frame_tuple b : tuple_frame (frame_tuple b) = b.
Proof. destruct b as [[]|[]|[? ? ? [[]|] ?]|[]| | | |]; done. Qed.

#[export] Instance frame_codec : FrameCodec := {|
  frame_encode := fun f => positive_bytes (encode (option_map frame_tuple f));
  frame_decode := fun b => option_map (option_map tuple_frame) (decode (A := option FrameTuple) (bytes_positive b)) |}.

Lemma frame_codec_law f : frame_decode (frame_encode f) = Some f.
Proof.
  cbn. rewrite bytes_positive_bytes, decode_encode. cbn. f_equal. destruct f as [b|]; [|done]. cbn. by rewrite tuple_frame_tuple.
Qed.

(** ** A call and a handshake *)

#[export] Instance still_clock : MonotonicClock := fun _ => 0.
Definition call_a : PortCallRequest := mkPortCallRequest "c" "p" "o" None [].
Definition frames_a : list AdapterFrame := [Some (BodyHello (mkAdapterHello "" "" "" "" 1 [] [])); Some (BodyResponse (mkPortCallResponse "c" [] ""))].
Definition stream_a (fs : list AdapterFrame) : Stream := mkStream (concat (encode_frame <$> fs)) Silent true [] 0.

(** A stray hello is passed over, the response is returned, and the request was sent. *)
Lemma call_ends_by_wire_witness :
  let '(answer, phase, s') := dispatch_call Ready call_a 1000 (stream_a frames_a) in
  phase = Ready /\ answer = inl (mkPortCallResponse "c" [] "") /\
  exists more, s'.(sm_tx) = (encode_frame (Some (BodyRequest call_a)) ++ more)%list.
Proof.
  pose proof (call_ends_by_wire call_a 1000 (stream_a frames_a)) as Hc.
  destruct (dispatch_call Ready call_a 1000 (stream_a frames_a)) as [[answer phase] s'].
  destruct Hc as (Hphase & _ & Hc). destruct (Hc (eq_refl _)) as [(fs & rest & extra & _ & _ & _ & Htx & _) Hans].
  split; [exact Hphase|]. split; [|eexists; exact Htx].
  apply (Hans (take 1 frames_a) (Some (BodyResponse (mkPortCallResponse "c" [] ""))) []).
  - eexists. split; [apply framed_encode; [vm_compute; discriminate|apply frame_codec_law]|].
    eexists. split; [apply framed_encode; [vm_compute; discriminate|apply frame_codec_law]|exact (eq_refl _)].
  - repeat constructor. intros a Hn. inversion Hn.
  - constructor. exact (eq_refl _).
  - intros i _. exact (eq_refl _).
Defined.

Definition identity_a : ExpectedIdentity := mkExpectedIdentity (sample_uuid 903) 1 "i" "a" "1" "d" 1.
Definition hello_a : AdapterHello := mkAdapterHello "i" "a" "1" "d" 1 [] [].

Lemma handshake_pins_identity_witness :
  fst (handshake identity_a "n" 10 (stream_a [Some (BodyHello hello_a)])) = Ok hello_a /\ hello_a.(ah_bundle_digest) = "d".
Proof.
  assert (E : fst (handshake identity_a "n" 10 (stream_a [Some (BodyHello hello_a)])) = Ok hello_a) by (vm_compute; reflexivity).
  split; [exact E|]. destruct (handshake identity_a "n" 10 (stream_a [Some (BodyHello hello_a)])) as [r s'] eqn:Eh. cbn in E. subst r.
  exact (proj1 (proj2 (proj2 (proj2 (proj2 (handshake_pins_identity _ _ _ _ _ _ Eh)))))).
Defined.

(** ** An instance, from its spawn to its end *)

Definition t_registered : Txn := after register_b t_blank.
Definition child_b : SpawnedChild :=
  match fst (register_b t_blank) with
  | Ok row => mkSpawnedChild (sample_uuid 95) row.(AdapterRegistrationRow.adapter_id) row.(AdapterRegistrationRow.version)
      row.(AdapterRegistrationRow.bundle_digest) (sample_uuid 903) 7 "7:1"
  | Err _ => mkSpawnedChild 0 0 "" "" 0 0 ""
  end.
Definition t_spawned : Txn := after (record_spawn child_b 10) t_registered.
Definition t_serving : Txn := after (mark_ready (sample_uuid 95) 11) t_spawned.
Definition t_ended : Txn := after (mark_exited (sample_uuid 95) (Exited 0) 12) t_serving.

Lemma instance_ran m t : instance_service m -> succeeds m t = true -> instance_step (t_db t) (t_db (after m t)).
Proof. intros Hm Hs. destruct (ok_run _ _ Hs) as [u Hu]. by eapply instance_step_service. Qed.

Lemma instance_never_revived_witness : exists r',
  (t_db t_ended).(adapter_instances) !! sample_uuid 95 = Some r' /\ r'.(AdapterInstanceRow.state) = EXITED /\
  exists r, (t_db t_spawned).(adapter_instances) !! sample_uuid 95 = Some r /\ instance_later r r'.
Proof.
  assert (Hs : rtc instance_step (t_db t_spawned) (t_db t_ended)).
  { apply rtc_l with (t_db t_serving); [apply instance_ran; [constructor|vm_compute; reflexivity]|].
    apply rtc_once, instance_ran; [constructor|vm_compute; reflexivity]. }
  assert (Hr : found ((t_db t_spawned).(adapter_instances) !! sample_uuid 95) = true) by (vm_compute; reflexivity).
  apply found_some in Hr as [r Hr]. destruct (instance_never_revived _ _ _ _ Hs Hr) as (r' & Hr' & Hl).
  assert (He : row_check ((t_db t_ended).(adapter_instances) !! sample_uuid 95)
    (fun r => bool_decide (r.(AdapterInstanceRow.state) = EXITED)) = true) by (vm_compute; reflexivity).
  rewrite Hr' in He. cbn in He. apply bool_decide_eq_true_1 in He. eauto 6.
Defined.

(** ** An artifact *)

Definition good_disk : Artifacts.Disk := fun _ => true.
Definition meta_a : PutMetadata := mkPutMetadata "text/plain" SensitivityClass.Internal RetentionClass.Audit None.
Definition art_a : ArtifactId := sample_uuid 96.
Definition art_b : ArtifactId := sample_uuid 97.
Definition after_put : Res ArtifactRow * (gmap string bytes * Txn) := Artifacts.put good_disk art_a [Byte.x01; Byte.x02] meta_a root_id 9 (∅, t_tree).
Definition after_other : Res ArtifactRow * (gmap string bytes * Txn) := Artifacts.put good_disk art_b [Byte.x03] meta_a root_id 9 after_put.2.

Lemma artifact_reads_back_witness : exists row,
  fst (Artifacts.get good_disk (artifact_uri art_a) after_other.2) = Ok (row, [Byte.x01; Byte.x02]) /\
  row.(ArtifactRow.size_bytes) = 2.
Proof.
  assert (H1 : is_ok after_put.1 = true) by (vm_compute; reflexivity).
  assert (H2 : is_ok after_other.1 = true) by (vm_compute; reflexivity).
  destruct after_put as [[row|e] [dir1 t1]] eqn:E1; [|discriminate H1].
  destruct after_other as [[row2|e] [dir2 t2]] eqn:E2; [|discriminate H2].
  assert (Hwf : artifacts_wf (t_db t_tree)).
  { assert (Ha : (t_db t_tree).(artifacts) = ∅) by (vm_compute; reflexivity). intros id r. by rewrite Ha, lookup_empty. }
  assert (Hstep : rtc artifact_step (dir1, t_db t1) (dir2, t_db t2)).
  { apply rtc_once. unfold after_other in E2. rewrite E1 in E2. eapply step_put; [|exact E2]. vm_compute. reflexivity. }
  unfold after_put in E1. destruct (artifact_reads_back good_disk art_a [Byte.x01; Byte.x02] meta_a root_id 9 ∅ t_tree row dir1 t1 (dir2, t_db t2) t2
    good_disk Hwf) as [Hg Hz]; [vm_compute; reflexivity|discriminate|done|exact E1|exact Hstep|done|].
  exists row. split; [|exact Hz]. cbn [fst snd] in Hg |- *. exact (f_equal fst Hg).
Defined.

Lemma range_read_clamps_or_panics_witness :
  range_of [Byte.x01; Byte.x02] 1 18446744073709551614 = Some [Byte.x02] /\
  range_of [Byte.x01; Byte.x02] 1 18446744073709551615 = None.
Proof.
  split; (rewrite range_read_clamps_or_panics; [|lia|lia|cbn; lia]); reflexivity.
Defined.

(** ** A sandbox *)

Definition sandbox_row : AdapterRegistrationRow :=
  AdapterRegistrationRow.mk (sample_uuid 98) "1" "d" "m" "process" [] [] TrustState.Trusted ConformanceState.Passed 5.
Definition sandbox_candidate : Candidate := mkCandidate sandbox_row [mkPortImpl "sandbox" 1] (capability_set REQUIRED_FOR_T2).

Lemma sandbox_never_falls_back_witness : exists inst,
  resolve_sandbox T2 [sandbox_candidate] = Ok inst /\ inst.(sb_is_security_boundary) = true.
Proof.
  destruct (resolve_sandbox T2 [sandbox_candidate]) as [inst|e] eqn:E; [|by vm_compute in E]. exists inst. split; [done|].
  apply (proj1 (proj2 (sandbox_never_falls_back _ _ _ E))). by left.
Defined.

(** ** Copying a directory *)

Fixpoint strip_path (c p : FsPath) : option FsPath :=
  match c, p with
  | [], _ => Some p
  | x :: c, y :: p => if decide (x = y) then strip_path c p else None
  | _, [] => None
  end.
Definition child_name (c p : FsPath) : option string := match strip_path c p with Some [n] => Some n | _ => None end.

Lemma strip_path_app c p q : strip_path c p = Some q <-> p = (c ++ q)%list.
Proof.
  revert p. induction c as [|x c IH]; intros [|y p]; cbn; try (split; congruence).
  case_decide as E; [rewrite IH; subst; split; congruence|]. split; [done|]. intros [= -> _]. done.
Qed.

#[export] Instance sample_host : WorkspaceHost := {|
  git := fun _ fs => (inr "", fs);
  dir_names := fun fs c => elements (list_to_set (omap (fun kv => child_name c kv.1) (map_to_list fs)) : gset string);
  os_error := fun _ _ => "" |}.

#[export] Instance sample_host_laws : HostLaws.
Proof.
  split; [|intros; apply NoDup_elements]. intros fs c n. cbn. rewrite elem_of_elements, elem_of_list_to_set, list_elem_of_omap. split.
  - intros ([p x] & Hx & Hn). apply elem_of_map_to_list in Hx. unfold child_name in Hn. cbn in Hn.
    destruct (strip_path c p) as [[|m [|]]|] eqn:E; try done. injection Hn as ->. apply strip_path_app in E as ->. eauto.
  - intros [x Hx]. exists ((c ++ [n])%list, x). split; [by apply elem_of_map_to_list|]. unfold child_name. cbn.
    by rewrite (proj2 (strip_path_app c _ [n]) eq_refl).
Qed.

(** A source with a file below a directory. *)
Definition copy_fs : Fs :=
  <[["s"] := Dir]> (<[["s"; "d"] := Dir]> (<[["s"; "d"; "f"] := File [Byte.x05]]> (<[["t"] := Dir]> ∅))).

Lemma copy_fs_nodes p x : copy_fs !! p = Some x -> p ∈ [["s"]; ["s"; "d"]; ["s"; "d"; "f"]; ["t"]].
Proof.
  unfold copy_fs. rewrite !lookup_insert_Some, lookup_empty. intros Hp. set_unfold. naive_solver.
Qed.

Lemma copy_a : copy_ok copy_fs ["s"] ["t"] "c".
Proof.
  split; try (by right); try done.
  - split.
    + intros p [x Hx]. apply copy_fs_nodes in Hx. set_unfold.
      destruct Hx as [->|[->|[->|[->|[]]]]]; [by left|by right|by right|by left].
    + intros p [x Hx]. apply copy_fs_nodes in Hx. set_unfold.
      destruct Hx as [->|[->|[->|[->|[]]]]]; (split; [done|]); repeat constructor; done.
  - intros [k Hk]. done.
Qed.

Lemma copy_directory_exact_witness : exists fs',
  copy_directory ["s"] ["t"; "c"] copy_fs = (Ok tt, fs') /\ fs' !! ["t"; "c"; "d"; "f"] = Some (File [Byte.x05]).
Proof.
  destruct (copy_directory_exact copy_fs ["s"] ["t"] "c" copy_a) as (fs' & E & Hin & _). exists fs'. split; [exact E|].
  specialize (Hin ["d"; "f"]). exact Hin.
Defined.
