(* ===== verification/PlanWitnesses.v ===== *)
(** * A planned run and a turn's input on concrete inputs *)

From S2P Require Import Prelude Domain Ids Text Models StoreBase Store SecurityStore ExtensionStore Ledger Identity Events.
From S2P Require Import Runs RunGraph EffectPolicy Effects Scheduler Resources Kernel RunServices Cancellation Turns Bind.
From S2P Require Import Coordinator Workspace LocalFiles Profiles Config Resolver Bundles Planning LoopFeed.
From S2P Require Import ResourceUri Sample PortWitnesses ToolWitnesses.

Open Scope string_scope.
Open Scope Z_scope.

(** ** A profile that binds an adapter by its identifier *)

Definition loop_adapter : AdapterId := sample_uuid 81.
Definition loop_binding : string := print_uuid loop_adapter +:+ "@1".
Definition plan_document : ConfigDocument :=
  mkConfigDocument 1 (mkKernelSection "sqlite" None) sample_services
    {[ "default" := mkProfileSection None (Some "local-process-t0@1") None None None None None (Some loop_binding) None ]}
    sample_limits.

#[export] Instance plan_yaml : ConfigYaml := {| yaml_from_str := fun _ => inl plan_document; utf8_error := fun _ => "" |}.
#[export] Instance loop_registry_json : RegistryJson :=
  {| ports_from_slice := fun _ => Some [mkPortImpl LOOP_PORT_ID 1]; names_from_slice := fun _ => Some ["tools"];
     ports_to_vec := fun _ => []; names_to_vec := fun _ => [Byte.x5b] |}.
#[export] Instance plan_json : PlanJson :=
  {| versions_to_vec := fun _ => []; versions_from_slice := fun _ => Some [1]; capabilities_from_slice := fun _ => None |}.

Definition spec_id : AgentSpecId := sample_uuid 82.
Definition planned_request : CreateTaskRunRequest :=
  mkCreateTaskRunRequest task_a root_id None "chat" (into_bytes "hello") (Some (mkAgentSpecRef spec_id "1" "d")) None 0 "default" "" [] [].
Definition t_spec : Txn := after (put_agent_spec_revision (Some spec_id) "1" [] "d" 4) t_empty.
Definition t_planned_run : Txn := after (create_task_run planned_request sample_cmd 5) t_spec.
Definition loop_registration : AdapterRegistrationRow :=
  AdapterRegistrationRow.mk loop_adapter "1" "d" "m" "process" [] [] TrustState.Trusted ConformanceState.Passed 5.
Definition t_plan : Txn :=
  set_db (set_active_config (Some (ActiveConfigGenerationRow.mk (sample_uuid 83) 1 5))
    (set_config_generations {[ sample_uuid 83 := ConfigGenerationRow.mk (sample_uuid 83) "g" (into_bytes "doc") VALIDATED PASSED 0 5 ]}
      (set_registrations {[ (loop_adapter, "1", "d") := loop_registration ]} (t_db t_planned_run)))) t_planned_run.
Definition loop_bundle : LocalBundle := mkLocalBundle (print_uuid loop_adapter) "1" "d".


(** The stored row of the run. *)
Lemma planned_row : exists row, (t_db t_plan).(runs) !! root_id = Some row /\ succeeds (plan [loop_bundle] row) t_plan = true.
Proof.
  assert (H : row_check ((t_db t_plan).(runs) !! root_id) (fun row => succeeds (plan [loop_bundle] row) t_plan) = true)
    by (vm_compute; reflexivity).
  by apply row_checked in H.
Qed.

Lemma plan_binds_spawnable_adapters_witness : exists row p v id,
  (t_db t_plan).(runs) !! root_id = Some row /\ fst (plan [loop_bundle] row t_plan) = Ok p /\
  p.(ep_environment).(NewResolvedEnvironment.agent_loop_id) = uuid_hyphenated id /\
  spawnable t_plan.(t_db) [loop_bundle] LOOP_PORT_ID v id p.(ep_environment).(NewResolvedEnvironment.agent_loop_version)
    p.(ep_environment).(NewResolvedEnvironment.agent_loop_digest).
Proof.
  destruct planned_row as (row & Hrow & Hs). destruct (ok_run _ _ Hs) as [p Hp].
  destruct (plan_binds_spawnable_adapters _ _ _ _ _ Hp) as (_ & (v & id & Hid & Hsp) & _).
  exists row, p, v, id. split; [exact Hrow|]. split; [by rewrite Hp|exact (conj Hid Hsp)].
Defined.

Lemma sample_print_parse s u : uuid_v7_from_str s = Some u -> uuid_v7_from_str (uuid_hyphenated u) = Some u.
Proof. intros E. by rewrite (uuid_prints _ _ E). Qed.

(** The plan carries the capability the adapter declares; the bound one does not. *)
Lemma bind_forgets_capabilities_witness : exists row p p',
  (t_db t_plan).(runs) !! root_id = Some row /\ fst (plan [loop_bundle] row t_plan) = Ok p /\
  decode_environment (plan_to_contract p) 9 = Ok p' /\
  (NewResolvedBinding.capabilities <$> p.(ep_bindings)) = [[Byte.x5b]] /\
  exists empty, p'.(ep_bindings) = without_capabilities empty <$> p.(ep_bindings).
Proof.
  assert (H : row_check ((t_db t_plan).(runs) !! root_id) (fun row =>
    match fst (plan [loop_bundle] row t_plan) with
    | Ok p => is_ok (decode_environment (plan_to_contract p) 9) &&
              bool_decide ((NewResolvedBinding.capabilities <$> p.(ep_bindings)) = [[Byte.x5b]])
    | Err _ => false end) = true) by (vm_compute; reflexivity).
  apply row_checked in H as (row & Hrow & H). destruct (plan [loop_bundle] row t_plan) as [[p|e] t'] eqn:Hp; [|discriminate H].
  cbn [fst] in H. apply andb_true_iff in H as [Hd Hb%bool_decide_eq_true_1].
  destruct (decode_environment (plan_to_contract p) 9) as [p'|e] eqn:Ed; [|discriminate Hd].
  exists row, p, p'. split; [exact Hrow|]. split; [by rewrite Hp|]. split; [exact Ed|]. split; [exact Hb|].
  assert (Hnames : forall l, capabilities_from_slice (names_to_vec l) = None) by reflexivity.
  destruct (bind_forgets_capabilities sample_print_parse Hnames _ _ _ _ _ _ _ Hp Ed) as (empty & _ & E).
  exists empty. exact E.
Defined.

(** ** A turn's input *)

#[export] Instance short_json : SerdeJson := {| json_to_vec := fun _ => replicate 5 Byte.x5b; json_from_slice := fun _ => None |}.
Definition small_limits : ContextLimits := mkContextLimits 3 4 10.


Definition event_a : Value := VObject [("operation", VString "fs.read")].
Definition marker_a : Value := VObject [("op_counts", VNull); ("child_count", VNumber "1")].

Lemma spawn_guards_survive_witness :
  fit_events 5 marker_a [event_a] = replicate 5 Byte.x5b /\
  exists l, fit_events 5 marker_a [event_a] = json_to_vec (VArray l).
Proof.
  split; [vm_compute; reflexivity|].
  destruct (spawn_guards_survive 5 marker_a [event_a]) as [[E _]|(l & E & _)]; [repeat constructor; eexists; reflexivity|vm_compute in E; discriminate E|].
  exists l. exact E.
Defined.
