(* ===== verification/WorkerWitnesses.v ===== *)
(** * The workers on concrete stores

    A store with a registered bundle and a run that waits for an effect, and one
    tick of a run worker that executes it; a due timer, and a tick of the
    scheduler worker that carries its command out. *)

From S2P Require Import Prelude Domain Ids Text Models StoreBase Store SecurityStore ExtensionStore Ledger Identity Events.
From S2P Require Import Runs RunGraph EffectPolicy Effects Scheduler Resources Kernel RunServices Cancellation Turns Bind.
From S2P Require Import Coordinator Approvals Workspace LocalFiles Profiles Config Resolver Bundles Protocol Supervisor Planning.
From S2P Require Import LoopFeed WorkerBase Worker WorkerSafety SchedulerWorker Sample GateWitnesses ToolWitnesses.

Open Scope string_scope.
Open Scope Z_scope.

(** ** The interfaces *)

#[export] Instance sample_approval_contracts : ApprovalContracts :=
  {| decode_create_approval_request := fun _ => None; decode_respond_approval := fun _ => None |}.
#[export] Instance sample_plan_json : PlanJson :=
  {| versions_to_vec := fun _ => []; versions_from_slice := fun _ => Some [1]; capabilities_from_slice := fun _ => None |}.
#[export] Instance sample_serde_json : SerdeJson := {| json_to_vec := fun _ => [Byte.x5b; Byte.x5d]; json_from_slice := fun _ => None |}.
#[export] Instance sample_instants : MonotonicClock := fun n => Z.of_nat n.
#[export] Instance sample_worker_contracts : WorkerContracts :=
  {| encode_bind_run := fun _ => []; encode_claim_ready_run := fun _ => []; encode_create_task_run := fun _ => [];
     encode_schedule_timer := fun _ => []; encode_create_approval_request := fun _ => []; decode_loop_decision := fun _ => None |}.
#[export] Instance sample_call_contracts : CallContracts :=
  {| encode_execution_request := fun _ => []; encode_status_request := fun _ => []; encode_loop_input := fun _ => [];
     decode_execution_response := fun _ => Some (mkEffectExecutionResponse "succeeded" "data:,42" "");
     decode_status_response := fun _ => None |}.

(** ** The store *)

(** The bundle of [ToolWitnesses], registered next to the run. *)
Definition t_bundle : Txn := after register_b t_tree.
Definition bundle_digest_b : string :=
  match fst (register_b t_tree) with Ok row => row.(AdapterRegistrationRow.bundle_digest) | Err _ => "" end.
Definition tool_bundle : AdapterBundle :=
  mkAdapterBundle (print_uuid (sample_uuid 80)) "1.0" ["b"] bundle_digest_b IsolationNone "process".
Definition worker_deps : RunWorkerDeps :=
  mkRunWorkerDeps (mkCommandCoordinator ∅ 1 (fun _ => false)) 1 (sample_uuid 903) (sample_uuid 900) (sample_uuid 902)
    [tool_bundle] ∅ [] "/run" [] [] None.

Definition tool_request : PrepareRequest :=
  mkPrepareRequest eff_a root_id 1 (sample_uuid 50) "fs.read" [] (mkAdapterBinding (sample_uuid 80) "1.0" bundle_digest_b)
    (resolve (mkInputs None None TrustState.Trusted ConformanceState.Passed None)).
Definition wait_for_tool : M bool :=
  do! prepare_effect eff_env tool_request in
  runs_cas_update root_id (RunCas.mk 0 None None)
    (RunPatch.mk (Some RunState.WaitingTool) None None None None None None (Some (worker_claim worker_deps 20 5)) None None None true).
Definition w_waiting : World := commit_txn (after wait_for_tool t_bundle).

(** ** One tick *)

(** The adapter says hello for the instance the worker has just recorded. *)
Definition tool_instance : AdapterInstanceId := sample_uuid (4 + w_waiting.(w_ids)).
#[export] Instance sample_frames : FrameCodec := {|
  frame_encode := fun _ => [];
  frame_decode := fun _ => Some (Some (BodyHello (mkAdapterHello (print_uuid tool_instance) (print_uuid (sample_uuid 80)) "1.0"
    bundle_digest_b 1 [] []))) |}.

Definition answer {B} (a : Act B) (w : World) : B * World :=
  match a in Act B return B * World with
  | OnStore f => f w
  | ReadDisk => (bundle_fs, w)
  | InstantNow => (0, w)
  | SpawnChild spec => (Ok (mkChild 7 "7:1" spec.(ss_adapter_instance_id)), w)
  | Ipc _ f => (fst (f (mkStream (replicate 4 Byte.x00) Silent true [] 0)), w)
  | CallChild _ phase _ _ => ((inl (mkPortCallResponse "" [] ""), phase), w)
  | TerminateChild _ => (Exited 0, w)
  end.

Fixpoint run_to_end {A} (m : Prog A) (w : World) (calls : list EffectExecutionRequest) : World * list EffectExecutionRequest :=
  match m with
  | Done _ => (w, calls)
  | Do a k => let '(b, w') := answer a w in run_to_end (k b) w' (calls ++ executions a)%list
  end.

Definition tool_tick : World * list EffectExecutionRequest :=
  run_to_end (Worker.tick worker_deps 100 (mkDriver (mkWorkerState ∅ ∅) ∅)) w_waiting [].

Lemma answer_result {B} (a : Act B) w : act_result a w (fst (answer a w)) (snd (answer a w)).
Proof. destruct a; cbn; try done. by destruct (f w). Qed.

Lemma run_to_end_reach w0 i (m : Prog (Res unit * Driver)) : forall w progs calls,
  sys_reach w0 (mkSys w progs calls) -> progs !! i = Some m ->
  exists progs', sys_reach w0 (mkSys (run_to_end m w calls).1 progs' (run_to_end m w calls).2).
Proof.
  induction m as [a|B a k IH]; intros w progs calls Hr Hi; [by exists progs|]. cbn.
  pose proof (answer_result a w) as Ha. destruct (answer a w) as [b w']. cbn in Ha.
  apply (IH b w' (<[i := k b]> progs)); [|by rewrite lookup_insert_eq].
  eapply rtc_r; [exact Hr|]. exact (sys_act (mkSys w progs calls) i B a k b w' Hi Ha).
Qed.

Lemma tool_tick_reached : exists progs, sys_reach w_waiting (mkSys tool_tick.1 progs tool_tick.2).
Proof.
  unfold tool_tick. eapply (run_to_end_reach _ 0%nat _ _ {[ 0%nat := _ ]}); [|by rewrite lookup_singleton_eq].
  apply rtc_once. unshelve eapply (sys_start (mkSys w_waiting ∅ []) 0%nat worker_deps 100); [done|]. apply registry_empty_sound.
Qed.

(** The tick sends one request, and commits the answer. *)
Lemma effect_executed_once_per_claim_witness :
  (exists m, tool_tick.2 = [m] /\ m.(xr_effect_id) = print_uuid eff_a /\ m.(xr_fencing_token) = 1) /\
  row_check (tool_tick.1.(w_db).(effects) !! eff_a) (fun r => bool_decide (r.(EffectRow.state) = EffectState.Committed)) = true /\
  exists used : list (EffectId * Z), NoDup used /\
    Forall2 (fun x m => m.(xr_effect_id) = uuid_hyphenated x.1 /\ m.(xr_fencing_token) = x.2) used tool_tick.2.
Proof.
  split; [eexists; split; [vm_compute; reflexivity|split; vm_compute; reflexivity]|]. split; [vm_compute; reflexivity|].
  destruct tool_tick_reached as (progs & Hr).
  destruct (effect_executed_once_per_claim _ _ Hr) as (used & Hn & Hc & _). exists used. exact (conj Hn Hc).
Defined.

(** ** A due timer *)

Definition timer_id_due : TimerId := sample_uuid 31.
Definition schedule_due : M TimerRow :=
  timer_schedule sched_env (mkScheduleRequest (Some timer_id_due) (Some root_id) "wake" 1000 (replicate 32 Byte.x04)).
Definition t_due : Txn := after schedule_due t_tree.
Definition w_due : World := commit_txn t_due.

Lemma t_due_inv : kernel_inv (t_db t_due).
Proof. apply after_inv; [apply t_tree_inv|apply timer_schedule_kernel|vm_compute; reflexivity]. Qed.

Definition wake_handler : CommandHandler := fun _ _ => ret (mkCommandOutcome OutcomeOk []).
Definition scheduler_deps : SchedulerDeps :=
  mkSchedulerDeps (mkCommandCoordinator {[ "wake" := wake_handler ]} 1 (fun _ => false)) 1 (sample_uuid 900) (sample_uuid 902).

Lemma wake_sound : registry_sound scheduler_deps.(sd_coordinator).(coord_registry).
Proof. apply map_Forall_singleton. intros ctx payload t r t' E. injection E as <- <-. reflexivity. Qed.
Lemma wake_quiet : map_Forall (fun _ h => fires_nothing h) scheduler_deps.(sd_coordinator).(coord_registry).
Proof. apply map_Forall_singleton. intros ctx payload t r t' E. injection E as <- <-. reflexivity. Qed.

Definition store_answer {B} (a : Act B) (w : World) : option (B * World) :=
  match a in Act B return option (B * World) with OnStore f => Some (f w) | _ => None end.

Fixpoint run_stores {A} (m : Prog A) (w : World) : World :=
  match m with
  | Done _ => w
  | Do a k => match store_answer a w with Some (b, w') => run_stores (k b) w' | None => w end
  end.

Lemma run_stores_reach p w0 i (m : Prog (Res unit * TimerBackoff)) : forall w progs,
  rtc (timing_step p) (mkTiming w0 ∅) (mkTiming w progs) -> progs !! i = Some m ->
  exists progs', rtc (timing_step p) (mkTiming w0 ∅) (mkTiming (run_stores m w) progs').
Proof.
  induction m as [a|B a k IH]; intros w progs Hr Hi; [by exists progs|]. cbn.
  destruct (store_answer a w) as [[b w']|] eqn:Ea; [|by exists progs].
  apply (IH b w' (<[i := k b]> progs)); [|by rewrite lookup_insert_eq].
  eapply rtc_r; [exact Hr|]. apply (tim_act p (mkTiming w progs) i B a k b w' Hi).
  destruct a; cbn in Ea; try discriminate Ea. cbn. by injection Ea.
Qed.

Definition w_fired : World := run_stores (dispatch_tick scheduler_deps ∅) w_due.

Lemma w_fired_reached : exists progs, rtc (timing_step (sample_uuid 900)) (mkTiming w_due ∅) (mkTiming w_fired progs).
Proof.
  unfold w_fired. eapply (run_stores_reach _ _ 0%nat _ _ {[ 0%nat := _ ]}); [|by rewrite lookup_singleton_eq].
  apply rtc_once. exact (tim_start _ (mkTiming w_due ∅) 0%nat scheduler_deps ∅ eq_refl eq_refl wake_sound wake_quiet).
Qed.

Lemma due_not_fired : ~ fired w_due.(w_db) timer_id_due.
Proof.
  assert (Hc : row_check (w_due.(w_db).(timers) !! timer_id_due) (fun r => bool_decide (r.(TimerRow.state) = TimerState.Scheduled)) = true)
    by (vm_compute; reflexivity).
  intros (r & Hr & Hs). rewrite Hr in Hc. cbn in Hc. apply bool_decide_eq_true in Hc. congruence.
Qed.

(** The tick fires the timer. *)
Lemma timer_run : exists w progs r, rtc (timing_step (sample_uuid 900)) (mkTiming w_due ∅) (mkTiming w progs) /\
  w.(w_db).(timers) !! timer_id_due = Some r /\ r.(TimerRow.state) = TimerState.Fired.
Proof.
  destruct w_fired_reached as [progs Hr].
  assert (Hc : row_check (w_fired.(w_db).(timers) !! timer_id_due) (fun r => bool_decide (r.(TimerRow.state) = TimerState.Fired)) = true)
    by (vm_compute; reflexivity).
  revert Hr Hc. generalize w_fired. intros w Hr Hc. destruct (w.(w_db).(timers) !! timer_id_due) as [r|] eqn:Ht; [|discriminate Hc].
  exists w, progs, r. split; [exact Hr|]. split; [exact Ht|]. by apply bool_decide_eq_true in Hc.
Qed.

