(* ===== verification/ApiWitnesses.v ===== *)
(** * The control API on concrete states

    A subscriber of the root run's stream next to the dispatcher. *)

From S2P Require Import Prelude Domain Ids Text Models StoreBase Store SecurityStore Ledger Events Runs RunGraph.
From S2P Require Import EffectPolicy Effects Scheduler Resources Kernel RunServices Cancellation Turns Bind Sample.
From S2P Require Import Coordinator Approvals Config Resolver Planning LoopFeed Envelope Journal Dispatch Feed Drain LiveBus ApiAuth EventApi Fanout Views ControlApi PipelineWitnesses.

Open Scope string_scope.
Open Scope Z_scope.

(** ** A subscription *)

Definition api_principals : UidPrincipalMap := {[501 := sample_uuid 910]}.

Definition f_start : Fanout := mkFanout s_start Idle (mkChannel 8 [] true) ∅.
Definition f_staged : Fanout := mkFanout s_staged Idle (mkChannel 8 [] true) ∅.

(** An iteration of the dispatcher next to idle subscribers. *)
Lemma fanout_lift principals p s p' s' bus subs : rtc dispatch_path (p, s) (p', s') ->
  exists bus', rtc (fanout_step principals) (mkFanout s p bus subs) (mkFanout s' p' bus' subs).
Proof.
  intros Hr. remember (p, s) as x eqn:Ex. remember (p', s') as y eqn:Ey. revert p s bus Ex.
  induction Hr as [|x z y [e Ha] _ IH]; intros p s bus ->.
  - injection Ey as -> ->. exists bus. reflexivity.
  - destruct z as [p1 s1]. destruct (IH Ey p1 s1 (match e with Some e => bus_publish (receivers subs) e bus | None => bus end) eq_refl) as [bus' Hr'].
    exists bus'. eapply rtc_l; [|exact Hr']. exact (fan_dispatch principals (mkFanout s p bus subs) e p1 s1 Ha).
Qed.

Definition u_start : Subscriber := mkSubscriber root_stream 0 (bus_subscribe (mkChannel 8 [] true)) 0 Replaying [].

Lemma root_subscribed : subscribe api_principals (Some (mkPeerCreds 501 None)) (sk_text root_stream) 0 (mkChannel 8 [] true) = Answer u_start.
Proof. vm_compute. reflexivity. Qed.

Lemma subscription_has_no_gap_witness :
  exists f u tail, rtc (fanout_step api_principals) f_start f /\ f.(fo_subs) !! 0%nat = Some u /\ u.(su_live) = u_start.(su_live) /\
    u.(su_sent) = ((FrameEvent ∘ project <$>
      seg (Z.to_nat u.(su_after)) (Z.to_nat u.(su_last)) (history (fo_db f) root_stream)) ++ tail)%list.
Proof.
  destruct (dispatch_once_run (sample_uuid 900) 1 1 s_staged staged_ok t_claimed_publishable staged_fenced (fun _ => eq_refl))
    as (s' & E & _ & Hpub & _); [apply (bool_decide_unpack _); vm_compute; exact I|].
  apply dispatch_once_path in E.
  destruct (fanout_lift api_principals _ _ _ _ (mkChannel 8 [] true) {[0%nat := u_start]} E) as [bus Hd].
  set (f := mkFanout s' Idle bus (<[0%nat := replay_turn u_start s'.(ds_journal)]> {[0%nat := u_start]})).
  assert (Hr : rtc (fanout_step api_principals) f_start f).
  { transitivity f_staged; [|transitivity (mkFanout s_staged Idle (mkChannel 8 [] true) {[0%nat := u_start]})].
    - apply rtc_once. apply (fan_kernel api_principals f_start (commit_txn t_claimed)); [|exact t_claimed_publishable].
      exact staged_events.
    - apply rtc_once. exact (fan_subscribe api_principals f_staged 0 _ _ 0 u_start eq_refl ltac:(lia) root_subscribed).
    - eapply rtc_r; [exact Hd|]. exact (fan_replay api_principals (mkFanout s' Idle bus {[0%nat := u_start]}) 0 u_start eq_refl eq_refl). }
  assert (Hu : f.(fo_subs) !! 0%nat = Some (replay_turn u_start s'.(ds_journal))) by (cbn [f fo_subs]; apply lookup_insert_eq).
  destruct (subscription_has_no_gap api_principals f_start f 0 _ (conj started (conj eq_refl eq_refl)) Hr Hu) as ((tail & _ & Hs) & _).
  assert (Hk : su_key (replay_turn u_start s'.(ds_journal)) = root_stream /\ su_live (replay_turn u_start s'.(ds_journal)) = su_live u_start).
  { unfold replay_turn. destruct (fst _) as [page|e]; [|done]. by destruct (rr_events page). }
  destruct Hk as [Hk Hl]. rewrite Hk in Hs. exists f, (replay_turn u_start s'.(ds_journal)), tail. split; [exact Hr|]. split; [exact Hu|]. split; [exact Hl|exact Hs].
Defined.

(** ** Commands *)

#[export] Instance sample_responses : ResponseCodec := {| encode_respond_approval := fun _ => replicate 32 Byte.x09 |}.
Definition api_registry_json : RegistryJson :=
  {| ports_from_slice := fun _ => None; names_from_slice := fun _ => None; ports_to_vec := fun _ => []; names_to_vec := fun _ => [] |}.
Definition api_plan_json : PlanJson :=
  {| versions_to_vec := fun _ => []; versions_from_slice := fun _ => None; capabilities_from_slice := fun _ => None |}.
Definition api_serde_json : SerdeJson := {| json_to_vec := fun _ => []; json_from_slice := fun _ => None |}.

(** A coordinator that takes any response. *)
Definition api_service : ControlApiService :=
  mkControlApiService (mkCommandCoordinator {[ CMD_RESPOND_APPROVAL := fun _ _ => ret (mkCommandOutcome OutcomeOk []) ]} 1 (fun _ => false))
    api_principals None (mkHealthInfo "running" "" 1 "").
Definition peer_501 : option PeerCreds := Some (mkPeerCreds 501 None).
Definition approve_501 : ApprovalResponseRequest := mkApprovalResponseRequest (print_uuid (sample_uuid 40)) "digest" "approve" "" "".
Definition w_start : World := commit_txn t_empty.

Definition responded : bool :=
  match respond_approval api_service peer_501 approve_501 w_start with
  | (Answer _, w') => negb (bool_decide (w'.(w_db).(idempotency_records) = ∅))
  | _ => false
  end.

Lemma responded_once : exists r w', respond_approval api_service peer_501 approve_501 w_start = (r, w') /\ w'.(w_db) <> w_start.(w_db) /\
  assert_epoch 1 w'.(w_db) = Ok tt.
Proof.
  assert (Hr : responded = true) by (vm_compute; reflexivity). unfold responded in Hr.
  assert (He : assert_epoch 1 (w_db (snd (respond_approval api_service peer_501 approve_501 w_start))) = Ok tt) by (vm_compute; reflexivity).
  destruct (respond_approval api_service peer_501 approve_501 w_start) as [[a|s] w'] eqn:E; [|discriminate Hr].
  exists (Answer a), w'. split; [reflexivity|]. split; [|exact He]. apply negb_true_iff, bool_decide_eq_false in Hr.
  intros Ew. apply Hr. rewrite Ew. vm_compute. reflexivity.
Qed.

Lemma approval_answer_is_final_witness :
  exists w', snd (respond_approval api_service peer_501 approve_501 w_start) = w' /\
    fst (respond_approval api_service peer_501 approve_501 w') = Answer "recorded" /\
    w_db (snd (respond_approval api_service peer_501 approve_501 w')) = w'.(w_db).
Proof.
  destruct responded_once as (r & w' & E & Hne & He). exists w'. split; [by rewrite E|].
  assert (Hp : actor_for (cas_principals api_service) peer_501 "" = Answer (sample_uuid 910)) by (vm_compute; reflexivity).
  destruct (approval_answer_is_final _ _ _ _ _ _ E Hne _ peer_501 approve_501 w' Hp Hp) as (H1 & H2 & _); [reflexivity|reflexivity|].
  split; [exact (H2 eq_refl eq_refl He)|exact H1].
Defined.

Definition submit_501 : CommandRequest :=
  mkCommandRequest (print_uuid (sample_uuid 41)) "key-1" "" (hex_lower (replicate 32 Byte.x05)) "" "" 0 CMD_RESPOND_APPROVAL [].

Lemma submit_acts_as_peer_witness :
  exists c env, peer_501 = Some c /\ acts_as_peer api_service c env /\ env.(ce_device_id) = None.
Proof.
  assert (Ha : match fst (submit_command api_service peer_501 submit_501 w_start) with Answer _ => true | Refusal _ => false end = true)
    by (vm_compute; reflexivity).
  destruct (submit_command api_service peer_501 submit_501 w_start) as [r w'] eqn:E.
  destruct (submit_acts_as_peer _ _ _ _ _ _ E) as [[_ [s Hs]]|(c & env & w1 & res & Hc & Hp & Hd & _)].
  - cbn [fst] in Ha. rewrite Hs in Ha. discriminate Ha.
  - exists c, env. split; [exact Hc|]. split; [exact Hp|exact Hd].
Defined.

Lemma unmapped_peer_learns_nothing_witness :
  exists s, forall req w, submit_command api_service (Some (mkPeerCreds 0 None)) req w = (Refusal s, w).
Proof.
  destruct (@unmapped_peer_learns_nothing _ _ _ api_registry_json api_plan_json api_serde_json api_service (Some (mkPeerCreds 0 None)))
    as (s & _ & Hs & _); [vm_compute; reflexivity|]. exists s. exact Hs.
Defined.

(** ** The graph of a task, read while nothing moves *)

Definition graph_text : string := print_uuid (from_option RunRow.task_id 0%N ((t_db t_dep).(runs) !! root_id)).

Lemma run_graph_view_is_closed_witness :
  exists g, run_query (fun _ => t_db t_dep) 0 (get_run_graph api_service peer_501 graph_text) = Answer g /\ g.(rg_dependencies) <> [] /\
    forall v, v ∈ g.(rg_dependencies) -> exists source, source ∈ g.(rg_runs) /\ source.(ar_run_id) = v.(rdv_source_run_id).
Proof.
  assert (Ha : match run_query (fun _ => t_db t_dep) 0 (get_run_graph api_service peer_501 graph_text) with
    Answer g => negb (bool_decide (length g.(rg_dependencies) = 0%nat)) | Refusal _ => false end = true) by (vm_compute; reflexivity).
  destruct (run_query (fun _ => t_db t_dep) 0 (get_run_graph api_service peer_501 graph_text)) as [g|s] eqn:E; [|discriminate Ha].
  destruct (run_graph_view_is_closed api_service peer_501 graph_text (fun _ => t_db t_dep) g) as (task & _ & _ & Hv).
  - exact (ki_graph _ t_dep_inv).
  - exact (ki_runs _ t_dep_inv).
  - intros n. reflexivity.
  - exact E.
  - exists g. split; [reflexivity|]. split; [intros En; rewrite En in Ha; discriminate Ha|]. intros v Hin. destruct (Hv v Hin) as (k & e & _ & _ & source & target & Hs & _ & Es & _).
    exists source. split; [exact Hs|exact Es].
Defined.
