(* ===== verification/GatewayWitnesses.v ===== *)
(** * The gateway on concrete states

    A registry file with one device, a gateway over the kernel of [Sample], and
    the run stream that [PipelineWitnesses] dispatches. *)

From stdpp Require Import countable.
From S2P Require Import Prelude Domain Ids Text Models StoreBase Store SecurityStore Ledger Events Runs RunGraph.
From S2P Require Import EffectPolicy Effects Scheduler Resources Kernel RunServices Cancellation Turns Bind Sample.
From S2P Require Import Coordinator Approvals Profiles Config Resolver Planning LoopFeed Worker Envelope Journal Dispatch Feed Drain LiveBus ApiAuth EventApi.
From S2P Require Import Fanout Views ControlApi Devices GatewayAuth GatewayText Gateway GatewayQueries GatewaySite GateWitnesses PipelineWitnesses WorkerWitnesses ApiWitnesses.

Open Scope string_scope.
Open Scope Z_scope.

(** ** A registry codec *)

Definition entry_tuple (e : DeviceEntry) := (e.(de_token_hash), e.(de_label), e.(de_enabled), e.(de_created_at_ms)).
Definition tuple_entry (t : string * string * bool * Z) : DeviceEntry := let '(a, b, c, d) := t in mkDeviceEntry a b c d.

Definition registry_code (r : DeviceRegistry) : positive := encode (entry_tuple <$> r.(dr_devices)).
Definition registry_decode (p : positive) : option DeviceRegistry :=
  (fun m => mkDeviceRegistry (tuple_entry <$> m)) <$> decode (A := gmap string (string * string * bool * Z)) p.

Lemma registry_decode_code r : registry_decode (registry_code r) = Some r.
Proof.
  unfold registry_decode, registry_code. rewrite decode_encode. simpl. destruct r as [m]. do 2 f_equal. simpl.
  rewrite <- map_fmap_compose. rewrite <- (map_fmap_id m) at 2. apply map_fmap_ext. by intros i [a b c d] _.
Qed.

#[export] Instance sample_device_json : DeviceJson := {|
  registry_to_json := fun r => positive_bytes (registry_code r);
  registry_from_json := fun s => match registry_decode (bytes_positive (into_bytes s)) with Some r => IoOk r | None => IoErr "syntax" end |}.

#[export] Instance sample_device_laws : DeviceJsonLaws.
Proof.
  split.
  - intros reg. simpl. rewrite positive_bytes_text. by eexists.
  - intros reg s. simpl. rewrite positive_bytes_text. intros [= <-]. unfold into_bytes.
    rewrite String.list_byte_of_string_of_list_byte, bytes_positive_bytes, registry_decode_code. done.
Qed.

#[export] Instance sample_gateway_host : GatewayHost := {| gw_uuid := fun _ => sample_uuid 5; gw_now_ms := fun _ => 7; uuid_simple := fun _ => "0" |}.

(** ** A device is revoked *)

Definition dev_path : list string := components "/etc/agentgw/devices.json".
Definition dev_entry : DeviceEntry := mkDeviceEntry (token_hash "gwdev_00") "laptop" true 7.
Definition dev_registry : DeviceRegistry := mkDeviceRegistry {[ "dev-1" := dev_entry ]}.
Definition dev_files : Files := {[ dev_path := registry_to_json dev_registry ]}.

Lemma dev_sidecar : lock_path dev_path <> dev_path.
Proof. by vm_compute. Qed.

Lemma dev_holds : holds dev_path dev_files dev_registry.
Proof. unfold dev_files. rewrite <- insert_empty. apply saved_holds. Qed.

Lemma dev_admitted : authenticate no_io_faults dev_path "gwdev_00" dev_files = IoOk (Some "dev-1").
Proof. unfold authenticate. pose proof dev_holds as Hh. unfold holds in Hh. rewrite Hh. vm_compute. reflexivity. Qed.

Lemma dev_revoked : exists fs', revoke no_io_faults dev_path "dev" dev_files = (IoOk "dev-1", fs').
Proof.
  unfold revoke, update. cbn [no_io_faults io_open_lock io_flock]. assert (Hl : holds dev_path (<[lock_path dev_path := []]> dev_files) dev_registry).
  { apply holds_other; [exact dev_sidecar|exact dev_holds]. }
  unfold holds in Hl. rewrite Hl.
  assert (Hr : revoke_entry "dev" dev_registry = IoOk ("dev-1", mkDeviceRegistry (alter disable "dev-1" (dr_devices dev_registry)))) by (vm_compute; reflexivity).
  rewrite Hr. by eexists.
Qed.

Lemma dev_run : exists s, rtc (device_step dev_path) (start dev_files) s /\
  s.(ds_procs) !! 0%nat = Some (OpRevoke "dev", Returned (IoOk "dev-1")) /\ s.(ds_log) = [(0%nat, OpRevoke "dev")].
Proof.
  destruct dev_revoked as [fs' E]. pose proof (update_runs_alone no_io_faults dev_path (OpRevoke "dev") _ _ _ E) as Hr.
  eexists. split; [|split; [apply solo_procs|reflexivity]].
  eapply rtc_l; [|exact Hr]. exact (step_invoke dev_path (start dev_files) 0 (OpRevoke "dev") eq_refl).
Qed.

Lemma updates_linearize_witness :
  exists s reg, rtc (device_step dev_path) (start dev_files) s /\ s.(ds_log) = [(0%nat, OpRevoke "dev")] /\
    replay s.(ds_log) dev_registry = Some reg /\ holds dev_path s.(ds_files) reg.
Proof.
  destruct dev_run as (s & Hr & _ & Hl).
  destruct (updates_linearize dev_path dev_registry dev_sidecar dev_files s dev_holds Hr) as (reg & Hrep & Hh & _).
  exists s, reg. split; [exact Hr|]. split; [exact Hl|]. split; [exact Hrep|exact Hh].
Defined.

Lemma revoked_device_stays_out_witness :
  authenticate no_io_faults dev_path "gwdev_00" dev_files = IoOk (Some "dev-1") /\
  exists s, rtc (device_step dev_path) (start dev_files) s /\
    authenticate no_io_faults dev_path "gwdev_00" s.(ds_files) <> IoOk (Some "dev-1").
Proof.
  split; [exact dev_admitted|]. destruct dev_run as (s & Hr & Hp & Hl). exists s. split; [exact Hr|].
  apply (revoked_device_stays_out dev_path dev_registry dev_sidecar dev_files s s 0 "dev" "dev-1" dev_holds Hr Hp).
  - reflexivity.
  - rewrite Hl. cbn. constructor.
  - rewrite Hl. intros i Hi. apply elem_of_nil in Hi. destruct Hi.
Defined.

(** ** A remote listener *)

#[export] Instance sample_index_json : IndexJson := {| index_to_json := fun _ => []; index_from_json := fun _ => None |}.
#[export] Instance sample_gateway_codec : GatewayCodec := {|
  encode_create_session := fun m => into_bytes m.(cs_session_id); encode_put_agent_spec_revision := fun _ => [];
  encode_create_task_run_msg := fun _ => []; encode_cancel_run := fun _ => []; encode_resolve_unknown_effect := fun _ => [];
  status_text := fun s => s.(st_message) |}.

Definition remote_options : GwOptions := mkGwOptions "/tmp/agentd/control.sock" "0.0.0.0:80" None (Some "/etc/agentgw/devices.json").
Definition gw_service : ControlApiService :=
  mkControlApiService (mkCommandCoordinator {[ "agentos.spec.v1.CreateSession" := fun _ _ => ret (mkCommandOutcome OutcomeOk []);
      CMD_RESPOND_APPROVAL := respond_approval_handle ]} 1 (fun _ => false)) {[501 := sample_uuid 900]} None (mkHealthInfo "running" "" 1 "").
Definition gw_state (loopback : bool) : AppState :=
  mkAppState gw_service (Some (mkPeerCreds 501 None)) ["index"] (gw_auth remote_options loopback) "/tmp/agentd" (print_uuid (sample_uuid 904)).
Definition gw_start (w : World) : Gateway := mkGateway w default_index dev_files 0.
Definition device_request (token : string) : HttpRequest :=
  mkHttpRequest "/api/sessions" None (Some ("Bearer " +:+ token)).

#[local] Instance no_yaml : ConfigYaml := {| yaml_from_str := fun _ => inr "syntax"; utf8_error := fun _ => "" |}.

(** Staging that meets no fault. *)
Definition staging : ProposalIo := mkProposalIo None None None None (inl ["a.yaml"]) (fun _ => Some 7000000) (fun _ => true).

Lemma remote_requests_need_credentials_witness :
  gw_main None (Some "/etc/agentgw/devices.json") ["--listen"; "0.0.0.0:80"] = Serve remote_options false /\
  forall body g', handle (gw_state false) (fun _ => None) (fun _ _ _ => JsonAnswer unauthorized) no_io_faults
    (mkOutside Delivered false WriteDone WriteDone) staging Post (mkHttpRequest "/api/config/proposals" None None) body (gw_start w_start) =
    (JsonAnswer unauthorized, g') -> g' = gw_start w_start.
Proof.
  assert (Hm : gw_main None (Some "/etc/agentgw/devices.json") ["--listen"; "0.0.0.0:80"] = Serve remote_options false) by (vm_compute; reflexivity).
  split; [exact Hm|]. intros body g' Eh.
  destruct (remote_requests_need_credentials (gw_state false) (fun _ => None) (fun _ _ _ => JsonAnswer unauthorized) _ _ _ _ Hm eq_refl) as [_ Hall].
  destruct (Hall _ _ _ _ _ _ _ _ _ Eh) as [(_ & _ & Hg)|[(_ & Hg)|(caller & token & Hb & _)]]; [exact Hg|exact Hg|discriminate Hb].
Defined.

(** A device stages a document: the file is there, with its bytes. *)
Lemma proposal_staged :
  let '(a, g') := handle (gw_state false) (fun _ => None) (fun _ _ _ => JsonAnswer unauthorized) no_io_faults
    (mkOutside Delivered false WriteDone WriteDone) staging Post (mkHttpRequest "/api/config/proposals" None (Some "Bearer gwdev_00"))
    (VObject [("document", VString "x")]) (gw_start w_start) in
  gw_files g' !! (proposed_dir (gw_state false) ++ [uuid_hyphenated (gw_uuid 0) +:+ ".yaml"])%list = Some (into_bytes "x").
Proof. vm_compute. reflexivity. Qed.

(** ** The index *)

Lemma index_stays_bounded_witness :
  index_ok (gw_index (post_all (gw_state false) [(mkOutside Delivered false WriteDone WriteDone, PostSession, VObject [])] (gw_start w_start))).
Proof.
  apply index_stays_bounded. split; cbn; [unfold MAX_INDEX_ENTRIES; lia|constructor..].
Defined.

(** ** The decisions of the root run *)

Lemma decisions_shown_completely_witness :
  exists s fuel, rtc pipeline_step s_start s /\
    api_run_decisions (gw_state false) fuel (fun _ => None) None (print_uuid root_id) s.(ds_journal) =
      Some (json_ok (VObject [("decisions", VArray (omap (decision_row (effects_of_run None (print_uuid root_id)))
        (project <$> journaled s.(ds_world).(w_db) s.(ds_journal) root_stream)))])).
Proof.
  destruct (dispatch_once_run (sample_uuid 900) 1 1 s_staged staged_ok t_claimed_publishable staged_fenced (fun _ => eq_refl))
    as (s' & E & _ & Hpub & _); [apply (bool_decide_unpack _); vm_compute; exact I|].
  assert (Hr : rtc pipeline_step s_start s').
  { etransitivity; [exact staged_reachable|]. apply rtc_once. exact (step_dispatch _ _ _ _ _ _ E). }
  destruct (reachable_ok s_start s' started Hr) as [[Hok Hmi] _].
  exists s', (S (length (journaled s'.(ds_world).(w_db) s'.(ds_journal) root_stream))). split; [exact Hr|].
  apply (decisions_shown_completely (gw_state false) s'.(ds_world).(w_db) s'.(ds_journal) (print_uuid root_id) root_stream
    (mkPeerCreds 501 None) (sample_uuid 900) Hok Hmi Hpub root_stream_canonical eq_refl).
  - vm_compute. reflexivity.
  - unfold PAGE. lia.
Defined.

(** ** Under a digest of 32 bytes *)

Section Digest32.
Definition padded (b : bytes) : bytes := take 32 (b ++ replicate 32 Byte.x00).
#[local] Instance gw_ext : Ext := {|
  uuid_hyphenated := print_uuid; uuid_parse_str := fun s => parse_hex s 0; uuid_version := fun u => Z.of_N (u / 2 ^ 76 mod 16)%N;
  sha256 := padded; encode_to_vec := fun _ => []; new_uuid_v7 := sample_uuid; clock_ms := fun n => 1000 + Z.of_nat n |}.
#[local] Instance gw_laws : GatewayLaws.
Proof.
  split; [intros n; vm_compute; reflexivity|]. intros b. unfold sha256, gw_ext, padded. rewrite length_take, length_app, length_replicate. lia.
Qed.

(** ** A device answers an approval *)

Definition create_approval32 : M (ApprovalRequestId * ApprovalDigest) := create_request approval_input 7.
Definition t_approval32 : Txn := after create_approval32 t_tree.
Lemma t_approval32_inv : kernel_inv (t_db t_approval32).
Proof. apply after_inv; [apply t_tree_inv|apply create_request_kernel|vm_compute; reflexivity]. Qed.
Definition approval_digest32 : ApprovalDigest :=
  match fst (create_approval32 t_tree) with Ok (_, digest) => digest | Err _ => mkApprovalDigest [] end.

#[local] Instance gw_approvals : ApprovalContracts := {|
  decode_create_approval_request := fun _ => None;
  decode_respond_approval := fun _ => Some (mkRespondApprovalMsg (print_uuid (sample_uuid 80)) (approval_digest_to_string approval_digest32) "approve"
    (print_uuid (sample_uuid 904)) (print_uuid (sample_uuid 900))) |}.

Definition respond_state : AppState :=
  mkAppState (mkControlApiService (mkCommandCoordinator {[ CMD_RESPOND_APPROVAL := respond_approval_handle ]} 1 (fun _ => false))
      {[501 := sample_uuid 900]} None (mkHealthInfo "running" "" 1 ""))
    (Some (mkPeerCreds 501 None)) ["index"] (mkGwAuth (Some "master") None false) "" (print_uuid (sample_uuid 904)).
Definition respond_request : HttpRequest := mkHttpRequest "/api/approvals/respond" None (Some "Bearer master").
Definition respond_body : Value :=
  VObject [("request_id", VString (print_uuid (sample_uuid 80))); ("request_digest", VString (approval_digest_to_string approval_digest32));
    ("decision", VString "approve"); ("device_id", VString "someone-else")].
Definition responded_gw : Response * Gateway :=
  api_respond_approval respond_state Delivered (Some "admin") respond_body (gw_start (commit_txn t_approval32)).

Lemma responded_gw_changed : exists r g, responded_gw = (r, g) /\ g.(gw_world).(w_db) <> t_db t_approval32.
Proof.
  assert (Hr : (bool_decide (size (idempotency_records (w_db (gw_world (snd responded_gw)))) = 1%nat) &&
                bool_decide (size (idempotency_records (t_db t_approval32)) = 0%nat)) = true) by (vm_compute; reflexivity).
  apply andb_prop in Hr as [H1%bool_decide_eq_true H2%bool_decide_eq_true].
  destruct responded_gw as [r g]. exists r, g. split; [reflexivity|]. intros E. simpl in H1. rewrite E in H1. congruence.
Qed.

Lemma approval_names_authenticated_device_witness :
  exists g id row, g = snd responded_gw /\ g.(gw_world).(w_db).(approval_responses) !! id = Some row /\
    uuid_v7_from_str (print_uuid (sample_uuid 904)) = Some row.(ApprovalResponseRow.device_id).
Proof.
  destruct responded_gw_changed as (r & g & E & Hne).
  destruct (approval_names_authenticated_device respond_state no_io_faults ∅ respond_request "admin" Delivered respond_body
    (gw_start (commit_txn t_approval32)) r g) as (c & id & row & device & _ & _ & Hrow & _ & Hd & Hor).
  - exact (lookup_singleton_eq CMD_RESPOND_APPROVAL _).
  - exact (ki_ledger _ t_approval32_inv).
  - reflexivity.
  - exact E.
  - exact Hne.
  - exists g, id, row. split; [by rewrite E|]. split; [exact Hrow|].
    destruct Hor as [[Hd2 _]|[_ (f & reg & e & tok & Hf & _)]]; [|discriminate Hf]. rewrite Hd2 in Hd. exact Hd.
Defined.

(** ** A request comes twice *)

Definition twice_state : AppState :=
  mkAppState (mkControlApiService (mkCommandCoordinator {[ "agentos.spec.v1.CreateSession" := fun _ _ => ret (mkCommandOutcome OutcomeOk []) ]} 1
      (fun _ => false)) {[501 := sample_uuid 900]} None (mkHealthInfo "running" "" 1 ""))
    (Some (mkPeerCreds 501 None)) ["index"] (mkGwAuth None None true) "" "".
Definition lost : Outside := mkOutside (ReplyLost (mkStatus CodeUnavailable "reset")) false WriteDone WriteDone.
Definition arrived : Outside := mkOutside Delivered false WriteDone WriteDone.
Definition named_session : Value := VObject [("session_id", VString "s1")].
Definition first_post : Response * Gateway := post twice_state lost PostSession named_session (gw_start w_start).

Lemma first_post_changed : exists r g, first_post = (r, g) /\ g.(gw_world).(w_db) <> w_start.(w_db) /\ assert_epoch 1 g.(gw_world).(w_db) = Ok tt.
Proof.
  assert (Hr : (bool_decide (size (idempotency_records (w_db (gw_world (snd first_post)))) = 1%nat) &&
                is_ok (assert_epoch 1 (w_db (gw_world (snd first_post))))) = true) by (vm_compute; reflexivity).
  apply andb_prop in Hr as [H1%bool_decide_eq_true H2]. destruct first_post as [r g]. exists r, g. simpl in H1, H2.
  split; [reflexivity|]. split; [|by destruct (assert_epoch 1 (w_db (gw_world g))) as [[]|]]. intros E. rewrite E in H1. revert H1. vm_compute. discriminate.
Qed.

End Digest32.

(** An empty master token counts as one, and the subscription route takes it from
    the query. *)
Example empty_token_admits :
  require_auth no_io_faults ∅ (mkGwAuth (Some "") None false) (mkHttpRequest SSE_PATH (Some "stream_key=run%2Fx&token=") None) = Admit "admin".
Proof. reflexivity. Qed.
