(* ===== verification/BootWitnesses.v ===== *)
(** * The start of the daemon on a concrete machine

    External interfaces that satisfy their laws for every identifier and every
    message, a disk with a configuration document, an installed adapter and a
    bundle, and starts of the daemon on it. *)

From stdpp Require Import countable.
From S2P Require Import Prelude Domain Ids Text Models StoreBase Store SecurityStore ExtensionStore Ledger Identity Permissions.
From S2P Require Import Events Envelope Journal Dispatch Feed Runs RunGraph EffectPolicy Effects Scheduler Resources Kernel RunServices Bind.
From S2P Require Import Coordinator Approvals Recovery LocalFiles Forks Profiles Config Resolver Bundles Protocol Supervisor.
From S2P Require Import Planning WorkerBase Worker Bootstrap OperatorChain BootConfig InstalledAdapters Boot.
From S2P Require Import Sample GateWitnesses PipelineWitnesses PortWitnesses ToolWitnesses HostWitnesses WorkerWitnesses.

Open Scope string_scope.
Open Scope Z_scope.

(** ** Interfaces *)

Definition boot_sha256 (b : bytes) : bytes := take 32 (b ++ replicate 32 Byte.x00).
Definition boot_id (n : nat) : N := (2199023255552 * 2 ^ 80 + 7 * 2 ^ 76 + 2 ^ 63 + N.of_nat n mod 2 ^ 62)%N.
Definition boot_encode (m : Message) : bytes :=
  match m with MsgConfigGeneration generation_id _ _ _ _ _ => into_bytes generation_id | _ => [] end.

#[local] Instance boot_ext : Ext := {|
  uuid_hyphenated := print_uuid; uuid_parse_str := fun s => parse_hex s 0; uuid_version := fun u => Z.of_N (u / 2 ^ 76 mod 16)%N;
  sha256 := boot_sha256; encode_to_vec := boot_encode; new_uuid_v7 := boot_id; clock_ms := fun n => 1000 + Z.of_nat n |}.

Lemma v7_text u : (u < 2 ^ 128)%N -> (u / 2 ^ 76 mod 16 = 7)%N -> uuid_v7_from_str (uuid_hyphenated u) = Some u.
Proof.
  intros Hu Hv. unfold uuid_v7_from_str. pose proof (uuid_text_canonical (H := sample_ext) u Hu) as Hc. cbn [uuid_hyphenated sample_ext] in Hc.
  cbn [uuid_hyphenated uuid_parse_str uuid_version boot_ext]. rewrite Hc, (print_uuid_parses _ Hu). cbn [mbind option_bind].
  rewrite decide_True; [done|]. by rewrite Hv.
Qed.

#[local] Instance boot_laws : BootLaws.
Proof.
  split; [exact v7_text|]. intros b. cbn [sha256 boot_ext]. unfold boot_sha256. rewrite length_take, length_app, length_replicate. lia.
Qed.

(** A message as a number, its bits as bytes. *)
Definition code_bytes `{Countable A} (a : A) : bytes := positive_bytes (encode a).
Definition bytes_code `{Countable A} (b : bytes) : option A := decode (bytes_positive b).
Lemma bytes_code_bytes `{Countable A} (a : A) : bytes_code (code_bytes a) = Some a.
Proof. unfold bytes_code, code_bytes. by rewrite bytes_positive_bytes, decode_encode. Qed.

Definition propose_pair (m : ProposeConfigMsg) := (m.(pc_digest), m.(pc_document_bytes)).
Definition tested_pair (m : MarkConfigTestedMsg) := (m.(mt_generation_id), m.(mt_digest)).
Definition activate_pair (m : ActivateConfigMsg) := (m.(ac_generation_id), m.(ac_expected_active_revision)).

#[local] Instance boot_config_contracts : ConfigContracts := {|
  decode_propose_config := fun b => (fun p => mkProposeConfigMsg p.1 p.2) <$> bytes_code b;
  decode_mark_config_tested := fun b => (fun p => mkMarkConfigTestedMsg p.1 p.2) <$> bytes_code b;
  decode_activate_config := fun b => (fun p => mkActivateConfigMsg p.1 p.2) <$> bytes_code b;
  decode_rollback_config := fun b => (fun p => mkActivateConfigMsg p.1 p.2) <$> bytes_code b |}.
#[local] Instance boot_codec : BootCodec := {|
  encode_propose_config := fun m => code_bytes (propose_pair m);
  encode_mark_config_tested := fun m => code_bytes (tested_pair m);
  encode_activate_config := fun m => code_bytes (activate_pair m);
  encode_rollback_config := fun m => code_bytes (activate_pair m);
  decode_generation_id := from_utf8 |}.

Lemma boot_id_parses n : id_parses (boot_id n).
Proof.
  pose proof (N.mod_lt (N.of_nat n) (2 ^ 62)) as Hr. set (r := (N.of_nat n mod 2 ^ 62)%N) in Hr.
  apply v7_text; unfold boot_id; fold r; [lia|].
  replace (2199023255552 * 2 ^ 80 + 7 * 2 ^ 76 + 2 ^ 63 + r)%N with ((2199023255552 * 16 + 7) * 2 ^ 76 + (2 ^ 63 + r))%N by lia.
  rewrite N.div_add_l, (N.div_small (2 ^ 63 + r)) by lia. reflexivity.
Qed.

#[local] Instance boot_config_laws : BootConfigLaws.
Proof.
  split; [exact boot_id_parses|..]; intros []; unfold decode_propose_config, decode_activate_config, decode_rollback_config, boot_config_contracts;
    cbn [encode_propose_config encode_activate_config encode_rollback_config boot_codec]; by rewrite bytes_code_bytes.
Qed.

Definition installed_tuple (e : InstalledAdapter) :=
  (e.(ia_adapter_id), e.(ia_version), e.(ia_bundle_digest), e.(ia_dir_name), e.(ia_enabled), e.(ia_check), e.(ia_installed_at_ms)).
Definition tuple_installed (t : string * string * string * string * bool * option string * Z) : InstalledAdapter :=
  let '(a, b, c, d, e, f, g) := t in mkInstalledAdapter a b c d e f g.

#[local] Instance boot_install_json : InstallJson := {|
  entries_to_json := fun l => code_bytes (installed_tuple <$> l);
  entries_from_json := fun s =>
    match bytes_code (into_bytes s) with Some l => Ok (tuple_installed <$> l) | None => Err (kerr Internal "syntax") end |}.

#[local] Instance boot_install_laws : InstallJsonLaws.
Proof.
  intros l. eexists. split; [apply positive_bytes_text|]. cbn [entries_from_json boot_install_json]. unfold into_bytes.
  rewrite String.list_byte_of_string_of_list_byte. change (positive_bytes (encode ?x)) with (code_bytes x).
  rewrite bytes_code_bytes. f_equal. induction l as [|[] l IH]; [done|]. cbn. by f_equal.
Qed.

(** ** A start *)

Definition config_text : bytes := into_bytes "services: {}".
Definition boot_disk : Fs := <[["cfg"] := File config_text]> bundle_fs.
Definition boot_config_a : DaemonConfig := mkDaemonConfig ["run"; "agentd"] (Some ["cfg"]) [["b"]] ∅ [] [].
Definition host_a : Host := mkHost boot_disk ∅ (mkWorld empty_db 0 0) ∅.

(** A run of any program that succeeds, with its value named. *)
Lemma ran {S A} (m : ST S A) s : is_ok (fst (m s)) = true -> exists a, m s = (Ok a, snd (m s)).
Proof. destruct (m s) as [[a|e] s']; [by exists a|done]. Qed.

(** The machine after the daemon's process has died. *)
Definition crashed (pid : N) (h : Host) : Host := mkHost h.(ho_fs) (process_exit pid h.(ho_locks)) h.(ho_world) h.(ho_journal).

(** A start, a crash, and another start. *)
Definition starts_twice : bool :=
  match boot 7 boot_config_a host_a with
  | (Ok daemon, h) =>
      match boot 8 boot_config_a (crashed 7 h) with
      | (Ok daemon2, _) => (dm_epoch daemon =? 1) && (dm_epoch daemon2 =? 2) && (length (dm_bundles daemon2) =? 1)%nat
      | _ => false
      end
  | _ => false
  end.

Lemma started_twice : exists daemon h daemon2 h2,
  boot 7 boot_config_a host_a = (Ok daemon, h) /\ boot 8 boot_config_a (crashed 7 h) = (Ok daemon2, h2) /\
  dm_epoch daemon = 1 /\ dm_epoch daemon2 = 2.
Proof.
  assert (Hs : starts_twice = true) by (vm_compute; reflexivity). revert Hs. unfold starts_twice.
  destruct (boot 7 boot_config_a host_a) as [[daemon|e] h]; [|discriminate].
  destruct (boot 8 boot_config_a (crashed 7 h)) as [[daemon2|e] h2] eqn:E2; [|discriminate].
  rewrite !andb_true_iff, !Z.eqb_eq. intros [[Hd Hd2] _]. exists daemon, h, daemon2, h2.
  split; [reflexivity|]. split; [exact E2|]. split; [exact Hd|exact Hd2].
Qed.

Lemma boot_takes_over_witness : exists h daemon2 h2,
  boot 8 boot_config_a (crashed 7 h) = (Ok daemon2, h2) /\ daemon2.(dm_epoch) = 2 /\ kernel_inv h2.(ho_world).(w_db) /\
  fst (lock_acquire h2.(ho_fs) h2.(ho_locks) 9 ["run"; "agentd"]) = inr (LockHeld ["run"; "agentd"; LOCK_FILE_NAME]).
Proof.
  destruct started_twice as (daemon & h & daemon2 & h2 & E & E2 & _ & Hd2). exists h, daemon2, h2.
  destruct (boot_takes_over 7 boot_config_a host_a daemon h (kernel_inv_init None) E) as (Hi & _).
  destruct (boot_takes_over 8 boot_config_a (crashed 7 h) daemon2 h2 Hi E2) as (Hi2 & _ & _ & Hl & _).
  split; [exact E2|]. split; [exact Hd2|]. split; [exact Hi2|exact (Hl 9%N)].
Defined.

(** ** The configuration *)

Definition boot_coordinator_a : Res CommandCoordinator := boot_coordinator default_services 1.
Definition fence_a : DaemonFence := mkDaemonFence (boot_id 0) 1 99999.
Definition world_a : World := mkWorld (set_daemon_fence (Some fence_a) empty_db) 1 1.
Definition configure (fs : Fs) : ST World (option string) :=
  let! c := lift_res boot_coordinator_a in bootstrap_config c DAEMON_PRINCIPAL DAEMON_ACTOR 1 fs ["cfg"] ∅.

Lemma configures : is_ok (fst (configure boot_disk world_a)) = true.
Proof. vm_compute. reflexivity. Qed.

Lemma configured : exists c o w', boot_coordinator default_services 1 = Ok c /\
  bootstrap_config c DAEMON_PRINCIPAL DAEMON_ACTOR 1 boot_disk ["cfg"] ∅ world_a = (Ok o, w').
Proof.
  destruct (ran _ _ configures) as [o E]. revert E. generalize (snd (configure boot_disk world_a)). intros w' E.
  apply bind_ok_inv in E as (c & w1 & E1 & E). exists c, o, w'. split; [exact (f_equal fst E1)|].
  rewrite <- (f_equal snd E1 : world_a = w1) in E. exact E.
Qed.

Lemma boot_puts_document_in_force_witness : exists c o w' a row,
  bootstrap_config c DAEMON_PRINCIPAL DAEMON_ACTOR 1 boot_disk ["cfg"] ∅ world_a = (Ok o, w') /\
  w'.(w_db).(active_config) = Some a /\ o = Some (uuid_hyphenated a.(ActiveConfigGenerationRow.generation_id)) /\
  w'.(w_db).(config_generations) !! a.(ActiveConfigGenerationRow.generation_id) = Some row /\
  Some row.(ConfigGenerationRow.digest) = document_digest <$> fs_read boot_disk ["cfg"].
Proof.
  destruct configured as (c & o & w' & Hc & E).
  assert (Hs : rtc (boot_step DAEMON_PRINCIPAL) empty_db world_a.(w_db)) by (apply rtc_once, boot_step_elsewhere; reflexivity).
  destruct (boot_puts_document_in_force _ _ _ _ _ _ _ _ _ _ _ Hc Hs E) as (document & a & row & Hf & Ha & Ho & Hrow & Hd & _).
  exists c, o, w', a, row. split; [exact E|]. split; [exact Ha|]. split; [exact Ho|]. split; [exact Hrow|]. rewrite Hf, Hd. reflexivity.
Defined.

(** ** The operator *)

Definition resolve_ctx (chain : DelegationChainId) : CommandContext :=
  mkCommandContext (boot_id 901) DAEMON_PRINCIPAL DAEMON_ACTOR None (Some chain) None None.

Lemma operator_can_always_resolve_witness : exists chain w',
  seed_operator_chain 1 1000 DAEMON_PRINCIPAL DAEMON_ACTOR world_a = (Ok chain, w') /\
  forall row request, request.(ru_action) = "mark_succeeded" ->
    fst (authorize (resolve_ctx chain) row request (mkTxn w'.(w_db) sample_ctx 9 9)) = Ok tt.
Proof.
  assert (Hs : rtc authority_step empty_db world_a.(w_db)) by (apply rtc_once, authority_step_elsewhere; split; reflexivity).
  destruct (operator_can_always_resolve world_a.(w_db) Hs) as (_ & _ & Hseed).
  destruct (Hseed 1 1000 world_a eq_refl eq_refl) as (chain & w' & E & Hres). exists chain, w'. split; [exact E|].
  intros row request Hr. apply Hres; [apply rtc_refl|reflexivity|]. rewrite Hr. discriminate.
Defined.

(** ** The history *)

(** The generation a start activated, found in the outbox: nothing is published yet. *)
Definition activated_check (c : CommandCoordinator) : bool :=
  match bootstrap_config c DAEMON_PRINCIPAL DAEMON_ACTOR 1 boot_disk ["cfg"] ∅ world_a with
  | (Ok (Some g), w) => db_check w.(w_db) && is_ok (assert_epoch 1 w.(w_db)) &&
      (size w.(w_db).(outbox_events) <=? 10)%nat && existsb (event_activates g) (history w.(w_db) config_stream)
  | _ => false
  end.

(** Publishing asks for identifiers that can be read back, which the two interfaces agree on. *)
Lemma readable_here id : readable_id (H := sample_ext) id -> readable_id id.
Proof.
  unfold readable_id, uuid_v7_from_str. cbn [uuid_hyphenated uuid_parse_str uuid_version sample_ext boot_ext]. exact (fun Hid => Hid).
Qed.

Lemma publishable_here d : db_check d = true -> publishable d.
Proof.
  intros Hd id r Hr. destruct (db_checked d Hd id r Hr) as (k & Hk & [H1 H2 H3 H4 H5 H6 H7 H8] & Hv & Hs).
  exists k. split; [exact Hk|]. split; [|split; [exact Hv|exact Hs]].
  split; [exact (readable_here _ H1)|exact H2| | | | |exact H7|exact H8]; intros i Hi; apply readable_here;
    [exact (H3 i Hi)|exact (H4 i Hi)|exact (H5 i Hi)|exact (H6 i Hi)].
Qed.

Lemma activated : exists c g w, boot_coordinator default_services 1 = Ok c /\
  bootstrap_config c DAEMON_PRINCIPAL DAEMON_ACTOR 1 boot_disk ["cfg"] ∅ world_a = (Ok (Some g), w) /\
  publishable w.(w_db) /\ assert_epoch 1 w.(w_db) = Ok tt /\ (size w.(w_db).(outbox_events) <= 10)%nat /\
  existsb (event_activates g) (history w.(w_db) config_stream) = true.
Proof.
  assert (Hb : match boot_coordinator default_services 1 with Ok c => activated_check c | Err _ => false end = true)
    by (vm_compute; reflexivity).
  revert Hb. destruct (boot_coordinator default_services 1) as [c|e]; [|discriminate]. unfold activated_check.
  destruct (bootstrap_config _ _ _ _ _ _ _ _) as [[[g|]|e] w] eqn:E; [|discriminate..].
  rewrite !andb_true_iff, Nat.leb_le. intros [[[Hp He] Hsz] Hx]. exists c, g, w.
  split; [reflexivity|]. split; [exact E|]. split; [exact (publishable_here _ Hp)|]. split; [by destruct (assert_epoch 1 (w_db w)) as [[]|]|]. split; [exact Hsz|exact Hx].
Qed.

Lemma rollback_decided_by_history_witness : exists g w w',
  generation_previously_active DAEMON_PRINCIPAL 1 ∅ g w = (Ok true, w') /\ w'.(w_db) = w.(w_db).
Proof.
  destruct activated as (c & g & w & Hc & E & Hp & He & Hsz & Hx). exists g, w. rewrite <- Hx.
  assert (Hk : boot_rel world_a.(w_db) w.(w_db)) by (eapply moves_ok; [eapply bootstrap_config_moves; exact Hc|exact E]).
  clear Hc E. apply (rollback_decided_by_history (mkDispatch world_a ∅ [] 0) (mkDispatch w ∅ [] 0)).
  - split_and!; reflexivity.
  - apply rtc_once. exact (step_kernel (mkDispatch world_a ∅ [] 0) w (kr_events _ _ (bl_kernel _ _ Hk))).
  - exact Hp.
  - etransitivity; [exact Hsz|]. apply Nat2Z.inj_le. rewrite Z2Nat.id by lia. lia.
  - reflexivity.
  - exact He.
Defined.

(** ** An installed adapter is disabled *)

Definition adapter_entry (name : string) : InstalledAdapter := mkInstalledAdapter name "1.0" "digest" (name +:+ "-1.0") true None 5.
Definition index_entries : list InstalledAdapter := [adapter_entry "alpha"; adapter_entry "beta"].
Definition installed_fs : Fs :=
  <[["run"] := Dir]> (<[["run"; INSTALLED_DIR] := Dir]> (<[["run"; INSTALLED_DIR; INDEX_FILE] := File (entries_to_json index_entries)]>
    (<[["run"; INSTALLED_DIR; "alpha-1.0"] := Dir]> (<[["run"; INSTALLED_DIR; "alpha-1.0"; MANIFEST_FILE] := File [Byte.x01]]>
      (<[["run"; INSTALLED_DIR; "beta-1.0"] := Dir]> (<[["run"; INSTALLED_DIR; "beta-1.0"; MANIFEST_FILE] := File [Byte.x01]]> ∅)))))).

Definition node_check (fs : Fs) (p : FsPath) : bool :=
  (bool_decide (parent_path p = []) || match fs !! parent_path p with Some Dir => true | _ => false end) &&
  negb (bool_decide (p = [])) && forallb (fun n => negb (bool_decide (n ∈ [""; "."; ".."]))) p.

Lemma nodes_checked fs : forallb (node_check fs) (map_to_list fs).*1 = true -> well_formed fs.
Proof.
  intros Hc. assert (Hn : forall p, is_Some (fs !! p) -> node_check fs p = true).
  { intros p [n Hp]. rewrite forallb_forall in Hc. apply Hc, list_elem_of_In, list_elem_of_fmap. exists (p, n). by rewrite elem_of_map_to_list. }
  clear Hc. split; intros p Hp; specialize (Hn p Hp); unfold node_check in Hn; rewrite !andb_true_iff, orb_true_iff in Hn;
    destruct Hn as [[Hd Hne] Ho].
  - destruct Hd as [Hd|Hd]; [left; by apply bool_decide_eq_true in Hd|right]. by destruct (fs !! parent_path p) as [[]|].
  - split; [by apply negb_true_iff, bool_decide_eq_false in Hne|]. apply list.Forall_forall. intros n Hn. rewrite forallb_forall in Ho.
    specialize (Ho n (proj1 (list_elem_of_In _ _) Hn)). apply negb_true_iff, bool_decide_eq_false in Ho. unfold ordinary. set_solver.
Qed.

Lemma installed_place : index_place ["run"] installed_fs.
Proof.
  split.
  - apply nodes_checked. vm_compute. reflexivity.
  - right. reflexivity.
  - left. reflexivity.
  - intros n Hn. set_unfold in Hn. destruct Hn as [->|[->|[->|[]]]]; vm_compute; [right; eauto|left; reflexivity..].
Qed.

Lemma installed_loads : load_index ["run"] installed_fs = (Ok index_entries, installed_fs).
Proof.
  rewrite (load_index_run ["run"] _ installed_place). apply (f_equal (fun r => (r, installed_fs))).
  unfold installed_fs, index_path, index_dir. cbn [app].
  do 2 (rewrite lookup_insert_ne by discriminate). rewrite lookup_insert_eq. destruct (index_round_trip index_entries) as (text & -> & E).
  cbn [ok_or res_bind]. rewrite E. reflexivity.
Qed.

Definition disabled_check : bool :=
  match set_enabled ["run"] "alp" None false installed_fs with
  | (Ok e, fs') => bool_decide (e.(ia_adapter_id) = "alpha") &&
      match enabled_bundle_dirs ["run"] fs' with (Ok dirs, _) => bool_decide (dirs = [["run"; INSTALLED_DIR; "beta-1.0"]]) | _ => false end
  | _ => false
  end.
Lemma disabled_run : disabled_check = true.
Proof. vm_compute. reflexivity. Qed.

(** Of two enabled adapters, the next start registers the one that stays enabled. *)
Lemma enabling_decides_next_start_witness : exists e fs' dirs,
  set_enabled ["run"] "alp" None false installed_fs = (Ok e, fs') /\ e.(ia_adapter_id) = "alpha" /\ e.(ia_enabled) = false /\
  enabled_bundle_dirs ["run"] fs' = (Ok dirs, fs') /\ dirs = [["run"; INSTALLED_DIR; "beta-1.0"]].
Proof.
  assert (Hu : unique_identities index_entries) by (apply (bool_decide_unpack _); vm_compute; exact I).
  pose proof disabled_run as Hc. unfold disabled_check in Hc.
  pose proof (enabling_decides_next_start ["run"] installed_fs index_entries "alp" None false installed_place installed_loads Hu) as Ht.
  destruct (set_enabled ["run"] "alp" None false installed_fs) as [[e|] fs']; [|discriminate].
  destruct Ht as (_ & entries' & _ & _ & _ & _ & He & _ & dirs & Hd & _). exists e, fs', dirs.
  rewrite Hd in Hc. apply andb_true_iff in Hc as [Hn Hdirs]. apply bool_decide_eq_true in Hn, Hdirs.
  destruct (He e eq_refl) as (i & e0 & _ & _ & _ & Heq & _). assert (Hen : e.(ia_enabled) = false) by (rewrite Heq; reflexivity).
  split; [reflexivity|]. split; [exact Hn|]. split; [exact Hen|]. split; [exact Hd|exact Hdirs].
Defined.
